(* ===== verification/_CoqProject ===== *)
-Q . S2P
Prelude.v
Bytes.v
Ownership.v
Transport.v
Protocol.v
Codec.v
CodecProofs.v
TaskState.v
Syncobj.v
Ipc.v
Endpoint.v
EndpointProofs.v
EndpointSpec.v
Composer.v
TaskWindows.v
Hwc3.v
Registry.v
Bridge.v
Sink.v
SinkProofs.v
SinkSpec.v
Joint.v
InputRecords.v
InputEngine.v
InputSpec.v
InputState.v
DirectInput.v
DirectSpec.v
InputPath.v
ControlCodec.v
ControlProofs.v
CommandQueue.v
WindowPolicy.v
FrameworkTasks.v
SurfaceBridge.v
LayerStream.v
LayerProofs.v
LayerCodec.v
FrameGrants.v
FrameGrantsSpec.v
PowerControl.v
PowerSpec.v
PresenterWork.v
PresenterSpec.v
PresenterTime.v
PresenterTimeSpec.v
Hoare.v
LayerPresenter.v
LayerLanes.v
LayerReads.v
LayerViews.v
LayerInv.v
LayerRelease.v
LayerCommit.v
LayerScene.v
LayerPresenterSpec.v
EndpointView.v
LayerFrame.v
HostApp.v
HostFrames.v
HostTurn.v
HostView.v
HostQuiet.v
HostBooks.v
HostSteps.v
HostPool.v
HostShow.v
HostLife.v
HostReturn.v
HostActions.v
HostSound.v
HostEvents.v
HostSpec.v
