(* ===== verification/Prelude.v ===== *)
(** * Droidloom: a verification development

    Droidloom runs Android in a container and shows every Android task as a
    window of the host.  This library models the graphics, input and task paths
    of the repository as Rust programs: the Android Composer and its bridge
    (src/graphics/droidloom-composer, droidloom-composer-aidl), the versioned
    record protocol and its codec (droidloom-denial-protocol), the record socket
    (droidloom-denial-ipc), the DRM timelines that order buffer use
    (droidloom-syncobj), the host endpoint (droidloom-denial-endpoint) and the
    Wayland presenter behind it (droidloom-wayland), the layer stream of
    SurfaceFlinger (droidloom-surface-bridge), native input
    (droidloom-input-protocol and the framework's window policy under
    src/android/framework) and the task-control channel (droidloom-task-control),
    over the shared presentation rules of droidloom-transport.

    ** How a frame travels

    The host announces formats and a configure; Android acknowledges it, renders
    into a buffer and submits it to its [Composer]; the [DenialTaskBinding] gives
    the frame a fresh timeline point and sends a Present record with its
    descriptors over a SOCK_SEQPACKET socket; the host's [DenialEndpoint] decodes
    it, checks it against the task's [TaskPresentationState], exports the acquire
    fence and hands the frame to the Wayland presenter.  There the frame waits
    for a grant of the compositor's frame timeline or is shown at once on the
    task's window; when its release point is signalled, a BufferReleased record
    returns the buffer to Android.  Frames SurfaceFlinger composes are replaced
    by a layer stream where a window can show layers directly: scenes are staged,
    assessed and committed onto Wayland subsurfaces, and each read of an
    allocation is released through a lane of timeline points.  The central
    promise is release before reuse: a buffer is not presented again before the
    frame that used it was retired.  Touch and key samples travel the other way,
    through the presenter's input writer and the input engine of the window
    policy; host window commands reach the
    framework through the task-control queue.

    ** Files

    Shared:
    - [Prelude] (this file): results, methods on a mutable receiver, machine
      integers, inversion tactics, the classes [ReadOnly], [FailSafe], [Keeps]
      that classify methods, ordered maps.
    - [Bytes]: little-endian integers, UTF-8, the reader of the codecs.
    - [Hoare]: weakest preconditions of methods ([wp]) with their rules.
    - [Ownership]: the abstract specification of release before reuse
      ([own_step]), the interface [BufferOwner] with its laws, and the theorems
      every implementation inherits.  Implementations: [PresentationState],
      [TaskPresentationState], the endpoint, and [Composer].

    The protocol and the Android side:
    - [Transport]: buffer metadata and [PresentationState] of
      droidloom-transport/src/lib.rs.
    - [Protocol], [Codec], [CodecProofs]: messages, limits and validators of the
      protocol; [encode_android], [decode_android], [encode_denial],
      [decode_denial]; round trips, canonicity and size bounds.
    - [Composer], [TaskWindows], [Hwc3]: one Android display, the table of
      native task windows, the HWC3 session and its command batches.
    - [Registry], [Bridge]: task_control.rs and denial.rs of the composer, the
      reservation table, [DenialTaskBinding] and [RenderTargetDemand].
    - [Sink], [SinkProofs], [SinkSpec]: the render-target sink of
      droidloom-composer-aidl/src/denial.rs.
    - [SurfaceBridge], [LayerStream], [LayerProofs], [LayerCodec]: the records
      between SurfaceFlinger and Composer, the packet decoder, staging area,
      assessment and configuration of the layer stream.
    - [ControlCodec], [ControlProofs], [CommandQueue]: the task-control records
      and the backlog of host window commands.
    - [InputRecords], [InputEngine], [InputSpec], [InputState]: native input
      records, the routing engine, Android's view of the routed input as a
      reference, and the shared state of input_ffi.rs.
    - [WindowPolicy], [FrameworkTasks]: lib.rs and tasks.rs of the framework's
      window policy.
    - [PowerControl], [PowerSpec]: the controller of
      src/android/power/droidloom-power/src/lib.rs, over a class [Actuator] of
      scheduler calls, and its theorems.

    The host side:
    - [TaskState]: the host's [TaskPresentationState], all methods.
    - [Syncobj]: timelines and their cursors over a class [Drm] of kernel calls.
    - [Ipc]: typed sends and receives over a class [SeqPacketOps] of kernel calls.
    - [Endpoint], [EndpointProofs], [EndpointSpec]: [DenialEndpoint], every
      received record and every host call; its invariant; its theorems.
    - [EndpointView]: what a client of the endpoint relies on, as a small view
      per task and one lemma per operation.
    - [FrameGrants], [FrameGrantsSpec]: the grant schedule of frame_timeline.rs
      and the clock of clock.rs.
    - [PresenterWork], [PresenterSpec]: readiness.rs, resize.rs, activation.rs.
    - [PresenterTime], [PresenterTimeSpec]: input times, refresh and scaling.
    - [LayerPresenter]: layers.rs, imports.rs and fence_wakeup.rs.  Its proofs:
      [LayerLanes], [LayerReads], [LayerViews] (the invariants of lanes, reads
      and surfaces), [LayerInv], [LayerRelease], [LayerCommit], [LayerScene]
      (each operation), [LayerPresenterSpec] (the theorems), and [LayerFrame]
      (what a stream leaves alone, for the presenter around it).
    - [HostApp], [HostFrames], [HostTurn]: the presenter of main.rs, its state
      and window geometry; composed frames, the endpoint and layer passes; the
      compositor's callbacks and one turn of the main loop ([turn]).
    - [HostView], [HostQuiet], [HostBooks], [HostSteps], [HostPool], [HostShow],
      [HostLife], [HostReturn], [HostActions], [HostSound], [HostEvents]: the
      books of the presenter (each frame the endpoint owes is in one place), and
      that every operation keeps them.  [HostSpec]: runs of turns and callbacks,
      and the theorems about every reachable state.
    - [Joint]: both sides of one task with two ordered queues between them.
    - [DirectInput], [DirectSpec]: input.rs of the presenter, which writes touch
      and key records, over a class [InputOps] of socket calls; the stream it
      writes.  [InputPath]: the writer composed with the input state of Android.

    ** How code becomes definitions

    A Rust method that takes [&mut self] and returns a [Result] is a [method]:
    it returns the new receiver on both branches, so mutations made before an
    error are kept, and "a rejected call changes nothing" is a theorem
    ([FailSafe]) where it holds.  Integers are [Z] with their ranges as
    predicates; checked, saturating and wrapping arithmetic is written out.  A
    [BTreeMap] or [HashMap] is a [gmap], a set a [gset]; where the source
    iterates over an ordered map the order is [btree_values].  A [String] is its
    UTF-8 bytes.  A borrowed sub-object ([composer_for_display_mut],
    [task_mut], one layer stream of the presenter) is a combinator that runs a
    method on the part and writes it back.  Kernel calls (ioctl, sendmsg,
    recvmsg, descriptors, clocks) are operations of a class over an arbitrary
    kernel state: theorems hold for every kernel behaviour, and witnesses run a
    scripted kernel.  Requests to the Wayland compositor are appended to a log;
    its callbacks are operations that may run in any order and with any
    arguments.  Proxies that the client library allocates are fresh numbers.

    Recursion is structural.  The loops that are not are given a count:
    - [PresenterSpec.drain], [HostApp.pop_loop] and [HostApp.while_work] one turn
      more than there are ready tasks; [PresenterSpec.drain_is_take] and
      [HostLife.wp_while] show that the work is then done;
    - [LayerPresenter.euclid] 65 steps, enough for 32-bit numbers
      ([LayerPresenterSpec.carrier_size_exact]);
    - [LayerPresenter.release_loop], [HostFrames.collect_released] and
      [HostFrames.collect_loop] the number of reads, frames or ready tasks at the
      start; [HostSpec.collect_exact] shows that no frame is left unvisited;
    - the requests of a layer stream 128 per turn, the bound of the source;
    - [DirectInput.cancel_loop] the number of contacts, proved enough
      ([DirectSpec.cancel_all_clears]); [DirectInput.flush_loop] the records in
      the queue and the interrupted calls, an argument, since the kernel decides
      how many there are;
    - [HostFrames.drain_endpoint] the number of records that are ready, an
      argument of [turn], since the peer decides how many there are.

    ** What the theorems show

    - Two peers that follow the code never send each other a record the other
      refuses, with any delay between them, and can always drain every buffer
      ([Joint]); the assumptions of the interleaving are listed there.
    - Release before reuse for the Android stream, the host task state and the
      whole endpoint, by refinement of one specification; render targets of the
      sink follow an abstract life cycle.
    - The layer presenter: over all runs and for every kernel, no operation
      fails for a reason of its own, each ticket is in flight or was reported
      once, the committed buffer of every surface is the one the presenter
      records, commits are atomic, geometry is exact.
    - The host presenter: over all runs and for every kernel, compositor and
      peer, the windows agree with the endpoint on every owed frame, buffer and
      callback, no turn or callback fails because the presenter contradicts its
      own books, unmap requests are answered within the turn, and every
      signalled frame is taken when the frames of a window are visited.
    - Invariants over all reachable states: the task state, the endpoint, one
      display, the window table, the registry, the binding, the sink, frame
      grants, the command backlog.
    - The codecs: every encodable message decodes to itself, every accepted
      packet is the encoding of its message, sizes are bounded, the two
      directions are disjoint, and delivery through the socket preserves message
      and descriptors.
    - Functional outcomes on every branch: presents (accepted, discarded,
      cancelled, refused), releases, window creation, batches; all-or-nothing
      rollback of render targets and windows.
    - Isolation: a command batch treats every display as if it were alone, and a
      host command reaches only the task incarnation it was meant for.
    - Content safety: a display presents only unprotected layers whose
      composition the client took over.
    - Input: the events Android accepted are a consistent stream, and after a
      reset nothing stays down; the records the presenter writes are a legal
      stream of what it tracks, and the fingers Android sees are then the fingers
      the host tracks.
    - Power: after every call the floor of a thread is the highest demand of the
      active sessions that name it, and sessions that stop reporting lose theirs.
    - Monotonicity: timeline points, grant sequences, vertical-sync times and
      identities are strictly increasing and never reused; configure serials are
      compared correctly across their wrap; deadlines do not overflow.
    - Liveness: a retiring task drains, whatever the order of completions.

    ** Not modelled

    Frame tracing and logging; closing of descriptors on drop; socket creation
    and timeouts; the Binder, EGL, minigbm and JNI glue of
    droidloom-composer-aidl and of the framework; the contact routing of main.rs,
    text input, the clipboard, output power and the poll set of the Wayland
    presenter, whose logic is in the client library's callbacks; the supervisor, doctor,
    packaging and image tools, which drive external processes and files; the
    power service around the controller; audio, whose records are small next to
    the PipeWire and AAudio glue; Java, C++ and platform patches.

    ** Plan

    What would come next, in order: the poll set of the presenter and that it
    wakes for every owed release; the input routing of main.rs; the framing of
    the task-control channel; the supervisor's lifecycle transaction; the
    records of the audio protocol. *)

From stdpp Require Export base tactics numbers option list gmap sets fin_maps fin_map_dom strings sorting.
From Stdlib Require Export ZArith Lia.

#[global] Open Scope Z_scope.

(** ** Results

    Rust's [Result<A, E>]: an error is an ordinary value of the model, and the
    [?] operator is the monadic bind. *)

Inductive result (E A : Type) : Type :=
| Ok (a : A)
| Err (e : E).

Arguments Ok {E A} _.
Arguments Err {E A} _.

#[global] Instance result_ret E : MRet (result E) := λ A a, Ok a.
#[global] Instance result_bind E : MBind (result E) :=
  λ A B f m, match m with Ok a => f a | Err e => Err e end.

#[global] Instance result_eq_dec E A `{EqDecision E, EqDecision A} : EqDecision (result E A).
Proof. solve_decision. Defined.

(** [map_err], which Rust's [?] applies through [From]. *)
Definition map_err {E F A} (f : E → F) (m : result E A) : result F A :=
  match m with Ok a => Ok a | Err e => Err (f e) end.

(** [option.ok_or(e)]. *)
Definition ok_or {E A} (o : option A) (e : E) : result E A :=
  match o with Some a => Ok a | None => Err e end.

(** [if b { return Err(e) }]. *)
Definition fail_if {E} (b : bool) (e : E) : result E unit :=
  if b then Err e else Ok tt.

Definition is_ok {E A} (m : result E A) : bool :=
  match m with Ok _ => true | Err _ => false end.

(** ** Methods on [&mut self]

    A method that borrows its receiver mutably and returns a [Result] keeps
    the mutations it made before an error: the state is returned on both
    branches, so that "a rejected call changes nothing" is a statement to
    prove and not a consequence of the encoding. *)

Definition method (S E A : Type) : Type := S → S * result E A.

#[global] Instance method_ret S E : MRet (method S E) := λ A a s, (s, Ok a).
#[global] Instance method_bind S E : MBind (method S E) :=
  λ A B f m s, match m s with
               | (s', Ok a) => f a s'
               | (s', Err e) => (s', Err e)
               end.

Definition get {S E} : method S E S := λ s, (s, Ok s).
Definition put {S E} (s' : S) : method S E unit := λ _, (s', Ok tt).
Definition gets {S E A} (f : S → A) : method S E A := λ s, (s, Ok (f s)).
Definition modify {S E} (f : S → S) : method S E unit := λ s, (f s, Ok tt).
Definition lift {S E A} (r : result E A) : method S E A := λ s, (s, r).
Definition throw {S E A} (e : E) : method S E A := λ s, (s, Err e).
(** A call whose [Result] the caller inspects itself. *)
Definition attempt {S E F A} (m : method S E A) : method S F (result E A) :=
  λ s, let '(s', r) := m s in (s', Ok r).
Definition require {S E} (b : bool) (e : E) : method S E unit :=
  λ s, (s, if b then Ok tt else Err e).
Definition reject {S E} (b : bool) (e : E) : method S E unit :=
  λ s, (s, if b then Err e else Ok tt).

(** ** Machine integers

    A [w]-bit integer is a [Z] with its range as a predicate; wrap-around and
    checked arithmetic are written out where the source uses them. *)

Definition is_u8 (x : Z) : Prop := 0 ≤ x < 256.
Definition is_u16 (x : Z) : Prop := 0 ≤ x < 65536.
Definition is_u32 (x : Z) : Prop := 0 ≤ x < 4294967296.
Definition is_u64 (x : Z) : Prop := 0 ≤ x < 18446744073709551616.
Definition is_i32 (x : Z) : Prop := -2147483648 ≤ x < 2147483648.

Definition u32_max : Z := 4294967295.
Definition u64_max : Z := 18446744073709551615.

#[global] Instance is_u8_dec x : Decision (is_u8 x).
Proof. unfold is_u8. solve_decision. Defined.
#[global] Instance is_u16_dec x : Decision (is_u16 x).
Proof. unfold is_u16. solve_decision. Defined.
#[global] Instance is_u32_dec x : Decision (is_u32 x).
Proof. unfold is_u32. solve_decision. Defined.
#[global] Instance is_u64_dec x : Decision (is_u64 x).
Proof. unfold is_u64. solve_decision. Defined.
#[global] Instance is_i32_dec x : Decision (is_i32 x).
Proof. unfold is_i32. solve_decision. Defined.

(** [u32::checked_add] and [u64::checked_add]. *)
Definition checked_add (max x y : Z) : option Z :=
  if x + y <=? max then Some (x + y) else None.

(** [u32::wrapping_sub]. *)
Definition wrapping_sub32 (x y : Z) : Z := (x - y) mod 4294967296.

Ltac unfold_ints := unfold is_u8, is_u16, is_u32, is_u64, is_i32, u32_max, u64_max in *.
Ltac int_lia := unfold_ints; lia.

Definition zlen {A} (l : list A) : Z := Z.of_nat (length l).

(** ** Bind inversion *)

Section bind_lemmas.

Context {E A B : Type}.

Lemma bind_Ok (m : result E A) (f : A → result E B) b :
  m ≫= f = Ok b ↔ ∃ a, m = Ok a ∧ f a = Ok b.
Proof.
  destruct m as [a|e]; cbn; split; [eauto | | discriminate |].
  - intros (a' & [= <-] & H). exact H.
  - intros (a' & ? & _). discriminate.
Qed.

Lemma bind_Err (m : result E A) (f : A → result E B) e :
  m ≫= f = Err e ↔ m = Err e ∨ ∃ a, m = Ok a ∧ f a = Err e.
Proof.
  destruct m as [a|e']; cbn; split.
  - eauto.
  - intros [?|(a' & [= <-] & H)]; [discriminate | exact H].
  - intros [= ->]. by left.
  - intros [[= ->]|(a' & ? & _)]; [done | discriminate].
Qed.

Lemma ret_Ok (a b : A) : (mret a : result E A) = Ok b ↔ a = b.
Proof. cbv. split; congruence. Qed.

Lemma map_err_Ok {F} (f : E → F) (m : result E A) a :
  map_err f m = Ok a ↔ m = Ok a.
Proof. destruct m; cbn; split; congruence. Qed.

Lemma ok_or_Ok (o : option A) (e : E) a : ok_or o e = Ok a ↔ o = Some a.
Proof. destruct o; cbn; split; congruence. Qed.

Lemma fail_if_Ok b (e : E) u : fail_if b e = Ok u ↔ b = false.
Proof. destruct b, u; cbn; split; congruence. Qed.

Lemma fail_if_run b (e : E) : b = false → fail_if b e = Ok tt.
Proof. by intros ->. Qed.

Lemma bind_intro (m : result E A) (f : A → result E B) a b :
  m = Ok a → f a = Ok b → m ≫= f = Ok b.
Proof. by intros ->. Qed.

Lemma ok_bind (a : A) (f : A → result E B) : (Ok a ≫= f) = f a.
Proof. done. Qed.

End bind_lemmas.

(** [step_ok H] decomposes a successful run of a [result] computation into the
    successful runs of its parts. *)
Ltac inv_ok :=
  repeat match goal with
  | H : Ok _ = Ok _ |- _ => injection H as H
  | H : Err _ = Ok _ |- _ => discriminate H
  | H : Ok _ = Err _ |- _ => discriminate H
  | H : (_ ≫= _) = Ok _ |- _ =>
      let a := fresh "a" in let H1 := fresh "Hm" in
      apply bind_Ok in H as (a & H1 & H)
  | H : @mret _ _ _ _ = Ok _ |- _ => apply (proj1 (ret_Ok _ _)) in H
  | H : map_err _ _ = Ok _ |- _ => apply map_err_Ok in H
  | H : ok_or _ _ = Ok _ |- _ => apply ok_or_Ok in H
  | H : fail_if _ _ = Ok _ |- _ => apply fail_if_Ok in H
  | u : unit |- _ => destruct u
  | p : (_ * _)%type |- _ => destruct p
  end.

(** ** Inverting and classifying methods *)

Section method_lemmas.

Context {St E : Type}.
Implicit Types s : St.

Lemma m_bind_Ok {A B} (m : method St E A) (f : A → method St E B) s s' b :
  (m ≫= f) s = (s', Ok b) ↔ ∃ s1 a, m s = (s1, Ok a) ∧ f a s1 = (s', Ok b).
Proof.
  unfold mbind, method_bind. destruct (m s) as [s1 [a|e]]; split.
  - eauto.
  - intros (s2 & a' & [= <- <-] & H). exact H.
  - discriminate.
  - intros (? & ? & ? & _). discriminate.
Qed.

Lemma m_bind_Err {A B} (m : method St E A) (f : A → method St E B) s s' e :
  (m ≫= f) s = (s', Err e) ↔
  m s = (s', Err e) ∨ ∃ s1 a, m s = (s1, Ok a) ∧ f a s1 = (s', Err e).
Proof.
  unfold mbind, method_bind. destruct (m s) as [s1 [a|e']]; split.
  - eauto.
  - intros [?|(s2 & a' & [= <- <-] & H)]; [discriminate | exact H].
  - intros [= <- <-]. by left.
  - intros [[= <- <-]|(? & ? & ? & _)]; [done | discriminate].
Qed.

Lemma m_bind_run {A B} (m : method St E A) (f : A → method St E B) s s' r :
  (m ≫= f) s = (s', r) →
  (∃ e, m s = (s', Err e) ∧ r = Err e) ∨ ∃ s1 a, m s = (s1, Ok a) ∧ f a s1 = (s', r).
Proof.
  unfold mbind, method_bind. destruct (m s) as [s1 [a|e]].
  - eauto.
  - intros [= <- <-]. eauto.
Qed.

Lemma m_get_Ok s s' a : @get St E s = (s', Ok a) ↔ s' = s ∧ a = s.
Proof. unfold get. split; [intros [= <- <-] | intros [-> ->]]; done. Qed.

Lemma m_put_Ok s0 s s' u : @put St E s0 s = (s', Ok u) ↔ s' = s0.
Proof. unfold put. destruct u. split; [intros [= <-] | intros ->]; done. Qed.

Lemma m_modify_Ok f s s' u : @modify St E f s = (s', Ok u) ↔ s' = f s.
Proof. unfold modify. destruct u. split; [intros [= <-] | intros ->]; done. Qed.

Lemma m_gets_Ok {A} (f : St → A) s s' a : @gets St E A f s = (s', Ok a) ↔ s' = s ∧ a = f s.
Proof. unfold gets. split; [intros [= <- <-] | intros [-> ->]]; done. Qed.

Lemma m_lift_Ok {A} (r : result E A) s s' a : lift r s = (s', Ok a) ↔ s' = s ∧ r = Ok a.
Proof. unfold lift. split; [intros [= <- <-] | intros [-> ->]]; done. Qed.

Lemma m_reject_Ok b (e : E) s s' u : reject b e s = (s', Ok u) ↔ s' = s ∧ b = false.
Proof.
  unfold reject. destruct b, u; split.
  - discriminate.
  - by intros [_ ?].
  - by intros [= <-].
  - by intros [-> _].
Qed.

Lemma m_ret_Ok {A} (a b : A) s s' : (mret a : method St E A) s = (s', Ok b) ↔ s' = s ∧ a = b.
Proof. unfold mret, method_ret. split; [intros [= <- <-] | intros [-> ->]]; done. Qed.

Lemma m_throw_Ok {A} (e : E) s s' (a : A) : throw e s = (s', Ok a) ↔ False.
Proof. unfold throw. split; [discriminate | done]. Qed.

(** A method that never changes its receiver; one that never fails; and one
    whose failures leave the receiver as it was. *)
Class ReadOnly {A} (m : method St E A) : Prop := read_only s : (m s).1 = s.
Class Total {A} (m : method St E A) : Prop := total s : is_ok (m s).2 = true.
Class FailSafe {A} (m : method St E A) : Prop :=
  fail_safe s s' e : m s = (s', Err e) → s' = s.

#[global] Instance ReadOnly_get : ReadOnly (@get St E).
Proof. done. Qed.
#[global] Instance ReadOnly_gets {A} (f : St → A) : ReadOnly (gets f).
Proof. done. Qed.
#[global] Instance ReadOnly_lift {A} (r : result E A) : ReadOnly (lift r).
Proof. done. Qed.
#[global] Instance ReadOnly_reject b (e : E) : ReadOnly (reject b e).
Proof. done. Qed.
#[global] Instance ReadOnly_ret {A} (a : A) : ReadOnly (mret a).
Proof. done. Qed.
#[global] Instance ReadOnly_throw {A} (e : E) : ReadOnly (A := A) (throw e).
Proof. done. Qed.
#[global] Instance ReadOnly_bind {A B} (m : method St E A) (f : A → method St E B) :
  ReadOnly m → (∀ a, ReadOnly (f a)) → ReadOnly (m ≫= f).
Proof.
  intros Hm Hf s. unfold mbind, method_bind. specialize (Hm s).
  destruct (m s) as [s1 [a|e]]; cbn in *; subst; [apply Hf | done].
Qed.

#[global] Instance Total_put s : Total (put s).
Proof. done. Qed.
#[global] Instance Total_modify f : Total (modify f).
Proof. done. Qed.
#[global] Instance Total_ret {A} (a : A) : Total (mret a).
Proof. done. Qed.
#[global] Instance Total_bind {A B} (m : method St E A) (f : A → method St E B) :
  Total m → (∀ a, Total (f a)) → Total (m ≫= f).
Proof.
  intros Hm Hf s. unfold mbind, method_bind. specialize (Hm s).
  destruct (m s) as [s1 [a|e]]; cbn in *; [apply Hf | done].
Qed.

Lemma ReadOnly_FailSafe {A} (m : method St E A) : ReadOnly m → FailSafe m.
Proof. intros Hm s s' e H. specialize (Hm s). by rewrite H in Hm. Qed.

Lemma Total_FailSafe {A} (m : method St E A) : Total m → FailSafe m.
Proof. intros Hm s s' e H. specialize (Hm s). by rewrite H in Hm. Qed.

(** Check first, mutate last. *)
Lemma FailSafe_bind_readonly {A B} (m : method St E A) (f : A → method St E B) :
  ReadOnly m → (∀ a, FailSafe (f a)) → FailSafe (m ≫= f).
Proof.
  intros Hm Hf s s' e [H|(s1 & a & Ha & H)]%m_bind_Err; specialize (Hm s).
  - by rewrite H in Hm.
  - rewrite Ha in Hm; cbn in Hm; subst. by eapply Hf.
Qed.

Lemma FailSafe_bind_total {A B} (m : method St E A) (f : A → method St E B) :
  FailSafe m → (∀ a, Total (f a)) → FailSafe (m ≫= f).
Proof.
  intros Hm Hf s s' e [H|(s1 & a & Ha & H)]%m_bind_Err; [by eapply Hm|].
  specialize (Hf a s1). by rewrite H in Hf.
Qed.

(** A method that keeps a projection [g] of its receiver, always or on failure. *)
Class Keeps {X A} (g : St → X) (m : method St E A) : Prop := keeps s : g (m s).1 = g s.
Class KeepsErr {X A} (g : St → X) (m : method St E A) : Prop :=
  keeps_err s s' e : m s = (s', Err e) → g s' = g s.

#[global] Instance ReadOnly_Keeps {X A} (g : St → X) (m : method St E A) :
  ReadOnly m → Keeps g m.
Proof. intros Hm s. by rewrite Hm. Qed.

#[global] Instance Keeps_bind {X A B} (g : St → X) (m : method St E A) (f : A → method St E B) :
  Keeps g m → (∀ a, Keeps g (f a)) → Keeps g (m ≫= f).
Proof.
  intros Hm Hf s. unfold mbind, method_bind. specialize (Hm s).
  destruct (m s) as [s1 [a|e]]; cbn in *; [by rewrite (Hf a s1) | done].
Qed.

Lemma Keeps_KeepsErr {X A} (g : St → X) (m : method St E A) : Keeps g m → KeepsErr g m.
Proof. intros Hm s s' e H. specialize (Hm s). by rewrite H in Hm. Qed.

Lemma Total_KeepsErr {X A} (g : St → X) (m : method St E A) : Total m → KeepsErr g m.
Proof. intros Hm s s' e H. specialize (Hm s). by rewrite H in Hm. Qed.

Lemma KeepsErr_bind {X A B} (g : St → X) (m : method St E A) (f : A → method St E B) :
  Keeps g m → (∀ a, KeepsErr g (f a)) → KeepsErr g (m ≫= f).
Proof.
  intros Hm Hf s s' e [H|(s1 & a & Ha & H)]%m_bind_Err; specialize (Hm s).
  - by rewrite H in Hm.
  - rewrite Ha in Hm; cbn in Hm. rewrite <- Hm. by eapply Hf.
Qed.

Lemma keeps_run {X A} (g : St → X) (m : method St E A) s s' r :
  Keeps g m → m s = (s', r) → g s' = g s.
Proof. intros Hm H. specialize (Hm s). by rewrite H in Hm. Qed.

(** A method whose every run, successful or not, is a move of a preorder. *)
Class Moves {A} (R : St → St → Prop) (m : method St E A) : Prop := moves s : R s (m s).1.

#[global] Instance ReadOnly_Moves {A} (R : St → St → Prop) `{!Reflexive R} (m : method St E A) :
  ReadOnly m → Moves R m.
Proof. intros Hm s. by rewrite Hm. Qed.

#[global] Instance Moves_bind {A B} (R : St → St → Prop) `{!Transitive R} (m : method St E A)
    (f : A → method St E B) :
  Moves R m → (∀ a, Moves R (f a)) → Moves R (m ≫= f).
Proof.
  intros Hm Hf s. unfold mbind, method_bind. specialize (Hm s).
  destruct (m s) as [s1 [a|e]]; cbn in *; [by etrans; [|apply Hf]|done].
Qed.

Lemma Moves_modify (R : St → St → Prop) f : (∀ s, R s (f s)) → Moves R (modify f).
Proof. intros H s. apply H. Qed.

Lemma moves_run {A} (R : St → St → Prop) (m : method St E A) s s' r :
  Moves R m → m s = (s', r) → R s s'.
Proof. intros Hm H. specialize (Hm s). by rewrite H in Hm. Qed.

End method_lemmas.

#[global] Instance Moves_attempt {St E F A} (R : St → St → Prop) (m : method St E A) :
  Moves R m → Moves R (attempt (F := F) m).
Proof. intros Hm s. unfold attempt. specialize (Hm s). by destruct (m s). Qed.

#[global] Instance ReadOnly_require {St E} b (e : E) : ReadOnly (St := St) (require b e).
Proof. done. Qed.

(** Closes [Moves] goals of methods built from reads, checks and moves. *)
Ltac solve_moves :=
  repeat (intros;
    first [ apply _
          | apply Moves_bind
          | apply Moves_modify
          | case_match ]).

#[export] Hint Resolve ReadOnly_FailSafe Total_FailSafe : typeclass_instances.
#[export] Hint Resolve Keeps_KeepsErr Total_KeepsErr : typeclass_instances.

(** Closes [FailSafe] goals for methods written as checks followed by updates. *)
Ltac solve_fail_safe :=
  repeat (intros;
    first [ apply _
          | apply FailSafe_bind_readonly; [apply _|]
          | apply FailSafe_bind_total; [|apply _]
          | case_match ]).

(** Decomposes a successful run of a method into the runs of its parts. *)
Ltac inv_method :=
  repeat match goal with
  | H : (_ ≫= _) _ = (_, Ok _) |- _ =>
      let s := fresh "s" in let a := fresh "a" in let H1 := fresh "Hm" in
      apply m_bind_Ok in H as (s & a & H1 & H)
  | H : get _ = (_, Ok _) |- _ => apply m_get_Ok in H as [-> ->]
  | H : gets _ _ = (_, Ok _) |- _ => apply m_gets_Ok in H as [-> ->]
  | H : put _ _ = (_, Ok _) |- _ => apply m_put_Ok in H as ->
  | H : modify _ _ = (_, Ok _) |- _ => apply m_modify_Ok in H as ->
  | H : lift _ _ = (_, Ok _) |- _ => apply m_lift_Ok in H as [-> H]
  | H : reject _ _ _ = (_, Ok _) |- _ => apply m_reject_Ok in H as [-> H]
  | H : @mret _ _ _ _ _ = (_, Ok _) |- _ => apply m_ret_Ok in H as [-> H]
  | H : throw _ _ = (_, Ok _) |- _ => by apply m_throw_Ok in H
  | u : unit |- _ => destruct u
  end; inv_ok.

(** ** Ordered maps

    A [BTreeMap] is a [gmap]; where the source iterates over one, the order of
    its keys is written out. *)

Section btree.

Context {A : Type}.

Definition key_le (p q : Z * A) : Prop := p.1 ≤ q.1.

#[global] Instance key_le_dec p q : Decision (key_le p q).
Proof. unfold key_le. apply _. Defined.

(** [map.iter()] and [map.values()]. *)
Definition btree_items (m : gmap Z A) : list (Z * A) := merge_sort key_le (map_to_list m).
Definition btree_values (m : gmap Z A) : list A := (btree_items m).*2.

Lemma btree_items_elem m k x : (k, x) ∈ btree_items m ↔ m !! k = Some x.
Proof. unfold btree_items. rewrite merge_sort_Permutation. apply elem_of_map_to_list. Qed.

Lemma btree_values_elem m x : x ∈ btree_values m ↔ ∃ k, m !! k = Some x.
Proof.
  unfold btree_values. rewrite list_elem_of_fmap. split.
  - intros ([k x'] & -> & H). exists k. by apply btree_items_elem.
  - intros [k Hk]. exists (k, x). by rewrite btree_items_elem.
Qed.

End btree.

(** The keys of an ordered iteration. *)
Lemma btree_items_sorted {A} (m : gmap Z A) : StronglySorted Z.le (btree_items m).*1.
Proof.
  unfold btree_items.
  assert (Hs : StronglySorted key_le (merge_sort key_le (map_to_list m))).
  { apply StronglySorted_merge_sort; intros ?; unfold key_le; lia. }
  induction Hs as [|p l Hl IH Hf]; cbn; constructor; [done|].
  apply Forall_fmap. eapply Forall_impl; [exact Hf|]. done.
Qed.

Lemma btree_items_keys {A} (m : gmap Z A) : (btree_items m).*1 ≡ₚ (map_to_list m).*1.
Proof. unfold btree_items. by rewrite merge_sort_Permutation. Qed.

Lemma btree_keys_NoDup {A} (m : gmap Z A) : NoDup (btree_items m).*1.
Proof. rewrite btree_items_keys. apply NoDup_fst_map_to_list. Qed.

Lemma btree_keys_elem {A} (m : gmap Z A) k : k ∈ (btree_items m).*1 ↔ is_Some (m !! k).
Proof.
  rewrite list_elem_of_fmap. split.
  - intros ([k' x] & -> & H). apply btree_items_elem in H. eauto.
  - intros [x H]. exists (k, x). by rewrite btree_items_elem.
Qed.

(** ** Boolean reflection *)

Create Rewrite HintDb bools.
#[export] Hint Rewrite
  Bool.orb_false_iff Bool.andb_true_iff Bool.negb_true_iff Bool.negb_false_iff
  Bool.orb_true_iff Bool.andb_false_iff
  Z.eqb_eq Z.eqb_neq Z.leb_le Z.leb_gt Z.ltb_lt Z.ltb_ge
  bool_decide_eq_true bool_decide_eq_false : bools.

Ltac reflect := autorewrite with bools in *.
