(* ===== verification/Bytes.v ===== *)
(** * Byte strings

    Little-endian integers ([to_le_bytes] / [from_le_bytes]), the cursor every
    decoder of the repository reads through ([Reader]), Rust's UTF-8 check, and
    the lemmas that let a codec be inverted field by field. *)

From S2P Require Import Prelude.

(** ** Little-endian integers *)

(** [value.to_le_bytes()] for an [n]-byte unsigned integer. *)
Fixpoint le_bytes (n : nat) (x : Z) : list Z :=
  match n with
  | O => []
  | S n => x mod 256 :: le_bytes n (x / 256)
  end.

(** [uN::from_le_bytes(bytes)]. *)
Definition of_le_bytes (l : list Z) : Z := foldr (λ b acc, b + 256 * acc) 0 l.

(** [i32::to_le_bytes] and [i32::from_le_bytes]: two's complement. *)
Definition le_i32 (x : Z) : list Z := le_bytes 4 (x mod 4294967296).
Definition i32_of_u32 (x : Z) : Z := if x <? 2147483648 then x else x - 4294967296.

(** [2^8n] as the codecs' bound on an [n]-byte field. *)
Definition uint_bound (n : nat) : Z := 256 ^ Z.of_nat n.

Lemma length_le_bytes n x : length (le_bytes n x) = n.
Proof. revert x; induction n as [|n IH]; intros x; cbn; [done | by rewrite IH]. Qed.

Lemma le_bytes_u8 n x : Forall is_u8 (le_bytes n x).
Proof.
  revert x; induction n as [|n IH]; intros x; cbn; constructor; [|apply IH].
  unfold is_u8. pose proof (Z.mod_pos_bound x 256). lia.
Qed.

Lemma uint_bound_succ n : uint_bound (S n) = 256 * uint_bound n.
Proof. unfold uint_bound. rewrite Nat2Z.inj_succ, Z.pow_succ_r by lia. lia. Qed.

Lemma of_le_bytes_le_bytes n x : 0 ≤ x < uint_bound n → of_le_bytes (le_bytes n x) = x.
Proof.
  revert x; induction n as [|n IH]; intros x Hx; cbn.
  - unfold uint_bound in Hx; cbn in Hx; lia.
  - rewrite uint_bound_succ in Hx.
    change (foldr _ _ _) with (of_le_bytes (le_bytes n (x / 256))).
    rewrite IH; [pose proof (Z.div_mod x 256); lia|].
    split; [apply Z.div_pos; lia | apply Z.div_lt_upper_bound; lia].
Qed.

Lemma of_le_bytes_bound l : Forall is_u8 l → 0 ≤ of_le_bytes l < uint_bound (length l).
Proof.
  induction 1 as [|b l Hb Hl IH]; cbn.
  - unfold uint_bound; cbn; lia.
  - change (foldr _ _ _) with (of_le_bytes l). rewrite uint_bound_succ.
    unfold is_u8 in Hb. lia.
Qed.

Lemma le_bytes_of_le_bytes l : Forall is_u8 l → le_bytes (length l) (of_le_bytes l) = l.
Proof.
  induction 1 as [|b l Hb Hl IH]; cbn; [done|].
  change (foldr _ _ _) with (of_le_bytes l). unfold is_u8 in Hb.
  rewrite (Z.add_comm b), (Z.mul_comm 256), Z.add_comm.
  rewrite Z_mod_plus_full, Z.mod_small, Z.div_add, Z.div_small by lia.
  by rewrite Z.add_0_l, IH.
Qed.

Lemma i32_of_u32_inv x : is_i32 x → i32_of_u32 (x mod 4294967296) = x.
Proof.
  unfold is_i32, i32_of_u32; intros Hx. destruct (Z_lt_le_dec x 0).
  - replace (x mod 4294967296) with (x + 4294967296)
      by (rewrite <- (Z_mod_plus_full x 1 4294967296), Z.mod_small; lia).
    destruct (Z.ltb_spec (x + 4294967296) 2147483648); lia.
  - rewrite Z.mod_small by lia. destruct (Z.ltb_spec x 2147483648); lia.
Qed.

Lemma i32_of_u32_range x : is_u32 x → is_i32 (i32_of_u32 x).
Proof. unfold is_u32, is_i32, i32_of_u32. intros. destruct (Z.ltb_spec x 2147483648); lia. Qed.

Lemma u32_of_i32_inv x : is_u32 x → i32_of_u32 x mod 4294967296 = x.
Proof.
  unfold is_u32, i32_of_u32; intros. destruct (Z.ltb_spec x 2147483648).
  - apply Z.mod_small; lia.
  - rewrite <- (Z_mod_plus_full _ 1 4294967296), Z.mod_small; lia.
Qed.

(** Fixed-size records concatenate to a multiple of their size. *)
Lemma length_concat_fixed {A} (enc : A → list Z) (n : nat) (xs : list A) :
  (∀ x, length (enc x) = n) → length (concat (map enc xs)) = (n * length xs)%nat.
Proof.
  intros Hn. induction xs as [|x xs IH]; cbn [map concat length]; [lia|].
  rewrite length_app, Hn, IH. lia.
Qed.

(** ** The decoding cursor

    [Reader<'a> { remaining: &'a [u8] }]: each read consumes a prefix of the
    remaining bytes or fails.  The error a codec reports for a short payload
    is its parameter. *)

Definition reader (E A : Type) : Type := list Z → result E (A * list Z).

#[global] Instance reader_ret E : MRet (reader E) := λ A a bs, Ok (a, bs).
#[global] Instance reader_bind E : MBind (reader E) :=
  λ A B f m bs, match m bs with Ok (a, rest) => f a rest | Err e => Err e end.

Definition r_lift {E A} (r : result E A) : reader E A :=
  λ bs, match r with Ok a => Ok (a, bs) | Err e => Err e end.

Definition r_take {E} (short : E) (count : nat) : reader E (list Z) :=
  λ bs, if decide (length bs < count)%nat then Err short
        else Ok (take count bs, drop count bs).

Definition r_uint {E} (short : E) (n : nat) : reader E Z :=
  bs ← r_take short n; mret (of_le_bytes bs).

Definition r_finish {E} (trailing : E) (bs : list Z) : result E unit :=
  match bs with [] => Ok tt | _ => Err trailing end.

(** [for _ in 0..count { v.push(read()?) }]. *)
Fixpoint r_repeat {E A} (count : nat) (r : reader E A) : reader E (list A) :=
  match count with
  | O => mret []
  | S n => x ← r; xs ← r_repeat n r; mret (x :: xs)
  end.

Section reader_lemmas.

Context {E : Type}.

Lemma r_bind_Ok {A B} (m : reader E A) (f : A → reader E B) bs r :
  (m ≫= f) bs = Ok r ↔ ∃ a rest, m bs = Ok (a, rest) ∧ f a rest = Ok r.
Proof.
  unfold mbind, reader_bind. destruct (m bs) as [[a rest]|e]; split.
  - eauto.
  - intros (a' & rest' & [= <- <-] & H). exact H.
  - discriminate.
  - intros (? & ? & ? & _). discriminate.
Qed.

Lemma r_bind_run {A B} (m : reader E A) (f : A → reader E B) bs a rest :
  m bs = Ok (a, rest) → (m ≫= f) bs = f a rest.
Proof. unfold mbind, reader_bind. by intros ->. Qed.

Lemma r_take_app (short : E) n l rest :
  length l = n → r_take short n (l ++ rest) = Ok (l, rest).
Proof.
  intros <-. unfold r_take. rewrite decide_False by (rewrite length_app; lia).
  by rewrite take_app_length, drop_app_length.
Qed.

Lemma r_take_Ok (short : E) n bs l rest :
  r_take short n bs = Ok (l, rest) → bs = l ++ rest ∧ length l = n.
Proof.
  unfold r_take. destruct (decide _) as [|Hn]; [discriminate|].
  intros [= <- <-]. rewrite take_drop, length_take. split; [done | lia].
Qed.

Lemma r_uint_le (short : E) n x rest :
  0 ≤ x < uint_bound n → r_uint short n (le_bytes n x ++ rest) = Ok (x, rest).
Proof.
  intros Hx. unfold r_uint. erewrite r_bind_run by (apply r_take_app, length_le_bytes).
  unfold mret, reader_ret. by rewrite of_le_bytes_le_bytes.
Qed.

Lemma r_uint_Ok (short : E) n bs x rest :
  Forall is_u8 bs → r_uint short n bs = Ok (x, rest) →
  bs = le_bytes n x ++ rest ∧ 0 ≤ x < uint_bound n ∧ Forall is_u8 rest.
Proof.
  unfold r_uint. intros Hbs (l & rest' & Hl & [= <- <-])%r_bind_Ok.
  apply r_take_Ok in Hl as [-> <-]. apply Forall_app in Hbs as [Hl Hr].
  rewrite le_bytes_of_le_bytes by done. auto using of_le_bytes_bound.
Qed.

Lemma r_finish_Ok (trailing : E) bs u : r_finish trailing bs = Ok u ↔ bs = [].
Proof. destruct bs, u; cbn; split; congruence. Qed.

Lemma r_ret_Ok {A} (a : A) bs r : (mret a : reader E A) bs = Ok r ↔ r = (a, bs).
Proof. unfold mret, reader_ret. split; [intros [= <-] | intros ->]; done. Qed.

Lemma r_lift_Ok {A} (r : result E A) bs a rest :
  r_lift r bs = Ok (a, rest) ↔ r = Ok a ∧ rest = bs.
Proof.
  unfold r_lift. destruct r; split;
    [by intros [= -> ->] | by intros [[= ->] ->] | discriminate | by intros [? _]].
Qed.

Lemma r_bind_intro {A B} (m : reader E A) (f : A → reader E B) bs a rest r :
  m bs = Ok (a, rest) → f a rest = Ok r → (m ≫= f) bs = Ok r.
Proof. intros Hm Hf. by rewrite (r_bind_run _ _ _ _ _ Hm). Qed.

Lemma r_lift_run {A} (r : result E A) bs a : r = Ok a → r_lift r bs = Ok (a, bs).
Proof. by intros ->. Qed.

(** A repeated read inverts a concatenation of encodings. *)
Lemma r_repeat_encode {A} (enc : A → list Z) (r : reader E A) (P : A → Prop) xs rest :
  (∀ x rest, P x → r (enc x ++ rest) = Ok (x, rest)) → Forall P xs →
  r_repeat (length xs) r (concat (map enc xs) ++ rest) = Ok (xs, rest).
Proof.
  intros Hr. induction 1 as [|x xs Hx Hxs IH]; cbn; [done|].
  rewrite <- app_assoc. erewrite r_bind_run by (apply Hr, Hx).
  by erewrite r_bind_run by apply IH.
Qed.

Lemma r_repeat_Ok {A} (enc : A → list Z) (r : reader E A) (P : A → Prop) count bs xs rest :
  (∀ bs x rest, Forall is_u8 bs → r bs = Ok (x, rest) →
     bs = enc x ++ rest ∧ P x ∧ Forall is_u8 rest) →
  Forall is_u8 bs → r_repeat count r bs = Ok (xs, rest) →
  bs = concat (map enc xs) ++ rest ∧ length xs = count ∧ Forall P xs ∧ Forall is_u8 rest.
Proof.
  intros Hr. revert bs xs rest.
  induction count as [|n IH]; intros bs xs rest Hbs; cbn.
  - by intros [= <- <-].
  - intros (x & bs1 & Hx & (ys & bs2 & Hys & [= <- <-])%r_bind_Ok)%r_bind_Ok.
    apply Hr in Hx as (-> & Hx & Hbs1); [|done].
    apply IH in Hys as (-> & <- & Hys & Hbs2); [|done].
    cbn. rewrite <- app_assoc. auto.
Qed.

End reader_lemmas.

(** ** UTF-8

    [std::str::from_utf8]: well-formed sequences as in the Unicode Standard,
    table 3-7 (no overlong forms, no surrogates, nothing above U+10FFFF). *)

Definition between (lo hi b : Z) : bool := (lo <=? b) && (b <=? hi).
Definition utf8_cont : Z → bool := between 128 191.

(** The range of the second byte after a lead byte of a 3- or 4-byte form. *)
Definition utf8_second (lead b : Z) : bool :=
  if lead =? 224 then between 160 191 b
  else if lead =? 237 then between 128 159 b
  else if lead =? 240 then between 144 191 b
  else if lead =? 244 then between 128 143 b
  else utf8_cont b.

Fixpoint utf8_valid (l : list Z) : bool :=
  match l with
  | [] => true
  | b0 :: r0 =>
      if b0 <? 128 then utf8_valid r0
      else match r0 with
      | [] => false
      | b1 :: r1 =>
          if between 194 223 b0 then utf8_cont b1 && utf8_valid r1
          else match r1 with
          | [] => false
          | b2 :: r2 =>
              if between 224 239 b0
              then utf8_second b0 b1 && utf8_cont b2 && utf8_valid r2
              else match r2 with
              | [] => false
              | b3 :: r3 =>
                  between 240 244 b0 && utf8_second b0 b1 && utf8_cont b2
                    && utf8_cont b3 && utf8_valid r3
              end
          end
      end
  end.

Lemma utf8_valid_ascii l : Forall (λ b, b < 128) l → utf8_valid l = true.
Proof.
  induction 1 as [|b l Hb Hl IH]; [done|]. cbn.
  by destruct (Z.ltb_spec b 128); [|lia].
Qed.

(** A Rust [String]: bytes that are UTF-8. *)
Definition wf_string (s : list Z) : Prop := Forall is_u8 s ∧ utf8_valid s = true.
