(* ===== verification/Ownership.v ===== *)
(** * Release before reuse

    The contract the presentation state machines of the repository promise to
    their clients, stated once: a frame identity and the buffer it names are
    owned together from the moment a present is accepted until that frame is
    retired.  [own_step] is the abstract specification; [BufferOwner] is the
    interface an implementation discharges, and the theorems of the last
    section hold for every implementation. *)

From S2P Require Import Prelude.

(** ** Abstract specification *)

Inductive own_event : Type :=
| Acquired (frame buffer : Z)
| Retired (frame buffer : Z)
| Quiet.

Inductive own_step : gmap Z Z → own_event → gmap Z Z → Prop :=
| own_quiet m :
    own_step m Quiet m
| own_acquire m frame buffer :
    m !! frame = None →
    (∀ f, m !! f ≠ Some buffer) →
    own_step m (Acquired frame buffer) (<[frame := buffer]> m)
| own_retire m frame buffer :
    m !! frame = Some buffer →
    own_step m (Retired frame buffer) (delete frame m).

Inductive own_trace : gmap Z Z → list own_event → gmap Z Z → Prop :=
| own_done m : own_trace m [] m
| own_more m1 e m2 es m3 :
    own_step m1 e m2 → own_trace m2 es m3 → own_trace m1 (e :: es) m3.

(** A buffer has at most one owning frame. *)
Definition exclusive (m : gmap Z Z) : Prop :=
  ∀ f1 f2 b, m !! f1 = Some b → m !! f2 = Some b → f1 = f2.

Lemma exclusive_step m e m' : own_step m e m' → exclusive m → exclusive m'.
Proof.
  intros [m0|m0 f b Hf Hb|m0 f b Hf] Hex f1 f2 b'; [by apply Hex | |].
  - rewrite !lookup_insert.
    destruct (decide (f = f1)), (decide (f = f2)); simplify_eq; try congruence;
      intros; simplify_eq; try (by eapply Hb); try (exfalso; by eapply Hb); by eapply Hex.
  - rewrite !lookup_delete.
    destruct (decide (f = f1)), (decide (f = f2)); try discriminate. by apply Hex.
Qed.

Lemma exclusive_trace m es m' : own_trace m es m' → exclusive m → exclusive m'.
Proof. induction 1; eauto using exclusive_step. Qed.

Lemma own_trace_app m es1 es2 m' :
  own_trace m (es1 ++ es2) m' ↔ ∃ mid, own_trace m es1 mid ∧ own_trace mid es2 m'.
Proof.
  revert m; induction es1 as [|e es1 IH]; intros m; cbn; split.
  - eauto using own_trace.
  - intros (mid & H & ?). by inversion H; subst.
  - inversion 1 as [|? ? m2 ? ? Hs Ht]; subst.
    apply IH in Ht as (mid & ? & ?). eauto using own_trace.
  - intros (mid & H & ?). inversion H; subst. econstructor; [done|]. apply IH. eauto.
Qed.

(** An owned frame stays owned until it is retired. *)
Lemma own_trace_keeps m es m' frame buffer :
  own_trace m es m' → m !! frame = Some buffer →
  Retired frame buffer ∈ es ∨ m' !! frame = Some buffer.
Proof.
  induction 1 as [|m1 e m2 es m3 Hstep _ IH]; [by right|]. intros Hf.
  destruct Hstep as [m0|m0 f b Hfresh Hb|m0 f b Hown].
  - destruct IH; [done| left; by constructor |by right].
  - rewrite lookup_insert_ne in IH by congruence.
    destruct IH; [done| left; by constructor |by right].
  - destruct (decide (f = frame)) as [->|].
    + left. assert (b = buffer) as -> by congruence. constructor.
    + rewrite lookup_delete_ne in IH by done.
      destruct IH; [done| left; by constructor |by right].
Qed.

(** The specification's own theorem: a buffer is acquired again only after the
    frame that owned it was retired. *)
Lemma own_release_before_reuse m t1 f1 b t2 f2 t3 m' :
  own_trace m (t1 ++ Acquired f1 b :: t2 ++ Acquired f2 b :: t3) m' →
  Retired f1 b ∈ t2.
Proof.
  rewrite own_trace_app. intros (m1 & _ & H). inversion H as [|? ? m2 ? ? Hacq Hrest]; subst.
  apply own_trace_app in Hrest as (m3 & H2 & H3).
  inversion H3 as [|? ? m4 ? ? Hacq2 _]; subst.
  inversion Hacq; subst. inversion Hacq2 as [| ? ? ? _ Hfree |]; subst.
  destruct (own_trace_keeps _ _ _ f1 b H2) as [|Hstill]; [by rewrite lookup_insert_eq | done |].
  by destruct (Hfree f1).
Qed.

(** ** The interface *)

Class BufferOwner (St Op : Type) : Type := {
  owner_run : Op → St → St;          (* the state an operation leaves behind *)
  owner_event : Op → St → own_event; (* what its caller observes *)
  owner_abs : St → gmap Z Z;
  owner_inv : St → Prop
}.

Class BufferOwnerLaws (St Op : Type) `{BufferOwner St Op} : Prop := {
  owner_preserves : ∀ op s, owner_inv s → owner_inv (owner_run op s);
  owner_refines : ∀ op s, owner_inv s →
    own_step (owner_abs s) (owner_event op s) (owner_abs (owner_run op s))
}.

Section clients.

Context {St Op : Type} `{BufferOwnerLaws St Op}.

Definition run_ops (ops : list Op) (s : St) : St := foldl (λ s op, owner_run op s) s ops.

Fixpoint events_of (ops : list Op) (s : St) : list own_event :=
  match ops with
  | [] => []
  | op :: ops => owner_event op s :: events_of ops (owner_run op s)
  end.

Lemma run_ops_inv ops s : owner_inv s → owner_inv (run_ops ops s).
Proof.
  revert s; induction ops as [|op ops IH]; intros s Hs; cbn; [done|].
  by apply IH, owner_preserves.
Qed.

(** Every run of an implementation is a run of the specification. *)
Lemma run_ops_refines ops s :
  owner_inv s → own_trace (owner_abs s) (events_of ops s) (owner_abs (run_ops ops s)).
Proof.
  revert s; induction ops as [|op ops IH]; intros s Hs; cbn; [constructor|].
  econstructor; [by apply owner_refines|]. by apply IH, owner_preserves.
Qed.

Lemma owner_release_before_reuse ops s t1 f1 b t2 f2 t3 :
  owner_inv s → events_of ops s = t1 ++ Acquired f1 b :: t2 ++ Acquired f2 b :: t3 →
  Retired f1 b ∈ t2.
Proof.
  intros Hs He. pose proof (run_ops_refines ops s Hs) as Ht.
  rewrite He in Ht. by apply own_release_before_reuse in Ht.
Qed.

End clients.
