(* ===== verification/Transport.v ===== *)
(** * Presentation transport (graphics/droidloom-transport/src/lib.rs)

    The protocol-independent half of DMA-BUF presentation, used by the Android
    Composer: buffer metadata and its validation, and [PresentationState], the
    producer-side state machine that enforces configure acknowledgement, format
    feedback, explicit fences and release before reuse. *)

From S2P Require Import Prelude Ownership.

(** Newtypes over [u64]. *)
Abbreviation BufferId := Z (only parsing).
Abbreviation FrameId := Z (only parsing).

Record FormatModifier : Type := mkFormatModifier { fourcc : Z; modifier : Z }.

#[global] Instance FormatModifier_eq_dec : EqDecision FormatModifier.
Proof. solve_decision. Defined.
#[global] Instance FormatModifier_countable : Countable FormatModifier.
Proof.
  refine (inj_countable' (λ f, (fourcc f, modifier f))
            (λ p, mkFormatModifier p.1 p.2) _).
  by intros [].
Defined.

Record PlaneMetadata : Type := mkPlane { p_index : Z; p_offset : Z; p_stride : Z }.

#[global] Instance PlaneMetadata_eq_dec : EqDecision PlaneMetadata.
Proof. solve_decision. Defined.

Record BufferMetadata : Type := mkBuffer {
  b_id : BufferId;
  b_width : Z;
  b_height : Z;
  b_format : FormatModifier;
  b_planes : list PlaneMetadata
}.

#[global] Instance BufferMetadata_eq_dec : EqDecision BufferMetadata.
Proof. solve_decision. Defined.

Record Configure : Type := mkConfigure {
  c_serial : Z; c_width : Z; c_height : Z; c_refresh_millihz : Z
}.

Record Damage : Type := mkDamage { d_x : Z; d_y : Z; d_width : Z; d_height : Z }.

#[global] Instance Damage_eq_dec : EqDecision Damage.
Proof. solve_decision. Defined.

Inductive TransportError : Type :=
| Unconfigured
| InvalidSerial (serial : Z)
| SizeMismatch (expected_width expected_height actual_width actual_height : Z)
| UnsupportedFormat (fourcc modifier : Z)
| BufferInFlight (buffer : BufferId)
| UnknownFrame (frame : FrameId)
| MissingFence
| InvalidBuffer (reason : string)
| InvalidDamage
| FrameIdExhausted.

#[global] Instance TransportError_eq_dec : EqDecision TransportError.
Proof. solve_decision. Defined.

(** ** Buffer metadata *)

(** The loop over [self.planes.iter().enumerate()]. *)
Fixpoint validate_planes (expected : Z) (ps : list PlaneMetadata) : result TransportError unit :=
  match ps with
  | [] => Ok tt
  | plane :: ps =>
      fail_if (negb (p_index plane =? expected))
        (InvalidBuffer "plane indices must be dense and start at zero");;
      fail_if (p_stride plane =? 0) (InvalidBuffer "plane stride must be non-zero");;
      validate_planes (expected + 1) ps
  end.

Definition validate (b : BufferMetadata) : result TransportError unit :=
  fail_if ((b_width b =? 0) || (b_height b =? 0)) (InvalidBuffer "dimensions must be non-zero");;
  fail_if ((16384 <? b_width b) || (16384 <? b_height b))
    (InvalidBuffer "dimensions exceed the v1 16384-pixel bound");;
  fail_if (bool_decide (b_planes b = []) || (4 <? zlen (b_planes b)))
    (InvalidBuffer "DMA-BUFs require one through four planes");;
  validate_planes 0 (b_planes b).

Definition damage_fits (d : Damage) (b : BufferMetadata) : bool :=
  (0 <? d_width d) && (0 <? d_height d)
  && match checked_add u32_max (d_x d) (d_width d) with
     | Some r => r <=? b_width b
     | None => false
     end
  && match checked_add u32_max (d_y d) (d_height d) with
     | Some r => r <=? b_height b
     | None => false
     end.

(** ** One client-target presentation stream *)

Record AcceptedFrame : Type := mkAccepted {
  af_frame_id : FrameId;
  af_buffer : BufferMetadata;
  af_damage : list Damage;
  af_requires_acquire_fence : bool
}.

Record ReleasedFrame : Type := mkReleased {
  rf_frame_id : FrameId;
  rf_buffer_id : BufferId;
  rf_has_release_fence : bool
}.

Record PresentationState : Type := mkPS {
  ps_feedback : gset FormatModifier;
  ps_latest_configure : option Configure;
  ps_acknowledged_serial : option Z;
  ps_in_flight : gmap FrameId BufferId;
  ps_busy_buffers : gset BufferId;
  ps_next_frame_id : Z
}.

(** [#[derive(Default)]]. *)
Definition ps_default : PresentationState := mkPS ∅ None None ∅ ∅ 0.

Definition ps_method := method PresentationState TransportError.

Definition latest_configure (s : PresentationState) : option Configure := ps_latest_configure s.

Definition in_flight_buffer (frame : FrameId) (s : PresentationState) : option BufferId :=
  ps_in_flight s !! frame.

Definition ps_replace_feedback (formats : list FormatModifier) (s : PresentationState)
  : PresentationState :=
  mkPS (list_to_set formats) (ps_latest_configure s) (ps_acknowledged_serial s)
    (ps_in_flight s) (ps_busy_buffers s) (ps_next_frame_id s).

Definition ps_configure (c : Configure) (s : PresentationState) : PresentationState :=
  mkPS (ps_feedback s) (Some c)
    (if decide (c_serial <$> ps_latest_configure s = Some (c_serial c))
     then ps_acknowledged_serial s else None)
    (ps_in_flight s) (ps_busy_buffers s) (ps_next_frame_id s).

Definition ps_acknowledge (serial : Z) : ps_method unit :=
  s ← get;
  reject (negb (bool_decide (c_serial <$> ps_latest_configure s = Some serial)))
    (InvalidSerial serial);;
  put (mkPS (ps_feedback s) (ps_latest_configure s) (Some serial)
         (ps_in_flight s) (ps_busy_buffers s) (ps_next_frame_id s)).

Definition ps_submit (buffer : BufferMetadata) (damage : list Damage) (has_acquire_fence : bool)
  : ps_method AcceptedFrame :=
  s ← get;
  configure ← lift (ok_or (ps_latest_configure s) Unconfigured);
  reject (negb (bool_decide (ps_acknowledged_serial s = Some (c_serial configure)))) Unconfigured;;
  lift (validate buffer);;
  reject (negb (bool_decide ((b_width buffer, b_height buffer) = (c_width configure, c_height configure))))
    (SizeMismatch (c_width configure) (c_height configure) (b_width buffer) (b_height buffer));;
  reject (negb (bool_decide (b_format buffer ∈ ps_feedback s)))
    (UnsupportedFormat (fourcc (b_format buffer)) (modifier (b_format buffer)));;
  reject (negb has_acquire_fence) MissingFence;;
  reject (bool_decide (b_id buffer ∈ ps_busy_buffers s)) (BufferInFlight (b_id buffer));;
  reject (existsb (λ rect, negb (damage_fits rect buffer)) damage) InvalidDamage;;
  frame_id ← lift (ok_or (checked_add u64_max (ps_next_frame_id s) 1) FrameIdExhausted);
  put (mkPS (ps_feedback s) (ps_latest_configure s) (ps_acknowledged_serial s)
         (<[frame_id := b_id buffer]> (ps_in_flight s))
         ({[b_id buffer]} ∪ ps_busy_buffers s) frame_id);;
  mret (mkAccepted frame_id buffer damage true).

(** [self.in_flight.remove(&frame)] followed by [self.busy_buffers.remove]. *)
Definition ps_retire (frame_id : FrameId) : ps_method BufferId :=
  s ← get;
  buffer_id ← lift (ok_or (ps_in_flight s !! frame_id) (UnknownFrame frame_id));
  put (mkPS (ps_feedback s) (ps_latest_configure s) (ps_acknowledged_serial s)
         (delete frame_id (ps_in_flight s)) (ps_busy_buffers s ∖ {[buffer_id]})
         (ps_next_frame_id s));;
  mret buffer_id.

Definition ps_release (frame_id : FrameId) (has_release_fence : bool) : ps_method ReleasedFrame :=
  reject (negb has_release_fence) MissingFence;;
  buffer_id ← ps_retire frame_id;
  mret (mkReleased frame_id buffer_id true).

Definition ps_cancel_unsubmitted (frame_id : FrameId) : ps_method BufferId :=
  ps_retire frame_id.

Definition ps_in_flight_count (s : PresentationState) : nat := size (ps_in_flight s).

(** ** Validation lemmas *)

Definition wf_plane (p : PlaneMetadata) : Prop :=
  is_u32 (p_index p) ∧ is_u32 (p_offset p) ∧ is_u32 (p_stride p).

Definition wf_format (f : FormatModifier) : Prop := is_u32 (fourcc f) ∧ is_u64 (modifier f).

(** The field ranges a Rust value of the type has by construction. *)
Definition wf_buffer (b : BufferMetadata) : Prop :=
  is_u64 (b_id b) ∧ is_u32 (b_width b) ∧ is_u32 (b_height b) ∧ wf_format (b_format b)
  ∧ Forall wf_plane (b_planes b).

Definition wf_damage (d : Damage) : Prop :=
  is_u32 (d_x d) ∧ is_u32 (d_y d) ∧ is_u32 (d_width d) ∧ is_u32 (d_height d).

Lemma validate_planes_Ok k ps :
  validate_planes k ps = Ok tt ↔
  ∀ i p, ps !! i = Some p → p_index p = k + Z.of_nat i ∧ p_stride p ≠ 0.
Proof.
  revert k; induction ps as [|p ps IH]; intros k; cbn.
  - split; [|done]. intros _ i p. by rewrite lookup_nil.
  - split.
    + intros H. inv_ok. reflect. intros [|i] q; cbn.
      * intros [= <-]. lia.
      * intros Hq. apply (proj1 (IH _) H) in Hq as [-> ?]. lia.
    + intros H. destruct (H O p eq_refl) as [Hi Hs].
      assert (p_index p = k) as -> by lia. rewrite Z.eqb_refl; cbn.
      destruct (Z.eqb_spec (p_stride p) 0) as [|_]; [done|]; cbn.
      apply IH. intros i q Hq. destruct (H (S i) q Hq). lia.
Qed.

Lemma validate_Ok b :
  wf_buffer b →
  validate b = Ok tt ↔
    1 ≤ b_width b ≤ 16384 ∧ 1 ≤ b_height b ≤ 16384 ∧ (1 ≤ length (b_planes b) ≤ 4)%nat
    ∧ (∀ i p, b_planes b !! i = Some p → p_index p = Z.of_nat i ∧ p_stride p ≠ 0).
Proof.
  intros (_ & Hw & Hh & _ & _). unfold validate, zlen. split.
  - intros H. inv_ok. reflect. unfold_ints.
    rewrite validate_planes_Ok in H. setoid_rewrite Z.add_0_l in H.
    assert (length (b_planes b) ≠ 0%nat) by (rewrite length_zero_iff_nil; tauto).
    split_and!; (lia || exact H).
  - intros (? & ? & Hp & Hall).
    assert ((b_width b =? 0) || (b_height b =? 0) = false) as -> by (reflect; lia).
    assert ((16384 <? b_width b) || (16384 <? b_height b) = false) as -> by (reflect; lia).
    assert (bool_decide (b_planes b = []) || (4 <? Z.of_nat (length (b_planes b))) = false) as ->.
    { reflect. destruct (b_planes b); cbn in *; split; (done || lia). }
    cbn. rewrite validate_planes_Ok. by setoid_rewrite Z.add_0_l.
Qed.

(** ** The invariant of a presentation stream *)

Record ps_inv (s : PresentationState) : Prop := {
  ps_busy_owned b : b ∈ ps_busy_buffers s ↔ ∃ f, ps_in_flight s !! f = Some b;
  ps_exclusive f1 f2 b :
    ps_in_flight s !! f1 = Some b → ps_in_flight s !! f2 = Some b → f1 = f2;
  ps_frames_issued f b : ps_in_flight s !! f = Some b → 1 ≤ f ≤ ps_next_frame_id s;
  ps_next_range : 0 ≤ ps_next_frame_id s ≤ u64_max;
  ps_ack_current n :
    ps_acknowledged_serial s = Some n → c_serial <$> ps_latest_configure s = Some n
}.

Inductive ps_op : Type :=
| PsFeedback (formats : list FormatModifier)
| PsConfigure (c : Configure)
| PsAcknowledge (serial : Z)
| PsSubmit (buffer : BufferMetadata) (damage : list Damage) (has_acquire_fence : bool)
| PsRelease (frame : FrameId) (has_release_fence : bool)
| PsCancel (frame : FrameId).

Definition ps_run (op : ps_op) (s : PresentationState) : PresentationState :=
  match op with
  | PsFeedback formats => ps_replace_feedback formats s
  | PsConfigure c => ps_configure c s
  | PsAcknowledge serial => (ps_acknowledge serial s).1
  | PsSubmit b d fence => (ps_submit b d fence s).1
  | PsRelease f fence => (ps_release f fence s).1
  | PsCancel f => (ps_cancel_unsubmitted f s).1
  end.

(** The ownership change a caller reads off the returned value. *)
Definition ps_event (op : ps_op) (s : PresentationState) : own_event :=
  match op with
  | PsSubmit b d fence =>
      match (ps_submit b d fence s).2 with
      | Ok a => Acquired (af_frame_id a) (b_id (af_buffer a))
      | Err _ => Quiet
      end
  | PsRelease f fence =>
      match (ps_release f fence s).2 with
      | Ok r => Retired (rf_frame_id r) (rf_buffer_id r)
      | Err _ => Quiet
      end
  | PsCancel f =>
      match (ps_cancel_unsubmitted f s).2 with
      | Ok b => Retired f b
      | Err _ => Quiet
      end
  | _ => Quiet
  end.

#[global] Instance ps_owner : BufferOwner PresentationState ps_op := {
  owner_run := ps_run;
  owner_event := ps_event;
  owner_abs := ps_in_flight;
  owner_inv := ps_inv
}.

#[global] Instance ps_acknowledge_fail_safe n : FailSafe (ps_acknowledge n).
Proof. unfold ps_acknowledge. solve_fail_safe. Qed.
#[global] Instance ps_submit_fail_safe b d fence : FailSafe (ps_submit b d fence).
Proof. unfold ps_submit. solve_fail_safe. Qed.
#[global] Instance ps_retire_fail_safe f : FailSafe (ps_retire f).
Proof. unfold ps_retire. solve_fail_safe. Qed.
#[global] Instance ps_release_fail_safe f fence : FailSafe (ps_release f fence).
Proof. unfold ps_release. solve_fail_safe. Qed.

(** ** What each operation does *)

(** The conditions under which a client target may be submitted. *)
Record ps_submittable (b : BufferMetadata) (d : list Damage) (fence : bool)
    (s : PresentationState) : Prop := {
  sub_configure : ∃ c, ps_latest_configure s = Some c
    ∧ ps_acknowledged_serial s = Some (c_serial c)
    ∧ b_width b = c_width c ∧ b_height b = c_height c;
  sub_valid : validate b = Ok tt;
  sub_format : b_format b ∈ ps_feedback s;
  sub_fence : fence = true;
  sub_idle : b_id b ∉ ps_busy_buffers s;
  sub_damage : Forall (λ rect, damage_fits rect b = true) d;
  sub_frame : ps_next_frame_id s + 1 ≤ u64_max
}.

Definition ps_submitted (b : BufferMetadata) (s : PresentationState) : PresentationState :=
  mkPS (ps_feedback s) (ps_latest_configure s) (ps_acknowledged_serial s)
    (<[ps_next_frame_id s + 1 := b_id b]> (ps_in_flight s))
    ({[b_id b]} ∪ ps_busy_buffers s) (ps_next_frame_id s + 1).

Lemma existsb_negb_false {A} (f : A → bool) l :
  existsb (λ x, negb (f x)) l = false ↔ Forall (λ x, f x = true) l.
Proof.
  induction l as [|x l IH]; cbn; [split; constructor|].
  rewrite Bool.orb_false_iff, Bool.negb_false_iff, IH, Forall_cons. done.
Qed.

Lemma ps_submit_Ok b d fence s s' a :
  ps_submit b d fence s = (s', Ok a) →
  ps_submittable b d fence s ∧ s' = ps_submitted b s
  ∧ a = mkAccepted (ps_next_frame_id s + 1) b d true.
Proof.
  unfold ps_submit, checked_add. intros H. inv_method. reflect.
  destruct (_ <=? _) eqn:Hmax in Hm8; [|discriminate]. simplify_eq. reflect.
  rewrite existsb_negb_false in *. split; [constructor; eauto | done].
Qed.

Lemma ps_submit_accepts b d fence s :
  ps_submittable b d fence s →
  ps_submit b d fence s = (ps_submitted b s, Ok (mkAccepted (ps_next_frame_id s + 1) b d true)).
Proof.
  intros [(c & Hc & Hack & Hw & Hh) Hv Hf -> Hidle Hd Hn].
  unfold ps_submit, checked_add, mbind, method_bind, get, lift, reject, put, mret, method_ret.
  rewrite Hc; cbn. rewrite Hack, bool_decide_true by done; cbn. rewrite Hv, Hw, Hh.
  rewrite bool_decide_true by done; cbn. rewrite bool_decide_true by done; cbn.
  rewrite bool_decide_false by done; cbn.
  rewrite (proj2 (existsb_negb_false (λ r, damage_fits r b) d)) by done.
  rewrite (proj2 (Z.leb_le _ _)) by done; cbn. unfold ps_submitted. by rewrite Hc, Hack.
Qed.

Lemma ps_retire_Ok f s s' b :
  ps_retire f s = (s', Ok b) ↔
  ps_in_flight s !! f = Some b ∧
  s' = mkPS (ps_feedback s) (ps_latest_configure s) (ps_acknowledged_serial s)
         (delete f (ps_in_flight s)) (ps_busy_buffers s ∖ {[b]}) (ps_next_frame_id s).
Proof.
  unfold ps_retire. split.
  - intros H. inv_method. by simplify_eq.
  - intros [Hf ->]. unfold mbind, method_bind, get, lift. by rewrite Hf.
Qed.

(** ** The invariant holds from the default state on *)

Lemma ps_default_inv : ps_inv ps_default.
Proof.
  constructor; cbn; intros; rewrite ?lookup_empty in *; try discriminate; [|unfold u64_max; lia].
  split; [set_solver | intros [? ?]; simplify_map_eq].
Qed.

Lemma ps_submitted_inv b d fence s :
  ps_inv s → ps_submittable b d fence s → ps_inv (ps_submitted b s).
Proof.
  intros [Hbusy Hex Hiss Hrange Hack] [_ _ _ _ Hidle _ Hn].
  assert (ps_in_flight s !! (ps_next_frame_id s + 1) = None) as Hfresh.
  { apply eq_None_not_Some; intros [b' Hb']; apply Hiss in Hb'; lia. }
  assert (∀ f, ps_in_flight s !! f ≠ Some (b_id b)) as Hfree.
  { intros f Hf. apply Hidle, Hbusy. eauto. }
  constructor; cbn; [| | |lia|done].
  - intros b'. rewrite elem_of_union, elem_of_singleton, Hbusy. split.
    + intros [->|[f Hf]]; [eexists; apply lookup_insert_eq|].
      exists f. rewrite lookup_insert_ne; congruence.
    + intros [f [[_ <-]|[_ Hf]]%lookup_insert_Some]; eauto.
  - intros f1 f2 b' [[<- <-]|[? H1]]%lookup_insert_Some [[<- ?]|[? H2]]%lookup_insert_Some;
      subst; try done; try (exfalso; by eapply Hfree). by eapply Hex.
  - intros f b' [[<- <-]|[_ Hf]]%lookup_insert_Some; [lia|]. apply Hiss in Hf. lia.
Qed.

Lemma ps_retired_inv f b s s' : ps_inv s → ps_retire f s = (s', Ok b) → ps_inv s'.
Proof.
  intros [Hbusy Hex Hiss Hrange Hack] [Hf ->]%ps_retire_Ok.
  constructor; cbn; [| | |done|done].
  - intros b'. rewrite elem_of_difference, elem_of_singleton, Hbusy. split.
    + intros [[f' Hf'] Hne]. exists f'. rewrite lookup_delete_ne; congruence.
    + intros [f' [Hne Hf']%lookup_delete_Some]. split; [eauto|]. intros ->. apply Hne. by eapply Hex.
  - intros f1 f2 b' [_ H1]%lookup_delete_Some [_ H2]%lookup_delete_Some. by eapply Hex.
  - intros f' b' [_ H]%lookup_delete_Some. by eapply Hiss.
Qed.

Lemma ps_release_retires f fence s s' r :
  ps_release f fence s = (s', Ok r) →
  fence = true ∧ ps_retire f s = (s', Ok (rf_buffer_id r)) ∧ rf_frame_id r = f
  ∧ rf_has_release_fence r = true.
Proof.
  unfold ps_release. intros H. inv_method. destruct fence; [|discriminate]. by subst.
Qed.

Lemma ps_acknowledge_Ok n s s' u :
  ps_acknowledge n s = (s', Ok u) →
  c_serial <$> ps_latest_configure s = Some n ∧
  s' = mkPS (ps_feedback s) (ps_latest_configure s) (Some n)
         (ps_in_flight s) (ps_busy_buffers s) (ps_next_frame_id s).
Proof. unfold ps_acknowledge. intros H. inv_method. by reflect. Qed.

#[global] Instance ps_owner_laws : BufferOwnerLaws PresentationState ps_op.
Proof.
  split; intros op s Hs; destruct op as [fs|c|n|b d fence|f fence|f]; cbn.
  - destruct Hs; by constructor.
  - destruct Hs as [? ? ? ? Hack]; constructor; cbn; try done.
    intros n. destruct (decide _) as [Heq|]; [|done]. intros <-%Hack. by rewrite Heq.
  - destruct (ps_acknowledge n s) as [s' [u|e]] eqn:E; cbn.
    + apply ps_acknowledge_Ok in E as [Hc ->]. destruct Hs; constructor; cbn; try done.
      by intros ? [= <-].
    + by apply fail_safe in E as ->.
  - destruct (ps_submit b d fence s) as [s' [a|e]] eqn:E; cbn.
    + apply ps_submit_Ok in E as (? & -> & _). by eapply ps_submitted_inv.
    + by apply fail_safe in E as ->.
  - destruct (ps_release f fence s) as [s' [r|e]] eqn:E; cbn.
    + apply ps_release_retires in E as (_ & E & _). by eapply ps_retired_inv.
    + by apply fail_safe in E as ->.
  - unfold ps_cancel_unsubmitted. destruct (ps_retire f s) as [s' [b|e]] eqn:E; cbn.
    + by eapply ps_retired_inv.
    + by apply fail_safe in E as ->.
  - constructor.
  - constructor.
  - destruct (ps_acknowledge n s) as [s' [u|e]] eqn:E; cbn.
    + apply ps_acknowledge_Ok in E as [Hc ->]. constructor.
    + apply fail_safe in E as ->. constructor.
  - destruct (ps_submit b d fence s) as [s' [a|e]] eqn:E; cbn.
    + apply ps_submit_Ok in E as (Hsub & -> & ->). destruct Hs as [Hbusy _ Hiss _ _].
      constructor.
      * apply eq_None_not_Some; intros [b' Hb']; apply Hiss in Hb'; cbn in Hb'; lia.
      * intros f Hf. apply (sub_idle _ _ _ _ Hsub), Hbusy. eauto.
    + apply fail_safe in E as ->. constructor.
  - destruct (ps_release f fence s) as [s' [r|e]] eqn:E; cbn.
    + apply ps_release_retires in E as (_ & [Hf ->]%ps_retire_Ok & -> & _). by constructor.
    + apply fail_safe in E as ->. constructor.
  - unfold ps_cancel_unsubmitted. destruct (ps_retire f s) as [s' [b|e]] eqn:E; cbn.
    + apply ps_retire_Ok in E as [Hf ->]. by constructor.
    + apply fail_safe in E as ->. constructor.
Qed.

(** ** Properties *)

(** [PresentationState] is an implementation of the release-before-reuse
    specification.  Along any sequence of calls from the default state, if two
    successful [submit]s name the same buffer, the frame of the first one was
    retired (by [release] with a fence, or by [cancel_unsubmitted]) in between. *)
Theorem ps_release_before_reuse (ops : list ps_op) t1 f1 b t2 f2 t3 :
  events_of ops ps_default = t1 ++ Acquired f1 b :: t2 ++ Acquired f2 b :: t3 →
  Retired f1 b ∈ t2.
Proof. apply owner_release_before_reuse, ps_default_inv. Qed.

Definition demo_buffer : BufferMetadata :=
  mkBuffer 7 640 480 (mkFormatModifier 875713089 0) [mkPlane 0 0 2560].

Definition demo_ops : list ps_op :=
  [PsFeedback [mkFormatModifier 875713089 0]; PsConfigure (mkConfigure 4 640 480 60000);
   PsAcknowledge 4; PsSubmit demo_buffer [] true; PsSubmit demo_buffer [] true;
   PsRelease 1 true; PsSubmit demo_buffer [] true].

Lemma ps_release_before_reuse_witness : Retired 1 7 ∈ [Quiet; Retired 1 7].
Proof.
  apply (ps_release_before_reuse demo_ops [Quiet; Quiet; Quiet] 1 7 [Quiet; Retired 1 7] 2 []).
  vm_compute. reflexivity.
Defined.

(** [submit] accepts exactly the buffers that satisfy the presentation
    contract: the latest configure is acknowledged and fixes the size, the
    metadata is valid, the format was advertised, a fence is present, the
    buffer is idle, all damage fits and a frame identity is left.  It then
    reserves the buffer under the next frame identity. *)
Theorem ps_submit_iff b d fence s s' a :
  ps_submit b d fence s = (s', Ok a) ↔
  ps_submittable b d fence s ∧ s' = ps_submitted b s
  ∧ a = mkAccepted (ps_next_frame_id s + 1) b d true.
Proof.
  split; [apply ps_submit_Ok|]. intros (H & -> & ->). by apply ps_submit_accepts.
Qed.
