(* ===== verification/Protocol.v ===== *)
(** * The wire contract (graphics/droidloom-denial-protocol/src/lib.rs)

    Constants, messages, errors and the validation functions of the private
    Android-to-host protocol.  The codec is in [Codec], the host-side task
    state machine in [TaskState]. *)

From S2P Require Import Prelude Bytes Transport.

(** ** Constants *)

(** [*b"DLOM"]. *)
Definition MAGIC : list Z := [68; 76; 79; 77].
Definition PROTOCOL_MAJOR : Z := 1.
Definition PROTOCOL_MINOR : Z := 9.
Definition BASE_PROTOCOL_MINOR : Z := 3.
Definition ACTIVATION_PROTOCOL_MINOR : Z := 4.
Definition HEADER_BYTES : Z := 32.
Definition MAX_PACKET_BYTES : Z := 65536.
Definition MAX_PACKET_DESCRIPTORS : Z := 4.
Definition MAX_PACKAGE_BYTES : Z := 255.
Definition MAX_ERROR_BYTES : Z := 1024.
Definition MAX_FORMATS : Z := 256.
Definition MAX_DAMAGE_RECTS : Z := 256.
Definition MAX_TASK_OBJECTS : Z := 4096.
Definition MAX_BUFFERS_PER_TASK : Z := 256.

(** [pub mod capability]. *)
Module capability.

Definition TASK_WINDOWS : Z := Z.shiftl 1 0.
Definition CACHED_DMABUF_IMPORT : Z := Z.shiftl 1 1.
Definition SYNCOBJ_TIMELINES : Z := Z.shiftl 1 2.
Definition PRESENTATION_TIMING : Z := Z.shiftl 1 3.
Definition INPUT : Z := Z.shiftl 1 4.
Definition CLIENT_TARGET : Z := Z.shiftl 1 5.
Definition HOST_RENDER_TARGETS : Z := Z.shiftl 1 6.
Definition DROIDLOOM_COMPOSITION : Z := Z.shiftl 1 7.
Definition TASK_ACTIVATION : Z := Z.shiftl 1 8.
Definition DISPLAY_POWER : Z := Z.shiftl 1 9.
Definition DIRECT_INPUT : Z := Z.shiftl 1 10.
Definition LAZY_RENDER_TARGETS : Z := Z.shiftl 1 11.
Definition SCENE_PRESENTATION : Z := Z.shiftl 1 12.
Definition HOST_CLOCK : Z := Z.shiftl 1 13.
Definition REQUIRED_V1 : Z :=
  Z.lor (Z.lor (Z.lor (Z.lor (Z.lor (Z.lor (Z.lor TASK_WINDOWS CACHED_DMABUF_IMPORT)
    SYNCOBJ_TIMELINES) PRESENTATION_TIMING) INPUT) HOST_RENDER_TARGETS)
    DROIDLOOM_COMPOSITION) DISPLAY_POWER.

End capability.

Module content_state.

Definition OPAQUE : Z := Z.shiftl 1 0.
Definition SECURE : Z := Z.shiftl 1 1.
Definition HDR : Z := Z.shiftl 1 2.
Definition KNOWN : Z := Z.lor (Z.lor OPAQUE SECURE) HDR.

End content_state.

Module presentation_flag.

Definition DISPLAYED : Z := Z.shiftl 1 0.
Definition DIRECT_SCANOUT : Z := Z.shiftl 1 1.
Definition COMPOSITED : Z := Z.shiftl 1 2.
Definition KNOWN : Z := Z.lor (Z.lor DISPLAYED DIRECT_SCANOUT) COMPOSITED.

End presentation_flag.

Abbreviation TaskObjectId := Z (only parsing).
Abbreviation AndroidTaskId := Z (only parsing).
Abbreviation AndroidDisplayId := Z (only parsing).

(** Rust's [String]: UTF-8 bytes. *)
Abbreviation rust_string := (list Z) (only parsing).

(** ** Enumerations *)

Inductive DescriptorKind : Type :=
| InputChannel
| DmabufPlane
| LayerStream
| AcquireTimeline
| ReleaseTimeline.

#[global] Instance DescriptorKind_eq_dec : EqDecision DescriptorKind.
Proof. solve_decision. Defined.

(** The [#[repr(u8)]] discriminants are the casts [as u8]. *)
Inductive Transform : Type := Normal | Rotate90 | Rotate180 | Rotate270.
Definition Transform_u8 (t : Transform) : Z :=
  match t with Normal => 0 | Rotate90 => 1 | Rotate180 => 2 | Rotate270 => 3 end.

Inductive Visibility : Type := Hidden | Visible | Obscured.
Definition Visibility_u8 (v : Visibility) : Z :=
  match v with Hidden => 0 | Visible => 1 | Obscured => 2 end.

Inductive TouchAction : Type := TouchDown | TouchMotion | TouchUp | TouchCancel.
Definition TouchAction_u8 (a : TouchAction) : Z :=
  match a with TouchDown => 0 | TouchMotion => 1 | TouchUp => 2 | TouchCancel => 3 end.

Inductive KeyAction : Type := KeyDown | KeyUp.
Definition KeyAction_u8 (a : KeyAction) : Z := match a with KeyDown => 0 | KeyUp => 1 end.

Inductive NavigationAction : Type := NavBack | NavHome | NavOverview.
Definition NavigationAction_u8 (a : NavigationAction) : Z :=
  match a with NavBack => 0 | NavHome => 1 | NavOverview => 2 end.

Inductive ProtocolErrorCode : Type :=
| Incompatible | InvalidMessage | DuplicateObject | UnknownObjectCode | ResourceLimit
| InvalidState | ProtectedContent | UnsupportedFormatCode.
Definition ProtocolErrorCode_u16 (c : ProtocolErrorCode) : Z :=
  match c with
  | Incompatible => 1 | InvalidMessage => 2 | DuplicateObject => 3 | UnknownObjectCode => 4
  | ResourceLimit => 5 | InvalidState => 6 | ProtectedContent => 7 | UnsupportedFormatCode => 8
  end.

Inductive InputEvent : Type :=
| Touch (action : TouchAction) (pointer_id x_fixed y_fixed pressure : Z)
| Key (action : KeyAction) (keycode repeat : Z)
| Navigation (action : NavigationAction).

(** ** Messages *)

Inductive AndroidMessage : Type :=
| RequestRenderTargets (object : TaskObjectId) (configure_serial : Z)
| BindInputChannel (generation wire : Z)
| BindInputRoute (object : TaskObjectId) (display incarnation : Z)
| ClientHello (min_major max_major capabilities : Z)
| CreateTask (object : TaskObjectId) (display : AndroidDisplayId) (package : rust_string)
| BindTask (object : TaskObjectId) (task : AndroidTaskId)
| DestroyTask (object : TaskObjectId)
| BindTimelines (object : TaskObjectId)
| AckConfigure (object : TaskObjectId) (serial : Z)
| RegisterBuffer (object : TaskObjectId) (buffer : BufferMetadata)
| UnregisterBuffer (object : TaskObjectId) (buffer : BufferId)
| Present (object : TaskObjectId) (frame : FrameId) (buffer : BufferId)
    (configure_serial acquire_point release_point : Z) (damage : list Damage)
| BindLayerStream (object : TaskObjectId)
| SetContentState (object : TaskObjectId) (flags : Z)
| SetFrameRate (object : TaskObjectId) (millihz : Z)
| RequestActivation (object : TaskObjectId)
| Pong (cookie : Z).

Inductive DenialMessage : Type :=
| RequestInputChannel (generation : Z)
| ServerHello (major minor capabilities max_task_objects max_buffers_per_task
    max_damage_rects : Z)
| DisplayPower (powered : bool)
| FormatFeedback (object : TaskObjectId) (generation : Z) (formats : list FormatModifier)
| RegisterRenderTarget (object : TaskObjectId) (configure_serial : Z) (buffer : BufferMetadata)
| UnregisterRenderTarget (object : TaskObjectId) (buffer : BufferId)
| ConfigureMsg (object : TaskObjectId) (serial width height scale_numerator
    scale_denominator : Z) (transform : Transform) (refresh_millihz : Z)
| Insets (object : TaskObjectId) (left top right bottom : Z)
| VisibilityMsg (object : TaskObjectId) (visibility : Visibility) (focused : bool)
| Close (object : TaskObjectId)
| BufferReleased (object : TaskObjectId) (frame : FrameId) (buffer : BufferId)
    (release_point : Z)
| Presented (object : TaskObjectId) (frame : FrameId)
    (timestamp_nanos refresh_period_nanos sequence flags : Z)
| ScenePresented (object : TaskObjectId)
    (scene timestamp_nanos refresh_period_nanos sequence : Z)
| Input (object : TaskObjectId) (serial timestamp_nanos : Z) (event : InputEvent)
| ErrorMsg (object : option TaskObjectId) (code : ProtocolErrorCode) (offending_opcode : Z)
    (message : rust_string)
| Ping (cookie : Z)
| FrameGrant (latch_nanos target_nanos period_nanos : Z).

#[global] Instance Transform_eq_dec : EqDecision Transform.
Proof. solve_decision. Defined.
#[global] Instance Visibility_eq_dec : EqDecision Visibility.
Proof. solve_decision. Defined.
#[global] Instance TouchAction_eq_dec : EqDecision TouchAction.
Proof. solve_decision. Defined.
#[global] Instance KeyAction_eq_dec : EqDecision KeyAction.
Proof. solve_decision. Defined.
#[global] Instance NavigationAction_eq_dec : EqDecision NavigationAction.
Proof. solve_decision. Defined.
#[global] Instance ProtocolErrorCode_eq_dec : EqDecision ProtocolErrorCode.
Proof. solve_decision. Defined.
#[global] Instance InputEvent_eq_dec : EqDecision InputEvent.
Proof. solve_decision. Defined.
#[global] Instance AndroidMessage_eq_dec : EqDecision AndroidMessage.
Proof. solve_decision. Defined.
#[global] Instance DenialMessage_eq_dec : EqDecision DenialMessage.
Proof. solve_decision. Defined.

Record EncodedPacket : Type := mkEncoded {
  ep_bytes : list Z;
  ep_descriptors : list DescriptorKind
}.

Record DecodedPacket (T : Type) : Type := mkDecoded {
  dp_message : T;
  dp_descriptors : list DescriptorKind
}.
Arguments mkDecoded {T} _ _.
Arguments dp_message {T} _.
Arguments dp_descriptors {T} _.

Inductive WireError : Type :=
| ShortHeader
| PacketTooLarge
| InvalidMagic
| UnsupportedVersion (major minor : Z)
| LengthMismatch
| UnsupportedHeaderBits
| UnknownOpcode (opcode : Z)
| DescriptorCount (expected actual : Z)
| Truncated
| TrailingBytes
| InvalidString (field : string)
| InvalidObject
| InvalidEnum (field : string) (value : Z)
| Limit (field : string)
| WireTransport (e : TransportError).

#[global] Instance WireError_eq_dec : EqDecision WireError.
Proof. solve_decision. Defined.

Abbreviation wresult := (result WireError) (only parsing).

(** ** Validation *)

Definition valid_object (object : TaskObjectId) : wresult Z :=
  if object =? 0 then Err InvalidObject else Ok object.

Definition require_connection (object : Z) : wresult unit :=
  if object =? 0 then Ok tt else Err InvalidObject.

Definition nonzero (field : string) (value : Z) : wresult unit :=
  if value =? 0 then Err (InvalidEnum field value) else Ok tt.

(** [value & !known == 0] on [u64]. *)
Definition known_bits (field : string) (value known : Z) : wresult unit :=
  if Z.land value (Z.lxor u64_max known) =? 0 then Ok tt else Err (InvalidEnum field value).

Definition frame_grant (latch target period : Z) : wresult unit :=
  nonzero "grant latch" latch;;
  nonzero "grant period" period;;
  fail_if (target <=? latch) (InvalidEnum "grant target" target).

Definition validate_input_route (display incarnation : Z) : wresult unit :=
  fail_if ((2147483647 <? display) || (incarnation =? 0) || (9223372036854775807 <? incarnation))
    (InvalidEnum "native input route" incarnation).

Definition is_ascii_alphanumeric (b : Z) : bool :=
  between 48 57 b || between 65 90 b || between 97 122 b.

(** [package.split('.')]: the parts between dots, at least one. *)
Fixpoint split_dots (l : list Z) : list (list Z) :=
  match l with
  | [] => [[]]
  | b :: l =>
      if b =? 46 then [] :: split_dots l
      else match split_dots l with
           | part :: parts => (b :: part) :: parts
           | [] => [[b]]
           end
  end.

Definition valid_package (package : rust_string) : bool :=
  negb (bool_decide (package = [])) && (zlen package <=? MAX_PACKAGE_BYTES)
  && forallb (λ part, negb (bool_decide (part = []))
                      && forallb (λ byte, is_ascii_alphanumeric byte || (byte =? 95)) part)
       (split_dots package).

Definition validate_damage (d : Damage) : wresult unit :=
  fail_if ((d_width d =? 0) || (d_height d =? 0)
           || negb (bool_decide (is_Some (checked_add u32_max (d_x d) (d_width d))))
           || negb (bool_decide (is_Some (checked_add u32_max (d_y d) (d_height d)))))
    (Limit "damage rectangle").

Definition validate_server_hello (major minor capabilities max_task_objects
    max_buffers_per_task max_damage_rects : Z) : wresult unit :=
  fail_if (negb (major =? PROTOCOL_MAJOR) || (PROTOCOL_MINOR <? minor))
    (UnsupportedVersion major minor);;
  fail_if (negb (Z.land capabilities capability.REQUIRED_V1 =? capability.REQUIRED_V1))
    (InvalidEnum "required capabilities" capabilities);;
  fail_if ((max_task_objects =? 0) || (MAX_TASK_OBJECTS <? max_task_objects))
    (Limit "task objects");;
  fail_if ((max_buffers_per_task =? 0) || (MAX_BUFFERS_PER_TASK <? max_buffers_per_task))
    (Limit "buffers per task");;
  fail_if ((max_damage_rects =? 0) || (MAX_DAMAGE_RECTS <? max_damage_rects))
    (Limit "damage rectangles").

Definition validate_configure (serial width height scale_numerator scale_denominator
    refresh_millihz : Z) : wresult unit :=
  fail_if ((serial =? 0) || (width =? 0) || (height =? 0) || (16384 <? width)
           || (16384 <? height) || (scale_numerator =? 0) || (scale_denominator =? 0)
           || (refresh_millihz =? 0) || (1000000 <? refresh_millihz))
    (Limit "configure").

Definition validate_descriptor_layout (header_count received_count : Z)
    (expected : list DescriptorKind) : wresult unit :=
  fail_if (negb (header_count =? zlen expected) || negb (received_count =? zlen expected))
    (DescriptorCount (zlen expected) received_count).

Definition decode_bool (value : Z) (field : string) : wresult bool :=
  match value with
  | 0 => Ok false
  | 1 => Ok true
  | _ => Err (InvalidEnum field value)
  end.

Definition decode_transform (value : Z) : wresult Transform :=
  match value with
  | 0 => Ok Normal | 1 => Ok Rotate90 | 2 => Ok Rotate180 | 3 => Ok Rotate270
  | _ => Err (InvalidEnum "transform" value)
  end.

Definition decode_visibility (value : Z) : wresult Visibility :=
  match value with
  | 0 => Ok Hidden | 1 => Ok Visible | 2 => Ok Obscured
  | _ => Err (InvalidEnum "visibility" value)
  end.

Definition decode_touch_action (value : Z) : wresult TouchAction :=
  match value with
  | 0 => Ok TouchDown | 1 => Ok TouchMotion | 2 => Ok TouchUp | 3 => Ok TouchCancel
  | _ => Err (InvalidEnum "touch action" value)
  end.

Definition decode_key_action (value : Z) : wresult KeyAction :=
  match value with
  | 0 => Ok KeyDown | 1 => Ok KeyUp
  | _ => Err (InvalidEnum "key action" value)
  end.

Definition decode_navigation_action (value : Z) : wresult NavigationAction :=
  match value with
  | 0 => Ok NavBack | 1 => Ok NavHome | 2 => Ok NavOverview
  | _ => Err (InvalidEnum "navigation action" value)
  end.

Definition decode_error_code (value : Z) : wresult ProtocolErrorCode :=
  match value with
  | 1 => Ok Incompatible | 2 => Ok InvalidMessage | 3 => Ok DuplicateObject
  | 4 => Ok UnknownObjectCode | 5 => Ok ResourceLimit | 6 => Ok InvalidState
  | 7 => Ok ProtectedContent | 8 => Ok UnsupportedFormatCode
  | _ => Err (InvalidEnum "protocol error" value)
  end.
