(* ===== verification/Codec.v ===== *)
(** * The packet codec (graphics/droidloom-denial-protocol/src/lib.rs)

    [encode_android], [decode_android], [encode_denial] and [decode_denial]:
    one bounded packet per sequenced-socket record, a 32-byte header followed by
    a typed little-endian payload.  The proofs are in [CodecProofs]. *)

From S2P Require Import Prelude Bytes Transport Protocol.

(** ** Opcodes *)

Definition OP_CLIENT_HELLO : Z := 0x0001.
Definition OP_CREATE_TASK : Z := 0x0002.
Definition OP_DESTROY_TASK : Z := 0x0003.
Definition OP_BIND_TIMELINES : Z := 0x0004.
Definition OP_ACK_CONFIGURE : Z := 0x0005.
Definition OP_REGISTER_BUFFER : Z := 0x0006.
Definition OP_UNREGISTER_BUFFER : Z := 0x0007.
Definition OP_PRESENT : Z := 0x0008.
Definition OP_SET_CONTENT_STATE : Z := 0x0009.
Definition OP_SET_FRAME_RATE : Z := 0x000a.
Definition OP_PONG : Z := 0x000b.
Definition OP_BIND_TASK : Z := 0x000c.
Definition OP_BIND_LAYER_STREAM : Z := 0x000d.
Definition OP_REQUEST_ACTIVATION : Z := 0x000e.
Definition OP_BIND_INPUT_CHANNEL : Z := 0x000f.
Definition OP_BIND_INPUT_ROUTE : Z := 0x0010.
Definition OP_REQUEST_RENDER_TARGETS : Z := 0x0011.

Definition OP_SERVER_HELLO : Z := 0x8001.
Definition OP_FORMAT_FEEDBACK : Z := 0x8002.
Definition OP_CONFIGURE : Z := 0x8003.
Definition OP_INSETS : Z := 0x8004.
Definition OP_VISIBILITY : Z := 0x8005.
Definition OP_CLOSE : Z := 0x8006.
Definition OP_BUFFER_RELEASED : Z := 0x8007.
Definition OP_PRESENTED : Z := 0x8008.
Definition OP_INPUT : Z := 0x8009.
Definition OP_ERROR : Z := 0x800a.
Definition OP_PING : Z := 0x800b.
Definition OP_REGISTER_RENDER_TARGET : Z := 0x800c.
Definition OP_UNREGISTER_RENDER_TARGET : Z := 0x800d.
Definition OP_DISPLAY_POWER : Z := 0x800e.
Definition OP_REQUEST_INPUT_CHANNEL : Z := 0x800f.
Definition OP_SCENE_PRESENTED : Z := 0x8010.
Definition OP_FRAME_GRANT : Z := 0x8011.

(** ** Writer and Reader *)

(** [Writer]: the bytes each method appends. *)
Definition w_u8 (x : Z) : list Z := le_bytes 1 x.
Definition w_u16 (x : Z) : list Z := le_bytes 2 x.
Definition w_u32 (x : Z) : list Z := le_bytes 4 x.
Definition w_i32 (x : Z) : list Z := le_i32 x.
Definition w_u64 (x : Z) : list Z := le_bytes 8 x.

#[global] Arguments w_u8 : simpl never.
#[global] Arguments w_u16 : simpl never.
#[global] Arguments w_u32 : simpl never.
#[global] Arguments w_i32 : simpl never.
#[global] Arguments w_u64 : simpl never.

Definition w_string (value : rust_string) (limit : Z) (field : string) : wresult (list Z) :=
  fail_if (limit <? zlen value) (InvalidString field);;
  fail_if (65535 <? zlen value) (InvalidString field);;
  mret (w_u16 (zlen value) ++ value).

Abbreviation Reader := (reader WireError) (only parsing).

Definition u8 : Reader Z := r_uint Truncated 1.
Definition u16 : Reader Z := r_uint Truncated 2.
Definition u32 : Reader Z := r_uint Truncated 4.
Definition i32 : Reader Z := x ← r_uint Truncated 4; mret (i32_of_u32 x).
Definition u64 : Reader Z := r_uint Truncated 8.

Definition r_string (limit : Z) (field : string) : Reader rust_string :=
  length ← u16;
  r_lift (fail_if (limit <? length) (InvalidString field));;
  bytes ← r_take Truncated (Z.to_nat length);
  r_lift (fail_if (negb (utf8_valid bytes)) (InvalidString field));;
  mret bytes.

(** ** Framing *)

(** The minor version each opcode's header carries. *)
Definition packet_minor (opcode : Z) : Z :=
  if opcode =? OP_REQUEST_ACTIVATION then ACTIVATION_PROTOCOL_MINOR
  else if opcode =? OP_DISPLAY_POWER then 5
  else if (opcode =? OP_BIND_INPUT_CHANNEL) || (opcode =? OP_BIND_INPUT_ROUTE)
          || (opcode =? OP_REQUEST_INPUT_CHANNEL) then 6
  else if opcode =? OP_REQUEST_RENDER_TARGETS then 7
  else if opcode =? OP_SCENE_PRESENTED then 8
  else if opcode =? OP_FRAME_GRANT then 9
  else BASE_PROTOCOL_MINOR.

Definition header_bytes (minor opcode fd_count object payload_length : Z) : list Z :=
  MAGIC ++ w_u16 PROTOCOL_MAJOR ++ w_u16 minor ++ w_u16 opcode ++ w_u16 fd_count
  ++ w_u32 0 ++ w_u64 object ++ w_u32 payload_length ++ w_u32 0.

#[global] Arguments header_bytes : simpl never.

Definition finish_packet (opcode object : Z) (payload : list Z)
    (descriptors : list DescriptorKind) : wresult EncodedPacket :=
  fail_if (MAX_PACKET_BYTES <? HEADER_BYTES + zlen payload) PacketTooLarge;;
  fail_if (u32_max <? zlen payload) PacketTooLarge;;
  fail_if (65535 <? zlen descriptors) (Limit "descriptors");;
  mret (mkEncoded
    (header_bytes (packet_minor opcode) opcode (zlen descriptors) object (zlen payload)
     ++ payload) descriptors).

Record Header : Type := mkHeader {
  h_opcode : Z; h_fd_count : Z; h_object : Z; h_payload : list Z
}.

(** The fixed fields after the magic: opcode, descriptor count, flags, object,
    payload length and the reserved word. *)
Definition parse_header_fields : Reader (Z * Z * Z * Z * Z * Z) :=
  major ← u16;
  minor ← u16;
  r_lift (fail_if (negb (major =? PROTOCOL_MAJOR) || (PROTOCOL_MINOR <? minor))
            (UnsupportedVersion major minor));;
  opcode ← u16;
  fd_count ← u16;
  flags ← u32;
  object ← u64;
  payload_length ← u32;
  reserved ← u32;
  mret (opcode, fd_count, flags, object, payload_length, reserved).

Definition parse_header (packet : list Z) (received_descriptors : Z) : wresult Header :=
  fail_if (zlen packet <? HEADER_BYTES) ShortHeader;;
  fail_if (MAX_PACKET_BYTES <? zlen packet) PacketTooLarge;;
  fail_if (negb (bool_decide (take 4 packet = MAGIC))) InvalidMagic;;
  '(opcode, fd_count, flags, object, payload_length, reserved, rest) ←
    parse_header_fields (drop 4 (take 32 packet));
  r_finish TrailingBytes rest;;
  fail_if (negb (flags =? 0) || negb (reserved =? 0)) UnsupportedHeaderBits;;
  fail_if (negb (zlen packet =? HEADER_BYTES + payload_length)) LengthMismatch;;
  fail_if (negb (fd_count =? received_descriptors))
    (DescriptorCount fd_count received_descriptors);;
  mret (mkHeader opcode fd_count object (drop 32 packet)).

(** ** Compound payloads *)

Definition encode_plane (p : PlaneMetadata) : list Z :=
  w_u32 (p_index p) ++ w_u32 (p_offset p) ++ w_u32 (p_stride p).

Definition encode_buffer (b : BufferMetadata) : wresult (list Z) :=
  fail_if (255 <? zlen (b_planes b)) (Limit "DMA-BUF planes");;
  mret (w_u64 (b_id b) ++ w_u32 (b_width b) ++ w_u32 (b_height b)
        ++ w_u32 (fourcc (b_format b)) ++ w_u64 (modifier (b_format b))
        ++ w_u8 (zlen (b_planes b)) ++ concat (map encode_plane (b_planes b))).

Definition decode_plane : Reader PlaneMetadata :=
  index ← u32; offset ← u32; stride ← u32; mret (mkPlane index offset stride).

Definition decode_buffer : Reader BufferMetadata :=
  id ← u64;
  width ← u32;
  height ← u32;
  fourcc ← u32;
  modifier ← u64;
  count ← u8;
  r_lift (fail_if ((count =? 0) || (4 <? count)) (Limit "DMA-BUF planes"));;
  planes ← r_repeat (Z.to_nat count) decode_plane;
  let buffer := mkBuffer id width height (mkFormatModifier fourcc modifier) planes in
  r_lift (map_err WireTransport (validate buffer));;
  r_lift (fail_if ((b_id buffer =? 0) || (modifier =? u64_max))
            (InvalidEnum "buffer identity or modifier" (b_id buffer)));;
  mret buffer.

Definition encode_damage (d : Damage) : wresult (list Z) :=
  validate_damage d;;
  mret (w_u32 (d_x d) ++ w_u32 (d_y d) ++ w_u32 (d_width d) ++ w_u32 (d_height d)).

Fixpoint encode_damages (ds : list Damage) : wresult (list Z) :=
  match ds with
  | [] => mret []
  | d :: ds => bs ← encode_damage d; rest ← encode_damages ds; mret (bs ++ rest)
  end.

Definition decode_damage : Reader Damage :=
  x ← u32; y ← u32; width ← u32; height ← u32;
  let rect := mkDamage x y width height in
  r_lift (validate_damage rect);; mret rect.

Definition encode_format (f : FormatModifier) : wresult (list Z) :=
  fail_if (modifier f =? u64_max) (InvalidEnum "DRM modifier" (modifier f));;
  mret (w_u32 (fourcc f) ++ w_u64 (modifier f)).

Fixpoint encode_formats (fs : list FormatModifier) : wresult (list Z) :=
  match fs with
  | [] => mret []
  | f :: fs => bs ← encode_format f; rest ← encode_formats fs; mret (bs ++ rest)
  end.

Definition decode_format : Reader FormatModifier :=
  fourcc ← u32; modifier ← u64;
  r_lift (fail_if (modifier =? u64_max) (InvalidEnum "DRM modifier" modifier));;
  mret (mkFormatModifier fourcc modifier).

Definition encode_input (event : InputEvent) : list Z :=
  match event with
  | Touch action pointer_id x_fixed y_fixed pressure =>
      w_u8 0 ++ w_u8 (TouchAction_u8 action) ++ w_u32 pointer_id ++ w_i32 x_fixed
      ++ w_i32 y_fixed ++ w_u16 pressure
  | Key action keycode repeat =>
      w_u8 1 ++ w_u8 (KeyAction_u8 action) ++ w_u32 keycode ++ w_u16 repeat
  | Navigation action => w_u8 2 ++ w_u8 (NavigationAction_u8 action)
  end.

Definition decode_input : Reader InputEvent :=
  kind ← u8;
  if kind =? 0 then
    raw ← u8; action ← r_lift (decode_touch_action raw);
    pointer_id ← u32; x_fixed ← i32; y_fixed ← i32; pressure ← u16;
    mret (Touch action pointer_id x_fixed y_fixed pressure)
  else if kind =? 1 then
    raw ← u8; action ← r_lift (decode_key_action raw);
    keycode ← u32; repeat ← u16;
    mret (Key action keycode repeat)
  else if kind =? 2 then
    raw ← u8; action ← r_lift (decode_navigation_action raw);
    mret (Navigation action)
  else r_lift (Err (InvalidEnum "input event" kind)).

(** [buffer.id.0 == 0 || buffer.format.modifier == u64::MAX]. *)
Definition reject_buffer_identity (field : string) (b : BufferMetadata) : wresult unit :=
  fail_if ((b_id b =? 0) || (modifier (b_format b) =? u64_max)) (InvalidEnum field (b_id b)).

(** ** Android to host *)

(** The opcode, object, descriptor roles and payload of a message. *)
Definition encode_android_fields (message : AndroidMessage)
  : wresult (Z * Z * list DescriptorKind * list Z) :=
  match message with
  | RequestRenderTargets object configure_serial =>
      nonzero "configure serial" configure_serial;;
      object ← valid_object object;
      mret (OP_REQUEST_RENDER_TARGETS, object, [], w_u32 configure_serial)
  | BindInputChannel generation wire =>
      nonzero "input generation" generation;;
      nonzero "input wire ABI" wire;;
      mret (OP_BIND_INPUT_CHANNEL, 0, [InputChannel], w_u64 generation ++ w_u16 wire)
  | BindInputRoute object display incarnation =>
      validate_input_route display incarnation;;
      object ← valid_object object;
      mret (OP_BIND_INPUT_ROUTE, object, [], w_u32 display ++ w_u64 incarnation)
  | ClientHello min_major max_major capabilities =>
      fail_if ((min_major =? 0) || (max_major <? min_major))
        (InvalidEnum "version range" min_major);;
      mret (OP_CLIENT_HELLO, 0, [], w_u16 min_major ++ w_u16 max_major ++ w_u64 capabilities)
  | CreateTask object display package =>
      object ← valid_object object;
      fail_if ((display =? 0) || negb (valid_package package)) (InvalidString "task identity");;
      name ← w_string package MAX_PACKAGE_BYTES "package";
      mret (OP_CREATE_TASK, object, [], w_u64 display ++ name)
  | BindTask object task =>
      nonzero "Android task identity" task;;
      object ← valid_object object;
      mret (OP_BIND_TASK, object, [], w_u64 task)
  | DestroyTask object =>
      object ← valid_object object; mret (OP_DESTROY_TASK, object, [], [])
  | BindTimelines object =>
      object ← valid_object object;
      mret (OP_BIND_TIMELINES, object, [AcquireTimeline; ReleaseTimeline], [])
  | AckConfigure object serial =>
      fail_if (serial =? 0) (InvalidEnum "configure serial" 0);;
      object ← valid_object object;
      mret (OP_ACK_CONFIGURE, object, [], w_u32 serial)
  | RegisterBuffer object buffer =>
      map_err WireTransport (validate buffer);;
      reject_buffer_identity "buffer identity or modifier" buffer;;
      payload ← encode_buffer buffer;
      object ← valid_object object;
      mret (OP_REGISTER_BUFFER, object, replicate (length (b_planes buffer)) DmabufPlane, payload)
  | UnregisterBuffer object buffer =>
      nonzero "buffer ID" buffer;;
      object ← valid_object object;
      mret (OP_UNREGISTER_BUFFER, object, [], w_u64 buffer)
  | Present object frame buffer configure_serial acquire_point release_point damage =>
      nonzero "frame ID" frame;;
      nonzero "buffer ID" buffer;;
      nonzero "configure serial" configure_serial;;
      nonzero "acquire point" acquire_point;;
      nonzero "release point" release_point;;
      fail_if (MAX_DAMAGE_RECTS <? zlen damage) (Limit "damage");;
      fail_if (65535 <? zlen damage) (Limit "damage");;
      rects ← encode_damages damage;
      object ← valid_object object;
      mret (OP_PRESENT, object, [],
            w_u64 frame ++ w_u64 buffer ++ w_u32 configure_serial ++ w_u64 acquire_point
            ++ w_u64 release_point ++ w_u16 (zlen damage) ++ rects)
  | BindLayerStream object =>
      object ← valid_object object;
      mret (OP_BIND_LAYER_STREAM, object, replicate 2 LayerStream, [])
  | SetContentState object flags =>
      known_bits "content state" flags content_state.KNOWN;;
      object ← valid_object object;
      mret (OP_SET_CONTENT_STATE, object, [], w_u32 flags)
  | SetFrameRate object millihz =>
      fail_if (1000000 <? millihz) (Limit "frame rate");;
      object ← valid_object object;
      mret (OP_SET_FRAME_RATE, object, [], w_u32 millihz)
  | RequestActivation object =>
      object ← valid_object object; mret (OP_REQUEST_ACTIVATION, object, [], [])
  | Pong cookie => mret (OP_PONG, 0, [], w_u64 cookie)
  end.

Definition encode_android (message : AndroidMessage) : wresult EncodedPacket :=
  '(opcode, object, descriptors, payload) ← encode_android_fields message;
  finish_packet opcode object payload descriptors.

(** The [match header.opcode] of [decode_android]. *)
Definition decode_android_fields (opcode object : Z)
  : Reader (AndroidMessage * list DescriptorKind) :=
  if opcode =? OP_REQUEST_RENDER_TARGETS then
    r_lift (valid_object object);;
    configure_serial ← u32;
    r_lift (nonzero "configure serial" configure_serial);;
    mret (RequestRenderTargets object configure_serial, [])
  else if opcode =? OP_CLIENT_HELLO then
    r_lift (require_connection object);;
    min_major ← u16;
    max_major ← u16;
    r_lift (fail_if ((min_major =? 0) || (max_major <? min_major))
              (InvalidEnum "version range" min_major));;
    capabilities ← u64;
    mret (ClientHello min_major max_major capabilities, [])
  else if opcode =? OP_CREATE_TASK then
    r_lift (valid_object object);;
    display ← u64;
    package ← r_string MAX_PACKAGE_BYTES "package";
    r_lift (fail_if ((display =? 0) || negb (valid_package package))
              (InvalidString "task identity"));;
    mret (CreateTask object display package, [])
  else if opcode =? OP_BIND_TASK then
    r_lift (valid_object object);;
    task ← u64;
    r_lift (nonzero "Android task identity" task);;
    mret (BindTask object task, [])
  else if opcode =? OP_DESTROY_TASK then
    r_lift (valid_object object);;
    mret (DestroyTask object, [])
  else if opcode =? OP_BIND_TIMELINES then
    r_lift (valid_object object);;
    mret (BindTimelines object, [AcquireTimeline; ReleaseTimeline])
  else if opcode =? OP_ACK_CONFIGURE then
    r_lift (valid_object object);;
    serial ← u32;
    r_lift (nonzero "configure serial" serial);;
    mret (AckConfigure object serial, [])
  else if opcode =? OP_REGISTER_BUFFER then
    r_lift (valid_object object);;
    buffer ← decode_buffer;
    mret (RegisterBuffer object buffer, replicate (length (b_planes buffer)) DmabufPlane)
  else if opcode =? OP_UNREGISTER_BUFFER then
    r_lift (valid_object object);;
    buffer ← u64;
    r_lift (nonzero "buffer ID" buffer);;
    mret (UnregisterBuffer object buffer, [])
  else if opcode =? OP_PRESENT then
    r_lift (valid_object object);;
    frame ← u64;
    buffer ← u64;
    configure_serial ← u32;
    acquire_point ← u64;
    release_point ← u64;
    r_lift (nonzero "frame ID" frame);;
    r_lift (nonzero "buffer ID" buffer);;
    r_lift (nonzero "configure serial" configure_serial);;
    r_lift (nonzero "acquire point" acquire_point);;
    r_lift (nonzero "release point" release_point);;
    count ← u16;
    r_lift (fail_if (MAX_DAMAGE_RECTS <? count) (Limit "damage"));;
    damage ← r_repeat (Z.to_nat count) decode_damage;
    mret (Present object frame buffer configure_serial acquire_point release_point damage, [])
  else if opcode =? OP_BIND_INPUT_CHANNEL then
    r_lift (require_connection object);;
    generation ← u64;
    r_lift (nonzero "input generation" generation);;
    wire ← u16;
    r_lift (nonzero "input wire ABI" wire);;
    mret (BindInputChannel generation wire, [InputChannel])
  else if opcode =? OP_BIND_INPUT_ROUTE then
    r_lift (valid_object object);;
    display ← u32;
    incarnation ← u64;
    r_lift (validate_input_route display incarnation);;
    mret (BindInputRoute object display incarnation, [])
  else if opcode =? OP_BIND_LAYER_STREAM then
    r_lift (valid_object object);;
    mret (BindLayerStream object, replicate 2 LayerStream)
  else if opcode =? OP_SET_CONTENT_STATE then
    r_lift (valid_object object);;
    flags ← u32;
    r_lift (known_bits "content state" flags content_state.KNOWN);;
    mret (SetContentState object flags, [])
  else if opcode =? OP_SET_FRAME_RATE then
    r_lift (valid_object object);;
    millihz ← u32;
    r_lift (fail_if (1000000 <? millihz) (Limit "frame rate"));;
    mret (SetFrameRate object millihz, [])
  else if opcode =? OP_REQUEST_ACTIVATION then
    r_lift (valid_object object);;
    mret (RequestActivation object, [])
  else if opcode =? OP_PONG then
    r_lift (require_connection object);;
    cookie ← u64;
    mret (Pong cookie, [])
  else r_lift (Err (UnknownOpcode opcode)).

Definition decode_android (packet : list Z) (received_descriptors : Z)
  : wresult (DecodedPacket AndroidMessage) :=
  header ← parse_header packet received_descriptors;
  '(message, descriptors, rest) ←
    decode_android_fields (h_opcode header) (h_object header) (h_payload header);
  r_finish TrailingBytes rest;;
  validate_descriptor_layout (h_fd_count header) received_descriptors descriptors;;
  mret (mkDecoded message descriptors).

(** ** Host to Android *)

Definition encode_denial_fields (message : DenialMessage) : wresult (Z * Z * list Z) :=
  match message with
  | RequestInputChannel generation =>
      nonzero "input generation" generation;;
      mret (OP_REQUEST_INPUT_CHANNEL, 0, w_u64 generation)
  | ServerHello major minor capabilities max_task_objects max_buffers_per_task
      max_damage_rects =>
      validate_server_hello major minor capabilities max_task_objects max_buffers_per_task
        max_damage_rects;;
      mret (OP_SERVER_HELLO, 0,
            w_u16 major ++ w_u16 minor ++ w_u64 capabilities ++ w_u32 max_task_objects
            ++ w_u32 max_buffers_per_task ++ w_u32 max_damage_rects)
  | DisplayPower powered => mret (OP_DISPLAY_POWER, 0, w_u8 (Z.b2z powered))
  | FormatFeedback object generation formats =>
      nonzero "feedback generation" generation;;
      fail_if (bool_decide (formats = []) || (MAX_FORMATS <? zlen formats))
        (Limit "format feedback");;
      fail_if (65535 <? zlen formats) (Limit "format feedback");;
      pairs ← encode_formats formats;
      object ← valid_object object;
      mret (OP_FORMAT_FEEDBACK, object, w_u32 generation ++ w_u16 (zlen formats) ++ pairs)
  | RegisterRenderTarget object configure_serial buffer =>
      nonzero "configure serial" configure_serial;;
      map_err WireTransport (validate buffer);;
      reject_buffer_identity "render-target identity or modifier" buffer;;
      payload ← encode_buffer buffer;
      object ← valid_object object;
      mret (OP_REGISTER_RENDER_TARGET, object, w_u32 configure_serial ++ payload)
  | UnregisterRenderTarget object buffer =>
      nonzero "render-target ID" buffer;;
      object ← valid_object object;
      mret (OP_UNREGISTER_RENDER_TARGET, object, w_u64 buffer)
  | ConfigureMsg object serial width height scale_numerator scale_denominator transform
      refresh_millihz =>
      validate_configure serial width height scale_numerator scale_denominator refresh_millihz;;
      object ← valid_object object;
      mret (OP_CONFIGURE, object,
            w_u32 serial ++ w_u32 width ++ w_u32 height ++ w_u32 scale_numerator
            ++ w_u32 scale_denominator ++ w_u8 (Transform_u8 transform)
            ++ w_u32 refresh_millihz)
  | Insets object l t r b =>
      object ← valid_object object;
      mret (OP_INSETS, object, w_u32 l ++ w_u32 t ++ w_u32 r ++ w_u32 b)
  | VisibilityMsg object visibility focused =>
      object ← valid_object object;
      mret (OP_VISIBILITY, object, w_u8 (Visibility_u8 visibility) ++ w_u8 (Z.b2z focused))
  | Close object => object ← valid_object object; mret (OP_CLOSE, object, [])
  | BufferReleased object frame buffer release_point =>
      nonzero "frame ID" frame;;
      nonzero "buffer ID" buffer;;
      nonzero "release point" release_point;;
      object ← valid_object object;
      mret (OP_BUFFER_RELEASED, object, w_u64 frame ++ w_u64 buffer ++ w_u64 release_point)
  | Presented object frame timestamp_nanos refresh_period_nanos sequence flags =>
      nonzero "frame ID" frame;;
      nonzero "refresh period" refresh_period_nanos;;
      known_bits "presentation flags" flags presentation_flag.KNOWN;;
      object ← valid_object object;
      mret (OP_PRESENTED, object,
            w_u64 frame ++ w_u64 timestamp_nanos ++ w_u64 refresh_period_nanos
            ++ w_u64 sequence ++ w_u32 flags)
  | ScenePresented object scene timestamp_nanos refresh_period_nanos sequence =>
      nonzero "scene ID" scene;;
      nonzero "presentation timestamp" timestamp_nanos;;
      nonzero "refresh period" refresh_period_nanos;;
      object ← valid_object object;
      mret (OP_SCENE_PRESENTED, object,
            w_u64 scene ++ w_u64 timestamp_nanos ++ w_u64 refresh_period_nanos
            ++ w_u64 sequence)
  | Input object serial timestamp_nanos event =>
      nonzero "input serial" serial;;
      object ← valid_object object;
      mret (OP_INPUT, object, w_u64 serial ++ w_u64 timestamp_nanos ++ encode_input event)
  | ErrorMsg object code offending_opcode message =>
      text ← w_string message MAX_ERROR_BYTES "error";
      object ← match object with
               | Some value => valid_object value
               | None => mret 0
               end;
      mret (OP_ERROR, object,
            w_u16 (ProtocolErrorCode_u16 code) ++ w_u16 offending_opcode ++ text)
  | Ping cookie => mret (OP_PING, 0, w_u64 cookie)
  | FrameGrant latch_nanos target_nanos period_nanos =>
      frame_grant latch_nanos target_nanos period_nanos;;
      mret (OP_FRAME_GRANT, 0, w_u64 latch_nanos ++ w_u64 target_nanos ++ w_u64 period_nanos)
  end.

(** Only a lent render target carries descriptors. *)
Definition denial_descriptors (message : DenialMessage) : list DescriptorKind :=
  match message with
  | RegisterRenderTarget _ _ buffer => replicate (length (b_planes buffer)) DmabufPlane
  | _ => []
  end.

Definition encode_denial (message : DenialMessage) : wresult EncodedPacket :=
  '(opcode, object, payload) ← encode_denial_fields message;
  finish_packet opcode object payload (denial_descriptors message).

Definition decode_denial_fields (opcode object : Z) : Reader DenialMessage :=
  if opcode =? OP_SERVER_HELLO then
    r_lift (require_connection object);;
    major ← u16;
    minor ← u16;
    capabilities ← u64;
    max_task_objects ← u32;
    max_buffers_per_task ← u32;
    max_damage_rects ← u32;
    r_lift (validate_server_hello major minor capabilities max_task_objects
              max_buffers_per_task max_damage_rects);;
    mret (ServerHello major minor capabilities max_task_objects max_buffers_per_task
            max_damage_rects)
  else if opcode =? OP_REQUEST_INPUT_CHANNEL then
    r_lift (require_connection object);;
    generation ← u64;
    r_lift (nonzero "input generation" generation);;
    mret (RequestInputChannel generation)
  else if opcode =? OP_DISPLAY_POWER then
    r_lift (require_connection object);;
    raw ← u8;
    powered ← r_lift (decode_bool raw "display power");
    mret (DisplayPower powered)
  else if opcode =? OP_FORMAT_FEEDBACK then
    r_lift (valid_object object);;
    generation ← u32;
    r_lift (nonzero "feedback generation" generation);;
    count ← u16;
    r_lift (fail_if ((count =? 0) || (MAX_FORMATS <? count)) (Limit "format feedback"));;
    formats ← r_repeat (Z.to_nat count) decode_format;
    mret (FormatFeedback object generation formats)
  else if opcode =? OP_REGISTER_RENDER_TARGET then
    r_lift (valid_object object);;
    configure_serial ← u32;
    r_lift (nonzero "configure serial" configure_serial);;
    buffer ← decode_buffer;
    mret (RegisterRenderTarget object configure_serial buffer)
  else if opcode =? OP_UNREGISTER_RENDER_TARGET then
    r_lift (valid_object object);;
    buffer ← u64;
    r_lift (nonzero "render-target ID" buffer);;
    mret (UnregisterRenderTarget object buffer)
  else if opcode =? OP_CONFIGURE then
    r_lift (valid_object object);;
    serial ← u32;
    width ← u32;
    height ← u32;
    scale_numerator ← u32;
    scale_denominator ← u32;
    raw ← u8;
    transform ← r_lift (decode_transform raw);
    refresh_millihz ← u32;
    r_lift (validate_configure serial width height scale_numerator scale_denominator
              refresh_millihz);;
    mret (ConfigureMsg object serial width height scale_numerator scale_denominator transform
            refresh_millihz)
  else if opcode =? OP_INSETS then
    r_lift (valid_object object);;
    l ← u32; t ← u32; r ← u32; b ← u32;
    mret (Insets object l t r b)
  else if opcode =? OP_VISIBILITY then
    r_lift (valid_object object);;
    raw ← u8;
    visibility ← r_lift (decode_visibility raw);
    raw_focus ← u8;
    focused ← r_lift (decode_bool raw_focus "focus");
    mret (VisibilityMsg object visibility focused)
  else if opcode =? OP_CLOSE then
    r_lift (valid_object object);;
    mret (Close object)
  else if opcode =? OP_BUFFER_RELEASED then
    r_lift (valid_object object);;
    frame ← u64;
    buffer ← u64;
    release_point ← u64;
    r_lift (nonzero "frame ID" frame);;
    r_lift (nonzero "buffer ID" buffer);;
    r_lift (nonzero "release point" release_point);;
    mret (BufferReleased object frame buffer release_point)
  else if opcode =? OP_PRESENTED then
    r_lift (valid_object object);;
    frame ← u64;
    timestamp_nanos ← u64;
    refresh_period_nanos ← u64;
    sequence ← u64;
    flags ← u32;
    r_lift (nonzero "frame ID" frame);;
    r_lift (nonzero "refresh period" refresh_period_nanos);;
    r_lift (known_bits "presentation flags" flags presentation_flag.KNOWN);;
    mret (Presented object frame timestamp_nanos refresh_period_nanos sequence flags)
  else if opcode =? OP_SCENE_PRESENTED then
    r_lift (valid_object object);;
    scene ← u64;
    timestamp_nanos ← u64;
    refresh_period_nanos ← u64;
    sequence ← u64;
    r_lift (nonzero "scene ID" scene);;
    r_lift (nonzero "presentation timestamp" timestamp_nanos);;
    r_lift (nonzero "refresh period" refresh_period_nanos);;
    mret (ScenePresented object scene timestamp_nanos refresh_period_nanos sequence)
  else if opcode =? OP_INPUT then
    r_lift (valid_object object);;
    serial ← u64;
    r_lift (nonzero "input serial" serial);;
    timestamp_nanos ← u64;
    event ← decode_input;
    mret (Input object serial timestamp_nanos event)
  else if opcode =? OP_ERROR then
    raw ← u16;
    code ← r_lift (decode_error_code raw);
    offending_opcode ← u16;
    message ← r_string MAX_ERROR_BYTES "error";
    mret (ErrorMsg (if object =? 0 then None else Some object) code offending_opcode message)
  else if opcode =? OP_PING then
    r_lift (require_connection object);;
    cookie ← u64;
    mret (Ping cookie)
  else if opcode =? OP_FRAME_GRANT then
    r_lift (require_connection object);;
    latch_nanos ← u64;
    target_nanos ← u64;
    period_nanos ← u64;
    r_lift (frame_grant latch_nanos target_nanos period_nanos);;
    mret (FrameGrant latch_nanos target_nanos period_nanos)
  else r_lift (Err (UnknownOpcode opcode)).

Definition decode_denial (packet : list Z) (received_descriptors : Z)
  : wresult (DecodedPacket DenialMessage) :=
  header ← parse_header packet received_descriptors;
  '(message, rest) ←
    decode_denial_fields (h_opcode header) (h_object header) (h_payload header);
  r_finish TrailingBytes rest;;
  let descriptors := denial_descriptors message in
  validate_descriptor_layout (h_fd_count header) received_descriptors descriptors;;
  mret (mkDecoded message descriptors).
