(* ===== verification/CodecProofs.v ===== *)
(** * Correctness of the packet codec

    Round trips in both directions and packet bounds, for both message
    directions.  A well-formed message is one whose integers are in the range
    of their Rust types and whose strings are UTF-8; nothing else is assumed. *)

From S2P Require Import Prelude Bytes Transport Protocol Codec.

(** ** Typed messages *)

Definition wf_android (m : AndroidMessage) : Prop :=
  match m with
  | RequestRenderTargets object serial => is_u64 object ∧ is_u32 serial
  | BindInputChannel generation wire => is_u64 generation ∧ is_u16 wire
  | BindInputRoute object display incarnation =>
      is_u64 object ∧ is_u32 display ∧ is_u64 incarnation
  | ClientHello lo hi caps => is_u16 lo ∧ is_u16 hi ∧ is_u64 caps
  | CreateTask object display package => is_u64 object ∧ is_u64 display ∧ wf_string package
  | BindTask object task => is_u64 object ∧ is_u64 task
  | DestroyTask object | BindTimelines object | BindLayerStream object
  | RequestActivation object => is_u64 object
  | AckConfigure object serial => is_u64 object ∧ is_u32 serial
  | RegisterBuffer object buffer => is_u64 object ∧ wf_buffer buffer
  | UnregisterBuffer object buffer => is_u64 object ∧ is_u64 buffer
  | Present object frame buffer serial acquire release damage =>
      is_u64 object ∧ is_u64 frame ∧ is_u64 buffer ∧ is_u32 serial ∧ is_u64 acquire
      ∧ is_u64 release ∧ Forall wf_damage damage
  | SetContentState object flags => is_u64 object ∧ is_u32 flags
  | SetFrameRate object millihz => is_u64 object ∧ is_u32 millihz
  | Pong cookie => is_u64 cookie
  end.

Definition wf_input (e : InputEvent) : Prop :=
  match e with
  | Touch _ pointer x y pressure => is_u32 pointer ∧ is_i32 x ∧ is_i32 y ∧ is_u16 pressure
  | Key _ keycode repeat => is_u32 keycode ∧ is_u16 repeat
  | Navigation _ => True
  end.

Definition wf_denial (m : DenialMessage) : Prop :=
  match m with
  | RequestInputChannel generation => is_u64 generation
  | ServerHello major minor caps tasks buffers rects =>
      is_u16 major ∧ is_u16 minor ∧ is_u64 caps ∧ is_u32 tasks ∧ is_u32 buffers ∧ is_u32 rects
  | DisplayPower _ => True
  | FormatFeedback object generation formats =>
      is_u64 object ∧ is_u32 generation ∧ Forall wf_format formats
  | RegisterRenderTarget object serial buffer =>
      is_u64 object ∧ is_u32 serial ∧ wf_buffer buffer
  | UnregisterRenderTarget object buffer => is_u64 object ∧ is_u64 buffer
  | ConfigureMsg object serial w h num den _ refresh =>
      is_u64 object ∧ is_u32 serial ∧ is_u32 w ∧ is_u32 h ∧ is_u32 num ∧ is_u32 den
      ∧ is_u32 refresh
  | Insets object l t r b => is_u64 object ∧ is_u32 l ∧ is_u32 t ∧ is_u32 r ∧ is_u32 b
  | VisibilityMsg object _ _ | Close object => is_u64 object
  | BufferReleased object frame buffer point =>
      is_u64 object ∧ is_u64 frame ∧ is_u64 buffer ∧ is_u64 point
  | Presented object frame time period sequence flags =>
      is_u64 object ∧ is_u64 frame ∧ is_u64 time ∧ is_u64 period ∧ is_u64 sequence
      ∧ is_u32 flags
  | ScenePresented object scene time period sequence =>
      is_u64 object ∧ is_u64 scene ∧ is_u64 time ∧ is_u64 period ∧ is_u64 sequence
  | Input object serial time event =>
      is_u64 object ∧ is_u64 serial ∧ is_u64 time ∧ wf_input event
  | ErrorMsg object _ opcode text =>
      match object with Some o => is_u64 o | None => True end ∧ is_u16 opcode ∧ wf_string text
  | Ping cookie => is_u64 cookie
  | FrameGrant latch target period => is_u64 latch ∧ is_u64 target ∧ is_u64 period
  end.

(** ** Running a reader over an encoding *)

Lemma u8_run x rest : is_u8 x → u8 (w_u8 x ++ rest) = Ok (x, rest).
Proof. intros H. by apply r_uint_le. Qed.
Lemma u16_run x rest : is_u16 x → u16 (w_u16 x ++ rest) = Ok (x, rest).
Proof. intros H. by apply r_uint_le. Qed.
Lemma u32_run x rest : is_u32 x → u32 (w_u32 x ++ rest) = Ok (x, rest).
Proof. intros H. by apply r_uint_le. Qed.
Lemma u64_run x rest : is_u64 x → u64 (w_u64 x ++ rest) = Ok (x, rest).
Proof. intros H. by apply r_uint_le. Qed.
Lemma i32_run x rest : is_i32 x → i32 (w_i32 x ++ rest) = Ok (x, rest).
Proof.
  intros H. unfold i32, w_i32, le_i32. eapply r_bind_intro.
  - apply r_uint_le. change (uint_bound 4) with 4294967296. apply Z.mod_pos_bound. lia.
  - unfold mret, reader_ret. by rewrite i32_of_u32_inv.
Qed.

Lemma u8_inv bs x rest :
  Forall is_u8 bs → u8 bs = Ok (x, rest) → bs = w_u8 x ++ rest ∧ is_u8 x ∧ Forall is_u8 rest.
Proof. intros Hb H. apply r_uint_Ok in H; [exact H | done]. Qed.
Lemma u16_inv bs x rest :
  Forall is_u8 bs → u16 bs = Ok (x, rest) → bs = w_u16 x ++ rest ∧ is_u16 x ∧ Forall is_u8 rest.
Proof. intros Hb H. apply r_uint_Ok in H; [exact H | done]. Qed.
Lemma u32_inv bs x rest :
  Forall is_u8 bs → u32 bs = Ok (x, rest) → bs = w_u32 x ++ rest ∧ is_u32 x ∧ Forall is_u8 rest.
Proof. intros Hb H. apply r_uint_Ok in H; [exact H | done]. Qed.
Lemma u64_inv bs x rest :
  Forall is_u8 bs → u64 bs = Ok (x, rest) → bs = w_u64 x ++ rest ∧ is_u64 x ∧ Forall is_u8 rest.
Proof. intros Hb H. apply r_uint_Ok in H; [exact H | done]. Qed.
Lemma i32_inv bs x rest :
  Forall is_u8 bs → i32 bs = Ok (x, rest) → bs = w_i32 x ++ rest ∧ is_i32 x ∧ Forall is_u8 rest.
Proof.
  unfold i32, w_i32, le_i32. intros Hb (y & bs1 & Hy & [= <- <-])%r_bind_Ok.
  apply (u32_inv bs y bs1 Hb) in Hy as (-> & Hy & ?).
  rewrite u32_of_i32_inv by done. auto using i32_of_u32_range.
Qed.

Create HintDb codec.
#[export] Hint Resolve u8_run u16_run u32_run u64_run i32_run r_lift_run : codec.

(** Runs a reader over the concatenation of its fields' encodings. *)
Ltac rd_run :=
  repeat (eapply r_bind_intro; [solve [eauto 4 with codec nocore] |]; cbn beta iota).

(** Inverts a successful reader run, one field at a time. *)
Ltac rd_inv :=
  repeat match goal with
  | H : (_ ≫= _) _ = Ok _ |- _ =>
      let a := fresh "v" in let r := fresh "rest" in let H1 := fresh "Hr" in
      apply r_bind_Ok in H as (a & r & H1 & H); cbv beta in H
  | H : r_lift _ _ = Ok _ |- _ => apply r_lift_Ok in H as [H ->]
  | H : @mret _ _ _ _ _ = Ok _ |- _ => apply (proj1 (r_ret_Ok _ _ _)) in H
  | Hb : Forall is_u8 ?bs, H : u8 ?bs = Ok _ |- _ =>
      let Hn := fresh in
      apply (u8_inv _ _ _ Hb) in H as (-> & H & Hn); clear Hb; rename Hn into Hb
  | Hb : Forall is_u8 ?bs, H : u16 ?bs = Ok _ |- _ =>
      let Hn := fresh in
      apply (u16_inv _ _ _ Hb) in H as (-> & H & Hn); clear Hb; rename Hn into Hb
  | Hb : Forall is_u8 ?bs, H : u32 ?bs = Ok _ |- _ =>
      let Hn := fresh in
      apply (u32_inv _ _ _ Hb) in H as (-> & H & Hn); clear Hb; rename Hn into Hb
  | Hb : Forall is_u8 ?bs, H : u64 ?bs = Ok _ |- _ =>
      let Hn := fresh in
      apply (u64_inv _ _ _ Hb) in H as (-> & H & Hn); clear Hb; rename Hn into Hb
  | Hb : Forall is_u8 ?bs, H : i32 ?bs = Ok _ |- _ =>
      let Hn := fresh in
      apply (i32_inv _ _ _ Hb) in H as (-> & H & Hn); clear Hb; rename Hn into Hb
  end; inv_ok; simplify_eq.

(** ** Framing *)

Lemma length_header minor opcode fds object len :
  length (header_bytes minor opcode fds object len) = 32%nat.
Proof.
  unfold header_bytes, w_u16, w_u32, w_u64.
  by rewrite !length_app, !length_le_bytes.
Qed.

Lemma valid_object_Ok o o' : valid_object o = Ok o' ↔ o ≠ 0 ∧ o' = o.
Proof.
  unfold valid_object. destruct (Z.eqb_spec o 0); split;
    [discriminate | by intros [? _] | by intros [= <-] | by intros [_ ->]].
Qed.

Lemma require_connection_Ok o u : require_connection o = Ok u ↔ o = 0.
Proof. unfold require_connection. destruct (Z.eqb_spec o 0), u; split; congruence. Qed.

Lemma nonzero_Ok f x u : nonzero f x = Ok u ↔ x ≠ 0.
Proof. unfold nonzero. destruct (Z.eqb_spec x 0), u; split; congruence. Qed.

Lemma finish_packet_Ok opcode object payload ds p :
  finish_packet opcode object payload ds = Ok p ↔
  32 + zlen payload ≤ 65536 ∧ zlen ds ≤ 65535 ∧
  p = mkEncoded (header_bytes (packet_minor opcode) opcode (zlen ds) object (zlen payload)
                 ++ payload) ds.
Proof.
  unfold finish_packet, HEADER_BYTES, MAX_PACKET_BYTES, u32_max. split.
  - intros H. inv_ok. reflect. subst. split_and!; (lia || done).
  - intros (H1 & H2 & ->).
    assert ((65536 <? 32 + zlen payload) = false) as -> by (reflect; lia).
    assert ((4294967295 <? zlen payload) = false) as -> by (reflect; lia).
    by assert ((65535 <? zlen ds) = false) as -> by (reflect; lia).
Qed.

Lemma parse_header_fields_run minor opcode fds object len :
  0 ≤ minor ≤ PROTOCOL_MINOR → is_u16 opcode → is_u16 fds → is_u64 object → is_u32 len →
  parse_header_fields (drop 4 (header_bytes minor opcode fds object len))
  = Ok (opcode, fds, 0, object, len, 0, []).
Proof.
  intros Hminor Hop Hfds Hobj Hlen.
  change (drop 4 _) with (w_u16 PROTOCOL_MAJOR ++ w_u16 minor ++ w_u16 opcode ++ w_u16 fds
    ++ w_u32 0 ++ w_u64 object ++ w_u32 len ++ w_u32 0 ++ []).
  assert (is_u16 PROTOCOL_MAJOR) by done. assert (is_u32 0) by done.
  assert (is_u16 minor) by (unfold PROTOCOL_MINOR in *; int_lia).
  assert (fail_if (negb (PROTOCOL_MAJOR =? PROTOCOL_MAJOR) || (PROTOCOL_MINOR <? minor))
            (UnsupportedVersion PROTOCOL_MAJOR minor) = Ok tt).
  { apply fail_if_Ok. reflect. split; [done | lia]. }
  unfold parse_header_fields. rd_run. reflexivity.
Qed.

(** A packet with a well-formed header of any minor version this codec accepts
    parses back to its fields. *)
Lemma parse_header_run minor opcode fds object payload :
  0 ≤ minor ≤ PROTOCOL_MINOR → is_u16 opcode → is_u16 fds → is_u64 object →
  32 + zlen payload ≤ 65536 →
  parse_header (header_bytes minor opcode fds object (zlen payload) ++ payload) fds
  = Ok (mkHeader opcode fds object payload).
Proof.
  intros Hminor Hop Hfds Hobj Hlen.
  set (hdr := header_bytes minor opcode fds object (zlen payload)).
  assert (length hdr = 32%nat) as Hh by apply length_header.
  assert (zlen (hdr ++ payload) = 32 + zlen payload) as Hz
    by (unfold zlen; rewrite length_app; lia).
  assert (0 ≤ zlen payload) as Hp by (unfold zlen; lia).
  unfold parse_header. rewrite Hz. unfold HEADER_BYTES, MAX_PACKET_BYTES.
  assert ((32 + zlen payload <? 32) = false) as -> by (reflect; lia).
  assert ((65536 <? 32 + zlen payload) = false) as -> by (reflect; lia).
  rewrite (take_app_le hdr payload 32), (take_ge hdr 32), drop_app_length' by lia.
  rewrite (take_app_le hdr payload 4) by lia. change (take 4 hdr) with MAGIC.
  rewrite bool_decide_true by done. cbn [fail_if negb]. rewrite !ok_bind.
  unfold hdr. rewrite parse_header_fields_run by (done || int_lia).
  rewrite ok_bind; cbn. rewrite Z.eqb_refl; cbn. by rewrite Z.eqb_refl.
Qed.

Lemma parse_header_inv packet fds h :
  Forall is_u8 packet → parse_header packet fds = Ok h →
  ∃ minor, 0 ≤ minor ≤ PROTOCOL_MINOR ∧ is_u16 (h_opcode h) ∧ is_u16 fds
    ∧ is_u64 (h_object h) ∧ h_fd_count h = fds ∧ 32 + zlen (h_payload h) ≤ 65536
    ∧ Forall is_u8 (h_payload h)
    ∧ packet = header_bytes minor (h_opcode h) fds (h_object h) (zlen (h_payload h))
               ++ h_payload h.
Proof.
  unfold parse_header, parse_header_fields, HEADER_BYTES, MAX_PACKET_BYTES. intros Hb H.
  apply bind_Ok in H as ([] & Hlo & H). apply bind_Ok in H as ([] & Hhi & H).
  apply bind_Ok in H as ([] & Hmagic & H). apply bind_Ok in H as (fields & Hf & H).
  assert (Forall is_u8 (drop 4 (take 32 packet))) as Hb1 by auto using Forall_drop, Forall_take.
  assert (Forall is_u8 (drop 32 packet)) as Hb2 by auto using Forall_drop.
  assert (packet = take 4 packet ++ drop 4 (take 32 packet) ++ drop 32 packet) as Hsplit.
  { rewrite <- (take_drop 32 packet) at 1. rewrite <- (take_drop 4 (take 32 packet)) at 1.
    rewrite take_take, <- app_assoc. done. }
  assert (zlen packet = 32 + zlen (drop 32 packet)) as Hlen.
  { inv_ok. reflect. unfold zlen in *. rewrite length_drop. lia. }
  remember (drop 4 (take 32 packet)) as fixed. rd_inv. subst; cbn.
  reflect. destruct_and?. subst. rewrite r_finish_Ok in *. subst.
  rename v0 into minor. exists minor. unfold zlen, PROTOCOL_MINOR in *. unfold_ints.
  split_and!; try (lia || done).
  rewrite Hsplit at 1. unfold header_bytes. rewrite Hmagic, <- !app_assoc.
  repeat f_equal; lia.
Qed.

(** ** Enumerations *)

(** A decoder of an enumeration is the inverse of the discriminant cast. *)
Class EnumCodec {A} (cast : A → Z) (dec : Z → wresult A) : Prop := {
  enum_run a : dec (cast a) = Ok a;
  enum_inv x a : dec x = Ok a → x = cast a;
  enum_u8 a : is_u8 (cast a)
}.

Ltac solve_enum :=
  split;
  [ by intros []
  | let x := fresh in let a := fresh in let H := fresh in
    intros x a H; unfold decode_bool, decode_transform, decode_visibility, decode_touch_action,
      decode_key_action, decode_navigation_action, decode_error_code in H;
    repeat case_match; inv_ok; by subst
  | by intros [] ].

#[global] Instance bool_enum field : EnumCodec Z.b2z (λ x, decode_bool x field).
Proof. solve_enum. Qed.
#[global] Instance Transform_enum : EnumCodec Transform_u8 decode_transform.
Proof. solve_enum. Qed.
#[global] Instance Visibility_enum : EnumCodec Visibility_u8 decode_visibility.
Proof. solve_enum. Qed.
#[global] Instance TouchAction_enum : EnumCodec TouchAction_u8 decode_touch_action.
Proof. solve_enum. Qed.
#[global] Instance KeyAction_enum : EnumCodec KeyAction_u8 decode_key_action.
Proof. solve_enum. Qed.
#[global] Instance NavigationAction_enum : EnumCodec NavigationAction_u8 decode_navigation_action.
Proof. solve_enum. Qed.
#[global] Instance ProtocolErrorCode_enum : EnumCodec ProtocolErrorCode_u16 decode_error_code.
Proof. solve_enum. Qed.

Lemma bool_run b field : decode_bool (Z.b2z b) field = Ok b.
Proof. apply (enum_run (dec := λ x, decode_bool x field)). Qed.

Lemma bool_inv x b field : decode_bool x field = Ok b → x = Z.b2z b.
Proof. apply (enum_inv (dec := λ x, decode_bool x field)). Qed.

Lemma b2z_u8 b : is_u8 (Z.b2z b).
Proof. by destruct b. Qed.

#[export] Hint Resolve bool_run b2z_u8 : codec.

Lemma u8_u16 x : is_u8 x → is_u16 x.
Proof. int_lia. Qed.

Lemma enum_u16 {A} {cast : A → Z} {dec : Z → wresult A} `{!EnumCodec cast dec} a : is_u16 (cast a).
Proof. apply u8_u16, enum_u8. Qed.

#[export] Hint Extern 1 (is_u8 (_ ?a)) => exact (enum_u8 a) : codec.
#[export] Hint Extern 1 (is_u16 (_ ?a)) => exact (enum_u16 a) : codec.
#[export] Hint Extern 1 (_ (_ ?a) = Ok ?a) => exact (enum_run a) : codec.
#[export] Hint Extern 1 (_ (_ ?a) = Ok _) => exact (enum_run a) : codec.

(** ** Strings *)

Lemma w_string_Ok s limit field bs :
  w_string s limit field = Ok bs ↔
  zlen s ≤ limit ∧ zlen s ≤ 65535 ∧ bs = w_u16 (zlen s) ++ s.
Proof.
  unfold w_string. split.
  - intros H. inv_ok. reflect. subst. auto.
  - intros (H1 & H2 & ->).
    assert ((limit <? zlen s) = false) as -> by (reflect; lia).
    by assert ((65535 <? zlen s) = false) as -> by (reflect; lia).
Qed.

Lemma r_string_run s limit field rest :
  zlen s ≤ limit → zlen s ≤ 65535 → wf_string s →
  r_string limit field (w_u16 (zlen s) ++ s ++ rest) = Ok (s, rest).
Proof.
  intros Hl Hs [_ Hu]. unfold r_string.
  eapply r_bind_intro; [apply u16_run; unfold zlen in *; int_lia|].
  eapply r_bind_intro; [apply r_lift_run, fail_if_run; reflect; lia|].
  eapply r_bind_intro; [apply r_take_app; unfold zlen; lia|].
  eapply r_bind_intro; [apply r_lift_run, fail_if_run; by rewrite Hu|]. done.
Qed.

Lemma r_string_inv bs s limit field rest :
  Forall is_u8 bs → r_string limit field bs = Ok (s, rest) →
  bs = w_u16 (zlen s) ++ s ++ rest ∧ zlen s ≤ limit ∧ zlen s ≤ 65535 ∧ wf_string s
  ∧ Forall is_u8 rest.
Proof.
  unfold r_string. intros Hb H. rd_inv.
  apply r_take_Ok in Hr1 as [-> Hlen]. apply Forall_app in Hb as [??]. reflect.
  unfold wf_string, zlen. unfold_ints. rewrite Hlen, Z2Nat.id by lia.
  split_and!; (done || lia).
Qed.

(** ** Buffers, damage and formats *)

Lemma decode_plane_run p rest :
  wf_plane p → decode_plane (encode_plane p ++ rest) = Ok (p, rest).
Proof.
  destruct p as [i o s]; intros (Hi & Ho & Hs); cbn in *. unfold decode_plane, encode_plane.
  cbn. rewrite <- !app_assoc. rd_run. done.
Qed.

Lemma decode_plane_inv bs p rest :
  Forall is_u8 bs → decode_plane bs = Ok (p, rest) →
  bs = encode_plane p ++ rest ∧ wf_plane p ∧ Forall is_u8 rest.
Proof.
  unfold decode_plane, encode_plane, wf_plane. intros Hb H. rd_inv. cbn.
  by rewrite <- !app_assoc.
Qed.

Definition buffer_bytes (b : BufferMetadata) : list Z :=
  w_u64 (b_id b) ++ w_u32 (b_width b) ++ w_u32 (b_height b)
  ++ w_u32 (fourcc (b_format b)) ++ w_u64 (modifier (b_format b))
  ++ w_u8 (zlen (b_planes b)) ++ concat (map encode_plane (b_planes b)).

Lemma encode_buffer_Ok b bs :
  encode_buffer b = Ok bs ↔ zlen (b_planes b) ≤ 255 ∧ bs = buffer_bytes b.
Proof.
  unfold encode_buffer. split.
  - intros H. inv_ok. reflect. auto.
  - intros [Hl ->]. by assert ((255 <? zlen (b_planes b)) = false) as -> by (reflect; lia).
Qed.

(** What [BufferMetadata::validate] and the identity check require. *)
Definition identified (b : BufferMetadata) : Prop :=
  validate b = Ok tt ∧ b_id b ≠ 0 ∧ modifier (b_format b) ≠ u64_max.

Lemma reject_buffer_identity_Ok field b u :
  reject_buffer_identity field b = Ok u ↔ b_id b ≠ 0 ∧ modifier (b_format b) ≠ u64_max.
Proof. unfold reject_buffer_identity. rewrite fail_if_Ok. by reflect. Qed.

Lemma decode_buffer_run b rest :
  wf_buffer b → identified b → decode_buffer (buffer_bytes b ++ rest) = Ok (b, rest).
Proof.
  intros Hwf (Hv & Hid & Hmod).
  destruct (proj1 (validate_Ok b Hwf) Hv) as (_ & _ & Hlen & _).
  destruct Hwf as (? & ? & ? & [? ?] & Hp). unfold decode_buffer, buffer_bytes.
  rewrite <- !app_assoc.
  assert (is_u8 (zlen (b_planes b))) by (unfold zlen; int_lia).
  assert (fail_if ((zlen (b_planes b) =? 0) || (4 <? zlen (b_planes b)))
            (Limit "DMA-BUF planes") = Ok tt).
  { apply fail_if_Ok. unfold zlen. reflect. lia. }
  rd_run.
  eapply r_bind_intro.
  { unfold zlen. rewrite Nat2Z.id.
    apply (r_repeat_encode _ _ wf_plane); [apply decode_plane_run | done]. }
  replace (mkBuffer _ _ _ _ _) with b by by destruct b as [? ? ? [? ?] ?].
  eapply r_bind_intro; [apply r_lift_run; by rewrite Hv|].
  eapply r_bind_intro; [apply r_lift_run, fail_if_run; by reflect|]. done.
Qed.

Lemma decode_buffer_inv bs b rest :
  Forall is_u8 bs → decode_buffer bs = Ok (b, rest) →
  bs = buffer_bytes b ++ rest ∧ wf_buffer b ∧ identified b ∧ Forall is_u8 rest.
Proof.
  unfold decode_buffer, buffer_bytes, identified, wf_buffer, wf_format. intros Hb H. rd_inv.
  eapply r_repeat_Ok in Hr6 as (-> & Hlen & Hp & Hrest);
    [|intros; by apply decode_plane_inv | done].
  unfold zlen. cbn in *. rewrite Hlen. unfold_ints. reflect.
  rewrite Z2Nat.id by lia. rewrite <- !app_assoc. split_and!; (done || lia).
Qed.

Definition damage_bytes (d : Damage) : list Z :=
  w_u32 (d_x d) ++ w_u32 (d_y d) ++ w_u32 (d_width d) ++ w_u32 (d_height d).

Lemma encode_damages_Ok ds bs :
  encode_damages ds = Ok bs ↔
  Forall (λ d, validate_damage d = Ok tt) ds ∧ bs = concat (map damage_bytes ds).
Proof.
  revert bs; induction ds as [|d ds IH]; intros bs; cbn.
  - unfold mret, result_ret. split; [intros [= <-]; auto | intros [_ ->]; done].
  - unfold encode_damage. rewrite Forall_cons. split.
    + intros H. inv_ok. apply IH in Hm0 as [? ->]. by subst.
    + intros [[Hd Hds] ->]. rewrite Hd; cbn. by rewrite (proj2 (IH _) (conj Hds eq_refl)).
Qed.

Lemma decode_damage_run d rest :
  wf_damage d ∧ validate_damage d = Ok tt → decode_damage (damage_bytes d ++ rest) = Ok (d, rest).
Proof.
  destruct d as [x y w h]; intros [(? & ? & ? & ?) Hv]; cbn in *.
  unfold decode_damage, damage_bytes; cbn. rewrite <- !app_assoc. rd_run. done.
Qed.

Lemma decode_damage_inv bs d rest :
  Forall is_u8 bs → decode_damage bs = Ok (d, rest) →
  bs = damage_bytes d ++ rest ∧ (wf_damage d ∧ validate_damage d = Ok tt) ∧ Forall is_u8 rest.
Proof.
  unfold decode_damage, damage_bytes, wf_damage. intros Hb H. rd_inv. cbn.
  by rewrite <- !app_assoc.
Qed.

Definition format_bytes (f : FormatModifier) : list Z := w_u32 (fourcc f) ++ w_u64 (modifier f).

Lemma encode_formats_Ok fs bs :
  encode_formats fs = Ok bs ↔
  Forall (λ f, modifier f ≠ u64_max) fs ∧ bs = concat (map format_bytes fs).
Proof.
  revert bs; induction fs as [|f fs IH]; intros bs; cbn.
  - unfold mret, result_ret. split; [intros [= <-]; auto | intros [_ ->]; done].
  - unfold encode_format. rewrite Forall_cons. split.
    + intros H. inv_ok. apply IH in Hm0 as [? ->]. reflect. by subst.
    + intros [[Hf Hfs] ->]. apply Z.eqb_neq in Hf. rewrite Hf; cbn.
      by rewrite (proj2 (IH _) (conj Hfs eq_refl)).
Qed.

Lemma decode_format_run f rest :
  wf_format f ∧ modifier f ≠ u64_max → decode_format (format_bytes f ++ rest) = Ok (f, rest).
Proof.
  destruct f as [c m]; intros [[? ?] Hm]; cbn in *.
  unfold decode_format, format_bytes; cbn. rewrite <- !app_assoc.
  apply Z.eqb_neq in Hm. rd_run. rewrite Hm. done.
Qed.

Lemma decode_format_inv bs f rest :
  Forall is_u8 bs → decode_format bs = Ok (f, rest) →
  bs = format_bytes f ++ rest ∧ (wf_format f ∧ modifier f ≠ u64_max) ∧ Forall is_u8 rest.
Proof.
  unfold decode_format, format_bytes, wf_format. intros Hb H. rd_inv. cbn. reflect.
  by rewrite <- !app_assoc.
Qed.

Lemma decode_input_run e rest :
  wf_input e → decode_input (encode_input e ++ rest) = Ok (e, rest).
Proof.
  unfold decode_input, encode_input.
  destruct e as [a p x y pr|a k r|a]; cbn [wf_input]; intros Hwf; destruct_and?;
    rewrite <- !app_assoc;
    (eapply r_bind_intro; [apply u8_run; done|]); cbn; rd_run; done.
Qed.

Lemma decode_input_inv bs e rest :
  Forall is_u8 bs → decode_input bs = Ok (e, rest) →
  bs = encode_input e ++ rest ∧ wf_input e ∧ Forall is_u8 rest.
Proof.
  unfold decode_input, encode_input. intros Hb H. rd_inv.
  destruct (Z.eqb_spec v 0) as [->|]; [|destruct (Z.eqb_spec v 1) as [->|];
    [|destruct (Z.eqb_spec v 2) as [->|]]]; rd_inv; cbn;
    match goal with H : _ = Ok _ |- _ => apply enum_inv in H as -> end;
    by rewrite <- !app_assoc.
Qed.

#[export] Hint Resolve decode_buffer_run decode_input_run : codec.

(** ** Message bodies *)

(** Selects the branch of an opcode dispatch on constants. *)
Ltac pick_opcode :=
  repeat match goal with
  | |- context [if ?a =? ?b then _ else _] =>
      let v := eval vm_compute in (a =? b) in
      lazymatch v with true => idtac | false => idtac end;
      change (a =? b) with v; cbv iota
  end.

Lemma require_connection_run : require_connection 0 = Ok tt.
Proof. done. Qed.

Lemma nonzero_run field x : (x =? 0) = false → nonzero field x = Ok tt.
Proof. unfold nonzero. by intros ->. Qed.

#[export] Hint Resolve require_connection_run fail_if_run nonzero_run : codec.

(** [valid_object] returns its argument. *)
Ltac use_object :=
  try match goal with
  | H : valid_object ?o = Ok ?o' |- _ =>
      let E := fresh in
      pose proof (proj2 (proj1 (valid_object_Ok o o') H)) as E; subst o'
  end.

(** Every encoded body decodes to its message and leaves what follows it. *)
Lemma encode_android_body m opcode object ds payload rest :
  wf_android m → encode_android_fields m = Ok (opcode, object, ds, payload) →
  decode_android_fields opcode object (payload ++ rest) = Ok (m, ds, rest)
  ∧ is_u16 opcode ∧ is_u64 object.
Proof.
  destruct m; cbn [wf_android encode_android_fields]; intros Hwf H; inv_ok; simplify_eq;
    destruct_and?; use_object; (split_and!; [|done|done]);
    unfold decode_android_fields; pick_opcode; rewrite <- ?app_assoc; try (rd_run; done).
  - (* CreateTask *)
    apply w_string_Ok in Hm1 as (? & ? & ->). rewrite <- app_assoc.
    do 2 (eapply r_bind_intro; [eauto 4 with codec nocore|]).
    eapply r_bind_intro; [by apply r_string_run|]. rd_run. done.
  - (* RegisterBuffer *)
    apply encode_buffer_Ok in Hm1 as [_ ->]. apply reject_buffer_identity_Ok in Hm0.
    eapply r_bind_intro; [eauto 4 with codec nocore|].
    eapply r_bind_intro; [by apply decode_buffer_run|]. done.
  - (* Present *)
    apply encode_damages_Ok in Hm6 as [Hv ->].
    assert (is_u16 (zlen damage)) by (apply Z.ltb_ge in Hm5; unfold zlen in *; int_lia).
    rd_run. eapply r_bind_intro.
    { unfold zlen. rewrite Nat2Z.id.
      apply (r_repeat_encode _ _ (λ d, wf_damage d ∧ validate_damage d = Ok tt));
        [apply decode_damage_run | by apply Forall_and]. }
    done.
Qed.

(** Runs an encoder whose checks are known to pass. *)
Ltac enc_run :=
  repeat (eapply bind_intro; [solve [eauto 4 with codec nocore]|]; cbv beta iota);
  try reflexivity.

(** Splits an opcode dispatch in a hypothesis into its branches. *)
Ltac split_opcode H :=
  repeat match type of H with
  | (if ?a =? ?b then _ else _) _ = _ => destruct (Z.eqb_spec a b) as [->|]
  end.

(** A connection message carries object zero. *)
Ltac use_connection :=
  try match goal with
  | H : require_connection ?o = Ok _ |- _ =>
      let E := fresh in pose proof (proj1 (require_connection_Ok o _) H) as E; subst o
  end.

Lemma validate_run b : validate b = Ok tt → map_err WireTransport (validate b) = Ok tt.
Proof. by intros ->. Qed.

Lemma identity_run field b :
  b_id b ≠ 0 ∧ modifier (b_format b) ≠ u64_max → reject_buffer_identity field b = Ok tt.
Proof. intros H. by apply reject_buffer_identity_Ok. Qed.

#[export] Hint Resolve validate_run identity_run : codec.

Lemma zero_test field x : nonzero field x = Ok tt → (x =? 0) = false.
Proof. intros H%nonzero_Ok. by reflect. Qed.

#[export] Hint Resolve zero_test : codec.

Lemma encode_buffer_run b :
  wf_buffer b → identified b → encode_buffer b = Ok (buffer_bytes b).
Proof.
  intros Hwf [Hv _]. apply encode_buffer_Ok. split; [|done].
  apply validate_Ok in Hv as (_ & _ & ? & _); [|done]. unfold zlen. lia.
Qed.

(** ... and everything the decoder accepts is the encoding of its message. *)
Lemma decode_android_body m opcode object ds payload rest :
  Forall is_u8 payload → is_u64 object →
  decode_android_fields opcode object payload = Ok (m, ds, rest) →
  wf_android m ∧ ∃ body, encode_android_fields m = Ok (opcode, object, ds, body)
                         ∧ payload = body ++ rest.
Proof.
  unfold decode_android_fields. intros Hb Hobj H. split_opcode H; rd_inv; use_object;
    use_connection; cbn [wf_android encode_android_fields].
  all: try (split; [by auto|]; eexists; split; [enc_run | by rewrite <- ?app_assoc]).
  - (* CreateTask *)
    apply r_string_inv in Hr1 as (-> & Hl & Hl' & ? & _); [|done]. split; [done|].
    exists (w_u64 v0 ++ w_u16 (zlen v1) ++ v1); split; [|by rewrite <- ?app_assoc].
    do 2 (eapply bind_intro; [solve [eauto 4 with codec nocore]|]).
    eapply bind_intro; [by apply w_string_Ok|]. done.
  - (* RegisterBuffer *)
    apply decode_buffer_inv in Hr0 as (-> & Hwf & Himp & _); [|done].
    pose proof (encode_buffer_run _ Hwf Himp). destruct Himp as [? ?]. split; [done|].
    eexists; split; [enc_run | done].
  - (* Present *)
    eapply r_repeat_Ok in Hr12 as (-> & Hlen & Hd & _);
      [|intros; by apply decode_damage_inv | done].
    apply Forall_and in Hd as [Hwf Hv]. split; [done|].
    assert (v10 = zlen v12) as -> by (unfold zlen; int_lia).
    exists (w_u64 v0 ++ w_u64 v1 ++ w_u32 v2 ++ w_u64 v3 ++ w_u64 v4 ++ w_u16 (zlen v12)
            ++ concat (map damage_bytes v12)); split; [|by rewrite <- ?app_assoc].
    assert ((65535 <? zlen v12) = false).
    { unfold MAX_DAMAGE_RECTS in *. reflect. lia. }
    do 7 (eapply bind_intro; [solve [eauto 4 with codec nocore]|]).
    eapply bind_intro; [by apply encode_damages_Ok|]. enc_run.
Qed.

Lemma encode_denial_body m opcode object payload rest :
  wf_denial m → encode_denial_fields m = Ok (opcode, object, payload) →
  decode_denial_fields opcode object (payload ++ rest) = Ok (m, rest)
  ∧ is_u16 opcode ∧ is_u64 object.
Proof.
  destruct m; cbn [wf_denial encode_denial_fields]; intros Hwf H; inv_ok; simplify_eq;
    destruct_and?; use_object; (split_and!; [|done|try done]);
    unfold decode_denial_fields; pick_opcode; rewrite <- ?app_assoc; try (rd_run; done).
  - (* FormatFeedback *)
    apply encode_formats_Ok in Hm2 as [Hv ->].
    assert (is_u16 (zlen formats)) by (apply Z.ltb_ge in Hm1; unfold zlen in *; int_lia).
    assert (((zlen formats =? 0) || (MAX_FORMATS <? zlen formats)) = false).
    { reflect. destruct Hm0 as [Hne ?]. split; [|done].
      unfold zlen. destruct formats; [done | cbn; lia]. }
    rd_run. eapply r_bind_intro.
    { unfold zlen. rewrite Nat2Z.id.
      apply (r_repeat_encode _ _ (λ f, wf_format f ∧ modifier f ≠ u64_max));
        [apply decode_format_run | by apply Forall_and]. }
    done.
  - (* RegisterRenderTarget *)
    apply encode_buffer_Ok in Hm2 as [_ ->]. apply reject_buffer_identity_Ok in Hm1.
    do 3 (eapply r_bind_intro; [eauto 4 with codec nocore|]).
    eapply r_bind_intro; [by apply decode_buffer_run|]. done.
  - (* ErrorMsg *)
    apply w_string_Ok in Hm as (? & ? & ->). rewrite <- app_assoc.
    do 3 (eapply r_bind_intro; [eauto 4 with codec nocore|]).
    eapply r_bind_intro; [by apply r_string_run|].
    apply r_ret_Ok. destruct object0 as [o|]; inv_ok.
    + apply valid_object_Ok in Hm0 as [Hne%Z.eqb_neq ->]. by rewrite Hne.
    + by subst.
  - destruct object0 as [o|]; inv_ok; [by apply valid_object_Ok in Hm0 as [_ ->] | by subst].
Qed.

Lemma decode_denial_body m opcode object payload rest :
  Forall is_u8 payload → is_u64 object →
  decode_denial_fields opcode object payload = Ok (m, rest) →
  wf_denial m ∧ ∃ body, encode_denial_fields m = Ok (opcode, object, body)
                        ∧ payload = body ++ rest.
Proof.
  unfold decode_denial_fields. intros Hb Hobj H. split_opcode H; rd_inv; use_object;
    use_connection; cbn [wf_denial encode_denial_fields].
  all: repeat match goal with
    | H : decode_bool _ _ = Ok _ |- _ => apply bool_inv in H as ->
    | H : decode_transform _ = Ok _ |- _ => apply enum_inv in H as ->
    | H : decode_visibility _ = Ok _ |- _ => apply enum_inv in H as ->
    | H : decode_error_code _ = Ok _ |- _ => apply enum_inv in H as ->
    end.
  all: try (split; [by auto|]; eexists; split; [enc_run | by rewrite <- ?app_assoc]).
  - (* FormatFeedback *)
    eapply r_repeat_Ok in Hr4 as (-> & Hlen & Hf & _);
      [|intros; by apply decode_format_inv | done].
    apply Forall_and in Hf as [Hwf Hv]. split; [done|].
    assert (v2 = zlen v4) as -> by (unfold zlen; int_lia).
    exists (w_u32 v0 ++ w_u16 (zlen v4) ++ concat (map format_bytes v4));
      split; [|by rewrite <- ?app_assoc].
    assert ((65535 <? zlen v4) = false).
    { unfold MAX_FORMATS in *. reflect. lia. }
    assert ((bool_decide (v4 = []) || (MAX_FORMATS <? zlen v4)) = false).
    { reflect. destruct Hr3 as [Hz ?]. split; [|done]. by intros ->. }
    do 3 (eapply bind_intro; [solve [eauto 4 with codec nocore]|]).
    eapply bind_intro; [by apply encode_formats_Ok|]. enc_run.
  - (* RegisterRenderTarget *)
    apply decode_buffer_inv in Hr2 as (-> & Hwf & Himp & _); [|done].
    pose proof (encode_buffer_run _ Hwf Himp). destruct Himp as [? ?]. split; [done|].
    eexists; split; [enc_run | by rewrite <- ?app_assoc].
  - (* Input *)
    apply decode_input_inv in Hr3 as (-> & Hwf & _); [|done]. split; [done|].
    eexists; split; [enc_run | by rewrite <- ?app_assoc].
  - (* ErrorMsg *)
    apply r_string_inv in Hr2 as (-> & Hl & Hl' & ? & _); [|done].
    split. { split_and!; [by destruct (object =? 0)|done|done]. }
    exists (w_u16 (ProtocolErrorCode_u16 v0) ++ w_u16 v1 ++ w_u16 (zlen v2) ++ v2);
      split; [|by rewrite <- ?app_assoc].
    eapply bind_intro; [by apply w_string_Ok|].
    destruct (Z.eqb_spec object 0) as [->|]; [done|].
    eapply bind_intro; [by apply valid_object_Ok | done].
Qed.

(** ** Packet bounds *)

Lemma length_encode_planes ps : length (concat (map encode_plane ps)) = (12 * length ps)%nat.
Proof. by apply length_concat_fixed. Qed.

Lemma length_damages ds : length (concat (map damage_bytes ds)) = (16 * length ds)%nat.
Proof. by apply length_concat_fixed. Qed.

Lemma length_formats fs : length (concat (map format_bytes fs)) = (12 * length fs)%nat.
Proof. by apply length_concat_fixed. Qed.

Create Rewrite HintDb wire_length.
#[export] Hint Rewrite @length_app length_le_bytes length_encode_planes length_damages
  length_formats @length_replicate : wire_length.

Ltac wire_length :=
  unfold zlen, buffer_bytes, w_u8, w_u16, w_u32, w_u64, MAX_PACKAGE_BYTES, MAX_ERROR_BYTES,
    MAX_DAMAGE_RECTS, MAX_FORMATS in *;
  autorewrite with wire_length in *; cbn [length] in *; reflect; try lia.

Lemma validate_plane_count b : validate b = Ok tt → zlen (b_planes b) ≤ 4.
Proof. unfold validate. intros H. inv_ok. reflect. tauto. Qed.

Lemma encode_android_size m opcode object ds payload :
  encode_android_fields m = Ok (opcode, object, ds, payload) →
  zlen payload ≤ 4134 ∧ zlen ds ≤ MAX_PACKET_DESCRIPTORS.
Proof.
  unfold MAX_PACKET_DESCRIPTORS.
  destruct m; cbn [encode_android_fields]; intros H; inv_ok; simplify_eq; try (wire_length; done).
  - apply w_string_Ok in Hm1 as (? & _ & ->). wire_length.
  - apply validate_plane_count in Hm. apply encode_buffer_Ok in Hm1 as [_ ->]. wire_length.
  - apply encode_damages_Ok in Hm6 as [_ ->]. wire_length.
Qed.

Lemma length_encode_input e : (length (encode_input e) ≤ 16)%nat.
Proof.
  destruct e; cbn [encode_input]; unfold w_u8, w_u16, w_u32, w_i32, le_i32;
    autorewrite with wire_length; lia.
Qed.

Lemma encode_denial_size m opcode object payload :
  encode_denial_fields m = Ok (opcode, object, payload) →
  zlen payload ≤ 3078 ∧ zlen (denial_descriptors m) ≤ MAX_PACKET_DESCRIPTORS.
Proof.
  unfold MAX_PACKET_DESCRIPTORS.
  destruct m; cbn [encode_denial_fields denial_descriptors]; intros H; inv_ok; simplify_eq;
    try (wire_length; done).
  - apply encode_formats_Ok in Hm2 as [_ ->]. wire_length.
  - apply validate_plane_count in Hm0. apply encode_buffer_Ok in Hm2 as [_ ->]. wire_length.
  - pose proof (length_encode_input event). wire_length.
  - apply w_string_Ok in Hm as (? & _ & ->). wire_length.
Qed.

(** ** Properties *)

Lemma packet_minor_range opcode : 0 ≤ packet_minor opcode ≤ PROTOCOL_MINOR.
Proof.
  unfold packet_minor, PROTOCOL_MINOR, ACTIVATION_PROTOCOL_MINOR, BASE_PROTOCOL_MINOR.
  repeat case_match; lia.
Qed.

Lemma finish_parse opcode object payload ds p :
  finish_packet opcode object payload ds = Ok p → is_u16 opcode → is_u64 object →
  parse_header (ep_bytes p) (zlen (ep_descriptors p))
  = Ok (mkHeader opcode (zlen ds) object payload) ∧ ep_descriptors p = ds.
Proof.
  intros (Hl & Hd & ->)%finish_packet_Ok Hop Hobj. split; [|done]; cbn.
  apply parse_header_run; try done; [apply packet_minor_range | unfold zlen in *; int_lia].
Qed.

Lemma validate_layout_run ds : validate_descriptor_layout (zlen ds) (zlen ds) ds = Ok tt.
Proof. unfold validate_descriptor_layout. by rewrite Z.eqb_refl. Qed.

Lemma validate_layout_inv n k ds u :
  validate_descriptor_layout n k ds = Ok u → n = zlen ds ∧ k = zlen ds.
Proof. unfold validate_descriptor_layout. intros H. inv_ok. by reflect. Qed.

Lemma decode_encode_android m p :
  wf_android m → encode_android m = Ok p →
  decode_android (ep_bytes p) (zlen (ep_descriptors p)) = Ok (mkDecoded m (ep_descriptors p)).
Proof.
  unfold encode_android, decode_android. intros Hwf H. inv_ok.
  destruct (encode_android_body _ _ _ _ _ [] Hwf Hm) as (Hbody & Hop & Hobj).
  destruct (finish_parse _ _ _ _ _ H Hop Hobj) as [-> ->]. cbn.
  rewrite app_nil_r in Hbody. rewrite Hbody; cbn. by rewrite validate_layout_run.
Qed.

(** C13: the host decodes exactly what Android encoded.  Every well-typed
    Android message the encoder accepts decodes, from its own bytes and
    descriptor count, to the same message with the same descriptor roles. *)
Theorem android_roundtrip m p :
  wf_android m → encode_android m = Ok p →
  decode_android (ep_bytes p) (zlen (ep_descriptors p)) = Ok (mkDecoded m (ep_descriptors p)).
Proof. apply decode_encode_android. Qed.

Lemma android_roundtrip_witness :
  ∃ p, encode_android (Present 7 1 2 3 4 5 [mkDamage 0 0 64 32]) = Ok p
    ∧ decode_android (ep_bytes p) (zlen (ep_descriptors p))
      = Ok (mkDecoded (Present 7 1 2 3 4 5 [mkDamage 0 0 64 32]) (ep_descriptors p)).
Proof.
  eexists. split; [reflexivity|]. apply android_roundtrip; [|reflexivity].
  cbn. unfold_ints. split_and!; try lia. repeat constructor; cbn; lia.
Defined.

Lemma decode_encode_denial m p :
  wf_denial m → encode_denial m = Ok p →
  decode_denial (ep_bytes p) (zlen (ep_descriptors p)) = Ok (mkDecoded m (ep_descriptors p)).
Proof.
  unfold encode_denial, decode_denial. intros Hwf H. inv_ok.
  destruct (encode_denial_body _ _ _ _ [] Hwf Hm) as (Hbody & Hop & Hobj).
  destruct (finish_parse _ _ _ _ _ H Hop Hobj) as [-> ->]. cbn.
  rewrite app_nil_r in Hbody. rewrite Hbody; cbn. by rewrite validate_layout_run.
Qed.

(** C19: Android decodes exactly what the host encoded. *)
Theorem denial_roundtrip m p :
  wf_denial m → encode_denial m = Ok p →
  decode_denial (ep_bytes p) (zlen (ep_descriptors p)) = Ok (mkDecoded m (ep_descriptors p)).
Proof. apply decode_encode_denial. Qed.

Lemma denial_roundtrip_witness :
  ∃ p, encode_denial (Input 3 1 99 (Touch TouchUp 1 (-65536) 5 10)) = Ok p
    ∧ decode_denial (ep_bytes p) (zlen (ep_descriptors p))
      = Ok (mkDecoded (Input 3 1 99 (Touch TouchUp 1 (-65536) 5 10)) (ep_descriptors p)).
Proof.
  eexists. split; [reflexivity|]. apply denial_roundtrip; [|reflexivity].
  cbn. unfold_ints. split_and!; lia.
Defined.

(** Two packets are the same record when they differ at most in the minor
    version of the header (bytes 6 and 7). *)
Definition same_record (p q : list Z) : Prop := take 6 p = take 6 q ∧ drop 8 p = drop 8 q.

Lemma same_record_minor n1 n2 opcode fds object len payload :
  same_record (header_bytes n1 opcode fds object len ++ payload)
    (header_bytes n2 opcode fds object len ++ payload).
Proof. done. Qed.

Lemma decode_android_sound packet n d :
  Forall is_u8 packet → decode_android packet n = Ok d →
  wf_android (dp_message d) ∧ n = zlen (dp_descriptors d)
  ∧ ∃ p, encode_android (dp_message d) = Ok p ∧ ep_descriptors p = dp_descriptors d
         ∧ same_record (ep_bytes p) packet.
Proof.
  unfold decode_android, encode_android. intros Hb H. inv_ok. subst; cbn.
  apply parse_header_inv in Hm as (minor & _ & _ & _ & Hobj & Hfd & Hlen & Hp & ->); [|done].
  apply validate_layout_inv in Hm2 as [_ ->]. apply r_finish_Ok in Hm1 as ->.
  apply decode_android_body in Hm0 as (Hwf & body & Henc & Hpay); [|done..].
  rewrite app_nil_r in Hpay. subst body. split_and!; [done..|].
  rewrite Henc; cbn. destruct (encode_android_size _ _ _ _ _ Henc) as [_ Hds].
  unfold MAX_PACKET_DESCRIPTORS in Hds.
  eexists. split; [apply finish_packet_Ok; split_and!; [lia | lia | done]|].
  split; [done | apply same_record_minor].
Qed.

(** The decoder has no second spelling of a message.  A packet the host
    accepts is, up to the header's minor version, the encoding of the message
    it decodes to, with the same descriptors; in particular every accepted
    message is one the encoder can send. *)
Theorem android_canonical packet n d :
  Forall is_u8 packet → decode_android packet n = Ok d →
  wf_android (dp_message d) ∧ n = zlen (dp_descriptors d)
  ∧ ∃ p, encode_android (dp_message d) = Ok p ∧ ep_descriptors p = dp_descriptors d
         ∧ same_record (ep_bytes p) packet.
Proof. apply decode_android_sound. Qed.

Definition demo_packet : list Z :=
  header_bytes 9 OP_ACK_CONFIGURE 0 7 4 ++ [12; 0; 0; 0].

Lemma android_canonical_witness :
  ∃ d, decode_android demo_packet 0 = Ok d ∧ wf_android (dp_message d)
    ∧ 0 = zlen (dp_descriptors d)
    ∧ ∃ p, encode_android (dp_message d) = Ok p ∧ ep_descriptors p = dp_descriptors d
           ∧ same_record (ep_bytes p) demo_packet.
Proof.
  eexists. split; [vm_compute; reflexivity|].
  apply android_canonical; [|vm_compute; reflexivity].
  vm_compute. repeat constructor; discriminate.
Defined.

Lemma decode_denial_sound packet n d :
  Forall is_u8 packet → decode_denial packet n = Ok d →
  wf_denial (dp_message d) ∧ n = zlen (dp_descriptors d)
  ∧ ∃ p, encode_denial (dp_message d) = Ok p ∧ ep_descriptors p = dp_descriptors d
         ∧ same_record (ep_bytes p) packet.
Proof.
  unfold decode_denial, encode_denial. intros Hb H. inv_ok. subst; cbn.
  apply parse_header_inv in Hm as (minor & _ & _ & _ & Hobj & Hfd & Hlen & Hp & ->); [|done].
  apply validate_layout_inv in Hm2 as [_ ->]. apply r_finish_Ok in Hm1 as ->.
  apply decode_denial_body in Hm0 as (Hwf & body & Henc & Hpay); [|done..].
  rewrite app_nil_r in Hpay. subst body. split_and!; [done..|].
  rewrite Henc; cbn. destruct (encode_denial_size _ _ _ _ Henc) as [_ Hds].
  unfold MAX_PACKET_DESCRIPTORS in Hds.
  eexists. split; [apply finish_packet_Ok; split_and!; [lia | lia | done]|].
  split; [done | apply same_record_minor].
Qed.

(** The same for the host-to-Android direction. *)
Theorem denial_canonical packet n d :
  Forall is_u8 packet → decode_denial packet n = Ok d →
  wf_denial (dp_message d) ∧ n = zlen (dp_descriptors d)
  ∧ ∃ p, encode_denial (dp_message d) = Ok p ∧ ep_descriptors p = dp_descriptors d
         ∧ same_record (ep_bytes p) packet.
Proof. apply decode_denial_sound. Qed.

Definition demo_release : list Z :=
  header_bytes 4 OP_BUFFER_RELEASED 0 7 24 ++ w_u64 5 ++ w_u64 6 ++ w_u64 9.

Lemma denial_canonical_witness :
  ∃ d, decode_denial demo_release 0 = Ok d ∧ wf_denial (dp_message d)
    ∧ 0 = zlen (dp_descriptors d)
    ∧ ∃ p, encode_denial (dp_message d) = Ok p ∧ ep_descriptors p = dp_descriptors d
           ∧ same_record (ep_bytes p) demo_release.
Proof.
  eexists. split; [vm_compute; reflexivity|].
  apply denial_canonical; [|vm_compute; reflexivity].
  vm_compute. repeat constructor; discriminate.
Defined.

(** Packets are bounded well below [MAX_PACKET_BYTES], so the size check of
    [finish_packet] never fires: an encoded packet has at most 4166 bytes
    (Android) or 3110 bytes (host) and at most four descriptors, and neither
    encoder ever reports [PacketTooLarge]. *)
Theorem encode_bounded :
  (∀ m p, encode_android m = Ok p →
     zlen (ep_bytes p) ≤ 4166 ∧ zlen (ep_descriptors p) ≤ MAX_PACKET_DESCRIPTORS)
  ∧ (∀ m p, encode_denial m = Ok p →
       zlen (ep_bytes p) ≤ 3110 ∧ zlen (ep_descriptors p) ≤ MAX_PACKET_DESCRIPTORS)
  ∧ (∀ m f, encode_android_fields m = Ok f → is_ok (encode_android m) = true)
  ∧ (∀ m f, encode_denial_fields m = Ok f → is_ok (encode_denial m) = true).
Proof.
  assert (∀ opcode object payload ds, zlen payload ≤ 4134 → zlen ds ≤ MAX_PACKET_DESCRIPTORS →
    is_ok (finish_packet opcode object payload ds) = true) as Hok.
  { unfold MAX_PACKET_DESCRIPTORS. intros op o pl ds H1 H2.
    by erewrite (proj2 (finish_packet_Ok op o pl ds _)) by (split_and!; [lia | lia | done]). }
  assert (∀ n opcode fds object len (payload : list Z),
    zlen (header_bytes n opcode fds object len ++ payload) = 32 + zlen payload) as Hlen.
  { intros. unfold zlen. rewrite length_app, length_header. lia. }
  split_and!.
  - unfold encode_android. intros m p H. inv_ok. apply encode_android_size in Hm as [? ?].
    apply finish_packet_Ok in H as (_ & _ & ->); cbn. rewrite Hlen. lia.
  - unfold encode_denial. intros m p H. inv_ok. apply encode_denial_size in Hm as [? ?].
    apply finish_packet_Ok in H as (_ & _ & ->); cbn. rewrite Hlen. lia.
  - unfold encode_android. intros m [[[? ?] ?] ?] H. rewrite H; cbn.
    apply encode_android_size in H as [? ?]. by apply Hok.
  - unfold encode_denial. intros m [[? ?] ?] H. rewrite H; cbn.
    apply encode_denial_size in H as [? ?]. apply Hok; [lia | done].
Qed.

Lemma decode_android_opcode opcode object payload r :
  decode_android_fields opcode object payload = Ok r → opcode ≤ 0x11.
Proof.
  unfold decode_android_fields. intros H. split_opcode H; try done.
  all: try (vm_compute; discriminate).
Qed.

Lemma decode_denial_opcode opcode object payload :
  opcode < 0x8001 → decode_denial_fields opcode object payload = Err (UnknownOpcode opcode).
Proof.
  intros Hop. unfold decode_denial_fields.
  repeat match goal with
  | |- (if ?a =? ?b then _ else _) _ = _ =>
      destruct (Z.eqb_spec a b) as [E|_];
      [exfalso; rewrite E in Hop; vm_compute in Hop; discriminate|]
  end. done.
Qed.

(** A record of the wrong direction is never mistaken for a message.  What
    the host accepts from Android, the Android-side decoder rejects as an
    unknown opcode. *)
Theorem directions_disjoint packet n d :
  decode_android packet n = Ok d → ∃ opcode, decode_denial packet n = Err (UnknownOpcode opcode).
Proof.
  unfold decode_android, decode_denial. intros H. inv_ok.
  rewrite Hm; cbn. apply decode_android_opcode in Hm0.
  rewrite decode_denial_opcode by lia. by eexists.
Qed.

Lemma directions_disjoint_witness :
  ∃ opcode, decode_denial demo_packet 0 = Err (UnknownOpcode opcode).
Proof. eapply directions_disjoint. vm_compute. reflexivity. Defined.
