(* ===== verification/TaskState.v ===== *)
(** * Host-side task state (graphics/droidloom-denial-protocol/src/lib.rs)

    [TaskPresentationState], the state the host keeps for one Android task
    object: format feedback, configure and acknowledgement, the cached buffer
    table, the frames in flight and the two timeline cursors.  Every method of
    the source is a [method] of the model; the invariant, its preservation, the
    refinement of the release-before-reuse specification of [Ownership] and the
    laws of wrapping configure serials follow. *)

From Stdlib Require Import Sorted.
From S2P Require Import Prelude Ownership Transport Protocol.

Record AcceptedWireFrame : Type := mkAcceptedWire {
  aw_object : TaskObjectId;
  aw_frame : FrameId;
  aw_buffer : BufferId;
  aw_acquire_point : Z;
  aw_release_point : Z;
  aw_damage : list Damage
}.

Inductive TaskStateError : Type :=
| WrongObject (expected actual : TaskObjectId)
| TimelinesAlreadyBound
| TimelinesUnbound
| FeedbackRegression (previous actual : Z)
| MissingConfigure
| StaleConfigure (expected actual : Z)
| UnacknowledgedConfigure
| DuplicateBuffer (buffer : BufferId)
| BufferLimit
| UnknownBuffer (buffer : BufferId)
| TaskBufferInFlight (buffer : BufferId)
| DuplicateFrame (frame : FrameId)
| TaskUnknownFrame (frame : FrameId)
| ReleaseMismatch
| TimelineRegression (timeline : string) (previous actual : Z)
| TaskSizeMismatch
| TaskUnsupportedFormat
| TaskInvalidDamage
| StateWire (e : WireError).

Record PendingWireFrame : Type := mkPending {
  pw_buffer : BufferId;
  pw_release_point : Z
}.

#[global] Instance PendingWireFrame_eq_dec : EqDecision PendingWireFrame.
Proof. solve_decision. Defined.

Record TaskPresentationState : Type := mkTPS {
  object : TaskObjectId;
  timelines_bound : bool;
  feedback_generation : Z;
  feedback : gset FormatModifier;
  configured : option (Z * Z * Z);
  acknowledged_serial : option Z;
  buffers : gmap BufferId BufferMetadata;
  in_flight : gmap FrameId PendingWireFrame;
  busy_buffers : gset BufferId;
  last_acquire_point : Z;
  last_release_point : Z
}.

(** Field updates of [&mut self]. *)
Definition set_bound b s := mkTPS (object s) b (feedback_generation s) (feedback s) (configured s)
  (acknowledged_serial s) (buffers s) (in_flight s) (busy_buffers s)
  (last_acquire_point s) (last_release_point s).
Definition set_feedback g f s := mkTPS (object s) (timelines_bound s) g f (configured s)
  (acknowledged_serial s) (buffers s) (in_flight s) (busy_buffers s)
  (last_acquire_point s) (last_release_point s).
Definition set_configure c a s := mkTPS (object s) (timelines_bound s) (feedback_generation s)
  (feedback s) c a (buffers s) (in_flight s) (busy_buffers s)
  (last_acquire_point s) (last_release_point s).
Definition set_buffers m s := mkTPS (object s) (timelines_bound s) (feedback_generation s)
  (feedback s) (configured s) (acknowledged_serial s) m (in_flight s) (busy_buffers s)
  (last_acquire_point s) (last_release_point s).
Definition set_points a r s := mkTPS (object s) (timelines_bound s) (feedback_generation s)
  (feedback s) (configured s) (acknowledged_serial s) (buffers s) (in_flight s)
  (busy_buffers s) a r.
Definition set_frames m b s := mkTPS (object s) (timelines_bound s) (feedback_generation s)
  (feedback s) (configured s) (acknowledged_serial s) (buffers s) m b
  (last_acquire_point s) (last_release_point s).

Definition task_method := method TaskPresentationState TaskStateError.

(** ** Helpers *)

Definition serial_precedes (actual expected : Z) : bool :=
  negb (actual =? expected) && (wrapping_sub32 expected actual <? Z.shiftl 1 31).

Definition require_newer_point (timeline : string) (previous actual : Z)
  : result TaskStateError unit :=
  if previous <? actual then Ok tt else Err (TimelineRegression timeline previous actual).

Definition require_object (obj : TaskObjectId) : task_method unit :=
  s ← get;
  reject (negb (obj =? object s)) (WrongObject (object s) obj).

(** ** Operations *)

Definition task_new (obj : TaskObjectId) : result TaskStateError TaskPresentationState :=
  map_err StateWire (valid_object obj);;
  mret (mkTPS obj false 0 ∅ None None ∅ ∅ ∅ 0 0).

Definition bind_timelines : task_method unit :=
  s ← get;
  reject (timelines_bound s) TimelinesAlreadyBound;;
  modify (set_bound true).

Definition replace_feedback (generation : Z) (formats : list FormatModifier) : task_method unit :=
  s ← get;
  reject (generation <=? feedback_generation s)
    (FeedbackRegression (feedback_generation s) generation);;
  let fb : gset FormatModifier := list_to_set formats in
  reject (bool_decide (fb = ∅) || (MAX_FORMATS <? Z.of_nat (size fb)))
    (StateWire (Limit "format feedback"));;
  reject (existsb (λ f, modifier f =? u64_max) (elements fb))
    (StateWire (InvalidEnum "DRM modifier" u64_max));;
  modify (set_feedback generation fb).

Definition configure (serial width height refresh_millihz : Z) : task_method unit :=
  lift (map_err StateWire (validate_configure serial width height 1 1 refresh_millihz));;
  s ← get;
  modify (set_configure (Some (serial, width, height))
    (if decide ((λ value, value.1.1) <$> configured s = Some serial)
     then acknowledged_serial s else None)).

Definition acknowledge_configure (serial : Z) : task_method unit :=
  s ← get;
  c ← lift (ok_or (configured s) MissingConfigure);
  let expected := c.1.1 in
  if serial =? expected then modify (set_configure (configured s) (Some serial))
  else if serial_precedes serial expected then mret tt
  else throw (StaleConfigure expected serial).

Definition register_buffer (buffer : BufferMetadata) : task_method unit :=
  lift (map_err (StateWire ∘ WireTransport) (validate buffer));;
  reject ((b_id buffer =? 0) || (modifier (b_format buffer) =? u64_max))
    (StateWire (InvalidEnum "buffer identity or modifier" (b_id buffer)));;
  s ← get;
  reject (bool_decide (is_Some (buffers s !! b_id buffer))) (DuplicateBuffer (b_id buffer));;
  reject (MAX_BUFFERS_PER_TASK <=? Z.of_nat (size (buffers s))) BufferLimit;;
  modify (set_buffers (<[b_id buffer := buffer]> (buffers s))).

Definition unregister_buffer (buffer : BufferId) : task_method BufferMetadata :=
  s ← get;
  reject (bool_decide (buffer ∈ busy_buffers s)) (TaskBufferInFlight buffer);;
  metadata ← lift (ok_or (buffers s !! buffer) (UnknownBuffer buffer));
  modify (set_buffers (delete buffer (buffers s)));;
  mret metadata.

(** The closure of [damage.iter().any(...)]. *)
Definition damage_escapes (width height : Z) (rect : Damage) : bool :=
  (d_width rect =? 0) || (d_height rect =? 0)
  || match checked_add u32_max (d_x rect) (d_width rect) with
     | None => true | Some r => width <? r end
  || match checked_add u32_max (d_y rect) (d_height rect) with
     | None => true | Some b => height <? b end.

Definition present (obj : TaskObjectId) (frame : FrameId) (buffer : BufferId)
    (configure_serial acquire_point release_point : Z) (damage : list Damage)
  : task_method AcceptedWireFrame :=
  require_object obj;;
  s ← get;
  reject (negb (timelines_bound s)) TimelinesUnbound;;
  c ← lift (ok_or (configured s) MissingConfigure);
  let '(expected_serial, width, height) := c in
  reject (negb (configure_serial =? expected_serial))
    (StaleConfigure expected_serial configure_serial);;
  reject (negb (bool_decide (acknowledged_serial s = Some expected_serial)))
    UnacknowledgedConfigure;;
  metadata ← lift (ok_or (buffers s !! buffer) (UnknownBuffer buffer));
  reject (negb (bool_decide ((b_width metadata, b_height metadata) = (width, height))))
    TaskSizeMismatch;;
  reject (negb (bool_decide (b_format metadata ∈ feedback s))) TaskUnsupportedFormat;;
  reject (bool_decide (buffer ∈ busy_buffers s)) (TaskBufferInFlight buffer);;
  reject (bool_decide (is_Some (in_flight s !! frame))) (DuplicateFrame frame);;
  lift (require_newer_point "acquire" (last_acquire_point s) acquire_point);;
  lift (require_newer_point "release" (last_release_point s) release_point);;
  reject ((MAX_DAMAGE_RECTS <? zlen damage) || existsb (damage_escapes width height) damage)
    TaskInvalidDamage;;
  modify (set_points acquire_point release_point);;
  modify (set_frames (<[frame := mkPending buffer release_point]> (in_flight s))
            ({[buffer]} ∪ busy_buffers s));;
  mret (mkAcceptedWire obj frame buffer acquire_point release_point damage).

Definition discard_superseded_present (obj : TaskObjectId) (frame : FrameId) (buffer : BufferId)
    (configure_serial acquire_point release_point : Z) : task_method DenialMessage :=
  require_object obj;;
  s ← get;
  reject (negb (timelines_bound s)) TimelinesUnbound;;
  c ← lift (ok_or (configured s) MissingConfigure);
  let expected_serial := c.1.1 in
  reject (negb (serial_precedes configure_serial expected_serial))
    (StaleConfigure expected_serial configure_serial);;
  reject (bool_decide (buffer ∈ busy_buffers s)) (TaskBufferInFlight buffer);;
  reject (bool_decide (is_Some (in_flight s !! frame))) (DuplicateFrame frame);;
  lift (require_newer_point "acquire" (last_acquire_point s) acquire_point);;
  lift (require_newer_point "release" (last_release_point s) release_point);;
  modify (set_points acquire_point release_point);;
  mret (BufferReleased (object s) frame buffer release_point).

Definition release (frame : FrameId) (buffer : BufferId) (release_point : Z)
  : task_method DenialMessage :=
  s ← get;
  pending ← lift (ok_or (in_flight s !! frame) (TaskUnknownFrame frame));
  reject (negb (pw_buffer pending =? buffer) || negb (pw_release_point pending =? release_point))
    ReleaseMismatch;;
  modify (set_frames (delete frame (in_flight s)) (busy_buffers s ∖ {[buffer]}));;
  mret (BufferReleased (object s) frame buffer release_point).

Definition cancel_unsubmitted (frame : FrameId) (buffer : BufferId) (release_point : Z)
  : task_method unit :=
  s ← get;
  pending ← lift (ok_or (in_flight s !! frame) (TaskUnknownFrame frame));
  reject (negb (pw_buffer pending =? buffer) || negb (pw_release_point pending =? release_point))
    ReleaseMismatch;;
  modify (set_frames (delete frame (in_flight s)) (busy_buffers s ∖ {[buffer]})).

Definition registered_buffer_count (s : TaskPresentationState) : nat := size (buffers s).
Definition in_flight_count (s : TaskPresentationState) : nat := size (in_flight s).

(** ** Rejected calls change nothing *)

#[global] Instance require_object_ro obj : ReadOnly (require_object obj).
Proof. unfold require_object. apply _. Qed.
#[global] Instance bind_timelines_fs : FailSafe bind_timelines.
Proof. unfold bind_timelines. solve_fail_safe. Qed.
#[global] Instance replace_feedback_fs g fs : FailSafe (replace_feedback g fs).
Proof. unfold replace_feedback. solve_fail_safe. Qed.
#[global] Instance configure_fs n w h r : FailSafe (configure n w h r).
Proof. unfold configure. solve_fail_safe. Qed.
#[global] Instance acknowledge_configure_fs n : FailSafe (acknowledge_configure n).
Proof. unfold acknowledge_configure. solve_fail_safe. Qed.
#[global] Instance register_buffer_fs b : FailSafe (register_buffer b).
Proof. unfold register_buffer. solve_fail_safe. Qed.
#[global] Instance unregister_buffer_fs b : FailSafe (unregister_buffer b).
Proof. unfold unregister_buffer. solve_fail_safe. Qed.
#[global] Instance present_fs o f b n ap rp d : FailSafe (present o f b n ap rp d).
Proof. unfold present. solve_fail_safe. Qed.
#[global] Instance discard_fs o f b n ap rp : FailSafe (discard_superseded_present o f b n ap rp).
Proof. unfold discard_superseded_present. solve_fail_safe. Qed.
#[global] Instance release_fs f b rp : FailSafe (release f b rp).
Proof. unfold release. solve_fail_safe. Qed.
#[global] Instance cancel_fs f b rp : FailSafe (cancel_unsubmitted f b rp).
Proof. unfold cancel_unsubmitted. solve_fail_safe. Qed.

(** ** What each operation does when it succeeds *)

Definition damage_inside (width height : Z) (rect : Damage) : Prop :=
  d_width rect ≠ 0 ∧ d_height rect ≠ 0
  ∧ d_x rect + d_width rect ≤ Z.min width u32_max
  ∧ d_y rect + d_height rect ≤ Z.min height u32_max.

Lemma damage_escapes_false w h rect :
  damage_escapes w h rect = false ↔ damage_inside w h rect.
Proof.
  unfold damage_escapes, damage_inside, checked_add.
  destruct (Z.leb_spec (d_x rect + d_width rect) u32_max),
    (Z.leb_spec (d_y rect + d_height rect) u32_max); reflect; intuition lia.
Qed.

Lemma existsb_false_Forall {A} (f : A → bool) (P : A → Prop) l :
  (∀ x, f x = false ↔ P x) → existsb f l = false ↔ Forall P l.
Proof.
  intros Hf. induction l as [|x l IH]; cbn; [split; constructor|].
  by rewrite Bool.orb_false_iff, Forall_cons, Hf, IH.
Qed.

(** The conditions under which a present is accepted, as the protocol document
    lists them. *)
Record presentable (obj : TaskObjectId) (frame : FrameId) (buffer : BufferId)
    (serial acquire_point release_point : Z) (damage : list Damage)
    (s : TaskPresentationState) : Prop := {
  pr_object : obj = object s;
  pr_bound : timelines_bound s = true;
  pr_buffer : ∃ w h m, configured s = Some (serial, w, h)
    ∧ buffers s !! buffer = Some m ∧ b_width m = w ∧ b_height m = h
    ∧ b_format m ∈ feedback s ∧ Forall (damage_inside w h) damage;
  pr_acked : acknowledged_serial s = Some serial;
  pr_idle : buffer ∉ busy_buffers s;
  pr_fresh : in_flight s !! frame = None;
  pr_acquire : last_acquire_point s < acquire_point;
  pr_release : last_release_point s < release_point;
  pr_damage : zlen damage ≤ MAX_DAMAGE_RECTS
}.

Definition presented (frame : FrameId) (buffer : BufferId) (acquire_point release_point : Z)
    (s : TaskPresentationState) : TaskPresentationState :=
  set_frames (<[frame := mkPending buffer release_point]> (in_flight s))
    ({[buffer]} ∪ busy_buffers s) (set_points acquire_point release_point s).

Lemma require_newer_point_Ok t p a u : require_newer_point t p a = Ok u ↔ p < a.
Proof.
  unfold require_newer_point. destruct u, (Z.ltb_spec p a); split; done || lia.
Qed.

Lemma require_object_Ok obj s s' u :
  require_object obj s = (s', Ok u) ↔ s' = s ∧ obj = object s.
Proof.
  unfold require_object. split.
  - intros H. inv_method. by reflect.
  - intros [-> ->]. unfold mbind, method_bind, get, reject. rewrite Z.eqb_refl. by destruct u.
Qed.

Lemma not_is_Some_None {A} (o : option A) : ¬ is_Some o ↔ o = None.
Proof. by rewrite eq_None_not_Some. Qed.

Lemma present_Ok o f b n ap rp d s s' a :
  present o f b n ap rp d s = (s', Ok a) →
  presentable o f b n ap rp d s ∧ s' = presented f b ap rp s
  ∧ a = mkAcceptedWire o f b ap rp d.
Proof.
  unfold present. intros H.
  apply m_bind_Ok in H as (s0 & u & [-> Ho]%require_object_Ok & H).
  apply m_bind_Ok in H as (? & ? & [-> ->]%m_get_Ok & H).
  apply m_bind_Ok in H as (? & ? & [-> Hb]%m_reject_Ok & H).
  apply m_bind_Ok in H as (? & [[e w] h] & [-> Hc]%m_lift_Ok & H).
  inv_method. reflect.
  rewrite ?require_newer_point_Ok, ?not_is_Some_None in *.
  repeat match goal with H : _ ∧ _ |- _ => destruct H end.
  rewrite (existsb_false_Forall _ _ _ (damage_escapes_false w h)) in *.
  simplify_eq. split; [|done]. constructor; eauto 10.
Qed.

Lemma present_accepts o f b n ap rp d s :
  presentable o f b n ap rp d s →
  present o f b n ap rp d s = (presented f b ap rp s, Ok (mkAcceptedWire o f b ap rp d)).
Proof.
  intros [Ho Hb (w & h & m & Hc & Hm & Hw & Hh & Hf & Hd) Hk Hi Hfr Ha Hr Hn].
  unfold present, mbind, method_bind.
  rewrite (proj2 (require_object_Ok o s s tt)) by done.
  unfold get, reject, lift, modify, mret, method_ret. rewrite Hb, Hc; cbn.
  rewrite Z.eqb_refl, Hk, bool_decide_true by done; cbn. rewrite Hm; cbn.
  rewrite Hw, Hh, bool_decide_true by done; cbn. rewrite bool_decide_true by done; cbn.
  rewrite bool_decide_false by done. rewrite bool_decide_false by (by rewrite Hfr; intros []).
  rewrite !(proj2 (require_newer_point_Ok _ _ _ tt)) by done.
  rewrite (proj2 (existsb_false_Forall _ _ _ (damage_escapes_false w h))) by done.
  by rewrite (proj2 (Z.ltb_ge _ _)) by done.
Qed.

Record discardable (obj : TaskObjectId) (frame : FrameId) (buffer : BufferId)
    (serial acquire_point release_point : Z) (s : TaskPresentationState) : Prop := {
  di_object : obj = object s;
  di_bound : timelines_bound s = true;
  di_serial : ∃ e w h, configured s = Some (e, w, h) ∧ serial_precedes serial e = true;
  di_idle : buffer ∉ busy_buffers s;
  di_fresh : in_flight s !! frame = None;
  di_acquire : last_acquire_point s < acquire_point;
  di_release : last_release_point s < release_point
}.

Lemma discard_iff o f b n ap rp s s' msg :
  discard_superseded_present o f b n ap rp s = (s', Ok msg) ↔
  discardable o f b n ap rp s ∧ s' = set_points ap rp s
  ∧ msg = BufferReleased o f b rp.
Proof.
  unfold discard_superseded_present. split.
  - intros H. apply m_bind_Ok in H as (s0 & u & [-> Ho]%require_object_Ok & H).
    inv_method. reflect. rewrite ?require_newer_point_Ok, ?not_is_Some_None in *.
    cbn in *. simplify_eq. split; [|done]. constructor; eauto.
  - intros ([Ho Hb (e & w & h & Hc & Hs) Hi Hf Ha Hr] & -> & ->).
    unfold mbind, method_bind. rewrite (proj2 (require_object_Ok o s s tt)) by done.
    unfold get, reject, lift, modify, mret, method_ret. rewrite Hb, Hc; cbn.
    rewrite Hs, bool_decide_false by done; cbn. rewrite bool_decide_false by (by rewrite Hf; intros []).
    by rewrite !(proj2 (require_newer_point_Ok _ _ _ tt)), Ho by done.
Qed.

(** [release] and [cancel_unsubmitted] retire the same frames. *)
Definition retired (frame : FrameId) (buffer : BufferId) (s : TaskPresentationState)
  : TaskPresentationState :=
  set_frames (delete frame (in_flight s)) (busy_buffers s ∖ {[buffer]}) s.

Lemma release_iff f b rp s s' msg :
  release f b rp s = (s', Ok msg) ↔
  in_flight s !! f = Some (mkPending b rp) ∧ s' = retired f b s
  ∧ msg = BufferReleased (object s) f b rp.
Proof.
  unfold release. split.
  - intros H. inv_method. reflect. match goal with p : PendingWireFrame |- _ => destruct p; cbn in * end.
    destruct_and!. by simplify_eq.
  - intros (Hf & -> & ->). unfold mbind, method_bind, get, lift, reject. rewrite Hf; cbn.
    by rewrite !Z.eqb_refl.
Qed.

Lemma cancel_iff f b rp s s' u :
  cancel_unsubmitted f b rp s = (s', Ok u) ↔
  in_flight s !! f = Some (mkPending b rp) ∧ s' = retired f b s.
Proof.
  unfold cancel_unsubmitted. split.
  - intros H. inv_method. reflect. match goal with p : PendingWireFrame |- _ => destruct p; cbn in * end.
    destruct_and!. by simplify_eq.
  - intros (Hf & ->). unfold mbind, method_bind, get, lift, reject. rewrite Hf; cbn.
    rewrite !Z.eqb_refl. by destruct u.
Qed.

(** A buffer the renderer can import and cache. *)
Definition importable (m : BufferMetadata) : Prop :=
  validate m = Ok tt ∧ b_id m ≠ 0 ∧ modifier (b_format m) ≠ u64_max.

Lemma register_iff m s s' u :
  register_buffer m s = (s', Ok u) ↔
  importable m ∧ buffers s !! b_id m = None ∧ Z.of_nat (size (buffers s)) < MAX_BUFFERS_PER_TASK
  ∧ s' = set_buffers (<[b_id m := m]> (buffers s)) s.
Proof.
  unfold register_buffer, importable. split.
  - intros H. inv_method. reflect. rewrite not_is_Some_None in *. tauto.
  - intros ((Hv & Hi & Hm) & Hn & Hs & ->).
    unfold mbind, method_bind, get, lift, reject, modify. rewrite Hv; cbn.
    rewrite (proj2 (Z.eqb_neq _ _) Hi), (proj2 (Z.eqb_neq _ _) Hm); cbn.
    rewrite (bool_decide_false (is_Some _)) by (by rewrite Hn; intros []).
    rewrite (proj2 (Z.leb_gt _ _) Hs). by destruct u.
Qed.

Lemma unregister_iff b s s' m :
  unregister_buffer b s = (s', Ok m) ↔
  (b ∉ busy_buffers s) ∧ buffers s !! b = Some m ∧ s' = set_buffers (delete b (buffers s)) s.
Proof.
  unfold unregister_buffer. split.
  - intros H. inv_method. reflect. by simplify_eq.
  - intros (Hb & Hm & ->). unfold mbind, method_bind, get, lift, reject.
    rewrite bool_decide_false by done. by rewrite Hm.
Qed.

Lemma configure_Ok n w h r s s' u :
  configure n w h r s = (s', Ok u) →
  validate_configure n w h 1 1 r = Ok tt ∧
  s' = set_configure (Some (n, w, h))
         (if decide ((λ value, value.1.1) <$> configured s = Some n)
          then acknowledged_serial s else None) s.
Proof. unfold configure. intros H. by inv_method. Qed.

Lemma acknowledge_Ok n s s' u :
  acknowledge_configure n s = (s', Ok u) →
  ∃ e w h, configured s = Some (e, w, h) ∧
    ((n = e ∧ s' = set_configure (configured s) (Some n) s)
     ∨ (serial_precedes n e = true ∧ s' = s)).
Proof.
  unfold acknowledge_configure. intros H.
  apply m_bind_Ok in H as (? & ? & [-> ->]%m_get_Ok & H).
  apply m_bind_Ok in H as (? & [[e w] h] & [-> Hc]%m_lift_Ok & H). inv_ok. cbn in H.
  exists e, w, h. split; [done|].
  destruct (Z.eqb_spec n e); [left; by inv_method|].
  destruct (serial_precedes n e); [right; by inv_method | by inv_method].
Qed.

Lemma replace_feedback_Ok g fs s s' u :
  replace_feedback g fs s = (s', Ok u) →
  feedback_generation s < g ∧ fs ≠ []
  ∧ Z.of_nat (size (list_to_set fs : gset FormatModifier)) ≤ MAX_FORMATS
  ∧ Forall (λ f, modifier f ≠ u64_max) fs
  ∧ s' = set_feedback g (list_to_set fs) s.
Proof.
  unfold replace_feedback. intros H. inv_method.
  match goal with H : existsb _ _ = false |- _ =>
    rewrite (existsb_false_Forall _ (λ f, modifier f ≠ u64_max)) in H
      by (intros f; apply Z.eqb_neq); rename H into Hall end.
  reflect. destruct_and!.
  split_and!; try done.
  - intros ->. done.
  - rewrite Forall_forall in *. intros f Hf. apply Hall. set_solver.
Qed.

(** ** The invariant *)

Record task_inv (s : TaskPresentationState) : Prop := {
  ti_object : object s ≠ 0;
  ti_busy b : b ∈ busy_buffers s ↔ ∃ f p, in_flight s !! f = Some p ∧ pw_buffer p = b;
  ti_exclusive f1 f2 p1 p2 :
    in_flight s !! f1 = Some p1 → in_flight s !! f2 = Some p2 →
    pw_buffer p1 = pw_buffer p2 → f1 = f2;
  ti_registered b : b ∈ busy_buffers s → is_Some (buffers s !! b);
  ti_capacity : Z.of_nat (size (buffers s)) ≤ MAX_BUFFERS_PER_TASK;
  ti_metadata b m : buffers s !! b = Some m → b_id m = b ∧ importable m;
  ti_feedback f : f ∈ feedback s → modifier f ≠ u64_max;
  ti_formats : Z.of_nat (size (feedback s)) ≤ MAX_FORMATS;
  ti_configured n w h : configured s = Some (n, w, h) →
    n ≠ 0 ∧ w ≠ 0 ∧ h ≠ 0 ∧ w ≤ 16384 ∧ h ≤ 16384;
  ti_acknowledged n :
    acknowledged_serial s = Some n → (λ c, c.1.1) <$> configured s = Some n;
  ti_points f p : in_flight s !! f = Some p → 0 < pw_release_point p ≤ last_release_point s;
  ti_points_inj f1 f2 p1 p2 :
    in_flight s !! f1 = Some p1 → in_flight s !! f2 = Some p2 →
    pw_release_point p1 = pw_release_point p2 → f1 = f2;
  ti_cursors : 0 ≤ last_acquire_point s ∧ 0 ≤ last_release_point s;
  ti_unbound : timelines_bound s = false → in_flight s = ∅
}.

Lemma task_new_inv obj s : task_new obj = Ok s → task_inv s.
Proof.
  unfold task_new. intros H. inv_ok. subst. unfold valid_object in Hm.
  destruct (Z.eqb_spec obj 0); [discriminate|].
  constructor; cbn; intros; rewrite ?elem_of_empty, ?lookup_empty in *; try done.
  setoid_rewrite lookup_empty. split; [done|]. by intros (? & ? & ? & _).
Qed.

(** *** Preservation *)

Lemma presented_inv o f b n ap rp d s :
  task_inv s → presentable o f b n ap rp d s → task_inv (presented f b ap rp s).
Proof.
  intros [] [_ Hb (w & h & m & _ & Hm & _) _ Hidle Hfresh Ha Hr _].
  assert (∀ f' p, in_flight s !! f' = Some p → pw_buffer p ≠ b) as Hfree.
  { intros f' p Hp <-. apply Hidle, ti_busy0. eauto. }
  assert (∀ f' p, in_flight s !! f' = Some p → f' ≠ f) as Hother by congruence.
  constructor; cbn; try done; try lia.
  - intros b'. rewrite elem_of_union, elem_of_singleton, ti_busy0. split.
    + intros [->|(f' & p & Hp & <-)].
      * eexists f, _. by rewrite lookup_insert_eq.
      * exists f', p. rewrite lookup_insert_ne; [done|]. by apply not_eq_sym, (Hother _ p).
    + intros (f' & p & [[-> <-]|[? ?]]%lookup_insert_Some & <-); [by left|]. right. eauto.
  - intros f1 f2 p1 p2 [[<- <-]|[? H1]]%lookup_insert_Some [[<- <-]|[? H2]]%lookup_insert_Some;
      cbn; try done; [|intros ?; by destruct (Hfree _ _ H1)|by eauto].
    intros E. by destruct (Hfree _ _ H2).
  - intros b'. rewrite elem_of_union, elem_of_singleton. intros [->|]; eauto.
  - intros f' p [[<- <-]|[? Hp]]%lookup_insert_Some; cbn; [lia|]. apply ti_points0 in Hp. lia.
  - intros f1 f2 p1 p2 [[<- <-]|[? H1]]%lookup_insert_Some [[<- <-]|[? H2]]%lookup_insert_Some;
      cbn; try done; [| |by eauto]; intros E.
    + apply ti_points0 in H2. lia.
    + apply ti_points0 in H1. lia.
  - congruence.
Qed.

Lemma retired_inv f b rp s :
  task_inv s → in_flight s !! f = Some (mkPending b rp) → task_inv (retired f b s).
Proof.
  intros [] Hf. constructor; cbn; try done.
  - intros b'. rewrite elem_of_difference, elem_of_singleton, ti_busy0. split.
    + intros [(f' & p & Hp & <-) Hne]. exists f', p. rewrite lookup_delete_ne; [done|].
      intros ->. by simplify_eq.
    + intros (f' & p & [Hne Hp]%lookup_delete_Some & <-). split; [eauto|].
      intros E. by apply Hne, (ti_exclusive0 _ _ _ _ Hf Hp).
  - intros f1 f2 p1 p2 [_ H1]%lookup_delete_Some [_ H2]%lookup_delete_Some. eauto.
  - intros b' [Hb _]%elem_of_difference; auto.
  - intros f' p [_ Hp]%lookup_delete_Some. eauto.
  - intros f1 f2 p1 p2 [_ H1]%lookup_delete_Some [_ H2]%lookup_delete_Some. eauto.
  - intros Hb. rewrite (ti_unbound0 Hb), lookup_empty in Hf. done.
Qed.

Lemma set_points_inv ap rp s :
  task_inv s → last_acquire_point s < ap → last_release_point s < rp →
  task_inv (set_points ap rp s).
Proof.
  intros [] ? ?. constructor; cbn; try done; [|lia].
  intros f p Hp. apply ti_points0 in Hp. lia.
Qed.

Lemma registered_inv m s :
  task_inv s → importable m → buffers s !! b_id m = None →
  Z.of_nat (size (buffers s)) < MAX_BUFFERS_PER_TASK →
  task_inv (set_buffers (<[b_id m := m]> (buffers s)) s).
Proof.
  intros [] Hi Hn Hs. constructor; cbn; try done.
  - intros b Hb. apply lookup_insert_is_Some'. auto.
  - rewrite map_size_insert_None by done. lia.
  - intros b m' [[<- <-]|[_ Hm]]%lookup_insert_Some; [done|]. auto.
Qed.

Lemma unregistered_inv b s :
  task_inv s → b ∉ busy_buffers s → task_inv (set_buffers (delete b (buffers s)) s).
Proof.
  intros [] Hb. constructor; cbn; try done.
  - intros b' Hb'. rewrite lookup_delete_ne by congruence. auto.
  - assert (size (delete b (buffers s)) ≤ size (buffers s))%nat; [|lia].
    apply map_subseteq_size, delete_subseteq.
  - intros b' m [_ Hm]%lookup_delete_Some. auto.
Qed.

Lemma bound_inv s : task_inv s → task_inv (set_bound true s).
Proof. intros []. by constructor. Qed.

Lemma feedback_inv g fs s s' u :
  task_inv s → replace_feedback g fs s = (s', Ok u) → task_inv s'.
Proof.
  intros [] (_ & _ & Hs & Hm & ->)%replace_feedback_Ok. rewrite Forall_forall in Hm.
  constructor; cbn; try done. intros f Hf%elem_of_list_to_set. auto.
Qed.

Lemma configure_inv n w h r s s' u :
  task_inv s → configure n w h r s = (s', Ok u) → task_inv s'.
Proof.
  intros [] [Hv ->]%configure_Ok. unfold validate_configure in Hv. apply fail_if_Ok in Hv. reflect.
  constructor; cbn; try done.
  - intros ? ? ? [= <- <- <-]. tauto.
  - intros n'. destruct (decide _) as [E|]; [|done]. intros <-%ti_acknowledged0. by rewrite E.
Qed.

Lemma acknowledge_inv n s s' u :
  task_inv s → acknowledge_configure n s = (s', Ok u) → task_inv s'.
Proof.
  intros Hs (e & w & h & Hc & [[-> ->]|[_ ->]])%acknowledge_Ok; [|done].
  destruct Hs. constructor; cbn; try done. intros ? [= <-]. by rewrite Hc.
Qed.

(** ** Sequences of calls *)

Inductive task_op : Type :=
| TsBindTimelines
| TsReplaceFeedback (generation : Z) (formats : list FormatModifier)
| TsConfigure (serial width height refresh_millihz : Z)
| TsAcknowledge (serial : Z)
| TsRegister (buffer : BufferMetadata)
| TsUnregister (buffer : BufferId)
| TsPresent (obj : TaskObjectId) (frame : FrameId) (buffer : BufferId)
    (serial acquire_point release_point : Z) (damage : list Damage)
| TsDiscard (obj : TaskObjectId) (frame : FrameId) (buffer : BufferId)
    (serial acquire_point release_point : Z)
| TsRelease (frame : FrameId) (buffer : BufferId) (release_point : Z)
| TsCancel (frame : FrameId) (buffer : BufferId) (release_point : Z).

Definition task_exec (op : task_op) : task_method unit :=
  match op with
  | TsBindTimelines => bind_timelines
  | TsReplaceFeedback g fs => replace_feedback g fs
  | TsConfigure n w h r => configure n w h r
  | TsAcknowledge n => acknowledge_configure n
  | TsRegister m => register_buffer m
  | TsUnregister b => unregister_buffer b;; mret tt
  | TsPresent o f b n ap rp d => present o f b n ap rp d;; mret tt
  | TsDiscard o f b n ap rp => discard_superseded_present o f b n ap rp;; mret tt
  | TsRelease f b rp => release f b rp;; mret tt
  | TsCancel f b rp => cancel_unsubmitted f b rp
  end.

#[global] Instance task_exec_fs op : FailSafe (task_exec op).
Proof. destruct op; cbn; solve_fail_safe. Qed.

Definition task_run (op : task_op) (s : TaskPresentationState) : TaskPresentationState :=
  (task_exec op s).1.

(** The ownership change of a call: an accepted present, or a completed
    release or cancellation. *)
Definition task_event (op : task_op) (s : TaskPresentationState) : own_event :=
  match (task_exec op s).2 with
  | Ok _ =>
      match op with
      | TsPresent _ f b _ _ _ _ => Acquired f b
      | TsRelease f b _ | TsCancel f b _ => Retired f b
      | _ => Quiet
      end
  | Err _ => Quiet
  end.

Lemma forget_Ok {A} (m : task_method A) s s' u :
  (m;; mret tt) s = (s', Ok u) → ∃ a, m s = (s', Ok a).
Proof. intros (s1 & a & H & [-> _]%m_ret_Ok)%m_bind_Ok. eauto. Qed.

Lemma task_exec_inv op s s' u : task_inv s → task_exec op s = (s', Ok u) → task_inv s'.
Proof.
  intros Hs. destruct op; cbn; intros H.
  - unfold bind_timelines in H. inv_method. by apply bound_inv.
  - by eapply feedback_inv.
  - by eapply configure_inv.
  - by eapply acknowledge_inv.
  - apply register_iff in H as (? & ? & ? & ->). by apply registered_inv.
  - apply forget_Ok in H as [a H]. apply unregister_iff in H as (? & ? & ->). by apply unregistered_inv.
  - apply forget_Ok in H as [a H]. apply present_Ok in H as (? & -> & _). by eapply presented_inv.
  - apply forget_Ok in H as [a H]. apply discard_iff in H as ([] & -> & _). by apply set_points_inv.
  - apply forget_Ok in H as [a H]. apply release_iff in H as (? & -> & _). by eapply retired_inv.
  - apply cancel_iff in H as (? & ->). by eapply retired_inv.
Qed.

#[global] Instance task_owner : BufferOwner TaskPresentationState task_op := {
  owner_run := task_run;
  owner_event := task_event;
  owner_abs s := pw_buffer <$> in_flight s;
  owner_inv := task_inv
}.

(** Operations that leave the in-flight table alone are invisible to the
    ownership specification. *)
Lemma task_exec_frames op s s' u :
  task_exec op s = (s', Ok u) →
  match op with
  | TsPresent _ f b _ _ rp _ => in_flight s' = <[f := mkPending b rp]> (in_flight s)
  | TsRelease f _ _ | TsCancel f _ _ => in_flight s' = delete f (in_flight s)
  | _ => in_flight s' = in_flight s
  end.
Proof.
  destruct op; cbn; intros H.
  - unfold bind_timelines in H. by inv_method.
  - by apply replace_feedback_Ok in H as (_ & _ & _ & _ & ->).
  - by apply configure_Ok in H as [_ ->].
  - by apply acknowledge_Ok in H as (e & w & h & _ & [[_ ->]|[_ ->]]).
  - by apply register_iff in H as (_ & _ & _ & ->).
  - apply forget_Ok in H as [a H]. by apply unregister_iff in H as (_ & _ & ->).
  - apply forget_Ok in H as [a H]. by apply present_Ok in H as (_ & -> & _).
  - apply forget_Ok in H as [a H]. by apply discard_iff in H as (_ & -> & _).
  - apply forget_Ok in H as [a H]. by apply release_iff in H as (_ & -> & _).
  - by apply cancel_iff in H as (_ & ->).
Qed.

#[global] Instance task_owner_laws : BufferOwnerLaws TaskPresentationState task_op.
Proof.
  split; intros op s Hs; unfold owner_run, owner_inv, owner_event, owner_abs; cbn;
    unfold task_run, task_event in *; destruct (task_exec op s) as [s' [u|e]] eqn:E; cbn.
  - by eapply task_exec_inv.
  - by apply fail_safe in E as ->.
  - pose proof (task_exec_frames _ _ _ _ E) as Hfr.
    destruct op; try (rewrite Hfr; constructor); rewrite Hfr, ?fmap_insert, ?fmap_delete.
    + cbn in E. apply forget_Ok in E as [a E]. apply present_Ok in E as ([] & _ & _).
      constructor; [by rewrite lookup_fmap, pr_fresh0|].
      intros f' (p & Hb & Hp)%lookup_fmap_Some. apply pr_idle0, (ti_busy _ Hs). eauto.
    + cbn in E. apply forget_Ok in E as [a E]. apply release_iff in E as (Hf & _).
      constructor. by rewrite lookup_fmap, Hf.
    + apply cancel_iff in E as (Hf & _). constructor. by rewrite lookup_fmap, Hf.
  - apply fail_safe in E as ->. constructor.
Qed.

Lemma forget_run {A} (m : task_method A) s : ((m;; mret tt) s).1 = (m s).1.
Proof. unfold mbind, method_bind. by destruct (m s) as [s' [a|e]]. Qed.

(** The object is fixed, and only [bind_timelines] binds. *)
Lemma task_run_static op s :
  object (task_run op s) = object s
  ∧ timelines_bound (task_run op s)
    = match op with TsBindTimelines => true | _ => timelines_bound s end.
Proof.
  unfold task_run. destruct (task_exec op s) as [s' [u|e]] eqn:E; cbn.
  - destruct op; cbn in E; try (apply forget_Ok in E as [a E]).
    + unfold bind_timelines in E. by inv_method.
    + by apply replace_feedback_Ok in E as (_ & _ & _ & _ & ->).
    + by apply configure_Ok in E as [_ ->].
    + by apply acknowledge_Ok in E as (e & w & h & _ & [[_ ->]|[_ ->]]).
    + by apply register_iff in E as (_ & _ & _ & ->).
    + by apply unregister_iff in E as (_ & _ & ->).
    + by apply present_Ok in E as (_ & -> & _).
    + by apply discard_iff in E as (_ & -> & _).
    + by apply release_iff in E as (_ & -> & _).
    + by apply cancel_iff in E as (_ & ->).
  - destruct op; try (by apply fail_safe in E as ->).
    unfold task_exec, bind_timelines, mbind, method_bind, get, reject, modify in E.
    destruct (timelines_bound s) eqn:Hb; [|done]. by injection E as <- _.
Qed.

(** ** Retiring undoes presenting *)

Lemma retired_presented o f b n ap rp d s :
  presentable o f b n ap rp d s → retired f b (presented f b ap rp s) = set_points ap rp s.
Proof.
  intros [_ _ _ _ Hi Hf _ _ _]. unfold retired, presented, set_frames, set_points; cbn. f_equal.
  - by apply delete_insert_id.
  - apply leibniz_equiv. intros x. rewrite elem_of_difference, elem_of_union, elem_of_singleton.
    split; [tauto|]. intros Hx. split; [by right|]. by intros ->.
Qed.

(** ** Timeline points *)

(** The acquire and release points consumed by the accepted presents and
    discards of a run. *)
Fixpoint points_of (ops : list task_op) (s : TaskPresentationState) : list (Z * Z) :=
  match ops with
  | [] => []
  | op :: ops =>
      match (task_exec op s).2, op with
      | Ok _, TsPresent _ _ _ _ ap rp _ | Ok _, TsDiscard _ _ _ _ ap rp => [(ap, rp)]
      | _, _ => []
      end ++ points_of ops (task_run op s)
  end.

Definition points_lt (p q : Z * Z) : Prop := p.1 < q.1 ∧ p.2 < q.2.

Lemma task_run_points op s :
  let cursor s := (last_acquire_point s, last_release_point s) in
  match (task_exec op s).2, op with
  | Ok _, TsPresent _ _ _ _ ap rp _ | Ok _, TsDiscard _ _ _ _ ap rp =>
      points_lt (cursor s) (ap, rp) ∧ cursor (task_run op s) = (ap, rp)
  | _, _ => cursor (task_run op s) = cursor s
  end.
Proof.
  cbn. unfold task_run. destruct (task_exec op s) as [s' [u|e]] eqn:E; cbn;
    [|by apply fail_safe in E as ->].
  destruct op; cbn in E.
  - unfold bind_timelines in E. by inv_method.
  - by apply replace_feedback_Ok in E as (_ & _ & _ & _ & ->).
  - by apply configure_Ok in E as [_ ->].
  - by apply acknowledge_Ok in E as (e & w & h & _ & [[_ ->]|[_ ->]]).
  - by apply register_iff in E as (_ & _ & _ & ->).
  - apply forget_Ok in E as [a E]. by apply unregister_iff in E as (_ & _ & ->).
  - apply forget_Ok in E as [a E]. by apply present_Ok in E as ([] & -> & _).
  - apply forget_Ok in E as [a E]. by apply discard_iff in E as ([] & -> & _).
  - apply forget_Ok in E as [a E]. by apply release_iff in E as (_ & -> & _).
  - by apply cancel_iff in E as (_ & ->).
Qed.

#[global] Instance points_lt_trans : Transitive points_lt.
Proof. intros [] [] [] [] []. split; cbn in *; lia. Qed.

Lemma points_of_sorted ops s :
  StronglySorted points_lt ((last_acquire_point s, last_release_point s) :: points_of ops s).
Proof.
  revert s; induction ops as [|op ops IH]; intros s; [by repeat constructor|].
  pose proof (task_run_points op s) as Hp. specialize (IH (task_run op s)). cbn in *.
  destruct ((task_exec op s).2) as [u|e]; destruct op; cbn in *;
    try (rewrite Hp in IH; exact IH).
  all: destruct Hp as [Hlt Hp]; rewrite Hp in IH; constructor; [exact IH|].
  all: apply StronglySorted_inv in IH as [_ Hall]; constructor; [exact Hlt|].
  all: eapply Forall_impl; [exact Hall|]; intros q Hq; cbn; by etrans.
Qed.

(** ** Configure serials *)

(** [i] and [j] count configures since the connection started; the wire carries
    them modulo [2^32]. *)
Lemma serial_precedes_issue i j :
  serial_precedes (i mod 4294967296) (j mod 4294967296) = true
  ↔ 0 < (j - i) mod 4294967296 < 2147483648.
Proof.
  unfold serial_precedes, wrapping_sub32. rewrite Bool.andb_true_iff, Bool.negb_true_iff, Z.eqb_neq,
    Z.ltb_lt, <- Zminus_mod. change (Z.shiftl 1 31) with 2147483648.
  pose proof (Z.mod_pos_bound (j - i) 4294967296 eq_refl).
  assert (i mod 4294967296 = j mod 4294967296 ↔ (j - i) mod 4294967296 = 0); [|lia].
  split; intros E.
  - by rewrite Zminus_mod, E, Z.sub_diag.
  - Z.to_euclidean_division_equations. lia.
Qed.

Lemma serial_precedes_window i j :
  i < j → j - i < 2147483648 → serial_precedes (i mod 4294967296) (j mod 4294967296) = true.
Proof. intros. apply serial_precedes_issue. rewrite Z.mod_small by lia. lia. Qed.

Lemma serial_not_precedes_window i j :
  i ≤ j → j - i < 2147483648 → serial_precedes (j mod 4294967296) (i mod 4294967296) = false.
Proof.
  intros. apply Bool.not_true_iff_false. rewrite serial_precedes_issue.
  Z.to_euclidean_division_equations. lia.
Qed.

Lemma serial_distinct_window i j :
  i < j → j - i < 2147483648 → i mod 4294967296 ≠ j mod 4294967296.
Proof. intros ? ? E. Z.to_euclidean_division_equations. lia. Qed.

(** ** Properties *)

(** C10: the host-side task state is an implementation of the release-before-reuse
    specification.  From a freshly created task, whatever calls are made and
    whichever of them fail, two accepted presents of one buffer are separated
    by the release or the cancellation of the first one's frame. *)
Theorem task_release_before_reuse obj s (ops : list task_op) t1 f1 b t2 f2 t3 :
  task_new obj = Ok s →
  events_of ops s = t1 ++ Acquired f1 b :: t2 ++ Acquired f2 b :: t3 →
  Retired f1 b ∈ t2.
Proof. intros Hs%task_new_inv. by apply owner_release_before_reuse. Qed.

(** A task with one registered 64x64 target, configured by serial 3. *)
Definition demo_format : FormatModifier := mkFormatModifier 875713112 0.
Definition demo_target : BufferMetadata := mkBuffer 9 64 64 demo_format [mkPlane 0 0 256].
Definition demo_task : TaskPresentationState := mkTPS 5 false 0 ∅ None None ∅ ∅ ∅ 0 0.
Definition demo_setup : list task_op :=
  [TsBindTimelines; TsReplaceFeedback 1 [demo_format]; TsConfigure 3 64 64 60000;
   TsAcknowledge 3; TsRegister demo_target].
Definition demo_ready : TaskPresentationState := run_ops demo_setup demo_task.

Lemma task_release_before_reuse_witness : Retired 1 9 ∈ [Quiet; Retired 1 9].
Proof.
  apply (task_release_before_reuse 5 demo_task
    (demo_setup ++ [TsPresent 5 1 9 3 10 20 []; TsPresent 5 2 9 3 11 21 [];
                    TsRelease 1 9 20; TsPresent 5 3 9 3 12 22 []])
    (replicate 5 Quiet) 1 9 [Quiet; Retired 1 9] 3 []); vm_compute; reflexivity.
Defined.

(** The task invariant holds along every sequence of calls: the busy set is
    the set of buffers of frames in flight, a buffer is in flight once, busy
    buffers stay registered, at most 256 buffers and 256 formats are cached,
    cached metadata is importable, an acknowledgement names the current
    configure, and the release points of in-flight frames are distinct, positive
    and below the release cursor. *)
Theorem task_reachable_inv obj s (ops : list task_op) :
  task_new obj = Ok s → task_inv (run_ops ops s).
Proof. intros Hs%task_new_inv. exact (run_ops_inv ops s Hs). Qed.

Lemma task_reachable_inv_witness : task_inv demo_ready.
Proof. apply (task_reachable_inv 5 demo_task demo_setup). reflexivity. Defined.

(** [present] accepts exactly the frames of the protocol contract and then
    reserves the frame, the buffer and both timeline points; nothing else of the
    state changes. *)
Theorem task_present_iff o f b n ap rp d s s' a :
  present o f b n ap rp d s = (s', Ok a) ↔
  presentable o f b n ap rp d s ∧ s' = presented f b ap rp s
  ∧ a = mkAcceptedWire o f b ap rp d.
Proof.
  split; [apply present_Ok|]. intros (H & -> & ->). by apply present_accepts.
Qed.

(** A call that the task state rejects leaves it unchanged, for every method
    and every error. *)
Theorem task_rejected_unchanged op s s' e : task_exec op s = (s', Err e) → s' = s.
Proof. apply fail_safe. Qed.

Lemma task_rejected_unchanged_witness :
  (task_exec (TsPresent 5 1 9 2 10 20 []) demo_ready).1 = demo_ready.
Proof.
  apply (task_rejected_unchanged (TsPresent 5 1 9 2 10 20 []) _ _ (StaleConfigure 3 2)).
  vm_compute. reflexivity.
Defined.

(** Along any sequence of calls the acquire points of accepted and discarded
    frames are strictly increasing, and so are their release points: a rejected
    or cancelled frame never gives a point back. *)
Theorem task_points_increase (ops : list task_op) s :
  StronglySorted points_lt (points_of ops s)
  ∧ Forall (points_lt (last_acquire_point s, last_release_point s)) (points_of ops s).
Proof. apply StronglySorted_inv, points_of_sorted. Qed.

(** Presenting a frame and completing it, by release or by cancellation, gives
    back exactly the state before the present with both points consumed: no
    reservation leaks, and the buffer can be presented again with newer points. *)
Theorem task_present_release_roundtrip o f b n ap rp d s :
  presentable o f b n ap rp d s →
  release f b rp (presented f b ap rp s) = (set_points ap rp s, Ok (BufferReleased o f b rp))
  ∧ cancel_unsubmitted f b rp (presented f b ap rp s) = (set_points ap rp s, Ok tt)
  ∧ (∀ f' ap' rp', in_flight s !! f' = None → ap < ap' → rp < rp' →
       presentable o f' b n ap' rp' d (set_points ap rp s)).
Proof.
  intros Hp. rewrite <- (retired_presented _ _ _ _ _ _ _ _ Hp).
  assert (in_flight (presented f b ap rp s) !! f = Some (mkPending b rp)) as Hf
    by apply lookup_insert_eq.
  split_and!.
  - apply release_iff. destruct Hp as [-> _ _ _ _ _ _ _ _]. done.
  - by apply cancel_iff.
  - intros f' ap' rp' Hfr Ha Hr. rewrite (retired_presented _ _ _ _ _ _ _ _ Hp).
    destruct Hp. by constructor.
Qed.

Lemma task_present_release_roundtrip_witness :
  (release 1 9 20 (presented 1 9 10 20 demo_ready)).1 = set_points 10 20 demo_ready.
Proof.
  destruct (task_present_release_roundtrip 5 1 9 3 10 20 [] demo_ready) as [-> _]; [|done].
  refine (proj1 (present_Ok _ _ _ _ _ _ _ _ (presented 1 9 10 20 demo_ready)
                   (mkAcceptedWire 5 1 9 10 20 []) _)).
  vm_compute. reflexivity.
Defined.

(** Acknowledgements are classified correctly across the wrap of the serial
    counter.  With configure number [j] current, acknowledging [j] is recorded,
    acknowledging any of the previous 2^31 - 1 configures is accepted and
    changes nothing, and acknowledging one of the next 2^31 - 1 is refused. *)
Theorem task_acknowledge_window i j w h s :
  configured s = Some (j mod 4294967296, w, h) → Z.abs (i - j) < 2147483648 →
  acknowledge_configure (i mod 4294967296) s =
    match Z.compare i j with
    | Eq => (set_configure (configured s) (Some (j mod 4294967296)) s, Ok tt)
    | Lt => (s, Ok tt)
    | Gt => (s, Err (StaleConfigure (j mod 4294967296) (i mod 4294967296)))
    end.
Proof.
  intros Hc Hw. unfold acknowledge_configure, mbind, method_bind, get, lift. rewrite Hc; cbn.
  destruct (Z.compare_spec i j) as [->|Hlt|Hgt].
  - by rewrite Z.eqb_refl.
  - rewrite (proj2 (Z.eqb_neq _ _)) by (apply serial_distinct_window; lia).
    by rewrite serial_precedes_window by lia.
  - rewrite (proj2 (Z.eqb_neq _ _)) by (apply not_eq_sym, serial_distinct_window; lia).
    by rewrite serial_not_precedes_window by lia.
Qed.

Lemma task_acknowledge_window_witness :
  acknowledge_configure 4294967295 (set_configure (Some (2, 64, 64)) None demo_task)
  = (set_configure (Some (2, 64, 64)) None demo_task, Ok tt).
Proof.
  apply (task_acknowledge_window 4294967295 4294967298 64 64); [reflexivity | lia].
Defined.
