(* ===== verification/Syncobj.v ===== *)
(** * Syncobj timelines (graphics/droidloom-syncobj/src/lib.rs)

    The bridge between frames and DRM syncobj timelines.  The DRM driver is not
    part of the repository: it is the class [Drm], whose operations act on an
    abstract kernel state and may fail with any [errno]; every theorem holds
    for all of them.  A [Timeline] keeps three cursors and a lazily created
    scratch handle; closing handles in [Drop] is not modelled. *)

From Stdlib Require Import Sorted.
From S2P Require Import Prelude.

Abbreviation fd := Z (only parsing).
Abbreviation handle := Z (only parsing).
Abbreviation errno := Z (only parsing).

(** [drm::control::Device] and the one raw ioctl, on the kernel state [K]. *)
Class Drm (K : Type) : Type := {
  create_syncobj : bool → K → K * result errno handle;
  fd_to_syncobj : fd → bool → K → K * result errno handle;
  syncobj_to_fd : handle → bool → K → K * result errno fd;
  syncobj_timeline_transfer : handle → handle → Z → Z → K → K * result errno unit;
  syncobj_timeline_signal : handle → Z → K → K * result errno unit;
  syncobj_timeline_wait : handle → Z → Z → bool → bool → bool → K → K * result errno unit;
  syncobj_timeline_query : handle → K → K * result errno Z;
  syncobj_eventfd : handle → Z → fd → bool → K → K * result errno unit;
  ioctl_import_sync_file : handle → fd → K → K * result errno unit;
  clock_monotonic : K → K * result errno (Z * Z)
}.

Definition NO_WAIT : Z := 0.
Definition i64_max : Z := 9223372036854775807.
Definition u128_max : Z := 340282366920938463463374607431768211455.
Definition WAIT_FOREVER : Z := i64_max.

Inductive SyncobjError : Type :=
| ZeroPoint
| PointRegression (previous attempted : Z)
| DrmError (operation : string) (source : errno)
| Clock (source : errno)
| DeadlineOverflow.

Definition require_newer (previous attempted : Z) : result SyncobjError unit :=
  if attempted =? 0 then Err ZeroPoint
  else if attempted <=? previous then Err (PointRegression previous attempted)
  else Ok tt.

(** [Duration] as its number of nanoseconds; [u128] arithmetic is checked. *)
Definition checked_mul (max x y : Z) : option Z := if x * y <=? max then Some (x * y) else None.

Definition deadline_from_parts (seconds nanoseconds timeout : Z) : result SyncobjError Z :=
  fail_if (seconds <? 0) DeadlineOverflow;;
  fail_if (nanoseconds <? 0) DeadlineOverflow;;
  fail_if (1000000000 <=? nanoseconds) DeadlineOverflow;;
  now ← ok_or (m ← checked_mul u128_max seconds 1000000000;
               checked_add u128_max m nanoseconds) DeadlineOverflow;
  deadline ← ok_or (checked_add u128_max now timeout) DeadlineOverflow;
  fail_if (i64_max <? deadline) DeadlineOverflow;;
  mret deadline.

Record Timeline : Type := mkTimeline {
  tl_handle : handle;
  tl_transfer : option handle;
  last_attached_point : Z;
  last_signalled_point : Z;
  last_exported_point : Z
}.

Definition set_transfer (h : handle) (t : Timeline) : Timeline :=
  mkTimeline (tl_handle t) (Some h) (last_attached_point t) (last_signalled_point t)
    (last_exported_point t).
Definition set_attached (p : Z) (t : Timeline) : Timeline :=
  mkTimeline (tl_handle t) (tl_transfer t) p (last_signalled_point t) (last_exported_point t).
Definition set_signalled (p : Z) (t : Timeline) : Timeline :=
  mkTimeline (tl_handle t) (tl_transfer t) (last_attached_point t) p (last_exported_point t).
Definition set_exported (p : Z) (t : Timeline) : Timeline :=
  mkTimeline (tl_handle t) (tl_transfer t) (last_attached_point t) (last_signalled_point t) p.

(** A task window's acquire and release timelines; the Android and the host side
    keep one pair each. *)
Record TaskTimelines : Type := mkTimelines { tt_acquire : Timeline; tt_release : Timeline }.

Record TimelineDescriptors : Type := mkDescriptors { td_acquire : fd; td_release : fd }.

Section drm.

Context {K : Type} `{Drm K}.

Definition drm_error {A} (operation : string) (call : K → K * result errno A)
  : method K SyncobjError A :=
  λ k, let '(k', r) := call k in (k', map_err (DrmError operation) r).

Definition monotonic_deadline_after (timeout : Z) : method K SyncobjError Z :=
  λ k, let '(k', r) := clock_monotonic k in
       (k', now ← map_err Clock r; deadline_from_parts now.1 now.2 timeout).

Definition create_timeline : method K SyncobjError Timeline :=
  h ← drm_error "create timeline syncobj" (create_syncobj false);
  mret (mkTimeline h None 0 0 0).

Definition import_timeline (f : fd) : method K SyncobjError Timeline :=
  h ← drm_error "import opaque timeline syncobj" (fd_to_syncobj f false);
  mret (mkTimeline h None 0 0 0).

(** [&mut self] of a timeline: the kernel and the cursors. *)
Definition tl_method := method (K * Timeline) SyncobjError.

Definition on_kernel {A} (m : method K SyncobjError A) : tl_method A :=
  λ w, let '(k', r) := m w.1 in ((k', w.2), r).

Definition update (f : Timeline → Timeline) : tl_method unit :=
  modify (λ w, (w.1, f w.2)).

Definition transfer_handle : tl_method handle :=
  w ← get;
  match tl_transfer w.2 with
  | Some h => mret h
  | None =>
      h ← on_kernel (drm_error "create temporary binary syncobj" (create_syncobj false));
      update (set_transfer h);;
      mret h
  end.

Definition export_opaque : tl_method fd :=
  w ← get;
  on_kernel (drm_error "export opaque timeline syncobj" (syncobj_to_fd (tl_handle w.2) false)).

Definition attach_sync_file (point : Z) (sync_file : fd) : tl_method unit :=
  w ← get;
  let previous := Z.max (last_attached_point w.2) (last_signalled_point w.2) in
  lift (require_newer previous point);;
  temporary ← transfer_handle;
  on_kernel (drm_error "import sync_file into binary syncobj"
               (ioctl_import_sync_file temporary sync_file));;
  on_kernel (drm_error "transfer sync_file into timeline point"
               (syncobj_timeline_transfer temporary (tl_handle w.2) 0 point));;
  update (set_attached point).

Definition signal (point : Z) : tl_method unit :=
  w ← get;
  let previous := Z.max (last_attached_point w.2) (last_signalled_point w.2) in
  lift (require_newer previous point);;
  on_kernel (drm_error "signal timeline point" (syncobj_timeline_signal (tl_handle w.2) point));;
  update (set_signalled point).

Definition export_materialized (point : Z) : tl_method fd :=
  w ← get;
  lift (require_newer (last_exported_point w.2) point);;
  temporary ← transfer_handle;
  on_kernel (drm_error "transfer timeline point into sync_file"
               (syncobj_timeline_transfer (tl_handle w.2) temporary point 0));;
  f ← on_kernel (drm_error "export timeline point as sync_file" (syncobj_to_fd temporary true));
  update (set_exported point);;
  mret f.

Definition wait_available_and_export (point absolute_timeout_ns : Z) : tl_method fd :=
  w ← get;
  lift (require_newer (last_exported_point w.2) point);;
  on_kernel (drm_error "wait for timeline point availability"
               (syncobj_timeline_wait (tl_handle w.2) point absolute_timeout_ns true true true));;
  export_materialized point.

(** ** [WaylandTimeline] *)

Definition signalled_point : tl_method Z :=
  w ← get;
  on_kernel (drm_error "query Wayland release timeline" (syncobj_timeline_query (tl_handle w.2))).

(** [libc::ETIME]. *)
Definition ETIME : Z := 62.

Definition try_export_release_fence (point : Z) : tl_method (option fd) :=
  λ w, match wait_available_and_export point NO_WAIT w with
       | (w', Ok f) => (w', Ok (Some f))
       | (w', Err (DrmError op source)) =>
           if source =? ETIME then (w', Ok None) else (w', Err (DrmError op source))
       | (w', Err e) => (w', Err e)
       end.

Definition notify_when_available (point : Z) (event : fd) : tl_method unit :=
  lift (require_newer 0 point);;
  w ← get;
  on_kernel (drm_error "register Wayland fence availability wakeup"
               (syncobj_eventfd (tl_handle w.2) point event true)).

Definition notify_when_signalled (point : Z) (event : fd) : tl_method unit :=
  lift (require_newer 0 point);;
  w ← get;
  on_kernel (drm_error "register Wayland release wakeup"
               (syncobj_eventfd (tl_handle w.2) point event false)).

(** ** The two ends of a task's pair of timelines *)

Definition tt_method := method (K * TaskTimelines) SyncobjError.

Definition on_acquire {A} (m : tl_method A) : tt_method A :=
  λ w, let '((k', t), r) := m (w.1, tt_acquire w.2) in
       ((k', mkTimelines t (tt_release w.2)), r).
Definition on_release {A} (m : tl_method A) : tt_method A :=
  λ w, let '((k', t), r) := m (w.1, tt_release w.2) in
       ((k', mkTimelines (tt_acquire w.2) t), r).

(** [AndroidTaskTimelines]. *)
Definition android_create : method K SyncobjError TaskTimelines :=
  a ← create_timeline; r ← create_timeline; mret (mkTimelines a r).

Definition android_export_descriptors : tt_method TimelineDescriptors :=
  a ← on_acquire export_opaque; r ← on_release export_opaque; mret (mkDescriptors a r).

Definition android_import_acquire_fence (point : Z) (sync_file : fd) : tt_method unit :=
  on_acquire (attach_sync_file point sync_file).

Definition android_signal_acquire (point : Z) : tt_method unit := on_acquire (signal point).

Definition android_export_acquire_fence (point : Z) : tt_method fd :=
  on_acquire (export_materialized point).

Definition android_export_release_fence (point absolute_timeout_ns : Z) : tt_method fd :=
  on_release (wait_available_and_export point absolute_timeout_ns).

(** [DenialTaskTimelines]. *)
Definition denial_import (acquire release : fd) : method K SyncobjError TaskTimelines :=
  a ← import_timeline acquire; r ← import_timeline release; mret (mkTimelines a r).

Definition export_acquire_fence (point : Z) : tt_method fd :=
  on_acquire (export_materialized point).

Definition attach_release_fence (point : Z) (sync_file : fd) : tt_method unit :=
  on_release (attach_sync_file point sync_file).

Definition signal_release (point : Z) : tt_method unit := on_release (signal point).

(** ** Cursors *)

Lemma require_newer_Ok p a u : require_newer p a = Ok u ↔ a ≠ 0 ∧ p < a.
Proof.
  unfold require_newer. destruct u, (Z.eqb_spec a 0), (Z.leb_spec a p); split; intuition (done || lia).
Qed.

(** What the library remembers of a timeline, the scratch handle apart. *)
Definition cursors (w : K * Timeline) : handle * Z * Z * Z :=
  (tl_handle w.2, last_attached_point w.2, last_signalled_point w.2, last_exported_point w.2).

#[global] Instance on_kernel_keeps {A} (m : method K SyncobjError A) : Keeps cursors (on_kernel m).
Proof. intros [k t]. unfold on_kernel; cbn. by destruct (m k). Qed.

#[global] Instance set_transfer_keeps h : Keeps cursors (update (set_transfer h)).
Proof. by intros [k t]. Qed.

#[global] Instance transfer_handle_keeps : Keeps cursors transfer_handle.
Proof. apply Keeps_bind; [apply _|]. intros w. case_match; apply _. Qed.

#[global] Instance attach_keeps_err p f : KeepsErr cursors (attach_sync_file p f).
Proof. unfold attach_sync_file. repeat (apply KeepsErr_bind; [apply _|intros]). apply _. Qed.
#[global] Instance signal_keeps_err p : KeepsErr cursors (signal p).
Proof. unfold signal. repeat (apply KeepsErr_bind; [apply _|intros]). apply _. Qed.
#[global] Instance export_keeps_err p : KeepsErr cursors (export_materialized p).
Proof. unfold export_materialized. repeat (apply KeepsErr_bind; [apply _|intros]). apply _. Qed.
#[global] Instance wait_keeps_err p t : KeepsErr cursors (wait_available_and_export p t).
Proof.
  unfold wait_available_and_export. repeat (apply KeepsErr_bind; [apply _|intros]). apply _.
Qed.

(** A successful call passed its point check and moved one cursor. *)
Ltac solve_cursors :=
  inv_method;
  match goal with H : require_newer _ _ = _ |- _ => apply require_newer_Ok in H end;
  repeat match goal with H : _ = (_, Ok _) |- _ => apply (keeps_run cursors) in H; [|apply _] end;
  destruct_and?; unfold cursors in *; cbn in *; simplify_eq/=; split_and!; congruence.

Lemma attach_Ok p f w w' u :
  attach_sync_file p f w = (w', Ok u) →
  Z.max (last_attached_point w.2) (last_signalled_point w.2) < p ∧ p ≠ 0 ∧
  cursors w' = (tl_handle w.2, p, last_signalled_point w.2, last_exported_point w.2).
Proof.
  unfold attach_sync_file, update. intros Hrun. solve_cursors.
Qed.

Lemma signal_Ok p w w' u :
  signal p w = (w', Ok u) →
  Z.max (last_attached_point w.2) (last_signalled_point w.2) < p ∧ p ≠ 0 ∧
  cursors w' = (tl_handle w.2, last_attached_point w.2, p, last_exported_point w.2).
Proof.
  unfold signal, update. intros Hrun. solve_cursors.
Qed.

Lemma export_Ok p w w' f :
  export_materialized p w = (w', Ok f) →
  last_exported_point w.2 < p ∧ p ≠ 0 ∧
  cursors w' = (tl_handle w.2, last_attached_point w.2, last_signalled_point w.2, p).
Proof.
  unfold export_materialized, update. intros Hrun. solve_cursors.
Qed.

(** *** Failures *)

Definition is_drm (e : SyncobjError) : Prop := ∃ op n, e = DrmError op n.

Lemma on_kernel_Err {A} op (call : K → K * result errno A) w w' e :
  on_kernel (drm_error op call) w = (w', Err e) → is_drm e.
Proof.
  unfold on_kernel, drm_error. destruct (call w.1) as [k' [a|n]]; cbn; [done|].
  intros [= _ <-]. by eexists _, _.
Qed.

Lemma transfer_handle_Err w w' e : transfer_handle w = (w', Err e) → is_drm e.
Proof.
  unfold transfer_handle. intros [?|(w1 & a & [-> ->]%m_get_Ok & Hr)]%m_bind_Err; [done|].
  destruct (tl_transfer w.2); [done|].
  apply m_bind_Err in Hr as [Hr|(w1 & h & _ & Hr)]; [by apply on_kernel_Err in Hr | done].
Qed.

(** A call whose point is fresh fails only because the kernel failed it. *)
Lemma export_Err p w w' e :
  p ≠ 0 → last_exported_point w.2 < p → export_materialized p w = (w', Err e) → is_drm e.
Proof.
  intros Hp Hl. unfold export_materialized.
  intros [?|(w1 & a & [-> ->]%m_get_Ok & Hr)]%m_bind_Err; [done|].
  rewrite (proj2 (require_newer_Ok _ _ tt)) in Hr by done.
  apply m_bind_Err in Hr as [?|(w1 & a & _ & Hr)]; [done|].
  apply m_bind_Err in Hr as [Hr|(w2 & h & _ & Hr)]; [by apply transfer_handle_Err in Hr|].
  apply m_bind_Err in Hr as [Hr|(w3 & ? & _ & Hr)]; [by apply on_kernel_Err in Hr|].
  apply m_bind_Err in Hr as [Hr|(w4 & ? & _ & Hr)]; [by apply on_kernel_Err in Hr | done].
Qed.

Lemma signal_Err p w w' e :
  p ≠ 0 → Z.max (last_attached_point w.2) (last_signalled_point w.2) < p →
  signal p w = (w', Err e) → is_drm e.
Proof.
  intros Hp Hl. unfold signal. intros [?|(w1 & a & [-> ->]%m_get_Ok & Hr)]%m_bind_Err; [done|].
  rewrite (proj2 (require_newer_Ok _ _ tt)) in Hr by done.
  apply m_bind_Err in Hr as [?|(w1 & a & _ & Hr)]; [done|].
  apply m_bind_Err in Hr as [Hr|(w2 & h & _ & Hr)]; [by apply on_kernel_Err in Hr | done].
Qed.

(** *** The host's pair *)

Definition materialized_cursor (t : Timeline) : Z :=
  Z.max (last_attached_point t) (last_signalled_point t).

Lemma export_acquire_cursor p k l k' l' r :
  export_acquire_fence p (k, l) = ((k', l'), r) →
  tt_release l' = tt_release l
  ∧ last_exported_point (tt_acquire l') =
      match r with Ok _ => p | Err _ => last_exported_point (tt_acquire l) end.
Proof.
  unfold export_acquire_fence, on_acquire; cbn.
  destruct (export_materialized p (k, tt_acquire l)) as [[k1 t] [f|e]] eqn:E; intros [= <- <- <-]; cbn.
  - apply export_Ok in E as (_ & _ & Hc). unfold cursors in Hc. by simplify_eq.
  - apply (keeps_err (g := cursors)) in E. unfold cursors in E. cbn in E. split; congruence.
Qed.

Lemma export_acquire_fresh p k l w e :
  p ≠ 0 → last_exported_point (tt_acquire l) < p →
  export_acquire_fence p (k, l) = (w, Err e) → is_drm e.
Proof.
  intros Hp Hl. unfold export_acquire_fence, on_acquire; cbn.
  destruct (export_materialized p (k, tt_acquire l)) as [[k1 t] [f|e']] eqn:E; intros [= _ <-].
  by eapply export_Err in E.
Qed.

Lemma signal_release_cursor p k l k' l' r :
  signal_release p (k, l) = ((k', l'), r) →
  tt_acquire l' = tt_acquire l
  ∧ materialized_cursor (tt_release l') =
      match r with Ok _ => p | Err _ => materialized_cursor (tt_release l) end.
Proof.
  unfold signal_release, on_release, materialized_cursor; cbn.
  destruct (signal p (k, tt_release l)) as [[k1 t] [f|e]] eqn:E; intros [= <- <- <-]; cbn.
  - apply signal_Ok in E as (? & _ & Hc). unfold cursors in Hc. cbn in *. simplify_eq. split; [done | lia].
  - apply (keeps_err (g := cursors)) in E. unfold cursors in E. cbn in E. split; congruence.
Qed.

Lemma signal_release_fresh p k l w e :
  p ≠ 0 → materialized_cursor (tt_release l) < p →
  signal_release p (k, l) = (w, Err e) → is_drm e.
Proof.
  intros Hp Hl. unfold signal_release, on_release; cbn.
  destruct (signal p (k, tt_release l)) as [[k1 t] [f|e']] eqn:E; intros [= _ <-].
  by eapply signal_Err in E.
Qed.

(** ** Sequences of calls on one timeline *)

Inductive tl_op : Type :=
| TlAttach (point : Z) (sync_file : fd)
| TlSignal (point : Z)
| TlExport (point : Z)
| TlWaitExport (point timeout : Z).

Definition tl_exec (op : tl_op) : tl_method unit :=
  match op with
  | TlAttach p f => attach_sync_file p f
  | TlSignal p => signal p
  | TlExport p => export_materialized p;; mret tt
  | TlWaitExport p t => wait_available_and_export p t;; mret tt
  end.

(** The points a run materializes (by a fence or a CPU signal) and the points it
    exports, successes only. *)
Fixpoint materialized_of (ops : list tl_op) (w : K * Timeline) : list Z :=
  match ops with
  | [] => []
  | op :: ops =>
      match (tl_exec op w).2, op with
      | Ok _, TlAttach p _ | Ok _, TlSignal p => [p]
      | _, _ => []
      end ++ materialized_of ops (tl_exec op w).1
  end.

Fixpoint exported_of (ops : list tl_op) (w : K * Timeline) : list Z :=
  match ops with
  | [] => []
  | op :: ops =>
      match (tl_exec op w).2, op with
      | Ok _, TlExport p | Ok _, TlWaitExport p _ => [p]
      | _, _ => []
      end ++ exported_of ops (tl_exec op w).1
  end.

Lemma tl_exec_err op : KeepsErr cursors (tl_exec op).
Proof.
  destruct op; cbn; try apply _; intros w w' e; rewrite m_bind_Err;
    intros [Hr|(w1 & f & _ & Hr)]; try done; by eapply keeps_err in Hr.
Qed.

Lemma wait_export_Ok p t w w' f :
  wait_available_and_export p t w = (w', Ok f) →
  last_exported_point w.2 < p ∧
  cursors w' = (tl_handle w.2, last_attached_point w.2, last_signalled_point w.2, p).
Proof.
  unfold wait_available_and_export. intros Hr.
  apply m_bind_Ok in Hr as (? & ? & [-> ->]%m_get_Ok & Hr).
  apply m_bind_Ok in Hr as (? & ? & [-> _]%m_lift_Ok & Hr).
  apply m_bind_Ok in Hr as (w1 & ? & Hk%(keeps_run cursors) & Hr); [|apply _].
  apply export_Ok in Hr as (? & _ & ->). unfold cursors in *. simplify_eq. split; [lia | congruence].
Qed.

Lemma tl_exec_step op w :
  let w' := (tl_exec op w).1 in
  match (tl_exec op w).2, op with
  | Ok _, TlAttach p _ | Ok _, TlSignal p =>
      materialized_cursor w.2 < p ∧ p ≤ materialized_cursor w'.2
      ∧ last_exported_point w'.2 = last_exported_point w.2
  | Ok _, TlExport p | Ok _, TlWaitExport p _ =>
      last_exported_point w.2 < p ∧ last_exported_point w'.2 = p
      ∧ materialized_cursor w'.2 = materialized_cursor w.2
  | Err _, _ => cursors w' = cursors w
  end.
Proof.
  cbn. unfold materialized_cursor. destruct (tl_exec op w) as [w' [u|e]] eqn:E; cbn.
  - destruct op as [p f|p|p|p t]; cbn in E.
    + apply attach_Ok in E as (? & _ & Hc). unfold cursors in Hc. simplify_eq. lia.
    + apply signal_Ok in E as (? & _ & Hc). unfold cursors in Hc. simplify_eq. lia.
    + apply m_bind_Ok in E as (w1 & f & E & [-> _]%m_ret_Ok).
      apply export_Ok in E as (? & _ & Hc). unfold cursors in Hc. simplify_eq. lia.
    + apply m_bind_Ok in E as (w1 & f & E & [-> _]%m_ret_Ok).
      apply wait_export_Ok in E as (? & Hc). unfold cursors in Hc. simplify_eq. lia.
  - by apply tl_exec_err in E.
Qed.

Lemma sorted_step (c p c' : Z) l :
  c < p → p ≤ c' → StronglySorted Z.lt (c' :: l) → StronglySorted Z.lt (c :: p :: l).
Proof.
  intros Hc Hp [Hs Hall]%StronglySorted_inv. constructor; [constructor; [done|]|constructor; [done|]].
  all: eapply Forall_impl; [exact Hall|]; cbn; lia.
Qed.

Lemma timeline_runs ops w :
  StronglySorted Z.lt (materialized_cursor w.2 :: materialized_of ops w)
  ∧ StronglySorted Z.lt (last_exported_point w.2 :: exported_of ops w).
Proof.
  revert w; induction ops as [|op ops IH]; intros w; [by repeat constructor|].
  pose proof (tl_exec_step op w) as Hs. specialize (IH (tl_exec op w).1) as [IHm IHe]. cbn in *.
  destruct (tl_exec op w) as [w' [u|e]]; cbn in *.
  - destruct op; cbn in *; destruct Hs as (H1 & H2 & H3); rewrite H3 in *; split;
      first [done | by eapply sorted_step | eapply sorted_step; [done| |exact IHe]; lia].
  - unfold materialized_cursor, cursors in *. injection Hs as _ Ha Hsig He.
    by rewrite Ha, Hsig, He in *.
Qed.

(** ** Properties *)

(** On one timeline the points that receive a fence or a CPU signal are
    positive and strictly increasing, whatever the kernel answers and however
    attaching, signalling and exporting interleave; so are the exported points.
    A failed call never consumes its point. *)
Theorem timeline_points_increase (ops : list tl_op) (k : K) (h : handle) :
  let t := mkTimeline h None 0 0 0 in
  StronglySorted Z.lt (0 :: materialized_of ops (k, t))
  ∧ StronglySorted Z.lt (0 :: exported_of ops (k, t)).
Proof. intros t. apply (timeline_runs ops (k, t)). Qed.

(** A failed call on a timeline leaves all three cursors and the handle as they
    were, so the same point can be tried again. *)
Theorem timeline_failure_keeps_cursors op w w' e :
  tl_exec op w = (w', Err e) → cursors w' = cursors w.
Proof. apply tl_exec_err. Qed.

End drm.

(** A kernel on which waiting always times out and everything else succeeds. *)
#[global] Instance busy_drm : Drm unit := {
  create_syncobj _ k := (k, Ok 1);
  fd_to_syncobj _ _ k := (k, Ok 2);
  syncobj_to_fd _ _ k := (k, Ok 3);
  syncobj_timeline_transfer _ _ _ _ k := (k, Ok tt);
  syncobj_timeline_signal _ _ k := (k, Ok tt);
  syncobj_timeline_wait _ _ _ _ _ _ k := (k, Err ETIME);
  syncobj_timeline_query _ k := (k, Ok 0);
  syncobj_eventfd _ _ _ _ k := (k, Ok tt);
  ioctl_import_sync_file _ _ k := (k, Ok tt);
  clock_monotonic k := (k, Ok (5, 0))
}.

Lemma timeline_failure_keeps_cursors_witness :
  cursors (tl_exec (TlWaitExport 4 0) (tt, mkTimeline 7 None 2 0 1)).1 = (7, 2, 0, 1).
Proof.
  apply (timeline_failure_keeps_cursors (TlWaitExport 4 0) (tt, mkTimeline 7 None 2 0 1) _
           (DrmError "wait for timeline point availability" ETIME)).
  reflexivity.
Defined.

(** [deadline_from_parts] converts a monotonic clock reading and a timeout into
    the exact absolute deadline, or refuses: it succeeds precisely on a valid
    reading whose sum fits a signed 64-bit number of nanoseconds. *)
Theorem deadline_exact seconds nanoseconds timeout d :
  0 ≤ timeout → is_u64 (Z.abs seconds) →
  deadline_from_parts seconds nanoseconds timeout = Ok d ↔
  0 ≤ seconds ∧ 0 ≤ nanoseconds < 1000000000
  ∧ d = seconds * 1000000000 + nanoseconds + timeout ∧ d ≤ i64_max.
Proof.
  intros Ht Hs. unfold deadline_from_parts, checked_add, checked_mul, u128_max, i64_max. split.
  - intros Hr. inv_ok.
    destruct (Z.leb_spec (seconds * 1000000000) 340282366920938463463374607431768211455);
      [|discriminate]; cbn in *.
    repeat case_match; simplify_eq; reflect; lia.
  - intros (? & ? & -> & ?). unfold_ints.
    rewrite !(proj2 (Z.ltb_ge _ 0)), (proj2 (Z.leb_gt 1000000000 _)) by lia; cbn.
    rewrite (proj2 (Z.leb_le (seconds * 1000000000) _)) by lia; cbn.
    rewrite (proj2 (Z.leb_le (seconds * 1000000000 + nanoseconds) _)) by lia; cbn.
    rewrite (proj2 (Z.leb_le (_ + timeout) _)) by lia; cbn.
    by rewrite (proj2 (Z.ltb_ge _ _)) by lia.
Qed.

Lemma deadline_exact_witness : deadline_from_parts 12 34 56 = Ok 12000000090.
Proof.
  apply (proj2 (deadline_exact 12 34 56 12000000090 ltac:(lia) ltac:(vm_compute; done))).
  unfold i64_max. lia.
Defined.
