(* ===== verification/Ipc.v ===== *)
(** * The record socket (graphics/droidloom-denial-ipc/src/lib.rs)

    One sequenced-packet record per message, with its descriptors.  The kernel's
    [sendmsg], [recvmsg] and [getsockopt] are the class [SeqPacketOps]; building
    and parsing the ancillary data, the checks around both system calls and the
    binding of descriptors to the roles of the decoded message are the code's. *)

From S2P Require Import Prelude Protocol Codec CodecProofs Syncobj.

Record PeerCredentials : Type := mkPeer { peer_pid : Z; peer_uid : Z; peer_gid : Z }.

Record AttachedDescriptor : Type := mkAttached { ad_kind : DescriptorKind; ad_fd : fd }.

Record ReceivedMessage (T : Type) : Type := mkReceived {
  rm_message : T;
  rm_descriptors : list AttachedDescriptor
}.
Arguments mkReceived {T} _ _.
Arguments rm_message {T} _.
Arguments rm_descriptors {T} _.

Inductive IpcError : Type :=
| Io (e : errno)
| InvalidPath
| NotSeqPacket
| InvalidInitSocket
| DescriptorLimit (actual maximum : Z)
| DescriptorMismatch (expected actual : Z)
| IpcTruncated
| InvalidAncillary
| ShortSend (expected actual : Z)
| PeerClosed
| IpcWire (e : WireError).

(** One control header as the kernel wrote it: level, type, length field and the
    descriptor words of its payload. *)
Record cmsg : Type := mkCmsg {
  cmsg_level : Z;
  cmsg_type : Z;
  cmsg_len : Z;
  cmsg_data : list Z
}.

(** What [recvmsg] leaves in the caller's storage: the bytes received, the
    control headers and whether [MSG_TRUNC] or [MSG_CTRUNC] is set. *)
Record raw_message : Type := mkRaw {
  raw_bytes : list Z;
  raw_control : list cmsg;
  raw_truncated : bool
}.

Class SeqPacketOps (K : Type) : Type := {
  sendmsg : list Z → list fd → K → K * result errno Z;
  recvmsg : Z → K → K * result errno raw_message;
  getsockopt_peercred : K → K * result errno (Z * PeerCredentials)
}.

Definition SOL_SOCKET : Z := 1.
Definition SCM_RIGHTS : Z := 1.
(** [CMSG_LEN(n)]: a 16-byte header and the payload. *)
Definition CMSG_LEN (n : Z) : Z := 16 + n.
Definition RAW_FD_BYTES : Z := 4.

Record RawRecord : Type := mkRecord { rr_bytes : list Z; rr_descriptors : list fd }.

(** The payload loop over one header. *)
Fixpoint owned_fds (words : list Z) : result IpcError (list fd) :=
  match words with
  | [] => Ok []
  | raw :: words =>
      fail_if (raw <? 0) InvalidAncillary;;
      rest ← owned_fds words;
      mret (raw :: rest)
  end.

Fixpoint extract_descriptors (headers : list cmsg) : result IpcError (list fd) :=
  match headers with
  | [] => Ok []
  | current :: headers =>
      fail_if (negb (cmsg_level current =? SOL_SOCKET) || negb (cmsg_type current =? SCM_RIGHTS))
        InvalidAncillary;;
      let base := CMSG_LEN 0 in
      fail_if (cmsg_len current <? base) InvalidAncillary;;
      let data_bytes := cmsg_len current - base in
      fail_if ((data_bytes =? 0) || negb (data_bytes mod RAW_FD_BYTES =? 0)) InvalidAncillary;;
      let count := data_bytes / RAW_FD_BYTES in
      fds ← owned_fds (take (Z.to_nat count) (cmsg_data current));
      rest ← extract_descriptors headers;
      mret (fds ++ rest)
  end.

Definition require_descriptor_count (expected actual : Z) : result IpcError unit :=
  if expected =? actual then Ok tt else Err (DescriptorMismatch expected actual).

Definition attach_decoded {T} (decoded : DecodedPacket T) (descriptors : list fd)
  : result IpcError (ReceivedMessage T) :=
  require_descriptor_count (zlen (dp_descriptors decoded)) (zlen descriptors);;
  mret (mkReceived (dp_message decoded)
          (zip_with mkAttached (dp_descriptors decoded) descriptors)).

Section socket.

Context {K : Type} `{SeqPacketOps K}.

Definition ipc_method := method K IpcError.

(** The kernel reports the length it wrote and a [ucred] of 12 bytes, whose [pid]
    is signed. *)
Definition peer_credentials : ipc_method PeerCredentials :=
  '(length, credentials) ← (λ k, let '(k', r) := getsockopt_peercred k in (k', map_err Io r));
  reject (negb (length =? 12)) InvalidAncillary;;
  reject (peer_pid credentials <? 0) InvalidAncillary;;
  mret credentials.

Definition send_record (record : list Z) (descriptors : list fd) : ipc_method unit :=
  reject (bool_decide (record = []) || (MAX_PACKET_BYTES <? zlen record)) IpcTruncated;;
  reject (MAX_PACKET_DESCRIPTORS <? zlen descriptors)
    (DescriptorLimit (zlen descriptors) MAX_PACKET_DESCRIPTORS);;
  sent ← (λ k, let '(k', r) := sendmsg record descriptors k in (k', map_err Io r));
  reject (sent <? 0) (ShortSend (zlen record) 0);;
  reject (negb (sent =? zlen record)) (ShortSend (zlen record) sent).

(** [capacity] is the length of the caller's storage. *)
Definition receive_record_into (capacity : Z) : ipc_method RawRecord :=
  reject ((capacity =? 0) || (MAX_PACKET_BYTES <? capacity)) IpcTruncated;;
  message ← (λ k, let '(k', r) := recvmsg capacity k in (k', map_err Io r));
  reject (bool_decide (raw_bytes message = [])) PeerClosed;;
  descriptors ← lift (extract_descriptors (raw_control message));
  reject (raw_truncated message) IpcTruncated;;
  reject (MAX_PACKET_DESCRIPTORS <? zlen descriptors)
    (DescriptorLimit (zlen descriptors) MAX_PACKET_DESCRIPTORS);;
  mret (mkRecord (raw_bytes message) descriptors).

Definition receive_record : ipc_method RawRecord := receive_record_into MAX_PACKET_BYTES.

(** ** [ProtocolSocket] *)

Definition send_android (message : AndroidMessage) (descriptors : list fd) : ipc_method unit :=
  encoded ← lift (map_err IpcWire (encode_android message));
  lift (require_descriptor_count (zlen (ep_descriptors encoded)) (zlen descriptors));;
  send_record (ep_bytes encoded) descriptors.

Definition receive_android_into (capacity : Z) : ipc_method (ReceivedMessage AndroidMessage) :=
  record ← receive_record_into capacity;
  decoded ← lift (map_err IpcWire (decode_android (rr_bytes record) (zlen (rr_descriptors record))));
  lift (attach_decoded decoded (rr_descriptors record)).

Definition receive_android : ipc_method (ReceivedMessage AndroidMessage) :=
  receive_android_into MAX_PACKET_BYTES.

Definition send_denial_with_descriptors (message : DenialMessage) (descriptors : list fd)
  : ipc_method unit :=
  encoded ← lift (map_err IpcWire (encode_denial message));
  lift (require_descriptor_count (zlen (ep_descriptors encoded)) (zlen descriptors));;
  send_record (ep_bytes encoded) descriptors.

Definition send_denial (message : DenialMessage) : ipc_method unit :=
  send_denial_with_descriptors message [].

Definition receive_denial_into (capacity : Z) : ipc_method (ReceivedMessage DenialMessage) :=
  record ← receive_record_into capacity;
  decoded ← lift (map_err IpcWire (decode_denial (rr_bytes record) (zlen (rr_descriptors record))));
  lift (attach_decoded decoded (rr_descriptors record)).

Definition receive_denial : ipc_method (ReceivedMessage DenialMessage) :=
  receive_denial_into MAX_PACKET_BYTES.

(** ** Sending *)

(** [usize::try_from(sent)] and the comparison with the record's length. *)
Definition sent_exactly (length sent : Z) : result IpcError unit :=
  if sent <? 0 then Err (ShortSend length 0)
  else if sent =? length then Ok tt else Err (ShortSend length sent).

Definition transmit (bytes : list Z) (ds : list fd) : ipc_method unit :=
  λ k, let '(k', r) := sendmsg bytes ds k in
       (k', map_err Io r ≫= sent_exactly (zlen bytes)).

Lemma send_record_bounded bytes ds k :
  0 < zlen bytes ≤ MAX_PACKET_BYTES → zlen ds ≤ MAX_PACKET_DESCRIPTORS →
  send_record bytes ds k = transmit bytes ds k.
Proof.
  intros Hb Hd. unfold send_record, transmit, mbind, method_bind, reject.
  rewrite bool_decide_false by (intros ->; unfold zlen in Hb; cbn in Hb; lia).
  rewrite (proj2 (Z.ltb_ge MAX_PACKET_BYTES _)), (proj2 (Z.ltb_ge MAX_PACKET_DESCRIPTORS _)) by lia; cbn.
  destruct (sendmsg bytes ds k) as [k' [n|e]]; cbn; [|done]. unfold sent_exactly.
  destruct (n <? 0); [done|]. by destruct (n =? zlen bytes).
Qed.

Lemma finish_packet_size opcode object payload ds p :
  finish_packet opcode object payload ds = Ok p → zlen payload ≤ 4134 →
  0 < zlen (ep_bytes p) ≤ MAX_PACKET_BYTES ∧ ep_descriptors p = ds.
Proof.
  intros (_ & _ & ->)%finish_packet_Ok Hp; cbn. unfold zlen, MAX_PACKET_BYTES in *.
  rewrite length_app, length_header. split; [lia | done].
Qed.

Lemma encoded_android_size m p :
  encode_android m = Ok p →
  0 < zlen (ep_bytes p) ≤ MAX_PACKET_BYTES ∧ zlen (ep_descriptors p) ≤ MAX_PACKET_DESCRIPTORS.
Proof.
  unfold encode_android. intros He. inv_ok. apply encode_android_size in Hm as [Hs Hd].
  by apply finish_packet_size in He as [? ->].
Qed.

Lemma encoded_denial_size m p :
  encode_denial m = Ok p →
  0 < zlen (ep_bytes p) ≤ MAX_PACKET_BYTES ∧ zlen (ep_descriptors p) ≤ MAX_PACKET_DESCRIPTORS.
Proof.
  unfold encode_denial. intros He. inv_ok. apply encode_denial_size in Hm as [Hs Hd].
  apply finish_packet_size in He as [? ->]; [done|lia].
Qed.

(** What either typed send does with an encoder's answer. *)
Definition send_packet (encoded : wresult EncodedPacket) (ds : list fd) : ipc_method unit :=
  λ k, match encoded with
       | Err e => (k, Err (IpcWire e))
       | Ok p =>
           if zlen (ep_descriptors p) =? zlen ds then transmit (ep_bytes p) ds k
           else (k, Err (DescriptorMismatch (zlen (ep_descriptors p)) (zlen ds)))
       end.

Lemma send_packet_run encoded ds k :
  (∀ p, encoded = Ok p →
     0 < zlen (ep_bytes p) ≤ MAX_PACKET_BYTES ∧ zlen (ep_descriptors p) ≤ MAX_PACKET_DESCRIPTORS) →
  (p ← lift (map_err IpcWire encoded);
   lift (require_descriptor_count (zlen (ep_descriptors p)) (zlen ds));;
   send_record (ep_bytes p) ds) k = send_packet encoded ds k.
Proof.
  intros Hsize. unfold mbind, method_bind, lift, send_packet, require_descriptor_count.
  destruct encoded as [p|e]; cbn; [|done]. destruct (Hsize p eq_refl) as [Hb Hd].
  destruct (Z.eqb_spec (zlen (ep_descriptors p)) (zlen ds)) as [E|]; [|done].
  apply send_record_bounded; [done | lia].
Qed.

Lemma send_denial_run m ds k :
  send_denial_with_descriptors m ds k = send_packet (encode_denial m) ds k.
Proof. apply send_packet_run. intros p. apply encoded_denial_size. Qed.

Lemma send_android_run m ds k : send_android m ds k = send_packet (encode_android m) ds k.
Proof. apply send_packet_run. intros p. apply encoded_android_size. Qed.

(** ** Receiving *)

(** The control headers that carry a list of descriptors. *)
Definition rights (ds : list fd) : list cmsg :=
  match ds with
  | [] => []
  | _ => [mkCmsg SOL_SOCKET SCM_RIGHTS (CMSG_LEN (RAW_FD_BYTES * zlen ds)) ds]
  end.

Lemma owned_fds_run ds : Forall (Z.le 0) ds → owned_fds ds = Ok ds.
Proof.
  induction 1 as [|d ds Hd Hds IH]; cbn; [done|].
  rewrite (proj2 (Z.ltb_ge _ _)) by done; cbn. by rewrite IH.
Qed.

Lemma extract_rights ds : Forall (Z.le 0) ds → extract_descriptors (rights ds) = Ok ds.
Proof.
  intros Hds. destruct ds as [|d ds]; [done|]. set (l := d :: ds) in *.
  assert (0 < zlen l) by (unfold zlen, l; cbn; lia).
  assert (rights l = [mkCmsg SOL_SOCKET SCM_RIGHTS (CMSG_LEN (RAW_FD_BYTES * zlen l)) l]) as -> by done.
  cbn [extract_descriptors cmsg_level cmsg_type cmsg_len cmsg_data]. unfold CMSG_LEN, RAW_FD_BYTES.
  rewrite !Z.eqb_refl; cbn [negb orb fail_if]. rewrite ok_bind.
  rewrite (proj2 (Z.ltb_ge _ _)) by lia; cbn [fail_if]. rewrite ok_bind.
  replace (16 + 4 * zlen l - (16 + 0)) with (zlen l * 4) by lia.
  rewrite Z.mod_mul, Z.div_mul, (proj2 (Z.eqb_neq _ _)), Z.eqb_refl by lia. cbn [negb orb fail_if].
  rewrite ok_bind, take_ge by (unfold zlen; lia). rewrite owned_fds_run by done. cbn.
  by rewrite app_nil_r.
Qed.

Lemma receive_record_run capacity k k' bytes ds :
  0 < capacity ≤ MAX_PACKET_BYTES → bytes ≠ [] → Forall (Z.le 0) ds →
  zlen ds ≤ MAX_PACKET_DESCRIPTORS →
  recvmsg capacity k = (k', Ok (mkRaw bytes (rights ds) false)) →
  receive_record_into capacity k = (k', Ok (mkRecord bytes ds)).
Proof.
  intros Hc Hb Hds Hn Hr. unfold receive_record_into, mbind, method_bind, reject, lift.
  rewrite (proj2 (Z.eqb_neq _ _)), (proj2 (Z.ltb_ge MAX_PACKET_BYTES _)) by lia; cbn.
  rewrite Hr; cbn. rewrite bool_decide_false by done; cbn.
  rewrite extract_rights by done. by rewrite (proj2 (Z.ltb_ge _ _)) by lia.
Qed.

Lemma receive_record_Ok capacity k k' r :
  receive_record_into capacity k = (k', Ok r) →
  ∃ raw, recvmsg capacity k = (k', Ok raw) ∧ rr_bytes r = raw_bytes raw
    ∧ zlen (rr_descriptors r) ≤ MAX_PACKET_DESCRIPTORS.
Proof.
  unfold receive_record_into. intros Hr.
  apply m_bind_Ok in Hr as (? & ? & [-> _]%m_reject_Ok & Hr).
  apply m_bind_Ok in Hr as (k1 & raw & Hk & Hr).
  destruct (recvmsg capacity k) as [k2 [raw'|e]] eqn:E; inversion Hk; subst.
  inv_method. reflect. subst. by exists raw.
Qed.

Lemma attach_decoded_Ok {T} (d : DecodedPacket T) ds r :
  attach_decoded d ds = Ok r →
  rm_message r = dp_message d ∧ ad_kind <$> rm_descriptors r = dp_descriptors d
  ∧ ad_fd <$> rm_descriptors r = ds.
Proof.
  unfold attach_decoded, require_descriptor_count. intros Hr. inv_ok. subst; cbn.
  destruct (Z.eqb_spec (zlen (dp_descriptors d)) (zlen ds)) as [E|]; [|done].
  unfold zlen in E. split_and!; [done|apply fmap_zip_with_l; [done|lia]|apply fmap_zip_with_r; [done|lia]].
Qed.

Lemma attach_decoded_run {T} (m : T) kinds ds :
  zlen kinds = zlen ds →
  attach_decoded (mkDecoded m kinds) ds = Ok (mkReceived m (zip_with mkAttached kinds ds)).
Proof. intros E. unfold attach_decoded, require_descriptor_count; cbn. by rewrite E, Z.eqb_refl. Qed.

Lemma receive_android_Ok capacity k k' r :
  (∀ c k1 k2 raw, recvmsg c k1 = (k2, Ok raw) → Forall is_u8 (raw_bytes raw)) →
  receive_android_into capacity k = (k', Ok r) →
  wf_android (rm_message r)
  ∧ ∃ p, encode_android (rm_message r) = Ok p ∧ ad_kind <$> rm_descriptors r = ep_descriptors p.
Proof.
  intros Hu8 Hr. unfold receive_android_into in Hr.
  apply m_bind_Ok in Hr as (k1 & rec & (raw & Hraw & Hbytes & _)%receive_record_Ok & Hr).
  apply m_bind_Ok in Hr as (? & d & [-> Hd]%m_lift_Ok & [-> Ha]%m_lift_Ok).
  apply map_err_Ok in Hd. apply decode_android_sound in Hd as (Hwf & _ & p & Hp & Hk & _);
    [|rewrite Hbytes; eauto].
  apply attach_decoded_Ok in Ha as (-> & -> & _). eauto.
Qed.

(** ** Properties *)

(** A typed send either refuses its message without touching the socket (the
    codec rejected it, or the caller's descriptor count differs from the
    message's) or makes exactly one [sendmsg] with the encoded bytes and reports
    its outcome; the record and descriptor limits of [send_record] never fire. *)
Theorem typed_send_spec :
  (∀ m ds k, send_android m ds k = send_packet (encode_android m) ds k)
  ∧ (∀ m ds k, send_denial_with_descriptors m ds k = send_packet (encode_denial m) ds k).
Proof. split; intros; [apply send_android_run | apply send_denial_run]. Qed.

(** A message crosses the socket unchanged.  If Android's send succeeds and the
    kernel delivers the record it was given (its bytes, and its descriptors as
    one [SCM_RIGHTS] header), the host receives the same message, with every
    descriptor bound to the role the message gives its position. *)
Theorem android_delivery m ds p k k1 k2 :
  wf_android m → encode_android m = Ok p → Forall (Z.le 0) ds →
  send_android m ds k = (k1, Ok tt) →
  (∀ bytes, sendmsg bytes ds k = (k1, Ok (zlen bytes)) →
     recvmsg MAX_PACKET_BYTES k1 = (k2, Ok (mkRaw bytes (rights ds) false))) →
  receive_android k1 = (k2, Ok (mkReceived m (zip_with mkAttached (ep_descriptors p) ds))).
Proof.
  intros Hwf Hp Hds Hsend Hdel. rewrite send_android_run in Hsend. unfold send_packet in Hsend.
  rewrite Hp in Hsend. destruct (Z.eqb_spec (zlen (ep_descriptors p)) (zlen ds)) as [E|]; [|done].
  unfold transmit in Hsend. destruct (sendmsg (ep_bytes p) ds k) as [k' [n|e]] eqn:Es; [|done].
  cbn in Hsend. unfold sent_exactly in Hsend. destruct (n <? 0); [done|].
  destruct (Z.eqb_spec n (zlen (ep_bytes p))) as [->|]; [|done]. simplify_eq.
  destruct (encoded_android_size m p Hp) as [Hb Hn].
  unfold receive_android, receive_android_into, mbind, method_bind, lift.
  rewrite (receive_record_run _ _ k2 (ep_bytes p) ds); [|by vm_compute| |done|lia|by apply Hdel].
  - cbn. rewrite <- E, (decode_encode_android m p) by done; cbn. by rewrite attach_decoded_run.
  - intros E'. rewrite E' in Hb. unfold zlen in Hb. cbn in Hb. lia.
Qed.

(** What the host receives is a well-formed message that the encoder could have
    sent, and its descriptors carry exactly the roles of that message, in order;
    this holds for every byte string the kernel may hand over. *)
Theorem receive_android_sound capacity k k' r :
  (∀ c k1 k2 raw, recvmsg c k1 = (k2, Ok raw) → Forall is_u8 (raw_bytes raw)) →
  receive_android_into capacity k = (k', Ok r) →
  wf_android (rm_message r)
  ∧ ∃ p, encode_android (rm_message r) = Ok p ∧ ad_kind <$> rm_descriptors r = ep_descriptors p.
Proof. apply receive_android_Ok. Qed.

End socket.

(** A connected pair as a queue of records; an empty queue would block. *)
Definition EAGAIN : Z := 11.
#[global] Instance loopback : SeqPacketOps (list (list Z * list fd)) := {
  sendmsg bytes ds k := (k ++ [(bytes, ds)], Ok (zlen bytes));
  recvmsg capacity k :=
    match k with
    | [] => (k, Err EAGAIN)
    | (bytes, ds) :: k' => (k', Ok (mkRaw (map (λ b, b mod 256) bytes) (rights ds) false))
    end;
  getsockopt_peercred k := (k, Ok (12, mkPeer 100 1000 1000))
}.

Definition demo_bind : AndroidMessage := BindTimelines 7.
Definition demo_bind_packet : EncodedPacket :=
  match encode_android demo_bind with Ok p => p | Err _ => mkEncoded [] [] end.

Lemma android_delivery_witness :
  receive_android [(ep_bytes demo_bind_packet, [20; 21])]
  = ([], Ok (mkReceived demo_bind [mkAttached AcquireTimeline 20; mkAttached ReleaseTimeline 21])).
Proof.
  apply (android_delivery demo_bind [20; 21] demo_bind_packet []
           [(ep_bytes demo_bind_packet, [20; 21])] []).
  - cbn. unfold_ints. lia.
  - reflexivity.
  - repeat constructor; lia.
  - vm_compute. reflexivity.
  - intros bytes E. injection E as E. subst bytes. vm_compute. reflexivity.
Defined.

Lemma receive_android_sound_witness :
  wf_android demo_bind
  ∧ ∃ p, encode_android demo_bind = Ok p ∧ [AcquireTimeline; ReleaseTimeline] = ep_descriptors p.
Proof.
  apply (receive_android_sound MAX_PACKET_BYTES [(ep_bytes demo_bind_packet, [20; 21])] []
    (mkReceived demo_bind [mkAttached AcquireTimeline 20; mkAttached ReleaseTimeline 21])).
  - intros c [|[bytes ds] k1] k2 raw; cbn; [done|]. intros [= _ <-]; cbn.
    apply Forall_forall. intros x (y & -> & _)%list_elem_of_fmap.
    unfold is_u8. apply Z.mod_pos_bound. lia.
  - vm_compute. reflexivity.
Defined.
