(* ===== verification/Endpoint.v ===== *)
(** * The host endpoint (graphics/droidloom-denial-endpoint/src/lib.rs)

    [DenialEndpoint] owns one authenticated connection: it decodes Android's
    records, keeps one [TaskEndpoint] per task object and turns each record into
    one action for the compositor; the compositor's replies go out through its
    other methods.  Every method runs on the kernel state and the endpoint, so
    that a failed [sendmsg] or ioctl can happen anywhere; frame tracing is left
    out.  The invariant and the theorems are in [EndpointProofs]. *)

From S2P Require Import Prelude Transport Protocol Codec TaskState Syncobj Ipc.

Inductive EndpointAction : Type :=
| ARequestRenderTargets (obj : TaskObjectId) (configure_serial : Z)
| ABindInputChannel (generation wire : Z) (socket : fd)
| ABindInputRoute (obj : TaskObjectId) (task : AndroidTaskId) (display incarnation : Z)
| AClientReady
| ACreateTask (obj : TaskObjectId) (display : AndroidDisplayId) (package : rust_string)
| ABindTask (obj : TaskObjectId) (task : AndroidTaskId)
| ADestroyTask (obj : TaskObjectId)
| ATimelinesBound (obj : TaskObjectId)
| AConfigureAcknowledged (obj : TaskObjectId) (serial : Z)
| ARegisterBuffer (obj : TaskObjectId) (buffer : BufferMetadata) (planes : list fd)
| AUnregisterBuffer (obj : TaskObjectId) (buffer : BufferId)
| APresent (frame : AcceptedWireFrame) (acquire_fence : fd)
| ASupersededPresentDiscarded (obj : TaskObjectId) (frame : FrameId)
| ABindLayerStream (obj : TaskObjectId) (sockets : list fd)
| ASetContentState (obj : TaskObjectId) (flags : Z)
| ASetFrameRate (obj : TaskObjectId) (millihz : Z)
| ARequestActivation (obj : TaskObjectId)
| APong (cookie : Z).

Inductive EndpointError : Type :=
| HandshakeRequired
| RepeatedHandshake
| IncompatibleClient
| TaskLimit
| DuplicateIdentity
| UnknownObject (obj : TaskObjectId)
| TaskBusy (obj : TaskObjectId)
| MissingDescriptor (kind : DescriptorKind)
| EpUnknownFrame (obj : TaskObjectId) (frame : FrameId)
| EpIpc (e : IpcError)
| EpState (e : TaskStateError)
| EpSyncobj (e : SyncobjError).

(** ** Peer authentication *)

Record ExpectedPeer : Type := mkExpected { ex_pid : Z; ex_uid : Z; ex_gid : Z }.

Definition accepts (expected : ExpectedPeer) (actual : PeerCredentials) : bool :=
  ((ex_pid expected =? 0) || (ex_pid expected =? peer_pid actual))
  && (ex_uid expected =? peer_uid actual) && (ex_gid expected =? peer_gid actual).

Inductive EndpointListenerError : Type :=
| ListenerIpc (e : IpcError)
| UnexpectedPeer (expected : ExpectedPeer) (actual : PeerCredentials).

(** ** State *)

Record TaskEndpoint : Type := mkTE {
  te_task : option AndroidTaskId;
  te_display : AndroidDisplayId;
  te_state : TaskPresentationState;
  te_timelines : option TaskTimelines;
  te_pending : gmap FrameId AcceptedWireFrame;
  te_presentation_frames : gset FrameId;
  te_retiring : bool
}.

Record DenialEndpoint : Type := mkEP {
  ready : bool;
  activation_requests : bool;
  direct_input : bool;
  lazy_render_targets : bool;
  scene_presentation : bool;
  host_clock : bool;
  tasks : gmap TaskObjectId TaskEndpoint
}.

Definition endpoint_new : DenialEndpoint := mkEP false false false false false false ∅.

(** Builders; [None] is the panic of the [assert!]. *)
Definition with_activation_requests (d : DenialEndpoint) : option DenialEndpoint :=
  if ready d then None else
  Some (mkEP (ready d) true (direct_input d) (lazy_render_targets d) (scene_presentation d)
          (host_clock d) (tasks d)).
Definition with_direct_input (d : DenialEndpoint) : option DenialEndpoint :=
  if ready d then None else
  Some (mkEP (ready d) (activation_requests d) true (lazy_render_targets d) (scene_presentation d)
          (host_clock d) (tasks d)).
Definition with_lazy_render_targets (d : DenialEndpoint) : option DenialEndpoint :=
  if ready d then None else
  Some (mkEP (ready d) (activation_requests d) (direct_input d) true (scene_presentation d)
          (host_clock d) (tasks d)).
Definition with_scene_presentation (d : DenialEndpoint) : DenialEndpoint :=
  mkEP (ready d) (activation_requests d) (direct_input d) (lazy_render_targets d) true
    (host_clock d) (tasks d).
Definition with_host_clock (d : DenialEndpoint) : DenialEndpoint :=
  mkEP (ready d) (activation_requests d) (direct_input d) (lazy_render_targets d)
    (scene_presentation d) true (tasks d).

(** The getters of the same names: a feature is usable once negotiated. *)
Definition lazy_render_targets_ready (d : DenialEndpoint) : bool := ready d && lazy_render_targets d.
Definition direct_input_ready (d : DenialEndpoint) : bool := ready d && direct_input d.
Definition scene_presentation_ready (d : DenialEndpoint) : bool := ready d && scene_presentation d.
Definition host_clock_ready (d : DenialEndpoint) : bool := ready d && host_clock d.

Definition set_tasks (m : gmap TaskObjectId TaskEndpoint) (d : DenialEndpoint) : DenialEndpoint :=
  mkEP (ready d) (activation_requests d) (direct_input d) (lazy_render_targets d)
    (scene_presentation d) (host_clock d) m.
Definition set_state (s : TaskPresentationState) (t : TaskEndpoint) : TaskEndpoint :=
  mkTE (te_task t) (te_display t) s (te_timelines t) (te_pending t) (te_presentation_frames t)
    (te_retiring t).
Definition set_timelines (l : option TaskTimelines) (t : TaskEndpoint) : TaskEndpoint :=
  mkTE (te_task t) (te_display t) (te_state t) l (te_pending t) (te_presentation_frames t)
    (te_retiring t).
Definition set_pending (p : gmap FrameId AcceptedWireFrame) (t : TaskEndpoint) : TaskEndpoint :=
  mkTE (te_task t) (te_display t) (te_state t) (te_timelines t) p (te_presentation_frames t)
    (te_retiring t).
Definition set_presentation (p : gset FrameId) (t : TaskEndpoint) : TaskEndpoint :=
  mkTE (te_task t) (te_display t) (te_state t) (te_timelines t) (te_pending t) p (te_retiring t).
Definition set_retiring (t : TaskEndpoint) : TaskEndpoint :=
  mkTE (te_task t) (te_display t) (te_state t) (te_timelines t) (te_pending t)
    (te_presentation_frames t) true.
Definition set_android_task (a : AndroidTaskId) (t : TaskEndpoint) : TaskEndpoint :=
  mkTE (Some a) (te_display t) (te_state t) (te_timelines t) (te_pending t)
    (te_presentation_frames t) (te_retiring t).

(** [take_descriptor] on the rest of an iterator. *)
Definition take_descriptor (ds : list AttachedDescriptor) (kind : DescriptorKind)
  : result EndpointError (fd * list AttachedDescriptor) :=
  match ds with
  | [] => Err (MissingDescriptor kind)
  | d :: ds => if decide (ad_kind d = kind) then Ok (ad_fd d, ds) else Err (MissingDescriptor kind)
  end.

(** The [collect::<Result<Vec<_>, _>>()] of the plane descriptors. *)
Fixpoint plane_descriptors (ds : list AttachedDescriptor) : result EndpointError (list fd) :=
  match ds with
  | [] => Ok []
  | d :: ds =>
      fail_if (negb (bool_decide (ad_kind d = DmabufPlane))) (MissingDescriptor DmabufPlane);;
      rest ← plane_descriptors ds;
      mret (ad_fd d :: rest)
  end.

Section endpoint.

Context {K : Type} `{Drm K, SeqPacketOps K}.

Definition ep_method := method (K * DenialEndpoint) EndpointError.
Definition te_method := method (K * TaskEndpoint) EndpointError.

(** The value of a [match] on a [Result], without [?]. *)
Definition attempt {St A} (m : method St EndpointError A)
  : method St EndpointError (result EndpointError A) :=
  λ s, let '(s', r) := m s in (s', Ok r).

(** [self.socket], whatever [self] is. *)
Definition on_socket {X A} (m : method K IpcError A) : method (K * X) EndpointError A :=
  λ w, let '(k', r) := m w.1 in ((k', w.2), map_err EpIpc r).

(** [self.task(object)?] and [self.task_mut(object)?]. *)
Definition task (obj : TaskObjectId) : ep_method TaskEndpoint :=
  w ← get;
  lift (ok_or (tasks w.2 !! obj) (UnknownObject obj)).

Definition on_task {A} (obj : TaskObjectId) (m : te_method A) : ep_method A :=
  λ w, match tasks w.2 !! obj with
       | None => (w, Err (UnknownObject obj))
       | Some t => let '((k', t'), r) := m (w.1, t) in
                   ((k', set_tasks (<[obj := t']> (tasks w.2)) w.2), r)
       end.

Definition on_state {A} (m : task_method A) : te_method A :=
  λ w, let '(s', r) := m (te_state w.2) in ((w.1, set_state s' w.2), map_err EpState r).

(** [task.timelines.as_mut().ok_or(TimelinesUnbound)?]. *)
Definition on_timelines {A} (m : method (K * TaskTimelines) SyncobjError A) : te_method A :=
  λ w, match te_timelines w.2 with
       | None => (w, Err (EpState TimelinesUnbound))
       | Some l => let '((k', l'), r) := m (w.1, l) in
                   ((k', set_timelines (Some l') w.2), map_err EpSyncobj r)
       end.

Definition update_task (f : TaskEndpoint → TaskEndpoint) : te_method unit :=
  modify (λ w, (w.1, f w.2)).
Definition update_endpoint (f : DenialEndpoint → DenialEndpoint) : ep_method unit :=
  modify (λ w, (w.1, f w.2)).

(** ** Listener *)

Definition accept (expected : ExpectedPeer)
  : method K EndpointListenerError DenialEndpoint :=
  λ k, let '(k', r) := peer_credentials k in
       (k', actual ← map_err ListenerIpc r;
            if accepts expected actual then Ok endpoint_new
            else Err (UnexpectedPeer expected actual)).

(** ** Host to Android *)

Definition request_input_channel (generation : Z) : ep_method unit :=
  w ← get;
  reject (negb (direct_input_ready w.2)) IncompatibleClient;;
  on_socket (send_denial (RequestInputChannel generation)).

Definition send_format_feedback (obj : TaskObjectId) (generation : Z)
    (formats : list FormatModifier) : ep_method unit :=
  on_task obj (on_state (replace_feedback generation formats));;
  on_socket (send_denial (FormatFeedback obj generation formats)).

Definition register_render_target (obj : TaskObjectId) (configure_serial : Z)
    (buffer : BufferMetadata) (planes : list fd) : ep_method unit :=
  on_task obj (on_state (TaskState.register_buffer buffer));;
  sent ← attempt (on_socket (send_denial_with_descriptors
                    (RegisterRenderTarget obj configure_serial buffer) planes));
  match sent with
  | Ok _ => mret tt
  | Err error =>
      on_task obj (attempt (on_state (unregister_buffer (b_id buffer))));;
      throw error
  end.

Definition unregister_render_target (obj : TaskObjectId) (buffer : BufferId) : ep_method unit :=
  metadata ← on_task obj (on_state (unregister_buffer buffer));
  sent ← attempt (on_socket (send_denial (UnregisterRenderTarget obj buffer)));
  match sent with
  | Ok _ => mret tt
  | Err error =>
      on_task obj (on_state (TaskState.register_buffer metadata));;
      throw error
  end.

Definition send_configure (obj : TaskObjectId) (serial width height scale_numerator
    scale_denominator : Z) (transform : Transform) (refresh_millihz : Z) : ep_method unit :=
  on_task obj (on_state (TaskState.configure serial width height refresh_millihz));;
  on_socket (send_denial (ConfigureMsg obj serial width height scale_numerator scale_denominator
                            transform refresh_millihz)).

Definition send_visibility (obj : TaskObjectId) (visibility : Visibility) (focused : bool)
  : ep_method unit :=
  task obj;; on_socket (send_denial (VisibilityMsg obj visibility focused)).

Definition send_display_power (powered : bool) : ep_method unit :=
  on_socket (send_denial (DisplayPower powered)).

Definition send_close (obj : TaskObjectId) : ep_method unit :=
  task obj;; on_socket (send_denial (Close obj)).

Definition send_input (obj : TaskObjectId) (serial timestamp_nanos : Z) (event : InputEvent)
  : ep_method unit :=
  task obj;; on_socket (send_denial (Input obj serial timestamp_nanos event)).

Definition materialize_release (obj : TaskObjectId) (frame : FrameId) : ep_method unit :=
  t ← task obj;
  lift (ok_or (te_pending t !! frame) (EpUnknownFrame obj frame));;
  reject (negb (bool_decide (is_Some (te_timelines t)))) (EpState TimelinesUnbound).

(** The block of [finish_release] that borrows the task. *)
Definition release_task (obj : TaskObjectId) (frame : FrameId)
  : te_method (DenialMessage * bool * bool) :=
  w ← get;
  pending ← lift (ok_or (te_pending w.2 !! frame) (EpUnknownFrame obj frame));
  message ← on_state (TaskState.release frame (aw_buffer pending) (aw_release_point pending));
  update_task (λ t, set_pending (delete frame (te_pending t)) t);;
  w' ← get;
  mret (message, te_retiring w'.2,
        te_retiring w'.2 && Nat.eqb (in_flight_count (te_state w'.2)) 0).

Definition finish_release (obj : TaskObjectId) (frame : FrameId) : ep_method unit :=
  '(message, retiring, finished_retirement) ← on_task obj (release_task obj frame);
  (if finished_retirement : bool
   then update_endpoint (λ d, set_tasks (delete obj (tasks d)) d) else mret tt);;
  if retiring : bool then mret tt else on_socket (send_denial message).

Definition discard_frame (obj : TaskObjectId) (frame : FrameId) : ep_method unit :=
  t ← task obj;
  reject (negb (bool_decide (is_Some (te_pending t !! frame)))) (EpUnknownFrame obj frame);;
  reject (negb (bool_decide (is_Some (te_timelines t)))) (EpState TimelinesUnbound);;
  finish_release obj frame.

Definition send_frame_grant (latch_nanos target_nanos period_nanos : Z) : ep_method unit :=
  w ← get;
  if host_clock_ready w.2
  then on_socket (send_denial (FrameGrant latch_nanos target_nanos period_nanos))
  else mret tt.

Definition send_scene_presented (obj : TaskObjectId) (scene timestamp_nanos refresh_period_nanos
    sequence : Z) : ep_method unit :=
  w ← get;
  skip ← (if negb (scene_presentation_ready w.2) then mret true
          else t ← task obj; mret (te_retiring t));
  if skip : bool then mret tt
  else on_socket (send_denial (ScenePresented obj scene timestamp_nanos refresh_period_nanos
                                 sequence)).

Definition track_presentation (obj : TaskObjectId) (frame : FrameId) : ep_method bool :=
  on_task obj (
    w ← get;
    reject (negb (bool_decide (is_Some (te_pending w.2 !! frame)))) (EpUnknownFrame obj frame);;
    if 64 <=? Z.of_nat (size (te_presentation_frames w.2)) then mret false
    else update_task (λ t, set_presentation ({[frame]} ∪ te_presentation_frames t) t);;
         mret (negb (bool_decide (frame ∈ te_presentation_frames w.2)))).

Definition forget_presentation (obj : TaskObjectId) (frame : FrameId) : ep_method unit :=
  attempt (on_task obj
    (update_task (λ t, set_presentation (te_presentation_frames t ∖ {[frame]}) t)));; mret tt.

Definition send_presented (obj : TaskObjectId) (frame : FrameId) (timestamp_nanos
    refresh_period_nanos sequence flags : Z) : ep_method unit :=
  retiring ← on_task obj (
    w ← get;
    let tracked := bool_decide (frame ∈ te_presentation_frames w.2) in
    update_task (λ t, set_presentation (te_presentation_frames t ∖ {[frame]}) t);;
    reject (negb tracked && negb (bool_decide (is_Some (te_pending w.2 !! frame))))
      (EpUnknownFrame obj frame);;
    mret (te_retiring w.2));
  if retiring : bool then mret tt
  else on_socket (send_denial (Presented obj frame timestamp_nanos refresh_period_nanos sequence
                                 flags)).

Definition send_fatal (obj : option TaskObjectId) (code : ProtocolErrorCode)
    (offending_opcode : Z) (message : rust_string) : ep_method unit :=
  on_socket (send_denial (ErrorMsg obj code offending_opcode message)).

(** ** Android to host *)

Definition has_capability (capabilities bit : Z) : bool :=
  negb (Z.land capabilities bit =? 0).

(** [self.flag &= capabilities & BIT != 0], for the five optional features. *)
Definition negotiate (capabilities : Z) (d : DenialEndpoint) : DenialEndpoint :=
  mkEP (ready d)
    (activation_requests d && has_capability capabilities capability.TASK_ACTIVATION)
    (direct_input d && has_capability capabilities capability.DIRECT_INPUT)
    (lazy_render_targets d && has_capability capabilities capability.LAZY_RENDER_TARGETS)
    (scene_presentation d && has_capability capabilities capability.SCENE_PRESENTATION)
    (host_clock d && has_capability capabilities capability.HOST_CLOCK)
    (tasks d).

Definition bit_if (b : bool) (bit : Z) : Z := if b then bit else 0.

Definition server_hello (d : DenialEndpoint) : DenialMessage :=
  ServerHello PROTOCOL_MAJOR
    (if host_clock d then PROTOCOL_MINOR
     else if scene_presentation d then 8
     else if lazy_render_targets d then 7
     else 6)
    (Z.lor (Z.lor (Z.lor (Z.lor (Z.lor capability.REQUIRED_V1
       (bit_if (activation_requests d) capability.TASK_ACTIVATION))
       (bit_if (direct_input d) capability.DIRECT_INPUT))
       (bit_if (scene_presentation d) capability.SCENE_PRESENTATION))
       (bit_if (host_clock d) capability.HOST_CLOCK))
       (bit_if (lazy_render_targets d) capability.LAZY_RENDER_TARGETS))
    MAX_TASK_OBJECTS MAX_BUFFERS_PER_TASK MAX_DAMAGE_RECTS.

Definition set_ready (d : DenialEndpoint) : DenialEndpoint :=
  mkEP true (activation_requests d) (direct_input d) (lazy_render_targets d)
    (scene_presentation d) (host_clock d) (tasks d).

Definition client_hello (min_major max_major capabilities : Z) : ep_method EndpointAction :=
  w ← get;
  reject (ready w.2) RepeatedHandshake;;
  reject ((PROTOCOL_MAJOR <? min_major) || (max_major <? PROTOCOL_MAJOR)
          || negb (Z.land capabilities capability.REQUIRED_V1 =? capability.REQUIRED_V1))
    IncompatibleClient;;
  update_endpoint (negotiate capabilities);;
  w' ← get;
  on_socket (send_denial (server_hello w'.2));;
  update_endpoint set_ready;;
  mret AClientReady.

(** [self.tasks.values().any(...)]. *)
Definition any_task (f : TaskEndpoint → bool) (d : DenialEndpoint) : bool :=
  existsb (λ p, f p.2) (map_to_list (tasks d)).

Definition create_task (obj : TaskObjectId) (display : AndroidDisplayId) (package : rust_string)
  : ep_method EndpointAction :=
  w ← get;
  reject (MAX_TASK_OBJECTS <=? Z.of_nat (size (tasks w.2))) TaskLimit;;
  reject (bool_decide (is_Some (tasks w.2 !! obj)) || any_task (λ t, te_display t =? display) w.2)
    DuplicateIdentity;;
  state ← lift (map_err EpState (task_new obj));
  update_endpoint (λ d, set_tasks
    (<[obj := mkTE None display state None ∅ ∅ false]> (tasks d)) d);;
  mret (ACreateTask obj display package).

Definition bind_task (obj : TaskObjectId) (android : AndroidTaskId) : ep_method EndpointAction :=
  w ← get;
  reject (any_task (λ t, bool_decide (te_task t = Some android)) w.2) DuplicateIdentity;;
  on_task obj (
    v ← get;
    reject (bool_decide (is_Some (te_task v.2))) DuplicateIdentity;;
    update_task (set_android_task android));;
  mret (ABindTask obj android).

Definition destroy_task (obj : TaskObjectId) : ep_method EndpointAction :=
  empty ← on_task obj (
    update_task set_retiring;;
    v ← get;
    mret (Nat.eqb (in_flight_count (te_state v.2)) 0));
  (if empty : bool then update_endpoint (λ d, set_tasks (delete obj (tasks d)) d) else mret tt);;
  mret (ADestroyTask obj).

Definition bind_timelines (obj : TaskObjectId) (descriptors : list AttachedDescriptor)
  : ep_method EndpointAction :=
  '(acquire, rest) ← lift (take_descriptor descriptors AcquireTimeline);
  '(release, _) ← lift (take_descriptor rest ReleaseTimeline);
  timelines ← (λ w, let '(k', r) := denial_import acquire release w.1 in
                    ((k', w.2), map_err EpSyncobj r));
  on_task obj (
    on_state TaskState.bind_timelines;;
    update_task (set_timelines (Some timelines)));;
  mret (ATimelinesBound obj).

Definition register_buffer (obj : TaskObjectId) (buffer : BufferMetadata)
    (descriptors : list AttachedDescriptor) : ep_method EndpointAction :=
  planes ← lift (plane_descriptors descriptors);
  on_task obj (on_state (TaskState.register_buffer buffer));;
  mret (ARegisterBuffer obj buffer planes).

(** [present] after [self.task_mut(object)?]: the task stays borrowed to the end. *)
Definition present_task (obj : TaskObjectId) (frame : FrameId) (buffer : BufferId)
    (configure_serial acquire_point release_point : Z) (damage : list Damage)
  : te_method EndpointAction :=
  tried ← attempt (on_state (TaskState.present obj frame buffer configure_serial acquire_point
                               release_point damage));
  match tried with
  | Err (EpState (StaleConfigure _ _)) =>
      released ← on_state (discard_superseded_present obj frame buffer configure_serial
                             acquire_point release_point);
      on_timelines (export_acquire_fence acquire_point);;
      on_timelines (signal_release release_point);;
      on_socket (send_denial released);;
      mret (ASupersededPresentDiscarded obj frame)
  | Err error => throw error
  | Ok accepted =>
      exported ← attempt (on_timelines (export_acquire_fence acquire_point));
      match exported with
      | Ok acquire_fence =>
          update_task (λ t, set_pending (<[frame := accepted]> (te_pending t)) t);;
          mret (APresent accepted acquire_fence)
      | Err (EpSyncobj error) =>
          on_state (cancel_unsubmitted frame buffer release_point);;
          throw (EpSyncobj error)
      | Err error => throw error
      end
  end.

Definition present (obj : TaskObjectId) (frame : FrameId) (buffer : BufferId)
    (configure_serial acquire_point release_point : Z) (damage : list Damage)
  : ep_method EndpointAction :=
  on_task obj (present_task obj frame buffer configure_serial acquire_point release_point damage).

Definition bind_input_channel (generation wire : Z) (descriptors : list AttachedDescriptor)
  : ep_method EndpointAction :=
  w ← get;
  reject (negb (direct_input w.2)) IncompatibleClient;;
  socket ← lift (ok_or (head descriptors) IncompatibleClient);
  mret (ABindInputChannel generation wire (ad_fd socket)).

(** The [match received.message] of [receive_action]; [d] is [self] as the arms
    read it. *)
Definition dispatch (d : DenialEndpoint) (received : ReceivedMessage AndroidMessage)
  : ep_method EndpointAction :=
  match rm_message received with
  | RequestRenderTargets obj configure_serial =>
      reject (negb (lazy_render_targets d)) IncompatibleClient;;
      task obj;;
      mret (ARequestRenderTargets obj configure_serial)
  | BindInputChannel generation wire =>
      bind_input_channel generation wire (rm_descriptors received)
  | BindInputRoute obj display incarnation =>
      reject (negb (direct_input d)) IncompatibleClient;;
      t ← task obj;
      android ← lift (ok_or (te_task t) (UnknownObject obj));
      mret (ABindInputRoute obj android display incarnation)
  | ClientHello min_major max_major capabilities => client_hello min_major max_major capabilities
  | CreateTask obj display package => create_task obj display package
  | BindTask obj android => bind_task obj android
  | DestroyTask obj => destroy_task obj
  | BindTimelines obj => bind_timelines obj (rm_descriptors received)
  | AckConfigure obj serial =>
      on_task obj (on_state (acknowledge_configure serial));;
      mret (AConfigureAcknowledged obj serial)
  | RegisterBuffer obj buffer => register_buffer obj buffer (rm_descriptors received)
  | UnregisterBuffer obj buffer =>
      on_task obj (on_state (unregister_buffer buffer));;
      mret (AUnregisterBuffer obj buffer)
  | Present obj frame buffer configure_serial acquire_point release_point damage =>
      present obj frame buffer configure_serial acquire_point release_point damage
  | BindLayerStream obj =>
      task obj;;
      mret (ABindLayerStream obj (map ad_fd (rm_descriptors received)))
  | SetContentState obj flags => task obj;; mret (ASetContentState obj flags)
  | SetFrameRate obj millihz => task obj;; mret (ASetFrameRate obj millihz)
  | RequestActivation obj =>
      reject (negb (activation_requests d)) IncompatibleClient;;
      t ← task obj;
      reject (negb (bool_decide (is_Some (te_task t)))) (UnknownObject obj);;
      mret (ARequestActivation obj)
  | Pong cookie => mret (APong cookie)
  end.

(** The body of [receive_action] after the record was received. *)
Definition reduce (received : ReceivedMessage AndroidMessage) : ep_method EndpointAction :=
  w ← get;
  reject (negb (ready w.2)
          && match rm_message received with ClientHello _ _ _ => false | _ => true end)
    HandshakeRequired;;
  dispatch w.2 received.

Definition receive_action : ep_method EndpointAction :=
  received ← on_socket (receive_android_into MAX_PACKET_BYTES);
  reduce received.

End endpoint.
