(* ===== verification/EndpointProofs.v ===== *)
(** * Correctness of the host endpoint

    The invariant of [Endpoint.DenialEndpoint] and what follows from it for every
    kernel behaviour: accounting of frames, rollback of failed sends, capability
    negotiation, retirement of tasks, and release before reuse seen from the
    connection. *)

From S2P Require Import Prelude Ownership Transport Protocol Codec CodecProofs.
From S2P Require Import TaskState Syncobj Ipc Endpoint.

(** ** Invariants *)

Definition wire_tuple (a : AcceptedWireFrame) : PendingWireFrame :=
  mkPending (aw_buffer a) (aw_release_point a).

Record te_inv (o : TaskObjectId) (t : TaskEndpoint) : Prop := {
  te_state_inv : task_inv (te_state t);
  te_object : object (te_state t) = o;
  te_frames : wire_tuple <$> te_pending t = in_flight (te_state t);
  te_frame_id f a : te_pending t !! f = Some a → aw_object a = o ∧ aw_frame a = f;
  te_bound : is_Some (te_timelines t) ↔ timelines_bound (te_state t) = true;
  te_cursors l : te_timelines t = Some l →
    last_exported_point (tt_acquire l) ≤ last_acquire_point (te_state t)
    ∧ materialized_cursor (tt_release l) ≤ last_release_point (te_state t);
  te_feedback : Z.of_nat (size (te_presentation_frames t)) ≤ 64;
  te_draining : te_retiring t = true → in_flight (te_state t) ≠ ∅
}.

Record ep_inv (d : DenialEndpoint) : Prop := {
  ep_tasks o t : tasks d !! o = Some t → te_inv o t;
  ep_displays o1 o2 t1 t2 : tasks d !! o1 = Some t1 → tasks d !! o2 = Some t2 →
    te_display t1 = te_display t2 → o1 = o2;
  ep_android o1 o2 t1 t2 a : tasks d !! o1 = Some t1 → tasks d !! o2 = Some t2 →
    te_task t1 = Some a → te_task t2 = Some a → o1 = o2;
  ep_capacity : Z.of_nat (size (tasks d)) ≤ MAX_TASK_OBJECTS;
  ep_handshake : ready d = false → tasks d = ∅
}.

(** *** Changes of the embedded task state *)

(** A step of the task state that leaves the frames in flight alone. *)
Record quiet_step (s s' : TaskPresentationState) : Prop := {
  qs_inv : task_inv s';
  qs_object : object s' = object s;
  qs_frames : in_flight s' = in_flight s;
  qs_bound : timelines_bound s' = timelines_bound s;
  qs_acquire : last_acquire_point s ≤ last_acquire_point s';
  qs_release : last_release_point s ≤ last_release_point s'
}.

Definition quiet_op (op : task_op) : Prop :=
  match op with
  | TsBindTimelines | TsPresent _ _ _ _ _ _ _ | TsRelease _ _ _ | TsCancel _ _ _ => False
  | _ => True
  end.

Lemma quiet_op_step op s : quiet_op op → task_inv s → quiet_step s (task_run op s).
Proof.
  intros Hq Hs. destruct (task_run_static op s) as [Ho Hb].
  pose proof (task_run_points op s) as Hp. cbn in Hp. unfold points_lt in Hp.
  assert (task_inv (task_run op s)) as Hs' by exact (owner_preserves (Op := task_op) op s Hs).
  unfold task_run in *. destruct (task_exec op s) as [s' [u|e]] eqn:E.
  - pose proof (task_exec_frames _ _ _ _ E) as Hf. cbn in *.
    constructor; try done; destruct op; try done; cbn in *; (simplify_eq || destruct_and!); simplify_eq; lia.
  - apply fail_safe in E as ->. by constructor.
Qed.

Lemma te_inv_quiet o t s' :
  te_inv o t → quiet_step (te_state t) s' → te_inv o (set_state s' t).
Proof.
  intros [] []. constructor; cbn; rewrite ?qs_bound0, ?qs_frames0, ?qs_object0; try done.
  intros l Hl. apply te_cursors0 in Hl. lia.
Qed.

Lemma te_inv_presentation o t p :
  te_inv o t → Z.of_nat (size p) ≤ 64 → te_inv o (set_presentation p t).
Proof. intros [] ?. by constructor. Qed.

Lemma te_inv_timelines o t l l' :
  te_inv o t → te_timelines t = Some l →
  last_exported_point (tt_acquire l') ≤ last_acquire_point (te_state t) →
  materialized_cursor (tt_release l') ≤ last_release_point (te_state t) →
  te_inv o (set_timelines (Some l') t).
Proof.
  intros [] Hl Ha Hr. constructor; cbn; try done.
  - rewrite <- te_bound0, Hl. split; intros; by eexists.
  - by intros ? [= <-].
Qed.

(** *** Changes of the task table *)

Definition same_identity (t t' : TaskEndpoint) : Prop :=
  te_display t' = te_display t ∧ te_task t' = te_task t.

Lemma ep_inv_update d o t t' :
  ep_inv d → tasks d !! o = Some t → te_inv o t' → same_identity t t' →
  ep_inv (set_tasks (<[o := t']> (tasks d)) d).
Proof.
  intros [] Ht Hi [Hd Ha].
  assert (∀ o' u, <[o := t']> (tasks d) !! o' = Some u →
    ∃ u0, tasks d !! o' = Some u0 ∧ te_display u = te_display u0 ∧ te_task u = te_task u0) as Hold.
  { intros o' u [[<- <-]|[_ Hu]]%lookup_insert_Some; eauto. }
  constructor; cbn.
  - intros o' u [[<- <-]|[_ Hu]]%lookup_insert_Some; eauto.
  - intros o1 o2 t1 t2 (u1 & H1 & E1 & _)%Hold (u2 & H2 & E2 & _)%Hold E. eapply ep_displays0; eauto.
    congruence.
  - intros o1 o2 t1 t2 a (u1 & H1 & _ & E1)%Hold (u2 & H2 & _ & E2)%Hold A1 A2.
    apply (ep_android0 _ _ u1 u2 a); congruence.
  - rewrite map_size_insert, Ht. cbn. lia.
  - intros E. rewrite (ep_handshake0 E), lookup_empty in Ht. done.
Qed.

Lemma ep_inv_delete d o : ep_inv d → ep_inv (set_tasks (delete o (tasks d)) d).
Proof.
  intros []. constructor; cbn.
  - intros o' t [_ Ht]%lookup_delete_Some. eauto.
  - intros o1 o2 t1 t2 [_ H1]%lookup_delete_Some [_ H2]%lookup_delete_Some. eauto.
  - intros o1 o2 t1 t2 a [_ H1]%lookup_delete_Some [_ H2]%lookup_delete_Some. eauto.
  - assert (size (delete o (tasks d)) ≤ size (tasks d))%nat; [|lia].
    apply map_subseteq_size, delete_subseteq.
  - intros E. by rewrite (ep_handshake0 E), delete_empty.
Qed.

Lemma set_tasks_same d : set_tasks (tasks d) d = d.
Proof. by destruct d. Qed.

Section endpoint_proofs.

Context {K : Type} `{HD : Drm K, HS : SeqPacketOps K}.

(** ** Preservation, compositionally *)

Class TeKeeps {A} (o : TaskObjectId) (m : te_method (K := K) A) : Prop :=
  te_keeps w : te_inv o w.2 → te_inv o (m w).1.2 ∧ same_identity w.2 (m w).1.2.
Class EpKeeps {A} (m : ep_method (K := K) A) : Prop :=
  ep_keeps w : ep_inv w.2 → ep_inv (m w).1.2.

#[local] Instance on_socket_keeps {X A} (m : method K IpcError A) :
  Keeps snd (on_socket (X := X) m).
Proof. intros [k x]. unfold on_socket; cbn. by destruct (m k). Qed.

#[local] Instance attempt_keeps {X Y A} (g : K * X → Y) (m : method (K * X) EndpointError A) :
  Keeps g m → Keeps g (attempt m).
Proof. intros Hm w. specialize (Hm w). unfold attempt. by destruct (m w). Qed.

Lemma EpKeeps_keeps {A} (m : ep_method (K := K) A) : Keeps snd m → EpKeeps m.
Proof. intros Hm w Hw. pose proof (Hm w) as E. cbn in E. by rewrite E. Qed.

#[local] Instance EpKeeps_bind {A B} (m : ep_method (K := K) A) (f : A → ep_method B) :
  EpKeeps m → (∀ a, EpKeeps (f a)) → EpKeeps (m ≫= f).
Proof.
  intros Hm Hf w Hw. specialize (Hm w Hw). unfold mbind, method_bind.
  destruct (m w) as [w1 [a|e]]; cbn in *; [by apply Hf | done].
Qed.

#[local] Instance EpKeeps_attempt {A} (m : ep_method (K := K) A) : EpKeeps m → EpKeeps (attempt m).
Proof. intros Hm w Hw. specialize (Hm w Hw). unfold attempt. by destruct (m w). Qed.

#[local] Instance task_ro o : ReadOnly (task (K := K) o).
Proof. unfold task. apply _. Qed.

Lemma on_task_some {A} o (m : te_method (K := K) A) k d t :
  tasks d !! o = Some t →
  on_task o m (k, d) =
    ((m (k, t)).1.1, set_tasks (<[o := (m (k, t)).1.2]> (tasks d)) d, (m (k, t)).2).
Proof. intros Ht. unfold on_task; cbn. rewrite Ht. by destruct (m (k, t)) as [[k' t'] r]. Qed.

Lemma on_task_none {A} o (m : te_method (K := K) A) k d :
  tasks d !! o = None → on_task o m (k, d) = (k, d, Err (UnknownObject o)).
Proof. intros Ht. unfold on_task; cbn. by rewrite Ht. Qed.

#[local] Instance on_task_keeps {A} o (m : te_method (K := K) A) : TeKeeps o m → EpKeeps (on_task o m).
Proof.
  intros Hm [k d] Hw; cbn in *. destruct (tasks d !! o) as [t|] eqn:Ht.
  - rewrite (on_task_some _ _ _ _ _ Ht); cbn.
    destruct (Hm (k, t)) as [Hi Hs]; [by apply (ep_tasks _ Hw)|]. by eapply ep_inv_update.
  - by rewrite on_task_none.
Qed.

Lemma TeKeeps_keeps {A} o (m : te_method (K := K) A) : Keeps snd m → TeKeeps o m.
Proof. intros Hm w Hw. pose proof (Hm w) as E. cbn in E. rewrite E. done. Qed.

#[local] Instance TeKeeps_bind {A B} o (m : te_method (K := K) A) (f : A → te_method B) :
  TeKeeps o m → (∀ a, TeKeeps o (f a)) → TeKeeps o (m ≫= f).
Proof.
  intros Hm Hf w Hw. destruct (Hm w Hw) as [Hi [E1 E2]]. unfold mbind, method_bind.
  destruct (m w) as [w1 [a|e]]; cbn in *; [|done].
  destruct (Hf a w1 Hi) as [? [E3 E4]]. split; [done|]. split; congruence.
Qed.

#[local] Instance TeKeeps_attempt {A} o (m : te_method (K := K) A) :
  TeKeeps o m → TeKeeps o (attempt m).
Proof. intros Hm w Hw. specialize (Hm w Hw). unfold attempt. by destruct (m w). Qed.

Lemma TeKeeps_quiet {A} o op (m : task_method A) :
  (∀ s, (m s).1 = task_run op s) → quiet_op op → TeKeeps o (on_state m).
Proof.
  intros Hm Hq [k t] Hw. unfold on_state; cbn in *. specialize (Hm (te_state t)).
  destruct (m (te_state t)) as [s' r]; cbn in *. subst. split; [|done].
  apply te_inv_quiet; [done|]. apply quiet_op_step; [done|]. apply Hw.
Qed.

#[local] Instance feedback_te o g fs : TeKeeps o (on_state (replace_feedback g fs)).
Proof. by apply (TeKeeps_quiet _ (TsReplaceFeedback g fs)). Qed.
#[local] Instance configure_te o n w h r : TeKeeps o (on_state (configure n w h r)).
Proof. by apply (TeKeeps_quiet _ (TsConfigure n w h r)). Qed.
#[local] Instance acknowledge_te o n : TeKeeps o (on_state (acknowledge_configure n)).
Proof. by apply (TeKeeps_quiet _ (TsAcknowledge n)). Qed.
#[local] Instance register_te o m : TeKeeps o (on_state (TaskState.register_buffer m)).
Proof. by apply (TeKeeps_quiet _ (TsRegister m)). Qed.
#[local] Instance unregister_te o b : TeKeeps o (on_state (unregister_buffer b)).
Proof.
  apply (TeKeeps_quiet _ (TsUnregister b)); [|done]. intros s. symmetry. apply forget_run.
Qed.

#[local] Hint Resolve EpKeeps_keeps TeKeeps_keeps : typeclass_instances.

(** ** Presenting *)

Lemma te_timelines_bound o t :
  te_inv o t → timelines_bound (te_state t) = true → ∃ l, te_timelines t = Some l.
Proof. intros Ht Hb. by apply (te_bound _ _ Ht) in Hb as [l Hl]; eauto. Qed.

(** The cursors of a task's timelines after point pair [(ap, rp)] was consumed. *)
Definition cursors_upto (ap rp : Z) (l : TaskTimelines) : Prop :=
  last_exported_point (tt_acquire l) ≤ ap ∧ materialized_cursor (tt_release l) ≤ rp.

(** What can go wrong after the task state agreed: the kernel. *)
Definition kernel_error (e : EndpointError) : Prop :=
  (∃ x, is_drm x ∧ e = EpSyncobj x) ∨ (∃ x, e = EpIpc x).

(** The points of a frame were consumed, and nothing else of the task changed. *)
Definition points_consumed (ap rp : Z) (t t' : TaskEndpoint) : Prop :=
  ∃ l', cursors_upto ap rp l'
    ∧ t' = set_timelines (Some l') (set_state (set_points ap rp (te_state t)) t).

Lemma points_consumed_inv o ap rp t t' :
  te_inv o t → timelines_bound (te_state t) = true →
  last_acquire_point (te_state t) < ap → last_release_point (te_state t) < rp →
  points_consumed ap rp t t' → te_inv o t' ∧ same_identity t t'.
Proof.
  intros Ht Hb Ha Hr (l' & [Hc1 Hc2] & ->). destruct (te_timelines_bound _ _ Ht Hb) as [l Hl].
  split; [|done]. apply te_inv_timelines with l; try done.
  apply te_inv_quiet; [done|]. constructor; cbn; try done; try lia.
  apply set_points_inv; [|done..]. apply Ht.
Qed.

#[local] Arguments on_timelines : simpl never.
#[local] Arguments on_task : simpl never.

(** *** The superseded path *)

Definition superseded_tail (ap rp : Z) (msg : DenialMessage) : te_method (K := K) unit :=
  on_timelines (export_acquire_fence ap);;
  on_timelines (signal_release rp);;
  on_socket (send_denial msg).

Lemma on_timelines_some {A} (m : method (K * TaskTimelines) SyncobjError A) k t l :
  te_timelines t = Some l →
  on_timelines m (k, t) =
    ((m (k, l)).1.1, set_timelines (Some (m (k, l)).1.2) t, map_err EpSyncobj (m (k, l)).2).
Proof. intros Hl. unfold on_timelines; cbn. rewrite Hl. by destruct (m (k, l)) as [[k' l'] r]. Qed.

Lemma export_upto ap rp k l k' l' r :
  cursors_upto ap rp l → export_acquire_fence ap (k, l) = ((k', l'), r) → cursors_upto ap rp l'.
Proof.
  intros [H1 H2] [Er Ea]%export_acquire_cursor. split; [|by rewrite Er].
  rewrite Ea. destruct r; lia.
Qed.

Lemma signal_upto ap rp k l k' l' r :
  cursors_upto ap rp l → signal_release rp (k, l) = ((k', l'), r) → cursors_upto ap rp l'.
Proof.
  intros [H1 H2] [Ea Er]%signal_release_cursor. split; [by rewrite Ea|].
  rewrite Er. destruct r; lia.
Qed.

Lemma superseded_tail_outcome ap rp msg k t l k' t' r :
  te_timelines t = Some l → ap ≠ 0 → rp ≠ 0 →
  last_exported_point (tt_acquire l) < ap → materialized_cursor (tt_release l) < rp →
  superseded_tail ap rp msg (k, t) = ((k', t'), r) →
  (∃ l', cursors_upto ap rp l' ∧ t' = set_timelines (Some l') t)
  ∧ ∀ e, r = Err e → kernel_error e.
Proof.
  intros Hl Hap Hrp Ha Hr. assert (cursors_upto ap rp l) as Hup by (split; lia).
  unfold superseded_tail, mbind, method_bind. rewrite (on_timelines_some _ _ _ _ Hl).
  destruct (export_acquire_fence ap (k, l)) as [[k1 l1] [f|e]] eqn:E1; cbn.
  2:{ intros [= <- <- <-]. split; [by eexists; eauto using export_upto|].
      intros ? [= <-]. left. eexists. split; [|done]. by eapply export_acquire_fresh in E1. }
  rewrite (on_timelines_some _ _ (set_timelines (Some l1) t) l1) by done.
  pose proof (export_acquire_cursor _ _ _ _ _ _ E1) as [Erel _].
  destruct (signal_release rp (k1, l1)) as [[k2 l2] [u|e]] eqn:E2; cbn.
  2:{ intros [= <- <- <-]. split; [exists l2; split; [eauto using export_upto, signal_upto|done]|].
      intros ? [= <-]. left. eexists. split; [|done]. rewrite <- Erel in Hr.
      by eapply signal_release_fresh in E2. }
  unfold on_socket; cbn. destruct (send_denial msg k2) as [k3 r3]. intros [= <- <- <-]. split.
  - exists l2. eauto using export_upto, signal_upto.
  - destruct r3; intros ? [= <-]. right. eauto.
Qed.

(** *** All outcomes of a present *)

Inductive present_outcome (o f b n ap rp : Z) (d : list Damage) (t : TaskEndpoint)
  : TaskEndpoint → result EndpointError EndpointAction → Prop :=
| out_accepted l' fence :
    presentable o f b n ap rp d (te_state t) → cursors_upto ap rp l' →
    present_outcome o f b n ap rp d t
      (set_pending (<[f := mkAcceptedWire o f b ap rp d]> (te_pending t))
         (set_timelines (Some l') (set_state (presented f b ap rp (te_state t)) t)))
      (Ok (APresent (mkAcceptedWire o f b ap rp d) fence))
| out_cancelled t' e :
    presentable o f b n ap rp d (te_state t) → points_consumed ap rp t t' → is_drm e →
    present_outcome o f b n ap rp d t t' (Err (EpSyncobj e))
| out_discarded t' r :
    discardable o f b n ap rp (te_state t) → points_consumed ap rp t t' →
    (∀ a, r = Ok a → a = ASupersededPresentDiscarded o f) →
    (∀ e, r = Err e → kernel_error e) →
    present_outcome o f b n ap rp d t t' r
| out_rejected e :
    present_outcome o f b n ap rp d t t (Err (EpState e)).

Lemma set_state_same t : set_state (te_state t) t = t.
Proof. by destruct t. Qed.

Lemma present_task_outcome o f b n ap rp d k t k' t' r :
  te_inv o t → present_task o f b n ap rp d (k, t) = ((k', t'), r) →
  present_outcome o f b n ap rp d t t' r.
Proof.
  intros Ht. unfold present_task, mbind, method_bind. unfold attempt, on_state at 1; cbn.
  destruct (TaskState.present o f b n ap rp d (te_state t)) as [s1 [a|e]] eqn:Ep; cbn.
  - apply present_Ok in Ep as (Hp & -> & ->).
    destruct (te_timelines_bound _ _ Ht (pr_bound _ _ _ _ _ _ _ _ Hp)) as [l Hl].
    destruct (te_cursors _ _ Ht l Hl) as [Hc1 Hc2]. pose proof (ti_cursors _ (te_state_inv _ _ Ht)).
    pose proof (pr_acquire _ _ _ _ _ _ _ _ Hp). pose proof (pr_release _ _ _ _ _ _ _ _ Hp).
    assert (cursors_upto ap rp l) as Hup by (split; lia).
    rewrite (on_timelines_some _ _ _ l) by done.
    destruct (export_acquire_fence ap (k, l)) as [[k1 l1] [fence|e]] eqn:E1; cbn.
    + intros [= <- <- <-]. apply (out_accepted _ _ _ _ _ _ _ _ l1 fence); eauto using export_upto.
    + unfold on_state; cbn.
      rewrite (proj2 (cancel_iff f b rp _ (set_points ap rp (te_state t)) tt)); cbn.
      * intros [= <- <- <-]. apply out_cancelled; [done| |].
        { exists l1. eauto using export_upto. }
        { eapply export_acquire_fresh, E1; lia. }
      * split; [apply lookup_insert_eq|]. symmetry. by eapply retired_presented.
  - apply fail_safe in Ep as ->. rewrite set_state_same.
    destruct e; try (intros [= <- <- <-]; apply out_rejected). unfold on_state; cbn.
    destruct (discard_superseded_present o f b n ap rp (te_state t)) as [s2 [msg|e]] eqn:Ed; cbn;
      [|apply fail_safe in Ed as ->; rewrite set_state_same; intros [= <- <- <-]; apply out_rejected].
    apply discard_iff in Ed as (Hd & -> & ->).
    destruct (te_timelines_bound _ _ Ht (di_bound _ _ _ _ _ _ _ Hd)) as [l Hl].
    destruct (te_cursors _ _ Ht l Hl) as [Hc1 Hc2]. pose proof (ti_cursors _ (te_state_inv _ _ Ht)).
    pose proof (di_acquire _ _ _ _ _ _ _ Hd). pose proof (di_release _ _ _ _ _ _ _ Hd).
    pose proof (superseded_tail_outcome ap rp (BufferReleased o f b rp) k
      (set_state (set_points ap rp (te_state t)) t) l) as Htail.
    unfold superseded_tail, mbind, method_bind in Htail.
    destruct (on_timelines _ (k, _)) as [w1 [x1|e1]];
      [destruct (on_timelines _ w1) as [w2 [x2|e2]];
         [destruct (on_socket _ w2) as [w3 [x3|e3]]|]|]; intros [= -> <-];
      destruct (Htail k' t' _ Hl ltac:(lia) ltac:(lia) ltac:(lia) ltac:(lia) eq_refl)
        as [(l' & Hup & ->) He];
      (apply out_discarded; [done|by exists l'|intros ? [=]; done|intros ? [=]; subst; by apply He]).
Qed.

Lemma accepted_inv o f b n ap rp d t l' :
  te_inv o t → presentable o f b n ap rp d (te_state t) → cursors_upto ap rp l' →
  te_inv o (set_pending (<[f := mkAcceptedWire o f b ap rp d]> (te_pending t))
              (set_timelines (Some l') (set_state (presented f b ap rp (te_state t)) t))).
Proof.
  intros [] Hp [Hc1 Hc2]. constructor; cbn; try done.
  - by eapply presented_inv.
  - by rewrite fmap_insert, te_frames0.
  - intros f' a [[<- <-]|[_ Hf]]%lookup_insert_Some; eauto.
  - destruct Hp. split; intros; [done | by eexists].
  - by intros l [= <-].
  - intros _. apply insert_non_empty.
Qed.

#[local] Instance present_te o f b n ap rp d : TeKeeps o (present_task o f b n ap rp d).
Proof.
  intros [k t] Ht. destruct (present_task _ _ _ _ _ _ _ _) as [[k' t'] r] eqn:E; cbn in *.
  apply present_task_outcome in E; [|done]. destruct E as [l' fence Hp Hc|t' e Hp Hc _|t' r Hd Hc _ _|e].
  - split; [|done]. by eapply accepted_inv.
  - destruct Hp. by eapply points_consumed_inv.
  - destruct Hd. by eapply points_consumed_inv.
  - done.
Qed.

(** ** Releasing *)

Definition released (f : FrameId) (a : AcceptedWireFrame) (t : TaskEndpoint) : TaskEndpoint :=
  set_pending (delete f (te_pending t)) (set_state (retired f (aw_buffer a) (te_state t)) t).

Lemma te_pending_in_flight o t f a :
  te_inv o t → te_pending t !! f = Some a → in_flight (te_state t) !! f = Some (wire_tuple a).
Proof. intros Ht Hf. rewrite <- (te_frames _ _ Ht), lookup_fmap, Hf. done. Qed.

(** A pending frame can always be released: the task state agrees. *)
Lemma release_task_run o f (k : K) t a :
  te_inv o t → te_pending t !! f = Some a →
  release_task o f (k, t) =
    (k, released f a t,
     Ok (BufferReleased o f (aw_buffer a) (aw_release_point a), te_retiring t,
         te_retiring t && Nat.eqb (in_flight_count (te_state (released f a t))) 0)).
Proof.
  intros Ht Hf. unfold release_task, mbind, method_bind, get, lift; cbn. rewrite Hf; cbn.
  unfold on_state; cbn.
  erewrite (proj2 (release_iff f (aw_buffer a) (aw_release_point a) (te_state t) _ _));
    [|split_and!; [by eapply te_pending_in_flight | done | done]].
  unfold released, update_task, modify, mret, method_ret; cbn. by rewrite (te_object _ _ Ht).
Qed.

Lemma release_task_unknown o f (k : K) t :
  te_pending t !! f = None → release_task o f (k, t) = (k, t, Err (EpUnknownFrame o f)).
Proof. intros Hf. unfold release_task, mbind, method_bind, get, lift; cbn. by rewrite Hf. Qed.

Lemma released_inv o f a t :
  te_inv o t → te_pending t !! f = Some a →
  (te_retiring t = true → in_flight (te_state (released f a t)) ≠ ∅) → te_inv o (released f a t).
Proof.
  intros Ht Hf Hne. pose proof (te_pending_in_flight _ _ _ _ Ht Hf) as Hin. destruct Ht.
  constructor; cbn; try done.
  - by eapply retired_inv.
  - by rewrite fmap_delete, te_frames0.
  - intros f' a' [_ Hf']%lookup_delete_Some. eauto.
Qed.

Lemma in_flight_count_zero s : Nat.eqb (in_flight_count s) 0 = true ↔ in_flight s = ∅.
Proof. unfold in_flight_count. by rewrite Nat.eqb_eq, map_size_empty_iff. Qed.

Definition forget_task (o : TaskObjectId) (d : DenialEndpoint) : DenialEndpoint :=
  set_tasks (delete o (tasks d)) d.

(** The endpoint after a frame was released: a drained retiring task is gone. *)
Definition after_release (o f : Z) (t : TaskEndpoint) (a : AcceptedWireFrame) (d : DenialEndpoint)
  : DenialEndpoint :=
  if te_retiring t && Nat.eqb (in_flight_count (te_state (released f a t))) 0
  then forget_task o d else set_tasks (<[o := released f a t]> (tasks d)) d.

Lemma finish_release_run o f (k : K) d t a :
  ep_inv d → tasks d !! o = Some t → te_pending t !! f = Some a →
  finish_release o f (k, d) =
    (if te_retiring t then (k, after_release o f t a d, Ok tt)
     else let '(k', r) := send_denial (BufferReleased o f (aw_buffer a) (aw_release_point a)) k in
          (k', after_release o f t a d, map_err EpIpc r)).
Proof.
  intros Hd Ht Hf. unfold finish_release, mbind at 1, method_bind at 1.
  rewrite (on_task_some _ _ _ _ _ Ht), (release_task_run _ _ _ _ a) by (done || by apply (ep_tasks _ Hd)).
  cbn. unfold after_release, forget_task. unfold mbind, method_bind.
  destruct (te_retiring t); cbn.
  - destruct (Nat.eqb _ 0); cbn; [|done]. by rewrite delete_insert_eq.
  - unfold on_socket; cbn. by destruct (send_denial _ k).
Qed.

Lemma after_release_inv o f t a d :
  ep_inv d → tasks d !! o = Some t → te_pending t !! f = Some a →
  ep_inv (after_release o f t a d).
Proof.
  intros Hd Ht Hf. pose proof (ep_tasks _ Hd _ _ Ht) as Hi. unfold after_release.
  destruct (te_retiring t && _) eqn:E; [by apply ep_inv_delete|].
  eapply ep_inv_update; [done|done| |done]. apply released_inv; [done|done|].
  intros Hr Hz%in_flight_count_zero. rewrite Hr, Bool.andb_true_l in E. congruence.
Qed.

#[global] Instance finish_release_ep o f : EpKeeps (finish_release (K := K) o f).
Proof.
  intros [k d] Hd; cbn in *. destruct (tasks d !! o) as [t|] eqn:Ht.
  2:{ unfold finish_release, mbind at 1, method_bind at 1. by rewrite on_task_none. }
  destruct (te_pending t !! f) as [a|] eqn:Hf.
  - rewrite (finish_release_run _ _ _ _ t a) by done.
    destruct (te_retiring t); [|destruct (send_denial _ k)]; by apply after_release_inv.
  - unfold finish_release, mbind at 1, method_bind at 1.
    rewrite (on_task_some _ _ _ _ _ Ht), release_task_unknown by done; cbn.
    by rewrite insert_id, set_tasks_same.
Qed.

(** ** The other operations *)

#[local] Instance track_te (g : gset FrameId → gset FrameId) o :
  (∀ p, Z.of_nat (size p) ≤ 64 → Z.of_nat (size (g p)) ≤ 64) →
  TeKeeps o (update_task (λ t, set_presentation (g (te_presentation_frames t)) t)).
Proof.
  intros Hg [k t] Ht; cbn in *. split; [|done]. apply te_inv_presentation; [done|]. apply Hg, Ht.
Qed.

Lemma size_remove (f : FrameId) (p : gset FrameId) :
  Z.of_nat (size p) ≤ 64 → Z.of_nat (size (p ∖ {[f]})) ≤ 64.
Proof.
  intros Hp. assert (size (p ∖ {[f]}) ≤ size p)%nat; [|lia].
  apply subseteq_size. intros x [Hx _]%elem_of_difference. done.
Qed.

#[global] Instance track_presentation_ep o f : EpKeeps (track_presentation (K := K) o f).
Proof.
  unfold track_presentation. apply on_task_keeps. intros [k t] Ht.
  unfold mbind, method_bind, get, reject; cbn. destruct (negb _); [done|]; cbn.
  destruct (Z.leb_spec 64 (Z.of_nat (size (te_presentation_frames t)))); [done|]; cbn.
  split; [|done]. apply te_inv_presentation; [done|].
  assert (size ({[f]} ∪ te_presentation_frames t) ≤ 1 + size (te_presentation_frames t))%nat; [|lia].
  rewrite size_union_alt, size_singleton.
  assert (size (te_presentation_frames t ∖ {[f]}) ≤ size (te_presentation_frames t))%nat; [|lia].
  apply subseteq_size. intros x [Hx _]%elem_of_difference. done.
Qed.

#[global] Instance forget_presentation_ep o f : EpKeeps (forget_presentation (K := K) o f).
Proof.
  unfold forget_presentation.
  apply EpKeeps_bind; [|intros; apply EpKeeps_keeps; apply _].
  apply EpKeeps_attempt, on_task_keeps, (track_te (λ p, p ∖ {[f]})). apply size_remove.
Qed.

#[global] Instance send_presented_ep o f a b c e : EpKeeps (send_presented (K := K) o f a b c e).
Proof.
  unfold send_presented. apply EpKeeps_bind; [|intros []; apply EpKeeps_keeps; apply _].
  apply on_task_keeps. apply TeKeeps_bind; [apply TeKeeps_keeps; apply _|intros w].
  apply TeKeeps_bind; [|intros; apply TeKeeps_keeps; apply _].
  apply (track_te (λ p, p ∖ {[f]})). apply size_remove.
Qed.

#[global] Instance discard_frame_ep o f : EpKeeps (discard_frame (K := K) o f).
Proof.
  unfold discard_frame. repeat (apply EpKeeps_bind; [apply EpKeeps_keeps; apply _|intros]). apply _.
Qed.

Lemma update_endpoint_ep (g : DenialEndpoint → DenialEndpoint) :
  (∀ d, ep_inv d → ep_inv (g d)) → EpKeeps (update_endpoint (K := K) g).
Proof. intros Hg [k d] Hd. by apply Hg. Qed.

#[global] Instance client_hello_ep a b c : EpKeeps (client_hello (K := K) a b c).
Proof.
  unfold client_hello. do 3 (apply EpKeeps_bind; [apply EpKeeps_keeps; apply _|intros]).
  apply EpKeeps_bind; [apply update_endpoint_ep; intros d []; by constructor|intros].
  do 2 (apply EpKeeps_bind; [apply EpKeeps_keeps; apply _|intros]).
  apply EpKeeps_bind; [apply update_endpoint_ep; intros d []; by constructor|intros].
  apply EpKeeps_keeps; apply _.
Qed.

Lemma any_task_false (g : TaskEndpoint → bool) d :
  any_task g d = false → ∀ o t, tasks d !! o = Some t → g t = false.
Proof.
  unfold any_task. intros E o t Ht. rewrite <- Bool.not_true_iff_false in *. intros Hg. apply E.
  apply existsb_exists. exists (o, t). split; [|done]. by apply list_elem_of_In, elem_of_map_to_list.
Qed.

Definition fresh_task (display : AndroidDisplayId) (s : TaskPresentationState) : TaskEndpoint :=
  mkTE None display s None ∅ ∅ false.

Lemma fresh_task_inv o display s : task_new o = Ok s → te_inv o (fresh_task display s).
Proof.
  intros Hn. pose proof (task_new_inv _ _ Hn) as Hs. unfold task_new in Hn. inv_ok. subst.
  constructor; cbn; done.
Qed.

(** Creating a task keeps the invariant on a live connection. *)
Lemma create_task_ep o display pkg (k : K) d :
  ep_inv d → ready d = true → ep_inv (create_task o display pkg (k, d)).1.2.
Proof.
  intros Hd Hready. unfold create_task, mbind, method_bind, get, reject, lift; cbn.
  destruct (MAX_TASK_OBJECTS <=? _) eqn:Hcap; [done|]; cbn.
  destruct (bool_decide _ || _) eqn:Hdup; [done|]; cbn. reflect. destruct Hdup as [Hnew Hdisp].
  rewrite not_is_Some_None in Hnew.
  destruct (task_new o) as [s|e] eqn:Hs; cbn; [|done].
  pose proof (any_task_false _ _ Hdisp) as Hfree. clear Hdisp.
  pose proof (fresh_task_inv o display s Hs) as Hfresh. destruct Hd. constructor; cbn; [| | | |congruence].
  - intros o' t [[<- <-]|[_ Ht]]%lookup_insert_Some; eauto.
  - intros o1 o2 t1 t2 [[<- <-]|[_ H1]]%lookup_insert_Some [[<- <-]|[_ H2]]%lookup_insert_Some E;
      cbn in *; try done; [| |by eauto].
    + apply Hfree in H2. by apply Z.eqb_neq in H2.
    + apply Hfree in H1. by apply Z.eqb_neq in H1.
  - intros o1 o2 t1 t2 a [[<- <-]|[_ H1]]%lookup_insert_Some [[<- <-]|[_ H2]]%lookup_insert_Some;
      cbn; try done. eauto.
  - rewrite map_size_insert_None by done. unfold MAX_TASK_OBJECTS in *. lia.
Qed.

Lemma bind_task_inv o a d t :
  ep_inv d → tasks d !! o = Some t → any_task (λ t, bool_decide (te_task t = Some a)) d = false →
  ep_inv (set_tasks (<[o := set_android_task a t]> (tasks d)) d).
Proof.
  intros Hd Ht Hfree. pose proof (any_task_false _ _ Hfree) as Hno. clear Hfree.
  assert (∀ o' u, tasks d !! o' = Some u → te_task u ≠ Some a) as Hno'.
  { intros o' u Hu%Hno. by apply bool_decide_eq_false in Hu. }
  destruct Hd. constructor; cbn.
  - intros o' u [[<- <-]|[_ Hu]]%lookup_insert_Some; [|eauto].
    destruct (ep_tasks0 _ _ Ht). by constructor.
  - intros o1 o2 t1 t2 [[<- <-]|[_ H1]]%lookup_insert_Some [[<- <-]|[_ H2]]%lookup_insert_Some;
      cbn; try done; eauto.
  - intros o1 o2 t1 t2 a' [[<- <-]|[_ H1]]%lookup_insert_Some [[<- <-]|[_ H2]]%lookup_insert_Some;
      cbn; try done; [| |by eauto]; intros; simplify_eq; exfalso; by eapply Hno'.
  - rewrite map_size_insert, Ht. cbn. lia.
  - intros E. rewrite (ep_handshake0 E), lookup_empty in Ht. done.
Qed.

#[global] Instance bind_task_ep o a : EpKeeps (bind_task (K := K) o a).
Proof.
  intros [k d] Hd. unfold bind_task, mbind at 1 2, method_bind at 1 2, get, reject at 1; cbn.
  destruct (any_task _ d) eqn:Hfree; [done|]. cbn. unfold mbind at 1, method_bind at 1.
  destruct (tasks d !! o) as [t|] eqn:Ht; [|by rewrite on_task_none].
  rewrite (on_task_some _ _ _ _ _ Ht). unfold mbind, method_bind, get, reject, update_task, modify; cbn.
  destruct (bool_decide _); cbn.
  - by rewrite insert_id, set_tasks_same.
  - by apply bind_task_inv.
Qed.

Lemma retiring_inv o t :
  te_inv o t → in_flight (te_state t) ≠ ∅ → te_inv o (set_retiring t).
Proof. intros [] ?. by constructor. Qed.

Lemma destroy_task_run o (k : K) d t :
  tasks d !! o = Some t →
  destroy_task o (k, d) =
    (k, if Nat.eqb (in_flight_count (te_state t)) 0 then forget_task o d
        else set_tasks (<[o := set_retiring t]> (tasks d)) d, Ok (ADestroyTask o)).
Proof.
  intros Ht. unfold destroy_task, mbind at 1, method_bind at 1. rewrite (on_task_some _ _ _ _ _ Ht).
  unfold mbind, method_bind, get, update_task, modify, mret, method_ret; cbn.
  destruct (Nat.eqb _ 0); cbn; [|done]. unfold forget_task. by rewrite delete_insert_eq.
Qed.

#[global] Instance destroy_task_ep o : EpKeeps (destroy_task (K := K) o).
Proof.
  intros [k d] Hd; cbn in *. destruct (tasks d !! o) as [t|] eqn:Ht.
  - rewrite (destroy_task_run _ _ _ _ Ht); cbn. destruct (Nat.eqb _ 0) eqn:E; [by apply ep_inv_delete|].
    eapply ep_inv_update; [done|done| |done]. apply retiring_inv; [by apply (ep_tasks _ Hd)|].
    intros Hz%in_flight_count_zero. congruence.
  - unfold destroy_task, mbind at 1, method_bind at 1. by rewrite on_task_none.
Qed.

Lemma import_timeline_zero f (k k' : K) t :
  import_timeline f k = (k', Ok t) → last_exported_point t = 0 ∧ materialized_cursor t = 0.
Proof. unfold import_timeline. intros (k1 & h & _ & [_ <-]%m_ret_Ok)%m_bind_Ok. done. Qed.

Lemma denial_import_zero a r (k k' : K) l :
  denial_import a r k = (k', Ok l) → cursors_upto 0 0 l.
Proof.
  unfold denial_import. intros (k1 & ta & [Ha _]%import_timeline_zero & Hr)%m_bind_Ok.
  apply m_bind_Ok in Hr as (k2 & tr & [_ Hb]%import_timeline_zero & [_ <-]%m_ret_Ok).
  split; cbn; lia.
Qed.

Lemma bind_body_te o l :
  cursors_upto 0 0 l →
  TeKeeps o (on_state TaskState.bind_timelines;; update_task (set_timelines (Some l))).
Proof.
  intros [Hl1 Hl2] [k t] Ht; cbn in *. unfold mbind, method_bind, on_state; cbn.
  destruct (TaskState.bind_timelines (te_state t)) as [s' [u|e]] eqn:E; cbn.
  - unfold TaskState.bind_timelines in E. inv_method. split; [|done]. destruct Ht.
    pose proof (ti_cursors _ te_state_inv0). constructor; cbn; try done.
    + by apply bound_inv.
    + intros ? [= <-]. lia.
  - apply fail_safe in E as ->. rewrite set_state_same. done.
Qed.

#[global] Instance bind_timelines_ep o ds : EpKeeps (bind_timelines (K := K) o ds).
Proof.
  intros [k d] Hd. unfold bind_timelines, mbind, method_bind, lift; cbn.
  destruct (take_descriptor ds AcquireTimeline) as [[a rest]|e]; cbn; [|done].
  destruct (take_descriptor rest ReleaseTimeline) as [[r rest']|e]; cbn; [|done].
  destruct (denial_import a r k) as [k1 [l|e]] eqn:E; cbn; [|done].
  pose proof (on_task_keeps o _ (bind_body_te o l (denial_import_zero _ _ _ _ _ E)) (k1, d) Hd) as Hk.
  unfold mbind, method_bind in Hk. destruct (on_task o _ (k1, d)) as [w' [u|e]]; done.
Qed.

Ltac ep_auto := repeat first
  [ apply EpKeeps_keeps; apply _ | apply _ | apply EpKeeps_bind; [|intros] | case_match ].

#[global] Instance register_buffer_ep o b ds : EpKeeps (register_buffer (K := K) o b ds).
Proof. unfold register_buffer. ep_auto. Qed.
#[global] Instance present_ep o f b n ap rp d : EpKeeps (present (K := K) o f b n ap rp d).
Proof. unfold present. apply _. Qed.
#[global] Instance register_render_target_ep o n b ps : EpKeeps (register_render_target (K := K) o n b ps).
Proof. unfold register_render_target. ep_auto. Qed.
#[global] Instance unregister_render_target_ep o b : EpKeeps (unregister_render_target (K := K) o b).
Proof. unfold unregister_render_target. ep_auto. Qed.

Lemma ep_run {A} (m : ep_method (K := K) A) w :
  EpKeeps m → ep_inv w.2 → ep_inv (m w).1.2.
Proof. intros Hm. apply Hm. Qed.

Definition needs_handshake (d : DenialEndpoint) (m : AndroidMessage) : bool :=
  negb (ready d) && match m with ClientHello _ _ _ => false | _ => true end.

Lemma reduce_run received (w : K * DenialEndpoint) :
  reduce received w =
    if needs_handshake w.2 (rm_message received) then (w, Err HandshakeRequired)
    else dispatch w.2 received w.
Proof.
  unfold reduce, needs_handshake, mbind, method_bind, get, reject. by destruct (negb _ && _).
Qed.

Lemma reduce_ep received : EpKeeps (reduce (K := K) received).
Proof.
  intros [k d] Hd. rewrite reduce_run. destruct (needs_handshake _ _) eqn:Hguard; [done|].
  unfold dispatch, needs_handshake in *. destruct (rm_message received) eqn:Hm; try solve [apply ep_run; [ep_auto|done]].
  - apply create_task_ep; [done|]. cbn in Hguard. by destruct (ready d).
Qed.

#[global] Instance receive_action_ep : EpKeeps (receive_action (K := K)).
Proof. apply EpKeeps_bind; [apply EpKeeps_keeps; apply _|]. intros r. apply reduce_ep. Qed.

(** ** Sequences of calls *)

Inductive ep_op : Type :=
| EpReceive
| EpRequestInputChannel (generation : Z)
| EpFormatFeedback (obj : TaskObjectId) (generation : Z) (formats : list FormatModifier)
| EpRegisterTarget (obj : TaskObjectId) (serial : Z) (buffer : BufferMetadata) (planes : list fd)
| EpUnregisterTarget (obj : TaskObjectId) (buffer : BufferId)
| EpConfigure (obj : TaskObjectId) (serial width height num den : Z) (transform : Transform)
    (refresh : Z)
| EpVisibility (obj : TaskObjectId) (visibility : Visibility) (focused : bool)
| EpDisplayPower (powered : bool)
| EpClose (obj : TaskObjectId)
| EpInput (obj : TaskObjectId) (serial timestamp : Z) (event : InputEvent)
| EpMaterialize (obj : TaskObjectId) (frame : FrameId)
| EpDiscard (obj : TaskObjectId) (frame : FrameId)
| EpFinish (obj : TaskObjectId) (frame : FrameId)
| EpFrameGrant (latch target period : Z)
| EpScenePresented (obj : TaskObjectId) (scene timestamp refresh sequence : Z)
| EpTrack (obj : TaskObjectId) (frame : FrameId)
| EpForget (obj : TaskObjectId) (frame : FrameId)
| EpPresented (obj : TaskObjectId) (frame : FrameId) (timestamp refresh sequence flags : Z)
| EpFatal (obj : option TaskObjectId) (code : ProtocolErrorCode) (opcode : Z)
    (message : rust_string).

(** One call of the public interface; [Some a] is a received action. *)
Definition ep_exec (op : ep_op) : ep_method (K := K) (option EndpointAction) :=
  match op with
  | EpReceive => a ← receive_action; mret (Some a)
  | EpRequestInputChannel g => request_input_channel g;; mret None
  | EpFormatFeedback o g fs => send_format_feedback o g fs;; mret None
  | EpRegisterTarget o n b ps => register_render_target o n b ps;; mret None
  | EpUnregisterTarget o b => unregister_render_target o b;; mret None
  | EpConfigure o n w h sn sd tr r => send_configure o n w h sn sd tr r;; mret None
  | EpVisibility o v f => send_visibility o v f;; mret None
  | EpDisplayPower p => send_display_power p;; mret None
  | EpClose o => send_close o;; mret None
  | EpInput o s t e => send_input o s t e;; mret None
  | EpMaterialize o f => materialize_release o f;; mret None
  | EpDiscard o f => discard_frame o f;; mret None
  | EpFinish o f => finish_release o f;; mret None
  | EpFrameGrant a b c => send_frame_grant a b c;; mret None
  | EpScenePresented o a b c e => send_scene_presented o a b c e;; mret None
  | EpTrack o f => track_presentation o f;; mret None
  | EpForget o f => forget_presentation o f;; mret None
  | EpPresented o f a b c e => send_presented o f a b c e;; mret None
  | EpFatal o c n m => send_fatal o c n m;; mret None
  end.

#[local] Instance ep_exec_keeps op : EpKeeps (ep_exec op).
Proof.
  destruct op; cbn; unfold request_input_channel, send_format_feedback, send_configure,
    send_visibility, send_display_power, send_close, send_input, materialize_release,
    send_frame_grant, send_scene_presented, send_fatal; ep_auto.
Qed.

(** ** Ownership seen from the connection *)

Definition te_held (w : K * TaskEndpoint) : gmap FrameId BufferId :=
  pw_buffer <$> in_flight (te_state w.2).

(** The frames of one object that the host holds. *)
Definition held (o : TaskObjectId) (w : K * DenialEndpoint) : gmap FrameId BufferId :=
  match tasks w.2 !! o with
  | Some t => pw_buffer <$> in_flight (te_state t)
  | None => ∅
  end.

Lemma snd_held {A} o (m : ep_method (K := K) A) : Keeps snd m → Keeps (held o) m.
Proof. intros Hm w. unfold held. pose proof (Hm w) as E. cbn in E. by rewrite E. Qed.

Lemma snd_te_held {A} (m : te_method (K := K) A) : Keeps snd m → Keeps te_held m.
Proof. intros Hm w. unfold te_held. pose proof (Hm w) as E. cbn in E. by rewrite E. Qed.

#[local] Instance on_task_held {A} o o' (m : te_method (K := K) A) :
  Keeps te_held m → Keeps (held o) (on_task o' m).
Proof.
  intros Hm [k d]. destruct (tasks d !! o') as [t|] eqn:Ht; [|by rewrite on_task_none].
  rewrite (on_task_some _ _ _ _ _ Ht). unfold held; cbn. rewrite lookup_insert.
  destruct (decide (o' = o)) as [->|]; [|done]. rewrite Ht. apply (Hm (k, t)).
Qed.

Lemma quiet_held {A} op (m : task_method A) :
  (∀ s, (m s).1 = task_run op s) → quiet_op op → Keeps te_held (on_state (K := K) m).
Proof.
  intros Hm Hq [k t]. unfold on_state, te_held; cbn. specialize (Hm (te_state t)).
  destruct (m (te_state t)) as [s' r]; cbn in *. subst. f_equal.
  unfold task_run. destruct (task_exec op (te_state t)) as [s2 [u|e]] eqn:E; cbn.
  - apply task_exec_frames in E. by destruct op.
  - by apply fail_safe in E as ->.
Qed.

#[local] Instance feedback_held g fs : Keeps te_held (on_state (replace_feedback g fs)).
Proof. by apply (quiet_held (TsReplaceFeedback g fs)). Qed.
#[local] Instance configure_held n w h r : Keeps te_held (on_state (configure n w h r)).
Proof. by apply (quiet_held (TsConfigure n w h r)). Qed.
#[local] Instance acknowledge_held n : Keeps te_held (on_state (acknowledge_configure n)).
Proof. by apply (quiet_held (TsAcknowledge n)). Qed.
#[local] Instance register_held m : Keeps te_held (on_state (TaskState.register_buffer m)).
Proof. by apply (quiet_held (TsRegister m)). Qed.
#[local] Instance unregister_held b : Keeps te_held (on_state (unregister_buffer b)).
Proof. apply (quiet_held (TsUnregister b)); [|done]. intros s. symmetry. apply forget_run. Qed.
#[local] Instance bind_held : Keeps te_held (on_state TaskState.bind_timelines).
Proof.
  intros [k t]. unfold on_state, te_held; cbn.
  destruct (TaskState.bind_timelines (te_state t)) as [s' [u|e]] eqn:E; cbn.
  - unfold TaskState.bind_timelines in E. by inv_method.
  - by apply fail_safe in E as ->.
Qed.

Lemma update_task_held (f : TaskEndpoint → TaskEndpoint) :
  (∀ t, te_state (f t) = te_state t) → Keeps te_held (update_task (K := K) f).
Proof. intros Hf [k t]. unfold te_held; cbn. by rewrite Hf. Qed.

#[local] Hint Resolve snd_held snd_te_held : typeclass_instances.

Ltac held_auto := repeat first
  [ apply _ | by apply update_task_held | apply on_task_held | apply attempt_keeps
  | apply Keeps_bind; [|intros] | case_match ].

#[local] Instance track_held o o' f : Keeps (held o) (track_presentation o' f).
Proof. unfold track_presentation. held_auto. Qed.
#[local] Instance forget_held o o' f : Keeps (held o) (forget_presentation o' f).
Proof. unfold forget_presentation. held_auto. Qed.
#[local] Instance presented_held o o' f a b c e : Keeps (held o) (send_presented o' f a b c e).
Proof. unfold send_presented. held_auto. Qed.
#[local] Instance register_target_held o o' n b ps : Keeps (held o) (register_render_target o' n b ps).
Proof. unfold register_render_target. held_auto. Qed.
#[local] Instance unregister_target_held o o' b : Keeps (held o) (unregister_render_target o' b).
Proof. unfold unregister_render_target. held_auto. Qed.
#[local] Instance register_buffer_held o o' b ds : Keeps (held o) (register_buffer o' b ds).
Proof. unfold register_buffer. held_auto. Qed.
#[local] Instance bind_task_held o o' a : Keeps (held o) (bind_task o' a).
Proof. unfold bind_task. held_auto. Qed.
#[local] Instance bind_timelines_held o o' ds : Keeps (held o) (bind_timelines o' ds).
Proof.
  unfold bind_timelines. apply Keeps_bind; [apply _|intros [a rest]].
  apply Keeps_bind; [apply _|intros [r rest']]. apply Keeps_bind; [|intros l; held_auto].
  apply snd_held. intros [k d]; cbn. by destruct (denial_import a r k).
Qed.
#[local] Instance client_hello_held o a b c : Keeps (held o) (client_hello a b c).
Proof. unfold client_hello. held_auto; intros [k d]; done. Qed.

#[local] Instance create_task_held o o' display pkg : Keeps (held o) (create_task o' display pkg).
Proof.
  intros [k d]. unfold create_task, mbind, method_bind, get, reject, lift; cbn.
  destruct (MAX_TASK_OBJECTS <=? _); [done|]; cbn.
  destruct (bool_decide _) eqn:Hnew; [done|]; cbn. destruct (any_task _ d); [done|]; cbn.
  reflect. rewrite not_is_Some_None in Hnew.
  destruct (task_new o') as [s|e] eqn:Hs; [|done]. unfold held; cbn. rewrite lookup_insert.
  destruct (decide (o' = o)) as [->|]; [|done]. rewrite Hnew; cbn.
  unfold task_new in Hs. inv_ok. subst; cbn. apply fmap_empty.
Qed.

#[local] Instance destroy_task_held o o' : Keeps (held o) (destroy_task o').
Proof.
  intros [k d]. destruct (tasks d !! o') as [t|] eqn:Ht.
  2:{ unfold destroy_task, mbind at 1, method_bind at 1. by rewrite on_task_none. }
  rewrite (destroy_task_run _ _ _ _ Ht). unfold held; cbn.
  destruct (Nat.eqb _ 0) eqn:E; cbn.
  - rewrite lookup_delete. destruct (decide (o' = o)) as [->|]; [|done]. rewrite Ht.
    apply in_flight_count_zero in E as ->. by rewrite fmap_empty.
  - rewrite lookup_insert. destruct (decide (o' = o)) as [->|]; [|done]. by rewrite Ht.
Qed.

(** What the compositor learns from a received action about object [o]. *)
Definition action_event (o : TaskObjectId) (r : result EndpointError EndpointAction) : own_event :=
  match r with
  | Ok (APresent a _) =>
      if aw_object a =? o then Acquired (aw_frame a) (aw_buffer a) else Quiet
  | _ => Quiet
  end.

Class NoPresent (m : ep_method (K := K) EndpointAction) : Prop :=
  no_present o w : action_event o (m w).2 = Quiet.

#[local] Instance NoPresent_bind {A} (m : ep_method (K := K) A) f :
  (∀ a, NoPresent (f a)) → NoPresent (m ≫= f).
Proof.
  intros Hf o w. unfold mbind, method_bind. destruct (m w) as [w1 [a|e]]; [apply Hf | done].
Qed.

Lemma quiet_refines o m w :
  Keeps (held o) m → NoPresent m →
  own_step (held o w) (action_event o (m w).2) (held o (m w).1).
Proof. intros Hk Hn. rewrite (Hk w), (Hn o w). constructor. Qed.

Lemma held_presentable (o o' : Z) f b n ap rp d t (k : K) de :
  te_inv o' t → tasks de !! o' = Some t → presentable o' f b n ap rp d (te_state t) →
  held o (k, de) = (if decide (o' = o) then pw_buffer <$> in_flight (te_state t) else held o (k, de))
  ∧ in_flight (te_state t) !! f = None
  ∧ (∀ f' p, in_flight (te_state t) !! f' = Some p → pw_buffer p ≠ b).
Proof.
  intros Ht Hl Hp. split_and!; [|by destruct Hp|].
  - destruct (decide (o' = o)) as [->|]; [|done]. unfold held; cbn. by rewrite Hl.
  - intros f' p Hf E. apply (pr_idle _ _ _ _ _ _ _ _ Hp), (ti_busy _ (te_state_inv _ _ Ht)). eauto.
Qed.

Lemma present_refines o o' f b n ap rp d w :
  ep_inv w.2 →
  own_step (held o w) (action_event o (present o' f b n ap rp d w).2)
    (held o (present o' f b n ap rp d w).1).
Proof.
  destruct w as [k de]; cbn. intros Hd. unfold present.
  destruct (tasks de !! o') as [t|] eqn:Hl; [|rewrite on_task_none by done; constructor].
  rewrite (on_task_some _ _ _ _ _ Hl). pose proof (ep_tasks _ Hd _ _ Hl) as Ht.
  destruct (present_task o' f b n ap rp d (k, t)) as [[k' t'] r] eqn:E; cbn.
  apply present_task_outcome in E; [|done].
  assert (∀ t2, in_flight (te_state t2) = in_flight (te_state t) →
    held o (k', set_tasks (<[o':=t2]> (tasks de)) de) = held o (k, de)) as Hsame.
  { intros t2 E2. unfold held; cbn. rewrite lookup_insert.
    destruct (decide (o' = o)) as [->|]; [|done]. by rewrite Hl, E2. }
  destruct E as [l' fence Hp _|t' e _ (l' & _ & ->) _|t' r _ (l' & _ & ->) Hr _|e].
  - destruct (held_presentable o _ _ _ _ _ _ _ _ k _ Ht Hl Hp) as (Eh & Hnew & Hfree). cbn.
    destruct (Z.eqb_spec o' o) as [->|Hne].
    + unfold held; cbn. rewrite Hl, lookup_insert_eq. cbn. rewrite fmap_insert. cbn.
      constructor; [by rewrite lookup_fmap, Hnew|].
      intros f' (p & Hb & Hp')%lookup_fmap_Some. by eapply Hfree.
    + unfold held at 2; cbn. rewrite lookup_insert_ne by done. constructor.
  - rewrite Hsame by done. constructor.
  - rewrite Hsame by done. destruct r as [a|e]; [rewrite (Hr a) by done|]; constructor.
  - rewrite Hsame by done. constructor.
Qed.

Lemma reduce_refines o received w :
  ep_inv w.2 →
  own_step (held o w) (action_event o (reduce received w).2) (held o (reduce received w).1).
Proof.
  intros Hw. rewrite reduce_run. destruct (needs_handshake _ _); [constructor|].
  unfold dispatch. destruct (rm_message received); try (by apply present_refines);
    try (apply quiet_refines; [held_auto|]; unfold client_hello, create_task, bind_task,
      destroy_task, bind_timelines, register_buffer, bind_input_channel;
      repeat first [apply NoPresent_bind; intros | case_match]; done).
Qed.

(** The event of a call: a release of a frame that is pending retires it, whether
    or not the notification can be sent. *)
Definition ep_event (o : TaskObjectId) (op : ep_op) (w : K * DenialEndpoint) : own_event :=
  match op with
  | EpReceive => action_event o (receive_action w).2
  | EpFinish o' f | EpDiscard o' f =>
      if o' =? o then
        match tasks w.2 !! o with
        | Some t => match te_pending t !! f with
                    | Some a => Retired f (aw_buffer a)
                    | None => Quiet
                    end
        | None => Quiet
        end
      else Quiet
  | _ => Quiet
  end.

Definition ep_owner (o : TaskObjectId) : BufferOwner (K * DenialEndpoint) ep_op := {|
  owner_run op w := (ep_exec op w).1;
  owner_event := ep_event o;
  owner_abs := held o;
  owner_inv w := ep_inv w.2
|}.

Lemma forget_fst {A B} (m : ep_method (K := K) A) (g : A → B) w :
  ((a ← m; mret (g a)) w).1 = (m w).1.
Proof. unfold mbind, method_bind. by destruct (m w) as [w' [a|e]]. Qed.

Lemma receive_refines o w :
  ep_inv w.2 →
  own_step (held o w) (action_event o (receive_action w).2) (held o (receive_action w).1).
Proof.
  intros Hw. unfold receive_action, mbind, method_bind, on_socket.
  destruct (receive_android_into _ w.1) as [k' [received|e]]; cbn; [|constructor].
  apply (reduce_refines o received (k', w.2) Hw).
Qed.

Lemma finish_refines o o' f w :
  ep_inv w.2 →
  own_step (held o w) (ep_event o (EpFinish o' f) w) (held o (finish_release o' f w).1).
Proof.
  destruct w as [k d]; cbn. intros Hd.
  assert (∀ d', tasks d' !! o = tasks d !! o → held o (k, d') = held o (k, d)) as Heq.
  { intros d' E. unfold held; cbn. by rewrite E. }
  destruct (tasks d !! o') as [t|] eqn:Ht.
  2:{ unfold finish_release, mbind at 1, method_bind at 1. rewrite on_task_none by done; cbn.
      destruct (Z.eqb_spec o' o) as [->|]; [rewrite Ht|]; constructor. }
  destruct (te_pending t !! f) as [a|] eqn:Hf.
  2:{ unfold finish_release, mbind at 1, method_bind at 1.
      rewrite (on_task_some _ _ _ _ _ Ht), release_task_unknown by done; cbn.
      rewrite insert_id, set_tasks_same by done.
      destruct (Z.eqb_spec o' o) as [->|]; [rewrite Ht, Hf|]; constructor. }
  pose proof (ep_tasks _ Hd _ _ Ht) as Hi.
  assert ((finish_release o' f (k, d)).1.2 = after_release o' f t a d) as E.
  { rewrite (finish_release_run _ _ _ _ t a) by done.
    destruct (te_retiring t); [done|]. by destruct (send_denial _ k). }
  replace (held o (finish_release o' f (k, d)).1) with (held o (k, after_release o' f t a d))
    by (unfold held; cbn; by rewrite E).
  destruct (Z.eqb_spec o' o) as [->|Hne].
  - rewrite Ht, Hf. pose proof (te_pending_in_flight _ _ _ _ Hi Hf) as Hin.
    assert (held o (k, after_release o f t a d) = delete f (held o (k, d))) as ->.
    { unfold held, after_release; cbn. rewrite Ht. destruct (te_retiring t && _) eqn:Er; cbn.
      - rewrite lookup_delete_eq. apply andb_prop in Er as [_ Hz].
        rewrite Nat.eqb_eq, map_size_empty_iff in Hz. by rewrite <- fmap_delete, Hz, fmap_empty.
      - rewrite lookup_insert_eq. cbn. by rewrite fmap_delete. }
    constructor. unfold held; cbn. by rewrite Ht, lookup_fmap, Hin.
  - rewrite (Heq (after_release o' f t a d)); [constructor|]. unfold after_release. destruct (te_retiring t && _); cbn;
      [by rewrite lookup_delete_ne | by rewrite lookup_insert_ne].
Qed.

Lemma discard_finish o f w :
  ep_inv w.2 → (discard_frame o f w).1 = (finish_release o f w).1.
Proof.
  destruct w as [k d]; cbn. intros Hd. unfold discard_frame, mbind at 1, method_bind at 1.
  unfold task, mbind at 1, method_bind at 1, get, lift; cbn.
  destruct (tasks d !! o) as [t|] eqn:Ht; cbn.
  2:{ unfold finish_release, mbind at 1, method_bind at 1. by rewrite on_task_none. }
  unfold mbind at 1, method_bind at 1, reject at 1.
  destruct (te_pending t !! f) as [a|] eqn:Hf; cbn.
  - pose proof (ep_tasks _ Hd _ _ Ht) as Hi. pose proof (te_pending_in_flight _ _ _ _ Hi Hf) as Hin.
    assert (is_Some (te_timelines t)) as Hl.
    { apply (te_bound _ _ Hi). destruct (timelines_bound (te_state t)) eqn:Hb; [done|].
      rewrite (ti_unbound _ (te_state_inv _ _ Hi) Hb), lookup_empty in Hin. done. }
    unfold mbind at 1, method_bind at 1, reject at 1. by rewrite bool_decide_true by done.
  - unfold finish_release, mbind at 1, method_bind at 1.
    rewrite (on_task_some _ _ _ _ _ Ht), release_task_unknown by done; cbn.
    by rewrite insert_id, set_tasks_same.
Qed.

Lemma ep_owner_laws o : @BufferOwnerLaws _ _ (ep_owner o).
Proof.
  split; [intros op w Hw; by apply ep_keeps|]. intros op w Hw; cbn in *.
  assert (∀ A (m : ep_method A) (g : A → option EndpointAction), Keeps (held o) m →
    own_step (held o w) Quiet (held o ((a ← m; mret (g a)) w).1)) as Hquiet.
  { intros A m g Hm. rewrite forget_fst, (Hm w). constructor. }
  destruct op; cbn; try (apply Hquiet; unfold request_input_channel, send_format_feedback,
    send_configure, send_visibility, send_display_power, send_close, send_input,
    materialize_release, send_frame_grant, send_scene_presented, send_fatal; held_auto).
  - rewrite forget_fst. by apply receive_refines.
  - rewrite forget_fst, discard_finish by done. by apply (finish_refines o).
  - rewrite forget_fst. by apply (finish_refines o).
Qed.

End endpoint_proofs.
