(* ===== verification/EndpointSpec.v ===== *)
(** * What the host endpoint guarantees

    The properties of [Endpoint.DenialEndpoint], for every kernel: the invariant
    along any run, ownership of buffers, the handshake, rollback of failed sends,
    the outcomes of a present and the retirement of tasks. *)

From S2P Require Import Prelude Ownership Transport Protocol Codec CodecProofs.
From S2P Require Import TaskState Syncobj Ipc Endpoint EndpointProofs.

(** A connection before the handshake, with any optional features configured. *)
Definition fresh (d : DenialEndpoint) : Prop := ready d = false ∧ tasks d = ∅.

Lemma fresh_inv d : fresh d → ep_inv d.
Proof.
  intros [Hr Ht]. constructor; rewrite Ht; intros; rewrite ?lookup_empty in *; try done.
Qed.

Section properties.

Context {K : Type} `{HD : Drm K, HS : SeqPacketOps K}.

Definition ep_runs (ops : list ep_op) (w : K * DenialEndpoint) : K * DenialEndpoint :=
  foldl (λ w op, (ep_exec op w).1) w ops.

Lemma ep_runs_inv ops w : ep_inv w.2 → ep_inv (ep_runs ops w).2.
Proof. apply (run_ops_inv (H := ep_owner 0) (H0 := ep_owner_laws 0)). Qed.

Lemma fresh_held o k d : fresh d → held o (k : K, d) = ∅.
Proof. intros [_ Ht]. unfold held; cbn. by rewrite Ht, lookup_empty. Qed.

(** ** Rollback *)

Lemma send_keeps_endpoint m ds (k : K) (d : DenialEndpoint) :
  on_socket (send_denial_with_descriptors m ds) (k, d)
  = ((send_denial_with_descriptors m ds k).1, d,
     map_err EpIpc (send_denial_with_descriptors m ds k).2).
Proof. unfold on_socket; cbn. by destruct (send_denial_with_descriptors m ds k). Qed.

Lemma unregister_registered t m :
  te_inv (object (te_state t)) t → buffers (te_state t) !! b_id m = None →
  unregister_buffer (b_id m) (set_buffers (<[b_id m := m]> (buffers (te_state t))) (te_state t))
  = (te_state t, Ok m).
Proof.
  intros Ht Hn. apply unregister_iff; cbn. split_and!.
  - intros Hb. destruct (ti_registered _ (te_state_inv _ _ Ht) _ Hb). congruence.
  - apply lookup_insert_eq.
  - rewrite delete_insert_id by done. by destruct (te_state t).
Qed.

Lemma register_unregistered t b m :
  te_inv (object (te_state t)) t → buffers (te_state t) !! b = Some m →
  TaskState.register_buffer m (set_buffers (delete b (buffers (te_state t))) (te_state t))
  = (te_state t, Ok tt).
Proof.
  intros Ht Hm. pose proof (te_state_inv _ _ Ht) as Hs.
  destruct (ti_metadata _ Hs _ _ Hm) as [<- Hi]. apply register_iff; cbn. split_and!.
  - done.
  - apply lookup_delete_eq.
  - pose proof (ti_capacity _ Hs). rewrite map_size_delete, Hm; cbn.
    assert (size (buffers (te_state t)) ≠ 0%nat); [|lia].
    intros Hz%map_size_empty_iff. by rewrite Hz, lookup_empty in Hm.
  - rewrite insert_delete_id by done. by destruct (te_state t).
Qed.

Lemma on_task_state {A} o (m : task_method A) (k : K) d t :
  tasks d !! o = Some t →
  on_task o (on_state m) (k, d) =
    (k, set_tasks (<[o := set_state (m (te_state t)).1 t]> (tasks d)) d,
     map_err EpState (m (te_state t)).2).
Proof.
  intros Ht. rewrite (on_task_some _ _ _ _ _ Ht). unfold on_state; cbn. by destruct (m (te_state t)).
Qed.

Lemma on_task_ignored {A} o (m : task_method A) (k : K) d t :
  tasks d !! o = Some t →
  on_task o (attempt (on_state m)) (k, d) =
    (k, set_tasks (<[o := set_state (m (te_state t)).1 t]> (tasks d)) d,
     Ok (map_err EpState (m (te_state t)).2)).
Proof.
  intros Ht. rewrite (on_task_some _ _ _ _ _ Ht). unfold attempt, on_state; cbn.
  by destruct (m (te_state t)).
Qed.

(** Writing a task back unchanged, possibly after writing something else. *)
Lemma set_tasks_undo o t t' s d :
  tasks d !! o = Some t →
  set_tasks (<[o := set_state (te_state t) (set_state s t)]>
    (tasks (set_tasks (<[o := t']> (tasks d)) d))) (set_tasks (<[o := t']> (tasks d)) d) = d.
Proof.
  intros Ht. unfold set_state, set_tasks; cbn. rewrite insert_insert_eq.
  destruct t, d; cbn in *. by rewrite insert_id.
Qed.

Lemma set_tasks_unchanged o t d :
  tasks d !! o = Some t → set_tasks (<[o := set_state (te_state t) t]> (tasks d)) d = d.
Proof. intros Ht. rewrite set_state_same, insert_id by done. apply set_tasks_same. Qed.

Lemma register_rollback o n m planes (k : K) d w e :
  ep_inv d → register_render_target o n m planes (k, d) = (w, Err e) → w.2 = d.
Proof.
  intros Hd. unfold register_render_target, mbind, method_bind.
  destruct (tasks d !! o) as [t|] eqn:Ht; [|rewrite on_task_none by done; by intros [= <- _]].
  pose proof (ep_tasks _ Hd _ _ Ht) as Hi. rewrite (on_task_state _ _ _ _ t Ht).
  destruct (TaskState.register_buffer m (te_state t)) as [s' [u|e']] eqn:Er;
    cbn [fst snd map_err].
  2:{ apply fail_safe in Er as ->. intros [= <- _]. by apply set_tasks_unchanged. }
  apply register_iff in Er as (_ & Hn & _ & ->). unfold attempt at 1. rewrite send_keeps_endpoint.
  destruct (send_denial_with_descriptors _ planes k) as [k' [v|e']]; [done|]. cbn [fst snd map_err].
  rewrite on_task_ignored with (t := set_state (set_buffers (<[b_id m:=m]> (buffers (te_state t)))
    (te_state t)) t) by apply lookup_insert_eq.
  cbn [te_state set_state]. rewrite unregister_registered by (by rewrite ?(te_object _ _ Hi)).
  intros [= <- _]. by apply set_tasks_undo.
Qed.

Lemma unregister_rollback o b (k : K) d w e :
  ep_inv d → unregister_render_target o b (k, d) = (w, Err e) → w.2 = d.
Proof.
  intros Hd. unfold unregister_render_target, mbind, method_bind.
  destruct (tasks d !! o) as [t|] eqn:Ht; [|rewrite on_task_none by done; by intros [= <- _]].
  pose proof (ep_tasks _ Hd _ _ Ht) as Hi. rewrite (on_task_state _ _ _ _ t Ht).
  destruct (unregister_buffer b (te_state t)) as [s' [m|e']] eqn:Er; cbn [fst snd map_err].
  2:{ apply fail_safe in Er as ->. intros [= <- _]. by apply set_tasks_unchanged. }
  apply unregister_iff in Er as (_ & Hm & ->). unfold attempt, send_denial.
  rewrite send_keeps_endpoint.
  destruct (send_denial_with_descriptors _ [] k) as [k' [v|e']]; [done|]. cbn [fst snd map_err].
  rewrite on_task_state with (t := set_state (set_buffers (delete b (buffers (te_state t)))
    (te_state t)) t) by apply lookup_insert_eq.
  cbn [te_state set_state]. rewrite register_unregistered by (by rewrite ?(te_object _ _ Hi)).
  cbn [fst snd map_err]. intros [= <- _]. by apply set_tasks_undo.
Qed.

(** ** Properties: runs *)

(** C11: from a fresh connection, along any sequence of received records and host
    calls, with any kernel failing anywhere: every task satisfies its own
    invariant under its own object, its pending frames are exactly the frames in
    flight, timelines are bound exactly when the state says so and their cursors
    never run ahead of it, displays and Android tasks belong to one object each,
    at most 4096 tasks and 64 feedback frames per task exist, a retiring task
    still has a frame to drain, and nothing exists before the handshake. *)
Theorem endpoint_reachable_inv (ops : list ep_op) (k : K) d :
  fresh d → ep_inv (ep_runs ops (k, d)).2.
Proof. intros Hd. by apply ep_runs_inv, fresh_inv. Qed.

(** C5: seen from the connection, one task object's buffers follow the ownership
    specification: a present action acquires, a release or discard of a pending
    frame retires (even when its notification cannot be sent), and every other
    call, failed ones and cancelled presents included, is invisible. *)
Theorem endpoint_refines_ownership o (ops : list ep_op) (k : K) d :
  fresh d →
  own_trace ∅ (@events_of _ _ (ep_owner o) ops (k, d)) (held o (ep_runs ops (k, d))).
Proof.
  intros Hd. rewrite <- (fresh_held o k d Hd).
  apply (run_ops_refines (H := ep_owner o) (H0 := ep_owner_laws o) ops (k, d)). by apply fresh_inv.
Qed.

(** On one connection, two present actions of a task that name the same buffer
    are separated by the release or discard of the first one's frame. *)
Theorem endpoint_release_before_reuse o (ops : list ep_op) (k : K) d t1 f1 b t2 f2 t3 :
  fresh d →
  @events_of _ _ (ep_owner o) ops (k, d) = t1 ++ Acquired f1 b :: t2 ++ Acquired f2 b :: t3 →
  Retired f1 b ∈ t2.
Proof.
  intros Hd. apply (owner_release_before_reuse (H := ep_owner o) (H0 := ep_owner_laws o)).
  by apply fresh_inv.
Qed.

(** ** Properties: rollback *)

(** C20: lending or revoking a render target is all or nothing on the host's side:
    whatever fails, including the send after the registration changed, the
    endpoint is left exactly as it was. *)
Theorem render_target_rollback o n m planes b (k : K) d :
  ep_inv d →
  (∀ w e, register_render_target o n m planes (k, d) = (w, Err e) → w.2 = d)
  ∧ (∀ w e, unregister_render_target o b (k, d) = (w, Err e) → w.2 = d).
Proof. intros Hd. split; intros w e; [by apply register_rollback | by apply unregister_rollback]. Qed.

(** ** Properties: handshake and negotiation *)

Lemma client_hello_Ok a b c (k : K) d w act :
  client_hello a b c (k, d) = (w, Ok act) →
  act = AClientReady ∧ w.2 = set_ready (negotiate c d) ∧ ready d = false
  ∧ a ≤ PROTOCOL_MAJOR ≤ b ∧ Z.land c capability.REQUIRED_V1 = capability.REQUIRED_V1
  ∧ send_denial (server_hello (negotiate c d)) k = (w.1, Ok tt).
Proof.
  unfold client_hello, mbind, method_bind, get, reject, update_endpoint, modify, on_socket; cbn.
  destruct (ready d); [done|]. destruct (_ || _ || _) eqn:Hv; [done|]. cbn. reflect.
  destruct (send_denial (server_hello (negotiate c d)) k) as [k' [[]|e]]; [|done].
  intros [= <- <-]. split_and!; (done || tauto || lia).
Qed.

Lemma client_hello_Err a b c (k : K) d w e :
  client_hello a b c (k, d) = (w, Err e) → ready w.2 = ready d ∧ tasks w.2 = tasks d.
Proof.
  unfold client_hello, mbind, method_bind, get, reject, update_endpoint, modify, on_socket; cbn.
  destruct (ready d) eqn:Hr; [by intros [= <- _]|].
  destruct (_ || _ || _) eqn:Hv; [by intros [= <- _]|]. cbn.
  destruct (send_denial (server_hello (negotiate c d)) k) as [k' [[]|e']]; [done|].
  by intros [= <- _].
Qed.

(** Nothing happens before the handshake.  On a connection that is not ready,
    the only action a record can produce is [ClientReady], which makes it ready
    without creating a task; every other record, and every failed hello, is an
    error that leaves the connection unready with the same tasks. *)
Theorem handshake_first (k : K) d w r :
  ready d = false → receive_action (k, d) = (w, r) →
  tasks w.2 = tasks d
  ∧ match r with
    | Ok act => act = AClientReady ∧ ready w.2 = true
    | Err _ => ready w.2 = false
    end.
Proof.
  intros Hr. unfold receive_action, mbind, method_bind, on_socket; cbn.
  destruct (receive_android_into MAX_PACKET_BYTES k) as [k' [received|e]]; cbn;
    [|by intros [= <- <-]].
  rewrite reduce_run. unfold needs_handshake; cbn. rewrite Hr.
  destruct (rm_message received) eqn:Hm; cbn; try (by intros [= <- <-]).
  unfold dispatch. rewrite Hm. intros Hc. destruct r as [act|e].
  - apply client_hello_Ok in Hc as (-> & -> & _). done.
  - apply client_hello_Err in Hc as [-> ->]. done.
Qed.

Lemma has_capability_bit c i : 0 ≤ i → has_capability c (Z.shiftl 1 i) = Z.testbit c i.
Proof.
  intros Hi. unfold has_capability. destruct (Z.testbit c i) eqn:E.
  - apply Bool.negb_true_iff, Z.eqb_neq. intros Hz.
    assert (Z.testbit (Z.land c (Z.shiftl 1 i)) i = true) as Ht; [|by rewrite Hz, Z.bits_0 in Ht].
    rewrite Z.land_spec, E, Z.shiftl_spec, Z.sub_diag by done. done.
  - apply Bool.negb_false_iff, Z.eqb_eq, Z.bits_inj'. intros j Hj.
    rewrite Z.land_spec, Z.bits_0, Z.shiftl_1_l, Z.pow2_bits_eqb by done.
    destruct (Z.eqb_spec i j) as [<-|]; [by rewrite E | apply Bool.andb_false_r].
Qed.

(** The bits a negotiated feature adds were offered by the client. *)
Lemma bit_if_offered f c i j :
  0 ≤ i → Z.testbit (bit_if (f && has_capability c (Z.shiftl 1 i)) (Z.shiftl 1 i)) j = true →
  Z.testbit c j = true.
Proof.
  intros Hi. rewrite has_capability_bit by done. unfold bit_if.
  destruct (f && Z.testbit c i) eqn:E; [|by rewrite Z.bits_0].
  destruct (Z.ltb_spec j 0); [by rewrite Z.testbit_neg_r|].
  rewrite Z.shiftl_1_l, Z.pow2_bits_eqb, Z.eqb_eq by done. intros <-. by apply andb_prop in E as [_ ?].
Qed.

(** Negotiation never enables more than both sides asked for.  When a hello is
    accepted, each optional feature is on exactly if the host configured it and
    the client offered its bit, the reply went out, and every capability bit of
    the reply is one the client offered. *)
Theorem negotiation_sound a b c (k : K) d w act :
  client_hello a b c (k, d) = (w, Ok act) →
  w.2 = set_ready (negotiate c d)
  ∧ send_denial (server_hello w.2) k = (w.1, Ok tt)
  ∧ match server_hello w.2 with
    | ServerHello _ _ offered _ _ _ => ∀ i, Z.testbit offered i = true → Z.testbit c i = true
    | _ => False
    end.
Proof.
  intros (-> & E & _ & _ & Hreq & Hsend)%client_hello_Ok. rewrite E.
  split_and!; [done|exact Hsend|]. cbn. intros i. rewrite !Z.lor_spec, !Bool.orb_true_iff.
  intros [[[[[Hi|Hi]|Hi]|Hi]|Hi]|Hi]; try (eapply bit_if_offered; [|exact Hi]; lia).
  rewrite <- Hreq, Z.land_spec in Hi. by apply andb_prop in Hi as [? _].
Qed.

(** The host's reply is always one Android accepts: whatever features are
    negotiated, [ServerHello] encodes, and decodes on the other side to itself. *)
Theorem server_hello_accepted d :
  ∃ p, encode_denial (server_hello d) = Ok p ∧ ep_descriptors p = []
    ∧ decode_denial (ep_bytes p) 0 = Ok (mkDecoded (server_hello d) []).
Proof.
  unfold server_hello. destruct d as [r a i l s h t]; cbn.
  destruct a, i, l, s, h; eexists; (split; [vm_compute; reflexivity|]); split; vm_compute; reflexivity.
Qed.

(** ** Properties: presents *)

(** C24: a present record ends in exactly one of four ways: the frame is accepted,
    reserved and recorded as pending; it was acceptable but the kernel could not
    export its acquire fence, and the reservation was cancelled; it was rendered
    for a superseded configure and was discarded (or the kernel failed while the
    host did so); or the task state refused it and nothing changed.  The timeline
    library's own point check never fails, because the task state checked first. *)
Theorem endpoint_present_outcomes o f b n ap rp dmg (k : K) d t k' d' r :
  ep_inv d → tasks d !! o = Some t →
  present o f b n ap rp dmg (k, d) = ((k', d'), r) →
  ∃ t', d' = set_tasks (<[o := t']> (tasks d)) d ∧ present_outcome o f b n ap rp dmg t t' r.
Proof.
  intros Hd Ht. unfold present. rewrite (on_task_some _ _ _ _ _ Ht).
  destruct (present_task o f b n ap rp dmg (k, t)) as [[k1 t'] r1] eqn:E; cbn.
  intros [= <- <- <-]. exists t'. split; [done|].
  eapply present_task_outcome, E. by apply (ep_tasks _ Hd).
Qed.

(** ** Properties: releases and retirement *)

(** Finishing a pending frame always releases it in the host's state, and tells
    Android unless the task is retiring: the state change does not depend on the
    notification, a failed send is reported, and a retiring task whose last frame
    this was disappears. *)
Theorem finish_release_spec o f (k : K) d t a :
  ep_inv d → tasks d !! o = Some t → te_pending t !! f = Some a →
  finish_release o f (k, d) =
    (if te_retiring t then (k, after_release o f t a d, Ok tt)
     else let '(k', r) := send_denial (BufferReleased o f (aw_buffer a) (aw_release_point a)) k in
          (k', after_release o f t a d, map_err EpIpc r)).
Proof. apply finish_release_run. Qed.

Definition drain (o : TaskObjectId) (fs : list FrameId) (w : K * DenialEndpoint)
  : K * DenialEndpoint := foldl (λ w f, (finish_release o f w).1) w fs.

Lemma pending_nonempty o t : te_inv o t → in_flight (te_state t) ≠ ∅ → te_pending t ≠ ∅.
Proof. intros Hi Hne E. by rewrite <- (te_frames _ _ Hi), E, fmap_empty in Hne. Qed.

Lemma drain_retiring o fs (k : K) d t :
  ep_inv d → tasks d !! o = Some t → te_retiring t = true →
  NoDup fs → (∀ f, f ∈ fs ↔ is_Some (te_pending t !! f)) →
  drain o fs (k, d) = (k, forget_task o d).
Proof.
  unfold drain. revert d t. induction fs as [|f fs IH]; intros d t Hd Ht Hr Hnd Hfs.
  - exfalso. pose proof (ep_tasks _ Hd _ _ Ht) as Hi.
    apply (pending_nonempty _ _ Hi (te_draining _ _ Hi Hr)), map_empty. intros f.
    apply eq_None_not_Some. intros Hf%Hfs. by apply not_elem_of_nil in Hf.
  - apply NoDup_cons in Hnd as [Hf Hnd]. destruct (proj1 (Hfs f)) as [a Ha]; [by constructor|].
    pose proof (after_release_inv o f t a d Hd Ht Ha) as Hd'. cbn.
    rewrite (finish_release_run _ _ _ _ t a), Hr by done; cbn. unfold after_release in *.
    rewrite Hr in *. destruct (Nat.eqb (in_flight_count (te_state (released f a t))) 0) eqn:Hz; cbn [andb] in *.
    + destruct fs as [|f' fs]; [done|]. exfalso.
      assert (te_pending t !! f' ≠ None) as Hf'.
      { apply not_eq_None_Some, Hfs. right. constructor. }
      apply in_flight_count_zero in Hz. pose proof (ep_tasks _ Hd _ _ Ht) as Hi.
      destruct (te_pending t !! f') as [a'|] eqn:Ha'; [|done].
      apply (te_pending_in_flight _ _ _ _ Hi) in Ha'. cbn in Hz.
      assert (delete f (in_flight (te_state t)) !! f' = Some (wire_tuple a')) as E; [|by rewrite Hz in E].
      rewrite lookup_delete_ne; [done|]. intros ->. apply Hf. constructor.
    + rewrite (IH _ (released f a t)); cbn; try done.
      * unfold forget_task, set_tasks; cbn. by rewrite delete_insert_eq.
      * apply lookup_insert_eq.
      * intros f'. rewrite lookup_delete. split.
        -- intros Hf'. destruct (decide (f = f')) as [->|]; [done|]. apply Hfs. by right.
        -- destruct (decide (f = f')) as [->|]; [by intros [? ?]|]. intros Hs.
           apply Hfs, elem_of_cons in Hs as [->|]; done.
Qed.


End properties.

(** ** Witnesses: a scripted connection *)

(** A kernel with the records still to be received, the records sent, and
    whether the peer can still be written to. *)
Record script : Type := mkScript {
  sc_inbox : list (list Z * list fd);
  sc_outbox : list (list Z);
  sc_open : bool
}.

Definition EPIPE : Z := 32.

#[global] Instance script_socket : SeqPacketOps script := {
  sendmsg bytes ds k :=
    if sc_open k then (mkScript (sc_inbox k) (sc_outbox k ++ [bytes]) true, Ok (zlen bytes))
    else (k, Err EPIPE);
  recvmsg capacity k :=
    match sc_inbox k with
    | [] => (k, Err EAGAIN)
    | (bytes, ds) :: rest =>
        (mkScript rest (sc_outbox k) (sc_open k), Ok (mkRaw bytes (rights ds) false))
    end;
  getsockopt_peercred k := (k, Ok (12, mkPeer 100 1000 1000))
}.

#[global] Instance script_drm : Drm script := {
  create_syncobj _ k := (k, Ok 1);
  fd_to_syncobj _ _ k := (k, Ok 2);
  syncobj_to_fd _ _ k := (k, Ok 3);
  syncobj_timeline_transfer _ _ _ _ k := (k, Ok tt);
  syncobj_timeline_signal _ _ k := (k, Ok tt);
  syncobj_timeline_wait _ _ _ _ _ _ k := (k, Ok tt);
  syncobj_timeline_query _ k := (k, Ok 0);
  syncobj_eventfd _ _ _ _ k := (k, Ok tt);
  ioctl_import_sync_file _ _ k := (k, Ok tt);
  clock_monotonic k := (k, Ok (5, 0))
}.

Definition packet (m : AndroidMessage) (ds : list fd) : list Z * list fd :=
  match encode_android m with Ok p => (ep_bytes p, ds) | Err _ => ([], []) end.

Definition demo_host : DenialEndpoint := mkEP false true false false false true ∅.

(** One task is created, configured and given one target, which Android presents
    twice; then the task is destroyed while the second frame is in flight. *)
Definition demo_inbox : list (list Z * list fd) :=
  [packet (ClientHello 1 1 capability.REQUIRED_V1) [];
   packet (CreateTask 5 2 [97; 46; 98]) [];
   packet (BindTimelines 5) [20; 21];
   packet (AckConfigure 5 3) [];
   packet (Present 5 1 9 3 10 20 []) [];
   packet (Present 5 2 9 3 11 21 []) [];
   packet (DestroyTask 5) []].

Definition demo_kernel : script := mkScript demo_inbox [] true.

Definition demo_prefix : list ep_op :=
  [EpReceive; EpReceive; EpReceive; EpFormatFeedback 5 1 [demo_format];
   EpConfigure 5 3 64 64 1 1 Normal 60000; EpRegisterTarget 5 3 demo_target [30]; EpReceive].

Definition demo_presents : list ep_op :=
  demo_prefix ++ [EpReceive; EpFinish 5 1; EpReceive].

Definition demo_retired : list ep_op := demo_presents ++ [EpReceive].

Lemma endpoint_reachable_inv_witness :
  ep_inv (ep_runs demo_retired (demo_kernel, demo_host)).2.
Proof. apply (endpoint_reachable_inv demo_retired demo_kernel demo_host). split; reflexivity. Defined.

Lemma endpoint_refines_ownership_witness :
  ∃ m, own_trace ∅ (replicate 7 Quiet ++ [Acquired 1 9; Retired 1 9; Acquired 2 9]) m.
Proof.
  exists (held 5 (ep_runs demo_presents (demo_kernel, demo_host))).
  exact (endpoint_refines_ownership 5 demo_presents demo_kernel demo_host
           (conj eq_refl eq_refl)).
Defined.

Lemma endpoint_release_before_reuse_witness : Retired 1 9 ∈ [Retired 1 9].
Proof.
  apply (endpoint_release_before_reuse 5 demo_presents demo_kernel demo_host
           (replicate 7 Quiet) 1 9 [Retired 1 9] 2 []).
  - split; reflexivity.
  - vm_compute. reflexivity.
Defined.

(** The connection before the target is lent, with a peer that has gone away. *)
Definition demo_before : script * DenialEndpoint := ep_runs (take 5 demo_prefix) (demo_kernel, demo_host).
Definition demo_dead : script := mkScript [] [] false.

Lemma demo_before_inv : ep_inv demo_before.2.
Proof. apply ep_runs_inv, fresh_inv. split; reflexivity. Qed.

Lemma render_target_rollback_witness :
  (register_render_target 5 3 demo_target [30] (demo_dead, demo_before.2)).1.2 = demo_before.2.
Proof.
  refine (proj1 (render_target_rollback 5 3 demo_target [30] 9 demo_dead demo_before.2 _)
            _ (EpIpc (Io EPIPE)) _).
  - apply demo_before_inv.
  - vm_compute. reflexivity.
Defined.

Lemma handshake_first_witness :
  ready (receive_action (demo_kernel, demo_host)).1.2 = true.
Proof.
  apply (handshake_first demo_kernel demo_host _ (Ok AClientReady)); [reflexivity|].
  vm_compute. reflexivity.
Defined.

Lemma negotiation_sound_witness :
  (client_hello 1 2 capability.REQUIRED_V1 (demo_kernel, demo_host)).1.2
  = set_ready (negotiate capability.REQUIRED_V1 demo_host).
Proof.
  refine (proj1 (negotiation_sound 1 2 capability.REQUIRED_V1 demo_kernel demo_host _ AClientReady _)).
  vm_compute. reflexivity.
Defined.

(** The connection when the first present arrives, after it was accepted, and
    after the task was destroyed with the second frame in flight. *)
Definition demo_live : script * DenialEndpoint := ep_runs demo_prefix (demo_kernel, demo_host).
Definition demo_accepted : script * DenialEndpoint :=
  ep_runs (demo_prefix ++ [EpReceive]) (demo_kernel, demo_host).
Definition demo_retiring : script * DenialEndpoint := ep_runs demo_retired (demo_kernel, demo_host).

Lemma demo_inv ops : ep_inv (ep_runs ops (demo_kernel, demo_host)).2.
Proof. apply ep_runs_inv, fresh_inv. split; reflexivity. Qed.

Definition task_of (w : script * DenialEndpoint) : TaskEndpoint :=
  default (fresh_task 0 demo_task) (tasks w.2 !! 5).

Lemma endpoint_present_outcomes_witness :
  ∃ t', present_outcome 5 1 9 3 10 20 [] (task_of demo_live) t'
          (Ok (APresent (mkAcceptedWire 5 1 9 10 20 []) 3)).
Proof.
  destruct (endpoint_present_outcomes 5 1 9 3 10 20 [] demo_live.1 demo_live.2 (task_of demo_live)
    (present 5 1 9 3 10 20 [] demo_live).1.1 (present 5 1 9 3 10 20 [] demo_live).1.2
    (Ok (APresent (mkAcceptedWire 5 1 9 10 20 []) 3)) (demo_inv demo_prefix))
    as (t' & _ & H); [vm_compute; reflexivity|vm_compute; reflexivity|]. by exists t'.
Defined.

Lemma finish_release_spec_witness :
  (finish_release 5 1 (demo_dead, demo_accepted.2)).2 = Err (EpIpc (Io EPIPE)).
Proof.
  rewrite (finish_release_spec 5 1 demo_dead demo_accepted.2 (task_of demo_accepted)
             (mkAcceptedWire 5 1 9 10 20 []) (demo_inv (demo_prefix ++ [EpReceive])));
    vm_compute; reflexivity.
Defined.

