(* ===== verification/Composer.v ===== *)
(** * Composer core (graphics/droidloom-composer/src/lib.rs)

    The Android side of presentation: one [Composer] per task display (layers,
    validation, power, vertical sync and the presentation stream of
    [Transport]).  The table of task windows that holds one composer per
    display is in [TaskWindows]. *)

From S2P Require Import Prelude Ownership Transport.

Abbreviation DisplayId := Z (only parsing).
Abbreviation LayerId := Z (only parsing).

Inductive Composition : Type := Client | Device | SolidColor | Cursor | Sideband.

#[global] Instance Composition_eq_dec : EqDecision Composition.
Proof. solve_decision. Defined.

Record LayerState : Type := mkLayer {
  l_id : LayerId;
  l_requested_composition : Composition;
  l_z : Z;
  l_protected_content : bool
}.

#[global] Instance LayerState_eq_dec : EqDecision LayerState.
Proof. solve_decision. Defined.

Record CompositionChange : Type := mkChange { cc_layer : LayerId; cc_composition : Composition }.

Record ClientTarget : Type := mkTarget {
  ct_buffer : BufferMetadata;
  ct_damage : list Damage;
  ct_has_acquire_fence : bool
}.

Record PresentResult : Type := mkPresentResult {
  pr_frame : AcceptedFrame;
  pr_requires_present_fence : bool
}.

Inductive PowerMode : Type := PowerOff | PowerOn | Doze | DozeSuspend.

#[global] Instance PowerMode_eq_dec : EqDecision PowerMode.
Proof. solve_decision. Defined.

Record VsyncSample : Type := mkVsync {
  vs_display : DisplayId;
  vs_timestamp_nanos : Z;
  vs_period_nanos : Z
}.

Inductive ComposerError : Type :=
| CoUnknownDisplay (expected actual : DisplayId)
| DuplicateLayer (layer : LayerId)
| UnknownLayer (layer : LayerId)
| NotValidated
| ChangesNotAccepted
| MissingClientTarget
| DisplayOff
| UnsupportedPowerMode (mode : PowerMode)
| MissingRefreshRate
| CoProtectedContent (layer : LayerId)
| CoTransport (e : TransportError).

(** ** One display *)

Record Composer : Type := mkComposer {
  co_display : DisplayId;
  co_layers : gmap LayerId LayerState;
  co_generation : Z;
  co_validated_generation : option Z;
  co_changes_accepted : bool;
  co_client_target : option ClientTarget;
  co_transport : PresentationState;
  co_power_mode : PowerMode;
  co_vsync_enabled : bool;
  co_refresh_millihz : Z;
  co_last_presentation_nanos : option Z
}.

Definition composer_new (display : DisplayId) : Composer :=
  mkComposer display ∅ 0 None false None ps_default PowerOff false 0 None.

Definition set_layers m c := mkComposer (co_display c) m (co_generation c)
  (co_validated_generation c) (co_changes_accepted c) (co_client_target c) (co_transport c)
  (co_power_mode c) (co_vsync_enabled c) (co_refresh_millihz c) (co_last_presentation_nanos c).
Definition set_validation v a c := mkComposer (co_display c) (co_layers c) (co_generation c) v a
  (co_client_target c) (co_transport c) (co_power_mode c) (co_vsync_enabled c)
  (co_refresh_millihz c) (co_last_presentation_nanos c).
Definition set_target t c := mkComposer (co_display c) (co_layers c) (co_generation c)
  (co_validated_generation c) (co_changes_accepted c) t (co_transport c) (co_power_mode c)
  (co_vsync_enabled c) (co_refresh_millihz c) (co_last_presentation_nanos c).
Definition set_transport p c := mkComposer (co_display c) (co_layers c) (co_generation c)
  (co_validated_generation c) (co_changes_accepted c) (co_client_target c) p (co_power_mode c)
  (co_vsync_enabled c) (co_refresh_millihz c) (co_last_presentation_nanos c).
Definition set_power m v c := mkComposer (co_display c) (co_layers c) (co_generation c)
  (co_validated_generation c) (co_changes_accepted c) (co_client_target c) (co_transport c) m v
  (co_refresh_millihz c) (co_last_presentation_nanos c).
Definition set_refresh r c := mkComposer (co_display c) (co_layers c) (co_generation c)
  (co_validated_generation c) (co_changes_accepted c) (co_client_target c) (co_transport c)
  (co_power_mode c) (co_vsync_enabled c) r (co_last_presentation_nanos c).
Definition set_last_presentation t c := mkComposer (co_display c) (co_layers c)
  (co_generation c) (co_validated_generation c) (co_changes_accepted c) (co_client_target c)
  (co_transport c) (co_power_mode c) (co_vsync_enabled c) (co_refresh_millihz c) t.

(** [generation.saturating_add(1)] on [u64]. *)
Definition invalidate (c : Composer) : Composer :=
  mkComposer (co_display c) (co_layers c) (Z.min (co_generation c + 1) u64_max) None false
    (co_client_target c) (co_transport c) (co_power_mode c) (co_vsync_enabled c)
    (co_refresh_millihz c) (co_last_presentation_nanos c).

Definition co_method := method Composer ComposerError.

Definition require_display (display : DisplayId) : co_method unit :=
  c ← get;
  reject (negb (display =? co_display c)) (CoUnknownDisplay (co_display c) display).

Definition require_current_validation (display : DisplayId) : co_method unit :=
  require_display display;;
  c ← get;
  reject (negb (bool_decide (co_validated_generation c = Some (co_generation c)))) NotValidated.

(** [Ok(self.transport.method(...)?)]. *)
Definition on_transport {A} (m : ps_method A) : co_method A :=
  λ c, let '(s', r) := m (co_transport c) in (set_transport s' c, map_err CoTransport r).

Definition co_replace_feedback (formats : list FormatModifier) (c : Composer) : Composer :=
  set_transport (ps_replace_feedback formats (co_transport c)) c.

Definition co_configure (cfg : Configure) (c : Composer) : Composer :=
  let c := set_refresh (c_refresh_millihz cfg) c in
  set_transport (ps_configure cfg (co_transport c)) c.

Definition set_power_mode (display : DisplayId) (mode : PowerMode) : co_method unit :=
  require_display display;;
  match mode with
  | PowerOff => modify (set_power PowerOff false)
  | PowerOn => modify (λ c, set_power PowerOn (co_vsync_enabled c) c)
  | Doze | DozeSuspend => throw (UnsupportedPowerMode mode)
  end.

Definition set_vsync_enabled (display : DisplayId) (enabled : bool) : co_method unit :=
  require_display display;;
  c ← get;
  reject (enabled && negb (bool_decide (co_power_mode c = PowerOn))) DisplayOff;;
  modify (λ c, set_power (co_power_mode c) enabled c).

Definition presentation_sample (timestamp_nanos : Z) : co_method (option VsyncSample) :=
  c ← get;
  if match co_last_presentation_nanos c with
     | Some previous => timestamp_nanos <=? previous
     | None => false
     end
  then mret None
  else
    modify (set_last_presentation (Some timestamp_nanos));;
    if negb (bool_decide (co_power_mode c = PowerOn)) || negb (co_vsync_enabled c) then mret None
    else
      reject (co_refresh_millihz c =? 0) MissingRefreshRate;;
      mret (Some (mkVsync (co_display c) timestamp_nanos (1000000000000 / co_refresh_millihz c))).

Definition co_acknowledge_configure (serial : Z) : co_method unit :=
  on_transport (ps_acknowledge serial).

Definition create_layer (display : DisplayId) (layer : LayerState) : co_method unit :=
  require_display display;;
  c ← get;
  reject (bool_decide (is_Some (co_layers c !! l_id layer))) (DuplicateLayer (l_id layer));;
  modify (λ c, set_layers (<[l_id layer := layer]> (co_layers c)) c);;
  modify invalidate.

Definition update_layer (display : DisplayId) (layer : LayerState) : co_method unit :=
  require_display display;;
  c ← get;
  existing ← lift (ok_or (co_layers c !! l_id layer) (UnknownLayer (l_id layer)));
  if decide (existing = layer) then mret tt
  else modify (λ c, set_layers (<[l_id layer := layer]> (co_layers c)) c);;
       modify invalidate.

Definition layer_state (display : DisplayId) (layer : LayerId) : co_method LayerState :=
  require_display display;;
  c ← get;
  lift (ok_or (co_layers c !! layer) (UnknownLayer layer)).

Definition destroy_layer (display : DisplayId) (layer : LayerId) : co_method unit :=
  require_display display;;
  c ← get;
  reject (bool_decide (co_layers c !! layer = None)) (UnknownLayer layer);;
  modify (λ c, set_layers (delete layer (co_layers c)) c);;
  modify invalidate.

Definition validate_display (display : DisplayId) : co_method (list CompositionChange) :=
  require_display display;;
  c ← get;
  match find l_protected_content (btree_values (co_layers c)) with
  | Some layer => throw (CoProtectedContent (l_id layer))
  | None =>
      let composition_changes :=
        map (λ layer, mkChange (l_id layer) Client)
          (filter (λ layer, l_requested_composition layer ≠ Client) (btree_values (co_layers c))) in
      modify (set_validation (Some (co_generation c)) (bool_decide (composition_changes = [])));;
      mret composition_changes
  end.

Definition to_client (layer : LayerState) : LayerState :=
  mkLayer (l_id layer) Client (l_z layer) (l_protected_content layer).

Definition accept_display_changes (display : DisplayId) : co_method unit :=
  require_current_validation display;;
  c ← get;
  reject (negb (bool_decide (co_power_mode c = PowerOn))) DisplayOff;;
  modify (λ c, set_layers (to_client <$> co_layers c) c);;
  modify (λ c, set_validation (co_validated_generation c) true c).

Definition set_client_target (display : DisplayId) (target : ClientTarget) : co_method unit :=
  require_display display;;
  modify (set_target (Some target)).

Definition present_display (display : DisplayId) : co_method PresentResult :=
  require_current_validation display;;
  c ← get;
  reject (negb (co_changes_accepted c)) ChangesNotAccepted;;
  modify (set_target None);;
  target ← lift (ok_or (co_client_target c) MissingClientTarget);
  frame ← on_transport (ps_submit (ct_buffer target) (ct_damage target)
                          (ct_has_acquire_fence target));
  modify (set_validation None false);;
  mret (mkPresentResult frame true).

Definition present_display_direct (display : DisplayId) : co_method unit :=
  require_current_validation display;;
  c ← get;
  reject (negb (co_changes_accepted c)) ChangesNotAccepted;;
  reject (negb (bool_decide (co_power_mode c = PowerOn))) DisplayOff;;
  modify (set_validation None false).

Definition submit_rendered_target (display : DisplayId) (target : ClientTarget)
  : co_method AcceptedFrame :=
  require_display display;;
  c ← get;
  reject (negb (bool_decide (co_power_mode c = PowerOn))) DisplayOff;;
  on_transport (ps_submit (ct_buffer target) (ct_damage target) (ct_has_acquire_fence target)).

Definition release_presented_target (frame : FrameId) (has_release_fence : bool)
  : co_method ReleasedFrame :=
  on_transport (ps_release frame has_release_fence).

Definition cancel_unsubmitted_target (frame : FrameId) : co_method BufferId :=
  on_transport (ps_cancel_unsubmitted frame).

Definition co_latest_configure (c : Composer) : option Configure :=
  ps_latest_configure (co_transport c).
Definition co_in_flight_count (c : Composer) : nat := ps_in_flight_count (co_transport c).
Definition co_in_flight_buffer (frame : FrameId) (c : Composer) : option BufferId :=
  in_flight_buffer frame (co_transport c).

(** ** The public operations as one type *)

Inductive co_op : Type :=
| CoFeedback (formats : list FormatModifier)
| CoConfigure (cfg : Configure)
| CoPower (display : DisplayId) (mode : PowerMode)
| CoVsync (display : DisplayId) (enabled : bool)
| CoSample (timestamp_nanos : Z)
| CoAcknowledge (serial : Z)
| CoCreateLayer (display : DisplayId) (layer : LayerState)
| CoUpdateLayer (display : DisplayId) (layer : LayerState)
| CoDestroyLayer (display : DisplayId) (layer : LayerId)
| CoValidate (display : DisplayId)
| CoAccept (display : DisplayId)
| CoSetTarget (display : DisplayId) (target : ClientTarget)
| CoPresent (display : DisplayId)
| CoPresentDirect (display : DisplayId)
| CoSubmit (display : DisplayId) (target : ClientTarget)
| CoRelease (frame : FrameId) (has_release_fence : bool)
| CoCancel (frame : FrameId).

Inductive co_value : Type :=
| VUnit
| VSample (sample : option VsyncSample)
| VChanges (changes : list CompositionChange)
| VFrame (frame : AcceptedFrame)
| VRetired (frame : FrameId) (buffer : BufferId).

Definition co_exec (op : co_op) : co_method co_value :=
  match op with
  | CoFeedback formats => modify (co_replace_feedback formats);; mret VUnit
  | CoConfigure cfg => modify (co_configure cfg);; mret VUnit
  | CoPower d m => set_power_mode d m;; mret VUnit
  | CoVsync d b => set_vsync_enabled d b;; mret VUnit
  | CoSample t => sample ← presentation_sample t; mret (VSample sample)
  | CoAcknowledge n => co_acknowledge_configure n;; mret VUnit
  | CoCreateLayer d l => create_layer d l;; mret VUnit
  | CoUpdateLayer d l => update_layer d l;; mret VUnit
  | CoDestroyLayer d l => destroy_layer d l;; mret VUnit
  | CoValidate d => changes ← validate_display d; mret (VChanges changes)
  | CoAccept d => accept_display_changes d;; mret VUnit
  | CoSetTarget d t => set_client_target d t;; mret VUnit
  | CoPresent d => r ← present_display d; mret (VFrame (pr_frame r))
  | CoPresentDirect d => present_display_direct d;; mret VUnit
  | CoSubmit d t => frame ← submit_rendered_target d t; mret (VFrame frame)
  | CoRelease f fence =>
      r ← release_presented_target f fence; mret (VRetired (rf_frame_id r) (rf_buffer_id r))
  | CoCancel f => b ← cancel_unsubmitted_target f; mret (VRetired f b)
  end.

Definition co_run (op : co_op) (c : Composer) : Composer := (co_exec op c).1.

Definition co_event (op : co_op) (c : Composer) : own_event :=
  match (co_exec op c).2 with
  | Ok (VFrame a) => Acquired (af_frame_id a) (b_id (af_buffer a))
  | Ok (VRetired f b) => Retired f b
  | _ => Quiet
  end.

(** ** The invariant of one display *)

Record co_inv (c : Composer) : Prop := {
  co_layer_ids k l : co_layers c !! k = Some l → l_id l = k;
  co_validated_current g : co_validated_generation c = Some g → g = co_generation c;
  co_validated_unprotected k l :
    co_validated_generation c ≠ None → co_layers c !! k = Some l →
    l_protected_content l = false;
  co_accepted_validated : co_changes_accepted c = true → co_validated_generation c ≠ None;
  co_accepted_client k l :
    co_changes_accepted c = true → co_layers c !! k = Some l →
    l_requested_composition l = Client;
  co_vsync_powered : co_vsync_enabled c = true → co_power_mode c = PowerOn;
  co_refresh_configured :
    co_refresh_millihz c = from_option c_refresh_millihz 0 (ps_latest_configure (co_transport c));
  co_stream : ps_inv (co_transport c)
}.

#[global] Instance co_owner : BufferOwner Composer co_op := {
  owner_run := co_run;
  owner_event := co_event;
  owner_abs c := ps_in_flight (co_transport c);
  owner_inv := co_inv
}.

Lemma composer_new_inv display : co_inv (composer_new display).
Proof.
  constructor; cbn; try done; intros; rewrite ?lookup_empty in *; try done.
  apply ps_default_inv.
Qed.

Lemma invalidate_inv c m :
  co_inv c → (∀ k l, m !! k = Some l → l_id l = k) → co_inv (invalidate (set_layers m c)).
Proof. intros [] Hm. constructor; cbn; try done. Qed.

Lemma co_inv_transport p c :
  co_inv c → ps_inv p → ps_latest_configure p = ps_latest_configure (co_transport c) →
  co_inv (set_transport p c).
Proof. intros [] Hp Hcfg. constructor; cbn; try done. by rewrite Hcfg. Qed.

(** ** Runs of the operations *)

Lemma on_transport_Ok {A} (m : ps_method A) c c' a :
  on_transport m c = (c', Ok a) ↔
  ∃ s', m (co_transport c) = (s', Ok a) ∧ c' = set_transport s' c.
Proof.
  unfold on_transport. destruct (m (co_transport c)) as [s [x|e]]; cbn; split.
  - intros [= <- <-]. eauto.
  - intros (s' & [= <- <-] & ->). done.
  - discriminate.
  - intros (s' & ? & _). discriminate.
Qed.

#[global] Instance on_transport_fail_safe {A} (m : ps_method A) :
  FailSafe m → FailSafe (on_transport m).
Proof.
  intros Hm c c' e. unfold on_transport.
  destruct (m (co_transport c)) as [s [x|e']] eqn:E; cbn; [discriminate|].
  intros [= <- <-]. apply fail_safe in E as ->. by destruct c.
Qed.

#[global] Instance require_display_read d : ReadOnly (require_display d).
Proof. unfold require_display. apply _. Qed.
#[global] Instance require_validation_read d : ReadOnly (require_current_validation d).
Proof. unfold require_current_validation. apply _. Qed.
#[global] Instance layer_state_read d l : ReadOnly (layer_state d l).
Proof. unfold layer_state. apply _. Qed.

Lemma read_only_run {St Er A} (m : method St Er A) s s' r :
  ReadOnly m → m s = (s', r) → s' = s.
Proof. intros Hm H. specialize (Hm s). by rewrite H in Hm. Qed.

Lemma require_display_Ok d c c' u :
  require_display d c = (c', Ok u) ↔ c' = c ∧ d = co_display c.
Proof.
  unfold require_display. split.
  - intros H. inv_method. by reflect.
  - intros [-> ->]. unfold mbind, method_bind, get, reject. destruct u. by rewrite Z.eqb_refl.
Qed.

Lemma require_validation_Ok d c c' u :
  require_current_validation d c = (c', Ok u) ↔
  c' = c ∧ d = co_display c ∧ co_validated_generation c = Some (co_generation c).
Proof.
  unfold require_current_validation. split.
  - intros H. inv_method. apply require_display_Ok in Hm as [-> ->]. by reflect.
  - intros (-> & Hd & Hv). unfold mbind at 1, method_bind at 1.
    rewrite (proj2 (require_display_Ok d c c tt)) by done.
    unfold mbind, method_bind, get, reject. destruct u. by rewrite bool_decide_true.
Qed.

(** As [inv_method], for the checks of this file. *)
Ltac inv_co :=
  repeat (inv_method;
    try match goal with
    | H : require_display _ _ = (_, Ok _) |- _ => apply require_display_Ok in H as [-> ->]
    | H : require_current_validation _ _ = (_, Ok _) |- _ =>
        apply require_validation_Ok in H as (-> & -> & ?)
    | H : on_transport _ _ = (_, Ok _) |- _ => apply on_transport_Ok in H as (? & H & ->)
    end).

(** Every operation but the two below leaves the display as it was when it
    fails: [present_display] consumes the client target it could not submit, and
    [presentation_sample] keeps the time of a sample it could not translate. *)
#[global] Instance set_power_mode_fail_safe d m : FailSafe (set_power_mode d m).
Proof. unfold set_power_mode. solve_fail_safe. Qed.
#[global] Instance set_vsync_enabled_fail_safe d b : FailSafe (set_vsync_enabled d b).
Proof. unfold set_vsync_enabled. solve_fail_safe. Qed.
#[global] Instance create_layer_fail_safe d l : FailSafe (create_layer d l).
Proof. unfold create_layer. solve_fail_safe. Qed.
#[global] Instance update_layer_fail_safe d l : FailSafe (update_layer d l).
Proof. unfold update_layer. solve_fail_safe. Qed.
#[global] Instance destroy_layer_fail_safe d l : FailSafe (destroy_layer d l).
Proof. unfold destroy_layer. solve_fail_safe. Qed.
#[global] Instance validate_display_fail_safe d : FailSafe (validate_display d).
Proof. unfold validate_display. solve_fail_safe. Qed.
#[global] Instance accept_changes_fail_safe d : FailSafe (accept_display_changes d).
Proof. unfold accept_display_changes. solve_fail_safe. Qed.
#[global] Instance set_client_target_fail_safe d t : FailSafe (set_client_target d t).
Proof. unfold set_client_target. solve_fail_safe. Qed.
#[global] Instance present_direct_fail_safe d : FailSafe (present_display_direct d).
Proof. unfold present_display_direct. solve_fail_safe. Qed.
#[global] Instance submit_rendered_fail_safe d t : FailSafe (submit_rendered_target d t).
Proof. unfold submit_rendered_target. solve_fail_safe. Qed.

Lemma present_display_Err d c c' e :
  present_display d c = (c', Err e) → c' = c ∨ c' = set_target None c.
Proof.
  unfold present_display.
  intros [H|(c1 & [] & [-> _]%require_validation_Ok & H)]%m_bind_Err.
  { left. by apply fail_safe in H. }
  intros. revert H. unfold mbind, method_bind, get, reject, modify, lift.
  destruct (negb _); [intros [= <-]; by left|].
  destruct (ok_or _ _) as [t|]; [|intros [= <-]; by right].
  destruct (on_transport _ _) as [c2 [a|e']] eqn:E; [discriminate|].
  intros [= <- <-]. apply fail_safe in E as ->. by right.
Qed.

Lemma present_display_Ok d c c' r :
  present_display d c = (c', Ok r) →
  co_validated_generation c = Some (co_generation c) ∧ co_changes_accepted c = true ∧
  ∃ target, co_client_target c = Some target
  ∧ ps_submittable (ct_buffer target) (ct_damage target) (ct_has_acquire_fence target)
      (co_transport c)
  ∧ pr_frame r = mkAccepted (ps_next_frame_id (co_transport c) + 1) (ct_buffer target)
                   (ct_damage target) true
  ∧ c' = set_validation None false
           (set_transport (ps_submitted (ct_buffer target) (co_transport c))
              (set_target None c)).
Proof.
  unfold present_display. intros H. inv_co. reflect.
  match goal with
  | Hs : ps_submit _ _ _ _ = _ |- _ => apply ps_submit_Ok in Hs as (Hsub & -> & ->)
  end. subst r.
  split; [done|]. split; [done|]. eauto.
Qed.

Lemma present_direct_Ok d c c' u :
  present_display_direct d c = (c', Ok u) →
  co_validated_generation c = Some (co_generation c) ∧ co_changes_accepted c = true
  ∧ co_power_mode c = PowerOn ∧ c' = set_validation None false c.
Proof. unfold present_display_direct. intros H. inv_co. by reflect. Qed.

Lemma submit_rendered_Ok d target c c' a :
  submit_rendered_target d target c = (c', Ok a) →
  d = co_display c ∧ co_power_mode c = PowerOn
  ∧ ps_submittable (ct_buffer target) (ct_damage target) (ct_has_acquire_fence target)
      (co_transport c)
  ∧ c' = set_transport (ps_submitted (ct_buffer target) (co_transport c)) c
  ∧ a = mkAccepted (ps_next_frame_id (co_transport c) + 1) (ct_buffer target)
          (ct_damage target) true.
Proof.
  unfold submit_rendered_target. intros H. inv_co. reflect.
  by apply ps_submit_Ok in H as (Hsub & -> & ->).
Qed.

Lemma validate_display_Ok d c c' changes :
  validate_display d c = (c', Ok changes) →
  d = co_display c ∧ (∀ k l, co_layers c !! k = Some l → l_protected_content l = false)
  ∧ (∀ l, l ∈ btree_values (co_layers c) → l_requested_composition l ≠ Client →
          mkChange (l_id l) Client ∈ changes)
  ∧ c' = set_validation (Some (co_generation c)) (bool_decide (changes = [])) c.
Proof.
  unfold validate_display. intros H. inv_co.
  destruct (find _ _) eqn:Hfind; inv_co. subst changes.
  split; [done|]. split_and!; [| |done].
  - intros k l Hl. eapply (find_none _ _ Hfind), list_elem_of_In, btree_values_elem. eauto.
  - intros l Hl Hne. apply list_elem_of_In, in_map_iff. exists l. split; [done|].
    apply list_elem_of_In, list_elem_of_filter. done.
Qed.

(** ** Every operation preserves the invariant *)

Lemma set_power_inv d m c c' u : co_inv c → set_power_mode d m c = (c', Ok u) → co_inv c'.
Proof.
  intros Hc H. unfold set_power_mode in H. inv_co.
  destruct m; inv_co; subst; destruct Hc; by constructor.
Qed.

Lemma set_vsync_inv d b c c' u : co_inv c → set_vsync_enabled d b c = (c', Ok u) → co_inv c'.
Proof.
  intros Hc H. unfold set_vsync_enabled in H. inv_co. reflect.
  destruct Hc; constructor; cbn; try done. intros ->. by destruct Hm1.
Qed.

Lemma presentation_sample_shape t c c' r :
  presentation_sample t c = (c', r) →
  c' = c ∧ r = Ok None ∧ (∃ p, co_last_presentation_nanos c = Some p ∧ t ≤ p)
  ∨ c' = set_last_presentation (Some t) c
    ∧ (∀ p, co_last_presentation_nanos c = Some p → p < t)
    ∧ (r = Ok None ∨ r = Err MissingRefreshRate ∨
       r = Ok (Some (mkVsync (co_display c) t (1000000000000 / co_refresh_millihz c)))
       ∧ co_power_mode c = PowerOn ∧ co_vsync_enabled c = true ∧ co_refresh_millihz c ≠ 0).
Proof.
  unfold presentation_sample, mbind, method_bind, get, modify, reject, mret, method_ret.
  destruct (match co_last_presentation_nanos c with Some _ => _ | None => _ end) eqn:Hlast.
  { intros [= <- <-]. left. destruct (co_last_presentation_nanos c); [|done]. reflect. eauto. }
  assert (∀ p, co_last_presentation_nanos c = Some p → p < t) as Hnew.
  { intros p Hp. rewrite Hp in Hlast. by reflect. }
  right. destruct (negb _ || negb _) eqn:Hon; [simplify_eq; auto|].
  destruct (Z.eqb_spec (co_refresh_millihz c) 0); simplify_eq; [auto|].
  reflect. split_and!; auto. right. right. tauto.
Qed.

Lemma validate_display_inv d c c' r :
  co_inv c → validate_display d c = (c', Ok r) → co_inv c'.
Proof.
  intros [] (-> & Hunp & Hch & ->)%validate_display_Ok. constructor; cbn; try done.
  - by intros g [= <-].
  - eauto.
  - intros k l Hacc%bool_decide_eq_true Hl.
    destruct (decide (l_requested_composition l = Client)) as [|Hne]; [done|].
    specialize (Hch l (proj2 (btree_values_elem (co_layers c) l) (ex_intro _ k Hl)) Hne).
    rewrite Hacc in Hch. by apply not_elem_of_nil in Hch.
Qed.

Lemma accept_changes_inv d c c' u :
  co_inv c → accept_display_changes d c = (c', Ok u) → co_inv c'.
Proof.
  intros Hc H. unfold accept_display_changes in H. inv_co.
  destruct Hc as [Hids Hcur Hunp Hacc Hcl Hvs Href Hst].
  assert (∀ k l, (to_client <$> co_layers c) !! k = Some l →
    ∃ l', co_layers c !! k = Some l' ∧ l = to_client l') as Hmap.
  { intros k l. rewrite lookup_fmap, fmap_Some. naive_solver. }
  constructor; cbn; try done.
  - intros k l (l' & Hl' & ->)%Hmap. cbn. by apply (Hids k) in Hl'.
  - intros k l Hv (l' & Hl' & ->)%Hmap. by apply (Hunp k l').
  - congruence.
  - by intros k l _ (l' & Hl' & ->)%Hmap.
Qed.

Lemma update_layer_Ok d layer c c' u :
  update_layer d layer c = (c', Ok u) →
  ∃ existing, co_layers c !! l_id layer = Some existing
  ∧ (existing = layer ∧ c' = c ∨
     existing ≠ layer ∧ c' = invalidate (set_layers (<[l_id layer := layer]> (co_layers c)) c)).
Proof.
  unfold update_layer. intros H. inv_co. exists a1. split; [done|].
  destruct (decide (a1 = layer)); inv_co; subst; auto.
Qed.

Lemma insert_layer_ids c layer :
  co_inv c → ∀ k l, <[l_id layer := layer]> (co_layers c) !! k = Some l → l_id l = k.
Proof.
  intros Hc k l [[<- <-]|[_ Hl]]%lookup_insert_Some; [done|]. by apply co_layer_ids in Hl.
Qed.

Lemma set_validation_inv c : co_inv c → co_inv (set_validation None false c).
Proof. intros []. by constructor. Qed.

Lemma set_target_inv t c : co_inv c → co_inv (set_target t c).
Proof. intros []. by constructor. Qed.

Lemma co_submit_inv b d fence c :
  co_inv c → ps_submittable b d fence (co_transport c) →
  co_inv (set_transport (ps_submitted b (co_transport c)) c).
Proof.
  intros Hc Hs. apply co_inv_transport; [done| |done].
  eapply ps_submitted_inv; [by apply co_stream | done].
Qed.

Lemma co_retire_inv f b c s' :
  co_inv c → ps_retire f (co_transport c) = (s', Ok b) → co_inv (set_transport s' c).
Proof.
  intros Hc H. apply co_inv_transport; [done | |].
  - eapply ps_retired_inv; [by apply co_stream | done].
  - by apply ps_retire_Ok in H as [_ ->].
Qed.

Lemma present_display_inv d c c' r : co_inv c → present_display d c = (c', r) → co_inv c'.
Proof.
  intros Hc H. destruct r as [r|e].
  - apply present_display_Ok in H as (_ & _ & target & _ & Hs & _ & ->).
    apply set_validation_inv. exact (co_submit_inv _ _ _ _ (set_target_inv None c Hc) Hs).
  - apply present_display_Err in H as [->| ->]; [done|]. by apply set_target_inv.
Qed.

(** The two halves of a state change: on success by the lemma of the
    operation, on failure because nothing changed. *)
Lemma co_preserves_split {A} (m : co_method A) (f : A → co_value) c :
  FailSafe m → co_inv c → (∀ c' a, m c = (c', Ok a) → co_inv c') →
  co_inv ((a ← m; mret (f a)) c).1.
Proof.
  intros Hm Hc Hok. unfold mbind, method_bind.
  destruct (m c) as [c' [a|e]] eqn:E; cbn; [by eapply Hok|]. by apply fail_safe in E as ->.
Qed.

Lemma co_preserves op c : co_inv c → co_inv (co_run op c).
Proof.
  intros Hc. unfold co_run.
  destruct op as [fs|cfg|d m|d b|t|n|d l|d l|d l|d|d|d t|d|d|d t|f fence|f]; unfold co_exec.
  - destruct Hc as [? ? ? ? ? ? ? [? ? ? ? ?]]. by constructor.
  - pose proof (owner_preserves (PsConfigure cfg) _ (co_stream _ Hc)).
    destruct Hc. by constructor.
  - apply (co_preserves_split _ (λ _, VUnit)); eauto using set_power_inv with typeclass_instances.
  - apply (co_preserves_split _ (λ _, VUnit)); eauto using set_vsync_inv with typeclass_instances.
  - unfold mbind, method_bind. destruct (presentation_sample t c) as [c' r] eqn:E.
    assert (co_inv c') as Hc'; [|by destruct r].
    apply presentation_sample_shape in E as [(-> & _)|(-> & _)]; [done|].
    destruct Hc. by constructor.
  - apply (co_preserves_split _ (λ _, VUnit)); [apply _|done|].
    intros c' a (s' & [Hcfg ->]%ps_acknowledge_Ok & ->)%on_transport_Ok.
    apply co_inv_transport; [done| |done].
    destruct (co_stream _ Hc); constructor; cbn; try done. congruence.
  - apply (co_preserves_split _ (λ _, VUnit)); [apply _|done|].
    intros c' a H. unfold create_layer in H. inv_co.
    apply invalidate_inv; [done|]. by apply insert_layer_ids.
  - apply (co_preserves_split _ (λ _, VUnit)); [apply _|done|].
    intros c' a (l0 & _ & [[_ ->]|[_ ->]])%update_layer_Ok; [done|].
    apply invalidate_inv; [done|]. by apply insert_layer_ids.
  - apply (co_preserves_split _ (λ _, VUnit)); [apply _|done|].
    intros c' a H. unfold destroy_layer in H. inv_co.
    apply invalidate_inv; [done|]. intros k l' [_ Hl]%lookup_delete_Some.
    by apply co_layer_ids in Hl.
  - apply (co_preserves_split _ VChanges); eauto using validate_display_inv with typeclass_instances.
  - apply (co_preserves_split _ (λ _, VUnit)); eauto using accept_changes_inv with typeclass_instances.
  - apply (co_preserves_split _ (λ _, VUnit)); [apply _|done|].
    intros c' a H. unfold set_client_target in H. inv_co. by apply set_target_inv.
  - unfold mbind, method_bind. destruct (present_display d c) as [c' r] eqn:E.
    apply present_display_inv in E; [|done]. by destruct r.
  - apply (co_preserves_split _ (λ _, VUnit)); [apply _|done|].
    intros c' a (_ & _ & _ & ->)%present_direct_Ok. by apply set_validation_inv.
  - apply (co_preserves_split _ VFrame); [apply _|done|].
    intros c' a (_ & _ & Hs & -> & _)%submit_rendered_Ok. by eapply co_submit_inv.
  - apply (co_preserves_split _ (λ r, VRetired (rf_frame_id r) (rf_buffer_id r)));
      [apply _|done|].
    intros c' r (s' & (_ & E & _)%ps_release_retires & ->)%on_transport_Ok.
    by eapply co_retire_inv.
  - apply (co_preserves_split _ (VRetired f)); [apply _|done|].
    intros c' r (s' & E & ->)%on_transport_Ok. by eapply co_retire_inv.
Qed.

(** ** Ownership of client targets *)

Definition flights (c : Composer) : gmap FrameId BufferId := ps_in_flight (co_transport c).

(** Operations that are neither submissions nor retirements. *)
Definition co_quiet (op : co_op) : bool :=
  match op with
  | CoPresent _ | CoSubmit _ _ | CoRelease _ _ | CoCancel _ => false
  | _ => true
  end.

Ltac solve_keeps :=
  repeat (intros;
    first [ apply _ | apply Keeps_bind; [|intros ?] | case_match | intros ?; done ]).

#[global] Instance acknowledge_keeps_flights n : Keeps flights (co_acknowledge_configure n).
Proof.
  intros c. destruct (co_acknowledge_configure n c) as [c' [a|e]] eqn:E; cbn.
  - by apply on_transport_Ok in E as (s' & [_ ->]%ps_acknowledge_Ok & ->).
  - by apply on_transport_fail_safe in E as ->; [|apply _].
Qed.

Lemma co_quiet_keeps op : co_quiet op = true → Keeps flights (co_exec op).
Proof.
  destruct op; intros Hq; try discriminate Hq; unfold co_exec, set_power_mode, set_vsync_enabled,
    presentation_sample, create_layer, update_layer, destroy_layer, validate_display,
    accept_display_changes, set_client_target, present_display_direct; solve_keeps.
Qed.

Lemma co_quiet_event op c : co_quiet op = true → co_event op c = Quiet.
Proof.
  destruct op; intros Hq; try discriminate Hq; unfold co_event, co_exec, mbind, method_bind;
    try done; repeat case_match; simplify_eq; done.
Qed.

Lemma co_submitted_step b d fence s :
  ps_inv s → ps_submittable b d fence s →
  own_step (ps_in_flight s) (Acquired (ps_next_frame_id s + 1) (b_id b))
    (ps_in_flight (ps_submitted b s)).
Proof.
  intros Hs Hsub. pose proof (owner_refines (PsSubmit b d fence) s Hs) as H.
  cbn in H. by rewrite (ps_submit_accepts _ _ _ _ Hsub) in H.
Qed.

Lemma co_refines op c :
  co_inv c → own_step (flights c) (co_event op c) (flights (co_run op c)).
Proof.
  intros Hc. destruct (co_quiet op) eqn:Hq.
  { rewrite co_quiet_event by done. unfold co_run.
    rewrite (co_quiet_keeps op Hq c). constructor. }
  destruct op as [| | | | | | | | | | | |d| |d t|f fence|f]; try discriminate Hq;
    unfold co_event, co_run, co_exec, mbind, method_bind.
  - destruct (present_display d c) as [c' [r|e]] eqn:E; cbn.
    + apply present_display_Ok in E as (_ & _ & t & _ & Hs & -> & ->).
      eapply co_submitted_step; [by apply co_stream | done].
    + apply present_display_Err in E as [->| ->]; constructor.
  - destruct (submit_rendered_target d t c) as [c' [r|e]] eqn:E; cbn.
    + apply submit_rendered_Ok in E as (_ & _ & Hs & -> & ->).
      eapply co_submitted_step; [by apply co_stream | done].
    + apply fail_safe in E as ->. constructor.
  - destruct (release_presented_target f fence c) as [c' [r|e]] eqn:E; cbn.
    + apply on_transport_Ok in E as (s' & (_ & [Hf ->]%ps_retire_Ok & -> & _)%ps_release_retires & ->).
      by constructor.
    + apply on_transport_fail_safe in E as ->; [constructor | apply _].
  - destruct (cancel_unsubmitted_target f c) as [c' [r|e]] eqn:E; cbn.
    + apply on_transport_Ok in E as (s' & [Hf ->]%ps_retire_Ok & ->). by constructor.
    + apply on_transport_fail_safe in E as ->; [constructor | unfold ps_cancel_unsubmitted; apply _].
Qed.

#[global] Instance co_owner_laws : BufferOwnerLaws Composer co_op.
Proof. split; [apply co_preserves | apply co_refines]. Qed.

(** ** Vertical-sync samples *)

Definition co_sample (op : co_op) (c : Composer) : option VsyncSample :=
  match (co_exec op c).2 with Ok (VSample s) => s | _ => None end.

(** The callbacks a display emits along a sequence of operations, each with the
    configure that was the latest one at the time. *)
Fixpoint co_samples (ops : list co_op) (c : Composer) : list (VsyncSample * option Configure) :=
  match ops with
  | [] => []
  | op :: ops =>
      match co_sample op c with
      | Some s => [(s, ps_latest_configure (co_transport c))]
      | None => []
      end ++ co_samples ops (co_run op c)
  end.

Lemma on_transport_keeps {X A} (g : Composer → X) (m : ps_method A) :
  (∀ p c, g (set_transport p c) = g c) → Keeps g (on_transport m).
Proof. intros Hg c. unfold on_transport. destruct (m _) as [s r]. apply Hg. Qed.

Definition co_clock (c : Composer) : DisplayId * option Z :=
  (co_display c, co_last_presentation_nanos c).

Lemma co_exec_keeps_clock op :
  (∀ t, op ≠ CoSample t) → Keeps co_clock (co_exec op).
Proof.
  destruct op; intros Hq; try (by edestruct Hq); unfold co_exec, set_power_mode,
    set_vsync_enabled, create_layer, update_layer, destroy_layer, validate_display, accept_display_changes,
    set_client_target, present_display, present_display_direct, submit_rendered_target,
    release_presented_target, cancel_unsubmitted_target, co_acknowledge_configure;
    solve_keeps; by apply on_transport_keeps.
Qed.

Lemma co_sample_none op c :
  (∀ t, op ≠ CoSample t) → co_sample op c = None.
Proof.
  destruct op; intros Hq; try (by edestruct Hq); unfold co_sample, co_exec, mbind, method_bind;
    repeat case_match; simplify_eq; done.
Qed.

Definition sample_lt (a b : VsyncSample * option Configure) : Prop :=
  vs_timestamp_nanos a.1 < vs_timestamp_nanos b.1.

(** What one callback says: the display's own identity, and the frame period
    of the latest configure. *)
Definition sample_faithful (display : DisplayId) (s : VsyncSample * option Configure) : Prop :=
  vs_display s.1 = display ∧
  ∃ cfg, s.2 = Some cfg ∧ c_refresh_millihz cfg ≠ 0
         ∧ vs_period_nanos s.1 = 1000000000000 / c_refresh_millihz cfg.

Definition after_last (c : Composer) (s : VsyncSample * option Configure) : Prop :=
  ∀ p, co_last_presentation_nanos c = Some p → p < vs_timestamp_nanos s.1.

Lemma co_sample_step op c s :
  co_inv c → co_sample op c = Some s →
  let entry := (s, ps_latest_configure (co_transport c)) in
  after_last c entry ∧ sample_faithful (co_display c) entry
  ∧ co_last_presentation_nanos (co_run op c) = Some (vs_timestamp_nanos s).
Proof.
  intros Hc Hs. assert (∃ t, op = CoSample t) as [t ->].
  { destruct op; eauto; by rewrite co_sample_none in Hs. }
  unfold co_sample, co_run, co_exec, mbind, method_bind in *.
  destruct (presentation_sample t c) as [c' r] eqn:E.
  apply presentation_sample_shape in E as
    [(-> & -> & _)|(-> & Hnew & [->|[->|(-> & _ & _ & Hr)]])]; try discriminate Hs.
  cbn in Hs. injection Hs as <-. split_and!; [done| |done].
  split; [done|]. cbn. rewrite (co_refresh_configured _ Hc) in Hr |- *.
  destruct (ps_latest_configure _) as [cfg|]; [|done]. eauto.
Qed.

Lemma co_sample_cases op : (∃ t, op = CoSample t) ∨ ∀ t, op ≠ CoSample t.
Proof. destruct op; try (right; congruence). left. eauto. Qed.

Lemma co_run_sample t c : co_run (CoSample t) c = (presentation_sample t c).1.
Proof. unfold co_run, co_exec, mbind, method_bind. by destruct (presentation_sample t c) as [? []]. Qed.

Lemma co_run_clock op c :
  co_display (co_run op c) = co_display c ∧
  ∀ p, co_last_presentation_nanos c = Some p →
    ∃ p', co_last_presentation_nanos (co_run op c) = Some p' ∧ p ≤ p'.
Proof.
  destruct (co_sample_cases op) as [[t ->]|Hne].
  - rewrite co_run_sample. destruct (presentation_sample t c) as [c' r] eqn:E. cbn [fst].
    apply presentation_sample_shape in E as [(-> & _)|(-> & Hnew & _)]; cbn.
    + split; [done|]. intros p Hp. exists p. split; [done | lia].
    + split; [done|]. intros p Hp. exists t. split; [done|]. apply Hnew in Hp. lia.
  - pose proof (co_exec_keeps_clock op Hne c) as H. unfold co_run.
    unfold co_clock in H. injection H as -> ->. split; [done|].
    intros p Hp. exists p. split; [done | lia].
Qed.

Lemma after_last_mono op c s : after_last (co_run op c) s → after_last c s.
Proof.
  intros Hs p Hp. destruct (proj2 (co_run_clock op c) p Hp) as (p' & Hp' & ?).
  specialize (Hs p' Hp'). lia.
Qed.

Lemma co_samples_ordered ops c :
  co_inv c →
  StronglySorted sample_lt (co_samples ops c)
  ∧ Forall (λ s, after_last c s ∧ sample_faithful (co_display c) s) (co_samples ops c).
Proof.
  revert c; induction ops as [|op ops IH]; intros c Hc; cbn [co_samples].
  { split; constructor. }
  destruct (IH _ (co_preserves op c Hc)) as [Hsort Hall].
  rewrite (proj1 (co_run_clock op c)) in Hall.
  assert (Forall (λ s, after_last c s ∧ sample_faithful (co_display c) s)
            (co_samples ops (co_run op c))) as Hrest.
  { eapply Forall_impl; [exact Hall|]. intros s [? ?]. eauto using after_last_mono. }
  destruct (co_sample op c) as [s|] eqn:Hs; [|done].
  destruct (co_sample_step op c s Hc Hs) as (Hlast & Hf & Hnow). cbn. split; constructor; try done.
  eapply Forall_impl; [exact Hall|]. intros s' [H _]. by apply H.
Qed.

(** ** Properties *)

(** C18: a task display presents only what the host can be shown.  After any
    sequence of Composer calls, a successful [presentDisplay] (with a client
    target or direct) finds every layer of the display unprotected and set to
    CLIENT composition, uses up the validation it relied on, and the
    target-carrying form submits exactly the pending target. *)
Theorem composer_presents_safe_layers display ops :
  let c := run_ops ops (composer_new display) in
  (∀ c' r, present_display display c = (c', Ok r) →
     (∀ k l, co_layers c !! k = Some l →
        l_requested_composition l = Client ∧ l_protected_content l = false)
     ∧ co_validated_generation c' = None ∧ co_client_target c' = None
     ∧ ∃ target, co_client_target c = Some target ∧ af_buffer (pr_frame r) = ct_buffer target
       ∧ flights c' = <[af_frame_id (pr_frame r) := b_id (ct_buffer target)]> (flights c))
  ∧ (∀ c' u, present_display_direct display c = (c', Ok u) →
     (∀ k l, co_layers c !! k = Some l →
        l_requested_composition l = Client ∧ l_protected_content l = false)
     ∧ co_validated_generation c' = None ∧ co_power_mode c = PowerOn ∧ flights c' = flights c).
Proof.
  intros c. pose proof (run_ops_inv ops _ (composer_new_inv display) : co_inv c) as Hc.
  assert (co_validated_generation c = Some (co_generation c) → co_changes_accepted c = true →
    ∀ k l, co_layers c !! k = Some l →
      l_requested_composition l = Client ∧ l_protected_content l = false) as Hsafe.
  { intros Hv Ha k l Hl. split; [by eapply co_accepted_client|].
    eapply co_validated_unprotected; [done| |done]. congruence. }
  split.
  - intros c' r (Hv & Ha & t & Ht & _ & Hr & ->)%present_display_Ok. rewrite Hr.
    split_and!; [exact (Hsafe Hv Ha) | done | done | eauto].
  - intros c' u (Hv & Ha & Hp & ->)%present_direct_Ok.
    split_and!; [exact (Hsafe Hv Ha) | done | done | done].
Qed.

Definition demo_display_ops : list co_op :=
  [CoFeedback [mkFormatModifier 875713089 0]; CoConfigure (mkConfigure 4 640 480 60000);
   CoPower 3 PowerOn; CoAcknowledge 4; CoCreateLayer 3 (mkLayer 1 Device 0 false);
   CoValidate 3; CoAccept 3; CoSetTarget 3 (mkTarget demo_buffer [] true)].

Lemma composer_presents_safe_layers_witness :
  let c := run_ops demo_display_ops (composer_new 3) in
  is_ok (present_display 3 c).2 = true
  ∧ co_validated_generation (present_display 3 c).1 = None.
Proof.
  pose proof (composer_presents_safe_layers 3 demo_display_ops) as H. intros c.
  assert (is_ok (present_display 3 c).2 = true) as Hok by (vm_compute; reflexivity).
  split; [exact Hok|]. destruct H as [H _]. fold c in H. clearbody c.
  destruct (present_display 3 c) as [c' [r|e]] eqn:E; [|discriminate Hok].
  destruct (H c' r eq_refl) as (_ & Hv & _). exact Hv.
Defined.

(** The callbacks of a display carry strictly increasing timestamps, the
    display's own identity and the refresh period of the latest configure,
    whatever the order of samples, power changes, configures and other calls. *)
Theorem vsync_samples_increase display ops :
  StronglySorted sample_lt (co_samples ops (composer_new display))
  ∧ Forall (sample_faithful display) (co_samples ops (composer_new display)).
Proof.
  destruct (co_samples_ordered ops (composer_new display) (composer_new_inv display)) as [? H].
  split; [done|]. eapply Forall_impl; [exact H|]. by intros s [_ ?].
Qed.

(** [present_display], unlike the direct form, does not look at the power mode. *)
Example present_display_ignores_power :
  let c := run_ops
    [CoFeedback [mkFormatModifier 875713089 0]; CoConfigure (mkConfigure 4 640 480 60000);
     CoAcknowledge 4; CoValidate 3; CoSetTarget 3 (mkTarget demo_buffer [] true)]
    (composer_new 3) in
  co_power_mode c = PowerOff ∧ is_ok (present_display 3 c).2 = true.
Proof. split; vm_compute; reflexivity. Qed.
