(* ===== verification/TaskWindows.v ===== *)
(** * Task windows (graphics/droidloom-composer/src/lib.rs, [TaskWindowSet])

    The table of native task windows: one reserved display with its own
    [Composer] per window, at most one Android task bound to each, and the index
    from tasks to displays.  Callers reach a composer only through the table, so
    a composer operation is an operation of the table here too. *)

From S2P Require Import Prelude Ownership Transport Protocol Composer.

Abbreviation TaskId := Z (only parsing).

Definition MAX_TASK_WINDOWS : Z := 4096.

Record TaskWindowSpec : Type := mkSpec {
  ts_task : TaskId;
  ts_display : DisplayId;
  ts_package : rust_string
}.

Record ReservedTaskWindowSpec : Type := mkReservation {
  rs_display : DisplayId;
  rs_package : rust_string
}.

Inductive TaskWindowError : Type :=
| WindowLimit
| InvalidTask
| InvalidDisplay
| DuplicateTask (task : TaskId)
| DuplicateDisplay (display : DisplayId)
| UnknownTask (task : TaskId)
| UnknownDisplay (display : DisplayId)
| UnboundDisplay (display : DisplayId)
| DisplayAlreadyBound (display : DisplayId)
| InvalidPackage
| BuffersInFlight (task : TaskId) (buffers : nat)
| DisplayBuffersInFlight (display : DisplayId) (buffers : nat).

(** ** Identities *)

Definition window_package_ok (package : rust_string) : bool :=
  negb (bool_decide (package = [])) && (zlen package <=? 255)
  && forallb (λ part, negb (bool_decide (part = []))
                      && forallb (λ byte, is_ascii_alphanumeric byte || (byte =? 95)) part)
       (split_dots package).

Definition validate_reservation (r : ReservedTaskWindowSpec) : result TaskWindowError unit :=
  fail_if (rs_display r =? 0) InvalidDisplay;;
  fail_if (negb (window_package_ok (rs_package r))) InvalidPackage.

Definition validate_spec (spec : TaskWindowSpec) : result TaskWindowError unit :=
  fail_if (ts_task spec =? 0) InvalidTask;;
  validate_reservation (mkReservation (ts_display spec) (ts_package spec)).

(** ** The table *)

Record TaskWindow : Type := mkWindow {
  tw_reservation : ReservedTaskWindowSpec;
  tw_spec : option TaskWindowSpec;
  tw_composer : Composer
}.

Record TaskWindowSet : Type := mkWindows {
  windows : gmap DisplayId TaskWindow;
  tasks : gmap TaskId DisplayId
}.

Definition no_windows : TaskWindowSet := mkWindows ∅ ∅.

Definition tw_method := method TaskWindowSet TaskWindowError.

Definition reserve (reservation : ReservedTaskWindowSpec) : tw_method unit :=
  s ← get;
  reject (MAX_TASK_WINDOWS <=? Z.of_nat (size (windows s))) WindowLimit;;
  lift (validate_reservation reservation);;
  reject (bool_decide (is_Some (windows s !! rs_display reservation)))
    (DuplicateDisplay (rs_display reservation));;
  let display := rs_display reservation in
  put (mkWindows (<[display := mkWindow reservation None (composer_new display)]> (windows s))
         (tasks s)).

Definition bind_task (display : DisplayId) (task : TaskId) : tw_method TaskWindowSpec :=
  reject (task =? 0) InvalidTask;;
  s ← get;
  reject (bool_decide (is_Some (tasks s !! task))) (DuplicateTask task);;
  window ← lift (ok_or (windows s !! display) (UnknownDisplay display));
  match tw_spec window with
  | Some spec =>
      if ts_task spec =? task then mret spec else throw (DisplayAlreadyBound display)
  | None =>
      let spec := mkSpec task display (rs_package (tw_reservation window)) in
      put (mkWindows
             (<[display := mkWindow (tw_reservation window) (Some spec) (tw_composer window)]>
                (windows s))
             (<[task := display]> (tasks s)));;
      mret spec
  end.

(** The tail of [create]: a failed bind takes the reservation back. *)
Definition bind_or_drop (display : DisplayId) (task : TaskId) : tw_method unit :=
  λ s, match bind_task display task s with
       | (s', Err error) => (mkWindows (delete display (windows s')) (tasks s'), Err error)
       | (s', Ok _) => (s', Ok tt)
       end.

Definition create (spec : TaskWindowSpec) : tw_method unit :=
  lift (validate_spec spec);;
  reserve (mkReservation (ts_display spec) (ts_package spec));;
  bind_or_drop (ts_display spec) (ts_task spec).

(** The [&mut Composer] of [composer_for_display_mut], as the operation run on
    it; [f] is the conversion its caller applies to a lookup failure. *)
Definition composer_for_display_mut {E A} (f : TaskWindowError → E) (display : DisplayId)
    (m : method Composer E A) : method TaskWindowSet E A :=
  λ s, match windows s !! display with
       | None => (s, Err (f (UnknownDisplay display)))
       | Some w =>
           let '(c', r) := m (tw_composer w) in
           (mkWindows (<[display := mkWindow (tw_reservation w) (tw_spec w) c']> (windows s))
              (tasks s), r)
       end.

Definition composer_mut {E A} (f : TaskWindowError → E) (task : TaskId)
    (m : method Composer E A) : method TaskWindowSet E A :=
  λ s, match tasks s !! task with
       | None => (s, Err (f (UnknownTask task)))
       | Some display =>
           match windows s !! display with
           | None => (s, Err (f (UnknownTask task)))
           | Some _ => composer_for_display_mut f display m s
           end
       end.

Definition composer_for_display (display : DisplayId) (s : TaskWindowSet)
  : result TaskWindowError Composer :=
  ok_or (tw_composer <$> windows s !! display) (UnknownDisplay display).

Definition task_for_display (display : DisplayId) (s : TaskWindowSet)
  : result TaskWindowError TaskId :=
  window ← ok_or (windows s !! display) (UnknownDisplay display);
  ok_or (ts_task <$> tw_spec window) (UnboundDisplay display).

Definition reservation_for_display (display : DisplayId) (s : TaskWindowSet)
  : result TaskWindowError ReservedTaskWindowSpec :=
  ok_or (tw_reservation <$> windows s !! display) (UnknownDisplay display).

Definition specs (s : TaskWindowSet) : list TaskWindowSpec :=
  omap tw_spec (btree_values (windows s)).

Definition get_task (task : TaskId) (s : TaskWindowSet) : result TaskWindowError TaskWindowSpec :=
  display ← ok_or (tasks s !! task) (UnknownTask task);
  ok_or (windows s !! display ≫= tw_spec) (UnknownTask task).

Definition remove_display (display : DisplayId) : tw_method (option TaskWindowSpec) :=
  s ← get;
  window ← lift (ok_or (windows s !! display) (UnknownDisplay display));
  let buffers := co_in_flight_count (tw_composer window) in
  reject (negb (buffers =? 0)%nat) (DisplayBuffersInFlight display buffers);;
  put (mkWindows (delete display (windows s))
         match tw_spec window with
         | Some spec => delete (ts_task spec) (tasks s)
         | None => tasks s
         end);;
  mret (tw_spec window).

Definition remove_task (task : TaskId) : tw_method TaskWindowSpec :=
  s ← get;
  display ← lift (ok_or (tasks s !! task) (UnknownTask task));
  window ← lift (ok_or (windows s !! display) (UnknownTask task));
  let buffers := co_in_flight_count (tw_composer window) in
  reject (negb (buffers =? 0)%nat) (BuffersInFlight task buffers);;
  spec ← remove_display display;
  lift (ok_or spec (UnknownTask task)).

Definition windows_len (s : TaskWindowSet) : nat := size (windows s).
Definition windows_is_empty (s : TaskWindowSet) : bool := bool_decide (windows s = ∅).

(** ** The operations as one type *)

Inductive tw_op : Type :=
| TwCreate (spec : TaskWindowSpec)
| TwReserve (reservation : ReservedTaskWindowSpec)
| TwBind (display : DisplayId) (task : TaskId)
| TwDisplay (display : DisplayId) (op : co_op)
| TwTask (task : TaskId) (op : co_op)
| TwRemove (task : TaskId)
| TwRemoveDisplay (display : DisplayId).

Inductive tw_error : Type := TwTable (e : TaskWindowError) | TwComposer (e : ComposerError).

(** [Composer] methods as callers of the table see them. *)
Definition co_lifted (op : co_op) : method Composer tw_error co_value :=
  λ c, let '(c', r) := co_exec op c in (c', map_err TwComposer r).

Definition tw_run (op : tw_op) (s : TaskWindowSet) : TaskWindowSet :=
  match op with
  | TwCreate spec => (create spec s).1
  | TwReserve r => (reserve r s).1
  | TwBind d t => (bind_task d t s).1
  | TwDisplay d op => (composer_for_display_mut TwTable d (co_lifted op) s).1
  | TwTask t op => (composer_mut TwTable t (co_lifted op) s).1
  | TwRemove t => (remove_task t s).1
  | TwRemoveDisplay d => (remove_display d s).1
  end.

Definition tw_exec (ops : list tw_op) (s : TaskWindowSet) : TaskWindowSet :=
  foldl (λ s op, tw_run op s) s ops.

(** ** The invariant *)

Record window_inv (d : DisplayId) (w : TaskWindow) : Prop := {
  wi_display : rs_display (tw_reservation w) = d;
  wi_valid : validate_reservation (tw_reservation w) = Ok tt;
  wi_composer_display : co_display (tw_composer w) = d;
  wi_composer : co_inv (tw_composer w);
  wi_spec spec : tw_spec w = Some spec →
    ts_task spec ≠ 0 ∧ spec = mkSpec (ts_task spec) d (rs_package (tw_reservation w))
}.

Record tw_inv (s : TaskWindowSet) : Prop := {
  ti_windows d w : windows s !! d = Some w → window_inv d w;
  ti_index t d : tasks s !! t = Some d ↔
    ∃ w spec, windows s !! d = Some w ∧ tw_spec w = Some spec ∧ ts_task spec = t;
  ti_bound : Z.of_nat (size (windows s)) ≤ MAX_TASK_WINDOWS
}.

Lemma no_windows_inv : tw_inv no_windows.
Proof.
  split; cbn; intros *; rewrite ?lookup_empty; try done.
  split; [done|]. intros (? & ? & ? & _). done.
Qed.

(** ** Runs of the operations *)

#[global] Instance reserve_fail_safe r : FailSafe (reserve r).
Proof. unfold reserve. solve_fail_safe. Qed.
#[global] Instance bind_task_fail_safe d t : FailSafe (bind_task d t).
Proof. unfold bind_task. solve_fail_safe. Qed.
#[global] Instance remove_display_fail_safe d : FailSafe (remove_display d).
Proof. unfold remove_display. solve_fail_safe. Qed.

Definition reserved (r : ReservedTaskWindowSpec) (s : TaskWindowSet) : TaskWindowSet :=
  mkWindows (<[rs_display r := mkWindow r None (composer_new (rs_display r))]> (windows s))
    (tasks s).

Definition bound (display : DisplayId) (task : TaskId) (w : TaskWindow) (s : TaskWindowSet)
  : TaskWindowSet :=
  mkWindows
    (<[display := mkWindow (tw_reservation w)
         (Some (mkSpec task display (rs_package (tw_reservation w)))) (tw_composer w)]> (windows s))
    (<[task := display]> (tasks s)).

Lemma reserve_iff r s s' u :
  reserve r s = (s', Ok u) ↔
  (Z.of_nat (size (windows s)) < MAX_TASK_WINDOWS ∧ validate_reservation r = Ok tt
   ∧ windows s !! rs_display r = None) ∧ s' = reserved r s.
Proof.
  unfold reserve. split.
  - intros H. inv_method. reflect. rewrite <- eq_None_not_Some in *. tauto.
  - intros ((Hs & Hv & Hd) & ->). unfold mbind, method_bind, get, reject, lift, put.
    rewrite (proj2 (Z.leb_gt _ _) Hs), Hv, Hd. by destruct u.
Qed.

Lemma bind_task_Ok d t s s' spec :
  bind_task d t s = (s', Ok spec) →
  t ≠ 0 ∧ tasks s !! t = None ∧ ∃ w, windows s !! d = Some w ∧
  (tw_spec w = Some spec ∧ ts_task spec = t ∧ s' = s ∨
   tw_spec w = None ∧ spec = mkSpec t d (rs_package (tw_reservation w)) ∧ s' = bound d t w s).
Proof.
  unfold bind_task. intros H. inv_method. reflect. rewrite <- eq_None_not_Some in *.
  split; [done|]. split; [done|]. exists a2. split; [done|].
  destruct (tw_spec a2) as [sp|]; [|inv_method; auto].
  destruct (Z.eqb_spec (ts_task sp) t); inv_method. subst. auto.
Qed.

Lemma bind_task_runs d t w s :
  t ≠ 0 → tasks s !! t = None → windows s !! d = Some w → tw_spec w = None →
  bind_task d t s = (bound d t w s, Ok (mkSpec t d (rs_package (tw_reservation w)))).
Proof.
  intros Ht Hn Hw Hs. unfold bind_task, mbind, method_bind, reject, get, lift, put.
  rewrite (proj2 (Z.eqb_neq _ _) Ht), Hn, Hw. cbn. by rewrite Hs.
Qed.

Lemma remove_display_Ok d s s' spec :
  remove_display d s = (s', Ok spec) →
  ∃ w, windows s !! d = Some w ∧ co_in_flight_count (tw_composer w) = 0%nat ∧ spec = tw_spec w
  ∧ s' = mkWindows (delete d (windows s))
           match tw_spec w with Some sp => delete (ts_task sp) (tasks s) | None => tasks s end.
Proof.
  unfold remove_display. intros H. inv_method. exists a0. split; [done|].
  reflect. apply Nat.eqb_eq in Hm1. auto.
Qed.

(** ** Every operation preserves the invariant *)

Lemma reserve_inv r s s' u : tw_inv s → reserve r s = (s', Ok u) → tw_inv s'.
Proof.
  intros [Hw Hi Hb] ((Hsize & Hv & Hfree) & ->)%reserve_iff. split; cbn.
  - intros d w [[<- <-]|[_ H]]%lookup_insert_Some; [|by apply Hw].
    split; cbn; try done. apply composer_new_inv.
  - intros t d. rewrite Hi. split; intros (w & sp & H & ?).
    + exists w, sp. rewrite lookup_insert_ne; [done | congruence].
    + apply lookup_insert_Some in H as [[<- <-]|[_ H]]; [by destruct H0 | eauto].
  - rewrite map_size_insert_None by done. lia.
Qed.

Lemma window_bound_inv d t w s :
  tw_inv s → t ≠ 0 → tasks s !! t = None → windows s !! d = Some w → tw_spec w = None →
  tw_inv (bound d t w s).
Proof.
  intros [Hw Hi Hb] Ht Hn Hd Hs. split; cbn.
  - intros d' w' [[<- <-]|[_ H]]%lookup_insert_Some; [|by apply Hw].
    destruct (Hw d w Hd). split; cbn; try done. by intros sp [= <-].
  - intros t' d'. split.
    + intros [[<- <-]|[Hne H]]%lookup_insert_Some.
      * do 2 eexists. rewrite lookup_insert_eq. by split_and!.
      * apply Hi in H as (w' & sp & Hw' & Hsp & <-). exists w', sp.
        rewrite lookup_insert_ne; [done | congruence].
    + intros (w' & sp & [[<- <-]|[Hne H]]%lookup_insert_Some & Hsp & <-).
      * injection Hsp as <-. apply lookup_insert_eq.
      * rewrite lookup_insert_ne; [apply Hi; eauto|].
        intros ->. assert (tasks s !! ts_task sp = Some d') by (apply Hi; eauto). congruence.
  - rewrite map_size_insert, Hd. exact Hb.
Qed.

Lemma bind_task_spec d t s s' spec :
  tw_inv s → bind_task d t s = (s', Ok spec) →
  t ≠ 0 ∧ tasks s !! t = None ∧ ∃ w, windows s !! d = Some w ∧ tw_spec w = None
  ∧ spec = mkSpec t d (rs_package (tw_reservation w)) ∧ s' = bound d t w s.
Proof.
  intros Hs (Ht & Hn & w & Hw & [(Hsp & Hst & _)|(Hsp & -> & ->)])%bind_task_Ok.
  - assert (tasks s !! t = Some d) by (apply ti_index; eauto). congruence.
  - eauto 10.
Qed.

(** A composer method that keeps the invariant and the display's identity. *)
Class CoGood {E A} (m : method Composer E A) : Prop :=
  co_good c : co_inv c → co_inv (m c).1 ∧ co_display (m c).1 = co_display c.

#[global] Instance co_exec_good op : CoGood (co_exec op).
Proof.
  intros c Hc. split; [by apply (co_preserves op) | apply (co_run_clock op c)].
Qed.

#[global] Instance co_lifted_good op : CoGood (co_lifted op).
Proof.
  intros c Hc. pose proof (co_exec_good op c Hc) as H. unfold co_lifted.
  by destruct (co_exec op c).
Qed.

Lemma composer_update_inv d w c' s :
  tw_inv s → windows s !! d = Some w → co_inv c' → co_display c' = co_display (tw_composer w) →
  tw_inv (mkWindows (<[d := mkWindow (tw_reservation w) (tw_spec w) c']> (windows s)) (tasks s)).
Proof.
  intros [Hw Hi Hb] Hd Hc Hdisp. split; cbn.
  - intros d' w' [[<- <-]|[_ H]]%lookup_insert_Some; [|by apply Hw].
    destruct (Hw d w Hd). split; cbn; try done. congruence.
  - intros t d'. rewrite Hi. split.
    + intros (w' & sp & H & Hsp & Ht). destruct (decide (d = d')) as [<-|].
      * do 2 eexists. rewrite lookup_insert_eq. split; [done|]. cbn. split; [|exact Ht]. congruence.
      * exists w', sp. by rewrite lookup_insert_ne.
    + intros (w' & sp & [[<- <-]|[_ H]]%lookup_insert_Some & Hsp & Ht); eauto.
  - rewrite map_size_insert, Hd. exact Hb.
Qed.

Lemma composer_mut_inv {E A} (f : TaskWindowError → E) d (m : method Composer E A) s :
  CoGood m → tw_inv s → tw_inv (composer_for_display_mut f d m s).1.
Proof.
  intros Hm Hs. unfold composer_for_display_mut.
  destruct (windows s !! d) as [w|] eqn:Hd; [|done].
  destruct (Hm (tw_composer w) (wi_composer _ _ (ti_windows _ Hs _ _ Hd))) as [Hc Hdisp].
  destruct (m (tw_composer w)) as [c' r]. by apply composer_update_inv.
Qed.

Lemma remove_display_inv d s s' spec :
  tw_inv s → remove_display d s = (s', Ok spec) → tw_inv s'.
Proof.
  intros Hs (w & Hd & _ & _ & ->)%remove_display_Ok. pose proof Hs as [Hw Hi Hb]. split; cbn.
  - intros d' w' [_ H]%lookup_delete_Some. by apply Hw.
  - intros t d'. transitivity (tasks s !! t = Some d' ∧ d ≠ d').
    + destruct (tw_spec w) as [sp|] eqn:Hsp; [rewrite lookup_delete_Some|].
      * assert (tasks s !! ts_task sp = Some d) by (apply Hi; eauto).
        split; [intros [Hne Ht] | intros [Ht Hne]; split; [congruence | done]].
        split; [done|]. intros <-. apply Hi in Ht as (w' & sp' & Hd' & Hsp' & <-). congruence.
      * split; [|by intros [? _]]. intros H. split; [done|]. intros <-.
        apply Hi in H as (w' & sp' & Hd' & Hsp' & _). congruence.
    + rewrite Hi. setoid_rewrite lookup_delete_Some. split.
      * intros [(w' & sp & H & Hsp) Hne]. eauto.
      * intros (w' & sp & [Hne H] & Hsp). eauto.
  - rewrite map_size_delete, Hd. lia.
Qed.

(** ** Creation is all or nothing *)

Definition window_creatable (spec : TaskWindowSpec) (s : TaskWindowSet) : Prop :=
  validate_spec spec = Ok tt ∧ Z.of_nat (size (windows s)) < MAX_TASK_WINDOWS
  ∧ windows s !! ts_display spec = None ∧ tasks s !! ts_task spec = None.

Definition created (spec : TaskWindowSpec) (s : TaskWindowSet) : TaskWindowSet :=
  mkWindows
    (<[ts_display spec := mkWindow (mkReservation (ts_display spec) (ts_package spec)) (Some spec)
                            (composer_new (ts_display spec))]> (windows s))
    (<[ts_task spec := ts_display spec]> (tasks s)).

#[global] Instance create_fail_safe spec : FailSafe (create spec).
Proof.
  unfold create. apply FailSafe_bind_readonly; [apply _|]. intros _ s s' e.
  intros [H|(s1 & [] & ((_ & _ & Hfree) & ->)%reserve_iff & H)]%m_bind_Err.
  { by apply fail_safe in H. }
  unfold bind_or_drop in H. destruct (bind_task _ _ _) as [s2 [sp|e']] eqn:E; [discriminate H|].
  apply fail_safe in E as ->. injection H as <- _. cbn in *.
  rewrite delete_insert_id by done. by destruct s.
Qed.

Lemma validate_spec_Ok spec :
  validate_spec spec = Ok tt ↔
  ts_task spec ≠ 0 ∧ validate_reservation (mkReservation (ts_display spec) (ts_package spec)) = Ok tt.
Proof.
  unfold validate_spec. destruct (Z.eqb_spec (ts_task spec) 0); cbn [fail_if]; split; try done.
  - by intros [? _].
  - by intros [_ ?].
Qed.

Lemma create_succeeds spec s s' u :
  create spec s = (s', Ok u) ↔ window_creatable spec s ∧ s' = created spec s.
Proof.
  unfold create, window_creatable. set (r := mkReservation (ts_display spec) (ts_package spec)).
  assert (∀ s1, windows s !! ts_display spec = None → s1 = reserved r s →
    bind_or_drop (ts_display spec) (ts_task spec) s1 = (s', Ok u) ↔
    ts_task spec ≠ 0 ∧ tasks s !! ts_task spec = None ∧ s' = created spec s) as Hbind.
  { intros s1 Hfree ->. set (w := mkWindow r None (composer_new (rs_display r))).
    assert (windows (reserved r s) !! ts_display spec = Some w) as Hw by apply lookup_insert_eq.
    assert (bound (ts_display spec) (ts_task spec) w (reserved r s) = created spec s) as Hc.
    { unfold bound, created, reserved; cbn. rewrite insert_insert_eq. by destruct spec. }
    unfold bind_or_drop. split.
    - destruct (bind_task _ _ _) as [s2 [sp|e]] eqn:E; [|discriminate].
      apply bind_task_Ok in E as (Ht & Hn & w' & Hw' & [(Hsp & _)|(_ & _ & ->)]).
      + assert (w' = w) as -> by congruence. discriminate Hsp.
      + intros [= <-]. assert (w' = w) as -> by congruence. by rewrite Hc.
    - intros (Ht & Hn & ->).
      rewrite (bind_task_runs _ _ w) by done. rewrite Hc. by destruct u. }
  split.
  - intros H. inv_method. apply reserve_iff in Hm0 as ((? & ? & Hfree) & ->).
    apply Hbind in H as (? & ? & ->); [|done|done]. done.
  - intros ((Hv & Hs & Hfree & Hn) & ->). apply m_bind_Ok. exists s, tt.
    split; [unfold lift; by rewrite Hv|]. apply validate_spec_Ok in Hv as [Ht Hr].
    apply m_bind_Ok. exists (reserved r s), tt. split; [by apply reserve_iff|].
    by apply Hbind.
Qed.

Lemma created_bound spec s :
  let r := mkReservation (ts_display spec) (ts_package spec) in
  created spec s = bound (ts_display spec) (ts_task spec)
                     (mkWindow r None (composer_new (ts_display spec))) (reserved r s).
Proof. unfold bound, created, reserved; cbn. rewrite insert_insert_eq. by destruct spec. Qed.

Lemma create_inv spec s s' u : tw_inv s → create spec s = (s', Ok u) → tw_inv s'.
Proof.
  intros Hs ((Hv & Hsize & Hfree & Hn) & ->)%create_succeeds.
  apply validate_spec_Ok in Hv as [Ht Hr]. rewrite created_bound.
  apply window_bound_inv; [|done|done|apply lookup_insert_eq|done].
  eapply (reserve_inv _ _ _ tt); [exact Hs|]. by apply reserve_iff.
Qed.

Lemma remove_task_runs t s s' r :
  tw_inv s → remove_task t s = (s', r) →
  match r with
  | Ok spec => ∃ d, tasks s !! t = Some d ∧ remove_display d s = (s', Ok (Some spec))
                    ∧ ts_task spec = t
  | Err _ => s' = s
  end.
Proof.
  intros Hs. unfold remove_task, mbind, method_bind, get, lift, reject.
  destruct (tasks s !! t) as [d|] eqn:Ht; cbn [ok_or]; [|by intros [= <- <-]].
  apply (ti_index _ Hs) in Ht as (w & spec & Hw & Hsp & <-).
  rewrite Hw; cbn [ok_or]. destruct (negb _); [by intros [= <- <-]|].
  destruct (remove_display d s) as [s1 [sp|e]] eqn:E.
  - pose proof E as (w' & Hw' & _ & -> & _)%remove_display_Ok. assert (w' = w) as -> by congruence.
    rewrite Hsp in E |- *. intros [= <- <-]. exists d. by split_and!.
  - apply fail_safe in E as ->. by intros [= <- <-].
Qed.

Lemma tw_run_inv op s : tw_inv s → tw_inv (tw_run op s).
Proof.
  intros Hs. destruct op as [spec|r|d t|d op|t op|t|d]; cbn.
  - destruct (create spec s) as [s' [u|e]] eqn:E; cbn; [by eapply create_inv|].
    by apply fail_safe in E as ->.
  - destruct (reserve r s) as [s' [u|e]] eqn:E; cbn; [by eapply reserve_inv|].
    by apply fail_safe in E as ->.
  - destruct (bind_task d t s) as [s' [u|e]] eqn:E; cbn.
    + apply bind_task_spec in E as (? & ? & w & ? & ? & _ & ->); [|done]. by apply window_bound_inv.
    + by apply fail_safe in E as ->.
  - apply composer_mut_inv; [apply _ | done].
  - unfold composer_mut. destruct (tasks s !! t) as [d|]; [|done].
    destruct (windows s !! d); [|done]. apply composer_mut_inv; [apply _ | done].
  - destruct (remove_task t s) as [s' r] eqn:E; cbn.
    apply remove_task_runs in E; [|done]. destruct r as [spec|e]; [|by subst].
    destruct E as (d & _ & E & _). by eapply remove_display_inv.
  - destruct (remove_display d s) as [s' [u|e]] eqn:E; cbn; [by eapply remove_display_inv|].
    by apply fail_safe in E as ->.
Qed.

Lemma tw_exec_inv ops s : tw_inv s → tw_inv (tw_exec ops s).
Proof.
  revert s; induction ops as [|op ops IH]; intros s Hs; cbn; [done|]. by apply IH, tw_run_inv.
Qed.

Lemma window_spec_display s d w spec :
  tw_inv s → windows s !! d = Some w → tw_spec w = Some spec → ts_display spec = d.
Proof.
  intros Hs Hw Hsp. by destruct (wi_spec _ _ (ti_windows _ Hs _ _ Hw) spec Hsp) as [_ ->].
Qed.

Lemma get_task_Ok t s spec :
  tw_inv s → get_task t s = Ok spec ↔
  ts_task spec = t ∧ ∃ w, windows s !! ts_display spec = Some w ∧ tw_spec w = Some spec.
Proof.
  intros Hs. unfold get_task. split.
  - intros H. inv_ok. apply (ti_index _ Hs) in Hm as (w & sp & Hw & Hsp & <-).
    rewrite Hw in H. cbn in H. assert (sp = spec) as -> by congruence. split; [done|].
    rewrite (window_spec_display s _ w spec Hs Hw Hsp). eauto.
  - intros (<- & w & Hw & Hsp).
    assert (tasks s !! ts_task spec = Some (ts_display spec)) as -> by (apply (ti_index _ Hs); eauto).
    cbn. rewrite Hw. cbn. by rewrite Hsp.
Qed.

Lemma task_for_display_Ok d s t :
  task_for_display d s = Ok t ↔
  ∃ w spec, windows s !! d = Some w ∧ tw_spec w = Some spec ∧ ts_task spec = t.
Proof.
  unfold task_for_display. split.
  - intros H. inv_ok. apply fmap_Some in H as (sp & Hsp & ->). eauto.
  - intros (w & sp & -> & Hsp & <-). cbn. by rewrite Hsp.
Qed.

(** ** Properties *)

(** The task index and the display table never disagree.  After any
    sequence of table and composer calls, the specification found for a task
    names the display that reports this task, no two displays report the same
    task, every composer answers for the display it is stored under, and the
    table holds at most [MAX_TASK_WINDOWS] windows. *)
Theorem window_index_consistent ops :
  let s := tw_exec ops no_windows in
  (∀ t d, task_for_display d s = Ok t ↔ ∃ spec, get_task t s = Ok spec ∧ ts_display spec = d)
  ∧ (∀ t d1 d2, task_for_display d1 s = Ok t → task_for_display d2 s = Ok t → d1 = d2)
  ∧ (∀ d c, composer_for_display d s = Ok c → co_display c = d ∧ co_inv c)
  ∧ Z.of_nat (windows_len s) ≤ MAX_TASK_WINDOWS.
Proof.
  intros s. assert (tw_inv s) as Hs by apply tw_exec_inv, no_windows_inv. split_and!.
  - intros t d. rewrite task_for_display_Ok. setoid_rewrite (get_task_Ok t s) ; [|done]. split.
    + intros (w & sp & Hw & Hsp & Ht). exists sp.
      rewrite (window_spec_display s d w sp Hs Hw Hsp). eauto.
    + intros (sp & (Ht & w & Hw & Hsp) & <-). eauto.
  - intros t d1 d2 H1%task_for_display_Ok H2%task_for_display_Ok.
    apply (ti_index _ Hs) in H1, H2. congruence.
  - intros d c H. unfold composer_for_display in H. inv_ok.
    apply fmap_Some in H as (w & Hw & ->). by destruct (ti_windows _ Hs _ _ Hw).
  - by apply ti_bound.
Qed.

Definition pkg : rust_string := [97; 46; 98]. (* a.b *)

Definition demo_windows : list tw_op :=
  [TwReserve (mkReservation 1 pkg); TwCreate (mkSpec 5 2 pkg); TwBind 1 9; TwBind 1 9;
   TwRemove 4; TwDisplay 2 (CoPower 2 PowerOn)].

Lemma window_index_consistent_witness :
  let s := tw_exec demo_windows no_windows in
  task_for_display 1 s = Ok 9 ∧ ∃ spec, get_task 9 s = Ok spec ∧ ts_display spec = 1.
Proof.
  split; [vm_compute; reflexivity|].
  apply (window_index_consistent demo_windows). vm_compute. reflexivity.
Defined.

(** Creating a window is all or nothing, and removal undoes it.  In every
    reachable table [create] succeeds exactly for a valid specification whose
    task and display are both new while the table is not full; otherwise it
    leaves the table as it was, the reservation of a failed bind included.  A
    window just created can be removed and that restores the table; a window
    whose targets the host still owns is never removed. *)
Theorem window_create_remove ops spec :
  let s := tw_exec ops no_windows in
  (window_creatable spec s →
     create spec s = (created spec s, Ok tt)
     ∧ remove_task (ts_task spec) (created spec s) = (s, Ok spec))
  ∧ (~ window_creatable spec s → ∃ e, create spec s = (s, Err e))
  ∧ (∀ s' t sp, remove_task t s = (s', Ok sp) →
     ∃ w, windows s !! ts_display sp = Some w ∧ flights (tw_composer w) = ∅).
Proof.
  intros s. assert (tw_inv s) as Hs by apply tw_exec_inv, no_windows_inv. split_and!.
  - intros Hc. split; [by apply create_succeeds|]. destruct Hc as (_ & _ & Hd & Ht).
    unfold remove_task, remove_display, mbind, method_bind, get, lift, reject, created; cbn.
    rewrite lookup_insert_eq; cbn. rewrite lookup_insert_eq; cbn.
    rewrite map_size_empty; cbn. unfold mret, method_ret; cbn. rewrite !delete_insert_id by done. by destruct s.
  - intros Hc. destruct (create spec s) as [s' [u|e]] eqn:E.
    + by apply create_succeeds in E as [? _].
    + apply fail_safe in E as ->. eauto.
  - intros s' t sp (d & Ht & (w & Hw & Hcount & Hsp & _)%remove_display_Ok & <-)%remove_task_runs; [|done].
    exists w. rewrite (window_spec_display s d w sp Hs Hw (eq_sym Hsp)).
    split; [done|]. by apply map_size_empty_inv.
Qed.

Lemma window_create_remove_witness :
  let s := tw_exec demo_windows no_windows in
  create (mkSpec 7 3 pkg) s = (created (mkSpec 7 3 pkg) s, Ok tt)
  ∧ ∃ e, create (mkSpec 9 3 pkg) s = (s, Err e).
Proof.
  split.
  - refine (proj1 (proj1 (window_create_remove demo_windows (mkSpec 7 3 pkg)) _)).
    vm_compute. done.
  - apply (window_create_remove demo_windows (mkSpec 9 3 pkg)).
    intros (_ & _ & _ & H). vm_compute in H. discriminate H.
Defined.

(** Specifications are listed by display, whatever the order of their tasks. *)
Example specs_in_display_order :
  map ts_task (specs (tw_exec demo_windows no_windows)) = [9; 5].
Proof. vm_compute. reflexivity. Qed.
