(* ===== verification/Hwc3.v ===== *)
(** * Composer command batches (graphics/droidloom-composer/src/hwc3.rs)

    One Binder-client session over the task windows: layer allocation, power
    and vertical sync per display, and the execution of bounded command batches
    in which every display is independent of the others. *)

From S2P Require Import Prelude Ownership Transport Protocol Composer TaskWindows.

Definition MAX_DISPLAY_COMMANDS : Z := 4096.
Definition MAX_LAYER_COMMANDS : Z := 4096.
Definition MAX_TARGET_DAMAGE_RECTS : Z := 256.
Definition MAX_BUFFER_SLOTS : Z := 4096.

Inductive ErrorCode : Type :=
| BadConfig | BadDisplay | BadLayer | BadParameter | NoResources | CodeNotValidated | Unsupported.

(** The [#[repr(i32)]] discriminants. *)
Definition ErrorCode_i32 (code : ErrorCode) : Z :=
  match code with
  | BadConfig => 1 | BadDisplay => 2 | BadLayer => 3 | BadParameter => 4
  | NoResources => 6 | CodeNotValidated => 7 | Unsupported => 8
  end.

#[global] Instance ErrorCode_eq_dec : EqDecision ErrorCode.
Proof. solve_decision. Defined.

Record LayerPatch : Type := mkPatch {
  lp_layer : LayerId;
  lp_composition : option Composition;
  lp_z : option Z;
  lp_protected_content : option bool;
  lp_has_sideband_stream : bool
}.

Record DisplayCommand : Type := mkCommand {
  dc_display : DisplayId;
  dc_layers : list LayerPatch;
  dc_client_target : option ClientTarget;
  dc_validate_display : bool;
  dc_accept_display_changes : bool;
  dc_present_display : bool;
  dc_present_or_validate_display : bool
}.

Inductive PresentOrValidateResult : Type := WasPresented | WasValidated.

Inductive CommandResult : Type :=
| ErrorResult (command_index : Z) (code : ErrorCode)
| ChangedCompositionTypes (display : DisplayId) (layers : list CompositionChange)
| PresentedFrame (display : DisplayId) (frame : AcceptedFrame) (requires_present_fence : bool)
| PresentDirect (display : DisplayId)
| PresentOrValidate (display : DisplayId) (outcome : PresentOrValidateResult).

Record Session : Type := mkSession {
  ss_windows : TaskWindowSet;
  next_layer : Z
}.

Definition session_default : Session := mkSession no_windows 0.

Definition map_task_error (error : TaskWindowError) : ErrorCode :=
  match error with
  | UnknownDisplay _ | UnknownTask _ => BadDisplay
  | WindowLimit | BuffersInFlight _ _ | DisplayBuffersInFlight _ _ => NoResources
  | InvalidTask | InvalidDisplay | DuplicateTask _ | DuplicateDisplay _ | UnboundDisplay _
  | DisplayAlreadyBound _ | InvalidPackage => BadParameter
  end.

Definition map_composer_error (error : ComposerError) : ErrorCode :=
  match error with
  | CoUnknownDisplay _ _ => BadDisplay
  | DuplicateLayer _ | UnknownLayer _ => BadLayer
  | NotValidated | ChangesNotAccepted => CodeNotValidated
  | UnsupportedPowerMode _ | CoProtectedContent _ => Unsupported
  | CoTransport (BufferInFlight _ | FrameIdExhausted) => NoResources
  | MissingClientTarget | DisplayOff | MissingRefreshRate | CoTransport _ => BadParameter
  end.

(** ** Calls on one display *)

Definition ss_method := method Session ErrorCode.

Definition on_windows {E A} (m : method TaskWindowSet E A) : method Session E A :=
  λ s, let '(w', r) := m (ss_windows s) in (mkSession w' (next_layer s), r).

(** A composer call with its error converted by [map_composer_error]. *)
Definition coded {A} (m : co_method A) : method Composer ErrorCode A :=
  λ c, let '(c', r) := m c in (c', map_err map_composer_error r).

Definition on_display {A} (display : DisplayId) (m : co_method A) : ss_method A :=
  on_windows (composer_for_display_mut map_task_error display (coded m)).

Definition create_task_window (spec : TaskWindowSpec) : method Session TaskWindowError unit :=
  on_windows (create spec).

Definition ss_create_layer (display : DisplayId) (buffer_slot_count : Z) : ss_method LayerId :=
  reject ((buffer_slot_count =? 0) || (MAX_BUFFER_SLOTS <? buffer_slot_count)) BadParameter;;
  s ← get;
  next ← lift (ok_or (checked_add u64_max (next_layer s) 1) NoResources);
  on_display display (create_layer display (mkLayer next Client 0 false));;
  modify (λ s, mkSession (ss_windows s) next);;
  mret next.

Definition ss_destroy_layer (display : DisplayId) (layer : LayerId) : ss_method unit :=
  on_display display (destroy_layer display layer).

Definition ss_set_power_mode (display : DisplayId) (mode : PowerMode) : ss_method unit :=
  on_display display (set_power_mode display mode).

Definition ss_set_vsync_enabled (display : DisplayId) (enabled : bool) : ss_method unit :=
  on_display display (set_vsync_enabled display enabled).

Definition ss_release_presented_target (display : DisplayId) (frame : FrameId)
    (has_release_fence : bool) : ss_method ReleasedFrame :=
  on_display display (release_presented_target frame has_release_fence).

(** ** One command

    The body runs on the borrowed composer and on the vector of results, both
    of which keep what was done before an error. *)

Definition cmd_method := method (Composer * list CommandResult) ErrorCode.

Definition co {A} (m : co_method A) : cmd_method A :=
  λ '(c, out), let '(c', r) := m c in ((c', out), map_err map_composer_error r).

Definition push (r : CommandResult) : cmd_method unit :=
  λ '(c, out), ((c, out ++ [r]), Ok tt).

Definition push_changes (display : DisplayId) (layers : list CompositionChange)
  : cmd_method unit :=
  if decide (layers = []) then mret tt else push (ChangedCompositionTypes display layers).

Definition patched (patch : LayerPatch) (state : LayerState) : LayerState :=
  mkLayer (l_id state)
    (default (l_requested_composition state) (lp_composition patch))
    (default (l_z state) (lp_z patch))
    (default (l_protected_content state) (lp_protected_content patch)).

Definition apply_patch (display : DisplayId) (patch : LayerPatch) : cmd_method unit :=
  reject (lp_has_sideband_stream patch) Unsupported;;
  state ← co (layer_state display (lp_layer patch));
  co (update_layer display (patched patch state)).

Fixpoint apply_patches (display : DisplayId) (patches : list LayerPatch) : cmd_method unit :=
  match patches with
  | [] => mret tt
  | patch :: patches => apply_patch display patch;; apply_patches display patches
  end.

Definition present_or_validate (display : DisplayId) : cmd_method unit :=
  λ '(c, out),
    match present_display_direct display c with
    | (c', Ok _) =>
        (push (PresentDirect display);; push (PresentOrValidate display WasPresented)) (c', out)
    | (c', Err NotValidated) =>
        (changes ← co (validate_display display);
         push_changes display changes;;
         push (PresentOrValidate display WasValidated)) (c', out)
    | (c', Err error) => ((c', out), Err (map_composer_error error))
    end.

Definition command_body (command : DisplayCommand) : cmd_method unit :=
  let display := dc_display command in
  apply_patches display (dc_layers command);;
  match dc_client_target command with
  | Some target => co (set_client_target display target)
  | None => mret tt
  end;;
  if dc_present_or_validate_display command then present_or_validate display
  else
    (if dc_validate_display command
     then changes ← co (validate_display display); push_changes display changes
     else mret tt);;
    (if dc_accept_display_changes command then co (accept_display_changes display) else mret tt);;
    (if dc_present_display command
     then co (present_display_direct display);; push (PresentDirect display)
     else mret tt).

Definition command_in_bounds (command : DisplayCommand) : bool :=
  negb ((MAX_LAYER_COMMANDS <? zlen (dc_layers command))
        || match dc_client_target command with
           | Some target => MAX_TARGET_DAMAGE_RECTS <? zlen (ct_damage target)
           | None => false
           end)
  && negb (dc_present_or_validate_display command
           && (dc_validate_display command || dc_accept_display_changes command
               || dc_present_display command)).

Definition execute_one (command : DisplayCommand)
  : method (Session * list CommandResult) ErrorCode unit :=
  λ '(s, results),
    if negb (command_in_bounds command) then ((s, results), Err BadParameter)
    else
      let table := ss_windows s in
      match windows table !! dc_display command with
      | None => ((s, results), Err (map_task_error (UnknownDisplay (dc_display command))))
      | Some w =>
          let '((c', results'), r) := command_body command (tw_composer w, results) in
          ((mkSession
              (mkWindows
                 (<[dc_display command := mkWindow (tw_reservation w) (tw_spec w) c']>
                    (windows table)) (tasks table))
              (next_layer s), results'), r)
      end.

(** [u32::try_from(index).unwrap_or(u32::MAX)]. *)
Definition u32_index (index : Z) : Z := if index <=? u32_max then index else u32_max.

Fixpoint execute_from (index : Z) (commands : list DisplayCommand)
    (state : Session * list CommandResult) : Session * list CommandResult :=
  match commands with
  | [] => state
  | command :: commands =>
      let '((s', results'), r) := execute_one command state in
      execute_from (index + 1) commands
        (s', match r with
             | Ok _ => results'
             | Err code => results' ++ [ErrorResult (u32_index index) code]
             end)
  end.

Definition execute_commands (commands : list DisplayCommand) (s : Session)
  : Session * list CommandResult :=
  if MAX_DISPLAY_COMMANDS <? zlen commands
  then (s, [ErrorResult (u32_index MAX_DISPLAY_COMMANDS) BadParameter])
  else execute_from 0 commands (s, []).

(** ** Commands are local to their display *)

Definition result_display (r : CommandResult) : option DisplayId :=
  match r with
  | ErrorResult _ _ => None
  | ChangedCompositionTypes d _ | PresentedFrame d _ _ | PresentDirect d
  | PresentOrValidate d _ => Some d
  end.

(** A step of a command: its effect on the composer and the results it appends
    do not depend on the results so far, and the latter name its display. *)
Class CmdLocal {A} (display : DisplayId) (m : cmd_method A) : Prop :=
  cmd_local c : ∃ c' new r, Forall (λ x, result_display x = Some display) new
                  ∧ ∀ out, m (c, out) = ((c', out ++ new), r).

#[global] Instance cmd_local_bind {A B} d (m : cmd_method A) (f : A → cmd_method B) :
  CmdLocal d m → (∀ a, CmdLocal d (f a)) → CmdLocal d (m ≫= f).
Proof.
  intros Hm Hf c. destruct (Hm c) as (c1 & new1 & [a|e] & Hn1 & Hr1).
  - destruct (Hf a c1) as (c2 & new2 & r2 & Hn2 & Hr2). exists c2, (new1 ++ new2), r2.
    split; [by apply Forall_app|]. intros out. unfold mbind, method_bind.
    by rewrite Hr1, Hr2, app_assoc.
  - exists c1, new1, (Err e). split; [done|]. intros out. unfold mbind, method_bind. by rewrite Hr1.
Qed.

#[global] Instance cmd_local_ret {A} d (a : A) : CmdLocal d (mret a).
Proof. intros c. exists c, [], (Ok a). split; [done|]. intros out. by rewrite app_nil_r. Qed.

#[global] Instance cmd_local_reject d b e : CmdLocal d (reject b e).
Proof. intros c. do 3 eexists. split; [constructor|]. intros out. by rewrite app_nil_r. Qed.

#[global] Instance cmd_local_co {A} d (m : co_method A) : CmdLocal d (co m).
Proof.
  intros c. unfold co. destruct (m c) as [c' r]. do 3 eexists. split; [constructor|].
  intros out. by rewrite app_nil_r.
Qed.

Lemma cmd_local_push d r : result_display r = Some d → CmdLocal d (push r).
Proof. intros Hr c. exists c, [r], (Ok tt). split; [by constructor | done]. Qed.

#[global] Instance cmd_local_changes d ls : CmdLocal d (push_changes d ls).
Proof. unfold push_changes. case_match; [apply _ | by apply cmd_local_push]. Qed.

#[global] Instance cmd_local_direct d : CmdLocal d (push (PresentDirect d)).
Proof. by apply cmd_local_push. Qed.
#[global] Instance cmd_local_outcome d o : CmdLocal d (push (PresentOrValidate d o)).
Proof. by apply cmd_local_push. Qed.

#[global] Instance cmd_local_patches d ps : CmdLocal d (apply_patches d ps).
Proof. induction ps; cbn [apply_patches]; [|unfold apply_patch]; apply _. Qed.

#[global] Instance cmd_local_present_or_validate d : CmdLocal d (present_or_validate d).
Proof.
  intros c. unfold present_or_validate. destruct (present_display_direct d c) as [c1 [u|e]].
  - apply (cmd_local_bind d (push (PresentDirect d)) _ _ _ c1).
  - destruct e; try (exists c1, []; eexists; split; [done|]; intros out; by rewrite app_nil_r).
    apply (cmd_local_bind d _ _ _ _ c1).
Qed.

#[global] Instance cmd_local_body cmd : CmdLocal (dc_display cmd) (command_body cmd).
Proof. unfold command_body. repeat case_match; apply _. Qed.

(** ** What one display sees of a batch *)

Definition display_view : Type := option TaskWindow * list CommandResult.

(** The window of a display and the results that name it. *)
Definition view (d : DisplayId) (st : Session * list CommandResult) : display_view :=
  (windows (ss_windows st.1) !! d, filter (λ r, result_display r = Some d) st.2).

(** The reference semantics: a command alone on its display. *)
Definition view_step (v : display_view) (cmd : DisplayCommand) : display_view :=
  if negb (command_in_bounds cmd) then v
  else match v.1 with
       | None => v
       | Some w =>
           let '((c', new), _) := command_body cmd (tw_composer w, []) in
           (Some (mkWindow (tw_reservation w) (tw_spec w) c'), v.2 ++ new)
       end.

Lemma filter_tagged d d' (new : list CommandResult) :
  Forall (λ x, result_display x = Some d') new →
  filter (λ r, result_display r = Some d) new = if decide (d' = d) then new else [].
Proof.
  induction 1 as [|x new Hx _ IH]; [by case_decide|]. rewrite filter_cons, IH, Hx.
  repeat case_decide; congruence.
Qed.

Lemma execute_one_view d cmd st :
  view d (execute_one cmd st).1 =
  if decide (dc_display cmd = d) then view_step (view d st) cmd else view d st.
Proof.
  destruct st as [s out]. unfold execute_one, view_step, view.
  destruct (negb (command_in_bounds cmd)); [by case_decide|]. cbn [fst snd].
  destruct (decide (dc_display cmd = d)) as [<-|Hne].
  - destruct (windows (ss_windows s) !! dc_display cmd) as [w|] eqn:Hw; [|by cbn; rewrite Hw].
    destruct (cmd_local_body cmd (tw_composer w)) as (c' & new & r & Hn & Hr).
    rewrite !Hr. cbn [fst snd ss_windows windows app].
    by rewrite lookup_insert_eq, filter_app, (filter_tagged _ _ _ Hn), decide_True.
  - destruct (windows (ss_windows s) !! dc_display cmd) as [w|] eqn:Hw; [|done].
    destruct (cmd_local_body cmd (tw_composer w)) as (c' & new & r & Hn & Hr).
    rewrite !Hr. cbn [fst snd ss_windows windows app].
    by rewrite lookup_insert_ne, filter_app, (filter_tagged _ _ _ Hn), decide_False, app_nil_r.
Qed.

Lemma execute_from_view d i cmds st :
  view d (execute_from i cmds st) =
  foldl view_step (view d st) (filter (λ cmd, dc_display cmd = d) cmds).
Proof.
  revert i st; induction cmds as [|cmd cmds IH]; intros i st; cbn [execute_from]; [done|].
  pose proof (execute_one_view d cmd st) as H.
  destruct (execute_one cmd st) as [[s' out'] r]. rewrite IH, filter_cons.
  assert (view d (s', match r with Ok _ => out' | Err code => out' ++ [ErrorResult (u32_index i) code] end)
          = view d (s', out')) as ->.
  { destruct r; [done|]. unfold view; cbn [fst snd]. by rewrite filter_app, app_nil_r. }
  cbn [fst] in H. rewrite H. by case_decide.
Qed.

(** ** Errors of a batch *)

Lemma execute_one_errors cmd st k code :
  ErrorResult k code ∈ (execute_one cmd st).1.2 ↔ ErrorResult k code ∈ st.2.
Proof.
  destruct st as [s out]. unfold execute_one. destruct (negb _); [done|].
  destruct (windows _ !! _) as [w|]; [|done].
  destruct (cmd_local_body cmd (tw_composer w)) as (c' & new & r & Hn & Hr). rewrite Hr; cbn.
  rewrite elem_of_app. split; [|by left]. intros [?|H]; [done|].
  rewrite Forall_forall in Hn. by apply Hn in H.
Qed.

(** The error of position [k] is the failure of the command at position [k], in
    the state its predecessors left. *)
Lemma execute_from_errors cmds i st k code :
  ErrorResult k code ∈ (execute_from i cmds st).2 ↔
  ErrorResult k code ∈ st.2 ∨
  ∃ pre cmd post, cmds = pre ++ cmd :: post ∧ k = u32_index (i + zlen pre)
    ∧ (execute_one cmd (execute_from i pre st)).2 = Err code.
Proof.
  revert i st; induction cmds as [|cmd cmds IH]; intros i st; cbn [execute_from].
  { split; [by left|]. intros [?|(pre & cmd & post & H & _)]; [done|].
    by apply app_cons_not_nil in H. }
  pose proof (execute_one_errors cmd st k code) as Hone.
  destruct (execute_one cmd st) as [[s' out'] r] eqn:E. rewrite IH. cbn [fst snd] in *. clear IH.
  split.
  - intros [H|(pre & c & post & -> & -> & Hc)].
    + destruct r as [u|e]; [left; by apply Hone|]. apply elem_of_app in H as [H|H].
      * left. by apply Hone.
      * apply list_elem_of_singleton in H. injection H as -> ->. right. exists [], cmd, cmds.
        unfold zlen; cbn. rewrite Z.add_0_r, E. done.
    + right. exists (cmd :: pre), c, post. split; [done|]. cbn [execute_from]. rewrite E.
      split; [unfold zlen; cbn [length]; f_equal; lia | done].
  - intros [H|([|c0 pre] & c & post & Heq & -> & Hc)].
    + left. apply Hone in H. destruct r; [done|]. apply elem_of_app. by left.
    + injection Heq as -> ->. cbn [execute_from] in Hc. rewrite E in Hc. cbn in Hc. subst r.
      left. apply elem_of_app. right. unfold zlen; cbn. rewrite Z.add_0_r. by constructor.
    + injection Heq as -> ->. cbn [execute_from] in Hc. rewrite E in Hc.
      right. exists pre, c, post. split; [done|].
      split; [unfold zlen; cbn [length]; f_equal; lia | done].
Qed.

(** ** Sessions *)

#[global] Instance coded_good {A} (m : co_method A) : CoGood m → CoGood (coded m).
Proof. intros Hm c Hc. specialize (Hm c Hc). unfold coded. by destruct (m c). Qed.

Lemma co_good_of {A} (m : co_method A) (f : A → co_value) :
  CoGood (a ← m; mret (f a)) → CoGood m.
Proof.
  intros Hm c Hc. specialize (Hm c Hc). unfold mbind, method_bind in Hm.
  by destruct (m c) as [c' [a|e]].
Qed.

#[global] Instance create_layer_good d l : CoGood (create_layer d l).
Proof. exact (co_good_of _ _ (co_exec_good (CoCreateLayer d l))). Qed.
#[global] Instance update_layer_good d l : CoGood (update_layer d l).
Proof. exact (co_good_of _ _ (co_exec_good (CoUpdateLayer d l))). Qed.
#[global] Instance destroy_layer_good d l : CoGood (destroy_layer d l).
Proof. exact (co_good_of _ _ (co_exec_good (CoDestroyLayer d l))). Qed.
#[global] Instance set_power_mode_good d m : CoGood (set_power_mode d m).
Proof. exact (co_good_of _ _ (co_exec_good (CoPower d m))). Qed.
#[global] Instance set_vsync_good d b : CoGood (set_vsync_enabled d b).
Proof. exact (co_good_of _ _ (co_exec_good (CoVsync d b))). Qed.
#[global] Instance validate_good d : CoGood (validate_display d).
Proof. exact (co_good_of _ _ (co_exec_good (CoValidate d))). Qed.
#[global] Instance accept_good d : CoGood (accept_display_changes d).
Proof. exact (co_good_of _ _ (co_exec_good (CoAccept d))). Qed.
#[global] Instance set_target_good d t : CoGood (set_client_target d t).
Proof. exact (co_good_of _ _ (co_exec_good (CoSetTarget d t))). Qed.
#[global] Instance present_direct_good d : CoGood (present_display_direct d).
Proof. exact (co_good_of _ _ (co_exec_good (CoPresentDirect d))). Qed.
#[global] Instance release_good f fence : CoGood (release_presented_target f fence).
Proof. exact (co_good_of _ _ (co_exec_good (CoRelease f fence))). Qed.
#[global] Instance layer_state_good d l : CoGood (layer_state d l).
Proof. intros c Hc. by rewrite (layer_state_read d l c). Qed.

Class CmdGood {A} (m : cmd_method A) : Prop :=
  cmd_good c out : co_inv c →
    co_inv (m (c, out)).1.1 ∧ co_display (m (c, out)).1.1 = co_display c.

#[global] Instance cmd_good_bind {A B} (m : cmd_method A) (f : A → cmd_method B) :
  CmdGood m → (∀ a, CmdGood (f a)) → CmdGood (m ≫= f).
Proof.
  intros Hm Hf c out Hc. destruct (Hm c out Hc) as [H1 H2]. unfold mbind, method_bind.
  destruct (m (c, out)) as [[c1 out1] [a|e]]; cbn in *; [|done].
  destruct (Hf a c1 out1 H1) as [H3 H4]. split; [done | congruence].
Qed.
#[global] Instance cmd_good_ret {A} (a : A) : CmdGood (mret a).
Proof. done. Qed.
#[global] Instance cmd_good_reject b e : CmdGood (reject b e).
Proof. done. Qed.
#[global] Instance cmd_good_co {A} (m : co_method A) : CoGood m → CmdGood (co m).
Proof. intros Hm c out Hc. specialize (Hm c Hc). unfold co. by destruct (m c). Qed.
#[global] Instance cmd_good_push r : CmdGood (push r).
Proof. done. Qed.
#[global] Instance cmd_good_changes d ls : CmdGood (push_changes d ls).
Proof. unfold push_changes. case_match; apply _. Qed.
#[global] Instance cmd_good_patches d ps : CmdGood (apply_patches d ps).
Proof. induction ps; cbn [apply_patches]; [|unfold apply_patch]; apply _. Qed.

#[global] Instance cmd_good_present_or_validate d : CmdGood (present_or_validate d).
Proof.
  intros c out Hc. unfold present_or_validate.
  pose proof (present_direct_good d c Hc) as [H1 H2].
  destruct (present_display_direct d c) as [c1 [u|e]]; cbn [fst] in *; [done|].
  rewrite <- H2. destruct e; try done.
  refine (cmd_good_bind _ _ _ _ c1 out H1).
Qed.

#[global] Instance cmd_good_body cmd : CmdGood (command_body cmd).
Proof. unfold command_body. repeat case_match; apply _. Qed.

Lemma execute_one_inv cmd s out :
  tw_inv (ss_windows s) → tw_inv (ss_windows (execute_one cmd (s, out)).1.1).
Proof.
  intros Hs. unfold execute_one. destruct (negb _); [done|].
  destruct (windows _ !! _) as [w|] eqn:Hw; [|done].
  pose proof (cmd_good_body cmd (tw_composer w) out (wi_composer _ _ (ti_windows _ Hs _ _ Hw)))
    as [H1 H2].
  destruct (command_body cmd (tw_composer w, out)) as [[c' out'] r]. cbn in *.
  by apply composer_update_inv.
Qed.

Lemma execute_from_inv cmds i st :
  tw_inv (ss_windows st.1) → tw_inv (ss_windows (execute_from i cmds st).1).
Proof.
  revert i st; induction cmds as [|cmd cmds IH]; intros i [s out] Hs; cbn [execute_from]; [done|].
  pose proof (execute_one_inv cmd s out Hs) as H.
  destruct (execute_one cmd (s, out)) as [[s' out'] r]. by apply IH.
Qed.

Inductive ss_op : Type :=
| SsTable (op : tw_op)
| SsCreateLayer (display : DisplayId) (buffer_slot_count : Z)
| SsDestroyLayer (display : DisplayId) (layer : LayerId)
| SsPower (display : DisplayId) (mode : PowerMode)
| SsVsync (display : DisplayId) (enabled : bool)
| SsExecute (commands : list DisplayCommand)
| SsRelease (display : DisplayId) (frame : FrameId) (has_release_fence : bool).

Definition ss_run (op : ss_op) (s : Session) : Session :=
  match op with
  | SsTable op => mkSession (tw_run op (ss_windows s)) (next_layer s)
  | SsCreateLayer d n => (ss_create_layer d n s).1
  | SsDestroyLayer d l => (ss_destroy_layer d l s).1
  | SsPower d m => (ss_set_power_mode d m s).1
  | SsVsync d b => (ss_set_vsync_enabled d b s).1
  | SsExecute cmds => (execute_commands cmds s).1
  | SsRelease d f fence => (ss_release_presented_target d f fence s).1
  end.

Definition ss_exec (ops : list ss_op) (s : Session) : Session :=
  foldl (λ s op, ss_run op s) s ops.

Lemma on_display_inv {A} d (m : co_method A) s :
  CoGood m → tw_inv (ss_windows s) → tw_inv (ss_windows (on_display d m s).1).
Proof.
  intros Hm Hs. unfold on_display, on_windows.
  pose proof (composer_mut_inv map_task_error d (coded m) (ss_windows s) _ Hs) as H.
  by destruct (composer_for_display_mut _ _ _ _).
Qed.

Lemma ss_create_layer_inv d n s :
  tw_inv (ss_windows s) → tw_inv (ss_windows (ss_create_layer d n s).1).
Proof.
  intros Hs. unfold ss_create_layer, mbind, method_bind, reject, get, lift, modify.
  destruct (_ || _); [done|]. destruct (ok_or _ _) as [next|]; [|done].
  pose proof (on_display_inv d (create_layer d (mkLayer next Client 0 false)) s _ Hs) as H.
  by destruct (on_display _ _ s) as [s' [u|e]].
Qed.

Lemma ss_exec_inv ops s : tw_inv (ss_windows s) → tw_inv (ss_windows (ss_exec ops s)).
Proof.
  revert s; induction ops as [|op ops IH]; intros s Hs; cbn; [done|]. apply IH. clear IH.
  destruct op; cbn [ss_run]; try (apply on_display_inv; [apply _ | done]).
  - by apply tw_run_inv.
  - by apply ss_create_layer_inv.
  - unfold execute_commands. destruct (_ <? _); [done|]. by apply execute_from_inv.
Qed.

(** ** Presents inside a batch *)

Definition no_direct (out : list CommandResult) : Prop := ∀ d, PresentDirect d ∉ out.

(** Every layer may be shown: unprotected, composed by the client, display on. *)
Definition showable (c : Composer) : Prop :=
  co_power_mode c = PowerOn ∧ ∀ k l, co_layers c !! k = Some l →
    l_requested_composition l = Client ∧ l_protected_content l = false.

Class NoDirect {A} (m : cmd_method A) : Prop :=
  keeps_no_direct c out : no_direct out → no_direct (m (c, out)).1.2.
Class DirectSafe {A} (m : cmd_method A) : Prop :=
  direct_safe c out d : co_inv c → no_direct out →
    PresentDirect d ∈ (m (c, out)).1.2 → showable (m (c, out)).1.1.

#[global] Instance no_direct_bind {A B} (m : cmd_method A) (f : A → cmd_method B) :
  NoDirect m → (∀ a, NoDirect (f a)) → NoDirect (m ≫= f).
Proof.
  intros Hm Hf c out Hout. specialize (Hm c out Hout). unfold mbind, method_bind.
  destruct (m (c, out)) as [[c1 out1] [a|e]]; [by apply Hf | done].
Qed.
#[global] Instance no_direct_ret {A} (a : A) : NoDirect (mret a).
Proof. intros c out H. exact H. Qed.
#[global] Instance no_direct_reject b e : NoDirect (reject b e).
Proof. intros c out H. exact H. Qed.
#[global] Instance no_direct_co {A} (m : co_method A) : NoDirect (co m).
Proof. intros c out H. unfold co. by destruct (m c). Qed.
Lemma no_direct_push r : (∀ d, r ≠ PresentDirect d) → NoDirect (push r).
Proof.
  intros Hr c out H d. cbn. rewrite elem_of_app, list_elem_of_singleton.
  intros [Hd|Hd]; [by eapply H | by eapply Hr].
Qed.
#[global] Instance no_direct_changes d ls : NoDirect (push_changes d ls).
Proof. unfold push_changes. case_match; [apply _ | by apply no_direct_push]. Qed.
#[global] Instance no_direct_patches d ps : NoDirect (apply_patches d ps).
Proof. induction ps; cbn [apply_patches]; [|unfold apply_patch]; apply _. Qed.
#[global] Instance no_direct_outcome d o : NoDirect (push (PresentOrValidate d o)).
Proof. by apply no_direct_push. Qed.

#[global] Instance no_direct_safe {A} (m : cmd_method A) : NoDirect m → DirectSafe m.
Proof. intros Hm c out d _ Hout H. by eapply Hm in H. Qed.

#[global] Instance direct_safe_bind {A B} (m : cmd_method A) (f : A → cmd_method B) :
  NoDirect m → CmdGood m → (∀ a, DirectSafe (f a)) → DirectSafe (m ≫= f).
Proof.
  intros Hm Hg Hf c out d Hc Hout. specialize (Hm c out Hout). specialize (Hg c out Hc).
  unfold mbind, method_bind. destruct (m (c, out)) as [[c1 out1] [a|e]]; cbn in *.
  - intros H. eapply Hf; [apply Hg | exact Hm | exact H].
  - intros H. by eapply Hm in H.
Qed.

Lemma presented_showable d c c' u :
  co_inv c → present_display_direct d c = (c', Ok u) → showable c'.
Proof.
  intros Hc (Hv & Ha & Hp & ->)%present_direct_Ok. split; [done|]. intros k l Hl. split.
  - by eapply co_accepted_client.
  - eapply co_validated_unprotected; [done| |done]. congruence.
Qed.

#[global] Instance direct_safe_present d :
  DirectSafe (co (present_display_direct d);; push (PresentDirect d)).
Proof.
  intros c out d' Hc Hout. unfold mbind, method_bind, co.
  destruct (present_display_direct d c) as [c' [u|e]] eqn:E; cbn.
  - intros _. by eapply presented_showable.
  - intros H. by eapply Hout in H.
Qed.

#[global] Instance direct_safe_present_or_validate d : DirectSafe (present_or_validate d).
Proof.
  intros c out d' Hc Hout. unfold present_or_validate.
  destruct (present_display_direct d c) as [c' [u|e]] eqn:E; cbn [fst snd].
  - intros _. by eapply presented_showable.
  - destruct e; cbn [fst snd]; try (intros H; by eapply Hout in H).
    intros H. eapply (no_direct_bind (co (validate_display d))) in H; [done|apply _|apply _|done].
Qed.

#[global] Instance direct_safe_body cmd : DirectSafe (command_body cmd).
Proof. unfold command_body. repeat case_match; apply _. Qed.

(** ** Properties *)

(** C17: display isolation in command batches.  What happens to a display (its
    window, and the results that name it) depends on that display's window and
    on the commands that address it, in their order, and on nothing else: two
    batches with the same commands for a display, run on sessions that agree on
    it, leave the same window and report the same results for it.  Failing or
    malformed commands for other displays are included. *)
Theorem batch_noninterference d cmds1 cmds2 s1 s2 :
  zlen cmds1 ≤ MAX_DISPLAY_COMMANDS → zlen cmds2 ≤ MAX_DISPLAY_COMMANDS →
  filter (λ cmd, dc_display cmd = d) cmds1 = filter (λ cmd, dc_display cmd = d) cmds2 →
  windows (ss_windows s1) !! d = windows (ss_windows s2) !! d →
  view d (execute_commands cmds1 s1) = view d (execute_commands cmds2 s2).
Proof.
  intros Hl1 Hl2 Hf Hw. unfold execute_commands.
  rewrite (proj2 (Z.ltb_ge MAX_DISPLAY_COMMANDS (zlen cmds1)) Hl1).
  rewrite (proj2 (Z.ltb_ge MAX_DISPLAY_COMMANDS (zlen cmds2)) Hl2).
  rewrite !execute_from_view, Hf. f_equal. unfold view; cbn. by rewrite Hw.
Qed.

(** A batch for two displays, the second of which is unknown. *)
Definition demo_session : Session :=
  ss_exec [SsTable (TwCreate (mkSpec 5 2 pkg)); SsPower 2 PowerOn; SsCreateLayer 2 3]
    session_default.

Definition layer_command (d : DisplayId) : DisplayCommand :=
  mkCommand d [mkPatch 1 (Some Device) (Some 4) None false] None true true true false.

Lemma batch_noninterference_witness :
  view 2 (execute_commands [layer_command 9; layer_command 2] demo_session)
  = view 2 (execute_commands [layer_command 2] demo_session).
Proof.
  apply batch_noninterference; vm_compute; (reflexivity || discriminate).
Defined.

(** Every error of a batch is reported once, at the position of the command
    that failed: position [k] carries an error exactly when the command there
    failed with that code in the state the earlier commands left. *)
Theorem batch_errors_indexed cmds s k code :
  zlen cmds ≤ MAX_DISPLAY_COMMANDS →
  ErrorResult k code ∈ (execute_commands cmds s).2 ↔
  ∃ pre cmd post, cmds = pre ++ cmd :: post ∧ k = zlen pre
    ∧ (execute_one cmd (execute_commands pre s)).2 = Err code.
Proof.
  intros Hl. unfold execute_commands at 1.
  rewrite (proj2 (Z.ltb_ge MAX_DISPLAY_COMMANDS (zlen cmds)) Hl), execute_from_errors.
  assert (∀ pre cmd post, cmds = pre ++ cmd :: post →
    u32_index (0 + zlen pre) = zlen pre ∧ execute_commands pre s = execute_from 0 pre (s, [])) as Hpre.
  { intros pre cmd post ->. unfold zlen in *. rewrite length_app in Hl. cbn in Hl.
    unfold MAX_DISPLAY_COMMANDS in *. split.
    - unfold u32_index, u32_max. destruct (Z.leb_spec (0 + Z.of_nat (length pre)) 4294967295); lia.
    - unfold execute_commands, MAX_DISPLAY_COMMANDS, zlen.
      by rewrite (proj2 (Z.ltb_ge 4096 _)) by lia. }
  split.
  - intros [H|(pre & cmd & post & Heq & -> & Hc)]; [by apply not_elem_of_nil in H|].
    destruct (Hpre _ _ _ Heq) as [Hi Hx]. exists pre, cmd, post. by rewrite Hi, Hx.
  - intros (pre & cmd & post & Heq & -> & Hc). right. exists pre, cmd, post.
    destruct (Hpre _ _ _ Heq) as [Hi Hx]. by rewrite Hi, <- Hx.
Qed.

Lemma batch_errors_indexed_witness :
  ErrorResult 0 BadDisplay
  ∈ (execute_commands [layer_command 9; layer_command 2] demo_session).2.
Proof.
  apply (batch_errors_indexed [layer_command 9; layer_command 2] demo_session 0 BadDisplay).
  { vm_compute. discriminate. }
  exists [], (layer_command 9), [layer_command 2]. split; [reflexivity|].
  split; vm_compute; reflexivity.
Defined.

(** A command that reports a direct present was run on a display it may
    show.  In every reachable session, if a command yields [PresentDirect] then
    its display is powered on and, in the state the command leaves, every layer
    is unprotected and set to CLIENT composition. *)
Theorem batch_presents_showable ops cmd s' out r d :
  execute_one cmd (ss_exec ops session_default, []) = ((s', out), r) →
  PresentDirect d ∈ out →
  d = dc_display cmd ∧ ∃ w, windows (ss_windows s') !! d = Some w ∧ showable (tw_composer w).
Proof.
  set (s := ss_exec ops session_default).
  assert (tw_inv (ss_windows s)) as Hs by apply ss_exec_inv, no_windows_inv.
  clearbody s. unfold execute_one. destruct (negb _); [intros [= <- <- <-] []%not_elem_of_nil|].
  destruct (windows _ !! _) as [w|] eqn:Hw; [|intros [= <- <- <-] []%not_elem_of_nil].
  pose proof (direct_safe_body cmd (tw_composer w) [] d
                (wi_composer _ _ (ti_windows _ Hs _ _ Hw)) (λ d', not_elem_of_nil _)) as Hsafe.
  destruct (cmd_local_body cmd (tw_composer w)) as (c' & new & r' & Hn & Hr).
  rewrite (Hr []) in Hsafe |- *. intros [= <- <- <-] Hin. cbn in Hsafe, Hin.
  assert (d = dc_display cmd) as ->.
  { rewrite Forall_forall in Hn. apply Hn in Hin. by injection Hin as ->. }
  split; [done|]. eexists. split; [apply lookup_insert_eq|]. by apply Hsafe.
Qed.

Lemma batch_presents_showable_witness :
  ∃ w, windows (ss_windows (execute_one (layer_command 2) (demo_session, [])).1.1) !! 2 = Some w
       ∧ showable (tw_composer w).
Proof.
  refine (proj2 (batch_presents_showable
    [SsTable (TwCreate (mkSpec 5 2 pkg)); SsPower 2 PowerOn; SsCreateLayer 2 3]
    (layer_command 2) _ (execute_one (layer_command 2) (demo_session, [])).1.2
    (execute_one (layer_command 2) (demo_session, [])).2 2 _ _)).
  - vm_compute. reflexivity.
  - vm_compute. right. left.
Defined.
