(* ===== verification/Registry.v ===== *)
(** * Task registrations (graphics/droidloom-composer/src/task_control.rs)

    The reservation table behind the task-control socket: a display and a
    protocol object are allocated before Android launches an activity, the real
    task identity is bound afterwards, and identities are never reused while the
    service lives. *)

From S2P Require Import Prelude Ownership Transport Protocol Composer TaskWindows.

(** [i64::MAX as u64]. *)
Definition MAX_EXTERNAL_ID : Z := 9223372036854775807.

Inductive TaskRegistrationPhase : Type := Reserved | Staged | Connected | Bound | Removing.

#[global] Instance TaskRegistrationPhase_eq_dec : EqDecision TaskRegistrationPhase.
Proof. solve_decision. Defined.

Record TaskRegistration : Type := mkRegistration {
  rg_object : TaskObjectId;
  rg_reservation : ReservedTaskWindowSpec;
  rg_task : option TaskId;
  rg_android_display : option Z;
  rg_phase : TaskRegistrationPhase
}.

Definition bound_spec (r : TaskRegistration) : option TaskWindowSpec :=
  (λ task, mkSpec task (rs_display (rg_reservation r)) (rs_package (rg_reservation r)))
    <$> rg_task r.

Inductive TaskControlError : Type :=
| TaskLimit
| RegDuplicateTask (task : TaskId)
| RegUnknownObject (object : TaskObjectId)
| RegUnknownTask (task : TaskId)
| InvalidPhase (object : TaskObjectId) (actual requested : TaskRegistrationPhase)
| IdentifierExhausted
| InvalidSpec (e : TaskWindowError).

Record TaskControlRegistry : Type := mkRegistry {
  registrations : gmap TaskObjectId TaskRegistration;
  reg_tasks : gmap TaskId TaskObjectId;
  next_display : option Z;
  next_object : option Z
}.

Definition registry_default : TaskControlRegistry := mkRegistry ∅ ∅ (Some 1) (Some 1).

Definition with_first_ids (first_display first_object : Z)
  : result TaskControlError TaskControlRegistry :=
  fail_if (negb ((1 <=? first_display) && (first_display <=? MAX_EXTERNAL_ID))
           || negb ((1 <=? first_object) && (first_object <=? MAX_EXTERNAL_ID)))
    IdentifierExhausted;;
  mret (mkRegistry ∅ ∅ (Some first_display) (Some first_object)).

Definition next_external_id (current : Z) : option Z :=
  match checked_add u64_max current 1 with
  | Some next => if next <=? MAX_EXTERNAL_ID then Some next else None
  | None => None
  end.

Definition reg_method := method TaskControlRegistry TaskControlError.

Definition reg_reserve (package : rust_string) : reg_method TaskRegistration :=
  s ← get;
  reject (MAX_TASK_WINDOWS <=? Z.of_nat (size (registrations s))) TaskLimit;;
  display ← lift (ok_or (next_display s) IdentifierExhausted);
  object ← lift (ok_or (next_object s) IdentifierExhausted);
  let registration :=
    mkRegistration object (mkReservation display package) None None Reserved in
  lift (map_err InvalidSpec (validate_reservation (rg_reservation registration)));;
  put (mkRegistry (<[object := registration]> (registrations s)) (reg_tasks s)
         (next_external_id display) (next_external_id object));;
  mret registration.

Definition set_phase (phase : TaskRegistrationPhase) (r : TaskRegistration) : TaskRegistration :=
  mkRegistration (rg_object r) (rg_reservation r) (rg_task r) (rg_android_display r) phase.

Definition update_registration (object : TaskObjectId) (r : TaskRegistration)
    (s : TaskControlRegistry) : TaskControlRegistry :=
  mkRegistry (<[object := r]> (registrations s)) (reg_tasks s) (next_display s) (next_object s).

Definition reg_get (object : TaskObjectId) : reg_method TaskRegistration :=
  s ← get;
  lift (ok_or (registrations s !! object) (RegUnknownObject object)).

Definition transition (object : TaskObjectId) (expected requested : TaskRegistrationPhase)
  : reg_method unit :=
  r ← reg_get object;
  reject (negb (bool_decide (rg_phase r = expected))) (InvalidPhase object (rg_phase r) requested);;
  modify (update_registration object (set_phase requested r)).

Definition mark_staged (object : TaskObjectId) : reg_method unit :=
  transition object Reserved Staged.
Definition mark_connected (object : TaskObjectId) : reg_method unit :=
  transition object Staged Connected.

Definition reg_bind_task (object : TaskObjectId) (task : TaskId) (android_display : Z)
  : reg_method TaskWindowSpec :=
  reject (task =? 0) (InvalidSpec InvalidTask);;
  s ← get;
  reject (bool_decide (is_Some (reg_tasks s !! task))) (RegDuplicateTask task);;
  r ← reg_get object;
  reject (negb (bool_decide (rg_phase r = Connected)))
    (InvalidPhase object (rg_phase r) Bound);;
  put (mkRegistry
         (<[object := mkRegistration (rg_object r) (rg_reservation r) (Some task)
                        (Some android_display) Bound]> (registrations s))
         (<[task := object]> (reg_tasks s)) (next_display s) (next_object s));;
  mret (mkSpec task (rs_display (rg_reservation r)) (rs_package (rg_reservation r))).

Definition begin_removal (object : TaskObjectId) : reg_method unit :=
  r ← reg_get object;
  reject (match rg_phase r with Staged | Connected | Bound => false | _ => true end)
    (InvalidPhase object (rg_phase r) Removing);;
  modify (update_registration object (set_phase Removing r)).

Definition remove_in_phase (object : TaskObjectId) (expected : TaskRegistrationPhase)
  : reg_method TaskRegistration :=
  r ← reg_get object;
  reject (negb (bool_decide (rg_phase r = expected))) (InvalidPhase object (rg_phase r) expected);;
  modify (λ s, mkRegistry (delete object (registrations s))
                 match rg_task r with
                 | Some task => delete task (reg_tasks s)
                 | None => reg_tasks s
                 end (next_display s) (next_object s));;
  mret r.

Definition cancel_reservation (object : TaskObjectId) : reg_method TaskRegistration :=
  remove_in_phase object Reserved.
Definition finish_removal (object : TaskObjectId) : reg_method TaskRegistration :=
  remove_in_phase object Removing.

Definition for_task (task : TaskId) : reg_method TaskRegistration :=
  s ← get;
  object ← lift (ok_or (reg_tasks s !! task) (RegUnknownTask task));
  reg_get object.

Definition for_display (display : DisplayId) : reg_method TaskRegistration :=
  s ← get;
  lift (ok_or (find (λ r, rs_display (rg_reservation r) =? display)
                 (btree_values (registrations s)))
          (InvalidSpec (UnknownDisplay display))).

(** ** Runs *)

Inductive reg_op : Type :=
| RgReserve (package : rust_string)
| RgStaged (object : TaskObjectId)
| RgConnected (object : TaskObjectId)
| RgBind (object : TaskObjectId) (task : TaskId) (android_display : Z)
| RgBeginRemoval (object : TaskObjectId)
| RgCancel (object : TaskObjectId)
| RgFinish (object : TaskObjectId).

Definition reg_run (op : reg_op) (s : TaskControlRegistry) : TaskControlRegistry :=
  match op with
  | RgReserve p => (reg_reserve p s).1
  | RgStaged o => (mark_staged o s).1
  | RgConnected o => (mark_connected o s).1
  | RgBind o t a => (reg_bind_task o t a s).1
  | RgBeginRemoval o => (begin_removal o s).1
  | RgCancel o => (cancel_reservation o s).1
  | RgFinish o => (finish_removal o s).1
  end.

(** The registrations handed out, in order. *)
Fixpoint reg_issued (ops : list reg_op) (s : TaskControlRegistry) : list TaskRegistration :=
  match ops with
  | [] => []
  | op :: ops =>
      match op with
      | RgReserve p => match (reg_reserve p s).2 with Ok r => [r] | Err _ => [] end
      | _ => []
      end ++ reg_issued ops (reg_run op s)
  end.

Definition reg_exec (ops : list reg_op) (s : TaskControlRegistry) : TaskControlRegistry :=
  foldl (λ s op, reg_run op s) s ops.

(** ** The invariant *)

(** [id] was handed out before the counter reached [next]. *)
Definition issued_before (next : option Z) (id : Z) : Prop :=
  1 ≤ id ≤ MAX_EXTERNAL_ID ∧ match next with Some n => id < n | None => True end.

Record entry_inv (s : TaskControlRegistry) (o : TaskObjectId) (r : TaskRegistration) : Prop := {
  en_object : rg_object r = o;
  en_issued : issued_before (next_object s) o;
  en_display_issued : issued_before (next_display s) (rs_display (rg_reservation r));
  en_valid : validate_reservation (rg_reservation r) = Ok tt;
  en_bound : rg_phase r = Bound → rg_task r ≠ None;
  en_task t : rg_task r = Some t → t ≠ 0 ∧ (rg_phase r = Bound ∨ rg_phase r = Removing)
}.

Record reg_inv (s : TaskControlRegistry) : Prop := {
  ri_next_object n : next_object s = Some n → 1 ≤ n ≤ MAX_EXTERNAL_ID;
  ri_next_display n : next_display s = Some n → 1 ≤ n ≤ MAX_EXTERNAL_ID;
  ri_entry o r : registrations s !! o = Some r → entry_inv s o r;
  ri_displays o1 o2 r1 r2 :
    registrations s !! o1 = Some r1 → registrations s !! o2 = Some r2 →
    rs_display (rg_reservation r1) = rs_display (rg_reservation r2) → o1 = o2;
  ri_index t o : reg_tasks s !! t = Some o ↔
    ∃ r, registrations s !! o = Some r ∧ rg_task r = Some t;
  ri_bound : Z.of_nat (size (registrations s)) ≤ MAX_TASK_WINDOWS
}.

Lemma registry_default_inv : reg_inv registry_default.
Proof.
  split; cbn; try (intros *; rewrite ?lookup_empty; done).
  - intros n [= <-]. unfold MAX_EXTERNAL_ID. lia.
  - intros n [= <-]. unfold MAX_EXTERNAL_ID. lia.
  - intros t o. rewrite lookup_empty. split; [done|]. intros (r & H & _). by rewrite lookup_empty in H.
Qed.

(** Counters move past what they issue, and never back. *)
Lemma next_external_id_issued n :
  1 ≤ n ≤ MAX_EXTERNAL_ID → issued_before (next_external_id n) n.
Proof.
  intros Hn. split; [done|]. unfold next_external_id, checked_add.
  repeat case_match; try done. simplify_eq. lia.
Qed.

Lemma next_external_id_mono n id :
  issued_before (Some n) id → issued_before (next_external_id n) id.
Proof.
  intros [Hid Hn]. split; [done|]. unfold next_external_id, checked_add.
  repeat case_match; try done. simplify_eq. lia.
Qed.

Lemma next_external_id_range n m :
  1 ≤ n → next_external_id n = Some m → 1 ≤ m ≤ MAX_EXTERNAL_ID.
Proof.
  intros Hn. unfold next_external_id, checked_add. repeat case_match; try done.
  intros [= <-]. simplify_eq. reflect. lia.
Qed.

(** ** What the operations do *)

Lemma reg_get_Ok o s s' r : reg_get o s = (s', Ok r) ↔ s' = s ∧ registrations s !! o = Some r.
Proof.
  unfold reg_get. split.
  - intros H. inv_method. done.
  - intros [-> H]. unfold mbind, method_bind, get, lift. by rewrite H.
Qed.

#[global] Instance reg_get_read o : ReadOnly (reg_get o).
Proof. unfold reg_get. apply _. Qed.
#[global] Instance reg_reserve_fail_safe p : FailSafe (reg_reserve p).
Proof. unfold reg_reserve. solve_fail_safe. Qed.
#[global] Instance transition_fail_safe o a b : FailSafe (transition o a b).
Proof. unfold transition. solve_fail_safe. Qed.
#[global] Instance reg_bind_fail_safe o t a : FailSafe (reg_bind_task o t a).
Proof. unfold reg_bind_task. solve_fail_safe. Qed.
#[global] Instance begin_removal_fail_safe o : FailSafe (begin_removal o).
Proof. unfold begin_removal. solve_fail_safe. Qed.
#[global] Instance remove_in_phase_fail_safe o p : FailSafe (remove_in_phase o p).
Proof. unfold remove_in_phase. solve_fail_safe. Qed.

Lemma reg_reserve_Ok p s s' r :
  reg_reserve p s = (s', Ok r) →
  ∃ display object, next_display s = Some display ∧ next_object s = Some object
  ∧ Z.of_nat (size (registrations s)) < MAX_TASK_WINDOWS
  ∧ r = mkRegistration object (mkReservation display p) None None Reserved
  ∧ validate_reservation (mkReservation display p) = Ok tt
  ∧ s' = mkRegistry (<[object := r]> (registrations s)) (reg_tasks s)
           (next_external_id display) (next_external_id object).
Proof.
  unfold reg_reserve. intros H. inv_method. reflect. subst r. eauto 10.
Qed.

Lemma transition_Ok o a b s s' u :
  transition o a b s = (s', Ok u) →
  ∃ r, registrations s !! o = Some r ∧ rg_phase r = a
       ∧ s' = update_registration o (set_phase b r) s.
Proof.
  unfold transition. intros H. inv_method. apply reg_get_Ok in Hm as [-> Hr]. reflect. eauto.
Qed.

Lemma begin_removal_Ok o s s' u :
  begin_removal o s = (s', Ok u) →
  ∃ r, registrations s !! o = Some r
       ∧ (rg_phase r = Staged ∨ rg_phase r = Connected ∨ rg_phase r = Bound)
       ∧ s' = update_registration o (set_phase Removing r) s.
Proof.
  unfold begin_removal. intros H. inv_method. apply reg_get_Ok in Hm as [-> Hr].
  exists a. split; [done|]. split; [|done]. destruct (rg_phase a); auto; discriminate.
Qed.

Lemma reg_bind_Ok o t d s s' spec :
  reg_bind_task o t d s = (s', Ok spec) →
  ∃ r, registrations s !! o = Some r ∧ rg_phase r = Connected ∧ t ≠ 0 ∧ reg_tasks s !! t = None
  ∧ s' = mkRegistry
           (<[o := mkRegistration (rg_object r) (rg_reservation r) (Some t) (Some d) Bound]>
              (registrations s)) (<[t := o]> (reg_tasks s)) (next_display s) (next_object s).
Proof.
  unfold reg_bind_task. intros H. inv_method. apply reg_get_Ok in Hm2 as [-> Hr]. reflect.
  rewrite <- eq_None_not_Some in *. eauto 10.
Qed.

Lemma remove_in_phase_Ok o p s s' r :
  remove_in_phase o p s = (s', Ok r) →
  registrations s !! o = Some r ∧ rg_phase r = p
  ∧ s' = mkRegistry (delete o (registrations s))
           match rg_task r with Some t => delete t (reg_tasks s) | None => reg_tasks s end
           (next_display s) (next_object s).
Proof.
  unfold remove_in_phase. intros H. inv_method. apply reg_get_Ok in Hm as [-> Hr]. reflect.
  by subst.
Qed.

(** ** Every operation preserves the invariant *)

Lemma set_phase_inv o r phase s :
  reg_inv s → registrations s !! o = Some r → phase ≠ Bound →
  (rg_task r ≠ None → phase = Removing) →
  reg_inv (update_registration o (set_phase phase r) s).
Proof.
  intros [Hno Hnd He Hd Hi Hb] Ho Hp Hrem.
  assert (∀ o' r', <[o := set_phase phase r]> (registrations s) !! o' = Some r' →
    ∃ r0, registrations s !! o' = Some r0 ∧ rg_reservation r' = rg_reservation r0
          ∧ rg_task r' = rg_task r0) as Hback.
  { intros o' r' [[<- <-]|[_ H]]%lookup_insert_Some; eauto. }
  split; cbn; try done.
  - intros o' r' [[<- <-]|[_ H]]%lookup_insert_Some.
    + destruct (He _ _ Ho) as [? ? ? ? ? Ht]. split; cbn; try done.
      intros t Hr. split; [by apply (Ht t)|]. right. apply Hrem. congruence.
    + by destruct (He _ _ H).
  - intros o1 o2 r1 r2 (q1 & H1 & -> & _)%Hback (q2 & H2 & -> & _)%Hback. by eapply Hd.
  - intros t o'. rewrite Hi. split; [|intros (r' & (q & Hq & _ & ->)%Hback & ?); eauto].
    intros (r' & Hr' & Ht). destruct (decide (o = o')) as [<-|Hne].
    + exists (set_phase phase r). rewrite lookup_insert_eq. split; [done|]. cbn. congruence.
    + exists r'. by rewrite lookup_insert_ne.
  - rewrite map_size_insert, Ho. exact Hb.
Qed.

Lemma transition_inv o a b s s' u :
  reg_inv s → (a = Reserved ∨ a = Staged) → b ≠ Bound →
  transition o a b s = (s', Ok u) → reg_inv s'.
Proof.
  intros Hs Ha Hb (r & Hr & Hp & ->)%transition_Ok. apply set_phase_inv; try done.
  intros Ht. exfalso. destruct (rg_task r) as [t|] eqn:E; [|done].
  destruct (en_task _ _ _ (ri_entry _ Hs _ _ Hr) t E) as [_ [?|?]]; destruct Ha; congruence.
Qed.

Lemma reg_reserve_inv p s s' r : reg_inv s → reg_reserve p s = (s', Ok r) → reg_inv s'.
Proof.
  intros [Hno Hnd He Hd Hi Hb] (display & object & Hdi & Hob & Hsize & -> & Hv & ->)%reg_reserve_Ok.
  assert (registrations s !! object = None) as Hfresh.
  { apply eq_None_not_Some. intros [q Hq]. destruct (en_issued _ _ _ (He _ _ Hq)) as [_ H].
    rewrite Hob in H. lia. }
  assert (∀ o q, registrations s !! o = Some q → rs_display (rg_reservation q) ≠ display) as Hnew.
  { intros o q Hq Heq. destruct (en_display_issued _ _ _ (He _ _ Hq)) as [_ H].
    rewrite Hdi in H. lia. }
  split; cbn.
  - intros n. apply next_external_id_range. by apply Hno.
  - intros n. apply next_external_id_range. by apply Hnd.
  - intros o q [[<- <-]|[_ H]]%lookup_insert_Some.
    + split; cbn; try done; apply next_external_id_issued; auto.
    + destruct (He _ _ H) as [? H2 H3 ? ? ?]. rewrite Hob in H2. rewrite Hdi in H3.
      split; cbn; try done; by apply next_external_id_mono.
  - intros o1 o2 r1 r2 [[<- <-]|[_ H1]]%lookup_insert_Some [[<- <-]|[_ H2]]%lookup_insert_Some;
      cbn; intros Heq; try done.
    + by destruct (Hnew _ _ H2).
    + by destruct (Hnew _ _ H1).
    + by eapply Hd.
  - intros t o. rewrite Hi. split; intros (q & Hq & Ht).
    + exists q. rewrite lookup_insert_ne; [done | congruence].
    + apply lookup_insert_Some in Hq as [[<- <-]|[_ Hq]]; [discriminate Ht | eauto].
  - rewrite map_size_insert_None by done. lia.
Qed.

Lemma reg_bind_inv o t d s s' spec :
  reg_inv s → reg_bind_task o t d s = (s', Ok spec) → reg_inv s'.
Proof.
  intros Hs (r & Ho & Hp & Ht & Hn & ->)%reg_bind_Ok. pose proof Hs as [Hno Hnd He Hd Hi Hb].
  assert (rg_task r = None) as Hfree.
  { destruct (rg_task r) as [t'|] eqn:E; [|done].
    destruct (en_task _ _ _ (He _ _ Ho) t' E) as [_ [?|?]]; congruence. }
  split; cbn; try done.
  - intros o' q [[<- <-]|[_ H]]%lookup_insert_Some.
    + destruct (He _ _ Ho). split; cbn; try done. intros t' [= <-]. auto.
    + by destruct (He _ _ H).
  - intros o1 o2 r1 r2 [[<- <-]|[_ H1]]%lookup_insert_Some [[<- <-]|[_ H2]]%lookup_insert_Some;
      cbn; intros Heq; try done; by eapply Hd.
  - intros t' o'. split.
    + intros [[<- <-]|[Hne H]]%lookup_insert_Some.
      * eexists. by rewrite lookup_insert_eq.
      * apply Hi in H as (q & Hq & Hqt). exists q. rewrite lookup_insert_ne; [done | congruence].
    + intros (q & [[<- <-]|[Hne H]]%lookup_insert_Some & Hqt).
      * injection Hqt as <-. apply lookup_insert_eq.
      * rewrite lookup_insert_ne; [apply Hi; eauto|]. intros ->.
        assert (reg_tasks s !! t' = Some o') by (apply Hi; eauto). congruence.
  - rewrite map_size_insert, Ho. exact Hb.
Qed.

Lemma remove_in_phase_inv o p s s' r :
  reg_inv s → remove_in_phase o p s = (s', Ok r) → reg_inv s'.
Proof.
  intros [Hno Hnd He Hd Hi Hb] (Ho & _ & ->)%remove_in_phase_Ok. split; cbn; try done.
  - intros o' q [_ H]%lookup_delete_Some. by destruct (He _ _ H).
  - intros o1 o2 r1 r2 [_ H1]%lookup_delete_Some [_ H2]%lookup_delete_Some. by eapply Hd.
  - intros t o'. setoid_rewrite lookup_delete_Some.
    transitivity (reg_tasks s !! t = Some o' ∧ o ≠ o').
    + destruct (rg_task r) as [t0|] eqn:Ht0.
      * assert (reg_tasks s !! t0 = Some o) by (apply Hi; eauto). rewrite lookup_delete_Some.
        split; [intros [Hne H'] | intros [H' Hne]; split; [congruence | done]].
        split; [done|]. intros <-. apply Hi in H' as (q & Hq & Hqt). congruence.
      * split; [|by intros [? _]]. intros H'. split; [done|]. intros <-.
        apply Hi in H' as (q & Hq & Hqt). congruence.
    + rewrite Hi. split; [intros [(q & ? & ?) ?] | intros (q & [? ?] & ?)]; eauto.
  - rewrite map_size_delete, Ho. lia.
Qed.

(** ** The life of one object *)

Definition phase_of (o : TaskObjectId) (s : TaskControlRegistry) : option TaskRegistrationPhase :=
  rg_phase <$> registrations s !! o.

Inductive phase_step : option TaskRegistrationPhase → option TaskRegistrationPhase → Prop :=
| ph_stay p : phase_step p p
| ph_reserve : phase_step None (Some Reserved)
| ph_stage : phase_step (Some Reserved) (Some Staged)
| ph_connect : phase_step (Some Staged) (Some Connected)
| ph_bind : phase_step (Some Connected) (Some Bound)
| ph_remove p : p = Staged ∨ p = Connected ∨ p = Bound → phase_step (Some p) (Some Removing)
| ph_cancel : phase_step (Some Reserved) None
| ph_finish : phase_step (Some Removing) None.

#[global] Hint Constructors phase_step : core.

(** The effect of one operation: nothing, or one entry of the table replaced. *)
Lemma phase_insert s m t nd no o o' r :
  m = <[o := r]> (registrations s) →
  phase_step (phase_of o s) (Some (rg_phase r)) →
  phase_step (phase_of o' s) (phase_of o' (mkRegistry m t nd no)).
Proof.
  intros -> H. unfold phase_of at 2; cbn. destruct (decide (o = o')) as [<-|].
  - by rewrite lookup_insert_eq.
  - rewrite lookup_insert_ne by done. auto.
Qed.

Lemma phase_delete s t nd no o o' r :
  registrations s !! o = Some r → rg_phase r = Reserved ∨ rg_phase r = Removing →
  phase_step (phase_of o' s) (phase_of o' (mkRegistry (delete o (registrations s)) t nd no)).
Proof.
  intros Hr Hp. unfold phase_of; cbn. destruct (decide (o = o')) as [<-|].
  - rewrite lookup_delete_eq, Hr; cbn. destruct Hp as [->| ->]; auto.
  - rewrite lookup_delete_ne by done. auto.
Qed.

Lemma reg_run_sound op s :
  reg_inv s → reg_inv (reg_run op s) ∧ ∀ o, phase_step (phase_of o s) (phase_of o (reg_run op s)).
Proof.
  intros Hs. destruct op as [p|o|o|o t a|o|o|o]; cbn.
  - destruct (reg_reserve p s) as [s' [r|e]] eqn:E; cbn; [|apply fail_safe in E as ->; auto].
    split; [by eapply reg_reserve_inv|].
    apply reg_reserve_Ok in E as (d & o & _ & Ho & _ & -> & _ & ->).
    intros o'. eapply phase_insert; [done|]. unfold phase_of. cbn.
    destruct (registrations s !! o) as [q|] eqn:Hq; cbn; auto.
    destruct (en_issued _ _ _ (ri_entry _ Hs _ _ Hq)) as [_ H]. rewrite Ho in H. lia.
  - destruct (mark_staged o s) as [s' [r|e]] eqn:E; cbn; [|apply transition_fail_safe in E as ->; auto].
    split; [eapply transition_inv in E; auto|].
    apply transition_Ok in E as (r0 & Hr & Hp & ->). intros o'. eapply phase_insert; [done|].
    unfold phase_of. rewrite Hr; cbn. rewrite Hp. auto.
  - destruct (mark_connected o s) as [s' [r|e]] eqn:E; cbn; [|apply transition_fail_safe in E as ->; auto].
    split; [eapply transition_inv in E; auto|].
    apply transition_Ok in E as (r0 & Hr & Hp & ->). intros o'. eapply phase_insert; [done|].
    unfold phase_of. rewrite Hr; cbn. rewrite Hp. auto.
  - destruct (reg_bind_task o t a s) as [s' [r|e]] eqn:E; cbn; [|apply fail_safe in E as ->; auto].
    split; [by eapply reg_bind_inv|].
    apply reg_bind_Ok in E as (r0 & Hr & Hp & _ & _ & ->). intros o'. eapply phase_insert; [done|].
    unfold phase_of. rewrite Hr; cbn. rewrite Hp. auto.
  - destruct (begin_removal o s) as [s' [r|e]] eqn:E; cbn; [|apply fail_safe in E as ->; auto].
    apply begin_removal_Ok in E as (r0 & Hr & Hp & ->). split; [by apply set_phase_inv|].
    intros o'. eapply phase_insert; [done|]. unfold phase_of. rewrite Hr; cbn. auto.
  - destruct (cancel_reservation o s) as [s' [r|e]] eqn:E; cbn;
      [|apply remove_in_phase_fail_safe in E as ->; auto].
    split; [by eapply remove_in_phase_inv|]. apply remove_in_phase_Ok in E as (Hr & Hp & ->).
    intros o'. eapply phase_delete; eauto.
  - destruct (finish_removal o s) as [s' [r|e]] eqn:E; cbn;
      [|apply remove_in_phase_fail_safe in E as ->; auto].
    split; [by eapply remove_in_phase_inv|]. apply remove_in_phase_Ok in E as (Hr & Hp & ->).
    intros o'. eapply phase_delete; eauto.
Qed.

Lemma reg_exec_inv ops s : reg_inv s → reg_inv (reg_exec ops s).
Proof.
  revert s; induction ops as [|op ops IH]; intros s Hs; cbn; [done|].
  by apply IH, reg_run_sound.
Qed.

(** ** Identities only grow *)

Definition issued_lt (a b : TaskRegistration) : Prop :=
  rg_object a < rg_object b ∧
  rs_display (rg_reservation a) < rs_display (rg_reservation b).

(** [id] is at least the counter: it can still be issued. *)
Definition at_or_after (next : option Z) (id : Z) : Prop :=
  match next with Some n => n ≤ id | None => False end.

Definition issuable (s : TaskControlRegistry) (r : TaskRegistration) : Prop :=
  at_or_after (next_object s) (rg_object r) ∧ 1 ≤ rg_object r ≤ MAX_EXTERNAL_ID
  ∧ at_or_after (next_display s) (rs_display (rg_reservation r))
  ∧ 1 ≤ rs_display (rg_reservation r) ≤ MAX_EXTERNAL_ID.

Lemma next_external_id_after n id : at_or_after (next_external_id n) id → n < id.
Proof.
  unfold next_external_id, checked_add. repeat case_match; try done. simplify_eq. cbn. lia.
Qed.

Definition counters (s : TaskControlRegistry) : option Z * option Z :=
  (next_object s, next_display s).

#[global] Instance transition_keeps o a b : Keeps counters (transition o a b).
Proof. unfold transition. solve_keeps. Qed.
#[global] Instance begin_removal_keeps o : Keeps counters (begin_removal o).
Proof. unfold begin_removal. solve_keeps. Qed.
#[global] Instance remove_in_phase_keeps o p : Keeps counters (remove_in_phase o p).
Proof. unfold remove_in_phase. solve_keeps. Qed.

Lemma reg_run_counters op s :
  (∀ p, op ≠ RgReserve p) → counters (reg_run op s) = counters s.
Proof.
  intros Hne. destruct op as [p|o|o|o t a|o|o|o]; [by destruct (Hne p)|..]; cbn;
    try (unfold mark_staged, mark_connected, cancel_reservation, finish_removal; by apply keeps).
  destruct (reg_bind_task o t a s) as [s' [r|e]] eqn:E; cbn; [|by apply fail_safe in E as ->].
  by apply reg_bind_Ok in E as (? & _ & _ & _ & _ & ->).
Qed.

Lemma reg_issued_sorted ops s :
  reg_inv s →
  StronglySorted issued_lt (reg_issued ops s) ∧ Forall (issuable s) (reg_issued ops s).
Proof.
  revert s; induction ops as [|op ops IH]; intros s Hs; cbn [reg_issued].
  { split; constructor. }
  destruct (IH _ (proj1 (reg_run_sound op s Hs))) as [Hsort Hall].
  assert (counters (reg_run op s) = counters s →
    StronglySorted issued_lt (reg_issued ops (reg_run op s))
    ∧ Forall (issuable s) (reg_issued ops (reg_run op s))) as Hquiet.
  { intros [= Ho Hd]. split; [done|]. eapply Forall_impl; [exact Hall|].
    intros r. unfold issuable. by rewrite Ho, Hd. }
  destruct op as [p| | | | | | ]; try (apply Hquiet, reg_run_counters; congruence). cbn in *.
  destruct (reg_reserve p s) as [s' [r|e]] eqn:E; cbn in *;
    [|apply fail_safe in E as ->; by apply Hquiet].
  apply reg_reserve_Ok in E as (d & o & Hd & Ho & _ & -> & _ & ->).
  pose proof (ri_next_object _ Hs _ Ho). pose proof (ri_next_display _ Hs _ Hd).
  split; constructor; try done.
  - eapply Forall_impl; [exact Hall|]. intros r (H1 & _ & H2 & _). cbn in H1, H2.
    split; cbn; by apply next_external_id_after.
  - unfold issuable. cbn. rewrite Ho, Hd. cbn. lia.
  - eapply Forall_impl; [exact Hall|]. intros r (H1 & ? & H2 & ?). cbn in H1, H2.
    unfold issuable. rewrite Ho, Hd. cbn.
    apply next_external_id_after in H1, H2. lia.
Qed.

(** ** Properties *)

(** C33: identities are never reused.  Along any sequence of calls, the protocol
    objects and the displays of the registrations handed out are strictly
    increasing, and all of them fit a positive signed 64-bit integer; removals
    and cancelled reservations give nothing back. *)
Theorem registry_ids_never_reused ops :
  StronglySorted issued_lt (reg_issued ops registry_default)
  ∧ Forall (λ r, 1 ≤ rg_object r ≤ MAX_EXTERNAL_ID
                 ∧ 1 ≤ rs_display (rg_reservation r) ≤ MAX_EXTERNAL_ID)
      (reg_issued ops registry_default).
Proof.
  destruct (reg_issued_sorted ops _ registry_default_inv) as [Hs Ha]. split; [done|].
  eapply Forall_impl; [exact Ha|]. intros r (_ & ? & _ & ?). done.
Qed.

(** The life of a registration.  In every reachable registry, one call
    moves each object along the lifecycle (reserved, staged, connected, bound,
    removing, with removal allowed from the three middle phases) by at most one
    step, an object leaves the table only from the reserved or removing phase,
    and the task index holds exactly the tasks of live registrations, each
    bound or being removed, with no task on two objects. *)
Theorem registry_lifecycle ops op :
  let s := reg_exec ops registry_default in
  (∀ o, phase_step (phase_of o s) (phase_of o (reg_run op s)))
  ∧ (∀ t r, (for_task t s).2 = Ok r →
       registrations s !! rg_object r = Some r ∧ rg_task r = Some t
       ∧ (rg_phase r = Bound ∨ rg_phase r = Removing))
  ∧ (∀ t o1 o2 r1 r2, registrations s !! o1 = Some r1 → registrations s !! o2 = Some r2 →
       rg_task r1 = Some t → rg_task r2 = Some t → o1 = o2).
Proof.
  intros s. assert (reg_inv s) as Hs by apply reg_exec_inv, registry_default_inv. split_and!.
  - by apply reg_run_sound.
  - intros t r. unfold for_task, mbind, method_bind, get, lift, reg_get, mbind, method_bind.
    destruct (reg_tasks s !! t) as [o|] eqn:Ht; cbn; [|done].
    apply (ri_index _ Hs) in Ht as (r' & Hr & Ht). unfold get; cbn. rewrite Hr; cbn. intros [= <-].
    destruct (ri_entry _ Hs _ _ Hr) as [-> _ _ _ _ Htask].
    split_and!; [done | done | by apply (Htask t)].
  - intros t o1 o2 r1 r2 H1 H2 Ht1 Ht2.
    assert (reg_tasks s !! t = Some o1) by (apply (ri_index _ Hs); eauto).
    assert (reg_tasks s !! t = Some o2) by (apply (ri_index _ Hs); eauto). congruence.
Qed.

Definition demo_registry : list reg_op :=
  [RgReserve pkg; RgStaged 1; RgReserve pkg; RgConnected 1; RgBind 1 40 0; RgCancel 2].

Lemma registry_lifecycle_witness :
  let s := reg_exec demo_registry registry_default in
  phase_step (phase_of 1 s) (phase_of 1 (reg_run (RgBeginRemoval 1) s))
  ∧ phase_of 1 (reg_run (RgBeginRemoval 1) s) = Some Removing
  ∧ is_ok (for_task 40 s).2 = true.
Proof.
  split; [apply (registry_lifecycle demo_registry (RgBeginRemoval 1))|].
  split; vm_compute; reflexivity.
Defined.
