(* ===== verification/Bridge.v ===== *)
(** * The Denial bridge (graphics/droidloom-composer/src/denial.rs)

    The Android side of one task object: [DenialTaskBinding] translates composer
    frames into wire messages with fresh timeline points, and host events into
    composer state.  [RenderTargetDemand] decides when a pool of host targets is
    requested. *)

From S2P Require Import Prelude Ownership Transport Protocol Composer TaskWindows Hwc3.

(** ** Render-target demand *)

Record RenderTargetDemand : Type := mkDemand {
  dm_serial : option Z;
  dm_requested : option Z
}.

Definition demand_default : RenderTargetDemand := mkDemand None None.

Definition demand_configure (serial : Z) (d : RenderTargetDemand) : RenderTargetDemand :=
  if decide (dm_serial d = Some serial) then d else mkDemand (Some serial) None.

Definition demand_request (enabled has_pool : bool) (d : RenderTargetDemand) : option Z :=
  match dm_serial d with
  | Some serial =>
      if enabled && negb has_pool && negb (bool_decide (dm_requested d = Some serial))
      then Some serial else None
  | None => None
  end.

Definition demand_sent (serial : Z) (d : RenderTargetDemand) : RenderTargetDemand :=
  if decide (dm_serial d = Some serial) then mkDemand (dm_serial d) (Some serial) else d.

(** A pool is requested once per configure serial: after the request went out
    nothing more is asked for until the serial changes. *)
Lemma demand_coalesces serial enabled has_pool d :
  demand_request enabled has_pool (demand_sent serial (demand_configure serial d)) = None
  ∧ demand_configure serial (demand_sent serial (demand_configure serial d))
    = demand_sent serial (demand_configure serial d).
Proof.
  unfold demand_sent, demand_configure. destruct (decide (dm_serial d = Some serial)) as [E|E].
  - rewrite decide_True by done. unfold demand_request; cbn. rewrite E.
    rewrite bool_decide_true by done. rewrite Bool.andb_false_r. by rewrite decide_True.
  - cbn. rewrite decide_True by done. unfold demand_request; cbn.
    rewrite bool_decide_true by done. rewrite Bool.andb_false_r. by rewrite decide_True.
Qed.

(** ** The binding *)

Record DenialTaskBinding : Type := mkBinding {
  bd_object : TaskObjectId;
  bd_task : option TaskId;
  bd_display : DisplayId;
  bd_package : rust_string;
  acknowledged_configure : option Z;
  next_timeline_point : Z;
  pending_release_points : gmap FrameId Z;
  destroy_requested : bool
}.

Record PreparedPresent : Type := mkPrepared {
  pp_message : AndroidMessage;
  pp_acquire_point : Z;
  pp_release_point : Z
}.

Inductive AppliedDenialEvent : Type :=
| ApFormatFeedback (generation : Z)
| ApConfigure (serial width height scale_numerator scale_denominator : Z)
    (transform : Transform) (refresh_millihz : Z)
| ApInsets (left top right bottom : Z)
| ApVisibility (visibility : Visibility) (focused : bool)
| ApClose
| ApBufferReleased (released : ReleasedFrame)
| ApPresented (sample : option VsyncSample)
| ApInput (serial timestamp_nanos : Z) (event : InputEvent).

Inductive DenialBridgeError : Type :=
| BrWrongObject (expected actual : TaskObjectId)
| UnexpectedMessage
| BrReleaseMismatch
| TimelineExhausted
| BrTask (e : TaskWindowError)
| BrComposer (e : ComposerError).

Definition set_bd_task t b := mkBinding (bd_object b) t (bd_display b) (bd_package b)
  (acknowledged_configure b) (next_timeline_point b) (pending_release_points b)
  (destroy_requested b).
Definition set_bd_ack a b := mkBinding (bd_object b) (bd_task b) (bd_display b) (bd_package b)
  a (next_timeline_point b) (pending_release_points b) (destroy_requested b).
Definition set_bd_points n p b := mkBinding (bd_object b) (bd_task b) (bd_display b)
  (bd_package b) (acknowledged_configure b) n p (destroy_requested b).
Definition set_bd_destroy d b := mkBinding (bd_object b) (bd_task b) (bd_display b)
  (bd_package b) (acknowledged_configure b) (next_timeline_point b) (pending_release_points b) d.

Definition binding_new (obj : TaskObjectId) (reservation : ReservedTaskWindowSpec)
  : result DenialBridgeError DenialTaskBinding :=
  fail_if (obj =? 0) UnexpectedMessage;;
  mret (mkBinding obj None (rs_display reservation) (rs_package reservation) None 0 ∅ false).

Definition bd_method := method DenialTaskBinding DenialBridgeError.

(** [send] is the caller's transport, on a world of its own. *)
Definition request_destroy {W E} (send : AndroidMessage → method W E unit)
  : method (DenialTaskBinding * W) E unit :=
  λ '(b, w),
    if destroy_requested b then ((b, w), Ok tt)
    else match send (DestroyTask (bd_object b)) w with
         | (w', Ok _) => ((set_bd_destroy true b, w'), Ok tt)
         | (w', Err e) => ((b, w'), Err e)
         end.

Definition create_task_message (b : DenialTaskBinding) : AndroidMessage :=
  CreateTask (bd_object b) (bd_display b) (bd_package b).

Definition bind_task_message (task : TaskId) (b : DenialTaskBinding)
  : result DenialBridgeError AndroidMessage :=
  fail_if ((task =? 0) || bool_decide (is_Some (bd_task b))) UnexpectedMessage;;
  mret (BindTask (bd_object b) task).

Definition mark_task_bound (task : TaskId) : bd_method unit :=
  b ← get;
  reject ((task =? 0) || bool_decide (is_Some (bd_task b))) UnexpectedMessage;;
  modify (set_bd_task (Some task)).

Definition bind_timelines_message (b : DenialTaskBinding) : AndroidMessage :=
  BindTimelines (bd_object b).

Definition register_buffer_message (frame : AcceptedFrame) (b : DenialTaskBinding)
  : AndroidMessage :=
  RegisterBuffer (bd_object b) (af_buffer frame).

Definition prepare_present (display : DisplayId) (frame : AcceptedFrame)
  : bd_method PreparedPresent :=
  b ← get;
  reject (destroy_requested b || negb (display =? bd_display b)) UnexpectedMessage;;
  configure_serial ← lift (ok_or (acknowledged_configure b) UnexpectedMessage);
  point ← lift (ok_or (checked_add u64_max (next_timeline_point b) 1) TimelineExhausted);
  reject (bool_decide (is_Some (pending_release_points b !! af_frame_id frame)))
    UnexpectedMessage;;
  put (set_bd_points point (<[af_frame_id frame := point]> (pending_release_points b)) b);;
  mret (mkPrepared
          (Present (bd_object b) (af_frame_id frame) (b_id (af_buffer frame)) configure_serial
             point point (af_damage frame))
          point point).

Definition cancel_unsubmitted_present (frame : FrameId) (release_point : Z) : bd_method unit :=
  b ← get;
  reject (negb (bool_decide (pending_release_points b !! frame = Some release_point)))
    BrReleaseMismatch;;
  put (set_bd_points (next_timeline_point b) (delete frame (pending_release_points b)) b).

(** ** Binding and session *)

Definition br_method := method (DenialTaskBinding * Session) DenialBridgeError.

(** A composer call on the binding's display, with the [From] conversions. *)
Definition on_composer {A} (m : co_method A) : br_method A :=
  λ '(b, s),
    let '(w', r) :=
      composer_for_display_mut BrTask (bd_display b)
        (λ c, let '(c', r) := m c in (c', map_err BrComposer r)) (ss_windows s) in
    ((b, mkSession w' (next_layer s)), r).

Definition on_binding {A} (m : bd_method A) : br_method A :=
  λ '(b, s), let '(b', r) := m b in ((b', s), r).

Definition bridge_acknowledge_configure (serial : Z) : br_method AndroidMessage :=
  on_composer (co_acknowledge_configure serial);;
  on_binding (modify (set_bd_ack (Some serial)));;
  st ← get;
  mret (AckConfigure (bd_object st.1) serial).

Definition message_object (message : DenialMessage) : option TaskObjectId :=
  match message with
  | FormatFeedback o _ _ | RegisterRenderTarget o _ _ | UnregisterRenderTarget o _
  | ConfigureMsg o _ _ _ _ _ _ _ | Insets o _ _ _ _ | VisibilityMsg o _ _ | Close o
  | BufferReleased o _ _ _ | Presented o _ _ _ _ _ | ScenePresented o _ _ _ _
  | Input o _ _ _ => Some o
  | ErrorMsg o _ _ _ => o
  | ServerHello _ _ _ _ _ _ | RequestInputChannel _ | DisplayPower _ | Ping _
  | FrameGrant _ _ _ => None
  end.

(** The [BufferReleased] arm of [apply_event]. *)
Definition apply_release (frame : FrameId) (buffer : BufferId) (release_point : Z)
  : br_method AppliedDenialEvent :=
  st ← get;
  reject (negb (bool_decide (pending_release_points st.1 !! frame = Some release_point)))
    BrReleaseMismatch;;
  c ← on_composer get;
  reject (negb (bool_decide (co_in_flight_buffer frame c = Some buffer))) BrReleaseMismatch;;
  released ← on_composer (release_presented_target frame true);
  on_binding (modify (λ b, set_bd_points (next_timeline_point b)
                             (delete frame (pending_release_points b)) b));;
  mret (ApBufferReleased released).

Definition apply_event (message : DenialMessage) : br_method AppliedDenialEvent :=
  st ← get;
  obj ← lift (ok_or (message_object message) UnexpectedMessage);
  reject (negb (obj =? bd_object st.1)) (BrWrongObject (bd_object st.1) obj);;
  match message with
  | FormatFeedback _ generation formats =>
      on_composer (modify (co_replace_feedback formats));;
      mret (ApFormatFeedback generation)
  | ConfigureMsg _ serial width height sn sd transform refresh =>
      on_composer (modify (co_configure (mkConfigure serial width height refresh)));;
      on_binding (modify (set_bd_ack None));;
      mret (ApConfigure serial width height sn sd transform refresh)
  | Insets _ l t r b => mret (ApInsets l t r b)
  | VisibilityMsg _ visibility focused => mret (ApVisibility visibility focused)
  | Close _ => mret ApClose
  | BufferReleased _ frame buffer release_point => apply_release frame buffer release_point
  | Presented _ _ timestamp _ _ _ | ScenePresented _ _ timestamp _ _ =>
      sample ← on_composer (presentation_sample timestamp);
      mret (ApPresented sample)
  | Input _ serial timestamp event => mret (ApInput serial timestamp event)
  | ServerHello _ _ _ _ _ _ | RequestInputChannel _ | DisplayPower _ | ErrorMsg _ _ _ _
  | Ping _ | FrameGrant _ _ _ | RegisterRenderTarget _ _ _ | UnregisterRenderTarget _ _ =>
      throw UnexpectedMessage
  end.

(** ** Runs on the binding's display *)

Definition set_composer (d : DisplayId) (w : TaskWindow) (c : Composer) (s : Session) : Session :=
  mkSession
    (mkWindows (<[d := mkWindow (tw_reservation w) (tw_spec w) c]> (windows (ss_windows s)))
       (tasks (ss_windows s)))
    (next_layer s).

Lemma set_composer_same d w s :
  windows (ss_windows s) !! d = Some w → set_composer d w (tw_composer w) s = s.
Proof.
  intros Hw. unfold set_composer. destruct s as [[ws ts] n], w as [r sp c]; cbn in *.
  by rewrite insert_id.
Qed.

Lemma on_composer_run {A} (m : co_method A) b s w :
  windows (ss_windows s) !! bd_display b = Some w →
  on_composer m (b, s) =
  ((b, set_composer (bd_display b) w (m (tw_composer w)).1 s),
   map_err BrComposer (m (tw_composer w)).2).
Proof.
  intros Hw. unfold on_composer, composer_for_display_mut. rewrite Hw.
  by destruct (m (tw_composer w)).
Qed.

Lemma on_composer_missing {A} (m : co_method A) b s :
  windows (ss_windows s) !! bd_display b = None →
  on_composer m (b, s) = ((b, s), Err (BrTask (UnknownDisplay (bd_display b)))).
Proof.
  intros Hw. unfold on_composer, composer_for_display_mut. rewrite Hw. by destruct s.
Qed.

(** A host release that names the frame, its buffer and its point. *)
Definition release_matches (frame : FrameId) (buffer : BufferId) (point : Z)
    (b : DenialTaskBinding) (s : Session) (w : TaskWindow) : Prop :=
  pending_release_points b !! frame = Some point
  ∧ windows (ss_windows s) !! bd_display b = Some w
  ∧ flights (tw_composer w) !! frame = Some buffer.

(** The state after it: the frame is gone from both sides. *)
Definition release_applied (frame : FrameId) (buffer : BufferId) (b : DenialTaskBinding)
    (w : TaskWindow) (s : Session) : DenialTaskBinding * Session :=
  let p := co_transport (tw_composer w) in
  (set_bd_points (next_timeline_point b) (delete frame (pending_release_points b)) b,
   set_composer (bd_display b) w
     (set_transport (mkPS (ps_feedback p) (ps_latest_configure p) (ps_acknowledged_serial p)
                       (delete frame (ps_in_flight p)) (ps_busy_buffers p ∖ {[buffer]})
                       (ps_next_frame_id p)) (tw_composer w)) s).

Lemma apply_release_matching f buf p b s w :
  release_matches f buf p b s w →
  apply_release f buf p (b, s) =
  (release_applied f buf b w s, Ok (ApBufferReleased (mkReleased f buf true))).
Proof.
  intros (Hp & Hw & Hf). unfold apply_release. unfold mbind at 1, method_bind at 1. cbn [get].
  unfold mbind at 1, method_bind at 1, reject at 1. cbn [fst].
  rewrite bool_decide_true by done. cbn [negb].
  unfold mbind at 1, method_bind at 1. rewrite (on_composer_run get b s w Hw).
  cbn [get fst snd map_err]. rewrite (set_composer_same _ _ _ Hw).
  unfold mbind at 1, method_bind at 1, reject.
  unfold co_in_flight_buffer, in_flight_buffer. rewrite bool_decide_true by done. cbn [negb].
  unfold mbind at 1, method_bind at 1. rewrite (on_composer_run _ b s w Hw).
  unfold release_presented_target, on_transport, ps_release, ps_retire.
  unfold mbind, method_bind, reject, get, lift. cbn [negb]. unfold flights in Hf. rewrite Hf.
  reflexivity.
Qed.

Lemma apply_release_mismatch f buf p b s :
  (∀ w, ~ release_matches f buf p b s w) →
  ∃ e, apply_release f buf p (b, s) = ((b, s), Err e).
Proof.
  intros Hno. unfold apply_release. unfold mbind at 1, method_bind at 1. cbn [get].
  unfold mbind at 1, method_bind at 1, reject at 1. cbn [fst].
  destruct (bool_decide (pending_release_points b !! f = Some p)) eqn:Hp; cbn [negb]; [|eauto].
  unfold mbind at 1, method_bind at 1.
  destruct (windows (ss_windows s) !! bd_display b) as [w|] eqn:Hw;
    [|rewrite on_composer_missing by done; eauto].
  rewrite (on_composer_run get b s w Hw).
  cbn [get fst snd map_err]. rewrite (set_composer_same _ _ _ Hw).
  unfold mbind at 1, method_bind at 1, reject.
  destruct (bool_decide (co_in_flight_buffer f (tw_composer w) = Some buf)) eqn:Hf; cbn [negb]; [|eauto].
  reflect. by destruct (Hno w).
Qed.

Lemma apply_release_cases f buf p b s :
  (∃ w, release_matches f buf p b s w) ∨ (∀ w, ~ release_matches f buf p b s w).
Proof.
  unfold release_matches.
  destruct (decide (pending_release_points b !! f = Some p)); [|right; tauto].
  destruct (windows (ss_windows s) !! bd_display b) as [w|]; [|right; by intros w (_ & ? & _)].
  destruct (decide (flights (tw_composer w) !! f = Some buf)); [left; eauto|].
  right. intros w' (_ & [= <-] & ?). done.
Qed.

(** ** The binding's invariant *)

Record bd_inv (b : DenialTaskBinding) : Prop := {
  bi_object : bd_object b ≠ 0;
  bi_range : 0 ≤ next_timeline_point b ≤ u64_max;
  bi_points f p : pending_release_points b !! f = Some p → 1 ≤ p ≤ next_timeline_point b;
  bi_distinct f1 f2 p :
    pending_release_points b !! f1 = Some p → pending_release_points b !! f2 = Some p → f1 = f2
}.

Inductive br_op : Type :=
| BrAcknowledge (serial : Z)
| BrPrepare (display : DisplayId) (frame : AcceptedFrame)
| BrCancel (frame : FrameId) (release_point : Z)
| BrEvent (message : DenialMessage)
| BrBound (task : TaskId)
| BrDestroy (sent : bool)
| BrSession (op : ss_op).

Definition br_run (op : br_op) (st : DenialTaskBinding * Session) : DenialTaskBinding * Session :=
  match op with
  | BrAcknowledge n => (bridge_acknowledge_configure n st).1
  | BrPrepare d f => (on_binding (prepare_present d f) st).1
  | BrCancel f p => (on_binding (cancel_unsubmitted_present f p) st).1
  | BrEvent msg => (apply_event msg st).1
  | BrBound t => (on_binding (mark_task_bound t) st).1
  | BrDestroy sent =>
      (request_destroy (λ _ w, (w, if sent then Ok tt else Err tt)) st).1
  | BrSession op => (st.1, ss_run op st.2)
  end.

(** The points of the prepared presents, in order. *)
Fixpoint br_points (ops : list br_op) (st : DenialTaskBinding * Session) : list Z :=
  match ops with
  | [] => []
  | op :: ops =>
      match op with
      | BrPrepare d f =>
          match (prepare_present d f st.1).2 with Ok p => [pp_release_point p] | Err _ => [] end
      | _ => []
      end ++ br_points ops (br_run op st)
  end.

#[global] Instance prepare_present_fail_safe d f : FailSafe (prepare_present d f).
Proof. unfold prepare_present. solve_fail_safe. Qed.
#[global] Instance cancel_present_fail_safe f p : FailSafe (cancel_unsubmitted_present f p).
Proof. unfold cancel_unsubmitted_present. solve_fail_safe. Qed.
#[global] Instance mark_task_bound_fail_safe t : FailSafe (mark_task_bound t).
Proof. unfold mark_task_bound. solve_fail_safe. Qed.

Record preparable (display : DisplayId) (frame : FrameId) (serial : Z) (b : DenialTaskBinding)
  : Prop := {
  pb_alive : destroy_requested b = false;
  pb_display : display = bd_display b;
  pb_ack : acknowledged_configure b = Some serial;
  pb_point : next_timeline_point b + 1 ≤ u64_max;
  pb_fresh : pending_release_points b !! frame = None
}.

Definition prepared (frame : FrameId) (b : DenialTaskBinding) : DenialTaskBinding :=
  set_bd_points (next_timeline_point b + 1)
    (<[frame := next_timeline_point b + 1]> (pending_release_points b)) b.

Definition prepared_message (frame : AcceptedFrame) (serial : Z) (b : DenialTaskBinding)
  : AndroidMessage :=
  Present (bd_object b) (af_frame_id frame) (b_id (af_buffer frame)) serial
    (next_timeline_point b + 1) (next_timeline_point b + 1) (af_damage frame).

Lemma prepare_present_Ok d f b b' p :
  prepare_present d f b = (b', Ok p) →
  ∃ serial, preparable d (af_frame_id f) serial b ∧ b' = prepared (af_frame_id f) b
  ∧ p = mkPrepared (prepared_message f serial b) (next_timeline_point b + 1)
          (next_timeline_point b + 1).
Proof.
  unfold prepare_present, checked_add. intros H. inv_method. reflect.
  destruct (_ <=? _) eqn:Hmax in Hm2; [|discriminate]. simplify_eq. reflect.
  rewrite <- eq_None_not_Some in *. destruct Hm0 as [Halive Hd].
  exists a1. split; [by constructor | done].
Qed.

Lemma prepare_present_runs d f serial b :
  preparable d (af_frame_id f) serial b →
  prepare_present d f b =
  (prepared (af_frame_id f) b,
   Ok (mkPrepared (prepared_message f serial b) (next_timeline_point b + 1)
         (next_timeline_point b + 1))).
Proof.
  intros [Halive -> Hack Hp Hf].
  unfold prepare_present, checked_add, mbind, method_bind, get, reject, lift, put.
  rewrite Halive, Z.eqb_refl, Hack; cbn. rewrite (proj2 (Z.leb_le _ _) Hp); cbn. rewrite Hf.
  reflexivity.
Qed.

Lemma prepared_inv frame b :
  bd_inv b → next_timeline_point b + 1 ≤ u64_max → bd_inv (prepared frame b).
Proof.
  intros [Ho Hr Hp Hd] Hn. split; cbn; [done|lia| |].
  - intros f p [[<- <-]|[_ H]]%lookup_insert_Some; [lia|]. apply Hp in H. lia.
  - intros f1 f2 p [[<- <-]|[_ H1]]%lookup_insert_Some [[<- ?]|[_ H2]]%lookup_insert_Some; try done.
    + apply Hp in H2. lia.
    + subst p. apply Hp in H1. lia.
    + by eapply Hd.
Qed.

Lemma pending_delete_inv frame b :
  bd_inv b →
  bd_inv (set_bd_points (next_timeline_point b) (delete frame (pending_release_points b)) b).
Proof.
  intros [Ho Hr Hp Hd]. split; cbn; [done|done| |].
  - intros f p [_ H]%lookup_delete_Some. by eapply Hp.
  - intros f1 f2 p [_ H1]%lookup_delete_Some [_ H2]%lookup_delete_Some. by eapply Hd.
Qed.

(** Composer calls never touch the binding. *)
Lemma on_composer_binding {A} (m : co_method A) st : (on_composer m st).1.1 = st.1.
Proof. destruct st as [b s]. unfold on_composer. by destruct (composer_for_display_mut _ _ _ _). Qed.

(** The binding an operation leaves: unchanged, acknowledged differently, bound,
    marked for destruction, with a frame added or with a frame removed. *)
Inductive bd_change (b : DenialTaskBinding) : DenialTaskBinding → Prop :=
| bc_same : bd_change b b
| bc_ack a : bd_change b (set_bd_ack a b)
| bc_task t : bd_change b (set_bd_task t b)
| bc_destroy : bd_change b (set_bd_destroy true b)
| bc_delete f :
    bd_change b (set_bd_points (next_timeline_point b) (delete f (pending_release_points b)) b).

Create HintDb bridge.
#[export] Hint Constructors bd_change : bridge.

Lemma apply_event_change msg b s : bd_change b (apply_event msg (b, s)).1.1.
Proof.
  unfold apply_event. unfold mbind at 1, method_bind at 1. cbn [get].
  unfold mbind at 1, method_bind at 1, lift. destruct (ok_or _ _) as [obj|e]; [|apply bc_same].
  unfold mbind at 1, method_bind at 1, reject at 1.
  destruct (negb _); [apply bc_same|]. cbn [fst].
  destruct msg as [| | | o g fs | | | o sr w h sn sd t r | | | | o f buf p | o f t q q' q'' | o sc t q q' | | | | ];
    try apply bc_same; unfold mbind, method_bind.
  - pose proof (on_composer_binding (modify (co_replace_feedback fs)) (b, s)) as H.
    destruct (on_composer _ _) as [[b' s'] [u|e]]; cbn in *; subst; apply bc_same.
  - pose proof (on_composer_binding (modify (co_configure (mkConfigure sr w h r))) (b, s)) as H.
    destruct (on_composer _ _) as [[b' s'] [u|e]]; cbn in *; subst; auto with bridge.
  - destruct (apply_release_cases f buf p b s) as [[w Hm]|Hno].
    + rewrite (apply_release_matching f buf p b s w Hm). apply bc_delete.
    + destruct (apply_release_mismatch f buf p b s Hno) as [e ->]. apply bc_same.
  - pose proof (on_composer_binding (presentation_sample t) (b, s)) as H.
    destruct (on_composer _ _) as [[b' s'] [u|e]]; cbn in *; subst; apply bc_same.
  - pose proof (on_composer_binding (presentation_sample t) (b, s)) as H.
    destruct (on_composer _ _) as [[b' s'] [u|e]]; cbn in *; subst; apply bc_same.
Qed.

Lemma br_run_change op st :
  match op with
  | BrPrepare d f =>
      match prepare_present d f st.1 with
      | (b', Ok p) => (br_run op st).1 = b'
      | (_, Err _) => (br_run op st).1 = st.1
      end
  | _ => bd_change st.1 (br_run op st).1
  end.
Proof.
  destruct st as [b s]. destruct op as [n|d f|f p|msg|t|sent|op]; cbn.
  - unfold bridge_acknowledge_configure, mbind, method_bind.
    pose proof (on_composer_binding (co_acknowledge_configure n) (b, s)) as H.
    destruct (on_composer _ _) as [[b' s'] [u|e]]; cbn in *; subst; auto with bridge.
  - destruct (prepare_present d f b) as [b' [p|e]] eqn:E; cbn; [done|]. by apply fail_safe in E.
  - destruct (cancel_unsubmitted_present f p b) as [b' [u|e]] eqn:E; cbn.
    + unfold cancel_unsubmitted_present in E. inv_method. auto with bridge.
    + apply fail_safe in E as ->. auto with bridge.
  - apply apply_event_change.
  - destruct (mark_task_bound t b) as [b' [u|e]] eqn:E; cbn.
    + unfold mark_task_bound in E. inv_method. auto with bridge.
    + apply fail_safe in E as ->. auto with bridge.
  - destruct (destroy_requested b); [auto with bridge|]. destruct sent; auto with bridge.
  - auto with bridge.
Qed.

Lemma bd_change_inv b b' :
  bd_inv b → bd_change b b' → bd_inv b' ∧ next_timeline_point b' = next_timeline_point b.
Proof.
  intros Hb [ | | | | f]; try (split; [by destruct Hb; split | done]).
  split; [by apply pending_delete_inv | done].
Qed.

Lemma br_points_sorted ops st :
  bd_inv st.1 →
  StronglySorted Z.lt (br_points ops st)
  ∧ Forall (λ p, next_timeline_point st.1 < p ≤ u64_max) (br_points ops st).
Proof.
  revert st; induction ops as [|op ops IH]; intros st Hb; cbn [br_points].
  { split; constructor. }
  pose proof (br_run_change op st) as Hop.
  assert (bd_change st.1 (br_run op st).1 →
    StronglySorted Z.lt (br_points ops (br_run op st))
    ∧ Forall (λ p, next_timeline_point st.1 < p ≤ u64_max) (br_points ops (br_run op st))) as Hquiet.
  { intros Hc. destruct (bd_change_inv _ _ Hb Hc) as [Hb' Hn]. rewrite <- Hn. by apply IH. }
  destruct op as [|d f| | | | | ]; try (by apply Hquiet).
  destruct (prepare_present d f st.1) as [b' [p|e]] eqn:E; cbn [snd app].
  - apply prepare_present_Ok in E as (n & Hprep & -> & ->).
    destruct (IH (br_run (BrPrepare d f) st)) as [Hs Ha].
    { rewrite Hop. apply prepared_inv; [done | apply Hprep]. }
    rewrite Hop in Ha. cbn in Ha. pose proof (pb_point _ _ _ _ Hprep). split; constructor; try done.
    + eapply Forall_impl; [exact Ha|]. cbn. lia.
    + cbn. lia.
    + eapply Forall_impl; [exact Ha|]. cbn. lia.
  - apply Hquiet. rewrite Hop. apply bc_same.
Qed.

Lemma binding_new_inv obj r b :
  binding_new obj r = Ok b → bd_inv b ∧ next_timeline_point b = 0.
Proof.
  unfold binding_new. intros H. inv_ok. subst b. reflect. split; [|done].
  split; cbn; [done | unfold u64_max; lia | |]; intros *; rewrite lookup_empty; done.
Qed.

(** ** Properties *)

(** A task binding never reuses a timeline point.  Whatever happens between
    them (host events, cancelled presents, acknowledgements, destruction, any
    session call), the points of successive presents of one binding are
    positive, strictly increasing and within 64 bits; a cancelled present does
    not give its point back. *)
Theorem bridge_points_increase obj r b s ops :
  binding_new obj r = Ok b →
  StronglySorted Z.lt (br_points ops (b, s))
  ∧ Forall (λ p, 1 ≤ p ≤ u64_max) (br_points ops (b, s)).
Proof.
  intros [Hb Hn]%binding_new_inv. destruct (br_points_sorted ops (b, s) Hb) as [Hs Ha].
  split; [done|]. eapply Forall_impl; [exact Ha|]. cbn. rewrite Hn. lia.
Qed.

(** A host release is applied exactly when it names a pending frame with
    its own buffer and its own point on the right object; then the frame leaves
    the binding and the composer together and its buffer becomes idle.  Any
    other release is refused and changes neither side. *)
Theorem release_event_exact o f buf p b s :
  (∀ w, o = bd_object b → release_matches f buf p b s w →
     apply_event (BufferReleased o f buf p) (b, s) =
     (release_applied f buf b w s, Ok (ApBufferReleased (mkReleased f buf true))))
  ∧ (o ≠ bd_object b ∨ (∀ w, ~ release_matches f buf p b s w) →
     ∃ e, apply_event (BufferReleased o f buf p) (b, s) = ((b, s), Err e)).
Proof.
  unfold apply_event, mbind, method_bind, get, lift, reject; cbn [message_object ok_or fst].
  split.
  - intros w -> Hm. rewrite Z.eqb_refl; cbn [negb]. by apply apply_release_matching.
  - intros H. destruct (Z.eqb_spec o (bd_object b)) as [->|Hne]; cbn [negb]; [|eauto].
    destruct H as [|H]; [done|]. by apply apply_release_mismatch.
Qed.

(** ** A display driven through one frame *)

Definition demo_binding : DenialTaskBinding :=
  mkBinding 5 None 2 pkg None 0 ∅ false.

Definition demo_frame : AcceptedFrame := mkAccepted 1 demo_buffer [] true.

Definition demo_bridge_ops : list br_op :=
  [BrEvent (FormatFeedback 5 1 [mkFormatModifier 875713089 0]);
   BrEvent (ConfigureMsg 5 4 640 480 1 1 Normal 60000); BrAcknowledge 4;
   BrSession (SsTable (TwDisplay 2 (CoSubmit 2 (mkTarget demo_buffer [] true))));
   BrPrepare 2 demo_frame].

Definition demo_bridge : DenialTaskBinding * Session :=
  foldl (λ st op, br_run op st) (demo_binding, demo_session) demo_bridge_ops.

Lemma bridge_points_increase_witness :
  br_points (demo_bridge_ops ++ [BrCancel 1 1; BrPrepare 2 demo_frame]) (demo_binding, demo_session)
  = [1; 2]
  ∧ StronglySorted Z.lt
      (br_points (demo_bridge_ops ++ [BrCancel 1 1; BrPrepare 2 demo_frame])
         (demo_binding, demo_session)).
Proof.
  split; [vm_compute; reflexivity|].
  apply (bridge_points_increase 5 (mkReservation 2 pkg) demo_binding demo_session).
  reflexivity.
Defined.

Lemma release_event_exact_witness :
  ∃ w, apply_event (BufferReleased 5 1 7 1) (demo_bridge.1, demo_bridge.2) =
       (release_applied 1 7 demo_bridge.1 w demo_bridge.2,
        Ok (ApBufferReleased (mkReleased 1 7 true))).
Proof.
  eexists. apply (release_event_exact 5 1 7 1 demo_bridge.1 demo_bridge.2);
    [vm_compute; reflexivity|]. split_and!; vm_compute; reflexivity.
Defined.
