(* ===== verification/Sink.v ===== *)
(** * The presentation sink (graphics/droidloom-composer-aidl/src/denial.rs)

    The Android process keeps one [TaskChannel] per task display: the binding
    of [Bridge], its pair of timelines and the table of render targets the host
    lent to it.  A target is idle, reserved by SurfaceFlinger or busy with a
    presented frame, and may be revoked by the host meanwhile.  Methods run on
    the kernel state, the session and the sink; the maps are behind a mutex
    whose poisoning is a flag.  Frame tracing is left out, [Graphics] carries
    the fixed part of its text, and the EGL compositor and descriptor
    duplication are operations of the class [RenderOps]. *)

From S2P Require Import Prelude Ownership Transport Protocol Codec Syncobj Ipc.
From S2P Require Import Composer TaskWindows Hwc3 Bridge.

Inductive DenialSinkError : Type :=
| SkDuplicateDisplay (display : DisplayId)
| SkDuplicateObject (obj : TaskObjectId)
| SkUnknownDisplay (display : DisplayId)
| SkUnknownObject (obj : TaskObjectId)
| ConnectionMessage
| BufferMetadataMismatch (buffer : BufferId)
| PlaneDescriptorMismatch
| DuplicateRenderTarget (buffer : BufferId)
| UnknownRenderTarget (buffer : BufferId)
| NoRenderTarget (display : DisplayId)
| Poisoned
| SkBridge (e : DenialBridgeError)
| SkIpc (e : IpcError)
| SkSyncobj (e : SyncobjError)
| Graphics (message : string)
| SkComposer (e : ComposerError).

Definition sink_error_code (e : DenialSinkError) : ErrorCode :=
  match e with
  | SkUnknownDisplay _ => BadDisplay
  | BufferMetadataMismatch _ | PlaneDescriptorMismatch | DuplicateRenderTarget _
  | UnknownRenderTarget _ | SkBridge _ => BadParameter
  | SkDuplicateDisplay _ | SkDuplicateObject _ | SkUnknownObject _ | ConnectionMessage
  | NoRenderTarget _ | Poisoned | SkIpc _ | SkSyncobj _ | Graphics _ | SkComposer _ => NoResources
  end.

Record HostRenderTarget : Type := mkHostTarget {
  ht_configure_serial : Z;
  ht_metadata : BufferMetadata;
  ht_plane_fds : list fd;
  reserved : bool;
  busy : bool;
  revoked : bool
}.

Record ImportedRenderTarget : Type := mkImported {
  it_metadata : BufferMetadata;
  it_configure_serial : Z;
  it_plane_fds : list fd
}.

Record TaskChannel : Type := mkChannel {
  ch_binding : DenialTaskBinding;
  ch_timelines : TaskTimelines;
  render_targets : gmap BufferId HostRenderTarget;
  frame_targets : gmap FrameId BufferId;
  content_opaque : option bool;
  surfaceflinger_present_fence : option fd;
  headless_completion : option (TaskTimelines * Z);
  android_display_extent : option (Z * Z);
  target_demand : RenderTargetDemand
}.

Record Sink : Type := mkSink {
  sk_tasks : gmap DisplayId TaskChannel;
  sk_compositor : bool;
  sk_poisoned : bool;
  sk_compositor_poisoned : bool;
  sk_activation_requests : bool;
  sk_lazy_render_targets : bool
}.

(** [PresentationFailure] of lib.rs. *)
Record PresentationFailure : Type := mkFailure { pf_code : ErrorCode; pf_accepted : bool }.
Definition unsubmitted (code : ErrorCode) : PresentationFailure := mkFailure code false.

Definition sink_new : Sink := mkSink ∅ false false false false false.
Definition sink_with_activation_requests (enabled : bool) (k : Sink) : Sink :=
  mkSink (sk_tasks k) (sk_compositor k) (sk_poisoned k) (sk_compositor_poisoned k) enabled
    (sk_lazy_render_targets k).
Definition sink_with_lazy_render_targets (enabled : bool) (k : Sink) : Sink :=
  mkSink (sk_tasks k) (sk_compositor k) (sk_poisoned k) (sk_compositor_poisoned k)
    (sk_activation_requests k) enabled.

Definition set_sk_tasks m k := mkSink m (sk_compositor k) (sk_poisoned k)
  (sk_compositor_poisoned k) (sk_activation_requests k) (sk_lazy_render_targets k).
Definition set_sk_compositor c k := mkSink (sk_tasks k) c (sk_poisoned k)
  (sk_compositor_poisoned k) (sk_activation_requests k) (sk_lazy_render_targets k).

Definition set_flags r b v t := mkHostTarget (ht_configure_serial t) (ht_metadata t)
  (ht_plane_fds t) r b v.
Definition reserve_target t := set_flags true (busy t) (revoked t) t.
Definition unreserve_target t := set_flags false (busy t) (revoked t) t.
Definition retire_target t := set_flags (reserved t) false (revoked t) t.
Definition revoke_target t := set_flags (reserved t) (busy t) true t.
Definition present_target t := set_flags false true (revoked t) t.

Definition set_ch_binding b c := mkChannel b (ch_timelines c) (render_targets c)
  (frame_targets c) (content_opaque c) (surfaceflinger_present_fence c) (headless_completion c)
  (android_display_extent c) (target_demand c).
Definition set_ch_timelines t c := mkChannel (ch_binding c) t (render_targets c)
  (frame_targets c) (content_opaque c) (surfaceflinger_present_fence c) (headless_completion c)
  (android_display_extent c) (target_demand c).
Definition set_targets rt ft c := mkChannel (ch_binding c) (ch_timelines c) rt ft
  (content_opaque c) (surfaceflinger_present_fence c) (headless_completion c)
  (android_display_extent c) (target_demand c).
Definition set_opaque o c := mkChannel (ch_binding c) (ch_timelines c) (render_targets c)
  (frame_targets c) o (surfaceflinger_present_fence c) (headless_completion c)
  (android_display_extent c) (target_demand c).
Definition set_present_fence f c := mkChannel (ch_binding c) (ch_timelines c) (render_targets c)
  (frame_targets c) (content_opaque c) f (headless_completion c)
  (android_display_extent c) (target_demand c).
Definition set_headless h c := mkChannel (ch_binding c) (ch_timelines c) (render_targets c)
  (frame_targets c) (content_opaque c) (surfaceflinger_present_fence c) h
  (android_display_extent c) (target_demand c).
Definition set_extent e c := mkChannel (ch_binding c) (ch_timelines c) (render_targets c)
  (frame_targets c) (content_opaque c) (surfaceflinger_present_fence c) (headless_completion c)
  e (target_demand c).
Definition set_demand d c := mkChannel (ch_binding c) (ch_timelines c) (render_targets c)
  (frame_targets c) (content_opaque c) (surfaceflinger_present_fence c) (headless_completion c)
  (android_display_extent c) d.

(** [render_targets.get_mut(id)] with an update, and [frame_targets.insert]. *)
Definition update_target (f : HostRenderTarget → HostRenderTarget) (buffer : BufferId)
    (c : TaskChannel) : TaskChannel :=
  set_targets (alter f buffer (render_targets c)) (frame_targets c) c.
Definition drop_target (buffer : BufferId) (c : TaskChannel) : TaskChannel :=
  set_targets (delete buffer (render_targets c)) (frame_targets c) c.
Definition track_frame (frame : FrameId) (buffer : BufferId) (c : TaskChannel) : TaskChannel :=
  set_targets (render_targets c) (<[frame := buffer]> (frame_targets c)) c.

(** The GLES compositor and descriptor duplication. *)
Class RenderOps (K : Type) : Type := {
  PreparedLayer : Type;
  layer_compositor_new : K → K * result string unit;
  layer_compose : ImportedRenderTarget → list PreparedLayer → Z * Z → K → K * result string fd;
  try_clone : fd → K → K * result errno fd
}.

Definition task_object (message : DenialMessage) : option TaskObjectId :=
  match message with
  | FormatFeedback o _ _ | RegisterRenderTarget o _ _ | UnregisterRenderTarget o _
  | ConfigureMsg o _ _ _ _ _ _ _ | Insets o _ _ _ _ | VisibilityMsg o _ _ | Close o
  | BufferReleased o _ _ _ | Presented o _ _ _ _ _ | ScenePresented o _ _ _ _
  | Input o _ _ _ => Some o
  | ErrorMsg o _ _ _ => o
  | ServerHello _ _ _ _ _ _ | RequestInputChannel _ | DisplayPower _ | Ping _
  | FrameGrant _ _ _ => None
  end.

Definition pin_android_display_extent (extent : option (Z * Z)) (width height : Z)
  : result DenialSinkError (option (Z * Z)) :=
  fail_if ((width =? 0) || (height =? 0)) (Graphics "invalid Android display extent");;
  mret (match extent with Some e => Some e | None => Some (width, height) end).

(** The collected [Result] of the received plane descriptors. *)
Fixpoint target_planes (ds : list AttachedDescriptor) : result DenialSinkError (list fd) :=
  match ds with
  | [] => Ok []
  | d :: ds =>
      if decide (ad_kind d = DmabufPlane)
      then fds ← target_planes ds; mret (ad_fd d :: fds)
      else Err PlaneDescriptorMismatch
  end.

(** The predicate of the search for a reusable target. *)
Definition reusable (serial : Z) (t : HostRenderTarget) : bool :=
  (ht_configure_serial t =? serial) && negb (reserved t) && negb (busy t) && negb (revoked t).

Definition find_reusable (serial : Z) (c : TaskChannel) : option (BufferId * HostRenderTarget) :=
  find (λ e, reusable serial e.2) (btree_items (render_targets c)).

Section sink.

Context {K : Type} `{Drm K, SeqPacketOps K, RenderOps K}.

(** ** Running on one channel *)

Definition ch_state : Type := K * Session * TaskChannel.
Definition sk_state : Type := K * Session * Sink.
Definition ch_method := method ch_state DenialSinkError.
Definition sk_method := method sk_state DenialSinkError.

Definition channel {E} : method ch_state E TaskChannel := gets snd.
Definition update_channel {E} (f : TaskChannel → TaskChannel) : method ch_state E unit :=
  modify (λ st, (st.1, f st.2)).

Definition ch_kernel {E A} (f : E → DenialSinkError) (m : method K E A) : ch_method A :=
  λ st, let '(k', r) := m st.1.1 in ((k', st.1.2, st.2), map_err f r).
Definition ch_send (message : AndroidMessage) (fds : list fd) : ch_method unit :=
  ch_kernel SkIpc (send_android message fds).
Definition on_timelines {A} (m : method (K * TaskTimelines) SyncobjError A) : ch_method A :=
  λ st, let '((k', t'), r) := m (st.1.1, ch_timelines st.2) in
        ((k', st.1.2, set_ch_timelines t' st.2), map_err SkSyncobj r).
Definition ch_on_binding {A} (m : bd_method A) : ch_method A :=
  λ st, let '(b', r) := m (ch_binding st.2) in
        ((st.1, set_ch_binding b' st.2), map_err SkBridge r).
Definition on_bridge {A} (m : br_method A) : ch_method A :=
  λ st, let '((b', s'), r) := m (ch_binding st.2, st.1.2) in
        ((st.1.1, s', set_ch_binding b' st.2), map_err SkBridge r).

(** [lock_tasks]; a poisoned mutex stays poisoned. *)
Definition lock_tasks : sk_method unit :=
  λ st, (st, if sk_poisoned st.2 then Err Poisoned else Ok tt).

(** [tasks.get_mut(&display)] and the search by task object. *)
Definition task_mut {E A} (display : DisplayId) (missing : E) (m : method ch_state E A)
  : method sk_state E A :=
  λ st, match sk_tasks st.2 !! display with
        | None => (st, Err missing)
        | Some c =>
            let '((e', c'), r) := m (st.1, c) in
            ((e', set_sk_tasks (<[display := c']> (sk_tasks st.2)) st.2), r)
        end.

Definition find_object (obj : TaskObjectId) (k : Sink) : option (DisplayId * TaskChannel) :=
  find (λ e, bd_object (ch_binding e.2) =? obj) (btree_items (sk_tasks k)).

Definition object_mut {A} (obj : TaskObjectId) (m : ch_method A) : sk_method A :=
  λ st, match find_object obj st.2 with
        | None => (st, Err (SkUnknownObject obj))
        | Some (d, _) => task_mut d (SkUnknownObject obj) m st
        end.

(** ** Task lifecycle *)

Definition request_activation (display : DisplayId) : sk_method unit :=
  st ← get;
  if sk_activation_requests st.2 then
    lock_tasks;;
    task_mut display (SkUnknownDisplay display)
      (c ← channel; ch_send (RequestActivation (bd_object (ch_binding c))) [])
  else mret tt.

Definition sk_kernel {E A} (f : E → DenialSinkError) (m : method K E A) : sk_method A :=
  λ st, let '(k', r) := m st.1.1 in ((k', st.1.2, st.2), map_err f r).
Definition sk_send (message : AndroidMessage) (fds : list fd) : sk_method unit :=
  sk_kernel SkIpc (send_android message fds).

Definition channel_new (binding : DenialTaskBinding) (timelines : TaskTimelines) : TaskChannel :=
  mkChannel binding timelines ∅ ∅ None None None None demand_default.

Definition register_task (obj : TaskObjectId) (reservation : ReservedTaskWindowSpec)
  : sk_method unit :=
  lock_tasks;;
  st ← get;
  reject (bool_decide (is_Some (sk_tasks st.2 !! rs_display reservation)))
    (SkDuplicateDisplay (rs_display reservation));;
  reject (existsb (λ c, bd_object (ch_binding c) =? obj) (btree_values (sk_tasks st.2)))
    (SkDuplicateObject obj);;
  binding ← lift (map_err SkBridge (binding_new obj reservation));
  timelines ← sk_kernel SkSyncobj android_create;
  descriptors ← sk_kernel SkSyncobj
    (λ k, let '((k', _), r) := android_export_descriptors (k, timelines) in (k', r));
  sk_send (create_task_message binding) [];;
  bound ← attempt (sk_send (bind_timelines_message binding)
                     [td_acquire descriptors; td_release descriptors]);
  match bound with
  | Err e =>
      attempt (F := DenialSinkError) (sk_send (DestroyTask obj) []);; throw e
  | Ok _ =>
      modify (λ st, (st.1, set_sk_tasks
        (<[rs_display reservation := channel_new binding timelines]> (sk_tasks st.2)) st.2))
  end.

Definition sink_bind_task (display : DisplayId) (task : TaskId) : sk_method unit :=
  lock_tasks;;
  st ← get;
  reject (existsb (λ e, negb (e.1 =? display) && bool_decide (bd_task (ch_binding e.2) = Some task))
            (btree_items (sk_tasks st.2)))
    (SkBridge UnexpectedMessage);;
  task_mut display (SkUnknownDisplay display)
    (c ← channel;
     if decide (bd_task (ch_binding c) = Some task) then mret tt else
     message ← lift (map_err SkBridge (bind_task_message task (ch_binding c)));
     ch_send message [];;
     ch_on_binding (mark_task_bound task)).

Definition channel_destroy : ch_method unit :=
  λ st, let '((b', k'), r) :=
          request_destroy (λ message, send_android message []) (ch_binding st.2, st.1.1) in
        ((k', st.1.2, set_ch_binding b' st.2), map_err SkIpc r).

Definition request_task_removal (display : DisplayId) : sk_method unit :=
  lock_tasks;; task_mut display (SkUnknownDisplay display) channel_destroy.

Definition unregister_task (display : DisplayId) : sk_method unit :=
  lock_tasks;;
  st ← get;
  reject (match sk_tasks st.2 !! display with
          | Some c => negb (destroy_requested (ch_binding c))
          | None => false
          end) (SkBridge UnexpectedMessage);;
  modify (λ st, (st.1, set_sk_tasks (delete display (sk_tasks st.2)) st.2)).

Definition sink_acknowledge_configure (display : DisplayId) (serial : Z) : sk_method unit :=
  lock_tasks;;
  task_mut display (SkUnknownDisplay display)
    (message ← on_bridge (bridge_acknowledge_configure serial); ch_send message []).

Definition bind_layer_stream (display : DisplayId) (sockets : list fd) : sk_method unit :=
  lock_tasks;;
  task_mut display (SkUnknownDisplay display)
    (c ← channel;
     reject (destroy_requested (ch_binding c)) (SkBridge UnexpectedMessage);;
     ch_send (BindLayerStream (bd_object (ch_binding c))) sockets).

Definition display_for_object (obj : TaskObjectId) : sk_method DisplayId :=
  lock_tasks;;
  st ← get;
  lift (ok_or (fst <$> find_object obj st.2) (SkUnknownObject obj)).

(** ** Host events *)

(** The [Configure] and [BufferReleased] arms that follow the bridge. *)
Definition observe_configure (serial width height : Z) : ch_method unit :=
  c ← channel;
  extent ← lift (pin_android_display_extent (android_display_extent c) width height);
  update_channel (set_extent extent);;
  update_channel (λ c, set_demand (demand_configure serial (target_demand c)) c).

Definition release_target (frame : FrameId) (buffer : BufferId) : ch_method unit :=
  c ← channel;
  tracked ← lift (ok_or (frame_targets c !! frame) (UnknownRenderTarget buffer));
  update_channel (λ c, set_targets (render_targets c) (delete frame (frame_targets c)) c);;
  reject (negb (tracked =? buffer)) (BufferMetadataMismatch buffer);;
  target ← lift (ok_or (render_targets c !! buffer) (UnknownRenderTarget buffer));
  update_channel (update_target retire_target buffer);;
  if revoked target then update_channel (drop_target buffer) else mret tt.

Definition after_event (message : DenialMessage) (event : AppliedDenialEvent) : ch_method unit :=
  match event with
  | ApConfigure serial width height _ _ _ _ => observe_configure serial width height
  | _ => mret tt
  end;;
  match message with
  | BufferReleased _ frame buffer _ => release_target frame buffer
  | _ => mret tt
  end.

Definition channel_event (message : DenialMessage) : ch_method AppliedDenialEvent :=
  event ← on_bridge (apply_event message);
  after_event message event;;
  mret event.

Definition apply_task_event (message : DenialMessage) : sk_method AppliedDenialEvent :=
  obj ← lift (ok_or (task_object message) ConnectionMessage);
  lock_tasks;;
  object_mut obj (channel_event message).

(** ** Render targets *)

Definition register_render_target (obj : TaskObjectId) (configure_serial : Z)
    (buffer : BufferMetadata) (descriptors : list AttachedDescriptor) : sk_method unit :=
  planes ← lift (target_planes descriptors);
  reject (negb (zlen planes =? zlen (b_planes buffer))) PlaneDescriptorMismatch;;
  lock_tasks;;
  object_mut obj
    (c ← channel;
     reject (bool_decide (is_Some (render_targets c !! b_id buffer)))
       (DuplicateRenderTarget (b_id buffer));;
     update_channel (set_targets
       (<[b_id buffer := mkHostTarget configure_serial buffer planes false false false]>
          (render_targets c)) (frame_targets c))).

Definition unregister_render_target (obj : TaskObjectId) (buffer : BufferId) : sk_method unit :=
  lock_tasks;;
  object_mut obj
    (c ← channel;
     target ← lift (ok_or (render_targets c !! buffer) (UnknownRenderTarget buffer));
     if reserved target || busy target
     then update_channel (update_target revoke_target buffer)
     else update_channel (drop_target buffer)).

(** [lazy] is the sink's negotiated [lazy_render_targets]. *)
Definition ensure_render_targets (lazy : bool) : ch_method unit :=
  c ← channel;
  match dm_serial (target_demand c) with
  | None => mret tt
  | Some serial =>
      let has_pool := existsb (λ t, negb (revoked t) && (ht_configure_serial t =? serial))
                        (btree_values (render_targets c)) in
      match demand_request lazy has_pool (target_demand c) with
      | None => mret tt
      | Some serial =>
          ch_send (RequestRenderTargets (bd_object (ch_binding c)) serial) [];;
          update_channel (λ c, set_demand (demand_sent serial (target_demand c)) c)
      end
  end.

Fixpoint clone_all (fds : list fd) : method K errno (list fd) :=
  match fds with
  | [] => mret []
  | f :: fds => f' ← try_clone f; fds' ← clone_all fds; mret (f' :: fds')
  end.

(** The search, the duplication of its planes and the reservation. *)
Definition take_reusable (serial : Z) (none : DenialSinkError) (cloned : errno → DenialSinkError)
  : ch_method ImportedRenderTarget :=
  c ← channel;
  found ← lift (ok_or (find_reusable serial c) none);
  plane_fds ← ch_kernel cloned (clone_all (ht_plane_fds found.2));
  update_channel (update_target reserve_target found.1);;
  mret (mkImported (ht_metadata found.2) (ht_configure_serial found.2) plane_fds).

Definition acquire_surfaceflinger_target (display : DisplayId) : sk_method ImportedRenderTarget :=
  lock_tasks;;
  st ← get;
  task_mut display (SkUnknownDisplay display)
    (c ← channel;
     reject (destroy_requested (ch_binding c)) (NoRenderTarget display);;
     ensure_render_targets (sk_lazy_render_targets st.2);;
     c ← channel;
     newest ← lift (ok_or (dm_serial (target_demand c)) (NoRenderTarget display));
     take_reusable newest (NoRenderTarget display)
       (λ _, Graphics "duplicate SurfaceFlinger target plane")).

(** Clears the reservation unless the target is busy, and drops a target that
    was revoked meanwhile; the lock's poisoning makes it a no-op. *)
Definition cancel_channel (buffer : BufferId) (c : TaskChannel) : TaskChannel :=
  match render_targets c !! buffer with
  | None => c
  | Some t =>
      let t' := if busy t then t else unreserve_target t in
      if negb (busy t') && negb (reserved t') && revoked t'
      then drop_target buffer (update_target (λ _, t') buffer c)
      else update_target (λ _, t') buffer c
  end.

Definition cancel_reserved_target {E} (display : DisplayId) (buffer : BufferId)
  : method sk_state E unit :=
  modify (λ st, if sk_poisoned st.2 then st
                else match sk_tasks st.2 !! display with
                     | None => st
                     | Some c =>
                         (st.1, set_sk_tasks (<[display := cancel_channel buffer c]>
                                                (sk_tasks st.2)) st.2)
                     end).

Definition cancel_surfaceflinger_target (display : DisplayId) (target : ImportedRenderTarget)
  : sk_method unit :=
  cancel_reserved_target display (b_id (it_metadata target)).

(** ** Bufferless frames *)

(** [headless_fence.rs]. *)
Definition ready_fence {S E} (ready : option fd) (create_completed : method S E fd)
  : method S E fd :=
  match ready with Some f => mret f | None => create_completed end.

Definition headless_error (_ : SyncobjError) : DenialSinkError := Graphics "headless present fence".

Definition on_headless {A} (m : method (K * TaskTimelines) SyncobjError A) : ch_method A :=
  λ st, match headless_completion st.2 with
        | None => (st, Err (Graphics "headless present fence"))
        | Some (t, point) =>
            let '((k', t'), r) := m (st.1.1, t) in
            ((k', st.1.2, set_headless (Some (t', point)) st.2), map_err headless_error r)
        end.

Definition headless_init : ch_method unit :=
  c ← channel;
  match headless_completion c with
  | Some _ => mret tt
  | None =>
      timelines ← ch_kernel headless_error android_create;
      update_channel (set_headless (Some (timelines, 0)))
  end.

Definition complete_point : ch_method fd :=
  headless_init;;
  c ← channel;
  next ← lift (ok_or (h ← headless_completion c; checked_add u64_max h.2 1)
                 (Graphics "headless present fence"));
  on_headless (android_signal_acquire next);;
  update_channel (λ c, set_headless ((λ h, (h.1, next)) <$> headless_completion c) c);;
  on_headless (android_export_acquire_fence next).

Definition complete_headless_frame (display : DisplayId) (ready : option fd) : sk_method unit :=
  lock_tasks;;
  task_mut display (NoRenderTarget display)
    (c ← channel;
     reject (destroy_requested (ch_binding c)) (NoRenderTarget display);;
     fence ← ready_fence ready complete_point;
     update_channel (set_present_fence (Some fence))).

(** ** Presenting *)

Definition cancel_prepared {E} (frame : AcceptedFrame) (prepared : PreparedPresent)
  : method ch_state E unit :=
  attempt (ch_on_binding (cancel_unsubmitted_present (af_frame_id frame)
                            (pp_release_point prepared)));; mret tt.

(** The steps after [prepare_present], whose failures take the points back. *)
Definition or_cancel {E A} (frame : AcceptedFrame) (prepared : PreparedPresent)
    (m : method ch_state E A) : method ch_state E A :=
  r ← attempt m;
  match r with
  | Ok a => mret a
  | Err e => cancel_prepared frame prepared;; throw e
  end.

(** A target that may carry this frame. *)
Definition presentable (frame : AcceptedFrame) (t : HostRenderTarget) : bool :=
  reserved t && negb (busy t) && negb (revoked t) && bool_decide (ht_metadata t = af_buffer frame).

Definition announce_opaque (opaque : bool) : ch_method unit :=
  c ← channel;
  if decide (content_opaque c = Some opaque) then mret tt else
  ch_send (SetContentState (bd_object (ch_binding c)) (if opaque then content_state.OPAQUE else 0)) [];;
  update_channel (set_opaque (Some opaque)).

Definition mark_presented (frame : AcceptedFrame) (c : TaskChannel) : TaskChannel :=
  track_frame (af_frame_id frame) (b_id (af_buffer frame))
    (update_target present_target (b_id (af_buffer frame)) c).

Definition channel_present (display : DisplayId) (frame : AcceptedFrame)
    (acquire_fence : option fd) (opaque : bool) : ch_method unit :=
  c ← channel;
  reject (destroy_requested (ch_binding c)) (SkBridge UnexpectedMessage);;
  target ← lift (ok_or (render_targets c !! b_id (af_buffer frame))
                   (UnknownRenderTarget (b_id (af_buffer frame))));
  reject (negb (presentable frame target)) (BufferMetadataMismatch (b_id (af_buffer frame)));;
  announce_opaque opaque;;
  prepared ← ch_on_binding (prepare_present display frame);
  present_fence ← or_cancel frame prepared
    (on_timelines (match acquire_fence with
                   | Some f => android_import_acquire_fence (pp_acquire_point prepared) f
                   | None => android_signal_acquire (pp_acquire_point prepared)
                   end);;
     fence ← on_timelines (android_export_acquire_fence (pp_acquire_point prepared));
     ch_send (pp_message prepared) [];;
     mret fence);
  update_channel (mark_presented frame);;
  update_channel (set_present_fence (Some present_fence)).

Definition send_surfaceflinger_frame (display : DisplayId) (frame : AcceptedFrame)
    (target : ImportedRenderTarget) (acquire_fence : option fd) (opaque : bool) : sk_method unit :=
  reject (negb (bool_decide (it_metadata target = af_buffer frame))
          || negb (af_requires_acquire_fence frame))
    (BufferMetadataMismatch (b_id (it_metadata target)));;
  lock_tasks;;
  task_mut display (SkUnknownDisplay display)
    (channel_present display frame acquire_fence opaque).

(** A composer call on the session's window of [display]. *)
Definition sk_composer {A} (display : DisplayId) (m : co_method A)
  : sk_method (result ComposerError A) :=
  λ st, let '(w', r) :=
          composer_for_display_mut (λ _, Graphics "unknown display") display (attempt m)
            (ss_windows st.1.2) in
        ((st.1.1, mkSession w' (next_layer st.1.2), st.2), r).

Definition submitted_damage (target : ImportedRenderTarget) (damage : option Damage) : list Damage :=
  let d := default (mkDamage 0 0 (b_width (it_metadata target)) (b_height (it_metadata target)))
             damage in
  if (d_width d =? 0) && (d_height d =? 0) then [] else [d].

(** Sending a frame the composer accepted; a failure withdraws it from the
    composer and returns its target. *)
Definition send_or_withdraw (display : DisplayId) (frame : AcceptedFrame)
    (target : ImportedRenderTarget) (acquire_fence : option fd) (opaque : bool)
  : sk_method FrameId :=
  sent ← attempt (send_surfaceflinger_frame display frame target acquire_fence opaque);
  match sent with
  | Err e =>
      attempt (F := DenialSinkError)
        (sk_composer display (cancel_unsubmitted_target (af_frame_id frame)));;
      cancel_reserved_target display (b_id (it_metadata target));;
      throw e
  | Ok _ => mret (af_frame_id frame)
  end.

Definition submit_surfaceflinger_target (display : DisplayId) (target : ImportedRenderTarget)
    (acquire_fence : option fd) (opaque : bool) (damage : option Damage) : sk_method FrameId :=
  submitted ← sk_composer display
    (submit_rendered_target display
       (mkTarget (it_metadata target) (submitted_damage target damage) true));
  match submitted with
  | Err e =>
      cancel_reserved_target display (b_id (it_metadata target));; throw (SkComposer e)
  | Ok frame => send_or_withdraw display frame target acquire_fence opaque
  end.

(** ** The [PresentationSink] of the HWC path *)

(** [error.error_code()] on a failure. *)
Definition sink_coded {St A} (m : method St DenialSinkError A) : method St ErrorCode A :=
  λ st, let '(st', r) := m st in (st', map_err sink_error_code r).

Definition clone_planes (fds : list fd) : method ch_state ErrorCode (list fd) :=
  λ st, let '(k', r) := clone_all fds st.1.1 in
        ((k', st.1.2, st.2), map_err (λ _, NoResources) r).

Definition acquire_target (display : DisplayId) : method sk_state ErrorCode ImportedRenderTarget :=
  sink_coded lock_tasks;;
  st ← get;
  task_mut display BadDisplay
    (c ← channel;
     reject (destroy_requested (ch_binding c)) NoResources;;
     sink_coded (ensure_render_targets (sk_lazy_render_targets st.2));;
     c ← channel;
     newest ← lift (ok_or (dm_serial (target_demand c)) NoResources);
     found ← lift (ok_or (find_reusable newest c) NoResources);
     plane_fds ← clone_planes (ht_plane_fds found.2);
     update_channel (update_target reserve_target found.1);;
     mret (mkImported (ht_metadata found.2) (ht_configure_serial found.2) plane_fds)).

Definition cancel_target (display : DisplayId) (target : ImportedRenderTarget)
  : method sk_state ErrorCode unit :=
  cancel_reserved_target display (b_id (it_metadata target)).

Definition take_direct_present_fence (display : DisplayId) : method sk_state ErrorCode fd :=
  sink_coded lock_tasks;;
  task_mut display BadDisplay
    (c ← channel;
     update_channel (set_present_fence None);;
     lift (ok_or (surfaceflinger_present_fence c) NoResources)).

Definition display_extent (display : DisplayId) : sk_method (Z * Z) :=
  lock_tasks;;
  task_mut display (SkUnknownDisplay display)
    (c ← channel;
     lift (ok_or (android_display_extent c) (Graphics "Android display extent is not configured"))).

Definition compose (target : ImportedRenderTarget) (layers : list PreparedLayer)
    (extent : Z * Z) : sk_method fd :=
  st ← get;
  reject (sk_compositor_poisoned st.2) Poisoned;;
  (if sk_compositor st.2 then mret tt else
   sk_kernel Graphics layer_compositor_new;;
   modify (λ st, (st.1, set_sk_compositor true st.2)));;
  sk_kernel Graphics (layer_compose target layers extent).

(** The part of [submit_frame] under the lock.  A failed import or send clears
    the reservation; the earlier failures leave it. *)
Definition or_unreserve {A} (frame : AcceptedFrame) (m : method ch_state ErrorCode A)
  : method ch_state ErrorCode A :=
  r ← attempt m;
  match r with
  | Ok a => mret a
  | Err e => update_channel (update_target unreserve_target (b_id (af_buffer frame)));; throw e
  end.

Definition channel_submit (display : DisplayId) (frame : AcceptedFrame) (acquire_fence : fd)
  : method ch_state ErrorCode unit :=
  c ← channel;
  target ← lift (ok_or (render_targets c !! b_id (af_buffer frame)) BadParameter);
  reject (negb (presentable frame target)) BadParameter;;
  prepared ← sink_coded (ch_on_binding (prepare_present display frame));
  or_unreserve frame (or_cancel frame prepared
    (sink_coded
       (on_timelines (android_import_acquire_fence (pp_acquire_point prepared) acquire_fence);;
        ch_send (pp_message prepared) [])));;
  update_channel (mark_presented frame).

(** A step before the lock, whose failure returns the reservation. *)
Definition or_return {A} (display : DisplayId) (target : ImportedRenderTarget)
    (m : method sk_state ErrorCode A) : method sk_state ErrorCode A :=
  r ← attempt m;
  match r with
  | Ok a => mret a
  | Err e => cancel_reserved_target display (b_id (it_metadata target));; throw e
  end.

(** [try_clone_to_owned]. *)
Definition clone_fence (fence : fd) : method sk_state ErrorCode fd :=
  λ st, let '(k', r) := try_clone fence st.1.1 in
        ((k', st.1.2, st.2), map_err (λ _, NoResources) r).

Definition submit_coded (display : DisplayId) (frame : AcceptedFrame)
    (target : ImportedRenderTarget) (layers : list PreparedLayer)
  : method sk_state ErrorCode fd :=
  or_return display target
    (reject (negb (bool_decide (it_metadata target = af_buffer frame))) BadParameter);;
  extent ← or_return display target (sink_coded (display_extent display));
  acquire_fence ← or_return display target (sink_coded (compose target layers extent));
  present_fence ← or_return display target (clone_fence acquire_fence);
  sink_coded lock_tasks;;
  task_mut display BadDisplay (channel_submit display frame acquire_fence);;
  mret present_fence.

Definition submit_frame (display : DisplayId) (frame : AcceptedFrame)
    (target : ImportedRenderTarget) (layers : list PreparedLayer)
  : method sk_state PresentationFailure fd :=
  λ st, let '(st', r) := submit_coded display frame target layers st in
        (st', map_err unsubmitted r).

End sink.
