(* ===== verification/SinkProofs.v ===== *)
(** * The sink's invariant and its render targets

    A render target is absent, idle, held by SurfaceFlinger or shown by the
    host; [phase_next] is that life cycle as an abstract machine.  [channel_inv]
    ties the target table to the frames the binding and the composer have in
    flight, and every method of [Sink] is a sequence of [ch_move]s, which keep
    it. *)

From S2P Require Import Prelude Ownership Transport Protocol Codec Syncobj Ipc.
From S2P Require Import Composer TaskWindows Hwc3 Bridge Sink.

(** ** The life cycle of one target *)

Inductive TargetPhase : Type := Absent | Idle | Held (revoked : bool) | Shown (revoked : bool).

Inductive target_event : Type := TRegister | TRevoke | TReserve | TReturn | TPresent | TRelease.

Definition phase_next (p : TargetPhase) (e : target_event) : option TargetPhase :=
  match p, e with
  | Absent, TRegister => Some Idle
  | Idle, TRevoke => Some Absent
  | Held _, TRevoke => Some (Held true)
  | Shown _, TRevoke => Some (Shown true)
  | Idle, TReserve => Some (Held false)
  | Held r, TReturn => Some (if r then Absent else Idle)
  | Held false, TPresent => Some (Shown false)
  | Shown r, TRelease => Some (if r then Absent else Idle)
  | _, _ => None
  end.

Definition phase (t : option HostRenderTarget) : TargetPhase :=
  match t with
  | None => Absent
  | Some t => if busy t then Shown (revoked t) else if reserved t then Held (revoked t) else Idle
  end.

Definition target_phase (buffer : BufferId) (c : TaskChannel) : TargetPhase :=
  phase (render_targets c !! buffer).

(** Flags that can occur, and a target filed under its own identity. *)
Definition target_ok (buffer : BufferId) (t : HostRenderTarget) : Prop :=
  b_id (ht_metadata t) = buffer
  ∧ (reserved t = true → busy t = false)
  ∧ (revoked t = true → reserved t = true ∨ busy t = true).

Lemma phase_shown t : (∃ r, phase t = Shown r) ↔ ∃ x, t = Some x ∧ busy x = true.
Proof.
  destruct t as [t|]; cbn; [|split; [intros [? [=]] | intros (? & [=] & _)]].
  destruct (busy t) eqn:E; [split; eauto|]. split.
  - intros [r H]. by destruct (reserved t).
  - intros (x & [= <-] & ?). congruence.
Qed.

(** ** Frames in flight per display *)

Definition flight (s : Session) (d : DisplayId) (f : FrameId) : option BufferId :=
  w ← windows (ss_windows s) !! d; flights (tw_composer w) !! f.

Record channel_inv (s : Session) (d : DisplayId) (c : TaskChannel) : Prop := {
  ci_binding : bd_inv (ch_binding c);
  ci_display : bd_display (ch_binding c) = d;
  ci_target b t : render_targets c !! b = Some t → target_ok b t;
  ci_tracked f b : frame_targets c !! f = Some b → ∃ r, target_phase b c = Shown r;
  ci_shown b r : target_phase b c = Shown r → ∃ f, frame_targets c !! f = Some b;
  ci_once f g b : frame_targets c !! f = Some b → frame_targets c !! g = Some b → f = g;
  ci_points f : is_Some (frame_targets c !! f) ↔ is_Some (pending_release_points (ch_binding c) !! f);
  ci_flight f b : frame_targets c !! f = Some b → flight s d f = Some b
}.

Record sink_inv (s : Session) (k : Sink) : Prop := {
  si_windows : tw_inv (ss_windows s);
  si_channels d c : sk_tasks k !! d = Some c → channel_inv s d c;
  si_objects d d' c c' : sk_tasks k !! d = Some c → sk_tasks k !! d' = Some c' →
    bd_object (ch_binding c) = bd_object (ch_binding c') → d = d'
}.

Lemma sink_new_inv s : tw_inv (ss_windows s) → sink_inv s sink_new.
Proof. intros Hs. split; [done| |]; intros *; cbn; rewrite lookup_empty; discriminate. Qed.

(** Sessions in which at least the tracked frames stay in flight. *)
Definition keeps_tracked (k : Sink) (s s' : Session) : Prop :=
  ∀ d c f b, sk_tasks k !! d = Some c → frame_targets c !! f = Some b →
    flight s d f = Some b → flight s' d f = Some b.

Lemma sink_inv_session s s' k :
  tw_inv (ss_windows s') → keeps_tracked k s s' → sink_inv s k → sink_inv s' k.
Proof.
  intros Hw Hk [_ Hc Ho]. split; [done| |done].
  intros d c H. destruct (Hc d c H). split; eauto.
Qed.

(** ** Moves of one channel *)

(** A binding that differs in nothing the tables depend on. *)
Record bd_quiet (b b' : DenialTaskBinding) : Prop := {
  bq_inv : bd_inv b → bd_inv b';
  bq_object : bd_object b' = bd_object b;
  bq_display : bd_display b' = bd_display b;
  bq_points : pending_release_points b' = pending_release_points b
}.

Lemma bd_quiet_refl b : bd_quiet b b.
Proof. by split. Qed.

Lemma bd_quiet_trans b1 b2 b3 : bd_quiet b1 b2 → bd_quiet b2 b3 → bd_quiet b1 b3.
Proof. intros [? ? ? ?] [? ? ? ?]. split; [auto|congruence..]. Qed.

#[global] Instance bd_quiet_preorder : PreOrder bd_quiet.
Proof. split; [intros b; apply bd_quiet_refl | intros b1 b2 b3; apply bd_quiet_trans]. Qed.

(** A session in which no display lost or gained a frame. *)
Record sess_quiet (s s' : Session) : Prop := {
  sq_windows : tw_inv (ss_windows s) → tw_inv (ss_windows s');
  sq_flight d f : flight s' d f = flight s d f
}.

Lemma sess_quiet_refl s : sess_quiet s s.
Proof. by split. Qed.

Lemma sess_quiet_trans s1 s2 s3 : sess_quiet s1 s2 → sess_quiet s2 s3 → sess_quiet s1 s3.
Proof. intros [? H1] [? H2]. split; [auto|]. intros d f. by rewrite H2, H1. Qed.

(** The event of a single target, on a channel whose other targets stay. *)
Record target_move (buffer : BufferId) (e : target_event) (c c' : TaskChannel) : Prop := {
  tm_next : phase_next (target_phase buffer c) e = Some (target_phase buffer c');
  tm_ok t : render_targets c' !! buffer = Some t → target_ok buffer t;
  tm_others b : b ≠ buffer → render_targets c' !! b = render_targets c !! b
}.

(** A move, with the event of the target it is about. *)
Inductive ch_move (s : Session) (c : TaskChannel) (s' : Session) (c' : TaskChannel)
  : option (BufferId * target_event) → Prop :=
| mv_quiet :
    bd_quiet (ch_binding c) (ch_binding c') → sess_quiet s s' →
    render_targets c' = render_targets c → frame_targets c' = frame_targets c →
    ch_move s c s' c' None
| mv_target b e :
    e ≠ TPresent → e ≠ TRelease → bd_quiet (ch_binding c) (ch_binding c') → sess_quiet s s' →
    target_move b e c c' → frame_targets c' = frame_targets c → ch_move s c s' c' (Some (b, e))
| mv_present f b n :
    ch_binding c' = prepared f (ch_binding c) → sess_quiet s s' →
    preparable (bd_display (ch_binding c)) f n (ch_binding c) →
    flight s (bd_display (ch_binding c)) f = Some b →
    target_move b TPresent c c' → frame_targets c' = <[f := b]> (frame_targets c) →
    ch_move s c s' c' (Some (b, TPresent))
| mv_release f b :
    bd_object (ch_binding c') = bd_object (ch_binding c) →
    bd_display (ch_binding c') = bd_display (ch_binding c) →
    (bd_inv (ch_binding c) → bd_inv (ch_binding c')) →
    pending_release_points (ch_binding c') = delete f (pending_release_points (ch_binding c)) →
    (tw_inv (ss_windows s) → tw_inv (ss_windows s')) →
    (∀ d g, (d, g) ≠ (bd_display (ch_binding c), f) → flight s' d g = flight s d g) →
    frame_targets c !! f = Some b →
    target_move b TRelease c c' → frame_targets c' = delete f (frame_targets c) →
    ch_move s c s' c' (Some (b, TRelease)).

Lemma target_move_ok s d b e c c' :
  channel_inv s d c → target_move b e c c' →
  ∀ x t, render_targets c' !! x = Some t → target_ok x t.
Proof.
  intros Hc [_ Hok Hne] x t H. destruct (decide (x = b)) as [->|Hx]; [by apply Hok|].
  rewrite Hne in H by done. by apply (ci_target _ _ _ Hc).
Qed.

Lemma target_move_other b e c c' x :
  target_move b e c c' → x ≠ b → target_phase x c' = target_phase x c.
Proof. intros [_ _ Hne] Hx. unfold target_phase. by rewrite Hne. Qed.

(** Only presenting shows a target and only a release ends it. *)
Lemma quiet_event_shown b e c c' :
  e ≠ TPresent → e ≠ TRelease → target_move b e c c' →
  ∀ x, (∃ r, target_phase x c' = Shown r) ↔ (∃ r, target_phase x c = Shown r).
Proof.
  intros H1 H2 Hm x. destruct (decide (x = b)) as [->|Hx].
  - destruct Hm as [Hn _ _].
    destruct (target_phase b c) as [| |[]|[]], e, (target_phase b c') as [| |[]|[]];
      try discriminate Hn; try done; split; intros [? [=]]; eauto.
  - by rewrite (target_move_other b e c c' x Hm Hx).
Qed.

Lemma ch_move_ids s c s' c' l :
  ch_move s c s' c' l →
  bd_object (ch_binding c') = bd_object (ch_binding c)
  ∧ bd_display (ch_binding c') = bd_display (ch_binding c)
  ∧ (tw_inv (ss_windows s) → tw_inv (ss_windows s')).
Proof.
  intros [Hb Hs _ _|b e _ _ Hb Hs _ _|f b n Hb Hs _ _ _ _|f b Ho Hd _ _ Hw _ _ _ _].
  - split_and!; [apply Hb|apply Hb|apply Hs].
  - split_and!; [apply Hb|apply Hb|apply Hs].
  - rewrite Hb. split_and!; [done|done|apply Hs].
  - done.
Qed.

(** The frames of the other displays stay. *)
Lemma ch_move_flight s c s' c' l d f :
  ch_move s c s' c' l → d ≠ bd_display (ch_binding c) → flight s' d f = flight s d f.
Proof.
  intros [_ Hs _ _|b e _ _ _ Hs _ _|g b n _ Hs _ _ _ _|g b _ _ _ _ _ Hf _ _ _] Hd;
    try apply Hs. apply Hf. congruence.
Qed.

Lemma quiet_tables_inv s s' d c c' :
  channel_inv s d c → bd_quiet (ch_binding c) (ch_binding c') → sess_quiet s s' →
  (∀ b t, render_targets c' !! b = Some t → target_ok b t) →
  (∀ b, (∃ r, target_phase b c' = Shown r) ↔ (∃ r, target_phase b c = Shown r)) →
  frame_targets c' = frame_targets c → channel_inv s' d c'.
Proof.
  intros Hc [Hi _ Hd Hp] [_ Hf] Hok Hsh Hft. destruct Hc as [Hb Hdd Ht Htr Hs Hon Hpt Hfl].
  split; rewrite ?Hft, ?Hp; try done.
  - by apply Hi.
  - congruence.
  - intros f b H. apply Hsh. eauto.
  - intros b r H. destruct (proj1 (Hsh b) (ex_intro _ r H)) as [r' H']. eauto.
  - intros f b H. rewrite Hf. eauto.
Qed.

Lemma present_inv s s' d c c' f b n :
  channel_inv s d c → ch_binding c' = prepared f (ch_binding c) → sess_quiet s s' →
  preparable d f n (ch_binding c) → flight s d f = Some b →
  target_move b TPresent c c' → frame_targets c' = <[f := b]> (frame_targets c) →
  channel_inv s' d c'.
Proof.
  intros Hc Hb [_ Hfl] Hp Hf Hm Hft. pose proof (target_move_ok _ _ _ _ _ _ Hc Hm) as Hok.
  assert (Hfree : frame_targets c !! f = None).
  { apply eq_None_not_Some. rewrite (ci_points _ _ _ Hc). by rewrite (pb_fresh _ _ _ _ Hp). }
  assert (Hheld : target_phase b c = Held false ∧ target_phase b c' = Shown false).
  { pose proof (tm_next _ _ _ _ Hm) as H. destruct (target_phase b c) as [| |[]|[]]; try discriminate H.
    by injection H. }
  destruct Hheld as [Hheld Hshown].
  destruct Hc as [Hbi Hdd Ht Htr Hs Hon Hpt Hflt]. split; rewrite ?Hft, ?Hb; try done.
  - apply prepared_inv; [done|]. by apply (pb_point _ _ _ _ Hp).
  - intros g x [[<- <-]|[Hg H]]%lookup_insert_Some; [eauto|].
    rewrite (target_move_other _ _ _ _ x Hm); [eauto|].
    intros ->. destruct (Htr _ _ H) as [r Hr]. congruence.
  - intros x r H. destruct (decide (x = b)) as [->|Hx]; [exists f; apply lookup_insert_eq|].
    rewrite (target_move_other _ _ _ _ x Hm Hx) in H. destruct (Hs x r H) as [g Hg].
    exists g. rewrite lookup_insert_ne; [done|]. congruence.
  - intros g h x [[<- <-]|[Hg H]]%lookup_insert_Some [[<- E]|[Hh H']]%lookup_insert_Some;
      [done| | |eauto].
    + destruct (Htr _ _ H') as [r Hr]. congruence.
    + subst. destruct (Htr _ _ H) as [r Hr]. congruence.
  - intros g. cbn. rewrite !lookup_insert_is_Some. by rewrite Hpt.
  - intros g x [[<- <-]|[Hg H]]%lookup_insert_Some; rewrite Hfl; eauto.
Qed.

Lemma release_inv s s' d c c' f b :
  channel_inv s d c → bd_display (ch_binding c') = d →
  (bd_inv (ch_binding c) → bd_inv (ch_binding c')) →
  pending_release_points (ch_binding c') = delete f (pending_release_points (ch_binding c)) →
  (∀ g, g ≠ f → flight s' d g = flight s d g) →
  frame_targets c !! f = Some b →
  target_move b TRelease c c' → frame_targets c' = delete f (frame_targets c) →
  channel_inv s' d c'.
Proof.
  intros Hc Hd Hbi' Hp Hfl Hf Hm Hft. pose proof (target_move_ok _ _ _ _ _ _ Hc Hm) as Hok.
  assert (Hgone : ∀ r, target_phase b c' ≠ Shown r).
  { intros r H. pose proof (tm_next _ _ _ _ Hm) as Hn. rewrite H in Hn.
    destruct (target_phase b c) as [| |[]|[]]; discriminate Hn. }
  destruct Hc as [Hbi Hdd Ht Htr Hs Hon Hpt Hflt]. split; rewrite ?Hft, ?Hp; try done.
  - by apply Hbi'.
  - intros g x [Hg H]%lookup_delete_Some. rewrite (target_move_other _ _ _ _ x Hm); [eauto|].
    intros ->. by rewrite (Hon g f b) in Hg.
  - intros x r H. destruct (decide (x = b)) as [->|Hx]; [by destruct (Hgone r)|].
    rewrite (target_move_other _ _ _ _ x Hm Hx) in H. destruct (Hs x r H) as [g Hg].
    exists g. rewrite lookup_delete_ne; [done|]. congruence.
  - intros g h x [_ H]%lookup_delete_Some [_ H']%lookup_delete_Some. eauto.
  - intros g. rewrite !lookup_delete_is_Some. by rewrite Hpt.
  - intros g x [Hg H]%lookup_delete_Some. rewrite Hfl by done. eauto.
Qed.

Lemma ch_move_inv s d c s' c' l :
  channel_inv s d c → ch_move s c s' c' l → channel_inv s' d c'.
Proof.
  intros Hc [Hb Hs Hrt Hft|b e Hp Hr Hb Hs Hm Hft|f b n Hb Hs Hp Hf Hm Hft
            |f b Ho Hd Hbi Hp Hw Hfl Hf Hm Hft].
  - eapply quiet_tables_inv; try done; unfold target_phase; rewrite Hrt; [|done].
    apply (ci_target _ _ _ Hc).
  - eapply quiet_tables_inv; try done; [by eapply target_move_ok|].
    by eapply quiet_event_shown.
  - rewrite (ci_display _ _ _ Hc) in *. by eapply present_inv.
  - rewrite (ci_display _ _ _ Hc) in *. eapply release_inv; try done.
    intros g Hg. apply Hfl. congruence.
Qed.

(** A move of one channel, inside the sink. *)
Lemma sink_move_inv s s' d c c' l k :
  sink_inv s k → sk_tasks k !! d = Some c → ch_move s c s' c' l →
  sink_inv s' (set_sk_tasks (<[d := c']> (sk_tasks k)) k).
Proof.
  intros [Hw Hc Ho] Hd Hm. pose proof (ch_move_ids _ _ _ _ _ Hm) as (Hobj & Hdisp & Hw').
  pose proof (Hc d c Hd) as Hcd. split; cbn.
  - by apply Hw'.
  - intros x y [[<- <-]|[Hx H]]%lookup_insert_Some; [by eapply ch_move_inv|].
    destruct (Hc x y H). split; try done. intros f b Hf.
    rewrite (ch_move_flight _ _ _ _ _ x f Hm); [eauto|]. rewrite (ci_display _ _ _ Hcd). congruence.
  - intros x x' y y' Hx Hx' E.
    apply lookup_insert_Some in Hx as [[<- <-]|[Hx Hy]];
      apply lookup_insert_Some in Hx' as [[<- <-]|[Hx' Hy']]; try done.
    + eapply Ho; [exact Hd|exact Hy'|]. congruence.
    + eapply Ho; [exact Hy|exact Hd|]. congruence.
    + by eapply Ho.
Qed.

(** The target's phase follows the event of the move; the others keep theirs. *)
Lemma ch_move_phase s c s' c' l b :
  ch_move s c s' c' l →
  match l with
  | Some (x, e) =>
      if decide (b = x) then phase_next (target_phase b c) e = Some (target_phase b c')
      else target_phase b c' = target_phase b c
  | None => target_phase b c' = target_phase b c
  end.
Proof.
  assert (Ht : ∀ x e, target_move x e c c' →
    if decide (b = x) then phase_next (target_phase b c) e = Some (target_phase b c')
    else target_phase b c' = target_phase b c).
  { intros x e Hm. destruct (decide (b = x)) as [->|Hb]; [apply Hm|]. by eapply target_move_other. }
  intros [_ _ Hrt _|x e _ _ _ _ Hm _|f x n _ _ _ _ Hm _|f x _ _ _ _ _ _ _ Hm _].
  - unfold target_phase. by rewrite Hrt.
  - by apply Ht.
  - by apply Ht.
  - by apply Ht.
Qed.

Lemma ch_move_event s c s' c' b e :
  ch_move s c s' c' (Some (b, e)) → phase_next (target_phase b c) e = Some (target_phase b c').
Proof. intros Hm. apply (ch_move_phase _ _ _ _ _ b) in Hm. cbv beta iota in Hm. by rewrite decide_True in Hm. Qed.

(** ** What the bridge does to a channel *)

Lemma set_composer_flight d w c s d' f :
  windows (ss_windows s) !! d = Some w →
  flight (set_composer d w c s) d' f = if decide (d' = d) then flights c !! f else flight s d' f.
Proof.
  intros Hw. unfold flight, set_composer; cbn. destruct (decide (d' = d)) as [->|Hne].
  - by rewrite lookup_insert_eq.
  - by rewrite lookup_insert_ne.
Qed.

Lemma set_composer_inv d w c s :
  tw_inv (ss_windows s) → windows (ss_windows s) !! d = Some w →
  co_inv c → co_display c = co_display (tw_composer w) → tw_inv (ss_windows (set_composer d w c s)).
Proof. intros. by apply composer_update_inv. Qed.

Lemma window_flight s d w f :
  windows (ss_windows s) !! d = Some w → flight s d f = flights (tw_composer w) !! f.
Proof. intros Hw. unfold flight. by rewrite Hw. Qed.

(** A composer call that keeps the frames. *)
Lemma on_composer_quiet {A} (m : co_method A) b s :
  CoGood m → Keeps flights m →
  (on_composer m (b, s)).1.1 = b ∧ sess_quiet s (on_composer m (b, s)).1.2.
Proof.
  intros Hg Hk. destruct (windows (ss_windows s) !! bd_display b) as [w|] eqn:Hw.
  2:{ rewrite on_composer_missing by done. by split. }
  rewrite (on_composer_run m b s w Hw). cbn [fst snd]. split; [done|]. split.
  - intros Hs. destruct (Hg _ (wi_composer _ _ (ti_windows _ Hs _ _ Hw))).
    by apply set_composer_inv.
  - intros d f. rewrite set_composer_flight by done. destruct (decide (d = _)) as [->|]; [|done].
    by rewrite (Hk (tw_composer w)), (window_flight s _ w f Hw).
Qed.

#[global] Instance feedback_good fs : CoGood (A := unit) (E := ComposerError) (modify (co_replace_feedback fs)).
Proof. exact (co_good_of _ (λ _, VUnit) (co_exec_good (CoFeedback fs))). Qed.
#[global] Instance configure_good cfg : CoGood (A := unit) (E := ComposerError) (modify (co_configure cfg)).
Proof. exact (co_good_of _ (λ _, VUnit) (co_exec_good (CoConfigure cfg))). Qed.
#[global] Instance sample_good t : CoGood (presentation_sample t).
Proof. exact (co_good_of _ VSample (co_exec_good (CoSample t))). Qed.
#[global] Instance acknowledge_good n : CoGood (co_acknowledge_configure n).
Proof. exact (co_good_of _ (λ _, VUnit) (co_exec_good (CoAcknowledge n))). Qed.
#[global] Instance submit_good d t : CoGood (submit_rendered_target d t).
Proof. exact (co_good_of _ VFrame (co_exec_good (CoSubmit d t))). Qed.
#[global] Instance cancel_good f : CoGood (cancel_unsubmitted_target f).
Proof. exact (co_good_of _ (VRetired f) (co_exec_good (CoCancel f))). Qed.

Lemma keeps_flights_of {A} (m : co_method A) (f : A → co_value) :
  Keeps flights (a ← m; mret (f a)) → Keeps flights m.
Proof.
  intros Hm c. specialize (Hm c). unfold mbind, method_bind in Hm.
  by destruct (m c) as [c' [a|e]].
Qed.

#[global] Instance sample_keeps_flights t : Keeps flights (presentation_sample t).
Proof. exact (keeps_flights_of _ VSample (co_quiet_keeps (CoSample t) eq_refl)). Qed.

Lemma bd_quiet_ack a b : bd_quiet b (set_bd_ack a b).
Proof. split; [|done..]. intros []. by split. Qed.
Lemma bd_quiet_task t b : bd_quiet b (set_bd_task t b).
Proof. split; [|done..]. intros []. by split. Qed.
Lemma bd_quiet_destroy b : bd_quiet b (set_bd_destroy true b).
Proof. split; [|done..]. intros []. by split. Qed.
#[export] Hint Resolve bd_quiet_refl bd_quiet_ack bd_quiet_task bd_quiet_destroy sess_quiet_refl : bridge.

Definition br_quiet (st st' : DenialTaskBinding * Session) : Prop :=
  bd_quiet st.1 st'.1 ∧ sess_quiet st.2 st'.2.

Lemma br_quiet_refl st : br_quiet st st.
Proof. split; auto with bridge. Qed.
#[export] Hint Resolve br_quiet_refl : bridge.

Lemma acknowledge_quiet n st : br_quiet st (bridge_acknowledge_configure n st).1.
Proof.
  destruct st as [b s]. unfold br_quiet; cbn [fst snd]. unfold bridge_acknowledge_configure, mbind, method_bind.
  destruct (on_composer_quiet (co_acknowledge_configure n) b s _ _) as [Hb Hs].
  destruct (on_composer _ _) as [[b' s'] [u|e]]; cbn in *; subst; auto with bridge.
Qed.

Lemma apply_event_quiet msg b s :
  (∀ o f x p, msg ≠ BufferReleased o f x p) → br_quiet (b, s) (apply_event msg (b, s)).1.
Proof.
  intros Hnr. unfold apply_event. unfold mbind at 1, method_bind at 1. cbn [get].
  unfold mbind at 1, method_bind at 1, lift. destruct (ok_or _ _) as [obj|e]; [|by auto with bridge].
  unfold mbind at 1, method_bind at 1, reject at 1.
  destruct (negb _); [by auto with bridge|]. cbn [fst].
  destruct msg as [| | | o g fs | | | o sr w h sn sd t r | | | | o f buf p | o f t q q' q'' | o sc t q q' | | | | ];
    try apply br_quiet_refl; unfold mbind, method_bind.
  - destruct (on_composer_quiet (modify (co_replace_feedback fs)) b s _) as [Hb Hs]; [done|].
    destruct (on_composer _ _) as [[b' s'] [u|e]]; cbn in *; subst; split; cbn; auto with bridge.
  - destruct (on_composer_quiet (modify (co_configure (mkConfigure sr w h r))) b s _) as [Hb Hs]; [done|].
    destruct (on_composer _ _) as [[b' s'] [u|e]]; cbn in *; subst; split; cbn; auto with bridge.
  - by destruct (Hnr o f buf p).
  - destruct (on_composer_quiet (presentation_sample t) b s _ _) as [Hb Hs].
    destruct (on_composer _ _) as [[b' s'] [u|e]]; cbn in *; subst; split; cbn; auto with bridge.
  - destruct (on_composer_quiet (presentation_sample t) b s _ _) as [Hb Hs].
    destruct (on_composer _ _) as [[b' s'] [u|e]]; cbn in *; subst; split; cbn; auto with bridge.
Qed.

(** A release record: refused without effect, or applied to both sides. *)
Lemma apply_event_release o f x p b s :
  (∃ e, apply_event (BufferReleased o f x p) (b, s) = ((b, s), Err e))
  ∨ ∃ w, release_matches f x p b s w
    ∧ apply_event (BufferReleased o f x p) (b, s)
      = (release_applied f x b w s, Ok (ApBufferReleased (mkReleased f x true))).
Proof.
  unfold apply_event, mbind, method_bind, get, lift, reject; cbn [message_object ok_or fst].
  destruct (Z.eqb_spec o (bd_object b)) as [->|Hne]; cbn [negb]; [|eauto].
  destruct (apply_release_cases f x p b s) as [[w Hm]|Hno].
  - right. exists w. split; [done|]. by apply apply_release_matching.
  - left. by apply apply_release_mismatch.
Qed.

Lemma release_applied_session f x p b s w :
  release_matches f x p b s w →
  let s' := (release_applied f x b w s).2 in
  (tw_inv (ss_windows s) → tw_inv (ss_windows s'))
  ∧ (∀ d g, (d, g) ≠ (bd_display b, f) → flight s' d g = flight s d g).
Proof.
  intros (_ & Hw & Hf). unfold release_applied; cbn. split.
  - intros Hs. pose proof (wi_composer _ _ (ti_windows _ Hs _ _ Hw)) as Hc.
    apply set_composer_inv; [done|done| |done].
    apply (co_retire_inv f x); [done|]. by apply ps_retire_Ok.
  - intros d g Hne. rewrite set_composer_flight by done.
    destruct (decide (d = _)) as [->|]; [|done]. rewrite (window_flight _ _ _ _ Hw).
    unfold flights; cbn. apply lookup_delete_ne. congruence.
Qed.

(** ** Moves of one target *)

Lemma target_move_alter b e c c' t g :
  render_targets c !! b = Some t → render_targets c' = alter g b (render_targets c) →
  phase_next (phase (Some t)) e = Some (phase (Some (g t))) → target_ok b (g t) →
  target_move b e c c'.
Proof.
  intros Ht Hrt Hn Hok. split; unfold target_phase; rewrite Hrt.
  - by rewrite lookup_alter_eq, Ht.
  - intros t'. rewrite lookup_alter_eq, Ht. by intros [= <-].
  - intros x Hx. by rewrite lookup_alter_ne.
Qed.

Lemma target_move_delete b e c c' t :
  render_targets c !! b = Some t → render_targets c' = delete b (render_targets c) →
  phase_next (phase (Some t)) e = Some Absent → target_move b e c c'.
Proof.
  intros Ht Hrt Hn. split; unfold target_phase; rewrite Hrt.
  - by rewrite lookup_delete_eq, Ht.
  - intros t'. by rewrite lookup_delete_eq.
  - intros x Hx. by rewrite lookup_delete_ne.
Qed.

Lemma target_move_insert b e c c' t :
  render_targets c' = <[b := t]> (render_targets c) →
  phase_next (target_phase b c) e = Some (phase (Some t)) → target_ok b t → target_move b e c c'.
Proof.
  intros Hrt Hn Hok. split; unfold target_phase in *; rewrite Hrt.
  - by rewrite lookup_insert_eq.
  - intros t'. rewrite lookup_insert_eq. by intros [= <-].
  - intros x Hx. by rewrite lookup_insert_ne.
Qed.

(** The flags of a held, a shown and an idle target. *)
Lemma presentable_held frame t :
  presentable frame t = true →
  phase (Some t) = Held false ∧ ht_metadata t = af_buffer frame ∧ reserved t = true ∧ busy t = false
  ∧ revoked t = false.
Proof.
  unfold presentable. rewrite !Bool.andb_true_iff, !Bool.negb_true_iff, bool_decide_eq_true.
  intros [[[Hr Hb] Hv] Hm]. cbn. by rewrite Hr, Hb, Hv.
Qed.

Lemma present_move frame c c' t :
  render_targets c !! b_id (af_buffer frame) = Some t → presentable frame t = true →
  render_targets c' = alter present_target (b_id (af_buffer frame)) (render_targets c) →
  target_move (b_id (af_buffer frame)) TPresent c c'.
Proof.
  intros Ht (Hp & Hm & Hr & Hb & Hv)%presentable_held Hrt.
  eapply target_move_alter; [exact Ht|exact Hrt| |].
  - rewrite Hp; cbn. by rewrite Hv.
  - split_and!; cbn; [by rewrite Hm|done|]. rewrite Hv. done.
Qed.

(** [cancel_channel] returns a held target and leaves any other alone. *)
Lemma cancel_channel_move b c :
  (∀ t, render_targets c !! b = Some t → target_ok b t) →
  (∃ r, target_phase b c = Held r) ∧ target_move b TReturn c (cancel_channel b c)
  ∨ render_targets (cancel_channel b c) = render_targets c ∧ ∀ r, target_phase b c ≠ Held r.
Proof.
  intros Hok. unfold cancel_channel, target_phase.
  destruct (render_targets c !! b) as [t|] eqn:Ht; [|by right]. destruct (Hok t eq_refl) as (Hid & He & Hv).
  destruct t as [n m fds res bus rev]; cbn in *. destruct bus; cbn.
  - right. split; [|done]. rewrite <- (insert_id _ _ _ Ht) at 2. apply map_eq. intros x.
    destruct (decide (x = b)) as [->|Hx].
    + by rewrite lookup_alter_eq, lookup_insert_eq, Ht.
    + by rewrite lookup_alter_ne, lookup_insert_ne.
  - destruct res, rev; cbn.
    + left. split; [eauto|]. eapply target_move_delete; [done| |done]. cbn.
      apply map_eq. intros x. destruct (decide (x = b)) as [->|Hx].
      * by rewrite !lookup_delete_eq.
      * by rewrite !lookup_delete_ne, lookup_alter_ne.
    + left. split; [eauto|]. by eapply target_move_alter.
    + destruct (Hv eq_refl); done.
    + right. split; [|done]. apply map_eq. intros x. destruct (decide (x = b)) as [->|Hx].
      * by rewrite lookup_alter_eq, Ht.
      * by rewrite lookup_alter_ne.
Qed.

Lemma cancel_channel_rest b c :
  ch_binding (cancel_channel b c) = ch_binding c ∧ frame_targets (cancel_channel b c) = frame_targets c.
Proof.
  unfold cancel_channel. destruct (render_targets c !! b) as [t|]; [|done].
  by destruct (negb _ && _ && _).
Qed.

(** ** The methods of one channel *)

Section channel_methods.

Context {K : Type} `{Drm K, SeqPacketOps K, RenderOps K}.

(** The part of a channel's state the invariant speaks about. *)
Definition core (st : ch_state (K := K))
  : Session * DenialTaskBinding * gmap BufferId HostRenderTarget * gmap FrameId BufferId :=
  (st.1.2, ch_binding st.2, render_targets st.2, frame_targets st.2).

#[global] Instance channel_read {E} : ReadOnly (channel (K := K) (E := E)).
Proof. done. Qed.
#[global] Instance ch_kernel_keeps {E A} (f : E → DenialSinkError) (m : method K E A) :
  Keeps core (ch_kernel f m).
Proof. intros st. unfold ch_kernel. by destruct (m st.1.1). Qed.
#[global] Instance ch_send_keeps msg fds : Keeps core (ch_send msg fds).
Proof. apply _. Qed.
#[global] Instance on_timelines_keeps {A} (m : method (K * TaskTimelines) SyncobjError A) :
  Keeps core (on_timelines m).
Proof. intros st. unfold on_timelines. by destruct (m _) as [[k' t'] r]. Qed.
#[global] Instance sink_coded_keeps {A} (m : ch_method A) : Keeps core m → Keeps core (sink_coded m).
Proof. intros Hm st. specialize (Hm st). unfold sink_coded. by destruct (m st). Qed.
#[global] Instance attempt_keeps {E F A} (m : method ch_state E A) :
  Keeps core m → Keeps core (attempt (F := F) m).
Proof. intros Hm st. specialize (Hm st). unfold attempt. by destruct (m st). Qed.

(** Updates of the fields outside the core. *)
Lemma update_channel_keeps {E} (f : TaskChannel → TaskChannel) :
  (∀ c, ch_binding (f c) = ch_binding c ∧ render_targets (f c) = render_targets c
        ∧ frame_targets (f c) = frame_targets c) →
  Keeps core (update_channel (K := K) (E := E) f).
Proof.
  intros Hf st. unfold update_channel, modify, core; cbn. destruct (Hf st.2) as (-> & -> & ->). done.
Qed.
#[local] Hint Extern 5 (Keeps core (update_channel _)) =>
  (apply update_channel_keeps; done) : typeclass_instances.

#[global] Instance announce_opaque_keeps o : Keeps core (announce_opaque (K := K) o).
Proof. unfold announce_opaque. solve_keeps. Qed.
#[global] Instance ensure_targets_keeps lazy : Keeps core (ensure_render_targets (K := K) lazy).
Proof. unfold ensure_render_targets. solve_keeps. Qed.
#[global] Instance observe_configure_keeps n w h : Keeps core (observe_configure (K := K) n w h).
Proof. unfold observe_configure. solve_keeps. Qed.
#[global] Instance on_headless_keeps {A} (m : method (K * TaskTimelines) SyncobjError A) :
  Keeps core (on_headless m).
Proof.
  intros st. unfold on_headless. destruct (headless_completion st.2) as [[t p]|]; [|done].
  by destruct (m _) as [[k' t'] r].
Qed.
#[global] Instance complete_point_keeps : Keeps core (complete_point (K := K)).
Proof. unfold complete_point, headless_init. solve_keeps. Qed.

(** A binding whose failed present used up a point. *)
Definition bd_spent (b b' : DenialTaskBinding) : Prop :=
  b' = b ∨ next_timeline_point b + 1 ≤ u64_max
           ∧ b' = set_bd_points (next_timeline_point b + 1) (pending_release_points b) b.

Lemma bd_spent_quiet b b' : bd_spent b b' → bd_quiet b b'.
Proof.
  intros [->|[Hp ->]]; [apply bd_quiet_refl|]. split; cbn; [|done..].
  intros [Ho Hr Hpt Hd]. split; cbn; [done|lia| |exact Hd]. intros f p Hf. apply Hpt in Hf. lia.
Qed.

(** Taking back the points of a present that was just prepared. *)
Lemma cancel_prepared_run {E} (frame : AcceptedFrame) (p : PreparedPresent) (st : ch_state (K := K)) b :
  ch_binding st.2 = prepared (af_frame_id frame) b →
  pp_release_point p = next_timeline_point b + 1 → next_timeline_point b + 1 ≤ u64_max →
  pending_release_points b !! af_frame_id frame = None →
  ∃ b', bd_spent b b' ∧ cancel_prepared (E := E) frame p st = ((st.1, set_ch_binding b' st.2), Ok tt).
Proof.
  intros Hb Hp Hmax Hfree. eexists. split; [right; split; [done|reflexivity]|].
  unfold cancel_prepared, ch_on_binding, attempt, cancel_unsubmitted_present.
  unfold mbind, method_bind, get, reject, put. rewrite Hb, Hp.
  rewrite bool_decide_true by (cbn; apply lookup_insert_eq). cbn.
  by rewrite delete_insert_id.
Qed.

Lemma or_cancel_run {E A} frame p (m : method ch_state E A) st st' r b :
  Keeps core m → ch_binding st.2 = prepared (af_frame_id frame) b →
  pp_release_point p = next_timeline_point b + 1 → next_timeline_point b + 1 ≤ u64_max →
  pending_release_points b !! af_frame_id frame = None →
  or_cancel frame p m st = (st', r) →
  match r with
  | Ok _ => core st' = core st
  | Err _ => ∃ b', bd_spent b b'
             ∧ core st' = (st.1.2, b', render_targets st.2, frame_targets st.2)
  end.
Proof.
  intros Hk Hb Hp Hmax Hfree. unfold or_cancel, attempt. unfold mbind at 1, method_bind at 1.
  specialize (Hk st). destruct (m st) as [st1 [a|e]]; cbn in Hk.
  - by intros [= <- <-].
  - unfold core in Hk. injection Hk as Hs Hb1 Hrt Hft.
    destruct (cancel_prepared_run (E := E) frame p st1 b) as (b' & Hspent & Hrun); [congruence|done..|].
    unfold mbind, method_bind. rewrite Hrun. intros [= <- <-]. exists b'. split; [done|].
    unfold core; cbn. congruence.
Qed.

(** What presenting a frame leaves: nothing but a spent point, or the frame in
    flight on its target. *)
Definition presented_core (frame : AcceptedFrame) (st : ch_state (K := K)) :=
  (st.1.2, prepared (af_frame_id frame) (ch_binding st.2),
   alter present_target (b_id (af_buffer frame)) (render_targets st.2),
   <[af_frame_id frame := b_id (af_buffer frame)]> (frame_targets st.2)).

Record can_present (d : DisplayId) (frame : AcceptedFrame) (st : ch_state (K := K)) : Prop := {
  cp_target : ∃ t, render_targets st.2 !! b_id (af_buffer frame) = Some t
                   ∧ presentable frame t = true;
  cp_binding : ∃ n, preparable d (af_frame_id frame) n (ch_binding st.2)
}.

Definition failed_core (st : ch_state (K := K)) rt st' : Prop :=
  ∃ b', bd_spent (ch_binding st.2) b' ∧ core st' = (st.1.2, b', rt, frame_targets st.2).

Lemma keeps_core_run {E A} (m : method ch_state E A) st st' r :
  Keeps core m → m st = (st', r) → core st' = core st.
Proof. apply keeps_run. Qed.

Lemma failed_same (st st' : ch_state (K := K)) :
  core st' = core st → failed_core st (render_targets st.2) st'.
Proof. intros Hc. exists (ch_binding st.2). split; [by left|]. done. Qed.

Lemma ch_prepare_run d frame st st' r :
  ch_on_binding (K := K) (prepare_present d frame) st = (st', r) →
  match r with
  | Err _ => core st' = core st
  | Ok p => ∃ n, preparable d (af_frame_id frame) n (ch_binding st.2)
      ∧ pp_release_point p = next_timeline_point (ch_binding st.2) + 1
      ∧ st' = (st.1, set_ch_binding (prepared (af_frame_id frame) (ch_binding st.2)) st.2)
  end.
Proof.
  unfold ch_on_binding. destruct (prepare_present d frame _) as [b' [p|e]] eqn:E; intros [= <- <-].
  - apply prepare_present_Ok in E as (n & Hp & -> & ->). eauto.
  - apply fail_safe in E as ->. done.
Qed.

Lemma channel_present_cases d frame fence opaque st st' r :
  channel_present d frame fence opaque st = (st', r) →
  match r with
  | Err _ => failed_core st (render_targets st.2) st'
  | Ok _ => can_present d frame st ∧ core st' = presented_core frame st
  end.
Proof.
  unfold channel_present. intros Hrun.
  apply m_bind_run in Hrun as [(e & [=] & _)|(s1 & c & [= <- <-] & Hrun)].
  apply m_bind_run in Hrun as [(e & [= <- _] & ->)|(s1 & u & [= <- _] & Hrun)]; [by apply failed_same|].
  apply m_bind_run in Hrun as [(e & [= <- _] & ->)|(s1 & t & [= <- Ht] & Hrun)]; [by apply failed_same|].
  apply ok_or_Ok in Ht.
  apply m_bind_run in Hrun as [(e & [= <- _] & ->)|(s1 & u' & [= <- Hok] & Hrun)]; [by apply failed_same|].
  destruct (presentable frame t) eqn:Hpres; [clear Hok|discriminate Hok].
  apply m_bind_run in Hrun as [(e & Ha & ->)|(s1 & u'' & Ha & Hrun)].
  { apply keeps_core_run in Ha; [|apply _]. by apply failed_same. }
  apply keeps_core_run in Ha; [|apply _]. unfold core in Ha. injection Ha as Hs Hb Hrt Hft.
  apply m_bind_run in Hrun as [(e & Hp & ->)|(s2 & p & Hp & Hrun)]; apply ch_prepare_run in Hp.
  { apply failed_same. rewrite Hp. unfold core. congruence. }
  destruct Hp as (n & Hprep & Hpoint & ->). rewrite Hb in *.
  pose proof (pb_point _ _ _ _ Hprep). pose proof (pb_fresh _ _ _ _ Hprep).
  apply m_bind_run in Hrun as [(e & Hi & ->)|(s3 & pf & Hi & Hrun)];
    (apply (or_cancel_run _ _ _ _ _ _ (ch_binding st.2)) in Hi; [|solve_keeps|done..]).
  { destruct Hi as (b' & Hsp & Hc). exists b'. split; [done|]. rewrite Hc; cbn. congruence. }
  unfold core in Hi. injection Hi as Hs3 Hb3 Hrt3 Hft3.
  unfold update_channel, modify, mbind, method_bind in Hrun. injection Hrun as <- <-.
  split; [split; eauto|]. unfold core, presented_core; cbn in *. congruence.
Qed.

Lemma or_unreserve_run {A} frame (m : method (ch_state (K := K)) ErrorCode A) st :
  or_unreserve frame m st =
  match m st with
  | (st', Ok a) => (st', Ok a)
  | (st', Err e) =>
      ((st'.1, update_target unreserve_target (b_id (af_buffer frame)) st'.2), Err e)
  end.
Proof. unfold or_unreserve, attempt, mbind, method_bind. by destruct (m st) as [st' [a|e]]. Qed.

(** [submit_frame] under the lock.  Only a failed import or send returns the
    reservation. *)
Lemma channel_submit_cases d frame fence st st' r :
  channel_submit d frame fence st = (st', r) →
  match r with
  | Err _ =>
      failed_core st (render_targets st.2) st'
      ∨ can_present d frame st
        ∧ failed_core st (alter unreserve_target (b_id (af_buffer frame)) (render_targets st.2)) st'
  | Ok _ => can_present d frame st ∧ core st' = presented_core frame st
  end.
Proof.
  unfold channel_submit. intros Hrun.
  apply m_bind_run in Hrun as [(e & [=] & _)|(s1 & c & [= <- <-] & Hrun)].
  apply m_bind_run in Hrun as [(e & [= <- _] & ->)|(s1 & t & [= <- Ht] & Hrun)];
    [by left; apply failed_same|].
  apply ok_or_Ok in Ht.
  apply m_bind_run in Hrun as [(e & [= <- _] & ->)|(s1 & u' & [= <- Hok] & Hrun)];
    [by left; apply failed_same|].
  destruct (presentable frame t) eqn:Hpres; [clear Hok|discriminate Hok].
  apply m_bind_run in Hrun as [(e & Hp & ->)|(s2 & p & Hp & Hrun)]; unfold sink_coded in Hp at 1;
    destruct (ch_on_binding _ st) as [st2 r2] eqn:Hp2; apply ch_prepare_run in Hp2;
    destruct r2 as [p2|e2]; cbn in Hp; simplify_eq.
  { left. apply failed_same. unfold core. congruence. }
  destruct Hp2 as (n & Hprep & Hpoint & ->).
  assert (Hcan : can_present d frame st) by (split; eauto).
  pose proof (pb_point _ _ _ _ Hprep). pose proof (pb_fresh _ _ _ _ Hprep).
  apply m_bind_run in Hrun as [(e & Hi & ->)|(s3 & u & Hi & Hrun)];
    rewrite or_unreserve_run in Hi; destruct (or_cancel frame p _ _) as [s4 r4] eqn:Hoc;
    (apply (or_cancel_run _ _ _ _ _ _ (ch_binding st.2)) in Hoc; [|solve_keeps|done..]);
    destruct r4 as [u4|e4]; try discriminate Hi.
  - injection Hi as <- ->. destruct Hoc as (b' & Hsp & Hc). unfold core in Hc.
    injection Hc as Hs3 Hb3 Hrt3 Hft3. right. split; [done|].
    exists b'. split; [done|]. unfold core; cbn in *. congruence.
  - injection Hi as ->. unfold update_channel, modify in Hrun. injection Hrun as <- <-.
    split; [done|]. unfold core in Hoc. injection Hoc as Hs3 Hb3 Hrt3 Hft3.
    unfold core, presented_core; cbn in *. congruence.
Qed.

(** Finding a reusable target. *)
Lemma find_reusable_Some n c b t :
  find_reusable n c = Some (b, t) →
  render_targets c !! b = Some t ∧ ht_configure_serial t = n ∧ reserved t = false ∧ busy t = false
  ∧ revoked t = false.
Proof.
  unfold find_reusable, reusable. intros Hf. apply find_some in Hf as [Hin Hr].
  apply list_elem_of_In, btree_items_elem in Hin. cbn in Hr.
  rewrite !Bool.andb_true_iff, !Bool.negb_true_iff, Z.eqb_eq in Hr.
  destruct Hr as [[[? ?] ?] ?]. done.
Qed.

Lemma find_reusable_None n c b t :
  find_reusable n c = None → render_targets c !! b = Some t → ht_configure_serial t = n →
  phase (Some t) = Idle → revoked t = true.
Proof.
  unfold find_reusable. intros Hf Ht Hn Hp.
  pose proof (find_none _ _ Hf (b, t) (proj1 (list_elem_of_In _ _) (proj2 (btree_items_elem _ _ _) Ht))) as Hr.
  unfold reusable in Hr; cbn in Hr, Hp. rewrite Hn, Z.eqb_refl in Hr.
  destruct (busy t), (reserved t), (revoked t); done.
Qed.

End channel_methods.
