(* ===== verification/SinkSpec.v ===== *)
(** * What the sink guarantees

    Every public method of the sink is a path of labelled [sk_move]s: channels
    are added and removed, targets take one step of their life cycle, and
    everything else is quiet.  From this follow the invariant of all reachable
    states, the life cycle of every target, and the outcomes of releases and of
    failed submissions. *)

From S2P Require Import Prelude Ownership Transport Protocol Codec Syncobj Ipc.
From S2P Require Import Composer TaskWindows Hwc3 Bridge Sink SinkProofs.

Inductive sk_label : Type :=
| LQuiet
| LAdded (display : DisplayId)
| LRemoved (display : DisplayId)
| LEvent (display : DisplayId) (buffer : BufferId) (event : target_event).

Definition channel_label (d : DisplayId) (l : option (BufferId * target_event)) : sk_label :=
  match l with Some (b, e) => LEvent d b e | None => LQuiet end.

Inductive sk_move : sk_label → Session * Sink → Session * Sink → Prop :=
| km_channel s k s' k' d c c' l :
    sk_tasks k !! d = Some c → ch_move s c s' c' l → sk_tasks k' = <[d := c']> (sk_tasks k) →
    sk_move (channel_label d l) (s, k) (s', k')
| km_session s k s' k' :
    keeps_tracked k s s' → (tw_inv (ss_windows s) → tw_inv (ss_windows s')) →
    sk_tasks k' = sk_tasks k → sk_move LQuiet (s, k) (s', k')
| km_add s k k' d b t :
    sk_tasks k !! d = None →
    (∀ d' c', sk_tasks k !! d' = Some c' → bd_object (ch_binding c') ≠ bd_object b) →
    bd_inv b → bd_display b = d → pending_release_points b = ∅ →
    sk_tasks k' = <[d := channel_new b t]> (sk_tasks k) → sk_move (LAdded d) (s, k) (s, k')
| km_remove s k k' d :
    sk_tasks k' = delete d (sk_tasks k) → sk_move (LRemoved d) (s, k) (s, k').

Inductive sk_path : list sk_label → Session * Sink → Session * Sink → Prop :=
| path_nil p : sk_path [] p p
| path_cons l ls p q r : sk_move l p q → sk_path ls q r → sk_path (l :: ls) p r.

Lemma sk_path_app ls ls' p q r : sk_path ls p q → sk_path ls' q r → sk_path (ls ++ ls') p r.
Proof. induction 1; cbn; [done|]. intros. econstructor; eauto. Qed.

Lemma sink_inv_tasks s k k' : sk_tasks k' = sk_tasks k → sink_inv s k → sink_inv s k'.
Proof. intros E [Hw Hc Ho]. split; [done| |]; rewrite E; [apply Hc | apply Ho]. Qed.

Lemma channel_new_inv s d b t :
  bd_inv b → bd_display b = d → pending_release_points b = ∅ → channel_inv s d (channel_new b t).
Proof.
  intros Hb Hd Hp. split; cbn; intros *; try done; rewrite ?Hp, ?lookup_empty; try done.
Qed.

Lemma sk_move_inv l p q : sk_move l p q → sink_inv p.1 p.2 → sink_inv q.1 q.2.
Proof.
  intros [s k s' k' d c c' l' Hd Hm E|s k s' k' Hk Hw E|s k k' d b t Hd Ho Hb Hdisp Hp E|s k k' d E];
    cbn [fst snd]; intros Hi.
  - eapply sink_inv_tasks; [|by eapply sink_move_inv]. done.
  - eapply sink_inv_tasks; [done|]. eapply sink_inv_session; [apply Hw, Hi|done|done].
  - destruct Hi as [Hw Hc Hob]. split; [done| |]; rewrite E.
    + intros x y [[<- <-]|[_ Hx]]%lookup_insert_Some; [by apply channel_new_inv|eauto].
    + intros x x' y y' [[<- <-]|[_ Hx]]%lookup_insert_Some [[<- <-]|[_ Hx']]%lookup_insert_Some He;
        cbn in He; [done| | |by eapply Hob].
      * by destruct (Ho _ _ Hx').
      * by destruct (Ho _ _ Hx).
  - destruct Hi as [Hw Hc Hob]. split; [done| |]; rewrite E.
    + intros x y [_ Hx]%lookup_delete_Some. eauto.
    + intros x x' y y' [_ Hx]%lookup_delete_Some [_ Hx']%lookup_delete_Some. by eapply Hob.
Qed.

Lemma sk_path_inv ls p q : sk_path ls p q → sink_inv p.1 p.2 → sink_inv q.1 q.2.
Proof. induction 1; [done|]. intros Hi. eauto using sk_move_inv. Qed.

(** ** Phases along a path *)

(** The events of one target among the labels; [None] when its channel goes. *)
Definition label_events (d : DisplayId) (b : BufferId) (l : sk_label) : list target_event :=
  match l with
  | LEvent d' b' e => if decide (d' = d ∧ b' = b) then [e] else []
  | _ => []
  end.

Definition events_of (d : DisplayId) (b : BufferId) (ls : list sk_label) : list target_event :=
  flat_map (label_events d b) ls.

Fixpoint phase_run (es : list target_event) (p : TargetPhase) : option TargetPhase :=
  match es with [] => Some p | e :: es => p' ← phase_next p e; phase_run es p' end.

Lemma phase_run_app es es' p :
  phase_run (es ++ es') p = (p' ← phase_run es p; phase_run es' p').
Proof. revert p. induction es as [|e es IH]; intros p; cbn; [done|].
  destruct (phase_next p e); cbn; [apply IH|done].
Qed.

Definition label_keeps (d : DisplayId) (l : sk_label) : Prop := l ≠ LRemoved d ∧ l ≠ LAdded d.

Lemma sk_move_phase l s k s' k' d c b :
  sk_move l (s, k) (s', k') → label_keeps d l → sk_tasks k !! d = Some c →
  ∃ c', sk_tasks k' !! d = Some c'
        ∧ phase_run (label_events d b l) (target_phase b c) = Some (target_phase b c').
Proof.
  intros Hm [Hr Ha] Hd. inversion Hm as [? ? ? ? x y y' l' Hx Hch E|? ? ? ? _ _ E|? ? ? x y z Hx _ _ _ _ E|? ? ? x E];
    subst; rewrite E.
  - destruct (decide (x = d)) as [->|Hne].
    + simplify_eq. exists y'. split; [apply lookup_insert_eq|].
      apply (ch_move_phase _ _ _ _ _ b) in Hch. destruct l' as [[b' e]|]; cbn in *; [|congruence].
      destruct (decide (b = b')) as [->|Hb].
      * rewrite decide_True by done. cbn. by rewrite Hch.
      * rewrite decide_False by (intros [? ?]; congruence). cbn. congruence.
    + exists c. rewrite lookup_insert_ne by done. split; [done|].
      destruct l' as [[b' e]|]; cbn; [|done]. by rewrite decide_False by (intros [? ?]; congruence).
  - eauto.
  - exists c. rewrite lookup_insert_ne by congruence. done.
  - exists c. rewrite lookup_delete_ne by congruence. done.
Qed.

Lemma sk_path_phase ls p q d c b :
  sk_path ls p q → Forall (label_keeps d) ls → sk_tasks p.2 !! d = Some c →
  ∃ c', sk_tasks q.2 !! d = Some c'
        ∧ phase_run (events_of d b ls) (target_phase b c) = Some (target_phase b c').
Proof.
  intros Hp. revert c. induction Hp as [p|l ls [s k] [s1 k1] r Hm Hp IH]; intros c Hk Hd.
  - exists c. done.
  - inversion Hk as [|? ? Hl Hls]; subst.
    destruct (sk_move_phase l s k s1 k1 d c b Hm Hl Hd) as (c1 & Hd1 & H1).
    destruct (IH c1 Hls Hd1) as (c2 & Hd2 & H2). exists c2. split; [done|].
    unfold events_of; cbn. rewrite phase_run_app, H1. exact H2.
Qed.

(** ** Methods as paths *)

Section methods.

Context {K : Type} `{Drm K, SeqPacketOps K, RenderOps K}.

Abbreviation ch_st := (ch_state (K := K)).
Abbreviation sk_st := (sk_state (K := K)).

(** A channel method that is one move, with an event [allow] admits. *)
Definition ch_reaches (allow : BufferId * target_event → Prop) (st st' : ch_st) : Prop :=
  ∃ l, ch_move st.1.2 st.2 st'.1.2 st'.2 l ∧ from_option allow True l.

Lemma core_reaches allow (st st' : ch_st) : core st' = core st → ch_reaches allow st st'.
Proof.
  unfold core. intros [= Hs Hb Hrt Hft]. exists None. split; [|done].
  apply mv_quiet; [by rewrite Hb|rewrite Hs; apply sess_quiet_refl|done|done].
Qed.

Lemma failed_reaches allow (st st' : ch_st) :
  failed_core st (render_targets st.2) st' → ch_reaches allow st st'.
Proof.
  intros (b' & Hb%bd_spent_quiet & Hc). unfold core in Hc. injection Hc as Hs Hb' Hrt Hft.
  exists None. split; [|done]. apply mv_quiet; [by rewrite Hb'|rewrite Hs; apply sess_quiet_refl|done|done].
Qed.

Lemma presented_reaches (allow : BufferId * target_event → Prop) frame (st st' : ch_st) d :
  bd_display (ch_binding st.2) = d → can_present d frame st →
  flight st.1.2 d (af_frame_id frame) = Some (b_id (af_buffer frame)) →
  core st' = presented_core frame st →
  allow (b_id (af_buffer frame), TPresent) → ch_reaches allow st st'.
Proof.
  intros Hd [(t & Ht & Hp) (n & Hn)] Hf Hc Ha. unfold core, presented_core in Hc.
  injection Hc as Hs Hb Hrt Hft. eexists (Some _). split; [|exact Ha].
  eapply mv_present; try done; rewrite ?Hs, ?Hd; try done.
  by eapply present_move.
Qed.

Lemma unreserved_reaches (allow : BufferId * target_event → Prop) frame (st st' : ch_st) d :
  can_present d frame st →
  failed_core st (alter unreserve_target (b_id (af_buffer frame)) (render_targets st.2)) st' →
  allow (b_id (af_buffer frame), TReturn) → ch_reaches allow st st'.
Proof.
  intros [(t & Ht & Hp) _] (b' & Hb%bd_spent_quiet & Hc) Ha. unfold core in Hc.
  injection Hc as Hs Hb' Hrt Hft. eexists (Some _). split; [|exact Ha].
  apply presentable_held in Hp as (Hph & Hm & Hr & Hbusy & Hv).
  eapply mv_target; try done; [by rewrite Hb'|rewrite Hs; apply sess_quiet_refl|].
  eapply target_move_alter; [exact Ht|exact Hrt| |].
  - rewrite Hph; cbn. by rewrite Hbusy.
  - split_and!; cbn; [by rewrite Hm|done|]. rewrite Hv. done.
Qed.

(** *** Releases *)

(** The state after the release of [frame] from [buffer]. *)
Definition released_channel (frame : FrameId) (buffer : BufferId) (t : HostRenderTarget)
    (b : DenialTaskBinding) (c : TaskChannel) : TaskChannel :=
  let c1 := set_targets (render_targets c) (delete frame (frame_targets c)) (set_ch_binding b c) in
  let c2 := update_target retire_target buffer c1 in
  if revoked t then drop_target buffer c2 else c2.

Lemma channel_event_refused o f x p (st : ch_st) e :
  apply_event (BufferReleased o f x p) (ch_binding st.2, st.1.2)
  = ((ch_binding st.2, st.1.2), Err e) →
  channel_event (BufferReleased o f x p) st = (st, Err (SkBridge e)).
Proof.
  intros He. destruct st as [[k s] c]. unfold channel_event, on_bridge, mbind, method_bind.
  cbn [fst snd] in *. rewrite He. cbn. by destruct c.
Qed.

Lemma channel_event_released o f x p (st : ch_st) d w :
  channel_inv st.1.2 d st.2 → release_matches f x p (ch_binding st.2) st.1.2 w →
  apply_event (BufferReleased o f x p) (ch_binding st.2, st.1.2)
  = (release_applied f x (ch_binding st.2) w st.1.2, Ok (ApBufferReleased (mkReleased f x true))) →
  ∃ t, render_targets st.2 !! x = Some t ∧ busy t = true ∧ frame_targets st.2 !! f = Some x
  ∧ channel_event (BufferReleased o f x p) st
    = (((st.1.1, (release_applied f x (ch_binding st.2) w st.1.2).2),
        released_channel f x t (release_applied f x (ch_binding st.2) w st.1.2).1 st.2),
       Ok (ApBufferReleased (mkReleased f x true))).
Proof.
  intros Hc (Hp & Hw & Hf) He.
  destruct (proj2 (ci_points _ _ _ Hc f) ltac:(rewrite Hp; eauto)) as [y Hy].
  assert (y = x) as ->.
  { pose proof (ci_flight _ _ _ Hc f y Hy) as Hfl. rewrite <- (ci_display _ _ _ Hc) in Hfl.
    rewrite (window_flight _ _ _ f Hw) in Hfl. congruence. }
  destruct (proj1 (phase_shown _) (ci_tracked _ _ _ Hc f x Hy)) as (t & Ht & Hb).
  exists t. split_and!; [done..|].
  unfold channel_event, on_bridge. unfold mbind at 1, method_bind at 1. rewrite He.
  unfold after_event, release_target, mbind, method_bind, channel, gets, lift, update_channel, modify, reject.
  cbn. rewrite Hy. cbn. rewrite Z.eqb_refl. cbn. rewrite Ht. cbn.
  unfold released_channel. by destruct (revoked t).
Qed.

Lemma released_move f x p (st : ch_st) d w t :
  channel_inv st.1.2 d st.2 → release_matches f x p (ch_binding st.2) st.1.2 w →
  render_targets st.2 !! x = Some t → busy t = true → frame_targets st.2 !! f = Some x →
  let '(b', s') := release_applied f x (ch_binding st.2) w st.1.2 in
  ch_move st.1.2 st.2 s' (released_channel f x t b' st.2) (Some (x, TRelease)).
Proof.
  intros Hc Hm Ht Hb Hf. pose proof (release_applied_session _ _ _ _ _ _ Hm) as [Hw Hfl].
  destruct (release_applied f x (ch_binding st.2) w st.1.2) as [b' s'] eqn:E. injection E as <- <-.
  destruct (ci_target _ _ _ Hc x t Ht) as (Hid & Hr & Hv).
  apply (mv_release _ _ _ _ f x); try done; unfold released_channel; destruct (revoked t) eqn:Erev; try done.
  - intros Hbi. by apply pending_delete_inv.
  - intros Hbi. by apply pending_delete_inv.
  - eapply target_move_delete; [exact Ht| |cbn; by rewrite Hb, Erev].
    cbn. apply map_eq. intros y. destruct (decide (y = x)) as [->|Hy].
    + by rewrite !lookup_delete_eq.
    + by rewrite !lookup_delete_ne, lookup_alter_ne.
  - assert (reserved t = false) as Hres.
    { destruct (reserved t); [|done]. rewrite Hr in Hb; done. }
    eapply target_move_alter; [exact Ht|done| |].
    + cbn. by rewrite Hb, Erev, Hres.
    + split_and!; cbn; [done..|]. rewrite Erev. done.
Qed.

Lemma is_release (msg : DenialMessage) :
  (∃ o f x p, msg = BufferReleased o f x p) ∨ (∀ o f x p, msg ≠ BufferReleased o f x p).
Proof. destruct msg; try (right; intros; discriminate). left; eauto. Qed.

Lemma after_event_keeps msg ev :
  (∀ o f x p, msg ≠ BufferReleased o f x p) → Keeps core (after_event (K := K) msg ev).
Proof. intros Hn. unfold after_event. destruct ev, msg; try solve_keeps; by edestruct Hn. Qed.

Lemma channel_event_reaches msg (st : ch_st) d :
  channel_inv st.1.2 d st.2 →
  ch_reaches (λ '(b, e), ∃ o f p, msg = BufferReleased o f b p ∧ e = TRelease)
    st (channel_event msg st).1.
Proof.
  intros Hc. destruct (is_release msg) as [(o & f & x & p & ->)|Hn].
  - destruct (apply_event_release o f x p (ch_binding st.2) st.1.2) as [[e He]|(w & Hm & He)].
    { rewrite (channel_event_refused o f x p st e He). by apply core_reaches. }
    destruct (channel_event_released o f x p st d w Hc Hm He) as (t & Ht & Hb & Hf & ->).
    pose proof (released_move f x p st d w t Hc Hm Ht Hb Hf) as Hmv.
    destruct (release_applied _ _ _ _ _) as [b' s']. eexists (Some _). split; [exact Hmv|].
    cbn. eauto 10.
  - destruct (apply_event_quiet msg (ch_binding st.2) st.1.2 Hn) as [Hb Hs].
    unfold channel_event, on_bridge. unfold mbind at 1, method_bind at 1.
    destruct (apply_event msg _) as [[b' s'] [ev|e]]; cbn in Hb, Hs.
    2:{ exists None. split; [|done]. by apply mv_quiet. }
    pose proof (after_event_keeps msg ev Hn (st.1.1, s', set_ch_binding b' st.2)) as Hk.
    unfold mbind, method_bind. cbn [map_err].
    destruct (after_event msg ev _) as [st2 r2]. cbn in Hk. unfold core in Hk.
    injection Hk as Hs' Hb' Hrt Hft. exists None. split; [|done].
    destruct r2; apply mv_quiet; cbn; rewrite ?Hs', ?Hb'; done.
Qed.

(** *** Composition *)

Lemma ch_reaches_core allow (st st1 st' : ch_st) :
  core st1 = core st → ch_reaches allow st1 st' → ch_reaches allow st st'.
Proof.
  unfold core. intros [= Hs Hb Hrt Hft] (l & Hm & Ha). exists l. split; [|done].
  assert (Htm : ∀ x e, target_move x e st1.2 st'.2 → target_move x e st.2 st'.2).
  { intros x e [Hn Hok Hne]. unfold target_phase in *. rewrite Hrt in *. by split. }
  rewrite <- Hs. revert Ha.
  destruct Hm as [Hq Hsq Hr Hf|b e H1' H2' Hq Hsq Htg Hf|f b n Hbb Hsq Hp Hfl Htg Hf
                 |f b Ho Hd Hbi Hp Hw Hfl Htf Htg Hf]; intros _.
  - apply mv_quiet; congruence.
  - apply mv_target; [done..|congruence|done|auto|congruence].
  - rewrite Hb in *. eapply mv_present; [done..|auto|congruence].
  - rewrite Hb in *. eapply mv_release; [done..|congruence|auto|congruence].
Qed.

(** A channel method all of whose runs are moves that [allow] admits. *)
Class ChGood {E A} (d : DisplayId) (allow : BufferId * target_event → Prop)
    (m : method ch_st E A) : Prop :=
  ch_good st : channel_inv st.1.2 d st.2 → ch_reaches allow st (m st).1.

Lemma channel_inv_core s s' d c c' :
  (s', ch_binding c', render_targets c', frame_targets c')
  = (s, ch_binding c, render_targets c, frame_targets c) → channel_inv s d c → channel_inv s' d c'.
Proof.
  intros [= -> Hb Hrt Hft] []. split; unfold target_phase in *; rewrite ?Hb, ?Hrt, ?Hft; done.
Qed.

#[global] Instance ChGood_keeps {E A} d allow (m : method ch_st E A) :
  Keeps core m → ChGood d allow m.
Proof. intros Hm st _. by apply core_reaches. Qed.

Lemma ChGood_bind {E A B} d allow (m : method ch_st E A) (f : A → method ch_st E B) :
  Keeps core m → (∀ a, ChGood d allow (f a)) → ChGood d allow (m ≫= f).
Proof.
  intros Hm Hf st Hc. specialize (Hm st). unfold mbind, method_bind.
  destruct (m st) as [s1 [a|e]]; cbn in Hm; [|by apply core_reaches].
  eapply ch_reaches_core; [exact Hm|]. apply (Hf a). by eapply channel_inv_core.
Qed.

(** Reading the channel first. *)
Lemma ChGood_channel {E B} d allow (f : TaskChannel → method ch_st E B) :
  (∀ st, channel_inv st.1.2 d st.2 → ch_reaches allow st (f st.2 st).1) →
  ChGood d allow (channel ≫= f).
Proof. intros Hf st Hc. exact (Hf st Hc). Qed.

Definition sk_reaches (allow : sk_label → Prop) (st st' : sk_st) : Prop :=
  ∃ ls, sk_path ls (st.1.2, st.2) (st'.1.2, st'.2) ∧ Forall (λ l, l = LQuiet ∨ allow l) ls.

Class SkGood {E A} (allow : sk_label → Prop) (m : method sk_st E A) : Prop :=
  sk_good st : sink_inv st.1.2 st.2 → sk_reaches allow st (m st).1.

Lemma sk_reaches_quiet allow (st st' : sk_st) :
  st'.1.2 = st.1.2 → sk_tasks st'.2 = sk_tasks st.2 → sk_reaches allow st st'.
Proof.
  intros Hs Ht. exists [LQuiet]. split; [|by constructor; [left|]].
  econstructor; [|apply path_nil]. rewrite Hs. apply km_session; [by intros d c f b|done..].
Qed.

Lemma sk_reaches_trans allow (st1 st2 st3 : sk_st) :
  sk_reaches allow st1 st2 → sk_reaches allow st2 st3 → sk_reaches allow st1 st3.
Proof.
  intros (ls & Hp & Ha) (ls' & Hp' & Ha'). exists (ls ++ ls'). split; [by eapply sk_path_app|].
  by apply Forall_app.
Qed.

Lemma sk_reaches_inv allow (st st' : sk_st) :
  sk_reaches allow st st' → sink_inv st.1.2 st.2 → sink_inv st'.1.2 st'.2.
Proof. intros (ls & Hp & _). apply (sk_path_inv _ _ _ Hp). Qed.

#[global] Instance SkGood_read {E A} allow (m : method sk_st E A) : ReadOnly m → SkGood allow m.
Proof. intros Hm st _. rewrite Hm. by apply sk_reaches_quiet. Qed.

#[global] Instance SkGood_bind {E A B} allow (m : method sk_st E A) (f : A → method sk_st E B) :
  SkGood allow m → (∀ a, SkGood allow (f a)) → SkGood allow (m ≫= f).
Proof.
  intros Hm Hf st Hi. specialize (Hm st Hi). unfold mbind, method_bind.
  destruct (m st) as [s1 [a|e]]; cbn in *; [|done].
  eapply sk_reaches_trans; [done|]. apply Hf. by eapply sk_reaches_inv.
Qed.

#[global] Instance SkGood_attempt {E F A} allow (m : method sk_st E A) :
  SkGood allow m → SkGood allow (attempt (F := F) m).
Proof. intros Hm st Hi. specialize (Hm st Hi). unfold attempt. by destruct (m st). Qed.

#[global] Instance SkGood_coded {A} allow (m : sk_method A) :
  SkGood allow m → SkGood allow (sink_coded m).
Proof. intros Hm st Hi. specialize (Hm st Hi). unfold sink_coded. by destruct (m st). Qed.

#[global] Instance lock_tasks_read : ReadOnly (lock_tasks (K := K)).
Proof. done. Qed.

#[global] Instance sk_kernel_good {E A} allow (f : E → DenialSinkError) (m : method K E A) :
  SkGood allow (sk_kernel f m).
Proof.
  intros st _. unfold sk_kernel. destruct (m st.1.1). by apply sk_reaches_quiet.
Qed.

Definition at_display (d : DisplayId) (allow : sk_label → Prop) (e : BufferId * target_event) : Prop :=
  allow (LEvent d e.1 e.2).

Lemma channel_reaches allow (st st' : sk_st) d c c' l :
  sk_tasks st.2 !! d = Some c → ch_move st.1.2 c st'.1.2 c' l →
  sk_tasks st'.2 = <[d := c']> (sk_tasks st.2) → from_option (at_display d allow) True l →
  sk_reaches allow st st'.
Proof.
  intros Hd Hm Ht Ha. exists [channel_label d l]. split.
  - econstructor; [|apply path_nil]. by eapply km_channel.
  - constructor; [|constructor]. destruct l as [[b e]|]; [by right|by left].
Qed.

#[global] Instance task_mut_good {E A} d (missing : E) allow (m : method ch_st E A) :
  ChGood d (at_display d allow) m → SkGood allow (task_mut d missing m).
Proof.
  intros Hm st Hi. unfold task_mut. destruct (sk_tasks st.2 !! d) as [c|] eqn:Hd;
    [|by apply sk_reaches_quiet].
  destruct (Hm (st.1, c)) as (l & Hmv & Ha); [by apply (si_channels _ _ Hi)|].
  destruct (m (st.1, c)) as [[e' c'] r]. by eapply channel_reaches.
Qed.

Lemma find_object_Some obj (k : Sink) d c :
  find_object obj k = Some (d, c) →
  sk_tasks k !! d = Some c ∧ bd_object (ch_binding c) = obj.
Proof.
  unfold find_object. intros Hf. apply find_some in Hf as [Hin Ho]. cbn in Ho. apply Z.eqb_eq in Ho.
  by apply list_elem_of_In, btree_items_elem in Hin.
Qed.

#[global] Instance object_mut_good {A} obj allow (m : ch_method A) :
  (∀ d, ChGood d (at_display d allow) m) → SkGood allow (object_mut obj m).
Proof.
  intros Hm st Hi. unfold object_mut. destruct (find_object obj st.2) as [[d c]|];
    [|by apply sk_reaches_quiet]. by apply task_mut_good.
Qed.

(** *** Each method *)

Lemma reserve_reaches (allow : BufferId * target_event → Prop) (st st' : ch_st) n b t :
  find_reusable n st.2 = Some (b, t) →
  core st' = (st.1.2, ch_binding st.2, alter reserve_target b (render_targets st.2),
              frame_targets st.2) →
  target_ok b t → allow (b, TReserve) → ch_reaches allow st st'.
Proof.
  intros (Ht & _ & Hr & Hb & Hv)%find_reusable_Some Hc Hok Ha. unfold core in Hc.
  injection Hc as Hs Hb' Hrt Hft. exists (Some (b, TReserve)). split; [|done].
  apply mv_target; try done; [by rewrite Hb'|rewrite Hs; apply sess_quiet_refl|].
  eapply target_move_alter; [exact Ht|exact Hrt| |].
  - cbn. by rewrite Hb, Hr, Hv.
  - destruct Hok as (Hid & _ & _). split_and!; cbn; [done..|]. by rewrite Hv.
Qed.

Lemma take_reusable_good d allow n none cloned :
  (∀ b, allow (b, TReserve)) → ChGood d allow (take_reusable (K := K) n none cloned).
Proof.
  intros Ha. apply ChGood_channel. intros st Hc. unfold mbind at 1, method_bind at 1, lift.
  destruct (find_reusable n st.2) as [[b t]|] eqn:Hf; cbn [ok_or]; [|by apply core_reaches].
  unfold mbind at 1, method_bind at 1, ch_kernel.
  destruct (clone_all _ _) as [k' [fds|e]]; cbn; [|by apply core_reaches].
  apply (reserve_reaches _ _ _ n b t); [done|done| |done].
  apply (ci_target _ _ _ Hc). by apply find_reusable_Some in Hf as [Ht _].
Qed.

Lemma sink_acquire_good d allow :
  (∀ b, allow (LEvent d b TReserve)) → SkGood allow (acquire_surfaceflinger_target (K := K) d).
Proof.
  intros Ha. unfold acquire_surfaceflinger_target.
  apply SkGood_bind; [apply _|intros _]. apply SkGood_bind; [apply _|intros st0].
  apply task_mut_good. do 5 (apply ChGood_bind; [apply _|intros ?]).
  apply take_reusable_good. intros b. apply Ha.
Qed.

Lemma register_target_good obj n m ds allow :
  (∀ d, allow (LEvent d (b_id m) TRegister)) →
  SkGood allow (register_render_target (K := K) obj n m ds).
Proof.
  intros Ha. unfold register_render_target.
  do 3 (apply SkGood_bind; [apply _|intros ?]). apply object_mut_good. intros d.
  apply ChGood_channel. intros st Hc. unfold mbind, method_bind, reject.
  destruct (bool_decide _) eqn:Hn; [by apply core_reaches|]. apply bool_decide_eq_false in Hn.
  rewrite <- eq_None_not_Some in Hn. exists (Some (b_id m, TRegister)). split; [|apply Ha].
  apply mv_target; try done. eapply target_move_insert; [done| |done].
  unfold target_phase. by rewrite Hn.
Qed.

Lemma unregister_target_good obj b allow :
  (∀ d, allow (LEvent d b TRevoke)) → SkGood allow (unregister_render_target (K := K) obj b).
Proof.
  intros Ha. unfold unregister_render_target.
  apply SkGood_bind; [apply _|intros _]. apply object_mut_good. intros d.
  apply ChGood_channel. intros st Hc. unfold mbind, method_bind, lift.
  destruct (render_targets st.2 !! b) as [t|] eqn:Ht; cbn [ok_or]; [|by apply core_reaches].
  destruct (ci_target _ _ _ Hc b t Ht) as (Hid & He & Hv).
  destruct (reserved t || busy t) eqn:Hrb; exists (Some (b, TRevoke)); (split; [|apply Ha]);
    apply mv_target; try done.
  - eapply target_move_alter; [done..| |].
    + revert Hrb. cbn. by destruct (busy t), (reserved t), (revoked t).
    + split_and!; cbn; [done..|]. intros _. by apply Bool.orb_true_iff in Hrb.
  - apply Bool.orb_false_iff in Hrb as [Hr Hb].
    eapply target_move_delete; [done..|]. cbn. by rewrite Hb, Hr.
Qed.

Lemma sink_cancel_good {E} d b allow :
  allow (LEvent d b TReturn) → SkGood allow (cancel_reserved_target (K := K) (E := E) d b).
Proof.
  intros Ha st Hi. unfold cancel_reserved_target, modify.
  destruct (sk_poisoned st.2); [by apply sk_reaches_quiet|].
  destruct (sk_tasks st.2 !! d) as [c|] eqn:Hd; [|by apply sk_reaches_quiet].
  pose proof (si_channels _ _ Hi d c Hd) as Hc. destruct (cancel_channel_rest b c) as [Hb Hft].
  destruct (cancel_channel_move b c (ci_target _ _ _ Hc b)) as [[_ Hm]|[Hrt _]].
  - eapply (channel_reaches _ _ _ d c _ (Some (b, TReturn))); [exact Hd| |done|exact Ha]. apply mv_target; try done. by rewrite Hb.
  - eapply (channel_reaches _ _ _ d c _ None); [exact Hd| |done|done].
    apply mv_quiet; try done. by rewrite Hb.
Qed.

(** A composer call of the session. *)
Lemma sk_composer_run {A} d (m : co_method A) (st : sk_st) :
  sk_composer d m st =
  match windows (ss_windows st.1.2) !! d with
  | None => (st, Err (Graphics "unknown display"))
  | Some w => ((st.1.1, set_composer d w (m (tw_composer w)).1 st.1.2, st.2),
               Ok (m (tw_composer w)).2)
  end.
Proof.
  destruct st as [[k s] sk]. unfold sk_composer, composer_for_display_mut, attempt; cbn.
  destruct (windows (ss_windows s) !! d) as [w|] eqn:Hw; [by destruct (m (tw_composer w))|].
  by destruct s.
Qed.

(** What a failed [send_surfaceflinger_frame] may have changed. *)
Lemma send_frame_Err d frame target fence opaque (st st' : sk_st) e :
  send_surfaceflinger_frame d frame target fence opaque st = (st', Err e) →
  st'.1.2 = st.1.2 ∧ sk_poisoned st'.2 = sk_poisoned st.2 ∧
  (sk_tasks st'.2 = sk_tasks st.2
   ∨ ∃ c c', sk_tasks st.2 !! d = Some c ∧ sk_tasks st'.2 = <[d := c']> (sk_tasks st.2)
             ∧ failed_core (st.1, c) (render_targets c) (st'.1, c')).
Proof.
  unfold send_surfaceflinger_frame. intros Hrun.
  apply m_bind_run in Hrun as [(x & [= <- _] & _)|(s1 & u & [= <- _] & Hrun)]; [by eauto|].
  apply m_bind_run in Hrun as [(x & [= <- _] & _)|(s1 & u' & [= <- _] & Hrun)]; [by eauto|].
  unfold task_mut in Hrun. destruct (sk_tasks st.2 !! d) as [c|] eqn:Hd; [|injection Hrun as <- _; eauto].
  destruct (channel_present d frame fence opaque (st.1, c)) as [[e' c'] r] eqn:Hp.
  injection Hrun as <- ->. apply channel_present_cases in Hp. split_and!; [|done|].
  - destruct Hp as (b' & _ & Hc). unfold core in Hc. by injection Hc as ? _ _ _.
  - right. exists c, c'. done.
Qed.

Lemma send_frame_Ok d frame target fence opaque (st st' : sk_st) u :
  send_surfaceflinger_frame d frame target fence opaque st = (st', Ok u) →
  it_metadata target = af_buffer frame ∧
  ∃ c c', sk_tasks st.2 !! d = Some c ∧ sk_tasks st'.2 = <[d := c']> (sk_tasks st.2)
          ∧ can_present d frame (st.1, c) ∧ core (st'.1, c') = presented_core frame (st.1, c).
Proof.
  unfold send_surfaceflinger_frame. intros Hrun.
  apply m_bind_Ok in Hrun as (s1 & v & [= <- Hmeta] & Hrun).
  apply m_bind_Ok in Hrun as (s1 & v' & [= <- _] & Hrun).
  unfold task_mut in Hrun. destruct (sk_tasks st.2 !! d) as [c|] eqn:Hd; [|discriminate Hrun].
  destruct (channel_present d frame fence opaque (st.1, c)) as [[e' c'] r] eqn:Hp.
  injection Hrun as <- ->. apply channel_present_cases in Hp. split.
  - destruct (bool_decide (it_metadata target = af_buffer frame)) eqn:E; [|discriminate Hmeta].
    by apply bool_decide_eq_true in E.
  - by exists c, c'.
Qed.

(** The session after a submission and after its withdrawal. *)
Lemma session_reaches allow (st : sk_st) s' :
  keeps_tracked st.2 st.1.2 s' → (tw_inv (ss_windows st.1.2) → tw_inv (ss_windows s')) →
  sk_reaches allow st (st.1.1, s', st.2).
Proof.
  intros Hk Hw. exists [LQuiet]. split; [|by constructor; [left|]].
  econstructor; [|apply path_nil]. by apply km_session.
Qed.

Lemma composer_reaches {A} allow d (m : co_method A) (st : sk_st) w :
  CoGood m → windows (ss_windows st.1.2) !! d = Some w →
  (∀ c f b, sk_tasks st.2 !! d = Some c → frame_targets c !! f = Some b →
     flights (tw_composer w) !! f = Some b → flights (m (tw_composer w)).1 !! f = Some b) →
  sk_reaches allow st (st.1.1, set_composer d w (m (tw_composer w)).1 st.1.2, st.2).
Proof.
  intros Hg Hw Hk. apply session_reaches.
  - intros d' c f b Hd Hf Hfl. rewrite set_composer_flight by done.
    destruct (decide (d' = d)) as [->|]; [|done]. rewrite (window_flight _ _ _ _ Hw) in Hfl. eauto.
  - intros Hs. destruct (Hg _ (wi_composer _ _ (ti_windows _ Hs _ _ Hw))). by apply set_composer_inv.
Qed.

Lemma cancel_target_flights f c g :
  g ≠ f → flights (cancel_unsubmitted_target f c).1 !! g = flights c !! g.
Proof.
  intros Hg. destruct (cancel_unsubmitted_target f c) as [c' [b|e]] eqn:E; cbn.
  - apply on_transport_Ok in E as (s' & [_ ->]%ps_retire_Ok & ->). by apply lookup_delete_ne.
  - apply on_transport_fail_safe in E as ->; [done|apply _].
Qed.

Lemma cancel_target_gone f c : flights (cancel_unsubmitted_target f c).1 !! f = None.
Proof.
  unfold cancel_unsubmitted_target, on_transport, ps_cancel_unsubmitted, ps_retire.
  unfold mbind, method_bind, get, lift. destruct (ps_in_flight (co_transport c) !! f) eqn:E; cbn.
  - apply lookup_delete_eq.
  - exact E.
Qed.

(** A frame number the composer has not issued yet is tracked nowhere. *)
Lemma fresh_frame s k d c w :
  sink_inv s k → windows (ss_windows s) !! d = Some w → sk_tasks k !! d = Some c →
  frame_targets c !! (ps_next_frame_id (co_transport (tw_composer w)) + 1) = None.
Proof.
  intros Hi Hw Hd. apply eq_None_not_Some. intros [b Hb].
  apply (ci_flight _ _ _ (si_channels _ _ Hi d c Hd)) in Hb. rewrite (window_flight _ _ _ _ Hw) in Hb.
  apply (ps_frames_issued _ (co_stream _ (wi_composer _ _ (ti_windows _ (si_windows _ _ Hi) _ _ Hw)))) in Hb.
  lia.
Qed.

Lemma rollback_good {E A} d b (e : E) allow :
  allow (LEvent d b TReturn) →
  SkGood allow (cancel_reserved_target (K := K) d b;; throw (A := A) e).
Proof. intros Ha. apply SkGood_bind; [by apply sink_cancel_good|intros _; apply _]. Qed.

Lemma withdraw_reaches {F} allow d f (st : sk_st) :
  (∀ c, sk_tasks st.2 !! d = Some c → frame_targets c !! f = None) →
  sk_reaches allow st
    (attempt (F := F) (sk_composer d (cancel_unsubmitted_target f)) st).1.
Proof.
  intros Hf. unfold attempt. rewrite sk_composer_run.
  destruct (windows (ss_windows st.1.2) !! d) as [w|] eqn:Hw; [|by apply sk_reaches_quiet].
  apply composer_reaches; [apply _|done|]. intros c g b Hd Hg Hfl.
  rewrite cancel_target_flights; [done|]. intros ->. by rewrite (Hf c Hd) in Hg.
Qed.

(** Sending a frame that is in flight at the composer and tracked nowhere. *)
Lemma send_or_withdraw_reaches d frame target fence opaque (allow : sk_label → Prop) (st : sk_st) :
  allow (LEvent d (b_id (it_metadata target)) TReturn) →
  allow (LEvent d (b_id (it_metadata target)) TPresent) →
  sink_inv st.1.2 st.2 →
  flight st.1.2 d (af_frame_id frame) = Some (b_id (af_buffer frame)) →
  (∀ c, sk_tasks st.2 !! d = Some c → frame_targets c !! af_frame_id frame = None) →
  sk_reaches allow st (send_or_withdraw d frame target fence opaque st).1.
Proof.
  intros Hret Hpres Hi Hfl Hfree. unfold send_or_withdraw, mbind at 1, method_bind at 1, attempt at 1.
  destruct (send_surfaceflinger_frame d frame target fence opaque st) as [st2 [u|e]] eqn:Hsend.
  - apply send_frame_Ok in Hsend as (Hmeta & c & c' & Hd & Ht & Hcan & Hcore). cbn.
    destruct (presented_reaches (at_display d allow) frame (st.1, c) (st2.1, c') d)
      as (l & Hmv & Ha); try done.
    + by apply (ci_display _ _ _ (si_channels _ _ Hi d c Hd)).
    + unfold at_display; cbn. by rewrite <- Hmeta.
    + by eapply channel_reaches.
  - apply send_frame_Err in Hsend as (Hs2 & _ & Hft2).
    assert (Hq : sk_reaches allow st st2
                 ∧ ∀ c, sk_tasks st2.2 !! d = Some c → frame_targets c !! af_frame_id frame = None).
    { destruct Hft2 as [Ht|(c & c' & Hd & Ht & Hc)]; rewrite Ht.
      - split; [by apply sk_reaches_quiet|done].
      - split.
        + destruct (failed_reaches (λ _, False) (st.1, c) (st2.1, c') Hc) as (l & Hmv & Ha).
          destruct l; [done|]. by eapply channel_reaches.
        + intros c2. rewrite lookup_insert_eq. intros [= <-]. destruct Hc as (b' & _ & Hc).
          unfold core in Hc. injection Hc as _ _ _ Hft. cbn in Hft. rewrite Hft. by apply Hfree. }
    destruct Hq as [Hr2 Hfree2]. eapply sk_reaches_trans; [exact Hr2|].
    pose proof (withdraw_reaches (F := DenialSinkError) allow d _ st2 Hfree2) as Hr3.
    unfold mbind at 1, method_bind at 1.
    destruct (attempt (sk_composer _ _) st2) as [st3 [v|x]]; [|done].
    eapply sk_reaches_trans; [exact Hr3|]. apply rollback_good; [done|].
    eapply sk_reaches_inv; [exact Hr3|]. by eapply sk_reaches_inv.
Qed.

Lemma sink_submit_good d target fence opaque damage (allow : sk_label → Prop) :
  allow (LEvent d (b_id (it_metadata target)) TReturn) →
  allow (LEvent d (b_id (it_metadata target)) TPresent) →
  SkGood allow (submit_surfaceflinger_target (K := K) d target fence opaque damage).
Proof.
  intros Hret Hpres st Hi. unfold submit_surfaceflinger_target. unfold mbind at 1, method_bind at 1.
  rewrite sk_composer_run. destruct (windows (ss_windows st.1.2) !! d) as [w|] eqn:Hw;
    [|by apply sk_reaches_quiet].
  set (m := submit_rendered_target d _).
  destruct (m (tw_composer w)) as [c1 [frame|e]] eqn:E; cbn [fst snd].
  2:{ apply fail_safe in E as ->. rewrite set_composer_same by done.
      destruct st as [[k s] sk]. by apply rollback_good. }
  pose proof (composer_reaches allow d m st w _ Hw) as Hr. rewrite E in Hr. cbn [fst] in Hr.
  apply submit_rendered_Ok in E as (_ & _ & _ & Hc1 & Hframe). cbn in Hc1, Hframe.
  assert (Hfl : ∀ g, flights c1 !! g
    = <[af_frame_id frame := b_id (af_buffer frame)]> (flights (tw_composer w)) !! g) by (by subst).
  assert (Hfree : ∀ c, sk_tasks st.2 !! d = Some c → frame_targets c !! af_frame_id frame = None).
  { intros c Hd. subst frame. by eapply fresh_frame. }
  assert (H01 : sk_reaches allow st (st.1.1, set_composer d w c1 st.1.2, st.2)).
  { apply Hr. intros c g b Hd Hg Hb. rewrite Hfl, lookup_insert_ne; [done|].
    intros <-. by rewrite (Hfree c Hd) in Hg. }
  eapply sk_reaches_trans; [exact H01|]. apply send_or_withdraw_reaches; try done.
  - by eapply sk_reaches_inv.
  - cbn. rewrite set_composer_flight, decide_True, Hfl by done. apply lookup_insert_eq.
Qed.

(** *** The HWC path *)

Lemma channel_submit_good d frame fence (allow : BufferId * target_event → Prop) (st : ch_st) :
  channel_inv st.1.2 d st.2 →
  flight st.1.2 d (af_frame_id frame) = Some (b_id (af_buffer frame)) →
  allow (b_id (af_buffer frame), TReturn) → allow (b_id (af_buffer frame), TPresent) →
  ch_reaches allow st (channel_submit d frame fence st).1.
Proof.
  intros Hc Hfl Hret Hpres.
  destruct (channel_submit d frame fence st) as [st' [u|e]] eqn:E; apply channel_submit_cases in E; cbn.
  - destruct E as [Hcan Hcore]. apply (presented_reaches allow frame st st' d); try done.
    by apply (ci_display _ _ _ Hc).
  - destruct E as [Hf|[Hcan Hf]]; [by apply failed_reaches|by eapply unreserved_reaches].
Qed.

(** Methods that keep the session, so that a frame stays in flight. *)
Definition session_of (st : sk_st) : Session := st.1.2.

#[global] Instance sk_kernel_keeps {E A} (f : E → DenialSinkError) (m : method K E A) :
  Keeps session_of (sk_kernel f m).
Proof. intros st. unfold sk_kernel. by destruct (m st.1.1). Qed.

Lemma task_mut_keeps {E A} d (missing : E) (m : method ch_st E A) :
  Keeps core m → Keeps session_of (task_mut d missing m).
Proof.
  intros Hm st. unfold task_mut. destruct (sk_tasks st.2 !! d) as [c|]; [|done].
  specialize (Hm (st.1, c)). destruct (m (st.1, c)) as [[e' c'] r]. unfold core in Hm.
  by injection Hm as ? _ _ _.
Qed.

#[global] Instance cancel_reserved_keeps {E} d b :
  Keeps session_of (cancel_reserved_target (K := K) (E := E) d b).
Proof.
  intros st. unfold cancel_reserved_target, modify; cbn. destruct (sk_poisoned st.2); [done|].
  by destruct (sk_tasks st.2 !! d).
Qed.

Lemma sk_attempt_keeps {E F A} (m : method sk_st E A) :
  Keeps session_of m → Keeps session_of (attempt (F := F) m).
Proof. intros Hm st. specialize (Hm st). unfold attempt. by destruct (m st). Qed.

Lemma sk_coded_keeps {A} (m : sk_method A) : Keeps session_of m → Keeps session_of (sink_coded m).
Proof. intros Hm st. specialize (Hm st). unfold sink_coded. by destruct (m st). Qed.

#[global] Instance or_return_keeps {A} d t (m : method sk_st ErrorCode A) :
  Keeps session_of m → Keeps session_of (or_return d t m).
Proof.
  intros Hm. unfold or_return. apply Keeps_bind; [by apply sk_attempt_keeps|].
  intros [a|e]; solve_keeps.
Qed.

Lemma or_return_good {A} d t (m : method sk_st ErrorCode A) (allow : sk_label → Prop) :
  allow (LEvent d (b_id (it_metadata t)) TReturn) → SkGood allow m → SkGood allow (or_return d t m).
Proof.
  intros Ha Hm. unfold or_return. apply SkGood_bind; [apply _|]. intros [a|e]; [apply _|].
  by apply rollback_good.
Qed.

#[global] Instance compose_good target layers extent allow :
  SkGood allow (compose (K := K) target layers extent).
Proof.
  unfold compose. do 2 (apply SkGood_bind; [apply _|intros ?]).
  apply SkGood_bind; [|intros ?; apply _]. destruct (sk_compositor _); [apply _|].
  apply SkGood_bind; [apply _|intros _]. intros st _. by apply sk_reaches_quiet.
Qed.

#[global] Instance compose_keeps target layers extent :
  Keeps session_of (compose (K := K) target layers extent).
Proof. unfold compose. solve_keeps. Qed.

#[global] Instance display_extent_good d allow : SkGood allow (display_extent (K := K) d).
Proof.
  unfold display_extent. apply SkGood_bind; [apply _|intros _]. apply task_mut_good.
  apply ChGood_bind; [apply _|intros ?; apply _].
Qed.

#[global] Instance display_extent_keeps d : Keeps session_of (display_extent (K := K) d).
Proof. unfold display_extent. apply Keeps_bind; [apply _|intros _]. apply task_mut_keeps. solve_keeps. Qed.

#[global] Instance clone_fence_good f allow : SkGood allow (clone_fence (K := K) f).
Proof. intros st _. unfold clone_fence. destruct (try_clone f st.1.1). by apply sk_reaches_quiet. Qed.
#[global] Instance clone_fence_keeps f : Keeps session_of (clone_fence (K := K) f).
Proof. intros st. unfold clone_fence. by destruct (try_clone f st.1.1). Qed.

(** A frame the session still has in flight. *)
Definition in_flight_frame (d : DisplayId) (frame : AcceptedFrame) (st : sk_st) : Prop :=
  flight (session_of st) d (af_frame_id frame) = Some (b_id (af_buffer frame)).

(** Sequencing where the second part needs the frame in flight. *)
Lemma flying_bind {E A B} allow d frame (m : method sk_st E A) (f : A → method sk_st E B) :
  SkGood allow m → Keeps session_of m →
  (∀ a st, sink_inv st.1.2 st.2 → in_flight_frame d frame st → sk_reaches allow st (f a st).1) →
  ∀ st, sink_inv st.1.2 st.2 → in_flight_frame d frame st → sk_reaches allow st ((m ≫= f) st).1.
Proof.
  intros Hm Hk Hf st Hi Hfl. specialize (Hm st Hi). specialize (Hk st). unfold mbind, method_bind.
  destruct (m st) as [st1 [a|e]]; cbn in *; [|done].
  eapply sk_reaches_trans; [done|]. apply Hf; [by eapply sk_reaches_inv|].
  unfold in_flight_frame. by rewrite Hk.
Qed.

Lemma submit_coded_reaches d frame target layers (allow : sk_label → Prop) (st : sk_st) :
  allow (LEvent d (b_id (it_metadata target)) TReturn) →
  allow (LEvent d (b_id (af_buffer frame)) TReturn) →
  allow (LEvent d (b_id (af_buffer frame)) TPresent) →
  sink_inv st.1.2 st.2 → in_flight_frame d frame st →
  sk_reaches allow st (submit_coded d frame target layers st).1.
Proof.
  intros Ht Hret Hpres. revert st. unfold submit_coded.
  apply flying_bind; [apply or_return_good; [done|apply _]|apply _|intros _].
  apply flying_bind; [apply or_return_good; [done|apply _]|apply or_return_keeps, sk_coded_keeps; apply _|intros extent].
  apply flying_bind; [apply or_return_good; [done|apply _]|apply or_return_keeps, sk_coded_keeps; apply _|intros fence].
  apply flying_bind; [apply or_return_good; [done|apply _]|apply _|intros present].
  apply flying_bind; [apply _|apply sk_coded_keeps; apply _|intros _].
  intros st Hi Hfl. unfold mbind, method_bind, task_mut.
  destruct (sk_tasks st.2 !! d) as [c|] eqn:Hd; [|by apply sk_reaches_quiet].
  destruct (channel_submit_good d frame fence (at_display d allow) (st.1, c)) as (l & Hmv & Ha);
    [by apply (si_channels _ _ Hi)|done..|].
  destruct (channel_submit d frame fence (st.1, c)) as [[e' c'] r].
  assert (sk_reaches allow st (e', set_sk_tasks (<[d := c']> (sk_tasks st.2)) st.2))
    by (by eapply channel_reaches).
  by destruct r.
Qed.

(** *** The rest of the life cycle *)

#[global] Instance sk_send_good msg fds allow : SkGood allow (sk_send (K := K) msg fds).
Proof. apply _. Qed.

(** Methods that keep the channels and the session. *)
Definition sk_core (st : sk_st) : Session * gmap DisplayId TaskChannel := (st.1.2, sk_tasks st.2).

Lemma added_good b t r (allow : sk_label → Prop) (st : sk_st) :
  allow (LAdded (rs_display r)) →
  sk_tasks st.2 !! rs_display r = None →
  (∀ d' c', sk_tasks st.2 !! d' = Some c' → bd_object (ch_binding c') ≠ bd_object b) →
  bd_inv b → bd_display b = rs_display r → pending_release_points b = ∅ →
  sk_reaches allow st
    (st.1, set_sk_tasks (<[rs_display r := channel_new b t]> (sk_tasks st.2)) st.2).
Proof.
  intros. exists [LAdded (rs_display r)]. split; [|by constructor; [right|]].
  econstructor; [|apply path_nil]. by eapply km_add.
Qed.

#[global] Instance sk_kernel_core {E A} (f : E → DenialSinkError) (m : method K E A) :
  Keeps sk_core (sk_kernel f m).
Proof. intros st. unfold sk_kernel. by destruct (m st.1.1). Qed.
#[global] Instance sk_attempt_core {E F A} (m : method sk_st E A) :
  Keeps sk_core m → Keeps sk_core (attempt (F := F) m).
Proof. intros Hm st. specialize (Hm st). unfold attempt. by destruct (m st). Qed.

Lemma core_bind {E A B} allow (P : Session * gmap DisplayId TaskChannel → Prop)
    (m : method sk_st E A) (f : A → method sk_st E B) :
  Keeps sk_core m → (∀ a st, P (sk_core st) → sk_reaches allow st (f a st).1) →
  ∀ st, P (sk_core st) → sk_reaches allow st ((m ≫= f) st).1.
Proof.
  intros Hm Hf st HP. specialize (Hm st). unfold mbind, method_bind.
  destruct (m st) as [st1 [a|e]]; cbn in Hm.
  - eapply sk_reaches_trans; [|apply Hf; by rewrite Hm]. unfold sk_core in Hm.
    injection Hm as Hs Ht. by apply sk_reaches_quiet.
  - unfold sk_core in Hm. injection Hm as Hs Ht. by apply sk_reaches_quiet.
Qed.

(** The checks of [register_task], then its effects. *)
Definition can_add (obj : TaskObjectId) (d : DisplayId)
    (p : Session * gmap DisplayId TaskChannel) : Prop :=
  p.2 !! d = None ∧ ∀ d' c', p.2 !! d' = Some c' → bd_object (ch_binding c') ≠ obj.

Lemma binding_new_Ok obj r b :
  binding_new obj r = Ok b →
  bd_inv b ∧ bd_object b = obj ∧ bd_display b = rs_display r ∧ pending_release_points b = ∅.
Proof.
  intros Hb. split; [by apply binding_new_inv in Hb as [? _]|].
  unfold binding_new in Hb. inv_ok. by subst b.
Qed.

Lemma register_task_good obj r (allow : sk_label → Prop) :
  allow (LAdded (rs_display r)) → SkGood allow (register_task (K := K) obj r).
Proof.
  intros Ha st Hi. unfold register_task.
  unfold mbind at 1, method_bind at 1, lock_tasks. destruct (sk_poisoned st.2); [by apply sk_reaches_quiet|].
  unfold mbind at 1, method_bind at 1, get.
  unfold mbind at 1, method_bind at 1, reject at 1.
  destruct (bool_decide _) eqn:Hd; [by apply sk_reaches_quiet|].
  unfold mbind at 1, method_bind at 1, reject at 1.
  destruct (existsb _ _) eqn:Ho; [by apply sk_reaches_quiet|].
  unfold mbind at 1, method_bind at 1, lift.
  destruct (binding_new obj r) as [b|e] eqn:Hb; cbn [map_err]; [|by apply sk_reaches_quiet].
  apply binding_new_Ok in Hb as (Hbi & Hbo & Hbd & Hbp).
  assert (Hadd : can_add obj (rs_display r) (sk_core st)).
  { split; cbn.
    - apply eq_None_not_Some. by apply bool_decide_eq_false in Hd.
    - intros d' c' Hc E. rewrite <- Bool.not_true_iff_false, existsb_exists in Ho. apply Ho.
      exists c'. rewrite Z.eqb_eq. split; [|done]. apply list_elem_of_In, btree_values_elem. eauto. }
  clear Hd Ho Hi. revert st Hadd.
  do 4 (apply core_bind; [apply _|intros ?]). destruct a2 as [u|e].
  - intros st [Hd Ho]. apply added_good; try done. intros d' c' Hc. rewrite Hbo. eauto.
  - apply core_bind; [apply _|]. intros _ st _. by apply sk_reaches_quiet.
Qed.

#[global] Instance bind_task_good d t allow : SkGood allow (sink_bind_task (K := K) d t).
Proof.
  unfold sink_bind_task. do 3 (apply SkGood_bind; [apply _|intros ?]). apply task_mut_good.
  apply ChGood_bind; [apply _|intros c]. destruct (decide _); [apply _|].
  do 2 (apply ChGood_bind; [apply _|intros ?]). intros st _. unfold ch_on_binding.
  destruct (mark_task_bound t _) as [b' [u|e]] eqn:E; exists None; (split; [|done]); apply mv_quiet; try done.
  - unfold mark_task_bound in E. inv_method. cbn. auto with bridge.
  - apply fail_safe in E as ->. cbn. destruct (ch_binding st.2). auto with bridge.
Qed.

#[global] Instance removal_good d allow : SkGood allow (request_task_removal (K := K) d).
Proof.
  unfold request_task_removal. apply SkGood_bind; [apply _|intros _]. apply task_mut_good.
  intros st _. unfold channel_destroy, request_destroy. exists None. split; [|done].
  destruct (destroy_requested _); [by apply mv_quiet; auto with bridge|].
  destruct (send_android _ _ _) as [k' [u|e]]; apply mv_quiet; cbn; auto with bridge.
Qed.

Lemma unregister_task_good d (allow : sk_label → Prop) :
  allow (LRemoved d) → SkGood allow (unregister_task (K := K) d).
Proof.
  intros Ha. unfold unregister_task. do 3 (apply SkGood_bind; [apply _|intros ?]).
  intros st _. exists [LRemoved d]. split; [|by constructor; [right|]].
  econstructor; [|apply path_nil]. by apply km_remove.
Qed.

#[global] Instance sink_acknowledge_good d n allow :
  SkGood allow (sink_acknowledge_configure (K := K) d n).
Proof.
  unfold sink_acknowledge_configure. apply SkGood_bind; [apply _|intros _]. apply task_mut_good.
  intros st _. unfold mbind, method_bind, on_bridge.
  destruct (acknowledge_quiet n (ch_binding st.2, st.1.2)) as [Hb Hs].
  destruct (bridge_acknowledge_configure n _) as [[b' s'] [msg|e]]; cbn in Hb, Hs; cbn [map_err];
    exists None; (split; [|done]); [|by apply mv_quiet].
  pose proof (ch_send_keeps (K := K) msg [] (st.1.1, s', set_ch_binding b' st.2)) as Hk.
  unfold core in Hk. injection Hk as Hs' Hb' Hrt Hft. apply mv_quiet; rewrite ?Hs', ?Hb'; done.
Qed.

#[global] Instance bind_layer_stream_good d fds allow :
  SkGood allow (bind_layer_stream (K := K) d fds).
Proof.
  unfold bind_layer_stream. apply SkGood_bind; [apply _|intros _]. apply task_mut_good.
  do 2 (apply ChGood_bind; [apply _|intros ?]). apply _.
Qed.

#[global] Instance request_activation_good d allow : SkGood allow (request_activation (K := K) d).
Proof.
  unfold request_activation. apply SkGood_bind; [apply _|intros st].
  destruct (sk_activation_requests _); [|apply _]. apply SkGood_bind; [apply _|intros _].
  apply task_mut_good. apply ChGood_bind; [apply _|intros ?; apply _].
Qed.

#[global] Instance headless_good d ready allow :
  SkGood allow (complete_headless_frame (K := K) d ready).
Proof.
  unfold complete_headless_frame. apply SkGood_bind; [apply _|intros _]. apply task_mut_good.
  do 2 (apply ChGood_bind; [apply _|intros ?]).
  apply ChGood_bind; [destruct ready; apply _|intros ?].
  apply ChGood_keeps, update_channel_keeps. done.
Qed.

#[global] Instance take_fence_good d allow : SkGood allow (take_direct_present_fence (K := K) d).
Proof.
  unfold take_direct_present_fence. apply SkGood_bind; [apply _|intros _]. apply task_mut_good.
  apply ChGood_bind; [apply _|intros c].
  apply ChGood_bind; [by apply update_channel_keeps|intros _; apply _].
Qed.

Lemma apply_task_event_good msg (allow : sk_label → Prop) :
  (∀ d o f b p, msg = BufferReleased o f b p → allow (LEvent d b TRelease)) →
  SkGood allow (apply_task_event (K := K) msg).
Proof.
  intros Ha. unfold apply_task_event. do 2 (apply SkGood_bind; [apply _|intros ?]).
  apply object_mut_good. intros d st Hc.
  destruct (channel_event_reaches msg st d Hc) as (l & Hm & Hl). exists l. split; [done|].
  destruct l as [[b e]|]; [|done]. destruct Hl as (o & f & p & E & ->). unfold at_display; cbn. eauto.
Qed.

(** ** The public operations *)

Inductive sk_op : Type :=
| OpRegisterTask (obj : TaskObjectId) (reservation : ReservedTaskWindowSpec)
| OpBindTask (display : DisplayId) (task : TaskId)
| OpRequestRemoval (display : DisplayId)
| OpUnregisterTask (display : DisplayId)
| OpAcknowledge (display : DisplayId) (serial : Z)
| OpBindLayers (display : DisplayId) (sockets : list fd)
| OpActivate (display : DisplayId)
| OpEvent (message : DenialMessage)
| OpRegisterTarget (obj : TaskObjectId) (serial : Z) (buffer : BufferMetadata)
    (descriptors : list AttachedDescriptor)
| OpUnregisterTarget (obj : TaskObjectId) (buffer : BufferId)
| OpAcquire (display : DisplayId)
| OpAcquireHwc (display : DisplayId)
| OpCancel (display : DisplayId) (target : ImportedRenderTarget)
| OpHeadless (display : DisplayId) (ready : option fd)
| OpSubmit (display : DisplayId) (target : ImportedRenderTarget) (fence : option fd)
    (opaque : bool) (damage : option Damage)
| OpSubmitHwc (display : DisplayId) (frame : AcceptedFrame) (target : ImportedRenderTarget)
    (layers : list PreparedLayer)
| OpTakeFence (display : DisplayId).

Definition sk_exec (op : sk_op) (st : sk_st) : sk_st :=
  match op with
  | OpRegisterTask obj r => (register_task obj r st).1
  | OpBindTask d t => (sink_bind_task d t st).1
  | OpRequestRemoval d => (request_task_removal d st).1
  | OpUnregisterTask d => (unregister_task d st).1
  | OpAcknowledge d n => (sink_acknowledge_configure d n st).1
  | OpBindLayers d fds => (bind_layer_stream d fds st).1
  | OpActivate d => (request_activation d st).1
  | OpEvent msg => (apply_task_event msg st).1
  | OpRegisterTarget obj n m ds => (register_render_target obj n m ds st).1
  | OpUnregisterTarget obj b => (unregister_render_target obj b st).1
  | OpAcquire d => (acquire_surfaceflinger_target d st).1
  | OpAcquireHwc d => (acquire_target d st).1
  | OpCancel d t => (cancel_target d t st).1
  | OpHeadless d ready => (complete_headless_frame d ready st).1
  | OpSubmit d t fence opaque damage => (submit_surfaceflinger_target d t fence opaque damage st).1
  | OpSubmitHwc d frame t layers => (submit_frame d frame t layers st).1
  | OpTakeFence d => (take_direct_present_fence d st).1
  end.

(** The HWC service submits the frame its own session just accepted. *)
Definition op_enabled (op : sk_op) (st : sk_st) : Prop :=
  match op with OpSubmitHwc d frame _ _ => in_flight_frame d frame st | _ => True end.

(** The target events an operation may cause. *)
Definition op_allows (op : sk_op) (l : sk_label) : Prop :=
  match op, l with
  | OpRegisterTask _ r, LAdded d => d = rs_display r
  | OpUnregisterTask d, LRemoved d' => d' = d
  | OpEvent (BufferReleased _ _ b _), LEvent _ b' TRelease => b' = b
  | OpRegisterTarget _ _ m _, LEvent _ b TRegister => b = b_id m
  | OpUnregisterTarget _ b, LEvent _ b' TRevoke => b' = b
  | OpAcquire d, LEvent d' _ TReserve => d' = d
  | OpAcquireHwc d, LEvent d' _ TReserve => d' = d
  | OpCancel d t, LEvent d' b TReturn => d' = d ∧ b = b_id (it_metadata t)
  | OpSubmit d t _ _ _, LEvent d' b (TReturn | TPresent) => d' = d ∧ b = b_id (it_metadata t)
  | OpSubmitHwc d frame t _, LEvent d' b TReturn =>
      d' = d ∧ (b = b_id (it_metadata t) ∨ b = b_id (af_buffer frame))
  | OpSubmitHwc d frame _ _, LEvent d' b TPresent => d' = d ∧ b = b_id (af_buffer frame)
  | _, _ => False
  end.

(** The HWC acquisition is the direct one with its errors as codes. *)
Lemma acquire_target_is_coded d (st : sk_st) :
  acquire_target d st = sink_coded (acquire_surfaceflinger_target d) st.
Proof.
  unfold acquire_target, acquire_surfaceflinger_target, sink_coded, take_reusable, clone_planes.
  unfold mbind, method_bind, lock_tasks, get, task_mut, channel, gets, reject, lift, ch_kernel.
  destruct (sk_poisoned st.2); [done|]. destruct (sk_tasks st.2 !! d) as [c|]; [|done]. cbn [fst snd].
  destruct (destroy_requested _); [done|].
  destruct (ensure_render_targets _ _) as [[e1 c1] [u|e]]; [|done]. cbn [fst snd map_err].
  destruct (dm_serial _) as [n|]; [|done]. cbn [ok_or].
  destruct (find_reusable n c1) as [found|]; [|done]. cbn [ok_or].
  by destruct (clone_all _ _) as [k' [fds|e]].
Qed.

Lemma sk_exec_reaches op (st : sk_st) :
  op_enabled op st → sink_inv st.1.2 st.2 → sk_reaches (op_allows op) st (sk_exec op st).
Proof.
  intros He Hi. destruct op; cbn [sk_exec].
  - by apply register_task_good.
  - by apply bind_task_good.
  - by apply removal_good.
  - by apply unregister_task_good.
  - by apply sink_acknowledge_good.
  - by apply bind_layer_stream_good.
  - by apply request_activation_good.
  - apply apply_task_event_good; [|done]. intros d o f b p ->. done.
  - by apply register_target_good.
  - by apply unregister_target_good.
  - by apply sink_acquire_good.
  - rewrite acquire_target_is_coded. apply SkGood_coded; [by apply sink_acquire_good|done].
  - by apply sink_cancel_good.
  - by apply headless_good.
  - by apply sink_submit_good.
  - unfold submit_frame. pose proof (submit_coded_reaches display frame target layers
      (op_allows (OpSubmitHwc display frame target layers)) st) as Hr.
    destruct (submit_coded _ _ _ _ st). apply Hr; cbn; auto.
  - by apply take_fence_good.
Qed.

(** Steps of the process: the sink's operations, and everything around it (the
    kernel, a poisoned lock, session calls that keep the tracked frames). *)
Inductive sk_step : sk_st → sk_st → Prop :=
| step_op op st : op_enabled op st → sk_step st (sk_exec op st)
| step_around (st st' : sk_st) :
    sk_tasks st'.2 = sk_tasks st.2 → keeps_tracked st.2 st.1.2 st'.1.2 →
    (tw_inv (ss_windows st.1.2) → tw_inv (ss_windows st'.1.2)) → sk_step st st'.

Lemma sk_step_inv st st' : sk_step st st' → sink_inv st.1.2 st.2 → sink_inv st'.1.2 st'.2.
Proof.
  intros [op st0 He|st0 st1 Ht Hk Hw] Hi.
  - eapply sk_reaches_inv; [by apply sk_exec_reaches|done].
  - apply (sink_inv_tasks _ st0.2); [done|]. eapply sink_inv_session; [apply Hw, Hi|done..].
Qed.

Lemma sk_steps_inv st st' : rtc sk_step st st' → sink_inv st.1.2 st.2 → sink_inv st'.1.2 st'.2.
Proof. induction 1; eauto using sk_step_inv. Qed.

Lemma register_again op d :
  (∃ o r, op = OpRegisterTask o r ∧ rs_display r = d)
  ∨ (∀ o r, op = OpRegisterTask o r → rs_display r ≠ d).
Proof.
  destruct op as [o r| | | | | | | | | | | | | | | |]; try (right; intros; discriminate).
  destruct (decide (rs_display r = d)); [left; eauto|right]. by intros ? ? [= -> ->].
Qed.

Lemma register_task_again o r (st : sk_st) c :
  sk_tasks st.2 !! rs_display r = Some c → (register_task o r st).1 = st.
Proof.
  intros Hd. unfold register_task, mbind, method_bind, lock_tasks, get, reject.
  destruct (sk_poisoned st.2); [done|]. by rewrite bool_decide_true by eauto.
Qed.

(** The events of one target during one operation. *)
Lemma sk_exec_phase op (st : sk_st) d b c :
  op_enabled op st → sink_inv st.1.2 st.2 → sk_tasks st.2 !! d = Some c →
  op ≠ OpUnregisterTask d →
  ∃ c' es, sk_tasks (sk_exec op st).2 !! d = Some c'
    ∧ Forall (λ e, op_allows op (LEvent d b e)) es
    ∧ phase_run es (target_phase b c) = Some (target_phase b c').
Proof.
  intros He Hi Hd Hu. destruct (register_again op d) as [(o & r & -> & <-)|Hr].
  { exists c, []. cbn. rewrite (register_task_again o r st c Hd). by split_and!. }
  destruct (sk_exec_reaches op st He Hi) as (ls & Hp & Ha).
  assert (Hk : Forall (label_keeps d) ls).
  { eapply Forall_impl; [exact Ha|]. intros l [->|Hl]; [by split|]. split; intros ->.
    - destruct op as [| | | | | | |[]| | | | | | | | |]; cbn in Hl; try done. by subst.
    - destruct op as [o r| | | | | | |[]| | | | | | | | |]; cbn in Hl; try done. by apply (Hr o r). }
  destruct (sk_path_phase ls _ _ d c b Hp Hk Hd) as (c' & Hd' & Hrun).
  exists c', (events_of d b ls). split_and!; [done| |done].
  unfold events_of. clear -Ha. induction Ha as [|l ls Hl Hls IH]; cbn; [constructor|].
  apply Forall_app. split; [|done]. destruct l as [| | |d' b' e]; cbn; try constructor.
  destruct (decide _) as [[-> ->]|]; constructor; [|constructor]. by destruct Hl.
Qed.

(** ** Properties *)

(** C12: in every state the process can reach from an empty sink (any order of
    the sink's methods, any kernel and socket failures, any session calls that
    keep the tracked frames), a frame is tracked exactly while its binding waits
    for a release, its target is shown by exactly that frame, no target is both
    reserved and busy, a revoked target is still in use, and task objects are
    unique. *)
Theorem sink_reachable_inv (k0 : K) s0 (st : sk_st) :
  tw_inv (ss_windows s0) → rtc sk_step (k0, s0, sink_new) st → sink_inv st.1.2 st.2.
Proof. intros Hs Hr. apply (sk_steps_inv _ _ Hr). by apply sink_new_inv. Qed.


Lemma shown_stays es r p :
  phase_run es (Shown r) = Some p → TRelease ∉ es → ∃ r', p = Shown r'.
Proof.
  revert r. induction es as [|e es IH]; intros r Hrun Hn; [injection Hrun as <-; eauto|].
  apply not_elem_of_cons in Hn as [He Hn]. cbn in Hrun.
  destruct e, r; try discriminate Hrun; try done; cbn in Hrun; eauto.
Qed.

(** A target the host shows cannot be acquired, returned or presented
    again: it stays shown through every method except the application of a
    release record that names it. *)
Theorem shown_until_released op (st : sk_st) d b c r :
  op_enabled op st → sink_inv st.1.2 st.2 → sk_tasks st.2 !! d = Some c →
  op ≠ OpUnregisterTask d → (∀ o f p, op ≠ OpEvent (BufferReleased o f b p)) →
  target_phase b c = Shown r →
  ∃ c' r', sk_tasks (sk_exec op st).2 !! d = Some c' ∧ target_phase b c' = Shown r'.
Proof.
  intros He Hi Hd Hu Hn Hs. destruct (sk_exec_phase op st d b c He Hi Hd Hu) as (c' & es & Hd' & Ha & Hr).
  rewrite Hs in Hr. destruct (shown_stays es r _ Hr) as [r' Hr']; [|eauto].
  intros Hin. rewrite Forall_forall in Ha. specialize (Ha _ Hin).
  destruct op as [| | | | | | |m| | | | | | | | |]; try done. destruct m; try done.
  cbn in Ha. subst. by eapply Hn.
Qed.

(** The HWC acquisition and SurfaceFlinger's direct acquisition are the same
    operation: same target, same state, and the HWC error is the code of the
    other's error. *)
Theorem acquire_equivalent d (st : sk_st) :
  acquire_target d st
  = ((acquire_surfaceflinger_target d st).1,
     map_err sink_error_code (acquire_surfaceflinger_target d st).2).
Proof. rewrite acquire_target_is_coded. unfold sink_coded. by destruct (acquire_surfaceflinger_target d st). Qed.

(** The sink when nothing was changed by writing a channel back. *)
Lemma set_sk_tasks_same d c (k : Sink) :
  sk_tasks k !! d = Some c → set_sk_tasks (<[d := c]> (sk_tasks k)) k = k.
Proof. intros Hd. rewrite insert_id by done. by destruct k. Qed.


(** ** Failed submissions *)

Lemma cancel_reserved_run {E} d b (st : sk_st) c :
  sk_poisoned st.2 = false → sk_tasks st.2 !! d = Some c →
  cancel_reserved_target (E := E) d b st
  = ((st.1, set_sk_tasks (<[d := cancel_channel b c]> (sk_tasks st.2)) st.2), Ok tt).
Proof. intros Hp Hd. unfold cancel_reserved_target, modify. by rewrite Hp, Hd. Qed.

Lemma cancel_held b c r :
  (∀ t, render_targets c !! b = Some t → target_ok b t) → target_phase b c = Held r →
  target_phase b (cancel_channel b c) = if r then Absent else Idle.
Proof.
  intros Hok Hh. destruct (cancel_channel_move b c Hok) as [[_ [Hn _ _]]|[_ Hn]].
  - rewrite Hh in Hn. cbn in Hn. by destruct r; injection Hn.
  - by destruct (Hn r).
Qed.

(** What a failed submission leaves of a channel. *)
Record target_returned (b : BufferId) (r : bool) (c c' : TaskChannel) : Prop := {
  tr_phase : target_phase b c' = (if r then Absent else Idle);
  tr_frames : frame_targets c' = frame_targets c;
  tr_points : pending_release_points (ch_binding c') = pending_release_points (ch_binding c)
}.

Lemma cancelled_returned b r c c1 :
  (∀ t, render_targets c1 !! b = Some t → target_ok b t) →
  render_targets c1 = render_targets c → frame_targets c1 = frame_targets c →
  pending_release_points (ch_binding c1) = pending_release_points (ch_binding c) →
  target_phase b c = Held r → target_returned b r c (cancel_channel b c1).
Proof.
  intros Hok Hrt Hft Hp Hh. destruct (cancel_channel_rest b c1) as [Hb Hf]. split.
  - apply cancel_held; [done|]. unfold target_phase in *. by rewrite Hrt.
  - congruence.
  - congruence.
Qed.

(** The withdrawn frame leaves the composer as it found it. *)
Lemma withdrawn_flight s d w c1 f b d' g :
  windows (ss_windows s) !! d = Some w →
  flights c1 = <[f := b]> (flights (tw_composer w)) → flights (tw_composer w) !! f = None →
  flight (set_composer d (mkWindow (tw_reservation w) (tw_spec w) c1)
            (cancel_unsubmitted_target f c1).1 (set_composer d w c1 s)) d' g = flight s d' g.
Proof.
  intros Hw Hc1 Hf. rewrite set_composer_flight by apply lookup_insert_eq.
  destruct (decide (d' = d)) as [->|Hne].
  - rewrite (window_flight s d w g Hw). destruct (decide (g = f)) as [->|Hg].
    + by rewrite Hf, cancel_target_gone.
    + rewrite cancel_target_flights, Hc1 by done. by apply lookup_insert_ne.
  - rewrite set_composer_flight by done. by rewrite decide_False.
Qed.


End methods.

(** ** One task driven through a frame *)

(** A kernel whose socket is open or closed. *)
#[global] Instance demo_drm : Drm bool := {
  create_syncobj _ k := (k, Ok 1);
  fd_to_syncobj _ _ k := (k, Ok 2);
  syncobj_to_fd _ _ k := (k, Ok 3);
  syncobj_timeline_transfer _ _ _ _ k := (k, Ok tt);
  syncobj_timeline_signal _ _ k := (k, Ok tt);
  syncobj_timeline_wait _ _ _ _ _ _ k := (k, Ok tt);
  syncobj_timeline_query _ k := (k, Ok 0);
  syncobj_eventfd _ _ _ _ k := (k, Ok tt);
  ioctl_import_sync_file _ _ k := (k, Ok tt);
  clock_monotonic k := (k, Ok (5, 0))
}.

#[global] Instance demo_socket : SeqPacketOps bool := {
  sendmsg bytes _ k := (k, if k then Ok (zlen bytes) else Err 32);
  recvmsg _ k := (k, Err EAGAIN);
  getsockopt_peercred k := (k, Ok (12, mkPeer 100 1000 1000))
}.

#[global] Instance demo_render : RenderOps bool := {
  PreparedLayer := unit;
  layer_compositor_new k := (k, Ok tt);
  layer_compose _ _ _ k := (k, Ok 9);
  try_clone f k := (k, Ok f)
}.

Definition demo_target : ImportedRenderTarget := mkImported demo_buffer 4 [11].

Definition demo_acquired_ops : list (sk_op (K := bool)) :=
  [OpRegisterTask 5 (mkReservation 2 pkg);
   OpEvent (FormatFeedback 5 1 [mkFormatModifier 875713089 0]);
   OpEvent (ConfigureMsg 5 4 640 480 1 1 Normal 60000);
   OpAcknowledge 2 4;
   OpRegisterTarget 5 4 demo_buffer [mkAttached DmabufPlane 11];
   OpAcquire 2].

Definition sk_run {K} `{Drm K, SeqPacketOps K, RenderOps K} (ops : list sk_op)
    (st : sk_state (K := K)) : sk_state (K := K) := foldl (λ st op, sk_exec op st) st ops.

Definition demo_start : sk_state (K := bool) := (true, demo_session, sink_new).
Definition demo_acquired := sk_run demo_acquired_ops demo_start.
Definition demo_shown := sk_exec (OpSubmit 2 demo_target (Some 12) true None) demo_acquired.

Lemma demo_session_inv : tw_inv (ss_windows demo_session).
Proof. apply ss_exec_inv. apply no_windows_inv. Qed.

Lemma demo_acquired_reached : rtc sk_step demo_start demo_acquired.
Proof.
  unfold demo_acquired, demo_acquired_ops, sk_run; cbn [foldl].
  do 6 (eapply rtc_r; [|by apply step_op]). apply rtc_refl.
Qed.

Lemma demo_acquired_inv : sink_inv demo_acquired.1.2 demo_acquired.2.
Proof.
  apply (sk_steps_inv _ _ demo_acquired_reached). apply sink_new_inv, demo_session_inv.
Qed.

Lemma demo_shown_inv : sink_inv demo_shown.1.2 demo_shown.2.
Proof. eapply sk_step_inv; [by apply step_op|]. apply demo_acquired_inv. Qed.

Definition demo_channel (st : sk_state (K := bool)) : TaskChannel :=
  default (channel_new demo_binding (mkTimelines (mkTimeline 0 None 0 0 0) (mkTimeline 0 None 0 0 0)))
    (sk_tasks st.2 !! 2).

Example demo_phases :
  (target_phase 7 (demo_channel demo_acquired), target_phase 7 (demo_channel demo_shown),
   target_phase 7 (demo_channel (sk_exec (OpEvent (BufferReleased 5 1 7 1)) demo_shown)))
  = (Held false, Shown false, Idle).
Proof. vm_compute. reflexivity. Qed.

Lemma sink_reachable_inv_witness :
  sink_inv demo_acquired.1.2 demo_acquired.2.
Proof.
  apply (sink_reachable_inv true demo_session demo_acquired).
  - apply demo_session_inv.
  - apply demo_acquired_reached.
Defined.


Lemma shown_until_released_witness :
  ∃ c' r', sk_tasks (sk_exec (OpAcquire 2) demo_shown).2 !! 2 = Some c'
    ∧ target_phase 7 c' = Shown r'.
Proof.
  apply (shown_until_released (OpAcquire 2) demo_shown 2 7 (demo_channel demo_shown) false).
  - done.
  - apply demo_shown_inv.
  - vm_compute. reflexivity.
  - discriminate.
  - discriminate.
  - vm_compute. reflexivity.
Defined.


(** The socket closes before the frame is sent. *)
Definition with_kernel (k : bool) (st : sk_state (K := bool)) : sk_state (K := bool) :=
  (k, st.1.2, st.2).
Definition demo_closed := with_kernel false demo_acquired.

Lemma with_kernel_inv k st :
  sink_inv st.1.2 st.2 → sink_inv (with_kernel k st).1.2 (with_kernel k st).2.
Proof. done. Qed.


(** A configure that arrives between the acquisition and the submission of the
    HWC path makes [prepare_present] fail, and the target stays reserved: the
    direct path returns it, this one does not. *)
Definition demo_reconfigured :=
  sk_exec (OpEvent (ConfigureMsg 5 5 800 600 1 1 Normal 60000)) demo_acquired.

Example stale_submit_keeps_reservation :
  let '(st', r) := submit_frame 2 demo_frame demo_target [] demo_reconfigured in
  r = Err (unsubmitted BadParameter)
  ∧ target_phase 7 (demo_channel st') = Held false.
Proof. vm_compute. split; reflexivity. Qed.
