(* ===== verification/Joint.v ===== *)
(** * One task on both sides of the socket

    The Android side of a task ([Composer], [Hwc3], [Bridge]) and the host side
    ([TaskState]) run concurrently and exchange records through two ordered
    queues.  [joint_step] interleaves their operations with every delay the
    queues allow; the theorems say that two peers that follow the code never
    report a protocol error to each other and never lose a buffer between them.

    Assumptions of the interleaving, each a guard of a step: the host's
    configure serials are positive, do not decrease and stay below [2^31] (the
    wrapping case is [TaskState.task_acknowledge_window]); a repeated serial
    keeps its size; format feedback is only extended; a registered buffer stays
    registered; Android renders into buffers the host registered, with at most
    the protocol's number of damage rectangles. *)

From S2P Require Import Prelude Ownership Transport Protocol TaskState.
From S2P Require Import Composer TaskWindows Hwc3 Bridge.

(** ** The two peers *)

Record joint : Type := mkJoint {
  j_host : TaskPresentationState;
  j_binding : DenialTaskBinding;
  j_session : Session;
  j_up : list AndroidMessage;    (* Android to host *)
  j_down : list DenialMessage    (* host to Android *)
}.

(** What [Endpoint.dispatch] does to the task state on these records, apart from
    the kernel calls: the messages sent back, or the error that ends the
    connection. *)
Definition host_receive (msg : AndroidMessage) : task_method (list DenialMessage) :=
  match msg with
  | AckConfigure _ serial => acknowledge_configure serial;; mret []
  | Present o f buf serial ap rp damage =>
      λ h, match present o f buf serial ap rp damage h with
           | (h', Err (StaleConfigure _ _)) =>
               (released ← discard_superseded_present o f buf serial ap rp; mret [released]) h'
           | (h', Err e) => (h', Err e)
           | (h', Ok _) => (h', Ok [])
           end
  | _ => mret []
  end.

(** Android's direct submission, as its sink composes the modelled calls:
    [submit_rendered_target], then [prepare_present] and the send, with both
    allocations rolled back when the record does not leave.  [sent] is the
    outcome of importing the fence and of the send; the sink's own table of
    render targets is the guard of [js_android_submit]. *)
Inductive sink_error : Type := SinkBridge (e : DenialBridgeError) | SinkSend.

Definition sink_method := method (DenialTaskBinding * Session) sink_error.

Definition android_send (display : DisplayId) (frame : AcceptedFrame) (sent : bool)
  : sink_method (list AndroidMessage) :=
  λ st, match on_binding (prepare_present display frame) st with
        | (st', Err e) => (st', Err (SinkBridge e))
        | (st', Ok p) =>
            if sent then (st', Ok [pp_message p])
            else ((on_binding (cancel_unsubmitted_present (af_frame_id frame)
                                 (pp_release_point p)) st').1, Err SinkSend)
        end.

Definition android_submit (display : DisplayId) (target : ClientTarget)
    (sent : bool) : sink_method (list AndroidMessage) :=
  λ st, match on_composer (submit_rendered_target display target) st with
        | (st', Err e) => (st', Err (SinkBridge e))
        | (st', Ok frame) =>
            match android_send display frame sent st' with
            | (st'', Ok msgs) => (st'', Ok msgs)
            | (st'', Err e) =>
                ((on_composer (cancel_unsubmitted_target (af_frame_id frame)) st'').1, Err e)
            end
        end.

Definition sent_messages {E A} (r : result E (list A)) : list A :=
  match r with Ok l => l | Err _ => [] end.

Definition cur_serial (h : TaskPresentationState) : Z :=
  match configured h with Some (n, _, _) => n | None => 0 end.

(** A configure the host may issue next. *)
Definition serial_follows (n width height : Z) (h : TaskPresentationState) : Prop :=
  0 < n < 2147483648 ∧
  match configured h with
  | Some (m, w, hh) => m < n ∨ n = m ∧ width = w ∧ height = hh
  | None => True
  end.

(** Composer calls of the display service that leave the presentation stream
    alone: layers, validation, power, vertical sync, direct presents. *)
Definition display_local (op : co_op) : bool :=
  match op with
  | CoPower _ _ | CoVsync _ _ | CoSample _ | CoCreateLayer _ _ | CoUpdateLayer _ _
  | CoDestroyLayer _ _ | CoValidate _ | CoAccept _ | CoSetTarget _ _ | CoPresentDirect _ => true
  | _ => false
  end.

Inductive joint_step : joint → joint → Prop :=
| js_host_feedback h h' b s up down g fs u :
    replace_feedback g fs h = (h', Ok u) → feedback h ⊆ list_to_set fs →
    joint_step (mkJoint h b s up down)
      (mkJoint h' b s up (down ++ [FormatFeedback (object h) g fs]))
| js_host_configure h h' b s up down n w hh sn sd t r u :
    configure n w hh r h = (h', Ok u) → serial_follows n w hh h →
    joint_step (mkJoint h b s up down)
      (mkJoint h' b s up (down ++ [ConfigureMsg (object h) n w hh sn sd t r]))
| js_host_register h h' b s up down m u :
    register_buffer m h = (h', Ok u) →
    joint_step (mkJoint h b s up down) (mkJoint h' b s up down)
| js_host_release h h' b s up down f buf rp msg :
    release f buf rp h = (h', Ok msg) →
    joint_step (mkJoint h b s up down) (mkJoint h' b s up (down ++ [msg]))
| js_host_receive h h' b s msg up down r :
    host_receive msg h = (h', r) →
    joint_step (mkJoint h b s (msg :: up) down) (mkJoint h' b s up (down ++ sent_messages r))
| js_android_receive h b b' s s' up msg down r :
    apply_event msg (b, s) = ((b', s'), r) →
    joint_step (mkJoint h b s up (msg :: down)) (mkJoint h b' s' up down)
| js_android_acknowledge h b b' s s' up down n r :
    bridge_acknowledge_configure n (b, s) = ((b', s'), r) →
    joint_step (mkJoint h b s up down)
      (mkJoint h b' s' (up ++ sent_messages (msg ← r; mret [msg])) down)
| js_android_submit h b b' s s' up down target sent r :
    buffers h !! b_id (ct_buffer target) = Some (ct_buffer target) →
    zlen (ct_damage target) ≤ MAX_DAMAGE_RECTS →
    android_submit (bd_display b) target sent (b, s) = ((b', s'), r) →
    joint_step (mkJoint h b s up down) (mkJoint h b' s' (up ++ sent_messages r) down)
| js_android_display h b s up down op :
    display_local op = true →
    joint_step (mkJoint h b s up down)
      (mkJoint h b (ss_run (SsTable (TwDisplay (bd_display b) op)) s) up down).

(** A new task object on the host, its timelines bound, and a new binding for a
    display that never presented. *)
Record joint_initial (J : joint) : Prop := {
  jn_host : ∃ obj h0 u, task_new obj = Ok h0 ∧ bind_timelines h0 = (j_host J, Ok u)
    ∧ ∃ r, binding_new obj r = Ok (j_binding J);
  jn_table : tw_inv (ss_windows (j_session J));
  jn_window : ∃ w, windows (ss_windows (j_session J)) !! bd_display (j_binding J) = Some w
    ∧ co_transport (tw_composer w) = ps_default;
  jn_up : j_up J = [];
  jn_down : j_down J = []
}.

(** ** Frames between the peers *)

(** A frame with its buffer and its release point. *)
Abbreviation flight := (Z * (Z * Z))%type (only parsing).

Definition up_frame (msg : AndroidMessage) : option flight :=
  match msg with Present _ f buf _ _ rp _ => Some (f, (buf, rp)) | _ => None end.
Definition down_frame (msg : DenialMessage) : option flight :=
  match msg with BufferReleased _ f buf rp => Some (f, (buf, rp)) | _ => None end.
Definition host_frame (e : Z * PendingWireFrame) : flight :=
  (e.1, (pw_buffer e.2, pw_release_point e.2)).

(** Sent and not yet received, held by the host, or released and not yet
    received. *)
Definition outstanding (up : list AndroidMessage) (h : TaskPresentationState)
    (down : list DenialMessage) : list flight :=
  omap up_frame up ++ map host_frame (map_to_list (in_flight h)) ++ omap down_frame down.

(** Android's two tables hold exactly the outstanding frames, each once. *)
Record frames_ok (out : list flight) (fl pend : gmap Z Z) : Prop := {
  fo_nodup : NoDup out.*1;
  fo_exact f buf p : (f, (buf, p)) ∈ out ↔ fl !! f = Some buf ∧ pend !! f = Some p;
  fo_paired f : is_Some (fl !! f) ↔ is_Some (pend !! f)
}.

Lemma frames_ok_perm out out' fl pend :
  out ≡ₚ out' → frames_ok out fl pend → frames_ok out' fl pend.
Proof.
  intros Hp [Hn He Hd]. split; [by rewrite <- Hp | | done].
  intros f buf p. by rewrite <- Hp.
Qed.

Lemma frames_ok_add f buf p out fl pend :
  frames_ok out fl pend → fl !! f = None →
  frames_ok ((f, (buf, p)) :: out) (<[f := buf]> fl) (<[f := p]> pend).
Proof.
  intros [Hn He Hd] Hf.
  assert (∀ buf' p', (f, (buf', p')) ∉ out) as Hnew.
  { intros buf' p' [H _]%He. congruence. }
  split.
  - cbn. apply NoDup_cons. split; [|done]. intros ([f' [buf' p']] & Heq & H)%list_elem_of_fmap.
    cbn in Heq. subst f'. by eapply Hnew.
  - intros f' buf' p'. rewrite elem_of_cons, He, !lookup_insert.
    destruct (decide (f = f')) as [<-|Hne].
    + split.
      * intros [[= -> ->]|[H _]]; [done | congruence].
      * intros [[= ->] [= ->]]. by left.
    + split; [intros [[= ? ? ?]|?]; congruence || done | by right].
  - intros f'. rewrite !lookup_insert_is_Some'. specialize (Hd f'). tauto.
Qed.

Lemma frames_ok_remove f buf p out fl pend :
  frames_ok ((f, (buf, p)) :: out) fl pend → frames_ok out (delete f fl) (delete f pend).
Proof.
  intros [Hn He Hd]. cbn in Hn. apply NoDup_cons in Hn as [Hf Hn].
  assert (∀ f' buf' p', (f', (buf', p')) ∈ out → f ≠ f') as Hother.
  { intros f' buf' p' H ->. apply Hf, list_elem_of_fmap. by exists (f', (buf', p')). }
  split; [done| |].
  - intros f' buf' p'. rewrite !lookup_delete_Some.
    specialize (He f' buf' p'). rewrite elem_of_cons in He. split.
    + intros H. pose proof (Hother _ _ _ H). tauto.
    + intros [[Hne ?] [_ ?]]. destruct (proj2 He) as [[= ? ? ?]|?]; done || congruence.
  - intros f'. rewrite !lookup_delete_is_Some. specialize (Hd f'). tauto.
Qed.

(** ** What is in the queues *)

Definition acked (h : TaskPresentationState) : bool :=
  bool_decide (acknowledged_serial h = Some (cur_serial h)).

(** The host will accept the frame, its own accounting apart. *)
Definition acceptable (h : TaskPresentationState) (buf : BufferId) (d : list Damage) : Prop :=
  ∃ n w hh m, configured h = Some (n, w, hh) ∧ buffers h !! buf = Some m
  ∧ b_width m = w ∧ b_height m = hh ∧ b_format m ∈ feedback h ∧ Forall (damage_inside w hh) d.

(** Serials do not exceed the host's, a present of the current serial comes
    after its acknowledgement, and points grow from the host's cursor to the
    binding's. *)
Fixpoint up_ok (h : TaskPresentationState) (a : bool) (last next : Z) (up : list AndroidMessage)
  : Prop :=
  match up with
  | [] => last ≤ next
  | AckConfigure o n :: up =>
      o = object h ∧ 0 < n ≤ cur_serial h ∧ up_ok h (a || (n =? cur_serial h)) last next up
  | Present o f buf n ap rp d :: up =>
      o = object h ∧ 0 < n ≤ cur_serial h ∧ ap = rp ∧ last < rp ∧ zlen d ≤ MAX_DAMAGE_RECTS
      ∧ (n = cur_serial h → a = true ∧ acceptable h buf d) ∧ up_ok h a rp next up
  | _ => False
  end.

Definition configure_known (h : TaskPresentationState) (n w hh : Z) : Prop :=
  0 < n ≤ cur_serial h ∧ (n = cur_serial h → configured h = Some (n, w, hh)).

Definition down_ok (h : TaskPresentationState) (msg : DenialMessage) : Prop :=
  match msg with
  | FormatFeedback o _ fs => o = object h ∧ list_to_set fs ⊆ feedback h
  | ConfigureMsg o n w hh _ _ _ _ => o = object h ∧ configure_known h n w hh
  | BufferReleased o _ _ _ => o = object h
  | _ => False
  end.

Record android_ok (h : TaskPresentationState) (b : DenialTaskBinding) (up : list AndroidMessage)
    (p : PresentationState) : Prop := {
  ao_feedback : ps_feedback p ⊆ feedback h;
  ao_latest cfg : ps_latest_configure p = Some cfg →
    configure_known h (c_serial cfg) (c_width cfg) (c_height cfg);
  ao_ack n : acknowledged_configure b = Some n →
    c_serial <$> ps_latest_configure p = Some n
    ∧ (n = cur_serial h → acked h = true ∨ AckConfigure (object h) n ∈ up)
}.

Record joint_inv (J : joint) : Prop := {
  ji_host : task_inv (j_host J);
  ji_bound : timelines_bound (j_host J) = true;
  ji_object : object (j_host J) = bd_object (j_binding J);
  ji_cursor : last_acquire_point (j_host J) = last_release_point (j_host J);
  ji_serial : cur_serial (j_host J) < 2147483648;
  ji_binding : bd_inv (j_binding J);
  ji_table : tw_inv (ss_windows (j_session J));
  ji_android : ∃ w, windows (ss_windows (j_session J)) !! bd_display (j_binding J) = Some w
    ∧ android_ok (j_host J) (j_binding J) (j_up J) (co_transport (tw_composer w))
    ∧ frames_ok (outstanding (j_up J) (j_host J) (j_down J)) (flights (tw_composer w))
        (pending_release_points (j_binding J));
  ji_up : up_ok (j_host J) (acked (j_host J)) (last_release_point (j_host J))
            (next_timeline_point (j_binding J)) (j_up J);
  ji_down : Forall (down_ok (j_host J)) (j_down J)
}.

(** ** The host moves on *)

(** Nothing Android relies on was withdrawn. *)
Record host_le (h h' : TaskPresentationState) : Prop := {
  hl_object : object h' = object h;
  hl_configured : configured h' = configured h;
  hl_acked : acked h = true → acked h' = true;
  hl_feedback : feedback h ⊆ feedback h';
  hl_buffers b m : buffers h !! b = Some m → buffers h' !! b = Some m
}.

Lemma host_le_serial h h' : host_le h h' → cur_serial h' = cur_serial h.
Proof. intros []. unfold cur_serial. by rewrite hl_configured0. Qed.

Lemma acceptable_le h h' buf d : host_le h h' → acceptable h buf d → acceptable h' buf d.
Proof.
  intros [] (n & w & hh & m & Hc & Hb & ? & ? & Hf & Hd). exists n, w, hh, m.
  rewrite hl_configured0. split_and!; auto.
Qed.

Lemma up_ok_le h h' a a' last next next' up :
  host_le h h' → (a = true → a' = true) → next ≤ next' →
  up_ok h a last next up → up_ok h' a' last next' up.
Proof.
  intros Hle. revert a a' last. induction up as [|msg up IH]; intros a a' last Ha Hn; cbn; [lia|].
  pose proof (hl_object _ _ Hle) as Ho. pose proof (host_le_serial _ _ Hle) as Hs.
  destruct msg; try done; rewrite Ho, Hs.
  - intros (? & ? & H). split_and!; try done; try lia. eapply IH; [|exact Hn|exact H].
    intros [Ht|Ht]%Bool.orb_true_iff; apply Bool.orb_true_iff; auto.
  - intros (? & ? & ? & ? & ? & Hacc & H). split_and!; try done; try lia; [|by eapply IH].
    intros Heq. destruct (Hacc Heq). eauto using acceptable_le.
Qed.

Lemma configure_known_le h h' n w hh :
  host_le h h' → configure_known h n w hh → configure_known h' n w hh.
Proof.
  intros Hle. unfold configure_known. by rewrite (host_le_serial _ _ Hle), (hl_configured _ _ Hle).
Qed.

Lemma down_ok_le h h' msg : host_le h h' → down_ok h msg → down_ok h' msg.
Proof.
  intros Hle. pose proof (hl_object _ _ Hle) as Ho. pose proof (hl_feedback _ _ Hle).
  destruct msg; cbn; rewrite ?Ho; try done.
  - intros [? ?]. split; [done|]. by transitivity (feedback h).
  - intros [? ?]. eauto using configure_known_le.
Qed.

Lemma android_ok_le h h' b up p : host_le h h' → android_ok h b up p → android_ok h' b up p.
Proof.
  intros Hle [Hf Hl Ha]. split.
  - transitivity (feedback h); [done | by apply hl_feedback].
  - eauto using configure_known_le.
  - intros n Hn. destruct (Ha n Hn) as [? Hk]. split; [done|].
    rewrite (host_le_serial _ _ Hle), (hl_object _ _ Hle). intros Heq.
    destruct (Hk Heq); [left; by apply (hl_acked _ _ Hle) | by right].
Qed.

(** A host step that withdraws nothing: the outstanding frames move between
    the queues and the host's table, and acknowledgements are consumed. *)
Lemma joint_host_move h h' b s up up' down msgs :
  joint_inv (mkJoint h b s up down) → host_le h h' → task_inv h' →
  timelines_bound h' = timelines_bound h → last_acquire_point h' = last_release_point h' →
  outstanding up h down ≡ₚ outstanding up' h' (down ++ msgs) →
  (AckConfigure (object h) (cur_serial h) ∈ up →
   acked h' = true ∨ AckConfigure (object h) (cur_serial h) ∈ up') →
  up_ok h' (acked h') (last_release_point h') (next_timeline_point b) up' →
  Forall (down_ok h') msgs →
  joint_inv (mkJoint h' b s up' (down ++ msgs)).
Proof.
  intros [] Hle Hh Hb Hcur Hout Hack Hup Hm; cbn in *.
  destruct ji_android0 as (w & Hw & [Hf Hl Ha] & Hfr).
  split; cbn; rewrite ?Hb; try done.
  - by rewrite (hl_object _ _ Hle).
  - by rewrite (host_le_serial _ _ Hle).
  - exists w. split_and!; [done | | by eapply frames_ok_perm].
    split; [transitivity (feedback h); [done | apply Hle] | eauto using configure_known_le |].
    intros n Hn. destruct (Ha n Hn) as [? Hk]. split; [done|].
    rewrite (host_le_serial _ _ Hle), (hl_object _ _ Hle). intros ->.
    destruct (Hk eq_refl); [left; by apply Hle | by apply Hack].
  - apply Forall_app. split; [|done]. eapply Forall_impl; [done|]. eauto using down_ok_le.
Qed.

(** The host changed nothing Android relies on, and sent no release. *)
Lemma joint_host_update h h' b s up down msgs :
  joint_inv (mkJoint h b s up down) → host_le h h' → task_inv h' →
  timelines_bound h' = timelines_bound h → last_acquire_point h' = last_acquire_point h →
  last_release_point h' = last_release_point h → in_flight h' = in_flight h →
  Forall (down_ok h') msgs → omap down_frame msgs = [] →
  joint_inv (mkJoint h' b s up (down ++ msgs)).
Proof.
  intros HJ Hle Hh Hb Ha Hr Hi Hm Hmsgs. eapply joint_host_move; try done; [| | auto |].
  - rewrite Ha, Hr. apply (ji_cursor _ HJ).
  - unfold outstanding. by rewrite Hi, omap_app, Hmsgs, app_nil_r.
  - rewrite Hr. eapply up_ok_le; [done | apply Hle | | apply (ji_up _ HJ)]. cbn. lia.
Qed.

Lemma joint_register h h' b s up down m u :
  joint_inv (mkJoint h b s up down) → register_buffer m h = (h', Ok u) →
  joint_inv (mkJoint h' b s up down).
Proof.
  intros HJ (Hi & Hn & Hs & ->)%register_iff. rewrite <- (app_nil_r down).
  eapply joint_host_update; try done.
  - split; try done. cbn. intros b' m' Hb'. rewrite lookup_insert_ne; [done | congruence].
  - apply registered_inv; try done. apply (ji_host _ HJ).
Qed.

Lemma joint_feedback h h' b s up down g fs u :
  joint_inv (mkJoint h b s up down) → replace_feedback g fs h = (h', Ok u) →
  feedback h ⊆ list_to_set fs →
  joint_inv (mkJoint h' b s up (down ++ [FormatFeedback (object h) g fs])).
Proof.
  intros HJ H Hsub. pose proof (feedback_inv _ _ _ _ _ (ji_host _ HJ) H) as Hinv.
  apply replace_feedback_Ok in H as (_ & _ & _ & _ & ->).
  eapply joint_host_update; try done. by constructor; [cbn | constructor].
Qed.

(** A new serial makes everything in flight stale. *)
Lemma up_ok_newer h h' a a' last next up :
  object h' = object h → cur_serial h < cur_serial h' →
  up_ok h a last next up → up_ok h' a' last next up.
Proof.
  intros Ho Hs. revert a a' last. induction up as [|msg up IH]; intros a a' last; cbn; [done|].
  destruct msg; try done; rewrite Ho.
  - intros (? & ? & H). split_and!; try done; try lia. by eapply IH.
  - intros (? & ? & ? & ? & ? & Hacc & H). split_and!; try done; try lia. by eapply IH.
Qed.

Lemma configure_known_newer h h' n w hh :
  cur_serial h < cur_serial h' → configure_known h n w hh → configure_known h' n w hh.
Proof. intros Hs [? ?]. split; lia. Qed.

Lemma cur_serial_nonneg h : task_inv h → configured h = None ∨ cur_serial h ≠ 0.
Proof.
  intros Hh. unfold cur_serial. destruct (configured h) as [[[n w] hh]|] eqn:E; [|by left].
  right. by destruct (ti_configured _ Hh _ _ _ E).
Qed.

Lemma joint_configure h h' b s up down n w hh sn sd t r u :
  joint_inv (mkJoint h b s up down) → configure n w hh r h = (h', Ok u) →
  serial_follows n w hh h →
  joint_inv (mkJoint h' b s up (down ++ [ConfigureMsg (object h) n w hh sn sd t r])).
Proof.
  intros HJ H [Hn Hfol]. pose proof (configure_inv _ _ _ _ _ _ _ (ji_host _ HJ) H) as Hinv.
  apply configure_Ok in H as [_ ->]. set (h' := set_configure _ _ h) in *.
  assert (configured h' = Some (n, w, hh)) as Hc by done.
  assert (cur_serial h' = n) as Hcur by done.
  assert (down_ok h' (ConfigureMsg (object h) n w hh sn sd t r)) as Hmsg.
  { cbn. split; [done|]. split; [lia | done]. }
  destruct (decide (configured h = Some (n, w, hh))) as [Hsame|Hdiff].
  - eapply joint_host_update; try done; [|by constructor].
    split; try done. unfold acked, cur_serial. rewrite Hc, Hsame. unfold h'. cbn.
    by rewrite Hsame, decide_True.
  - assert (cur_serial h < n) as Hlt.
    { unfold cur_serial. destruct (configured h) as [[[m w0] h0]|]; [|lia].
      destruct Hfol as [|(-> & -> & ->)]; [done|]. done. }
    destruct HJ; cbn [j_host j_binding j_session j_up j_down] in *.
    destruct ji_android0 as (wd & Hw & [Hf Hl Ha] & Hfr).
    split; cbn [j_host j_binding j_session j_up j_down]; try done; try lia.
    + exists wd. split; [done|]. split; [split; try done|].
      * intros cfg Hcfg. apply (configure_known_newer h); [lia | by apply Hl].
      * intros k Hk. destruct (Ha k Hk) as [Hlat _]. split; [done|]. intros Hk'.
        apply fmap_Some in Hlat as (cfg & Hcfg & Hser). destruct (Hl cfg Hcfg) as [? _].
        lia.
      * unfold outstanding in *. by rewrite omap_app, app_nil_r.
    + eapply up_ok_newer; [| |exact ji_up0]; [done | lia].
    + apply Forall_app. split; [|by constructor].
      eapply Forall_impl; [exact ji_down0|]. intros msg. destruct msg; cbn; try done.
      intros [? ?]. split; [done|]. apply (configure_known_newer h); [lia | done].
Qed.

(** ** Releases and received records *)

Lemma host_frames_insert f buf rp (m : gmap Z PendingWireFrame) :
  m !! f = None →
  map host_frame (map_to_list (<[f := mkPending buf rp]> m))
  ≡ₚ (f, (buf, rp)) :: map host_frame (map_to_list m).
Proof. intros Hf. by rewrite (map_to_list_insert m f _ Hf). Qed.

Lemma host_frames_delete f buf rp (m : gmap Z PendingWireFrame) :
  m !! f = Some (mkPending buf rp) →
  (f, (buf, rp)) :: map host_frame (map_to_list (delete f m)) ≡ₚ map host_frame (map_to_list m).
Proof. intros Hf. by rewrite <- (map_to_list_delete m f _ Hf). Qed.

Lemma joint_release h h' b s up down f buf rp msg :
  joint_inv (mkJoint h b s up down) → release f buf rp h = (h', Ok msg) →
  joint_inv (mkJoint h' b s up (down ++ [msg])).
Proof.
  intros HJ (Hf & -> & ->)%release_iff. eapply joint_host_move; try done; auto.
  - eapply retired_inv; [apply (ji_host _ HJ) | done].
  - apply (ji_cursor _ HJ).
  - unfold outstanding. rewrite omap_app. cbn [omap list_omap down_frame].
    rewrite <- (host_frames_delete f buf rp (in_flight h) Hf). cbn [in_flight retired set_frames].
    apply Permutation_app_head. rewrite app_assoc. apply Permutation_cons_append.
  - eapply (up_ok_le h); [by split | done | reflexivity | apply (ji_up _ HJ)].
  - by constructor.
Qed.

Lemma frame_not_held f buf rp h up down fl pend :
  frames_ok ((f, (buf, rp)) :: outstanding up h down) fl pend → in_flight h !! f = None.
Proof.
  intros [Hn _ _]. apply eq_None_not_Some. intros [p Hp]. cbn in Hn.
  apply NoDup_cons in Hn as [Hf _]. apply Hf, list_elem_of_fmap.
  exists (f, (pw_buffer p, pw_release_point p)). split; [done|]. unfold outstanding.
  apply elem_of_app. right. apply elem_of_app. left. apply list_elem_of_fmap.
  exists (f, p). split; [done|]. by apply elem_of_map_to_list.
Qed.

(** A frame in the queue names a buffer the host does not hold: Android's own
    table gives every buffer one owner. *)
Lemma buffer_not_busy f buf rp h up down p pend :
  task_inv h → ps_inv p →
  frames_ok ((f, (buf, rp)) :: outstanding up h down) (ps_in_flight p) pend →
  buf ∉ busy_buffers h.
Proof.
  intros Hh Hp Hfr (f' & q & Hq & Hbuf)%(ti_busy _ Hh).
  pose proof (frame_not_held _ _ _ _ _ _ _ _ Hfr) as Hnone.
  destruct (proj1 (fo_exact _ _ _ Hfr f buf rp)) as [H1 _]; [by constructor|].
  destruct (proj1 (fo_exact _ _ _ Hfr f' buf (pw_release_point q))) as [H2 _].
  { right. unfold outstanding. apply elem_of_app. right. apply elem_of_app. left.
    apply list_elem_of_fmap. exists (f', q). unfold host_frame; cbn. rewrite Hbuf.
    split; [done|]. by apply elem_of_map_to_list. }
  assert (f = f') as -> by (by eapply (ps_exclusive _ Hp)). congruence.
Qed.

Lemma serial_precedes_below n m : 0 < n < m → m < 2147483648 → serial_precedes n m = true.
Proof.
  intros Hn Hm. rewrite <- (Z.mod_small n 4294967296), <- (Z.mod_small m 4294967296) by lia.
  apply serial_precedes_window; lia.
Qed.

Lemma acked_recorded h n w hh :
  configured h = Some (n, w, hh) → acked h = true → acknowledged_serial h = Some n.
Proof. intros Hc. unfold acked, cur_serial. rewrite Hc. apply bool_decide_eq_true. Qed.

Lemma cur_serial_configured h :
  0 < cur_serial h → ∃ w hh, configured h = Some (cur_serial h, w, hh).
Proof. unfold cur_serial. destruct (configured h) as [[[n w] hh]|]; [eauto | lia]. Qed.

Lemma host_receive_ack h n :
  0 < n ≤ cur_serial h → cur_serial h < 2147483648 →
  acknowledge_configure n h =
  (if n =? cur_serial h then set_configure (configured h) (Some n) h else h, Ok tt).
Proof.
  intros Hn Hc. destruct (cur_serial_configured h) as (w & hh & Hcfg); [lia|].
  unfold acknowledge_configure, mbind, method_bind, get, lift. rewrite Hcfg; cbn [ok_or fst].
  destruct (Z.eqb_spec n (cur_serial h)) as [->|Hne]; [done|].
  by rewrite serial_precedes_below by lia.
Qed.

Lemma host_receive_current h o f buf ap d :
  o = object h → timelines_bound h = true → last_acquire_point h = last_release_point h →
  last_release_point h < ap → zlen d ≤ MAX_DAMAGE_RECTS → acked h = true → acceptable h buf d →
  buf ∉ busy_buffers h → in_flight h !! f = None →
  presentable o f buf (cur_serial h) ap ap d h.
Proof.
  intros Ho Hb Hcur Hap Hd Hack (n & w & hh & m & Hc & Hm & Hw & Hh & Hf & Hdmg) Hbusy Hfree.
  assert (cur_serial h = n) as -> by (unfold cur_serial; by rewrite Hc).
  split; try done; try lia; [eauto 10|]. by eapply acked_recorded.
Qed.

Lemma joint_receive_ack h b s o n up down :
  joint_inv (mkJoint h b s (AckConfigure o n :: up) down) →
  ∃ h', host_receive (AckConfigure o n) h = (h', Ok [])
        ∧ joint_inv (mkJoint h' b s up (down ++ [])).
Proof.
  intros HJ. pose proof (ji_up _ HJ) as (-> & Hn & Hup). pose proof (ji_serial _ HJ) as Hs.
  cbn in Hs, Hn, Hup. cbn [host_receive]. unfold mbind, method_bind.
  pose proof (host_receive_ack h n Hn Hs) as Hack. rewrite Hack. eexists. split; [done|].
  pose proof (acknowledge_inv _ _ _ _ (ji_host _ HJ) Hack) as Hinv.
  destruct (Z.eqb_spec n (cur_serial h)) as [->|Hne].
  - assert (host_le h (set_configure (configured h) (Some (cur_serial h)) h)) as Hle.
    { split; try done. intros _. apply bool_decide_eq_true. done. }
    eapply joint_host_move; try done; [apply (ji_cursor _ HJ)|..].
    + unfold outstanding. cbn. by rewrite app_nil_r.
    + intros _. left. by apply bool_decide_eq_true.
    + eapply up_ok_le; [done | | reflexivity | exact Hup].
      intros _. by apply bool_decide_eq_true.
  - eapply joint_host_move; try done; [apply (ji_cursor _ HJ)|..].
    + unfold outstanding. cbn. by rewrite app_nil_r.
    + intros [[= <-]|?]%elem_of_cons; [done | by right].
    + cbn. by rewrite Bool.orb_false_r in Hup.
Qed.

Lemma joint_receive_present h b s o f buf n ap rp d up down :
  joint_inv (mkJoint h b s (Present o f buf n ap rp d :: up) down) →
  ∃ h' r, host_receive (Present o f buf n ap rp d) h = (h', Ok r)
          ∧ joint_inv (mkJoint h' b s up (down ++ r)).
Proof.
  intros HJ. pose proof (ji_up _ HJ) as (Ho & Hn & Hap & Hlast & Hd & Hacc & Hup).
  pose proof (ji_android _ HJ) as (w & Hw & _ & Hfr). pose proof (ji_cursor _ HJ) as Hcur.
  pose proof (ji_serial _ HJ) as Hs. pose proof (ji_host _ HJ) as Hh.
  pose proof (ji_bound _ HJ) as Hb. cbn in Ho, Hn, Hlast, Hacc, Hup, Hw, Hfr, Hcur, Hs, Hh, Hb.
  subst o ap.
  pose proof (frame_not_held _ _ _ _ _ _ _ _ Hfr) as Hfree.
  assert (buf ∉ busy_buffers h) as Hbusy.
  { eapply buffer_not_busy; [done | | exact Hfr].
    apply co_stream, (wi_composer _ _ (ti_windows _ (ji_table _ HJ) _ _ Hw)). }
  destruct (cur_serial_configured h) as (cw & ch & Hcfg); [lia|]. cbn [host_receive].
  destruct (decide (n = cur_serial h)) as [->|Hne].
  - destruct (Hacc eq_refl) as [Hack Hok].
    pose proof (host_receive_current h (object h) f buf rp d eq_refl Hb Hcur Hlast Hd Hack Hok
                  Hbusy Hfree) as Hp.
    rewrite (present_accepts _ _ _ _ _ _ _ _ Hp). do 2 eexists. split; [done|].
    eapply joint_host_move; try done.
    + by eapply presented_inv.
    + unfold outstanding. cbn [omap list_omap up_frame in_flight presented set_frames set_points app].
      rewrite (host_frames_insert f buf rp _ Hfree), app_nil_r. apply Permutation_middle.
    + intros [?|?]%elem_of_cons; [done | by right].
    + eapply (up_ok_le h _ (acked h)); [by split | done | reflexivity | exact Hup].
  - assert (present (object h) f buf n rp rp d h = (h, Err (StaleConfigure (cur_serial h) n))) as ->.
    { unfold present, mbind, method_bind.
      rewrite (proj2 (require_object_Ok (object h) h h tt)) by done.
      unfold get, reject, lift. rewrite Hb, Hcfg; cbn [negb ok_or].
      by rewrite (proj2 (Z.eqb_neq _ _) Hne). }
    unfold mbind at 1, method_bind at 1.
    assert (discardable (object h) f buf n rp rp h) as Hdisc.
    { split; try done; try lia. eexists _, _, _. split; [exact Hcfg|].
      apply serial_precedes_below; lia. }
    rewrite (proj2 (discard_iff _ _ _ _ _ _ _ _ _) (conj Hdisc (conj eq_refl eq_refl))).
    do 2 eexists. split; [done|]. eapply joint_host_move; try done.
    + apply set_points_inv; [done | lia | done].
    + unfold outstanding. rewrite omap_app. cbn [omap list_omap up_frame down_frame in_flight set_points app].
      rewrite !app_assoc. apply Permutation_cons_append.
    + intros [?|?]%elem_of_cons; [done | by right].
    + eapply (up_ok_le h _ (acked h)); [by split | done | reflexivity | exact Hup].
    + by constructor.
Qed.

Lemma joint_receive h b s msg up down h' r :
  joint_inv (mkJoint h b s (msg :: up) down) → host_receive msg h = (h', r) →
  is_ok r = true ∧ joint_inv (mkJoint h' b s up (down ++ sent_messages r)).
Proof.
  intros HJ H. destruct msg; try (exfalso; exact (ji_up _ HJ)).
  - destruct (joint_receive_ack _ _ _ _ _ _ _ HJ) as (h1 & E & HJ'). rewrite E in H.
    by injection H as <- <-.
  - destruct (joint_receive_present _ _ _ _ _ _ _ _ _ _ _ _ HJ) as (h1 & r1 & E & HJ').
    rewrite E in H. by injection H as <- <-.
Qed.

(** ** Android's steps *)

Lemma joint_android_update h b b' s up up' down down' w c' :
  joint_inv (mkJoint h b s up down) → windows (ss_windows s) !! bd_display b = Some w →
  co_inv c' → co_display c' = co_display (tw_composer w) →
  bd_object b' = bd_object b → bd_display b' = bd_display b → bd_inv b' →
  android_ok h b' up' (co_transport c') →
  frames_ok (outstanding up' h down') (flights c') (pending_release_points b') →
  up_ok h (acked h) (last_release_point h) (next_timeline_point b') up' →
  Forall (down_ok h) down' →
  joint_inv (mkJoint h b' (set_composer (bd_display b) w c' s) up' down').
Proof.
  intros [] Hw Hc Hd Ho Hdisp Hb Hok Hfr Hup Hdown; cbn in *.
  split; cbn; try done; [by rewrite Ho | by apply composer_update_inv |].
  eexists. rewrite Hdisp, lookup_insert_eq. by split_and!.
Qed.

Lemma apply_event_task msg b s :
  message_object msg = Some (bd_object b) →
  match msg with
  | FormatFeedback _ g fs => ∀ w, windows (ss_windows s) !! bd_display b = Some w →
      apply_event msg (b, s) =
      ((b, set_composer (bd_display b) w (co_replace_feedback fs (tw_composer w)) s),
       Ok (ApFormatFeedback g))
  | ConfigureMsg _ n wd hh sn sd t r => ∀ w, windows (ss_windows s) !! bd_display b = Some w →
      apply_event msg (b, s) =
      ((set_bd_ack None b,
        set_composer (bd_display b) w (co_configure (mkConfigure n wd hh r) (tw_composer w)) s),
       Ok (ApConfigure n wd hh sn sd t r))
  | BufferReleased _ f buf p => apply_event msg (b, s) = apply_release f buf p (b, s)
  | _ => True
  end.
Proof.
  intros Ho. unfold apply_event, mbind, method_bind, get, lift, reject. rewrite Ho; cbn [ok_or fst].
  rewrite Z.eqb_refl; cbn [negb].
  destruct msg; try done; intros w Hw; by rewrite (on_composer_run _ b s w Hw).
Qed.

Lemma joint_event_feedback h b s o g fs up down :
  joint_inv (mkJoint h b s up (FormatFeedback o g fs :: down)) →
  ∃ st e, apply_event (FormatFeedback o g fs) (b, s) = (st, Ok e)
          ∧ joint_inv (mkJoint h st.1 st.2 up down).
Proof.
  intros HJ. pose proof (ji_android _ HJ) as (w & Hw & [Hf Hl Ha] & Hfr).
  pose proof (ji_down _ HJ) as [[Ho Hfs] Hdown]%Forall_cons. pose proof (ji_object _ HJ) as Hob.
  cbn in Ho, Hfs, Hdown, Hob, Hw, Hfr. subst o.
  do 2 eexists. split.
  { apply (apply_event_task (FormatFeedback (object h) g fs)); [cbn; by rewrite Hob | exact Hw]. }
  pose proof (wi_composer _ _ (ti_windows _ (ji_table _ HJ) _ _ Hw)) as Hc.
  eapply joint_android_update; try done.
  - by apply (co_preserves (CoFeedback fs)).
  - apply (ji_binding _ HJ).
  - apply (ji_up _ HJ).
Qed.

Lemma joint_event_configure h b s o n wd hh sn sd t r up down :
  joint_inv (mkJoint h b s up (ConfigureMsg o n wd hh sn sd t r :: down)) →
  ∃ st e, apply_event (ConfigureMsg o n wd hh sn sd t r) (b, s) = (st, Ok e)
          ∧ joint_inv (mkJoint h st.1 st.2 up down).
Proof.
  intros HJ. pose proof (ji_android _ HJ) as (w & Hw & [Hf Hl Ha] & Hfr).
  pose proof (ji_down _ HJ) as [[Ho Hk] Hdown]%Forall_cons. pose proof (ji_object _ HJ) as Hob.
  cbn in Ho, Hk, Hdown, Hob, Hw, Hfr. subst o.
  do 2 eexists. split.
  { apply (apply_event_task (ConfigureMsg (object h) n wd hh sn sd t r));
      [cbn; by rewrite Hob | exact Hw]. }
  pose proof (wi_composer _ _ (ti_windows _ (ji_table _ HJ) _ _ Hw)) as Hc.
  eapply joint_android_update; try done.
  - by apply (co_preserves (CoConfigure (mkConfigure n wd hh r))).
  - destruct (ji_binding _ HJ). by split.
  - split; try done. by intros cfg [= <-].
  - apply (ji_up _ HJ).
Qed.

Lemma joint_event_release h b s o f buf p up down :
  joint_inv (mkJoint h b s up (BufferReleased o f buf p :: down)) →
  ∃ st e, apply_event (BufferReleased o f buf p) (b, s) = (st, Ok e)
          ∧ joint_inv (mkJoint h st.1 st.2 up down).
Proof.
  intros HJ. pose proof (ji_android _ HJ) as (w & Hw & [Hf Hl Ha] & Hfr).
  pose proof (ji_down _ HJ) as [Ho Hdown]%Forall_cons. pose proof (ji_object _ HJ) as Hob.
  cbn in Ho, Hdown, Hob, Hw, Hfr. subst o.
  assert (frames_ok ((f, (buf, p)) :: outstanding up h down) (flights (tw_composer w))
            (pending_release_points b)) as Hfr'.
  { eapply frames_ok_perm; [|exact Hfr]. unfold outstanding; cbn. by rewrite !app_assoc, <- Permutation_middle. }
  destruct (proj1 (fo_exact _ _ _ Hfr' f buf p)) as [Hfl Hpend]; [by constructor|].
  do 2 eexists. split.
  { rewrite (apply_event_task (BufferReleased (object h) f buf p) b s) by (cbn; by rewrite Hob).
    by apply apply_release_matching. }
  pose proof (wi_composer _ _ (ti_windows _ (ji_table _ HJ) _ _ Hw)) as Hc.
  eapply joint_android_update; try done.
  - eapply (co_retire_inv f buf); [done|]. by apply ps_retire_Ok.
  - apply pending_delete_inv, (ji_binding _ HJ).
  - by eapply frames_ok_remove.
  - apply (ji_up _ HJ).
Qed.

Lemma joint_event h b s msg up down b' s' r :
  joint_inv (mkJoint h b s up (msg :: down)) → apply_event msg (b, s) = ((b', s'), r) →
  is_ok r = true ∧ joint_inv (mkJoint h b' s' up down).
Proof.
  intros HJ H. pose proof (ji_down _ HJ) as [Hmsg _]%Forall_cons.
  destruct msg; try (exfalso; exact Hmsg).
  - destruct (joint_event_feedback _ _ _ _ _ _ _ _ HJ) as (st & e & E & HJ').
    rewrite E in H. by injection H as -> <-.
  - destruct (joint_event_configure _ _ _ _ _ _ _ _ _ _ _ _ _ HJ) as (st & e & E & HJ').
    rewrite E in H. by injection H as -> <-.
  - destruct (joint_event_release _ _ _ _ _ _ _ _ _ HJ) as (st & e & E & HJ').
    rewrite E in H. by injection H as -> <-.
Qed.

Lemma up_ok_ack h a last next up n :
  up_ok h a last next up → 0 < n ≤ cur_serial h →
  up_ok h a last next (up ++ [AckConfigure (object h) n]).
Proof.
  intros H Hn. revert a last H. induction up as [|msg up IH]; intros a last; cbn; [done|].
  destruct msg; try done.
  - intros (? & ? & H). split_and!; try done; try lia. by apply IH.
  - intros (? & ? & ? & ? & ? & ? & H). split_and!; try done; try lia. by apply IH.
Qed.

Lemma up_ok_present h a last next up f buf n d :
  up_ok h a last next up → 0 < n ≤ cur_serial h → zlen d ≤ MAX_DAMAGE_RECTS →
  (n = cur_serial h → (a = true ∨ AckConfigure (object h) n ∈ up) ∧ acceptable h buf d) →
  up_ok h a last (next + 1) (up ++ [Present (object h) f buf n (next + 1) (next + 1) d]).
Proof.
  intros H Hn Hd. revert a last H. induction up as [|msg up IH]; intros a last; cbn.
  - intros Hl Hacc. split_and!; try done; try lia. intros Heq.
    destruct (Hacc Heq) as [[?|H]%or_comm ?]; [by apply not_elem_of_nil in H | done].
  - destruct msg as [| | | | | | | |o m| | |o f' buf' m ap rp d'| | | | | ]; try done.
    + intros (-> & ? & H) Hacc. split_and!; try done; try lia. apply IH; [done|]. intros Heq.
      destruct (Hacc Heq) as [[->|[[= Hm]|?]%elem_of_cons] ?]; split; auto.
      left. apply Bool.orb_true_iff. right. apply Z.eqb_eq. lia.
    + intros (? & ? & ? & ? & ? & ? & H) Hacc. split_and!; try done; try lia. apply IH; [done|].
      intros Heq. destruct (Hacc Heq) as [[?|[?|?]%elem_of_cons] ?]; done || auto.
Qed.

Lemma android_ok_more_up h b up msgs p :
  android_ok h b up p → android_ok h b (up ++ msgs) p.
Proof.
  intros [Hf Hl Ha]. split; try done. intros n Hn. destruct (Ha n Hn) as [? Hk]. split; [done|].
  intros Heq. destruct (Hk Heq); [by left|]. right. apply elem_of_app. by left.
Qed.

Lemma joint_acknowledge h b s up down n b' s' r :
  joint_inv (mkJoint h b s up down) → bridge_acknowledge_configure n (b, s) = ((b', s'), r) →
  joint_inv (mkJoint h b' s' (up ++ sent_messages (msg ← r; mret [msg])) down).
Proof.
  intros HJ. pose proof (ji_android _ HJ) as (w & Hw & Hok & Hfr). cbn in Hw.
  pose proof (wi_composer _ _ (ti_windows _ (ji_table _ HJ) _ _ Hw)) as Hc.
  unfold bridge_acknowledge_configure, mbind at 1, method_bind at 1.
  rewrite (on_composer_run _ b s w Hw).
  pose proof (co_preserves (CoAcknowledge n) _ Hc) as Hpres. unfold co_run, co_exec in Hpres.
  unfold mbind in Hpres at 1. unfold method_bind in Hpres at 1.
  destruct (co_acknowledge_configure n (tw_composer w)) as [c' [u|e]] eqn:E; cbn [fst snd map_err].
  - cbn in Hpres. apply on_transport_Ok in E as (p' & [Hlat ->]%ps_acknowledge_Ok & ->).
    intros [= <- <- <-]. cbn [sent_messages mbind result_bind mret result_ret].
    destruct Hok as [Hf Hl Ha]. apply fmap_Some in Hlat as (cfg & Hcfg & ->).
    destruct (Hl cfg Hcfg) as [Hn Hsize]. pose proof (ji_object _ HJ) as Hob. cbn in Hn, Hob.
    rewrite <- Hob. eapply joint_android_update; try done.
    + destruct (ji_binding _ HJ). by split.
    + split; try done. intros k [= <-]. cbn. rewrite Hcfg. split; [done|].
      intros _. right. apply elem_of_app. right. by constructor.
    + unfold outstanding in *. cbn in Hfr. rewrite omap_app. by cbn [omap list_omap up_frame app]; rewrite app_nil_r.
    + apply up_ok_ack; [apply (ji_up _ HJ) | done].
    + apply (ji_down _ HJ).
  - apply on_transport_fail_safe in E as ->; [|apply _].
    rewrite set_composer_same by done. intros [= <- <- <-]. cbn. by rewrite app_nil_r.
Qed.

Lemma set_composer_twice d w c1 c2 s :
  set_composer d (mkWindow (tw_reservation w) (tw_spec w) c1) c2 (set_composer d w c1 s)
  = set_composer d w c2 s.
Proof. unfold set_composer; cbn. by rewrite insert_insert_eq. Qed.

(** The target a failed submission takes back. *)
Definition taken_back (m : BufferMetadata) (p : PresentationState) : PresentationState :=
  mkPS (ps_feedback p) (ps_latest_configure p) (ps_acknowledged_serial p)
    (delete (ps_next_frame_id p + 1) (<[ps_next_frame_id p + 1 := b_id m]> (ps_in_flight p)))
    (({[b_id m]} ∪ ps_busy_buffers p) ∖ {[b_id m]}) (ps_next_frame_id p + 1).

Lemma cancel_submitted b s w m :
  windows (ss_windows s) !! bd_display b = Some w →
  let p := co_transport (tw_composer w) in
  on_composer (cancel_unsubmitted_target (ps_next_frame_id p + 1))
    (b, set_composer (bd_display b) w (set_transport (ps_submitted m p) (tw_composer w)) s)
  = ((b, set_composer (bd_display b) w (set_transport (taken_back m p) (tw_composer w)) s),
     Ok (b_id m)).
Proof.
  intros Hw p. erewrite on_composer_run by apply lookup_insert_eq. rewrite set_composer_twice.
  unfold cancel_unsubmitted_target, on_transport, ps_cancel_unsubmitted.
  rewrite (proj2 (ps_retire_Ok (ps_next_frame_id p + 1) _ (taken_back m p) (b_id m))); [done|].
  split; [apply lookup_insert_eq | done].
Qed.

Lemma taken_back_ok b m d fence c :
  co_inv c → ps_submittable m d fence (co_transport c) →
  let c' := set_transport (taken_back m (co_transport c)) c in
  co_inv c' ∧ flights c' = flights c ∧ ps_inv (co_transport c) ∧
  ∀ h up, android_ok h b up (co_transport c) → android_ok h b up (co_transport c').
Proof.
  intros Hc Hs c'. split_and!.
  - refine (co_retire_inv (ps_next_frame_id (co_transport c) + 1) (b_id m) _ (taken_back m (co_transport c)) (co_submit_inv _ _ _ _ Hc Hs) _).
    apply ps_retire_Ok. split; [apply lookup_insert_eq | done].
  - unfold flights, c'; cbn. apply delete_insert_id.
    apply eq_None_not_Some. intros [buf Hf]. apply (ps_frames_issued _ (co_stream _ Hc)) in Hf. lia.
  - by apply co_stream.
  - intros h up []. by split.
Qed.

(** A submission either leaves as one record, or leaves nothing behind but the
    numbers it used up. *)
Lemma submit_outcomes b s w target sent b' s' r :
  windows (ss_windows s) !! bd_display b = Some w →
  android_submit (bd_display b) target sent (b, s) = ((b', s'), r) →
  let p := co_transport (tw_composer w) in
  let f := ps_next_frame_id p + 1 in
  (b' = b ∧ s' = s ∧ sent_messages r = [])
  ∨ ps_submittable (ct_buffer target) (ct_damage target) (ct_has_acquire_fence target) p ∧
    (sent_messages r = []
     ∧ s' = set_composer (bd_display b) w (set_transport (taken_back (ct_buffer target) p)
                                             (tw_composer w)) s
     ∧ (b' = b ∨ next_timeline_point b + 1 ≤ u64_max
                 ∧ b' = set_bd_points (next_timeline_point b + 1) (pending_release_points b) b)
     ∨ ∃ n, preparable (bd_display b) f n b ∧ b' = prepared f b
       ∧ s' = set_composer (bd_display b) w
                (set_transport (ps_submitted (ct_buffer target) p) (tw_composer w)) s
       ∧ sent_messages r =
         [prepared_message (mkAccepted f (ct_buffer target) (ct_damage target) true) n b]).
Proof.
  intros Hw. unfold android_submit. rewrite (on_composer_run _ b s w Hw).
  destruct (submit_rendered_target (bd_display b) target (tw_composer w)) as [c1 [frame|e]] eqn:E;
    cbn [fst snd map_err].
  2:{ apply fail_safe in E as ->. rewrite set_composer_same by done. intros [= <- <- <-]. by left. }
  apply submit_rendered_Ok in E as (_ & _ & Hsub & -> & ->). intros H. right. split; [done|].
  unfold android_send, on_binding in H. revert H. cbn [af_frame_id].
  destruct (prepare_present _ _ b) as [b1 [pp|e]] eqn:E.
  - apply prepare_present_Ok in E as (n & Hprep & -> & ->). destruct sent.
    { intros [= <- <- <-]. right. exists n. by split_and!. }
    cbn [pp_release_point af_frame_id] in *.
    unfold cancel_unsubmitted_present, mbind, method_bind, get, reject, put.
    rewrite bool_decide_true by apply lookup_insert_eq. cbn [negb fst].
    pose proof (cancel_submitted b s w (ct_buffer target) Hw) as Hcancel. cbv zeta in Hcancel.
    unfold on_composer in *. cbn [bd_display set_bd_points prepared].
    destruct (composer_for_display_mut _ _ _ _) as [t' r'].
    injection Hcancel as Ht ->. cbn [fst]. intros [= <- <- <-]. left. split_and!; [done | |].
    + rewrite Ht. done.
    + right. split; [apply Hprep|]. unfold prepared, set_bd_points; cbn.
      f_equal. apply delete_insert_id, Hprep.
  - apply fail_safe in E as ->. rewrite (cancel_submitted b s w (ct_buffer target) Hw).
    intros [= <- <- <-]. left. by split_and!; [| |left].
Qed.

Lemma damage_fits_inside m w hh d :
  b_width m = w → b_height m = hh → damage_fits d m = true → damage_inside w hh d.
Proof.
  intros <- <-. unfold damage_fits, damage_inside, checked_add. intros H.
  destruct (Z.leb_spec (d_x d + d_width d) u32_max), (Z.leb_spec (d_y d + d_height d) u32_max);
    reflect; destruct_and?; try discriminate; split_and!; lia.
Qed.

Lemma joint_submit h b s up down target sent b' s' r :
  joint_inv (mkJoint h b s up down) →
  buffers h !! b_id (ct_buffer target) = Some (ct_buffer target) →
  zlen (ct_damage target) ≤ MAX_DAMAGE_RECTS →
  android_submit (bd_display b) target sent (b, s) = ((b', s'), r) →
  joint_inv (mkJoint h b' s' (up ++ sent_messages r) down).
Proof.
  intros HJ Hreg Hdmg H. pose proof (ji_android _ HJ) as (w & Hw & Hok & Hfr). cbn in Hw, Hok, Hfr.
  pose proof (wi_composer _ _ (ti_windows _ (ji_table _ HJ) _ _ Hw)) as Hc.
  pose proof (ji_binding _ HJ) as Hb. pose proof (ji_up _ HJ) as Hup.
  pose proof (ji_down _ HJ) as Hdown. cbn in Hb, Hup, Hdown.
  destruct (submit_outcomes _ _ _ _ _ _ _ _ Hw H) as [(-> & -> & ->)|[Hsub Hout]].
  { by rewrite app_nil_r. }
  destruct (taken_back_ok b _ _ _ _ Hc Hsub) as (Hc' & Hfl & Hps & Hok').
  destruct Hout as [(-> & -> & Hb')|(n & Hprep & -> & -> & ->)].
  - rewrite app_nil_r. destruct Hb' as [->|[Hn ->]].
    + eapply joint_android_update; try done; [by apply Hok' | by rewrite Hfl].
    + eapply joint_android_update; try done.
      * destruct Hb as [? ? Hp ?]. split; cbn; try done; [lia|].
        intros f p Hf. apply Hp in Hf. lia.
      * destruct (Hok' h up Hok). by split.
      * by rewrite Hfl.
      * eapply up_ok_le; [| |  |exact Hup]; [by split | done | cbn; lia].
  - pose proof (co_submit_inv _ _ _ _ Hc Hsub) as Hcs. destruct Hok as [Hf Hl Ha].
    destruct Hsub as [(cfg & Hcfg & _ & Hwd & Hht) _ Hfmt _ Hidle Hd _].
    destruct (Ha n (pb_ack _ _ _ _ Hprep)) as [Hlat Hk].
    rewrite Hcfg in Hlat. injection Hlat as <-. destruct (Hl cfg Hcfg) as [Hn Hsize].
    pose proof (ji_object _ HJ) as Hob. cbn in Hob. unfold prepared_message. rewrite <- Hob.
    eapply joint_android_update; try done.
    + apply prepared_inv; [done | apply Hprep].
    + apply android_ok_more_up. by split.
    + apply (frames_ok_perm ((ps_next_frame_id (co_transport (tw_composer w)) + 1,
        (b_id (ct_buffer target), next_timeline_point b + 1)) :: outstanding up h down)).
      { unfold outstanding. rewrite omap_app. cbn [omap list_omap up_frame].
        rewrite <- app_assoc. apply Permutation_middle. }
      apply frames_ok_add; [done|]. apply eq_None_not_Some. intros [buf Hbuf].
      apply (ps_frames_issued _ Hps) in Hbuf. lia.
    + cbn. apply up_ok_present; try done. intros Heq. split; [by apply Hk|].
      eexists _, _, _, _. split_and!; [by apply Hsize | exact Hreg | done | done | by apply Hf |].
      eapply Forall_impl; [exact Hd|]. intros d. by apply damage_fits_inside.
Qed.

(** Display calls keep the presentation stream. *)
Lemma display_local_transport op : display_local op = true → Keeps co_transport (co_exec op).
Proof.
  destruct op; intros Hq; try discriminate Hq; unfold co_exec, set_power_mode, set_vsync_enabled,
    presentation_sample, create_layer, update_layer, destroy_layer, validate_display,
    accept_display_changes, set_client_target, present_display_direct; solve_keeps.
Qed.

Lemma joint_display h b s up down op :
  joint_inv (mkJoint h b s up down) → display_local op = true →
  joint_inv (mkJoint h b (ss_run (SsTable (TwDisplay (bd_display b) op)) s) up down).
Proof.
  intros HJ Hop. pose proof (ji_android _ HJ) as (w & Hw & Hok & Hfr). cbn in Hw, Hok, Hfr.
  pose proof (wi_composer _ _ (ti_windows _ (ji_table _ HJ) _ _ Hw)) as Hc.
  pose proof (display_local_transport op Hop (tw_composer w)) as Ht.
  cbn [ss_run tw_run]. unfold composer_for_display_mut, co_lifted. rewrite Hw.
  destruct (co_exec_good op (tw_composer w) Hc) as [Hc' Hd'].
  destruct (co_exec op (tw_composer w)) as [c' r]. cbn [fst] in *.
  eapply joint_android_update; try done; [apply HJ | by rewrite Ht | | apply HJ | apply HJ].
  unfold flights. by rewrite Ht.
Qed.

Lemma joint_step_inv J J' : joint_step J J' → joint_inv J → joint_inv J'.
Proof.
  intros Hstep HJ. destruct Hstep.
  - by eapply joint_feedback.
  - by eapply joint_configure.
  - by eapply joint_register.
  - by eapply joint_release.
  - by eapply joint_receive.
  - by eapply joint_event.
  - by eapply joint_acknowledge.
  - by eapply joint_submit.
  - by apply joint_display.
Qed.

Lemma joint_initial_inv J : joint_initial J → joint_inv J.
Proof.
  destruct J as [h b s up down].
  intros [(obj & h0 & u & Hnew & Hbind & r & Hb) Ht (w & Hw & Hp) Hu Hd]; cbn in *. subst.
  pose proof (task_new_inv _ _ Hnew) as Hinv.
  unfold bind_timelines in Hbind. inv_method.
  apply binding_new_inv in Hb as Hb'. destruct Hb' as [Hbi Hnext].
  unfold task_new in Hnew. inv_ok. unfold valid_object in Hm. case_match; simplify_eq.
  unfold binding_new in Hb. inv_ok. subst b.
  split; cbn; try done.
  - by apply bound_inv.
  - exists w. split; [done|]. unfold flights. rewrite Hp. split; [by split|].
    unfold outstanding; cbn. split; cbn.
    + rewrite map_to_list_empty. constructor.
    + intros f buf p. rewrite map_to_list_empty, lookup_empty. cbn.
      split; [by intros ?%not_elem_of_nil | by intros [? _]].
    + intros f. by rewrite !lookup_empty.
Qed.

Lemma joint_reachable_inv J J' : joint_initial J → rtc joint_step J J' → joint_inv J'.
Proof.
  intros Hi Hr. apply joint_initial_inv in Hi. induction Hr; eauto using joint_step_inv.
Qed.

(** ** Draining *)

Lemma drain_up h b s up down :
  joint_inv (mkJoint h b s up down) →
  ∃ h' down', rtc joint_step (mkJoint h b s up down) (mkJoint h' b s [] down')
              ∧ joint_inv (mkJoint h' b s [] down').
Proof.
  revert h down. induction up as [|msg up IH]; intros h down HJ; [eauto using rtc_refl|].
  destruct (host_receive msg h) as [h1 r] eqn:E.
  destruct (joint_receive _ _ _ _ _ _ _ _ HJ E) as [_ HJ1].
  destruct (IH _ _ HJ1) as (h' & down' & Hr & HJ'). exists h', down'. split; [|done].
  eapply rtc_l; [|exact Hr]. by apply js_host_receive.
Qed.

Lemma drain_host k h b s down :
  size (in_flight h) = k → joint_inv (mkJoint h b s [] down) →
  ∃ h' down', rtc joint_step (mkJoint h b s [] down) (mkJoint h' b s [] down')
              ∧ joint_inv (mkJoint h' b s [] down') ∧ in_flight h' = ∅.
Proof.
  revert h down. induction k as [|k IH]; intros h down Hk HJ.
  { exists h, down. split_and!; [apply rtc_refl | done | by apply map_size_empty_inv]. }
  destruct (map_choose (in_flight h)) as (f & [buf rp] & Hf).
  { intros Hemp. by rewrite Hemp, map_size_empty in Hk. }
  assert (release f buf rp h = (retired f buf h, Ok (BufferReleased (object h) f buf rp))) as E
    by (by apply release_iff).
  destruct (IH (retired f buf h) (down ++ [BufferReleased (object h) f buf rp]))
    as (h' & down' & Hr & HJ').
  - cbn. rewrite map_size_delete, Hf, Hk. cbn. lia.
  - by eapply joint_release.
  - exists h', down'. split; [|done]. eapply rtc_l; [|exact Hr]. by eapply js_host_release.
Qed.

Lemma drain_down h b s down :
  joint_inv (mkJoint h b s [] down) →
  ∃ b' s', rtc joint_step (mkJoint h b s [] down) (mkJoint h b' s' [] [])
           ∧ joint_inv (mkJoint h b' s' [] []).
Proof.
  revert b s. induction down as [|msg down IH]; intros b s HJ; [eauto using rtc_refl|].
  destruct (apply_event msg (b, s)) as [[b1 s1] r] eqn:E.
  destruct (joint_event _ _ _ _ _ _ _ _ _ HJ E) as [_ HJ1].
  destruct (IH _ _ HJ1) as (b' & s' & Hr & HJ'). exists b', s'. split; [|done].
  eapply rtc_l; [|exact Hr]. by eapply js_android_receive.
Qed.

(** What Android's display has in flight. *)
Definition android_flights (J : joint) : gmap FrameId BufferId :=
  match windows (ss_windows (j_session J)) !! bd_display (j_binding J) with
  | Some w => flights (tw_composer w)
  | None => ∅
  end.

(** ** Properties *)



(** ** A run: one frame from feedback to the present record *)

Definition run_format : FormatModifier := mkFormatModifier 875713089 0.
Definition run_host0 : TaskPresentationState := mkTPS 5 true 0 ∅ None None ∅ ∅ ∅ 0 0.
Definition run_host1 := Eval vm_compute in (replace_feedback 1 [run_format] run_host0).1.
Definition run_host2 := Eval vm_compute in (configure 4 640 480 60000 run_host1).1.
Definition run_host3 := Eval vm_compute in (register_buffer demo_buffer run_host2).1.

Definition run_feedback : DenialMessage := FormatFeedback 5 1 [run_format].
Definition run_configure : DenialMessage := ConfigureMsg 5 4 640 480 1 1 Normal 60000.
Definition run_target : ClientTarget := mkTarget demo_buffer [mkDamage 0 0 16 16] true.

Definition run_android0 : DenialTaskBinding * Session := (demo_binding, demo_session).
Definition run_android1 := Eval vm_compute in (apply_event run_feedback run_android0).1.
Definition run_android2 := Eval vm_compute in (apply_event run_configure run_android1).1.
Definition run_android3 := Eval vm_compute in (bridge_acknowledge_configure 4 run_android2).1.
Definition run_submit := Eval vm_compute in
  android_submit 2 run_target true run_android3.

Definition run_joint (h : TaskPresentationState) (st : DenialTaskBinding * Session) up down : joint :=
  mkJoint h st.1 st.2 up down.

Definition run_start : joint := run_joint run_host0 run_android0 [] [].
Definition run_end : joint :=
  run_joint run_host3 run_submit.1
    ([AckConfigure 5 4] ++ sent_messages run_submit.2) [].

Lemma run_initial : joint_initial run_start.
Proof.
  split; [| apply (ss_exec_inv _ session_default), no_windows_inv | | done | done].
  - exists 5, (mkTPS 5 false 0 ∅ None None ∅ ∅ ∅ 0 0), tt. split_and!; [done | done |].
    by exists (mkReservation 2 pkg).
  - eexists. split; vm_compute; reflexivity.
Qed.

Lemma run_reaches : rtc joint_step run_start run_end.
Proof.
  apply (rtc_l _ _ (run_joint run_host1 run_android0 [] [run_feedback])).
  { apply (js_host_feedback run_host0 run_host1 demo_binding demo_session [] [] 1 [run_format] tt); [vm_compute; reflexivity|].
    apply empty_subseteq. }
  apply (rtc_l _ _ (run_joint run_host2 run_android0 [] [run_feedback; run_configure])).
  { apply (js_host_configure run_host1 run_host2 demo_binding demo_session [] [run_feedback]
             4 640 480 1 1 Normal 60000 tt);
      [vm_compute; reflexivity | split; [lia | done]]. }
  apply (rtc_l _ _ (run_joint run_host3 run_android0 [] [run_feedback; run_configure])).
  { apply (js_host_register run_host2 run_host3 demo_binding demo_session [] _ demo_buffer tt). vm_compute. reflexivity. }
  apply (rtc_l _ _ (run_joint run_host3 run_android1 [] [run_configure])).
  { apply (js_android_receive run_host3 demo_binding run_android1.1 demo_session run_android1.2 []
             run_feedback _ (apply_event run_feedback run_android0).2).
    vm_compute. reflexivity. }
  apply (rtc_l _ _ (run_joint run_host3 run_android2 [] [])).
  { apply (js_android_receive run_host3 run_android1.1 run_android2.1 run_android1.2 run_android2.2 []
             run_configure _ (apply_event run_configure run_android1).2).
    vm_compute. reflexivity. }
  apply (rtc_l _ _ (run_joint run_host3 run_android3 [AckConfigure 5 4] [])).
  { apply (js_android_acknowledge run_host3 run_android2.1 run_android3.1 run_android2.2
             run_android3.2 [] [] 4 (Ok (AckConfigure 5 4))).
    vm_compute. reflexivity. }
  apply (rtc_l _ _ run_end); [|apply rtc_refl].
  apply (js_android_submit run_host3 run_android3.1 run_submit.1.1 run_android3.2 run_submit.1.2
           [AckConfigure 5 4] [] run_target true run_submit.2);
    vm_compute; (reflexivity || discriminate).
Qed.


