(* ===== verification/InputRecords.v ===== *)
(** * Native input records (graphics/droidloom-input-protocol/src/lib.rs)

    Fixed-size records that carry routed touch and key samples into the Android
    framework.  Encoders write fields at fixed offsets into a zeroed record;
    the decoder checks every reserved byte.  [f32] is IEEE single precision with
    round to nearest, as [SpecFloat] of the Standard Library defines it. *)

From Stdlib Require Import SpecFloat.
From S2P Require Import Prelude Bytes.

Definition MAGIC : list Z := [68; 76; 73; 78].
Definition PROTOCOL_MAJOR : Z := 7.
Definition RECORD_BYTES : nat := 48.
Definition KIND_TOUCH : Z := 1.
Definition KIND_KEY : Z := 2.
Definition KIND_TASK_BOUNDS : Z := 3.
Definition KIND_TASK_FOCUS : Z := 4.
Definition KIND_TASK_CLOSE : Z := 5.
Definition KIND_DISPLAY_POWER : Z := 6.
Definition MAX_POINTER_ID : Z := 31.
Definition MAX_EVDEV_KEYCODE : Z := 767.
Definition i32_max : Z := 2147483647.
Definition i64_max : Z := 9223372036854775807.

(** ** The compatibility marker *)

(** [DROIDLOOM_INPUT_ABI=00000;] *)
Definition MARKER : list Z :=
  [68; 82; 79; 73; 68; 76; 79; 79; 77; 95; 73; 78; 80; 85; 84; 95; 65; 66; 73; 61;
   48; 48; 48; 48; 48; 59].

(** The [loop] of the source: one digit per index from 24 down to 20; [count] is
    the number of indices left. *)
Fixpoint marker_digits (count : nat) (index : nat) (version : Z) (marker : list Z) : list Z :=
  match count with
  | O => marker
  | S count =>
      marker_digits count (index - 1) (version / 10) (<[index := 48 + version mod 10]> marker)
  end.

Definition compatibility_marker (version : Z) : list Z := marker_digits 5 24 version MARKER.

(** ** Errors and values *)

Inductive InputProtocolError : Type :=
| AndroidDisplay | PointerId | KeyCode | ActionError | Scale | Coordinate | TaskIdError
| TaskExtent | Incarnation | RecordError.

Definition f32 : Type := spec_float.
Definition f32_of_Z (n : Z) : f32 := binary_normalize 24 128 n 0 false.
Definition f32_div (x y : f32) : f32 := SFdiv 24 128 x y.
Definition f32_add (x y : f32) : f32 := SFadd 24 128 x y.
Definition f32_zero : f32 := S754_zero false.

Inductive Payload : Type :=
| Touch (x y pressure : f32)
| KeyPayload (repeat serial : Z).

Record Sample : Type := mkSample {
  sm_display : Z;
  sm_task : Z;
  sm_incarnation : Z;
  sm_timestamp : Z;
  sm_action : Z;
  sm_code : Z;
  sm_payload : Payload
}.

Inductive Record_ : Type :=
| InputRecord (sample : Sample)
| DisplayPowerRecord (powered : bool).

(** ** Scaling *)

(** [checked_mul] on [i64], whose [/] truncates towards zero. *)
Definition checked_mul_i64 (x y : Z) : option Z :=
  if (- i64_max - 1 <=? x * y) && (x * y <=? i64_max) then Some (x * y) else None.

Definition scale_fixed (value numerator denominator : Z) : result InputProtocolError Z :=
  fail_if ((numerator =? 0) || (denominator =? 0)) Scale;;
  product ← ok_or (checked_mul_i64 value numerator) Coordinate;
  let scaled := Z.quot product denominator in
  if (-2147483648 <=? scaled) && (scaled <=? i32_max) then Ok scaled else Err Coordinate.

(** ** Encoding *)

(** [record[offset..offset + bytes.len()].copy_from_slice(&bytes)]. *)
Definition write (offset : nat) (bytes record : list Z) : list Z :=
  take offset record ++ bytes ++ drop (offset + length bytes) record.

Definition blank : list Z := replicate RECORD_BYTES 0.

(** The header every record starts with. *)
Definition header (kind : Z) : list Z :=
  write 6 [kind] (write 4 (le_bytes 2 PROTOCOL_MAJOR) (write 0 MAGIC blank)).

(** [u32::try_from(task_id)] and the positive [i32] range. *)
Definition wire_task (task_id : Z) : result InputProtocolError Z :=
  fail_if (u32_max <? task_id) TaskIdError;;
  fail_if ((task_id =? 0) || (i32_max <? task_id)) TaskIdError;;
  mret task_id.

Definition encode_touch (android_display task_id timestamp_nanos action pointer_id x_fixed y_fixed
    pressure incarnation : Z) : result InputProtocolError (list Z) :=
  fail_if ((incarnation =? 0) || (i64_max <? incarnation)) Incarnation;;
  fail_if (i32_max <? android_display) AndroidDisplay;;
  task_id ← wire_task task_id;
  fail_if (MAX_POINTER_ID <? pointer_id) PointerId;;
  fail_if (3 <? action) ActionError;;
  mret (write 40 (le_bytes 8 incarnation) (write 36 (le_bytes 4 task_id)
       (write 32 (le_bytes 2 pressure) (write 28 (le_i32 y_fixed) (write 24 (le_i32 x_fixed)
       (write 16 (le_bytes 8 timestamp_nanos) (write 12 (le_bytes 4 pointer_id)
       (write 8 (le_bytes 4 android_display) (write 7 [action] (header KIND_TOUCH)))))))))).

Definition encode_key (android_display task_id timestamp_nanos action keycode repeat route_serial
    incarnation : Z) : result InputProtocolError (list Z) :=
  fail_if ((incarnation =? 0) || (i64_max <? incarnation)) Incarnation;;
  fail_if (i32_max <? android_display) AndroidDisplay;;
  task_id ← wire_task task_id;
  fail_if (MAX_EVDEV_KEYCODE <? keycode) KeyCode;;
  fail_if (1 <? action) ActionError;;
  mret (write 40 (le_bytes 8 incarnation) (write 36 (le_bytes 4 task_id)
       (write 28 (le_bytes 8 route_serial) (write 24 (le_bytes 2 repeat)
       (write 16 (le_bytes 8 timestamp_nanos) (write 12 (le_bytes 4 keycode)
       (write 8 (le_bytes 4 android_display) (write 7 [action] (header KIND_KEY))))))))).

Definition encode_task_bounds (task_id android_display width height scale_numerator
    scale_denominator : Z) : result InputProtocolError (list Z) :=
  task_id ← wire_task task_id;
  fail_if ((width =? 0) || (i32_max <? width) || (height =? 0) || (i32_max <? height)) TaskExtent;;
  fail_if (i32_max <? android_display) AndroidDisplay;;
  fail_if ((scale_numerator =? 0) || (scale_denominator =? 0)) Scale;;
  mret (write 28 (le_bytes 4 scale_denominator) (write 24 (le_bytes 4 scale_numerator)
       (write 20 (le_bytes 4 android_display) (write 16 (le_bytes 4 height)
       (write 12 (le_bytes 4 width) (write 8 (le_bytes 4 task_id) (header KIND_TASK_BOUNDS))))))).

Definition encode_task_focus (task_id : Z) (focused : bool) : result InputProtocolError (list Z) :=
  task_id ← wire_task task_id;
  mret (write 8 (le_bytes 4 task_id) (write 7 [Z.b2z focused] (header KIND_TASK_FOCUS))).

Definition encode_task_close (task_id : Z) : result InputProtocolError (list Z) :=
  task_id ← wire_task task_id;
  mret (write 8 (le_bytes 4 task_id) (header KIND_TASK_CLOSE)).

Definition encode_display_power (powered : bool) : list Z :=
  write 7 [Z.b2z powered] (header KIND_DISPLAY_POWER).

(** ** Decoding *)

(** [bytes[from..to]], [bytes[i]]. *)
Definition slice (from upto : nat) (bytes : list Z) : list Z := take (upto - from) (drop from bytes).
Definition byte_at (i : nat) (bytes : list Z) : Z := nth i bytes 0.
Definition word (offset : nat) (bytes : list Z) : Z := of_le_bytes (slice offset (offset + 4) bytes).
Definition wide (offset : nat) (bytes : list Z) : Z := of_le_bytes (slice offset (offset + 8) bytes).
Definition half (offset : nat) (bytes : list Z) : Z := of_le_bytes (slice offset (offset + 2) bytes).

Definition touch_payload (bytes : list Z) : Payload :=
  Touch (f32_div (f32_of_Z (i32_of_u32 (word 24 bytes))) (f32_of_Z 65536))
        (f32_div (f32_of_Z (i32_of_u32 (word 28 bytes))) (f32_of_Z 65536))
        (f32_div (f32_of_Z (half 32 bytes)) (f32_of_Z 65535)).

Definition decode_payload (bytes : list Z) : result InputProtocolError Payload :=
  let kind := byte_at 6 bytes in
  let action := byte_at 7 bytes in
  let code := word 12 bytes in
  if (kind =? KIND_TOUCH) && ((action <=? 3) && (code <=? MAX_POINTER_ID)
       && bool_decide (slice 34 36 bytes = [0; 0]))
  then Ok (touch_payload bytes)
  else if (kind =? KIND_KEY) && ((action <=? 1) && (code <=? MAX_EVDEV_KEYCODE)
       && bool_decide (slice 26 28 bytes = [0; 0]))
  then Ok (KeyPayload (half 24 bytes) (wide 28 bytes))
  else Err RecordError.

Definition decode_sample (bytes : list Z) : result InputProtocolError Sample :=
  display ← (if word 8 bytes <=? i32_max then Ok (word 8 bytes) else Err AndroidDisplay);
  task ← (if word 36 bytes <=? i32_max then Ok (word 36 bytes) else Err TaskIdError);
  fail_if (task <=? 0) TaskIdError;;
  let incarnation := wide 40 bytes in
  fail_if ((incarnation =? 0) || (i64_max <? incarnation)) Incarnation;;
  let timestamp := wide 16 bytes in
  fail_if ((timestamp =? 0) || (i64_max <? timestamp)) RecordError;;
  payload ← decode_payload bytes;
  mret (mkSample display task incarnation timestamp (byte_at 7 bytes) (word 12 bytes) payload).

Definition decode (bytes : list Z) : result InputProtocolError Record_ :=
  fail_if (negb (length bytes =? RECORD_BYTES)%nat || negb (bool_decide (take 4 bytes = MAGIC))
           || negb (bool_decide (slice 4 6 bytes = le_bytes 2 PROTOCOL_MAJOR))) RecordError;;
  if byte_at 6 bytes =? KIND_DISPLAY_POWER then
    fail_if ((1 <? byte_at 7 bytes) || existsb (λ b, negb (b =? 0)) (drop 8 bytes)) RecordError;;
    mret (DisplayPowerRecord (negb (byte_at 7 bytes =? 0)))
  else
    sample ← decode_sample bytes;
    mret (InputRecord sample).

(** ** Fields of a written record *)

Lemma of_bytes2 x : is_u16 x → of_le_bytes [x mod 256; x / 256 mod 256] = x.
Proof. intros Hx. apply (of_le_bytes_le_bytes 2). exact Hx. Qed.

Lemma of_bytes4 x :
  is_u32 x →
  of_le_bytes [x mod 256; x / 256 mod 256; x / 256 / 256 mod 256; x / 256 / 256 / 256 mod 256] = x.
Proof. intros Hx. apply (of_le_bytes_le_bytes 4). exact Hx. Qed.

Lemma of_bytes8 x :
  is_u64 x →
  of_le_bytes [x mod 256; x / 256 mod 256; x / 256 / 256 mod 256; x / 256 / 256 / 256 mod 256;
    x / 256 / 256 / 256 / 256 mod 256; x / 256 / 256 / 256 / 256 / 256 mod 256;
    x / 256 / 256 / 256 / 256 / 256 / 256 mod 256;
    x / 256 / 256 / 256 / 256 / 256 / 256 / 256 mod 256] = x.
Proof. intros Hx. apply (of_le_bytes_le_bytes 8). exact Hx. Qed.

Lemma mod_u32 x : is_u32 (x mod 4294967296).
Proof. unfold is_u32. apply Z.mod_pos_bound. lia. Qed.

Lemma wire_task_Ok t t' : wire_task t = Ok t' ↔ t' = t ∧ t ≠ 0 ∧ t ≤ i32_max.
Proof.
  unfold wire_task. split.
  - intros H. inv_ok. reflect. lia.
  - intros (-> & H0 & Hm). unfold i32_max, u32_max in *.
    rewrite !fail_if_run; [done| |]; reflect; lia.
Qed.

(** Unfolds the writes of an encoder and the slices of the decoder. *)
Ltac fields :=
  cbv [write header blank RECORD_BYTES replicate MAGIC le_bytes le_i32 slice byte_at word wide half
       take drop app nth length Nat.add Nat.sub];
  cbv [firstn skipn].

Ltac field_value :=
  rewrite ?of_bytes2, ?of_bytes4, ?of_bytes8 by assumption; try done; by apply i32_of_u32_inv.

Lemma touch_fields d t ts a p x y pr inc rec :
  encode_touch d t ts a p x y pr inc = Ok rec →
  is_u32 d → 0 ≤ t → is_u64 ts → is_u8 a → is_u32 p → is_i32 x → is_i32 y → is_u16 pr → is_u64 inc →
  length rec = 48%nat ∧ take 4 rec = MAGIC ∧ slice 4 6 rec = le_bytes 2 PROTOCOL_MAJOR
  ∧ byte_at 6 rec = KIND_TOUCH ∧ byte_at 7 rec = a ∧ word 8 rec = d ∧ word 12 rec = p
  ∧ wide 16 rec = ts ∧ i32_of_u32 (word 24 rec) = x ∧ i32_of_u32 (word 28 rec) = y
  ∧ half 32 rec = pr ∧ slice 34 36 rec = [0; 0] ∧ word 36 rec = t ∧ wide 40 rec = inc.
Proof.
  unfold encode_touch. intros He Hd Ht Hts Ha Hp Hx Hy Hpr Hinc. inv_ok.
  apply wire_task_Ok in Hm1 as (-> & Ht0 & Htm). subst rec.
  assert (is_u32 t) by (unfold is_u32, i32_max in *; lia).
  pose proof (mod_u32 x). pose proof (mod_u32 y).
  fields. split_and!; try reflexivity; field_value.
Qed.

Lemma key_fields d t ts a code rp serial inc rec :
  encode_key d t ts a code rp serial inc = Ok rec →
  is_u32 d → 0 ≤ t → is_u64 ts → is_u8 a → is_u32 code → is_u16 rp → is_u64 serial → is_u64 inc →
  length rec = 48%nat ∧ take 4 rec = MAGIC ∧ slice 4 6 rec = le_bytes 2 PROTOCOL_MAJOR
  ∧ byte_at 6 rec = KIND_KEY ∧ byte_at 7 rec = a ∧ word 8 rec = d ∧ word 12 rec = code
  ∧ wide 16 rec = ts ∧ half 24 rec = rp ∧ slice 26 28 rec = [0; 0] ∧ wide 28 rec = serial
  ∧ word 36 rec = t ∧ wide 40 rec = inc.
Proof.
  unfold encode_key. intros He Hd Ht Hts Ha Hc Hr Hs Hinc. inv_ok.
  apply wire_task_Ok in Hm1 as (-> & Ht0 & Htm). subst rec.
  assert (is_u32 t) by (unfold is_u32, i32_max in *; lia).
  fields. split_and!; try reflexivity; field_value.
Qed.

(** The decoder after its header checks, on a record that is not a power record. *)
Lemma decode_input rec :
  length rec = 48%nat → take 4 rec = MAGIC → slice 4 6 rec = le_bytes 2 PROTOCOL_MAJOR →
  byte_at 6 rec ≠ KIND_DISPLAY_POWER →
  decode rec = (sample ← decode_sample rec; mret (InputRecord sample)).
Proof.
  intros Hl Hm Hv Hk. unfold decode. rewrite Hl, !bool_decide_true by done.
  change (negb (48 =? RECORD_BYTES)%nat || negb true || negb true) with false. cbn [fail_if].
  rewrite ok_bind, (proj2 (Z.eqb_neq _ _) Hk). done.
Qed.

Lemma decode_sample_fields rec d t inc ts payload :
  word 8 rec = d → d ≤ i32_max → word 36 rec = t → 0 < t ≤ i32_max → wide 40 rec = inc →
  inc ≠ 0 → inc ≤ i64_max → wide 16 rec = ts → 0 ≤ ts → decode_payload rec = Ok payload →
  decode_sample rec =
  if (1 <=? ts) && (ts <=? i64_max)
  then Ok (mkSample d t inc ts (byte_at 7 rec) (word 12 rec) payload) else Err RecordError.
Proof.
  intros Hd Hdm Ht Htm Hi Hi0 Him Hts Hts0 Hp. unfold decode_sample. rewrite Hd, Ht, Hi, Hts, Hp.
  rewrite (proj2 (Z.leb_le d _) Hdm), (proj2 (Z.leb_le t _)) by lia. rewrite !ok_bind.
  rewrite (fail_if_run (t <=? 0)) by (apply Z.leb_gt; lia). rewrite ok_bind.
  rewrite (fail_if_run ((inc =? 0) || _)) by (reflect; lia). rewrite ok_bind.
  destruct (Z.leb_spec 1 ts), (Z.leb_spec ts i64_max); cbn [andb].
  - rewrite fail_if_run by (reflect; lia). done.
  - unfold fail_if. rewrite (proj2 (Bool.orb_true_iff _ _)); [done|]. right. apply Z.ltb_lt. lia.
  - unfold fail_if. rewrite (proj2 (Bool.orb_true_iff _ _)); [done|]. left. apply Z.eqb_eq. lia.
  - unfold i64_max in *. lia.
Qed.

(** The fixed-point coordinates and the pressure of a touch on the wire. *)
Definition touch_values (x_fixed y_fixed pressure : Z) : Payload :=
  Touch (f32_div (f32_of_Z x_fixed) (f32_of_Z 65536)) (f32_div (f32_of_Z y_fixed) (f32_of_Z 65536))
        (f32_div (f32_of_Z pressure) (f32_of_Z 65535)).

(** A touch record the sender encodes is decoded to the same display, task,
    incarnation, time, action and pointer with its coordinates and pressure
    converted to single precision; the one thing the receiver refuses is a
    timestamp outside the positive signed range, which the encoder lets
    through. *)
Theorem touch_roundtrip d t ts a p x y pr inc rec :
  is_u32 d → is_u64 t → is_u64 ts → is_u8 a → is_u32 p → is_i32 x → is_i32 y → is_u16 pr →
  is_u64 inc → encode_touch d t ts a p x y pr inc = Ok rec →
  length rec = RECORD_BYTES
  ∧ decode rec = if (1 <=? ts) && (ts <=? i64_max)
                 then Ok (InputRecord (mkSample d t inc ts a p (touch_values x y pr)))
                 else Err RecordError.
Proof.
  intros Hd Ht Hts Ha Hp Hx Hy Hpr Hinc He. assert (Ht0 : 0 ≤ t) by (unfold is_u64 in Ht; lia).
  destruct (touch_fields _ _ _ _ _ _ _ _ _ _ He Hd Ht0 Hts Ha Hp Hx Hy Hpr Hinc)
    as (Hl & Hm & Hv & H6 & H7 & H8 & H12 & H16 & H24 & H28 & H32 & H34 & H36 & H40).
  split; [done|]. rewrite decode_input by (rewrite ?H6; done).
  unfold encode_touch in He. inv_ok. apply wire_task_Ok in Hm2 as (-> & Htn & Htm). reflect.
  erewrite (decode_sample_fields rec d t inc ts (touch_values x y pr)); try done; try (unfold_ints; lia).
  - rewrite H7, H12. by destruct (_ && _).
  - unfold decode_payload, touch_payload, touch_values. rewrite H6, H7, H12, H24, H28, H32, H34.
    rewrite (proj2 (Z.leb_le a 3)), (proj2 (Z.leb_le p _)) by lia. by rewrite bool_decide_true.
Qed.

(** A key record, under the same condition on its timestamp. *)
Lemma key_roundtrip d t ts a code rp serial inc rec :
  is_u32 d → is_u64 t → is_u64 ts → is_u8 a → is_u32 code → is_u16 rp → is_u64 serial →
  is_u64 inc → encode_key d t ts a code rp serial inc = Ok rec →
  length rec = RECORD_BYTES
  ∧ decode rec = if (1 <=? ts) && (ts <=? i64_max)
                 then Ok (InputRecord (mkSample d t inc ts a code (KeyPayload rp serial)))
                 else Err RecordError.
Proof.
  intros Hd Ht Hts Ha Hc Hr Hs Hinc He. assert (Ht0 : 0 ≤ t) by (unfold is_u64 in Ht; lia).
  destruct (key_fields _ _ _ _ _ _ _ _ _ He Hd Ht0 Hts Ha Hc Hr Hs Hinc)
    as (Hl & Hm & Hv & H6 & H7 & H8 & H12 & H16 & H24 & H26 & H28 & H36 & H40).
  split; [done|]. rewrite decode_input by (rewrite ?H6; done).
  unfold encode_key in He. inv_ok. apply wire_task_Ok in Hm2 as (-> & Htn & Htm). reflect.
  erewrite (decode_sample_fields rec d t inc ts (KeyPayload rp serial)); try done; try (unfold_ints; lia).
  - rewrite H7, H12. by destruct (_ && _).
  - unfold decode_payload. rewrite H6, H7, H12, H24, H26, H28.
    change (KIND_KEY =? KIND_TOUCH) with false. cbn [andb].
    rewrite (proj2 (Z.leb_le a 1)), (proj2 (Z.leb_le code MAX_EVDEV_KEYCODE)) by lia.
    by rewrite bool_decide_true.
Qed.

(** ** Accepted records are encodings *)

(** The bytes of a record from its fields. *)
Lemma le_bytes_pair a b : is_u8 a → is_u8 b → le_bytes 2 (of_le_bytes [a; b]) = [a; b].
Proof. intros. apply (le_bytes_of_le_bytes [a; b]). rewrite !Forall_cons. by split_and!. Qed.

Lemma le_bytes_word a b c d :
  is_u8 a → is_u8 b → is_u8 c → is_u8 d → le_bytes 4 (of_le_bytes [a; b; c; d]) = [a; b; c; d].
Proof. intros. apply (le_bytes_of_le_bytes [a; b; c; d]). rewrite !Forall_cons. by split_and!. Qed.

Lemma le_bytes_wide a b c d e f g h :
  is_u8 a → is_u8 b → is_u8 c → is_u8 d → is_u8 e → is_u8 f → is_u8 g → is_u8 h →
  le_bytes 8 (of_le_bytes [a; b; c; d; e; f; g; h]) = [a; b; c; d; e; f; g; h].
Proof. intros. apply (le_bytes_of_le_bytes [a; b; c; d; e; f; g; h]). rewrite !Forall_cons. by split_and!. Qed.

(** A list of 48 bytes, byte by byte. *)
Ltac split_record rec Hl Hu :=
  do 48 (destruct rec as [|? rec]; [discriminate Hl|apply Forall_cons in Hu as [? Hu]]);
  destruct rec; [|discriminate Hl].

(** Rewrites the bytes of a field that was read back to the bytes it was read
    from. *)
Ltac unread :=
  let v := fresh in let E := fresh in
  match goal with
  | |- context [of_le_bytes [?a; ?b] mod 256] =>
      pose proof (le_bytes_pair a b ltac:(assumption) ltac:(assumption)) as E;
      revert E; generalize (of_le_bytes [a; b]); intros v E; cbv [le_bytes] in E;
      injection E as -> ->
  | |- context [of_le_bytes [?a; ?b; ?c; ?d] mod 256] =>
      pose proof (le_bytes_word a b c d ltac:(assumption) ltac:(assumption) ltac:(assumption)
                    ltac:(assumption)) as E;
      revert E; generalize (of_le_bytes [a; b; c; d]); intros v E; cbv [le_bytes] in E;
      injection E as -> -> -> ->
  | |- context [of_le_bytes [?a; ?b; ?c; ?d; ?e; ?f; ?g; ?h] mod 256] =>
      pose proof (le_bytes_wide a b c d e f g h ltac:(assumption) ltac:(assumption)
                    ltac:(assumption) ltac:(assumption) ltac:(assumption) ltac:(assumption)
                    ltac:(assumption) ltac:(assumption)) as E;
      revert E; generalize (of_le_bytes [a; b; c; d; e; f; g; h]); intros v E;
      cbv [le_bytes] in E; injection E as -> -> -> -> -> -> -> ->
  end.

(** The fields of a record, written back, are the record. *)
Lemma key_bytes rec :
  Forall is_u8 rec → length rec = 48%nat → take 4 rec = MAGIC →
  slice 4 6 rec = le_bytes 2 PROTOCOL_MAJOR → slice 26 28 rec = [0; 0] → byte_at 6 rec = KIND_KEY →
  write 40 (le_bytes 8 (wide 40 rec)) (write 36 (le_bytes 4 (word 36 rec))
    (write 28 (le_bytes 8 (wide 28 rec)) (write 24 (le_bytes 2 (half 24 rec))
    (write 16 (le_bytes 8 (wide 16 rec)) (write 12 (le_bytes 4 (word 12 rec))
    (write 8 (le_bytes 4 (word 8 rec)) (write 7 [byte_at 7 rec] (header KIND_KEY)))))))) = rec.
Proof.
  intros Hu Hl. split_record rec Hl Hu. clear Hl. fields.
  intros [= -> -> -> ->] [= -> ->] [= -> ->] ->. by repeat unread.
Qed.

Lemma touch_bytes rec :
  Forall is_u8 rec → length rec = 48%nat → take 4 rec = MAGIC →
  slice 4 6 rec = le_bytes 2 PROTOCOL_MAJOR → slice 34 36 rec = [0; 0] → byte_at 6 rec = KIND_TOUCH →
  write 40 (le_bytes 8 (wide 40 rec)) (write 36 (le_bytes 4 (word 36 rec))
    (write 32 (le_bytes 2 (half 32 rec)) (write 28 (le_bytes 4 (word 28 rec))
    (write 24 (le_bytes 4 (word 24 rec)) (write 16 (le_bytes 8 (wide 16 rec))
    (write 12 (le_bytes 4 (word 12 rec)) (write 8 (le_bytes 4 (word 8 rec))
    (write 7 [byte_at 7 rec] (header KIND_TOUCH))))))))) = rec.
Proof.
  intros Hu Hl. split_record rec Hl Hu. clear Hl. fields.
  intros [= -> -> -> ->] [= -> ->] [= -> ->] ->. by repeat unread.
Qed.

Lemma decode_Ok rec s :
  decode rec = Ok (InputRecord s) →
  length rec = 48%nat ∧ take 4 rec = MAGIC ∧ slice 4 6 rec = le_bytes 2 PROTOCOL_MAJOR
  ∧ decode_sample rec = Ok s.
Proof.
  unfold decode. intros Hd. apply bind_Ok in Hd as ([] & Hh & Hd).
  apply fail_if_Ok in Hh. rewrite !Bool.orb_false_iff, !Bool.negb_false_iff in Hh.
  destruct Hh as [[Hl Hm] Hv]. apply bool_decide_eq_true in Hm, Hv. apply Nat.eqb_eq in Hl.
  destruct (_ =? _); inv_ok; [discriminate|]. injection Hd as <-. done.
Qed.

Lemma decode_sample_Ok rec s :
  decode_sample rec = Ok s →
  sm_display s = word 8 rec ∧ word 8 rec ≤ i32_max ∧ sm_task s = word 36 rec
  ∧ 0 < word 36 rec ≤ i32_max ∧ sm_incarnation s = wide 40 rec ∧ wide 40 rec ≠ 0
  ∧ wide 40 rec ≤ i64_max ∧ sm_timestamp s = wide 16 rec ∧ sm_action s = byte_at 7 rec
  ∧ sm_code s = word 12 rec ∧ decode_payload rec = Ok (sm_payload s).
Proof.
  unfold decode_sample. intros Hs. inv_ok.
  destruct (Z.leb_spec (word 8 rec) i32_max); inv_ok.
  destruct (Z.leb_spec (word 36 rec) i32_max); inv_ok. subst. reflect.
  destruct Hm2. by split_and!.
Qed.

Lemma key_canonical rec s rp serial :
  Forall is_u8 rec → decode rec = Ok (InputRecord s) → sm_payload s = KeyPayload rp serial →
  encode_key (sm_display s) (sm_task s) (sm_timestamp s) (sm_action s) (sm_code s) rp serial
    (sm_incarnation s) = Ok rec.
Proof.
  intros Hu (Hl & Hm & Hv & Hs)%decode_Ok Hp.
  apply decode_sample_Ok in Hs as (-> & H8 & -> & H36 & -> & H40 & H40' & -> & -> & -> & Hpay).
  rewrite Hp in Hpay. unfold decode_payload in Hpay.
  destruct (_ && _) eqn:Etouch in Hpay; [discriminate|]. clear Etouch.
  destruct (_ && _) eqn:Ekey in Hpay; [|discriminate]. injection Hpay as <- <-. reflect.
  destruct Ekey as (Hk & (Ha & Hc) & H26). unfold encode_key.
  rewrite !fail_if_run by (reflect; lia). rewrite !ok_bind.
  rewrite (proj2 (wire_task_Ok _ _)) by (split_and!; [reflexivity|lia..]). rewrite !ok_bind.
  unfold mret, result_ret. f_equal. by apply key_bytes.
Qed.

Lemma word_u32 i rec : length rec = 48%nat → Forall is_u8 rec → is_u32 (word i rec).
Proof.
  intros _ Hu. unfold word. pose proof (of_le_bytes_bound (slice i (i + 4) rec)) as Hb.
  destruct Hb as [H0 H1]; [by apply Forall_take, Forall_drop|].
  assert (length (slice i (i + 4) rec) ≤ 4)%nat by (unfold slice; rewrite length_take; lia).
  split; [done|]. eapply Z.lt_le_trans; [exact H1|]. unfold uint_bound.
  change 4294967296 with (256 ^ 4). apply Z.pow_le_mono_r; lia.
Qed.

Lemma touch_canonical rec s tx ty tp :
  Forall is_u8 rec → decode rec = Ok (InputRecord s) → sm_payload s = Touch tx ty tp →
  ∃ x y pr, sm_payload s = touch_values x y pr
  ∧ encode_touch (sm_display s) (sm_task s) (sm_timestamp s) (sm_action s) (sm_code s) x y pr
      (sm_incarnation s) = Ok rec.
Proof.
  intros Hu (Hl & Hm & Hv & Hs)%decode_Ok Hp.
  apply decode_sample_Ok in Hs as (-> & H8 & -> & H36 & -> & H40 & H40' & -> & -> & -> & Hpay).
  exists (i32_of_u32 (word 24 rec)), (i32_of_u32 (word 28 rec)), (half 32 rec).
  rewrite Hp in Hpay. unfold decode_payload in Hpay.
  destruct (_ && _) eqn:Etouch in Hpay.
  2:{ destruct (_ && _) in Hpay; discriminate. }
  split; [change (sm_payload s = touch_payload rec); congruence|]. clear Hpay Hp. reflect.
  destruct Etouch as (Hk & (Ha & Hc) & H34). unfold encode_touch.
  rewrite !fail_if_run by (reflect; lia). rewrite !ok_bind.
  rewrite (proj2 (wire_task_Ok _ _)) by (split_and!; [reflexivity|lia..]). rewrite !ok_bind.
  unfold mret, result_ret. f_equal. unfold le_i32. rewrite !u32_of_i32_inv by (by apply word_u32).
  by apply touch_bytes.
Qed.

Lemma power_canonical rec b :
  decode rec = Ok (DisplayPowerRecord b) → Forall is_u8 rec → rec = encode_display_power b.
Proof.
  unfold decode. intros Hd Hu. apply bind_Ok in Hd as ([] & Hh & Hd).
  apply fail_if_Ok in Hh. rewrite !Bool.orb_false_iff, !Bool.negb_false_iff in Hh.
  destruct Hh as [[Hl Hm] Hv]. apply bool_decide_eq_true in Hm, Hv. apply Nat.eqb_eq in Hl.
  destruct (Z.eqb_spec (byte_at 6 rec) KIND_DISPLAY_POWER) as [Hk|]; inv_ok; [|discriminate].
  reflect. destruct Hm0 as [H7 Hz]. injection Hd as <-.
  assert (Hzero : drop 8 rec = replicate 40 0).
  { symmetry. apply replicate_as_elem_of. split; [rewrite length_drop, Hl; done|]. intros x Hx.
    apply Z.eqb_eq. rewrite <- Bool.not_true_iff_false, existsb_exists in Hz.
    destruct (x =? 0) eqn:E; [done|]. destruct Hz. exists x. rewrite <- list_elem_of_In, E. done. }
  rewrite <- (take_drop 8 rec), Hzero. unfold byte_at in *.
  apply (Forall_take _ 8) in Hu.
  do 8 (destruct rec as [|? rec]; [discriminate Hl|]). clear Hl Hz Hzero.
  revert Hm Hv Hk H7. cbv [slice Nat.sub firstn skipn take drop]. cbn [nth].
  intros [= -> -> -> ->] [= -> ->] -> H7. cbn [take] in Hu. rewrite !Forall_cons in Hu. unfold is_u8 in Hu.
  assert (z6 = 0 ∨ z6 = 1) as [->| ->] by lia; reflexivity.
Qed.

(** The receiver accepts no record a sender would not have produced: every
    accepted byte string is the encoding of the record it is decoded to, so all
    reserved bytes are zero and every field is in its range. *)
Theorem input_decode_canonical rec r :
  Forall is_u8 rec → decode rec = Ok r →
  match r with
  | DisplayPowerRecord powered => rec = encode_display_power powered
  | InputRecord s =>
      match sm_payload s with
      | KeyPayload rp serial =>
          encode_key (sm_display s) (sm_task s) (sm_timestamp s) (sm_action s) (sm_code s)
            rp serial (sm_incarnation s) = Ok rec
      | Touch _ _ _ =>
          ∃ x y pr, sm_payload s = touch_values x y pr
          ∧ encode_touch (sm_display s) (sm_task s) (sm_timestamp s) (sm_action s) (sm_code s)
              x y pr (sm_incarnation s) = Ok rec
      end
  end.
Proof.
  intros Hu Hd. destruct r as [s|powered]; [|by apply power_canonical].
  destruct (sm_payload s) as [tx ty tp|rp serial] eqn:Hp.
  - rewrite <- Hp. by eapply touch_canonical.
  - by apply key_canonical.
Qed.

(** The task-control kinds a current receiver refuses: their task field is in
    the wrong place. *)
Lemma control_kinds_refused rec :
  (∃ t d w h sn sd, 0 ≤ t ∧ is_u32 d ∧ encode_task_bounds t d w h sn sd = Ok rec)
  ∨ (∃ t f, 0 ≤ t ∧ encode_task_focus t f = Ok rec) ∨ (∃ t, 0 ≤ t ∧ encode_task_close t = Ok rec) →
  decode rec = Err TaskIdError.
Proof.
  assert (Hdec : ∀ t, word 8 rec = t → 0 ≤ t ≤ i32_max → length rec = 48%nat → take 4 rec = MAGIC →
    slice 4 6 rec = le_bytes 2 PROTOCOL_MAJOR → byte_at 6 rec ≠ KIND_DISPLAY_POWER → word 36 rec = 0 →
    decode rec = Err TaskIdError).
  { intros t Ht Hr Hl Hm Hv Hk H36. rewrite decode_input by done. unfold decode_sample.
    rewrite Ht, H36, (proj2 (Z.leb_le t _)) by lia. done. }
  intros [(t & d & w & h & sn & sd & Ht & Hd & He)|[(t & f & Ht & He)|(t & Ht & He)]].
  - unfold encode_task_bounds in He. inv_ok. apply wire_task_Ok in Hm as (-> & Hn & Hmax). subst rec.
    assert (is_u32 t) by (unfold is_u32, i32_max in *; lia).
    apply (Hdec t); try reflexivity; [fields; field_value|done|]. fields. done.
  - unfold encode_task_focus in He. inv_ok. apply wire_task_Ok in Hm as (-> & Hn & Hmax). subst rec.
    assert (is_u32 t) by (unfold is_u32, i32_max in *; lia).
    apply (Hdec t); try reflexivity; [fields; field_value|done|]. fields. done.
  - unfold encode_task_close in He. inv_ok. apply wire_task_Ok in Hm as (-> & Hn & Hmax). subst rec.
    assert (is_u32 t) by (unfold is_u32, i32_max in *; lia).
    apply (Hdec t); try reflexivity; [fields; field_value|done|]. fields. done.
Qed.

(** Scaling a fixed-point coordinate never overflows on the way: for every
    32-bit value and 32-bit scale the 64-bit product exists, and the result is
    the quotient rounded towards zero exactly when it fits a signed 32-bit
    field. *)
Theorem scale_fixed_exact v n d :
  is_i32 v → is_u32 n → is_u32 d →
  scale_fixed v n d =
  if (n =? 0) || (d =? 0) then Err Scale
  else if (-2147483648 <=? Z.quot (v * n) d) && (Z.quot (v * n) d <=? i32_max)
       then Ok (Z.quot (v * n) d) else Err Coordinate.
Proof.
  intros Hv Hn Hd. unfold scale_fixed, fail_if. destruct (_ || _); [done|]. rewrite ok_bind.
  assert (checked_mul_i64 v n = Some (v * n)) as ->; [|done].
  unfold checked_mul_i64, i64_max. unfold is_i32, is_u32 in *.
  rewrite (proj2 (Z.leb_le _ _)), (proj2 (Z.leb_le _ _)) by nia. done.
Qed.

(** The five digits of the marker name the version. *)
Definition digit (marker : list Z) (i : nat) : Z := nth i marker 0 - 48.

Lemma compatibility_marker_digits v :
  0 ≤ v < 100000 →
  let m := compatibility_marker v in
  length m = 26%nat ∧ take 20 m = take 20 MARKER
  ∧ digit m 20 * 10000 + digit m 21 * 1000 + digit m 22 * 100 + digit m 23 * 10 + digit m 24 = v
  ∧ Forall (λ i, 0 ≤ digit m i ≤ 9) [20%nat; 21%nat; 22%nat; 23%nat; 24%nat].
Proof.
  intros Hv m. subst m. unfold compatibility_marker, digit. cbn.
  pose proof (Z.div_mod v 10 ltac:(lia)). pose proof (Z.mod_pos_bound v 10 ltac:(lia)).
  pose proof (Z.div_mod (v / 10) 10 ltac:(lia)). pose proof (Z.mod_pos_bound (v / 10) 10 ltac:(lia)).
  pose proof (Z.div_mod (v / 10 / 10) 10 ltac:(lia)).
  pose proof (Z.mod_pos_bound (v / 10 / 10) 10 ltac:(lia)).
  pose proof (Z.div_mod (v / 10 / 10 / 10) 10 ltac:(lia)).
  pose proof (Z.mod_pos_bound (v / 10 / 10 / 10) 10 ltac:(lia)).
  pose proof (Z.div_mod (v / 10 / 10 / 10 / 10) 10 ltac:(lia)).
  pose proof (Z.mod_pos_bound (v / 10 / 10 / 10 / 10) 10 ltac:(lia)).
  split_and!; try done; [lia|]. rewrite !Forall_cons. split_and!; try lia. by apply Forall_nil.
Qed.

(** ** Concrete records *)

Definition demo_touch : list Z :=
  match encode_touch 2 42 1000 0 3 (5 * 65536) (-65536) 65535 9 with Ok r => r | Err _ => [] end.

Lemma touch_roundtrip_witness :
  length demo_touch = RECORD_BYTES
  ∧ decode demo_touch = Ok (InputRecord (mkSample 2 42 9 1000 0 3 (touch_values (5 * 65536) (-65536) 65535))).
Proof.
  apply (touch_roundtrip 2 42 1000 0 3 (5 * 65536) (-65536) 65535 9 demo_touch);
    try (unfold_ints; lia). reflexivity.
Defined.

Lemma input_decode_canonical_witness :
  ∃ x y pr, touch_values (5 * 65536) (-65536) 65535 = touch_values x y pr
  ∧ encode_touch 2 42 1000 0 3 x y pr 9 = Ok demo_touch.
Proof.
  apply (input_decode_canonical demo_touch
           (InputRecord (mkSample 2 42 9 1000 0 3 (touch_values (5 * 65536) (-65536) 65535)))).
  - vm_compute. repeat (constructor; [split; [discriminate|reflexivity]|]). constructor.
  - vm_compute. reflexivity.
Defined.

Lemma scale_fixed_exact_witness : scale_fixed (-2147483648) 3 2 = Err Coordinate.
Proof. apply (scale_fixed_exact (-2147483648) 3 2); unfold_ints; lia. Defined.
