(* ===== verification/InputEngine.v ===== *)
(** * The input routing engine (android/framework/droidloom-window-policy/src/input.rs)

    Turns validated samples into Android motion and key events for the window
    that owns the task.  The state keeps the published targets, the contacts of
    each task's gesture, the pressed keys, the lock modifiers and the contacts
    that another task's gesture suppresses.  Ordered maps that are iterated are
    listed in key order; an [Event]'s pointer array has 32 slots. *)

From S2P Require Import Prelude Bytes InputRecords.

(** ** Key codes (input_keys.rs) *)

Definition key_table : list (Z * Z) :=
  [(1, 111); (2, 8); (3, 9); (4, 10); (5, 11); (6, 12); (7, 13); (8, 14); (9, 15);
   (10, 16); (11, 7); (12, 69); (13, 70); (14, 67); (15, 61); (16, 45); (17, 51);
   (18, 33); (19, 46); (20, 48); (21, 53); (22, 49); (23, 37); (24, 43); (25, 44);
   (26, 71); (27, 72); (28, 66); (29, 113); (30, 29); (31, 47); (32, 32); (33, 34);
   (34, 35); (35, 36); (36, 38); (37, 39); (38, 40); (39, 74); (40, 75); (41, 68);
   (42, 59); (43, 73); (44, 54); (45, 52); (46, 31); (47, 50); (48, 30); (49, 42);
   (50, 41); (51, 55); (52, 56); (53, 76); (54, 60); (56, 57); (57, 62); (58, 115);
   (59, 131); (60, 132); (61, 133); (62, 134); (63, 135); (64, 136); (65, 137); (66, 138);
   (67, 139); (68, 140); (87, 141); (88, 142); (96, 160); (97, 114); (100, 58);
   (102, 122); (103, 19); (104, 92); (105, 21); (106, 22); (107, 123); (108, 20);
   (109, 93); (110, 124); (111, 112); (125, 117); (126, 118); (139, 82); (158, 4);
   (159, 125)].

Definition android_keycode (scan : Z) : option Z :=
  snd <$> find (λ e, e.1 =? scan) key_table.

(** ** Data *)

Definition FLAG_CANCELED : Z := 32.

Record Target : Type := mkInputTarget {
  tg_task : Z;
  tg_display : Z;
  tg_incarnation : Z;
  tg_token : Z;
  tg_left : Z;
  tg_top : Z
}.

Definition identity (t : Target) : Z * Z * Z * Z :=
  (tg_task t, tg_display t, tg_incarnation t, tg_token t).

Record Pointer : Type := mkPointer {
  p_id : Z;
  p_x : f32;
  p_y : f32;
  p_pressure : f32
}.

Definition pointer_default : Pointer := mkPointer 0 f32_zero f32_zero f32_zero.

Record Event : Type := mkEvent {
  ev_kind : Z;
  ev_display : Z;
  ev_action : Z;
  ev_key_code : Z;
  ev_scan_code : Z;
  ev_meta : Z;
  ev_repeat : Z;
  ev_flags : Z;
  ev_count : Z;
  ev_down_time : Z;
  ev_event_time : Z;
  ev_serial : Z;
  ev_pointers : list Pointer
}.

Definition no_pointers : list Pointer := replicate 32 pointer_default.

Record RoutedEvent : Type := mkRouted { re_target : Target; re_event : Event }.

Record Gesture : Type := mkGesture {
  g_down_time : Z;
  g_last_time : Z;
  g_pointers : gmap Z Pointer
}.

Record Key : Type := mkKey { k_down_time : Z; k_last_time : Z; k_code : Z }.

Record Engine : Type := mkEngine {
  targets : gmap Z Target;
  gestures : gmap Z Gesture;
  keys : gmap (Z * Z) Key;
  locks : gmap Z Z;
  suppressed : gset (Z * Z)
}.

Definition engine_default : Engine := mkEngine ∅ ∅ ∅ ∅ ∅.

Definition set_targets m e := mkEngine m (gestures e) (keys e) (locks e) (suppressed e).
Definition set_gestures m e := mkEngine (targets e) m (keys e) (locks e) (suppressed e).
Definition set_keys m e := mkEngine (targets e) (gestures e) m (locks e) (suppressed e).
Definition set_locks m e := mkEngine (targets e) (gestures e) (keys e) m (suppressed e).
Definition set_suppressed s e := mkEngine (targets e) (gestures e) (keys e) (locks e) s.

(** The [&'static str] of a failure. *)
Inductive EngineError : Type :=
| InvalidTouchSample | DuplicateTouchDown | TouchHasNoDown | PointerHasNoDown | TouchAction
| UnsupportedKey | DuplicateKeyDown | KeyHasNoDown.

Definition en_method := method Engine EngineError.

(** ** Motion events *)

(** One slot of the pointer array. *)
Definition placed (target : Target) (action : Z) (p : Pointer) : Pointer :=
  mkPointer (p_id p) (f32_add (p_x p) (f32_of_Z (tg_left target)))
    (f32_add (p_y p) (f32_of_Z (tg_top target)))
    (if (action =? 1) || (action =? 3) then f32_zero else p_pressure p).

(** [event.pointers.iter_mut().zip(values)]. *)
Fixpoint fill (slots values : list Pointer) : list Pointer :=
  match slots, values with
  | _ :: slots, v :: values => v :: fill slots values
  | slots, _ => slots
  end.

Definition advance (now : Z) (g : Gesture) : Gesture :=
  mkGesture (g_down_time g) (Z.max now (g_last_time g)) (g_pointers g).

(** [motion] also updates the gesture's last time: [advance]. *)
Definition motion (target : Target) (g : Gesture) (action now : Z) : Event :=
  let g := advance now g in
  mkEvent 1 (tg_display target) action 0 0 0 0 (if action =? 3 then FLAG_CANCELED else 0)
    (Z.of_nat (size (g_pointers g))) (g_down_time g) (g_last_time g) 0
    (fill no_pointers (placed target action <$> btree_values (g_pointers g))).

(** ** Meta state *)

Definition modifier_bits (code : Z) : Z :=
  if code =? 59 then 65 else if code =? 60 then 129 else if code =? 57 then 18
  else if code =? 58 then 34 else if code =? 113 then 12288 else if code =? 114 then 20480
  else if code =? 117 then 196608 else if code =? 118 then 327680 else 0.

Definition lock_bit (code : Z) : Z :=
  if code =? 115 then 1048576 else if code =? 143 then 2097152
  else if code =? 116 then 4194304 else 0.

(** The keys a task holds, as scan codes in order. *)
Definition task_keys (task : Z) (m : gmap (Z * Z) Key) : list (Z * Key) :=
  omap (λ '((owner, scan), k), if decide (owner = task) then Some (scan, k) else None)
    (map_to_list m).

Definition scan_le (p q : Z * Key) : Prop := p.1 ≤ q.1.
#[global] Instance scan_le_dec p q : Decision (scan_le p q).
Proof. unfold scan_le. apply _. Defined.

Definition sorted_task_keys (task : Z) (m : gmap (Z * Z) Key) : list (Z * Key) :=
  merge_sort scan_le (task_keys task m).

Definition meta (task : Z) (e : Engine) : Z :=
  foldl (λ acc k, Z.lor acc (modifier_bits (k_code k.2))) (default 0 (locks e !! task))
    (sorted_task_keys task (keys e)).

(** ** Cancellation *)

(** The loop over the task's keys: each is removed, then reported with the meta
    state of the keys still held. *)
Fixpoint cancel_keys (target : Target) (task now : Z) (ks : list (Z * Key)) (e : Engine)
  : Engine * list RoutedEvent :=
  match ks with
  | [] => (e, [])
  | (scan, k) :: ks =>
      let e := set_keys (delete (task, scan) (keys e)) e in
      let event := mkRouted target
        (mkEvent 2 (tg_display target) 1 (k_code k) scan (meta task e) 0 104 0
           (k_down_time k) (Z.max now (k_last_time k)) 0 no_pointers) in
      let '(e, events) := cancel_keys target task now ks e in
      (e, event :: events)
  end.

(** [suppressed.retain(|(owner, _)| owner != task)]. *)
Definition unsuppress (task : Z) (e : Engine) : Engine :=
  set_suppressed (filter (λ c, c.1 ≠ task) (suppressed e)) e.

Definition cancel_gesture (target : Target) (task now : Z) (e : Engine)
  : Engine * list RoutedEvent :=
  match gestures e !! task with
  | Some g =>
      (set_gestures (delete task (gestures e)) e, [mkRouted target (motion target g 3 now)])
  | None => (e, [])
  end.

Definition cancel_task (task now : Z) (e : Engine) : Engine * list RoutedEvent :=
  let e := unsuppress task e in
  match targets e !! task with
  | None => (e, [])
  | Some target =>
      let '(e, motions) := cancel_gesture target task now e in
      let '(e, ups) := cancel_keys target task now (sorted_task_keys task (keys e)) e in
      (set_locks (delete task (locks e)) e, motions ++ ups)
  end.

(** ** Publication *)

Definition publish (target : Target) (now : Z) (e : Engine) : Engine * list RoutedEvent :=
  let '(e, cancelled) :=
    match targets e !! tg_task target with
    | Some old =>
        if decide (identity old = identity target) then (e, []) else cancel_task (tg_task target) now e
    | None => (e, [])
    end in
  (set_targets (<[tg_task target := target]> (targets e)) e, cancelled).

Definition retire (task incarnation now : Z) (e : Engine) : Engine * list RoutedEvent :=
  match targets e !! task with
  | Some target =>
      if tg_incarnation target =? incarnation then
        let '(e, cancelled) := cancel_task task now e in
        (set_targets (delete task (targets e)) e, cancelled)
      else (e, [])
  | None => (e, [])
  end.

Fixpoint cancel_tasks (tasks : list Z) (now : Z) (e : Engine) : Engine * list RoutedEvent :=
  match tasks with
  | [] => (e, [])
  | task :: tasks =>
      let '(e, events) := cancel_task task now e in
      let '(e, rest) := cancel_tasks tasks now e in
      (e, events ++ rest)
  end.

Definition reset (now : Z) (e : Engine) : Engine * list RoutedEvent :=
  let e := set_suppressed ∅ e in
  cancel_tasks (fst <$> btree_items (targets e)) now e.

(** Only what Android accepted is committed. *)
Definition acknowledge_cancel (event : RoutedEvent) (e : Engine) : Engine :=
  if ev_kind (re_event event) =? 1 then
    set_gestures (delete (tg_task (re_target event)) (gestures e)) e
  else if ev_kind (re_event event) =? 2 then
    if 0 <=? ev_scan_code (re_event event) then
      set_keys (delete (tg_task (re_target event), ev_scan_code (re_event event)) (keys e)) e
    else e
  else e.

(** ** Samples *)

Definition suppress_touch (sample : Sample) (e : Engine) : Engine * bool :=
  let contact := (sm_task sample, sm_code sample) in
  if decide (contact ∈ suppressed e) then
    (if sm_action sample =? 2 then set_suppressed (suppressed e ∖ {[contact]}) e
     else if sm_action sample =? 3 then unsuppress (sm_task sample) e
     else e, true)
  else if existsb (λ task, negb (task =? sm_task sample)
                           && from_option (λ t, tg_display t =? sm_display sample) false
                                (targets e !! task))
            (fst <$> map_to_list (gestures e)) then
    (if sm_action sample =? 0 then set_suppressed ({[contact]} ∪ suppressed e) e else e, true)
  else (e, false).

(** [pointers.keys().position(..)]: in key order, the number of smaller keys. *)
Definition pointer_index (code : Z) (m : gmap Z Pointer) : Z :=
  Z.of_nat (length (filter (λ k, k < code) (fst <$> map_to_list m))).

(** The Android action; [None] is the unreachable arm. *)
Definition touch_action (action count index : Z) : option Z :=
  if action =? 0 then Some (if count =? 1 then 0 else Z.lor 5 (Z.shiftl index 8))
  else if action =? 1 then Some 2
  else if action =? 2 then Some (if count =? 1 then 1 else Z.lor 6 (Z.shiftl index 8))
  else if action =? 3 then Some 3
  else None.

(** [entry(task).or_insert_with(..)]. *)
Definition begin_gesture (sample : Sample) (e : Engine) : Engine :=
  match gestures e !! sm_task sample with
  | Some _ => e
  | None =>
      set_gestures (<[sm_task sample := mkGesture (sm_timestamp sample) (sm_timestamp sample) ∅]>
                      (gestures e)) e
  end.

(** What remains of a gesture after its event. *)
Definition end_contact (sample : Sample) (g : Gesture) (m : gmap Z Gesture) : gmap Z Gesture :=
  let g := if sm_action sample =? 2
           then mkGesture (g_down_time g) (g_last_time g) (delete (sm_code sample) (g_pointers g))
           else g in
  if (sm_action sample =? 3) || bool_decide (g_pointers g = ∅)
  then delete (sm_task sample) m else <[sm_task sample := g]> m.

Definition touch (sample : Sample) (target : Target) (x y pressure : f32) : en_method Event :=
  reject ((MAX_POINTER_ID <? sm_code sample) || (3 <? sm_action sample)) InvalidTouchSample;;
  e ← get;
  reject ((sm_action sample =? 0)
          && from_option (λ g, bool_decide (is_Some (g_pointers g !! sm_code sample))) false
               (gestures e !! sm_task sample)) DuplicateTouchDown;;
  (if sm_action sample =? 0 then modify (begin_gesture sample) else mret tt);;
  e ← get;
  g ← lift (ok_or (gestures e !! sm_task sample) TouchHasNoDown);
  reject (negb (sm_action sample =? 0)
          && negb (bool_decide (is_Some (g_pointers g !! sm_code sample)))) PointerHasNoDown;;
  let g := mkGesture (g_down_time g) (g_last_time g)
             (<[sm_code sample := mkPointer (sm_code sample) x y pressure]> (g_pointers g)) in
  modify (λ e, set_gestures (<[sm_task sample := g]> (gestures e)) e);;
  action ← lift (ok_or (touch_action (sm_action sample) (Z.of_nat (size (g_pointers g)))
                          (pointer_index (sm_code sample) (g_pointers g))) TouchAction);
  let event := motion target g action (sm_timestamp sample) in
  modify (λ e, set_gestures (end_contact sample (advance (sm_timestamp sample) g) (gestures e)) e);;
  mret event.

Definition toggle_lock (task code : Z) (e : Engine) : Engine :=
  set_locks (<[task := Z.lxor (default 0 (locks e !! task)) (lock_bit code)]> (locks e)) e.

Definition key_event (sample : Sample) (repeat serial : Z) : en_method Event :=
  code ← lift (ok_or (android_keycode (sm_code sample)) UnsupportedKey);
  e ← get;
  let id := (sm_task sample, sm_code sample) in
  let previous := keys e !! id in
  let pressed := sm_action sample =? 0 in
  reject (pressed && (repeat =? 0) && bool_decide (is_Some previous)) DuplicateKeyDown;;
  reject ((negb pressed || negb (repeat =? 0)) && negb (bool_decide (is_Some previous))) KeyHasNoDown;;
  let k := mkKey (from_option k_down_time (sm_timestamp sample) previous)
             (from_option (λ k, Z.max (sm_timestamp sample) (k_last_time k)) (sm_timestamp sample)
                previous) code in
  (if pressed then
     modify (λ e, set_keys (<[id := k]> (keys e)) e);;
     if repeat =? 0 then modify (toggle_lock (sm_task sample) code) else mret tt
   else modify (λ e, set_keys (delete id (keys e)) e));;
  e ← get;
  mret (mkEvent 2 (sm_display sample) (if pressed then 0 else 1) code (sm_code sample)
          (meta (sm_task sample) e) repeat 72 0 (k_down_time k) (k_last_time k) serial no_pointers).

Definition route (sample : Sample) (e : Engine) : option Target :=
  t ← targets e !! sm_task sample;
  if (tg_display t =? sm_display sample) && (tg_incarnation t =? sm_incarnation sample)
  then Some t else None.

Definition process (sample : Sample) : en_method (option RoutedEvent) :=
  e ← get;
  match route sample e with
  | None => mret None
  | Some target =>
      match sm_payload sample with
      | Touch x y pressure =>
          let '(e', quiet) := suppress_touch sample e in
          put e';;
          if quiet then mret None else
          event ← touch sample target x y pressure;
          mret (Some (mkRouted target event))
      | KeyPayload repeat serial =>
          event ← key_event sample repeat serial;
          mret (Some (mkRouted target event))
      end
  end.
