(* ===== verification/InputSpec.v ===== *)
(** * What Android sees of the routed input

    Android's own view of a task's input (which contacts and keys are down) is
    an executable reference: [android_apply] says how an event changes it and
    which events are legal.  The engine's state is that view: every event the
    engine routes is legal and leads to the view of its next state. *)

From S2P Require Import Prelude Bytes InputRecords InputEngine.

(** ** Sorted keys *)

(** In an ordered list without repetitions an element stands behind exactly the
    smaller ones. *)
Lemma sorted_position l c :
  StronglySorted Z.le l → NoDup l → c ∈ l → l !! length (filter (λ k, k < c) l) = Some c.
Proof.
  induction 1 as [|a l Hl IH Hf]; intros Hn Hc; [by apply not_elem_of_nil in Hc|].
  apply NoDup_cons in Hn as [Ha Hn]. rewrite Forall_forall in Hf.
  apply elem_of_cons in Hc as [->|Hc].
  - rewrite filter_cons_False by lia. destruct (filter _ l) as [|x xs] eqn:E; [done|].
    assert (Hx : x ∈ filter (λ k, k < a) l) by (rewrite E; apply elem_of_cons; by left).
    apply list_elem_of_filter in Hx as [Hlt Hx]. apply Hf in Hx. lia.
  - assert (a < c). { apply Hf in Hc as Hle. assert (a ≠ c) by (intros ->; done). lia. }
    rewrite filter_cons_True by done. cbn. by apply IH.
Qed.

(** ** Android's view *)

(** The pointer identities an event lists. *)
Definition event_ids (ev : Event) : list Z :=
  p_id <$> take (Z.to_nat (ev_count ev)) (ev_pointers ev).

(** The contacts of a task after a motion event; [None] is an event Android
    rejects as inconsistent.  The low byte of the action is its kind, the rest
    the index of the pointer that changes. *)
Definition motion_next (S : gset Z) (ev : Event) : option (gset Z) :=
  let ids := event_ids ev in
  let action := ev_action ev in
  let changed := ids !! Z.to_nat (Z.shiftr action 8) in
  if negb (bool_decide (NoDup ids)) then None
  else if action =? 0 then
    if bool_decide (S = ∅) && (length ids =? 1)%nat then Some (list_to_set ids) else None
  else if action =? 1 then
    if bool_decide (list_to_set ids = S) && (length ids =? 1)%nat then Some ∅ else None
  else if action =? 2 then
    if bool_decide (list_to_set ids = S) && negb (bool_decide (S = ∅)) then Some S else None
  else if action =? 3 then
    if bool_decide (list_to_set ids = S) && negb (bool_decide (S = ∅)) then Some ∅ else None
  else c ← changed;
    if Z.land action 255 =? 5 then
      if bool_decide (list_to_set ids = {[c]} ∪ S) && bool_decide (c ∉ S)
         && negb (bool_decide (S = ∅)) then Some ({[c]} ∪ S) else None
    else if Z.land action 255 =? 6 then
      if bool_decide (list_to_set ids = S) && negb (bool_decide (S ∖ {[c]} = ∅))
      then Some (S ∖ {[c]}) else None
    else None.

(** The keys after a key event: a first press finds the key up; repeats and
    releases find it down. *)
Definition keys_next (task : Z) (D : gset (Z * Z)) (ev : Event) : option (gset (Z * Z)) :=
  let k := (task, ev_scan_code ev) in
  if ev_action ev =? 0 then
    if ev_repeat ev =? 0 then if decide (k ∈ D) then None else Some ({[k]} ∪ D)
    else if decide (k ∈ D) then Some D else None
  else if decide (k ∈ D) then Some (D ∖ {[k]}) else None.

Record android : Type := mkAndroid {
  a_contacts : gmap Z (gset Z);
  a_keys : gset (Z * Z)
}.

Definition contacts (task : Z) (m : gmap Z (gset Z)) : gset Z := default ∅ (m !! task).

Definition set_contacts (task : Z) (S : gset Z) (m : gmap Z (gset Z)) : gmap Z (gset Z) :=
  if decide (S = ∅) then delete task m else <[task := S]> m.

Definition android_apply (r : RoutedEvent) (a : android) : option android :=
  let task := tg_task (re_target r) in
  let ev := re_event r in
  if ev_kind ev =? 1 then
    S ← motion_next (contacts task (a_contacts a)) ev;
    Some (mkAndroid (set_contacts task S (a_contacts a)) (a_keys a))
  else if ev_kind ev =? 2 then
    D ← keys_next task (a_keys a) ev;
    Some (mkAndroid (a_contacts a) D)
  else None.

Fixpoint android_run (rs : list RoutedEvent) (a : android) : option android :=
  match rs with [] => Some a | r :: rs => a ← android_apply r a; android_run rs a end.

Lemma android_run_app rs rs' a :
  android_run (rs ++ rs') a = (a' ← android_run rs a; android_run rs' a').
Proof.
  revert a. induction rs as [|r rs IH]; intros a; cbn; [done|].
  destruct (android_apply r a); cbn; [apply IH|done].
Qed.

(** The engine's view. *)
Definition view (e : Engine) : android :=
  mkAndroid ((λ g, dom (g_pointers g)) <$> gestures e) (dom (keys e)).

(** ** The engine's invariant *)

Definition gesture_ok (g : Gesture) : Prop :=
  g_pointers g ≠ ∅ ∧ g_down_time g ≤ g_last_time g
  ∧ ∀ c p, g_pointers g !! c = Some p → 0 ≤ c ≤ MAX_POINTER_ID ∧ p_id p = c.

Definition key_ok (scan : Z) (k : Key) : Prop :=
  android_keycode scan = Some (k_code k) ∧ k_down_time k ≤ k_last_time k.

Record en_inv (e : Engine) : Prop := {
  ei_target task t : targets e !! task = Some t → tg_task t = task;
  ei_gesture task g : gestures e !! task = Some g → is_Some (targets e !! task) ∧ gesture_ok g;
  ei_key task scan k : keys e !! (task, scan) = Some k → is_Some (targets e !! task) ∧ key_ok scan k;
  ei_owner task task' t t' :
    is_Some (gestures e !! task) → is_Some (gestures e !! task') →
    targets e !! task = Some t → targets e !! task' = Some t' →
    tg_display t = tg_display t' → task = task';
  ei_suppressed task c g :
    (task, c) ∈ suppressed e → gestures e !! task = Some g → g_pointers g !! c = None
}.

Lemma engine_default_inv : en_inv engine_default.
Proof. by split. Qed.

(** ** Motion events *)

Lemma fill_take (slots values : list Pointer) :
  (length values ≤ length slots)%nat → take (length values) (fill slots values) = values.
Proof.
  revert values. induction slots as [|s slots IH]; intros [|v values]; cbn; try done; try lia.
  intros H. f_equal. apply IH. lia.
Qed.

Lemma pointer_count (m : gmap Z Pointer) :
  (∀ c p, m !! c = Some p → 0 ≤ c ≤ MAX_POINTER_ID ∧ p_id p = c) → (size m ≤ 32)%nat.
Proof.
  intros Hm. assert (dom m ⊆ list_to_set (seqZ 0 32)) as Hsub.
  { intros c [p Hp]%elem_of_dom. apply elem_of_list_to_set, elem_of_seqZ.
    apply Hm in Hp. unfold MAX_POINTER_ID in Hp. lia. }
  apply subseteq_size in Hsub. rewrite size_dom, size_list_to_set in Hsub by apply NoDup_seqZ.
  rewrite length_seqZ in Hsub. lia.
Qed.

Lemma length_btree_values {A} (m : gmap Z A) : length (btree_values m) = size m.
Proof.
  unfold btree_values, btree_items. rewrite length_fmap, (Permutation_length (merge_sort_Permutation _ _)).
  by rewrite length_map_to_list.
Qed.

(** A motion event lists the contacts of its gesture in order. *)
Lemma motion_ids target g action now :
  (∀ c p, g_pointers g !! c = Some p → 0 ≤ c ≤ MAX_POINTER_ID ∧ p_id p = c) →
  event_ids (motion target g action now) = (btree_items (g_pointers g)).*1.
Proof.
  intros Hg. unfold event_ids, motion.
  cbn [ev_count ev_pointers advance g_pointers]. rewrite Nat2Z.id, <- length_btree_values.
  rewrite <- (length_fmap (placed target action) (btree_values (g_pointers g))), fill_take.
  2:{ rewrite length_fmap, length_btree_values. unfold no_pointers. rewrite length_replicate.
      by apply pointer_count. }
  unfold btree_values. rewrite <- !list_fmap_compose. apply list_fmap_ext.
  intros i [c p] Hi. cbn. assert (Hin : (c, p) ∈ btree_items (g_pointers g)).
  { apply list_elem_of_lookup. eauto. }
  apply btree_items_elem, Hg in Hin. tauto.
Qed.

Lemma btree_keys_set {A} (m : gmap Z A) : list_to_set (btree_items m).*1 =@{gset Z} dom m.
Proof. apply set_eq. intros k. by rewrite elem_of_list_to_set, btree_keys_elem, elem_of_dom. Qed.

Lemma length_btree_keys {A} (m : gmap Z A) : length (btree_items m).*1 = size m.
Proof. rewrite <- length_btree_values. unfold btree_values. by rewrite !length_fmap. Qed.

Lemma pointer_index_lookup c (m : gmap Z Pointer) :
  is_Some (m !! c) → (btree_items m).*1 !! Z.to_nat (pointer_index c m) = Some c.
Proof.
  intros Hc. unfold pointer_index. rewrite Nat2Z.id.
  rewrite <- (Permutation_length (filter_Permutation (λ k, k < c) _ _ (btree_items_keys m))).
  apply sorted_position; [apply btree_items_sorted|apply btree_keys_NoDup|by apply btree_keys_elem].
Qed.

Lemma pointer_index_bound c (m : gmap Z Pointer) :
  (size m ≤ 32)%nat → is_Some (m !! c) → 0 ≤ pointer_index c m < 32.
Proof.
  intros Hs Hc. pose proof (pointer_index_lookup c m Hc) as Hl. apply lookup_lt_Some in Hl.
  rewrite length_btree_keys in Hl. unfold pointer_index in *. lia.
Qed.

(** Packing a pointer index into an action. *)
Lemma packed_action k i :
  k = 5 ∨ k = 6 → 0 ≤ i < 32 →
  let a := Z.lor k (Z.shiftl i 8) in
  3 < a ∧ Z.shiftr a 8 = i ∧ Z.land a 255 = k.
Proof.
  intros Hk Hi a. subst a.
  assert (Hall : Forall (λ i, 3 < Z.lor k (Z.shiftl i 8) ∧ Z.shiftr (Z.lor k (Z.shiftl i 8)) 8 = i
                          ∧ Z.land (Z.lor k (Z.shiftl i 8)) 255 = k) (seqZ 0 32)).
  { destruct Hk as [->| ->]; cbn; repeat (apply Forall_cons; split; [by split_and!|]); by apply Forall_nil. }
  rewrite Forall_forall in Hall. apply Hall, elem_of_seqZ. lia.
Qed.

(** A packed action is none of the plain ones. *)
Lemma packed_not_plain {A} a (x y z t u : A) :
  3 < a → (if a =? 0 then x else if a =? 1 then y else if a =? 2 then z else if a =? 3 then t else u) = u.
Proof.
  intros H. destruct (Z.eqb_spec a 0), (Z.eqb_spec a 1), (Z.eqb_spec a 2), (Z.eqb_spec a 3); lia || done.
Qed.

(** Removing the only contact, and one of several. *)
Lemma remove_last (X : gset Z) c : c ∈ X → (X ∖ {[c]} = ∅ ↔ size X = 1%nat).
Proof.
  intros Hc. split.
  - intros E. assert (X = {[c]}) as -> by (apply set_eq; intros y; destruct (decide (y = c)); set_solver).
    apply size_singleton.
  - intros [d Hd]%size_1_elem_of. set_solver.
Qed.

(** The contacts before a sample, and the gesture it makes of them. *)
Definition pointers_of (task : Z) (e : Engine) : gmap Z Pointer :=
  from_option g_pointers ∅ (gestures e !! task).

Definition touched (sample : Sample) (x y pressure : f32) (e : Engine) : Gesture :=
  let g := default (mkGesture (sm_timestamp sample) (sm_timestamp sample) ∅)
             (gestures e !! sm_task sample) in
  mkGesture (g_down_time g) (g_last_time g)
    (<[sm_code sample := mkPointer (sm_code sample) x y pressure]> (g_pointers g)).

Record touchable (sample : Sample) (e : Engine) : Prop := {
  tc_code : sm_code sample ≤ MAX_POINTER_ID;
  tc_action : sm_action sample ≤ 3;
  tc_contact : if sm_action sample =? 0 then pointers_of (sm_task sample) e !! sm_code sample = None
               else is_Some (pointers_of (sm_task sample) e !! sm_code sample)
}.

Lemma end_contact_insert sample g g' m :
  end_contact sample g (<[sm_task sample := g']> m) = end_contact sample g m.
Proof.
  unfold end_contact. destruct (_ || _); [apply delete_insert_eq|apply insert_insert_eq].
Qed.

Lemma set_gestures_twice m m' e : set_gestures m (set_gestures m' e) = set_gestures m e.
Proof. done. Qed.

Definition touch_result (sample : Sample) (target : Target) (x y pressure : f32) (e : Engine)
    (action : Z) : Engine * Event :=
  let g := touched sample x y pressure e in
  (set_gestures (end_contact sample (advance (sm_timestamp sample) g) (gestures e)) e,
   motion target g action (sm_timestamp sample)).

Lemma touch_runs sample target x y pressure e action :
  touchable sample e →
  touch_action (sm_action sample) (Z.of_nat (size (g_pointers (touched sample x y pressure e))))
    (pointer_index (sm_code sample) (g_pointers (touched sample x y pressure e))) = Some action →
  touch sample target x y pressure e =
  ((touch_result sample target x y pressure e action).1,
   Ok (touch_result sample target x y pressure e action).2).
Proof.
  intros [Hc Ha Hcontact] Hact. unfold touch, mbind, method_bind, get, reject, lift.
  rewrite (proj2 (Z.ltb_ge MAX_POINTER_ID _)), (proj2 (Z.ltb_ge 3 _)) by done. cbn [orb].
  unfold pointers_of in Hcontact. unfold touch_result, touched in *.
  destruct (Z.eqb_spec (sm_action sample) 0) as [Ha0|Ha0]; cbn [andb negb].
  - destruct (gestures e !! sm_task sample) as [g|] eqn:Hg; cbn in Hcontact, Hact |- *.
    + rewrite bool_decide_false by (rewrite Hcontact; by intros [? [=]]).
      unfold modify, begin_gesture. rewrite Hg. cbn [ok_or]. rewrite Hg. cbn. rewrite Hact. cbn.
      by rewrite end_contact_insert.
    + unfold modify, begin_gesture. rewrite Hg. cbn. rewrite lookup_insert_eq. cbn. rewrite Hact. cbn.
      by rewrite !end_contact_insert.
  - destruct (gestures e !! sm_task sample) as [g|] eqn:Hg; cbn in Hcontact, Hact |- *.
    + rewrite Hg. cbn. rewrite bool_decide_true by done. cbn. rewrite Hact. cbn.
      by rewrite end_contact_insert.
    + rewrite lookup_empty in Hcontact. by destruct Hcontact.
Qed.

#[global] Instance touchable_dec sample e : Decision (touchable sample e).
Proof.
  destruct (decide (sm_code sample ≤ MAX_POINTER_ID)); [|by right; intros [? _ _]].
  destruct (decide (sm_action sample ≤ 3)); [|by right; intros [_ ? _]].
  assert (Hd : Decision (if sm_action sample =? 0
      then pointers_of (sm_task sample) e !! sm_code sample = None
      else is_Some (pointers_of (sm_task sample) e !! sm_code sample)))
    by (destruct (sm_action sample =? 0); apply _).
  destruct Hd as [Hc|Hc].
  - by left.
  - by right; intros [_ _ ?].
Defined.

Lemma touch_refused sample target x y pressure e :
  ~ touchable sample e → ∃ err, touch sample target x y pressure e = (e, Err err).
Proof.
  intros Hn. unfold touch, mbind, method_bind, get, reject, lift.
  destruct (Z.ltb_spec MAX_POINTER_ID (sm_code sample)) as [|Hc]; [eauto|].
  destruct (Z.ltb_spec 3 (sm_action sample)) as [|Ha]; [eauto|]. cbn [orb].
  assert (Hno : ~ if sm_action sample =? 0 then pointers_of (sm_task sample) e !! sm_code sample = None
               else is_Some (pointers_of (sm_task sample) e !! sm_code sample)).
  { intros H. by apply Hn. }
  clear Hn. unfold pointers_of in Hno. destruct (sm_action sample =? 0); cbn [andb negb].
  - destruct (gestures e !! sm_task sample) as [g|]; cbn in Hno |- *; [|by rewrite lookup_empty in Hno].
    rewrite bool_decide_true by (by apply not_eq_None_Some). eauto.
  - destruct (gestures e !! sm_task sample) as [g|] eqn:Hg; cbn; rewrite ?Hg; cbn; [|eauto].
    cbn in Hno. rewrite bool_decide_false by done. eauto.
Qed.

Lemma touch_action_Some a count index : 0 ≤ a ≤ 3 → ∃ x, touch_action a count index = Some x.
Proof.
  intros Ha. unfold touch_action. assert (a = 0 ∨ a = 1 ∨ a = 2 ∨ a = 3) as [->|[->|[->| ->]]] by lia;
    cbn; eauto.
Qed.

(** The contacts a sample leaves. *)
Definition contacts_after (sample : Sample) (P : gmap Z Pointer) : gset Z :=
  if sm_action sample =? 2 then dom P ∖ {[sm_code sample]}
  else if sm_action sample =? 3 then ∅
  else {[sm_code sample]} ∪ dom P.

Lemma view_end_contact sample g m :
  ((λ g, dom (g_pointers g)) <$> end_contact sample g m)
  = set_contacts (sm_task sample)
      (if sm_action sample =? 3 then ∅
       else if sm_action sample =? 2 then dom (g_pointers g) ∖ {[sm_code sample]}
       else dom (g_pointers g)) ((λ g, dom (g_pointers g)) <$> m).
Proof.
  unfold end_contact, set_contacts. destruct (Z.eqb_spec (sm_action sample) 3) as [E3|E3]; cbn [orb].
  { rewrite decide_True by done. by rewrite fmap_delete. }
  set (g' := if sm_action sample =? 2 then _ else _).
  assert (Hdom : dom (g_pointers g') = if sm_action sample =? 2
    then dom (g_pointers g) ∖ {[sm_code sample]} else dom (g_pointers g)).
  { subst g'. destruct (sm_action sample =? 2); cbn; [apply dom_delete_L|done]. }
  rewrite <- Hdom. destruct (decide (g_pointers g' = ∅)) as [E|E].
  - rewrite bool_decide_true by done. rewrite decide_True by (rewrite E; apply dom_empty_L).
    by rewrite fmap_delete.
  - rewrite bool_decide_false by done. rewrite decide_False by (by rewrite dom_empty_iff_L).
    by rewrite fmap_insert.
Qed.

Lemma contacts_view task e :
  contacts task (a_contacts (view e)) = dom (pointers_of task e).
Proof.
  unfold contacts, view, pointers_of; cbn. rewrite lookup_fmap.
  destruct (gestures e !! task); cbn; [done|]. by rewrite dom_empty_L.
Qed.

Lemma touched_pointers sample x y pressure e :
  g_pointers (touched sample x y pressure e)
  = <[sm_code sample := mkPointer (sm_code sample) x y pressure]> (pointers_of (sm_task sample) e).
Proof. unfold touched, pointers_of; cbn. by destruct (gestures e !! sm_task sample). Qed.

(** The legality of the event of a sample, by the size of the gesture. *)
Lemma motion_event_legal target g a now S :
  (∀ c p, g_pointers g !! c = Some p → 0 ≤ c ≤ MAX_POINTER_ID ∧ p_id p = c) →
  motion_next S (motion target g a now) =
  let ids := (btree_items (g_pointers g)).*1 in
  let changed := ids !! Z.to_nat (Z.shiftr a 8) in
  if a =? 0 then if bool_decide (S = ∅) && (size (g_pointers g) =? 1)%nat then Some (dom (g_pointers g)) else None
  else if a =? 1 then if bool_decide (dom (g_pointers g) = S) && (size (g_pointers g) =? 1)%nat then Some ∅ else None
  else if a =? 2 then if bool_decide (dom (g_pointers g) = S) && negb (bool_decide (S = ∅)) then Some S else None
  else if a =? 3 then if bool_decide (dom (g_pointers g) = S) && negb (bool_decide (S = ∅)) then Some ∅ else None
  else c ← changed;
    if Z.land a 255 =? 5 then
      if bool_decide (dom (g_pointers g) = {[c]} ∪ S) && bool_decide (c ∉ S)
         && negb (bool_decide (S = ∅)) then Some ({[c]} ∪ S) else None
    else if Z.land a 255 =? 6 then
      if bool_decide (dom (g_pointers g) = S) && negb (bool_decide (S ∖ {[c]} = ∅))
      then Some (S ∖ {[c]}) else None
    else None.
Proof.
  intros Hg. unfold motion_next. rewrite (motion_ids target g a now Hg). cbn [ev_action motion].
  rewrite bool_decide_true by apply btree_keys_NoDup. cbn [negb].
  by rewrite btree_keys_set, length_btree_keys.
Qed.

Lemma pointers_ok task e c p :
  en_inv e → pointers_of task e !! c = Some p → 0 ≤ c ≤ MAX_POINTER_ID ∧ p_id p = c.
Proof.
  intros He. unfold pointers_of. destruct (gestures e !! task) as [g|] eqn:Hg; cbn.
  - apply (ei_gesture _ He) in Hg as (_ & _ & _ & Hp). apply Hp.
  - by rewrite lookup_empty.
Qed.

Lemma touched_ok sample x y pressure e c p :
  en_inv e → 0 ≤ sm_code sample → touchable sample e →
  g_pointers (touched sample x y pressure e) !! c = Some p → 0 ≤ c ≤ MAX_POINTER_ID ∧ p_id p = c.
Proof.
  intros He Hc Ht. rewrite touched_pointers. intros [[<- <-]|[_ H]]%lookup_insert_Some; cbn.
  - split; [|done]. split; [done|apply Ht].
  - by eapply pointers_ok.
Qed.

Lemma touched_dom sample x y pressure e :
  dom (g_pointers (touched sample x y pressure e))
  = {[sm_code sample]} ∪ dom (pointers_of (sm_task sample) e).
Proof. rewrite touched_pointers. apply dom_insert_L. Qed.

(** The event of each action on the contacts before it. *)
Lemma down_legal sample target x y pressure e action :
  en_inv e → 0 ≤ sm_code sample → touchable sample e → sm_action sample = 0 →
  let g := touched sample x y pressure e in
  touch_action 0 (Z.of_nat (size (g_pointers g))) (pointer_index (sm_code sample) (g_pointers g))
    = Some action →
  motion_next (dom (pointers_of (sm_task sample) e)) (motion target g action (sm_timestamp sample))
  = Some (dom (g_pointers g)).
Proof.
  intros He Hc Ht Ha g Hact.
  assert (Hok : ∀ c p, g_pointers g !! c = Some p → 0 ≤ c ≤ MAX_POINTER_ID ∧ p_id p = c)
    by (intros; by eapply touched_ok).
  pose proof (tc_contact _ _ Ht) as Hnew. rewrite Ha in Hnew. cbn in Hnew.
  pose proof (touched_dom sample x y pressure e) as Hdom. fold g in Hdom.
  rewrite motion_event_legal by done. cbv zeta.
  assert (Hin : is_Some (g_pointers g !! sm_code sample)).
  { subst g. rewrite touched_pointers, lookup_insert_eq. eauto. }
  assert (Hsize : size (g_pointers g) = S (size (pointers_of (sm_task sample) e))).
  { subst g. rewrite touched_pointers. by apply map_size_insert_None. }
  unfold touch_action in Hact. cbn [Z.eqb] in Hact.
  destruct (Z.eqb_spec (Z.of_nat (size (g_pointers g))) 1) as [E1|E1]; apply (inj Some) in Hact; subst action.
  - assert (pointers_of (sm_task sample) e = ∅) as -> by (apply map_size_empty_inv; lia).
    rewrite dom_empty_L, bool_decide_true by done. cbn [Z.eqb andb].
    rewrite (proj2 (Nat.eqb_eq _ 1)) by lia. done.
  - destruct (packed_action 5 (pointer_index (sm_code sample) (g_pointers g))) as (H3 & Hs & Hl);
      [by left|apply pointer_index_bound; [by apply pointer_count|done]|].
    rewrite packed_not_plain by done.
    rewrite Hs, pointer_index_lookup, Hl by done. cbn.
    rewrite bool_decide_true by done. rewrite bool_decide_true by (by rewrite not_elem_of_dom).
    rewrite bool_decide_false; [cbn; by rewrite <- Hdom|].
    rewrite dom_empty_iff_L. intros E. rewrite E, map_size_empty in Hsize. lia.
Qed.

Lemma held_legal sample target x y pressure e action :
  en_inv e → 0 ≤ sm_code sample → touchable sample e → 1 ≤ sm_action sample →
  let g := touched sample x y pressure e in
  touch_action (sm_action sample) (Z.of_nat (size (g_pointers g)))
    (pointer_index (sm_code sample) (g_pointers g)) = Some action →
  motion_next (dom (pointers_of (sm_task sample) e)) (motion target g action (sm_timestamp sample))
  = Some (if sm_action sample =? 3 then ∅
          else if sm_action sample =? 2 then dom (g_pointers g) ∖ {[sm_code sample]}
          else dom (g_pointers g)).
Proof.
  intros He Hc Ht Ha g Hact.
  assert (Hok : ∀ c p, g_pointers g !! c = Some p → 0 ≤ c ≤ MAX_POINTER_ID ∧ p_id p = c)
    by (intros; by eapply touched_ok).
  pose proof (tc_contact _ _ Ht) as Hold. rewrite (proj2 (Z.eqb_neq (sm_action sample) 0)) in Hold by lia.
  assert (Hdom : dom (g_pointers g) = dom (pointers_of (sm_task sample) e)).
  { subst g. rewrite touched_dom. apply elem_of_dom in Hold. clear -Hold. set_solver. }
  clearbody g. rewrite <- Hdom. rewrite motion_event_legal by done. cbv zeta.
  assert (Hin : is_Some (g_pointers g !! sm_code sample)) by (by rewrite <- elem_of_dom, Hdom, elem_of_dom).
  assert (Hne : dom (g_pointers g) ≠ ∅) by (apply elem_of_dom in Hin; clear -Hin; set_solver).
  pose proof (tc_action _ _ Ht) as H3.
  assert (sm_action sample = 1 ∨ sm_action sample = 2 ∨ sm_action sample = 3) as [E|[E|E]] by lia;
    rewrite E in *; cbn [Z.eqb Pos.eqb]; unfold touch_action in Hact; cbn [Z.eqb Pos.eqb] in Hact.
  - apply (inj Some) in Hact; subst action. cbn [Z.eqb Pos.eqb]. by rewrite bool_decide_true, bool_decide_false by done.
  - destruct (Z.eqb_spec (Z.of_nat (size (g_pointers g))) 1) as [E1|E1]; apply (inj Some) in Hact; subst action.
    + cbn [Z.eqb Pos.eqb]. rewrite bool_decide_true by done. rewrite (proj2 (Nat.eqb_eq _ 1)) by lia. cbn.
      f_equal. symmetry. apply remove_last; [by apply elem_of_dom|]. rewrite size_dom. lia.
    + destruct (packed_action 6 (pointer_index (sm_code sample) (g_pointers g))) as (Hgt & Hs & Hl);
        [by right|apply pointer_index_bound; [by apply pointer_count|done]|].
      rewrite packed_not_plain by done.
      rewrite Hs, pointer_index_lookup, Hl by done. cbn. rewrite bool_decide_true by done.
      rewrite bool_decide_false; [done|]. rewrite remove_last by (by apply elem_of_dom).
      rewrite size_dom. lia.
  - apply (inj Some) in Hact; subst action. cbn [Z.eqb Pos.eqb]. by rewrite bool_decide_true, bool_decide_false by done.
Qed.

(** ** Each operation of the engine *)

Definition sample_ok (s : Sample) : Prop := 0 ≤ sm_action s ∧ 0 ≤ sm_code s.

Lemma touch_cases sample target x y pressure e :
  sample_ok sample →
  (∃ err, touch sample target x y pressure e = (e, Err err))
  ∨ touchable sample e ∧ ∃ action,
      touch_action (sm_action sample) (Z.of_nat (size (g_pointers (touched sample x y pressure e))))
        (pointer_index (sm_code sample) (g_pointers (touched sample x y pressure e))) = Some action
      ∧ touch sample target x y pressure e =
        ((touch_result sample target x y pressure e action).1,
         Ok (touch_result sample target x y pressure e action).2).
Proof.
  intros [Ha Hc]. destruct (decide (touchable sample e)) as [Ht|Ht]; [right|by left; apply touch_refused].
  split; [done|].
  destruct (touch_action_Some (sm_action sample)
      (Z.of_nat (size (g_pointers (touched sample x y pressure e))))
      (pointer_index (sm_code sample) (g_pointers (touched sample x y pressure e)))) as [action Hact].
  { split; [done|apply Ht]. }
  exists action. split; [done|]. by apply touch_runs.
Qed.

Lemma touch_legal sample target x y pressure e action :
  en_inv e → sample_ok sample → touchable sample e → tg_task target = sm_task sample →
  touch_action (sm_action sample) (Z.of_nat (size (g_pointers (touched sample x y pressure e))))
    (pointer_index (sm_code sample) (g_pointers (touched sample x y pressure e))) = Some action →
  let '(e', ev) := touch_result sample target x y pressure e action in
  android_apply (mkRouted target ev) (view e) = Some (view e').
Proof.
  intros He [Ha Hc] Ht Htask Hact. unfold touch_result, android_apply.
  cbn [re_target re_event ev_kind motion Z.eqb Pos.eqb]. rewrite Htask, contacts_view.
  set (g := touched sample x y pressure e) in *.
  assert (motion_next (dom (pointers_of (sm_task sample) e)) (motion target g action (sm_timestamp sample))
    = Some (if sm_action sample =? 3 then ∅
            else if sm_action sample =? 2 then dom (g_pointers g) ∖ {[sm_code sample]}
            else dom (g_pointers g))) as Hm.
  { destruct (Z.eqb_spec (sm_action sample) 0) as [E|E].
    - rewrite E in Hact |- *. subst g. by rewrite (down_legal _ _ _ _ _ e).
    - subst g. apply held_legal; done || lia. }
  rewrite Hm. cbn [mbind option_bind]. unfold view. cbn [gestures keys set_gestures a_contacts a_keys].
  do 2 f_equal. symmetry. apply (view_end_contact sample (advance (sm_timestamp sample) g)).
Qed.

Lemma key_cases sample repeat serial e :
  en_inv e →
  (∃ err, key_event sample repeat serial e = (e, Err err))
  ∨ ∃ e' ev code,
      key_event sample repeat serial e = (e', Ok ev)
      ∧ android_keycode (sm_code sample) = Some code
      ∧ targets e' = targets e ∧ gestures e' = gestures e ∧ suppressed e' = suppressed e
      ∧ keys_next (sm_task sample) (dom (keys e)) ev = Some (dom (keys e'))
      ∧ ev_kind ev = 2
      ∧ ∀ task scan k, keys e' !! (task, scan) = Some k →
          keys e !! (task, scan) = Some k
          ∨ task = sm_task sample ∧ scan = sm_code sample ∧ k_code k = code
            ∧ k_down_time k ≤ k_last_time k.
Proof.
  intros He. unfold key_event, mbind, method_bind, get, reject, lift, modify, mret, method_ret.
  destruct (android_keycode (sm_code sample)) as [code|] eqn:Hcode; cbn [ok_or]; [|eauto].
  set (id := (sm_task sample, sm_code sample)).
  destruct (keys e !! id) as [k0|] eqn:Hk; cbn [from_option];
    [rewrite bool_decide_true by eauto|rewrite bool_decide_false by (by intros [? [=]])];
    destruct (Z.eqb_spec (sm_action sample) 0) as [Ha|Ha];
    destruct (Z.eqb_spec repeat 0) as [Hr|Hr]; cbn [andb orb negb]; eauto; right;
    do 3 eexists; (split; [reflexivity|]); split_and!; try reflexivity; try exact Hcode.
  all: unfold keys_next; cbn -[decide]; fold id.
  - rewrite (proj2 (Z.eqb_neq repeat 0)) by done. rewrite decide_True by (rewrite elem_of_dom; eauto).
    rewrite dom_insert_L. f_equal. assert (id ∈ dom (keys e)) as Hin by (rewrite elem_of_dom; eauto).
    clear -Hin. set_solver.
  - intros task scan k [[[= <- <-] <-]|[_ H]]%lookup_insert_Some; [right|by left]. split_and!; try done.
    cbn. apply (ei_key _ He) in Hk as (_ & _ & Hle). lia.
  - rewrite decide_True by (rewrite elem_of_dom; eauto). by rewrite dom_delete_L.
  - intros task scan k [_ H]%lookup_delete_Some. by left.
  - rewrite decide_True by (rewrite elem_of_dom; eauto). by rewrite dom_delete_L.
  - intros task scan k [_ H]%lookup_delete_Some. by left.
  - rewrite (proj2 (Z.eqb_eq repeat 0)) by done. rewrite decide_False by (by rewrite not_elem_of_dom).
    by rewrite dom_insert_L.
  - intros task scan k [[[= <- <-] <-]|[_ H]]%lookup_insert_Some; [right|by left]. by split_and!.
Qed.

(** What [suppress_touch] does: it only changes the suppressed contacts, and a
    sample it lets through touches no other task's display. *)
Definition display_taken (sample : Sample) (e : Engine) : Prop :=
  ∃ task t, is_Some (gestures e !! task) ∧ task ≠ sm_task sample
            ∧ targets e !! task = Some t ∧ tg_display t = sm_display sample.

Lemma display_taken_exists sample e :
  existsb (λ task, negb (task =? sm_task sample)
                   && from_option (λ t, tg_display t =? sm_display sample) false
                        (targets e !! task))
    (fst <$> map_to_list (gestures e)) = true ↔ display_taken sample e.
Proof.
  rewrite existsb_exists. unfold display_taken. split.
  - intros (task & Hin & Hb). apply list_elem_of_In, list_elem_of_fmap in Hin as ([task' g] & -> & Hg).
    apply elem_of_map_to_list in Hg. cbn in *. apply andb_prop in Hb as [Hn Ht].
    destruct (targets e !! task') as [t|] eqn:Etg; cbn in Ht; [|done].
    apply negb_true_iff, Z.eqb_neq in Hn. apply Z.eqb_eq in Ht. exists task', t. split_and!; eauto.
  - intros (task & t & [g Hg] & Hn & Ht & Hd). exists task. split.
    + apply list_elem_of_In, list_elem_of_fmap. exists (task, g). by rewrite elem_of_map_to_list.
    + rewrite (proj2 (Z.eqb_neq _ _)) by done. rewrite Ht. cbn. by apply Z.eqb_eq.
Qed.

Lemma suppress_passes sample e e' :
  suppress_touch sample e = (e', false) →
  e' = e ∧ ((sm_task sample, sm_code sample) ∉ suppressed e) ∧ ~ display_taken sample e.
Proof.
  unfold suppress_touch. destruct (decide _) as [|Hn]; [done|].
  destruct (existsb _ _) eqn:Hx; [done|]. intros [= <-]. split_and!; [done..|].
  intros Ht. apply display_taken_exists in Ht. congruence.
Qed.

Lemma suppress_quiet sample e e' :
  suppress_touch sample e = (e', true) →
  ∃ S, e' = set_suppressed S e
       ∧ ∀ c, c ∈ S → c ∈ suppressed e
                      ∨ c = (sm_task sample, sm_code sample) ∧ display_taken sample e.
Proof.
  unfold suppress_touch, unsuppress. destruct (decide _) as [Hin|Hn].
  - intros [= <-]. destruct (sm_action sample =? 2); [eexists; split; [done|]|
      destruct (sm_action sample =? 3); [eexists; split; [done|]|exists (suppressed e)]].
    + intros c. rewrite elem_of_difference. tauto.
    + intros c. rewrite elem_of_filter. tauto.
    + destruct e; split; [done|tauto].
  - destruct (existsb _ _) eqn:Hx; [|done]. apply display_taken_exists in Hx.
    intros [= <-]. destruct (sm_action sample =? 0); [eexists; split; [done|]|exists (suppressed e)].
    + intros c. rewrite elem_of_union, elem_of_singleton. intros [->|]; auto.
    + destruct e; split; [done|tauto].
Qed.

Lemma suppressed_inv sample t e S :
  en_inv e → route sample e = Some t →
  (∀ c, c ∈ S → c ∈ suppressed e ∨ c = (sm_task sample, sm_code sample) ∧ display_taken sample e) →
  en_inv (set_suppressed S e).
Proof.
  intros [H1 H2 H3 H4 H5] Hr HS. split; cbn; [done..|].
  intros task c g Hc Hg. apply HS in Hc as [Hc|[[= -> ->] (task' & t' & Hg' & Hn & Ht' & Hd)]]; [eauto|].
  unfold route in Hr. destruct (targets e !! sm_task sample) as [t0|] eqn:Ht; [|done]. cbn in Hr.
  destruct (Z.eqb_spec (tg_display t0) (sm_display sample)); [|done].
  destruct Hn. apply (H4 _ _ t' t0); eauto. congruence.
Qed.

Lemma route_Some sample e t :
  en_inv e → route sample e = Some t →
  targets e !! sm_task sample = Some t ∧ tg_task t = sm_task sample ∧ tg_display t = sm_display sample
  ∧ tg_incarnation t = sm_incarnation sample.
Proof.
  intros He. unfold route. destruct (targets e !! sm_task sample) as [t0|] eqn:Ht; [|done]. cbn.
  destruct (Z.eqb_spec (tg_display t0) (sm_display sample)); [|done].
  destruct (Z.eqb_spec (tg_incarnation t0) (sm_incarnation sample)); [|done].
  cbn. intros [= <-]. split_and!; try done. by apply (ei_target _ He).
Qed.

(** A gesture after a sample. *)
Lemma end_contact_lookup sample g m task g' :
  end_contact sample g m !! task = Some g' →
  task ≠ sm_task sample ∧ m !! task = Some g'
  ∨ task = sm_task sample ∧ g_pointers g' ≠ ∅ ∧ g_pointers g' ⊆ g_pointers g
    ∧ g_down_time g' = g_down_time g ∧ g_last_time g' = g_last_time g.
Proof.
  unfold end_contact. set (g1 := if sm_action sample =? 2 then _ else g).
  assert (Hg1 : g_pointers g1 ⊆ g_pointers g ∧ g_down_time g1 = g_down_time g
                ∧ g_last_time g1 = g_last_time g).
  { subst g1. destruct (sm_action sample =? 2); cbn; split_and!; try done. apply delete_subseteq. }
  destruct ((sm_action sample =? 3) || bool_decide (g_pointers g1 = ∅)) eqn:E.
  - intros [Hn H]%lookup_delete_Some. left. by split.
  - apply orb_false_iff in E as [_ E%bool_decide_eq_false].
    intros [[<- <-]|[Hn H]]%lookup_insert_Some; [right|left; by split]. destruct Hg1 as (? & ? & ?). split_and!; done.
Qed.

Lemma touched_inv sample x y pressure e t :
  en_inv e → sample_ok sample → touchable sample e → route sample e = Some t →
  ((sm_task sample, sm_code sample) ∉ suppressed e) → ~ display_taken sample e →
  en_inv (set_gestures (end_contact sample
            (advance (sm_timestamp sample) (touched sample x y pressure e)) (gestures e)) e).
Proof.
  intros He [Ha Hc] Ht (Htg & Htask & Hd & _)%route_Some Hs Hfree; [|done].
  assert (Hg : ∀ task g, end_contact sample
      (advance (sm_timestamp sample) (touched sample x y pressure e)) (gestures e) !! task = Some g →
      task ≠ sm_task sample ∧ gestures e !! task = Some g
      ∨ task = sm_task sample ∧ gesture_ok g
        ∧ (∀ c, g_pointers g !! c ≠ None → c = sm_code sample ∨ pointers_of (sm_task sample) e !! c ≠ None)).
  { intros task g [?|(-> & Hne & Hsub & Hdown & Hlast)]%end_contact_lookup; [by left|right].
    split_and!; [done|split_and!; [done| |]|].
    - rewrite Hdown, Hlast. unfold touched; cbn.
      destruct (gestures e !! sm_task sample) as [g0|] eqn:E; cbn; [|lia].
      apply (ei_gesture _ He) in E as (_ & _ & ? & _). lia.
    - intros c p Hp. eapply lookup_weaken in Hp; [|exact Hsub]. by apply (touched_ok sample x y pressure e).
    - intros c [p Hp]%not_eq_None_Some. eapply lookup_weaken in Hp; [|exact Hsub].
      change (g_pointers (touched sample x y pressure e) !! c = Some p) in Hp. rewrite touched_pointers in Hp.
      apply lookup_insert_Some in Hp as [[<- _]|[_ Hp]]; [by left|right; by rewrite Hp]. }
  destruct He as [H1 H2 H3 H4 H5]. split; cbn; try done.
  - intros task g [[_ H]|(-> & Hok & _)]%Hg; [by apply H2|]. eauto.
  - intros a b ta tb [ga Hga] [gb Hgb] Hta Htb Hdd.
    apply Hg in Hga as [[Hna Hga]|[-> _]]; apply Hg in Hgb as [[Hnb Hgb]|[-> _]]; try done.
    + eapply H4; eauto.
    + destruct Hfree. exists a, ta. split_and!; eauto. congruence.
    + destruct Hfree. exists b, tb. split_and!; eauto. congruence.
  - intros task c g Hc' [[_ H]|(-> & _ & Hp)]%Hg; [eauto|].
    destruct (g_pointers g !! c) eqn:E; [|done]. destruct (Hp c) as [->|Hn]; [by rewrite E|done|].
    unfold pointers_of in Hn. destruct (gestures e !! sm_task sample) as [g0|] eqn:Eg; [|done].
    destruct Hn. cbn. eauto.
Qed.

Lemma keys_inv sample t e e' code :
  en_inv e → route sample e = Some t → android_keycode (sm_code sample) = Some code →
  targets e' = targets e → gestures e' = gestures e → suppressed e' = suppressed e →
  (∀ task scan k, keys e' !! (task, scan) = Some k →
     keys e !! (task, scan) = Some k
     ∨ task = sm_task sample ∧ scan = sm_code sample ∧ k_code k = code ∧ k_down_time k ≤ k_last_time k) →
  en_inv e'.
Proof.
  intros He (Ht & _)%route_Some Hcode Et Eg Es Hk; [|done]. destruct He as [H1 H2 H3 H4 H5].
  split; rewrite ?Et, ?Eg, ?Es; try done.
  intros task scan k [H|(-> & -> & <- & Hle)]%Hk; [by apply H3|]. rewrite Ht. split; [eauto|by split].
Qed.

Definition routed (r : option RoutedEvent) : list RoutedEvent := from_option (λ r, [r]) [] r.

(** A sample is refused without any effect, or its events are legal for Android
    and lead to the view of the next state. *)
Lemma process_step sample e :
  en_inv e → sample_ok sample →
  (∃ err, process sample e = (e, Err err))
  ∨ ∃ e' r, process sample e = (e', Ok r) ∧ en_inv e' ∧ targets e' = targets e
            ∧ android_run (routed r) (view e) = Some (view e').
Proof.
  intros He Hs. unfold process, mbind, method_bind, get, put.
  destruct (route sample e) as [t|] eqn:Hr; [|right; exists e, None; by split_and!].
  destruct (route_Some _ _ _ He Hr) as (Ht & Htask & Hd & _).
  destruct (sm_payload sample) as [x y pressure|repeat serial].
  - destruct (suppress_touch sample e) as [e1 quiet] eqn:Hq.
    destruct quiet.
    + apply suppress_quiet in Hq as (S & -> & HS). right. exists (set_suppressed S e), None.
      split_and!; try done. by eapply suppressed_inv.
    + apply suppress_passes in Hq as (-> & Hns & Hfree).
      destruct (touch_cases sample t x y pressure e Hs) as [[err E]|(Hto & action & Hact & E)];
        rewrite E; [eauto|right].
      pose proof (touch_legal _ t _ _ _ _ _ He Hs Hto Htask Hact) as Hl.
      destruct (touch_result sample t x y pressure e action) as [e2 ev] eqn:E2.
      exists e2, (Some (mkRouted t ev)). cbn [fst snd]. split_and!; [done| | |].
      * injection E2 as <- _. by eapply touched_inv.
      * by injection E2 as <- _.
      * cbn. by rewrite Hl.
  - destruct (key_cases sample repeat serial e He)
      as [[err E]|(e' & ev & code & E & Hcode & Et & Eg & Es & Hn & Hkind & Hk)]; rewrite E; [eauto|right].
    exists e', (Some (mkRouted t ev)). split_and!; [done|by eapply keys_inv|done|].
    cbn. unfold android_apply. cbn. rewrite Hkind, Htask. cbn. rewrite Hn. cbn.
    unfold view. by rewrite Eg.
Qed.

(** *** Cancellation *)

Lemma cancel_motion_legal target g now :
  gesture_ok g → motion_next (dom (g_pointers g)) (motion target g 3 now) = Some ∅.
Proof.
  intros (Hne & _ & Hok). rewrite motion_event_legal by done. cbn.
  rewrite bool_decide_true by done. rewrite bool_decide_false by (by rewrite dom_empty_iff_L). done.
Qed.

Lemma sorted_task_keys_elem task m scan k :
  (scan, k) ∈ sorted_task_keys task m ↔ m !! (task, scan) = Some k.
Proof.
  unfold sorted_task_keys. rewrite merge_sort_Permutation. unfold task_keys. rewrite list_elem_of_omap. split.
  - intros ([[owner scan'] k'] & Hin & Hd). destruct (decide (owner = task)) as [->|]; [|done].
    injection Hd as <- <-. by apply elem_of_map_to_list in Hin.
  - intros H. exists ((task, scan), k). rewrite elem_of_map_to_list. split; [done|].
    by rewrite decide_True.
Qed.

Lemma sorted_task_keys_NoDup task m : NoDup (sorted_task_keys task m).*1.
Proof.
  unfold sorted_task_keys. rewrite merge_sort_Permutation. unfold task_keys.
  pose proof (NoDup_fst_map_to_list m) as Hn. revert Hn.
  induction (map_to_list m) as [|[[owner scan] k] l IH]; cbn; [intros _; apply NoDup_nil_2|].
  intros [Hnot Hn]%NoDup_cons. destruct (decide (owner = task)) as [->|]; cbn; [|by apply IH].
  apply NoDup_cons. split; [|by apply IH].
  intros ([scan' k'] & -> & Hin)%list_elem_of_fmap. apply list_elem_of_omap in Hin as ([[o s] k''] & Hin & Hd).
  destruct (decide (o = task)) as [->|]; [|done]. injection Hd as <- <-. apply Hnot, list_elem_of_fmap.
  by exists (task, s, k'').
Qed.

(** What a cancelling event is about, and that it is live. *)
Definition subject (r : RoutedEvent) : Z + Z * Z :=
  if ev_kind (re_event r) =? 1 then inl (tg_task (re_target r))
  else inr (tg_task (re_target r), ev_scan_code (re_event r)).

Definition live (e : Engine) (s : Z + Z * Z) : Prop :=
  match s with inl task => is_Some (gestures e !! task) | inr key => is_Some (keys e !! key) end.

Definition cancels (e : Engine) (r : RoutedEvent) : Prop :=
  live e (subject r)
  ∧ ((∃ g now, gestures e !! tg_task (re_target r) = Some g ∧ re_event r = motion (re_target r) g 3 now)
     ∨ ev_kind (re_event r) = 2 ∧ ev_action (re_event r) = 1).

(** A run of cancelling events: legal for Android, each for a live gesture or
    key, none reported twice, and all of them gone afterwards. *)
Record cancellation (e e' : Engine) (events : list RoutedEvent) : Prop := {
  cn_inv : en_inv e';
  cn_targets : targets e' = targets e;
  cn_gestures : gestures e' ⊆ gestures e;
  cn_keys : keys e' ⊆ keys e;
  cn_run : android_run events (view e) = Some (view e');
  cn_live : Forall (cancels e) events;
  cn_once : NoDup (subject <$> events);
  cn_gone : ∀ s, s ∈ subject <$> events → ~ live e' s
}.

Lemma live_mono e e' s :
  gestures e' ⊆ gestures e → keys e' ⊆ keys e → live e' s → live e s.
Proof. intros Hg Hk. destruct s; cbn; intros [x H]; eexists; eapply lookup_weaken; eauto. Qed.

Lemma cancels_mono e e' r :
  gestures e' ⊆ gestures e → keys e' ⊆ keys e → cancels e' r → cancels e r.
Proof.
  intros Hg Hk [Hl Hc]. split; [by eapply live_mono|].
  destruct Hc as [(g & now & H & E)|]; [left|by right].
  exists g, now. split; [by eapply lookup_weaken|done].
Qed.

Lemma cancellation_trans e e1 e2 l1 l2 :
  cancellation e e1 l1 → cancellation e1 e2 l2 → cancellation e e2 (l1 ++ l2).
Proof.
  intros [I1 T1 G1 K1 R1 L1 O1 D1] [I2 T2 G2 K2 R2 L2 O2 D2]. split.
  - done.
  - congruence.
  - by etrans.
  - by etrans.
  - by rewrite android_run_app, R1.
  - apply Forall_app. split; [done|]. eapply Forall_impl; [exact L2|]. intros. by eapply cancels_mono.
  - rewrite fmap_app. apply NoDup_app. split_and!; [done| |done].
    intros x H1 (r & -> & Hr)%list_elem_of_fmap. rewrite Forall_forall in L2.
    apply (D1 _ H1). by apply L2.
  - intros x. rewrite fmap_app, elem_of_app. intros [H|H] Hx; [|by eapply D2].
    eapply D1; [done|]. by eapply live_mono.
Qed.

(** Changes Android does not see. *)
Lemma cancellation_quiet e e' :
  en_inv e' → targets e' = targets e → gestures e' = gestures e → keys e' = keys e →
  cancellation e e' [].
Proof.
  intros Hi Ht Hg Hk. split; rewrite ?Hg, ?Hk; try done.
  - cbn. unfold view. by rewrite Hg, Hk.
  - by apply NoDup_nil.
  - by intros s []%elem_of_nil.
Qed.

Lemma unsuppress_inv task e : en_inv e → en_inv (unsuppress task e).
Proof.
  intros [H1 H2 H3 H4 H5]. split; cbn; try done.
  intros task' c g [_ Hc]%elem_of_filter. by apply H5.
Qed.

Lemma remove_gesture_inv task e : en_inv e → en_inv (set_gestures (delete task (gestures e)) e).
Proof.
  intros [H1 H2 H3 H4 H5]. split; cbn; try done.
  - intros task' g [_ H]%lookup_delete_Some. by apply H2.
  - intros a b ta tb [ga [_ Ha]%lookup_delete_Some] [gb [_ Hb]%lookup_delete_Some]. eauto.
  - intros task' c g Hc [_ Hg]%lookup_delete_Some. eauto.
Qed.

Lemma remove_key_inv i e : en_inv e → en_inv (set_keys (delete i (keys e)) e).
Proof.
  intros [H1 H2 H3 H4 H5]. split; cbn; try done.
  intros task scan k [_ H]%lookup_delete_Some. by apply H3.
Qed.

Lemma cancel_gesture_spec target task now e :
  en_inv e → tg_task target = task →
  ∃ events, cancel_gesture target task now e = (set_gestures (delete task (gestures e)) e, events)
            ∧ cancellation e (set_gestures (delete task (gestures e)) e) events.
Proof.
  intros He Htask. unfold cancel_gesture. destruct (gestures e !! task) as [g|] eqn:Hg.
  - eexists; split; [done|].
    assert (Hlive : is_Some (gestures e !! tg_task target)) by (rewrite Htask; eauto).
    split; try done.
    + by apply remove_gesture_inv.
    + apply delete_subseteq.
    + unfold android_run, android_apply. cbn [re_event re_target ev_kind motion Z.eqb Pos.eqb].
      rewrite Htask, contacts_view. unfold pointers_of. rewrite Hg. cbn [from_option].
      rewrite cancel_motion_legal by (by apply (ei_gesture _ He) in Hg as [_ ?]). cbn.
      unfold set_contacts. rewrite decide_True by done. unfold view; cbn. by rewrite fmap_delete.
    + apply Forall_singleton. split; [done|]. left. exists g, now. cbn [re_target re_event]; by rewrite Htask.
    + apply NoDup_singleton.
    + intros x ->%list_elem_of_singleton. cbn. rewrite Htask, lookup_delete_eq. by intros [? [=]].
  - rewrite delete_id by done. exists []. split; [by destruct e|].
    by apply cancellation_quiet; destruct e.
Qed.

Lemma cancel_keys_spec target task now ks e :
  en_inv e → tg_task target = task → NoDup ks.*1 →
  (∀ scan k, (scan, k) ∈ ks → is_Some (keys e !! (task, scan))) →
  ∃ e' events, cancel_keys target task now ks e = (e', events)
    ∧ cancellation e e' events ∧ gestures e' = gestures e ∧ suppressed e' = suppressed e
    ∧ (∀ scan k, (scan, k) ∈ ks → keys e' !! (task, scan) = None).
Proof.
  intros He Htask. revert e He. induction ks as [|[scan k] ks IH]; intros e He Hn Hin.
  { exists e, []. split_and!; [done|by apply cancellation_quiet|done..|]. intros ? ? []%elem_of_nil. }
  cbn in Hn. apply NoDup_cons in Hn as [Hnot Hn].
  set (e1 := set_keys (delete (task, scan) (keys e)) e).
  assert (Hlive : is_Some (keys e !! (task, scan))) by (eapply Hin, elem_of_cons; by left).
  destruct (IH e1) as (e' & events & E & Hc & Hg & Hs & Hgone); [by apply remove_key_inv|done| |].
  { intros scan' k' Hin'. cbn. rewrite lookup_delete_ne.
    - eapply Hin. apply elem_of_cons. by right.
    - intros [= <-]. apply Hnot, list_elem_of_fmap. by exists (scan, k'). }
  cbn [cancel_keys]. fold e1. rewrite E. eexists _, _. split; [done|]. split_and!; [|done|done|].
  - apply (cancellation_trans e e1 e' [_] events); [|done]. split; try done.
    + by apply remove_key_inv.
    + apply delete_subseteq.
    + cbn. unfold android_apply. cbn -[decide]. unfold keys_next. cbn -[decide]. rewrite Htask.
      rewrite decide_True by (by rewrite elem_of_dom). cbn. unfold view; cbn. by rewrite dom_delete_L.
    + apply Forall_singleton. split; [|by right]. cbn. by rewrite Htask.
    + apply NoDup_singleton.
    + intros x ->%list_elem_of_singleton. cbn. rewrite Htask, lookup_delete_eq. by intros [? [=]].
  - intros scan' k' [[= -> ->]|Hin']%elem_of_cons; [|by eapply Hgone].
    apply eq_None_not_Some. intros [k0 Hk0]. eapply lookup_weaken in Hk0; [|apply (cn_keys _ _ _ Hc)].
    cbn in Hk0. by rewrite lookup_delete_eq in Hk0.
Qed.

(** A task without input state. *)
Definition idle (task : Z) (e : Engine) : Prop :=
  gestures e !! task = None ∧ ∀ scan, keys e !! (task, scan) = None.

Lemma idle_mono task e e' : gestures e' ⊆ gestures e → keys e' ⊆ keys e → idle task e → idle task e'.
Proof.
  intros Hg Hk [H1 H2]. split; [|intros scan; specialize (H2 scan)]; by eapply lookup_weaken_None.
Qed.

Lemma untargeted_idle task e : en_inv e → targets e !! task = None → idle task e.
Proof.
  intros He Ht. split; [|intros scan]; apply eq_None_not_Some.
  - intros [g Hg]. apply (ei_gesture _ He) in Hg as [[t Hx] _]. congruence.
  - intros [k Hk]. apply (ei_key _ He) in Hk as [[t Hx] _]. congruence.
Qed.

Lemma cancel_task_spec task now e :
  en_inv e →
  ∃ e' events, cancel_task task now e = (e', events) ∧ cancellation e e' events ∧ idle task e'
    ∧ suppressed e' = suppressed (unsuppress task e).
Proof.
  intros He. unfold cancel_task. cbn [targets unsuppress set_suppressed].
  set (e0 := unsuppress task e).
  assert (H0 : cancellation e e0 []) by (apply cancellation_quiet; [by apply unsuppress_inv|done..]).
  change (set_suppressed _ e) with e0.
  destruct (targets e !! task) as [target|] eqn:Ht.
  2:{ exists e0, []. split_and!; [done|done| |done]. apply untargeted_idle; [by apply unsuppress_inv|done]. }
  pose proof (ei_target _ He _ _ Ht) as Htask.
  destruct (cancel_gesture_spec target task now e0) as (motions & Em & Hm); [by apply unsuppress_inv|done|].
  rewrite Em. set (e1 := set_gestures (delete task (gestures e0)) e0) in *.
  destruct (cancel_keys_spec target task now (sorted_task_keys task (keys e1)) e1)
    as (e2 & ups & E & Hu & Hg & Hs & Hgone); [apply Hm|done|apply sorted_task_keys_NoDup| |].
  { intros scan k Hin. apply sorted_task_keys_elem in Hin. eauto. }
  rewrite E. eexists _, _. split; [done|].
  assert (Hall : cancellation e (set_locks (delete task (locks e2)) e2) (motions ++ ups)).
  { rewrite <- (app_nil_r (motions ++ ups)). apply (cancellation_trans _ e2).
    - apply (cancellation_trans _ e1); [|done]. by apply (cancellation_trans _ e0 _ []).
    - apply cancellation_quiet; try done. by destruct (cn_inv _ _ _ Hu). }
  split_and!; [done|split|done].
  - cbn. rewrite Hg. apply lookup_delete_eq.
  - cbn. intros scan. destruct (keys e1 !! (task, scan)) as [k|] eqn:Hk.
    + eapply Hgone. by apply sorted_task_keys_elem.
    + eapply lookup_weaken_None; [|apply (cn_keys _ _ _ Hu)]. done.
Qed.

(** *** Publication, retirement and reset *)

Lemma engine_set_target_inv target e :
  en_inv e →
  (idle (tg_task target) e ∨ ∃ old, targets e !! tg_task target = Some old ∧ tg_display old = tg_display target) →
  en_inv (set_targets (<[tg_task target := target]> (targets e)) e).
Proof.
  intros [H1 H2 H3 H4 H5] Hor.
  assert (Hsome : ∀ task, is_Some (targets e !! task) →
                  is_Some (<[tg_task target := target]> (targets e) !! task)).
  { intros task Ht. destruct (decide (task = tg_task target)) as [->|Hn].
    - rewrite lookup_insert_eq. eauto.
    - by rewrite lookup_insert_ne. }
  assert (Hdisp : ∀ task t, <[tg_task target := target]> (targets e) !! task = Some t →
                  is_Some (gestures e !! task) → ∃ t', targets e !! task = Some t' ∧ tg_display t' = tg_display t).
  { intros task t [[<- <-]|[_ H]]%lookup_insert_Some [g Hg]; [|eauto].
    destruct Hor as [[Hno _]|(old & Ho & Hd)]; [congruence|eauto]. }
  split; cbn; [| | | |done].
  - intros task t [[<- <-]|[_ H]]%lookup_insert_Some; [done|by apply H1].
  - intros task g Hg. apply H2 in Hg as [Ht Hok]. split; [by apply Hsome|done].
  - intros task scan k Hk. apply H3 in Hk as [Ht Hok]. split; [by apply Hsome|done].
  - intros a b ta tb Ha Hb Hta Htb Hd.
    destruct (Hdisp _ _ Hta Ha) as (ta' & Ea & Da), (Hdisp _ _ Htb Hb) as (tb' & Eb & Db).
    eapply H4; eauto. congruence.
Qed.

Lemma remove_target_inv task e :
  en_inv e → idle task e → en_inv (set_targets (delete task (targets e)) e).
Proof.
  intros [H1 H2 H3 H4 H5] [Hg Hk].
  assert (Hsome : ∀ t, t ≠ task → is_Some (targets e !! t) → is_Some (delete task (targets e) !! t)).
  { intros t Hn Ht. by rewrite lookup_delete_ne. }
  split; cbn; [| | | |done].
  - intros t x [_ H]%lookup_delete_Some. by apply H1.
  - intros t g H. assert (t ≠ task) by congruence. apply H2 in H as [? ?]. auto.
  - intros t scan k H. assert (t ≠ task) by congruence. apply H3 in H as [? ?]. auto.
  - intros a b ta tb Ha Hb [_ Hta]%lookup_delete_Some [_ Htb]%lookup_delete_Some. by eapply H4.
Qed.

Lemma publish_spec target now e :
  en_inv e →
  ∃ e1 events, publish target now e = (set_targets (<[tg_task target := target]> (targets e)) e1, events)
    ∧ cancellation e e1 events
    ∧ en_inv (set_targets (<[tg_task target := target]> (targets e)) e1).
Proof.
  intros He. unfold publish. destruct (targets e !! tg_task target) as [old|] eqn:Ht.
  - destruct (decide (identity old = identity target)) as [Hid|Hid].
    + exists e, []. split_and!; [done|by apply cancellation_quiet|].
      apply engine_set_target_inv; [done|]. right. exists old. split; [done|]. by injection Hid.
    + destruct (cancel_task_spec (tg_task target) now e He) as (e1 & events & -> & Hc & Hi & _).
      exists e1, events. rewrite <- (cn_targets _ _ _ Hc). split_and!; [done|done|].
      apply engine_set_target_inv; [apply Hc|by left].
  - exists e, []. split_and!; [done|by apply cancellation_quiet|].
    apply engine_set_target_inv; [done|]. left. by apply untargeted_idle.
Qed.

Lemma retire_spec task incarnation now e :
  en_inv e →
  ∃ e1 events m, retire task incarnation now e = (set_targets m e1, events)
    ∧ cancellation e e1 events ∧ en_inv (set_targets m e1)
    ∧ m = if decide (tg_incarnation <$> targets e !! task = Some incarnation)
          then delete task (targets e) else targets e.
Proof.
  intros He. unfold retire. destruct (targets e !! task) as [t|] eqn:Ht; cbn [fmap option_fmap option_map].
  - destruct (Z.eqb_spec (tg_incarnation t) incarnation) as [E|E].
    + destruct (cancel_task_spec task now e He) as (e1 & events & -> & Hc & Hi & _).
      exists e1, events, (delete task (targets e)). rewrite <- (cn_targets _ _ _ Hc).
      split_and!; [done|done|apply remove_target_inv; [apply Hc|done]|]. by rewrite decide_True by congruence.
    + exists e, [], (targets e). split_and!; [by destruct e|by apply cancellation_quiet|by destruct e|].
      by rewrite decide_False by congruence.
  - exists e, [], (targets e). split_and!; [by destruct e|by apply cancellation_quiet|by destruct e|done].
Qed.

Lemma cancel_tasks_spec tasks now e :
  en_inv e →
  ∃ e' events, cancel_tasks tasks now e = (e', events) ∧ cancellation e e' events
    ∧ Forall (λ task, idle task e') tasks ∧ suppressed e' ⊆ suppressed e.
Proof.
  revert e. induction tasks as [|task tasks IH]; intros e He.
  - exists e, []. split_and!; [done|by apply cancellation_quiet|by constructor|done].
  - destruct (cancel_task_spec task now e He) as (e1 & ev1 & E1 & Hc1 & Hi1 & Hs1).
    destruct (IH e1) as (e2 & ev2 & E2 & Hc2 & Hi2 & Hs2); [apply Hc1|].
    exists e2, (ev1 ++ ev2). cbn [cancel_tasks]. rewrite E1, E2.
    split_and!; [done|by eapply cancellation_trans| |].
    + constructor; [|done]. eapply idle_mono; [apply Hc2|apply Hc2|done].
    + etrans; [exact Hs2|]. rewrite Hs1. cbn. intros c. rewrite elem_of_filter. tauto.
Qed.

Lemma reset_spec now e :
  en_inv e →
  ∃ e' events, reset now e = (e', events) ∧ cancellation e e' events
    ∧ gestures e' = ∅ ∧ keys e' = ∅ ∧ suppressed e' = ∅.
Proof.
  intros He. unfold reset. set (e0 := set_suppressed ∅ e).
  assert (He0 : en_inv e0) by (destruct He; split; done).
  destruct (cancel_tasks_spec ((btree_items (targets e0)).*1) now e0 He0)
    as (e' & events & E & Hc & Hi & Hs).
  exists e', events. split; [exact E|].
  assert (Hidle : ∀ task, idle task e').
  { intros task. destruct (targets e' !! task) as [t|] eqn:Ht.
    - rewrite Forall_forall in Hi. apply Hi, btree_keys_elem. rewrite <- (cn_targets _ _ _ Hc). eauto.
    - apply untargeted_idle; [apply Hc|done]. }
  split_and!.
  - apply (cancellation_trans _ e0 _ []); [by apply cancellation_quiet|done].
  - apply map_eq. intros task. rewrite lookup_empty. apply Hidle.
  - apply map_eq. intros [task scan]. rewrite lookup_empty. apply Hidle.
  - cbn in Hs. clear -Hs. set_solver.
Qed.
