(* ===== verification/InputState.v ===== *)
(** * The native input state (android/framework/droidloom-window-policy/src/input_ffi.rs)

    The engine behind its lock, with the Binder tokens, the dispatch sink and
    the recovery of a rejected cancellation.  Android's injection function and
    the monotonic clock are code outside the repository: they are parameters,
    indexed by the number of calls made, and nothing is assumed of them.  The
    state also logs what Android accepted and which tokens were handed over and
    released; no operation reads these logs. *)

From S2P Require Import Prelude Bytes InputRecords InputEngine InputSpec.

(** ** Data *)

Record Token : Type := mkToken { tok_pointer : Z; tok_incarnation : Z }.

Record State : Type := mkState {
  engine : Engine;
  tokens : gmap Z Token;
  sink : option Z;
  recovering : bool;
  pending_retire : gmap Z Z;
  injections : nat;
  clock_reads : nat;
  accepted : list RoutedEvent;
  handed : list Z;
  released : list Z
}.

Definition state_default : State := mkState engine_default ∅ None false ∅ 0 0 [] [] [].

Definition set_engine e s := mkState e (tokens s) (sink s) (recovering s) (pending_retire s)
  (injections s) (clock_reads s) (accepted s) (handed s) (released s).
Definition set_sink x s := mkState (engine s) (tokens s) x (recovering s) (pending_retire s)
  (injections s) (clock_reads s) (accepted s) (handed s) (released s).
Definition set_recovering b s := mkState (engine s) (tokens s) (sink s) b (pending_retire s)
  (injections s) (clock_reads s) (accepted s) (handed s) (released s).
Definition set_pending m s := mkState (engine s) (tokens s) (sink s) (recovering s) m
  (injections s) (clock_reads s) (accepted s) (handed s) (released s).
Definition count_injection s := mkState (engine s) (tokens s) (sink s) (recovering s) (pending_retire s)
  (S (injections s)) (clock_reads s) (accepted s) (handed s) (released s).
Definition count_read s := mkState (engine s) (tokens s) (sink s) (recovering s) (pending_retire s)
  (injections s) (S (clock_reads s)) (accepted s) (handed s) (released s).
Definition log_accepted r s := mkState (engine s) (tokens s) (sink s) (recovering s) (pending_retire s)
  (injections s) (clock_reads s) (accepted s ++ [r]) (handed s) (released s).
Definition log_handed p s := mkState (engine s) (tokens s) (sink s) (recovering s) (pending_retire s)
  (injections s) (clock_reads s) (accepted s) (handed s ++ [p]) (released s).

(** The token map, with the tokens that its change drops. *)
Definition set_tokens m dropped s := mkState (engine s) m (sink s) (recovering s) (pending_retire s)
  (injections s) (clock_reads s) (accepted s) (handed s) (released s ++ dropped).

Definition option_pointer (t : option Token) : list Z := from_option (λ t, [tok_pointer t]) [] t.

Definition insert_token (task : Z) (t : Token) (s : State) : State :=
  set_tokens (<[task := t]> (tokens s)) (option_pointer (tokens s !! task)) s.
Definition remove_token (task : Z) (s : State) : State :=
  set_tokens (delete task (tokens s)) (option_pointer (tokens s !! task)) s.
Definition clear_tokens (s : State) : State :=
  set_tokens ∅ (tok_pointer <$> btree_values (tokens s)) s.
(** [drop(token)]. *)
Definition drop_token (t : Token) (s : State) : State := set_tokens (tokens s) [tok_pointer t] s.

(** The rejection of a sample. *)
Inductive InputError : Type :=
| CancellationRejected | DispatchRejected | EngineFailed (e : EngineError).

Section Native.
(** [inject k context event token] answers the [k]-th call of the sink; [clock k]
    is the [k]-th reading of the monotonic clock. *)
Context (inject : nat → Z → Event → Z → bool) (clock : nat → Z).

(** ** Operations of [State] *)

Definition now (s : State) : State * Z := (count_read s, clock (clock_reads s)).

Definition dispatch (event : Event) (token : Z) (s : State) : State * bool :=
  match sink s with
  | Some context => (count_injection s, inject (injections s) context event token)
  | None => (s, false)
  end.

Definition dispatch_routed (r : RoutedEvent) (s : State) : State * bool :=
  match tokens s !! tg_task (re_target r) with
  | Some token =>
      let '(s, ok) := dispatch (re_event r) (tok_pointer token) s in
      (if ok then log_accepted r s else s, ok)
  | None => (s, false)
  end.

(** The loop of [cancel]. *)
Fixpoint cancel_each (events : list RoutedEvent) (s : State) : State * bool :=
  match events with
  | [] => (s, true)
  | r :: events =>
      let '(s, ok) := dispatch_routed r s in
      let s := if ok then set_engine (acknowledge_cancel r (engine s)) s else s in
      let '(s, rest) := cancel_each events s in
      (s, ok && rest)
  end.

Definition cancel (events : list RoutedEvent) (s : State) : State * bool :=
  let '(s, ok) := cancel_each events s in
  (set_recovering (recovering s || negb ok) s, ok).

(** The loop of [reset] over the deferred retirements. *)
Fixpoint retire_pending (pending : list (Z * Z)) (s : State) : State :=
  match pending with
  | [] => s
  | (task, incarnation) :: pending =>
      let '(s, t) := now s in
      let s := set_engine (fst (retire task incarnation t (engine s))) s in
      retire_pending pending (remove_token task s)
  end.

Definition state_reset (s : State) : State * bool :=
  let '(s, t) := now s in
  let '(next, events) := reset t (engine s) in
  let '(s, ok) := cancel events s in
  if ok then
    let s := set_recovering false (set_engine next s) in
    (retire_pending (btree_items (pending_retire s)) (set_pending ∅ s), true)
  else (s, false).

(** [self.recovering && !self.reset()]: [true] is the early return. *)
Definition still_recovering (s : State) : State * bool :=
  if recovering s then let '(s, ok) := state_reset s in (s, negb ok) else (s, false).

Definition state_process (sample : Sample) (s : State) : State * result InputError unit :=
  let '(s, blocked) := still_recovering s in
  if blocked then (s, Err CancellationRejected) else
  match process sample (engine s) with
  | (_, Err e) => (s, Err (EngineFailed e))
  | (next, Ok None) => (set_engine next s, Ok tt)
  | (next, Ok (Some r)) =>
      let '(s, ok) := dispatch_routed r s in
      if ok then (set_engine next s, Ok tt)
      else (set_recovering true s, Err DispatchRejected)
  end.

(** The token is dropped on every early return. *)
Definition state_publish (target : Target) (token : Token) (s : State) : State * bool :=
  let '(s, blocked) := still_recovering s in
  if blocked then (drop_token token s, false) else
  let '(s, t) := now s in
  let '(next, events) := publish target t (engine s) in
  let '(s, ok) := cancel events s in
  if ok then (insert_token (tg_task target) token (set_engine next s), true)
  else (drop_token token s, false).

Definition state_retire (task incarnation : Z) (s : State) : State :=
  if (incarnation =? 0)
     || negb (from_option (λ t, tok_incarnation t =? incarnation) false (tokens s !! task))
  then s else
  let '(s, t) := now s in
  let '(next, events) := retire task incarnation t (engine s) in
  let '(s, ok) := cancel events s in
  if ok then remove_token task (set_engine next s)
  else set_pending (<[task := incarnation]> (pending_retire s)) s.

(** ** The exported functions *)

(** [u64::try_from(incarnation).unwrap_or(0)]. *)
Definition unsigned_or_zero (x : Z) : Z := if 0 <=? x then x else 0.

Definition droidloom_input_publish (task display incarnation left top token_identity token : Z)
    (s : State) : State * bool :=
  if token =? 0 then (s, false) else
  let s := log_handed token s in
  let tok := mkToken token (unsigned_or_zero incarnation) in
  if (task <=? 0) || (display <? 0) || (incarnation <=? 0) || (token_identity =? 0)
  then (drop_token tok s, false)
  else state_publish (mkInputTarget task display (tok_incarnation tok) token_identity left top) tok s.

Definition droidloom_input_retire (task incarnation : Z) (s : State) : State :=
  if 0 <=? incarnation then state_retire task incarnation s else s.

Definition droidloom_input_create (context : Z) (s : State) : State := set_sink (Some context) s.

Definition droidloom_input_destroy (s : State) : State :=
  let '(s, retired) := state_reset s in
  let s := set_sink None s in
  if retired then clear_tokens (set_engine engine_default s) else s.

(** ** The receiver *)

(** A client is admitted when it is root or system and everything that an
    earlier client left is cancelled. *)
Definition admit_peer (uid : Z) (s : State) : State * bool :=
  if negb (uid =? 0) && negb (uid =? 1000) then (s, false) else state_reset s.

Definition power_event (powered : bool) : Event :=
  mkEvent 6 0 (Z.b2z powered) 0 0 0 0 0 0 0 0 0 no_pointers.

(** One record of the client: [false] ends the connection. *)
Definition serve_record (bytes : list Z) (descriptors : nat) (s : State) : State * bool :=
  if negb (descriptors =? 0)%nat then (s, false) else
  match decode bytes with
  | Err _ => (s, false)
  | Ok (DisplayPowerRecord powered) =>
      let s := if powered then s else fst (state_reset s) in
      (fst (dispatch (power_event powered) 0 s), true)
  | Ok (InputRecord sample) =>
      match state_process sample s with
      | (s, Ok _) => (s, true)
      | (s, Err _) => (fst (state_reset s), true)
      end
  end.

(** ** Acknowledging cancellations one by one *)

Lemma android_keycode_scan scan code : android_keycode scan = Some code → 0 ≤ scan.
Proof.
  unfold android_keycode. destruct (find _ key_table) as [[k v]|] eqn:E; [|done]. intros _.
  apply find_some in E as [Hin Hk]. cbn in Hk. apply Z.eqb_eq in Hk. subst k.
  assert (Forall (λ p, 0 ≤ p.1) key_table) as Hall.
  { unfold key_table. repeat (apply Forall_cons; split; [done|]). by apply Forall_nil. }
  rewrite Forall_forall in Hall. apply list_elem_of_In in Hin. by apply Hall in Hin.
Qed.

Lemma acknowledge_cases e r :
  en_inv e → cancels e r →
  (∃ g now, gestures e !! tg_task (re_target r) = Some g ∧ re_event r = motion (re_target r) g 3 now
            ∧ subject r = inl (tg_task (re_target r))
            ∧ acknowledge_cancel r e = set_gestures (delete (tg_task (re_target r)) (gestures e)) e)
  ∨ (is_Some (keys e !! (tg_task (re_target r), ev_scan_code (re_event r)))
     ∧ subject r = inr (tg_task (re_target r), ev_scan_code (re_event r))
     ∧ ev_kind (re_event r) = 2 ∧ ev_action (re_event r) = 1
     ∧ acknowledge_cancel r e
       = set_keys (delete (tg_task (re_target r), ev_scan_code (re_event r)) (keys e)) e).
Proof.
  intros He [Hl [(g & t & Hg & Hev)|[Hk Ha]]].
  - left. exists g, t. unfold subject, acknowledge_cancel. rewrite Hev. by split_and!.
  - right. unfold subject in *. rewrite Hk in *. cbn in Hl. split_and!; try done.
    unfold acknowledge_cancel. rewrite Hk. cbn.
    destruct Hl as [k Hkk]. apply (ei_key _ He) in Hkk as (_ & Hcode & _).
    apply android_keycode_scan in Hcode. by rewrite (proj2 (Z.leb_le 0 _)).
Qed.

Lemma acknowledge_spec e r :
  en_inv e → cancels e r →
  let e' := acknowledge_cancel r e in
  en_inv e' ∧ targets e' = targets e ∧ android_apply r (view e) = Some (view e')
  ∧ ∀ r', cancels e r' → subject r' ≠ subject r → cancels e' r'.
Proof.
  intros He Hc. destruct (acknowledge_cases e r He Hc)
    as [(g & t & Hg & Hev & Hs & ->)|(Hk & Hs & Hkind & Ha & ->)]; split_and!; try done.
  - by apply remove_gesture_inv.
  - unfold android_apply. rewrite Hev. cbn [ev_kind motion Z.eqb Pos.eqb]. rewrite contacts_view.
    unfold pointers_of. rewrite Hg. cbn [from_option].
    rewrite cancel_motion_legal by (by apply (ei_gesture _ He) in Hg as [_ ?]). cbn.
    unfold set_contacts. rewrite decide_True by done. unfold view; cbn. by rewrite fmap_delete.
  - intros r' Hc' Hne. destruct (acknowledge_cases e r' He Hc')
      as [(g' & t' & Hg' & Hev' & Hs' & _)|(Hk' & Hs' & Hkind' & Ha' & _)]; rewrite Hs, Hs' in Hne.
    + assert (tg_task (re_target r') ≠ tg_task (re_target r)) by congruence. split.
      * rewrite Hs'. cbn. rewrite lookup_delete_ne by done. eauto.
      * left. exists g', t'. cbn. by rewrite lookup_delete_ne.
    + split; [by rewrite Hs'|by right].
  - by apply remove_key_inv.
  - unfold android_apply. rewrite Hkind. cbn. unfold keys_next. rewrite Ha. cbn -[decide].
    rewrite decide_True by (by rewrite elem_of_dom). cbn. unfold view; cbn. by rewrite dom_delete_L.
  - intros r' Hc' Hne. destruct (acknowledge_cases e r' He Hc')
      as [(g' & t' & Hg' & Hev' & Hs' & _)|(Hk' & Hs' & Hkind' & Ha' & _)]; rewrite Hs, Hs' in Hne.
    + split; [rewrite Hs'; cbn; eauto|]. left. by exists g', t'.
    + split; [|by right]. rewrite Hs'. cbn. rewrite lookup_delete_ne by congruence. done.
Qed.

(** ** The invariant *)

Definition nothing_down : android := mkAndroid ∅ ∅.

(** The engine is what Android accepted, and tokens follow the targets. *)
Record st_view (s : State) : Prop := {
  sv_engine : en_inv (engine s);
  sv_android : android_run (accepted s) nothing_down = Some (view (engine s));
  sv_tokens task :
    tok_incarnation <$> tokens s !! task = tg_incarnation <$> targets (engine s) !! task
}.

(** The parts that no dispatch changes. *)
Record frame (s s' : State) : Prop := {
  fr_tokens : tokens s' = tokens s;
  fr_sink : sink s' = sink s;
  fr_recovering : recovering s' = recovering s;
  fr_pending : pending_retire s' = pending_retire s;
  fr_handed : handed s' = handed s;
  fr_released : released s' = released s
}.

Lemma frame_refl s : frame s s.
Proof. by split. Qed.

Lemma frame_trans s s1 s2 : frame s s1 → frame s1 s2 → frame s s2.
Proof. intros [] []. split; congruence. Qed.

Lemma dispatch_routed_spec r s s' ok :
  dispatch_routed r s = (s', ok) →
  frame s s' ∧ engine s' = engine s ∧ accepted s' = accepted s ++ (if ok then [r] else []).
Proof.
  unfold dispatch_routed, dispatch. destruct (tokens s !! _) as [t|].
  - destruct (sink s) as [c|]; [destruct (inject _ _ _ _)|]; intros [= <- <-]; (split; [by split|]); cbn;
      by rewrite ?app_nil_r.
  - intros [= <- <-]. split_and!; [apply frame_refl|done|by rewrite app_nil_r].
Qed.

Lemma cancel_each_spec events s s' ok :
  st_view s → Forall (cancels (engine s)) events → NoDup (subject <$> events) →
  cancel_each events s = (s', ok) →
  frame s s' ∧ st_view s' ∧ targets (engine s') = targets (engine s)
  ∧ (ok = true → accepted s' = accepted s ++ events).
Proof.
  revert s s' ok. induction events as [|r events IH]; intros s s' ok Hv Hl Hn; cbn [cancel_each].
  { intros [= <- <-]. split_and!; [apply frame_refl|done..|]. by rewrite app_nil_r. }
  apply Forall_cons in Hl as [Hr Hl]. cbn in Hn. apply NoDup_cons in Hn as [Hr' Hn].
  destruct (dispatch_routed r s) as [s1 ok1] eqn:E1.
  apply dispatch_routed_spec in E1 as (Hf1 & He1 & Ha1).
  set (s2 := if ok1 then _ else s1). destruct (cancel_each events s2) as [s3 ok3] eqn:E3.
  intros [= <- <-].
  destruct (acknowledge_spec _ _ (sv_engine _ Hv) Hr) as (Hi & Ht & Happ & Hother).
  assert (Hf2 : frame s1 s2) by (subst s2; destruct ok1; by split).
  assert (Hv2 : st_view s2 ∧ Forall (cancels (engine s2)) events
                ∧ targets (engine s2) = targets (engine s)
                ∧ accepted s2 = accepted s ++ (if ok1 then [r] else [])).
  { subst s2. destruct ok1; cbn [engine set_engine].
    - rewrite He1. split_and!; [split; cbn; [done| |]| |done|done].
      + rewrite Ha1, android_run_app, (sv_android _ Hv). cbn. by rewrite Happ.
      + intros task. rewrite Ht, (fr_tokens _ _ Hf1). apply Hv.
      + apply Forall_forall. intros r1 Hin. rewrite Forall_forall in Hl. apply Hother; [by apply Hl|].
        intros Heq. apply Hr', list_elem_of_fmap. exists r1. by rewrite Heq.
    - rewrite He1, Ha1. split_and!; [split|done..]; rewrite ?He1, ?Ha1, ?app_nil_r, ?(fr_tokens _ _ Hf1); apply Hv. }
  destruct Hv2 as (Hv2 & Hl2 & Ht2 & Ha2).
  destruct (IH s2 s3 ok3 Hv2 Hl2 Hn E3) as (Hf3 & Hv3 & Ht3 & Ha3). split_and!; [|done|congruence|].
  - eapply frame_trans; [exact Hf1|]. by eapply frame_trans.
  - intros [Hok1 Hok3]%andb_prop. subst ok1. rewrite Ha3, Ha2 by done. by rewrite <- app_assoc.
Qed.

(** A run of cancellations that Android accepts in full commits the next
    engine; a refused one keeps the rest for the recovery. *)
Lemma cancel_spec s e' events s' ok :
  st_view s → cancellation (engine s) e' events → cancel events s = (s', ok) →
  frame (set_recovering (recovering s || negb ok) s) s' ∧ st_view s'
  ∧ targets (engine s') = targets (engine s)
  ∧ (ok = true → android_run (accepted s') nothing_down = Some (view e')).
Proof.
  intros Hv Hc. unfold cancel. destruct (cancel_each events s) as [s1 ok1] eqn:E. intros [= <- <-].
  destruct (cancel_each_spec _ _ _ _ Hv (cn_live _ _ _ Hc) (cn_once _ _ _ Hc) E) as (Hf & Hv1 & Ht & Ha).
  split_and!.
  - destruct Hf as [H1 H2 H3 H4 H5 H6]. split; cbn; congruence.
  - destruct Hv1 as [H1 H2 H3]. by split.
  - done.
  - intros ->. cbn. rewrite Ha by done. rewrite android_run_app, (sv_android _ Hv). apply Hc.
Qed.

(** *** Tokens *)

Definition live_pointers (m : gmap Z Token) : list Z := tok_pointer <$> (map_to_list m).*2.

(** Every token handed over is live or was released, exactly once; [extra] are
    the ones in flight. *)
Definition balanced (extra : list Z) (s : State) : Prop :=
  handed s ≡ₚ extra ++ released s ++ live_pointers (tokens s).

Lemma live_delete task m :
  live_pointers m ≡ₚ option_pointer (m !! task) ++ live_pointers (delete task m).
Proof.
  unfold live_pointers. destruct (m !! task) as [t|] eqn:E; cbn; [|by rewrite delete_id].
  by rewrite <- (map_to_list_delete m task t E).
Qed.

Lemma balanced_remove task extra s : balanced extra s → balanced extra (remove_token task s).
Proof.
  unfold balanced; cbn. intros ->. rewrite (live_delete task (tokens s)). by rewrite <- app_assoc.
Qed.

Lemma balanced_insert task t s :
  balanced [tok_pointer t] s → balanced [] (insert_token task t s).
Proof.
  unfold balanced; cbn. intros ->. unfold live_pointers at 2.
  rewrite <- insert_delete_eq, map_to_list_insert by apply lookup_delete_eq. cbn.
  fold (live_pointers (delete task (tokens s))).
  rewrite (live_delete task (tokens s)). rewrite <- app_assoc.
  rewrite !Permutation_middle. done.
Qed.

Lemma balanced_drop t s : balanced [tok_pointer t] s → balanced [] (drop_token t s).
Proof.
  unfold balanced; cbn. intros ->. rewrite <- app_assoc. cbn. by rewrite Permutation_middle.
Qed.

Lemma balanced_clear s : balanced [] s → balanced [] (clear_tokens s).
Proof.
  unfold balanced; cbn. intros ->. unfold live_pointers. rewrite map_to_list_empty, app_nil_r. cbn.
  unfold btree_values, btree_items. by rewrite merge_sort_Permutation.
Qed.

Lemma balanced_frame extra s s' : frame s s' → balanced extra s → balanced extra s'.
Proof. unfold balanced. intros [-> _ _ _ -> ->]. done. Qed.

(** *** The state as a whole *)

(** Deferred retirements wait for the recovery; they name the incarnation whose
    token is still held. *)
Record st_inv (extra : list Z) (s : State) : Prop := {
  si_view : st_view s;
  si_pending task inc :
    pending_retire s !! task = Some inc →
    recovering s = true ∧ ∀ t, tokens s !! task = Some t → tok_incarnation t = inc;
  si_balanced : balanced extra s
}.

Lemma state_default_inv : st_inv [] state_default.
Proof. split; [split; [apply engine_default_inv|done..]|done|]. unfold balanced, live_pointers. cbn. by rewrite map_to_list_empty. Qed.

Definition quiet (e : Engine) : Prop := gestures e = ∅ ∧ keys e = ∅.

Lemma retire_quiet task incarnation t e :
  en_inv e → quiet e →
  let e' := (retire task incarnation t e).1 in
  en_inv e' ∧ quiet e' ∧ view e' = view e
  ∧ targets e' = if decide (tg_incarnation <$> targets e !! task = Some incarnation)
                 then delete task (targets e) else targets e.
Proof.
  intros He [Hg Hk]. destruct (retire_spec task incarnation t e He) as (e1 & events & m & -> & Hc & Hi & ->).
  assert (Hq : gestures e1 = ∅ ∧ keys e1 = ∅).
  { pose proof (cn_gestures _ _ _ Hc) as H1. pose proof (cn_keys _ _ _ Hc) as H2. rewrite Hg in H1.
    rewrite Hk in H2. split; (apply (anti_symm (⊆)); [done|apply map_empty_subseteq]). }
  cbn. split_and!; [done|exact Hq| |done]. unfold view; cbn. destruct Hq as [-> ->]. by rewrite Hg, Hk.
Qed.

Lemma retire_pending_spec pending s :
  st_view s → quiet (engine s) →
  (∀ task inc, (task, inc) ∈ pending → ∀ t, tokens s !! task = Some t → tok_incarnation t = inc) →
  NoDup pending.*1 →
  let s' := retire_pending pending s in
  st_view s' ∧ quiet (engine s') ∧ recovering s' = recovering s ∧ pending_retire s' = pending_retire s
  ∧ sink s' = sink s ∧ accepted s' = accepted s
  ∧ (∀ task, task ∈ pending.*1 → tokens s' !! task = None)
  ∧ (∀ task, task ∉ pending.*1 → tokens s' !! task = tokens s !! task)
  ∧ (∀ extra, balanced extra s → balanced extra s').
Proof.
  revert s. induction pending as [|[task inc] pending IH]; intros s Hv Hq Hp Hn; cbn [retire_pending].
  { split_and!; try done. intros task []%elem_of_nil. }
  cbn in Hn. apply NoDup_cons in Hn as [Hnot Hn]. cbn [now].
  destruct (retire_quiet task inc (clock (clock_reads s)) (engine s) (sv_engine _ Hv) Hq)
    as (Hi & Hq' & Hview & Ht).
  set (s1 := remove_token task _).
  assert (Htok : tokens s1 = delete task (tokens s)) by done.
  destruct (IH s1) as (Hv' & Hq2 & Hr & Hpe & Hsi & Hac & Hgone & Hkeep & Hb); [| | |done|].
  - split; cbn; [done|by rewrite Hview; apply Hv|]. intros task'. rewrite Ht.
    pose proof (sv_tokens _ Hv task') as Hx. destruct (decide (task' = task)) as [->|Hne].
    + rewrite lookup_delete_eq. destruct (tokens s !! task) as [t|] eqn:Et.
      * cbn in Hx. rewrite (Hp task inc) in Hx; [|apply elem_of_cons; by left|done].
        rewrite decide_True by done. by rewrite lookup_delete_eq.
      * cbn in Hx. rewrite decide_False by (by rewrite <- Hx). done.
    + rewrite lookup_delete_ne by done. case_decide; [by rewrite lookup_delete_ne|done].
  - done.
  - intros task' inc' Hin t. rewrite Htok. intros [_ H]%lookup_delete_Some.
    eapply Hp; [|exact H]. apply elem_of_cons. by right.
  - split_and!; try done.
    + intros task' [->|Hin]%elem_of_cons; [|by apply Hgone]. by rewrite Hkeep, Htok, lookup_delete_eq.
    + cbn. intros task' [Hne Hni]%not_elem_of_cons. by rewrite Hkeep, Htok, lookup_delete_ne.
    + intros extra Hbal. apply Hb. by apply (balanced_remove task extra).
Qed.

(** A cancellation keeps the invariant, whatever Android answers. *)
Lemma cancel_inv extra s e' events s' ok :
  st_inv extra s → cancellation (engine s) e' events → cancel events s = (s', ok) →
  st_inv extra s' ∧ frame (set_recovering (recovering s || negb ok) s) s'
  ∧ targets (engine s') = targets (engine s)
  ∧ (ok = true → android_run (accepted s') nothing_down = Some (view e')).
Proof.
  intros Hs Hc E.
  destruct (cancel_spec s e' events s' ok (si_view _ _ Hs) Hc E) as (Hf & Hv & Ht & Hrun).
  split_and!; [split; [done| |]|done..].
  - rewrite (fr_pending _ _ Hf), (fr_recovering _ _ Hf), (fr_tokens _ _ Hf). cbn.
    intros task inc Hp. apply (si_pending _ _ Hs) in Hp as [-> ?]. done.
  - eapply balanced_frame; [exact Hf|]. apply Hs.
Qed.

(** Committing the next engine after an accepted cancellation. *)
Lemma commit_view s next e' :
  st_view s → en_inv next → view next = view e' → targets next = targets (engine s) →
  android_run (accepted s) nothing_down = Some (view e') → st_view (set_engine next s).
Proof.
  intros Hv Hn Hview Ht Hrun. split; cbn; [done|by rewrite Hview|]. intros task. rewrite Ht. apply Hv.
Qed.

Lemma read_inv extra s : st_inv extra s → st_inv extra (count_read s).
Proof. intros [[H1 H2 H3] Hp Hb]. split; [by split|done|done]. Qed.

(** A reset: it succeeds exactly when Android accepts every cancellation, and
    then nothing is down, nothing is pending and recovery is over. *)
Lemma state_reset_spec extra s s' ok :
  st_inv extra s → state_reset s = (s', ok) →
  st_inv extra s' ∧ sink s' = sink s
  ∧ if ok then quiet (engine s') ∧ recovering s' = false ∧ pending_retire s' = ∅
    else recovering s' = true ∧ tokens s' = tokens s.
Proof.
  intros Hs%read_inv. unfold state_reset. cbn [now].
  set (s0 := count_read s) in *. set (t := clock (clock_reads s)).
  destruct (reset_spec t (engine s0) (sv_engine _ (si_view _ _ Hs))) as (next & events & -> & Hc & Hg & Hk & _).
  destruct (cancel events s0) as [s1 ok1] eqn:E.
  destruct (cancel_inv extra s0 next events s1 ok1 Hs Hc E) as (Hs1 & Hf & Ht & Hrun).
  destruct ok1; intros [= <- <-].
  - set (s2 := set_pending ∅ _).
    change (pending_retire (set_recovering false (set_engine next s1))) with (pending_retire s1).
    destruct (retire_pending_spec (btree_items (pending_retire s1)) s2)
      as (Hv' & Hq & Hr & Hpe & Hsi & Hac & _ & _ & Hb).
    + assert (st_view (set_engine next s1)) as [H1 H2 H3]; [|by split].
      apply (commit_view s1 next next); [apply Hs1|apply Hc|done| |by apply Hrun].
      by rewrite Ht, (cn_targets _ _ _ Hc).
    + by split.
    + intros task inc Hin tok. apply btree_items_elem, (si_pending _ _ Hs1) in Hin as [_ Hin]. apply Hin.
    + apply btree_keys_NoDup.
    + split_and!; [split; [done| |]|rewrite Hsi; by apply Hf|done|by rewrite Hr|by rewrite Hpe].
      * intros task inc. rewrite Hpe. cbn. by rewrite lookup_empty.
      * apply Hb, Hs1.
  - split_and!; [done|by rewrite (fr_sink _ _ Hf)| |by rewrite (fr_tokens _ _ Hf)].
    rewrite (fr_recovering _ _ Hf). cbn. by destruct (recovering s).
Qed.

Lemma still_recovering_spec extra s s' blocked :
  st_inv extra s → still_recovering s = (s', blocked) →
  st_inv extra s' ∧ sink s' = sink s ∧ recovering s' = blocked.
Proof.
  intros Hs. unfold still_recovering. destruct (recovering s) eqn:Hr.
  - destruct (state_reset s) as [s1 ok] eqn:E. intros [= <- <-].
    destruct (state_reset_spec _ _ _ _ Hs E) as (Hs1 & Hsi & Hok). split_and!; [done|done|].
    destruct ok; cbn; tauto.
  - intros [= <- <-]. done.
Qed.

Lemma state_process_inv extra sample s s' r :
  st_inv extra s → sample_ok sample → state_process sample s = (s', r) → st_inv extra s'.
Proof.
  intros Hs Hok. unfold state_process. destruct (still_recovering s) as [s1 blocked] eqn:E.
  destruct (still_recovering_spec _ _ _ _ Hs E) as (Hs1 & _ & Hr).
  destruct blocked; [by intros [= <- _]|].
  pose proof (si_view _ _ Hs1) as Hv1.
  destruct (process_step sample (engine s1) (sv_engine _ Hv1) Hok)
    as [[err ->]|(next & r0 & -> & Hi & Ht & Hrun)]; [by intros [= <- _]|].
  destruct r0 as [ev|].
  - destruct (dispatch_routed ev s1) as [s2 ok] eqn:E2.
    apply dispatch_routed_spec in E2 as (Hf & He & Ha).
    assert (Hb2 : balanced extra s2) by (eapply balanced_frame; [exact Hf|apply Hs1]).
    destruct ok; intros [= <- _]; (split; [|cbn|done]).
    + split; cbn; [done| |].
      * rewrite Ha, android_run_app, (sv_android _ Hv1). exact Hrun.
      * intros task. rewrite Ht, (fr_tokens _ _ Hf). apply Hv1.
    + rewrite (fr_pending _ _ Hf), (fr_recovering _ _ Hf), (fr_tokens _ _ Hf). apply Hs1.
    + split; cbn; rewrite ?He, ?Ha, ?app_nil_r, ?(fr_tokens _ _ Hf); apply Hv1.
    + rewrite (fr_pending _ _ Hf), (fr_tokens _ _ Hf). intros task inc Hp.
      apply (si_pending _ _ Hs1) in Hp as [_ ?]. done.
  - intros [= <- _]. split; [|apply Hs1|apply Hs1]. change (Some (view (engine s1)) = Some (view next)) in Hrun.
    apply (inj Some) in Hrun as Hview. apply (commit_view s1 next (engine s1)); try done. apply Hv1.
Qed.

Lemma state_publish_inv target token s s' ok :
  st_inv [tok_pointer token] s → tg_incarnation target = tok_incarnation token →
  state_publish target token s = (s', ok) → st_inv [] s'.
Proof.
  intros Hs Hinc. unfold state_publish. destruct (still_recovering s) as [s1 blocked] eqn:E.
  destruct (still_recovering_spec _ _ _ _ Hs E) as (Hs1 & _ & Hr).
  assert (Hdrop : ∀ s2, st_inv [tok_pointer token] s2 → st_inv [] (drop_token token s2)).
  { intros s2 [[V1 V2 V3] P B]. split; [by split|done|by apply balanced_drop]. }
  destruct blocked; [intros [= <- _]; by apply Hdrop|].
  cbn [now]. apply read_inv in Hs1. set (s2 := count_read s1) in *.
  destruct (publish_spec target (clock (clock_reads s1)) (engine s2) (sv_engine _ (si_view _ _ Hs1)))
    as (e1 & events & -> & Hc & Hi).
  destruct (cancel events s2) as [s3 ok3] eqn:E3.
  destruct (cancel_inv _ s2 e1 events s3 ok3 Hs1 Hc E3) as (Hs3 & Hf & Ht & Hrun).
  destruct ok3; intros [= <- _]; [|by apply Hdrop].
  split; [|cbn|].
  - split; cbn; [done|by apply Hrun|]. intros task.
    destruct (decide (task = tg_task target)) as [->|Hne].
    + rewrite !lookup_insert_eq. cbn. congruence.
    + rewrite !lookup_insert_ne by done. rewrite (sv_tokens _ (si_view _ _ Hs3)), Ht. done.
  - intros task inc Hp. apply (si_pending _ _ Hs3) in Hp as [Hrec _].
    rewrite (fr_recovering _ _ Hf) in Hrec. cbn in Hrec. by rewrite Hr in Hrec.
  - apply (balanced_insert _ _ (set_engine _ s3)). apply Hs3.
Qed.

Lemma state_retire_inv extra task incarnation s :
  st_inv extra s → st_inv extra (state_retire task incarnation s).
Proof.
  intros Hs. unfold state_retire. destruct (_ || _) eqn:Hguard; [done|].
  apply orb_false_iff in Hguard as [_ Hguard]. apply negb_false_iff in Hguard.
  destruct (tokens s !! task) as [tok|] eqn:Htok; [|done]. cbn in Hguard. apply Z.eqb_eq in Hguard.
  cbn [now]. apply read_inv in Hs. set (s2 := count_read s) in *.
  destruct (retire_spec task incarnation (clock (clock_reads s)) (engine s2) (sv_engine _ (si_view _ _ Hs)))
    as (e1 & events & m & -> & Hc & Hi & Hm).
  assert (Hinc : tg_incarnation <$> targets (engine s2) !! task = Some incarnation).
  { rewrite <- (sv_tokens _ (si_view _ _ Hs)). cbn. by rewrite Htok, <- Hguard. }
  rewrite decide_True in Hm by done.
  destruct (cancel events s2) as [s3 ok3] eqn:E3.
  destruct (cancel_inv _ s2 e1 events s3 ok3 Hs Hc E3) as (Hs3 & Hf & Ht & Hrun).
  destruct ok3; (split; [|cbn|]).
  - split; cbn; [done|by apply Hrun|]. intros task'. rewrite Hm.
    destruct (decide (task' = task)) as [->|Hne]; [by rewrite !lookup_delete_eq|].
    rewrite !lookup_delete_ne by done. rewrite (sv_tokens _ (si_view _ _ Hs3)), Ht. done.
  - intros task' inc Hp. apply (si_pending _ _ Hs3) in Hp as [Hrec Ht']. split; [done|].
    intros t [_ H]%lookup_delete_Some. by apply Ht'.
  - apply (balanced_remove task extra (set_engine _ s3)). apply Hs3.
  - by destruct (si_view _ _ Hs3).
  - intros task' inc [[<- <-]|[_ Hp]]%lookup_insert_Some.
    + split; [rewrite (fr_recovering _ _ Hf); cbn; by destruct (recovering s)|].
      rewrite (fr_tokens _ _ Hf). cbn. rewrite Htok. by intros t [= <-].
    + by apply (si_pending _ _ Hs3).
  - apply Hs3.
Qed.

(** ** Histories *)

(** What reaches the state: the exported functions, and the receiver's clients,
    records and disconnections (the worker's end is a disconnection too). *)
Inductive input_op : Type :=
| OpCreate (context : Z)
| OpDestroy
| OpPublish (task display incarnation left top token_identity token : Z)
| OpRetire (task incarnation : Z)
| OpAdmit (uid : Z)
| OpRecord (bytes : list Z) (descriptors : nat)
| OpDisconnect.

Definition op_ok (op : input_op) : Prop :=
  match op with OpRecord bytes _ => Forall is_u8 bytes | _ => True end.

Definition input_step (s : State) (op : input_op) : State :=
  match op with
  | OpCreate context => droidloom_input_create context s
  | OpDestroy => droidloom_input_destroy s
  | OpPublish task display incarnation x y identity token =>
      fst (droidloom_input_publish task display incarnation x y identity token s)
  | OpRetire task incarnation => droidloom_input_retire task incarnation s
  | OpAdmit uid => fst (admit_peer uid s)
  | OpRecord bytes descriptors => fst (serve_record bytes descriptors s)
  | OpDisconnect => fst (state_reset s)
  end.

Definition input_run (ops : list input_op) : State := foldl input_step state_default ops.

Lemma decode_sample_ok bytes sample :
  Forall is_u8 bytes → decode bytes = Ok (InputRecord sample) → sample_ok sample.
Proof.
  intros Hu (Hl & _ & _ & Hs)%decode_Ok. apply decode_sample_Ok in Hs as (_ & _ & _ & _ & _ & _ & _ & _ & Ha & Hc & _).
  split.
  - rewrite Ha. unfold byte_at. destruct (nth_in_or_default 7 bytes 0) as [Hin| ->]; [|done].
    rewrite Forall_forall in Hu. apply list_elem_of_In, Hu in Hin. unfold is_u8 in Hin. lia.
  - rewrite Hc. by apply word_u32.
Qed.

Lemma reset_inv extra s : st_inv extra s → st_inv extra (fst (state_reset s)).
Proof.
  intros Hs. destruct (state_reset s) as [s' ok] eqn:E. by apply (state_reset_spec _ _ _ _ Hs) in E as [? _].
Qed.

Lemma set_sink_inv extra x s : st_inv extra s → st_inv extra (set_sink x s).
Proof. intros [[H1 H2 H3] Hp Hb]. split; [by split|done|done]. Qed.

Lemma dispatch_inv extra ev token s : st_inv extra s → st_inv extra (fst (dispatch ev token s)).
Proof.
  intros Hs. unfold dispatch. destruct (sink s); cbn; [|done].
  destruct Hs as [[H1 H2 H3] Hp Hb]. split; [by split|done|done].
Qed.

Lemma serve_record_inv extra bytes descriptors s :
  Forall is_u8 bytes → st_inv extra s → st_inv extra (fst (serve_record bytes descriptors s)).
Proof.
  intros Hu Hs. unfold serve_record. destruct (negb _); [done|].
  destruct (decode bytes) as [[sample|powered]|err] eqn:E; cbn; [| |done].
  - apply decode_sample_ok in E; [|done]. destruct (state_process sample s) as [s1 r] eqn:E1.
    apply (state_process_inv extra) in E1; [|done..].
    destruct r; [done|by apply reset_inv].
  - apply dispatch_inv. destruct powered; [done|by apply reset_inv].
Qed.

Lemma publish_inv task display incarnation left top identity token s :
  st_inv [] s → st_inv [] (fst (droidloom_input_publish task display incarnation left top identity token s)).
Proof.
  intros Hs. unfold droidloom_input_publish. destruct (token =? 0); [done|].
  set (tok := mkToken token _).
  assert (Hh : st_inv [tok_pointer tok] (log_handed token s)).
  { destruct Hs as [[V1 V2 V3] P B]. split; [by split|done|]. unfold balanced in *. cbn in *. rewrite B.
    by rewrite (Permutation_app_comm _ [token]). }
  destruct (_ || _).
  - destruct Hh as [[V1 V2 V3] P B]. cbn. split; [by split|done|]. by apply balanced_drop.
  - destruct (state_publish _ tok (log_handed token s)) as [s' ok] eqn:E.
    by apply state_publish_inv in E.
Qed.

Lemma destroy_inv s : st_inv [] s → st_inv [] (droidloom_input_destroy s).
Proof.
  intros Hs. unfold droidloom_input_destroy. destruct (state_reset s) as [s1 ok] eqn:E.
  destruct (state_reset_spec _ _ _ _ Hs E) as (Hs1 & _ & Hok). destruct ok; [|by apply set_sink_inv].
  destruct Hok as ([Hg Hk] & Hr & Hp). split.
  - split; cbn; [apply engine_default_inv| |done].
    rewrite (sv_android _ (si_view _ _ Hs1)). unfold view. by rewrite Hg, Hk.
  - cbn. intros task inc. by rewrite Hp, lookup_empty.
  - apply (balanced_clear (set_engine engine_default (set_sink None s1))). apply Hs1.
Qed.

Lemma input_step_inv op s : op_ok op → st_inv [] s → st_inv [] (input_step s op).
Proof.
  intros Hop Hs. destruct op; cbn [input_step].
  - by apply set_sink_inv.
  - by apply destroy_inv.
  - by apply publish_inv.
  - unfold droidloom_input_retire. destruct (0 <=? incarnation); [by apply state_retire_inv|done].
  - unfold admit_peer. destruct (_ && _); [done|by apply reset_inv].
  - by apply serve_record_inv.
  - by apply reset_inv.
Qed.

Lemma input_run_inv ops : Forall op_ok ops → st_inv [] (input_run ops).
Proof.
  unfold input_run. assert (Hd : st_inv [] state_default) by apply state_default_inv. revert Hd.
  generalize state_default. induction ops as [|op ops IH]; intros s Hs; cbn; [done|].
  intros [Ho Hops]%Forall_cons. apply IH; [by apply input_step_inv|done].
Qed.

(** ** What holds after every history *)

(** C3: whatever the publishers, clients and Android's answers are, the events
    Android accepted form a consistent input stream (no second press of a held
    contact or key, no move, lift or cancel of one that is not down), and the
    contacts and keys it leaves down are exactly those the engine holds. *)
Theorem accepted_input_consistent ops :
  Forall op_ok ops →
  android_run (accepted (input_run ops)) nothing_down = Some (view (engine (input_run ops))).
Proof. intros H. apply (si_view _ _ (input_run_inv ops H)). Qed.

(** At any time at most one task has a gesture on a display. *)
Theorem one_gesture_per_display ops task task' t t' :
  Forall op_ok ops →
  let e := engine (input_run ops) in
  is_Some (gestures e !! task) → is_Some (gestures e !! task') →
  targets e !! task = Some t → targets e !! task' = Some t' → tg_display t = tg_display t' →
  task = task'.
Proof. intros H e. apply (ei_owner _ (sv_engine _ (si_view _ _ (input_run_inv ops H)))). Qed.

(** Every Binder token handed to [droidloom_input_publish] is either held
    for exactly one task or has been released exactly once. *)
Theorem tokens_released_once ops :
  Forall op_ok ops →
  let s := input_run ops in handed s ≡ₚ released s ++ live_pointers (tokens s).
Proof. intros H. apply (si_balanced _ _ (input_run_inv ops H)). Qed.

(** A client is only admitted when it is root or system and nothing of an
    earlier client is left down in Android; no recovery is then outstanding. *)
Theorem admitted_client_starts_clean ops uid s' :
  Forall op_ok ops → admit_peer uid (input_run ops) = (s', true) →
  (uid = 0 ∨ uid = 1000) ∧ android_run (accepted s') nothing_down = Some nothing_down
  ∧ recovering s' = false ∧ pending_retire s' = ∅.
Proof.
  intros H. unfold admit_peer. destruct (negb (uid =? 0) && negb (uid =? 1000)) eqn:Hu; [done|].
  intros E. destruct (state_reset_spec _ _ _ _ (input_run_inv ops H) E) as (Hs & _ & [Hg Hk] & Hr & Hp).
  split_and!; [|  |done|done].
  - apply andb_false_iff in Hu as [Hu|Hu]; apply negb_false_iff, Z.eqb_eq in Hu; auto.
  - rewrite (sv_android _ (si_view _ _ Hs)). unfold view. by rewrite Hg, Hk.
Qed.

(** *** Recovery *)

Lemma cancel_each_accepts events s c :
  sink s = Some c → (∀ k ev t, (injections s ≤ k)%nat → inject k c ev t = true) →
  Forall (λ r, is_Some (tokens s !! tg_task (re_target r))) events →
  ∃ s', cancel_each events s = (s', true).
Proof.
  revert s. induction events as [|r events IH]; intros s Hc Hin Ht; cbn [cancel_each]; [eauto|].
  apply Forall_cons in Ht as [[t Htok] Ht]. unfold dispatch_routed, dispatch. rewrite Htok, Hc.
  rewrite (Hin (injections s)) by done.
  set (s1 := set_engine _ _). destruct (IH s1) as [s2 ->]; [done| |done|by eauto].
  intros k ev t' Hk. apply Hin. cbn in Hk. lia.
Qed.

(** The events of a cancellation go to tasks whose token is held. *)
Lemma cancellation_tokens s e' events :
  st_view s → cancellation (engine s) e' events →
  Forall (λ r, is_Some (tokens s !! tg_task (re_target r))) events.
Proof.
  intros Hv Hc. eapply Forall_impl; [apply (cn_live _ _ _ Hc)|]. intros r Hr.
  assert (is_Some (targets (engine s) !! tg_task (re_target r))) as [t Ht].
  { destruct (acknowledge_cases _ _ (sv_engine _ Hv) Hr) as [(g & ? & Hg & _)|([k Hk] & _)].
    - by apply (ei_gesture _ (sv_engine _ Hv)) in Hg as [? _].
    - by apply (ei_key _ (sv_engine _ Hv)) in Hk as [? _]. }
  pose proof (sv_tokens _ Hv (tg_task (re_target r))) as Hx. rewrite Ht in Hx. cbn in Hx.
  destruct (tokens s !! _); [eauto|done].
Qed.

End Native.

(** ** A concrete history *)

(** Two tasks on one display, a press that Android accepts, a retirement whose
    cancellation it refuses (the second injection). *)
Definition demo_inject (k : nat) (context : Z) (event : Event) (token : Z) : bool := negb (k =? 1)%nat.
Definition demo_clock (k : nat) : Z := 5000 + Z.of_nat k.

Definition demo_ops : list input_op :=
  [OpCreate 7; OpPublish 42 2 9 0 0 100 1000; OpPublish 43 2 3 0 0 101 1001;
   OpAdmit 1000; OpRecord demo_touch 0; OpRetire 42 9].

Lemma demo_ops_ok : Forall op_ok demo_ops.
Proof.
  repeat (apply Forall_cons; split; [try done|]); [|by apply Forall_nil].
  vm_compute. repeat (constructor; [split; [discriminate|reflexivity]|]). constructor.
Qed.

Definition demo_state : State := input_run demo_inject demo_clock demo_ops.

Lemma accepted_input_consistent_witness :
  (length (accepted demo_state), recovering demo_state, size (gestures (engine demo_state)))
    = (1%nat, true, 1%nat)
  ∧ android_run (accepted demo_state) nothing_down = Some (view (engine demo_state)).
Proof.
  split; [vm_compute; reflexivity|].
  apply (accepted_input_consistent demo_inject demo_clock demo_ops). apply demo_ops_ok.
Defined.

Lemma one_gesture_per_display_witness :
  is_Some (gestures (engine demo_state) !! 42) ∧ 42 = 42.
Proof.
  assert (H : bool_decide (is_Some (gestures (engine demo_state) !! 42)) = true) by (vm_compute; reflexivity).
  apply bool_decide_eq_true in H. split; [exact H|].
  apply (one_gesture_per_display demo_inject demo_clock demo_ops 42 42
           (mkInputTarget 42 2 9 100 0 0) (mkInputTarget 42 2 9 100 0 0));
    [apply demo_ops_ok|exact H|exact H|vm_compute; reflexivity..].
Defined.

Lemma tokens_released_once_witness :
  handed demo_state ≡ₚ released demo_state ++ live_pointers (tokens demo_state).
Proof. apply (tokens_released_once demo_inject demo_clock demo_ops). apply demo_ops_ok. Defined.

Definition demo_admitted : State := fst (admit_peer demo_inject demo_clock 1000 demo_state).

Lemma admitted_client_starts_clean_witness :
  (1000 = 0 ∨ 1000 = 1000) ∧ android_run (accepted demo_admitted) nothing_down = Some nothing_down
  ∧ recovering demo_admitted = false ∧ pending_retire demo_admitted = ∅.
Proof.
  apply (admitted_client_starts_clean demo_inject demo_clock demo_ops 1000 demo_admitted);
    [apply demo_ops_ok|].
  assert (E : snd (admit_peer demo_inject demo_clock 1000 demo_state) = true) by (vm_compute; reflexivity).
  unfold demo_admitted. fold demo_state. rewrite <- E. apply surjective_pairing.
Defined.

