(* ===== verification/DirectInput.v ===== *)
(** * The presenter's input writer (graphics/droidloom-wayland/src/input.rs)

    [DirectInput] writes routed touch and key records to the socket Android's
    input process handed over.  It owns the queue of records the socket did not
    take yet and the contacts it has put down, under pointer identities it
    allocates itself.  The kernel's side is [InputOps].  [di_sent] is a ghost:
    the records the socket took since the present connection was attached; no
    operation reads it. *)

From S2P Require Import Bytes InputRecords Protocol Codec CodecProofs Syncobj Ipc Prelude.

Definition QUEUE_LIMIT : Z := 512.
Definition EINTR : Z := 4.
Definition EAGAIN : Z := 11.

Record Route : Type := mkRoute { rt_task : Z; rt_display : Z; rt_incarnation : Z }.

#[global] Instance Route_eq_dec : EqDecision Route.
Proof. solve_decision. Defined.

(** [BTreeMap<(u32, u32), (u32, Route)>], keyed by display and host pointer. *)
Abbreviation Contacts := (gmap (Z * Z) (Z * Route)).

Record DirectInput : Type := mkDirect {
  di_socket : option fd;
  di_queue : list (list Z);
  di_pointers : Contacts;
  di_generation : Z;
  di_requested : bool;
  di_power : option bool;
  di_sent : list (list Z)
}.

Definition direct_default : DirectInput := mkDirect None [] ∅ 0 false None [].

Definition with_queue q s d :=
  mkDirect (di_socket d) q (di_pointers d) (di_generation d) (di_requested d) (di_power d) s.
Definition with_pointers p d :=
  mkDirect (di_socket d) (di_queue d) p (di_generation d) (di_requested d) (di_power d) (di_sent d).
Definition with_request g d :=
  mkDirect (di_socket d) (di_queue d) (di_pointers d) g true (di_power d) (di_sent d).
Definition with_power p d :=
  mkDirect (di_socket d) (di_queue d) (di_pointers d) (di_generation d) (di_requested d) p (di_sent d).
Definition with_socket s d :=
  mkDirect s (di_queue d) (di_pointers d) (di_generation d) (di_requested d) (di_power d) (di_sent d).

(** [disconnect]. *)
Definition closed (d : DirectInput) : DirectInput :=
  mkDirect None [] ∅ (di_generation d) false (di_power d) [].

(** The [String] of a failure, and the panic of an exhausted generation. *)
Inductive DirectError : Type :=
| GenerationExhausted
| WireAbi (wire : Z)
| SocketFailed (e : IpcError)
| NotConnected
| Reconnecting
| InvalidTouch
| DuplicateDown
| IdentitiesExhausted
| InvalidInput (e : InputProtocolError)
| EncodeFailed (e : InputProtocolError)
| NoNavigation
| QueueExhausted
| InputDisconnected (e : IpcError).

(** The errno of [EAGAIN] is the [WouldBlock] kind, that of [EINTR] is
    [Interrupted]; [in_call] is [getsockopt(SO_TYPE)] and [fcntl]. *)
Class InputOps (K : Type) : Type := {
  in_socket :: SeqPacketOps K;
  in_seqpacket : fd → K → K * result IpcError unit;
  in_nonblocking : fd → K → K * result IpcError unit
}.

(** ** Contacts *)

Definition contact_le (p q : (Z * Z) * (Z * Route)) : Prop :=
  p.1.1 < q.1.1 ∨ p.1.1 = q.1.1 ∧ p.1.2 ≤ q.1.2.
#[global] Instance contact_le_dec p q : Decision (contact_le p q).
Proof. unfold contact_le. apply _. Defined.

(** Iteration over the map in key order. *)
Definition contact_items (m : Contacts) : list ((Z * Z) * (Z * Route)) :=
  merge_sort contact_le (map_to_list m).

(** The routes of a display's contacts, each with the identity of its first one. *)
Definition add_route (display : Z) (routes : list (Z * Route)) (c : (Z * Z) * (Z * Route))
    : list (Z * Route) :=
  if (c.1.1 =? display) && negb (existsb (λ e, bool_decide (e.2 = c.2.2)) routes)
  then routes ++ [c.2] else routes.

Definition display_routes (display : Z) (m : Contacts) : list (Z * Route) :=
  foldl (add_route display) [] (contact_items m).

(** Whether a contact of the display has the Android identity [id]. *)
Definition id_taken (display id : Z) (m : Contacts) : bool :=
  existsb (λ c, (c.1.1 =? display) && (c.2.1 =? id)) (contact_items m).

(** [(0..=MAX_POINTER_ID).find(..)]. *)
Definition free_id (display : Z) (m : Contacts) : option Z :=
  find (λ id, negb (id_taken display id m)) (seqZ 0 (MAX_POINTER_ID + 1)).

Section direct.

Context {K : Type} `{InputOps K}.
(** How many interrupted system calls one [flush] meets. *)
Context (interrupts : nat).

Definition direct : Type := K * DirectInput.
Definition di_method := method direct DirectError.

Definition on_direct (f : DirectInput → DirectInput) : di_method unit := modify (λ s, (s.1, f s.2)).
Definition state : di_method DirectInput := gets snd.
Definition disconnect : di_method unit := on_direct closed.

(** [fail]. *)
Definition fail {A} (e : DirectError) : di_method A := _ ← disconnect; throw e.

(** A call on the socket. *)
Definition socket_call {A} (m : K → K * result IpcError A) : di_method (result IpcError A) :=
  λ s, let '(k, r) := m s.1 in ((k, s.2), Ok r).

(** [checked_add] and its [expect]. *)
Definition next_request : di_method (option Z) :=
  d ← state;
  if bool_decide (is_Some (di_socket d)) || di_requested d then mret None
  else
    g ← lift (ok_or (checked_add u64_max (di_generation d) 1) GenerationExhausted);
    _ ← on_direct (with_request g);
    mret (Some g).

Fixpoint flush_loop (turns : nat) : di_method unit :=
  match turns with
  | O => mret tt
  | S turns =>
      d ← state;
      match di_socket d, di_queue d with
      | Some _, record :: queue =>
          r ← socket_call (send_record record []);
          match r with
          | Ok _ => _ ← on_direct (with_queue queue (di_sent d ++ [record])); flush_loop turns
          | Err (Io e) =>
              if bool_decide (e = EAGAIN) then mret tt
              else if bool_decide (e = EINTR) then flush_loop turns
              else fail (InputDisconnected (Io e))
          | Err e => fail (InputDisconnected e)
          end
      | _, _ => mret tt
      end
  end.

Definition flush : di_method unit :=
  d ← state; flush_loop (length (di_queue d) + interrupts).

Definition enqueue (record : list Z) : di_method unit :=
  _ ← flush;
  d ← state;
  if zlen (di_queue d) =? QUEUE_LIMIT then fail QueueExhausted
  else
    _ ← on_direct (λ d, with_queue (di_queue d ++ [record]) (di_sent d) d);
    flush.

Definition attach (generation wire : Z) (socket : fd) : di_method bool :=
  d ← state;
  if negb (generation =? di_generation d) || negb (di_requested d) then mret false
  else
    _ ← reject (negb (wire =? InputRecords.PROTOCOL_MAJOR)) (WireAbi wire);
    r ← socket_call (in_seqpacket socket);
    _ ← lift (map_err SocketFailed r);
    r ← socket_call peer_credentials;
    credentials ← lift (map_err SocketFailed r);
    _ ← reject (peer_pid credentials =? 0) NotConnected;
    r ← socket_call (in_nonblocking socket);
    _ ← lift (map_err SocketFailed r);
    _ ← disconnect;
    _ ← on_direct (with_socket (Some socket));
    _ ← match di_power d with
        | Some power => enqueue (encode_display_power power)
        | None => mret tt
        end;
    mret true.

Definition set_power (power : bool) : di_method unit :=
  d ← state;
  if bool_decide (di_power d = Some power) then mret tt
  else
    _ ← on_direct (with_power (Some power));
    _ ← (if bool_decide (is_Some (di_socket d)) then enqueue (encode_display_power power) else mret tt);
    if power then mret tt else on_direct (with_pointers ∅).

Fixpoint cancel_routes (display timestamp : Z) (routes : list (Z * Route)) : di_method unit :=
  match routes with
  | [] => mret tt
  | (id, r) :: routes =>
      record ← lift (map_err EncodeFailed
        (encode_touch display (rt_task r) timestamp (TouchAction_u8 TouchCancel) id 0 0 0
           (rt_incarnation r)));
      _ ← enqueue record;
      cancel_routes display timestamp routes
  end.

Definition cancel_display (display timestamp : Z) : di_method unit :=
  d ← state;
  _ ← cancel_routes display timestamp (display_routes display (di_pointers d));
  on_direct (λ d, with_pointers (filter (λ c, c.1.1 ≠ display) (di_pointers d)) d).

(** The [while let] over the first contact; [turns] is at least the number of
    contacts. *)
Fixpoint cancel_loop (turns : nat) (timestamp : Z) : di_method unit :=
  match turns with
  | O => mret tt
  | S turns =>
      d ← state;
      match contact_items (di_pointers d) with
      | [] => mret tt
      | (_, (_, r)) :: _ => _ ← cancel_display (rt_display r) timestamp; cancel_loop turns timestamp
      end
  end.

Definition cancel_all (timestamp : Z) : di_method unit :=
  d ← state; cancel_loop (size (di_pointers d)) timestamp.

Definition retire_route (r : Route) (timestamp : Z) : di_method unit :=
  d ← state;
  if existsb (λ c, bool_decide (c.2.2 = r)) (contact_items (di_pointers d))
  then cancel_display (rt_display r) timestamp else mret tt.

(** The identity and the route of a sample; [None] is the early return of a
    sample without a contact. *)
Definition claim_contact (action : TouchAction) (pointer_id : Z) (r : Route)
    : di_method (option (Z * Route)) :=
  d ← state;
  let key := (rt_display r, pointer_id) in
  match action with
  | TouchDown =>
      if bool_decide (is_Some (di_pointers d !! key)) then fail DuplicateDown
      else
        match free_id (rt_display r) (di_pointers d) with
        | None => fail IdentitiesExhausted
        | Some id =>
            _ ← on_direct (with_pointers (<[key := (id, r)]> (di_pointers d)));
            mret (Some (id, r))
        end
  | _ =>
      match di_pointers d !! key with
      | None => mret None
      | Some c =>
          _ ← (if bool_decide (action = TouchUp)
               then on_direct (with_pointers (delete key (di_pointers d))) else mret tt);
          mret (Some c)
      end
  end.

(** A record the encoder refused ends the connection. *)
Definition deliver (r : result InputProtocolError (list Z)) : di_method unit :=
  match r with
  | Ok record => enqueue record
  | Err e => fail (InvalidInput e)
  end.

Definition send (r : Route) (scale : Z * Z) (serial timestamp : Z) (event : InputEvent)
    : di_method unit :=
  d ← state;
  _ ← reject (bool_decide (di_socket d = None)) Reconnecting;
  match event with
  | Touch action pointer_id x_fixed y_fixed pressure =>
      if bool_decide (action = TouchCancel) then cancel_display (rt_display r) timestamp
      else
        match scale_fixed x_fixed scale.1 scale.2, scale_fixed y_fixed scale.1 scale.2 with
        | Ok x, Ok y =>
            c ← claim_contact action pointer_id r;
            match c with
            | None => mret tt
            | Some (id, r) =>
                deliver (encode_touch (rt_display r) (rt_task r) timestamp (TouchAction_u8 action) id
                           x y pressure (rt_incarnation r))
            end
        | _, _ => fail InvalidTouch
        end
  | Key action keycode repeat =>
      deliver (encode_key (rt_display r) (rt_task r) timestamp (KeyAction_u8 action) keycode repeat
                 serial (rt_incarnation r))
  | Navigation _ => throw NoNavigation
  end.

(** [notify_ready]: whether the descriptor reported input, an error or the end. *)
Definition notify_ready (ready : bool) : di_method unit :=
  d ← state;
  if bool_decide (is_Some (di_socket d)) && ready then disconnect else mret tt.

(** [fd]: the descriptor, and whether writability is awaited. *)
Definition polled (d : DirectInput) : option (fd * bool) :=
  s ← di_socket d; Some (s, negb (bool_decide (di_queue d = []))).

End direct.
