(* ===== verification/DirectSpec.v ===== *)
(** * What the presenter's input writer promises

    The records of one connection are a legal touch stream for every receiver
    that follows [stream_step]: contacts go down once, move and lift while they
    are down and on the route that put them down.  The contacts the stream leaves
    open are exactly those [DirectInput] tracks. *)

From S2P Require Import Bytes Protocol Codec CodecProofs Syncobj Ipc InputRecords DirectInput Prelude.

(** ** The stream as a receiver sees it *)

(** Open contacts: display and Android identity, with their route. *)
Abbreviation Open := (gmap (Z * Z) Route).

Section stream.

(** What a receiver asks of a new contact beyond its free identity, and whether
    it takes keys. *)
Context (down_ok : Route → gmap (Z * Z) Route → bool) (keys_ok : bool).

(** One record; [None] is a record no receiver should see. *)
Definition stream_step (record : list Z) (m : Open) : option Open :=
  if negb (bool_decide (Forall is_u8 record)) then None else
  match InputRecords.decode record with
  | Ok (DisplayPowerRecord powered) => Some (if powered then m else ∅)
  | Ok (InputRecord s) =>
      match sm_payload s with
      | KeyPayload _ _ => if keys_ok then Some m else None
      | InputRecords.Touch _ _ _ =>
          let key := (sm_display s, sm_code s) in
          let r := mkRoute (sm_task s) (sm_display s) (sm_incarnation s) in
          if sm_action s =? 0 then
            if bool_decide (m !! key = None) && down_ok r m then Some (<[key := r]> m) else None
          else if negb (bool_decide (m !! key = Some r)) then None
          else if sm_action s =? 1 then Some m
          else if sm_action s =? 2 then Some (delete key m)
          else Some (filter (λ c, c.2 ≠ r) m)
      end
  | Err _ => None
  end.

Fixpoint stream_run (records : list (list Z)) (m : Open) : option Open :=
  match records with
  | [] => Some m
  | record :: records => m ← stream_step record m; stream_run records m
  end.

Lemma stream_run_snoc records record m :
  stream_run (records ++ [record]) m = (m' ← stream_run records m; stream_step record m').
Proof.
  revert m. induction records as [|x records IH]; intros m; cbn; [by destruct (stream_step _ _)|].
  destruct (stream_step x m); cbn; [apply IH|done].
Qed.

(** ** Records and their effect *)

Definition route_typed (r : Route) : Prop :=
  is_u64 (rt_task r) ∧ is_u32 (rt_display r) ∧ is_u64 (rt_incarnation r).

Definition route_ok (r : Route) : Prop :=
  1 ≤ rt_task r ≤ i32_max ∧ 0 ≤ rt_display r ≤ i32_max ∧ 1 ≤ rt_incarnation r ≤ i64_max.

Definition time_ok (timestamp : Z) : Prop := 1 ≤ timestamp ≤ i64_max.

Lemma encode_touch_run r ts a id x y p :
  route_ok r → 0 ≤ id ≤ MAX_POINTER_ID → a ≤ 3 →
  ∃ record, encode_touch (rt_display r) (rt_task r) ts a id x y p (rt_incarnation r) = Ok record.
Proof.
  unfold route_ok, encode_touch, wire_task, i32_max, i64_max, MAX_POINTER_ID, u32_max.
  intros (Ht & Hd & Hi) Hid Ha.
  rewrite (proj2 (Z.eqb_neq (rt_incarnation r) 0)), (proj2 (Z.ltb_ge _ (rt_incarnation r))) by lia.
  rewrite (proj2 (Z.ltb_ge _ (rt_display r))) by lia. cbn.
  rewrite !(proj2 (Z.ltb_ge _ (rt_task r))) by lia. rewrite (proj2 (Z.eqb_neq (rt_task r) 0)) by lia. cbn.
  rewrite (proj2 (Z.ltb_ge _ id)) by lia. rewrite (proj2 (Z.ltb_ge _ a)) by lia. cbn. eauto.
Qed.

Lemma encode_touch_route r ts a id x y p record :
  route_typed r → 0 ≤ id →
  encode_touch (rt_display r) (rt_task r) ts a id x y p (rt_incarnation r) = Ok record →
  route_ok r ∧ id ≤ MAX_POINTER_ID ∧ a ≤ 3.
Proof.
  unfold route_typed, route_ok. intros (Ht & Hd & Hi) Hid He. unfold encode_touch in He. inv_ok.
  match goal with Hw : wire_task _ = Ok _ |- _ => apply wire_task_Ok in Hw as (-> & Htn & Htm) end.
  unfold i32_max, i64_max, MAX_POINTER_ID in *. reflect. unfold_ints. lia.
Qed.

Lemma write_bytes offset bytes record :
  Forall is_u8 bytes → Forall is_u8 record → Forall is_u8 (write offset bytes record).
Proof.
  intros Hb Hr. unfold write. apply Forall_app. split; [by apply Forall_take|].
  apply Forall_app. split; [done|by apply Forall_drop].
Qed.

Ltac solve_bytes :=
  first [apply le_bytes_u8 | apply Forall_cons; split; [assumption || done|by apply Forall_nil]
        | unfold MAGIC; repeat (apply Forall_cons; split; [done|]); by apply Forall_nil].

Lemma encode_touch_bytes d t ts a id x y p i record :
  is_u8 a → encode_touch d t ts a id x y p i = Ok record → Forall is_u8 record.
Proof.
  intros Ha He. unfold encode_touch in He. inv_ok. subst.
  unfold header, blank. repeat (apply write_bytes; [solve_bytes|]). by apply Forall_replicate.
Qed.

Lemma encode_key_bytes d t ts a code rp serial i record :
  is_u8 a → encode_key d t ts a code rp serial i = Ok record → Forall is_u8 record.
Proof.
  intros Ha He. unfold encode_key in He. inv_ok. subst.
  unfold header, blank. repeat (apply write_bytes; [solve_bytes|]). by apply Forall_replicate.
Qed.

Lemma decode_touch_record r ts a id x y p record :
  route_ok r → time_ok ts → is_u8 a → 0 ≤ id ≤ MAX_POINTER_ID → is_i32 x → is_i32 y → is_u16 p →
  encode_touch (rt_display r) (rt_task r) ts a id x y p (rt_incarnation r) = Ok record →
  InputRecords.decode record = Ok (InputRecord (mkSample (rt_display r) (rt_task r) (rt_incarnation r) ts a id
                                     (touch_values x y p))).
Proof.
  unfold route_ok, time_ok, i32_max, i64_max, MAX_POINTER_ID. intros (Ht & Hd & Hi) Hts Ha Hid Hx Hy Hp He.
  edestruct touch_roundtrip as [_ ->]; [..|exact He|]; try done; try (unfold_ints; lia).
  unfold i64_max. rewrite (proj2 (Z.leb_le 1 ts)), (proj2 (Z.leb_le ts _)) by lia. done.
Qed.

Lemma stream_touch r ts a id x y p record m :
  route_ok r → time_ok ts → 0 ≤ id ≤ MAX_POINTER_ID → is_i32 x → is_i32 y → is_u16 p →
  encode_touch (rt_display r) (rt_task r) ts (TouchAction_u8 a) id x y p (rt_incarnation r) = Ok record →
  stream_step record m =
  match a with
  | TouchDown => if bool_decide (m !! (rt_display r, id) = None) && down_ok r m
                 then Some (<[(rt_display r, id) := r]> m) else None
  | _ =>
      if negb (bool_decide (m !! (rt_display r, id) = Some r)) then None else
      Some match a with
           | TouchMotion => m
           | TouchUp => delete (rt_display r, id) m
           | _ => filter (λ c, c.2 ≠ r) m
           end
  end.
Proof.
  intros Hr Hts Hid Hx Hy Hp He. unfold stream_step.
  assert (is_u8 (TouchAction_u8 a)) as Ha by by destruct a.
  rewrite bool_decide_true by (by eapply encode_touch_bytes). cbn [negb].
  rewrite (decode_touch_record _ _ _ _ _ _ _ _ Hr Hts Ha Hid Hx Hy Hp He).
  cbn [sm_payload sm_display sm_code sm_task sm_incarnation sm_action touch_values].
  destruct r as [t d i]. cbn in *. destruct a; cbn; try done; by destruct (negb _).
Qed.

Lemma stream_key r ts a code rp serial record m :
  route_typed r → time_ok ts → is_u32 code → is_u16 rp → is_u64 serial →
  encode_key (rt_display r) (rt_task r) ts (KeyAction_u8 a) code rp serial (rt_incarnation r) = Ok record →
  stream_step record m = if keys_ok then Some m else None.
Proof.
  unfold route_typed, time_ok, i64_max. intros (Ht & Hd & Hi) Hts Hc Hrp Hs He. unfold stream_step.
  rewrite bool_decide_true by (eapply encode_key_bytes; [|exact He]; by destruct a). cbn [negb].
  edestruct key_roundtrip as [_ ->]; [..|exact He|]; try done; try (unfold_ints; destruct a; cbn; lia).
  unfold i64_max. rewrite (proj2 (Z.leb_le 1 ts)), (proj2 (Z.leb_le ts _)) by lia. done.
Qed.

Lemma stream_power b m : stream_step (encode_display_power b) m = Some (if b then m else ∅).
Proof. unfold stream_step. by destruct b. Qed.

(** ** Contacts *)

Lemma contact_items_elem (k : Z * Z) (c : Z * Route) (m : Contacts) : (k, c) ∈ contact_items m ↔ m !! k = Some c.
Proof. unfold contact_items. rewrite merge_sort_Permutation. apply elem_of_map_to_list. Qed.

Lemma contacts_exist (f : (Z * Z) * (Z * Route) → bool) m :
  existsb f (contact_items m) = true ↔ ∃ k c, m !! k = Some c ∧ f (k, c) = true.
Proof.
  rewrite existsb_exists. split.
  - intros ([k c] & Hin & Hf). apply list_elem_of_In, contact_items_elem in Hin. eauto.
  - intros (k & c & Hin & Hf). exists (k, c). by rewrite <- list_elem_of_In, contact_items_elem.
Qed.

Lemma free_id_spec display m id :
  free_id display m = Some id →
  0 ≤ id ≤ MAX_POINTER_ID ∧ ∀ pid id' r, m !! (display, pid) = Some (id', r) → id' ≠ id.
Proof.
  unfold free_id. intros [Hin Hf]%find_some. apply list_elem_of_In, elem_of_seqZ in Hin. split; [lia|].
  intros pid id' r Hp ->. apply negb_true_iff, not_true_iff_false in Hf. apply Hf, contacts_exist.
  exists (display, pid), (id, r). split; [done|]. cbn. by rewrite !Z.eqb_refl.
Qed.

(** What the fold has collected after the contacts [seen]. *)
Record collected (display : Z) (seen : list ((Z * Z) * (Z * Route))) (rs : list (Z * Route)) : Prop := {
  co_nodup : NoDup rs.*2;
  co_sound e : e ∈ rs → ∃ pid, ((display, pid), e) ∈ seen;
  co_complete pid id r : ((display, pid), (id, r)) ∈ seen → r ∈ rs.*2
}.

Lemma add_route_collected display seen rs c :
  collected display seen rs → collected display (seen ++ [c]) (add_route display rs c).
Proof.
  intros [Hn Hs Hc]. destruct c as [[d pid] [id r]]. unfold add_route. cbn.
  destruct (Z.eqb_spec d display) as [->|Hd]; cbn [andb];
    [destruct (existsb _ rs) eqn:Ex; cbn [negb]|].
  - split; [done|intros e He; destruct (Hs e He) as [p Hp]; exists p; set_solver|].
    intros p i r' [Hin|[= <- <- <-]%list_elem_of_singleton]%elem_of_app; [by eapply Hc|].
    apply existsb_exists in Ex as (e & He & Hb%bool_decide_eq_true). subst.
    apply list_elem_of_fmap. exists e. by rewrite list_elem_of_In.
  - apply not_true_iff_false in Ex. split.
    + rewrite fmap_app. apply NoDup_app. split_and!; [done| |apply NoDup_singleton].
      intros x Hx ->%list_elem_of_singleton. apply Ex, existsb_exists.
      cbn in Hx. apply list_elem_of_fmap in Hx as (e & Hr & He). exists e. rewrite <- list_elem_of_In.
      split; [done|]. by apply bool_decide_eq_true.
    + intros e [He| ->%list_elem_of_singleton]%elem_of_app; [destruct (Hs e He) as [p Hp]; exists p; set_solver|].
      exists pid. set_solver.
    + intros p i r' [Hin|[= <- <- <-]%list_elem_of_singleton]%elem_of_app; rewrite fmap_app, elem_of_app;
        [left; by eapply Hc|right; by apply list_elem_of_singleton].
  - split; [done|intros e He; destruct (Hs e He) as [p Hp]; exists p; set_solver|].
    intros p i r' [Hin|[= ? <- <- <-]%list_elem_of_singleton]%elem_of_app; [by eapply Hc|done].
Qed.

Lemma display_routes_collected display m : collected display (contact_items m) (display_routes display m).
Proof.
  unfold display_routes. change (contact_items m) with ([] ++ contact_items m) at 1.
  assert (collected display [] []) as H0
    by (split; [constructor|intros e He; by apply not_elem_of_nil in He|intros ??? He; by apply not_elem_of_nil in He]).
  revert H0. generalize (@nil ((Z * Z) * (Z * Route))) as seen. generalize (@nil (Z * Route)) as rs.
  induction (contact_items m) as [|c items IH]; intros rs seen H0; cbn [foldl]; [by rewrite app_nil_r|].
  rewrite cons_middle, app_assoc. by apply IH, add_route_collected.
Qed.

(** The tracked contacts are the open ones, under identities of their own. *)
Record mirrors (p : Contacts) (m : Open) : Prop := {
  mi_open d pid id r : p !! (d, pid) = Some (id, r) → m !! (d, id) = Some r;
  mi_held d id r : m !! (d, id) = Some r → ∃ pid, p !! (d, pid) = Some (id, r);
  mi_inj d pid pid' id r r' : p !! (d, pid) = Some (id, r) → p !! (d, pid') = Some (id, r') → pid = pid';
  mi_route d pid id r : p !! (d, pid) = Some (id, r) → rt_display r = d ∧ route_ok r ∧ 0 ≤ id ≤ MAX_POINTER_ID
}.

Lemma mirrors_empty : mirrors ∅ ∅.
Proof. split; intros *; by rewrite ?lookup_empty. Qed.

Lemma mirrors_down p m pid id r :
  mirrors p m → p !! (rt_display r, pid) = None → m !! (rt_display r, id) = None → route_ok r →
  0 ≤ id ≤ MAX_POINTER_ID →
  mirrors (<[(rt_display r, pid) := (id, r)]> p) (<[(rt_display r, id) := r]> m).
Proof.
  intros [H1 H2 H3 H4] Hp Hm Hr Hid. split.
  - intros d q i r' [[Ha Hb]|[Hne Hq]]%lookup_insert_Some; simplify_eq; [by rewrite lookup_insert_eq|].
    apply H1 in Hq as Hq'. rewrite lookup_insert_ne; [done|]. intros Heq. simplify_eq.
  - intros d i r' [[Ha Hb]|[Hne Hq]]%lookup_insert_Some; simplify_eq;
      [exists pid; by rewrite lookup_insert_eq|].
    destruct (H2 _ _ _ Hq) as [q Hq']. exists q. rewrite lookup_insert_ne; [done|]. intros Heq. simplify_eq.
  - intros d q q' i r1 r2 [[Ha Hb]|[Hne Hq]]%lookup_insert_Some [[Ha' Hb']|[Hne' Hq']]%lookup_insert_Some;
      simplify_eq; [done|apply H1 in Hq'; congruence|apply H1 in Hq; congruence|by eapply H3].
  - intros d q i r' [[Ha Hb]|[Hne Hq]]%lookup_insert_Some; simplify_eq; [done|by eapply H4].
Qed.

Lemma mirrors_up p m d pid id r :
  mirrors p m → p !! (d, pid) = Some (id, r) → mirrors (delete (d, pid) p) (delete (d, id) m).
Proof.
  intros [H1 H2 H3 H4] Hp. split.
  - intros d' q i r' [Hne Hq]%lookup_delete_Some. apply H1 in Hq as Hq'. rewrite lookup_delete_ne; [done|].
    intros [= <- <-]. apply Hne. f_equal. by eapply H3.
  - intros d' i r' [Hne Hq]%lookup_delete_Some. destruct (H2 _ _ _ Hq) as [q Hq']. exists q.
    rewrite lookup_delete_ne; [done|]. intros [= <- <-]. apply Hne. congruence.
  - intros d' q q' i r1 r2 [_ Hq]%lookup_delete_Some [_ Hq']%lookup_delete_Some. by eapply H3.
  - intros d' q i r' [_ Hq]%lookup_delete_Some. by eapply H4.
Qed.

(** Every route of the display cancelled is the display cleared. *)
Lemma mirrors_clear p m display :
  mirrors p m →
  mirrors (filter (λ c, c.1.1 ≠ display) p)
          (filter (λ c, c.2 ∉ (display_routes display p).*2) m).
Proof.
  intros [H1 H2 H3 H4]. pose proof (display_routes_collected display p) as Hc.
  assert (∀ d pid id r, p !! (d, pid) = Some (id, r) → d ≠ display → r ∉ (display_routes display p).*2) as Hout.
  { intros d pid id r Hp Hd Hin. apply list_elem_of_fmap in Hin as ([i r'] & -> & Hin). cbn in *.
    apply (co_sound _ _ _ Hc) in Hin as [q Hq]. apply contact_items_elem, H4 in Hq as [Hq _].
    apply H4 in Hp as [Hp _]. congruence. }
  split.
  - intros d q i r [Hq Hd]%map_lookup_filter_Some. cbn in Hd. apply map_lookup_filter_Some. split; [by eapply H1|].
    by eapply Hout.
  - intros d i r [Hq Hr]%map_lookup_filter_Some. destruct (H2 _ _ _ Hq) as [q Hq']. exists q.
    apply map_lookup_filter_Some. split; [done|]. cbn in *. intros ->. apply Hr.
    eapply (co_complete _ _ _ Hc). by apply contact_items_elem.
  - intros d q q' i r1 r2 [Hq _]%map_lookup_filter_Some [Hq' _]%map_lookup_filter_Some. by eapply H3.
  - intros d q i r [Hq _]%map_lookup_filter_Some. by eapply H4.
Qed.

#[local] Arguments encode_display_power : simpl never.

(** ** The invariant *)

(** What was written on the connection: taken by the socket, or still queued. *)
Definition wire (d : DirectInput) : list (list Z) := di_sent d ++ di_queue d.

#[local] Arguments wire : simpl never.

Record input_ok (d : DirectInput) : Prop := {
  io_closed : di_socket d = None → wire d = [] ∧ di_pointers d = ∅;
  io_queue : zlen (di_queue d) ≤ QUEUE_LIMIT;
  io_stream : ∃ m, stream_run (wire d) ∅ = Some m ∧ mirrors (di_pointers d) m
}.

Lemma closed_ok d : input_ok (closed d).
Proof. split; [done|done|]. exists ∅. split; [done|apply mirrors_empty]. Qed.

Lemma default_ok : input_ok direct_default.
Proof. apply (closed_ok direct_default). Qed.

(** Everything but the queue and what was sent. *)
Record carried (d d' : DirectInput) : Prop := {
  ca_socket : di_socket d' = di_socket d;
  ca_pointers : di_pointers d' = di_pointers d;
  ca_generation : di_generation d' = di_generation d;
  ca_requested : di_requested d' = di_requested d;
  ca_power : di_power d' = di_power d
}.

Lemma carried_refl d : carried d d.
Proof. by split. Qed.
Lemma carried_trans d d1 d2 : carried d d1 → carried d1 d2 → carried d d2.
Proof. intros [] []. split; congruence. Qed.

Section spec.

Context {K : Type} `{InputOps K}.
Context (interrupts : nat).

Abbreviation di_method := (DirectInput.di_method (K := K)).

(** From [d] the method ends in [Q], or fails in [R], which a closed connection
    satisfies. *)
Section rules.

Context (R : DirectInput → Prop) (R_closed : ∀ d, R (closed d)).

Definition writes {A} (m : di_method A) (Q : A → DirectInput → Prop) (d : DirectInput) : Prop :=
  ∀ k, match m (k, d) with (s, Ok a) => Q a s.2 | (s, Err _) => R s.2 end.

Lemma writes_mono {A} (m : di_method A) Q Q' d :
  writes m Q d → (∀ a d', Q a d' → Q' a d') → writes m Q' d.
Proof. intros Hm HQ k. specialize (Hm k). destruct (m (k, d)) as [s [a|e]]; auto. Qed.

Lemma writes_bind {A B} (m : di_method A) (f : A → di_method B) Q d :
  writes m (λ a, writes (f a) Q) d → writes (m ≫= f) Q d.
Proof.
  intros Hm k. specialize (Hm k). unfold mbind, method_bind.
  destruct (m (k, d)) as [[k' d'] [a|e]]; [apply Hm|done].
Qed.

Lemma writes_seq {A B} (m : di_method A) (f : A → di_method B) P Q d :
  writes m P d → (∀ a d', P a d' → writes (f a) Q d') → writes (m ≫= f) Q d.
Proof. intros Hm Hf. apply writes_bind. by eapply writes_mono. Qed.

Lemma writes_ret {A} (a : A) (Q : A → DirectInput → Prop) d : Q a d → writes (mret a) Q d.
Proof. by intros HQ k. Qed.
Lemma writes_state (Q : DirectInput → DirectInput → Prop) d : Q d d → writes state Q d.
Proof. by intros HQ k. Qed.
Lemma writes_on f (Q : unit → DirectInput → Prop) d : Q tt (f d) → writes (on_direct f) Q d.
Proof. by intros HQ k. Qed.
Lemma writes_throw {A} e (Q : A → DirectInput → Prop) d : R d → writes (throw e) Q d.
Proof. by intros HQ k. Qed.
Lemma writes_lift {A} (r : result DirectError A) (Q : A → DirectInput → Prop) d :
  R d → (∀ a, r = Ok a → Q a d) → writes (lift r) Q d.
Proof. intros Hd HQ k. unfold lift. destruct r; cbn; auto. Qed.
Lemma writes_lift_Ok {A} (r : result DirectError A) a (Q : A → DirectInput → Prop) d :
  r = Ok a → Q a d → writes (lift r) Q d.
Proof. intros -> HQ k. exact HQ. Qed.
Lemma writes_reject b e (Q : unit → DirectInput → Prop) d :
  R d → (b = false → Q tt d) → writes (reject b e) Q d.
Proof. intros Hd HQ k. unfold reject. destruct b; cbn; auto. Qed.
Lemma writes_call {A} m (Q : result IpcError A → DirectInput → Prop) d :
  (∀ r, Q r d) → writes (socket_call m) Q d.
Proof. intros HQ k. unfold socket_call. cbn. destruct (m k). apply HQ. Qed.
Lemma writes_fail {A} e (Q : A → DirectInput → Prop) d : writes (fail e) Q d.
Proof. intros k. apply (R_closed d). Qed.

(** ** The queue *)

(** The queue moves towards the socket; nothing is lost, added or reordered. *)
Lemma flush_loop_writes turns d :
  writes (flush_loop turns)
    (λ _ d', carried d d' ∧ wire d' = wire d ∧ (length (di_queue d') ≤ length (di_queue d))%nat) d.
Proof.
  revert d. induction turns as [|turns IH]; intros d; cbn [flush_loop];
    [apply writes_ret; split_and!; [apply carried_refl|done|done]|].
  apply writes_bind, writes_state.
  destruct (di_socket d) as [s|] eqn:Es; [|apply writes_ret; by split_and!; [apply carried_refl|..]].
  destruct (di_queue d) as [|record queue] eqn:Eq; [apply writes_ret; rewrite Eq; by split_and!; [apply carried_refl|..]|].
  apply writes_bind, writes_call. intros [[]|[]]; try apply writes_fail.
  - apply writes_bind, writes_on. eapply writes_mono; [apply IH|]. intros _ d' (Hc & Hw & Hl). cbn in Hl.
    split_and!; [|rewrite Hw; unfold wire; cbn; by rewrite Eq, <- app_assoc|cbn; lia].
    destruct Hc. by split.
  - case_bool_decide; [apply writes_ret; rewrite Eq; by split_and!; [apply carried_refl|..]|].
    case_bool_decide; [|apply writes_fail]. eapply writes_mono; [apply IH|]. by rewrite Eq.
Qed.

Lemma flush_writes d :
  writes (flush interrupts)
    (λ _ d', carried d d' ∧ wire d' = wire d ∧ (length (di_queue d') ≤ length (di_queue d))%nat) d.
Proof. apply writes_bind, writes_state, flush_loop_writes. Qed.

(** A record that is enqueued is written behind the others, once. *)
Lemma enqueue_writes record d :
  zlen (di_queue d) ≤ QUEUE_LIMIT →
  writes (enqueue interrupts record)
    (λ _ d', carried d d' ∧ wire d' = wire d ++ [record] ∧ zlen (di_queue d') ≤ QUEUE_LIMIT) d.
Proof.
  intros Hq. unfold enqueue. eapply writes_seq; [apply flush_writes|]. intros _ d1 (Hc1 & Hw1 & Hl1).
  apply writes_bind, writes_state.
  destruct (Z.eqb_spec (zlen (di_queue d1)) QUEUE_LIMIT) as [|Hn]; [apply writes_fail|].
  apply writes_bind, writes_on. eapply writes_mono; [apply flush_writes|]. intros _ d2 (Hc2 & Hw2 & Hl2).
  split_and!.
  - eapply carried_trans; [exact Hc1|]. destruct Hc2. by split.
  - rewrite Hw2, <- Hw1. unfold wire. cbn. by rewrite app_assoc.
  - cbn in Hl2. rewrite length_app in Hl2. cbn in Hl2. unfold zlen in *. lia.
Qed.

(** ** Cancellation *)

Lemma cancel_routes_writes display ts rs d m :
  time_ok ts → zlen (di_queue d) ≤ QUEUE_LIMIT → stream_run (wire d) ∅ = Some m → NoDup rs.*2 →
  (∀ id r, (id, r) ∈ rs →
     m !! (display, id) = Some r ∧ rt_display r = display ∧ route_ok r ∧ 0 ≤ id ≤ MAX_POINTER_ID) →
  writes (cancel_routes interrupts display ts rs)
    (λ _ d', carried d d' ∧ zlen (di_queue d') ≤ QUEUE_LIMIT
             ∧ stream_run (wire d') ∅ = Some (filter (λ c, c.2 ∉ rs.*2) m)) d.
Proof.
  intros Hts. revert d m. induction rs as [|[id r] rs IH]; intros d m Hq Hm Hn Hr; cbn [cancel_routes].
  { apply writes_ret. split_and!; [apply carried_refl|done|]. rewrite Hm. f_equal. symmetry.
    apply map_filter_id. intros. apply not_elem_of_nil. }
  cbn in Hn. apply NoDup_cons in Hn as [Hnr Hn].
  destruct (Hr id r) as (Hmr & Hd & Hok & Hid); [set_solver|].
  destruct (encode_touch_run r ts (TouchAction_u8 TouchCancel) id 0 0 0 Hok Hid ltac:(done)) as [record He].
  rewrite Hd in He. rewrite He. apply writes_bind. eapply writes_lift_Ok; [done|].
  eapply writes_seq; [by apply enqueue_writes|]. intros _ d1 (Hc1 & Hw1 & Hq1).
  rewrite <- Hd in He.
  assert (stream_run (wire d1) ∅ = Some (filter (λ c, c.2 ≠ r) m)) as Hm1.
  { rewrite Hw1, stream_run_snoc, Hm. cbn.
    rewrite (stream_touch r ts TouchCancel id 0 0 0 record m) by (done || (unfold_ints; lia)).
    rewrite Hd, bool_decide_true by done. done. }
  eapply writes_mono; [apply (IH d1 _ Hq1 Hm1 Hn)|].
  - intros id' r' Hin. destruct (Hr id' r') as (Hm' & Hrest); [set_solver|]. split; [|done].
    apply map_lookup_filter_Some. split; [done|]. cbn. intros ->. apply Hnr, list_elem_of_fmap. by exists (id', r).
  - intros _ d2 (Hc2 & Hq2 & Hm2). split_and!; [by eapply carried_trans|done|]. rewrite Hm2. f_equal.
    rewrite map_filter_filter. apply map_filter_strong_ext_1. intros i x. cbn. set_solver.
Qed.

(** A display without open contacts. *)
Definition clears (display : Z) (d d' : DirectInput) : Prop :=
  di_pointers d' = filter (λ c, c.1.1 ≠ display) (di_pointers d) ∧ di_socket d' = di_socket d.

Lemma cancel_display_writes display ts d :
  time_ok ts → input_ok d →
  writes (cancel_display interrupts display ts) (λ _ d', input_ok d' ∧ clears display d d') d.
Proof.
  intros Hts [Hs Hq (m & Hm & Hmi)]. unfold cancel_display. apply writes_bind, writes_state.
  destruct (di_socket d) as [s|] eqn:Es.
  - pose proof (display_routes_collected display (di_pointers d)) as Hc.
    eapply writes_seq; [apply (cancel_routes_writes display ts _ d m); try done; [apply Hc|]|].
    + intros id r Hin. apply (co_sound _ _ _ Hc) in Hin as [pid Hp%contact_items_elem].
      split; [by eapply mi_open|by eapply mi_route].
    + intros _ d1 (Hc1 & Hq1 & Hm1). apply writes_on. unfold clears. cbn.
      rewrite (ca_pointers _ _ Hc1), (ca_socket _ _ Hc1), Es. split; [|done]. split; cbn; [|done|].
      * by rewrite (ca_socket _ _ Hc1), Es.
      * eexists. split; [exact Hm1|]. by apply mirrors_clear.
  - destruct (Hs eq_refl) as [Hw Hp]. rewrite Hp. apply writes_bind, writes_ret, writes_on. unfold clears. cbn.
    rewrite Hp, map_filter_empty, Es. split; [|done]. split; cbn; [done|done|].
    exists ∅. unfold wire in *. cbn. rewrite Hw. split; [done|apply mirrors_empty].
Qed.

(** What is left after a loop over the contacts. *)
Lemma clears_size display d d' k c :
  clears display d d' → di_pointers d !! k = Some c → k.1 = display →
  (size (di_pointers d') < size (di_pointers d))%nat.
Proof.
  intros [-> _] Hk Hd.
  assert (filter (λ c, c.1.1 ≠ display) (di_pointers d) ⊂ di_pointers d) as Hsub.
  { split; [apply map_filter_subseteq|]. intros Hincl.
    eapply lookup_weaken in Hk as Hk'; [|exact Hincl]. by apply map_lookup_filter_Some in Hk' as [_ Hn]. }
  by apply map_subset_size.
Qed.

(** The loop ends with no contact left. *)
Lemma cancel_loop_writes turns ts d :
  time_ok ts → input_ok d → (size (di_pointers d) ≤ turns)%nat →
  writes (cancel_loop interrupts turns ts)
    (λ _ d', input_ok d' ∧ di_pointers d' = ∅ ∧ di_socket d' = di_socket d) d.
Proof.
  intros Hts. revert d. induction turns as [|turns IH]; intros d Hd Hsz; cbn [cancel_loop].
  { apply writes_ret. split_and!; [done| |done]. apply map_size_empty_inv. lia. }
  apply writes_bind, writes_state. destruct (contact_items (di_pointers d)) as [|[k [id r]] l] eqn:Ei.
  { apply writes_ret. split_and!; [done| |done]. apply map_empty. intros k. apply eq_None_not_Some. intros [c Hc].
    apply contact_items_elem in Hc. rewrite Ei in Hc. by apply not_elem_of_nil in Hc. }
  assert (di_pointers d !! k = Some (id, r)) as Hk by (apply contact_items_elem; rewrite Ei; by left).
  eapply writes_seq; [by apply cancel_display_writes|]. intros _ d1 [Hd1 Hc].
  eapply writes_mono; [apply IH; [done|]|].
  - assert (k.1 = rt_display r) as Hkd.
    { destruct (io_stream _ Hd) as (m & _ & Hm). destruct k as [kd kp]. symmetry. by eapply mi_route. }
    pose proof (clears_size _ _ _ _ _ Hc Hk Hkd). lia.
  - intros _ d2 (H1 & H2 & H3). split_and!; [done|done|]. rewrite H3. apply Hc.
Qed.

Lemma cancel_all_writes ts d :
  time_ok ts → input_ok d →
  writes (cancel_all interrupts ts)
    (λ _ d', input_ok d' ∧ di_pointers d' = ∅ ∧ di_socket d' = di_socket d) d.
Proof. intros Hts Hd. apply writes_bind, writes_state. by apply cancel_loop_writes. Qed.

Lemma retire_route_writes r ts d :
  time_ok ts → input_ok d →
  writes (retire_route interrupts r ts)
    (λ _ d', input_ok d' ∧ ∀ k id, di_pointers d' !! k ≠ Some (id, r)) d.
Proof.
  intros Hts Hd. unfold retire_route. apply writes_bind, writes_state.
  destruct (existsb _ _) eqn:Ex.
  - eapply writes_mono; [by apply cancel_display_writes|]. intros _ d1 [Hd1 [Hp _]]. split; [done|].
    intros [kd kp] id. rewrite Hp. intros [Hk Hn]%map_lookup_filter_Some. cbn in Hn.
    destruct (io_stream _ Hd) as (m & _ & Hm). apply (mi_route _ _ Hm) in Hk as [Hk _]. congruence.
  - apply writes_ret. split; [done|]. intros k id Hk. apply not_true_iff_false in Ex. apply Ex, contacts_exist.
    exists k, (id, r). split; [done|]. by apply bool_decide_eq_true.
Qed.

End rules.

#[local] Hint Resolve closed_ok : core.

(** ** Sending *)

Definition event_ok (r : Route) (event : InputEvent) (d : DirectInput) : Prop :=
  match event with
  | Protocol.Touch action pointer_id x y pressure =>
      is_i32 x ∧ is_i32 y ∧ is_u16 pressure
      ∧ (action = TouchDown → ∀ m, mirrors (di_pointers d) m → down_ok r m = true)
  | Protocol.Key _ keycode repeat => is_u32 keycode ∧ is_u16 repeat ∧ keys_ok = true
  | Navigation _ => True
  end.

(** A record behind the others that moves the contacts as the tracked ones moved. *)
Lemma deliver_writes record p d m m' s :
  di_socket d = Some s → zlen (di_queue d) ≤ QUEUE_LIMIT → di_pointers d = p →
  stream_run (wire d) ∅ = Some m → stream_step record m = Some m' → mirrors p m' →
  writes input_ok (deliver interrupts (Ok record)) (λ _, input_ok) d.
Proof.
  intros Hs Hq Hp Hm Hstep Hmi. cbn. eapply writes_mono; [by apply enqueue_writes|].
  intros _ d1 (Hc & Hw & Hq1). split.
  - rewrite (ca_socket _ _ Hc), Hs. done.
  - done.
  - exists m'. rewrite Hw, stream_run_snoc, Hm. cbn. rewrite (ca_pointers _ _ Hc), Hp. done.
Qed.

Lemma scale_fixed_i32 value n k x : scale_fixed value n k = Ok x → is_i32 x.
Proof.
  unfold scale_fixed. intros He. inv_ok. destruct (_ && _) eqn:E; [|done].
  injection He as <-. reflect. unfold is_i32, i32_max in *. lia.
Qed.

Lemma send_writes r scale serial ts event d :
  input_ok d → route_typed r → is_u64 serial → time_ok ts → event_ok r event d →
  writes input_ok (send interrupts r scale serial ts event) (λ _, input_ok) d.
Proof.
  intros Hd Hr Hser Hts Hev. unfold send. apply writes_bind, writes_state.
  apply writes_bind, writes_reject; [done|]. intros Hs%bool_decide_eq_false.
  destruct (di_socket d) as [s|] eqn:Es; [|done]. clear Hs.
  pose proof Hd as [_ Hq (m & Hm & Hmi)].
  destruct event as [action pid xf yf p|action code rp|]; [|destruct Hev as (Hc & Hrp & Hk)|by apply writes_throw].
  - destruct Hev as (Hxf & Hyf & Hp & Hdown). case_bool_decide as Hcancel.
    { eapply writes_mono; [by apply cancel_display_writes|]. by intros _ d1 [? _]. }
    destruct (scale_fixed xf _ _) as [x|] eqn:Ex; [|by apply writes_fail].
    destruct (scale_fixed yf _ _) as [y|] eqn:Ey; [|by apply writes_fail].
    apply scale_fixed_i32 in Ex, Ey. unfold claim_contact.
    destruct action; [|destruct (di_pointers d !! (rt_display r, pid)) as [[id r']|] eqn:Ep..|done].
    + apply writes_bind, writes_bind, writes_state. case_bool_decide as Hdup; [by apply writes_fail|].
      destruct (free_id _ _) as [id|] eqn:Ef; [|by apply writes_fail].
      apply free_id_spec in Ef as [Hid Hfree]. apply writes_bind, writes_on, writes_ret.
      destruct (encode_touch _ _ _ _ _ _ _ _ _) as [record|] eqn:He; [|by apply writes_fail].
      apply encode_touch_route in He as Hok; [|done|lia]. destruct Hok as (Hok & _).
      assert (m !! (rt_display r, id) = None) as Hnew.
      { apply eq_None_not_Some. intros [r' Hr']. destruct (mi_held _ _ Hmi _ _ _ Hr') as [q Hq'].
        by apply (Hfree _ _ _ Hq'). }
      eapply (deliver_writes record _ _ m (<[(rt_display r, id) := r]> m) s); [done|done|reflexivity|done| |].
      * rewrite (stream_touch r ts TouchDown id x y p record m) by done.
        rewrite bool_decide_true, Hdown by done. done.
      * apply mirrors_down; try done. apply eq_None_not_Some. done.
    + apply writes_bind, writes_bind, writes_state. rewrite Ep. apply writes_bind, writes_ret, writes_ret.
      destruct (mi_route _ _ Hmi _ _ _ _ Ep) as (Hd' & Hok & Hid). pose proof (mi_open _ _ Hmi _ _ _ _ Ep) as Hop.
      destruct (encode_touch _ _ _ _ _ _ _ _ _) as [record|] eqn:He; [|by apply writes_fail].
      eapply (deliver_writes record _ _ m m s); [done|done|reflexivity|done| |done].
      rewrite (stream_touch r' ts TouchMotion id x y p record m) by done.
      by rewrite Hd', bool_decide_true by done.
    + apply writes_bind, writes_bind, writes_state. rewrite Ep. by apply writes_ret, writes_ret.
    + apply writes_bind, writes_bind, writes_state. rewrite Ep. apply writes_bind, writes_on, writes_ret.
      destruct (mi_route _ _ Hmi _ _ _ _ Ep) as (Hd' & Hok & Hid). pose proof (mi_open _ _ Hmi _ _ _ _ Ep) as Hop.
      destruct (encode_touch _ _ _ _ _ _ _ _ _) as [record|] eqn:He; [|by apply writes_fail].
      eapply (deliver_writes record _ _ m (delete (rt_display r, id) m) s); [done|done|reflexivity|done| |].
      * rewrite (stream_touch r' ts TouchUp id x y p record m) by done.
        by rewrite Hd', bool_decide_true by done.
      * cbn. by eapply mirrors_up.
    + apply writes_bind, writes_bind, writes_state. rewrite Ep. by apply writes_ret, writes_ret.
  - destruct (encode_key _ _ _ _ _ _ _ _) as [record|] eqn:He; [|by apply writes_fail].
    eapply (deliver_writes record _ _ m m s); try done.
    rewrite (stream_key r ts action code rp serial record m), Hk by done. done.
Qed.

(** ** Power, connections and readiness *)

Lemma set_power_writes power d :
  input_ok d → writes input_ok (set_power interrupts power) (λ _, input_ok) d.
Proof.
  intros [Hs Hq (m & Hm & Hmi)]. unfold set_power. apply writes_bind, writes_state. case_bool_decide.
  { apply writes_ret. split; [done|done|by exists m]. }
  apply writes_bind, writes_on. destruct (di_socket d) as [s|] eqn:Es; cbn.
  - eapply writes_seq; [by apply enqueue_writes|]. cbn. intros _ d1 (Hc & Hw & Hq1). destruct Hc as [Hc1 Hc2 _ _ _]. cbn in *.
    assert (stream_run (wire d1) ∅ = Some (if power then m else ∅)) as Hm1.
    { rewrite Hw, stream_run_snoc. change (wire (with_power _ d)) with (wire d). rewrite Hm. cbn [mbind option_bind]. apply stream_power. }
    destruct power; [apply writes_ret|apply writes_on]; (split; cbn; [by rewrite Hc1, Es|done|]); eexists; (split; [exact Hm1|]).
    + by rewrite Hc2.
    + apply mirrors_empty.
  - destruct (Hs eq_refl) as [Hw Hp]. apply writes_bind, writes_ret.
    destruct power; [apply writes_ret|apply writes_on]; (split; cbn; [by rewrite ?Hp|done|]).
    + by exists m.
    + exists ∅. change (wire _) with (wire d). rewrite Hw. split; [done|apply mirrors_empty].
Qed.

(** A new connection starts with nothing down and, if it is known, the power. *)
Lemma attach_writes generation wire_abi socket d :
  input_ok d → writes input_ok (attach interrupts generation wire_abi socket) (λ _, input_ok) d.
Proof.
  intros Hd. unfold attach. apply writes_bind, writes_state. destruct (_ || _); [by apply writes_ret|].
  apply writes_bind, writes_reject; [done|intros _].
  do 2 (apply writes_bind, writes_call; intros ?; apply writes_bind, writes_lift; [done|intros ? _]).
  apply writes_bind, writes_reject; [done|intros _].
  apply writes_bind, writes_call; intros ?; apply writes_bind, writes_lift; [done|intros ? _].
  apply writes_bind, writes_on, writes_bind, writes_on.
  destruct (di_power d) as [power|].
  - eapply writes_seq; [by apply enqueue_writes|]. intros _ d1 (Hc & Hw & Hq). apply writes_ret.
    destruct Hc as [Hc1 Hc2 _ _ _]. cbn in *. split; [by rewrite Hc1|done|].
    exists ∅. rewrite Hc2. assert (wire d1 = [encode_display_power power]) as -> by (by rewrite Hw).
    cbn [stream_run]. rewrite stream_power. cbn. split; [by destruct power|apply mirrors_empty].
  - apply writes_bind, writes_ret, writes_ret. split; [done|done|]. exists ∅. split; [done|apply mirrors_empty].
Qed.

Lemma next_request_writes d : input_ok d → writes input_ok next_request (λ _, input_ok) d.
Proof.
  intros Hd. unfold next_request. apply writes_bind, writes_state. destruct (_ || _); [by apply writes_ret|].
  apply writes_bind, writes_lift; [done|intros g _]. apply writes_bind, writes_on, writes_ret.
  destruct Hd as [Hs Hq (m & Hm & Hmi)]. split; [done|done|by exists m].
Qed.

Lemma flush_ok d : input_ok d → writes input_ok (flush interrupts) (λ _, input_ok) d.
Proof.
  intros [Hs Hq (m & Hm & Hmi)]. eapply writes_mono; [by apply flush_writes|]. intros _ d1 (Hc & Hw & Hl).
  destruct Hc as [Hc1 Hc2 _ _ _]. split; [by rewrite Hc1, Hw, Hc2|unfold zlen in *; lia|].
  exists m. by rewrite Hw, Hc2.
Qed.

Lemma notify_ready_writes ready d : input_ok d → writes input_ok (notify_ready ready) (λ _, input_ok) d.
Proof.
  intros Hd. unfold notify_ready. apply writes_bind, writes_state.
  destruct (_ && _); [apply writes_on, closed_ok|by apply writes_ret].
Qed.

(** ** Every history *)

Inductive DirectOp : Type :=
| DoRequest
| DoAttach (generation wire_abi : Z) (socket : fd)
| DoSend (r : Route) (scale : Z * Z) (serial timestamp : Z) (event : InputEvent)
| DoPower (power : bool)
| DoCancelAll (timestamp : Z)
| DoRetire (r : Route) (timestamp : Z)
| DoFlush
| DoReady (ready : bool)
| DoDisconnect.

Definition run_op (op : DirectOp) : di_method unit :=
  match op with
  | DoRequest => _ ← next_request; mret tt
  | DoAttach generation abi socket => _ ← attach interrupts generation abi socket; mret tt
  | DoSend r scale serial timestamp event => send interrupts r scale serial timestamp event
  | DoPower power => set_power interrupts power
  | DoCancelAll timestamp => cancel_all interrupts timestamp
  | DoRetire r timestamp => retire_route interrupts r timestamp
  | DoFlush => flush interrupts
  | DoReady ready => notify_ready ready
  | DoDisconnect => disconnect
  end.

(** Arguments in the range of their types; times of the monotonic clock. *)
Definition direct_op_ok (op : DirectOp) (d : DirectInput) : Prop :=
  match op with
  | DoSend r _ serial timestamp event =>
      route_typed r ∧ is_u64 serial ∧ time_ok timestamp ∧ event_ok r event d
  | DoCancelAll timestamp | DoRetire _ timestamp => time_ok timestamp
  | _ => True
  end.

(** Failures are logged and the writer goes on. *)
Inductive direct_reach : direct (K := K) → Prop :=
| reach_direct k : direct_reach (k, direct_default)
| reach_op s op : direct_reach s → direct_op_ok op s.2 → direct_reach (run_op op s).1.

Lemma run_op_writes op d : input_ok d → direct_op_ok op d → writes input_ok (run_op op) (λ _, input_ok) d.
Proof.
  intros Hd Hop. destruct op; cbn [run_op direct_op_ok] in *.
  - eapply writes_seq; [by apply next_request_writes|]. intros ???. by apply writes_ret.
  - eapply writes_seq; [by apply attach_writes|]. intros ???. by apply writes_ret.
  - destruct Hop as (? & ? & ? & ?). by apply send_writes.
  - by apply set_power_writes.
  - eapply writes_mono; [by apply cancel_all_writes|]. by intros _ d1 [? _].
  - eapply writes_mono; [by apply retire_route_writes|]. by intros _ d1 [? _].
  - by apply flush_ok.
  - by apply notify_ready_writes.
  - apply writes_on, closed_ok.
Qed.

Lemma direct_reach_ok s : direct_reach s → input_ok s.2.
Proof.
  induction 1 as [k|[k d] op _ IH Hop]; [apply default_ok|].
  pose proof (run_op_writes op d IH Hop k) as Hw. by destruct (run_op op (k, d)) as [s' [a|e]].
Qed.

End spec.
End stream.

(** ** What every receiver can rely on *)

(** C29: the records of the present connection, sent and queued, are a legal stream in
    every state the writer reaches, whatever the kernel answers: no contact goes
    down twice, none moves, lifts or is cancelled that is not down or on another
    route than it went down on, and every record decodes.  What the stream leaves
    open is what the writer tracks, so nothing is left down that a later
    cancellation would miss; and the queue keeps its bound. *)
Theorem direct_stream_legal {K} `{InputOps K} interrupts (s : direct (K := K)) :
  direct_reach (λ _ _, true) true interrupts s →
  ∃ m, stream_run (λ _ _, true) true (di_sent s.2 ++ di_queue s.2) ∅ = Some m
       ∧ (∀ d id r, m !! (d, id) = Some r ↔ ∃ pid, di_pointers s.2 !! (d, pid) = Some (id, r))
       ∧ zlen (di_queue s.2) ≤ QUEUE_LIMIT.
Proof.
  intros [_ Hq (m & Hm & [H1 H2 _ _])]%direct_reach_ok. exists m. split_and!; [done| |done].
  intros d id r. split; [apply H2|]. intros [pid Hp]. by eapply H1.
Qed.


(** Cancelling everything leaves no contact tracked, by the cancellations it
    wrote or because the connection ended; one turn per contact is enough. *)
Theorem cancel_all_clears {K} `{InputOps K} interrupts ts (s : direct (K := K)) :
  direct_reach (λ _ _, true) true interrupts s → time_ok ts →
  di_pointers (cancel_all interrupts ts s).1.2 = ∅.
Proof.
  intros Hd%direct_reach_ok Hts. destruct s as [k d].
  pose proof (cancel_all_writes (λ _ _, true) true interrupts (λ d, di_pointers d = ∅) (λ _, eq_refl) ts d Hts Hd k)
    as Hw.
  destruct (cancel_all interrupts ts (k, d)) as [s' [a|e]]; cbn in *; [apply Hw|done].
Qed.

(** ** A concrete writer *)

(** A socket that takes one record and then blocks. *)
#[local] Instance narrow_socket : SeqPacketOps bool := {
  sendmsg record _ taken := if taken : bool then (true, Err DirectInput.EAGAIN) else (true, Ok (zlen record));
  recvmsg _ taken := (taken, Err DirectInput.EAGAIN);
  getsockopt_peercred taken := (taken, Ok (12, mkPeer 1 0 0))
}.

#[local] Instance narrow_input : InputOps bool := {
  in_socket := narrow_socket;
  in_seqpacket _ taken := (taken, Ok tt);
  in_nonblocking _ taken := (taken, Ok tt)
}.

Definition narrow_ops : list DirectOp :=
  [DoPower true; DoRequest; DoAttach 1 InputRecords.PROTOCOL_MAJOR 5;
   DoSend (mkRoute 42 2 9) (3, 2) 1 1000 (Protocol.Touch TouchDown 7 65536 65536 65535);
   DoSend (mkRoute 43 2 3) (3, 2) 2 1001 (Protocol.Touch TouchDown 8 65536 65536 65535);
   DoSend (mkRoute 43 2 3) (1, 1) 3 1002 (Protocol.Key KeyDown 30 0)].

Definition narrow : direct (K := bool) := foldl (λ s op, (run_op 0 op s).1) (false, direct_default) narrow_ops.

Lemma narrow_reach : direct_reach (λ _ _, true) true 0 narrow.
Proof.
  unfold narrow, narrow_ops. cbn [foldl].
  repeat (apply reach_op; [|cbn; unfold route_typed, time_ok, i64_max; cbn; unfold_ints; repeat split; try done; lia]).
  apply reach_direct.
Qed.

Lemma direct_stream_legal_witness :
  length (di_queue narrow.2) = 3%nat
  ∧ ∃ m, stream_run (λ _ _, true) true (di_sent narrow.2 ++ di_queue narrow.2) ∅ = Some m
         ∧ m !! (2, 1) = Some (mkRoute 43 2 3).
Proof.
  split; [vm_compute; reflexivity|].
  destruct (direct_stream_legal 0 narrow narrow_reach) as (m & Hm & Ho & _).
  exists m. split; [exact Hm|]. apply Ho. exists 8. vm_compute. reflexivity.
Defined.

Lemma cancel_all_clears_witness : di_pointers (cancel_all 0 2000 narrow).1.2 = ∅.
Proof. apply (cancel_all_clears 0 2000 narrow narrow_reach). split; discriminate. Defined.
