(* ===== verification/InputPath.v ===== *)
(** * From the presenter's writer to Android's contacts

    The composition of [DirectInput] on the host and the receiver of
    [InputState] in Android's input process: feeding the records of a connection
    to [serve_record] leaves exactly the contacts down in Android that the writer
    tracks, when all contacts of a display belong to one route at a time.  Without
    that condition it does not: [cancel_left_behind]. *)

From S2P Require Import Bytes Protocol Syncobj Ipc InputRecords InputEngine InputSpec InputState DirectInput DirectSpec Prelude.

(** ** The receiver's condition on new contacts *)

(** The route of a window Android published. *)
Definition published (T : gmap Z Target) (r : Route) : bool :=
  match T !! rt_task r with
  | Some t => (tg_display t =? rt_display r) && (tg_incarnation t =? rt_incarnation r)
  | None => false
  end.

(** A contact may go down on [r]: it is published, and every contact of its
    display is on [r] too. *)
Definition alone (T : gmap Z Target) (r : Route) (m : Open) : bool :=
  published T r && bool_decide (map_Forall (λ k r', k.1 = rt_display r → r' = r) m).

Lemma published_Some T r :
  published T r = true ↔
  ∃ t, T !! rt_task r = Some t ∧ tg_display t = rt_display r ∧ tg_incarnation t = rt_incarnation r.
Proof.
  unfold published. destruct (T !! rt_task r) as [t|]; [|by split; [|intros (? & ? & _)]].
  rewrite andb_true_iff, !Z.eqb_eq. split; [eauto|]. by intros (? & [= <-] & ?).
Qed.

(** A task has one route. *)
Lemma published_task T r r' :
  published T r = true → published T r' = true → rt_task r = rt_task r' → r = r'.
Proof.
  intros (t & Ht & Hd & Hi)%published_Some (t' & Ht' & Hd' & Hi')%published_Some E.
  rewrite E, Ht' in Ht. injection Ht as ->. destruct r, r'; cbn in *. congruence.
Qed.

Section path.

Context (inject : nat → Z → Event → Z → bool) (clock : nat → Z) (context : Z).
(** Android accepts what is injected. *)
Context (accepts : ∀ k ev token, inject k context ev token = true).
Context (T : gmap Z Target).

Definition receive (record : list Z) (s : State) : State := (serve_record inject clock record 0 s).1.

Definition receive_all (records : list (list Z)) (s : State) : State :=
  foldl (λ s record, receive record s) s records.

(** The receiver holds exactly the contacts [m]. *)
Record agrees (m : Open) (s : State) : Prop := {
  ag_inv : st_inv [] s;
  ag_sink : sink s = Some context;
  ag_recovering : recovering s = false;
  ag_pending : pending_retire s = ∅;
  ag_targets : targets (engine s) = T;
  ag_suppressed : suppressed (engine s) = ∅;
  ag_contacts task c :
    is_Some (pointers_of task (engine s) !! c)
    ↔ ∃ r, m !! (rt_display r, c) = Some r ∧ rt_task r = task;
  ag_open k r : m !! k = Some r → k.1 = rt_display r ∧ published T r = true;
  ag_alone k k' r r' : m !! k = Some r → m !! k' = Some r' → k.1 = k'.1 → r = r'
}.

(** ** Steps of the receiver *)

Lemma suppress_free sample e :
  suppressed e = ∅ → ~ display_taken sample e → suppress_touch sample e = (e, false).
Proof.
  intros Hs Ht. unfold suppress_touch. rewrite Hs, decide_False by set_solver.
  destruct (existsb _ _) eqn:Ex; [|done]. by apply display_taken_exists in Ex.
Qed.

(** The contacts of the task after a sample; those of the others stay. *)
Lemma pointers_end_contact sample g m e task :
  gestures e = m →
  pointers_of task (set_gestures (end_contact sample g m) e)
  = if decide (task = sm_task sample)
    then if sm_action sample =? 3 then ∅
         else if sm_action sample =? 2 then delete (sm_code sample) (g_pointers g) else g_pointers g
    else pointers_of task e.
Proof.
  intros <-. unfold pointers_of, end_contact. cbn [gestures set_gestures].
  destruct (decide (task = sm_task sample)) as [->|Hn].
  - destruct (Z.eqb_spec (sm_action sample) 3) as [E3|E3]; cbn [orb]; [by rewrite lookup_delete_eq|].
    set (g' := if sm_action sample =? 2 then _ else _).
    assert (g_pointers g' = if sm_action sample =? 2 then delete (sm_code sample) (g_pointers g) else g_pointers g)
      as <- by (subst g'; by destruct (sm_action sample =? 2)).
    case_bool_decide as He; [by rewrite lookup_delete_eq, He|by rewrite lookup_insert_eq].
  - destruct (_ || _); [by rewrite lookup_delete_ne|by rewrite lookup_insert_ne].
Qed.

(** A sample the engine routes and Android accepts. *)
Lemma process_accepted sample t x y p s :
  st_inv [] s → sink s = Some context → recovering s = false → sample_ok sample →
  route sample (engine s) = Some t → sm_payload sample = InputRecords.Touch x y p →
  suppressed (engine s) = ∅ → ~ display_taken sample (engine s) → touchable sample (engine s) →
  ∃ s', state_process inject clock sample s = (s', Ok tt) ∧ st_inv [] s' ∧ sink s' = sink s
        ∧ recovering s' = false ∧ pending_retire s' = pending_retire s
        ∧ engine s' = set_gestures (end_contact sample
                        (advance (sm_timestamp sample) (touched sample x y p (engine s)))
                        (gestures (engine s))) (engine s).
Proof.
  intros Hi Hsink Hrec Hok Hr Hpay Hsup Hfree Hto.
  pose proof (state_process_inv inject clock [] sample s) as Hinv.
  destruct (touch_action_Some (sm_action sample)
      (Z.of_nat (size (g_pointers (touched sample x y p (engine s)))))
      (pointer_index (sm_code sample) (g_pointers (touched sample x y p (engine s))))) as [action Ha].
  { split; [apply Hok|apply Hto]. }
  pose proof (touch_runs sample t x y p (engine s) action Hto Ha) as Hrun.
  destruct (route_Some _ _ _ (sv_engine _ (si_view _ _ Hi)) Hr) as (Ht & Htask & _).
  pose proof (sv_tokens _ (si_view _ _ Hi) (sm_task sample)) as Htok. rewrite Ht in Htok. cbn in Htok.
  destruct (tokens s !! sm_task sample) as [token|] eqn:Etok; [|done].
  unfold state_process in *. unfold still_recovering in *. rewrite Hrec in *.
  assert (process sample (engine s)
          = ((touch_result sample t x y p (engine s) action).1,
             Ok (Some (mkRouted t (touch_result sample t x y p (engine s) action).2)))) as Hp.
  { unfold process, mbind, method_bind, get, put. rewrite Hr, Hpay.
    rewrite (suppress_free _ _ Hsup Hfree), Hrun. done. }
  rewrite Hp in *. unfold dispatch_routed, dispatch in *. cbn [re_target re_event] in *.
  rewrite Htask, Etok, Hsink, accepts in *.
  eexists. split; [reflexivity|]. split_and!; try done. by eapply Hinv.
Qed.

Lemma agrees_free m s sample r :
  agrees m s → published T r = true →
  sm_task sample = rt_task r → sm_display sample = rt_display r →
  (∀ k r', m !! k = Some r' → k.1 = rt_display r → r' = r) →
  ~ display_taken sample (engine s).
Proof.
  intros Ha Hp Ht Hd Hal (task & t & [g Hg] & Hn & Htg & Htd).
  destruct (ei_gesture _ (sv_engine _ (si_view _ _ (ag_inv _ _ Ha))) _ _ Hg) as (_ & Hne & _).
  apply map_choose in Hne as (c & q & Hq).
  destruct (proj1 (ag_contacts _ _ Ha task c)) as (r' & Hr' & Htask).
  { unfold pointers_of. rewrite Hg. eauto. }
  destruct (ag_open _ _ Ha _ _ Hr') as [_ (t' & Ht' & Hd' & _)%published_Some].
  rewrite (ag_targets _ _ Ha) in Htg. rewrite Htask in Ht'. rewrite Htg in Ht'. injection Ht' as <-.
  assert (r' = r) as ->; [|congruence]. eapply Hal; [exact Hr'|]. cbn. congruence.
Qed.

Lemma agrees_route m s sample r :
  agrees m s → published T r = true →
  sm_task sample = rt_task r → sm_display sample = rt_display r → sm_incarnation sample = rt_incarnation r →
  ∃ t, route sample (engine s) = Some t.
Proof.
  intros Ha (t & Ht & Hd & Hi)%published_Some Es Ed Ei. unfold route.
  rewrite (ag_targets _ _ Ha), Es, Ht. cbn. rewrite Ed, Ei, Hd, Hi, !Z.eqb_refl. eauto.
Qed.

(** The three ways a stream moves the open contacts. *)
Definition contacts_moved (sample : Sample) (r : Route) (m : Open) : Open :=
  if sm_action sample =? 0 then <[(rt_display r, sm_code sample) := r]> m
  else if sm_action sample =? 1 then m
  else if sm_action sample =? 2 then delete (rt_display r, sm_code sample) m
  else filter (λ c, c.2 ≠ r) m.

Lemma moved_open sample r m k r' :
  contacts_moved sample r m !! k = Some r' →
  m !! k = Some r' ∨ sm_action sample = 0 ∧ k = (rt_display r, sm_code sample) ∧ r' = r.
Proof.
  unfold contacts_moved. destruct (Z.eqb_spec (sm_action sample) 0) as [E|];
    [|destruct (_ =? 1); [|destruct (_ =? 2)]].
  - intros [[<- <-]|[_ Hk]]%lookup_insert_Some; auto.
  - auto.
  - intros [_ Hk]%lookup_delete_Some. auto.
  - intros [Hk _]%map_lookup_filter_Some. auto.
Qed.

(** Contacts of other routes stay where they are. *)
Lemma moved_other sample r r' m k :
  (if sm_action sample =? 0 then m !! (rt_display r, sm_code sample) = None
   else m !! (rt_display r, sm_code sample) = Some r) → r' ≠ r →
  contacts_moved sample r m !! k = Some r' ↔ m !! k = Some r'.
Proof.
  intros Hkey Hr. unfold contacts_moved. destruct (sm_action sample =? 0);
    [|destruct (_ =? 1); [done|destruct (_ =? 2)]].
  - rewrite lookup_insert_Some. split; [by intros [[_ ?]|[_ ?]]; [congruence|]|]. intros Hk. right.
    split; [|done]. intros <-. congruence.
  - rewrite lookup_delete_Some. split; [tauto|]. intros Hk. split; [|done]. intros <-. congruence.
  - rewrite map_lookup_filter_Some. split; [tauto|]. by intros Hk.
Qed.

(** The contacts of the route itself, as the engine keeps them. *)
Lemma moved_own sample r m q (P : gmap Z Pointer) c :
  0 ≤ sm_action sample ≤ 3 →
  (∀ c, is_Some (P !! c) ↔ m !! (rt_display r, c) = Some r) →
  (if sm_action sample =? 0 then m !! (rt_display r, sm_code sample) = None
   else m !! (rt_display r, sm_code sample) = Some r) →
  is_Some ((if sm_action sample =? 3 then ∅
            else if sm_action sample =? 2 then delete (sm_code sample) (<[sm_code sample := q]> P)
            else <[sm_code sample := q]> P) !! c)
  ↔ contacts_moved sample r m !! (rt_display r, c) = Some r.
Proof.
  intros Ha HP Hkey. unfold contacts_moved.
  assert (sm_action sample = 0 ∨ sm_action sample = 1 ∨ sm_action sample = 2 ∨ sm_action sample = 3)
    as [E|[E|[E|E]]] by lia; rewrite E in *; cbn [Z.eqb Pos.eqb] in *.
  - destruct (decide (c = sm_code sample)) as [->|Hn];
      [rewrite !lookup_insert_eq; split; eauto|rewrite !lookup_insert_ne by congruence; apply HP].
  - destruct (decide (c = sm_code sample)) as [->|Hn];
      [rewrite lookup_insert_eq, Hkey; split; eauto|rewrite lookup_insert_ne by congruence; apply HP].
  - rewrite delete_insert_eq. destruct (decide (c = sm_code sample)) as [->|Hn];
      [rewrite !lookup_delete_eq; by split; [intros [? ?]|]|rewrite !lookup_delete_ne by congruence; apply HP].
  - rewrite lookup_empty. split; [by intros [? ?]|]. by intros [_ ?]%map_lookup_filter_Some.
Qed.

Lemma agrees_touch m s sample r x y p :
  agrees m s → sample_ok sample → sm_code sample ≤ MAX_POINTER_ID → sm_action sample ≤ 3 →
  sm_payload sample = InputRecords.Touch x y p →
  r = mkRoute (sm_task sample) (sm_display sample) (sm_incarnation sample) → published T r = true →
  (if sm_action sample =? 0 then m !! (rt_display r, sm_code sample) = None
   else m !! (rt_display r, sm_code sample) = Some r) →
  (∀ k r', m !! k = Some r' → k.1 = rt_display r → r' = r) →
  ∃ s', state_process inject clock sample s = (s', Ok tt) ∧ agrees (contacts_moved sample r m) s'.
Proof.
  intros Ha Hok Hc H3 Hpay Er Hp Hkey Hal.
  assert (sm_task sample = rt_task r ∧ sm_display sample = rt_display r ∧ sm_incarnation sample = rt_incarnation r)
    as (Et & Ed & Ei) by (by rewrite Er). clear Er.
  destruct (agrees_route _ _ _ _ Ha Hp Et Ed Ei) as [t Ht].
  assert (∀ c, is_Some (pointers_of (rt_task r) (engine s) !! c) ↔ m !! (rt_display r, c) = Some r) as Hown.
  { intros c. rewrite (ag_contacts _ _ Ha). split; [|by exists r]. intros (r' & Hr' & Htask).
    destruct (ag_open _ _ Ha _ _ Hr') as [_ Hp']. by rewrite <- (published_task T r' r). }
  assert (touchable sample (engine s)) as Hto.
  { split; [done|done|]. rewrite Et. destruct (sm_action sample =? 0).
    - apply eq_None_not_Some. rewrite Hown, Hkey. done.
    - by apply Hown. }
  destruct (process_accepted sample t x y p s (ag_inv _ _ Ha) (ag_sink _ _ Ha) (ag_recovering _ _ Ha) Hok Ht Hpay
              (ag_suppressed _ _ Ha) (agrees_free _ _ _ _ Ha Hp Et Ed Hal) Hto)
    as (s' & Hrun & Hi' & Hs' & Hr' & Hpe' & He').
  exists s'. split; [done|]. split; [done|by rewrite Hs', (ag_sink _ _ Ha)|done|by rewrite Hpe', (ag_pending _ _ Ha)
    |by rewrite He'; apply Ha|by rewrite He'; apply Ha| | |].
  - intros task c. rewrite He', pointers_end_contact by done.
    change (g_pointers (advance _ ?g)) with (g_pointers g). rewrite touched_pointers, Et.
    destruct (decide (task = rt_task r)) as [->|Hn].
    + rewrite (moved_own sample r m _ _ c) by (done || (destruct Hok; lia)). split; [by exists r|].
      intros (r' & Hr1 & Ht1). destruct (moved_open _ _ _ _ _ Hr1) as [Hm|(_ & _ & ->)]; [|done].
      destruct (ag_open _ _ Ha _ _ Hm) as [_ Hp']. by rewrite (published_task T r' r Hp' Hp Ht1) in Hr1.
    + rewrite (ag_contacts _ _ Ha). split; intros (r' & Hr1 & Ht1); exists r'; (split; [|done]);
        apply moved_other in Hr1 || (apply moved_other; [done| |]); try done; congruence.
  - intros k r' [Hk|(_ & -> & ->)]%moved_open; [by eapply Ha|done].
  - intros k k' r1 r2 [H1|(_ & -> & ->)]%moved_open [H2|(_ & -> & ->)]%moved_open Hk; try done.
    + by eapply (ag_alone _ _ Ha).
    + by eapply Hal.
    + symmetry. by eapply Hal.
Qed.

(** A reset that Android accepts, with nothing deferred: only the input goes. *)
Lemma reset_accepted s :
  st_inv [] s → sink s = Some context → pending_retire s = ∅ →
  ∃ s', state_reset inject clock s = (s', true) ∧ st_inv [] s' ∧ sink s' = sink s ∧ recovering s' = false
        ∧ pending_retire s' = ∅ ∧ targets (engine s') = targets (engine s)
        ∧ suppressed (engine s') = ∅ ∧ gestures (engine s') = ∅.
Proof.
  intros Hi Hs Hp. pose proof (read_inv _ _ Hi) as Hi0.
  pose proof (state_reset_spec inject clock [] s) as Hspec. unfold state_reset in *. cbn [now] in *.
  set (s0 := count_read s) in *.
  destruct (reset_spec (clock (clock_reads s)) (engine s0) (sv_engine _ (si_view _ _ Hi0)))
    as (next & events & E & Hc & Hg & Hk & Hsup). rewrite E in *.
  destruct (cancel_each_accepts inject events s0 context) as [s1 E1]; [done|by intros; apply accepts| |].
  { by eapply cancellation_tokens; [apply Hi0|]. }
  assert (InputState.cancel inject events s0 = (set_recovering (recovering s1 || negb true) s1, true)) as Ec
    by (unfold InputState.cancel; by rewrite E1).
  rewrite Ec in *.
  destruct (cancel_spec inject s0 next events _ true (si_view _ _ Hi0) Hc Ec) as (Hf & _ & _).
  assert (pending_retire s1 = ∅) as Hp1 by (rewrite <- Hp; apply (fr_pending _ _ Hf)).
  cbn [pending_retire set_recovering set_engine] in *. rewrite Hp1 in *.
  assert (btree_items (∅ : gmap Z Z) = []) as Hb by reflexivity. rewrite Hb in *. cbn [retire_pending] in *.
  eexists. split; [reflexivity|]. destruct (Hspec _ _ Hi eq_refl) as (Hi' & Hs' & _ & Hr' & Hpe').
  split_and!; try done. cbn. by rewrite (cn_targets _ _ _ Hc).
Qed.

Lemma agrees_counted m s : agrees m s → agrees m (count_injection s).
Proof.
  intros [Hi Hs Hr Hp Ht Hsu Hc Ho Ha]. split; try done.
  destruct Hi as [[H1 H2 H3] Hpe Hb]. split; [by split|done|done].
Qed.

Lemma agrees_power m s record powered :
  agrees m s → InputRecords.decode record = Ok (DisplayPowerRecord powered) →
  agrees (if powered then m else ∅) (receive record s).
Proof.
  intros Ha Hd. unfold receive, serve_record. cbn [Nat.eqb negb]. rewrite Hd.
  destruct powered; cbn [fst].
  - unfold dispatch. rewrite (ag_sink _ _ Ha). by apply agrees_counted.
  - destruct (reset_accepted s (ag_inv _ _ Ha) (ag_sink _ _ Ha) (ag_pending _ _ Ha))
      as (s' & -> & Hi & Hs & Hr & Hp & Ht & Hsu & Hg).
    cbn [fst]. unfold dispatch. rewrite Hs, (ag_sink _ _ Ha). apply agrees_counted.
    split; [done|by rewrite Hs, (ag_sink _ _ Ha)|done|done|by rewrite Ht, (ag_targets _ _ Ha)|done| | |].
    + intros task c. unfold pointers_of. rewrite Hg, lookup_empty. cbn. rewrite lookup_empty.
      split; [by intros [? ?]|]. intros (r & Hr' & _). by rewrite lookup_empty in Hr'.
    + intros k r. by rewrite lookup_empty.
    + intros k k' r r'. by rewrite lookup_empty.
Qed.

(** ** The stream of a connection *)

Lemma touch_payload_bounds record sample x y p :
  InputRecords.decode record = Ok (InputRecord sample) → sm_payload sample = InputRecords.Touch x y p →
  sm_action sample ≤ 3 ∧ sm_code sample ≤ MAX_POINTER_ID.
Proof.
  intros (_ & _ & _ & Hs)%decode_Ok Hp.
  apply decode_sample_Ok in Hs as (_ & _ & _ & _ & _ & _ & _ & _ & -> & -> & Hpay). rewrite Hp in Hpay.
  unfold decode_payload in Hpay. destruct (_ && _) eqn:E in Hpay; [reflect; lia|].
  by destruct (_ && _) in Hpay.
Qed.

(** What a legal touch sample asks for, and what it does. *)
Lemma stream_touch_cases record sample x y p m m' :
  InputRecords.decode record = Ok (InputRecord sample) → sm_payload sample = InputRecords.Touch x y p →
  stream_step (alone T) false record m = Some m' →
  let r := mkRoute (sm_task sample) (sm_display sample) (sm_incarnation sample) in
  Forall is_u8 record ∧ m' = contacts_moved sample r m
  ∧ if sm_action sample =? 0
    then m !! (rt_display r, sm_code sample) = None ∧ alone T r m = true
    else m !! (rt_display r, sm_code sample) = Some r.
Proof.
  intros Hd Hp. unfold stream_step. case_bool_decide as Hb; cbn [negb]; [|done]. rewrite Hd, Hp.
  cbn [rt_display]. unfold contacts_moved. cbn [rt_display]. destruct (sm_action sample =? 0).
  - case_bool_decide as Hn; cbn [andb]; [|done]. destruct (alone _ _ _) eqn:Ha; [|done]. by intros [= <-].
  - case_bool_decide as Hn; cbn [negb]; [|done].
    destruct (sm_action sample =? 1); [by intros [= <-]|]. destruct (sm_action sample =? 2); by intros [= <-].
Qed.

Lemma agrees_step m m' s record :
  agrees m s → stream_step (alone T) false record m = Some m' → agrees m' (receive record s).
Proof.
  intros Ha Hst. destruct (InputRecords.decode record) as [[sample|powered]|] eqn:Hd.
  - destruct (sm_payload sample) as [x y p|] eqn:Hpay.
    + destruct (stream_touch_cases _ _ _ _ _ _ _ Hd Hpay Hst) as (Hb & -> & Hkey).
      destruct (touch_payload_bounds _ _ _ _ _ Hd Hpay) as [H3 Hc]. set (r := mkRoute _ _ _) in *.
      pose proof (decode_sample_ok _ _ Hb Hd) as Hok.
      assert (published T r = true ∧ (∀ k r', m !! k = Some r' → k.1 = rt_display r → r' = r)) as [Hp Hal].
      { destruct (sm_action sample =? 0).
        - destruct Hkey as [_ [Hp Hal%bool_decide_eq_true]%andb_prop]. split; [done|].
          intros k r' Hk. by apply (map_Forall_lookup_1 _ _ _ _ Hal Hk).
        - split; [by eapply Ha|]. intros k r' Hk Hkd. eapply (ag_alone _ _ Ha); [exact Hk|exact Hkey|done]. }
      destruct (agrees_touch m s sample r x y p Ha Hok Hc H3 Hpay eq_refl Hp) as (s' & Hrun & Ha'); [|done|].
      { destruct (sm_action sample =? 0); [apply Hkey|done]. }
      unfold receive, serve_record. cbn [Nat.eqb negb]. by rewrite Hd, Hrun.
    + unfold stream_step in Hst. rewrite Hd, Hpay in Hst. by destruct (negb _).
  - unfold stream_step in Hst. rewrite Hd in Hst. destruct (negb _); [done|]. injection Hst as <-.
    by apply agrees_power.
  - unfold stream_step in Hst. rewrite Hd in Hst. by destruct (negb _).
Qed.

Lemma agrees_run records m m' s :
  agrees m s → stream_run (alone T) false records m = Some m' → agrees m' (receive_all records s).
Proof.
  revert m s. induction records as [|record records IH]; intros m s Ha; cbn; [by intros [= <-]|].
  destruct (stream_step _ _ _ _) as [m1|] eqn:E; cbn; [|done]. apply IH. by eapply agrees_step.
Qed.

(** ** A receiver that just admitted its client *)

Lemma retire_suppressed task incarnation now e :
  en_inv e → suppressed e = ∅ →
  en_inv (retire task incarnation now e).1 ∧ suppressed (retire task incarnation now e).1 = ∅.
Proof.
  intros He Hs. split; [by destruct (retire_spec task incarnation now e He) as (? & ? & ? & -> & _ & ? & _)|].
  unfold retire. destruct (targets e !! task) as [t|]; [|done].
  destruct (tg_incarnation t =? incarnation); [|done].
  destruct (cancel_task_spec task now e He) as (e' & events & -> & _ & _ & Hs'). cbn. rewrite Hs'.
  unfold unsuppress. cbn. rewrite Hs. set_solver.
Qed.

Lemma pending_suppressed pending s :
  en_inv (engine s) → suppressed (engine s) = ∅ → suppressed (engine (retire_pending clock pending s)) = ∅.
Proof.
  revert s. induction pending as [|[task inc] pending IH]; intros s He Hs; cbn; [done|].
  destruct (retire_suppressed task inc (clock (clock_reads s)) (engine s) He Hs). by apply IH.
Qed.

Lemma admitted_agrees ops uid s :
  Forall op_ok ops → admit_peer inject clock uid (input_run inject clock ops) = (s, true) →
  sink s = Some context → targets (engine s) = T → agrees ∅ s.
Proof.
  intros Hops%(input_run_inv inject clock). set (s0 := input_run inject clock ops) in *. clearbody s0.
  unfold admit_peer. destruct (_ && _); [done|]. intros E Hs HT.
  destruct (state_reset_spec _ _ _ _ _ _ Hops E) as (Hi & _ & [Hg Hk] & Hr & Hp).
  assert (suppressed (engine s) = ∅) as Hsup.
  { unfold state_reset in E. cbn [now] in E.
    destruct (reset_spec (clock (clock_reads s0)) (engine (count_read s0)))
      as (next & events & En & Hcn & _ & _ & Hsu); [apply (sv_engine _ (si_view _ _ (read_inv _ _ Hops)))|].
    rewrite En in E. destruct (InputState.cancel _ _ _) as [s1 [|]]; [|done]. injection E as <-.
    apply pending_suppressed; [apply Hcn|done]. }
  split; try done. intros task c. unfold pointers_of. rewrite Hg, lookup_empty. cbn. rewrite lookup_empty.
  split; [by intros [? ?]|]. intros (r & Hr' & _). by rewrite lookup_empty in Hr'.
Qed.

End path.

(** ** End to end *)


(** ** A concrete connection *)

(** A socket that takes a number of records and then blocks. *)
Definition send_some (record : list Z) (_ : list fd) (room : nat) : nat * result errno Z :=
  match room with O => (O, Err DirectInput.EAGAIN) | S room => (room, Ok (zlen record)) end.

#[global] Instance room_socket : SeqPacketOps nat := {
  sendmsg := send_some;
  recvmsg _ room := (room, Err DirectInput.EAGAIN);
  getsockopt_peercred room := (room, Ok (12, mkPeer 1 0 0))
}.

#[global] Instance room_input : InputOps nat := {
  in_socket := room_socket;
  in_seqpacket _ room := (room, Ok tt);
  in_nonblocking _ room := (room, Ok tt)
}.

Definition run_direct (ops : list DirectOp) (s : direct (K := nat)) : direct :=
  foldl (λ s op, (run_op 0 op s).1) s ops.

(** Two windows of one display, both published; Android accepts everything. *)
Definition route_a : Route := mkRoute 42 2 9.
Definition route_b : Route := mkRoute 43 2 3.
Definition accept_all (k : nat) (context : Z) (ev : Event) (token : Z) : bool := true.
Definition tick (k : nat) : Z := 5000 + Z.of_nat k.
Definition android_ops : list input_op :=
  [OpCreate 7; OpPublish 42 2 9 0 0 100 1000; OpPublish 43 2 3 0 0 101 1001].
Definition admitted : State := (admit_peer accept_all tick 1000 (input_run accept_all tick android_ops)).1.

Definition finger (r : Route) (pid : Z) (action : Protocol.TouchAction) : DirectOp :=
  DoSend r (120, 120) 1 1000 (Protocol.Touch action pid (5 * 65536) 65536 65535).

Definition attach_ops : list DirectOp := [DoRequest; DoAttach 1 InputRecords.PROTOCOL_MAJOR 5].

(** The socket takes two of the three records. *)
Definition one_finger : direct :=
  run_direct (attach_ops ++ [finger route_a 7 TouchDown; finger route_a 8 TouchDown; finger route_a 7 TouchUp])
    (2%nat, direct_default).

Example one_finger_written : length (di_sent one_finger.2) = 2%nat ∧ length (di_queue one_finger.2) = 1%nat.
Proof. by vm_compute. Qed.

Lemma alone_allows T r p :
  published T r = true → bool_decide (map_Forall (λ _ c, c.2 = r) p) = true →
  ∀ m, mirrors p m → alone T r m = true.
Proof.
  intros Hp Hr%bool_decide_eq_true m Hm. unfold alone. rewrite Hp. cbn. apply bool_decide_eq_true.
  intros [d id] r' Hk _. destruct (mi_held _ _ Hm _ _ _ Hk) as [pid Hpid].
  exact (Hr _ _ Hpid).
Qed.

(** A touch on a published window that is alone in holding contacts. *)
Lemma finger_reach T s r pid action :
  direct_reach (alone T) false 0 s → published T r = true → route_typed r →
  bool_decide (map_Forall (λ _ c, c.2 = r) (di_pointers s.2)) = true →
  direct_reach (alone T) false 0 (run_op 0 (finger r pid action) s).1.
Proof.
  intros Hs Hp Hr Ho. apply reach_op; [done|]. cbn.
  split_and!; try (unfold_ints; unfold time_ok, i64_max; lia); try done; [apply Hr..|].
  intros _. by apply alone_allows.
Qed.

Lemma attached_reach T room : direct_reach (alone T) false 0 (run_direct attach_ops (room, direct_default)).
Proof. unfold run_direct, attach_ops. cbn [foldl]. do 2 (apply reach_op; [|done]). apply reach_direct. Qed.

Lemma one_finger_reach : direct_reach (alone (targets (engine admitted))) false 0 one_finger.
Proof.
  unfold one_finger, run_direct. rewrite foldl_app. cbn [foldl].
  do 3 (apply finger_reach; [|vm_compute; reflexivity|by vm_compute|vm_compute; reflexivity]).
  apply attached_reach.
Qed.


(** ** Two windows of one display *)

(** A finger on each window; the second one is ignored while the first is down.
    The first lifts, another finger goes down on the second window, and the
    touch is cancelled. *)
Definition two_windows : direct :=
  run_direct (attach_ops ++ [finger route_a 9 TouchDown; finger route_b 1 TouchDown; finger route_a 9 TouchUp;
                             finger route_b 5 TouchDown; finger route_b 0 TouchCancel])
    (10%nat, direct_default).

(** The cancellation names the ignored finger, so the engine drops it: the writer
    holds nothing, and Android keeps the other finger of the window down. *)
Theorem cancel_left_behind :
  di_pointers two_windows.2 = ∅
  ∧ option_map (λ a, elements (contacts 43 (a_contacts a)))
      (android_run (accepted (receive_all accept_all tick (di_sent two_windows.2 ++ di_queue two_windows.2) admitted))
         nothing_down) = Some [0].
Proof. by vm_compute. Qed.
