(* ===== verification/ControlCodec.v ===== *)
(** * The task-control records (graphics/droidloom-task-control/src/lib.rs)

    The privileged lifecycle channel between the framework and Composer: the
    requests and responses, the bounds of a host window command, and the codec
    of one sequenced-packet record. *)

From S2P Require Import Prelude Bytes Protocol.

(** ** Constants *)

(** [*b"DLTC"]. *)
Definition MAGIC : list Z := [68; 76; 84; 67].
Definition PROTOCOL_MAJOR : Z := 3.
Definition PROTOCOL_MINOR : Z := 2.
Definition HEADER_BYTES : Z := 24.
Definition MAX_RECORD_BYTES : Z := 4096.
Definition MAX_PACKAGE_BYTES : Z := 255.
Definition MAX_ERROR_BYTES : Z := 1024.
Definition i64_max : Z := 9223372036854775807.
Definition i32_max : Z := 2147483647.

Definition OP_HELLO : Z := 0x0001.
Definition OP_RESERVE : Z := 0x0002.
Definition OP_BIND : Z := 0x0003.
Definition OP_REMOVE : Z := 0x0004.
Definition OP_REGISTER_DIRECT : Z := 0x0005.
Definition OP_PUBLISH_DIRECT : Z := 0x0006.
Definition OP_SUBSCRIBE : Z := 0x0007.
Definition OP_ACKNOWLEDGE : Z := 0x0008.
Definition OP_PUBLISH_FRAMEWORK : Z := 0x0009.
Definition OP_SERVER_HELLO : Z := 0x8001.
Definition OP_RESERVED : Z := 0x8002.
Definition OP_BOUND : Z := 0x8003.
Definition OP_REMOVED : Z := 0x8004.
Definition OP_SUBSCRIBED : Z := 0x8005.
Definition OP_TASK_COMMAND : Z := 0x8006.
Definition OP_ERROR : Z := 0x80ff.

(** ** Data *)

Inductive ControlRequest : Type :=
| PublishFramework (request_id : Z) (package : rust_string) (task android_display incarnation : Z)
    (activate : bool)
| Subscribe (request_id : Z)
| Acknowledge (request_id : Z)
| HelloRequest (min_major max_major : Z)
| ReserveRequest (request_id : Z) (package : rust_string)
| BindRequest (request_id object task android_display : Z)
| RegisterDirect (request_id : Z) (package : rust_string) (task android_display : Z)
| PublishDirect (request_id : Z) (package : rust_string) (task android_display : Z) (activate : bool)
| RemoveRequest (request_id object : Z).

(** commands.rs *)
Inductive TaskAction : Type :=
| Focus
| Resize (width height : Z)
| CloseTask.

Record TaskCommand : Type := mkCommand {
  cm_object : Z;
  cm_task : Z;
  cm_incarnation : Z;
  cm_android_display : Z;
  cm_action : TaskAction
}.

Inductive ControlErrorCode : Type :=
| CodeProtocol | CodeInvalidRequest | CodeNotFound | CodeConflict | CodeConfigureTimeout | CodeBackend.

Inductive ControlResponse : Type :=
| Subscribed (request_id : Z)
| TaskCommandMsg (request_id : Z) (command : TaskCommand)
| ServerHelloResponse (major minor : Z)
| Reserved (request_id object display : Z)
| Bound (request_id object task display android_display : Z)
| Removed (request_id object : Z)
| ErrorResponse (request_id : Z) (code : ControlErrorCode) (message : rust_string).

Inductive CodecError : Type :=
| RecordTruncated
| BadMagic
| UnsupportedMajor (major : Z)
| UnknownControlOpcode (opcode : Z)
| InvalidHeader
| InvalidValue (field : string)
| InvalidUtf8.

#[global] Instance TaskAction_eq_dec : EqDecision TaskAction.
Proof. solve_decision. Defined.
#[global] Instance TaskCommand_eq_dec : EqDecision TaskCommand.
Proof. solve_decision. Defined.

Abbreviation cresult := (result CodecError).

(** [*code as u16] and [ControlErrorCode::try_from]. *)
Definition code_u16 (c : ControlErrorCode) : Z :=
  match c with
  | CodeProtocol => 1 | CodeInvalidRequest => 2 | CodeNotFound => 3
  | CodeConflict => 4 | CodeConfigureTimeout => 5 | CodeBackend => 6
  end.

Definition code_try_from (value : Z) : cresult ControlErrorCode :=
  if value =? 1 then Ok CodeProtocol else if value =? 2 then Ok CodeInvalidRequest
  else if value =? 3 then Ok CodeNotFound else if value =? 4 then Ok CodeConflict
  else if value =? 5 then Ok CodeConfigureTimeout else if value =? 6 then Ok CodeBackend
  else Err (InvalidValue "control error code").

(** ** Validation *)

Definition required (field : string) (value : Z) : cresult Z :=
  if value =? 0 then Err (InvalidValue field) else Ok value.
Definition nonzero (field : string) (value : Z) : cresult unit := required field value;; mret tt.
Definition required_request (value : Z) : cresult Z := required "request identity" value.

Definition require_response_ids (request_id : Z) (identities : list Z) : cresult unit :=
  required_request request_id;;
  fail_if (existsb (λ i, i =? 0) identities) (InvalidValue "response identity").

Definition valid_package (package : rust_string) : bool :=
  negb (bool_decide (package = [])) && (zlen package <=? MAX_PACKAGE_BYTES)
  && forallb (λ part, negb (bool_decide (part = []))
                      && forallb (λ byte, is_ascii_alphanumeric byte || (byte =? 95)) part)
       (split_dots package).

(** [TaskCommand::validate]. *)
Definition command_validate (c : TaskCommand) : cresult unit :=
  fail_if ((cm_incarnation c =? 0) || (i64_max <? cm_incarnation c)
           || (cm_object c =? 0) || (i64_max <? cm_object c)
           || (cm_task c =? 0) || (i32_max <? cm_task c)
           || negb (cm_android_display c =? 0)) (InvalidValue "task command identity");;
  match cm_action c with
  | Resize width height =>
      fail_if ((width =? 0) || (height =? 0) || (16384 <? width) || (16384 <? height))
        (InvalidValue "task command bounds")
  | _ => mret tt
  end.

(** ** Writer and Reader *)

Definition put_u16 (x : Z) : list Z := le_bytes 2 x.
Definition put_u32 (x : Z) : list Z := le_bytes 4 x.
Definition put_u64 (x : Z) : list Z := le_bytes 8 x.

#[global] Arguments put_u16 : simpl never.
#[global] Arguments put_u32 : simpl never.
#[global] Arguments put_u64 : simpl never.

Definition put_string (value : rust_string) (maximum : Z) : cresult (list Z) :=
  fail_if (bool_decide (value = []) || (maximum <? zlen value)) (InvalidValue "text");;
  fail_if (65535 <? zlen value) (InvalidValue "text");;
  mret (put_u16 (zlen value) ++ value).

Abbreviation creader := (reader CodecError).

Definition get_u16 : creader Z := r_uint RecordTruncated 2.
Definition get_u32 : creader Z := r_uint RecordTruncated 4.
Definition get_u64 : creader Z := r_uint RecordTruncated 8.

Definition get_string (maximum : Z) : creader rust_string :=
  length ← get_u16;
  r_lift (fail_if ((length =? 0) || (maximum <? length)) (InvalidValue "text"));;
  bytes ← r_take RecordTruncated (Z.to_nat length);
  r_lift (fail_if (negb (utf8_valid bytes)) InvalidUtf8);;
  mret bytes.

(** ** Framing *)

Definition encode_record (opcode request_id : Z) (payload : list Z) : cresult (list Z) :=
  fail_if (MAX_RECORD_BYTES <? HEADER_BYTES + zlen payload) InvalidHeader;;
  fail_if (u32_max <? zlen payload) InvalidHeader;;
  mret (MAGIC ++ put_u16 PROTOCOL_MAJOR ++ put_u16 PROTOCOL_MINOR ++ put_u16 opcode ++ put_u16 0
        ++ put_u32 (zlen payload) ++ put_u64 request_id ++ payload).

Record ControlHeader : Type := mkControlHeader {
  ch_opcode : Z;
  ch_request_id : Z;
  ch_payload : list Z
}.

(** The fields after the major version: the minor version is not looked at. *)
Definition header_fields : creader (Z * Z * Z * Z) :=
  minor ← get_u16;
  opcode ← get_u16;
  reserved ← get_u16;
  payload_len ← get_u32;
  request_id ← get_u64;
  mret (opcode, reserved, payload_len, request_id).

Definition decode_header (record : list Z) : cresult ControlHeader :=
  fail_if ((zlen record <? HEADER_BYTES) || (MAX_RECORD_BYTES <? zlen record)) RecordTruncated;;
  fail_if (negb (bool_decide (take 4 record = MAGIC))) BadMagic;;
  '(major, rest) ← get_u16 (drop 4 record);
  fail_if (negb (major =? PROTOCOL_MAJOR)) (UnsupportedMajor major);;
  '(opcode, reserved, payload_len, request_id, payload) ← header_fields rest;
  fail_if (negb (reserved =? 0) || negb (HEADER_BYTES + payload_len =? zlen record)) InvalidHeader;;
  mret (mkControlHeader opcode request_id payload).

(** ** Requests *)

Definition encode_request_fields (request : ControlRequest) : cresult (Z * Z * list Z) :=
  match request with
  | PublishFramework request_id package task android_display incarnation activate =>
      nonzero "request identity" request_id;;
      nonzero "task identity" task;;
      nonzero "task incarnation" incarnation;;
      fail_if ((i64_max <? incarnation) || negb (valid_package package))
        (InvalidValue "framework task identity");;
      text ← put_string package MAX_PACKAGE_BYTES;
      mret (OP_PUBLISH_FRAMEWORK, request_id,
            text ++ put_u64 task ++ put_u32 android_display ++ put_u64 incarnation
            ++ put_u32 (Z.b2z activate))
  | Subscribe request_id =>
      nonzero "request identity" request_id;;
      mret (OP_SUBSCRIBE, request_id, [])
  | Acknowledge request_id =>
      nonzero "request identity" request_id;;
      mret (OP_ACKNOWLEDGE, request_id, [])
  | HelloRequest min_major max_major =>
      fail_if ((min_major =? 0) || (max_major <? min_major)) (InvalidValue "version range");;
      mret (OP_HELLO, 0, put_u16 min_major ++ put_u16 max_major)
  | ReserveRequest request_id package =>
      nonzero "request identity" request_id;;
      fail_if (negb (valid_package package)) (InvalidValue "package");;
      text ← put_string package MAX_PACKAGE_BYTES;
      mret (OP_RESERVE, request_id, text)
  | BindRequest request_id object task android_display =>
      nonzero "request identity" request_id;;
      nonzero "object identity" object;;
      nonzero "task identity" task;;
      mret (OP_BIND, request_id, put_u64 object ++ put_u64 task ++ put_u32 android_display)
  | RegisterDirect request_id package task android_display =>
      nonzero "request identity" request_id;;
      nonzero "task identity" task;;
      fail_if (negb (valid_package package)) (InvalidValue "package");;
      text ← put_string package MAX_PACKAGE_BYTES;
      mret (OP_REGISTER_DIRECT, request_id, text ++ put_u64 task ++ put_u32 android_display)
  | RemoveRequest request_id object =>
      nonzero "request identity" request_id;;
      nonzero "object identity" object;;
      mret (OP_REMOVE, request_id, put_u64 object)
  | PublishDirect request_id package task android_display activate =>
      nonzero "request identity" request_id;;
      nonzero "task identity" task;;
      fail_if (negb (valid_package package)) (InvalidValue "package");;
      text ← put_string package MAX_PACKAGE_BYTES;
      mret (OP_PUBLISH_DIRECT, request_id,
            text ++ put_u64 task ++ put_u32 android_display ++ put_u32 (Z.b2z activate))
  end.

Definition encode_request (request : ControlRequest) : cresult (list Z) :=
  '(opcode, request_id, payload) ← encode_request_fields request;
  encode_record opcode request_id payload.

(** A package, as every request that has one reads it. *)
Definition get_package : creader rust_string :=
  package ← get_string MAX_PACKAGE_BYTES;
  r_lift (fail_if (negb (valid_package package)) (InvalidValue "package"));;
  mret package.

Definition get_required (field : string) : creader Z :=
  x ← get_u64; r_lift (required field x).

Definition get_flag : creader bool :=
  x ← get_u32;
  r_lift (if x =? 0 then Ok false else if x =? 1 then Ok true
          else Err (InvalidValue "activation flags")).

(** The arm shared by both publications. *)
Definition decode_publish (opcode request_id : Z) : creader ControlRequest :=
  package ← get_package;
  task ← get_required "task identity";
  android_display ← get_u32;
  incarnation ← (if opcode =? OP_PUBLISH_FRAMEWORK then
                   incarnation ← get_required "task incarnation";
                   r_lift (fail_if (i64_max <? incarnation) (InvalidValue "task incarnation"));;
                   mret (Some incarnation)
                 else mret None);
  activate ← get_flag;
  mret (match incarnation with
        | Some incarnation =>
            PublishFramework request_id package task android_display incarnation activate
        | None => PublishDirect request_id package task android_display activate
        end).

Definition decode_request_fields (opcode request_id : Z) : creader ControlRequest :=
  if opcode =? OP_SUBSCRIBE then
    id ← r_lift (required_request request_id); mret (Subscribe id)
  else if opcode =? OP_ACKNOWLEDGE then
    id ← r_lift (required_request request_id); mret (Acknowledge id)
  else if opcode =? OP_HELLO then
    r_lift (fail_if (negb (request_id =? 0)) InvalidHeader);;
    min_major ← get_u16;
    max_major ← get_u16;
    r_lift (fail_if ((min_major =? 0) || (max_major <? min_major)) (InvalidValue "version range"));;
    mret (HelloRequest min_major max_major)
  else if opcode =? OP_RESERVE then
    r_lift (nonzero "request identity" request_id);;
    package ← get_package;
    mret (ReserveRequest request_id package)
  else if opcode =? OP_BIND then
    id ← r_lift (required_request request_id);
    object ← get_required "object identity";
    task ← get_required "task identity";
    android_display ← get_u32;
    mret (BindRequest id object task android_display)
  else if opcode =? OP_REGISTER_DIRECT then
    id ← r_lift (required_request request_id);
    package ← get_package;
    task ← get_required "task identity";
    android_display ← get_u32;
    mret (RegisterDirect id package task android_display)
  else if opcode =? OP_REMOVE then
    id ← r_lift (required_request request_id);
    object ← get_required "object identity";
    mret (RemoveRequest id object)
  else if (opcode =? OP_PUBLISH_DIRECT) || (opcode =? OP_PUBLISH_FRAMEWORK) then
    id ← r_lift (required_request request_id);
    decode_publish opcode id
  else r_lift (Err (UnknownControlOpcode opcode)).

Definition decode_request (record : list Z) : cresult ControlRequest :=
  header ← decode_header record;
  '(request, rest) ← decode_request_fields (ch_opcode header) (ch_request_id header) (ch_payload header);
  r_finish InvalidHeader rest;;
  mret request.

(** ** Responses *)

Definition action_fields (a : TaskAction) : Z * Z * Z :=
  match a with Focus => (1, 0, 0) | Resize width height => (2, width, height) | CloseTask => (3, 0, 0) end.

Definition command_bytes (c : TaskCommand) : list Z :=
  let '(kind, width, height) := action_fields (cm_action c) in
  put_u64 (cm_object c) ++ put_u64 (cm_task c) ++ put_u64 (cm_incarnation c)
  ++ put_u32 (cm_android_display c) ++ put_u32 kind ++ put_u32 width ++ put_u32 height.

Definition encode_response_fields (response : ControlResponse) : cresult (Z * Z * list Z) :=
  match response with
  | Subscribed request_id =>
      nonzero "request identity" request_id;;
      mret (OP_SUBSCRIBED, request_id, [])
  | TaskCommandMsg request_id command =>
      nonzero "request identity" request_id;;
      fail_if (i64_max <? request_id) (InvalidValue "task command serial");;
      command_validate command;;
      mret (OP_TASK_COMMAND, request_id, command_bytes command)
  | ServerHelloResponse major minor =>
      fail_if (major =? 0) (InvalidValue "selected version");;
      mret (OP_SERVER_HELLO, 0, put_u16 major ++ put_u16 minor)
  | Reserved request_id object display =>
      require_response_ids request_id [object; display];;
      mret (OP_RESERVED, request_id, put_u64 object ++ put_u64 display)
  | Bound request_id object task display android_display =>
      require_response_ids request_id [object; task; display];;
      mret (OP_BOUND, request_id,
            put_u64 object ++ put_u64 task ++ put_u64 display ++ put_u32 android_display)
  | Removed request_id object =>
      require_response_ids request_id [object];;
      mret (OP_REMOVED, request_id, put_u64 object)
  | ErrorResponse request_id code message =>
      fail_if (bool_decide (message = []) || (MAX_ERROR_BYTES <? zlen message))
        (InvalidValue "error text");;
      text ← put_string message MAX_ERROR_BYTES;
      mret (OP_ERROR, request_id, put_u16 (code_u16 code) ++ text)
  end.

Definition encode_response (response : ControlResponse) : cresult (list Z) :=
  '(opcode, request_id, payload) ← encode_response_fields response;
  encode_record opcode request_id payload.

Definition decode_action (kind width height : Z) : cresult TaskAction :=
  if (kind =? 1) && (width =? 0) && (height =? 0) then Ok Focus
  else if kind =? 2 then Ok (Resize width height)
  else if (kind =? 3) && (width =? 0) && (height =? 0) then Ok CloseTask
  else Err (InvalidValue "task command action").

Definition get_command : creader TaskCommand :=
  object ← get_u64;
  task ← get_u64;
  incarnation ← get_u64;
  android_display ← get_u32;
  kind ← get_u32;
  width ← get_u32;
  height ← get_u32;
  action ← r_lift (decode_action kind width height);
  let command := mkCommand object task incarnation android_display action in
  r_lift (command_validate command);;
  mret command.

Definition decode_response_fields (opcode request_id : Z) : creader ControlResponse :=
  if opcode =? OP_SUBSCRIBED then
    id ← r_lift (required_request request_id); mret (Subscribed id)
  else if opcode =? OP_TASK_COMMAND then
    id ← r_lift (required_request request_id);
    r_lift (fail_if (i64_max <? id) (InvalidValue "task command serial"));;
    command ← get_command;
    mret (TaskCommandMsg id command)
  else if opcode =? OP_SERVER_HELLO then
    r_lift (fail_if (negb (request_id =? 0)) InvalidHeader);;
    major ← get_u16;
    r_lift (fail_if (major =? 0) (InvalidValue "selected major"));;
    minor ← get_u16;
    mret (ServerHelloResponse major minor)
  else if opcode =? OP_RESERVED then
    id ← r_lift (required_request request_id);
    object ← get_required "object identity";
    display ← get_required "display identity";
    mret (Reserved id object display)
  else if opcode =? OP_BOUND then
    id ← r_lift (required_request request_id);
    object ← get_required "object identity";
    task ← get_required "task identity";
    display ← get_required "display identity";
    android_display ← get_u32;
    mret (Bound id object task display android_display)
  else if opcode =? OP_REMOVED then
    id ← r_lift (required_request request_id);
    object ← get_required "object identity";
    mret (Removed id object)
  else if opcode =? OP_ERROR then
    value ← get_u16;
    code ← r_lift (code_try_from value);
    message ← get_string MAX_ERROR_BYTES;
    mret (ErrorResponse request_id code message)
  else r_lift (Err (UnknownControlOpcode opcode)).

Definition decode_response (record : list Z) : cresult ControlResponse :=
  header ← decode_header record;
  '(response, rest) ← decode_response_fields (ch_opcode header) (ch_request_id header) (ch_payload header);
  r_finish InvalidHeader rest;;
  mret response.
