(* ===== verification/ControlProofs.v ===== *)
(** * Correctness of the task-control codec

    Round trips in both directions.  A well-formed record is one whose integers
    are in the range of their Rust types and whose strings are UTF-8. *)

From S2P Require Import Prelude Bytes Protocol ControlCodec.

(** ** Typed records *)

Definition wf_request (r : ControlRequest) : Prop :=
  match r with
  | PublishFramework id package task display incarnation _ =>
      is_u64 id ∧ wf_string package ∧ is_u64 task ∧ is_u32 display ∧ is_u64 incarnation
  | Subscribe id | Acknowledge id => is_u64 id
  | HelloRequest lo hi => is_u16 lo ∧ is_u16 hi
  | ReserveRequest id package => is_u64 id ∧ wf_string package
  | BindRequest id object task display => is_u64 id ∧ is_u64 object ∧ is_u64 task ∧ is_u32 display
  | RegisterDirect id package task display | PublishDirect id package task display _ =>
      is_u64 id ∧ wf_string package ∧ is_u64 task ∧ is_u32 display
  | RemoveRequest id object => is_u64 id ∧ is_u64 object
  end.

Definition wf_command (c : TaskCommand) : Prop :=
  is_u64 (cm_object c) ∧ is_u64 (cm_task c) ∧ is_u64 (cm_incarnation c)
  ∧ is_u32 (cm_android_display c)
  ∧ match cm_action c with Resize w h => is_u32 w ∧ is_u32 h | _ => True end.

Definition wf_response (r : ControlResponse) : Prop :=
  match r with
  | Subscribed id => is_u64 id
  | TaskCommandMsg id c => is_u64 id ∧ wf_command c
  | ServerHelloResponse major minor => is_u16 major ∧ is_u16 minor
  | Reserved id object display => is_u64 id ∧ is_u64 object ∧ is_u64 display
  | Bound id object task display android_display =>
      is_u64 id ∧ is_u64 object ∧ is_u64 task ∧ is_u64 display ∧ is_u32 android_display
  | Removed id object => is_u64 id ∧ is_u64 object
  | ErrorResponse id _ message => is_u64 id ∧ wf_string message
  end.

(** ** Fields *)

Lemma get_u16_run x rest : is_u16 x → get_u16 (put_u16 x ++ rest) = Ok (x, rest).
Proof. intros H. by apply r_uint_le. Qed.
Lemma get_u32_run x rest : is_u32 x → get_u32 (put_u32 x ++ rest) = Ok (x, rest).
Proof. intros H. by apply r_uint_le. Qed.
Lemma get_u64_run x rest : is_u64 x → get_u64 (put_u64 x ++ rest) = Ok (x, rest).
Proof. intros H. by apply r_uint_le. Qed.

Lemma get_u16_inv bs x rest :
  Forall is_u8 bs → get_u16 bs = Ok (x, rest) → bs = put_u16 x ++ rest ∧ is_u16 x ∧ Forall is_u8 rest.
Proof. intros Hb H. by apply r_uint_Ok in H. Qed.
Lemma get_u32_inv bs x rest :
  Forall is_u8 bs → get_u32 bs = Ok (x, rest) → bs = put_u32 x ++ rest ∧ is_u32 x ∧ Forall is_u8 rest.
Proof. intros Hb H. by apply r_uint_Ok in H. Qed.
Lemma get_u64_inv bs x rest :
  Forall is_u8 bs → get_u64 bs = Ok (x, rest) → bs = put_u64 x ++ rest ∧ is_u64 x ∧ Forall is_u8 rest.
Proof. intros Hb H. by apply r_uint_Ok in H. Qed.

Lemma required_Ok field x y : required field x = Ok y ↔ x ≠ 0 ∧ y = x.
Proof.
  unfold required. destruct (Z.eqb_spec x 0); split;
    [done|by intros [? _]|by intros [= <-]|by intros [_ ->]].
Qed.

Lemma control_nonzero_Ok field x u : nonzero field x = Ok u ↔ x ≠ 0.
Proof. unfold nonzero, required. destruct (Z.eqb_spec x 0), u; split; done. Qed.

Lemma get_required_run field x rest :
  is_u64 x → x ≠ 0 → get_required field (put_u64 x ++ rest) = Ok (x, rest).
Proof.
  intros Hx Hn. eapply r_bind_intro; [by apply get_u64_run|]. apply r_lift_run. by apply required_Ok.
Qed.

Lemma get_required_inv bs field x rest :
  Forall is_u8 bs → get_required field bs = Ok (x, rest) →
  bs = put_u64 x ++ rest ∧ is_u64 x ∧ x ≠ 0 ∧ Forall is_u8 rest.
Proof.
  unfold get_required. intros Hb (y & r & Hy & Hl)%r_bind_Ok. apply r_lift_Ok in Hl as [Hl ->].
  apply required_Ok in Hl as [Hn ->]. apply get_u64_inv in Hy as (-> & ? & ?); [|done]. done.
Qed.

Lemma get_flag_run b rest : get_flag (put_u32 (Z.b2z b) ++ rest) = Ok (b, rest).
Proof.
  eapply r_bind_intro; [apply get_u32_run; by destruct b|]. apply r_lift_run. by destruct b.
Qed.

Lemma get_flag_inv bs b rest :
  Forall is_u8 bs → get_flag bs = Ok (b, rest) → bs = put_u32 (Z.b2z b) ++ rest ∧ Forall is_u8 rest.
Proof.
  unfold get_flag. intros Hb (y & r & Hy & Hl)%r_bind_Ok. apply r_lift_Ok in Hl as [Hl ->].
  apply get_u32_inv in Hy as (-> & ? & ?); [|done].
  destruct (Z.eqb_spec y 0) as [->|]; [by injection Hl as <-|].
  destruct (Z.eqb_spec y 1) as [->|]; [by injection Hl as <-|done].
Qed.

Lemma put_string_Ok s maximum bs :
  put_string s maximum = Ok bs ↔ s ≠ [] ∧ zlen s ≤ maximum ∧ zlen s ≤ 65535 ∧ bs = put_u16 (zlen s) ++ s.
Proof.
  unfold put_string. split.
  - intros H. inv_ok. reflect. destruct Hm as [? ?]. subst. by split_and!.
  - intros (H1 & H2 & H3 & ->). rewrite !fail_if_run by (reflect; auto with lia). done.
Qed.

Lemma get_string_run s maximum rest :
  s ≠ [] → zlen s ≤ maximum → zlen s ≤ 65535 → wf_string s →
  get_string maximum (put_u16 (zlen s) ++ s ++ rest) = Ok (s, rest).
Proof.
  intros Hs Hm Hl [_ Hu]. unfold get_string.
  assert (0 < zlen s) by (unfold zlen; destruct s; cbn; [done|lia]).
  eapply r_bind_intro; [apply get_u16_run; unfold zlen in *; int_lia|].
  eapply r_bind_intro; [apply r_lift_run, fail_if_run; reflect; lia|].
  eapply r_bind_intro; [apply r_take_app; unfold zlen; lia|].
  eapply r_bind_intro; [apply r_lift_run, fail_if_run; by rewrite Hu|]. done.
Qed.

Lemma get_string_inv bs s maximum rest :
  Forall is_u8 bs → get_string maximum bs = Ok (s, rest) →
  bs = put_u16 (zlen s) ++ s ++ rest ∧ s ≠ [] ∧ zlen s ≤ maximum ∧ zlen s ≤ 65535 ∧ wf_string s
  ∧ Forall is_u8 rest.
Proof.
  unfold get_string. intros Hb H.
  apply r_bind_Ok in H as (n & r1 & Hn & H). apply r_bind_Ok in H as ([] & r2 & H2 & H).
  apply r_bind_Ok in H as (l & r3 & H3 & H). apply r_bind_Ok in H as ([] & r4 & H4 & H).
  apply r_ret_Ok in H as [= <- <-]. apply r_lift_Ok in H2 as [H2 ->]. apply r_lift_Ok in H4 as [H4 ->].
  apply get_u16_inv in Hn as (-> & Hn & Hb1); [|done]. apply r_take_Ok in H3 as [-> Hlen].
  apply Forall_app in Hb1 as [? ?]. inv_ok. reflect. unfold_ints.
  assert (Hz : zlen s = n) by (unfold zlen; rewrite Hlen, Z2Nat.id; lia). rewrite Hz.
  split_and!; [done| |lia|lia|done|done]. intros ->. unfold zlen in Hz; cbn in Hz. lia.
Qed.

Lemma get_package_run s rest bs :
  put_string s MAX_PACKAGE_BYTES = Ok bs → wf_string s → valid_package s = true →
  get_package (bs ++ rest) = Ok (s, rest).
Proof.
  intros (H1 & H2 & H3 & ->)%put_string_Ok Hw Hv. rewrite <- app_assoc.
  eapply r_bind_intro; [by apply get_string_run|].
  eapply r_bind_intro; [apply r_lift_run, fail_if_run; by rewrite Hv|]. done.
Qed.

Lemma get_package_inv bs s rest :
  Forall is_u8 bs → get_package bs = Ok (s, rest) →
  ∃ text, bs = text ++ rest ∧ put_string s MAX_PACKAGE_BYTES = Ok text ∧ wf_string s
          ∧ valid_package s = true ∧ Forall is_u8 rest.
Proof.
  unfold get_package. intros Hb H. apply r_bind_Ok in H as (p & r1 & Hp & H).
  apply r_bind_Ok in H as ([] & r2 & H2 & H). apply r_ret_Ok in H as [= <- <-].
  apply r_lift_Ok in H2 as [H2 ->]. apply get_string_inv in Hp as (-> & ? & ? & ? & ? & ?); [|done].
  inv_ok. reflect. eexists. rewrite app_assoc. split; [reflexivity|].
  split_and!; try done. by apply put_string_Ok.
Qed.

(** ** Framing *)

Definition control_frame (minor opcode request_id : Z) (payload : list Z) : list Z :=
  MAGIC ++ put_u16 PROTOCOL_MAJOR ++ put_u16 minor ++ put_u16 opcode ++ put_u16 0
  ++ put_u32 (zlen payload) ++ put_u64 request_id ++ payload.

Lemma zlen_control_frame minor opcode id payload :
  zlen (control_frame minor opcode id payload) = 24 + zlen payload.
Proof.
  unfold control_frame, zlen, put_u16, put_u32, put_u64. rewrite !length_app, !length_le_bytes. cbn [length MAGIC]. lia.
Qed.

Lemma encode_record_Ok opcode id payload rec :
  encode_record opcode id payload = Ok rec ↔
  24 + zlen payload ≤ 4096 ∧ rec = control_frame PROTOCOL_MINOR opcode id payload.
Proof.
  unfold encode_record, HEADER_BYTES, MAX_RECORD_BYTES, u32_max. split.
  - intros H. inv_ok. reflect. by subst.
  - intros [H ->]. by rewrite !fail_if_run by (reflect; lia).
Qed.

Lemma decode_header_run minor opcode id payload :
  is_u16 minor → is_u16 opcode → is_u64 id → 24 + zlen payload ≤ 4096 →
  decode_header (control_frame minor opcode id payload) = Ok (mkControlHeader opcode id payload).
Proof.
  intros Hm Ho Hi Hl. unfold decode_header. rewrite zlen_control_frame.
  assert (0 ≤ zlen payload) by (unfold zlen; lia).
  unfold HEADER_BYTES, MAX_RECORD_BYTES.
  assert ((24 + zlen payload <? 24) || (4096 <? 24 + zlen payload) = false) as -> by (reflect; lia).
  cbn [fail_if]. rewrite ok_bind.
  change (take 4 _) with MAGIC. rewrite bool_decide_true by done. cbn [negb fail_if]. rewrite ok_bind.
  change (drop 4 _) with (put_u16 PROTOCOL_MAJOR ++ put_u16 minor ++ put_u16 opcode ++ put_u16 0
    ++ put_u32 (zlen payload) ++ put_u64 id ++ payload).
  rewrite get_u16_run by done. rewrite ok_bind. cbn [fail_if negb Z.eqb Pos.eqb PROTOCOL_MAJOR].
  rewrite ok_bind. unfold header_fields.
  erewrite r_bind_intro; [|by apply get_u16_run|]; cycle 1.
  { eapply r_bind_intro; [by apply get_u16_run|]. eapply r_bind_intro; [by apply get_u16_run|].
    eapply r_bind_intro; [apply get_u32_run; int_lia|]. eapply r_bind_intro; [by apply get_u64_run|].
    reflexivity. }
  rewrite ok_bind; cbn. by rewrite Z.eqb_refl.
Qed.

Lemma decode_header_inv rec h :
  Forall is_u8 rec → decode_header rec = Ok h →
  ∃ minor, is_u16 minor ∧ is_u16 (ch_opcode h) ∧ is_u64 (ch_request_id h)
    ∧ 24 + zlen (ch_payload h) ≤ 4096 ∧ Forall is_u8 (ch_payload h)
    ∧ rec = control_frame minor (ch_opcode h) (ch_request_id h) (ch_payload h).
Proof.
  unfold decode_header, header_fields, HEADER_BYTES, MAX_RECORD_BYTES. intros Hb H.
  apply bind_Ok in H as ([] & Hlen & H). apply bind_Ok in H as ([] & Hmagic & H).
  apply bind_Ok in H as ([major r0] & Hmaj & H). apply bind_Ok in H as ([] & Hver & H).
  apply bind_Ok in H as ([[[[opcode reserved] len] id] payload] & Hf & H).
  apply bind_Ok in H as ([] & Hchk & H). apply ret_Ok in H as <-. cbn.
  assert (Forall is_u8 (drop 4 rec)) as Hb0 by auto using Forall_drop.
  apply get_u16_inv in Hmaj as (Hd & Hmaj & Hb1); [|done].
  apply r_bind_Ok in Hf as (minor & r1 & H1 & Hf). apply get_u16_inv in H1 as (-> & H1 & Hb2); [|done].
  apply r_bind_Ok in Hf as (op & r2 & H2 & Hf). apply get_u16_inv in H2 as (-> & H2 & Hb3); [|done].
  apply r_bind_Ok in Hf as (rs & r3 & H3 & Hf). apply get_u16_inv in H3 as (-> & H3 & Hb4); [|done].
  apply r_bind_Ok in Hf as (ln & r4 & H4 & Hf). apply get_u32_inv in H4 as (-> & H4 & Hb5); [|done].
  apply r_bind_Ok in Hf as (i & r5 & H5 & Hf). apply get_u64_inv in H5 as (-> & H5 & Hb6); [|done].
  apply r_ret_Ok in Hf. injection Hf as -> -> -> -> ->.
  inv_ok. reflect. subst major. destruct Hlen as [Hlo Hhi], Hchk as [-> Hsum].
  assert (Hrec : rec = MAGIC ++ put_u16 PROTOCOL_MAJOR ++ put_u16 minor ++ put_u16 op ++ put_u16 0
                       ++ put_u32 ln ++ put_u64 i ++ r5).
  { rewrite <- (take_drop 4 rec), Hmagic, Hd. done. }
  assert (Hz : zlen rec = 24 + zlen r5).
  { rewrite Hrec. unfold zlen, put_u16, put_u32, put_u64. rewrite !length_app, !length_le_bytes.
    cbn [length MAGIC]. lia. }
  assert (ln = zlen r5) as -> by lia. exists minor. split_and!; (done || lia).
Qed.

(** ** Bodies *)

Create HintDb control.
#[export] Hint Resolve get_u16_run get_u32_run get_u64_run get_required_run get_flag_run
  get_package_run r_lift_run fail_if_run : control.

Lemma required_request_run x : x ≠ 0 → required_request x = Ok x.
Proof. intros H. by apply required_Ok. Qed.

Lemma nonzero_request_run field x : x ≠ 0 → nonzero field x = Ok tt.
Proof. intros H. by apply control_nonzero_Ok. Qed.

#[export] Hint Resolve required_request_run nonzero_request_run : control.

(** Runs a reader over the encodings of its fields. *)
Ltac control_run :=
  repeat (eapply r_bind_intro; [solve [eauto 5 with control nocore]|]; cbn beta iota).

Ltac pick_control :=
  repeat match goal with
  | |- context [if ?a =? ?b then _ else _] =>
      let v := eval vm_compute in (a =? b) in
      lazymatch v with true => idtac | false => idtac end;
      change (a =? b) with v; cbv iota
  | |- context [(?a =? ?b) || _] =>
      let v := eval vm_compute in (a =? b) in
      lazymatch v with true => idtac | false => idtac end;
      change (a =? b) with v; cbn [orb]; cbv iota
  end.

Ltac use_nonzero :=
  repeat match goal with
  | H : nonzero _ _ = Ok _ |- _ => apply control_nonzero_Ok in H
  | H : require_response_ids _ _ = Ok _ |- _ => unfold require_response_ids in H; inv_ok
  | H : required_request _ = Ok _ |- _ => apply required_Ok in H as [? ?]
  end.

#[export] Hint Extern 2 (fail_if _ _ = Ok _) =>
  apply fail_if_run; reflect; first [done | tauto | lia] : control.
#[export] Hint Extern 2 (valid_package _ = true) => reflect; tauto : control.
#[export] Hint Extern 1 (@mret _ _ _ _ _ = Ok _) => reflexivity : control.

(** The incarnation only a framework publication carries. *)
Lemma publish_incarnation_run incarnation rest :
  is_u64 incarnation → incarnation ≠ 0 → (i64_max <? incarnation) = false →
  (incarnation ← get_required "task incarnation";
   r_lift (fail_if (i64_max <? incarnation) (InvalidValue "task incarnation"));;
   mret (Some incarnation) : creader (option Z)) (put_u64 incarnation ++ rest)
  = Ok (Some incarnation, rest).
Proof. intros. control_run. done. Qed.

#[export] Hint Resolve publish_incarnation_run : control.

Lemma request_body r opcode id payload rest :
  wf_request r → encode_request_fields r = Ok (opcode, id, payload) →
  decode_request_fields opcode id (payload ++ rest) = Ok (r, rest) ∧ is_u16 opcode ∧ is_u64 id.
Proof.
  destruct r; cbn [wf_request encode_request_fields]; intros Hwf H; inv_ok; simplify_eq;
    destruct_and?; use_nonzero; (split_and!; [|done|done]);
    unfold decode_request_fields, decode_publish; pick_control; rewrite <- ?app_assoc; control_run; try done.
  apply orb_false_iff in Hm2 as [? ?]. control_run. done.
Qed.

Lemma decode_action_run a :
  (let '(kind, width, height) := action_fields a in decode_action kind width height) = Ok a.
Proof. by destruct a. Qed.

Lemma get_command_run c rest :
  wf_command c → command_validate c = Ok tt → get_command (command_bytes c ++ rest) = Ok (c, rest).
Proof.
  intros (H1 & H2 & H3 & H4 & H5) Hv. unfold get_command, command_bytes.
  pose proof (decode_action_run (cm_action c)) as Ha.
  destruct (action_fields (cm_action c)) as [[kind width] height] eqn:E.
  assert (is_u32 kind ∧ is_u32 width ∧ is_u32 height) as (? & ? & ?).
  { destruct (cm_action c); cbn in E; simplify_eq; destruct_and?; by split_and!. }
  rewrite <- !app_assoc. control_run. destruct c; cbn in *. control_run. done.
Qed.

#[export] Hint Resolve get_command_run : control.

Lemma code_run c : code_try_from (code_u16 c) = Ok c.
Proof. by destruct c. Qed.

#[export] Hint Resolve code_run : control.

Lemma response_body r opcode id payload rest :
  wf_response r → encode_response_fields r = Ok (opcode, id, payload) →
  decode_response_fields opcode id (payload ++ rest) = Ok (r, rest) ∧ is_u16 opcode ∧ is_u64 id.
Proof.
  destruct r; cbn [wf_response encode_response_fields]; intros Hwf H; inv_ok; simplify_eq;
    destruct_and?; use_nonzero; (split_and!; [|done|done]);
    unfold decode_response_fields; pick_control; rewrite <- ?app_assoc; try (control_run; done).
  1-3: cbn in Hm; reflect; destruct_and?; control_run; done.
  apply put_string_Ok in Hm0 as (? & ? & ? & ->). rewrite <- app_assoc.
  assert (is_u16 (code_u16 code)) by (by destruct code).
  do 2 (eapply r_bind_intro; [eauto 3 with control nocore|]).
  eapply r_bind_intro; [by apply get_string_run|]. done.
Qed.

(** Inverts a successful reader run, one field at a time. *)
Ltac control_inv :=
  repeat match goal with
  | H : (_ ≫= _) _ = Ok _ |- _ =>
      let a := fresh "v" in let r := fresh "rest" in let H1 := fresh "Hr" in
      apply r_bind_Ok in H as (a & r & H1 & H); cbv beta in H
  | H : r_lift _ _ = Ok _ |- _ => apply r_lift_Ok in H as [H ->]
  | H : @mret _ _ _ _ _ = Ok _ |- _ => apply (proj1 (r_ret_Ok _ _ _)) in H
  | Hb : Forall is_u8 ?bs, H : get_u16 ?bs = Ok _ |- _ =>
      let Hn := fresh in
      apply (get_u16_inv _ _ _ Hb) in H as (-> & H & Hn); clear Hb; rename Hn into Hb
  | Hb : Forall is_u8 ?bs, H : get_u32 ?bs = Ok _ |- _ =>
      let Hn := fresh in
      apply (get_u32_inv _ _ _ Hb) in H as (-> & H & Hn); clear Hb; rename Hn into Hb
  | Hb : Forall is_u8 ?bs, H : get_u64 ?bs = Ok _ |- _ =>
      let Hn := fresh in
      apply (get_u64_inv _ _ _ Hb) in H as (-> & H & Hn); clear Hb; rename Hn into Hb
  | Hb : Forall is_u8 ?bs, H : get_required _ ?bs = Ok _ |- _ =>
      let Hn := fresh in let Hz := fresh in
      apply (get_required_inv _ _ _ _ Hb) in H as (-> & H & Hz & Hn); clear Hb; rename Hn into Hb
  | Hb : Forall is_u8 ?bs, H : get_flag ?bs = Ok _ |- _ =>
      let Hn := fresh in
      apply (get_flag_inv _ _ _ Hb) in H as (-> & Hn); clear Hb; rename Hn into Hb
  | Hb : Forall is_u8 ?bs, H : get_package ?bs = Ok _ |- _ =>
      let Hn := fresh in let Hw := fresh in let Hv := fresh in let t := fresh "text" in
      apply (get_package_inv _ _ _ Hb) in H as (t & -> & H & Hw & Hv & Hn); clear Hb; rename Hn into Hb
  | H : required_request _ = Ok _ |- _ => apply required_Ok in H as [? ->]
  | H : nonzero _ _ = Ok _ |- _ => apply control_nonzero_Ok in H
  end; inv_ok; simplify_eq.

(** Runs an encoder whose checks pass. *)
Ltac control_enc :=
  repeat (eapply bind_intro; [solve [eauto 4 with control nocore]|]; cbv beta iota);
  try reflexivity.

Ltac split_control H :=
  repeat match type of H with
  | (if ?a =? ?b then _ else _) _ = _ => destruct (Z.eqb_spec a b) as [->|]
  end.

Lemma request_body_inv opcode id bs r rest :
  Forall is_u8 bs → is_u64 id → decode_request_fields opcode id bs = Ok (r, rest) →
  wf_request r ∧ ∃ payload, encode_request_fields r = Ok (opcode, id, payload) ∧ bs = payload ++ rest.
Proof.
  unfold decode_request_fields. intros Hb Hid H. split_control H.
  1-7: control_inv; cbn [wf_request encode_request_fields].
  3: apply negb_false_iff, Z.eqb_eq in Hr; subst id.
  1-7: split; [tauto|]; eexists; (split; [control_enc|rewrite <- ?app_assoc; reflexivity]).
  destruct (opcode =? OP_PUBLISH_DIRECT) eqn:E1; [|destruct (opcode =? OP_PUBLISH_FRAMEWORK) eqn:E2;
    [|by apply r_lift_Ok in H as [? _]]]; cbn [orb] in H.
  - apply Z.eqb_eq in E1 as ->. control_inv. unfold decode_publish in H. control_inv.
    change (OP_PUBLISH_DIRECT =? OP_PUBLISH_FRAMEWORK) with false in Hr2. cbv iota in Hr2. control_inv. control_inv. cbn [wf_request encode_request_fields].
    split; [tauto|]. eexists; (split; [control_enc|rewrite <- ?app_assoc; reflexivity]).
  - apply Z.eqb_eq in E2 as ->. control_inv. unfold decode_publish in H. control_inv.
    change (OP_PUBLISH_FRAMEWORK =? OP_PUBLISH_FRAMEWORK) with true in Hr2. cbv iota in Hr2. control_inv. control_inv. cbn [wf_request encode_request_fields].
    split; [tauto|]. eexists; (split; [control_enc|rewrite <- ?app_assoc; reflexivity]).
Qed.

Lemma get_command_inv bs c rest :
  Forall is_u8 bs → get_command bs = Ok (c, rest) →
  bs = command_bytes c ++ rest ∧ wf_command c ∧ command_validate c = Ok tt ∧ Forall is_u8 rest.
Proof.
  unfold get_command. intros Hb H. control_inv. rename Hr6 into Ha.
  unfold decode_action in Ha. unfold command_bytes, wf_command; cbn [cm_object cm_task cm_incarnation
    cm_android_display cm_action].
  destruct (_ && _) eqn:E1 in Ha; [|destruct (_ =? 2) eqn:E2 in Ha;
    [|destruct (_ && _) eqn:E3 in Ha; [|done]]]; injection Ha as <-; cbn [action_fields];
    reflect; destruct_and?; subst; rewrite <- !app_assoc; split_and!; done.
Qed.

Lemma code_inv value c : code_try_from value = Ok c → value = code_u16 c.
Proof. unfold code_try_from. intros H. repeat case_match; inv_ok; subst; reflect; by subst. Qed.

Lemma require_ids_run id ids :
  id ≠ 0 → Forall (λ i, i ≠ 0) ids → require_response_ids id ids = Ok tt.
Proof.
  intros Hid Hids. unfold require_response_ids. rewrite required_request_run by done. rewrite ok_bind.
  apply fail_if_run. induction Hids as [|i ids Hi Hids IH]; cbn; [done|].
  rewrite IH. by rewrite (proj2 (Z.eqb_neq i 0)).
Qed.

#[export] Hint Extern 2 (require_response_ids _ _ = Ok _) =>
  apply require_ids_run; [assumption|repeat constructor; assumption] : control.
#[export] Hint Extern 2 (command_validate _ = Ok _) => eassumption : control.

Lemma response_body_inv opcode id bs r rest :
  Forall is_u8 bs → is_u64 id → decode_response_fields opcode id bs = Ok (r, rest) →
  wf_response r ∧ ∃ payload, encode_response_fields r = Ok (opcode, id, payload) ∧ bs = payload ++ rest.
Proof.
  unfold decode_response_fields. intros Hb Hid H. split_control H.
  8: by apply r_lift_Ok in H as [? _].
  2: { control_inv. apply get_command_inv in Hr1 as (-> & ? & ? & ?); [|done].
       cbn [wf_response encode_response_fields].
       split; [tauto|]. eexists; (split; [control_enc|reflexivity]). }
  6: { control_inv. apply code_inv in Hr0 as ->. apply get_string_inv in Hr1 as (-> & ? & ? & ? & ? & ?); [|done].
       cbn [wf_response encode_response_fields]. split; [tauto|].
       eexists. split.
       - eapply bind_intro; [apply fail_if_run; reflect; split; [done|lia]|]. cbv beta.
         eapply bind_intro; [by apply put_string_Ok|]. reflexivity.
       - by rewrite <- !app_assoc. }
  all: control_inv; cbn [wf_response encode_response_fields].
  2: apply negb_false_iff, Z.eqb_eq in Hr; subst id.
  all: split; [tauto|]; eexists; (split; [control_enc|rewrite <- ?app_assoc; reflexivity]).
Qed.

(** ** Round trips *)

(** C32: every request and response the control channel encodes is a record of at
    most 4096 bytes that the other side decodes to exactly the same message. *)
Theorem control_roundtrip :
  (∀ r rec, wf_request r → encode_request r = Ok rec → zlen rec ≤ 4096 ∧ decode_request rec = Ok r)
  ∧ (∀ r rec, wf_response r → encode_response r = Ok rec → zlen rec ≤ 4096 ∧ decode_response rec = Ok r).
Proof.
  split; intros r rec Hwf H.
  - unfold encode_request in H. apply bind_Ok in H as ([[opcode id] payload] & Hf & Hrec).
    apply encode_record_Ok in Hrec as [Hlen ->]. rewrite zlen_control_frame. split; [lia|].
    destruct (request_body _ _ _ _ [] Hwf Hf) as (Hd & Ho & Hi). rewrite app_nil_r in Hd.
    unfold decode_request. rewrite decode_header_run by done. rewrite ok_bind. cbn. by rewrite Hd.
  - unfold encode_response in H. apply bind_Ok in H as ([[opcode id] payload] & Hf & Hrec).
    apply encode_record_Ok in Hrec as [Hlen ->]. rewrite zlen_control_frame. split; [lia|].
    destruct (response_body _ _ _ _ [] Hwf Hf) as (Hd & Ho & Hi). rewrite app_nil_r in Hd.
    unfold decode_response. rewrite decode_header_run by done. rewrite ok_bind. cbn. by rewrite Hd.
Qed.

(** A record with its minor version replaced by the one this side writes. *)
Definition current_minor (rec : list Z) : list Z := take 6 rec ++ put_u16 PROTOCOL_MINOR ++ drop 8 rec.

Lemma current_minor_frame minor opcode id payload :
  current_minor (control_frame minor opcode id payload)
  = control_frame PROTOCOL_MINOR opcode id payload.
Proof. reflexivity. Qed.

(** C38: both decoders accept only what the encoders write: re-encoding an
    accepted record reproduces every byte but the minor version, which the
    decoders do not look at. *)
Theorem control_canonical rec :
  Forall is_u8 rec →
  (∀ r, decode_request rec = Ok r → wf_request r ∧ encode_request r = Ok (current_minor rec))
  ∧ (∀ r, decode_response rec = Ok r → wf_response r ∧ encode_response r = Ok (current_minor rec)).
Proof.
  intros Hb. split; intros r H; [unfold decode_request in H|unfold decode_response in H];
    apply bind_Ok in H as (h & Hh & H); apply bind_Ok in H as ([r' rest] & Hf & H);
    apply bind_Ok in H as ([] & Hfin & H); apply ret_Ok in H as ->; apply r_finish_Ok in Hfin as ->;
    destruct (decode_header_inv _ _ Hb Hh) as (minor & Hm & Ho & Hi & Hl & Hp & ->);
    rewrite current_minor_frame.
  - destruct (request_body_inv _ _ _ _ _ Hp Hi Hf) as (Hwf & payload & He & Heq).
    rewrite app_nil_r in Heq. split; [done|]. unfold encode_request. rewrite He, ok_bind.
    apply encode_record_Ok. rewrite <- Heq. done.
  - destruct (response_body_inv _ _ _ _ _ Hp Hi Hf) as (Hwf & payload & He & Heq).
    rewrite app_nil_r in Heq. split; [done|]. unfold encode_response. rewrite He, ok_bind.
    apply encode_record_Ok. rewrite <- Heq. done.
Qed.

(** ** Concrete records *)

Definition demo_publish : ControlRequest := PublishFramework 1 [97; 46; 98] 42 0 7 true.
Definition demo_publish_record : list Z :=
  match encode_request demo_publish with Ok rec => rec | Err _ => [] end.

Lemma control_roundtrip_witness :
  zlen demo_publish_record ≤ 4096 ∧ decode_request demo_publish_record = Ok demo_publish.
Proof.
  apply (proj1 control_roundtrip demo_publish demo_publish_record).
  - repeat split; try (unfold_ints; lia). repeat constructor; unfold_ints; lia.
  - vm_compute. reflexivity.
Defined.

Lemma control_canonical_witness :
  wf_request demo_publish ∧ encode_request demo_publish = Ok (current_minor demo_publish_record).
Proof.
  apply (control_canonical demo_publish_record).
  - vm_compute. repeat (constructor; [split; [discriminate|reflexivity]|]). constructor.
  - vm_compute. reflexivity.
Defined.
