(* ===== verification/CommandQueue.v ===== *)
(** * The host-window command backlog (graphics/droidloom-task-control/src/commands.rs)

    Composer's bounded queue of focus, resize and close commands for the
    framework.  Times are nanoseconds on the monotonic clock. *)

From S2P Require Import Prelude Bytes Protocol ControlCodec.

(** ** Data *)

Definition MAX_PENDING : nat := 256.
(** [Duration::from_millis(80)]. *)
Definition RESIZE_DEBOUNCE : Z := 80000000.

Record PendingCommand : Type := mkPending {
  pc_serial : Z;
  pc_command : TaskCommand;
  pc_ready : Z
}.

Record CommandQueue : Type := mkQueue {
  pending : gmap Z PendingCommand;
  closed : gset Z;
  resized : gset Z;
  next : Z
}.

Definition queue_default : CommandQueue := mkQueue ∅ ∅ ∅ 0.

(** [matches!(action, TaskAction::Resize { .. })]. *)
Definition is_resize (a : TaskAction) : bool := match a with Resize _ _ => true | _ => false end.

(** What the [retain] of [push] drops for a command. *)
Definition superseded (command : TaskCommand) (entry : PendingCommand) : bool :=
  match cm_action command with
  | CloseTask => cm_object (pc_command entry) =? cm_object command
  | Focus => bool_decide (cm_action (pc_command entry) = Focus)
  | Resize _ _ =>
      (cm_object (pc_command entry) =? cm_object command) && is_resize (cm_action (pc_command entry))
  end.

Definition retained (command : TaskCommand) (m : gmap Z PendingCommand) : gmap Z PendingCommand :=
  filter (λ e, superseded command e.2 = false) m.

Definition qmethod := method CommandQueue CodecError.

(** ** Operations *)

(** The serial that follows, if it still fits a positive [i64]. *)
Definition next_serial (q : CommandQueue) : cresult Z :=
  ok_or (if (next q + 1 <=? u64_max) && (next q + 1 <=? i64_max) then Some (next q + 1) else None)
    (InvalidValue "task command serial").

(** [self.resized.insert(object)] returns whether the object was new; it is only
    evaluated for a resize. *)
Definition enqueue (command : TaskCommand) (now serial : Z) (q : CommandQueue) : CommandQueue :=
  let object := cm_object command in
  let resize := is_resize (cm_action command) in
  let debounce := resize && bool_decide (object ∈ resized q) in
  mkQueue
    (<[serial := mkPending serial command (now + if debounce then RESIZE_DEBOUNCE else 0)]> (pending q))
    (if decide (cm_action command = CloseTask) then {[object]} ∪ closed q else closed q)
    (if resize then {[object]} ∪ resized q else resized q)
    serial.

Definition set_pending_commands m q := mkQueue m (closed q) (resized q) (next q).

(** The part of [push] after the guard on closed objects. *)
Definition push_open (command : TaskCommand) (now : Z) : qmethod unit :=
  q ← get;
  serial ← lift (next_serial q);
  modify (λ q, set_pending_commands (retained command (pending q)) q);;
  q ← get;
  reject (MAX_PENDING <=? size (pending q))%nat (InvalidValue "task command backlog");;
  modify (enqueue command now serial).

Definition push (command : TaskCommand) (now : Z) : qmethod unit :=
  lift (command_validate command);;
  q ← get;
  if decide (cm_object command ∈ closed q) then mret tt else push_open command now.

Definition ready (now : Z) (q : CommandQueue) : option PendingCommand :=
  find (λ e, pc_ready e <=? now) (btree_values (pending q)).

(** [values().map(|e| e.ready).min()]. *)
Definition deadline (q : CommandQueue) : option Z :=
  foldr (λ e acc, Some (from_option (Z.min (pc_ready e)) (pc_ready e) acc)) None
    (btree_values (pending q)).

Definition acknowledge (serial : Z) (q : CommandQueue) : CommandQueue :=
  set_pending_commands (delete serial (pending q)) q.

Definition discard (object : Z) (q : CommandQueue) : CommandQueue :=
  mkQueue (filter (λ e, cm_object (pc_command e.2) ≠ object) (pending q))
    (closed q ∖ {[object]}) (resized q ∖ {[object]}) (next q).

(** ** The invariant *)

Record queue_inv (q : CommandQueue) : Prop := {
  qi_bound : (size (pending q) ≤ MAX_PENDING)%nat;
  qi_next : 0 ≤ next q ≤ i64_max;
  qi_entry s e : pending q !! s = Some e →
    pc_serial e = s ∧ 0 < s ≤ next q ∧ command_validate (pc_command e) = Ok tt;
  (** one focus in all, one resize per window *)
  qi_focus s s' e e' : pending q !! s = Some e → pending q !! s' = Some e' →
    cm_action (pc_command e) = Focus → cm_action (pc_command e') = Focus → s = s';
  qi_resize s s' e e' : pending q !! s = Some e → pending q !! s' = Some e' →
    is_resize (cm_action (pc_command e)) = true → is_resize (cm_action (pc_command e')) = true →
    cm_object (pc_command e) = cm_object (pc_command e') → s = s';
  (** a closed window has nothing pending but its close *)
  qi_closed s e : pending q !! s = Some e →
    (cm_object (pc_command e) ∈ closed q ↔ cm_action (pc_command e) = CloseTask)
}.

Lemma queue_default_inv : queue_inv queue_default.
Proof.
  split; cbn; try done. rewrite map_size_empty. lia.
Qed.

(** ** Pushing a command *)

Lemma retained_lookup c m s e :
  retained c m !! s = Some e ↔ m !! s = Some e ∧ superseded c e = false.
Proof. unfold retained. by rewrite map_lookup_filter_Some. Qed.

(** Dropping nothing, or at least one. *)
Lemma retained_size c m :
  retained c m = m ∨ (size (retained c m) < size m)%nat.
Proof.
  unfold retained. destruct (decide (map_Forall (λ _ e, superseded c e = false) m)) as [H|H].
  - left. by apply map_filter_id.
  - right. apply map_not_Forall in H as (s & e & Hs & He); [|apply _].
    assert (Hsub : filter (λ e : Z * PendingCommand, superseded c e.2 = false) m ⊆ delete s m).
    { apply map_subseteq_spec. intros s' e' [Hm Hf]%map_lookup_filter_Some. cbn in Hf.
      apply lookup_delete_Some. split; [|done]. intros ->. congruence. }
    apply map_subseteq_size in Hsub. rewrite map_size_delete_Some in Hsub by eauto.
    assert (size m ≠ 0)%nat by (intros E; apply map_size_empty_inv in E; by subst).
    lia.
Qed.

(** The three outcomes of a push. *)
Inductive push_outcome (c : TaskCommand) (now : Z) (q : CommandQueue)
  : CommandQueue * result CodecError unit → Prop :=
| push_refused err : push_outcome c now q (q, Err err)
| push_ignored : command_validate c = Ok tt → cm_object c ∈ closed q → push_outcome c now q (q, Ok tt)
| push_queued :
    command_validate c = Ok tt → cm_object c ∉ closed q → next q + 1 ≤ i64_max →
    (size (retained c (pending q)) < MAX_PENDING)%nat →
    push_outcome c now q
      (enqueue c now (next q + 1) (set_pending_commands (retained c (pending q)) q), Ok tt).

Lemma push_cases c now q : queue_inv q → push_outcome c now q (push c now q).
Proof.
  intros Hq. unfold push, push_open, mbind, method_bind, lift, get, reject, modify, next_serial.
  destruct (command_validate c) as [[]|err] eqn:Hv; [|constructor].
  destruct (decide (cm_object c ∈ closed q)) as [Hc|Hc]; [by constructor|].
  destruct (_ && _) eqn:Hs; cbn [ok_or]; [|constructor].
  apply andb_prop in Hs as [_ Hs%Z.leb_le]. cbn [pending set_pending_commands].
  destruct (Nat.leb_spec MAX_PENDING (size (retained c (pending q)))) as [Hfull|Hroom]; [|by constructor].
  destruct (retained_size c (pending q)) as [E|E].
  - rewrite E. destruct q; constructor.
  - pose proof (qi_bound _ Hq). lia.
Qed.

Lemma enqueued_lookup c now s q s' e :
  pending (enqueue c now s q) !! s' = Some e ↔
  s' = s ∧ e = mkPending s c (now + if is_resize (cm_action c) && bool_decide (cm_object c ∈ resized q)
                                    then RESIZE_DEBOUNCE else 0)
  ∨ s' ≠ s ∧ pending q !! s' = Some e.
Proof.
  cbn. rewrite lookup_insert_Some. split; (intros [[? ?]|[? ?]]; [left|right]; split; congruence).
Qed.

Lemma push_inv c now q : queue_inv q → queue_inv (push c now q).1.
Proof.
  intros Hq. destruct (push_cases c now q Hq) as [err|_ _|Hv Hc Hnext Hroom]; [done..|]. cbn [fst].
  set (q1 := set_pending_commands (retained c (pending q)) q).
  assert (Hold : ∀ s e, pending q1 !! s = Some e → pending q !! s = Some e ∧ superseded c e = false)
    by (intros s e; apply retained_lookup).
  assert (Hfresh : pending q1 !! (next q + 1) = None).
  { apply eq_None_not_Some. intros [e [He _]%Hold]. apply (qi_entry _ Hq) in He as (_ & ? & _). lia. }
  split.
  - cbn. rewrite map_size_insert_None by done. unfold q1; cbn. lia.
  - cbn. pose proof (qi_next _ Hq). lia.
  - intros s e [[-> ->]|[_ [He _]%Hold]]%enqueued_lookup; cbn.
    + pose proof (qi_next _ Hq). split_and!; [done|lia|lia|done].
    + apply (qi_entry _ Hq) in He as (? & ? & ?). split_and!; (done || lia).
  - intros s s' e e' [[-> ->]|[_ [He Hs]%Hold]]%enqueued_lookup
      [[-> ->]|[_ [He' Hs']%Hold]]%enqueued_lookup Hf Hf'; cbn in *; [done| | |by eapply (qi_focus _ Hq)].
    + unfold superseded in Hs'. rewrite Hf in Hs'. reflect. done.
    + unfold superseded in Hs. rewrite Hf' in Hs. reflect. done.
  - intros s s' e e' [[-> ->]|[_ [He Hs]%Hold]]%enqueued_lookup
      [[-> ->]|[_ [He' Hs']%Hold]]%enqueued_lookup Hf Hf' Ho; cbn in *; [done| | |by eapply (qi_resize _ Hq)].
    + unfold superseded in Hs'. destruct (cm_action c); try done. rewrite Hf' in Hs'. reflect. lia.
    + unfold superseded in Hs. destruct (cm_action c); try done. rewrite Hf in Hs. reflect. lia.
  - intros s e [[-> ->]|[_ [He Hs]%Hold]]%enqueued_lookup; cbn.
    + destruct (decide (cm_action c = CloseTask)); [|tauto]. set_solver.
    + rewrite <- (qi_closed _ Hq s e He). case_decide as Hcl; [|done].
      unfold superseded in Hs. rewrite Hcl in Hs. reflect. set_solver.
Qed.

Lemma queue_acknowledge_inv s q : queue_inv q → queue_inv (acknowledge s q).
Proof.
  intros [H1 H2 H3 H4 H5 H6]. split; cbn; [|done| | | |].
  - etrans; [apply map_subseteq_size, delete_subseteq|done].
  - intros s' e [_ H]%lookup_delete_Some. by apply H3.
  - intros a b e e' [_ ?]%lookup_delete_Some [_ ?]%lookup_delete_Some. by apply H4.
  - intros a b e e' [_ ?]%lookup_delete_Some [_ ?]%lookup_delete_Some. by apply H5.
  - intros a e [_ ?]%lookup_delete_Some. by eapply H6.
Qed.

Lemma discard_inv o q : queue_inv q → queue_inv (discard o q).
Proof.
  intros [H1 H2 H3 H4 H5 H6]. split; cbn; [|done| | | |].
  - etrans; [|exact H1]. apply map_subseteq_size, map_filter_subseteq.
  - intros s e [H _]%map_lookup_filter_Some. by apply H3.
  - intros a b e e' [? _]%map_lookup_filter_Some [? _]%map_lookup_filter_Some. by apply H4.
  - intros a b e e' [? _]%map_lookup_filter_Some [? _]%map_lookup_filter_Some. by apply H5.
  - intros a e [H Hn]%map_lookup_filter_Some. cbn in Hn. rewrite <- (H6 a e H). set_solver.
Qed.

(** ** Histories *)

Inductive queue_op : Type :=
| QPush (command : TaskCommand) (now : Z)
| QAcknowledge (serial : Z)
| QDiscard (object : Z).

Definition queue_step (q : CommandQueue) (op : queue_op) : CommandQueue :=
  match op with
  | QPush command now => (push command now q).1
  | QAcknowledge serial => acknowledge serial q
  | QDiscard object => discard object q
  end.

Definition queue_run (ops : list queue_op) (q : CommandQueue) : CommandQueue := foldl queue_step q ops.

Lemma queue_step_inv op q : queue_inv q → queue_inv (queue_step q op).
Proof. destruct op; [apply push_inv|apply queue_acknowledge_inv|apply discard_inv]. Qed.

Lemma queue_run_inv ops q : queue_inv q → queue_inv (queue_run ops q).
Proof.
  revert q. induction ops as [|op ops IH]; intros q Hq; [done|]. apply (IH (queue_step q op)).
  by apply queue_step_inv.
Qed.

(** C31: in every reachable backlog there are at most 256 commands, all valid and
    filed under their own serial, at most one focus, at most one resize per
    window, and nothing but the close for a closed window. *)
Theorem command_backlog_invariant ops : queue_inv (queue_run ops queue_default).
Proof. apply queue_run_inv, queue_default_inv. Qed.

(** Coalescing never loses a command: a refused push changes nothing, an
    accepted one queues the command under a new serial (or finds its window
    closed) and drops only the commands that it supersedes: all of its window
    for a close, the earlier focus for a focus, the window's earlier resize for
    a resize. *)
Theorem push_coalesces ops c now q' r :
  let q := queue_run ops queue_default in
  push c now q = (q', r) →
  match r with
  | Err _ => q' = q
  | Ok _ =>
      (cm_object c ∈ closed q ∧ q' = q)
      ∨ (∃ t, pending q' !! (next q + 1) = Some (mkPending (next q + 1) c t) ∧ now ≤ t ≤ now + RESIZE_DEBOUNCE)
        ∧ next q' = next q + 1
        ∧ ∀ s e, pending q !! s = Some e →
            s ≠ next q + 1 ∧ (pending q' !! s = if superseded c e then None else Some e)
  end.
Proof.
  intros q Hp. assert (Hq : queue_inv q) by apply queue_run_inv, queue_default_inv. clearbody q.
  pose proof (push_cases c now q Hq) as Hc. rewrite Hp in Hc. inversion Hc as [err|Hv Hcl|Hv Hcl Hn Hroom]; subst.
  - done.
  - by left.
  - right. split_and!; [eexists; split; [cbn; apply lookup_insert_eq|]|done|].
    { unfold RESIZE_DEBOUNCE. destruct (_ && _); lia. }
    intros s e He. assert (Hs : s ≠ next q + 1) by (apply (qi_entry _ Hq) in He as (_ & ? & _); lia).
    split; [done|]. cbn. rewrite lookup_insert_ne by done.
    destruct (superseded c e) eqn:E.
    + apply eq_None_not_Some. intros [e' [He' E']%retained_lookup]. congruence.
    + by apply retained_lookup.
Qed.

(** An operation that leaves a close alone. *)
Definition spares (s object : Z) (op : queue_op) : Prop :=
  match op with
  | QPush _ _ => True
  | QAcknowledge serial => serial ≠ s
  | QDiscard object' => object' ≠ object
  end.

Lemma close_step op q s e :
  queue_inv q → pending q !! s = Some e → cm_action (pc_command e) = CloseTask →
  spares s (cm_object (pc_command e)) op → pending (queue_step q op) !! s = Some e.
Proof.
  intros Hq He Ha. destruct op as [c now|serial|object]; cbn [spares queue_step].
  - intros _. destruct (push_cases c now q Hq) as [err|_ _|_ Hcl _ _]; [done..|]. cbn [fst].
    apply enqueued_lookup. right. split; [apply (qi_entry _ Hq) in He as (_ & ? & _); lia|].
    apply retained_lookup. split; [done|].
    pose proof (proj2 (qi_closed _ Hq s e He) Ha) as Hin. unfold superseded.
    destruct (cm_action c); rewrite ?Ha; [done|by rewrite andb_false_r|].
    apply Z.eqb_neq. congruence.
  - intros Hn. cbn. by rewrite lookup_delete_ne.
  - intros Hn. cbn. apply map_lookup_filter_Some. done.
Qed.

(** A close stays pending, under the same serial, until the framework
    acknowledges that serial or the window is retired; no later command, and no
    acknowledgement of another serial, removes it. *)
Theorem close_survives ops later s e :
  let q := queue_run ops queue_default in
  pending q !! s = Some e → cm_action (pc_command e) = CloseTask →
  Forall (spares s (cm_object (pc_command e))) later →
  pending (queue_run later q) !! s = Some e.
Proof.
  intros q He Ha Hl. assert (Hq : queue_inv q) by apply queue_run_inv, queue_default_inv.
  clearbody q. revert q Hq He. induction Hl as [|op later Hop Hl IH]; intros q Hq He; [done|].
  apply (IH (queue_step q op)); [by apply queue_step_inv|by apply close_step].
Qed.

(** ** Waking up *)

Lemma deadline_list l :
  match foldr (λ e acc, Some (from_option (Z.min (pc_ready e)) (pc_ready e) acc)) None l with
  | None => l = []
  | Some d => (∃ e, e ∈ l ∧ pc_ready e = d) ∧ ∀ e, e ∈ l → d ≤ pc_ready e
  end.
Proof.
  induction l as [|e l IH]; cbn; [done|].
  destruct (foldr _ None l) as [d|]; cbn.
  - destruct IH as [(e' & Hin & Hr) Hmin]. split.
    + destruct (Z.min_spec (pc_ready e) d) as [[? ->]|[? ->]].
      * exists e. split; [apply elem_of_cons; by left|done].
      * exists e'. split; [apply elem_of_cons; by right|done].
    + intros x [->|Hx]%elem_of_cons; [lia|]. apply Hmin in Hx. lia.
  - subst l. split; [exists e; split; [apply elem_of_cons; by left|done]|].
    intros x [->|[]%elem_of_nil]%elem_of_cons. done.
Qed.

(** The deadline is exactly the first moment at which a command is ready:
    before it there is nothing to deliver, from it on there is, and without a
    deadline nothing is pending at all. *)
Theorem deadline_is_first_ready q :
  match deadline q with
  | None => pending q = ∅ ∧ ∀ now, ready now q = None
  | Some d => ∀ now, is_Some (ready now q) ↔ d ≤ now
  end.
Proof.
  unfold deadline, ready. pose proof (deadline_list (btree_values (pending q))) as H.
  destruct (foldr _ None _) as [d|].
  - destruct H as [(e & He & Hr) Hmin]. intros now. split.
    + intros [e' [Hin Hle]%find_some]. apply list_elem_of_In, Hmin in Hin. apply Z.leb_le in Hle. lia.
    + intros Hle. destruct (find _ _) as [e'|] eqn:E; [eauto|].
      apply list_elem_of_In in He. apply (find_none _ _ E) in He. apply Z.leb_gt in He. lia.
  - split; [|by rewrite H]. apply map_empty. intros s. apply eq_None_not_Some. intros [e He].
    assert (e ∈ btree_values (pending q)) as Hin by (apply btree_values_elem; eauto).
    rewrite H in Hin. by apply elem_of_nil in Hin.
Qed.

(** ** Concrete commands *)

Definition demo_command (object : Z) (a : TaskAction) : TaskCommand := mkCommand object 42 1 0 a.

Definition demo_queue_ops : list queue_op :=
  [QPush (demo_command 7 (Resize 500 600)) 0; QPush (demo_command 7 Focus) 0;
   QPush (demo_command 7 CloseTask) 0].

Definition demo_close : PendingCommand := mkPending 3 (demo_command 7 CloseTask) 0.

Lemma close_survives_witness :
  pending (queue_run [QPush (demo_command 8 Focus) 5; QAcknowledge 1; QDiscard 8]
             (queue_run demo_queue_ops queue_default)) !! 3 = Some demo_close.
Proof.
  apply (close_survives demo_queue_ops [QPush (demo_command 8 Focus) 5; QAcknowledge 1; QDiscard 8]
           3 demo_close).
  - vm_compute. reflexivity.
  - reflexivity.
  - repeat constructor; cbn; lia.
Defined.

Definition demo_pushed : CommandQueue :=
  (push (demo_command 9 Focus) 100 (queue_run demo_queue_ops queue_default)).1.

Lemma push_coalesces_witness :
  let q := queue_run demo_queue_ops queue_default in
  (cm_object (demo_command 9 Focus) ∈ closed q ∧ demo_pushed = q)
  ∨ (∃ t, pending demo_pushed !! (next q + 1) = Some (mkPending (next q + 1) (demo_command 9 Focus) t)
          ∧ 100 ≤ t ≤ 100 + RESIZE_DEBOUNCE)
    ∧ next demo_pushed = next q + 1
    ∧ ∀ s e, pending q !! s = Some e →
        s ≠ next q + 1
        ∧ (pending demo_pushed !! s = if superseded (demo_command 9 Focus) e then None else Some e).
Proof.
  apply (push_coalesces demo_queue_ops (demo_command 9 Focus) 100 demo_pushed (Ok tt)).
  assert (E : (push (demo_command 9 Focus) 100 (queue_run demo_queue_ops queue_default)).2 = Ok tt)
    by (vm_compute; reflexivity).
  unfold demo_pushed. rewrite <- E. apply surjective_pairing.
Defined.
