(* ===== verification/WindowPolicy.v ===== *)
(** * The window policy (android/framework/droidloom-window-policy/src/lib.rs)

    Screen readiness, boot notification, window authorization and key routing,
    decided in system_server without I/O. *)

From S2P Require Import Prelude.

(** ** Constants *)

Module command.
Definition SCREEN_START : Z := 1.
Definition KEYGUARD_DRAWN : Z := 2.
Definition WINDOWS_DRAWN : Z := 3.
Definition SCREEN_OFF : Z := 4.
Definition SYSTEM_READY : Z := 5.
Definition SYSTEM_BOOTED : Z := 6.
Definition GOING_TO_SLEEP : Z := 7.
Definition BOOT_WITH_OUTPUT_OFF : Z := 8.
Definition ALLOW_LOCKSCREEN_WHEN_ON : Z := 9.
Definition CLEAR_LOCKSCREEN_DISPLAYS : Z := 10.
End command.

Module query.
Definition SCREEN_ON : Z := 1.
Definition CAN_ANIMATE : Z := 2.
Definition BOOT_ANIMATION_DISMISSIBLE : Z := 3.
Definition KEYGUARD_DRAWN_ONCE : Z := 4.
Definition SYSTEM_READY : Z := 5.
Definition SYSTEM_BOOTED : Z := 6.
Definition LOCKSCREEN_TIMER_REQUIRED : Z := 7.
End query.

Module action.
Definition NONE : Z := 0.
Definition WAIT_FOR_WINDOWS : Z := 1.
Definition COMPLETE_SCREEN : Z := 2.
Definition NOTIFY_BOOT_COMPLETED : Z := 3.
End action.

(** ** Screen state *)

Record Screen : Type := mkScreen {
  sc_generation : Z;
  sc_keyguard_drawn : bool;
  sc_windows_wait_started : bool;
  sc_complete : bool
}.

Record Policy : Type := mkPolicy {
  screens : gmap Z Screen;
  lockscreen_displays : gset Z;
  generation : Z;
  ps_ready : bool;
  booted : bool;
  going_to_sleep : bool;
  keyguard_drawn_once : bool;
  boot_with_output_off : bool;
  boot_callback_sent : bool
}.

Definition policy_default : Policy := mkPolicy ∅ ∅ 0 false false false false false false.

Definition set_screens m p := mkPolicy m (lockscreen_displays p) (generation p) (ps_ready p) (booted p)
  (going_to_sleep p) (keyguard_drawn_once p) (boot_with_output_off p) (boot_callback_sent p).
Definition set_lockscreen s p := mkPolicy (screens p) s (generation p) (ps_ready p) (booted p)
  (going_to_sleep p) (keyguard_drawn_once p) (boot_with_output_off p) (boot_callback_sent p).
Definition set_generation g p := mkPolicy (screens p) (lockscreen_displays p) g (ps_ready p) (booted p)
  (going_to_sleep p) (keyguard_drawn_once p) (boot_with_output_off p) (boot_callback_sent p).
Definition set_ready p := mkPolicy (screens p) (lockscreen_displays p) (generation p) true (booted p)
  (going_to_sleep p) (keyguard_drawn_once p) (boot_with_output_off p) (boot_callback_sent p).
Definition set_booted p := mkPolicy (screens p) (lockscreen_displays p) (generation p) (ps_ready p) true
  (going_to_sleep p) (keyguard_drawn_once p) (boot_with_output_off p) (boot_callback_sent p).
Definition set_sleep b p := mkPolicy (screens p) (lockscreen_displays p) (generation p) (ps_ready p) (booted p)
  b (keyguard_drawn_once p) (boot_with_output_off p) (boot_callback_sent p).
Definition set_drawn_once p := mkPolicy (screens p) (lockscreen_displays p) (generation p) (ps_ready p) (booted p)
  (going_to_sleep p) true (boot_with_output_off p) (boot_callback_sent p).
Definition set_output_off b p := mkPolicy (screens p) (lockscreen_displays p) (generation p) (ps_ready p) (booted p)
  (going_to_sleep p) (keyguard_drawn_once p) b (boot_callback_sent p).
Definition set_callback_sent p := mkPolicy (screens p) (lockscreen_displays p) (generation p) (ps_ready p) (booted p)
  (going_to_sleep p) (keyguard_drawn_once p) (boot_with_output_off p) true.

(** ** Commands *)

Definition boot_notification (p : Policy) : Policy * Z :=
  if ps_ready p && booted p && negb (boot_callback_sent p)
  then (set_callback_sent p, action.NOTIFY_BOOT_COMPLETED) else (p, action.NONE).

Definition pending_screen (display gen : Z) (p : Policy) : option Screen :=
  s ← screens p !! display;
  if (sc_generation s =? gen) && negb (sc_complete s) then Some s else None.

Definition screen_start (display : Z) (p : Policy) : Policy * Z :=
  match checked_add 2147483647 (generation p) 1 with
  | None => (p, action.NONE)
  | Some next =>
      let p := set_generation next p in
      let p := if display =? 0 then set_output_off false p else p in
      (set_screens (<[display := mkScreen next (negb (display =? 0)) (negb (display =? 0)) false]>
                      (screens p)) p, next)
  end.

Definition keyguard_drawn (display gen : Z) (p : Policy) : Policy * Z :=
  match pending_screen display gen p with
  | None => (p, action.NONE)
  | Some s =>
      if sc_windows_wait_started s then (p, action.NONE)
      else (set_screens (<[display := mkScreen (sc_generation s) true true (sc_complete s)]> (screens p)) p,
            action.WAIT_FOR_WINDOWS)
  end.

Definition windows_drawn (display gen : Z) (p : Policy) : Policy * Z :=
  match pending_screen display gen p with
  | None => (p, action.NONE)
  | Some s =>
      if negb (sc_keyguard_drawn s) || negb (sc_windows_wait_started s) then (p, action.NONE)
      else
        let p := set_screens
          (<[display := mkScreen (sc_generation s) (sc_keyguard_drawn s) (sc_windows_wait_started s) true]>
             (screens p)) p in
        (if display =? 0 then set_drawn_once p else p, action.COMPLETE_SCREEN)
  end.

Definition policy_command (op display gen : Z) (value : bool) (p : Policy) : Policy * Z :=
  if (op =? command.SCREEN_START) && (0 <=? display) then screen_start display p
  else if op =? command.KEYGUARD_DRAWN then keyguard_drawn display gen p
  else if op =? command.WINDOWS_DRAWN then windows_drawn display gen p
  else if op =? command.SCREEN_OFF then (set_screens (delete display (screens p)) p, action.NONE)
  else if op =? command.SYSTEM_READY then boot_notification (set_ready p)
  else if op =? command.SYSTEM_BOOTED then boot_notification (set_booted p)
  else if op =? command.GOING_TO_SLEEP then (set_sleep value p, action.NONE)
  else if op =? command.BOOT_WITH_OUTPUT_OFF then
    (set_output_off (booted p && negb (bool_decide (is_Some (screens p !! 0)))) p, action.NONE)
  else if (op =? command.ALLOW_LOCKSCREEN_WHEN_ON) && (0 <=? display) then
    (set_lockscreen (if value then {[display]} ∪ lockscreen_displays p
                     else lockscreen_displays p ∖ {[display]}) p, action.NONE)
  else if op =? command.CLEAR_LOCKSCREEN_DISPLAYS then (set_lockscreen ∅ p, action.NONE)
  else (p, action.NONE).

Definition policy_query (op display : Z) (value : bool) (p : Policy) : bool :=
  let on d := bool_decide (is_Some (screens p !! d)) in
  if op =? query.SCREEN_ON then on display
  else if op =? query.CAN_ANIMATE then (value || on 0) && negb (going_to_sleep p)
  else if op =? query.BOOT_ANIMATION_DISMISSIBLE then
    from_option sc_keyguard_drawn false (screens p !! 0) || boot_with_output_off p
  else if op =? query.KEYGUARD_DRAWN_ONCE then keyguard_drawn_once p
  else if op =? query.SYSTEM_READY then ps_ready p
  else if op =? query.SYSTEM_BOOTED then booted p
  else if op =? query.LOCKSCREEN_TIMER_REQUIRED then
    negb (bool_decide (lockscreen_displays p = ∅)) && value
  else false.

(** ** Window authorization *)

Module window.
Definition INVALID : Z := 0.
Definition APPLICATION : Z := 1.
Definition TOAST : Z := 2.
Definition TOKEN_CHECKED : Z := 3.
Definition INTERNAL : Z := 4.
Definition ALERT : Z := 5.
Definition APPLICATION_OVERLAY : Z := 6.
End window.

Module permission.
Definition ROUNDED_OVERLAY : Z := 1.
Definition INTERNAL_WINDOW : Z := Z.shiftl 1 1.
Definition SYSTEM_UID : Z := Z.shiftl 1 2.
Definition PACKAGE_CHECKED : Z := Z.shiftl 1 3.
Definition PACKAGE_EXISTS : Z := Z.shiftl 1 4.
Definition SYSTEM_OVERLAY : Z := Z.shiftl 1 5.
Definition TRUSTED_VIRTUAL_OWNER : Z := Z.shiftl 1 6.
Definition ALERT_WINDOW : Z := Z.shiftl 1 7.
End permission.

Module authorization.
Definition ALLOW : Z := 0.
Definition DENY : Z := 1.
Definition INVALID_TYPE : Z := 2.
Definition NEED_PACKAGE : Z := 3.
Definition NEED_APP_OP : Z := 4.
End authorization.

Definition has (facts flag : Z) : bool := negb (Z.land facts flag =? 0).

(** The final match on the noted app-op mode. *)
Definition app_op (facts target_sdk mode : Z) : Z :=
  if mode =? -1 then authorization.NEED_APP_OP
  else if (mode =? 0) || (mode =? 1) then authorization.ALLOW
  else if (mode =? 2) && (target_sdk <? 23) then authorization.ALLOW
  else if mode =? 2 then authorization.DENY
  else if has facts permission.ALERT_WINDOW then authorization.ALLOW else authorization.DENY.

(** The checks of the overlay kinds. *)
Definition authorize_overlay (kind facts target_sdk mode : Z) : Z :=
  if has facts permission.SYSTEM_UID then authorization.ALLOW
  else if negb (has facts permission.PACKAGE_CHECKED) then authorization.NEED_PACKAGE
  else if negb (has facts permission.PACKAGE_EXISTS)
          || (negb (kind =? window.APPLICATION_OVERLAY) && (26 <=? target_sdk)) then
    if has facts permission.INTERNAL_WINDOW then authorization.ALLOW else authorization.DENY
  else if has facts permission.SYSTEM_OVERLAY || has facts permission.TRUSTED_VIRTUAL_OWNER
  then authorization.ALLOW
  else app_op facts target_sdk mode.

Definition authorize_window (kind facts target_sdk mode : Z) : Z :=
  if has facts permission.ROUNDED_OVERLAY && negb (has facts permission.INTERNAL_WINDOW)
  then authorization.DENY
  else if kind =? window.INVALID then authorization.INVALID_TYPE
  else if (kind =? window.APPLICATION) || (kind =? window.TOAST) || (kind =? window.TOKEN_CHECKED)
  then authorization.ALLOW
  else if kind =? window.INTERNAL then
    if has facts permission.INTERNAL_WINDOW then authorization.ALLOW else authorization.DENY
  else if (kind =? window.ALERT) || (kind =? window.APPLICATION_OVERLAY)
  then authorize_overlay kind facts target_sdk mode
  else authorization.DENY.

(** ** Key routes *)

Module key.
Definition CONSUME : Z := 0.
Definition APPLICATION : Z := 1.
Definition MEDIA : Z := 2.
Definition VOLUME : Z := 3.
End key.

Definition within (lo hi code : Z) : bool := (lo <=? code) && (code <=? hi).

Definition host_key (code : Z) : bool :=
  existsb (Z.eqb code) [3; 26; 187; 220; 221; 223; 224; 276] || within 280 284 code.

Definition route_key (code : Z) (interactive injected unhandled : bool) : Z :=
  if host_key code then key.CONSUME
  else if negb unhandled && (interactive || injected) then key.APPLICATION
  else if existsb (Z.eqb code) [24; 25; 164] then key.VOLUME
  else if existsb (Z.eqb code) [79; 222] || within 85 91 code || within 126 130 code
          || within 272 275 code then key.MEDIA
  else key.CONSUME.

(** ** Histories *)

(** A command of the adapter, and the answer it gets. *)
Record request : Type := mkRequest { rq_op : Z; rq_display : Z; rq_generation : Z; rq_value : bool }.

Definition answer (r : request) (p : Policy) : Policy * Z :=
  policy_command (rq_op r) (rq_display r) (rq_generation r) (rq_value r) p.

Fixpoint policy_run (rs : list request) (p : Policy) : Policy * list (request * Z) :=
  match rs with
  | [] => (p, [])
  | r :: rs =>
      let '(p, a) := answer r p in
      let '(p, log) := policy_run rs p in
      (p, (r, a) :: log)
  end.

(** The completions reported for a screen start, and the number of boot
    notifications. *)
Definition is_completion (display gen : Z) (e : request * Z) : bool :=
  (rq_op e.1 =? command.WINDOWS_DRAWN) && (rq_display e.1 =? display)
  && (rq_generation e.1 =? gen) && (e.2 =? action.COMPLETE_SCREEN).

Definition is_wait (display gen : Z) (e : request * Z) : bool :=
  (rq_op e.1 =? command.KEYGUARD_DRAWN) && (rq_display e.1 =? display)
  && (rq_generation e.1 =? gen) && (e.2 =? action.WAIT_FOR_WINDOWS).

Definition is_boot_notification (e : request * Z) : bool :=
  ((rq_op e.1 =? command.SYSTEM_READY) || (rq_op e.1 =? command.SYSTEM_BOOTED))
  && (e.2 =? action.NOTIFY_BOOT_COMPLETED).

Definition count (f : request * Z → bool) (log : list (request * Z)) : nat := length (List.filter f log).

Lemma count_snoc f log e : count f (log ++ [e]) = (count f log + if f e then 1 else 0)%nat.
Proof. unfold count. rewrite List.filter_app, length_app. cbn. by destruct (f e). Qed.

(** *** The invariant of a policy and the log that led to it *)

Record policy_inv (log : list (request * Z)) (p : Policy) : Prop := {
  pi_generation : 0 ≤ generation p;
  pi_screen d s : screens p !! d = Some s →
    0 < sc_generation s ≤ generation p
    ∧ (sc_complete s = false → count (is_completion d (sc_generation s)) log = 0%nat)
    ∧ (d = 0 → sc_windows_wait_started s = true →
       count (is_wait 0 (sc_generation s)) log = 1%nat)
    ∧ (d = 0 → sc_windows_wait_started s = false →
       count (is_wait 0 (sc_generation s)) log = 0%nat);
  pi_fresh d g : generation p < g →
    count (is_completion d g) log = 0%nat ∧ count (is_wait d g) log = 0%nat;
  pi_once d g : (count (is_completion d g) log ≤ 1)%nat;
  pi_order g : (count (is_completion 0 g) log ≤ count (is_wait 0 g) log)%nat;
  pi_boot : count is_boot_notification log = if boot_callback_sent p then 1%nat else 0%nat;
  pi_sent : boot_callback_sent p = ps_ready p && booted p
}.

Lemma policy_default_inv : policy_inv [] policy_default.
Proof. split; cbn; try done; intros; lia. Qed.

(** An answer that no counter looks at. *)
Definition unremarkable (r : request) (a : Z) : Prop :=
  (∀ d g, is_completion d g (r, a) = false ∧ is_wait d g (r, a) = false)
  ∧ is_boot_notification (r, a) = false.

Lemma unremarkable_inv log p p' r a :
  unremarkable r a → policy_inv log p →
  (∀ d s, screens p' !! d = Some s → screens p !! d = Some s) → generation p' = generation p →
  boot_callback_sent p' = boot_callback_sent p → ps_ready p' = ps_ready p → booted p' = booted p →
  policy_inv (log ++ [(r, a)]) p'.
Proof.
  intros [Hu Hb] [H1 H2 H3 H4 H5 H6 H7] Hs Hg Hc Hr Hbt.
  assert (Hc1 : ∀ d g, count (is_completion d g) (log ++ [(r, a)]) = count (is_completion d g) log).
  { intros d g. rewrite count_snoc, (proj1 (Hu d g)). lia. }
  assert (Hc2 : ∀ d g, count (is_wait d g) (log ++ [(r, a)]) = count (is_wait d g) log).
  { intros d g. rewrite count_snoc, (proj2 (Hu d g)). lia. }
  split; rewrite ?Hg, ?Hc, ?Hr, ?Hbt; try done.
  - intros d s Hd%Hs. apply H2 in Hd. by rewrite Hc1, Hc2.
  - intros d g. rewrite Hc1, Hc2. apply H3.
  - intros d g. by rewrite Hc1.
  - intros g. by rewrite Hc1, Hc2.
  - rewrite count_snoc, Hb. lia.
Qed.

(** A log entry of one kind. *)
Lemma other_op (op : Z) r a :
  rq_op r = op →
  (op ≠ command.WINDOWS_DRAWN → ∀ d g, is_completion d g (r, a) = false)
  ∧ (op ≠ command.KEYGUARD_DRAWN → ∀ d g, is_wait d g (r, a) = false)
  ∧ (op ≠ command.SYSTEM_READY → op ≠ command.SYSTEM_BOOTED → is_boot_notification (r, a) = false).
Proof.
  intros <-. unfold is_completion, is_wait, is_boot_notification; cbn [fst snd]. split_and!; intros H *.
  - by rewrite (proj2 (Z.eqb_neq _ _)).
  - by rewrite (proj2 (Z.eqb_neq _ _)).
  - intros H'. by rewrite (proj2 (Z.eqb_neq _ _) H), (proj2 (Z.eqb_neq _ _) H').
Qed.

Lemma quiet_answer r : unremarkable r action.NONE.
Proof.
  unfold unremarkable, is_completion, is_wait, is_boot_notification; cbn [fst snd].
  split; [intros d g; split|]; by rewrite andb_false_r.
Qed.

Lemma screen_start_inv log r p :
  rq_op r = command.SCREEN_START → policy_inv log p →
  policy_inv (log ++ [(r, (screen_start (rq_display r) p).2)]) (screen_start (rq_display r) p).1.
Proof.
  intros Hop Hp. unfold screen_start, checked_add. destruct (_ <=? _) eqn:E; cbn [fst snd].
  2:{ eapply unremarkable_inv; [apply quiet_answer|done..]. }
  set (a := generation p + 1). destruct (other_op _ r a Hop) as (Hc & Hw & Hb).
  assert (Hc1 : ∀ d g, count (is_completion d g) (log ++ [(r, a)]) = count (is_completion d g) log).
  { intros d g. rewrite count_snoc, Hc by done. lia. }
  assert (Hc2 : ∀ d g, count (is_wait d g) (log ++ [(r, a)]) = count (is_wait d g) log).
  { intros d g. rewrite count_snoc, Hw by done. lia. }
  destruct Hp as [H1 H2 H3 H4 H5 H6 H7].
  set (p1 := if rq_display r =? 0 then _ else _).
  assert (Hp1 : screens p1 = screens p ∧ generation p1 = a ∧ boot_callback_sent p1 = boot_callback_sent p
                ∧ ps_ready p1 = ps_ready p ∧ booted p1 = booted p).
  { subst p1. by destruct (rq_display r =? 0). }
  destruct Hp1 as (Es & Eg & Ec & Er & Eb).
  split; cbn [screens generation boot_callback_sent ps_ready booted set_screens];
    rewrite ?Es, ?Eg, ?Ec, ?Er, ?Eb; try done.
  - subst a. lia.
  - intros d s [[<- <-]|[_ Hs]]%lookup_insert_Some; cbn.
    + rewrite !Hc1, !Hc2. destruct (H3 (rq_display r) a) as [F1 _]; [subst a; lia|].
      destruct (H3 0 a) as [_ F2]; [subst a; lia|].
      split_and!; [subst a; lia|subst a; lia|done|by intros ->|done].
    + apply H2 in Hs. rewrite Hc1, Hc2. subst a. destruct Hs as ([? ?] & ?). split; [lia|done].
  - intros d g Hg. rewrite Hc1, Hc2. apply H3. subst a. lia.
  - intros d g. by rewrite Hc1.
  - intros g. by rewrite Hc1, Hc2.
  - rewrite count_snoc, Hb by done. lia.
Qed.

Lemma pending_screen_Some d g p s :
  pending_screen d g p = Some s ↔ screens p !! d = Some s ∧ sc_generation s = g ∧ sc_complete s = false.
Proof.
  unfold pending_screen. destruct (screens p !! d) as [s'|]; cbn; [|by split; [|intros (? & _)]].
  destruct (Z.eqb_spec (sc_generation s') g), (sc_complete s') eqn:E; cbn;
    (split; [first [done|by intros [= <-]]|intros ([= <-] & Hg & Hc); congruence]).
Qed.

Lemma keyguard_drawn_inv log r p :
  rq_op r = command.KEYGUARD_DRAWN → policy_inv log p →
  let q := keyguard_drawn (rq_display r) (rq_generation r) p in policy_inv (log ++ [(r, q.2)]) q.1.
Proof.
  intros Hop Hp. unfold keyguard_drawn.
  destruct (pending_screen _ _ p) as [s|] eqn:Hs.
  2:{ eapply unremarkable_inv; [apply quiet_answer|done..]. }
  apply pending_screen_Some in Hs as (Hs & Hg & Hc).
  destruct (sc_windows_wait_started s) eqn:Hw; cbn [fst snd].
  { eapply unremarkable_inv; [apply quiet_answer|done..]. }
  set (a := action.WAIT_FOR_WINDOWS). destruct (other_op _ r a Hop) as (Ho & _ & Hb).
  assert (Hc1 : ∀ d g, count (is_completion d g) (log ++ [(r, a)]) = count (is_completion d g) log).
  { intros d g. rewrite count_snoc, Ho by done. lia. }
  assert (Hc2 : ∀ d g, count (is_wait d g) (log ++ [(r, a)])
                       = (count (is_wait d g) log + if decide (d = rq_display r ∧ g = sc_generation s) then 1 else 0)%nat).
  { intros d g. rewrite count_snoc. f_equal. unfold is_wait; cbn [fst snd].
    rewrite Hop, !Z.eqb_refl. cbn [andb]. rewrite andb_true_r, Hg.
    destruct (Z.eqb_spec (rq_display r) d) as [<-|]; cbn [andb].
    - destruct (Z.eqb_spec (rq_generation r) g) as [<-|]; [by rewrite decide_True|].
      rewrite decide_False; [done|]. intros [_ ?]. congruence.
    - rewrite decide_False; [done|]. intros [? _]. congruence. }
  destruct Hp as [H1 H2 H3 H4 H5 H6 H7].
  pose proof (H2 _ _ Hs) as (Hrange & Hno & _ & Hw0).
  split; cbn [screens generation boot_callback_sent ps_ready booted set_screens]; try done.
  - intros d s' [[<- <-]|[Hne Hs']]%lookup_insert_Some; cbn.
    + rewrite Hc1, Hc2. split_and!; [lia|lia|by intros _; apply Hno| |done].
      intros Hd _. rewrite <- Hd in *. rewrite Hw0 by done. by rewrite decide_True.
    + apply H2 in Hs' as (R & C & W1 & W0). rewrite Hc1, Hc2.
      split_and!; [lia|lia|done| |]; intros Hd Hx; subst d.
      * rewrite W1 by done. rewrite decide_False; [lia|]. intros [? _]. congruence.
      * rewrite W0 by done. rewrite decide_False; [lia|]. intros [? _]. congruence.
  - intros d g Hgt. rewrite Hc1, Hc2. destruct (H3 d g Hgt) as [-> ->]. split; [done|].
    rewrite decide_False; [done|]. intros [_ ->]. lia.
  - intros d g. by rewrite Hc1.
  - intros g. rewrite Hc1, Hc2. specialize (H5 g). lia.
  - rewrite count_snoc, Hb by done. lia.
Qed.

Lemma windows_drawn_inv log r p :
  rq_op r = command.WINDOWS_DRAWN → policy_inv log p →
  let q := windows_drawn (rq_display r) (rq_generation r) p in policy_inv (log ++ [(r, q.2)]) q.1.
Proof.
  intros Hop Hp. unfold windows_drawn.
  destruct (pending_screen _ _ p) as [s|] eqn:Hs.
  2:{ eapply unremarkable_inv; [apply quiet_answer|done..]. }
  apply pending_screen_Some in Hs as (Hs & Hg & Hc).
  destruct (_ || _) eqn:Hw; cbn [fst snd].
  { eapply unremarkable_inv; [apply quiet_answer|done..]. }
  apply orb_false_iff in Hw as [_ Hw%negb_false_iff].
  set (a := action.COMPLETE_SCREEN). destruct (other_op _ r a Hop) as (_ & Ho & Hb).
  assert (Hc2 : ∀ d g, count (is_wait d g) (log ++ [(r, a)]) = count (is_wait d g) log).
  { intros d g. rewrite count_snoc, Ho by done. lia. }
  assert (Hc1 : ∀ d g, count (is_completion d g) (log ++ [(r, a)])
      = (count (is_completion d g) log + if decide (d = rq_display r ∧ g = sc_generation s) then 1 else 0)%nat).
  { intros d g. rewrite count_snoc. f_equal. unfold is_completion; cbn [fst snd].
    rewrite Hop, !Z.eqb_refl. cbn [andb]. rewrite andb_true_r, Hg.
    destruct (Z.eqb_spec (rq_display r) d) as [<-|]; cbn [andb].
    - destruct (Z.eqb_spec (rq_generation r) g) as [<-|]; [by rewrite decide_True|].
      rewrite decide_False; [done|]. intros [_ ?]. congruence.
    - rewrite decide_False; [done|]. intros [? _]. congruence. }
  destruct Hp as [H1 H2 H3 H4 H5 H6 H7].
  pose proof (H2 _ _ Hs) as (Hrange & Hno & Hw1 & Hw0). specialize (Hno Hc).
  set (p1 := if rq_display r =? 0 then _ else _).
  assert (Hp1 : screens p1 = <[rq_display r := mkScreen (sc_generation s) (sc_keyguard_drawn s)
                    (sc_windows_wait_started s) true]> (screens p)
                ∧ generation p1 = generation p ∧ boot_callback_sent p1 = boot_callback_sent p
                ∧ ps_ready p1 = ps_ready p ∧ booted p1 = booted p).
  { subst p1. by destruct (rq_display r =? 0). }
  destruct Hp1 as (Es & Eg & Ec & Er & Eb). clearbody p1.
  split; rewrite ?Es, ?Eg, ?Ec, ?Er, ?Eb; try done.
  - intros d s' [[<- <-]|[Hne Hs']]%lookup_insert_Some; cbn.
    + rewrite Hc2. split_and!; [lia|lia|done|done|by rewrite Hw].
    + apply H2 in Hs' as (R & C & W1 & W0). rewrite Hc2.
      split_and!; [lia|lia| |done|done]. intros Hx. rewrite Hc1, C by done.
      rewrite decide_False; [lia|]. intros [? _]. congruence.
  - intros d g Hgt. rewrite Hc1, Hc2. destruct (H3 d g Hgt) as [-> ->]. split; [|done].
    rewrite decide_False; [done|]. intros [_ ->]. lia.
  - intros d g. rewrite Hc1. case_decide as Hd; [|specialize (H4 d g); lia].
    destruct Hd as [-> ->]. lia.
  - intros g. rewrite Hc1, Hc2. case_decide as Hd; [|specialize (H5 g); lia].
    destruct Hd as [Hd ->]. rewrite <- Hd in *. rewrite Hno, Hw1 by done. lia.
  - rewrite count_snoc, Hb by done. lia.
Qed.

Lemma boot_inv log r p p1 :
  policy_inv log p → (rq_op r = command.SYSTEM_READY ∧ p1 = set_ready p
                      ∨ rq_op r = command.SYSTEM_BOOTED ∧ p1 = set_booted p) →
  policy_inv (log ++ [(r, (boot_notification p1).2)]) (boot_notification p1).1.
Proof.
  intros Hp Hor.
  assert (Hop : rq_op r ≠ command.WINDOWS_DRAWN ∧ rq_op r ≠ command.KEYGUARD_DRAWN
                ∧ (rq_op r =? command.SYSTEM_READY) || (rq_op r =? command.SYSTEM_BOOTED) = true).
  { by destruct Hor as [[-> _]|[-> _]]. }
  destruct Hop as (Hn1 & Hn2 & Hb).
  assert (Hp1 : screens p1 = screens p ∧ generation p1 = generation p
                ∧ boot_callback_sent p1 = boot_callback_sent p
                ∧ (ps_ready p && booted p = true → ps_ready p1 && booted p1 = true)).
  { destruct Hor as [[_ ->]|[_ ->]]; cbn; split_and!; try done; by destruct (ps_ready p), (booted p). }
  destruct Hp1 as (Es & Eg & Ec & Emono).
  set (a := (boot_notification p1).2). set (p2 := (boot_notification p1).1).
  destruct (other_op _ r a eq_refl) as (Hc & Hw & _).
  assert (Hc1 : ∀ d g, count (is_completion d g) (log ++ [(r, a)]) = count (is_completion d g) log).
  { intros d g. rewrite count_snoc, Hc by done. lia. }
  assert (Hc2 : ∀ d g, count (is_wait d g) (log ++ [(r, a)]) = count (is_wait d g) log).
  { intros d g. rewrite count_snoc, Hw by done. lia. }
  destruct Hp as [H1 H2 H3 H4 H5 H6 H7].
  assert (Hp2 : screens p2 = screens p ∧ generation p2 = generation p
     ∧ boot_callback_sent p2 = ps_ready p2 && booted p2
     ∧ count is_boot_notification (log ++ [(r, a)]) = if boot_callback_sent p2 then 1%nat else 0%nat).
  { rewrite count_snoc, H6. unfold is_boot_notification; cbn [fst snd]. rewrite Hb. cbn [andb].
    subst a p2. unfold boot_notification. rewrite Ec.
    destruct (ps_ready p1 && booted p1) eqn:Erb; cbn [andb].
    - destruct (boot_callback_sent p) eqn:Esent; cbn; rewrite ?Es, ?Eg, ?Ec, ?Erb; by split_and!.
    - assert (boot_callback_sent p = false) as Hf.
      { rewrite H7. apply not_true_is_false. intros E%Emono. congruence. }
      rewrite Hf. cbn. rewrite ?Es, ?Eg, ?Ec, ?Erb, ?Hf. by split_and!. }
  destruct Hp2 as (Es2 & Eg2 & Hs2 & Hcnt). clearbody p2 a. split; rewrite ?Es2, ?Eg2; try done.
  - intros d s Hs. apply H2 in Hs. by rewrite Hc1, Hc2.
  - intros d g. rewrite Hc1, Hc2. apply H3.
  - intros d g. by rewrite Hc1.
  - intros g. by rewrite Hc1, Hc2.
Qed.

Lemma answer_inv log r p :
  policy_inv log p → policy_inv (log ++ [(r, (answer r p).2)]) (answer r p).1.
Proof.
  intros Hp. unfold answer, policy_command.
  repeat match goal with
  | |- context [if (rq_op r =? ?x) && ?b then _ else _] =>
      destruct (Z.eqb_spec (rq_op r) x); [destruct b|]; cbn [andb]
  | |- context [if rq_op r =? ?x then _ else _] => destruct (Z.eqb_spec (rq_op r) x)
  end; try (exfalso; congruence);
    try (by apply screen_start_inv); try (by apply keyguard_drawn_inv); try (by apply windows_drawn_inv);
    try (apply (boot_inv log r p); [done|by auto]);
    try (eapply unremarkable_inv; [apply quiet_answer|done..]).
  all: eapply unremarkable_inv; [apply quiet_answer|exact Hp| |done..]; cbn.
  all: intros d s [_ Hs]%lookup_delete_Some; done.
Qed.

Lemma policy_run_inv rs log p :
  policy_inv log p → policy_inv (log ++ (policy_run rs p).2) (policy_run rs p).1.
Proof.
  revert log p. induction rs as [|r rs IH]; intros log p Hp; cbn; [by rewrite app_nil_r|].
  pose proof (answer_inv log r p Hp) as Ha. destruct (answer r p) as [p1 a]. cbn [fst snd] in Ha.
  specialize (IH _ _ Ha). destruct (policy_run rs p1) as [p2 log2]. cbn in *. rewrite <- app_assoc in IH. exact IH.
Qed.

Lemma flags_step r p :
  ps_ready (answer r p).1 = ps_ready p || (rq_op r =? command.SYSTEM_READY)
  ∧ booted (answer r p).1 = booted p || (rq_op r =? command.SYSTEM_BOOTED).
Proof.
  assert (Hn : ∀ q, ps_ready (boot_notification q).1 = ps_ready q ∧ booted (boot_notification q).1 = booted q).
  { intros q. unfold boot_notification. by destruct (_ && _). }
  unfold answer, policy_command, screen_start, keyguard_drawn, windows_drawn.
  repeat match goal with
  | |- context [if (rq_op r =? ?x) && ?b then _ else _] =>
      destruct (Z.eqb_spec (rq_op r) x) as [E|]; [rewrite ?E; destruct b|]; cbn [andb]
  | |- context [if rq_op r =? ?x then _ else _] =>
      destruct (Z.eqb_spec (rq_op r) x) as [E|]; [rewrite ?E|]
  end; rewrite ?(proj1 (Hn _)), ?(proj2 (Hn _)); repeat case_match; cbn; rewrite ?orb_false_r, ?orb_true_r; try done.
Qed.

Lemma flags_run rs p :
  ps_ready (policy_run rs p).1 = ps_ready p || existsb (λ r, rq_op r =? command.SYSTEM_READY) rs
  ∧ booted (policy_run rs p).1 = booted p || existsb (λ r, rq_op r =? command.SYSTEM_BOOTED) rs.
Proof.
  revert p. induction rs as [|r rs IH]; intros p; cbn; [by rewrite !orb_false_r|].
  destruct (flags_step r p) as [H1 H2]. destruct (answer r p) as [p1 a]; cbn in H1, H2.
  destruct (IH p1) as [I1 I2]. destruct (policy_run rs p1) as [p2 log2]; cbn in *.
  by rewrite I1, I2, H1, H2, !orb_assoc.
Qed.

(** Each screen start is completed at most once, whatever the order of the
    callbacks, and the built-in display only after its keyguard was reported
    drawn for the same start; a stale generation completes nothing. *)
Theorem screen_completes_once rs d g :
  let log := (policy_run rs policy_default).2 in
  (count (is_completion d g) log ≤ 1)%nat
  ∧ (count (is_completion 0 g) log ≤ count (is_wait 0 g) log)%nat
  ∧ (generation (policy_run rs policy_default).1 < g → count (is_completion d g) log = 0%nat).
Proof.
  pose proof (policy_run_inv rs [] policy_default policy_default_inv) as Hp. cbn [app] in Hp.
  split_and!; [apply Hp|apply Hp|]. intros Hg. by apply (pi_fresh _ _ Hp).
Qed.

(** Android's boot-completed callback is requested exactly once, as soon as
    both the system is ready and it has booted, in either order. *)
Theorem boot_notified_once rs :
  count is_boot_notification (policy_run rs policy_default).2
  = if existsb (λ r, rq_op r =? command.SYSTEM_READY) rs
       && existsb (λ r, rq_op r =? command.SYSTEM_BOOTED) rs then 1%nat else 0%nat.
Proof.
  pose proof (policy_run_inv rs [] policy_default policy_default_inv) as Hp. cbn [app] in Hp.
  rewrite (pi_boot _ _ Hp), (pi_sent _ _ Hp). destruct (flags_run rs policy_default) as [-> ->].
  by cbn.
Qed.

(** ** Authorization and keys *)

(** An overlay window is only allowed to the system, to a holder of the
    internal permission, or to an existing package whose overlay permission
    says so; a legacy alert type is refused to every package that targets
    Android 8 or later without that permission. *)
Theorem overlay_needs_authority kind facts target_sdk mode :
  kind = window.ALERT ∨ kind = window.APPLICATION_OVERLAY →
  authorize_window kind facts target_sdk mode = authorization.ALLOW →
  has facts permission.SYSTEM_UID = true
  ∨ has facts permission.PACKAGE_CHECKED = true
    ∧ (has facts permission.INTERNAL_WINDOW = true
       ∨ has facts permission.PACKAGE_EXISTS = true
         ∧ (kind = window.APPLICATION_OVERLAY ∨ target_sdk < 26)
         ∧ (has facts permission.SYSTEM_OVERLAY = true
            ∨ has facts permission.TRUSTED_VIRTUAL_OWNER = true
            ∨ mode = 0 ∨ mode = 1 ∨ mode = 2 ∧ target_sdk < 23
            ∨ has facts permission.ALERT_WINDOW = true)).
Proof.
  intros Hk. unfold authorize_window.
  destruct (_ && negb _); [done|].
  assert ((kind =? window.INVALID) = false ∧ (kind =? window.APPLICATION) || (kind =? window.TOAST)
    || (kind =? window.TOKEN_CHECKED) = false ∧ (kind =? window.INTERNAL) = false
    ∧ (kind =? window.ALERT) || (kind =? window.APPLICATION_OVERLAY) = true) as (-> & -> & -> & ->).
  { by destruct Hk as [->| ->]. }
  unfold authorize_overlay. destruct (has facts permission.SYSTEM_UID); [by left|]. right.
  destruct (has facts permission.PACKAGE_CHECKED); [|done]. split; [done|]. cbn [negb] in *.
  destruct (has facts permission.INTERNAL_WINDOW); [by left|]. right.
  destruct (has facts permission.PACKAGE_EXISTS); [|done]. split; [done|]. cbn [negb orb] in *.
  destruct (Z.eqb_spec kind window.APPLICATION_OVERLAY), (Z.leb_spec 26 target_sdk); cbn [negb andb] in *; try done;
    (split; [first [by left|by right]|]);
    destruct (has facts permission.SYSTEM_OVERLAY), (has facts permission.TRUSTED_VIRTUAL_OWNER); cbn [orb] in *; auto;
    unfold app_op in *; destruct (Z.eqb_spec mode (-1)); try done;
    destruct (Z.eqb_spec mode 0), (Z.eqb_spec mode 1), (Z.eqb_spec mode 2), (Z.ltb_spec target_sdk 23);
    cbn [orb andb] in *; auto 8; try done; destruct (has facts permission.ALERT_WINDOW); auto 8; done.
Qed.

(** The keys the host owns never reach an application, whatever the state. *)
Lemma host_keys_consumed code interactive injected unhandled :
  host_key code = true → route_key code interactive injected unhandled = key.CONSUME.
Proof. unfold route_key. by intros ->. Qed.

Lemma overlay_needs_authority_witness :
  has 24 permission.SYSTEM_UID = true
  ∨ has 24 permission.PACKAGE_CHECKED = true
    ∧ (has 24 permission.INTERNAL_WINDOW = true
       ∨ has 24 permission.PACKAGE_EXISTS = true
         ∧ (window.ALERT = window.APPLICATION_OVERLAY ∨ 22 < 26)
         ∧ (has 24 permission.SYSTEM_OVERLAY = true
            ∨ has 24 permission.TRUSTED_VIRTUAL_OWNER = true
            ∨ 2 = 0 ∨ 2 = 1 ∨ 2 = 2 ∧ 22 < 23
            ∨ has 24 permission.ALERT_WINDOW = true)).
Proof.
  apply (overlay_needs_authority window.ALERT 24 22 2); [by left|reflexivity].
Defined.

Lemma screen_completes_once_witness :
  let log := (policy_run [mkRequest 1 0 0 false; mkRequest 2 0 1 false; mkRequest 3 0 1 false]
                policy_default).2 in
  count (is_completion 0 1) log = 1%nat ∧ count (is_completion 0 7) log = 0%nat.
Proof.
  split; [reflexivity|].
  apply (screen_completes_once [mkRequest 1 0 0 false; mkRequest 2 0 1 false; mkRequest 3 0 1 false] 0 7).
  vm_compute. reflexivity.
Defined.
