(* ===== verification/FrameworkTasks.v ===== *)
(** * Framework task registrations (android/framework/droidloom-window-policy/src/tasks.rs)

    system_server's side of the task-control channel: the registrations it
    publishes to Composer, the connection epochs that invalidate them, and the
    command stream.  The sockets are parameters indexed by the number of uses:
    [connects] says whether a connection (with its credential check) is made,
    [closed_by_peer] what a liveness probe says, [transfer] what record answers
    the bytes sent, [incoming] what record arrives on the command stream. *)

From S2P Require Import Prelude Bytes Protocol ControlCodec.

(** ** Data *)

Record Task : Type := mkTask {
  t_id : Z;
  t_incarnation : Z;
  t_user : Z;
  t_display : Z;
  t_package : rust_string
}.

#[global] Instance Task_eq_dec : EqDecision Task.
Proof. solve_decision. Defined.

Record Binding : Type := mkBinding {
  bn_object : Z;
  bn_display : Z;
  bn_android_display : Z;
  bn_task : Z
}.

(** The request counter of a live connection. *)
Record Client : Type := mkClient { cl_request : Z }.

#[global] Instance Client_eq_dec : EqDecision Client.
Proof. solve_decision. Defined.

Record Backend : Type := mkBackend {
  bk_client : option Client;
  bk_epoch : Z;
  registered : gmap Z (Task * Binding * Z);
  bk_uses : nat;
  bk_bound : list (Z * Task * Binding)
}.

(** [bk_uses] counts the uses of the socket and [bk_bound] logs, with the epoch,
    the bindings that Composer acknowledged; no operation reads the log. *)
Definition backend_new : Backend := mkBackend None 0 ∅ 0 [].

Inductive BackendError : Type :=
| ConnectFailed | IncompatibleHandshake | RequestExhausted | EncodeFailed (e : CodecError)
| TransferFailed | ReplyDescriptors | DecodeFailed (e : CodecError) | NotAttached
| EpochExhausted | Disconnected | InvalidBinding (reply : ControlResponse)
| RemovalDeferred (code : ControlErrorCode) (message : rust_string) | RemovalFailed.

Definition set_client c b := mkBackend c (bk_epoch b) (registered b) (bk_uses b) (bk_bound b).
Definition set_epoch e b := mkBackend (bk_client b) e (registered b) (bk_uses b) (bk_bound b).
Definition set_registered m b := mkBackend (bk_client b) (bk_epoch b) m (bk_uses b) (bk_bound b).
Definition count_use b := mkBackend (bk_client b) (bk_epoch b) (registered b) (S (bk_uses b)) (bk_bound b).
Definition log_bound x b := mkBackend (bk_client b) (bk_epoch b) (registered b) (bk_uses b) (bk_bound b ++ [x]).

Definition bmethod := method Backend BackendError.

(** The separate connection of the command receiver. *)
Record CommandStream : Type := mkStream {
  cs_client : option Client;
  cs_pending : option Z;
  cs_uses : nat
}.

Definition stream_new : CommandStream := mkStream None None 0.

Definition set_stream_client c s := mkStream c (cs_pending s) (cs_uses s).
Definition set_stream_pending p s := mkStream (cs_client s) p (cs_uses s).

Inductive StreamError : Type :=
| NotAcknowledged | SubscriptionFailed | StreamDisconnected | UnexpectedRecord | SerialMismatch
| SendFailed | StreamEncode (e : CodecError) | ClientError (e : BackendError).

(** What both connections of the framework count. *)
Class Socketed (St : Type) : Type := { so_uses : St → nat; so_count : St → St }.

#[global] Instance Backend_Socketed : Socketed Backend := {| so_uses := bk_uses; so_count := count_use |}.
#[global] Instance CommandStream_Socketed : Socketed CommandStream :=
  {| so_uses := cs_uses; so_count := λ s, mkStream (cs_client s) (cs_pending s) (S (cs_uses s)) |}.

Record CommandBinding : Type := mkCommandBinding {
  cb_serial : Z;
  cb_task : Z;
  cb_incarnation : Z;
  cb_android_display : Z;
  cb_kind : Z;
  cb_width : Z;
  cb_height : Z
}.

Section Framework.
Context (connects : nat → bool) (closed_by_peer : nat → bool)
        (transfer : nat → list Z → option (list Z * nat)).

(** ** The client *)

(** [decode_response] of a record without descriptors. *)
Definition read_reply (record : list Z * nat) : result BackendError ControlResponse :=
  if (record.2 =? 0)%nat then map_err DecodeFailed (decode_response record.1) else Err ReplyDescriptors.

Definition exchange {St} `{Socketed St} (request : ControlRequest)
  : method St BackendError ControlResponse :=
  bytes ← lift (map_err EncodeFailed (encode_request request));
  k ← gets so_uses;
  modify so_count;;
  record ← lift (ok_or (transfer k bytes) TransferFailed);
  lift (read_reply record).

Definition hello : ControlRequest := HelloRequest PROTOCOL_MAJOR PROTOCOL_MAJOR.

Definition client_connect {St} `{Socketed St} : method St BackendError Client :=
  k ← gets so_uses;
  modify so_count;;
  require (connects k) ConnectFailed;;
  reply ← exchange hello;
  match reply with
  | ServerHelloResponse major minor =>
      if (major =? PROTOCOL_MAJOR) && (PROTOCOL_MINOR <=? minor) then mret (mkClient 0)
      else throw IncompatibleHandshake
  | _ => throw IncompatibleHandshake
  end.

(** [client.next()]: the identity is the new value of the counter. *)
Definition next_request (c : Client) : result BackendError Client :=
  n ← ok_or (checked_add u64_max (cl_request c) 1) RequestExhausted; mret (mkClient n).

(** On the backend's own client. *)
Definition client_next : bmethod Z :=
  c ← gets bk_client;
  c ← lift (ok_or c Disconnected);
  c ← lift (next_request c);
  modify (set_client (Some c));;
  mret (cl_request c).

(** ** The backend *)

Definition disconnect : bmethod unit := modify (set_client None).

Definition probe : bmethod unit :=
  c ← gets bk_client;
  match c with
  | None => mret tt
  | Some _ =>
      k ← gets bk_uses;
      modify count_use;;
      if closed_by_peer k then disconnect else mret tt
  end.

Definition reconnect : bmethod unit :=
  c ← gets bk_client;
  match c with
  | Some _ => mret tt
  | None =>
      client ← client_connect;
      modify (set_client (Some client));;
      e ← gets bk_epoch;
      next ← lift (ok_or (checked_add u64_max e 1) EpochExhausted);
      modify (set_epoch next)
  end.

Definition epoch : bmethod Z := probe;; reconnect;; gets bk_epoch.

(** The identities of a [Bound] reply that are accepted. *)
Definition accept_binding (request_id : Z) (task : Task) (reply : ControlResponse)
  : result BackendError Binding :=
  match reply with
  | Bound actual object actual_task display android_display =>
      if (actual =? request_id) && (actual_task =? t_id task) && (android_display =? t_display task)
         && (0 <? object) && (object <=? i64_max) && (0 <? display) && (display <=? i64_max)
      then Ok (mkBinding object display android_display (t_id task))
      else Err (InvalidBinding reply)
  | _ => Err (InvalidBinding reply)
  end.

Definition register_inner (task : Task) (activate : bool) : bmethod Binding :=
  request_id ← client_next;
  reply ← exchange (PublishFramework request_id (t_package task) (t_id task) (t_display task)
                      (t_incarnation task) activate);
  lift (accept_binding request_id task reply).

(** What a [Remove] reply means: the registration is gone, or an error, with the
    connection kept or dropped. *)
Definition removal_reply (request_id object : Z) (reply : result BackendError ControlResponse)
  : bmethod unit :=
  match reply with
  | Ok (Removed actual removed) =>
      if (actual =? request_id) && (removed =? object) then mret tt
      else disconnect;; throw RemovalFailed
  | Ok (ErrorResponse actual code message) =>
      if actual =? request_id then
        match code with CodeNotFound => mret tt | _ => throw (RemovalDeferred code message) end
      else disconnect;; throw RemovalFailed
  | _ => disconnect;; throw RemovalFailed
  end.

Definition remove_registered (task object : Z) : bmethod unit :=
  epoch;;
  request_id ← client_next;
  reply ← attempt (exchange (RemoveRequest request_id object));
  removal_reply request_id object reply;;
  modify (λ b, set_registered (delete task (registered b)) b).

Definition backend_retire (task incarnation : Z) : bmethod unit :=
  m ← gets registered;
  match m !! task with
  | None => mret tt
  | Some (known, binding, _) =>
      if negb (t_incarnation known =? incarnation) then mret tt
      else remove_registered task (bn_object binding)
  end.

Definition attached (task : Task) : bool :=
  (t_user task =? 0) && (t_display task =? 0) && negb (t_incarnation task =? 0)
  && negb (t_id task =? 0) && (t_id task <=? i32_max).

(** The registration itself; an error drops the connection. *)
Definition publish_new (task : Task) (activate : bool) : bmethod Binding :=
  r ← attempt (register_inner task activate);
  match r with
  | Ok binding =>
      e ← gets bk_epoch;
      modify (λ b, set_registered (<[t_id task := (task, binding, e)]> (registered b)) b);;
      modify (log_bound (e, task, binding));;
      mret binding
  | Err error => disconnect;; throw error
  end.

Definition backend_publish (task : Task) (activate : bool) : bmethod Binding :=
  require (attached task) NotAttached;;
  epoch;;
  b ← get;
  match registered b !! t_id task with
  | Some (known, binding, e) =>
      if bool_decide (known = task) && (bk_epoch b =? e) && negb activate then mret binding
      else
        (if decide (known = task) then mret tt
         else backend_retire (t_id known) (t_incarnation known));;
        publish_new task activate
  | None => publish_new task activate
  end.

(** ** Commands *)

Definition command_kind (a : TaskAction) : Z * Z * Z :=
  match a with Focus => (1, 0, 0) | Resize width height => (2, width, height) | CloseTask => (3, 0, 0) end.

Definition resolve_command (serial : Z) (command : TaskCommand) (b : Backend) : option CommandBinding :=
  if (serial =? 0) || (i64_max <? serial) then None else
  match command_validate command with
  | Err _ => None
  | Ok _ =>
      '(task, binding, e) ← registered b !! cm_task command;
      if negb (bn_object binding =? cm_object command)
         || negb (t_incarnation task =? cm_incarnation command)
         || negb (t_display task =? cm_android_display command)
         || negb (t_user task =? 0) || negb (e =? bk_epoch b)
      then None else
      let '(kind, width, height) := command_kind (cm_action command) in
      Some (mkCommandBinding serial (t_id task) (t_incarnation task) (t_display task) kind width height)
  end.

(** ** The command stream *)

(** [incoming k] is the record that the [k]-th wait delivers, [sends k] whether an
    acknowledgement could be written. *)
Context (incoming : nat → option (list Z * nat)) (sends : nat → list Z → bool).

Definition smethod := method CommandStream StreamError.

(** Reporting a client error as the stream's own. *)
Definition as_client {A} (m : method CommandStream BackendError A) : smethod A :=
  λ s, let '(s', r) := m s in (s', map_err ClientError r).

Definition subscribe : smethod unit :=
  client ← as_client client_connect;
  client ← lift (map_err ClientError (next_request client));
  reply ← as_client (exchange (Subscribe (cl_request client)));
  match reply with
  | Subscribed actual =>
      if actual =? cl_request client then modify (set_stream_client (Some client))
      else throw SubscriptionFailed
  | _ => throw SubscriptionFailed
  end.

(** [wait_readable] and [receive]. *)
Definition next_record : smethod ControlResponse :=
  k ← gets cs_uses;
  modify so_count;;
  record ← lift (ok_or (incoming k) (ClientError TransferFailed));
  lift (map_err ClientError (read_reply record)).

Definition stream_receive : smethod (Z * TaskCommand) :=
  p ← gets cs_pending;
  reject (bool_decide (is_Some p)) NotAcknowledged;;
  c ← gets cs_client;
  (if decide (c = None) then subscribe else mret tt);;
  reply ← next_record;
  match reply with
  | TaskCommandMsg serial command =>
      modify (set_stream_pending (Some serial));;
      mret (serial, command)
  | _ => throw UnexpectedRecord
  end.

(** An error of either call drops the connection. *)
Definition or_reset {A} (m : smethod A) : smethod A :=
  λ s, match m s with
       | (s', Ok a) => (s', Ok a)
       | (s', Err e) => (mkStream None None (cs_uses s'), Err e)
       end.

Definition stream_next : smethod (Z * TaskCommand) := or_reset stream_receive.

Definition stream_acknowledge (serial : Z) : smethod unit :=
  or_reset (
    p ← gets cs_pending;
    reject (negb (bool_decide (p = Some serial))) SerialMismatch;;
    c ← gets cs_client;
    reject (bool_decide (c = None)) StreamDisconnected;;
    bytes ← lift (map_err StreamEncode (encode_request (Acknowledge serial)));
    k ← gets cs_uses;
    modify so_count;;
    require (sends k bytes) SendFailed;;
    modify (set_stream_pending None)).

(** ** What an operation can change *)

(** Reads a move off a run. *)
Ltac moved R H := apply (moves_run R) in H; [|apply _].


(** Socket traffic: registrations stay, the epoch never goes back. *)
Definition traffic (b b' : Backend) : Prop :=
  registered b' = registered b ∧ bk_bound b' = bk_bound b ∧ bk_epoch b ≤ bk_epoch b'.

#[local] Instance traffic_preorder : PreOrder traffic.
Proof.
  split.
  - intros b. by split_and!.
  - intros a b c (H1 & H2 & H3) (H4 & H5 & H6). unfold traffic. rewrite H4, H5. split_and!; (done || lia).
Qed.

#[local] Instance exchange_traffic request : Moves traffic (exchange (St := Backend) request).
Proof. unfold exchange. solve_moves; intros; by split_and!. Qed.

#[local] Instance client_connect_traffic : Moves traffic (client_connect (St := Backend)).
Proof. unfold client_connect. solve_moves; intros; by split_and!. Qed.

#[local] Instance client_next_traffic : Moves traffic client_next.
Proof. unfold client_next. solve_moves; intros; by split_and!. Qed.

#[local] Instance disconnect_traffic : Moves traffic disconnect.
Proof. unfold disconnect. solve_moves; intros; by split_and!. Qed.

#[local] Instance probe_traffic : Moves traffic probe.
Proof. unfold probe. solve_moves; intros; by split_and!. Qed.

#[local] Instance reconnect_traffic : Moves traffic reconnect.
Proof.
  intros b. unfold reconnect, mbind, method_bind, gets. destruct (bk_client b); [by split_and!|].
  destruct (client_connect b) as [b1 [c|e]] eqn:E; apply (moves_run traffic) in E; try apply _; [|done].
  cbn. unfold checked_add, lift, ok_or. cbn. destruct E as (H1 & H2 & H3).
  destruct (_ <=? _); cbn; split_and!; cbn; (done || lia).
Qed.

#[local] Instance epoch_traffic : Moves traffic epoch.
Proof. unfold epoch. solve_moves. Qed.

#[local] Instance register_inner_traffic task activate : Moves traffic (register_inner task activate).
Proof. unfold register_inner. solve_moves. Qed.

#[local] Instance removal_reply_traffic request_id object reply :
  Moves traffic (removal_reply request_id object reply).
Proof. unfold removal_reply. solve_moves. Qed.

(** One task's registration may be removed; the others stay. *)
Definition retiring (task : Z) (b b' : Backend) : Prop :=
  (registered b' = registered b ∨ registered b' = delete task (registered b))
  ∧ bk_bound b' = bk_bound b ∧ bk_epoch b ≤ bk_epoch b'.

#[local] Instance retiring_preorder task : PreOrder (retiring task).
Proof.
  split.
  - intros b. split_and!; auto. lia.
  - intros a b c (H1 & H2 & H3) (H4 & H5 & H6). unfold retiring. rewrite H5, H2. split_and!; [|done|lia].
    destruct H1 as [E1|E1], H4 as [E4|E4]; rewrite E4, E1; auto. right. apply delete_delete_eq.
Qed.

#[local] Instance traffic_retiring {A} task (m : bmethod A) : Moves traffic m → Moves (retiring task) m.
Proof. intros H s. destruct (H s) as (H1 & H2 & H3). split_and!; auto. Qed.

#[local] Instance remove_registered_retiring task object : Moves (retiring task) (remove_registered task object).
Proof. unfold remove_registered. solve_moves. intros s. split_and!; [by right|done|cbn; lia]. Qed.

#[local] Instance backend_retire_retiring task incarnation : Moves (retiring task) (backend_retire task incarnation).
Proof. unfold backend_retire. solve_moves. Qed.

(** ** The invariant *)

(** What Composer acknowledged for a registration. *)
Record registration_ok (b : Backend) (id : Z) (t : Task) (bn : Binding) (e : Z) : Prop := {
  rg_id : t_id t = id;
  rg_task : bn_task bn = id;
  rg_object : 0 < bn_object bn ≤ i64_max;
  rg_attached : attached t = true;
  rg_epoch : 0 < e ≤ bk_epoch b;
  rg_bound : (e, t, bn) ∈ bk_bound b
}.

Record backend_inv (b : Backend) : Prop := {
  bi_epoch : 0 ≤ bk_epoch b;
  bi_live : is_Some (bk_client b) → 0 < bk_epoch b;
  bi_registered id t bn e : registered b !! id = Some (t, bn, e) → registration_ok b id t bn e
}.

Lemma backend_new_inv : backend_inv backend_new.
Proof. split; [done|by intros [? ?]|done]. Qed.

(** An operation that keeps the invariant. *)
Definition sound (b b' : Backend) : Prop := backend_inv b → backend_inv b'.

#[local] Instance sound_preorder : PreOrder sound.
Proof. split; [by intros b Hb|]. intros a b c H1 H2 Ha. by apply H2, H1. Qed.

(** Registrations only depend on the epoch and the log. *)
Lemma backend_inv_transfer b b' :
  backend_inv b → registered b' = registered b → bk_bound b' = bk_bound b → bk_epoch b ≤ bk_epoch b' →
  (is_Some (bk_client b') → 0 < bk_epoch b') → backend_inv b'.
Proof.
  intros [H1 H2 H3] Hr Hb He Hl. split; [lia|done|]. intros id t bn e. rewrite Hr.
  intros [R1 R2 R3 R4 R5 R6]%H3. split; try done; [lia|by rewrite Hb].
Qed.

#[local] Instance exchange_sound request : Moves sound (exchange (St := Backend) request).
Proof. unfold exchange. solve_moves. intros b Hb. by apply (backend_inv_transfer b); try apply Hb. Qed.

#[local] Instance client_connect_sound : Moves sound (client_connect (St := Backend)).
Proof. unfold client_connect. solve_moves. intros b Hb. by apply (backend_inv_transfer b); try apply Hb. Qed.

Lemma client_next_run b b' r :
  client_next b = (b', r) →
  b' = b ∧ is_ok r = false ∨ is_Some (bk_client b) ∧ ∃ c, b' = set_client (Some c) b.
Proof.
  unfold client_next, mbind at 1 2 3 4, method_bind at 1 2 3 4, gets, lift, ok_or, modify, mret, method_ret.
  destruct (bk_client b) as [c|]; [|intros [= <- <-]; by left].
  destruct (next_request c); intros [= <- <-]; [right; eauto|by left].
Qed.

#[local] Instance client_next_sound : Moves sound client_next.
Proof.
  intros b Hb. destruct (client_next b) as [b' r] eqn:E.
  apply client_next_run in E as [[-> _]|(Hs & c & ->)]; [done|].
  apply (backend_inv_transfer b); try done. intros _. by apply Hb.
Qed.

#[local] Instance disconnect_sound : Moves sound disconnect.
Proof.
  unfold disconnect. solve_moves. intros b Hb. apply (backend_inv_transfer b); try done. by intros [? ?].
Qed.

#[local] Instance probe_sound : Moves sound probe.
Proof. unfold probe. solve_moves. intros b Hb. by apply (backend_inv_transfer b); try apply Hb. Qed.

#[local] Instance reconnect_sound : Moves sound reconnect.
Proof.
  intros b Hb. unfold reconnect, mbind, method_bind, gets. destruct (bk_client b); [done|].
  pose proof (client_connect_sound b Hb) as H1.
  destruct (client_connect b) as [b1 [c|e]]; [|done]. cbn in H1 |- *.
  unfold checked_add, lift, ok_or. destruct (Z.leb_spec (bk_epoch b1 + 1) u64_max); cbn.
  - apply (backend_inv_transfer b1); cbn; try done; [lia|]. pose proof (bi_epoch _ H1). intros _. lia.
  - apply (backend_inv_transfer b1); cbn; try done. intros _. unfold_ints. lia.
Qed.

#[local] Instance epoch_sound : Moves sound epoch.
Proof. unfold epoch. solve_moves. Qed.

#[local] Instance register_inner_sound task activate : Moves sound (register_inner task activate).
Proof. unfold register_inner. solve_moves. Qed.

#[local] Instance removal_reply_sound request_id object reply :
  Moves sound (removal_reply request_id object reply).
Proof. unfold removal_reply. solve_moves. Qed.

#[local] Instance remove_registered_sound task object : Moves sound (remove_registered task object).
Proof.
  unfold remove_registered. solve_moves. intros b [H1 H2 H3]. split; [done|done|].
  cbn. intros id t bn e [_ H]%lookup_delete_Some. by apply H3 in H as [].
Qed.

#[local] Instance backend_retire_sound task incarnation : Moves sound (backend_retire task incarnation).
Proof. unfold backend_retire. solve_moves. Qed.

Lemma accept_binding_Ok id task reply bn :
  accept_binding id task reply = Ok bn →
  bn_task bn = t_id task ∧ bn_android_display bn = t_display task ∧ 0 < bn_object bn ≤ i64_max
  ∧ 0 < bn_display bn ≤ i64_max.
Proof.
  unfold accept_binding. destruct reply; try done. destruct (_ && _) eqn:E; [|done]. intros [= <-]. reflect.
  destruct_and?. cbn. split_and!; (done || lia).
Qed.

(** A registration that succeeds was acknowledged on the live connection. *)
Lemma register_inner_Ok task activate b b' bn :
  backend_inv b → register_inner task activate b = (b', Ok bn) →
  0 < bk_epoch b' ∧ bn_task bn = t_id task ∧ 0 < bn_object bn ≤ i64_max.
Proof.
  intros Hb. unfold register_inner. intros H. inv_method.
  assert (Hlive : 0 < bk_epoch s).
  { apply client_next_run in Hm as [[_ ?]|(Hs & c & ->)]; [done|]. cbn. by apply (bi_live _ Hb). }
  apply (moves_run traffic) in Hm0 as (_ & _ & He); [|apply _].
  apply accept_binding_Ok in H as (? & _ & ? & _). split_and!; (done || lia).
Qed.

#[local] Instance publish_new_sound task activate :
  attached task = true → Moves sound (publish_new task activate).
Proof.
  intros Hat b Hb. unfold publish_new, attempt, mbind, method_bind.
  pose proof (register_inner_sound task activate b Hb) as H1.
  destruct (register_inner task activate b) as [b1 [bn|err]] eqn:E.
  2:{ by apply disconnect_sound. }
  apply register_inner_Ok in E as (He & Ht & Ho); [|done]. cbn in H1 |- *.
  destruct H1 as [I1 I2 I3]. split; [done|done|]. cbn.
  intros id t bn' e [[<- [= <- <- <-]]|[Hne H]]%lookup_insert_Some.
  - split; cbn; try done; try lia. apply elem_of_app. right. by apply list_elem_of_singleton.
  - apply I3 in H as [R1 R2 R3 R4 R5 R6]. split; try done. cbn. apply elem_of_app. by left.
Qed.

#[local] Instance backend_publish_sound task activate : Moves sound (backend_publish task activate).
Proof.
  unfold backend_publish. destruct (attached task) eqn:Hat.
  - pose proof (publish_new_sound task activate Hat). solve_moves.
  - by intros b Hb.
Qed.

(** Publishing one task leaves the other registrations alone. *)
Definition publishing (task : Z) (b b' : Backend) : Prop :=
  ∀ id, id ≠ task → registered b' !! id = registered b !! id.

#[local] Instance publishing_preorder task : PreOrder (publishing task).
Proof. split; [done|]. intros a b c H1 H2 id Hid. by rewrite H2, H1. Qed.

#[local] Instance retiring_publishing {A} task (m : bmethod A) :
  Moves (retiring task) m → Moves (publishing task) m.
Proof.
  intros H b id Hid. destruct (H b) as ([-> | ->] & _); [done|]. by rewrite lookup_delete_ne.
Qed.

Lemma publish_new_publishing task activate : Moves (publishing (t_id task)) (publish_new task activate).
Proof.
  unfold publish_new. solve_moves; intros b id Hid; cbn; [by rewrite lookup_insert_ne|done].
Qed.

Lemma backend_publish_publishing task activate b b' r :
  backend_inv b → backend_publish task activate b = (b', r) → publishing (t_id task) b b'.
Proof.
  intros Hb. unfold backend_publish. pose proof (publish_new_publishing task activate) as Hnew.
  intros [(e & H & _)|(b1 & u & H1 & H)]%m_bind_run; [by moved (publishing (t_id task)) H|].
  pose proof H1 as S1. moved sound S1. moved (publishing (t_id task)) H1. etrans; [exact H1|].
  apply m_bind_run in H as [(e & H & _)|(b2 & n & H2 & H)]; [by moved (publishing (t_id task)) H|].
  pose proof H2 as S2. moved sound S2. moved (publishing (t_id task)) H2. etrans; [exact H2|].
  apply S1, S2 in Hb as Hb2. unfold mbind at 1, method_bind at 1, get in H.
  destruct (registered b2 !! t_id task) as [[[known bn] e]|] eqn:Hk; [|by moved (publishing (t_id task)) H].
  destruct (_ && _ && _); [injection H as <- _; done|].
  pose proof (rg_id _ _ _ _ _ (bi_registered _ Hb2 _ _ _ _ Hk)) as Hid. revert H.
  case_decide as Hd; [|rewrite Hid]; intros H; by moved (publishing (t_id task)) H.
Qed.

(** ** Histories *)

Inductive task_op : Type :=
| FRegister (task : Task)
| FActivate (task : Task)
| FRetire (task incarnation : Z)
| FEpoch.

Definition task_step (b : Backend) (op : task_op) : Backend :=
  match op with
  | FRegister task => (backend_publish task false b).1
  | FActivate task => (backend_publish task true b).1
  | FRetire task incarnation => (backend_retire task incarnation b).1
  | FEpoch => (epoch b).1
  end.

Definition task_run (ops : list task_op) : Backend := foldl task_step backend_new ops.

Lemma task_run_inv ops : backend_inv (task_run ops).
Proof.
  unfold task_run. pose proof backend_new_inv as Hb. revert Hb. generalize backend_new.
  induction ops as [|op ops IH]; intros b Hb; [done|]. apply (IH (task_step b op)).
  destruct op; cbn.
  - by apply (backend_publish_sound task false).
  - by apply (backend_publish_sound task true).
  - by apply (backend_retire_sound task incarnation).
  - by apply epoch_sound.
Qed.

Lemma resolve_command_Some serial c b cb :
  resolve_command serial c b = Some cb →
  ∃ t bn, registered b !! cm_task c = Some (t, bn, bk_epoch b)
    ∧ bn_object bn = cm_object c ∧ t_incarnation t = cm_incarnation c ∧ t_display t = cm_android_display c
    ∧ command_validate c = Ok tt ∧ serial ≠ 0
    ∧ cb_task cb = t_id t ∧ cb_incarnation cb = t_incarnation t ∧ cb_serial cb = serial.
Proof.
  unfold resolve_command. destruct (_ || _) eqn:Hs; [done|].
  destruct (command_validate c) as [[]|] eqn:Hv; [|done].
  destruct (registered b !! cm_task c) as [[[t bn] e]|] eqn:Hk; [|done]. cbn.
  destruct (_ || _ || _ || _ || _) eqn:E; [done|].
  destruct (command_kind _) as [[k w] h]. intros [= <-]. reflect. destruct_and?. subst.
  exists t, bn. by split_and!.
Qed.

(** C16: a host command is only handed to the framework for the task incarnation
    that is registered under its id now, whose window object Composer
    acknowledged on the current connection; commands for an old window, a
    reused task id or an earlier connection resolve to nothing. *)
Theorem command_resolves_current ops serial c cb :
  let b := task_run ops in
  resolve_command serial c b = Some cb →
  ∃ t bn, registered b !! cm_task c = Some (t, bn, bk_epoch b) ∧ (bk_epoch b, t, bn) ∈ bk_bound b
    ∧ t_id t = cm_task c ∧ t_incarnation t = cm_incarnation c ∧ bn_object bn = cm_object c
    ∧ attached t = true ∧ cb_task cb = cm_task c ∧ cb_incarnation cb = cm_incarnation c.
Proof.
  intros b (t & bn & Hk & Ho & Hi & _ & _ & _ & Ht & Hci & _)%resolve_command_Some.
  destruct (bi_registered _ (task_run_inv ops) _ _ _ _ Hk) as [R1 R2 R3 R4 R5 R6].
  exists t, bn. split_and!; (done || congruence).
Qed.

(** A reconnection invalidates every registration: until a task is published
    again no command resolves to it. *)
Theorem reconnect_invalidates_commands ops b' r :
  epoch (task_run ops) = (b', r) → bk_epoch b' ≠ bk_epoch (task_run ops) →
  ∀ serial c, resolve_command serial c b' = None.
Proof.
  intros E Hne serial c. apply (moves_run traffic) in E as (Hr & _ & He); [|apply _].
  destruct (resolve_command serial c b') as [cb|] eqn:Hc; [|done].
  apply resolve_command_Some in Hc as (t & bn & Hk & _). rewrite Hr in Hk.
  apply (bi_registered _ (task_run_inv ops)), rg_epoch in Hk. lia.
Qed.

(** A deferred removal is only reported for Composer's own answer. *)
Definition undeferred {A} (m : bmethod A) : Prop :=
  ∀ b b' code message, m b ≠ (b', Err (RemovalDeferred code message)).

Lemma undeferred_bind {A B} (m : bmethod A) (f : A → bmethod B) :
  undeferred m → (∀ a, undeferred (f a)) → undeferred (m ≫= f).
Proof.
  intros Hm Hf b b' code message [H|(b1 & a & H1 & H)]%m_bind_Err; [by eapply Hm|by eapply Hf].
Qed.

Lemma undeferred_total {A} (m : bmethod A) : Total m → undeferred m.
Proof. intros Hm b b' code message H. specialize (Hm b). by rewrite H in Hm. Qed.

Lemma undeferred_lift {A} (r : result BackendError A) :
  (∀ code message, r ≠ Err (RemovalDeferred code message)) → undeferred (lift r).
Proof. intros Hr b b' code message [= _ H]. by eapply Hr. Qed.

Lemma undeferred_map_err {A} (f : CodecError → BackendError) (r : result CodecError A) code message :
  (∀ e, f e ≠ RemovalDeferred code message) → map_err f r ≠ Err (RemovalDeferred code message).
Proof. intros Hf. destruct r; cbn; [done|]. intros [= H]. by eapply Hf. Qed.

Lemma undeferred_gets {A} (f : Backend → A) : undeferred (gets f).
Proof. done. Qed.

Lemma undeferred_throw {A} (e : BackendError) :
  (∀ code message, e ≠ RemovalDeferred code message) → undeferred (A := A) (throw e).
Proof. intros He b b' code message [= _ H]. by eapply He. Qed.

Lemma undeferred_require x (e : BackendError) :
  (∀ code message, e ≠ RemovalDeferred code message) → undeferred (require x e).
Proof. intros He b b' code message. unfold require. destruct x; [done|]. intros [= _ H]. by eapply He. Qed.

Ltac undefer :=
  repeat (intros;
    first [ done
          | apply undeferred_bind
          | apply undeferred_gets
          | apply undeferred_total; apply _
          | apply undeferred_lift
          | apply undeferred_require
          | apply undeferred_throw
          | apply undeferred_map_err
          | case_match ]).

Lemma exchange_undeferred request : undeferred (exchange (St := Backend) request).
Proof.
  unfold exchange, read_reply. undefer; try (destruct (transfer _ _); done).
Qed.

Lemma epoch_undeferred : undeferred epoch.
Proof.
  unfold epoch, probe, reconnect, client_connect, disconnect.
  undefer; try (destruct (transfer _ _); done); try (destruct (checked_add _ _ _); done).
  intros code message. unfold read_reply. by case_match; [destruct (decode_response _)|].
Qed.

Lemma client_next_undeferred : undeferred client_next.
Proof.
  unfold client_next, next_request. undefer; try (destruct (checked_add _ _ _); done).
  by destruct a.
Qed.

(** A deferred removal leaves the registrations and a live connection. *)
Lemma deferred_keeps task object b b' code message :
  remove_registered task object b = (b', Err (RemovalDeferred code message)) →
  registered b' = registered b ∧ is_Some (bk_client b').
Proof.
  unfold remove_registered.
  intros [H|(b1 & n & H1 & H)]%m_bind_Err; [by apply epoch_undeferred in H|].
  apply m_bind_Err in H as [H|(b2 & id & H2 & H)]; [by apply client_next_undeferred in H|].
  apply m_bind_Err in H as [H|(b3 & reply & H3 & H)].
  { unfold attempt in H. by destruct (exchange _ b2). }
  apply m_bind_Err in H as [H|(b4 & u & H4 & H)]; [|done].
  assert (b' = b3) as ->.
  { revert H. unfold removal_reply. destruct reply as [[]|]; try done.
    - by destruct (_ && _).
    - destruct (_ =? _); [|done]. by destruct code0; intros [= <-]. }
  assert (Hlive : is_Some (bk_client b2)).
  { apply client_next_run in H2 as [[_ ?]|(_ & c & ->)]; [done|]. cbn. eauto. }
  assert (Hcl : bk_client b3 = bk_client b2).
  { revert H3. unfold attempt. destruct (exchange _ b2) as [b5 r5] eqn:E. intros [= <- _].
    revert E. unfold exchange, mbind, method_bind, lift, gets, modify, map_err, ok_or.
    destruct (encode_request _); [|by intros [= <- _]]. destruct (transfer _ _); by intros [= <- _]. }
  moved traffic H1. moved traffic H2. moved traffic H3.
  destruct H1 as [H1 _], H2 as [H2 _], H3 as [H3 _]. split; [congruence|by rewrite Hcl].
Qed.

(** Publishing or retiring one task never touches the registration of
    another, whatever Composer answers; and a removal that Composer defers
    keeps all registrations and the connection. *)
Theorem other_tasks_undisturbed ops :
  let b := task_run ops in
  (∀ task activate b' r, backend_publish task activate b = (b', r) →
     ∀ id, id ≠ t_id task → registered b' !! id = registered b !! id)
  ∧ (∀ task incarnation b' r, backend_retire task incarnation b = (b', r) →
     (∀ id, id ≠ task → registered b' !! id = registered b !! id)
     ∧ ∀ code message, r = Err (RemovalDeferred code message) →
         registered b' = registered b ∧ is_Some (bk_client b')).
Proof.
  intros b. split.
  - intros task activate b' r H. eapply backend_publish_publishing; [|exact H]. apply task_run_inv.
  - intros task incarnation b' r H. split.
    + intros id Hid. moved (publishing task) H. by apply H.
    + intros code message ->. revert H. unfold backend_retire, gets, mbind, method_bind.
      destruct (registered b !! task) as [[[known bn] e]|]; [|done]. destruct (negb _); [done|].
      apply deferred_keeps.
Qed.

(** ** The command stream delivers one command at a time *)

(** A command is delivered only when none is outstanding, and every error
    leaves the stream disconnected with nothing outstanding. *)
Lemma stream_one_at_a_time s s' r :
  stream_next s = (s', r) →
  match r with
  | Ok (serial, _) => cs_pending s = None ∧ cs_pending s' = Some serial
  | Err _ => s' = mkStream None None (cs_uses s')
  end.
Proof.
  unfold stream_next, or_reset. destruct (stream_receive s) as [s1 [[serial c]|e]] eqn:E; intros [= <- <-]; [|done].
  unfold stream_receive in E. inv_method. apply bool_decide_eq_false in Hm0.
  destruct a3; try done. inv_method. injection E as <- <-. cbn. split; [|done].
  by apply eq_None_not_Some.
Qed.
End Framework.

(** ** A concrete Composer *)

(** Answers a request the way Composer does, with the object and display of the
    binding fixed and every removal deferred. *)
Definition demo_answer (request : ControlRequest) : option ControlResponse :=
  match request with
  | HelloRequest _ _ => Some (ServerHelloResponse 3 2)
  | PublishFramework id _ task display _ _ => Some (Bound id 5 task 6 display)
  | RemoveRequest id _ => Some (ErrorResponse id CodeConflict [98; 117; 115; 121])
  | _ => None
  end.

Definition demo_transfer (k : nat) (bytes : list Z) : option (list Z * nat) :=
  match decode_request bytes with
  | Ok request =>
      reply ← demo_answer request;
      match encode_response reply with Ok record => Some (record, 0%nat) | Err _ => None end
  | Err _ => None
  end.

(** The third use of the socket finds the peer gone. *)
Definition demo_closed (k : nat) : bool := (k =? 3)%nat.

Definition demo_task : Task := mkTask 42 7 0 0 [97; 46; 98].
Definition demo_task_command : TaskCommand := mkCommand 5 42 7 0 Focus.
Definition demo_backend (ops : list task_op) : Backend := task_run (λ _, true) demo_closed demo_transfer ops.

Lemma command_resolves_current_witness :
  ∃ t bn, registered (demo_backend [FRegister demo_task]) !! 42
            = Some (t, bn, bk_epoch (demo_backend [FRegister demo_task]))
    ∧ (bk_epoch (demo_backend [FRegister demo_task]), t, bn) ∈ bk_bound (demo_backend [FRegister demo_task])
    ∧ t_id t = 42 ∧ t_incarnation t = 7 ∧ bn_object bn = 5
    ∧ attached t = true ∧ cb_task (mkCommandBinding 1 42 7 0 1 0 0) = 42
    ∧ cb_incarnation (mkCommandBinding 1 42 7 0 1 0 0) = 7.
Proof.
  apply (command_resolves_current (λ _, true) demo_closed demo_transfer [FRegister demo_task] 1
           demo_task_command (mkCommandBinding 1 42 7 0 1 0 0)).
  vm_compute. reflexivity.
Defined.

Definition demo_reconnected : Backend :=
  (epoch (λ _, true) demo_closed demo_transfer (demo_backend [FRegister demo_task])).1.

Lemma reconnect_invalidates_commands_witness :
  resolve_command 1 demo_task_command demo_reconnected = None.
Proof.
  apply (reconnect_invalidates_commands (λ _, true) demo_closed demo_transfer [FRegister demo_task]
           demo_reconnected
           (epoch (λ _, true) demo_closed demo_transfer (demo_backend [FRegister demo_task])).2).
  - apply surjective_pairing.
  - vm_compute. discriminate.
Defined.

Lemma other_tasks_undisturbed_witness :
  let b := demo_backend [FRegister demo_task; FRegister (mkTask 43 8 0 0 [97])] in
  let b' := (backend_retire (λ _, true) demo_closed demo_transfer 42 7 b).1 in
  registered b' = registered b ∧ is_Some (bk_client b').
Proof.
  intros b b'.
  apply (proj2 (other_tasks_undisturbed (λ _, true) demo_closed demo_transfer
           [FRegister demo_task; FRegister (mkTask 43 8 0 0 [97])]) 42 7 b'
           (backend_retire (λ _, true) demo_closed demo_transfer 42 7 b).2) with CodeConflict [98; 117; 115; 121].
  - apply surjective_pairing.
  - vm_compute. reflexivity.
Defined.
