(* ===== verification/SurfaceBridge.v ===== *)
(** * The SurfaceFlinger bridge records (graphics/droidloom-surface-bridge/src/lib.rs)

    The private transport inside one Android cell between SurfaceFlinger and
    Composer: the requests SurfaceFlinger sends, the responses Composer
    returns, and the record codec with its descriptor accounting.  The fields
    are read at fixed offsets of a slice ([bytes.get(offset..offset + n)]). *)

From S2P Require Import Prelude Bytes.

(** ** Constants *)

(** [*b"DLSF"]. *)
Definition MAGIC : list Z := [68; 76; 83; 70].
Definition VERSION : Z := 4.
Definition HEADER_BYTES : Z := 16.
Definition MAX_PLANES : Z := 4.
Definition MAX_RECORD_BYTES : Z := 128.

Definition CLIENT_HELLO : Z := 1.
Definition SERVER_HELLO : Z := 2.
Definition ACQUIRE : Z := 3.
Definition TARGET : Z := 4.
Definition PRESENT : Z := 5.
Definition CANCEL : Z := 6.
Definition ACK : Z := 7.
Definition ERROR : Z := 8.
Definition RETIRE : Z := 9.
Definition PRESENT_WITH_CONTENT : Z := 10.
Definition PRESENT_WITH_DAMAGE : Z := 11.
Definition OPEN_LAYERS : Z := 12.
Definition LAYER_STREAM : Z := 13.
Definition COMPLETE_HEADLESS : Z := 14.

(** ** Data *)

Record Plane : Type := mkPlane { pl_offset : Z; pl_stride : Z }.

Record DamageRect : Type := mkDamage {
  dr_x : Z; dr_y : Z; dr_width : Z; dr_height : Z
}.

Inductive Request : Type :=
| CompleteHeadless (display : Z)
| Hello (task : Z)
| Acquire (display : Z)
| Present (display buffer : Z) (opaque : bool) (damage : option DamageRect)
| OpenLayers (display : Z)
| Cancel (display buffer : Z)
| Retire (display : Z).

Inductive Response : Type :=
| RHello (display width height : Z)
| RTarget (display buffer configure_serial width height fourcc modifier : Z) (planes : list Plane)
| RLayerStream
| RAck
| RError (code : Z).

Inductive WireError : Type :=
| EHeader | ELength | EOpcode | EDescriptors | EField.

Abbreviation wire := (result WireError).

(** ** Reading at an offset

    [bytes.get(offset..offset + n).and_then(try_from).map(from_le_bytes)
    .ok_or(WireError::Length)], for [n] the width of the integer. *)

Definition read_uint (n : nat) (bytes : list Z) (offset : nat) : wire Z :=
  if decide (offset + n ≤ length bytes)%nat
  then Ok (of_le_bytes (take n (drop offset bytes))) else Err ELength.

Definition read_u16 : list Z → nat → wire Z := read_uint 2.
Definition read_u32 : list Z → nat → wire Z := read_uint 4.
Definition read_u64 : list Z → nat → wire Z := read_uint 8.

Definition nonzero (value : Z) : wire Z :=
  if value =? 0 then Err EField else Ok value.

(** ** The record header *)

Definition decode_header (bytes : list Z) : wire (Z * list Z * Z) :=
  _ ← fail_if ((zlen bytes <? HEADER_BYTES) || (MAX_RECORD_BYTES <? zlen bytes)
               || negb (bool_decide (take 4 bytes = MAGIC))) EHeader;
  version ← read_u16 bytes 4;
  _ ← fail_if (negb (version =? VERSION)) EHeader;
  opcode ← read_u16 bytes 6;
  payload_len ← read_u32 bytes 8;
  _ ← fail_if (negb (HEADER_BYTES + payload_len =? zlen bytes)) ELength;
  descriptor_count ← read_u32 bytes 12;
  _ ← fail_if (MAX_PLANES <? descriptor_count) EDescriptors;
  mret (opcode, drop 16 bytes, descriptor_count).

Definition encode (opcode : Z) (payload : list Z) (descriptor_count : Z) : wire (list Z) :=
  _ ← fail_if (MAX_RECORD_BYTES <? HEADER_BYTES + zlen payload) ELength;
  _ ← fail_if (u32_max <? zlen payload) ELength;
  _ ← fail_if (u32_max <? descriptor_count) EDescriptors;
  mret (MAGIC ++ le_bytes 2 VERSION ++ le_bytes 2 opcode ++ le_bytes 4 (zlen payload)
        ++ le_bytes 4 descriptor_count ++ payload).

(** ** Requests *)

(** [flags & !1 != 0] and [flags & 1 != 0]. *)
Definition reserved_flags (flags : Z) : bool := negb (Z.ldiff flags 1 =? 0).
Definition opaque_flag (flags : Z) : bool := negb (Z.land flags 1 =? 0).

Definition display_only (request : Z → Request) (payload : list Z) : wire Request :=
  display ← read_u64 payload 0; mret (request display).

Definition decode_present (payload : list Z) : wire Request :=
  display ← read_u64 payload 0;
  buffer ← read_u64 payload 8;
  buffer ← nonzero buffer;
  mret (Present display buffer false None).

Definition decode_present_content (payload : list Z) : wire Request :=
  flags ← read_u32 payload 16;
  zero ← read_u32 payload 20;
  _ ← fail_if (reserved_flags flags || negb (zero =? 0)) EField;
  display ← read_u64 payload 0;
  buffer ← read_u64 payload 8;
  buffer ← nonzero buffer;
  mret (Present display buffer (opaque_flag flags) None).

Definition decode_present_damage (payload : list Z) : wire Request :=
  flags ← read_u32 payload 16;
  x ← read_u32 payload 24;
  y ← read_u32 payload 28;
  width ← read_u32 payload 32;
  height ← read_u32 payload 36;
  zero ← read_u32 payload 20;
  _ ← fail_if (reserved_flags flags || negb (zero =? 0)
               || negb (Bool.eqb (width =? 0) (height =? 0))
               || bool_decide (checked_add u32_max x width = None)
               || bool_decide (checked_add u32_max y height = None)) EField;
  display ← read_u64 payload 0;
  buffer ← read_u64 payload 8;
  buffer ← nonzero buffer;
  mret (Present display buffer (opaque_flag flags) (Some (mkDamage x y width height))).

Definition decode_cancel (payload : list Z) : wire Request :=
  display ← read_u64 payload 0;
  buffer ← read_u64 payload 8;
  buffer ← nonzero buffer;
  mret (Cancel display buffer).

(** The arms of [match opcode] that report a wrong length or count: every
    request opcode except [OPEN_LAYERS]. *)
Definition length_opcode (opcode : Z) : bool :=
  bool_decide (opcode ∈ [CLIENT_HELLO; ACQUIRE; PRESENT; PRESENT_WITH_CONTENT;
    PRESENT_WITH_DAMAGE; COMPLETE_HEADLESS; CANCEL; RETIRE]).

(** The [match opcode] of [decode_request]; [d] is [descriptor_count]. *)
Definition request_of (opcode : Z) (payload : list Z) (d : Z) : wire Request :=
  if (opcode =? COMPLETE_HEADLESS) && (zlen payload =? 8) && (d <=? 1)
  then display_only CompleteHeadless payload
  else if (opcode =? CLIENT_HELLO) && (zlen payload =? 8) && (d =? 0)
  then display_only Hello payload
  else if (opcode =? ACQUIRE) && (zlen payload =? 8) && (d =? 0)
  then display_only Acquire payload
  else if (opcode =? PRESENT) && (zlen payload =? 16) && (d <=? 1)
  then decode_present payload
  else if (opcode =? PRESENT_WITH_CONTENT) && (zlen payload =? 24) && (d <=? 1)
  then decode_present_content payload
  else if (opcode =? PRESENT_WITH_DAMAGE) && (zlen payload =? 40) && (d <=? 1)
  then decode_present_damage payload
  else if (opcode =? OPEN_LAYERS) && (zlen payload =? 8) && (d =? 0)
  then display_only OpenLayers payload
  else if (opcode =? CANCEL) && (zlen payload =? 16) && (d =? 0)
  then decode_cancel payload
  else if (opcode =? RETIRE) && (zlen payload =? 8) && (d =? 0)
  then display_only Retire payload
  else if length_opcode opcode then Err ELength
  else Err EOpcode.

Definition decode_request (bytes : list Z) (descriptor_count : Z) : wire Request :=
  '(opcode, payload, advertised) ← decode_header bytes;
  _ ← fail_if (negb (advertised =? descriptor_count)) EDescriptors;
  request_of opcode payload descriptor_count.

(** ** Responses *)

(** [planes.get(index).map_or(0, field)] for [index] in [0..MAX_PLANES]. *)
Definition plane_words (field : Plane → Z) (planes : list Plane) : list Z :=
  concat (map (λ i, le_bytes 4 (from_option field 0 (planes !! i))) [0%nat; 1%nat; 2%nat; 3%nat]).

Definition target_ok (buffer serial width height fourcc : Z) (planes : list Plane)
    (descriptor_count : Z) : bool :=
  negb (buffer =? 0) && negb (serial =? 0) && negb (width =? 0) && negb (height =? 0)
  && negb (fourcc =? 0) && (0 <? zlen planes) && (zlen planes <=? MAX_PLANES)
  && (descriptor_count =? zlen planes) && forallb (λ p, negb (pl_stride p =? 0)) planes.

Definition response_body (response : Response) (descriptor_count : Z) : wire (Z * list Z) :=
  match response with
  | RHello display width height =>
      if negb (width =? 0) && negb (height =? 0) && (descriptor_count =? 0)
      then mret (SERVER_HELLO, le_bytes 8 display ++ le_bytes 4 width ++ le_bytes 4 height)
      else Err EDescriptors
  | RTarget display buffer serial width height fourcc modifier planes =>
      if target_ok buffer serial width height fourcc planes descriptor_count
      then mret (TARGET,
        le_bytes 8 display ++ le_bytes 8 buffer ++ le_bytes 4 serial ++ le_bytes 4 width
        ++ le_bytes 4 height ++ le_bytes 4 fourcc ++ le_bytes 8 modifier
        ++ le_bytes 4 (zlen planes) ++ le_bytes 4 0
        ++ plane_words pl_offset planes ++ plane_words pl_stride planes)
      else Err EDescriptors
  | RLayerStream => if descriptor_count =? 2 then mret (LAYER_STREAM, []) else Err EDescriptors
  | RAck => if descriptor_count =? 0 then mret (ACK, []) else Err EDescriptors
  | RError code => if descriptor_count =? 0 then mret (ERROR, le_i32 code) else Err EDescriptors
  end.

Definition encode_response (response : Response) (descriptor_count : Z) : wire (list Z) :=
  '(opcode, payload) ← response_body response descriptor_count;
  encode opcode payload descriptor_count.

(** ** Reads against concatenated fields *)

Lemma read_uint_skip n k (l r : list Z) offset :
  length l = k → (k ≤ offset)%nat → read_uint n (l ++ r) offset = read_uint n r (offset - k).
Proof.
  intros <- Hk. unfold read_uint. rewrite length_app, drop_app_ge by done.
  destruct (decide _), (decide _); try lia; done.
Qed.

Lemma read_uint_hit n x r : 0 ≤ x < uint_bound n → read_uint n (le_bytes n x ++ r) 0 = Ok x.
Proof.
  intros Hx. unfold read_uint. rewrite decide_True, drop_0
    by (rewrite length_app, length_le_bytes; lia).
  by rewrite take_app_length', of_le_bytes_le_bytes by (by rewrite ?length_le_bytes).
Qed.

(** The next [n] bytes of a record are the encoding of an integer in range. *)
Lemma uint_split n bs :
  Forall is_u8 bs → (n ≤ length bs)%nat →
  ∃ x rest, bs = le_bytes n x ++ rest ∧ 0 ≤ x < uint_bound n ∧ Forall is_u8 rest
            ∧ length rest = (length bs - n)%nat.
Proof.
  intros Hbs Hn. rewrite <- (take_drop n bs) in Hbs. apply Forall_app in Hbs as [Ht Hd].
  exists (of_le_bytes (take n bs)), (drop n bs).
  pose proof (of_le_bytes_bound _ Ht) as Hb. pose proof (le_bytes_of_le_bytes _ Ht) as He.
  rewrite length_take_le in Hb, He by done. rewrite He, take_drop, length_drop. auto.
Qed.

Lemma le_bytes_inj n x y :
  0 ≤ x < uint_bound n → 0 ≤ y < uint_bound n → le_bytes n x = le_bytes n y → x = y.
Proof. intros Hx Hy He. by rewrite <- (of_le_bytes_le_bytes n x), He, of_le_bytes_le_bytes. Qed.

Lemma le_bytes_app_inj n x y r r' :
  0 ≤ x < uint_bound n → 0 ≤ y < uint_bound n →
  le_bytes n x ++ r = le_bytes n y ++ r' → x = y ∧ r = r'.
Proof.
  intros Hx Hy He. apply app_inj_1 in He as [He ->]; [|by rewrite !length_le_bytes].
  by apply le_bytes_inj in He.
Qed.

Ltac uint_range :=
  change (uint_bound 2) with 65536 in *; change (uint_bound 4) with 4294967296 in *;
  change (uint_bound 8) with 18446744073709551616 in *; int_lia.

Lemma read_le_skip n k x r offset :
  (k ≤ offset)%nat → read_uint n (le_bytes k x ++ r) offset = read_uint n r (offset - k).
Proof. apply read_uint_skip, length_le_bytes. Qed.

Lemma read_uint_last n x : 0 ≤ x < uint_bound n → read_uint n (le_bytes n x) 0 = Ok x.
Proof. rewrite <- (app_nil_r (le_bytes n x)). apply read_uint_hit. Qed.

(** Evaluates reads of a record whose fields are spelled out. *)
Ltac read_fields :=
  unfold read_u16, read_u32, read_u64;
  repeat first
    [ rewrite read_le_skip by lia
    | progress cbn [Nat.sub]
    | rewrite read_uint_hit by uint_range
    | rewrite read_uint_last by uint_range
    | rewrite ok_bind ].

Ltac read_fields_in H :=
  unfold read_u16, read_u32, read_u64 in H;
  repeat first
    [ rewrite read_le_skip in H by lia
    | progress cbn [Nat.sub] in H
    | rewrite read_uint_hit in H by uint_range
    | rewrite read_uint_last in H by uint_range
    | rewrite ok_bind in H ].

(** Splits the next field off a record [bs] with [Hl : length bs = N], leaving
    [Hl] about what follows; a record that is used up is closed. *)
Ltac next_field n Hbs Hl x :=
  let rest := fresh "rest" in let Hx := fresh "H" x in let Hr := fresh in let E := fresh in
  apply (uint_split n) in Hbs as (x & rest & E & Hx & Hbs & Hr); [|rewrite Hl; lia];
  rewrite Hl in Hr; clear Hl; rename Hr into Hl; cbn [Nat.sub] in Hl;
  rewrite E in *; clear E;
  try (apply length_zero_iff_nil in Hl; subst rest; rewrite app_nil_r in *).

(** ** The header is exact *)

Lemma encode_Ok opcode payload d bytes :
  encode opcode payload d = Ok bytes ↔
  zlen payload ≤ 112 ∧ d ≤ u32_max
  ∧ bytes = MAGIC ++ le_bytes 2 VERSION ++ le_bytes 2 opcode ++ le_bytes 4 (zlen payload)
            ++ le_bytes 4 d ++ payload.
Proof.
  unfold encode, HEADER_BYTES, MAX_RECORD_BYTES. split.
  - intros H. inv_ok. reflect. split_and!; [lia|lia|done].
  - intros (Hp & Hd & ->). by rewrite !fail_if_run by (reflect; int_lia).
Qed.

Lemma decode_header_encode opcode payload d bytes :
  is_u16 opcode → 0 ≤ d ≤ MAX_PLANES → encode opcode payload d = Ok bytes →
  decode_header bytes = Ok (opcode, payload, d).
Proof.
  unfold MAX_PLANES. intros Ho Hd (Hp & _ & ->)%encode_Ok.
  assert (Hlen : zlen (MAGIC ++ le_bytes 2 VERSION ++ le_bytes 2 opcode
    ++ le_bytes 4 (zlen payload) ++ le_bytes 4 d ++ payload) = 16 + zlen payload).
  { unfold zlen. rewrite !length_app, !length_le_bytes. cbn. lia. }
  unfold decode_header. rewrite Hlen. unfold HEADER_BYTES, MAX_RECORD_BYTES, MAX_PLANES, VERSION.
  rewrite fail_if_run by (rewrite bool_decide_eq_true_2 by done; reflect;
    unfold zlen in *; lia).
  rewrite ok_bind. unfold read_u16, read_u32.
  rewrite !(read_uint_skip _ 4 MAGIC) by (done || lia).
  assert (0 ≤ zlen payload) by (unfold zlen; lia). read_fields.
  rewrite !fail_if_run by (reflect; lia). cbn [mbind result_bind].
  reflexivity.
Qed.

Lemma decode_header_Ok bytes opcode payload d :
  Forall is_u8 bytes → decode_header bytes = Ok (opcode, payload, d) →
  is_u16 opcode ∧ 0 ≤ d ≤ MAX_PLANES ∧ Forall is_u8 payload ∧ encode opcode payload d = Ok bytes.
Proof.
  intros Hbs H. unfold decode_header in H. apply bind_Ok in H as (u & Hlen & H).
  apply fail_if_Ok in Hlen. reflect. destruct Hlen as [[Hlo Hhi] Hmagic].
  assert (Hl : length (drop 4 bytes) = (12 + (length bytes - 16))%nat)
    by (unfold zlen, HEADER_BYTES in *; rewrite length_drop; lia).
  assert (Hz : (length bytes - 16 ≤ 112)%nat) by (unfold zlen, MAX_RECORD_BYTES in *; lia).
  remember (length bytes - 16)%nat as k eqn:Ek. clear Hlo Hhi Ek.
  rewrite <- (take_drop 4 bytes), Hmagic in Hbs, H. rewrite <- (take_drop 4 bytes), Hmagic.
  apply Forall_app in Hbs as [_ Hbs]. remember (drop 4 bytes) as b eqn:Eb. clear Eb Hmagic.
  next_field 2%nat Hbs Hl version. next_field 2%nat Hbs Hl op. next_field 4%nat Hbs Hl len.
  next_field 4%nat Hbs Hl count.
  unfold read_u16, read_u32 in H. rewrite !(read_uint_skip _ 4 MAGIC) in H by (done || lia).
  read_fields_in H. inv_ok. reflect. subst version. unfold MAX_PLANES, HEADER_BYTES in *.
  assert (len = zlen rest2) as ->.
  { unfold zlen in *. rewrite !length_app, !length_le_bytes in *. cbn in *. lia. }
  change (drop 16 _) with rest2 in H. injection H as <- <- <-.
  rewrite encode_Ok. unfold zlen. split_and!; try done; try uint_range.
Qed.

(** ** The requests on the wire

    [request_wire request opcode payload descriptors]: the record body a
    sender of the protocol uses for a request.  A present without damage has
    two forms, the one without content metadata being the legacy one. *)

Definition flag_word (opaque : bool) : Z := if opaque then 1 else 0.

Definition damage_ok (d : DamageRect) : Prop :=
  is_u32 (dr_x d) ∧ is_u32 (dr_y d) ∧ is_u32 (dr_width d) ∧ is_u32 (dr_height d)
  ∧ (dr_width d = 0 ↔ dr_height d = 0)
  ∧ dr_x d + dr_width d ≤ u32_max ∧ dr_y d + dr_height d ≤ u32_max.

Definition present_head (display buffer : Z) : list Z := le_bytes 8 display ++ le_bytes 8 buffer.

Inductive request_wire : Request → Z → list Z → Z → Prop :=
| w_headless display d : is_u64 display → 0 ≤ d ≤ 1 →
    request_wire (CompleteHeadless display) COMPLETE_HEADLESS (le_bytes 8 display) d
| w_hello task : is_u64 task → request_wire (Hello task) CLIENT_HELLO (le_bytes 8 task) 0
| w_acquire display : is_u64 display →
    request_wire (Acquire display) ACQUIRE (le_bytes 8 display) 0
| w_present display buffer d : is_u64 display → is_u64 buffer → buffer ≠ 0 → 0 ≤ d ≤ 1 →
    request_wire (Present display buffer false None) PRESENT
      (le_bytes 8 display ++ le_bytes 8 buffer) d
| w_content display buffer opaque d : is_u64 display → is_u64 buffer → buffer ≠ 0 → 0 ≤ d ≤ 1 →
    request_wire (Present display buffer opaque None) PRESENT_WITH_CONTENT
      (le_bytes 8 display ++ le_bytes 8 buffer ++ le_bytes 4 (flag_word opaque) ++ le_bytes 4 0) d
| w_damage display buffer opaque r d :
    is_u64 display → is_u64 buffer → buffer ≠ 0 → 0 ≤ d ≤ 1 → damage_ok r →
    request_wire (Present display buffer opaque (Some r)) PRESENT_WITH_DAMAGE
      (le_bytes 8 display ++ le_bytes 8 buffer ++ le_bytes 4 (flag_word opaque) ++ le_bytes 4 0
       ++ le_bytes 4 (dr_x r) ++ le_bytes 4 (dr_y r) ++ le_bytes 4 (dr_width r)
       ++ le_bytes 4 (dr_height r)) d
| w_open display : is_u64 display →
    request_wire (OpenLayers display) OPEN_LAYERS (le_bytes 8 display) 0
| w_cancel display buffer : is_u64 display → is_u64 buffer → buffer ≠ 0 →
    request_wire (Cancel display buffer) CANCEL (le_bytes 8 display ++ le_bytes 8 buffer) 0
| w_retire display : is_u64 display →
    request_wire (Retire display) RETIRE (le_bytes 8 display) 0.

Lemma request_wire_ranges request opcode payload d :
  request_wire request opcode payload d → is_u16 opcode ∧ 0 ≤ d ≤ MAX_PLANES.
Proof. unfold MAX_PLANES. destruct 1; split; try lia; cbv; intuition discriminate. Qed.

Lemma reserved_flags_false flags :
  is_u32 flags → reserved_flags flags = false → flags = flag_word (opaque_flag flags).
Proof.
  unfold reserved_flags, opaque_flag. intros Hf Hr. reflect. change 1 with (Z.ones 1) in *.
  rewrite Z.ldiff_ones_r, Z.shiftl_mul_pow2, Z.shiftr_div_pow2 in Hr by lia.
  rewrite Z.land_ones by lia. change (2 ^ 1) with 2 in *.
  assert (flags = 0 ∨ flags = 1) as [-> | ->] by (pose proof (Z.div_mod flags 2 ltac:(lia)); pose proof (Z.mod_pos_bound flags 2); int_lia); done.
Qed.

Lemma flag_word_ok opaque :
  reserved_flags (flag_word opaque) = false ∧ opaque_flag (flag_word opaque) = opaque.
Proof. by destruct opaque. Qed.


Lemma request_of_wire request opcode payload d :
  request_wire request opcode payload d → request_of opcode payload d = Ok request.
Proof.
  intros H; destruct H as [? d ? Hd| | |?? d ?? Hb Hd|??? d ?? Hb Hd
    |??? r d ?? Hb Hd (?&?&?&?&He&Hx&Hy)| |??? ? Hb|];
  unfold request_of;
  match goal with |- context [zlen ?p] => let n := eval vm_compute in (length p) in
    change (zlen p) with (Z.of_nat n) end;
  try (rewrite (proj2 (Z.leb_le d 1)) by lia);
  cbn [Z.eqb Pos.eqb andb Z.of_nat COMPLETE_HEADLESS CLIENT_HELLO ACQUIRE PRESENT
       PRESENT_WITH_CONTENT PRESENT_WITH_DAMAGE OPEN_LAYERS CANCEL RETIRE];
  match goal with |- context [Z.of_nat ?n =? ?m] => change (Z.of_nat n =? m) with true end;
  cbn [andb];
  unfold display_only, decode_present, decode_present_content, decode_present_damage, decode_cancel;
  try destruct (flag_word_ok opaque) as [Hf1 Hf2];
  try assert (Hf : is_u32 (flag_word opaque)) by (by destruct opaque);
  read_fields; rewrite ?Hf1, ?Hf2; cbn [orb];
  try (unfold nonzero; rewrite (proj2 (Z.eqb_neq _ _) Hb)); try reflexivity.
  rewrite fail_if_run; [by destruct r|].
  unfold checked_add. rewrite !(proj2 (Z.leb_le _ _)) by done. reflect.
  split_and!; try done. apply Bool.eqb_true_iff, eq_iff_eq_true. by reflect.
Qed.

Lemma zlen_length {A} (l : list A) n : zlen l = Z.of_nat n → length l = n.
Proof. unfold zlen. lia. Qed.

Lemma display_only_Ok make payload request :
  Forall is_u8 payload → zlen payload = 8 → display_only make payload = Ok request →
  ∃ display, is_u64 display ∧ payload = le_bytes 8 display ∧ request = make display.
Proof.
  intros Hbs Hl%(zlen_length _ 8) H. next_field 8%nat Hbs Hl display.
  unfold display_only in H. read_fields_in H. injection H as <-.
  exists display. split_and!; try done; uint_range.
Qed.

Lemma nonzero_wire value x : nonzero value = Ok x ↔ x = value ∧ value ≠ 0.
Proof. unfold nonzero. destruct (Z.eqb_spec value 0); split; try naive_solver congruence. Qed.

Lemma decode_present_Ok payload d request :
  Forall is_u8 payload → zlen payload = 16 → 0 ≤ d ≤ 1 → decode_present payload = Ok request →
  request_wire request PRESENT payload d.
Proof.
  intros Hbs Hl%(zlen_length _ 16) Hd H.
  next_field 8%nat Hbs Hl display. next_field 8%nat Hbs Hl buffer.
  unfold decode_present in H. read_fields_in H.
  apply bind_Ok in H as (x & [-> Hn]%nonzero_wire & [= <-]). constructor; try done; uint_range.
Qed.

Lemma decode_cancel_Ok payload request :
  Forall is_u8 payload → zlen payload = 16 → decode_cancel payload = Ok request →
  request_wire request CANCEL payload 0.
Proof.
  intros Hbs Hl%(zlen_length _ 16) H.
  next_field 8%nat Hbs Hl display. next_field 8%nat Hbs Hl buffer.
  unfold decode_cancel in H. read_fields_in H.
  apply bind_Ok in H as (x & [-> Hn]%nonzero_wire & [= <-]). constructor; try done; uint_range.
Qed.

Lemma decode_present_content_Ok payload d request :
  Forall is_u8 payload → zlen payload = 24 → 0 ≤ d ≤ 1 →
  decode_present_content payload = Ok request →
  request_wire request PRESENT_WITH_CONTENT payload d.
Proof.
  intros Hbs Hl%(zlen_length _ 24) Hd H.
  next_field 8%nat Hbs Hl display. next_field 8%nat Hbs Hl buffer.
  next_field 4%nat Hbs Hl flags. next_field 4%nat Hbs Hl zero.
  unfold decode_present_content in H. read_fields_in H.
  apply bind_Ok in H as (u & Hg%fail_if_Ok & H).
  apply bind_Ok in H as (x & [-> Hn]%nonzero_wire & [= <-]).
  reflect. destruct Hg as [Hf ->].
  apply reserved_flags_false in Hf; [|uint_range]. rewrite Hf at 2.
  constructor; try done; uint_range.
Qed.

Lemma decode_present_damage_Ok payload d request :
  Forall is_u8 payload → zlen payload = 40 → 0 ≤ d ≤ 1 →
  decode_present_damage payload = Ok request →
  request_wire request PRESENT_WITH_DAMAGE payload d.
Proof.
  intros Hbs Hl%(zlen_length _ 40) Hd H.
  next_field 8%nat Hbs Hl display. next_field 8%nat Hbs Hl buffer.
  next_field 4%nat Hbs Hl flags. next_field 4%nat Hbs Hl zero.
  next_field 4%nat Hbs Hl x. next_field 4%nat Hbs Hl y.
  next_field 4%nat Hbs Hl width. next_field 4%nat Hbs Hl height.
  unfold decode_present_damage in H. read_fields_in H.
  apply bind_Ok in H as (u & Hg%fail_if_Ok & H).
  apply bind_Ok in H as (v & [-> Hn]%nonzero_wire & [= <-]).
  reflect. destruct Hg as [[[[Hf ->] He] Hx'] Hy'].
  apply Bool.eqb_true_iff, eq_iff_eq_true in He. reflect.
  apply reserved_flags_false in Hf; [|uint_range]. rewrite Hf at 2.
  unfold checked_add in *. destruct (Z.leb_spec (x + width) u32_max); [|done].
  destruct (Z.leb_spec (y + height) u32_max); [|done].
  apply (w_damage _ _ _ (mkDamage x y width height)); try done; try uint_range.
  repeat split; cbn; try apply He; uint_range.
Qed.

Lemma request_of_Ok opcode payload d request :
  Forall is_u8 payload → 0 ≤ d → request_of opcode payload d = Ok request →
  request_wire request opcode payload d.
Proof.
  intros Hbs Hd H. unfold request_of in H.
  repeat match type of H with
  | (if ?c then display_only _ _ else _) = _ =>
      destruct c eqn:E; [reflect; destruct E as [[-> Hl] Hc];
        apply display_only_Ok in H as (display & Hr & -> & ->); [|done|done];
        rewrite ?Hc; constructor; first [done|lia]|clear E]
  | (if ?c then decode_present _ else _) = _ =>
      destruct c eqn:E; [reflect; destruct E as [[-> Hl] Hc]; by apply decode_present_Ok|clear E]
  | (if ?c then decode_present_content _ else _) = _ =>
      destruct c eqn:E;
        [reflect; destruct E as [[-> Hl] Hc]; by apply decode_present_content_Ok|clear E]
  | (if ?c then decode_present_damage _ else _) = _ =>
      destruct c eqn:E;
        [reflect; destruct E as [[-> Hl] Hc]; by apply decode_present_damage_Ok|clear E]
  | (if ?c then decode_cancel _ else _) = _ =>
      destruct c eqn:E; [reflect; destruct E as [[-> Hl] ->]; by apply decode_cancel_Ok|clear E]
  end.
  by destruct (length_opcode opcode).
Qed.

(** The bridge accepts exactly the records of its protocol.  Over all byte
    strings and descriptor counts, [decode_request] returns a request if and
    only if the record is the framing of one of that request's wire forms with
    the descriptors that form carries: nothing malformed, truncated, trailing
    or with reserved bits set is accepted, and every well-formed request is. *)
Theorem bridge_requests_exact bytes d request :
  Forall is_u8 bytes →
  decode_request bytes d = Ok request ↔
  ∃ opcode payload, request_wire request opcode payload d ∧ encode opcode payload d = Ok bytes.
Proof.
  intros Hbs. unfold decode_request. split.
  - intros (r & H & Hr)%bind_Ok. destruct r as [[opcode payload] advertised].
    apply decode_header_Ok in H as (Ho & Hd & Hp & He); [|done].
    apply bind_Ok in Hr as (u & Ha%fail_if_Ok & Hr). reflect. subst advertised.
    apply request_of_Ok in Hr; [eauto|done|lia].
  - intros (opcode & payload & Hw & He). destruct (request_wire_ranges _ _ _ _ Hw) as [Ho Hd].
    erewrite decode_header_encode by done. rewrite ok_bind, fail_if_run by (by reflect).
    rewrite ok_bind. by apply request_of_wire.
Qed.

Definition damage_present : list Z :=
  MAGIC ++ le_bytes 2 4 ++ le_bytes 2 11 ++ le_bytes 4 40 ++ le_bytes 4 1
  ++ le_bytes 8 7 ++ le_bytes 8 9 ++ le_bytes 4 1 ++ le_bytes 4 0
  ++ le_bytes 4 10 ++ le_bytes 4 20 ++ le_bytes 4 100 ++ le_bytes 4 80.

Lemma bridge_requests_exact_witness :
  ∃ opcode payload,
    request_wire (Present 7 9 true (Some (mkDamage 10 20 100 80))) opcode payload 1
    ∧ encode opcode payload 1 = Ok damage_present.
Proof.
  apply (bridge_requests_exact damage_present 1).
  - apply (bool_decide_unpack _). vm_compute. exact I.
  - vm_compute. reflexivity.
Defined.

(** ** Responses are unambiguous *)

Definition plane_wf (p : Plane) : Prop := is_u32 (pl_offset p) ∧ is_u32 (pl_stride p).

Definition response_wf (r : Response) : Prop :=
  match r with
  | RHello display width height => is_u64 display ∧ is_u32 width ∧ is_u32 height
  | RTarget display buffer serial width height fourcc modifier planes =>
      is_u64 display ∧ is_u64 buffer ∧ is_u32 serial ∧ is_u32 width ∧ is_u32 height
      ∧ is_u32 fourcc ∧ is_u64 modifier ∧ Forall plane_wf planes
  | RLayerStream | RAck => True
  | RError code => is_i32 code
  end.

Lemma response_body_ranges r d opcode payload :
  response_body r d = Ok (opcode, payload) → is_u16 opcode ∧ 0 ≤ d ≤ MAX_PLANES.
Proof.
  unfold MAX_PLANES.
  destruct r; cbn; intros H; destruct (_ : bool) eqn:E in H; try discriminate; injection H as <- <-;
    (split; [by vm_compute|]); unfold target_ok, MAX_PLANES in *; reflect; try lia.
Qed.

Ltac split_words H :=
  repeat match type of H with
  | le_bytes _ _ ++ _ = le_bytes _ _ ++ _ =>
      let E := fresh "E" in apply le_bytes_app_inj in H as [E H]; [|uint_range|uint_range]
  | le_bytes _ _ = le_bytes _ _ => apply le_bytes_inj in H; [|uint_range|uint_range]
  end.

Lemma plane_field_range (field : Plane → Z) planes i :
  (∀ p, plane_wf p → is_u32 (field p)) → Forall plane_wf planes →
  0 ≤ from_option field 0 (planes !! i) < uint_bound 4.
Proof.
  intros Hf Hp. destruct (planes !! i) as [p|] eqn:E; cbn; [|uint_range].
  specialize (Hf p (Forall_lookup_1 _ _ _ _ Hp E)). uint_range.
Qed.

Lemma plane_words_inj (field : Plane → Z) ps qs r r' :
  (∀ p, plane_wf p → is_u32 (field p)) → Forall plane_wf ps → Forall plane_wf qs →
  plane_words field ps ++ r = plane_words field qs ++ r' →
  (∀ i, (i < 4)%nat → from_option field 0 (ps !! i) = from_option field 0 (qs !! i)) ∧ r = r'.
Proof.
  intros Hf Hp Hq. unfold plane_words. cbn [map concat]. rewrite app_nil_r, <- !app_assoc.
  intros H. repeat (apply le_bytes_app_inj in H as [? H]; [|by apply plane_field_range..]).
  split; [|done]. intros [|[|[|[|]]]] Hi; try done; lia.
Qed.

Lemma planes_ext ps qs :
  length ps = length qs → (length ps ≤ 4)%nat →
  (∀ i, (i < 4)%nat → from_option pl_offset 0 (ps !! i) = from_option pl_offset 0 (qs !! i)) →
  (∀ i, (i < 4)%nat → from_option pl_stride 0 (ps !! i) = from_option pl_stride 0 (qs !! i)) →
  ps = qs.
Proof.
  intros Hl Hm Ho Hs. apply list_eq_same_length with (length ps); [done..|].
  intros i p q Hi Hp Hq. specialize (Ho i ltac:(lia)). specialize (Hs i ltac:(lia)).
  rewrite Hp, Hq in Ho, Hs. destruct p, q. cbn in *. by subst.
Qed.

Lemma Ok_pair_inj {A B} (a a' : A) (b b' : B) :
  @Ok WireError _ (a, b) = Ok (a', b') → a = a' ∧ b = b'.
Proof. by intros [= -> ->]. Qed.

Lemma response_body_inj r r' d opcode payload :
  response_wf r → response_wf r' →
  response_body r d = Ok (opcode, payload) → response_body r' d = Ok (opcode, payload) → r = r'.
Proof.
  intros Hw Hw' H H'.
  destruct r, r'; cbn [response_body] in H, H'; destruct (_ : bool) eqn:E in H; try discriminate;
    destruct (_ : bool) eqn:E' in H'; try discriminate;
    apply Ok_pair_inj in H as [<- <-]; try discriminate H'; try reflexivity; apply Ok_pair_inj in H' as [_ H'];
    cbn [response_wf] in Hw, Hw'; destruct_and?.
  - split_words H'. by subst.
  - unfold target_ok, MAX_PLANES, zlen in *. reflect. destruct_and?. split_words H'.
    apply plane_words_inj in H' as [Ho H']; [|by intros ? []|done|done].
    rewrite <- (app_nil_r (plane_words pl_stride planes)),
      <- (app_nil_r (plane_words pl_stride planes0)) in H'.
    apply plane_words_inj in H' as [Hs _]; [|by intros ? []|done|done].
    assert (planes0 = planes) as -> by (apply planes_ext; (done || lia)). by subst.
  - unfold le_i32 in H'. apply le_bytes_inj in H'.
    + apply (f_equal i32_of_u32) in H'. rewrite !i32_of_u32_inv in H' by done. by subst.
    + change (uint_bound 4) with 4294967296. apply Z.mod_pos_bound. lia.
    + change (uint_bound 4) with 4294967296. apply Z.mod_pos_bound. lia.
Qed.

(** A response on the wire identifies itself.  Every record Composer
    encodes fits the protocol's 128 bytes and its header states its exact
    payload and descriptor count; two well-formed responses with the same
    bytes are the same response with the same descriptors, so a target's
    geometry, layout and descriptor count cannot be read two ways. *)
Theorem bridge_responses_unambiguous r r' d d' bytes :
  response_wf r → response_wf r' →
  encode_response r d = Ok bytes → encode_response r' d' = Ok bytes →
  r = r' ∧ d = d' ∧ zlen bytes ≤ MAX_RECORD_BYTES.
Proof.
  intros Hw Hw' H H'. unfold encode_response in *.
  apply bind_Ok in H as ([op p] & Hb & H). apply bind_Ok in H' as ([op' p'] & Hb' & H').
  destruct (response_body_ranges _ _ _ _ Hb) as [Ho Hd].
  destruct (response_body_ranges _ _ _ _ Hb') as [Ho' Hd'].
  pose proof (decode_header_encode _ _ _ _ Ho Hd H) as E.
  rewrite (decode_header_encode _ _ _ _ Ho' Hd' H') in E. injection E as -> -> ->.
  split_and!; [by eapply response_body_inj|done|].
  apply encode_Ok in H as (Hz & _ & ->). unfold zlen, MAX_RECORD_BYTES in *.
  rewrite !length_app, !length_le_bytes. cbn. lia.
Qed.

Definition sample_target : Response :=
  RTarget 1 2 3 800 600 875713089 0 [mkPlane 0 3200].

Lemma bridge_responses_unambiguous_witness :
  is_ok (encode_response sample_target 1) = true
  ∧ ∀ bytes, encode_response sample_target 1 = Ok bytes →
      sample_target = sample_target ∧ 1 = 1 ∧ zlen bytes ≤ MAX_RECORD_BYTES.
Proof.
  split; [vm_compute; reflexivity|]. intros bytes H.
  apply (bridge_responses_unambiguous sample_target sample_target 1 1 bytes); try exact H.
  all: cbn; unfold plane_wf; cbn; repeat constructor; cbn; int_lia.
Defined.

(** [OPEN_LAYERS] is missing from the arms that report a wrong length: such a
    record is reported as an unknown opcode. *)
Example open_layers_length :
  request_of OPEN_LAYERS [] 0 = Err EOpcode ∧ request_of RETIRE [] 0 = Err ELength.
Proof. by vm_compute. Qed.
