(* ===== verification/LayerStream.v ===== *)
(** * Layer transactions (graphics/droidloom-surface-bridge/src/layers.rs)

    The task-scoped stream over which SurfaceFlinger stages a scene of layers
    and commits it atomically: the packet decoder with its descriptor
    ownership, the bounded staging area, the assessment of a complete scene
    against the cached allocations, and the revisioned configuration
    publisher. *)

From S2P Require Import Prelude Bytes SurfaceBridge.

(** ** Constants *)

Definition MAX_LAYERS : Z := 64.
Definition MAX_BUFFERS : Z := 128.
Definition MAX_IMPORTS : Z := 16.
Definition SCENE_BATCH : Z := Z.shiftl 1 6.
Definition MAX_BATCH_LAYERS : Z := 16.
Definition MAX_LAYER_PACKET : Z := 16 + 28 + MAX_BATCH_LAYERS * 76.
Definition ASYNC_STAGE : Z := Z.shiftl 1 2.
Definition CONFIG_EVENTS : Z := Z.shiftl 1 3.
Definition ASYNC_COMMIT : Z := Z.shiftl 1 4.
Definition ASYNC_IMPORT : Z := Z.shiftl 1 5.
Definition SUPPORTED : Z :=
  Z.lor (Z.lor (Z.lor (Z.lor (Z.lor 3 ASYNC_STAGE) CONFIG_EVENTS) ASYNC_COMMIT) ASYNC_IMPORT)
    SCENE_BATCH.

(** ** The configuration publisher *)

Definition config : Type := Z * Z * Z * Z.

Record ConfigPublisher : Type := mkPublisher {
  cp_revision : Z;
  cp_current : config;
  cp_subscribed : bool
}.

Definition publisher_default : ConfigPublisher := mkPublisher 0 (0, 0, 0, 0) false.

Definition refresh (current : config) : method ConfigPublisher WireError bool :=
  self ← get;
  if negb (cp_revision self =? 0) && bool_decide (cp_current self = current) then mret false
  else
    revision ← lift (ok_or (checked_add u64_max (cp_revision self) 1) EField);
    _ ← put (mkPublisher revision current (cp_subscribed self));
    mret true.

Definition snapshot (self : ConfigPublisher) : list Z :=
  let '(a, b, c, d) := cp_current self in
  [cp_revision self mod 4294967296; Z.shiftr (cp_revision self) 32 mod 4294967296; a; b; c; d].

Definition subscribe (current : config) : method ConfigPublisher WireError (list Z) :=
  _ ← refresh current;
  _ ← modify (λ self, mkPublisher (cp_revision self) (cp_current self) true);
  gets snapshot.

Definition update (current : config) : method ConfigPublisher WireError (option (list Z)) :=
  changed ← refresh current;
  self ← get;
  mret (if changed && cp_subscribed self then Some (snapshot self) else None).

(** ** Allocations and layers *)

Record Buffer : Type := mkBuffer {
  bf_id : Z; bf_width : Z; bf_height : Z; bf_fourcc : Z; bf_modifier : Z;
  bf_planes : list Plane
}.

Record Layer : Type := mkLayer {
  ly_id : Z;
  ly_buffer : Z;
  ly_ticket : Z;
  ly_destination : Z * Z * Z * Z;
  ly_source : Z * Z * Z * Z;
  ly_transform : Z;
  ly_alpha : Z;
  ly_opaque : bool;
  ly_color : Z
}.

#[global] Instance Plane_eq_dec : EqDecision Plane.
Proof. solve_decision. Defined.
#[global] Instance Buffer_eq_dec : EqDecision Buffer.
Proof. solve_decision. Defined.
#[global] Instance Layer_eq_dec : EqDecision Layer.
Proof. solve_decision. Defined.

(** [value as u32] of an [i32]. *)
Definition as_u32 (x : Z) : Z := x mod 4294967296.

(** [checked_add(..).is_none_or(|v| v > limit)]. *)
Definition exceeds (limit x y : Z) : bool :=
  match checked_add u32_max x y with None => true | Some v => limit <? v end.

(** [checked_add(..).is_some_and(|v| u64::from(v) <= u64::from(extent) * 256)]. *)
Definition source_fits (extent x y : Z) : bool :=
  match checked_add u32_max x y with None => false | Some v => v <=? extent * 256 end.

(** [matches!(self.transform, 1 | 3 | 5 | 7)]. *)
Definition rotated (transform : Z) : bool := bool_decide (transform ∈ [1; 3; 5; 7]).

Definition validate (l : Layer) (width height : Z) (buffer : option Buffer) : bool :=
  let '(x, y, w, h) := ly_destination l in
  if (ly_id l =? 0) || (x <? 0) || (y <? 0) || (w <=? 0) || (h <=? 0) || (7 <? ly_transform l)
     || exceeds width (as_u32 x) (as_u32 w) || exceeds height (as_u32 y) (as_u32 h)
  then false
  else if ly_buffer l =? 0 then (ly_ticket l =? 0) && bool_decide (buffer = None)
  else match buffer with
  | None => false
  | Some b =>
      let '(bw, bh) := if rotated (ly_transform l) then (bf_height b, bf_width b)
                       else (bf_width b, bf_height b) in
      let '(sx, sy, sw, sh) := ly_source l in
      negb (ly_ticket l =? 0) && (bf_id b =? ly_buffer l) && (0 <? sw) && (0 <? sh)
      && source_fits bw sx sw && source_fits bh sy sh
  end.

(** ** Requests *)

Record BatchLayer : Type := mkBatchLayer { bl_layer : Layer; bl_fence_index : option nat }.

Inductive LayerRequest : Type :=
| Config
| SubscribeConfig
| Register (buffer : Buffer)
| RegisterAsync (attempt : Z) (buffer : Buffer)
| Unregister (id : Z)
| Stage (layer : Layer)
| StageAsync (layer : Layer)
| StageBatch (layers : list BatchLayer)
| CommitBatch (scene serial width height count : Z) (layers : list BatchLayer)
| Commit (serial width height count : Z)
| CommitAsync (scene serial width height count : Z)
| AbortScene.

Definition decode_layer (p : list Z) (fenced : bool) : wire Layer :=
  flags ← read_u32 p 64;
  id ← read_u64 p 0;
  buffer ← read_u64 p 8;
  ticket ← read_u64 p 16;
  d0 ← read_u32 p 24; d1 ← read_u32 p 28; d2 ← read_u32 p 32; d3 ← read_u32 p 36;
  s0 ← read_u32 p 40; s1 ← read_u32 p 44; s2 ← read_u32 p 48; s3 ← read_u32 p 52;
  transform ← read_u32 p 56;
  alpha ← read_u32 p 60;
  color ← read_u32 p 68;
  let layer := mkLayer id buffer ticket
    (i32_of_u32 d0, i32_of_u32 d1, i32_of_u32 d2, i32_of_u32 d3)
    (s0, s1, s2, s3) transform alpha (flags =? 1) color in
  _ ← fail_if ((1 <? flags) || ((ly_buffer layer =? 0) && fenced)) EField;
  mret layer.

(** [chunks_exact(size)]: the full chunks of a slice. *)
Fixpoint chunks (count size : nat) (p : list Z) : list (list Z) :=
  match count with
  | O => []
  | S n => take size p :: chunks n size (drop size p)
  end.

Definition chunks_exact (size : nat) (p : list Z) : list (list Z) :=
  chunks (length p / size) size p.

(** The descriptor a record names: [u32::MAX] names none, any other index must
    be attached and still free in [used]. *)
Definition claim_fence (index descriptors : Z) (used : list bool) : wire (option nat * list bool) :=
  if index =? u32_max then mret (None, used)
  else
    _ ← fail_if ((descriptors <=? index) || default false (used !! Z.to_nat index)) EDescriptors;
    mret (Some (Z.to_nat index), <[Z.to_nat index := true]> used).

(** The loop of [decode_batch] over its records. *)
Fixpoint decode_records (records : list (list Z)) (descriptors : Z) (used : list bool)
    : wire (list BatchLayer * list bool) :=
  match records with
  | [] => mret ([], used)
  | p :: records =>
      index ← read_u32 p 72;
      '(fence_index, used) ← claim_fence index descriptors used;
      layer ← decode_layer p (bool_decide (is_Some fence_index));
      '(layers, used) ← decode_records records descriptors used;
      mret (mkBatchLayer layer fence_index :: layers, used)
  end.

Definition decode_batch (p : list Z) (descriptors : Z) : wire (list BatchLayer) :=
  count ← read_u32 p 0;
  _ ← fail_if ((count =? 0) || (MAX_BATCH_LAYERS <? count)
               || negb (zlen p =? 4 + count * 76)) ELength;
  _ ← fail_if (4 <? descriptors) EDescriptors;
  '(layers, used) ← decode_records (chunks_exact 76 (drop 4 p)) descriptors
                      [false; false; false; false];
  _ ← fail_if (existsb negb (take (Z.to_nat descriptors) used)) EDescriptors;
  mret layers.

(** [(0..n).map(|i| Plane { .. }).collect::<Result<_, _>>()]. *)
Fixpoint decode_planes (p : list Z) (offset n : nat) : wire (list Plane) :=
  match n with
  | O => mret []
  | S n =>
      o ← read_u32 p offset;
      s ← read_u32 p (4 + offset);
      planes ← decode_planes p (8 + offset) n;
      mret (mkPlane o s :: planes)
  end.

Definition decode_buffer (p : list Z) (descriptors : Z) : wire Buffer :=
  _ ← fail_if (zlen p <? 40) ELength;
  n ← read_u32 p 36;
  _ ← fail_if ((n =? 0) || (4 <? n) || negb (n =? descriptors)
               || negb (zlen p =? 40 + n * 8)) EDescriptors;
  id ← read_u64 p 0;
  width ← read_u32 p 8;
  height ← read_u32 p 12;
  fourcc ← read_u32 p 16;
  modifier ← read_u64 p 24;
  planes ← decode_planes p 40 (Z.to_nat n);
  zero1 ← read_u32 p 20;
  zero2 ← read_u32 p 32;
  _ ← fail_if ((id =? 0) || (width =? 0) || (height =? 0) || (16384 <? width)
               || (16384 <? height) || (fourcc =? 0) || (modifier =? u64_max)
               || negb (zero1 =? 0) || negb (zero2 =? 0)
               || existsb (λ p, pl_stride p =? 0) planes) EField;
  mret (mkBuffer id width height fourcc modifier planes).

(** Opcodes 2 and 10. *)
Definition decode_register (p : list Z) (descriptors : Z) : wire LayerRequest :=
  b ← decode_buffer p descriptors; mret (Register b).

Definition decode_register_async (p : list Z) (descriptors : Z) : wire LayerRequest :=
  attempt ← read_u64 p 0;
  _ ← fail_if (attempt =? 0) EField;
  b ← decode_buffer (drop 8 p) descriptors;
  mret (RegisterAsync attempt b).

Definition decode_commit_batch (p : list Z) (descriptors : Z) : wire LayerRequest :=
  scene ← read_u64 p 0;
  _ ← fail_if (scene =? 0) ELength;
  serial ← read_u32 p 8;
  width ← read_u32 p 12;
  height ← read_u32 p 16;
  count ← read_u32 p 20;
  layers ← decode_batch (drop 24 p) descriptors;
  mret (CommitBatch scene serial width height count layers).

Definition decode_commit (p : list Z) : wire LayerRequest :=
  serial ← read_u32 p 0; width ← read_u32 p 4; height ← read_u32 p 8; count ← read_u32 p 12;
  mret (Commit serial width height count).

Definition decode_commit_async (p : list Z) : wire LayerRequest :=
  scene ← read_u64 p 0;
  _ ← fail_if (scene =? 0) ELength;
  serial ← read_u32 p 8; width ← read_u32 p 12; height ← read_u32 p 16; count ← read_u32 p 20;
  mret (CommitAsync scene serial width height count).

(** [*b"DLL1"]. *)
Definition LAYER_MAGIC : list Z := [68; 76; 76; 49].

(** The [match] of [decode] over the opcode. *)
Definition layer_request_of (opcode : Z) (p : list Z) (descriptors : Z) : wire LayerRequest :=
  if (opcode =? 1) && (zlen p =? 0) && (descriptors =? 0) then Ok Config
  else if (opcode =? 8) && (zlen p =? 0) && (descriptors =? 0) then Ok SubscribeConfig
  else if opcode =? 2 then decode_register p descriptors
  else if opcode =? 10 then decode_register_async p descriptors
  else if (opcode =? 3) && (zlen p =? 8) && (descriptors =? 0) then
    id ← read_u64 p 0; mret (Unregister id)
  else if ((opcode =? 4) || (opcode =? 7)) && (zlen p =? 72) && (descriptors <=? 1) then
    l ← decode_layer p (negb (descriptors =? 0));
    mret (if opcode =? 7 then StageAsync l else Stage l)
  else if opcode =? 11 then layers ← decode_batch p descriptors; mret (StageBatch layers)
  else if (opcode =? 12) && (28 <=? zlen p) then decode_commit_batch p descriptors
  else if (opcode =? 5) && (zlen p =? 16) && (descriptors =? 0) then decode_commit p
  else if (opcode =? 9) && (zlen p =? 24) && (descriptors =? 0) then decode_commit_async p
  else if (opcode =? 6) && (zlen p =? 0) && (descriptors =? 0) then Ok AbortScene
  else Err ELength.

Definition decode (bytes : list Z) (descriptors : Z) : wire LayerRequest :=
  _ ← fail_if ((zlen bytes <? 16) || (MAX_LAYER_PACKET <? zlen bytes)
               || negb (bool_decide (take 4 bytes = LAYER_MAGIC))) EHeader;
  len ← read_u32 bytes 8;
  _ ← fail_if (negb (len =? zlen bytes - 16)) EHeader;
  count ← read_u32 bytes 12;
  _ ← fail_if (negb (count =? descriptors)) EHeader;
  opcode ← read_u32 bytes 4;
  layer_request_of opcode (drop 16 bytes) descriptors.

(** ** Responses *)

Definition words_bytes (words : list Z) : list Z := concat (map (le_bytes 4) words).

Definition response (opcode : Z) (words : list Z) : list Z :=
  LAYER_MAGIC ++ words_bytes [opcode; (zlen words * 4) mod 4294967296; 0] ++ words_bytes words.

(** [x as u32] and [(x >> 32) as u32]. *)
Definition low_word (x : Z) : Z := x mod 4294967296.
Definition high_word (x : Z) : Z := Z.shiftr x 32 mod 4294967296.

Definition release_fence (ticket : Z) : list Z :=
  let bytes := response 0x8004 [low_word ticket; high_word ticket] in
  take 12 bytes ++ le_bytes 4 1 ++ drop 16 bytes.

Definition commit_result (scene code : Z) : list Z :=
  response 0x8006 [low_word scene; high_word scene; as_u32 code].

Definition import_result (attempt buffer code : Z) : list Z :=
  response 0x8007
    [low_word attempt; high_word attempt; low_word buffer; high_word buffer; as_u32 code].

(** ** Staging *)

Section staging.

(** The acquire fence's type. *)
Context {T : Type}.

Record Staging : Type := mkStaging {
  st_layers : list (Layer * option T);
  st_failed : bool
}.

Definition staging_default : Staging := mkStaging [] false.

Definition push (layer : Layer) (acquire : option T) (self : Staging) : Staging * bool :=
  if st_failed self || (zlen (st_layers self) =? MAX_LAYERS)
  then (mkStaging (st_layers self) true, false)
  else (mkStaging (st_layers self ++ [(layer, acquire)]) (st_failed self), true).

Definition clear (self : Staging) : Staging := mkStaging [] false.

Definition take_scene (self : Staging) : Staging * list (Layer * option T) :=
  (mkStaging [] false, st_layers self).

Definition recycle (layers : list (Layer * option T)) (self : Staging) : Staging :=
  mkStaging [] false.

End staging.

Arguments Staging T : clear implicits.

(** ** Assessing a scene *)

Record SourceState : Type := mkSource {
  so_buffer : Buffer;
  so_imported : bool;
  so_ticket : option Z;
  so_spare_timeline : bool
}.

Inductive SceneStatus : Type := Ready | Busy | Invalid.

#[global] Instance SceneStatus_eq_dec : EqDecision SceneStatus.
Proof. solve_decision. Defined.

Section assess.

(** The lookups the presenter passes: the cached allocation of a buffer
    identity and the read a layer currently shows. *)
Context (width height last_ticket : Z).
Context (source : Z → option SourceState) (attached : Z → option (Z * Z)).

(** The loop over the layers, with the identities seen so far. *)
Fixpoint assess_layers (layers : list (Layer * bool)) (ids buffers tickets : gset Z) (busy : bool)
    : SceneStatus :=
  match layers with
  | [] => if busy then Busy else Ready
  | (l, has_acquire) :: layers =>
      let allocation := source (ly_buffer l) in
      if bool_decide (ly_id l ∈ ids)
         || negb (validate l width height (so_buffer <$> allocation)) then Invalid
      else
        let ids := {[ly_id l]} ∪ ids in
        if ly_buffer l =? 0 then
          if has_acquire then Invalid else assess_layers layers ids buffers tickets busy
        else match allocation with
        | None => Invalid
        | Some b =>
            if negb (so_imported b) || bool_decide (ly_buffer l ∈ buffers) then Invalid
            else
              let buffers := {[ly_buffer l]} ∪ buffers in
              if bool_decide (so_ticket b = Some (ly_ticket l)) then
                if has_acquire
                   || negb (bool_decide (attached (ly_id l) = Some (ly_buffer l, ly_ticket l)))
                then Invalid else assess_layers layers ids buffers tickets busy
              else if (ly_ticket l <=? last_ticket) || bool_decide (ly_ticket l ∈ tickets)
              then Invalid
              else
                let waits := negb (so_spare_timeline b)
                  && match so_ticket b with
                     | None => false
                     | Some held => negb (bool_decide (attached (ly_id l) = Some (ly_buffer l, held)))
                     end in
                assess_layers layers ids buffers ({[ly_ticket l]} ∪ tickets) (busy || waits)
        end
  end.

Definition assess_scene (layers : list (Layer * bool)) (count : Z) : SceneStatus :=
  if (count =? 0) || negb (count =? zlen layers) || (MAX_LAYERS <? zlen layers) then Invalid
  else assess_layers layers ∅ ∅ ∅ false.

Definition validate_scene (layers : list (Layer * bool)) (count : Z) : bool :=
  bool_decide (assess_scene layers count = Ready).

End assess.
