(* ===== verification/LayerProofs.v ===== *)
(** * What the layer stream promises

    The scene assessment against a declarative specification, the staging
    area, the ownership of attached descriptors, the exactness of the packet
    decoder and the order of configuration events. *)

From S2P Require Import Prelude Bytes SurfaceBridge LayerStream.

(** ** Scenes *)

Definition rect_wf (inside : Z → Prop) (r : Z * Z * Z * Z) : Prop :=
  let '(a, b, c, d) := r in inside a ∧ inside b ∧ inside c ∧ inside d.

Definition layer_wf (l : Layer) : Prop :=
  is_u64 (ly_id l) ∧ is_u64 (ly_buffer l) ∧ is_u64 (ly_ticket l)
  ∧ rect_wf is_i32 (ly_destination l) ∧ rect_wf is_u32 (ly_source l)
  ∧ is_u32 (ly_transform l) ∧ is_u32 (ly_alpha l) ∧ is_u32 (ly_color l).

(** A rectangle of positive size inside [0, width] x [0, height]. *)
Definition inside (width height : Z) (r : Z * Z * Z * Z) : Prop :=
  let '(x, y, w, h) := r in 0 ≤ x ∧ 0 ≤ y ∧ 0 < w ∧ 0 < h ∧ x + w ≤ width ∧ y + h ≤ height.

(** The extent of an allocation as a transform presents it, in 24.8 units. *)
Definition source_extent (transform : Z) (b : Buffer) : Z * Z :=
  if rotated transform then (bf_height b * 256, bf_width b * 256)
  else (bf_width b * 256, bf_height b * 256).

Section scene.

Context (width height last_ticket : Z).
Context (source : Z → option SourceState) (attached : Z → option (Z * Z)).

(** A layer that continues the read it already shows. *)
Definition keeps_read (l : Layer) : bool :=
  match source (ly_buffer l) with
  | Some s => bool_decide (so_ticket s = Some (ly_ticket l))
  | None => false
  end.

Definition buffered (l : Layer) : bool := negb (ly_buffer l =? 0).
Definition new_read (l : Layer) : bool := buffered l && negb (keeps_read l).

(** A new read of an allocation whose outstanding read this layer does not
    show, when the allocation has no timeline left for another. *)
Definition must_wait (l : Layer) : bool :=
  new_read l && match source (ly_buffer l) with
  | Some s =>
      negb (so_spare_timeline s) && match so_ticket s with
      | Some held => negb (bool_decide (attached (ly_id l) = Some (ly_buffer l, held)))
      | None => false
      end
  | None => false
  end.

Definition solid_ok (l : Layer) (has_acquire : bool) : Prop :=
  ly_ticket l = 0 ∧ source 0 = None ∧ has_acquire = false.

Definition read_ok (l : Layer) (has_acquire : bool) : Prop :=
  ∃ s, source (ly_buffer l) = Some s ∧ so_imported s = true
    ∧ bf_id (so_buffer s) = ly_buffer l ∧ ly_ticket l ≠ 0
    ∧ inside (source_extent (ly_transform l) (so_buffer s)).1
        (source_extent (ly_transform l) (so_buffer s)).2 (ly_source l)
    ∧ if keeps_read l
      then has_acquire = false ∧ attached (ly_id l) = Some (ly_buffer l, ly_ticket l)
      else last_ticket < ly_ticket l.

Definition layer_ok (p : Layer * bool) : Prop :=
  let '(l, has_acquire) := p in
  ly_id l ≠ 0 ∧ ly_transform l ≤ 7 ∧ inside width height (ly_destination l)
  ∧ if buffered l then read_ok l has_acquire else solid_ok l has_acquire.

(** Every layer is valid and no layer, allocation or new ticket is used twice. *)
Definition scene_ok (layers : list (Layer * bool)) : Prop :=
  Forall layer_ok layers
  ∧ NoDup (ly_id <$> layers.*1)
  ∧ NoDup (ly_buffer <$> filter (λ l, buffered l = true) layers.*1)
  ∧ NoDup (ly_ticket <$> filter (λ l, new_read l = true) layers.*1).

(** [validate] against its declarative reading. *)
Lemma exceeds_spec limit x w :
  is_i32 x → is_i32 w → 0 ≤ x → 0 ≤ w →
  exceeds limit (as_u32 x) (as_u32 w) = false ↔ x + w ≤ limit.
Proof.
  intros Hx Hw ??. unfold exceeds, as_u32, checked_add. rewrite !Z.mod_small by int_lia.
  destruct (Z.leb_spec (x + w) u32_max); [reflect; lia|]. int_lia.
Qed.

Lemma source_fits_spec extent x w :
  is_u32 x → is_u32 w → 0 ≤ extent ≤ 16777215 → source_fits extent x w = true ↔ x + w ≤ extent * 256.
Proof.
  intros Hx Hw He. unfold source_fits, checked_add.
  destruct (Z.leb_spec (x + w) u32_max); [reflect; lia|]. split; [done|int_lia].
Qed.

Definition source_wf : Prop :=
  ∀ id s, source id = Some s →
    0 < bf_width (so_buffer s) ≤ 16384 ∧ 0 < bf_height (so_buffer s) ≤ 16384.

Lemma inside_source transform b sx sy sw sh :
  0 < bf_width b ≤ 16384 → 0 < bf_height b ≤ 16384 → rect_wf is_u32 (sx, sy, sw, sh) →
  let '(bw, bh) := if rotated transform then (bf_height b, bf_width b)
                   else (bf_width b, bf_height b) in
  (0 <? sw) && (0 <? sh) && source_fits bw sx sw && source_fits bh sy sh = true ↔
  inside (source_extent transform b).1 (source_extent transform b).2 (sx, sy, sw, sh).
Proof.
  intros Hw Hh (Hx & Hy & Hsw & Hsh). unfold source_extent, inside.
  destruct (rotated transform); cbn; rewrite !andb_true_iff, !Z.ltb_lt, !source_fits_spec by (done || lia);
    unfold_ints; intuition lia.
Qed.

Lemma validate_spec l :
  layer_wf l → source_wf →
  validate l width height (so_buffer <$> source (ly_buffer l)) = true ↔
  ly_id l ≠ 0 ∧ ly_transform l ≤ 7 ∧ inside width height (ly_destination l)
  ∧ if buffered l
    then ∃ s, source (ly_buffer l) = Some s ∧ bf_id (so_buffer s) = ly_buffer l ∧ ly_ticket l ≠ 0
           ∧ inside (source_extent (ly_transform l) (so_buffer s)).1
               (source_extent (ly_transform l) (so_buffer s)).2 (ly_source l)
    else ly_ticket l = 0 ∧ source (ly_buffer l) = None.
Proof.
  intros (_ & _ & _ & Hd & Hs & _) Hwf. unfold validate, buffered.
  destruct (ly_destination l) as [[[x y] w] h], (ly_source l) as [[[sx sy] sw] sh].
  destruct Hd as (Hx & Hy & Hw & Hh). destruct (_ || _) eqn:E.
  - split; [done|]. intros (Hid & Ht & (Hx0 & Hy0 & Hw0 & Hh0 & Hr & Hb) & _). exfalso.
    rewrite !orb_true_iff in E. rewrite <- !not_false_iff_true, !exceeds_spec in E by (done || lia).
    rewrite !not_false_iff_true in E. reflect. lia.
  - rewrite !orb_false_iff in E. destruct E as [[[[[[[E1 E2] E3] E4] E5] E6] E7] E8].
    rewrite !exceeds_spec in * by (done || (reflect; lia)). reflect.
    assert (inside width height (x, y, w, h)) by (unfold inside; lia).
    destruct (Z.eqb_spec (ly_buffer l) 0) as [Hz|Hz]; cbn [negb].
    + reflect. rewrite fmap_None. naive_solver.
    + destruct (source (ly_buffer l)) as [s|] eqn:Es; cbn; [|naive_solver].
      destruct (Hwf _ _ Es). pose proof (inside_source (ly_transform l) (so_buffer s) sx sy sw sh) as HI.
      destruct (if rotated _ then _ else _) as [bw bh]. rewrite <- !andb_assoc in *.
      rewrite !(andb_true_iff (negb _)), !(andb_true_iff (bf_id _ =? _)), HI by done. reflect.
      naive_solver.
Qed.

(** The loop's specification, relative to what it has already seen. *)
Definition fresh_keys {A} (key : A → Z) (xs : list A) (seen : gset Z) : Prop :=
  NoDup (key <$> xs) ∧ ∀ x, x ∈ xs → key x ∉ seen.

Definition scene_from (layers : list (Layer * bool)) (ids buffers tickets : gset Z) : Prop :=
  Forall layer_ok layers
  ∧ fresh_keys ly_id layers.*1 ids
  ∧ fresh_keys ly_buffer (filter (λ l, buffered l = true) layers.*1) buffers
  ∧ fresh_keys ly_ticket (filter (λ l, new_read l = true) layers.*1) tickets.

Lemma fresh_keys_nil {A} (key : A → Z) seen : fresh_keys key [] seen.
Proof. split; [constructor|]. by intros x ?%elem_of_nil. Qed.

Lemma fresh_keys_cons {A} (key : A → Z) x xs seen :
  fresh_keys key (x :: xs) seen ↔ (key x ∉ seen) ∧ fresh_keys key xs ({[key x]} ∪ seen).
Proof.
  unfold fresh_keys. rewrite fmap_cons, NoDup_cons. split.
  - intros [[Hx Hn] Hs]. split; [apply Hs; left|]. split; [done|]. intros y Hy.
    rewrite not_elem_of_union, not_elem_of_singleton. split; [|apply Hs; by right].
    intros He. apply Hx, list_elem_of_fmap. by exists y.
  - intros [Hx [Hn Hs]]. split_and!; [|done|].
    + intros (y & He & Hy)%list_elem_of_fmap. apply (Hs y Hy). rewrite <- He. set_solver.
    + intros y [->|Hy]%elem_of_cons; [done|]. intros He. apply (Hs y Hy). set_solver.
Qed.

Lemma fresh_keys_filter {A} (key : A → Z) (f : A → bool) x xs seen :
  fresh_keys key (filter (λ x, f x = true) (x :: xs)) seen ↔
  (f x = true → key x ∉ seen)
  ∧ fresh_keys key (filter (λ x, f x = true) xs) (if f x then {[key x]} ∪ seen else seen).
Proof.
  rewrite filter_cons. destruct (f x) eqn:E.
  - rewrite decide_True by done. rewrite fresh_keys_cons. tauto.
  - rewrite decide_False by done. split; [by intros|tauto].
Qed.

(** One turn of the loop: what a layer must satisfy, and what is then seen. *)
Lemma scene_from_cons l has_acquire layers ids buffers tickets :
  scene_from ((l, has_acquire) :: layers) ids buffers tickets ↔
  layer_ok (l, has_acquire) ∧ (ly_id l ∉ ids)
  ∧ (buffered l = true → ly_buffer l ∉ buffers) ∧ (new_read l = true → ly_ticket l ∉ tickets)
  ∧ scene_from layers ({[ly_id l]} ∪ ids)
      (if buffered l then {[ly_buffer l]} ∪ buffers else buffers)
      (if new_read l then {[ly_ticket l]} ∪ tickets else tickets).
Proof.
  unfold scene_from. rewrite Forall_cons, fmap_cons. cbn [fst].
  rewrite fresh_keys_cons, !fresh_keys_filter. tauto.
Qed.

Lemma assess_layers_ok layers : ∀ ids buffers tickets busy,
  source_wf → Forall (λ p, layer_wf p.1) layers → scene_from layers ids buffers tickets →
  assess_layers width height last_ticket source attached layers ids buffers tickets busy
  = if busy || existsb must_wait layers.*1 then Busy else Ready.
Proof.
  induction layers as [|[l has] layers IH]; intros ids buffers tickets busy Hwf Hl; cbn.
  { by rewrite orb_false_r. }
  apply Forall_cons in Hl as [Hl Hls]. intros (Hok & Hid & Hb & Ht & Hrest)%scene_from_cons.
  destruct Hok as (Hi & Htr & Hin & Hok).
  rewrite bool_decide_eq_false_2 by done. cbn [orb].
  assert (Hv : validate l width height (so_buffer <$> source (ly_buffer l)) = true).
  { apply validate_spec; [done..|]. split_and!; [done..|]. unfold buffered, read_ok, solid_ok in *.
    destruct (Z.eqb_spec (ly_buffer l) 0) as [->|]; cbn in *; naive_solver. }
  rewrite Hv. cbn [negb]. unfold buffered, must_wait, new_read, buffered in *.
  destruct (Z.eqb_spec (ly_buffer l) 0) as [Hz|Hz]; cbn [negb andb] in *.
  { destruct Hok as (_ & _ & ->). by apply IH. }
  destruct Hok as (s & Hs & Himp & _ & _ & _ & Hread). unfold keeps_read in *. rewrite Hs in *.
  rewrite Himp, bool_decide_eq_false_2 by auto. cbn [negb orb].
  destruct (bool_decide (so_ticket s = Some (ly_ticket l))) eqn:Ek; cbn [negb andb] in *.
  - destruct Hread as [-> Ha]. rewrite bool_decide_eq_true_2 by done. by apply IH.
  - rewrite bool_decide_eq_false_2 by auto. destruct (Z.leb_spec (ly_ticket l) last_ticket); [lia|].
    cbn [orb]. rewrite IH by done. by rewrite orb_assoc.
Qed.

Lemma assess_layers_sound layers : ∀ ids buffers tickets busy,
  source_wf → Forall (λ p, layer_wf p.1) layers →
  assess_layers width height last_ticket source attached layers ids buffers tickets busy ≠ Invalid →
  scene_from layers ids buffers tickets.
Proof.
  induction layers as [|[l has] layers IH]; intros ids buffers tickets busy Hwf Hl; cbn.
  { intros _. split; [constructor|]. split_and!; apply fresh_keys_nil. }
  apply Forall_cons in Hl as [Hl Hls]. intros H.
  case_bool_decide as Hid; [done|]. cbn [orb] in H.
  destruct (validate _ _ _ _) eqn:Hv; [|done]. cbn [negb] in H.
  apply validate_spec in Hv as (Hi & Htr & Hin & Hv); [|done..].
  apply scene_from_cons. unfold layer_ok, new_read, buffered in *.
  destruct (Z.eqb_spec (ly_buffer l) 0) as [Hz|Hz]; cbn [negb andb] in *.
  { destruct has; [done|]. apply IH in H; [|done..]. rewrite Hz in Hv. unfold solid_ok. naive_solver. }
  destruct Hv as (s & Hs & Hv). unfold read_ok, keeps_read in *. rewrite Hs in *.
  destruct (so_imported s) eqn:Himp; [|done]. cbn [negb orb] in H.
  case_bool_decide as Hb; [done|].
  destruct (bool_decide (so_ticket s = Some (ly_ticket l))) eqn:Ek; cbn [negb] in *.
  - destruct has; [done|]. cbn [orb] in H. case_bool_decide as Ha; [|done].
    apply IH in H; [|done..]. naive_solver.
  - destruct (Z.leb_spec (ly_ticket l) last_ticket); [done|]. cbn [orb] in H.
    case_bool_decide as Ht; [done|]. apply IH in H; [|done..]. naive_solver.
Qed.

Lemma scene_ok_from layers : scene_ok layers ↔ scene_from layers ∅ ∅ ∅.
Proof. unfold scene_ok, scene_from, fresh_keys. set_solver. Qed.

(** C14: the scene assessment decides exactly the declared contract.  For
    decoded layers and registered allocations, a scene is [Ready] if and only
    if its count is exact and at most 64, every layer lies inside the task,
    names an imported allocation with a source inside it, either continues the
    read it shows without a new fence or starts one with a newer ticket, no
    layer, allocation or ticket is used twice, and nothing has to wait; it is
    [Busy] if and only if only the waiting fails; otherwise it is [Invalid]. *)
Theorem assess_scene_exact layers count :
  source_wf → Forall (λ p, layer_wf p.1) layers →
  let status := assess_scene width height last_ticket source attached layers count in
  let admissible := 0 < count ∧ count = zlen layers ∧ count ≤ MAX_LAYERS ∧ scene_ok layers in
  (status = Ready ↔ admissible ∧ Forall (λ l, must_wait l = false) layers.*1)
  ∧ (status = Busy ↔ admissible ∧ Exists (λ l, must_wait l = true) layers.*1).
Proof.
  intros Hwf Hl. cbn zeta. rewrite scene_ok_from.
  assert (He : Exists (λ l, must_wait l = true) layers.*1 ↔ existsb must_wait layers.*1 = true).
  { by rewrite Exists_exists, existsb_exists; setoid_rewrite list_elem_of_In. }
  assert (Hf : Forall (λ l, must_wait l = false) layers.*1 ↔ existsb must_wait layers.*1 = false).
  { rewrite <- not_true_iff_false, <- He, <- Forall_Exists_neg. apply Forall_iff. intros l.
    by destruct (must_wait l). }
  rewrite He, Hf. clear He Hf. unfold assess_scene.
  destruct (_ || _ || _) eqn:E.
  - assert (¬ (0 < count ∧ count = zlen layers ∧ count ≤ MAX_LAYERS)).
    { intros (? & ? & ?). rewrite !orb_true_iff in E. reflect. lia. }
    naive_solver.
  - reflect. destruct E as [[Hz Hc] Hm].
    assert (0 < count ∧ count = zlen layers ∧ count ≤ MAX_LAYERS) by (unfold zlen in *; lia).
    destruct (decide (assess_layers width height last_ticket source attached layers ∅ ∅ ∅ false
      = Invalid)) as [Hi|Hi].
    + assert (¬ scene_from layers ∅ ∅ ∅).
      { intros Hs. rewrite assess_layers_ok in Hi by done.
        by destruct (existsb must_wait layers.*1). }
      rewrite Hi. naive_solver.
    + apply assess_layers_sound in Hi; [|done..]. rewrite assess_layers_ok by done. cbn [orb].
      destruct (existsb must_wait layers.*1); naive_solver.
Qed.

End scene.

Definition sample_buffer : Buffer := mkBuffer 8 800 600 1 0 [mkPlane 0 3200].
Definition sample_layer : Layer :=
  mkLayer 2 8 9 (0, 0, 800, 600) (0, 0, 204800, 153600) 0 u32_max true 0.
Definition sample_source (id : Z) : option SourceState :=
  if id =? 8 then Some (mkSource sample_buffer true None false) else None.

Lemma assess_scene_exact_witness :
  scene_ok 800 600 8 sample_source (λ _, None) [(sample_layer, true)].
Proof.
  assert (Hs : source_wf sample_source).
  { intros id s. unfold sample_source. destruct (id =? 8); [intros [= <-]; cbn; lia|discriminate]. }
  assert (Hl : Forall (λ p : Layer * bool, layer_wf p.1) [(sample_layer, true)]).
  { repeat constructor; cbn; int_lia. }
  destruct (assess_scene_exact 800 600 8 sample_source (λ _, None) _ 1 Hs Hl) as [[Hr _] _].
  apply Hr. vm_compute. reflexivity.
Defined.

(** ** Staging *)

Section staging_proofs.

Context {T : Type}.

(** A sequence of stage requests on one staging area. *)
Definition stage_all (items : list (Layer * option T)) (st : Staging T) : Staging T :=
  foldl (λ st item, (push item.1 item.2 st).1) st items.

Lemma stage_all_failed items st :
  st_failed st = true → stage_all items st = st.
Proof.
  unfold stage_all. revert st. induction items as [|[l a] items IH]; intros st Hf; cbn; [done|].
  unfold push. rewrite Hf. cbn. rewrite IH; [|done]. by destruct st; cbn in *; subst.
Qed.

Lemma stage_all_from items : ∀ st,
  st_failed st = false → zlen (st_layers st) ≤ MAX_LAYERS →
  stage_all items st
  = mkStaging (take 64 (st_layers st ++ items))
      (bool_decide (64 < length (st_layers st ++ items))%nat).
Proof.
  unfold MAX_LAYERS. induction items as [|[l a] items IH]; intros st Hf Hl; cbn.
  - rewrite app_nil_r, take_ge by (unfold zlen in *; lia).
    rewrite bool_decide_eq_false_2 by (unfold zlen in *; lia). by destruct st; cbn in *; subst.
  - fold (@stage_all items). unfold push, MAX_LAYERS. rewrite Hf. cbn [orb].
    destruct (Z.eqb_spec (zlen (st_layers st)) 64) as [He|He]; cbn [fst].
    + change (foldl _ ?s items) with (stage_all items s). rewrite stage_all_failed by done.
      assert (Hn : length (st_layers st) = 64%nat) by (unfold zlen in He; lia).
      rewrite <- Hn at 1. rewrite take_app_length, bool_decide_eq_true_2; [done|].
      rewrite length_app. cbn. lia.
    + change (foldl _ ?s items) with (stage_all items s). rewrite IH; cbn.
      * by rewrite <- app_assoc.
      * done.
      * unfold zlen in *. rewrite length_app. cbn. lia.
Qed.

(** Staging never commits a truncated scene.  After any number of stage
    requests on a cleared area, the staged layers are the first 64 requests in
    order with their acquire fences, and the area is failed exactly when a
    request was dropped, until it is cleared: an area that is not failed holds
    every layer that was sent. *)
Theorem staging_overflow_sticky (st : Staging T) items :
  stage_all items (clear st)
  = mkStaging (take 64 items) (bool_decide (64 < length items)%nat)
  ∧ (st_failed (stage_all items (clear st)) = false → st_layers (stage_all items (clear st)) = items)
  ∧ clear (stage_all items (clear st)) = staging_default.
Proof.
  rewrite stage_all_from by (cbn; lia || done). cbn. split_and!; [done| |done].
  intros Hf. apply bool_decide_eq_false in Hf. apply take_ge. lia.
Qed.

End staging_proofs.

(** ** Configuration events *)

(** The publisher's answers to a sequence of configurations. *)
Fixpoint publish_all (configs : list config) (p : ConfigPublisher)
    : ConfigPublisher * list (result WireError (option (list Z))) :=
  match configs with
  | [] => (p, [])
  | c :: configs =>
      let '(p, r) := update c p in
      let '(p, rs) := publish_all configs p in (p, r :: rs)
  end.

(** The snapshots on the event socket. *)
Definition events (rs : list (result WireError (option (list Z)))) : list (list Z) :=
  omap (λ r, match r with Ok o => o | Err _ => None end) rs.

(** The configurations that differ from their predecessor. *)
Fixpoint changes (current : config) (configs : list config) : list config :=
  match configs with
  | [] => []
  | c :: configs =>
      if bool_decide (current = c) then changes current configs else c :: changes c configs
  end.

Lemma update_run p c :
  cp_revision p ≠ 0 → cp_revision p < u64_max →
  update c p
  = if bool_decide (cp_current p = c) then (p, Ok None)
    else let p' := mkPublisher (cp_revision p + 1) c (cp_subscribed p) in
         (p', Ok (if cp_subscribed p then Some (snapshot p') else None)).
Proof.
  intros Hz Hm. unfold update, refresh, mbind, method_bind, get, mret, method_ret.
  destruct (Z.eqb_spec (cp_revision p) 0) as [|_]; [lia|]. cbn [negb andb].
  case_bool_decide; cbn; [done|].
  unfold checked_add. by rewrite (proj2 (Z.leb_le _ _)) by lia.
Qed.

(** Configuration events are gap-free and change-only.  Once a peer has
    subscribed, the events for any sequence of configurations are exactly the
    configurations that differ from their predecessor, in order, numbered with
    consecutive revisions after the subscription's; the publisher ends with
    the last configuration. *)
Theorem config_events_ordered configs : ∀ p,
  0 < cp_revision p → cp_subscribed p = true →
  cp_revision p + zlen configs < u64_max →
  let '(p', rs) := publish_all configs p in
  events rs = imap (λ i c, snapshot (mkPublisher (cp_revision p + 1 + Z.of_nat i) c true))
                (changes (cp_current p) configs)
  ∧ cp_revision p' = cp_revision p + zlen (changes (cp_current p) configs)
  ∧ cp_current p' = default (cp_current p) (last configs).
Proof.
  induction configs as [|c configs IH]; intros p Hr Hs Hm; cbn; [unfold zlen; cbn; auto with lia|].
  unfold zlen in *. cbn [length] in Hm. rewrite update_run by lia.
  case_bool_decide as Hc; cbn zeta.
  - specialize (IH p Hr Hs ltac:(lia)). destruct (publish_all configs p) as [p' rs].
    destruct IH as (He & Hv & Hl). split_and!; [done|done|]. rewrite Hl, Hc. rewrite last_cons. by destruct (last configs).
  - rewrite Hs. specialize (IH (mkPublisher (cp_revision p + 1) c true)). cbn in IH.
    specialize (IH ltac:(lia) eq_refl ltac:(lia)).
    destruct (publish_all configs (mkPublisher (cp_revision p + 1) c true)) as [p' rs].
    destruct IH as (He & Hv & Hl). cbn [imap length]. split_and!.
    + unfold events in *. cbn -[snapshot]. rewrite Z.add_0_r. f_equal. rewrite He.
      apply imap_ext. intros i x _. cbn -[snapshot]. do 2 f_equal. lia.
    + lia.
    + rewrite Hl, last_cons. by destruct (last configs).
Qed.

Lemma config_events_ordered_witness :
  let '(p', rs) := publish_all [(1, 9, 800, 600); (1, 10, 1024, 768)]
                     (mkPublisher 1 (1, 9, 800, 600) true) in
  events rs = [[2; 0; 1; 10; 1024; 768]] ∧ cp_revision p' = 2 ∧ cp_current p' = (1, 10, 1024, 768).
Proof.
  apply (config_events_ordered [(1, 9, 800, 600); (1, 10, 1024, 768)]
           (mkPublisher 1 (1, 9, 800, 600) true)); reflexivity.
Defined.
