(* ===== verification/LayerCodec.v ===== *)
(** * The layer packets are exact

    The wire form of every layer request, and the proof that the decoder of
    layers.rs accepts exactly those packets; in a batch each attached
    descriptor belongs to exactly one layer. *)

From S2P Require Import Prelude Bytes SurfaceBridge LayerStream LayerProofs.

(** ** Layers *)

Definition rect_bytes (field : Z → list Z) (r : Z * Z * Z * Z) : list Z :=
  let '(a, b, c, d) := r in field a ++ field b ++ field c ++ field d.

Definition layer_bytes (l : Layer) : list Z :=
  le_bytes 8 (ly_id l) ++ le_bytes 8 (ly_buffer l) ++ le_bytes 8 (ly_ticket l)
  ++ rect_bytes le_i32 (ly_destination l) ++ rect_bytes (le_bytes 4) (ly_source l)
  ++ le_bytes 4 (ly_transform l) ++ le_bytes 4 (ly_alpha l)
  ++ le_bytes 4 (flag_word (ly_opaque l)) ++ le_bytes 4 (ly_color l).

Lemma length_layer_bytes l : length (layer_bytes l) = 72%nat.
Proof.
  unfold layer_bytes, rect_bytes, le_i32.
  destruct (ly_destination l) as [[[? ?] ?] ?], (ly_source l) as [[[? ?] ?] ?].
  by rewrite !length_app, !length_le_bytes.
Qed.

Lemma decode_layer_run l fenced rest :
  layer_wf l → decode_layer (layer_bytes l ++ rest) fenced
  = if (ly_buffer l =? 0) && fenced then Err EField else Ok l.
Proof.
  intros (Hi & Hb & Ht & Hd & Hs & Htr & Ha & Hc). unfold layer_bytes, rect_bytes, le_i32.
  destruct l as [id buffer ticket dest src tr alpha opaque color]; cbn [ly_id ly_buffer ly_ticket
    ly_destination ly_source ly_transform ly_alpha ly_opaque ly_color] in *.
  destruct dest as [[[d0 d1] d2] d3], src as [[[s0 s1] s2] s3].
  destruct Hd as (Hd0 & Hd1 & Hd2 & Hd3), Hs as (Hs0 & Hs1 & Hs2 & Hs3).
  assert (Hmod : ∀ x, 0 ≤ x mod 4294967296 < 4294967296) by (intros; apply Z.mod_pos_bound; lia).
  pose proof (Hmod d0); pose proof (Hmod d1); pose proof (Hmod d2); pose proof (Hmod d3).
  assert (is_u32 (flag_word opaque)) by (by destruct opaque).
  rewrite <- !app_assoc. unfold decode_layer. read_fields.
  rewrite !i32_of_u32_inv by done. cbn [ly_buffer].
  replace (flag_word opaque =? 1) with opaque by (by destruct opaque).
  replace (1 <? flag_word opaque) with false by (by destruct opaque). cbn [orb].
  by destruct (_ && _).
Qed.

(** Every 72 bytes are a layer up to their flag word. *)
Lemma layer_split p :
  Forall is_u8 p → length p = 72%nat →
  ∃ l flags, layer_wf l ∧ is_u32 flags
    ∧ (∀ fenced rest, decode_layer (p ++ rest) fenced
        = if (1 <? flags) || ((ly_buffer l =? 0) && fenced) then Err EField else Ok l)
    ∧ (flags ≤ 1 → p = layer_bytes l).
Proof.
  intros Hbs Hl.
  next_field 8%nat Hbs Hl ident. next_field 8%nat Hbs Hl buffer. next_field 8%nat Hbs Hl ticket.
  next_field 4%nat Hbs Hl d0. next_field 4%nat Hbs Hl d1. next_field 4%nat Hbs Hl d2.
  next_field 4%nat Hbs Hl d3. next_field 4%nat Hbs Hl s0. next_field 4%nat Hbs Hl s1.
  next_field 4%nat Hbs Hl s2. next_field 4%nat Hbs Hl s3. next_field 4%nat Hbs Hl tr.
  next_field 4%nat Hbs Hl alpha. next_field 4%nat Hbs Hl flags. next_field 4%nat Hbs Hl color.
  exists (mkLayer ident buffer ticket
    (i32_of_u32 d0, i32_of_u32 d1, i32_of_u32 d2, i32_of_u32 d3)
    (s0, s1, s2, s3) tr alpha (flags =? 1) color), flags.
  split; [|split; [uint_range|]].
  { unfold layer_wf, rect_wf; cbn. split_and!; try (apply i32_of_u32_range); uint_range. }
  split.
  { intros fenced rest'. rewrite <- !app_assoc. unfold decode_layer. read_fields.
    cbn [ly_buffer]. by destruct (_ || _). }
  intros Hf. unfold layer_bytes, rect_bytes, le_i32. cbn -[le_bytes app].
  rewrite !u32_of_i32_inv by uint_range. rewrite <- !app_assoc.
  assert (flags = 0 ∨ flags = 1) as [-> | ->] by lia; done.
Qed.

Lemma decode_layer_Ok p fenced l rest :
  Forall is_u8 p → length p = 72%nat → decode_layer (p ++ rest) fenced = Ok l →
  layer_wf l ∧ p = layer_bytes l ∧ (fenced = true → ly_buffer l ≠ 0).
Proof.
  intros Hbs Hl H. destruct (layer_split p Hbs Hl) as (l' & flags & Hw & Hf & Hd & Hp).
  rewrite Hd in H.
  destruct (_ || _) eqn:Ec; [discriminate|]. injection H as <-.
  reflect. destruct Ec as [Hle Hb]. split_and!; [done|by apply Hp|].
  intros ->. destruct (Z.eqb_spec (ly_buffer l') 0); cbn in *; [naive_solver|done].
Qed.

(** ** Batches *)

Definition fences (layers : list BatchLayer) : list nat := omap bl_fence_index layers.

Definition fence_word (fence : option nat) : Z :=
  match fence with None => u32_max | Some i => Z.of_nat i end.

Definition record_bytes (l : BatchLayer) : list Z :=
  layer_bytes (bl_layer l) ++ le_bytes 4 (fence_word (bl_fence_index l)).

Definition batch_bytes (layers : list BatchLayer) : list Z :=
  le_bytes 4 (zlen layers) ++ concat (map record_bytes layers).

(** A fenced layer reads an allocation. *)
Definition record_ok (l : BatchLayer) : Prop :=
  layer_wf (bl_layer l) ∧ (is_Some (bl_fence_index l) → ly_buffer (bl_layer l) ≠ 0).

Definition batch_ok (layers : list BatchLayer) (d : Z) : Prop :=
  0 < zlen layers ≤ MAX_BATCH_LAYERS ∧ 0 ≤ d ≤ 4 ∧ Forall record_ok layers
  ∧ fences layers ≡ₚ seq 0 (Z.to_nat d).

Lemma length_record_bytes l : length (record_bytes l) = 76%nat.
Proof. unfold record_bytes. by rewrite length_app, length_layer_bytes, length_le_bytes. Qed.

Lemma chunks_concat layers :
  chunks (length layers) 76 (concat (map record_bytes layers)) = map record_bytes layers.
Proof.
  induction layers as [|l layers IH]; cbn [map concat chunks length]; [done|].
  rewrite take_app_length', drop_app_length' by (by rewrite length_record_bytes). by rewrite IH.
Qed.

Lemma concat_chunks n size p :
  length p = (n * size)%nat → concat (chunks n size p) = p.
Proof.
  revert p. induction n as [|n IH]; intros p Hl; cbn.
  - symmetry. by apply length_zero_iff_nil.
  - rewrite IH by (rewrite length_drop; lia). apply take_drop.
Qed.

Lemma chunks_each n size p :
  Forall is_u8 p → length p = (n * size)%nat →
  Forall (λ c, Forall is_u8 c ∧ length c = size) (chunks n size p).
Proof.
  revert p. induction n as [|n IH]; intros p Hp Hl; cbn; constructor.
  - split; [by apply Forall_take|]. rewrite length_take. lia.
  - apply IH; [by apply Forall_drop|]. rewrite length_drop. lia.
Qed.

Lemma length_chunks n size p : length (chunks n size p) = n.
Proof. revert p. induction n as [|n IH]; intros p; cbn; [done|by rewrite IH]. Qed.

Lemma chunks_exact_mul n p : length p = (n * 76)%nat → chunks_exact 76 p = chunks n 76 p.
Proof. intros Hl. unfold chunks_exact. by rewrite Hl, Nat.div_mul. Qed.

Definition taken (used : list bool) (i : nat) : Prop := used !! i = Some true.

Lemma claim_fence_Ok index d used fence used' :
  is_u32 index → claim_fence index d used = Ok (fence, used') →
  fence_word fence = index
  ∧ match fence with
    | None => used' = used
    | Some i => Z.of_nat i < d ∧ ¬ taken used i ∧ used' = <[i := true]> used
    end.
Proof.
  intros Hi. unfold claim_fence. destruct (Z.eqb_spec index u32_max) as [->|Hn].
  - by intros [= <- <-].
  - intros (u & Hc%fail_if_Ok & [= <- <-])%bind_Ok. reflect. destruct Hc as [Hlt Hu].
    cbn. rewrite Z2Nat.id by int_lia. split_and!; [done|lia| |done].
    unfold taken. intros Ht. by rewrite Ht in Hu.
Qed.

Lemma decode_records_Ok d : 0 ≤ d ≤ 4 → ∀ records used layers used',
  length used = 4%nat → Forall (λ c, Forall is_u8 c ∧ length c = 76%nat) records →
  decode_records records d used = Ok (layers, used') →
  records = map record_bytes layers ∧ Forall record_ok layers ∧ NoDup (fences layers)
  ∧ length used' = 4%nat
  ∧ (∀ i, i ∈ fences layers → Z.of_nat i < d ∧ ¬ taken used i)
  ∧ (∀ i, taken used' i ↔ taken used i ∨ i ∈ fences layers).
Proof.
  intros Hd records. induction records as [|c records IH]; intros used layers used' Hu Hrec; cbn.
  - intros [= <- <-]. cbn. split_and!; [done|constructor|constructor|done| |].
    + intros i ?%elem_of_nil. done.
    + intros i. rewrite elem_of_nil. tauto.
  - apply Forall_cons in Hrec as [[Hc Hl] Hrec].
    intros (index & Hindex & (r & Hclaim & H)%bind_Ok)%bind_Ok. destruct r as [fence used1].
    apply bind_Ok in H as (layer & Hlayer & (r & Hrest & H)%bind_Ok). destruct r as [ls used2].
    injection H as <- <-.
    rewrite <- (take_drop 72 c) in Hc, Hindex, Hlayer |- *. apply Forall_app in Hc as [Ht Hdr].
    assert (Hl1 : length (take 72 c) = 72%nat) by (rewrite length_take; lia).
    assert (Hl2 : length (drop 72 c) = 4%nat) by (rewrite length_drop; lia).
    remember (take 72 c) as b eqn:Eb. remember (drop 72 c) as e eqn:Ee. clear Eb Ee Hl.
    apply decode_layer_Ok in Hlayer as (Hw & -> & Hf); [|done..].
    next_field 4%nat Hdr Hl2 w.
    unfold read_u32 in Hindex. rewrite (read_uint_skip _ 72) in Hindex by (done || lia).
    cbn [Nat.sub] in Hindex. rewrite read_uint_last in Hindex by done. injection Hindex as <-.
    apply claim_fence_Ok in Hclaim as [Hword Hcl]; [|uint_range].
    assert (Hlen1 : length used1 = 4%nat)
      by (destruct fence; [destruct Hcl as (_ & _ & ->); by rewrite length_insert|by subst]).
    destruct (IH _ _ _ Hlen1 Hrec Hrest) as (-> & Hok & Hnd & Hlen & Hin & Htk).
    unfold fences in *. cbn [map omap list_omap bl_fence_index].
    assert (Hrok : record_ok (mkBatchLayer layer fence)).
    { split; [done|]. intros Hs. apply Hf. by apply bool_decide_eq_true. }
    split; [by unfold record_bytes; cbn; rewrite Hword|]. split; [by constructor|].
    destruct fence as [i|]; [|by subst used1].
    destruct Hcl as (Hi & Hni & ->).
    assert (Htu : ∀ j, taken (<[i:=true]> used) j ↔ taken used j ∨ j = i).
    { intros j. unfold taken. destruct (decide (j = i)) as [->|Hne].
      - rewrite list_lookup_insert_eq by lia. tauto.
      - rewrite list_lookup_insert_ne by done. tauto. }
    split_and!; [|done| |].
    + constructor; [|done]. intros Hin'. destruct (Hin i Hin') as [_ Hnt]. apply Hnt, Htu. by right.
    + intros j [->|Hj]%elem_of_cons; [done|]. destruct (Hin j Hj) as [? Hnt]. rewrite Htu in Hnt. tauto.
    + intros j. rewrite Htk, Htu, elem_of_cons. tauto.
Qed.

Lemma claim_fence_run fence d used :
  d ≤ 4 → match fence with None => True | Some i => Z.of_nat i < d ∧ ¬ taken used i end →
  claim_fence (fence_word fence) d used
  = Ok (fence, match fence with None => used | Some i => <[i := true]> used end).
Proof.
  intros Hd Hf. unfold claim_fence. destruct fence as [i|]; cbn; [|done].
  destruct Hf as [Hi Hn]. destruct (Z.eqb_spec (Z.of_nat i) u32_max); [int_lia|].
  rewrite Nat2Z.id, fail_if_run; [done|]. reflect. split; [lia|].
  unfold taken in Hn. by destruct (used !! i) as [[]|].
Qed.

Lemma decode_records_run d : d ≤ 4 → ∀ layers used,
  length used = 4%nat → Forall record_ok layers → NoDup (fences layers) →
  (∀ i, i ∈ fences layers → Z.of_nat i < d ∧ ¬ taken used i) →
  ∃ used', decode_records (map record_bytes layers) d used = Ok (layers, used').
Proof.
  intros Hd layers. induction layers as [|[l fence] layers IH]; intros used Hu Hok Hnd Hin;
    cbn [map decode_records]; [by eexists|].
  apply Forall_cons in Hok as [[Hw Hb] Hok]. cbn in Hw, Hb.
  assert (Hf : match fence with None => True | Some i => Z.of_nat i < d ∧ ¬ taken used i end).
  { destruct fence as [i|]; [|done]. apply Hin. left. }
  assert (Hr : read_u32 (record_bytes (mkBatchLayer l fence)) 72 = Ok (fence_word fence)).
  { unfold record_bytes, read_u32. cbn [bl_layer bl_fence_index].
    rewrite (read_uint_skip _ 72) by (apply length_layer_bytes || lia).
    apply read_uint_last. destruct fence; cbn; uint_range. }
  rewrite Hr, ok_bind, claim_fence_run by done. rewrite ok_bind.
  change (record_bytes (mkBatchLayer l fence))
    with (layer_bytes l ++ le_bytes 4 (fence_word fence)).
  rewrite decode_layer_run by done.
  replace ((ly_buffer l =? 0) && bool_decide (is_Some fence)) with false; cycle 1.
  { symmetry. apply andb_false_iff. destruct (Z.eqb_spec (ly_buffer l) 0); [right|by left].
    apply bool_decide_eq_false_2. naive_solver. }
  rewrite ok_bind. unfold fences in *. cbn [omap list_omap bl_fence_index] in Hnd, Hin.
  destruct fence as [i|].
  - apply NoDup_cons in Hnd as [Hni Hnd].
    destruct (IH (<[i:=true]> used)) as [used' ->]; [by rewrite length_insert|done|done| |by eexists].
    intros j Hj. destruct (Hin j ltac:(by right)) as [? Hn]. split; [done|].
    unfold taken in *. rewrite list_lookup_insert_ne by (intros ->; done). done.
  - destruct (IH used) as [used' ->]; [done..|]. by eexists.
Qed.

Lemma all_taken used n :
  (n ≤ length used)%nat →
  existsb negb (take n used) = false ↔ ∀ i, (i < n)%nat → taken used i.
Proof.
  intros Hn. unfold taken. rewrite <- not_true_iff_false, existsb_exists. split.
  - intros H i Hi. destruct (lookup_lt_is_Some_2 used i ltac:(lia)) as [[] Hb]; [done|].
    exfalso. apply H. exists false. split; [|done]. apply list_elem_of_In, list_elem_of_lookup.
    exists i. by rewrite lookup_take, decide_True by done.
  - intros H (b & Hb%list_elem_of_In & Hf). apply list_elem_of_lookup in Hb as [i Hi].
    apply lookup_take_Some in Hi as [Hi Hlt]. rewrite (H i Hlt) in Hi. injection Hi as <-. done.
Qed.

Lemma not_taken_fresh i : ¬ taken [false; false; false; false] i.
Proof. unfold taken. by destruct i as [|[|[|[|]]]]. Qed.

Lemma decode_batch_exact p d layers :
  Forall is_u8 p → 0 ≤ d →
  decode_batch p d = Ok layers ↔ batch_ok layers d ∧ p = batch_bytes layers.
Proof.
  intros Hbs Hd. unfold decode_batch, batch_ok, batch_bytes, MAX_BATCH_LAYERS. split.
  - intros (count & Hcount & (u & Hc%fail_if_Ok & H)%bind_Ok)%bind_Ok.
    apply bind_Ok in H as (u' & Hd4%fail_if_Ok & H). reflect.
    destruct Hc as [[Hz Hm] Hlen]. apply bind_Ok in H as (r & Hrec & H). destruct r as [ls used].
    apply bind_Ok in H as (u'' & Hall%fail_if_Ok & [= ->]).
    assert (Hl : length p = (4 + (length p - 4))%nat).
    { unfold read_u32, read_uint in Hcount. destruct (decide _) in Hcount; [lia|discriminate]. }
    remember (length p - 4)%nat as k eqn:Ek. clear Ek.
    next_field 4%nat Hbs Hl c. unfold read_u32 in Hcount.
    rewrite read_uint_hit in Hcount by done. injection Hcount as <-.
    change (drop 4 (le_bytes 4 c ++ rest)) with rest in Hrec.
    assert (Hr : length rest = (Z.to_nat c * 76)%nat).
    { unfold zlen in Hlen. rewrite length_app, length_le_bytes in Hlen. lia. }
    rewrite (chunks_exact_mul (Z.to_nat c)) in Hrec by done.
    apply decode_records_Ok in Hrec as (Hb & Hok & Hnd & Hu & Hin & Ht);
      [|lia|done|by apply chunks_each].
    assert (Hlc : zlen layers = c).
    { unfold zlen. rewrite <- (length_map record_bytes), <- Hb, length_chunks. lia. }
    rewrite all_taken in Hall by lia.
    split_and!; try lia; try done.
    + apply NoDup_Permutation; [done|apply NoDup_seq|]. intros i. rewrite elem_of_seq.
      specialize (Ht i). split; [intros Hi; destruct (Hin i Hi); lia|].
      intros [_ Hi]. destruct (proj1 Ht (Hall i Hi)) as [Hf|]; [|done].
      by apply not_taken_fresh in Hf.
    + by rewrite Hlc, <- Hb, concat_chunks by done.
  - intros [(Hn & Hd4 & Hok & Hperm) ->].
    assert (Hcl : length (concat (map record_bytes layers)) = (length layers * 76)%nat).
    { rewrite (length_concat_fixed _ 76) by apply length_record_bytes. lia. }
    unfold read_u32. rewrite read_uint_hit, ok_bind by (unfold zlen in *; uint_range).
    assert (Hz : zlen (le_bytes 4 (zlen layers) ++ concat (map record_bytes layers))
      = 4 + zlen layers * 76).
    { unfold zlen in *. rewrite length_app, length_le_bytes, Hcl. lia. }
    rewrite Hz, (proj2 (Z.eqb_neq _ 0)), (proj2 (Z.ltb_ge 16 _)), Z.eqb_refl by lia.
    cbn [orb negb fail_if]. rewrite ok_bind, (proj2 (Z.ltb_ge 4 d)) by lia.
    cbn [fail_if]. rewrite ok_bind.
    change (drop 4 (le_bytes 4 (zlen layers) ++ concat (map record_bytes layers)))
      with (concat (map record_bytes layers)).
    rewrite (chunks_exact_mul (length layers)), chunks_concat by done.
    assert (Hin : ∀ i, i ∈ fences layers → Z.of_nat i < d ∧ ¬ taken [false;false;false;false] i).
    { intros i Hi. rewrite Hperm, elem_of_seq in Hi. split; [lia|apply not_taken_fresh]. }
    assert (Hnd : NoDup (fences layers)) by (rewrite Hperm; apply NoDup_seq).
    destruct (decode_records_run d ltac:(lia) layers [false;false;false;false]) as [used' Hrun];
      [done..|]. rewrite Hrun, ok_bind.
    apply decode_records_Ok in Hrun as (_ & _ & _ & Hu & _ & Ht); [|lia|done|]; cycle 1.
    { rewrite <- chunks_concat. apply chunks_each; [|done].
      apply Forall_app in Hbs as [_ Hbs]. exact Hbs. }
    rewrite fail_if_run; [done|]. apply all_taken; [lia|].
    intros i Hi. apply Ht. right. rewrite Hperm, elem_of_seq. lia.
Qed.

(** ** Allocations *)

Definition plane_bytes (p : Plane) : list Z := le_bytes 4 (pl_offset p) ++ le_bytes 4 (pl_stride p).

Definition buffer_bytes (b : Buffer) : list Z :=
  le_bytes 8 (bf_id b) ++ le_bytes 4 (bf_width b) ++ le_bytes 4 (bf_height b)
  ++ le_bytes 4 (bf_fourcc b) ++ le_bytes 4 0 ++ le_bytes 8 (bf_modifier b) ++ le_bytes 4 0
  ++ le_bytes 4 (zlen (bf_planes b)) ++ concat (map plane_bytes (bf_planes b)).

(** An allocation with [d] descriptors, one for each of its planes. *)
Definition buffer_ok (b : Buffer) (d : Z) : Prop :=
  is_u64 (bf_id b) ∧ bf_id b ≠ 0 ∧ 0 < bf_width b ≤ 16384 ∧ 0 < bf_height b ≤ 16384
  ∧ is_u32 (bf_fourcc b) ∧ bf_fourcc b ≠ 0 ∧ 0 ≤ bf_modifier b < u64_max
  ∧ 0 < d ≤ 4 ∧ zlen (bf_planes b) = d
  ∧ Forall (λ p, plane_wf p ∧ pl_stride p ≠ 0) (bf_planes b).

Lemma length_plane_bytes p : length (plane_bytes p) = 8%nat.
Proof. unfold plane_bytes. by rewrite length_app, !length_le_bytes. Qed.

Lemma decode_planes_run planes : ∀ head,
  Forall plane_wf planes →
  decode_planes (head ++ concat (map plane_bytes planes)) (length head) (length planes) = Ok planes.
Proof.
  induction planes as [|[o s] planes IH]; intros head Hp; cbn [map concat length decode_planes]; [done|].
  apply Forall_cons in Hp as [[Ho Hs] Hp]. cbn in Ho, Hs.
  assert (Hr : ∀ k off rest, 0 ≤ k < uint_bound 4 → off = length head →
    read_u32 (head ++ le_bytes 4 k ++ rest) off = Ok k).
  { intros k off rest Hk ->. unfold read_u32. rewrite (read_uint_skip _ (length head)) by (done || lia).
    rewrite Nat.sub_diag. by apply read_uint_hit. }
  change (plane_bytes (mkPlane o s)) with (le_bytes 4 o ++ le_bytes 4 s). rewrite <- !app_assoc.
  rewrite (Hr o (length head)), ok_bind by (done || uint_range).
  specialize (IH (head ++ le_bytes 4 o ++ le_bytes 4 s) Hp).
  rewrite <- !app_assoc in IH. rewrite !length_app, !length_le_bytes in IH.
  unfold read_u32 in *. rewrite (read_uint_skip _ (length head)) by (done || lia).
  replace (4 + length head - length head)%nat with 4%nat by lia.
  rewrite read_le_skip by lia. cbn [Nat.sub]. rewrite read_uint_hit, ok_bind by uint_range.
  replace (8 + length head)%nat with (length head + (4 + 4))%nat by lia. by rewrite IH.
Qed.

Lemma planes_split n p :
  Forall is_u8 p → length p = (n * 8)%nat →
  ∃ planes, p = concat (map plane_bytes planes) ∧ length planes = n ∧ Forall plane_wf planes.
Proof.
  revert p. induction n as [|n IH]; intros p Hbs Hl.
  - exists []. apply length_zero_iff_nil in Hl. subst. done.
  - replace (S n * 8)%nat with (8 + n * 8)%nat in Hl by lia.
    next_field 4%nat Hbs Hl o. next_field 4%nat Hbs Hl s.
    replace (8 + n * 8 - 4 - 4)%nat with (n * 8)%nat in Hl by lia.
    apply IH in Hl as (planes & -> & <- & Hp); [|done].
    exists (mkPlane o s :: planes). split_and!; [|done|].
    + cbn [map concat]. change (plane_bytes (mkPlane o s)) with (le_bytes 4 o ++ le_bytes 4 s).
      by rewrite <- app_assoc.
    + constructor; [|done]. split; cbn; uint_range.
Qed.

Definition buffer_guard (b : Buffer) (zero1 zero2 : Z) : bool :=
  (bf_id b =? 0) || (bf_width b =? 0) || (bf_height b =? 0) || (16384 <? bf_width b)
  || (16384 <? bf_height b) || (bf_fourcc b =? 0) || (bf_modifier b =? u64_max)
  || negb (zero1 =? 0) || negb (zero2 =? 0)
  || existsb (λ p, pl_stride p =? 0) (bf_planes b).

(** [decode_buffer] on spelled-out fields. *)
Lemma decode_allocation_run b zero1 zero2 d :
  is_u64 (bf_id b) → is_u32 (bf_width b) → is_u32 (bf_height b) → is_u32 (bf_fourcc b) →
  is_u64 (bf_modifier b) → is_u32 zero1 → is_u32 zero2 → Forall plane_wf (bf_planes b) →
  0 < zlen (bf_planes b) ≤ 4 → d = zlen (bf_planes b) →
  decode_buffer (le_bytes 8 (bf_id b) ++ le_bytes 4 (bf_width b) ++ le_bytes 4 (bf_height b)
    ++ le_bytes 4 (bf_fourcc b) ++ le_bytes 4 zero1 ++ le_bytes 8 (bf_modifier b)
    ++ le_bytes 4 zero2 ++ le_bytes 4 (zlen (bf_planes b)) ++ concat (map plane_bytes (bf_planes b))) d
  = if buffer_guard b zero1 zero2 then Err EField else Ok b.
Proof.
  intros Hi Hw Hh Hf Hm Hz1 Hz2 Hp Hn ->.
  destruct b as [ident width height fourcc modifier planes]. cbn [bf_id bf_width bf_height
    bf_fourcc bf_modifier bf_planes] in *.
  assert (Hpl : decode_planes (le_bytes 8 ident ++ le_bytes 4 width ++ le_bytes 4 height
    ++ le_bytes 4 fourcc ++ le_bytes 4 zero1 ++ le_bytes 8 modifier
    ++ le_bytes 4 zero2 ++ le_bytes 4 (zlen planes) ++ concat (map plane_bytes planes)) 40
    (Z.to_nat (zlen planes)) = Ok planes).
  { pose proof (decode_planes_run planes (le_bytes 8 ident ++ le_bytes 4 width ++ le_bytes 4 height
      ++ le_bytes 4 fourcc ++ le_bytes 4 zero1 ++ le_bytes 8 modifier
      ++ le_bytes 4 zero2 ++ le_bytes 4 (zlen planes)) Hp) as H.
    rewrite !length_app, !length_le_bytes, <- !app_assoc in H. unfold zlen at 2.
    rewrite Nat2Z.id. exact H. }
  unfold decode_buffer.
  assert (Hz : zlen (le_bytes 8 ident ++ le_bytes 4 width ++ le_bytes 4 height
    ++ le_bytes 4 fourcc ++ le_bytes 4 zero1 ++ le_bytes 8 modifier
    ++ le_bytes 4 zero2 ++ le_bytes 4 (zlen planes) ++ concat (map plane_bytes planes))
    = 40 + zlen planes * 8).
  { unfold zlen. rewrite !length_app, !length_le_bytes, (length_concat_fixed _ 8) by apply length_plane_bytes.
    lia. }
  rewrite Hz. rewrite (proj2 (Z.ltb_ge _ 40)) by lia. cbn [fail_if]. rewrite ok_bind.
  read_fields. rewrite (proj2 (Z.eqb_neq (zlen planes) 0)), (proj2 (Z.ltb_ge 4 _)), !Z.eqb_refl by lia.
  cbn [orb negb fail_if]. rewrite ok_bind. read_fields. rewrite Hpl. read_fields.
  unfold buffer_guard. cbn [bf_id bf_width bf_height bf_fourcc bf_modifier bf_planes].
  by destruct (_ || _).
Qed.

Lemma buffer_guard_spec b zero1 zero2 :
  is_u32 (bf_width b) → is_u32 (bf_height b) → is_u64 (bf_modifier b) →
  buffer_guard b zero1 zero2 = false ↔
  bf_id b ≠ 0 ∧ 0 < bf_width b ≤ 16384 ∧ 0 < bf_height b ≤ 16384 ∧ bf_fourcc b ≠ 0
  ∧ bf_modifier b < u64_max ∧ zero1 = 0 ∧ zero2 = 0 ∧ Forall (λ p, pl_stride p ≠ 0) (bf_planes b).
Proof.
  intros Hw Hh Hm. unfold buffer_guard. rewrite !orb_false_iff.
  assert (Hs : existsb (λ p, pl_stride p =? 0) (bf_planes b) = false
    ↔ Forall (λ p, pl_stride p ≠ 0) (bf_planes b)).
  { rewrite <- not_true_iff_false, existsb_exists, Forall_forall. setoid_rewrite <- list_elem_of_In.
    setoid_rewrite Z.eqb_eq. naive_solver. }
  rewrite Hs. reflect. split; intros; destruct_and!; split_and!; try done; int_lia.
Qed.

(** The plane count of an accepted allocation fixes the packet's length. *)
Lemma decode_buffer_length p d b :
  Forall is_u8 p → decode_buffer p d = Ok b →
  0 < d ≤ 4 ∧ length p = (40 + Z.to_nat d * 8)%nat ∧ read_u32 p 36 = Ok d.
Proof.
  intros Hbs H. unfold decode_buffer in H. apply bind_Ok in H as (u & _ & H).
  apply bind_Ok in H as (n & Hn & H). apply bind_Ok in H as (u' & Hc%fail_if_Ok & _).
  assert (Hb : is_u32 n).
  { unfold read_u32, read_uint in Hn. destruct (decide _) in Hn; [|discriminate]. injection Hn as <-.
    pose proof (of_le_bytes_bound (take 4 (drop 36 p))) as Hb.
    rewrite length_take_le in Hb by (rewrite length_drop; lia).
    specialize (Hb ltac:(by apply Forall_take, Forall_drop)). uint_range. }
  reflect. unfold zlen in *. destruct Hc as [[[? ?] ->] ?]. split_and!; int_lia || done.
Qed.

Lemma decode_buffer_exact p d b :
  Forall is_u8 p →
  decode_buffer p d = Ok b ↔ buffer_ok b d ∧ p = buffer_bytes b.
Proof.
  intros Hbs. split.
  - intros H. destruct (decode_buffer_length p d b Hbs H) as (Hd & Hl & Hn).
    next_field 8%nat Hbs Hl ident. next_field 4%nat Hbs Hl width. next_field 4%nat Hbs Hl height.
    next_field 4%nat Hbs Hl fourcc. next_field 4%nat Hbs Hl zero1. next_field 8%nat Hbs Hl modifier.
    next_field 4%nat Hbs Hl zero2. next_field 4%nat Hbs Hl m.
    read_fields_in Hn. injection Hn as ->. rename rest6 into tail.
    destruct (planes_split (Z.to_nat d) tail Hbs) as (planes & -> & Hlp & Hp); [lia|].
    assert (Hz : d = zlen planes) by (unfold zlen; lia). rewrite Hz in H at 1 |- * at 2.
    rewrite (decode_allocation_run (mkBuffer ident width height fourcc modifier planes) zero1 zero2)
      in H by (cbn; (done || uint_range)).
    destruct (buffer_guard _ _ _) eqn:Eg; [discriminate|]. injection H as <-.
    apply buffer_guard_spec in Eg as (? & ? & ? & ? & ? & -> & -> & ?); [|cbn; uint_range..].
    cbn in *. split; [|done]. unfold buffer_ok. cbn.
    split_and!; try done; try uint_range. by apply Forall_and.
  - intros [(Hi & Hi0 & Hw & Hh & Hf & Hf0 & Hm & Hd & Hz & Hp) ->].
    apply Forall_and in Hp as [Hp Hs].
    rewrite (decode_allocation_run b 0 0) by (done || int_lia).
    by rewrite (proj2 (buffer_guard_spec b 0 0 ltac:(int_lia) ltac:(int_lia) ltac:(int_lia))) by (split_and!; done || lia).
Qed.

(** ** Packets *)

Definition commit_words (serial width height count : Z) : list Z :=
  le_bytes 4 serial ++ le_bytes 4 width ++ le_bytes 4 height ++ le_bytes 4 count.

Definition commit_ok (serial width height count : Z) : Prop :=
  is_u32 serial ∧ is_u32 width ∧ is_u32 height ∧ is_u32 count.

(** The request's opcode and payload. *)
Definition layer_wire (r : LayerRequest) : Z * list Z :=
  match r with
  | Config => (1, [])
  | SubscribeConfig => (8, [])
  | Register b => (2, buffer_bytes b)
  | RegisterAsync attempt b => (10, le_bytes 8 attempt ++ buffer_bytes b)
  | Unregister ident => (3, le_bytes 8 ident)
  | Stage l => (4, layer_bytes l)
  | StageAsync l => (7, layer_bytes l)
  | StageBatch layers => (11, batch_bytes layers)
  | CommitBatch scene serial width height count layers =>
      (12, le_bytes 8 scene ++ commit_words serial width height count ++ batch_bytes layers)
  | Commit serial width height count => (5, commit_words serial width height count)
  | CommitAsync scene serial width height count =>
      (9, le_bytes 8 scene ++ commit_words serial width height count)
  | AbortScene => (6, [])
  end.

(** The values and the descriptor count a request may carry. *)
Definition layer_request_ok (r : LayerRequest) (d : Z) : Prop :=
  match r with
  | Config | SubscribeConfig | AbortScene => d = 0
  | Register b => buffer_ok b d
  | RegisterAsync attempt b => 0 < attempt ∧ is_u64 attempt ∧ buffer_ok b d
  | Unregister ident => is_u64 ident ∧ d = 0
  | Stage l | StageAsync l => layer_wf l ∧ 0 ≤ d ≤ 1 ∧ (d = 1 → ly_buffer l ≠ 0)
  | StageBatch layers => batch_ok layers d
  | CommitBatch scene serial width height count layers =>
      0 < scene ∧ is_u64 scene ∧ commit_ok serial width height count ∧ batch_ok layers d
  | Commit serial width height count => commit_ok serial width height count ∧ d = 0
  | CommitAsync scene serial width height count =>
      0 < scene ∧ is_u64 scene ∧ commit_ok serial width height count ∧ d = 0
  end.

Definition layer_frame (opcode : Z) (payload : list Z) (d : Z) : list Z :=
  LAYER_MAGIC ++ le_bytes 4 opcode ++ le_bytes 4 (zlen payload) ++ le_bytes 4 d ++ payload.

Lemma length_batch_bytes layers :
  length (batch_bytes layers) = (4 + 76 * length layers)%nat.
Proof.
  unfold batch_bytes. rewrite length_app, length_le_bytes.
  by rewrite (length_concat_fixed _ 76) by apply length_record_bytes.
Qed.

Lemma length_buffer_bytes b :
  length (buffer_bytes b) = (40 + 8 * length (bf_planes b))%nat.
Proof.
  unfold buffer_bytes. rewrite !length_app, !length_le_bytes.
  rewrite (length_concat_fixed _ 8) by apply length_plane_bytes. lia.
Qed.

Lemma layer_wire_range r d :
  layer_request_ok r d →
  is_u32 (layer_wire r).1 ∧ zlen (layer_wire r).2 ≤ MAX_LAYER_PACKET - 16 ∧ 0 ≤ d ≤ 4.
Proof.
  change (MAX_LAYER_PACKET - 16) with 1244. unfold zlen.
  destruct r; cbn -[le_bytes]; unfold buffer_ok, batch_ok, commit_words, MAX_BATCH_LAYERS, zlen;
    intros H; rewrite ?length_app, ?length_buffer_bytes, ?length_batch_bytes, ?length_layer_bytes,
      ?length_le_bytes; cbn [length]; split_and!; int_lia.
Qed.

Lemma decode_commit_exact p r :
  Forall is_u8 p → zlen p = 16 →
  decode_commit p = Ok r ↔
  ∃ serial width height count, r = Commit serial width height count
    ∧ commit_ok serial width height count ∧ p = commit_words serial width height count.
Proof.
  intros Hbs Hl%(zlen_length _ 16). split.
  - next_field 4%nat Hbs Hl serial. next_field 4%nat Hbs Hl width. next_field 4%nat Hbs Hl height.
    next_field 4%nat Hbs Hl count. intros H. unfold decode_commit in H. read_fields_in H.
    injection H as <-. exists serial, width, height, count.
    split_and!; [done| |done]. unfold commit_ok. split_and!; uint_range.
  - intros (s & w & h & c & -> & (? & ? & ? & ?) & ->). unfold decode_commit, commit_words.
    by read_fields.
Qed.

Lemma decode_commit_async_exact p r :
  Forall is_u8 p → zlen p = 24 →
  decode_commit_async p = Ok r ↔
  ∃ scene serial width height count, r = CommitAsync scene serial width height count
    ∧ 0 < scene ∧ is_u64 scene ∧ commit_ok serial width height count
    ∧ p = le_bytes 8 scene ++ commit_words serial width height count.
Proof.
  intros Hbs Hl%(zlen_length _ 24). split.
  - next_field 8%nat Hbs Hl scene.
    next_field 4%nat Hbs Hl serial. next_field 4%nat Hbs Hl width. next_field 4%nat Hbs Hl height.
    next_field 4%nat Hbs Hl count. intros H. unfold decode_commit_async in H. read_fields_in H.
    apply bind_Ok in H as (u & Hz%fail_if_Ok & H). read_fields_in H. reflect.
    injection H as <-. exists scene, serial, width, height, count. unfold commit_ok.
    split_and!; try done; uint_range.
  - intros (sc & s & w & h & c & -> & Hp & ? & (? & ? & ? & ?) & ->).
    unfold decode_commit_async, commit_words. read_fields.
    rewrite (proj2 (Z.eqb_neq sc 0)) by lia. cbn [fail_if]. by read_fields.
Qed.

Lemma decode_commit_batch_exact p d r :
  Forall is_u8 p → 0 ≤ d → 28 ≤ zlen p →
  decode_commit_batch p d = Ok r ↔
  ∃ scene serial width height count layers, r = CommitBatch scene serial width height count layers
    ∧ 0 < scene ∧ is_u64 scene ∧ commit_ok serial width height count ∧ batch_ok layers d
    ∧ p = le_bytes 8 scene ++ commit_words serial width height count ++ batch_bytes layers.
Proof.
  intros Hbs Hd Hz. split.
  - assert (Hl : length p = (24 + (length p - 24))%nat) by (unfold zlen in Hz; lia).
    remember (length p - 24)%nat as k eqn:Ek. clear Ek Hz.
    next_field 8%nat Hbs Hl scene.
    next_field 4%nat Hbs Hl serial. next_field 4%nat Hbs Hl width. next_field 4%nat Hbs Hl height.
    next_field 4%nat Hbs Hl count. intros H. unfold decode_commit_batch in H. read_fields_in H.
    apply bind_Ok in H as (u & Hz%fail_if_Ok & H). read_fields_in H. reflect.
    change (drop 24 _) with rest3 in H. apply bind_Ok in H as (layers & Hb & [= <-]).
    apply decode_batch_exact in Hb as [Hok ->]; [|done..].
    exists scene, serial, width, height, count, layers. unfold commit_ok, commit_words.
    rewrite <- !app_assoc. split_and!; try done; uint_range.
  - intros (sc & s & w & h & c & layers & -> & Hp & ? & (? & ? & ? & ?) & Hok & ->).
    unfold commit_words in *. rewrite <- !app_assoc in *.
    unfold decode_commit_batch. read_fields.
    rewrite (proj2 (Z.eqb_neq sc 0)) by lia. cbn [fail_if]. read_fields.
    change (drop 24 _) with (batch_bytes layers).
    assert (Forall is_u8 (batch_bytes layers)) by (by do 5 apply Forall_app in Hbs as [_ Hbs]).
    by rewrite (proj2 (decode_batch_exact (batch_bytes layers) d layers ltac:(done) Hd)).
Qed.

Lemma decode_register_async_exact p d r :
  Forall is_u8 p →
  decode_register_async p d = Ok r ↔
  ∃ attempt b, r = RegisterAsync attempt b ∧ 0 < attempt ∧ is_u64 attempt ∧ buffer_ok b d
    ∧ p = le_bytes 8 attempt ++ buffer_bytes b.
Proof.
  intros Hbs. split.
  - intros H. assert (Hl : length p = (8 + (length p - 8))%nat).
    { unfold decode_register_async, read_u64, read_uint in H.
      destruct (decide _) in H; [lia|discriminate]. }
    remember (length p - 8)%nat as k eqn:Ek. clear Ek.
    next_field 8%nat Hbs Hl tries. unfold decode_register_async in H. read_fields_in H.
    apply bind_Ok in H as (u & Hz%fail_if_Ok & H). reflect.
    change (drop 8 _) with rest in H. apply bind_Ok in H as (b & Hb & [= <-]).
    apply decode_buffer_exact in Hb as [Hok ->]; [|done].
    exists tries, b. split_and!; try done; uint_range.
  - intros (a & b & -> & Hp & Ha & Hok & ->). apply Forall_app in Hbs as [_ Hbs].
    unfold decode_register_async. read_fields. rewrite (proj2 (Z.eqb_neq a 0)) by lia.
    cbn [fail_if]. rewrite ok_bind. change (drop 8 _) with (buffer_bytes b).
    by rewrite (proj2 (decode_buffer_exact _ d b Hbs)).
Qed.

Lemma stage_layer_exact p d l :
  Forall is_u8 p → zlen p = 72 → 0 ≤ d ≤ 1 →
  decode_layer p (negb (d =? 0)) = Ok l ↔
  layer_wf l ∧ (d = 1 → ly_buffer l ≠ 0) ∧ p = layer_bytes l.
Proof.
  intros Hbs Hl%(zlen_length _ 72) Hd. rewrite <- (app_nil_r p) at 1. split.
  - intros (Hw & -> & Hf)%decode_layer_Ok; [|done..]. split_and!; [done| |done].
    intros ->. by apply Hf.
  - intros (Hw & Hb & ->). rewrite decode_layer_run by done.
    assert (d = 0 ∨ d = 1) as [-> | ->] by lia; cbn [negb Z.eqb andb].
    + by rewrite andb_false_r.
    + by rewrite (proj2 (Z.eqb_neq _ 0) (Hb eq_refl)).
Qed.

Lemma layer_request_of_Ok opcode p d r :
  Forall is_u8 p → 0 ≤ d → layer_request_of opcode p d = Ok r →
  layer_request_ok r d ∧ layer_wire r = (opcode, p).
Proof.
  intros Hbs Hd H. unfold layer_request_of in H.
  assert (Hnil : zlen p = 0 → p = []) by (intros; apply length_zero_iff_nil; unfold zlen in *; lia).
  destruct (_ && _ && _) eqn:E in H.
  { reflect. destruct E as [[-> Hz] ->]. injection H as <-. by rewrite (Hnil Hz). }
  clear E. destruct (_ && _ && _) eqn:E in H.
  { reflect. destruct E as [[-> Hz] ->]. injection H as <-. by rewrite (Hnil Hz). }
  clear E. destruct (Z.eqb_spec opcode 2) as [->|_].
  { apply bind_Ok in H as (b & Hb & [= <-]). apply decode_buffer_exact in Hb as [Hb ->]; done. }
  destruct (Z.eqb_spec opcode 10) as [->|_].
  { apply decode_register_async_exact in H as (a & b & -> & ? & ? & ? & ->); done. }
  destruct (_ && _ && _) eqn:E in H.
  { reflect. destruct E as [[-> Hz%(zlen_length _ 8)] ->]. next_field 8%nat Hbs Hz ident.
    read_fields_in H. injection H as <-. cbn. split_and!; uint_range || done. }
  clear E. destruct (_ && _ && _) eqn:E in H.
  { apply bind_Ok in H as (l & Hl & [= <-]). rewrite !andb_true_iff, orb_true_iff in E. reflect.
    destruct E as [[Ho Hz] Hd1]. apply stage_layer_exact in Hl as (Hw & Hb & ->); [|done..|lia].
    destruct Ho as [-> | ->]; cbn; split_and!; done || lia. }
  clear E. destruct (Z.eqb_spec opcode 11) as [->|_].
  { apply bind_Ok in H as (ls & Hb & [= <-]). apply decode_batch_exact in Hb as [Hb ->]; done. }
  destruct (_ && _) eqn:E in H.
  { reflect. destruct E as [-> Hz].
    apply decode_commit_batch_exact in H as (? & ? & ? & ? & ? & ? & -> & ? & ? & ? & ? & ->); done. }
  clear E. destruct (_ && _ && _) eqn:E in H.
  { reflect. destruct E as [[-> Hz] ->].
    apply decode_commit_exact in H as (? & ? & ? & ? & -> & ? & ->); done. }
  clear E. destruct (_ && _ && _) eqn:E in H.
  { reflect. destruct E as [[-> Hz] ->].
    apply decode_commit_async_exact in H as (? & ? & ? & ? & ? & -> & ? & ? & ? & ->); done. }
  clear E. destruct (_ && _ && _) eqn:E in H; [|discriminate].
  reflect. destruct E as [[-> Hz] ->]. injection H as <-. by rewrite (Hnil Hz).
Qed.

Lemma layer_request_of_run r d opcode p :
  Forall is_u8 p → layer_request_ok r d → layer_wire r = (opcode, p) →
  layer_request_of opcode p d = Ok r.
Proof.
  intros Hbs Hok. destruct r; cbn [layer_wire layer_request_ok] in *;
    intros [<- <-]%pair_equal_spec;
    unfold layer_request_of; cbn [Z.eqb Pos.eqb andb orb].
  - by subst d.
  - by subst d.
  - unfold decode_register. by rewrite (proj2 (decode_buffer_exact _ d buffer Hbs)).
  - destruct Hok as (? & ? & ?). apply decode_register_async_exact; [done|]. by exists attempt, buffer.
  - destruct Hok as [Hi ->]. change (zlen (le_bytes 8 id)) with 8. cbn [Z.eqb Pos.eqb andb]. by read_fields.
  - destruct Hok as (? & ? & ?).
    assert (Hz : zlen (layer_bytes layer) = 72) by (unfold zlen; by rewrite length_layer_bytes).
    rewrite Hz, (proj2 (Z.leb_le d 1)) by lia. cbn [Z.eqb Pos.eqb andb].
    by rewrite (proj2 (stage_layer_exact _ d layer Hbs Hz ltac:(lia))).
  - destruct Hok as (? & ? & ?).
    assert (Hz : zlen (layer_bytes layer) = 72) by (unfold zlen; by rewrite length_layer_bytes).
    rewrite Hz, (proj2 (Z.leb_le d 1)) by lia. cbn [Z.eqb Pos.eqb andb].
    by rewrite (proj2 (stage_layer_exact _ d layer Hbs Hz ltac:(lia))).
  - destruct Hok as (? & ? & ? & ?). rewrite (proj2 (decode_batch_exact _ d layers Hbs ltac:(lia))); done.
  - destruct Hok as (? & ? & ? & Hb). destruct Hb as (? & ? & ? & ?).
    assert (Hz : 28 ≤ zlen (le_bytes 8 scene ++ commit_words serial width height count
      ++ batch_bytes layers)).
    { unfold zlen, commit_words in *. rewrite !length_app, !length_le_bytes, length_batch_bytes. lia. }
    rewrite (proj2 (Z.leb_le _ _) Hz). apply decode_commit_batch_exact; [done|lia|done|].
    by exists scene, serial, width, height, count, layers.
  - destruct Hok as [? ->]. change (zlen (commit_words serial width height count)) with 16.
    cbn [Z.eqb Pos.eqb andb]. apply decode_commit_exact; [done|done|].
    by exists serial, width, height, count.
  - destruct Hok as (? & ? & ? & ->).
    change (zlen (le_bytes 8 scene ++ commit_words serial width height count)) with 24.
    cbn [Z.eqb Pos.eqb andb]. apply decode_commit_async_exact; [done|done|].
    by exists scene, serial, width, height, count.
  - by subst d.
Qed.

Lemma layer_frame_run r d :
  layer_request_ok r d → Forall is_u8 (layer_wire r).2 →
  decode (layer_frame (layer_wire r).1 (layer_wire r).2 d) d = Ok r.
Proof.
  intros Hok Hbs. pose proof (layer_wire_range r d Hok) as (Ho & Hz & Hd).
  destruct (layer_wire r) as [opcode p] eqn:Ew. cbn [fst snd] in *.
  assert (Hlen : zlen (layer_frame opcode p d) = 16 + zlen p).
  { unfold layer_frame, zlen. rewrite !length_app, !length_le_bytes. cbn. lia. }
  assert (Hp : 0 ≤ zlen p) by (unfold zlen; lia).
  unfold decode. rewrite Hlen. unfold MAX_LAYER_PACKET, MAX_BATCH_LAYERS in *.
  rewrite (proj2 (Z.ltb_ge _ 16)), (proj2 (Z.ltb_ge (16 + 28 + 16 * 76) _)) by lia.
  change (take 4 (layer_frame opcode p d)) with LAYER_MAGIC. rewrite bool_decide_eq_true_2 by done.
  cbn [orb negb fail_if]. rewrite ok_bind. change (drop 16 (layer_frame opcode p d)) with p.
  unfold layer_frame, read_u32. rewrite !(read_uint_skip _ 4 LAYER_MAGIC) by (done || lia).
  read_fields. rewrite (proj2 (Z.eqb_eq (zlen p) _)) by lia. rewrite Z.eqb_refl.
  cbn [negb fail_if]. rewrite !ok_bind. by apply layer_request_of_run.
Qed.

Lemma decode_layer_frame bytes d r :
  Forall is_u8 bytes → 0 ≤ d → decode bytes d = Ok r →
  layer_request_ok r d ∧ bytes = layer_frame (layer_wire r).1 (layer_wire r).2 d.
Proof.
  intros Hbs Hd H. unfold decode in H. apply bind_Ok in H as (u & Hlen & H).
  apply fail_if_Ok in Hlen. reflect. destruct Hlen as [[Hlo Hhi] Hmagic].
  assert (Hl : length (drop 4 bytes) = (12 + (length bytes - 16))%nat)
    by (unfold zlen in *; rewrite length_drop; lia).
  rewrite <- (take_drop 4 bytes), Hmagic in Hbs, H. rewrite <- (take_drop 4 bytes), Hmagic.
  remember (length bytes - 16)%nat as k eqn:Ek. clear Hlo Hhi Ek.
  apply Forall_app in Hbs as [_ Hbs]. remember (drop 4 bytes) as b eqn:Eb. clear Eb Hmagic.
  next_field 4%nat Hbs Hl op. next_field 4%nat Hbs Hl len. next_field 4%nat Hbs Hl count.
  unfold read_u32 in H. rewrite !(read_uint_skip _ 4 LAYER_MAGIC) in H by (done || lia).
  read_fields_in H. apply bind_Ok in H as (? & Hn%fail_if_Ok & H). read_fields_in H.
  apply bind_Ok in H as (? & Hc%fail_if_Ok & H). read_fields_in H. reflect. subst count.
  change (drop 16 _) with rest1 in H.
  assert (len = zlen rest1) as ->.
  { unfold zlen in *. rewrite !length_app, !length_le_bytes in Hn. cbn in Hn. lia. }
  apply layer_request_of_Ok in H as [Hok Hw]; [|done..]. by rewrite Hw.
Qed.

(** C15: the layer stream accepts exactly its packets.  Over all byte strings
    and descriptor counts, [decode] returns a request if and only if the packet
    is that request's framed wire form and its values and descriptors are
    admissible: one descriptor per plane, at most one acquire fence on a
    staged layer and none on a solid one, nonzero scene and import identities,
    bounded batches with every descriptor owned once. *)
Theorem layer_packets_exact bytes d r :
  Forall is_u8 bytes → 0 ≤ d →
  decode bytes d = Ok r ↔
  layer_request_ok r d ∧ bytes = layer_frame (layer_wire r).1 (layer_wire r).2 d.
Proof.
  intros Hbs Hd. split; [by apply decode_layer_frame|].
  intros [Hok ->]. apply layer_frame_run; [done|].
  unfold layer_frame in Hbs. by do 4 apply Forall_app in Hbs as [_ Hbs].
Qed.

Definition sample_batch : list BatchLayer :=
  [mkBatchLayer sample_layer (Some 1%nat);
   mkBatchLayer (mkLayer 3 10 11 (0, 0, 8, 6) (0, 0, 2048, 1536) 0 7 false 0) (Some 0%nat)].

Lemma layer_packets_exact_witness :
  layer_request_ok (CommitBatch 7 17 800 600 2 sample_batch) 2.
Proof.
  set (r := CommitBatch 7 17 800 600 2 sample_batch).
  destruct (layer_packets_exact (layer_frame (layer_wire r).1 (layer_wire r).2 2) 2 r) as [Hd _].
  - apply (bool_decide_unpack _). vm_compute. exact I.
  - lia.
  - apply Hd. vm_compute. reflexivity.
Defined.

(** Every attached descriptor has exactly one owner.  In an accepted batch
    the layers' fence indices are a permutation of the attached descriptors:
    none is dropped, shared or out of range, and only layers that read an
    allocation carry one; at most 16 layers and 4 descriptors are accepted. *)
Theorem batch_fences_owned_once p d layers :
  Forall is_u8 p → 0 ≤ d → decode_batch p d = Ok layers →
  fences layers ≡ₚ seq 0 (Z.to_nat d)
  ∧ (∀ l, l ∈ layers → is_Some (bl_fence_index l) → ly_buffer (bl_layer l) ≠ 0)
  ∧ 0 < zlen layers ≤ MAX_BATCH_LAYERS ∧ d ≤ 4.
Proof.
  intros Hbs Hd H. apply decode_batch_exact in H as [(Hn & Hd4 & Hok & Hp) _]; [|done..].
  split_and!; [done| |lia..]. intros l Hl. rewrite Forall_forall in Hok. by apply Hok.
Qed.

Lemma batch_fences_owned_once_witness :
  fences sample_batch ≡ₚ seq 0 (Z.to_nat 2).
Proof.
  apply (batch_fences_owned_once (batch_bytes sample_batch) 2 sample_batch).
  - apply (bool_decide_unpack _). vm_compute. exact I.
  - lia.
  - vm_compute. reflexivity.
Defined.

(** ** Replies

    The event socket's records carry no descriptor except the release fence's
    one, and scene, import and release identities are never confused. *)
Lemma response_frame opcode words d :
  length words = d → (d ≤ 64)%nat →
  response opcode words = layer_frame opcode (words_bytes words) 0.
Proof.
  intros <- Hd. unfold response, layer_frame, words_bytes. cbn [map concat]. rewrite app_nil_r.
  assert (Hz : zlen (concat (map (le_bytes 4) words)) = zlen words * 4).
  { unfold zlen. rewrite (length_concat_fixed _ 4) by apply length_le_bytes. lia. }
  rewrite Hz, Z.mod_small by (unfold zlen; lia). by rewrite <- !app_assoc.
Qed.

Lemma release_fence_frame ticket :
  release_fence ticket
  = layer_frame 0x8004 (words_bytes [low_word ticket; high_word ticket]) 1.
Proof. reflexivity. Qed.

Lemma words_split x :
  is_u64 x → low_word x + 4294967296 * high_word x = x ∧ is_u32 (low_word x) ∧ is_u32 (high_word x).
Proof.
  intros Hx. unfold low_word, high_word. rewrite Z.shiftr_div_pow2 by lia.
  change (2 ^ 32) with 4294967296.
  pose proof (Z.div_mod x 4294967296 ltac:(lia)). pose proof (Z.mod_pos_bound x 4294967296 ltac:(lia)).
  assert (0 ≤ x / 4294967296 < 4294967296)
    by (split; [apply Z.div_pos; int_lia|apply Z.div_lt_upper_bound; int_lia]).
  rewrite (Z.mod_small (x / 4294967296)) by done. int_lia.
Qed.

(** Completion records identify their subject.  An import result is
    determined by its attempt, allocation and status, and a commit result by
    its scene and status: equal bytes mean equal subjects, over the whole
    64-bit identity space. *)
Theorem results_identify a a' b b' c c' :
  is_u64 a → is_u64 a' → is_u64 b → is_u64 b' → is_i32 c → is_i32 c' →
  (import_result a b c = import_result a' b' c' → a = a' ∧ b = b' ∧ c = c')
  ∧ (commit_result a c = commit_result a' c' → a = a' ∧ c = c').
Proof.
  intros Ha Ha' Hb Hb' Hc Hc'.
  destruct (words_split a Ha) as (Ea & La & Ua), (words_split a' Ha') as (Ea' & La' & Ua').
  destruct (words_split b Hb) as (Eb & Lb & Ub), (words_split b' Hb') as (Eb' & Lb' & Ub').
  assert (Hm : ∀ x, 0 ≤ as_u32 x < uint_bound 4)
    by (intros; unfold as_u32; change (uint_bound 4) with 4294967296; apply Z.mod_pos_bound; lia).
  pose proof (Hm c). pose proof (Hm c').
  assert (Hi : as_u32 c = as_u32 c' → c = c').
  { intros E. rewrite <- (i32_of_u32_inv c), <- (i32_of_u32_inv c') by done.
    unfold as_u32 in E. by rewrite E. }
  unfold import_result, commit_result. rewrite !(response_frame _ _ 5), !(response_frame _ _ 3) by (done || lia).
  unfold layer_frame, words_bytes. cbn [map concat]. rewrite !app_nil_r.
  split; intros E; apply app_inv_head in E;
    do 3 (apply app_inj_1 in E as [_ E]; [|by rewrite !length_le_bytes]); split_words E.
  - split_and!; [lia|lia|]. apply Hi. lia.
  - split_and!; [lia|]. apply Hi. lia.
Qed.
