(* ===== verification/FrameGrants.v ===== *)
(** * Frame grants and the presenter's clock
      (graphics/droidloom-wayland/src/frame_timeline.rs, clock.rs)

    A compositor that offers exact frame timelines grants each task one latch
    deadline at a time; the presenter consumes a grant for at most one frame
    and accounts for how every grant ended.  All timeline subscriptions are
    armed together while Android draws and disarmed together when it is idle. *)

From S2P Require Import Prelude.

(** ** Grants *)

Record Identity : Type := mkIdentity { id_epoch : Z; id_sequence : Z }.

#[global] Instance Identity_eq_dec : EqDecision Identity.
Proof. solve_decision. Defined.

#[global] Instance Identity_countable : Countable Identity.
Proof.
  refine (inj_countable' (λ i, (id_epoch i, id_sequence i)) (λ p, mkIdentity p.1 p.2) _).
  by intros [].
Defined.

Record Grant : Type := mkGrant {
  gr_identity : Identity;
  gr_latch_deadline_ns : Z;
  gr_presentation_target_ns : Z;
  gr_refresh_period_ns : Z
}.

Inductive Terminal : Type := Presented | Skipped | Missed | Configured | EpochEnded.

(** [terminal as usize]. *)
Definition terminal_index (t : Terminal) : nat :=
  match t with Presented => 0 | Skipped => 1 | Missed => 2 | Configured => 3 | EpochEnded => 4 end.

(** [u64::saturating_add] and [saturating_sub]. *)
Definition saturating_add (x y : Z) : Z := Z.min u64_max (x + y).
Definition saturating_sub (x y : Z) : Z := Z.max 0 (x - y).

(** ** The wire form *)

Inductive PresenterError : Type := InvalidNanos | TimestampOverflow.

Definition join (hi lo : Z) : Z := Z.lor (Z.shiftl hi 32) lo.
Definition split_point (point : Z) : Z * Z := (Z.shiftr point 32, Z.land point u32_max).

Definition presentation_timestamp_nanos (seconds nanos : Z) : result PresenterError Z :=
  if 1000000000 <=? nanos then Err InvalidNanos
  else if u64_max <? seconds * 1000000000 then Err TimestampOverflow
  else ok_or (checked_add u64_max (seconds * 1000000000) nanos) TimestampOverflow.

Record GrantEvent : Type := mkGrantEvent {
  ge_epoch : Z * Z;
  ge_sequence : Z * Z;
  ge_latch_sec : Z * Z;
  ge_latch_nsec : Z;
  ge_target_sec : Z * Z;
  ge_target_nsec : Z;
  ge_period_ns : Z * Z
}.

Definition wire_grant (e : GrantEvent) : result PresenterError Grant :=
  latch ← presentation_timestamp_nanos (join (ge_latch_sec e).1 (ge_latch_sec e).2) (ge_latch_nsec e);
  target ← presentation_timestamp_nanos (join (ge_target_sec e).1 (ge_target_sec e).2)
             (ge_target_nsec e);
  mret (mkGrant
    (mkIdentity (join (ge_epoch e).1 (ge_epoch e).2) (join (ge_sequence e).1 (ge_sequence e).2))
    latch target (join (ge_period_ns e).1 (ge_period_ns e).2)).

(** ** The schedule of one task *)

Record Schedule : Type := mkSchedule {
  sc_epoch : option Z;
  sc_last_sequence : Z;
  sc_offered : option Grant;
  sc_consumed : gset Identity;
  sc_terminal : list Z
}.

Definition schedule_default : Schedule := mkSchedule None 0 None ∅ [0; 0; 0; 0; 0].

Definition with_offered (o : option Grant) (s : Schedule) : Schedule :=
  mkSchedule (sc_epoch s) (sc_last_sequence s) o (sc_consumed s) (sc_terminal s).
Definition with_consumed (c : gset Identity) (s : Schedule) : Schedule :=
  mkSchedule (sc_epoch s) (sc_last_sequence s) (sc_offered s) c (sc_terminal s).

Definition count (t : Terminal) (s : Schedule) : Schedule :=
  mkSchedule (sc_epoch s) (sc_last_sequence s) (sc_offered s) (sc_consumed s)
    (alter (λ n, saturating_add n 1) (terminal_index t) (sc_terminal s)).

Definition finish (i : Identity) (t : Terminal) (s : Schedule) : Schedule :=
  if bool_decide (i ∈ sc_consumed s) then count t (with_consumed (sc_consumed s ∖ {[i]}) s) else s.

(** [if self.offered.take().is_some() { self.count(terminal) }]. *)
Definition drop_offer (t : Terminal) (s : Schedule) : Schedule :=
  match sc_offered s with Some _ => count t (with_offered None s) | None => s end.

(** [while self.consumed.pop_first().is_some() { self.count(terminal) }]. *)
Definition drop_consumed (t : Terminal) (s : Schedule) : Schedule :=
  Nat.iter (size (sc_consumed s)) (count t) (with_consumed ∅ s).

Definition clear (t : Terminal) (s : Schedule) : Schedule := drop_consumed t (drop_offer t s).

Definition set_epoch (epoch : Z) (s : Schedule) : Schedule :=
  if bool_decide (sc_epoch s = Some epoch) then s
  else
    let s := clear EpochEnded s in
    mkSchedule (Some epoch) 0 (sc_offered s) (sc_consumed s) (sc_terminal s).

(** The grants [offer] ignores. *)
Definition refused (g : Grant) (s : Schedule) : bool :=
  negb (bool_decide (sc_epoch s = Some (id_epoch (gr_identity g))))
  || (id_sequence (gr_identity g) <=? sc_last_sequence s)
  || (gr_refresh_period_ns g =? 0)
  || (gr_presentation_target_ns g <=? gr_latch_deadline_ns g).

Definition offer (g : Grant) (now : Z) (s : Schedule) : Schedule :=
  if refused g s then s
  else
    let s := match sc_offered s with
             | Some previous =>
                 count (if gr_latch_deadline_ns previous <=? now then Missed else Skipped)
                   (with_offered None s)
             | None => s
             end in
    mkSchedule (sc_epoch s) (id_sequence (gr_identity g)) (Some g) (sc_consumed s) (sc_terminal s).

Definition consume (now : Z) (s : Schedule) : Schedule * option Grant :=
  match sc_offered s with
  | None => (s, None)
  | Some g =>
      let s := with_offered None s in
      if gr_latch_deadline_ns g <=? now then (count Missed s, None)
      else (with_consumed ({[gr_identity g]} ∪ sc_consumed s) s, Some g)
  end.

(** ** Subscriptions and the task's timeline *)

(** The requests a subscription sends on its timeline object. *)
Inductive TimelineRequest : Type := SetActive (active : bool) | DestroyTimeline.

Record Subscription : Type := mkSubscription {
  su_output : Z;
  su_proxy : Z;
  su_armed : bool
}.

Definition subscription_new (output proxy : Z) (armed : bool) : Subscription * list TimelineRequest :=
  (mkSubscription output proxy armed, if armed then [SetActive true] else []).

Definition subscription_arm (armed : bool) (s : Subscription) : Subscription * list TimelineRequest :=
  if Bool.eqb (su_armed s) armed then (s, [])
  else (mkSubscription (su_output s) (su_proxy s) armed, [SetActive armed]).

(** [impl Drop for Subscription]. *)
Definition subscription_drop (s : Subscription) : list TimelineRequest :=
  if su_armed s then [SetActive false; DestroyTimeline] else [DestroyTimeline].

Record Target : Type := mkTarget { ta_timeline : Z; ta_identity : Identity; ta_latch_ns : Z }.

(** The frame queued behind the next grant belongs to the task's present path
    and is not part of the grant state. *)
Record Timeline : Type := mkTimeline {
  tl_exact : bool;
  tl_surface : bool;
  tl_subscription : option Subscription;
  tl_schedule : Schedule;
  tl_late : Z
}.

Definition timeline_new (manager surface : bool) : Timeline :=
  mkTimeline (manager && surface) (manager && surface) None schedule_default 0.

Definition with_schedule (s : Schedule) (t : Timeline) : Timeline :=
  mkTimeline (tl_exact t) (tl_surface t) (tl_subscription t) s (tl_late t).
Definition with_subscription (s : option Subscription) (t : Timeline) : Timeline :=
  mkTimeline (tl_exact t) (tl_surface t) s (tl_schedule t) (tl_late t).

Definition timeline_finish (i : option Identity) (term : Terminal) (t : Timeline) : Timeline :=
  match i with Some i => with_schedule (finish i term (tl_schedule t)) t | None => t end.

(** [Some(None)] is a reservation without a target: show the frame at once. *)
Definition reserve (now : Z) (t : Timeline) : Timeline * option (option Target) :=
  if negb (tl_exact t) then (t, Some None)
  else match tl_subscription t with
  | None => (t, None)
  | Some sub =>
      if negb (su_armed sub) then (t, Some None)
      else
        let late := match sc_offered (tl_schedule t) with
                    | Some g => gr_latch_deadline_ns g <=? now
                    | None => false
                    end in
        match consume now (tl_schedule t) with
        | (s, None) =>
            (mkTimeline (tl_exact t) (tl_surface t) (tl_subscription t) s
               (tl_late t + (if late then 1 else 0)), None)
        | (s, Some g) =>
            (with_schedule s t,
             Some (Some (mkTarget (su_proxy sub) (gr_identity g) (gr_latch_deadline_ns g))))
        end
  end.

Definition timeline_arm (armed : bool) (t : Timeline) : Timeline * list TimelineRequest :=
  let '(sub, requests) :=
    match tl_subscription t with
    | Some s => let '(s, r) := subscription_arm armed s in (Some s, r)
    | None => (None, [])
    end in
  let t := with_subscription sub t in
  (if armed then t else with_schedule (drop_offer Skipped (tl_schedule t)) t, requests).

Definition timeline_stop (t : Timeline) : Timeline :=
  mkTimeline (tl_exact t) false None (clear EpochEnded (tl_schedule t)) (tl_late t).

(** [retire_feedback]: every drained callback ends its grant; frames are
    also forgotten by the endpoint. *)
Definition retire_feedback (term : Terminal) (scenes : list (option Identity))
    (frames : list (Z * option Identity)) (t : Timeline) : Timeline * list Z :=
  let t := foldl (λ t grant, timeline_finish grant term t) t scenes in
  (foldl (λ t f, timeline_finish f.2 term t) t frames, frames.*1).

(** ** The clock *)

(** The counters of the [audit] diagnostic are left out: nothing reads them but
    the log. *)
Definition IDLE_NANOS : Z := 250000000.

Record Clock : Type := mkClock {
  ck_subscription : option Subscription;
  ck_armed : bool;
  ck_last_frame_nanos : Z
}.

(** The clock and the timelines of the tasks, by object. *)
Record ClockApp : Type := mkClockApp { ca_clock : Clock; ca_tasks : gmap Z Timeline }.

Definition arm_timelines (armed : bool) (app : ClockApp) : ClockApp :=
  let clock := ca_clock app in
  mkClockApp
    (mkClock (fst ∘ subscription_arm armed <$> ck_subscription clock) armed
       (ck_last_frame_nanos clock))
    (fst ∘ timeline_arm armed <$> ca_tasks app).

Definition android_frame (now : Z) (app : ClockApp) : ClockApp :=
  let clock := ca_clock app in
  let app := mkClockApp (mkClock (ck_subscription clock) (ck_armed clock) now) (ca_tasks app) in
  if ck_armed (ca_clock app) then app else arm_timelines true app.

Definition clock_idle_check (now : Z) (app : ClockApp) : ClockApp :=
  if negb (ck_armed (ca_clock app)) then app
  else if IDLE_NANOS <=? saturating_sub now (ck_last_frame_nanos (ca_clock app))
  then arm_timelines false app else app.
