(* ===== verification/FrameGrantsSpec.v ===== *)
(** * What the frame grants promise

    Every accepted grant ends exactly once, no frame is shown against a grant
    whose latch has passed, and all subscriptions are armed together. *)

From S2P Require Import Prelude FrameGrants.

(** ** Accounting *)

Definition total (s : Schedule) : Z := foldr Z.add 0 (sc_terminal s).
Definition outstanding (s : Schedule) : Z :=
  Z.of_nat (size (sc_consumed s)) + match sc_offered s with Some _ => 1 | None => 0 end.

(** [n] grants were accepted since the schedule was created. *)
Record schedule_inv (n : Z) (s : Schedule) : Prop := {
  si_shape : length (sc_terminal s) = 5%nat ∧ Forall (λ c, 0 ≤ c) (sc_terminal s);
  si_account : total s + outstanding s = n;
  si_offered : ∀ g, sc_offered s = Some g →
    sc_epoch s = Some (id_epoch (gr_identity g)) ∧ id_sequence (gr_identity g) = sc_last_sequence s
    ∧ (gr_identity g ∉ sc_consumed s) ∧ gr_latch_deadline_ns g < gr_presentation_target_ns g;
  si_consumed : ∀ i, i ∈ sc_consumed s →
    sc_epoch s = Some (id_epoch i) ∧ id_sequence i ≤ sc_last_sequence s
}.

Lemma foldr_alter_add (l : list Z) i :
  (i < length l)%nat → Forall (λ c, 0 ≤ c) l → foldr Z.add 0 l < u64_max →
  foldr Z.add 0 (alter (λ n, saturating_add n 1) i l) = foldr Z.add 0 l + 1
  ∧ Forall (λ c, 0 ≤ c) (alter (λ n, saturating_add n 1) i l).
Proof.
  assert (Hpos : ∀ l : list Z, Forall (λ c, 0 ≤ c) l → 0 ≤ foldr Z.add 0 l)
    by (induction 1; cbn; lia).
  revert i. induction l as [|c l IH]; intros i Hi Hl Ht; cbn in Hi; [lia|].
  apply Forall_cons in Hl as [Hc Hl]. specialize (Hpos l Hl). cbn in Ht.
  destruct i as [|i]; cbn -[saturating_add].
  - unfold saturating_add. rewrite Z.min_r by lia. split; [lia|constructor; [lia|done]].
  - destruct (IH i ltac:(lia) Hl ltac:(lia)) as [Hs Hf]. unfold alter in *. rewrite Hs.
    split; [lia|by constructor].
Qed.

(** The shape of the counters and what they add up to. *)
Definition counters (k : Z) (s : Schedule) : Prop :=
  length (sc_terminal s) = 5%nat ∧ Forall (λ c, 0 ≤ c) (sc_terminal s) ∧ total s = k.

Lemma count_counters k t s : counters k s → k < u64_max → counters (k + 1) (count t s).
Proof.
  intros (Hl & Hf & Ht) Hk. unfold counters, count, total in *. cbn [sc_terminal].
  destruct (foldr_alter_add (sc_terminal s) (terminal_index t)) as [Hs Hf'];
    [rewrite Hl; by destruct t; cbn; lia|done|lia|].
  split_and!; [by rewrite length_alter|done|lia].
Qed.

Lemma iter_count_counters t m : ∀ k s,
  counters k s → k + Z.of_nat m ≤ u64_max → counters (k + Z.of_nat m) (Nat.iter m (count t) s).
Proof.
  induction m as [|m IH]; intros k s Hc Hk; cbn [Nat.iter].
  - by rewrite Z.add_0_r.
  - replace (k + Z.of_nat (S m)) with (k + Z.of_nat m + 1) by lia.
    apply count_counters; [apply IH; [done|lia]|lia].
Qed.

(** Counting leaves everything but the counters alone. *)
Lemma iter_count_fields t m s :
  let s' := Nat.iter m (count t) s in
  sc_epoch s' = sc_epoch s ∧ sc_last_sequence s' = sc_last_sequence s
  ∧ sc_offered s' = sc_offered s ∧ sc_consumed s' = sc_consumed s.
Proof. cbn zeta. induction m as [|m IH]; cbn; [done|]. exact IH. Qed.

Lemma schedule_inv_counters n s : schedule_inv n s ↔
  counters (n - outstanding s) s
  ∧ (∀ g, sc_offered s = Some g →
      sc_epoch s = Some (id_epoch (gr_identity g)) ∧ id_sequence (gr_identity g) = sc_last_sequence s
      ∧ (gr_identity g ∉ sc_consumed s) ∧ gr_latch_deadline_ns g < gr_presentation_target_ns g)
  ∧ (∀ i, i ∈ sc_consumed s → sc_epoch s = Some (id_epoch i) ∧ id_sequence i ≤ sc_last_sequence s).
Proof.
  unfold counters. split.
  - intros [[? ?] ? ? ?]. split_and!; [done|done|lia|done|done].
  - intros ((? & ? & ?) & ? & ?). by constructor; [|lia|..].
Qed.

Lemma drop_offer_inv n t s :
  n ≤ u64_max → schedule_inv n s → schedule_inv n (drop_offer t s) ∧ sc_offered (drop_offer t s) = None.
Proof.
  intros Hn Hi. unfold drop_offer. destruct (sc_offered s) as [g|] eqn:E; [|done].
  apply schedule_inv_counters in Hi as (Hc & _ & Hs). split; [|done].
  apply schedule_inv_counters. unfold outstanding in *. rewrite E in Hc. cbn. split_and!; [|done|done].
  replace (n - (Z.of_nat (size (sc_consumed s)) + 0))
    with (n - (Z.of_nat (size (sc_consumed s)) + 1) + 1) by lia.
  apply count_counters; [exact Hc|lia].
Qed.

Lemma clear_inv n t s :
  n ≤ u64_max → schedule_inv n s →
  schedule_inv n (clear t s) ∧ sc_offered (clear t s) = None ∧ sc_consumed (clear t s) = ∅.
Proof.
  intros Hn Hi. unfold clear. destruct (drop_offer_inv n t s Hn Hi) as [Hd Ho].
  remember (drop_offer t s) as d eqn:Ed. clear Ed Hi. unfold drop_consumed.
  destruct (iter_count_fields t (size (sc_consumed d)) (with_consumed ∅ d)) as (_ & _ & Ho' & Hc').
  cbn [with_consumed sc_offered sc_consumed] in Ho', Hc'. rewrite Ho in Ho'.
  split; [|by rewrite Ho', Hc'].
  apply schedule_inv_counters in Hd as (Hc & _ & _). apply schedule_inv_counters.
  rewrite Ho', Hc'. split_and!; [|done|by intros i ?%elem_of_empty].
  unfold outstanding in *. rewrite Ho in Hc. rewrite Ho', Hc', size_empty.
  replace (n - (Z.of_nat 0 + 0))
    with (n - (Z.of_nat (size (sc_consumed d)) + 0) + Z.of_nat (size (sc_consumed d))) by lia.
  apply iter_count_counters; [exact Hc|lia].
Qed.

Lemma finish_inv n i t s : n ≤ u64_max → schedule_inv n s → schedule_inv n (finish i t s).
Proof.
  intros Hn Hi. unfold finish. case_bool_decide as Hin; [|done].
  apply schedule_inv_counters in Hi as (Hc & Ho & Hs). apply schedule_inv_counters.
  assert (Hsz : (size (sc_consumed s) = 1 + size (sc_consumed s ∖ {[i]}))%nat).
  { rewrite (union_difference_L {[i]} (sc_consumed s)) at 1 by set_solver.
    rewrite size_union by set_solver. by rewrite size_singleton. }
  cbn. split_and!.
  - unfold outstanding in *. cbn [sc_consumed sc_offered count with_consumed].
    match goal with |- counters ?k _ => replace k with (n - (Z.of_nat (size (sc_consumed s))
      + match sc_offered s with Some _ => 1 | None => 0 end) + 1) by lia end.
    apply count_counters; [exact Hc|]. destruct (sc_offered s); lia.
  - intros g Hg. destruct (Ho g Hg) as (? & ? & ? & ?). split_and!; try done. set_solver.
  - intros j Hj. apply Hs. set_solver.
Qed.

Lemma epoch_inv n e s : n ≤ u64_max → schedule_inv n s → schedule_inv n (set_epoch e s).
Proof.
  intros Hn Hi. unfold set_epoch. case_bool_decide; [done|].
  destruct (clear_inv n EpochEnded s Hn Hi) as (Hc & Ho & Hs).
  apply schedule_inv_counters in Hc as (Hc & _ & _). apply schedule_inv_counters.
  unfold outstanding in *. cbn. rewrite Ho, Hs in *. split_and!; [exact Hc|done|].
  intros i ?%elem_of_empty. done.
Qed.

Lemma offer_inv n g now s :
  n < u64_max → schedule_inv n s →
  schedule_inv (if refused g s then n else n + 1) (offer g now s).
Proof.
  intros Hn Hi. unfold offer. destruct (refused g s) eqn:Er; [done|].
  unfold refused in Er. reflect. destruct Er as [[[He Hseq] Hp] Hl].
  assert (Hd : ∃ s', schedule_inv n s' ∧ sc_offered s' = None ∧ sc_epoch s' = sc_epoch s
    ∧ sc_last_sequence s' = sc_last_sequence s ∧ sc_consumed s' = sc_consumed s
    ∧ s' = match sc_offered s with
           | Some previous =>
               count (if gr_latch_deadline_ns previous <=? now then Missed else Skipped)
                 (with_offered None s)
           | None => s
           end).
  { destruct (sc_offered s) as [p|] eqn:Ep; [|by exists s].
    destruct (drop_offer_inv n (if gr_latch_deadline_ns p <=? now then Missed else Skipped) s
      ltac:(lia) Hi) as [Hd Ho]. unfold drop_offer in Hd, Ho. rewrite Ep in Hd, Ho. by eexists. }
  destruct Hd as (s' & Hs' & Ho & He' & Hl' & Hc' & <-).
  apply schedule_inv_counters in Hs' as (Hc & _ & Hs). apply schedule_inv_counters.
  unfold outstanding in *. cbn. rewrite Ho in Hc. split_and!.
  - replace (n + 1 - (Z.of_nat (size (sc_consumed s')) + 1))
      with (n - (Z.of_nat (size (sc_consumed s')) + 0)) by lia. exact Hc.
  - intros g' [= <-]. rewrite He'. split_and!; try done. rewrite Hc'. intros Hin.
    apply schedule_inv_counters in Hi as (_ & _ & Hi). destruct (Hi _ Hin). lia.
  - intros i Hin. destruct (Hs i Hin). split; [done|]. rewrite Hl' in *. lia.
Qed.

Lemma consume_inv n now s : n ≤ u64_max → schedule_inv n s → schedule_inv n (consume now s).1.
Proof.
  intros Hn Hi. unfold consume. destruct (sc_offered s) as [g|] eqn:E; [|done].
  destruct (Z.leb_spec (gr_latch_deadline_ns g) now); cbn [fst].
  - destruct (drop_offer_inv n Missed s Hn Hi) as [Hd _]. unfold drop_offer in Hd. by rewrite E in Hd.
  - apply schedule_inv_counters in Hi as (Hc & Ho & Hs). destruct (Ho g E) as (He & Hq & Hni & _).
    apply schedule_inv_counters. unfold outstanding in *. cbn. rewrite E in Hc.
    rewrite size_union by set_solver. rewrite size_singleton. split_and!; [|done|].
    + match goal with |- counters ?k _ =>
        replace k with (n - (Z.of_nat (size (sc_consumed s)) + 1)) by lia end. exact Hc.
    + intros i [->%elem_of_singleton|Hin]%elem_of_union; [split; [done|lia]|by apply Hs].
Qed.

(** ** Runs of a task's timeline *)

Inductive TimelineOp : Type :=
| DoEpoch (epoch : Z)
| DoGrant (g : Grant) (now : Z)
| DoReserve (now : Z)
| DoFinish (i : option Identity) (t : Terminal)
| DoArm (armed : bool)
| DoAbort (t : Terminal)
| DoSubscribe (sub : option Subscription)
| DoStop.

Definition timeline_step (op : TimelineOp) (t : Timeline) : Timeline :=
  match op with
  | DoEpoch e => with_schedule (set_epoch e (tl_schedule t)) t
  | DoGrant g now => with_schedule (offer g now (tl_schedule t)) t
  | DoReserve now => (reserve now t).1
  | DoFinish i term => timeline_finish i term t
  | DoArm armed => (timeline_arm armed t).1
  | DoAbort term => with_schedule (clear term (tl_schedule t)) t
  | DoSubscribe sub => with_subscription sub t
  | DoStop => timeline_stop t
  end.

(** The grants an operation adds, and the targets it hands to a frame with
    the time of the reservation. *)
Definition accepts (op : TimelineOp) (t : Timeline) : Z :=
  match op with DoGrant g _ => if refused g (tl_schedule t) then 0 else 1 | _ => 0 end.

Definition reserved (op : TimelineOp) (t : Timeline) : list (Target * Z) :=
  match op with
  | DoReserve now =>
      match (reserve now t).2 with Some (Some target) => [(target, now)] | _ => [] end
  | _ => []
  end.

Fixpoint timeline_run (ops : list TimelineOp) (t : Timeline) : Timeline * Z * list (Target * Z) :=
  match ops with
  | [] => (t, 0, [])
  | op :: ops =>
      let '(t', n, targets) := timeline_run ops (timeline_step op t) in
      (t', accepts op t + n, reserved op t ++ targets)
  end.

Lemma reserve_schedule now t :
  tl_schedule (reserve now t).1 = tl_schedule t
  ∨ tl_schedule (reserve now t).1 = (consume now (tl_schedule t)).1.
Proof.
  unfold reserve. destruct (tl_exact t); cbn [negb]; [|by left].
  destruct (tl_subscription t) as [sub|]; [|by left].
  destruct (su_armed sub); cbn [negb]; [|by left].
  right. by destruct (consume now (tl_schedule t)) as [s [g|]].
Qed.

Lemma timeline_step_inv n op t :
  n < u64_max → schedule_inv n (tl_schedule t) →
  schedule_inv (n + accepts op t) (tl_schedule (timeline_step op t)).
Proof.
  intros Hn Hi. destruct op; cbn [accepts timeline_step]; rewrite ?Z.add_0_r.
  - by apply epoch_inv; [lia|].
  - pose proof (offer_inv n g now (tl_schedule t) Hn Hi) as Ho. cbn.
    destruct (refused g (tl_schedule t)); by rewrite ?Z.add_0_r.
  - destruct (reserve_schedule now t) as [-> | ->]; [done|]. by apply consume_inv; [lia|].
  - destruct i as [i|]; cbn; [|done]. by apply finish_inv; [lia|].
  - unfold timeline_arm. destruct (match tl_subscription t with Some _ => _ | None => _ end).
    destruct armed; cbn; [done|]. by apply drop_offer_inv; [lia|].
  - by apply clear_inv; [lia|].
  - done.
  - by apply clear_inv; [lia|].
Qed.


(** ** Reservations *)

(** Exact mode never shows a frame against a stale or invented grant.  A
    targeted reservation is made only on an armed exact timeline, names the
    offered grant of the current subscription before its latch, and takes it:
    the offer is gone and the identity is recorded as consumed.  Without a
    live grant the frame waits; an untargeted frame is shown at once only when
    the timeline is portable or disarmed. *)
Lemma reserve_spec now t :
  match (reserve now t).2 with
  | Some (Some target) =>
      ∃ sub g, tl_exact t = true ∧ tl_subscription t = Some sub ∧ su_armed sub = true
        ∧ sc_offered (tl_schedule t) = Some g ∧ now < gr_latch_deadline_ns g
        ∧ target = mkTarget (su_proxy sub) (gr_identity g) (gr_latch_deadline_ns g)
        ∧ sc_offered (tl_schedule (reserve now t).1) = None
        ∧ gr_identity g ∈ sc_consumed (tl_schedule (reserve now t).1)
  | Some None =>
      (tl_exact t = false ∨ ∃ sub, tl_subscription t = Some sub ∧ su_armed sub = false)
      ∧ (reserve now t).1 = t
  | None =>
      tl_exact t = true
      ∧ (tl_subscription t = None
         ∨ ∀ g, sc_offered (tl_schedule t) = Some g → gr_latch_deadline_ns g ≤ now)
      ∧ sc_consumed (tl_schedule (reserve now t).1) = sc_consumed (tl_schedule t)
  end.
Proof.
  unfold reserve, consume. destruct (tl_exact t) eqn:Ex; cbn [negb]; [|cbn; auto].
  destruct (tl_subscription t) as [sub|] eqn:Es; [|cbn; auto].
  destruct (su_armed sub) eqn:Ea; cbn [negb]; [|cbn; eauto].
  destruct (sc_offered (tl_schedule t)) as [g|] eqn:Eo; cbn;
    [|split_and!; [done|by right|done]].
  destruct (Z.leb_spec (gr_latch_deadline_ns g) now); cbn.
  - split_and!; [done| |done]. right. by intros g' [= <-].
  - exists sub, g. split_and!; try done. set_solver.
Qed.

(** The sequences that may still be reserved in this epoch. *)
Definition next_sequence (s : Schedule) : Z :=
  match sc_offered s with Some _ => sc_last_sequence s | None => sc_last_sequence s + 1 end.

Definition same_epoch (e : option Z) (op : TimelineOp) : Prop :=
  match op with DoEpoch e' => e = Some e' | _ => True end.

Lemma drop_offer_fields t s :
  sc_epoch (drop_offer t s) = sc_epoch s ∧ sc_last_sequence (drop_offer t s) = sc_last_sequence s
  ∧ sc_offered (drop_offer t s) = None.
Proof. unfold drop_offer. destruct (sc_offered s) eqn:E; by cbn. Qed.

Lemma clear_fields t s :
  sc_epoch (clear t s) = sc_epoch s ∧ sc_last_sequence (clear t s) = sc_last_sequence s
  ∧ sc_offered (clear t s) = None.
Proof.
  unfold clear, drop_consumed. destruct (drop_offer_fields t s) as (He & Hl & Ho).
  destruct (iter_count_fields t (size (sc_consumed (drop_offer t s)))
    (with_consumed ∅ (drop_offer t s))) as (He' & Hl' & Ho' & _).
  cbn in He', Hl', Ho'. by rewrite He', Hl', Ho'.
Qed.

Lemma offer_next g now s :
  next_sequence s ≤ next_sequence (offer g now s) ∧ sc_epoch (offer g now s) = sc_epoch s.
Proof.
  unfold offer. destruct (refused g s) eqn:Er; [done|]. unfold refused in Er. reflect.
  destruct Er as [[[He Hseq] _] _]. unfold next_sequence. cbn.
  destruct (sc_offered s) as [p|]; cbn; split; done || lia.
Qed.

Lemma consume_next now s :
  next_sequence s ≤ next_sequence (consume now s).1 ∧ sc_epoch (consume now s).1 = sc_epoch s.
Proof.
  unfold consume, next_sequence. destruct (sc_offered s) as [g|] eqn:E; [|cbn; by rewrite ?E].
  destruct (_ <=? _); cbn; split; done || lia.
Qed.

Lemma timeline_step_next op t :
  same_epoch (sc_epoch (tl_schedule t)) op →
  next_sequence (tl_schedule t) ≤ next_sequence (tl_schedule (timeline_step op t))
  ∧ sc_epoch (tl_schedule (timeline_step op t)) = sc_epoch (tl_schedule t).
Proof.
  intros He. destruct op; cbn [timeline_step same_epoch] in *.
  - cbn. unfold set_epoch. rewrite bool_decide_eq_true_2 by done. done.
  - apply offer_next.
  - destruct (reserve_schedule now t) as [-> | ->]; [done|]. apply consume_next.
  - destruct i as [i|]; cbn; [|done]. unfold finish. by case_bool_decide.
  - unfold timeline_arm. destruct (match tl_subscription t with Some _ => _ | None => _ end).
    destruct armed; cbn; [done|]. unfold next_sequence.
    destruct (drop_offer_fields Skipped (tl_schedule t)) as (-> & -> & ->).
    destruct (sc_offered (tl_schedule t)); split; done || lia.
  - unfold next_sequence. cbn. destruct (clear_fields t0 (tl_schedule t)) as (-> & -> & ->).
    destruct (sc_offered (tl_schedule t)); split; done || lia.
  - done.
  - unfold next_sequence. cbn. destruct (clear_fields EpochEnded (tl_schedule t)) as (-> & -> & ->).
    destruct (sc_offered (tl_schedule t)); split; done || lia.
Qed.

Lemma reserved_next n op t target now :
  schedule_inv n (tl_schedule t) → (target, now) ∈ reserved op t →
  sc_epoch (tl_schedule t) = Some (id_epoch (ta_identity target))
  ∧ id_sequence (ta_identity target) = next_sequence (tl_schedule t)
  ∧ id_sequence (ta_identity target) < next_sequence (tl_schedule (timeline_step op t))
  ∧ now < ta_latch_ns target.
Proof.
  intros Hi. destruct op as [| |now'| | | | |]; cbn [reserved]; try (by intros ?%elem_of_nil).
  pose proof (reserve_spec now' t) as Hr.
  destruct (reserve_schedule now' t) as [Hs|Hs].
  all: destruct ((reserve now' t).2) as [[target'|]|]; try (by intros ?%elem_of_nil).
  all: intros [= -> ->]%list_elem_of_singleton.
  all: destruct Hr as (sub & g & _ & _ & _ & Ho & Hlt & -> & Hn & _).
  { rewrite Hs in Hn. congruence. }
  destruct (si_offered _ _ Hi g Ho) as (He & Hq & _). cbn [timeline_step ta_identity ta_latch_ns].
  rewrite Hs in Hn |- *. unfold next_sequence. rewrite Ho, Hn.
  assert (sc_last_sequence (consume now' (tl_schedule t)).1 = sc_last_sequence (tl_schedule t)) as ->.
  { unfold consume. rewrite Ho. by destruct (_ <=? _). }
  split_and!; done || lia.
Qed.

(** Strictly increasing sequence numbers, none below [low]. *)
Fixpoint increasing_from (low : Z) (targets : list (Target * Z)) : Prop :=
  match targets with
  | [] => True
  | (target, _) :: targets =>
      low ≤ id_sequence (ta_identity target)
      ∧ increasing_from (id_sequence (ta_identity target) + 1) targets
  end.

Lemma increasing_from_weaken low low' targets :
  low ≤ low' → increasing_from low' targets → increasing_from low targets.
Proof. destruct targets as [|[? ?] ?]; cbn; [done|]. intros ? [? ?]. split; [lia|done]. Qed.

(** Exact mode never shows a frame against a stale, repeated or invented
    grant.  Over every run of a task's timeline within one epoch, the targets
    handed to frames carry that epoch's strictly increasing sequence numbers,
    and each was taken strictly before its latch deadline. *)
Theorem targets_strictly_increase ops : ∀ n t,
  schedule_inv n (tl_schedule t) → n + zlen ops < u64_max →
  Forall (same_epoch (sc_epoch (tl_schedule t))) ops →
  let '(_, _, targets) := timeline_run ops t in
  increasing_from (next_sequence (tl_schedule t)) targets
  ∧ Forall (λ '(target, now), now < ta_latch_ns target
      ∧ sc_epoch (tl_schedule t) = Some (id_epoch (ta_identity target))) targets.
Proof.
  induction ops as [|op ops IH]; intros n t Hi Hn Hops; cbn; [done|].
  unfold zlen in *. cbn [length] in Hn. apply Forall_cons in Hops as [Hop Hops].
  assert (Ha : 0 ≤ accepts op t ≤ 1) by (destruct op; cbn; try lia; destruct (refused _ _); lia).
  destruct (timeline_step_next op t Hop) as [Hnext He].
  specialize (IH (n + accepts op t) (timeline_step op t)). rewrite He in IH.
  specialize (IH (timeline_step_inv n op t ltac:(lia) Hi) ltac:(lia) Hops).
  pose proof (λ target now, reserved_next n op t target now Hi) as Hr.
  destruct (timeline_run ops (timeline_step op t)) as [[t' k] targets]. destruct IH as [Hinc Hall].
  assert (Hlen : reserved op t = [] ∨ ∃ x now, reserved op t = [(x, now)]).
  { destruct op as [| |now| | | | |]; cbn; auto.
    destruct ((reserve now t).2) as [[x|]|]; eauto. }
  destruct Hlen as [-> | (x & now & E)]; cbn [app].
  - split; [by eapply increasing_from_weaken|done].
  - rewrite E in *. destruct (Hr x now) as (Hep & Hq & Hlt & Hlatch); [by left|]. cbn. split.
    + split; [lia|]. eapply increasing_from_weaken; [|done]. lia.
    + constructor; [done|done].
Qed.

Definition sample_timeline : Timeline :=
  mkTimeline true true (Some (mkSubscription 1 2 true)) (set_epoch 5 schedule_default) 0.
Definition sample_grant (sequence latch : Z) : Grant :=
  mkGrant (mkIdentity 5 sequence) latch (latch + 10) 16.
Definition sample_ops : list TimelineOp :=
  [DoGrant (sample_grant 1 100) 0; DoReserve 50; DoGrant (sample_grant 1 200) 60; DoReserve 70;
   DoGrant (sample_grant 3 300) 80; DoReserve 90; DoFinish (Some (mkIdentity 5 1)) Presented].

Lemma sample_timeline_inv : schedule_inv 0 (tl_schedule sample_timeline).
Proof.
  apply schedule_inv_counters. vm_compute. split_and!; try done; repeat constructor; done.
Qed.

Lemma targets_strictly_increase_witness :
  (timeline_run sample_ops sample_timeline).2
    = [(mkTarget 2 (mkIdentity 5 1) 100, 50); (mkTarget 2 (mkIdentity 5 3) 300, 90)]
  ∧ increasing_from 1 (timeline_run sample_ops sample_timeline).2.
Proof.
  split; [vm_compute; reflexivity|].
  apply (targets_strictly_increase sample_ops 0 sample_timeline).
  - exact sample_timeline_inv.
  - vm_compute. reflexivity.
  - repeat constructor.
Defined.


(** ** Arming *)

(** Every subscription, the clock's and the tasks', has the clock's arming. *)
Definition armed_together (app : ClockApp) : Prop :=
  (∀ s, ck_subscription (ca_clock app) = Some s → su_armed s = ck_armed (ca_clock app))
  ∧ ∀ object t s, ca_tasks app !! object = Some t → tl_subscription t = Some s →
      su_armed s = ck_armed (ca_clock app).

(** What happens to the clock and the timelines.  A subscription is created
    with the clock's arming; any other step of a task's timeline keeps its
    subscription or stops it. *)
Inductive clock_step : ClockApp → ClockApp → Prop :=
| step_frame now app : clock_step app (android_frame now app)
| step_idle now app : clock_step app (clock_idle_check now app)
| step_clock_subscribe output proxy app :
    clock_step app (mkClockApp
      (mkClock (Some (subscription_new output proxy (ck_armed (ca_clock app))).1)
         (ck_armed (ca_clock app)) (ck_last_frame_nanos (ca_clock app))) (ca_tasks app))
| step_clock_unsubscribe app :
    clock_step app (mkClockApp
      (mkClock None (ck_armed (ca_clock app)) (ck_last_frame_nanos (ca_clock app))) (ca_tasks app))
| step_task_subscribe object t output proxy app : ca_tasks app !! object = Some t →
    clock_step app (mkClockApp (ca_clock app)
      (<[object := with_subscription
           (Some (subscription_new output proxy (ck_armed (ca_clock app))).1) t]> (ca_tasks app)))
| step_task_stop object t app : ca_tasks app !! object = Some t →
    clock_step app (mkClockApp (ca_clock app) (<[object := timeline_stop t]> (ca_tasks app)))
| step_task_new object exact surface app :
    clock_step app (mkClockApp (ca_clock app)
      (<[object := timeline_new exact surface]> (ca_tasks app)))
| step_task_remove object app :
    clock_step app (mkClockApp (ca_clock app) (delete object (ca_tasks app)))
| step_task_schedule object t schedule app : ca_tasks app !! object = Some t →
    clock_step app (mkClockApp (ca_clock app)
      (<[object := with_schedule schedule t]> (ca_tasks app)))
| step_task_reserve object t now app : ca_tasks app !! object = Some t →
    clock_step app (mkClockApp (ca_clock app) (<[object := (reserve now t).1]> (ca_tasks app))).

Lemma reserve_subscription now t : tl_subscription (reserve now t).1 = tl_subscription t.
Proof.
  unfold reserve. destruct (tl_exact t); [|done].
  destruct (tl_subscription t) as [sub|] eqn:E; [|done].
  destruct (su_armed sub); [|done]. by destruct (consume now (tl_schedule t)) as [s [g|]].
Qed.

Lemma subscription_arm_armed armed s : su_armed (subscription_arm armed s).1 = armed.
Proof.
  unfold subscription_arm. destruct (Bool.eqb (su_armed s) armed) eqn:E; cbn; [|done].
  by apply Bool.eqb_prop.
Qed.

Lemma timeline_arm_subscription armed t s :
  tl_subscription (timeline_arm armed t).1 = Some s → su_armed s = armed.
Proof.
  unfold timeline_arm. destruct (tl_subscription t) as [sub|]; cbn.
  - pose proof (subscription_arm_armed armed sub) as Ha.
    destruct (subscription_arm armed sub) as [s' r]. cbn in Ha. destruct armed; cbn; intros [= <-]; done.
  - by destruct armed.
Qed.

Lemma arm_timelines_together armed app : armed_together (arm_timelines armed app).
Proof.
  unfold arm_timelines. split; cbn.
  - intros s H. apply fmap_Some in H as (s0 & _ & ->). apply subscription_arm_armed.
  - intros object t s H. rewrite lookup_fmap in H. apply fmap_Some in H as (t0 & _ & ->).
    apply timeline_arm_subscription.
Qed.

Lemma armed_together_insert app object t :
  armed_together app →
  (∀ s, tl_subscription t = Some s → su_armed s = ck_armed (ca_clock app)) →
  armed_together (mkClockApp (ca_clock app) (<[object := t]> (ca_tasks app))).
Proof.
  intros [Hc Ht] Hn. split; [done|]. cbn. intros object' t' s.
  destruct (decide (object' = object)) as [->|Hne].
  - rewrite lookup_insert_eq. intros [= <-]. apply Hn.
  - rewrite lookup_insert_ne by done. apply Ht.
Qed.

Lemma clock_step_together app app' : clock_step app app' → armed_together app → armed_together app'.
Proof.
  intros Hs Ha. destruct Hs; try (apply armed_together_insert; [done|]).
  - unfold android_frame. cbn. destruct (ck_armed (ca_clock app)) eqn:E.
    + destruct Ha as [Hc Ht]. split; cbn; rewrite <- ?E; done.
    + apply arm_timelines_together.
  - unfold clock_idle_check. destruct (negb _); [done|].
    destruct (_ <=? _); [apply arm_timelines_together|done].
  - split; cbn; [by intros s [= <-]|apply Ha].
  - split; cbn; [done|apply Ha].
  - by intros s [= <-].
  - by intros s.
  - by intros s.
  - split; [apply Ha|]. intros object' t s. cbn. rewrite lookup_delete_Some. intros [_ H]. by apply (proj2 Ha object').
  - cbn. intros s. by apply (proj2 Ha object).
  - rewrite reserve_subscription. intros s. by apply (proj2 Ha object).
Qed.

(** The subscriptions are armed together.  Whatever frames are shown,
    grants arrive, outputs change and tasks come and go, in every reachable
    state each timeline subscription is armed exactly when the clock is, so a
    disarm cannot end an epoch for a task that still draws. *)
Theorem subscriptions_armed_together app app' :
  armed_together app → rtc clock_step app app' → armed_together app'.
Proof. intros Ha Hr. induction Hr; eauto using clock_step_together. Qed.

Lemma subscriptions_armed_together_witness :
  armed_together (clock_idle_check 300000000 (android_frame 7 (mkClockApp (mkClock None false 0) ∅))).
Proof.
  apply (subscriptions_armed_together (mkClockApp (mkClock None false 0) ∅)).
  - split; [discriminate|]. intros object t s H. cbn in H. rewrite lookup_empty in H. discriminate.
  - eapply rtc_l; [apply (step_frame 7)|]. eapply rtc_l; [apply (step_idle 300000000)|]. apply rtc_refl.
Defined.

(** ** The wire form *)

(** The two words of a 64-bit identity are joined back exactly. *)
Lemma join_split x : is_u64 x → join (split_point x).1 (split_point x).2 = x.
Proof.
  intros Hx. unfold join, split_point. cbn [fst snd]. change u32_max with (Z.ones 32).
  apply Z.bits_inj'. intros i Hi. rewrite Z.lor_spec, Z.land_spec, Z.shiftl_spec by done.
  rewrite Z.testbit_ones by lia. destruct (Z.ltb_spec i 32).
  - rewrite Z.testbit_neg_r by lia.
    destruct (Z.leb_spec 0 i); [|lia]. cbn. by rewrite andb_true_r.
  - rewrite Z.shiftr_spec by lia. replace (i - 32 + 32) with i by lia. by rewrite !andb_false_r, orb_false_r.
Qed.

Lemma presentation_timestamp_exact seconds nanos t :
  0 ≤ seconds → 0 ≤ nanos →
  presentation_timestamp_nanos seconds nanos = Ok t ↔
  nanos < 1000000000 ∧ t = seconds * 1000000000 + nanos ∧ t ≤ u64_max.
Proof.
  intros Hs Hn. unfold presentation_timestamp_nanos, checked_add.
  destruct (Z.leb_spec 1000000000 nanos); [split; [done|lia]|].
  destruct (Z.ltb_spec u64_max (seconds * 1000000000)); [split; [done|lia]|].
  destruct (Z.leb_spec (seconds * 1000000000 + nanos) u64_max); cbn.
  - split; [intros [= <-]; lia|]. by intros (_ & -> & _).
  - split; [done|lia].
Qed.
