(* ===== verification/PowerControl.v ===== *)
(** * Android performance hints as utilization floors
      (android/power/droidloom-power/src/lib.rs)

    Hint sessions name the threads that produce frames; the controller learns a
    utilization floor per session from reported work and applies the highest floor
    of its sessions to every thread.  [Instant]s and durations are nanoseconds.
    The scheduler is the class [Actuator]; floors are [u32] values far below the
    width of their type.  [dump] only prints and is left out. *)

From S2P Require Import Prelude.

Module Power.

Definition UTIL_MAX : Z := 1024.
Definition MIN_RAISE : Z := 16.
Definition MAX_RAISE : Z := 256.
Definition DECAY : Z := 4.
Definition HINT_STEP : Z := 128.
Definition QUANTUM : Z := 16.
Definition STALE_PERIODS : Z := 10.
Definition MIN_STALE : Z := 100000000.
Definition MAX_STALE : Z := 2000000000.
Definition RESCAN : Z := 1000000000.
Definition INTERACTION_HOLD : Z := 1500000000.

(** ** The policy *)

Record Policy : Type := mkPolicy { baseline : Z; interaction_floor : Z; ceiling : Z }.

(** [iter_mut().find(..)] and [push]: one more CPU of its tier. *)
Fixpoint count_tier (capacity : Z) (tiers : list (Z * Z)) : list (Z * Z) :=
  match tiers with
  | [] => [(capacity, 1)]
  | (c, n) :: tiers => if c =? capacity then (c, n + 1) :: tiers else (c, n) :: count_tier capacity tiers
  end.

Definition tier_le (p q : Z * Z) : Prop := p.1 < q.1 ∨ p.1 = q.1 ∧ p.2 ≤ q.2.
#[global] Instance tier_le_dec p q : Decision (tier_le p q).
Proof. unfold tier_le. apply _. Defined.

Definition tiers_of (capacities : list Z) : list (Z * Z) :=
  merge_sort tier_le
    (foldl (λ tiers c, if 0 <? c then count_tier (Z.min c UTIL_MAX) tiers else tiers) [] capacities).

Definition from_capacities (capacities : list Z) : Policy :=
  let tiers := tiers_of capacities in
  let wide :=
    match find (λ t, 2 <=? t.2) (rev tiers) with
    | Some t => t.1
    | None => match last tiers with Some t => t.1 | None => UTIL_MAX end
    end in
  let top := wide * 4 / 5 in
  let base :=
    match tiers with
    | (little, _) :: _ :: _ => if little <? top then Z.min (little + UTIL_MAX / 16) top else top / 2
    | _ => top / 2
    end in
  mkPolicy base ((base + top) / 2) top.

(** ** Sessions *)

Record Work : Type := mkWork { total_ns : Z; cpu_ns : Z }.

Inductive Hint : Type := LoadUp | LoadDown | LoadReset | LoadResume | LoadSpike.

#[global] Instance Hint_eq_dec : EqDecision Hint.
Proof. solve_decision. Defined.

Inductive ApplyError : Type := Gone | Other (e : Z).

Class Actuator (A : Type) : Type := {
  apply_floor : Z → Z → A → A * result ApplyError unit;
  driver_threads : Z → A → A * list Z
}.

Record Session : Type := mkSession {
  tgid : Z;
  uid : Z;
  tag : Z;
  tids : list Z;
  drivers : list Z;
  target_ns : Z;
  floor : Z;
  active_until : option Z;
  scanned_at : option Z;
  spike : bool;
  paused : bool;
  efficient : bool
}.

Definition set_threads_of t d s := mkSession (tgid s) (uid s) (tag s) t d (target_ns s) (floor s)
  (active_until s) (scanned_at s) (spike s) (paused s) (efficient s).
Definition set_target_ns n s := mkSession (tgid s) (uid s) (tag s) (tids s) (drivers s) n (floor s)
  (active_until s) (scanned_at s) (spike s) (paused s) (efficient s).
Definition set_floor f s := mkSession (tgid s) (uid s) (tag s) (tids s) (drivers s) (target_ns s) f
  (active_until s) (scanned_at s) (spike s) (paused s) (efficient s).
Definition set_active t s := mkSession (tgid s) (uid s) (tag s) (tids s) (drivers s) (target_ns s) (floor s)
  t (scanned_at s) (spike s) (paused s) (efficient s).
Definition set_scanned t s := mkSession (tgid s) (uid s) (tag s) (tids s) (drivers s) (target_ns s) (floor s)
  (active_until s) t (spike s) (paused s) (efficient s).
Definition set_spike b s := mkSession (tgid s) (uid s) (tag s) (tids s) (drivers s) (target_ns s) (floor s)
  (active_until s) (scanned_at s) b (paused s) (efficient s).
Definition set_paused b s := mkSession (tgid s) (uid s) (tag s) (tids s) (drivers s) (target_ns s) (floor s)
  (active_until s) (scanned_at s) (spike s) b (efficient s).
Definition set_efficient_of b s := mkSession (tgid s) (uid s) (tag s) (tids s) (drivers s) (target_ns s) (floor s)
  (active_until s) (scanned_at s) (spike s) (paused s) b.

Definition threads (s : Session) : list Z := tids s ++ drivers s.
Definition contains (tid : Z) (s : Session) : bool := bool_decide (tid ∈ tids s) || bool_decide (tid ∈ drivers s).

Definition activate (now : Z) (s : Session) : Session :=
  let period := Z.max 0 (target_ns s) in
  set_active (Some (now + Z.min (Z.max (period * STALE_PERIODS) MIN_STALE) MAX_STALE)) s.

Definition demand (top : Z) (s : Session) : Z :=
  if paused s || efficient s || bool_decide (active_until s = None) then 0
  else if spike s then top else Z.min (floor s) top.

(** [Vec::dedup] on a sorted vector. *)
Fixpoint dedup (l : list Z) : list Z :=
  match l with
  | x :: (y :: _) as l => if x =? y then dedup l else x :: dedup l
  | l => l
  end.

Definition sorted_unique (l : list Z) : list Z := dedup (merge_sort Z.le l).
Definition unique (l : list Z) : list Z := sorted_unique (filter (λ tid, 0 < tid) l).

(** [i128] arithmetic; the raise is positive, so the division truncates. *)
Definition adjust (f : Z) (w : Work) (target top : Z) : Z :=
  let spent := if 0 <? cpu_ns w then cpu_ns w else total_ns w in
  if (spent <=? 0) || (target <=? 0) then f
  else if target <? spent then
    let raise := (spent - target) * UTIL_MAX / (2 * target) in
    Z.min (f + Z.min (Z.max raise MIN_RAISE) MAX_RAISE) top
  else if spent * 10 <? target * 7 then Z.max 0 (f - DECAY)
  else f.

(** ** The controller *)

Record Controller : Type := mkController {
  policy : Policy;
  sessions : gmap Z Session;
  applied : gmap Z Z;
  next_id : Z;
  low_power : bool;
  interacting_until : option Z;
  warned : bool
}.

Definition controller_new (p : Policy) : Controller := mkController p ∅ ∅ 1 false None false.

Definition with_sessions m c :=
  mkController (policy c) m (applied c) (next_id c) (low_power c) (interacting_until c) (warned c).
Definition with_applied m c :=
  mkController (policy c) (sessions c) m (next_id c) (low_power c) (interacting_until c) (warned c).
Definition with_next_id n c :=
  mkController (policy c) (sessions c) (applied c) n (low_power c) (interacting_until c) (warned c).
Definition with_low_power b c :=
  mkController (policy c) (sessions c) (applied c) (next_id c) b (interacting_until c) (warned c).
Definition with_interacting t c :=
  mkController (policy c) (sessions c) (applied c) (next_id c) (low_power c) t (warned c).
Definition with_warned b c :=
  mkController (policy c) (sessions c) (applied c) (next_id c) (low_power c) (interacting_until c) b.

(** Lowest learned floor while an interaction hold lasts. *)
Definition held (now : Z) (c : Controller) : Z :=
  if from_option (λ until, now <? until) false (interacting_until c) then interaction_floor (policy c) else 0.

Definition ceiling_of (c : Controller) : Z :=
  if low_power c then baseline (policy c) else ceiling (policy c).

Definition forget (tid : Z) (c : Controller) : Controller :=
  with_sessions
    ((λ s, set_threads_of (filter (λ t, t ≠ tid) (tids s)) (filter (λ t, t ≠ tid) (drivers s)) s) <$> sessions c)
    (with_applied (delete tid (applied c)) c).

(** [filter(contains).map(demand).max().unwrap_or(0)]. *)
Definition demand_of (tid : Z) (c : Controller) : Z :=
  foldr (λ s acc, if contains tid s then Z.max (demand (ceiling_of c) s) acc else acc) 0 (btree_values (sessions c)).

(** [div_ceil(QUANTUM) * QUANTUM], at most the ceiling. *)
Definition floor_of (d top : Z) : Z :=
  if d =? 0 then 0 else Z.min ((d + QUANTUM - 1) / QUANTUM * QUANTUM) top.

Section controller.

Context {A : Type} `{Actuator A}.

Definition controlled : Type := A * Controller.

Definition sync_thread (tid : Z) (s : controlled) : controlled :=
  let '(a, c) := s in
  let f := floor_of (demand_of tid c) (ceiling_of c) in
  if f =? default 0 (applied c !! tid) then (a, c)
  else
    let '(a, r) := apply_floor tid f a in
    match r with
    | Ok _ => (a, with_applied (if f =? 0 then delete tid (applied c) else <[tid := f]> (applied c)) c)
    | Err Gone => (a, forget tid c)
    | Err (Other _) => (a, with_warned true c)
    end.

Definition sync (l : list Z) (s : controlled) : controlled :=
  foldl (λ s tid, sync_thread tid s) s (sorted_unique l).

Definition sync_session (id : Z) (s : controlled) : controlled :=
  match sessions s.2 !! id with Some session => sync (threads session) s | None => s end.

Definition sync_all (s : controlled) : controlled :=
  sync (concat (threads <$> btree_values (sessions s.2)) ++ (fst <$> map_to_list (applied s.2))) s.

Definition rescan (id now : Z) (s : controlled) : controlled :=
  match sessions s.2 !! id with
  | None => s
  | Some session =>
      let '(a, found) := driver_threads (tgid session) s.1 in
      let fresh := filter (λ tid, tid ∉ tids session) (unique found) in
      let removed := filter (λ tid, tid ∉ fresh) (drivers session) in
      sync removed
        (a, with_sessions (<[id := set_scanned (Some now) (set_threads_of (tids session) fresh session)]>
                             (sessions s.2)) s.2)
  end.

Definition create (group user label : Z) (ts : list Z) (target now : Z) (s : controlled) : controlled * Z :=
  let c := s.2 in
  let id := next_id c in
  let session := activate now
    (mkSession group user label (unique ts) [] target (Z.max (baseline (policy c)) (held now c)) None None
       false false false) in
  let c := with_sessions (<[id := session]> (sessions c)) (with_next_id ((next_id c + 1) mod 18446744073709551616) c) in
  (sync_session id (rescan id now (s.1, c)), id).

Definition close (id : Z) (s : controlled) : controlled :=
  match sessions s.2 !! id with
  | Some session => sync (threads session) (s.1, with_sessions (delete id (sessions s.2)) s.2)
  | None => s
  end.

(** [sessions.get_mut(&id)] followed by the assignments [f]. *)
Definition on_session (id : Z) (f : Session → Session) (s : controlled) : controlled :=
  (s.1, with_sessions (alter f id (sessions s.2)) s.2).

Definition set_target (id target : Z) (s : controlled) : controlled :=
  if 0 <? target then on_session id (set_target_ns target) s else s.

Definition learn (work : list Work) (top hold : Z) (s : Session) : Session :=
  if spike s then set_spike false s
  else set_floor (Z.max (foldl (λ f w, adjust f w (target_ns s) top) (floor s) work) hold) s.

Definition report (id : Z) (work : list Work) (now : Z) (s : controlled) : controlled :=
  let c := s.2 in
  let top := ceiling (policy c) in
  match sessions c !! id with
  | None => s
  | Some session =>
      let session := activate now (learn work top (held now c) session) in
      let scan := (0 <? demand top session)
                  && from_option (λ at_, RESCAN <=? Z.max 0 (now - at_)) true (scanned_at session) in
      let s := on_session id (λ _, session) s in
      sync_session id (if scan then rescan id now s else s)
  end.

Definition hinted (h : Hint) (p : Policy) (hold now : Z) (s : Session) : Session :=
  let s :=
    match h with
    | LoadUp => set_floor (Z.min (Z.max (floor s) (baseline p) + HINT_STEP) (ceiling p)) s
    | LoadDown => set_floor (Z.max (Z.max 0 (floor s - HINT_STEP)) hold) s
    | LoadReset => set_floor (Z.max (floor s) (baseline p)) s
    | LoadResume => s
    | LoadSpike => set_spike true s
    end in
  if bool_decide (h = LoadDown) then s else activate now s.

Definition hint (id : Z) (h : Hint) (now : Z) (s : controlled) : controlled :=
  let c := s.2 in
  match sessions c !! id with
  | None => s
  | Some _ =>
      let s := on_session id (hinted h (policy c) (held now c) now) s in
      let s := if bool_decide (h = LoadReset) || bool_decide (h = LoadResume) then rescan id now s else s in
      sync_session id s
  end.

Definition pause (id : Z) (s : controlled) : controlled := sync_session id (on_session id (set_paused true) s).
Definition resume (id now : Z) (s : controlled) : controlled :=
  sync_session id (on_session id (λ x, activate now (set_paused false x)) s).

Definition set_threads (id : Z) (ts : list Z) (now : Z) (s : controlled) : controlled :=
  match sessions s.2 !! id with
  | None => s
  | Some session =>
      let s := rescan id now (on_session id (λ x, set_threads_of (unique ts) (drivers x) x) s) in
      sync (threads session ++ from_option threads [] (sessions s.2 !! id)) s
  end.

Definition set_efficient (id : Z) (b : bool) (s : controlled) : controlled :=
  sync_session id (on_session id (set_efficient_of b) s).

Definition interaction (now : Z) (s : controlled) : controlled :=
  let c := s.2 in
  let f := interaction_floor (policy c) in
  sync_all (s.1, with_interacting (Some (now + INTERACTION_HOLD)) (with_sessions
    ((λ x, if negb (paused x) && negb (efficient x) then activate now (set_floor (Z.max (floor x) f) x) else x)
       <$> sessions c) c)).

Definition set_low_power (b : bool) (s : controlled) : controlled :=
  if bool_decide (low_power s.2 = b) then s else sync_all (s.1, with_low_power b s.2).

Definition next_deadline (c : Controller) : option Z :=
  foldr (λ s acc,
    if 0 <? demand (ceiling_of c) s
    then match active_until s, acc with
         | Some t, Some u => Some (Z.min t u)
         | Some t, None => Some t
         | None, _ => acc
         end
    else acc) None (btree_values (sessions c)).

Definition expired (now : Z) (s : Session) : bool := from_option (λ until, until <=? now) false (active_until s).

Definition expire (now : Z) (s : controlled) : controlled * option Z :=
  let c := s.2 in
  let gone := concat (threads <$> filter (λ x, expired now x = true) (btree_values (sessions c))) in
  let s := sync gone (s.1, with_sessions
    ((λ x, if expired now x then set_spike false (set_active None x) else x) <$> sessions c) c) in
  (s, next_deadline s.2).

End controller.
End Power.
