(* ===== verification/PowerSpec.v ===== *)
(** * What the power controller promises

    While the scheduler can be asked at all, the floor of every thread is the
    quantised highest demand of the sessions that name it, after every call: no
    floor outlives its session, no session goes unserved. *)

From S2P Require Import PowerControl Prelude.
Import Power.

(** ** Lists of threads *)

Lemma dedup_elem x l : x ∈ dedup l ↔ x ∈ l.
Proof.
  induction l as [|a [|b l] IH]; [done|done|].
  change (dedup (a :: b :: l)) with (if a =? b then dedup (b :: l) else a :: dedup (b :: l)).
  destruct (Z.eqb_spec a b) as [->|Hn]; [rewrite IH; set_solver|].
  rewrite !elem_of_cons, IH, elem_of_cons. tauto.
Qed.

Lemma sorted_unique_elem x l : x ∈ sorted_unique l ↔ x ∈ l.
Proof. unfold sorted_unique. rewrite dedup_elem. by rewrite merge_sort_Permutation. Qed.

Lemma contains_elem t s : contains t s = true ↔ t ∈ threads s.
Proof.
  unfold contains, threads. rewrite orb_true_iff, elem_of_app. by rewrite !bool_decide_eq_true.
Qed.

(** ** Demand *)

(** Some session of the thread asks for [x]. *)
Definition asks (t x : Z) (c : Controller) : Prop :=
  ∃ id s, sessions c !! id = Some s ∧ t ∈ threads s ∧ x ≤ demand (ceiling_of c) s.

Lemma demand_of_le t x c : x ≤ demand_of t c ↔ x ≤ 0 ∨ asks t x c.
Proof.
  unfold demand_of, asks.
  assert (∀ l, x ≤ foldr (λ s acc, if contains t s then Z.max (demand (ceiling_of c) s) acc else acc) 0 l
               ↔ x ≤ 0 ∨ ∃ s, s ∈ l ∧ t ∈ threads s ∧ x ≤ demand (ceiling_of c) s) as Hl.
  { induction l as [|s l IH]; cbn.
    - split; [by left|]. by intros [|(s & ?%not_elem_of_nil & _)].
    - destruct (contains t s) eqn:Hc.
      + apply contains_elem in Hc. rewrite Z.max_le_iff, IH. set_solver.
      + rewrite IH. split; [set_solver|]. intros [|(s' & [->|Hin]%elem_of_cons & Ht & Hx)]; [by left| |set_solver].
        apply contains_elem in Ht. congruence. }
  rewrite Hl. split; (intros [|Hx]; [by left|right]).
  - destruct Hx as (s & [id Hs]%btree_values_elem & ?). by exists id, s.
  - destruct Hx as (id & s & Hs & ?). exists s. rewrite btree_values_elem. eauto.
Qed.

Lemma demand_of_nonneg t c : 0 ≤ demand_of t c.
Proof. apply demand_of_le. by left. Qed.

Lemma demand_of_ext t c c' : (∀ x, asks t x c ↔ asks t x c') → demand_of t c = demand_of t c'.
Proof.
  intros Hx. apply Z.le_antisymm.
  - apply demand_of_le. destruct (proj1 (demand_of_le t (demand_of t c) c)) as [|Ha]; [done|by left|].
    right. by apply Hx.
  - apply demand_of_le. destruct (proj1 (demand_of_le t (demand_of t c') c')) as [|Ha]; [done|by left|].
    right. by apply Hx.
Qed.

Lemma demand_of_none t c : (∀ id s, sessions c !! id = Some s → t ∉ threads s) → demand_of t c = 0.
Proof.
  intros Hn. apply Z.le_antisymm; [|apply demand_of_nonneg].
  destruct (proj1 (demand_of_le t (demand_of t c) c)) as [|(id & s & Hs & Ht & _)]; [done|done|].
  by destruct (Hn id s Hs).
Qed.

(** The floor a thread should have. *)
Definition wanted (t : Z) (c : Controller) : option Z :=
  let f := floor_of (demand_of t c) (ceiling_of c) in if f =? 0 then None else Some f.

Definition exact (t : Z) (c : Controller) : Prop := applied c !! t = wanted t c.

Lemma wanted_ext t c c' :
  ceiling_of c = ceiling_of c' → (∀ x, asks t x c ↔ asks t x c') → wanted t c = wanted t c'.
Proof. intros Ht Hx. unfold wanted. by rewrite Ht, (demand_of_ext t c c' Hx). Qed.

Definition no_zero (c : Controller) : Prop := ∀ t f, applied c !! t = Some f → f ≠ 0.

Lemma exact_no_zero c : (∀ t, exact t c) → no_zero c.
Proof. intros He t f Hf. rewrite (He t) in Hf. unfold wanted in Hf. destruct (Z.eqb_spec (floor_of (demand_of t c) (ceiling_of c)) 0); [done|congruence]. Qed.

(** The threads a session names now. *)
Definition threads_at (id : Z) (c : Controller) : list Z := from_option threads [] (sessions c !! id).

(** Everything is settled but the threads of session [id] and [extra]. *)
Record settled_but (id : Z) (extra : list Z) (c : Controller) : Prop := {
  sb_zero : no_zero c;
  sb_exact t : exact t c ∨ t ∈ threads_at id c ∨ t ∈ extra
}.

Lemma settled_mono id extra extra' c : extra ⊆ extra' → settled_but id extra c → settled_but id extra' c.
Proof. intros Hs [Hz He]. split; [done|]. intros t. destruct (He t) as [|[|]]; auto. Qed.

(** ** Changing sessions *)

Lemma asks_alter t x id f c :
  t ∉ threads_at id c → t ∉ threads_at id (with_sessions (alter f id (sessions c)) c) →
  asks t x c ↔ asks t x (with_sessions (alter f id (sessions c)) c).
Proof.
  intros Hold Hnew. unfold asks. cbn. change (ceiling_of (with_sessions _ c)) with (ceiling_of c).
  split; intros (i & s & Hs & Ht & Hx); exists i, s; (split; [|done]).
  - rewrite lookup_alter_ne; [done|]. intros <-. apply Hold. unfold threads_at. by rewrite Hs.
  - destruct (decide (i = id)) as [->|Hn]; [|by rewrite lookup_alter_ne in Hs].
    destruct Hnew. unfold threads_at. cbn. by rewrite Hs.
Qed.

Section spec.

Context {A : Type} `{Actuator A}.
(** The scheduler never refuses for want of privilege. *)
Context (privileged : ∀ t f a e, (apply_floor t f a).2 ≠ Err (Other e)).

Abbreviation controlled := (Power.controlled (A := A)).
Implicit Types s : controlled.

Lemma settled_on_session id f extra s :
  settled_but id extra s.2 →
  settled_but id (threads_at id s.2 ++ extra) (on_session id f s).2.
Proof.
  intros [Hz He]. split; [done|]. intros t.
  destruct (decide (t ∈ threads_at id s.2)) as [|Hold]; [right; right; set_solver|].
  destruct (decide (t ∈ threads_at id (on_session id f s).2)) as [|Hnew]; [auto|].
  destruct (He t) as [Hx|[|]]; [left|done|right; right; set_solver].
  unfold exact in *. cbn. rewrite Hx. apply wanted_ext; [done|]. intros x. by apply asks_alter.
Qed.

(** ** Synchronisation *)

Lemma threads_forget t id c u : u ∈ threads_at id (forget t c) ↔ u ∈ threads_at id c ∧ u ≠ t.
Proof.
  unfold threads_at, forget. cbn. rewrite lookup_fmap. destruct (sessions c !! id) as [x|]; cbn; [|set_solver].
  unfold threads. cbn. rewrite !elem_of_app, !list_elem_of_filter. tauto.
Qed.

Lemma asks_forget t u x c : u ≠ t → asks u x (forget t c) ↔ asks u x c.
Proof.
  intros Hn. unfold asks. change (ceiling_of (forget t c)) with (ceiling_of c).
  assert (∀ top y f g, demand top (set_threads_of f g y) = demand top y) as Hd by (intros ? []; done).
  split.
  - intros (id & y & Hy & Hu & Hx). assert (u ∈ threads_at id (forget t c)) as Hut by (unfold threads_at; by rewrite Hy).
    apply threads_forget in Hut as [Hut _]. unfold forget in Hy. cbn in Hy. apply lookup_fmap_Some in Hy as (y0 & <- & Hy0).
    exists id, y0. unfold threads_at in Hut. rewrite Hy0 in Hut. split_and!; [done|done|]. by rewrite Hd in Hx.
  - intros (id & y & Hy & Hu & Hx). assert (u ∈ threads_at id (forget t c)) as Hut
      by (apply threads_forget; split; [unfold threads_at; by rewrite Hy|done]).
    unfold threads_at in Hut. unfold forget in *. cbn in *. rewrite lookup_fmap, Hy in Hut. cbn in *.
    eexists id, _. rewrite lookup_fmap, Hy. cbn. split_and!; [done|done|]. by rewrite Hd.
Qed.

Lemma sync_thread_settles t id extra s :
  settled_but id extra s.2 →
  settled_but id extra (sync_thread t s).2 ∧ exact t (sync_thread t s).2
  ∧ (∀ u, exact u s.2 → exact u (sync_thread t s).2)
  ∧ ∀ i u, u ∈ threads_at i (sync_thread t s).2 → u ∈ threads_at i s.2.
Proof.
  destruct s as [a c]. cbn [snd]. intros [Hz He]. unfold sync_thread.
  set (f := floor_of (demand_of t c) (ceiling_of c)).
  assert (wanted t c = if f =? 0 then None else Some f) as Hw by done.
  destruct (Z.eqb_spec f (default 0 (applied c !! t))) as [Hf|Hf].
  { cbn. split_and!; [done| |done|done]. unfold exact. rewrite Hw.
    destruct (applied c !! t) as [g|] eqn:Eg; cbn in Hf; rewrite Hf.
    - apply Hz in Eg. by rewrite (proj2 (Z.eqb_neq g 0)).
    - done. }
  pose proof (privileged t f a) as Hp. destruct (apply_floor t f a) as [a' [u|[|e]]]; cbn in Hp |- *; [| |by destruct (Hp e)].
  - set (c' := with_applied _ c).
    assert (∀ v, wanted v c' = wanted v c) as Hw' by done.
    assert (applied c' = if f =? 0 then delete t (applied c) else <[t := f]> (applied c)) as Hap by done.
    assert (exact t c') as Ht.
    { unfold exact. rewrite Hw', Hw, Hap. destruct (f =? 0); [apply lookup_delete_eq|apply lookup_insert_eq]. }
    assert (∀ v, exact v c → exact v c') as Hkeep.
    { intros v Hv. destruct (decide (v = t)) as [->|Hn]; [done|]. unfold exact in *. rewrite Hw', Hap.
      destruct (f =? 0); [by rewrite lookup_delete_ne|by rewrite lookup_insert_ne]. }
    split_and!; [split|done|done|done].
    + intros v g. rewrite Hap. destruct (Z.eqb_spec f 0) as [|Hn]; [intros [_ Hv]%lookup_delete_Some|
        intros [[_ <-]|[_ Hv]]%lookup_insert_Some; [done|]]; by eapply Hz.
    + intros v. destruct (He v) as [Hv|Hv]; [left; by apply Hkeep|by right].
  - assert (exact t (forget t c)) as Ht.
    { unfold exact, wanted. rewrite demand_of_none; [cbn; by rewrite lookup_delete_eq|].
      intros i y Hy Hin. assert (t ∈ threads_at i (forget t c)) as [_ ?]%threads_forget; [|done].
      unfold threads_at. by rewrite Hy. }
    assert (∀ v, exact v c → exact v (forget t c)) as Hkeep.
    { intros v Hv. destruct (decide (v = t)) as [->|Hn]; [done|]. unfold exact in *. cbn.
      rewrite lookup_delete_ne by done. rewrite Hv. apply wanted_ext; [done|]. intros x. by rewrite asks_forget. }
    split_and!; [split|done|done|].
    + intros v g. cbn. intros [_ Hv]%lookup_delete_Some. by eapply Hz.
    + intros v. destruct (He v) as [Hv|[Hv|Hv]]; [left; by apply Hkeep| |by right; right].
      destruct (decide (v = t)) as [->|Hn]; [by left|]. right. left. by apply threads_forget.
    + intros i u [? _]%threads_forget. done.
Qed.

Lemma sync_list_settles l id extra s :
  settled_but id extra s.2 →
  let s' := foldl (λ s t, sync_thread t s) s l in
  settled_but id extra s'.2 ∧ (∀ t, t ∈ l → exact t s'.2) ∧ (∀ u, exact u s.2 → exact u s'.2)
  ∧ ∀ i u, u ∈ threads_at i s'.2 → u ∈ threads_at i s.2.
Proof.
  revert s. induction l as [|t l IH]; intros s Hs; cbn.
  { split_and!; [done|by intros t ?%not_elem_of_nil|done|done]. }
  destruct (sync_thread_settles t id extra s Hs) as (H1 & H2 & H3 & H4).
  destruct (IH _ H1) as (I1 & I2 & I3 & I4). split_and!; [done| |auto|auto].
  intros u [->|Hu]%elem_of_cons; auto.
Qed.

(** What was asked for is settled, and nothing else is disturbed. *)
Lemma sync_settles l id extra s :
  settled_but id extra s.2 →
  settled_but id (filter (λ t, t ∉ l) extra) (sync l s).2
  ∧ (∀ t, t ∈ l → exact t (sync l s).2)
  ∧ ∀ i u, u ∈ threads_at i (sync l s).2 → u ∈ threads_at i s.2.
Proof.
  intros Hs. destruct (sync_list_settles (sorted_unique l) id extra s Hs) as (H1 & H2 & H3 & H4).
  fold (sync l s) in *. split_and!; [split|intros t Ht; by apply H2, sorted_unique_elem|done].
  - apply H1.
  - intros t. destruct (sb_exact _ _ _ H1 t) as [|[|Ht]]; [auto|auto|].
    destruct (decide (t ∈ l)) as [Hin|]; [left; by apply H2, sorted_unique_elem|]. right. right.
    by apply list_elem_of_filter.
Qed.

Lemma sync_exact l s :
  no_zero s.2 → (∀ t, exact t s.2 ∨ t ∈ l) → ∀ t, exact t (sync l s).2.
Proof.
  intros Hz He t. destruct (sync_list_settles (sorted_unique l) 0 l s) as (_ & H2 & H3 & _).
  { split; [done|]. intros u. destruct (He u); auto. }
  destruct (He t) as [Hx|Hx]; [by apply H3|]. by apply H2, sorted_unique_elem.
Qed.

Lemma sync_session_exact id extra s :
  settled_but id extra s.2 → settled_but id extra (sync_session id s).2
  ∧ ∀ t, t ∉ extra → exact t (sync_session id s).2.
Proof.
  intros Hs. unfold sync_session. destruct (sessions s.2 !! id) as [x|] eqn:Ex.
  - destruct (sync_list_settles (sorted_unique (threads x)) id extra s Hs) as (H1 & H2 & H3 & _).
    split; [done|]. intros t Ht. destruct (sb_exact _ _ _ Hs t) as [Hx|[Hx|]]; [by apply H3| |done].
    apply H2, sorted_unique_elem. unfold threads_at in Hx. by rewrite Ex in Hx.
  - split; [done|]. intros t Ht. destruct (sb_exact _ _ _ Hs t) as [|[Hx|]]; [done| |done].
    unfold threads_at in Hx. rewrite Ex in Hx. by apply not_elem_of_nil in Hx.
Qed.

(** New driver threads are the session's; the ones that went are released. *)
Lemma rescan_settles id extra now s :
  settled_but id extra s.2 → settled_but id extra (rescan id now s).2.
Proof.
  intros Hs. unfold rescan. destruct (sessions s.2 !! id) as [x|] eqn:Ex; [|done].
  destruct (driver_threads (tgid x) s.1) as [a found].
  set (fresh := filter _ (unique found)). set (removed := filter _ (drivers x)). set (c := with_sessions _ s.2).
  assert (settled_but id (removed ++ extra) c) as Hc.
  { pose proof (settled_on_session id (λ y, set_scanned (Some now) (set_threads_of (tids x) fresh x)) extra s Hs) as [Hz He].
    assert ((on_session id (λ _, set_scanned (Some now) (set_threads_of (tids x) fresh x)) s).2 = c) as Ec.
    { unfold on_session, c. cbn. f_equal. apply map_eq. intros i. destruct (decide (i = id)) as [->|Hn].
      - by rewrite lookup_alter_eq, Ex, lookup_insert_eq.
      - by rewrite lookup_alter_ne, lookup_insert_ne by done. }
    rewrite Ec in He. split; [apply Hs|]. intros t. destruct (He t) as [|[|[Ht|]%elem_of_app]]; [auto|auto| |set_solver].
    right. unfold threads_at in Ht. rewrite Ex in Ht. cbn in Ht. unfold threads in Ht.
    unfold threads_at, c. cbn. rewrite lookup_insert_eq. cbn. unfold threads. cbn.
    apply elem_of_app in Ht as [Ht|Ht]; [left; set_solver|].
    destruct (decide (t ∈ fresh)) as [|Hn]; [left; set_solver|right].
    apply elem_of_app. left. by apply list_elem_of_filter. }
  destruct (sync_settles removed id _ (a, c) Hc) as (H1 & _).
  eapply settled_mono; [|exact H1]. intros t [Hn [|]%elem_of_app]%list_elem_of_filter; done.
Qed.
(** ** What synchronisation leaves alone *)

Definition same_sessions (c c' : Controller) : Prop :=
  next_id c' = next_id c ∧ ∀ id, is_Some (sessions c' !! id) ↔ is_Some (sessions c !! id).

Lemma same_sessions_trans c c1 c2 : same_sessions c c1 → same_sessions c1 c2 → same_sessions c c2.
Proof. intros [H1 H2] [I1 I2]. split; [congruence|]. intros id. by rewrite I2. Qed.

Lemma sync_same l s : same_sessions s.2 (sync l s).2.
Proof.
  unfold sync. generalize (sorted_unique l). clear l. intros l. revert s.
  induction l as [|t l IH]; intros s; cbn; [done|]. eapply same_sessions_trans; [|apply IH].
  destruct s as [a c]. unfold sync_thread. destruct (_ =? _); [done|].
  destruct (apply_floor _ _ a) as [a' [u|[|e]]]; [done| |done].
  split; [done|]. intros id. cbn. rewrite lookup_fmap. by destruct (sessions c !! id); split; intros [? ?].
Qed.

Lemma sync_session_same id s : same_sessions s.2 (sync_session id s).2.
Proof. unfold sync_session. destruct (sessions s.2 !! id); [apply sync_same|done]. Qed.

Lemma on_session_same id f s : same_sessions s.2 (on_session id f s).2.
Proof.
  split; [done|]. intros i. cbn. destruct (decide (i = id)) as [->|Hn].
  - rewrite lookup_alter_eq. by destruct (sessions s.2 !! id); split; intros [? ?].
  - by rewrite lookup_alter_ne.
Qed.

Lemma rescan_same id now s : same_sessions s.2 (rescan id now s).2.
Proof.
  unfold rescan. destruct (sessions s.2 !! id) as [x|] eqn:Ex; [|done]. destruct (driver_threads _ _) as [a found].
  eapply same_sessions_trans; [|apply sync_same]. split; [done|]. intros i. cbn.
  destruct (decide (i = id)) as [->|Hn]; [rewrite lookup_insert_eq, Ex; by split; intros [? ?]|by rewrite lookup_insert_ne].
Qed.

(** ** The operations *)

Record power_ok (c : Controller) : Prop := {
  po_exact t : exact t c;
  po_ids id : is_Some (sessions c !! id) → id < next_id c;
  po_next : 0 ≤ next_id c
}.

Lemma power_ok_same c c' : power_ok c → same_sessions c c' → (∀ t, exact t c') → power_ok c'.
Proof. intros [He Hi H0] [Hn Hs] He'. split; [done| |by rewrite Hn]. intros id. rewrite Hs, Hn. apply Hi. Qed.

Lemma power_ok_settled id c : power_ok c → settled_but id [] c.
Proof. intros [He _ _]. split; [by apply exact_no_zero|]. intros t. left. apply He. Qed.

(** A change that leaves the session its threads. *)
Lemma settled_update id f extra s :
  (∀ x, threads (f x) = threads x) →
  settled_but id extra s.2 → settled_but id extra (on_session id f s).2.
Proof.
  intros Hf Hs. destruct (settled_on_session id f extra s Hs) as [Hz He]. split; [done|]. intros t.
  destruct (He t) as [|[|[Ht|]%elem_of_app]]; [auto|auto| |auto]. right. left.
  unfold threads_at in *. cbn. rewrite lookup_alter_eq. destruct (sessions s.2 !! id) as [x|]; cbn in *; [by rewrite Hf|done].
Qed.

Lemma update_ok id f (g : controlled → controlled) s :
  (∀ x, threads (f x) = threads x) →
  (∀ s, settled_but id [] s.2 → settled_but id [] (g s).2) → (∀ s, same_sessions s.2 (g s).2) →
  power_ok s.2 → power_ok (sync_session id (g (on_session id f s))).2.
Proof.
  intros Hf Hg Hsame Hs. eapply power_ok_same; [exact Hs| |].
  - eapply same_sessions_trans; [apply (on_session_same id f)|].
    eapply same_sessions_trans; [apply Hsame|apply sync_session_same].
  - intros t. destruct (sync_session_exact id [] (g (on_session id f s))) as [_ He].
    + apply Hg, settled_update; [done|]. by apply power_ok_settled.
    + apply He, not_elem_of_nil.
Qed.

Lemma threads_activate now x : threads (activate now x) = threads x.
Proof. by destruct x. Qed.
Lemma threads_learn w top hold x : threads (learn w top hold x) = threads x.
Proof. unfold learn. by destruct x as [? ? ? ? ? ? ? ? ? [|] ? ?]. Qed.
Lemma threads_hinted h p hold now x : threads (hinted h p hold now x) = threads x.
Proof. unfold hinted. case_bool_decide; rewrite ?threads_activate; by destruct h. Qed.

Lemma asks_keep f t x c :
  (∀ y, threads (f y) = threads y) → (∀ y, t ∈ threads y → ∀ top, demand top (f y) = demand top y) →
  asks t x (with_sessions (f <$> sessions c) c) ↔ asks t x c.
Proof.
  intros Hf Hd. unfold asks. cbn. change (ceiling_of (with_sessions _ c)) with (ceiling_of c).
  split; intros (id & y & Hy & Ht & Hx).
  - apply lookup_fmap_Some in Hy as (y0 & <- & Hy0). rewrite Hf in Ht. rewrite Hd in Hx by done. by exists id, y0.
  - exists id, (f y). rewrite lookup_fmap, Hy. cbn. rewrite Hf, Hd by done. done.
Qed.

Lemma create_ok group user label ts target now s :
  power_ok s.2 → next_id s.2 < 18446744073709551615 → power_ok (create group user label ts target now s).1.2.
Proof.
  intros [He Hi H0] Hn. unfold create. cbn [fst snd]. set (x := activate now _). set (id := next_id s.2) in *.
  set (c1 := with_sessions _ _).
  assert (sessions s.2 !! id = None) as Hfresh.
  { destruct (sessions s.2 !! id) as [y|] eqn:Ey; [|done]. assert (id < id); [|lia]. apply Hi. eauto. }
  assert (settled_but id [] c1) as Hc1.
  { split; [exact (exact_no_zero _ He)|]. intros t. destruct (decide (t ∈ threads x)) as [Ht|Ht].
    - right. left. unfold threads_at, c1. cbn. by rewrite lookup_insert_eq.
    - left. unfold exact. change (applied c1) with (applied s.2). rewrite (He t). apply wanted_ext; [done|]. intros y.
      unfold asks. change (ceiling_of c1) with (ceiling_of s.2). cbn.
      split; intros (i & z & Hz & Hzt & Hzx); exists i, z; (split; [|done]).
      + rewrite lookup_insert_ne; [done|]. intros <-. congruence.
      + apply lookup_insert_Some in Hz as [[<- <-]|[_ Hz]]; [done|exact Hz]. }
  pose proof (rescan_settles id [] now (s.1, c1) Hc1) as H1.
  destruct (sync_session_exact id [] _ H1) as [_ H2].
  destruct (same_sessions_trans _ _ _ (rescan_same id now (s.1, c1)) (sync_session_same id (rescan id now (s.1, c1)))) as [I1 I2].
  cbn [snd] in I1, I2. split; [intros t; apply H2, not_elem_of_nil|intros i; rewrite I2, I1|rewrite I1]; unfold c1; cbn;
    rewrite Z.mod_small by lia; [|lia].
  intros [z Hz]. apply lookup_insert_Some in Hz as [[<- _]|[_ Hz]]; [lia|].
  assert (i < id) by eauto. lia.
Qed.

Lemma close_ok id s : power_ok s.2 → power_ok (close id s).2.
Proof.
  intros [He Hi H0]. unfold close. destruct (sessions s.2 !! id) as [x|] eqn:Ex; [|by split].
  set (c1 := with_sessions _ s.2). destruct (sync_same (threads x) (s.1, c1)) as [I1 I2]. cbn [snd] in I1, I2.
  split; [|intros i; rewrite I2, I1; unfold c1; cbn; intros [z [_ Hz]%lookup_delete_Some]; eauto|by rewrite I1].
  apply sync_exact; [exact (exact_no_zero _ He)|]. intros t. destruct (decide (t ∈ threads x)) as [|Ht]; [by right|left].
  unfold exact. change (applied _) with (applied s.2). rewrite (He t). apply wanted_ext; [done|]. intros y.
  unfold asks. change (ceiling_of (s.1, c1).2) with (ceiling_of s.2). unfold c1. cbn.
  split; intros (i & z & Hz & Hzt & Hzx); exists i, z; (split; [|done]).
  - rewrite lookup_delete_ne; [done|]. intros <-. congruence.
  - by apply lookup_delete_Some in Hz as [_ Hz].
Qed.

Lemma report_ok id work now s : power_ok s.2 → power_ok (report id work now s).2.
Proof.
  intros Hs. unfold report. destruct (sessions s.2 !! id) as [x|] eqn:Ex; [|done].
  set (y := activate now _). set (scan := _ && _).
  assert (on_session id (λ _, y) s = on_session id (λ z, set_threads_of (tids z) (drivers z) y) s) as ->.
  { unfold on_session. do 2 f_equal. apply map_eq. intros i. destruct (decide (i = id)) as [->|Hn].
    - rewrite !lookup_alter_eq, Ex. cbn. f_equal. unfold y. symmetry.
      destruct x as [? ? ? ? ? ? ? ? ? [|] ? ?]; done.
    - by rewrite !lookup_alter_ne. }
  apply (update_ok id _ (λ s, if scan then rescan id now s else s)); [by intros []| | |done];
    intros s0; destruct scan; [apply rescan_settles|done|apply rescan_same|done].
Qed.

Lemma hint_ok id h now s : power_ok s.2 → power_ok (hint id h now s).2.
Proof.
  intros Hs. unfold hint. destruct (sessions s.2 !! id) as [x|] eqn:Ex; [|done].
  set (scan := _ || _).
  apply (update_ok id _ (λ s, if scan then rescan id now s else s)); [intros; apply threads_hinted| | |done];
    intros s0; destruct scan; [apply rescan_settles|done|apply rescan_same|done].
Qed.

Lemma set_threads_ok id ts now s : power_ok s.2 → power_ok (set_threads id ts now s).2.
Proof.
  intros Hs. unfold set_threads. destruct (sessions s.2 !! id) as [x|] eqn:Ex; [|done].
  set (s1 := on_session id _ s). set (s2 := rescan id now s1).
  pose proof (rescan_settles id _ now s1 (settled_on_session id _ _ s (power_ok_settled id _ Hs))) as H2. fold s2 in H2.
  eapply power_ok_same; [exact Hs| |].
  - eapply same_sessions_trans; [apply (on_session_same id)|].
    eapply same_sessions_trans; [apply (rescan_same id now)|apply sync_same].
  - apply sync_exact; [apply H2|]. intros t. destruct (sb_exact _ _ _ H2 t) as [|[Ht|[Ht|?%not_elem_of_nil]%elem_of_app]]; [by left|right..|done].
    + apply elem_of_app. by right.
    + apply elem_of_app. left. unfold threads_at in Ht. by rewrite Ex in Ht.
Qed.

Lemma sync_all_ok s c :
  power_ok s.2 → same_sessions s.2 c → no_zero c → power_ok (sync_all (s.1, c)).2.
Proof.
  intros Hs Hsame Hz. eapply power_ok_same; [exact Hs| |].
  - eapply same_sessions_trans; [exact Hsame|apply (sync_same _ (s.1, c))].
  - apply sync_exact; [done|]. intros t. cbn [snd].
    set (l := _ ++ _). destruct (decide (t ∈ l)) as [|Ht]; [by right|left].
    unfold l in Ht. rewrite elem_of_app in Ht. unfold exact.
    destruct (applied c !! t) as [f|] eqn:Ef.
    + destruct Ht. right. apply list_elem_of_fmap. exists (t, f). by rewrite elem_of_map_to_list.
    + unfold wanted. rewrite demand_of_none; [done|]. intros i y Hy Hyt. apply Ht. left.
      apply list_elem_of_In, in_concat. exists (threads y). split; [|by apply list_elem_of_In].
      apply list_elem_of_In, list_elem_of_fmap. exists y. split; [done|]. apply btree_values_elem. eauto.
Qed.

Lemma interaction_ok now s : power_ok s.2 → power_ok (interaction now s).2.
Proof.
  intros Hs. unfold interaction. apply sync_all_ok; [done| |exact (exact_no_zero _ (po_exact _ Hs))].
  split; [done|]. intros id. cbn. rewrite lookup_fmap. by destruct (sessions s.2 !! id); split; intros [? ?].
Qed.

Lemma set_low_power_ok b s : power_ok s.2 → power_ok (set_low_power b s).2.
Proof.
  intros Hs. unfold set_low_power. case_bool_decide; [done|].
  apply sync_all_ok; [done|done|exact (exact_no_zero _ (po_exact _ Hs))].
Qed.

Lemma expire_ok now s : power_ok s.2 → power_ok (expire now s).1.2.
Proof.
  intros Hs. unfold expire. cbn [fst]. set (f := λ x, if expired now x then _ else _). set (gone := concat _).
  eapply power_ok_same; [exact Hs| |].
  - eapply same_sessions_trans; [|apply sync_same]. split; [done|]. intros id. cbn. rewrite lookup_fmap.
    by destruct (sessions s.2 !! id); split; intros [? ?].
  - apply sync_exact; [exact (exact_no_zero _ (po_exact _ Hs))|]. intros t.
    destruct (decide (t ∈ gone)) as [|Ht]; [by right|left].
    unfold exact. change (applied _) with (applied s.2). rewrite (po_exact _ Hs t). apply wanted_ext; [done|].
    intros x. symmetry. cbn [snd].
    assert (∀ y, threads (f y) = threads y) as Hf by (intros y; unfold f; by destruct (expired now y)).
    unfold asks. cbn. change (ceiling_of (with_sessions _ _)) with (ceiling_of s.2).
    assert (∀ id y, sessions s.2 !! id = Some y → t ∈ threads y → f y = y) as Hkeep.
    { intros id y Hy Hyt. unfold f. destruct (expired now y) eqn:Ex; [|done]. destruct Ht.
      apply list_elem_of_In, in_concat. exists (threads y). split; [|by apply list_elem_of_In].
      apply list_elem_of_In, list_elem_of_fmap. exists y. split; [done|]. apply list_elem_of_filter.
      split; [done|]. apply btree_values_elem. eauto. }
    split; intros (id & y & Hy & Hyt & Hx).
    + apply lookup_fmap_Some in Hy as (y0 & <- & Hy0). rewrite Hf in Hyt. rewrite (Hkeep id y0) in Hx by done.
      by exists id, y0.
    + exists id, y. rewrite lookup_fmap, Hy. cbn. by rewrite (Hkeep id y).
Qed.

Lemma set_target_ok id target s : power_ok s.2 → power_ok (set_target id target s).2.
Proof.
  intros Hs. unfold set_target. destruct (0 <? target); [|done].
  eapply power_ok_same; [exact Hs|apply on_session_same|]. intros t. unfold exact. cbn. rewrite (po_exact _ Hs t).
  apply wanted_ext; [done|]. intros x. unfold asks. cbn. change (ceiling_of (with_sessions _ _)) with (ceiling_of s.2).
  split; intros (i & y & Hy & Hyt & Hx).
  - exists i. destruct (decide (i = id)) as [->|Hn].
    + exists (set_target_ns target y). by rewrite lookup_alter_eq, Hy.
    + exists y. by rewrite lookup_alter_ne.
  - exists i. destruct (decide (i = id)) as [->|Hn].
    + rewrite lookup_alter_eq in Hy. destruct (sessions s.2 !! id) as [y0|]; [|done]. injection Hy as <-. by exists y0.
    + exists y. by rewrite lookup_alter_ne in Hy.
Qed.
End spec.

(** ** Every history *)

Inductive PowerOp : Type :=
| PCreate (group user label : Z) (ts : list Z) (target now : Z)
| PClose (id : Z)
| PTarget (id target : Z)
| PReport (id : Z) (work : list Work) (now : Z)
| PHint (id : Z) (h : Hint) (now : Z)
| PPause (id : Z)
| PResume (id now : Z)
| PThreads (id : Z) (ts : list Z) (now : Z)
| PEfficient (id : Z) (b : bool)
| PInteraction (now : Z)
| PLowPower (b : bool)
| PExpire (now : Z).

Definition power_step {A} `{Actuator A} (op : PowerOp) (s : controlled (A := A)) : controlled :=
  match op with
  | PCreate group user label ts target now => (create group user label ts target now s).1
  | PClose id => close id s
  | PTarget id target => set_target id target s
  | PReport id work now => report id work now s
  | PHint id h now => hint id h now s
  | PPause id => pause id s
  | PResume id now => resume id now s
  | PThreads id ts now => set_threads id ts now s
  | PEfficient id b => set_efficient id b s
  | PInteraction now => interaction now s
  | PLowPower b => set_low_power b s
  | PExpire now => (expire now s).1
  end.

(** Session identities do not run out. *)
Inductive power_reach {A} `{Actuator A} : controlled (A := A) → Prop :=
| power_new a p : power_reach (a, controller_new p)
| power_next s op : power_reach s → next_id s.2 < 18446744073709551615 → power_reach (power_step op s).

Lemma power_reach_ok {A} `{Actuator A} (s : controlled (A := A)) :
  (∀ t f a e, (apply_floor t f a).2 ≠ Err (Other e)) → power_reach s → power_ok s.2.
Proof.
  intros Hp. induction 1 as [a p|s op _ IH Hn].
  { split; cbn; [|intros id; rewrite lookup_empty; by intros [? ?]|lia]. intros t. unfold exact. cbn.
    rewrite lookup_empty. unfold wanted. by rewrite demand_of_none. }
  destruct op; cbn [power_step].
  - by apply create_ok.
  - by apply close_ok.
  - by apply set_target_ok.
  - by apply report_ok.
  - by apply hint_ok.
  - by apply (update_ok Hp id _ (λ s, s)).
  - apply (update_ok Hp id _ (λ s, s)); [|done|done|done]. intros x. by rewrite threads_activate.
  - by apply set_threads_ok.
  - by apply (update_ok Hp id _ (λ s, s)).
  - by apply interaction_ok.
  - by apply set_low_power_ok.
  - by apply expire_ok.
Qed.


(** No session of the controller has run out. *)
Definition all_fresh (now : Z) (c : Controller) : Prop :=
  ∀ id x, sessions c !! id = Some x → expired now x = false.

Lemma sync_fresh {A} `{Actuator A} now l (s : controlled (A := A)) :
  all_fresh now s.2 → all_fresh now (sync l s).2.
Proof.
  unfold sync. generalize (sorted_unique l). clear l. intros l. revert s.
  induction l as [|t l IH]; intros s Hs; cbn; [done|]. apply IH. clear IH.
  destruct s as [a c]. unfold sync_thread. destruct (_ =? _); [done|].
  destruct (apply_floor _ _ a) as [a' [u|[|e]]]; [done| |done].
  intros id x Hx. cbn in Hx. apply lookup_fmap_Some in Hx as (y & <- & Hy). apply (Hs id y Hy).
Qed.

(** A session that stops reporting loses its floor: after [expire] every thread
    with a floor is named by a session that reported recently enough. *)
Theorem expire_releases {A} `{Actuator A} (s : controlled (A := A)) now t :
  (∀ t f a e, (apply_floor t f a).2 ≠ Err (Other e)) → power_reach s →
  is_Some (applied (expire now s).1.2 !! t) →
  ∃ id x until, sessions (expire now s).1.2 !! id = Some x ∧ t ∈ threads x
                ∧ active_until x = Some until ∧ now < until.
Proof.
  intros Hp Hs%power_reach_ok [f Hf]; [|done]. pose proof (po_exact _ (expire_ok Hp now s Hs) t) as He.
  unfold exact, wanted in He. rewrite Hf in He.
  assert (all_fresh now (expire now s).1.2) as Hfresh.
  { unfold expire. cbn [fst]. apply sync_fresh. intros id x Hx. cbn in Hx.
    apply lookup_fmap_Some in Hx as (y & <- & _). destruct (expired now y) eqn:Ey; [done|exact Ey]. }
  set (c := (expire now s).1.2) in *.
  destruct (Z.eqb_spec (floor_of (demand_of t c) (ceiling_of c)) 0) as [|Hn]; [done|].
  unfold floor_of in Hn. destruct (Z.eqb_spec (demand_of t c) 0) as [|Hd]; [done|].
  pose proof (demand_of_nonneg t c).
  destruct (proj1 (demand_of_le t (demand_of t c) c)) as [|(id & x & Hx & Ht & Hle)]; [done|lia|].
  unfold demand in Hle. destruct (active_until x) as [until|] eqn:Ea.
  - exists id, x, until. split_and!; try done. apply Hfresh in Hx. unfold expired in Hx. rewrite Ea in Hx. cbn in Hx.
    by apply Z.leb_gt in Hx.
  - rewrite bool_decide_true, orb_true_r in Hle by done. lia.
Qed.

(** ** The policy's bounds *)

Lemma tiers_bounds capacities : Forall (λ t, 0 < t.1 ≤ UTIL_MAX) (tiers_of capacities).
Proof.
  unfold tiers_of. rewrite merge_sort_Permutation.
  assert (∀ acc, Forall (λ t : Z * Z, 0 < t.1 ≤ UTIL_MAX) acc →
    Forall (λ t, 0 < t.1 ≤ UTIL_MAX)
      (foldl (λ tiers c, if 0 <? c then count_tier (Z.min c UTIL_MAX) tiers else tiers) acc capacities)) as Hf; [|by apply Hf].
  induction capacities as [|c l IH]; intros acc Hacc; cbn [foldl]; [done|]. apply IH.
  destruct (Z.ltb_spec 0 c) as [Hc|]; [|done]. unfold UTIL_MAX in *. clear IH.
  induction Hacc as [|[c' n] acc Ht Hacc IH]; cbn; [constructor; [cbn; lia|done]|].
  destruct (_ =? _); constructor; done.
Qed.

(** Whatever the capacities are, floors are ordered and leave a CPU below its
    highest frequency: baseline, interaction and ceiling grow, up to four fifths
    of the scale. *)
Theorem policy_bounds capacities :
  let p := from_capacities capacities in
  0 ≤ baseline p ≤ interaction_floor p ∧ interaction_floor p ≤ ceiling p ≤ UTIL_MAX * 4 / 5.
Proof.
  pose proof (tiers_bounds capacities) as Hb. unfold from_capacities. set (tiers := tiers_of capacities) in *.
  set (wide := match find _ _ with Some _ => _ | None => _ end).
  assert (0 < wide ≤ UTIL_MAX) as Hw.
  { rewrite Forall_forall in Hb. unfold wide. destruct (find _ _) as [t|] eqn:Ef.
    - apply find_some in Ef as [Hin _]. apply Hb. apply list_elem_of_In. by apply in_rev.
    - destruct (last tiers) as [t|] eqn:El; [|by unfold UTIL_MAX]. apply Hb. by apply last_Some_elem_of. }
  cbn. set (top := wide * 4 / 5).
  assert (0 ≤ top ≤ UTIL_MAX * 4 / 5) as Ht.
  { unfold top. split; [apply Z.div_pos; lia|apply Z.div_le_mono; lia]. }
  set (base := match tiers with [] => _ | _ => _ end).
  assert (0 ≤ base ≤ top) as Hbase.
  { assert (0 ≤ top / 2 ≤ top) as Hhalf.
    { split; [apply Z.div_pos; lia|]. apply Z.div_le_upper_bound; lia. }
    unfold base. destruct tiers as [|[little n] [|t ts]]; [done|done|].
    apply Forall_inv in Hb. cbn in Hb. destruct (Z.ltb_spec little top); [|done]. change (UTIL_MAX / 16) with 64. lia. }
  pose proof (Z.div_le_lower_bound (base + top) 2 base ltac:(lia) ltac:(lia)).
  pose proof (Z.div_le_upper_bound (base + top) 2 top ltac:(lia) ltac:(lia)). lia.
Qed.

(** ** A concrete device *)

(** A scheduler that forgets threads above 100; process 5 has one driver thread. *)
#[global] Instance demo_actuator : Actuator unit := {
  apply_floor t _ a := (a, if 100 <? t then Err Gone else Ok tt);
  driver_threads t a := (a, if t =? 5 then [51] else [])
}.

Definition demo_power : controlled (A := unit) :=
  foldl (λ s op, power_step op s) (tt, controller_new (from_capacities [364; 364; 364; 829; 829; 829; 829; 1024]))
    [PCreate 5 1000 0 [10; 11; 10; 200] 5833333 0; PCreate 6 1000 0 [11; 60] 5833333 0;
     PReport 1 [mkWork 9000000 0] 1000; PLowPower false; PClose 2].


Lemma expire_releases_witness :
  is_Some (applied (expire 5000 demo_power).1.2 !! 10) ∧
  ∃ id x until, sessions (expire 5000 demo_power).1.2 !! id = Some x ∧ 10 ∈ threads x
                ∧ active_until x = Some until ∧ 5000 < until.
Proof.
  assert (power_reach demo_power) as Hr
    by (repeat (apply power_next; [|vm_compute; reflexivity]); apply power_new).
  assert (is_Some (applied (expire 5000 demo_power).1.2 !! 10)) as Ha by (exists 663; vm_compute; reflexivity).
  split; [exact Ha|]. apply (expire_releases demo_power 5000 10); [|exact Hr|exact Ha].
  intros t f a e. cbn. by destruct (100 <? t).
Defined.
