(* ===== verification/PresenterWork.v ===== *)
(** * The presenter's work queues
      (graphics/droidloom-wayland/src/readiness.rs, resize.rs, activation.rs)

    Which task has work of which kind, the latest window geometry awaiting
    application, and the activation tokens of host-authorised focus. *)

From S2P Require Import Prelude.

(** ** Readiness *)

Module Readiness.

Definition REQUESTS : Z := 1.
Definition RELEASES : Z := 2.
Definition CONFIG : Z := 4.
Definition FRAMES : Z := 8.
Definition UNMAP : Z := 16.
Definition CLEANUP : Z := 32.
Definition RESIZE : Z := 64.
Definition TIMELINE : Z := 128.

(** Instants are nanoseconds. *)
Record Tasks : Type := mkTasks {
  ready : gmap Z Z;
  streams : gset Z;
  frames : gset Z;
  layer_fallback : gset Z;
  frame_fallback : gset Z;
  fallback_deadline : option Z
}.

Definition tasks_default : Tasks := mkTasks ∅ ∅ ∅ ∅ ∅ None.

Definition with_ready (r : gmap Z Z) (t : Tasks) : Tasks :=
  mkTasks r (streams t) (frames t) (layer_fallback t) (frame_fallback t) (fallback_deadline t).

(** [*entry(object).or_default() |= work]. *)
Definition mark_in (object work : Z) (r : gmap Z Z) : gmap Z Z :=
  <[object := Z.lor (default 0 (r !! object)) work]> r.

Definition mark (object work : Z) (t : Tasks) : Tasks := with_ready (mark_in object work (ready t)) t.

Definition pending (t : Tasks) : bool := negb (bool_decide (ready t = ∅)).

(** The first object in key order with one of the bits. *)
Definition has_work (work : Z) (p : Z * Z) : bool := negb (Z.land p.2 work =? 0).

Definition first_ready (work : Z) (r : gmap Z Z) : option Z :=
  fst <$> head (List.filter (has_work work) (btree_items r)).

(** [*bits &= !work; if *bits == 0 { remove }]. *)
Definition clear_work (object work : Z) (r : gmap Z Z) : gmap Z Z :=
  let bits := Z.ldiff (default 0 (r !! object)) work in
  if bits =? 0 then delete object r else <[object := bits]> r.

Definition pop (work : Z) (t : Tasks) : Tasks * option Z :=
  match first_ready work (ready t) with
  | None => (t, None)
  | Some object => (with_ready (clear_work object work (ready t)) t, Some object)
  end.

(** One entry under [retain]. *)
Definition retain_work (work : Z) (bits : Z) : option Z :=
  let bits := if Z.land bits work =? 0 then bits else Z.ldiff bits work in
  if bits =? 0 then None else Some bits.

Definition take_work (work : Z) (t : Tasks) : Tasks * list Z :=
  (with_ready (omap (retain_work work) (ready t)) t,
   (List.filter (has_work work) (btree_items (ready t))).*1).

Definition remove_task (object : Z) (t : Tasks) : Tasks :=
  mkTasks (delete object (ready t)) (streams t ∖ {[object]}) (frames t ∖ {[object]})
    (layer_fallback t ∖ {[object]}) (frame_fallback t ∖ {[object]}) (fallback_deadline t).

Definition set_membership (object : Z) (enabled : bool) (s : gset Z) : gset Z :=
  if enabled then {[object]} ∪ s else s ∖ {[object]}.

Definition set_layer_fallback (object : Z) (enabled : bool) (t : Tasks) : Tasks :=
  mkTasks (ready t) (streams t) (frames t) (set_membership object enabled (layer_fallback t))
    (frame_fallback t) (fallback_deadline t).

Definition set_frame_fallback (object : Z) (enabled : bool) (t : Tasks) : Tasks :=
  mkTasks (ready t) (streams t) (frames t) (layer_fallback t)
    (set_membership object enabled (frame_fallback t)) (fallback_deadline t).

Definition with_deadline (d : option Z) (t : Tasks) : Tasks :=
  mkTasks (ready t) (streams t) (frames t) (layer_fallback t) (frame_fallback t) d.

Definition deadline (now interval : Z) (t : Tasks) : Tasks * option Z :=
  let d :=
    if bool_decide (layer_fallback t = ∅) && bool_decide (frame_fallback t = ∅) then None
    else match fallback_deadline t with None => Some (now + interval) | Some d => Some d end in
  (with_deadline d t, d).

(** Marking every object of a set; marks of distinct objects commute, so the
    order of the iteration does not matter. *)
Definition mark_all (objects : gset Z) (work : Z) (r : gmap Z Z) : gmap Z Z :=
  foldl (λ r object, mark_in object work r) r (elements objects).

Definition notify_fallback (now : Z) (t : Tasks) : Tasks :=
  match fallback_deadline t with
  | None => t
  | Some d =>
      if now <? d then t
      else with_deadline None
        (with_ready (mark_all (frame_fallback t) FRAMES
                       (mark_all (layer_fallback t) RELEASES (ready t))) t)
  end.

(** The owner of a poll descriptor. *)
Inductive Source : Type :=
| Other
| TaskSource (object work : Z) (eventfd : bool).

(** libc's poll bits. *)
Definition POLLIN : Z := 1.
Definition POLLERR : Z := 8.
Definition POLLHUP : Z := 16.
Definition POLLNVAL : Z := 32.

Definition notify (s : Source) (revents : Z) (t : Tasks) : Tasks * bool :=
  match s with
  | Other => (t, false)
  | TaskSource object work eventfd =>
      let t := if Z.land revents (Z.lor (Z.lor (Z.lor POLLIN POLLHUP) POLLERR) POLLNVAL) =? 0
               then t else mark object work t in
      (t, eventfd && negb (Z.land revents POLLIN =? 0))
  end.

End Readiness.

(** ** Pending geometry *)

Module Resize.

Record LogicalSize : Type := mkSize { ls_width : Z; ls_height : Z }.

#[global] Instance LogicalSize_eq_dec : EqDecision LogicalSize.
Proof. solve_decision. Defined.

Record Configure : Type := mkConfigure { cf_size : LogicalSize; cf_scale_120 : Z; cf_remember : bool }.

Definition changes_geometry (c : Configure) (size : option (Z * Z)) (scale_120 : Z) : bool :=
  negb (bool_decide (size = Some (ls_width (cf_size c), ls_height (cf_size c))))
  || negb (scale_120 =? cf_scale_120 c).

Record Pending : Type := mkPending {
  pd_size : option LogicalSize;
  pd_scale_120 : Z;
  pd_remember : bool
}.

Definition pending_new (scale_120 : Z) : Pending := mkPending None scale_120 false.

Definition logical_size (applied : option (Z * Z)) (p : Pending) : option LogicalSize :=
  match pd_size p with
  | Some s => Some s
  | None => (λ '(w, h), mkSize w h) <$> applied
  end.

Definition configure (size : LogicalSize) (remember : bool) (p : Pending) : Pending :=
  mkPending (Some size) (pd_scale_120 p) remember.

Definition preferred_scale (scale_120 : Z) (applied : option (Z * Z)) (p : Pending) : Pending * bool :=
  if pd_scale_120 p =? scale_120 then (p, false)
  else
    let size := logical_size applied (mkPending (pd_size p) scale_120 (pd_remember p)) in
    (mkPending size scale_120 (pd_remember p), bool_decide (is_Some size)).

Definition take_pending (p : Pending) : Pending * option Configure :=
  match pd_size p with
  | None => (p, None)
  | Some size =>
      (mkPending None (pd_scale_120 p) false, Some (mkConfigure size (pd_scale_120 p) (pd_remember p)))
  end.

Definition cancel (p : Pending) : Pending := mkPending None (pd_scale_120 p) false.

End Resize.

(** ** Activation tokens *)

Module Activation.

Section tokens.

Context {token : Type}.

Record Tokens : Type := mkTokens {
  tk_mapped : gset Z;
  tk_pending : gmap Z token;
  tk_generation : Z;
  tk_requesting : option Z
}.

Definition tokens_default : Tokens := mkTokens ∅ ∅ 0 None.

(** [generation.wrapping_add(1)]. *)
Definition next_generation (g : Z) : Z := (g + 1) mod 18446744073709551616.

Definition request (object : Z) (t : Tokens) : Tokens * option Z :=
  if bool_decide (tk_requesting t = Some object) || bool_decide (is_Some (tk_pending t !! object))
  then (t, None)
  else
    let generation := next_generation (tk_generation t) in
    (mkTokens (tk_mapped t) ∅ generation (Some object), Some generation).

Definition complete (object generation : Z) (tok : token) (t : Tokens) : Tokens * option token :=
  if negb (generation =? tk_generation t) || negb (bool_decide (tk_requesting t = Some object))
  then (t, None)
  else if bool_decide (object ∈ tk_mapped t)
  then (mkTokens (tk_mapped t) (tk_pending t) (tk_generation t) None, Some tok)
  else (mkTokens (tk_mapped t) (<[object := tok]> (tk_pending t)) (tk_generation t) None, None).

Definition mapped (object : Z) (t : Tokens) : Tokens * option token :=
  (mkTokens ({[object]} ∪ tk_mapped t) (delete object (tk_pending t)) (tk_generation t)
     (tk_requesting t), tk_pending t !! object).

Definition remove_token (object : Z) (t : Tokens) : Tokens :=
  let '(generation, requesting) :=
    if bool_decide (tk_requesting t = Some object)
    then (next_generation (tk_generation t), None) else (tk_generation t, tk_requesting t) in
  mkTokens (tk_mapped t ∖ {[object]}) (delete object (tk_pending t)) generation requesting.

Definition clear_tokens (t : Tokens) : Tokens := mkTokens ∅ ∅ (next_generation (tk_generation t)) None.

End tokens.

Arguments Tokens token : clear implicits.

End Activation.
