(* ===== verification/PresenterSpec.v ===== *)
(** * What the presenter's work queues promise

    Draining work by [pop] visits each ready task once, in order, and agrees
    with the snapshot [take]; fallback deadlines are absolute; a burst of
    geometry changes is applied once, with the latest values; an activation
    token is used at most once and only for the latest request. *)

From S2P Require Import Prelude PresenterWork.
Import Readiness.

(** ** Ready objects in key order *)

Definition ready_objects (work : Z) (r : gmap Z Z) : list Z :=
  (List.filter (has_work work) (btree_items r)).*1.

Lemma ready_objects_elem work r object :
  object ∈ ready_objects work r ↔ ∃ bits, r !! object = Some bits ∧ Z.land bits work ≠ 0.
Proof.
  unfold ready_objects. rewrite list_elem_of_fmap. setoid_rewrite list_elem_of_In.
  setoid_rewrite filter_In. setoid_rewrite <- list_elem_of_In. unfold has_work. split.
  - intros ([o bits] & -> & Hin%btree_items_elem & Hb). exists bits. cbn in *. by reflect.
  - intros (bits & Hr & Hb). exists (object, bits). rewrite btree_items_elem. cbn. by reflect.
Qed.

#[local] Instance key_le_total : base.Total (@key_le Z).
Proof. intros p q. unfold key_le. lia. Qed.
#[local] Instance key_le_trans : Transitive (@key_le Z).
Proof. intros p q r. unfold key_le. lia. Qed.

Lemma sorted_keys (l : list (Z * Z)) f :
  StronglySorted key_le l → NoDup l.*1 →
  StronglySorted Z.lt (List.filter f l).*1 ∧ NoDup (List.filter f l).*1.
Proof.
  induction l as [|p l IH]; intros Hs Hn; cbn; [split; constructor|].
  apply StronglySorted_inv in Hs as [Hs Hp]. apply NoDup_cons in Hn as [Hni Hn].
  destruct (IH Hs Hn) as [Hs' Hn']. destruct (f p); [|done]. cbn.
  assert (Hsub : ∀ k, k ∈ (List.filter f l).*1 → ∃ q, q ∈ l ∧ q.1 = k).
  { intros k (q & -> & Hq)%list_elem_of_fmap. exists q. apply list_elem_of_In, filter_In in Hq as [Hq _].
    by rewrite list_elem_of_In. }
  split; constructor; try done.
  - apply Forall_forall. intros k Hk. destruct (Hsub k Hk) as (q & Hq & <-).
    rewrite Forall_forall in Hp. specialize (Hp q Hq). unfold key_le in Hp.
    assert (p.1 ≠ q.1); [|lia]. intros He. apply Hni. rewrite He. apply list_elem_of_fmap. eauto.
  - intros Hk. destruct (Hsub _ Hk) as (q & Hq & He). apply Hni. rewrite <- He.
    apply list_elem_of_fmap. eauto.
Qed.

Lemma ready_objects_sorted work r :
  StronglySorted Z.lt (ready_objects work r) ∧ NoDup (ready_objects work r).
Proof.
  apply sorted_keys; [|apply btree_keys_NoDup]. apply StronglySorted_merge_sort; apply _.
Qed.

Lemma sorted_lt_unique (l k : list Z) :
  StronglySorted Z.lt l → StronglySorted Z.lt k → (∀ x, x ∈ l ↔ x ∈ k) → l = k.
Proof.
  intros Hl Hk He.
  assert (Hle : ∀ l, StronglySorted Z.lt l → StronglySorted Z.le l ∧ NoDup l).
  { clear. induction 1 as [|x l Hl IH Hx]; [split; constructor|]. destruct IH as [IH Hn].
    split; constructor; try done.
    - eapply Forall_impl; [exact Hx|]. cbn. lia.
    - intros Hin. rewrite Forall_forall in Hx. specialize (Hx x Hin). lia. }
  apply (StronglySorted_unique Z.le); [apply Hle, Hl|apply Hle, Hk|].
  apply NoDup_Permutation; [apply Hle, Hl|apply Hle, Hk|exact He].
Qed.

Lemma first_ready_head work r : first_ready work r = head (ready_objects work r).
Proof. unfold first_ready, ready_objects. by destruct (List.filter _ _). Qed.

Lemma land_ldiff_0 b w : Z.land (Z.ldiff b w) w = 0.
Proof.
  apply Z.bits_inj'. intros i Hi. rewrite Z.land_spec, Z.ldiff_spec, Z.bits_0.
  by destruct (Z.testbit b i), (Z.testbit w i).
Qed.

Lemma clear_work_lookup object work r :
  clear_work object work r !! object
  = (let bits := Z.ldiff (default 0 (r !! object)) work in if bits =? 0 then None else Some bits).
Proof.
  unfold clear_work. cbn zeta. destruct (_ =? 0); [by rewrite lookup_delete_eq|].
  by rewrite lookup_insert_eq.
Qed.

Lemma clear_work_lookup_ne object work r object' :
  object' ≠ object → clear_work object work r !! object' = r !! object'.
Proof.
  intros Hne. unfold clear_work. destruct (_ =? 0); [by rewrite lookup_delete_ne|].
  by rewrite lookup_insert_ne.
Qed.

(** Popping an object leaves the rest of the queue. *)
Lemma clear_work_tail work r object rest :
  ready_objects work r = object :: rest → ready_objects work (clear_work object work r) = rest.
Proof.
  intros E. destruct (ready_objects_sorted work r) as [Hs Hn]. rewrite E in Hs, Hn.
  apply StronglySorted_inv in Hs as [Hs _]. apply NoDup_cons in Hn as [Hni Hn].
  apply sorted_lt_unique; [apply ready_objects_sorted|done|]. intros x.
  assert (Hx : x ∈ object :: rest ↔ x ∈ ready_objects work r) by (by rewrite E).
  rewrite elem_of_cons, ready_objects_elem in Hx. rewrite ready_objects_elem.
  destruct (decide (x = object)) as [->|Hne].
  - rewrite clear_work_lookup. split; [|done]. intros (bits & Hb & Hl). exfalso. cbn zeta in Hb.
    destruct (_ =? 0) in Hb; [done|]. injection Hb as <-. by rewrite land_ldiff_0 in Hl.
  - rewrite clear_work_lookup_ne by done. naive_solver.
Qed.

(** ** Draining *)

(** [while let Some(object) = tasks.pop(work)], with the objects it visits. *)
Fixpoint drain (fuel : nat) (work : Z) (t : Tasks) : option (Tasks * list Z) :=
  match fuel with
  | O => None
  | S fuel =>
      match pop work t with
      | (t', None) => Some (t', [])
      | (t', Some object) => (λ '(t'', l), (t'', object :: l)) <$> drain fuel work t'
      end
  end.

(** No entry without work, which [mark] with a nonzero bit keeps. *)
Definition no_idle (r : gmap Z Z) : Prop := ∀ object bits, r !! object = Some bits → bits ≠ 0.

Lemma retain_all work r :
  no_idle r → ready_objects work r = [] → omap (retain_work work) r = r.
Proof.
  intros Hr E. apply map_eq. intros object. rewrite lookup_omap.
  destruct (r !! object) as [bits|] eqn:Eo; cbn; [|done].
  assert (Hl : Z.land bits work = 0).
  { destruct (decide (Z.land bits work = 0)) as [|Hn]; [done|]. exfalso.
    assert (object ∈ ready_objects work r) as Hin by (apply ready_objects_elem; eauto).
    rewrite E in Hin. by apply elem_of_nil in Hin. }
  unfold retain_work. rewrite Hl. cbn. destruct (Z.eqb_spec bits 0); [|done].
  by apply Hr in Eo.
Qed.

Lemma retain_clear work r object rest :
  ready_objects work r = object :: rest →
  omap (retain_work work) (clear_work object work r) = omap (retain_work work) r.
Proof.
  intros E. assert (Hin : object ∈ ready_objects work r) by (rewrite E; by left).
  apply ready_objects_elem in Hin as (bits & Hb & Hl).
  apply map_eq. intros object'. rewrite !lookup_omap.
  destruct (decide (object' = object)) as [->|Hne]; [|by rewrite clear_work_lookup_ne].
  rewrite clear_work_lookup, Hb. cbn. unfold retain_work at 2.
  rewrite (proj2 (Z.eqb_neq _ _) Hl).
  destruct (Z.eqb_spec (Z.ldiff bits work) 0) as [Hz|Hz]; cbn; [done|].
  unfold retain_work. rewrite land_ldiff_0. cbn. by rewrite (proj2 (Z.eqb_neq _ _) Hz).
Qed.

Lemma no_idle_clear object work r : no_idle r → no_idle (clear_work object work r).
Proof.
  intros Hr object' bits. destruct (decide (object' = object)) as [->|Hne].
  - rewrite clear_work_lookup. cbn zeta. destruct (Z.eqb_spec (Z.ldiff (default 0 (r !! object)) work) 0); [done|].
    by intros [= <-].
  - rewrite clear_work_lookup_ne by done. apply Hr.
Qed.

(** C30: draining terminates and agrees with the snapshot.  The loop
    [while let Some(object) = tasks.pop(work)] ends after one turn per ready
    task, visits each of them exactly once in increasing order, and leaves the
    queue exactly as [take] does, with the objects [take] reports: the work of
    other kinds is untouched. *)
Theorem drain_is_take work t fuel :
  no_idle (ready t) → (length (take_work work t).2 < fuel)%nat →
  drain fuel work t = Some (take_work work t)
  ∧ StronglySorted Z.lt (take_work work t).2
  ∧ ready_objects work (ready (take_work work t).1) = [].
Proof.
  intros Hr Hf. split; [|split].
  - unfold take_work in *. cbn [snd] in Hf. fold (ready_objects work (ready t)) in *.
    remember (ready_objects work (ready t)) as objects eqn:E. symmetry in E.
    revert t fuel E Hr Hf. induction objects as [|object rest IH]; intros t fuel E Hr Hf.
    + destruct fuel as [|fuel]; [cbn in Hf; lia|]. cbn. unfold pop. rewrite first_ready_head, E. cbn.
      rewrite retain_all by done. by destruct t.
    + destruct fuel as [|fuel]; [cbn in Hf; lia|]. cbn. unfold pop. rewrite first_ready_head, E. cbn.
      rewrite IH; [|by apply clear_work_tail|by apply no_idle_clear|cbn in Hf; lia].
      cbn. rewrite (retain_clear _ _ _ _ E). done.
  - apply ready_objects_sorted.
  - destruct (ready_objects work (ready (take_work work t).1)) as [|x l] eqn:E; [done|]. exfalso.
    assert (Hx : x ∈ ready_objects work (ready (take_work work t).1)) by (rewrite E; by left).
    apply ready_objects_elem in Hx as (bits & Hb & Hl). cbn in Hb. rewrite lookup_omap in Hb.
    destruct (ready t !! x) as [b|]; cbn in Hb; [|done]. unfold retain_work in Hb.
    destruct (Z.eqb_spec (Z.land b work) 0) as [Hz|Hz]; destruct (_ =? 0) in Hb; try discriminate;
      injection Hb as <-; [done|]. by rewrite land_ldiff_0 in Hl.
Qed.

Definition sample_work : Tasks :=
  mark 9 RESIZE (mark 3 (Z.lor RESIZE FRAMES) (mark 5 FRAMES (mark 7 TIMELINE tasks_default))).

Lemma drain_is_take_witness :
  drain 3 RESIZE sample_work = Some (take_work RESIZE sample_work)
  ∧ (take_work RESIZE sample_work).2 = [3; 9].
Proof.
  split; [|vm_compute; reflexivity].
  apply (drain_is_take RESIZE sample_work 3).
  - intros object bits H. apply elem_of_map_to_list in H. revert H. vm_compute map_to_list.
    rewrite !elem_of_cons, elem_of_nil. intros [[= _ ->]|[[= _ ->]|[[= _ ->]|[[= _ ->]|[]]]]]; discriminate.
  - vm_compute. lia.
Defined.

(** ** Fallback deadlines *)

Lemma mark_in_lookup object work r object' :
  mark_in object work r !! object'
  = if decide (object' = object) then Some (Z.lor (default 0 (r !! object)) work) else r !! object'.
Proof.
  unfold mark_in. destruct (decide (object' = object)) as [->|Hne];
    [by rewrite lookup_insert_eq|by rewrite lookup_insert_ne].
Qed.

Lemma mark_list_lookup work (l : list Z) : ∀ r object,
  NoDup l →
  foldl (λ r object, mark_in object work r) r l !! object
  = if decide (object ∈ l) then Some (Z.lor (default 0 (r !! object)) work) else r !! object.
Proof.
  induction l as [|x l IH]; intros r object Hn; cbn [foldl]; [by rewrite decide_False by set_solver|].
  apply NoDup_cons in Hn as [Hx Hn]. rewrite IH by done. rewrite !mark_in_lookup.
  destruct (decide (object = x)) as [->|Hne].
  - rewrite decide_False by done. by rewrite decide_True by set_solver.
  - destruct (decide (object ∈ l)); [by rewrite decide_True by set_solver|].
    by rewrite decide_False by set_solver.
Qed.

Lemma mark_all_lookup objects work r object :
  mark_all objects work r !! object
  = if decide (object ∈ objects) then Some (Z.lor (default 0 (r !! object)) work) else r !! object.
Proof.
  unfold mark_all. rewrite mark_list_lookup by apply NoDup_elements.
  destruct (decide (object ∈ elements objects)) as [Hin|Hin]; rewrite elem_of_elements in Hin.
  - by rewrite decide_True.
  - by rewrite decide_False.
Qed.

(** Everything else the presenter does with its queues between two polls. *)
Inductive queue_step : Tasks → Tasks → Prop :=
| q_mark object work t : queue_step t (mark object work t)
| q_pop work t : queue_step t (pop work t).1
| q_take work t : queue_step t (take_work work t).1
| q_notify s revents t : queue_step t (notify s revents t).1
| q_deadline now interval t : queue_step t (deadline now interval t).1
| q_layer object t : queue_step t (set_layer_fallback object true t)
| q_frame object t : queue_step t (set_frame_fallback object true t).

(** A deadline is pending for the fallback tasks. *)
Definition waiting (d : Z) (t : Tasks) : Prop :=
  fallback_deadline t = Some d ∧ (layer_fallback t ≠ ∅ ∨ frame_fallback t ≠ ∅).

Lemma queue_step_waiting d t t' :
  queue_step t t' → waiting d t →
  waiting d t' ∧ layer_fallback t ⊆ layer_fallback t' ∧ frame_fallback t ⊆ frame_fallback t'.
Proof.
  intros Hs Hw. destruct Hs; try done.
  - unfold pop. by destruct (first_ready work (ready t)).
  - unfold notify. destruct s; [done|]. cbn. by destruct (_ =? 0).
  - destruct Hw as [Hd Hne]. unfold deadline. rewrite Hd. split; [|done]. cbn.
    assert (bool_decide (layer_fallback t = ∅) && bool_decide (frame_fallback t = ∅) = false) as ->.
    { apply andb_false_iff. rewrite !bool_decide_eq_false. tauto. }
    done.
  - destruct Hw as [Hd Hne]. split; [|set_solver]. split; [done|]. left. cbn. set_solver.
  - destruct Hw as [Hd Hne]. split; [|set_solver]. split; [done|]. right. cbn. set_solver.
Qed.

(** A fallback deadline cannot be postponed and is acted on when due.
    Once a deadline is pending, marks, pops, snapshots, poll events, further
    deadline queries and new fallback tasks leave it at the same instant; a
    notification before it does nothing, and the first one at or after it
    marks every fallback task and clears the deadline. *)
Theorem fallback_deadline_absolute d t t' now :
  waiting d t → rtc queue_step t t' →
  waiting d t'
  ∧ (now < d → notify_fallback now t' = t')
  ∧ (d ≤ now →
      fallback_deadline (notify_fallback now t') = None
      ∧ (∀ object, object ∈ layer_fallback t →
           ∃ bits, ready (notify_fallback now t') !! object = Some bits ∧ Z.testbit bits 1 = true)
      ∧ (∀ object, object ∈ frame_fallback t →
           ∃ bits, ready (notify_fallback now t') !! object = Some bits ∧ Z.testbit bits 3 = true)).
Proof.
  intros Hw Hr.
  assert (H : waiting d t' ∧ layer_fallback t ⊆ layer_fallback t' ∧ frame_fallback t ⊆ frame_fallback t').
  { induction Hr as [|x y z Hs Hr IH]; [done|].
    destruct (queue_step_waiting d x y Hs Hw) as (Hw' & Hl & Hf). destruct (IH Hw') as (? & ? & ?).
    split_and!; [done|set_solver|set_solver]. }
  clear Hr Hw. destruct H as (Hw & Hl & Hf). destruct Hw as [Hd Hne]. unfold notify_fallback. rewrite Hd.
  split; [done|]. split.
  - intros Hlt. by rewrite (proj2 (Z.ltb_lt _ _) Hlt).
  - intros Hle. rewrite (proj2 (Z.ltb_ge _ _) Hle). split; [done|]. cbn [ready with_deadline with_ready].
    split; intros object Hin; setoid_rewrite mark_all_lookup; [|rewrite decide_True by set_solver].
    + rewrite mark_all_lookup, (decide_True (P := object ∈ layer_fallback t')) by set_solver.
      destruct (decide (object ∈ frame_fallback t')); eexists; (split; [reflexivity|]);
        cbn [from_option]; unfold id; rewrite !Z.lor_spec; change (Z.testbit RELEASES 1) with true;
        by rewrite ?orb_true_r.
    + eexists. split; [reflexivity|]. rewrite Z.lor_spec. change (Z.testbit FRAMES 3) with true.
      by rewrite orb_true_r.
Qed.

Lemma fallback_deadline_absolute_witness :
  ready (notify_fallback 90
    (deadline 50 1000 (mark 9 CONFIG (deadline 10 60 (set_layer_fallback 4 true tasks_default)).1)).1)
    !! 4 = Some RELEASES.
Proof.
  pose (t0 := (deadline 10 60 (set_layer_fallback 4 true tasks_default)).1).
  destruct (fallback_deadline_absolute 70 t0 (deadline 50 1000 (mark 9 CONFIG t0)).1 90)
    as (_ & _ & H).
  - split; [reflexivity|]. left. vm_compute. discriminate.
  - eapply rtc_l; [apply (q_mark 9 CONFIG)|]. eapply rtc_l; [apply (q_deadline 50 1000)|]. apply rtc_refl.
  - destruct H as (_ & H & _); [lia|]. destruct (H 4) as (bits & Hb & _); [set_solver|].
    vm_compute. reflexivity.
Defined.

(** ** Geometry *)

Import Resize.

Inductive ResizeOp : Type :=
| DoConfigure (size : LogicalSize) (remember : bool)
| DoScale (scale_120 : Z).

Definition resize_step (applied : option (Z * Z)) (p : Pending) (op : ResizeOp) : Pending :=
  match op with
  | DoConfigure size remember => configure size remember p
  | DoScale scale => (preferred_scale scale applied p).1
  end.

Definition latest_scale (scale : Z) (ops : list ResizeOp) : Z :=
  foldl (λ acc op, match op with DoScale s => s | _ => acc end) scale ops.

Lemma preferred_scale_scale scale applied p : pd_scale_120 (preferred_scale scale applied p).1 = scale.
Proof. unfold preferred_scale. by destruct (Z.eqb_spec (pd_scale_120 p) scale). Qed.

Lemma resize_scale applied ops : ∀ p,
  pd_scale_120 (foldl (resize_step applied) p ops) = latest_scale (pd_scale_120 p) ops.
Proof.
  unfold latest_scale. induction ops as [|op ops IH]; intros p; cbn; [done|]. rewrite IH.
  destruct op; cbn; [done|]. by rewrite preferred_scale_scale.
Qed.

(** A scale change keeps a queued size and its remember flag. *)
Lemma scales_keep applied scales : ∀ p,
  pd_size p ≠ None ∨ applied = None →
  let p' := foldl (resize_step applied) p (DoScale <$> scales) in
  pd_size p' = pd_size p ∧ pd_remember p' = pd_remember p.
Proof.
  induction scales as [|scale scales IH]; intros p Hp; cbn; [done|].
  assert (Hk : pd_size (preferred_scale scale applied p).1 = pd_size p
    ∧ pd_remember (preferred_scale scale applied p).1 = pd_remember p).
  { unfold preferred_scale, logical_size. destruct (_ =? _); [done|]. cbn.
    destruct (pd_size p); [done|]. by destruct Hp as [| ->]. }
  destruct Hk as [Hs Hr]. destruct (IH (preferred_scale scale applied p).1) as [Hs' Hr'].
  - by rewrite Hs.
  - by rewrite Hs', Hr', Hs, Hr.
Qed.

(** A burst of geometry changes is applied once, with the latest values.
    However many configures and preferred scales arrive before the batch is
    applied, [take] yields the last configured size and remember flag with the
    last scale, and nothing is left to apply; scale changes alone apply
    nothing before the first configure. *)
Theorem resize_burst_latest applied scale ops size remember scales :
  (let p := foldl (resize_step applied) (pending_new scale)
              (ops ++ DoConfigure size remember :: (DoScale <$> scales)) in
   (take_pending p).2 = Some (mkConfigure size (latest_scale scale (ops ++ (DoScale <$> scales))) remember)
   ∧ (take_pending (take_pending p).1).2 = None)
  ∧ (take_pending (foldl (resize_step None) (pending_new scale) (DoScale <$> scales))).2 = None.
Proof.
  split.
  - cbn zeta. rewrite foldl_app. cbn [foldl].
    set (p0 := foldl (resize_step applied) (pending_new scale) ops).
    destruct (scales_keep applied scales (resize_step applied p0 (DoConfigure size remember)))
      as [Hs Hr]; [by left|].
    unfold take_pending. rewrite Hs, Hr. cbn [resize_step configure pd_size pd_remember snd fst].
    split; [|done]. do 2 f_equal. rewrite resize_scale. cbn. unfold p0. rewrite resize_scale.
    unfold latest_scale. by rewrite foldl_app.
  - destruct (scales_keep None scales (pending_new scale)) as [Hs _]; [by right|].
    unfold take_pending. by rewrite Hs.
Qed.

(** ** Activation *)

Section activation.

Context {token : Type}.

(** At most one token waits, only while no request is outstanding, and never
    for a task that is already mapped. *)
Definition tokens_inv (t : Activation.Tokens token) : Prop :=
  (Activation.tk_requesting t ≠ None → Activation.tk_pending t = ∅)
  ∧ (size (Activation.tk_pending t) ≤ 1)%nat
  ∧ ∀ object, object ∈ Activation.tk_mapped t → Activation.tk_pending t !! object = None.

Inductive token_step : Activation.Tokens token → Activation.Tokens token → Prop :=
| t_request object t : token_step t (Activation.request object t).1
| t_complete object generation tok t : token_step t (Activation.complete object generation tok t).1
| t_mapped object t : token_step t (Activation.mapped object t).1
| t_remove object t : token_step t (Activation.remove_token object t)
| t_clear t : token_step t (Activation.clear_tokens t).

Lemma size_delete_le (m : gmap Z token) k : (size (delete k m) ≤ size m)%nat.
Proof. apply map_subseteq_size, delete_subseteq. Qed.

Lemma token_step_inv t t' : token_step t t' → tokens_inv t → tokens_inv t'.
Proof.
  intros Hs (Hreq & Hsize & Hmap). destruct Hs.
  - unfold Activation.request. destruct (_ || _); [done|]. split_and!; cbn; try done.
    rewrite map_size_empty. lia.
  - unfold Activation.complete. destruct (_ || _) eqn:E; [done|]. reflect. destruct E as [_ Hr].
    rewrite Hr in Hreq. specialize (Hreq ltac:(done)).
    case_bool_decide as Hm; (split; [done|]); cbn.
    + by rewrite Hreq, map_size_empty in *; split; [lia|].
    + rewrite Hreq, map_size_insert_None, map_size_empty by apply lookup_empty.
      split; [lia|]. intros o Ho. rewrite lookup_insert_ne by (intros ->; done). apply lookup_empty.
  - split_and!; cbn.
    + intros Hr. rewrite Hreq by done. apply delete_empty.
    + pose proof (size_delete_le (Activation.tk_pending t) object). lia.
    + intros o [->%elem_of_singleton|Ho]%elem_of_union; [apply lookup_delete_eq|].
      rewrite lookup_delete_None. right. by apply Hmap.
  - unfold Activation.remove_token. case_bool_decide as Hr; split_and!; cbn; try done.
    all: try (pose proof (size_delete_le (Activation.tk_pending t) object); lia).
    all: try (intros o Ho; rewrite lookup_delete_None; right; apply Hmap; set_solver).
    intros Hn. rewrite Hreq by done. apply delete_empty.
  - split_and!; cbn; try done. rewrite map_size_empty. lia.
Qed.

(** An activation token serves only the latest request, once.  In every
    reachable state at most one token is waiting, none while a request is
    outstanding and none for a mapped task; a completion is honoured only for
    the task and generation last requested, at once if the task is mapped and
    otherwise when it maps, and the same completion is never honoured twice. *)
Theorem activation_latest_once t object generation tok :
  rtc token_step Activation.tokens_default t →
  let '(t', now) := Activation.complete object generation tok t in
  tokens_inv t'
  ∧ (Activation.complete object generation tok t').2 = None
  ∧ (now = Some tok ∨ Activation.tk_pending t' !! object = Some tok ↔
     Activation.tk_requesting t = Some object ∧ generation = Activation.tk_generation t
     ∨ Activation.tk_pending t !! object = Some tok)
  ∧ (now = Some tok → object ∈ Activation.tk_mapped t)
  ∧ ((Activation.mapped object (Activation.mapped object t').1).2 = None).
Proof.
  intros Hr. assert (Hi : tokens_inv t).
  { remember Activation.tokens_default as t0 eqn:E. assert (tokens_inv t0) as H0.
    { subst. split_and!; cbn; try done. rewrite map_size_empty. lia. }
    clear E. induction Hr; eauto using token_step_inv. }
  clear Hr. pose proof (token_step_inv _ _ (t_complete object generation tok t) Hi) as Hi'.
  destruct Hi as (Hreq & Hsize & Hmap). unfold Activation.complete in *.
  destruct (_ || _) eqn:E.
  - cbn in Hi'. split_and!; [done|by rewrite E| |done|cbn; by rewrite lookup_delete_eq].
    reflect. naive_solver.
  - reflect. destruct E as [-> Hr]. rewrite Hr in Hreq. specialize (Hreq ltac:(done)).
    case_bool_decide as Hm; cbn in *; rewrite Z.eqb_refl; cbn [negb orb].
    + split_and!; [done| |naive_solver|done|by rewrite lookup_delete_eq]. by rewrite bool_decide_eq_false_2.
    + split_and!; [done| | |done|by rewrite lookup_delete_eq].
      * by rewrite bool_decide_eq_false_2.
      * rewrite lookup_insert_eq. naive_solver.
Qed.

End activation.

Lemma activation_latest_once_witness :
  (Activation.complete 7 1 tt (Activation.request 7 Activation.tokens_default).1).2 = None
  ∧ tokens_inv (Activation.complete 7 1 tt (Activation.request 7 Activation.tokens_default).1).1.
Proof.
  split; [reflexivity|].
  apply (activation_latest_once (Activation.request 7 Activation.tokens_default).1 7 1 tt).
  eapply rtc_l; [apply (t_request 7)|]. apply rtc_refl.
Defined.
