(* ===== verification/PresenterTime.v ===== *)
(** * Presenter times and geometry
      (graphics/droidloom-wayland/src/input_time.rs and the helpers of main.rs)

    Input event times on the clock Android shares, the queue of full libinput
    times, and the presenter's arithmetic on refresh periods, poll timeouts,
    fractional scales and output power. *)

From S2P Require Import Prelude Bytes.

(** ** Input event times *)

Definition FOREIGN_CLOCK_MILLIS : Z := 1000.
Definition PRECISE_QUEUE : Z := 64.

(** [u64::checked_add_signed] and [u64::checked_mul]. *)
Definition checked_add_signed (x offset : Z) : option Z :=
  if (0 <=? x + offset) && (x + offset <=? u64_max) then Some (x + offset) else None.
Definition checked_mul (x y : Z) : option Z := if x * y <=? u64_max then Some (x * y) else None.

Definition unwrap_millis (millis now : Z) : option Z :=
  let now_millis := now / 1000000 in
  let offset := i32_of_u32 (wrapping_sub32 millis (now_millis mod 4294967296)) in
  if FOREIGN_CLOCK_MILLIS <? Z.abs offset then None
  else
    sum ← checked_add_signed now_millis offset;
    time ← checked_mul sum 1000000;
    Some (Z.min time now).

(** [Stream { last }]. *)
Definition stream_at (time last : Z) : Z := Z.max last time.

Definition stream_event (millis : Z) (precise : option Z) (now last : Z) : Z :=
  let time :=
    match precise with
    | Some time => Z.min time now
    | None => default now (unwrap_millis millis now)
    end in
  stream_at time last.

Definition stream_received (now last : Z) : Z := stream_at now last.

(** [Precise(VecDeque<u64>)], oldest first. *)
Definition precise_push (nanos : Z) (q : list Z) : list Z :=
  (if zlen q =? PRECISE_QUEUE then drop 1 q else q) ++ [nanos].

Fixpoint precise_take (millis : Z) (q : list Z) : list Z * option Z :=
  match q with
  | [] => ([], None)
  | nanos :: q =>
      if (nanos / 1000000) mod 4294967296 =? millis then (q, Some nanos) else precise_take millis q
  end.

(** The event handler of [zwp_input_timestamps_v1]. *)
Definition timestamp_event (tv_sec_hi tv_sec_lo tv_nsec : Z) (q : list Z) : list Z :=
  let seconds := Z.lor (Z.shiftl tv_sec_hi 32) tv_sec_lo in
  match (nanos ← checked_mul seconds 1000000000; checked_add u64_max nanos tv_nsec) with
  | Some nanos => precise_push nanos q
  | None => q
  end.

Inductive Device : Type := Keyboard | Pointer | Touch.

(** [Timestamps]: whether the manager exists, and per device its subscription
    and the times it delivered. *)
Record Timestamps : Type := mkTimestamps {
  ts_manager : bool;
  ts_keyboard : bool * list Z;
  ts_pointer : bool * list Z;
  ts_touch : bool * list Z
}.

Definition subscription_of (d : Device) (t : Timestamps) : bool * list Z :=
  match d with Keyboard => ts_keyboard t | Pointer => ts_pointer t | Touch => ts_touch t end.

Definition set_subscription (d : Device) (s : bool * list Z) (t : Timestamps) : Timestamps :=
  match d with
  | Keyboard => mkTimestamps (ts_manager t) s (ts_pointer t) (ts_touch t)
  | Pointer => mkTimestamps (ts_manager t) (ts_keyboard t) s (ts_touch t)
  | Touch => mkTimestamps (ts_manager t) (ts_keyboard t) (ts_pointer t) s
  end.

(** [Subscription::replace]: a new object forgets the old one's times. *)
Definition add_device (d : Device) (t : Timestamps) : Timestamps :=
  set_subscription d (ts_manager t, []) t.
Definition remove_device (d : Device) (t : Timestamps) : Timestamps :=
  set_subscription d (false, []) t.

Definition take_time (d : Device) (millis : Z) (t : Timestamps) : Timestamps * option Z :=
  let '(object, q) := subscription_of d t in
  let '(q, nanos) := precise_take millis q in
  (set_subscription d (object, q) t, nanos).

(** ** Timing helpers of main.rs *)

Inductive HelperError : Type := NoRefresh | ZeroScale | ScaleOverflow | ScaleLimit.

Definition presentation_refresh_period (presentation_nanos advertised_millihz : Z)
    : result HelperError Z :=
  if negb (presentation_nanos =? 0) then Ok presentation_nanos
  else if advertised_millihz =? 0 then Err NoRefresh
  else Ok (1000000000000 / advertised_millihz).

(** [Instant]s in nanoseconds; [div_ceil] rounds up. *)
Definition poll_timeout_millis (deadline : option Z) (now : Z) : Z :=
  match deadline with
  | None => -1
  | Some d =>
      let millis := (Z.max 0 (d - now) + 999999) / 1000000 in
      if millis <=? 2147483647 then millis else 2147483647
  end.

Definition FRACTIONAL_SCALE_DENOMINATOR : Z := 120.
Definition MAX_BUFFER_DIMENSION : Z := 16384.

Definition scale_dimension (logical scale_120 : Z) : result HelperError Z :=
  if scale_120 =? 0 then Err ZeroScale
  else
    let scaled := (logical * scale_120 + FRACTIONAL_SCALE_DENOMINATOR / 2)
                  / FRACTIONAL_SCALE_DENOMINATOR in
    if u32_max <? scaled then Err ScaleOverflow
    else
      let scaled := Z.max scaled 1 in
      if MAX_BUFFER_DIMENSION <? scaled then Err ScaleLimit else Ok scaled.

(** [wl_output::Transform]. *)
Inductive Transform : Type :=
| Normal | T90 | T180 | T270 | Flipped | Flipped90 | Flipped180 | Flipped270.

Definition turned (t : Transform) : bool :=
  match t with T90 | T270 | Flipped90 | Flipped270 => true | _ => false end.

Definition oriented_output_size (dimensions : Z * Z) (transform : Transform) : option (Z * Z) :=
  let '(w, h) := dimensions in
  if (w <=? 0) || (h <=? 0) then None
  else
    let '(width, height) := if turned transform then (h, w) else (w, h) in
    if (width <=? MAX_BUFFER_DIMENSION) && (height <=? MAX_BUFFER_DIMENSION)
    then Some (width, height) else None.

(** ** Outputs *)

Section outputs.

Context {output : Type} `{EqDecision output}.

Definition select_surface_output (entered : list output) (presented : option output)
    (refresh : output → option Z) : option output :=
  let known o := bool_decide (is_Some (refresh o)) in
  match presented with
  | Some o =>
      if bool_decide (o ∈ entered) && known o then Some o else List.find known (rev entered)
  | None => List.find known (rev entered)
  end.

Definition select_surface_refresh (entered : list output) (presented : option output)
    (refresh : output → option Z) : Z :=
  default 60000 (o ← select_surface_output entered presented refresh; refresh o).

Record OutputPowerState : Type := mkPower {
  op_output : output;
  op_control : option Z;
  op_powered : option bool
}.

Inductive PowerEvent : Type := PowerMode (powered : option bool) | PowerFailed | PowerUnknown.

(** The first state with the control is updated; the destroyed controls are
    returned. *)
Fixpoint update_output_power (control : Z) (event : PowerEvent) (states : list OutputPowerState)
    : list OutputPowerState * bool * list Z :=
  match states with
  | [] => ([], false, [])
  | s :: states =>
      if bool_decide (op_control s = Some control) then
        match event with
        | PowerMode powered => (mkPower (op_output s) (op_control s) powered :: states, true, [])
        | PowerFailed => (mkPower (op_output s) None None :: states, true, [control])
        | PowerUnknown => (s :: states, false, [])
        end
      else
        let '(states, changed, destroyed) := update_output_power control event states in
        (s :: states, changed, destroyed)
  end.

Definition remove_output_power (o : output) (states : list OutputPowerState)
    : list OutputPowerState * list Z :=
  (filter (λ s, op_output s ≠ o) states,
   omap op_control (filter (λ s, op_output s = o) states)).

End outputs.

(** The loop of [aggregate_display_power]; [saw] and [unknown] are its flags. *)
Fixpoint aggregate_loop (states : list (option bool)) (saw unknown : bool) : option bool :=
  match states with
  | [] => if saw && negb unknown then Some false else None
  | Some true :: _ => Some true
  | Some false :: states => aggregate_loop states true unknown
  | None :: states => aggregate_loop states true true
  end.

Definition aggregate_display_power (states : list (option bool)) : option bool :=
  aggregate_loop states false false.
