(* ===== verification/PresenterTimeSpec.v ===== *)
(** * What the presenter's times promise

    A truncated compositor time is extended to the right instant across the
    wrap of its 32 bits; a device's event times never move backwards or past
    their receipt; the arithmetic helpers are exact. *)

From S2P Require Import Prelude Bytes PresenterTime.

(** ** Extending 32-bit milliseconds *)

Lemma i32_of_difference x :
  -2147483648 ≤ x < 2147483648 → i32_of_u32 (x mod 4294967296) = x.
Proof. intros Hx. by apply i32_of_u32_inv. Qed.

(** The offset the code computes is the distance from the receipt. *)
Lemma wrap_offset t_ms now_ms :
  -2147483648 ≤ t_ms - now_ms < 2147483648 →
  i32_of_u32 (wrapping_sub32 (t_ms mod 4294967296) (now_ms mod 4294967296)) = t_ms - now_ms.
Proof.
  intros Hd. unfold wrapping_sub32. rewrite <- Zminus_mod. by apply i32_of_difference.
Qed.

(** A compositor's 32-bit millisecond time is extended to the right instant.
    For every event time within a second of its receipt, before or after it and
    on either side of a wrap of the 32-bit counter, [unwrap_millis] returns the
    event's millisecond in nanoseconds, capped at the receipt; a time further
    away (up to half the counter's range) is recognised as another clock's. *)
Theorem unwrap_millis_exact t_ms now :
  0 ≤ t_ms → is_u64 now → t_ms * 1000000 ≤ u64_max →
  -2147483648 ≤ t_ms - now / 1000000 < 2147483648 →
  unwrap_millis (t_ms mod 4294967296) now
  = if Z.abs (t_ms - now / 1000000) <=? FOREIGN_CLOCK_MILLIS
    then Some (Z.min (t_ms * 1000000) now) else None.
Proof.
  intros Ht Hn Hmax Hd. unfold unwrap_millis. rewrite wrap_offset by done.
  rewrite Z.ltb_antisym. destruct (_ <=? _); cbn [negb]; [|done].
  unfold checked_add_signed. replace (now / 1000000 + (t_ms - now / 1000000)) with t_ms by lia.
  rewrite (proj2 (Z.leb_le 0 t_ms)), (proj2 (Z.leb_le t_ms u64_max)) by int_lia. cbn [andb mbind option_bind].
  unfold checked_mul. by rewrite (proj2 (Z.leb_le _ _)) by lia.
Qed.

Lemma unwrap_millis_exact_witness :
  unwrap_millis (4294967295 mod 4294967296) 4294967300000000 = Some 4294967295000000
  ∧ unwrap_millis (4294967297 mod 4294967296) 4294967295000123 = Some 4294967295000123.
Proof.
  split.
  - rewrite (unwrap_millis_exact 4294967295 4294967300000000); vm_compute; intuition discriminate || reflexivity.
  - rewrite (unwrap_millis_exact 4294967297 4294967295000123); vm_compute; intuition discriminate || reflexivity.
Defined.

(** ** Event times of one stream *)

(** An input event as the stream sees it: the compositor's milliseconds, its
    full time if one was sent, and the receipt. *)
Record event_in : Type := mkEventIn { ei_millis : Z; ei_precise : option Z; ei_now : Z }.

Fixpoint stream_run (events : list event_in) (last : Z) : list Z :=
  match events with
  | [] => []
  | e :: events =>
      let t := stream_event (ei_millis e) (ei_precise e) (ei_now e) last in
      t :: stream_run events t
  end.

Lemma unwrap_millis_le millis now t : unwrap_millis millis now = Some t → t ≤ now.
Proof.
  unfold unwrap_millis. destruct (_ <? _); [done|].
  destruct (checked_add_signed _ _) as [sum|]; [|done]. cbn.
  destruct (checked_mul _ _) as [time|]; [|done]. cbn. intros [= <-]. lia.
Qed.

Lemma stream_event_bounds millis precise now last :
  last ≤ now → last ≤ stream_event millis precise now last ≤ now.
Proof.
  intros Hl. unfold stream_event, stream_at. destruct precise as [p|]; [lia|].
  destruct (unwrap_millis millis now) as [t|] eqn:E; cbn; [|lia].
  apply unwrap_millis_le in E. lia.
Qed.

(** Event times never move backwards and never pass their receipt.  For
    receipts that do not decrease, whatever milliseconds and full times the
    compositor sends, the times handed to Android are in order, start at or
    after the stream's last time, and each is at most its own receipt. *)
Theorem stream_times_monotone events : ∀ last,
  StronglySorted Z.le (last :: map ei_now events) →
  StronglySorted Z.le (last :: stream_run events last)
  ∧ Forall2 Z.le (stream_run events last) (map ei_now events).
Proof.
  induction events as [|e events IH]; intros last Hs; cbn; [split; repeat constructor|].
  apply StronglySorted_inv in Hs as [Hs Hl]. cbn in Hs, Hl. apply Forall_cons in Hl as [Hl _].
  apply StronglySorted_inv in Hs as [Hs Hn].
  destruct (stream_event_bounds (ei_millis e) (ei_precise e) (ei_now e) last Hl) as [Hlo Hhi].
  set (t := stream_event _ _ _ _) in *. destruct (IH t) as [Hsorted Hle].
  { constructor; [done|]. eapply Forall_impl; [exact Hn|]. cbn. lia. }
  split; [|by constructor]. constructor; [done|].
  apply StronglySorted_inv in Hsorted as [_ Hf]. constructor; [done|].
  eapply Forall_impl; [exact Hf|]. cbn. lia.
Qed.

Lemma stream_times_monotone_witness :
  StronglySorted Z.le (0 :: stream_run
    [mkEventIn 5 (Some 5100000) 6000000; mkEventIn 5 None 7000000; mkEventIn 900000 None 8000000] 0).
Proof.
  apply (stream_times_monotone
    [mkEventIn 5 (Some 5100000) 6000000; mkEventIn 5 None 7000000; mkEventIn 900000 None 8000000] 0).
  repeat constructor; cbn; lia.
Defined.

(** ** The queue of full times *)

(** The oldest matching time is returned and everything before it dropped. *)
Lemma precise_take_spec millis q :
  match precise_take millis q with
  | (q', Some t) =>
      ∃ before, q = before ++ t :: q' ∧ (t / 1000000) mod 4294967296 = millis
        ∧ Forall (λ u, (u / 1000000) mod 4294967296 ≠ millis) before
  | (q', None) => q' = [] ∧ Forall (λ u, (u / 1000000) mod 4294967296 ≠ millis) q
  end.
Proof.
  induction q as [|u q IH]; cbn; [by split|].
  destruct (Z.eqb_spec ((u / 1000000) mod 4294967296) millis) as [He|Hne]; [by exists []|].
  destruct (precise_take millis q) as [q' [t|]].
  - destruct IH as (before & -> & Ht & Hb). exists (u :: before). split_and!; [done|done|by constructor].
  - destruct IH as [-> Hf]. split; [done|by constructor].
Qed.

Lemma precise_push_bound nanos q : zlen q ≤ PRECISE_QUEUE → zlen (precise_push nanos q) ≤ PRECISE_QUEUE.
Proof.
  unfold precise_push, PRECISE_QUEUE, zlen. intros Hq.
  destruct (Z.eqb_spec (Z.of_nat (length q)) 64); rewrite length_app; [rewrite length_drop|]; cbn; lia.
Qed.

(** A full time reaches the event it was sent for.  However many times
    arrived since, as long as fewer than 64 are waiting, the next event with a
    millisecond stamp takes the oldest waiting time of that millisecond; the
    times of earlier, ignored events are dropped and later ones are kept; the
    queue never holds more than 64. *)
Theorem precise_times_matched q t :
  zlen q < PRECISE_QUEUE →
  Forall (λ u, (u / 1000000) mod 4294967296 ≠ (t / 1000000) mod 4294967296) q →
  ∀ later, zlen (precise_push t q ++ later) ≤ PRECISE_QUEUE →
  precise_take ((t / 1000000) mod 4294967296) (precise_push t q ++ later) = (later, Some t)
  ∧ ∀ u, zlen (precise_push u (precise_push t q ++ later)) ≤ PRECISE_QUEUE.
Proof.
  intros Hq Hf later Hl. split; [|intros u; by apply precise_push_bound].
  unfold precise_push. destruct (Z.eqb_spec (zlen q) PRECISE_QUEUE); [lia|]. rewrite <- app_assoc. cbn.
  clear Hq Hl n. induction Hf as [|u q Hu Hf IH]; cbn; [by rewrite Z.eqb_refl|].
  by rewrite (proj2 (Z.eqb_neq _ _) Hu).
Qed.

Lemma precise_times_matched_witness :
  precise_take 5 (precise_push 5200000 [4100000; 4200000] ++ [5300000]) = ([5300000], Some 5200000).
Proof.
  apply (precise_times_matched [4100000; 4200000] 5200000); [reflexivity| |vm_compute; discriminate].
  repeat constructor; vm_compute; discriminate.
Defined.

(** ** Helpers *)

(** A poll neither spins before its deadline nor oversleeps it.  For a
    deadline less than 2^31 milliseconds away the timeout in milliseconds is the
    smallest that reaches it, zero exactly when it is due; without a deadline
    the wait is unbounded. *)
Theorem poll_timeout_tight now d :
  Z.max 0 (d - now) ≤ 2147483647 * 1000000 →
  let ms := poll_timeout_millis (Some d) now in
  (d ≤ now ↔ ms = 0) ∧ d - now ≤ ms * 1000000 ∧ (0 < ms → (ms - 1) * 1000000 < d - now)
  ∧ poll_timeout_millis None now = -1.
Proof.
  intros Hb. cbn zeta. unfold poll_timeout_millis.
  set (x := Z.max 0 (d - now)) in *.
  pose proof (Z.div_mod (x + 999999) 1000000 ltac:(lia)) as Hdm.
  pose proof (Z.mod_pos_bound (x + 999999) 1000000 ltac:(lia)) as Hm.
  rewrite (proj2 (Z.leb_le _ _)) by lia. split_and!; lia.
Qed.

Lemma poll_timeout_tight_witness : poll_timeout_millis (Some 1500001) 0 = 2 ∧ 0 < 2.
Proof.
  pose proof (poll_timeout_tight 0 1500001 ltac:(vm_compute; discriminate)) as H.
  cbn zeta in H. destruct H as (_ & H & _). split; [reflexivity|lia].
Defined.

(** The scaled size is the logical size times the scale, rounded half up, at
    least one pixel, and refused beyond the protocol's limit. *)
Lemma scale_dimension_exact logical scale r :
  is_u32 logical → is_u32 scale →
  scale_dimension logical scale = Ok r ↔
  scale ≠ 0 ∧ r = Z.max 1 ((logical * scale + 60) / 120) ∧ r ≤ MAX_BUFFER_DIMENSION.
Proof.
  intros Hl Hs. unfold scale_dimension, FRACTIONAL_SCALE_DENOMINATOR, MAX_BUFFER_DIMENSION.
  change (120 / 2) with 60. rewrite (Z.max_comm 1).
  set (x := (logical * scale + 60) / 120). destruct (Z.eqb_spec scale 0); [naive_solver|].
  destruct (Z.ltb_spec u32_max x); [split; [done|int_lia]|].
  destruct (Z.ltb_spec 16384 (Z.max x 1)); [split; [done|lia]|]. split; [by intros [= <-]|].
  by intros (_ & -> & _).
Qed.

(** Android sleeps only when every output is known to be off.  The
    aggregate is on exactly if some output reports on, off exactly if there are
    outputs and all report off, and unknown otherwise. *)
Theorem display_power_aggregate states :
  (aggregate_display_power states = Some true ↔ Some true ∈ states)
  ∧ (aggregate_display_power states = Some false ↔ states ≠ [] ∧ Forall (λ s, s = Some false) states).
Proof.
  assert (H : ∀ saw unknown,
    (aggregate_loop states saw unknown = Some true ↔ Some true ∈ states)
    ∧ (aggregate_loop states saw unknown = Some false ↔
       (saw = true ∨ states ≠ []) ∧ unknown = false ∧ Forall (λ s, s = Some false) states)).
  { induction states as [|[[]|] states IH]; intros saw unknown; cbn.
    - rewrite elem_of_nil. destruct saw, unknown; cbn; naive_solver.
    - rewrite elem_of_cons, Forall_cons. naive_solver.
    - destruct (IH true unknown) as [-> ->]. rewrite elem_of_cons, Forall_cons. naive_solver.
    - destruct (IH true true) as [-> ->]. rewrite elem_of_cons, Forall_cons. naive_solver. }
  destruct (H false false) as [H1 H2]. unfold aggregate_display_power. rewrite H1, H2. naive_solver.
Qed.
