(* ===== verification/Hoare.v ===== *)
(** * Weakest preconditions of methods

    A small program logic over [method]: [wp m Q R s] says that a run of [m]
    from [s] either succeeds in a state and with a value that satisfy [Q], or
    fails with an error that satisfies [R].  It serves the components whose
    operations are long sequences of small effects. *)

From S2P Require Import Prelude.

Section wp.

Context {S E : Type}.
Implicit Types s : S.

Definition wp {A} (m : method S E A) (Q : A → S → Prop) (R : E → Prop) (s : S) : Prop :=
  match m s with
  | (s', Ok a) => Q a s'
  | (_, Err e) => R e
  end.

Lemma wp_mono {A} (m : method S E A) (Q Q' : A → S → Prop) (R R' : E → Prop) s :
  wp m Q R s → (∀ a s', Q a s' → Q' a s') → (∀ e, R e → R' e) → wp m Q' R' s.
Proof. unfold wp. destruct (m s) as [s' [a|e]]; eauto. Qed.

Lemma wp_bind {A B} (m : method S E A) (f : A → method S E B) Q R s :
  wp m (λ a s', wp (f a) Q R s') R s → wp (m ≫= f) Q R s.
Proof. unfold wp, mbind, method_bind. by destruct (m s) as [s' [a|e]]. Qed.

Lemma wp_ret {A} (a : A) (Q : A → S → Prop) (R : E → Prop) s : Q a s → wp (mret a) Q R s.
Proof. done. Qed.

Lemma wp_get (Q : S → S → Prop) (R : E → Prop) s : Q s s → wp get Q R s.
Proof. done. Qed.

Lemma wp_gets {A} (f : S → A) (Q : A → S → Prop) (R : E → Prop) s : Q (f s) s → wp (gets f) Q R s.
Proof. done. Qed.

Lemma wp_modify f (Q : unit → S → Prop) (R : E → Prop) s : Q tt (f s) → wp (modify f) Q R s.
Proof. done. Qed.

Lemma wp_throw {A} (e : E) (Q : A → S → Prop) (R : E → Prop) s : R e → wp (throw e) Q R s.
Proof. done. Qed.

Lemma wp_lift {A} (r : result E A) (Q : A → S → Prop) (R : E → Prop) s :
  match r with Ok a => Q a s | Err e => R e end → wp (lift r) Q R s.
Proof. unfold wp, lift. by destruct r. Qed.

Lemma wp_attempt {F A} (m : method S F A) (Q : result F A → S → Prop) (R : E → Prop) s :
  (∀ s' r, m s = (s', r) → Q r s') → wp (attempt m) Q R s.
Proof. intros HQ. unfold wp, attempt. destruct (m s) as [s' r] eqn:Hm. by apply HQ. Qed.

(** A fact about the state after any run. *)
Lemma wp_conj {A} (m : method S E A) (P : S → Prop) (Q : A → S → Prop) (R : E → Prop) s :
  P (m s).1 → wp m Q R s → wp m (λ a s', P s' ∧ Q a s') R s.
Proof. unfold wp. destruct (m s) as [s' [a|e]]; auto. Qed.

(** What a proved precondition says of a run. *)
Lemma wp_run {A} (m : method S E A) Q R s s' r :
  wp m Q R s → m s = (s', r) → match r with Ok a => Q a s' | Err e => R e end.
Proof. unfold wp. intros H Hm. by rewrite Hm in H; destruct r. Qed.

Lemma wp_run_Ok {A} (m : method S E A) Q R s s' a : wp m Q R s → m s = (s', Ok a) → Q a s'.
Proof. intros H Hm. by apply (wp_run _ _ _ _ _ _ H) in Hm. Qed.

End wp.

#[global] Arguments wp : simpl never.

(** Symbolic execution of the next effect. *)
Ltac wp_step :=
  lazymatch goal with
  | |- wp (_ ≫= _) _ _ _ => apply wp_bind
  | |- wp (mret _) _ _ _ => apply wp_ret
  | |- wp get _ _ _ => apply wp_get
  | |- wp (gets _) _ _ _ => apply wp_gets
  | |- wp (modify _) _ _ _ => apply wp_modify
  | |- wp (throw _) _ _ _ => apply wp_throw
  | |- wp (lift _) _ _ _ => apply wp_lift
  end.
Ltac wp_steps := repeat wp_step.
