(* ===== verification/LayerPresenter.v ===== *)
(** * Layers on Wayland surfaces (graphics/droidloom-wayland/src/layers.rs, imports.rs, fence_wakeup.rs)

    The presenter's side of a layer stream.  SurfaceFlinger stages a scene of
    layers and commits it; the presenter shows every layer on a synchronized
    subsurface, gives every read of an allocation an acquire and a release
    point on a timeline of its own (a lane), reports the release of every read
    to SurfaceFlinger and parks a scene that has to wait.

    The state is the part of [App] and [TaskWindow] these functions touch.  The
    DRM driver, the two sockets, the eventfds and the host calls that can fail
    are the class [PresenterOps] over an arbitrary kernel state.  Wayland
    requests are queued by the client library and cannot fail: they are appended
    to a log, newest first, as are the records sent to SurfaceFlinger.  Log
    output, the wait report and the closing of descriptors are not modelled. *)

From S2P Require Import TaskState Endpoint.
From S2P Require Import Prelude Bytes Syncobj Ipc SurfaceBridge LayerStream FrameGrants.

(** ** Pending imports (imports.rs) *)

Record PendingImport : Type := mkImport {
  im_buffer : Z;
  im_attempt : option Z;
  im_params : Z
}.

Definition imports_full (p : list PendingImport) : bool := MAX_IMPORTS <=? zlen p.
Definition imports_blocked (p : list PendingImport) : bool :=
  existsb (λ i, bool_decide (im_attempt i = None)) p.
Definition imports_contains (buffer : Z) (p : list PendingImport) : bool :=
  existsb (λ i, im_buffer i =? buffer) p.

Definition imports_insert (i : PendingImport) (p : list PendingImport) : list PendingImport * bool :=
  if imports_full p || imports_blocked p || imports_contains (im_buffer i) p then (p, false)
  else (p ++ [i], true).

(** [Vec::swap_remove]: the last element takes the place of the removed one. *)
Definition swap_remove {A} (i : nat) (l : list A) : list A :=
  match last l with
  | None => l
  | Some x => if bool_decide (S i = length l) then take i l else <[i := x]> (take (length l - 1) l)
  end.

(** [iter().position(..)]. *)
Fixpoint position {A} (f : A → bool) (l : list A) : option nat :=
  match l with
  | [] => None
  | x :: l => if f x then Some O else S <$> position f l
  end.

Definition imports_finish (params : Z) (p : list PendingImport)
    : list PendingImport * option PendingImport :=
  match position (λ i, im_params i =? params) p with
  | None => (p, None)
  | Some index => (swap_remove index p, p !! index)
  end.

(** ** Lanes, sources, reads and views *)

Record FenceWakeup : Type := mkWakeup { fw_event : option fd; fw_unsupported : bool }.

(** A [Lane] with the fields of its [BufferSync]. *)
Record Lane : Type := mkLane {
  ln_timeline : Syncobj.Timeline;
  ln_proxy : Z;
  ln_next_point : Z;
  ln_release_wakeup : option fd;
  ln_availability : FenceWakeup
}.

Definition MAX_LANES : Z := 4.

Record Source : Type := mkSourceEntry {
  sr_metadata : Buffer;
  sr_buffer : option Z;
  sr_lanes : list Lane;
  sr_ticket : option Z
}.

Record Read : Type := mkRead {
  rd_buffer : Z;
  rd_lane : nat;
  rd_ticket : Z;
  rd_point : Z;
  rd_fence_sent : bool
}.

(** A read of allocation [id] that occupies [lane]. *)
Definition occupies (id : Z) (lane : nat) (r : Read) : bool :=
  (rd_buffer r =? id) && (rd_lane r =? lane)%nat.

Definition free_lane (id : Z) (reads : list Read) (s : Source) : option nat :=
  find (λ lane, negb (existsb (occupies id lane) reads)) (seq 0 (length (sr_lanes s))).

Definition spare_timeline (id : Z) (reads : list Read) (s : Source) : bool :=
  (zlen (sr_lanes s) <? MAX_LANES) || bool_decide (is_Some (free_lane id reads s)).

Inductive Content : Type :=
| BufferContent (id ticket : Z)
| SolidContent (color : Z).

Definition content_new (l : Layer) : Content :=
  if ly_buffer l =? 0 then SolidContent (ly_color l) else BufferContent (ly_buffer l) (ly_ticket l).

Record Geometry : Type := mkGeometry {
  ge_above : option Z;
  ge_destination : Z * Z * Z * Z;
  ge_source : Z * Z * Z * Z;
  ge_transform : Z;
  ge_alpha : Z;
  ge_opaque : bool
}.

#[global] Instance Content_eq_dec : EqDecision Content.
Proof. solve_decision. Defined.
#[global] Instance Geometry_eq_dec : EqDecision Geometry.
Proof. solve_decision. Defined.

(** [value as i32], and the [+] of two [i32]. *)
Definition as_i32 (x : Z) : Z := i32_of_u32 (x mod 4294967296).

(** The closure [edge] of [Geometry::new]; [/] truncates towards zero. *)
Definition edge (v logical physical : Z) : Z :=
  as_i32 (Z.quot (v * logical + physical / 2) physical).

Definition geometry_new (l : Layer) (above : option Z) (logical physical : Z * Z) : Geometry :=
  let '(x, y, w, h) := ly_destination l in
  let dx := edge x logical.1 physical.1 in
  let dy := edge y logical.2 physical.2 in
  mkGeometry above
    (dx, dy,
     Z.max (as_i32 (edge (as_i32 (x + w)) logical.1 physical.1 - dx)) 1,
     Z.max (as_i32 (edge (as_i32 (y + h)) logical.2 physical.2 - dy)) 1)
    (if ly_buffer l =? 0 then (0, 0, 256, 256) else ly_source l)
    (ly_transform l) (ly_alpha l) (ly_opaque l && (ly_alpha l =? u32_max)).

(** The role, the viewport and the alpha object of a view belong to its surface
    and are named by it; [solid] keeps a color with its pixel buffer. *)
Record View : Type := mkView {
  vw_surface : Z;
  vw_timeline : bool;
  vw_sync : bool;
  vw_content : option Content;
  vw_solid : option (Z * Z);
  vw_geometry : option Geometry
}.

Definition view_source (v : View) : option (Z * Z) :=
  match vw_content v with Some (BufferContent id ticket) => Some (id, ticket) | _ => None end.

Definition view_content (c : option Content) (v : View) : View :=
  mkView (vw_surface v) (vw_timeline v) (vw_sync v) c (vw_solid v) (vw_geometry v).
Definition view_geometry (g : option Geometry) (v : View) : View :=
  mkView (vw_surface v) (vw_timeline v) (vw_sync v) (vw_content v) (vw_solid v) g.
Definition view_sync (b : bool) (v : View) : View :=
  mkView (vw_surface v) (vw_timeline v) b (vw_content v) (vw_solid v) (vw_geometry v).
Definition view_solid (s : option (Z * Z)) (v : View) : View :=
  mkView (vw_surface v) (vw_timeline v) (vw_sync v) (vw_content v) s (vw_geometry v).

(** ** The stream *)

Record PendingCommit : Type := mkCommit {
  pc_scene : option Z;
  pc_serial : Z;
  pc_width : Z;
  pc_height : Z;
  pc_count : Z
}.

Record Stream : Type := mkStream {
  buffers : gmap Z Source;
  staged : Staging fd;
  waiting : option PendingCommit;
  views : gmap Z View;
  spare_views : list View;
  reads : list Read;
  imports : list PendingImport;
  root_carrier : option ((Z * Z) * Z);
  root_logical_size : option (Z * Z);
  stream_active : bool;
  connected : bool;
  last_ticket : Z;
  last_scene : Z;
  last_import : Z;
  configuration : ConfigPublisher
}.

(** The stream [bind_layers] starts with. *)
Definition stream_new : Stream :=
  mkStream ∅ staging_default None ∅ [] [] [] None None false true 0 0 0 publisher_default.

Definition set_buffers (b : gmap Z Source) (s : Stream) : Stream :=
  mkStream b (staged s) (waiting s) (views s) (spare_views s) (reads s) (imports s)
    (root_carrier s) (root_logical_size s) (stream_active s) (connected s) (last_ticket s)
    (last_scene s) (last_import s) (configuration s).
Definition set_staged (g : Staging fd) (s : Stream) : Stream :=
  mkStream (buffers s) g (waiting s) (views s) (spare_views s) (reads s) (imports s)
    (root_carrier s) (root_logical_size s) (stream_active s) (connected s) (last_ticket s)
    (last_scene s) (last_import s) (configuration s).
Definition set_waiting (c : option PendingCommit) (s : Stream) : Stream :=
  mkStream (buffers s) (staged s) c (views s) (spare_views s) (reads s) (imports s)
    (root_carrier s) (root_logical_size s) (stream_active s) (connected s) (last_ticket s)
    (last_scene s) (last_import s) (configuration s).
Definition set_views (v : gmap Z View) (spare : list View) (s : Stream) : Stream :=
  mkStream (buffers s) (staged s) (waiting s) v spare (reads s) (imports s)
    (root_carrier s) (root_logical_size s) (stream_active s) (connected s) (last_ticket s)
    (last_scene s) (last_import s) (configuration s).
Definition set_reads (r : list Read) (s : Stream) : Stream :=
  mkStream (buffers s) (staged s) (waiting s) (views s) (spare_views s) r (imports s)
    (root_carrier s) (root_logical_size s) (stream_active s) (connected s) (last_ticket s)
    (last_scene s) (last_import s) (configuration s).
Definition set_imports (p : list PendingImport) (s : Stream) : Stream :=
  mkStream (buffers s) (staged s) (waiting s) (views s) (spare_views s) (reads s) p
    (root_carrier s) (root_logical_size s) (stream_active s) (connected s) (last_ticket s)
    (last_scene s) (last_import s) (configuration s).
Definition set_root (r : option ((Z * Z) * Z)) (s : Stream) : Stream :=
  mkStream (buffers s) (staged s) (waiting s) (views s) (spare_views s) (reads s) (imports s)
    r (root_logical_size s) (stream_active s) (connected s) (last_ticket s)
    (last_scene s) (last_import s) (configuration s).
Definition set_root_size (r : option (Z * Z)) (s : Stream) : Stream :=
  mkStream (buffers s) (staged s) (waiting s) (views s) (spare_views s) (reads s) (imports s)
    (root_carrier s) r (stream_active s) (connected s) (last_ticket s)
    (last_scene s) (last_import s) (configuration s).
Definition set_active (b : bool) (s : Stream) : Stream :=
  mkStream (buffers s) (staged s) (waiting s) (views s) (spare_views s) (reads s) (imports s)
    (root_carrier s) (root_logical_size s) b (connected s) (last_ticket s)
    (last_scene s) (last_import s) (configuration s).
Definition set_connected (b : bool) (s : Stream) : Stream :=
  mkStream (buffers s) (staged s) (waiting s) (views s) (spare_views s) (reads s) (imports s)
    (root_carrier s) (root_logical_size s) (stream_active s) b (last_ticket s)
    (last_scene s) (last_import s) (configuration s).
Definition set_marks (ticket scene import : Z) (s : Stream) : Stream :=
  mkStream (buffers s) (staged s) (waiting s) (views s) (spare_views s) (reads s) (imports s)
    (root_carrier s) (root_logical_size s) (stream_active s) (connected s) ticket
    scene import (configuration s).
Definition set_configuration (c : ConfigPublisher) (s : Stream) : Stream :=
  mkStream (buffers s) (staged s) (waiting s) (views s) (spare_views s) (reads s) (imports s)
    (root_carrier s) (root_logical_size s) (stream_active s) (connected s) (last_ticket s)
    (last_scene s) (last_import s) c.

Definition with_fence_sent (r : Read) : Read :=
  mkRead (rd_buffer r) (rd_lane r) (rd_ticket r) (rd_point r) true.

(** ** The task, the requests and the replies *)

Record SceneFeedback : Type := mkFeedback {
  sf_proxy : Z;
  sf_scene : Z;
  sf_configure_serial : Z;
  sf_grant : option Identity
}.

Definition MAX_SCENE_FEEDBACK : Z := 8.

(** An accepted frame and its acquire fence, held until a grant (frame_timeline.rs). *)
Record QueuedFrame : Type := mkQueued { qf_frame : AcceptedWireFrame; qf_fence : fd }.

(** The fields of [TaskWindow] a scene reads or writes: the flags behind
    [accepts_present()], the surface of its window ([root]), its configuration,
    its grants, the frame held behind a grant ([queued]) and its callbacks. *)
Record LayerTask : Type := mkLayerTask {
  lt_flags : bool * bool * bool;
  lt_root : option Z;
  lt_serial : Z;
  lt_buffer_size : Z * Z;
  lt_logical_size : option (Z * Z);
  lt_timeline : FrameGrants.Timeline;
  lt_queued : option QueuedFrame;
  lt_scene_feedback : list SceneFeedback;
  lt_composed_root : bool;
  lt_sync_surface : bool;
  lt_applied_opaque : option bool
}.

(** [accepts_present()]; the flags are [headless()], [unmap_requested] and [closing]. *)
Definition accepts_present (k : LayerTask) : bool :=
  let '(headless, unmap_requested, closing) := lt_flags k in
  negb headless && bool_decide (is_Some (lt_root k)) && negb unmap_requested && negb closing.

Definition set_timeline (t : FrameGrants.Timeline) (k : LayerTask) : LayerTask :=
  mkLayerTask (lt_flags k) (lt_root k) (lt_serial k) (lt_buffer_size k) (lt_logical_size k) t
    (lt_queued k) (lt_scene_feedback k) (lt_composed_root k) (lt_sync_surface k)
    (lt_applied_opaque k).
Definition set_queued (q : option QueuedFrame) (k : LayerTask) : LayerTask :=
  mkLayerTask (lt_flags k) (lt_root k) (lt_serial k) (lt_buffer_size k) (lt_logical_size k)
    (lt_timeline k) q (lt_scene_feedback k) (lt_composed_root k) (lt_sync_surface k)
    (lt_applied_opaque k).
Definition push_feedback (f : SceneFeedback) (k : LayerTask) : LayerTask :=
  mkLayerTask (lt_flags k) (lt_root k) (lt_serial k) (lt_buffer_size k) (lt_logical_size k)
    (lt_timeline k) (lt_queued k) (lt_scene_feedback k ++ [f]) (lt_composed_root k)
    (lt_sync_surface k) (lt_applied_opaque k).
Definition set_composed (composed sync : bool) (k : LayerTask) : LayerTask :=
  mkLayerTask (lt_flags k) (lt_root k) (lt_serial k) (lt_buffer_size k) (lt_logical_size k)
    (lt_timeline k) (lt_queued k) (lt_scene_feedback k) composed sync (lt_applied_opaque k).
Definition set_applied_opaque (o : option bool) (k : LayerTask) : LayerTask :=
  mkLayerTask (lt_flags k) (lt_root k) (lt_serial k) (lt_buffer_size k) (lt_logical_size k)
    (lt_timeline k) (lt_queued k) (lt_scene_feedback k) (lt_composed_root k) (lt_sync_surface k) o.

(** Wayland requests, each with the surface or object it is made on. *)
Inductive WlRequest : Type :=
| CreateSurface (surface : Z)
| Attach (surface : Z) (buffer : option Z)
| DamageBuffer (surface : Z)
| CommitSurface (surface : Z)
| PlaceAbove (surface sibling : Z)
| SetPosition (surface x y : Z)
| SetDestination (surface w h : Z)
| SetMultiplier (surface alpha : Z)
| SetOpaqueRegion (surface : Z) (region : option (Z * Z))
| SetBufferTransform (surface transform : Z)
| SetViewportSource (surface : Z) (source : Z * Z * Z * Z)
| SetInputRegionEmpty (surface : Z)
| TargetGrant (surface : Z) (grant : Target)
| RequestFeedback (surface proxy : Z)
| GetSyncSurface (surface : Z)
| DestroySyncSurface (surface : Z)
| SetAcquirePoint (surface timeline hi lo : Z)
| SetReleasePoint (surface timeline hi lo : Z)
| ImportTimeline (proxy : Z) (descriptor : fd)
| CreateParams (params : Z) (planes : list (Z * fd * Z * Z)) (modifier width height fourcc : Z)
| DestroyParams (params : Z)
| CreatePixel (buffer color : Z)
| CreateCarrier (buffer : Z) (size : Z * Z)
| DestroyBuffer (buffer : Z)
(** The requests of composed frames and windows. *)
| CreateToplevel (surface : Z) (app_id : list Z)
| DestroyToplevel (surface : Z)
| DamageRect (surface x y w h : Z)
| CreateImmed (buffer : Z) (planes : list (Z * fd * Z * Z)) (modifier width height fourcc : Z)
| RequestToken (obj generation : Z) (app_id : list Z)
| Activate (surface : Z) (token : list Z).

(** The records the presenter sends, by opcode. *)
Inductive Reply : Type :=
| Ack (code : Z)
| ConfigReply (config : list Z)
| Completed (ticket : Z)
| FenceAvailable (ticket : Z) (fence : fd)
| ConfigEvent (words : list Z)
| SceneResult (scene code : Z)
| ImportDone (attempt buffer code : Z).

Definition reply_bytes (r : Reply) : list Z :=
  match r with
  | Ack code => response 0x8001 [as_u32 code]
  | ConfigReply words => response 0x8002 words
  | Completed ticket => response 0x8003 [low_word ticket; high_word ticket]
  | FenceAvailable ticket _ => release_fence ticket
  | ConfigEvent words => response 0x8005 words
  | SceneResult scene code => commit_result scene code
  | ImportDone attempt buffer code => import_result attempt buffer code
  end.

Definition reply_fds (r : Reply) : list fd :=
  match r with FenceAvailable _ fence => [fence] | _ => [] end.

Inductive Socket : Type := Requests | Events.

(** [PresenterError]. *)
Inductive LayerError : Type :=
| Configuration (what : string)
| SyncFailed (e : SyncobjError)
| IpcFailed (e : IpcError)
| HostFailed (e : errno)
| EndpointFailed (e : EndpointError)
| ListenerFailed (e : EndpointListenerError)
| GbmFailed (what : string)
| DmabufV4Required
| NoRenderFormat
| UnknownTask (obj : Z)
| UnknownBuffer (obj buffer : Z)
(** A failed [unwrap], [expect], index or [assert!]: of a layer stream, or of the
    presenter around it. *)
| Panicked
| HostPanicked.

(** The kernel, the endpoint and the calls of the client library that can fail. *)
Class PresenterOps (K : Type) : Type := {
  po_drm :: Drm K;
  po_socket : Socket → SeqPacketOps K;
  (** [eventfd(0, EFD_CLOEXEC | EFD_NONBLOCK)]. *)
  po_eventfd : K → K * result errno fd;
  (** [read] of an eventfd, repeated while it fails with [EINTR]. *)
  po_eventfd_read : fd → K → K * result errno Z;
  (** A global's constructor or a write of a temporary file. *)
  po_host_call : string → K → K * result errno unit;
  (** [discard_frame] of the endpoint; [None] when there is no endpoint. *)
  po_discard_frame : Z → K → K * result (option EndpointError) unit
}.

Definition EAGAIN : Z := 11.
(** [ENOTTY | EOPNOTSUPP | EINVAL]. *)
Definition unsupported_errno (e : errno) : bool := bool_decide (e ∈ [25; 95; 22]).

Section presenter.

Context {K : Type} `{PresenterOps K}.

(** [w_next] numbers the Wayland objects the client creates. *)
Record world : Type := mkWorld {
  w_kernel : K;
  w_task : LayerTask;
  w_clock : Clock;
  w_stream : Stream;
  w_wayland : list WlRequest;
  w_sent : list (Socket * Reply);
  w_next : Z
}.

Definition lp : Type → Type := method world LayerError.

Definition on_kernel {E A} (wrap : E → LayerError) (m : K → K * result E A) : lp A :=
  λ w, let '(k, r) := m (w_kernel w) in
       (mkWorld k (w_task w) (w_clock w) (w_stream w) (w_wayland w) (w_sent w) (w_next w),
        map_err wrap r).

Definition update_stream (f : Stream → Stream) : lp unit :=
  modify (λ w, mkWorld (w_kernel w) (w_task w) (w_clock w) (f (w_stream w)) (w_wayland w)
                 (w_sent w) (w_next w)).
Definition update_task (f : LayerTask → LayerTask) : lp unit :=
  modify (λ w, mkWorld (w_kernel w) (f (w_task w)) (w_clock w) (w_stream w) (w_wayland w)
                 (w_sent w) (w_next w)).
Definition emit (r : WlRequest) : lp unit :=
  modify (λ w, mkWorld (w_kernel w) (w_task w) (w_clock w) (w_stream w) (r :: w_wayland w)
                 (w_sent w) (w_next w)).
Definition fresh_proxy : lp Z :=
  λ w, (mkWorld (w_kernel w) (w_task w) (w_clock w) (w_stream w) (w_wayland w) (w_sent w)
          (w_next w + 1), Ok (w_next w)).

Definition stream : lp Stream := gets w_stream.
Definition task : lp LayerTask := gets w_task.

Definition when (b : bool) (m : lp unit) : lp unit := if b then m else mret tt.

Fixpoint for_each {A} (body : A → lp unit) (xs : list A) : lp unit :=
  match xs with
  | [] => mret tt
  | x :: xs => _ ← body x; for_each body xs
  end.

Definition host_call (what : string) : lp unit := on_kernel HostFailed (po_host_call what).

(** [send_record(..)?] on one of the two sockets. *)
Definition send (socket : Socket) (r : Reply) : lp unit :=
  _ ← on_kernel IpcFailed (@send_record K (po_socket socket) (reply_bytes r) (reply_fds r));
  modify (λ w, mkWorld (w_kernel w) (w_task w) (w_clock w) (w_stream w) (w_wayland w)
                 ((socket, r) :: w_sent w) (w_next w)).

Definition ack (code : Z) : lp unit := send Requests (Ack code).

(** ** Lanes *)

(** A method of a lane's timeline, through the kernel. *)
Definition lane_method : Type → Type := method (K * Lane) LayerError.

Definition on_timeline {A} (m : tl_method A) : lane_method A :=
  λ w, let '((k, t), r) := m (w.1, ln_timeline w.2) in
       ((k, mkLane t (ln_proxy w.2) (ln_next_point w.2) (ln_release_wakeup w.2)
              (ln_availability w.2)), map_err SyncFailed r).

Definition lane_kernel {E A} (wrap : E → LayerError) (m : K → K * result E A) : lane_method A :=
  λ w, let '(k, r) := m w.1 in ((k, w.2), map_err wrap r).

Definition set_next_point (p : Z) (l : Lane) : Lane :=
  mkLane (ln_timeline l) (ln_proxy l) p (ln_release_wakeup l) (ln_availability l).
Definition set_release_wakeup (e : option fd) (l : Lane) : Lane :=
  mkLane (ln_timeline l) (ln_proxy l) (ln_next_point l) e (ln_availability l).
Definition set_availability (f : FenceWakeup) (l : Lane) : Lane :=
  mkLane (ln_timeline l) (ln_proxy l) (ln_next_point l) (ln_release_wakeup l) f.

Definition update_lane (f : Lane → Lane) : lane_method unit := modify (λ w, (w.1, f w.2)).

(** A registration that an older kernel does not know is not an error. *)
Definition register_wakeup (m : tl_method unit) (unsupported : Lane → Lane) : lane_method unit :=
  r ← attempt (on_timeline m);
  match r with
  | Ok tt => mret tt
  | Err (SyncFailed (DrmError op source)) =>
      if unsupported_errno source then update_lane unsupported
      else throw (SyncFailed (DrmError op source))
  | Err e => throw e
  end.

(** [BufferSync::arm_release_wakeup]. *)
Definition arm_release_wakeup (point : Z) : lane_method unit :=
  w ← get;
  match ln_release_wakeup w.2 with
  | None => mret tt
  | Some event => register_wakeup (notify_when_signalled point event) (set_release_wakeup None)
  end.

(** [FenceWakeup::arm]: an eventfd on first use, drained of the previous point's
    notification, and registered for the point's availability. *)
Definition arm_availability (point : Z) : lane_method unit :=
  w ← get;
  if fw_unsupported (ln_availability w.2) then mret tt
  else
    event ← match fw_event (ln_availability w.2) with
            | Some event => mret event
            | None =>
                event ← lane_kernel (λ e, SyncFailed (DrmError "create fence availability eventfd" e))
                          po_eventfd;
                _ ← update_lane (set_availability (mkWakeup (Some event) false));
                mret event
            end;
    r ← attempt (lane_kernel HostFailed (po_eventfd_read event));
    _ ← match r with
        | Err (HostFailed e) =>
            if e =? EAGAIN then mret tt
            else throw (SyncFailed (DrmError "drain fence availability eventfd" e))
        | _ => mret tt
        end;
    register_wakeup (notify_when_available point event) (set_availability (mkWakeup None true)).

(** [new_lane]. *)
Definition new_lane : lp Lane :=
  timeline ← on_kernel SyncFailed create_timeline;
  descriptor ← on_kernel SyncFailed (drm_error "export opaque timeline syncobj"
                                       (syncobj_to_fd (Syncobj.tl_handle timeline) false));
  proxy ← fresh_proxy;
  _ ← emit (ImportTimeline proxy descriptor);
  event ← on_kernel HostFailed po_eventfd;
  mret (mkLane timeline proxy 0 (Some event) (mkWakeup None false)).

(** [&mut self.buffers[id].lanes[lane]]. *)
Definition on_lane {A} (id : Z) (lane : nat) (m : lane_method A) : lp A :=
  λ w, match buffers (w_stream w) !! id with
       | None => (w, Err Panicked)
       | Some source =>
           match sr_lanes source !! lane with
           | None => (w, Err Panicked)
           | Some l =>
               let '((k, l'), r) := m (w_kernel w, l) in
               (mkWorld k (w_task w) (w_clock w)
                  (set_buffers (<[id := mkSourceEntry (sr_metadata source) (sr_buffer source)
                                          (<[lane := l']> (sr_lanes source)) (sr_ticket source)]>
                                  (buffers (w_stream w))) (w_stream w))
                  (w_wayland w) (w_sent w) (w_next w), r)
           end
       end.

Definition update_source (id : Z) (f : Source → Source) : lp unit :=
  update_stream (λ s, set_buffers (alter f id (buffers s)) s).
Definition set_ticket (t : option Z) (s : Source) : Source :=
  mkSourceEntry (sr_metadata s) (sr_buffer s) (sr_lanes s) t.
Definition set_imported (b : option Z) (s : Source) : Source :=
  mkSourceEntry (sr_metadata s) b (sr_lanes s) (sr_ticket s).
Definition push_lane (l : Lane) (s : Source) : Source :=
  mkSourceEntry (sr_metadata s) (sr_buffer s) (sr_lanes s ++ [l]) (sr_ticket s).

(** ** Releasing reads *)

(** The reads the fence of one point serves. *)
Definition shares_point (buffer : Z) (lane : nat) (point : Z) (r : Read) : bool :=
  occupies buffer lane r && (rd_point r =? point) && negb (rd_fence_sent r).

(** The loop that sends one fence to every ticket waiting for it. *)
Definition send_fence_at (buffer : Z) (lane : nat) (point : Z) (fence : fd) (i : nat) : lp unit :=
  s ← stream;
  match reads s !! i with
  | None => mret tt
  | Some r =>
      when (shares_point buffer lane point r)
        (_ ← send Events (FenceAvailable (rd_ticket r) fence);
         update_stream (λ s, set_reads (<[i := with_fence_sent r]> (reads s)) s))
  end.

Definition send_fences (buffer : Z) (lane : nat) (point : Z) (fence : fd) : lp unit :=
  s ← stream;
  for_each (send_fence_at buffer lane point fence) (seq 0 (length (reads s))).

(** One iteration of [Stream::release] at [index]; [true] when the read ended. *)
Definition release_read (index : nat) : lp bool :=
  s ← stream;
  match reads s !! index with
  | None => throw Panicked
  | Some r =>
      _ ← (if connected s && negb (rd_fence_sent r) then
             fence ← on_lane (rd_buffer r) (rd_lane r)
                       (on_timeline (try_export_release_fence (rd_point r)));
             match fence with
             | None => mret tt
             | Some f => send_fences (rd_buffer r) (rd_lane r) (rd_point r) f
             end
           else mret tt);
      signalled ← on_lane (rd_buffer r) (rd_lane r) (on_timeline signalled_point);
      if signalled <? rd_point r then mret false
      else
        _ ← (if connected s then send Events (Completed (rd_ticket r))
             else _ ← attempt (send Events (Completed (rd_ticket r))); mret tt);
        _ ← update_source (rd_buffer r)
              (λ src, if bool_decide (sr_ticket src = Some (rd_ticket r)) then set_ticket None src
                      else src);
        _ ← update_stream (λ s, set_reads (swap_remove index (reads s)) s);
        mret true
  end.

(** The loop of [Stream::release]: [todo] reads are left to visit. *)
Fixpoint release_loop (todo index : nat) : lp unit :=
  match todo with
  | O => mret tt
  | S todo =>
      ended ← release_read index;
      release_loop todo (if ended : bool then index else S index)
  end.

Definition release : lp unit := s ← stream; release_loop (length (reads s)) 0.

(** ** Views *)

Definition modify_view (id : Z) (f : View → View) : lp unit :=
  update_stream (λ s, set_views (alter f id (views s)) (spare_views s) s).

(** [View::hide]. *)
Definition view_hide (v : View) : View * list WlRequest :=
  match vw_content v with
  | None => (v, [])
  | Some _ => (view_content None v, [CommitSurface (vw_surface v); Attach (vw_surface v) None])
  end.

Definition emit_all (r : list WlRequest) : lp unit :=
  modify (λ w, mkWorld (w_kernel w) (w_task w) (w_clock w) (w_stream w) (r ++ w_wayland w)
                 (w_sent w) (w_next w)).

Definition hide_view (id : Z) (v : View) : lp unit :=
  _ ← emit_all (view_hide v).2;
  modify_view id (const (view_hide v).1).

(** [Stream::hide]. *)
Definition hide : lp bool :=
  s ← stream;
  if negb (stream_active s) then mret false
  else
    _ ← for_each (λ p, hide_view p.1 p.2) (btree_items (views s));
    _ ← update_stream (set_active false);
    mret true.

(** One removed view of [recycle_views]. *)
Definition recycle_view (p : Z * View) : lp unit :=
  _ ← emit_all (view_hide p.2).2;
  update_stream (λ s, set_views (delete p.1 (views s))
                        (spare_views s ++ [view_geometry None (view_hide p.2).1]) s).

Definition recycle_views (ids : gset Z) : lp unit :=
  s ← stream;
  for_each recycle_view (filter (λ p, p.1 ∉ ids) (btree_items (views s))).

(** The closure that creates a view of [commit_layers]. *)
Definition create_view (timelines : bool) : lp View :=
  surface ← fresh_proxy;
  _ ← emit (CreateSurface surface);
  _ ← host_call "region";
  _ ← emit (SetInputRegionEmpty surface);
  mret (mkView surface timelines false None None None).

(** [view_for_layer]: the view of [id], taken from the spare ones or created. *)
Definition view_for_layer (timelines : bool) (id : Z) : lp View :=
  s ← stream;
  match views s !! id with
  | Some v => mret v
  | None =>
      v ← match last (spare_views s) with
          | Some v =>
              _ ← update_stream (λ s, set_views (views s)
                                        (take (length (spare_views s) - 1) (spare_views s)) s);
              mret v
          | None => create_view timelines
          end;
      _ ← update_stream (λ s, set_views (<[id := v]> (views s)) (spare_views s) s);
      mret v
  end.

(** ** The carrier *)

(** [while b != 0 { (a, b) = (b, a % b) }]: every second step halves [b], so 64
    steps end the loop on 32-bit numbers. *)
Fixpoint euclid (fuel : nat) (a b : Z) : Z :=
  match fuel with
  | O => a
  | S fuel => if b =? 0 then a else euclid fuel b (a mod b)
  end.

Definition carrier_size (width height : Z) : result LayerError (Z * Z) :=
  if (width =? 0) || (height =? 0) then Err (Configuration "empty layer task size")
  else let a := euclid 65 width height in Ok (width / a, height / a).

(** A layer that hides everything below it; [i32::try_from] bounds the size. *)
Definition covered_by_opaque_layer (layers : list Layer) (width height : Z) : bool :=
  (width <=? 2147483647) && (height <=? 2147483647) && (0 <? width) && (0 <? height)
  && existsb (λ l, ly_opaque l && (ly_alpha l =? u32_max)
                   && (negb (ly_buffer l =? 0) || (Z.shiftr (ly_color l) 24 =? 255))
                   && bool_decide (ly_destination l = (0, 0, width, height))) layers.

(** [carrier]: a black buffer of the reduced size. *)
Definition carrier_bytes (size : Z * Z) : option Z :=
  if size.1 * 4 <=? u32_max then
    if size.1 * 4 * size.2 <=? 2147483647 then Some (size.1 * 4 * size.2) else None
  else None.

Definition carrier (size : Z * Z) : lp Z :=
  _ ← lift (ok_or (carrier_bytes size) (Configuration "layer root buffer too large"));
  _ ← host_call "tempfile";
  buffer ← fresh_proxy;
  _ ← emit (CreateCarrier buffer size);
  mret buffer.

Definition pixel (color : Z) : lp Z :=
  _ ← host_call "tempfile";
  buffer ← fresh_proxy;
  _ ← emit (CreatePixel buffer color);
  mret buffer.

(** ** Showing one layer *)

Section commit.

(** The scene's identity, the grant it consumed and the layer whose change the
    compositor reports. *)
Context (scene : option Z) (grant : option Target) (feedback_layer : option Z).

Definition add_feedback (surface : Z) : lp unit :=
  _ ← host_call "presentation feedback";
  proxy ← fresh_proxy;
  _ ← emit (RequestFeedback surface proxy);
  update_task (λ k, push_feedback
    (mkFeedback proxy (default 0 scene) (lt_serial k) (ta_identity <$> grant)) k).

(** [if geometry_changed { .. }]. *)
Definition place_layer (surface previous : Z) (g : Geometry) : lp unit :=
  let '(dx, dy, dw, dh) := ge_destination g in
  _ ← emit (PlaceAbove surface previous);
  _ ← emit (SetPosition surface dx dy);
  _ ← emit (SetDestination surface dw dh);
  _ ← emit (SetMultiplier surface (ge_alpha g));
  _ ← (if ge_opaque g then
         _ ← host_call "region"; emit (SetOpaqueRegion surface (Some (dw, dh)))
       else emit (SetOpaqueRegion surface None));
  _ ← lift (fail_if (7 <? ge_transform g) (Configuration "layer transform"));
  _ ← emit (SetBufferTransform surface (ge_transform g));
  emit (SetViewportSource surface (ge_source g)).

(** A layer of constant color: the view keeps one pixel of its last color. *)
Definition draw_pixel (l : Layer) (v : View) : lp Z :=
  b ← pixel (ly_color l);
  _ ← modify_view (ly_id l) (view_solid (Some (ly_color l, b)));
  _ ← match vw_solid v with
      | Some (_, old) => emit (DestroyBuffer old)
      | None => mret tt
      end;
  mret b.

Definition show_solid (l : Layer) (v : View) : lp unit :=
  _ ← when (vw_sync v)
        (_ ← modify_view (ly_id l) (view_sync false); emit (DestroySyncSurface (vw_surface v)));
  buffer ← match vw_solid v with
           | Some (color, b) => if color =? ly_color l then mret b else draw_pixel l v
           | None => draw_pixel l v
           end;
  emit (Attach (vw_surface v) (Some buffer)).

(** The two points of a new read on its lane. *)
Definition next_points (next : Z) : result LayerError (Z * Z) :=
  acquire ← ok_or (checked_add u64_max next 1) (Configuration "layer timeline exhausted");
  release ← ok_or (checked_add u64_max acquire 1) (Configuration "layer timeline exhausted");
  mret (acquire, release).

(** The lane's part of a new read: the acquire fence at one point, the wakeups
    for the release point after it. *)
Definition begin_read (acquire : option fd) : lane_method (Z * Z * Z) :=
  w ← get;
  '(acquire_point, release_point) ← lift (next_points (ln_next_point w.2));
  _ ← match acquire with
      | Some f => on_timeline (attach_sync_file acquire_point f)
      | None => on_timeline (signal acquire_point)
      end;
  _ ← update_lane (set_next_point release_point);
  _ ← arm_release_wakeup release_point;
  _ ← arm_availability release_point;
  mret (ln_proxy w.2, acquire_point, release_point).

(** The tail shared by a new and a relabelled read. *)
Definition record_read (l : Layer) (lane : nat) (point : Z) (fence_sent : bool) : lp unit :=
  _ ← update_source (ly_buffer l) (set_ticket (Some (ly_ticket l)));
  update_stream (λ s,
    set_reads (reads s ++ [mkRead (ly_buffer l) lane (ly_ticket l) point fence_sent])
      (set_marks (Z.max (last_ticket s) (ly_ticket l)) (last_scene s) (last_import s) s)).

Definition start_read (l : Layer) (acquire : option fd) (v : View) (b : Source) : lp unit :=
  s ← stream;
  lane ← match free_lane (ly_buffer l) (reads s) b with
         | Some lane => mret lane
         | None =>
             ln ← new_lane;
             _ ← update_source (ly_buffer l) (push_lane ln);
             mret (length (sr_lanes b))
         end;
  '(proxy, acquire_point, release_point) ← on_lane (ly_buffer l) lane (begin_read acquire);
  _ ← when (negb (vw_sync v))
        (_ ← modify_view (ly_id l) (view_sync true); emit (GetSyncSurface (vw_surface v)));
  _ ← emit (SetAcquirePoint (vw_surface v) proxy (split_point acquire_point).1
              (split_point acquire_point).2);
  _ ← emit (SetReleasePoint (vw_surface v) proxy (split_point release_point).1
              (split_point release_point).2);
  _ ← emit (Attach (vw_surface v) (sr_buffer b));
  record_read l lane release_point false.

Definition relabel_read (l : Layer) (held : Z) : lp unit :=
  s ← stream;
  match find (λ r, (rd_buffer r =? ly_buffer l) && (rd_ticket r =? held)) (reads s) with
  | None => throw (Configuration "relabelled layer read is not outstanding")
  | Some r => record_read l (rd_lane r) (rd_point r) (rd_fence_sent r)
  end.

(** What a layer asks of its allocation: a new read, a new name for the read its
    view shows, or nothing. *)
Definition held_ticket (l : Layer) (s : Stream) : option Z :=
  match buffers s !! ly_buffer l with
  | Some b => match sr_ticket b with
              | Some held => if held =? ly_ticket l then None else Some held
              | None => None
              end
  | None => None
  end.

Definition relabelled (l : Layer) (v : View) (s : Stream) : option Z :=
  match held_ticket l s with
  | Some held => if bool_decide (view_source v = Some (ly_buffer l, held)) then Some held else None
  | None => None
  end.

Definition starts_read (l : Layer) (v : View) (s : Stream) : bool :=
  negb (ly_buffer l =? 0) && bool_decide (relabelled l v s = None)
  && match buffers s !! ly_buffer l with
     | Some b => negb (bool_decide (sr_ticket b = Some (ly_ticket l)))
     | None => false
     end.

(** The closure passed to [View::update]. *)
Definition apply_layer (l : Layer) (acquire : option fd) (previous : Z) (g : Geometry) (v : View)
    (geometry_changed : bool) : lp unit :=
  _ ← when (bool_decide (feedback_layer = Some (ly_id l))) (add_feedback (vw_surface v));
  s ← stream;
  let relabel := relabelled l v s in
  let new_read := starts_read l v s in
  _ ← match grant with
      | Some t => when (((ly_buffer l =? 0) || new_read) && vw_timeline v)
                    (emit (TargetGrant (vw_surface v) t))
      | None => mret tt
      end;
  _ ← when geometry_changed (place_layer (vw_surface v) previous g);
  if ly_buffer l =? 0 then show_solid l v
  else match buffers s !! ly_buffer l with
  | None => throw Panicked
  | Some b =>
      if new_read then start_read l acquire v b
      else match relabel with
      | Some held => relabel_read l held
      | None => mret tt
      end
  end.

(** [View::update]. *)
Definition update_view (l : Layer) (acquire : option fd) (previous : Z) (g : Geometry) (v : View)
    : lp unit :=
  let geometry_changed := negb (bool_decide (vw_geometry v = Some g)) in
  if negb geometry_changed && bool_decide (vw_content v = Some (content_new l)) then mret tt
  else
    _ ← apply_layer l acquire previous g v geometry_changed;
    _ ← modify_view (ly_id l) (λ v, view_content (Some (content_new l)) (view_geometry (Some g) v));
    _ ← emit (DamageBuffer (vw_surface v));
    emit (CommitSurface (vw_surface v)).

(** The loop over the staged layers, each above the previous one. *)
Fixpoint show_layers (timelines : bool) (logical physical : Z * Z) (previous : Z)
    (above : option Z) (layers : list (Layer * option fd)) : lp unit :=
  match layers with
  | [] => mret tt
  | (l, acquire) :: layers =>
      v ← view_for_layer timelines (ly_id l);
      _ ← update_view l acquire previous (geometry_new l above logical physical) v;
      show_layers timelines logical physical (vw_surface v) (Some (ly_id l)) layers
  end.

End commit.

(** ** Committing a scene *)

Section app.

(** The globals of the connection: whether it has an alpha modifier and a frame
    timeline manager, the formats of its feedback, and whether Android accepts
    scene presentation events. *)
Context (alpha timelines scene_presentation : bool) (formats : list (Z * Z)).

(** The black backing of the root, unless an opaque layer covers the composed
    image it keeps; [true] when the root has to be attached again. *)
Definition prepare_backing (logical : Z * Z) (preserve : bool) : lp (option ((Z * Z) * bool)) :=
  if preserve then mret None
  else
    size ← lift (carrier_size logical.1 logical.2);
    s ← stream;
    let changed := negb (bool_decide (fst <$> root_carrier s = Some size)) in
    _ ← when changed
          (buffer ← carrier size;
           _ ← update_stream (set_root (Some (size, buffer)));
           match root_carrier s with
           | Some (_, old) => emit (DestroyBuffer old)
           | None => mret tt
           end);
    k ← task;
    mret (Some (size, changed || negb (stream_active s) || lt_composed_root k)).

(** The topmost visible layer whose content this scene changes. *)
Definition changed_layer (vs : gmap Z View) (layers : list (Layer * option fd)) : option Z :=
  (λ p, ly_id p.1) <$>
  find (λ p, negb (ly_alpha p.1 =? 0)
             && match vs !! ly_id p.1 with
                | None => true
                | Some v => negb (bool_decide (vw_content v = Some (content_new p.1)))
                end) (rev layers).

Definition refresh_root (root : Z) (logical : Z * Z) (attach : bool) : lp unit :=
  s ← stream;
  when (negb (stream_active s) || attach
        || negb (bool_decide (root_logical_size s = Some logical)))
    (_ ← host_call "region";
     _ ← emit (SetOpaqueRegion root (Some logical));
     _ ← emit (SetBufferTransform root 0);
     _ ← emit (SetDestination root logical.1 logical.2);
     update_stream (set_root_size (Some logical))).

Definition attach_backing (root : Z) (size : Z * Z) (grant : option Target) : lp unit :=
  k ← task;
  _ ← when (lt_sync_surface k)
        (_ ← update_task (λ k, set_composed (lt_composed_root k) false k);
         emit (DestroySyncSurface root));
  _ ← emit (SetViewportSource root (0, 0, size.1 * 256, size.2 * 256));
  s ← stream;
  _ ← emit (Attach root (snd <$> root_carrier s));
  _ ← emit (DamageBuffer root);
  _ ← match grant with
      | Some t => when (tl_surface (lt_timeline k)) (emit (TargetGrant root t))
      | None => mret tt
      end;
  update_task (λ k, set_composed false (lt_sync_surface k) k).

(** The grant of a scene that changed no layer ends with the root's feedback or
    at once. *)
Definition settle_grant (root : Z) (scene : option Z) (grant : option Target)
    (feedback_layer : option Z) (attach : bool) : lp unit :=
  match grant with
  | None => mret tt
  | Some t =>
      match feedback_layer with
      | Some _ => mret tt
      | None =>
          if attach then add_feedback scene grant root
          else update_task (λ k, set_timeline
                 (timeline_finish (Some (ta_identity t)) Skipped (lt_timeline k)) k)
      end
  end.

Definition commit_layers (size : Z * Z) (scene : option Z) (grant : option Target) : lp unit :=
  k ← task;
  root ← lift (ok_or (lt_root k) Panicked);
  logical ← lift (ok_or (lt_logical_size k) (Configuration "layer task has no logical size"));
  s ← stream;
  let layers := st_layers (staged s) in
  let preserve := lt_composed_root k && covered_by_opaque_layer layers.*1 size.1 size.2 in
  backing ← prepare_backing logical preserve;
  _ ← update_stream (λ s, set_staged (take_scene (staged s)).1 s);
  let feedback_layer :=
    if bool_decide (is_Some grant)
       || (bool_decide (is_Some scene) && (zlen (lt_scene_feedback k) <? MAX_SCENE_FEEDBACK)
           && scene_presentation)
    then changed_layer (views s) layers else None in
  _ ← recycle_views (list_to_set (ly_id <$> layers.*1));
  _ ← show_layers scene grant feedback_layer timelines logical size root None layers;
  _ ← update_stream (λ s, set_staged (recycle layers (staged s)) s);
  let attach := match backing with Some (_, attach) => attach | None => false end in
  _ ← refresh_root root logical attach;
  _ ← match backing with
      | Some (backing_size, true) => attach_backing root backing_size grant
      | _ => mret tt
      end;
  _ ← settle_grant root scene grant feedback_layer attach;
  _ ← emit (CommitSurface root);
  _ ← update_task (set_applied_opaque (Some true));
  update_stream (set_active true).

(** ** Submitting, parking and answering *)

(** Every edge of every layer falls on a logical pixel. *)
Definition exact_geometry (logical : option (Z * Z)) (width height : Z) (layers : list Layer) : bool :=
  forallb (λ l,
    match logical with
    | None => false
    | Some (lw, lh) =>
        let '(x, y, w, h) := ly_destination l in
        forallb (λ '(edge, logical, physical),
                   (0 <? physical) && (Z.rem (edge * logical) physical =? 0))
          [(x, lw, width); (y, lh, height); (x + w, lw, width); (y + h, lh, height)]
    end) layers.

Definition source_state (s : Stream) (id : Z) : option SourceState :=
  (λ b, mkSource (sr_metadata b) (bool_decide (is_Some (sr_buffer b))) (sr_ticket b)
          (spare_timeline id (reads s) b)) <$> buffers s !! id.

Definition attached_read (s : Stream) (id : Z) : option (Z * Z) :=
  match views s !! id with Some v => view_source v | None => None end.

Definition scene_status (commit : PendingCommit) (k : LayerTask) (s : Stream) : SceneStatus :=
  let layers := st_layers (staged s) in
  if negb (st_failed (staged s)) && alpha && accepts_present k
     && (lt_serial k =? pc_serial commit)
     && bool_decide (lt_buffer_size k = (pc_width commit, pc_height commit))
     && exact_geometry (lt_logical_size k) (pc_width commit) (pc_height commit) layers.*1
  then assess_scene (pc_width commit) (pc_height commit) (last_ticket s) (source_state s)
         (attached_read s) ((λ p, (p.1, bool_decide (is_Some p.2))) <$> layers) (pc_count commit)
  else Invalid.

Definition clear_staged : lp unit := update_stream (λ s, set_staged (LayerStream.clear (staged s)) s).

(** The answer to a commit: an event for a scene with an identity, else an ack. *)
Definition answer (scene : option Z) (code : Z) : lp unit :=
  match scene with
  | Some scene => send Events (SceneResult scene code)
  | None => ack code
  end.

(** [park]: the report of a long wait is not modelled. *)
Definition park (commit : PendingCommit) : lp unit := update_stream (set_waiting (Some commit)).

Definition monotonic_timestamp_nanos : lp Z :=
  '(seconds, nanos) ← on_kernel HostFailed clock_monotonic;
  _ ← lift (fail_if (seconds <? 0) (Configuration "monotonic clock returned negative seconds"));
  _ ← lift (fail_if (nanos <? 0) (Configuration "monotonic clock returned negative nanos"));
  lift (ok_or (m ← Syncobj.checked_mul u64_max seconds 1000000000; checked_add u64_max m nanos)
          (Configuration "monotonic timestamp overflowed nanoseconds")).

(** [android_frame], on the clock and this task's timeline; every other task's
    timeline is armed in the same way. *)
Definition note_android_frame (now : Z) : lp unit :=
  modify (λ w,
    let app := android_frame now (mkClockApp (w_clock w) {[0 := lt_timeline (w_task w)]}) in
    mkWorld (w_kernel w)
      (set_timeline (default (lt_timeline (w_task w)) (ca_tasks app !! 0)) (w_task w))
      (ca_clock app) (w_stream w) (w_wayland w) (w_sent w) (w_next w)).

Definition endpoint_error (e : option EndpointError) : LayerError :=
  match e with Some e => EndpointFailed e | None => Configuration "endpoint disappeared" end.

(** A composed frame that waits for a grant is superseded by a direct scene. *)
Definition discard_queued : lp unit :=
  k ← task;
  match lt_queued k with
  | None => mret tt
  | Some queued =>
      _ ← update_task (set_queued None);
      on_kernel endpoint_error (po_discard_frame (aw_frame (qf_frame queued)))
  end.

(** [task.timeline.reserve(now)]. *)
Definition reserve_grant (now : Z) : lp (option (option Target)) :=
  λ w, let '(t, r) := reserve now (lt_timeline (w_task w)) in
       (mkWorld (w_kernel w) (set_timeline t (w_task w)) (w_clock w) (w_stream w) (w_wayland w)
          (w_sent w) (w_next w), Ok r).

Definition show_scene (commit : PendingCommit) : lp unit :=
  now ← monotonic_timestamp_nanos;
  reserved ← reserve_grant now;
  match reserved with
  | None => park commit
  | Some target =>
      _ ← note_android_frame now;
      _ ← commit_layers (pc_width commit, pc_height commit) (pc_scene commit) target;
      answer (pc_scene commit) 0
  end.

Definition submit_layer_scene (commit : PendingCommit) : lp unit :=
  k ← task;
  s ← stream;
  let status := scene_status commit k s in
  if bool_decide (status = Busy) && bool_decide (is_Some (pc_scene commit)) then park commit
  else if negb (bool_decide (status = Ready)) then
    _ ← clear_staged;
    answer (pc_scene commit) (-95)
  else
    _ ← discard_queued;
    k ← task;
    if tl_exact (lt_timeline k) && (MAX_SCENE_FEEDBACK <=? zlen (lt_scene_feedback k))
    then park commit
    else show_scene commit.

(** [Stream::abort_timeline_wait]. *)
Definition abort_timeline_wait : lp unit :=
  s ← stream;
  match waiting s with
  | None => mret tt
  | Some commit =>
      _ ← update_stream (set_waiting None);
      _ ← clear_staged;
      answer (pc_scene commit) (-11)
  end.

(** ** Requests *)

(** The loop of [stage_batch] over the entries, with the descriptors left. *)
Fixpoint stage_entries (layers : list BatchLayer) (descriptors : list (option fd)) : lp unit :=
  match layers with
  | [] => mret tt
  | entry :: layers =>
      '(fence, descriptors) ←
        match bl_fence_index entry with
        | None => mret (None, descriptors)
        | Some index =>
            fence ← lift (ok_or (descriptors !! index) Panicked);
            mret (fence, <[index := None]> descriptors)
        end;
      _ ← update_stream (λ s, set_staged (push (bl_layer entry) fence (staged s)).1 s);
      stage_entries layers descriptors
  end.

(** [zip] fills the four slots from the received descriptors. *)
Definition stage_batch (layers : list BatchLayer) (fds : list fd) : lp unit :=
  stage_entries layers (take 4 ((Some <$> fds) ++ replicate 4 None)).

Definition layer_config (k : LayerTask) : list Z :=
  [if alpha && accepts_present k then SUPPORTED else CONFIG_EVENTS;
   lt_serial k; (lt_buffer_size k).1; (lt_buffer_size k).2].

Definition config_of (k : LayerTask) : config :=
  (if alpha && accepts_present k then SUPPORTED else CONFIG_EVENTS,
   lt_serial k, (lt_buffer_size k).1, (lt_buffer_size k).2).

(** A method of the configuration publisher. *)
Definition on_configuration {A} (m : method ConfigPublisher WireError A) : lp A :=
  λ w, let '(c, r) := m (configuration (w_stream w)) in
       (mkWorld (w_kernel w) (w_task w) (w_clock w) (set_configuration c (w_stream w))
          (w_wayland w) (w_sent w) (w_next w),
        map_err (λ _, Configuration "layer configuration revision exhausted") r).

(** The answer to a registration: an event for one with an identity, else an ack. *)
Definition answer_import (attempt : option Z) (buffer code : Z) : lp unit :=
  match attempt with
  | Some attempt => send Events (ImportDone attempt buffer code)
  | None => ack code
  end.

Definition register (metadata : Buffer) (attempt : option Z) (fds : list fd) : lp unit :=
  s ← stream;
  let supported := existsb (λ f, (f.1 =? bf_fourcc metadata) && (f.2 =? bf_modifier metadata)) formats in
  if negb supported || (MAX_BUFFERS <=? Z.of_nat (size (buffers s)))
     || bool_decide (is_Some (buffers s !! bf_id metadata)) || imports_full (imports s)
  then answer_import attempt (bf_id metadata) (-95)
  else
    _ ← host_call "dmabuf params";
    lane ← new_lane;
    params ← fresh_proxy;
    _ ← emit (CreateParams params
                (zip_with (λ '(i, p) f, (i, f, pl_offset p, pl_stride p))
                   (zip (Z.of_nat <$> seq 0 (length (bf_planes metadata))) (bf_planes metadata)) fds)
                (bf_modifier metadata) (as_i32 (bf_width metadata)) (as_i32 (bf_height metadata))
                (bf_fourcc metadata));
    _ ← update_stream (λ s, set_buffers (<[bf_id metadata := mkSourceEntry metadata None [lane] None]>
                                           (buffers s)) s);
    s ← stream;
    let '(pending, inserted) := imports_insert (mkImport (bf_id metadata) attempt params) (imports s) in
    if inserted : bool then update_stream (set_imports pending) else throw Panicked.

Definition unregister (id : Z) : lp unit :=
  s ← stream;
  if imports_contains id (imports s) || negb (bool_decide (is_Some (buffers s !! id)))
     || existsb (λ r, rd_buffer r =? id) (reads s)
  then ack (-16)
  else
    _ ← match buffers s !! id ≫= sr_buffer with
        | Some b => emit (DestroyBuffer b)
        | None => mret tt
        end;
    _ ← update_stream (λ s, set_buffers (delete id (buffers s)) s);
    ack 0.

(** [SubscribeConfig] and [Config] are answered on the request socket. *)
Definition subscribe_config : lp unit :=
  k ← task;
  words ← on_configuration (subscribe (config_of k));
  send Requests (ConfigEvent words).

Definition query_config : lp unit := k ← task; send Requests (ConfigReply (layer_config k)).

Definition abort_scene : lp unit :=
  _ ← clear_staged;
  s ← stream;
  _ ← update_stream (set_waiting None);
  _ ← match waiting s ≫= pc_scene with
      | Some scene => send Events (SceneResult scene (-95))
      | None => mret tt
      end;
  ack 0.

(** While a commit waits only these requests are served. *)
Definition served_while_waiting (r : LayerRequest) : bool :=
  match r with Config | SubscribeConfig | AbortScene => true | _ => false end.

(** [if *scene <= stream.last_scene { return Err(..) } stream.last_scene = *scene]. *)
Definition claim_scene (scene : Z) : lp unit :=
  s ← stream;
  _ ← lift (fail_if (scene <=? last_scene s) (Configuration "layer scene identity reused"));
  update_stream (λ s, set_marks (last_ticket s) scene (last_import s) s).

Definition claim_import (attempt : Z) : lp unit :=
  s ← stream;
  _ ← lift (fail_if (attempt <=? last_import s) (Configuration "layer import identity reused"));
  update_stream (λ s, set_marks (last_ticket s) (last_scene s) attempt s).

Definition layer_request (request : LayerRequest) (fds : list fd) : lp unit :=
  s ← stream;
  _ ← lift (fail_if (bool_decide (is_Some (waiting s)) && negb (served_while_waiting request))
              (Configuration "layer scene already waiting"));
  match request with
  | StageBatch layers => stage_batch layers fds
  | CommitBatch scene serial width height count layers =>
      _ ← claim_scene scene;
      _ ← stage_batch layers fds;
      submit_layer_scene (mkCommit (Some scene) serial width height count)
  | CommitAsync scene serial width height count =>
      _ ← claim_scene scene;
      submit_layer_scene (mkCommit (Some scene) serial width height count)
  | Commit serial width height count =>
      submit_layer_scene (mkCommit None serial width height count)
  | SubscribeConfig => subscribe_config
  | Config => query_config
  | Register metadata => register metadata None fds
  | RegisterAsync attempt metadata =>
      _ ← claim_import attempt;
      register metadata (Some attempt) fds
  | Unregister id => unregister id
  | Stage layer =>
      s ← stream;
      let '(staging, accepted) := push layer (head fds) (staged s) in
      _ ← update_stream (set_staged staging);
      ack (if accepted : bool then 0 else -7)
  | StageAsync layer =>
      update_stream (λ s, set_staged (push layer (head fds) (staged s)).1 s)
  | AbortScene => abort_scene
  end.

(** ** Imports, the socket and the releases of one task *)

(** [layer_imported] for a stream that may own [params]: [None] when it does not,
    else whether the reply failed and whether requests resume. *)
Definition layer_imported (params : Z) (buffer : option Z) : lp (option (bool * bool)) :=
  s ← stream;
  match imports_finish params (imports s) with
  | (_, None) => mret None
  | (rest, Some pending) =>
      let id := im_buffer pending in
      _ ← update_stream (set_imports rest);
      _ ← emit (DestroyParams (im_params pending));
      code ← match buffer with
             | Some b =>
                 _ ← lift (ok_or (buffers s !! id) Panicked);
                 _ ← update_source id (set_imported (Some b));
                 mret 0
             | None =>
                 _ ← update_stream (λ s, set_buffers (delete id (buffers s)) s);
                 mret (-95)
             end;
      failed ← (if connected s then
                  r ← attempt (answer_import (im_attempt pending) id code);
                  mret (negb (is_ok r))
                else mret false);
      mret (Some (failed, bool_decide (im_attempt pending = None)))
  end.

(** SurfaceFlinger closed its request socket: the children leave the screen and
    the reads in flight stay until the compositor releases them. *)
Definition disconnect : lp unit :=
  _ ← update_stream (set_connected false);
  _ ← update_stream (set_waiting None);
  _ ← clear_staged;
  _ ← hide;
  k ← task;
  match lt_root k with
  | Some root => emit (CommitSurface root)
  | None => mret tt
  end.

(** The requests before which the endpoint's socket is drained. *)
Definition is_barrier (r : LayerRequest) : bool :=
  match r with
  | Commit _ _ _ _ | CommitAsync _ _ _ _ _ | CommitBatch _ _ _ _ _ _ | Config | SubscribeConfig => true
  | _ => false
  end.

(** One iteration of the request loop of [drain_layers]; [false] leaves the
    loop.  [drain_endpoint] is the endpoint's work on this state. *)
Definition serve_request (drain_endpoint : lp unit) : lp bool :=
  s ← stream;
  if negb (connected s) || imports_blocked (imports s) then mret false
  else
    r ← attempt (on_kernel IpcFailed
                   (@receive_record_into K (po_socket Requests) MAX_LAYER_PACKET));
    match r with
    | Err (IpcFailed (Io e)) => if e =? EAGAIN then mret false else throw (IpcFailed (Io e))
    | Err (IpcFailed PeerClosed) => _ ← disconnect; mret false
    | Err e => throw e
    | Ok record =>
        request ← lift (map_err (λ _, Configuration "invalid layer stream record")
                          (decode (rr_bytes record) (zlen (rr_descriptors record))));
        _ ← when (is_barrier request) drain_endpoint;
        _ ← layer_request request (rr_descriptors record);
        mret true
    end.

(** [for _ in 0..128]. *)
Fixpoint serve_requests (drain_endpoint : lp unit) (n : nat) : lp unit :=
  match n with
  | O => mret tt
  | S n =>
      more ← serve_request drain_endpoint;
      if more : bool then serve_requests drain_endpoint n else mret tt
  end.

(** The release pass of [drain_layers], which retries a waiting commit. *)
Definition serve_releases : lp unit :=
  _ ← release;
  s ← stream;
  match waiting s with
  | None => mret tt
  | Some commit =>
      _ ← update_stream (set_waiting None);
      submit_layer_scene commit
  end.

(** The configuration pass of [drain_layers]; [true] asks for a release pass. *)
Definition publish_config : lp bool :=
  k ← task;
  s ← stream;
  if negb (connected s) then mret false
  else
    words ← on_configuration (LayerStream.update (config_of k));
    _ ← match words with
        | Some words => send Events (ConfigEvent words)
        | None => mret tt
        end;
    mret (bool_decide (is_Some (waiting s))).

(** [poll_fallback]: a read whose wakeups the kernel does not provide. *)
Definition poll_fallback (s : Stream) : bool :=
  existsb (λ r,
    match buffers s !! rd_buffer r with
    | None => false
    | Some b =>
        match sr_lanes b !! rd_lane r with
        | None => false
        | Some lane =>
            (connected s && negb (rd_fence_sent r)
             && bool_decide (fw_event (ln_availability lane) = None))
            || bool_decide (ln_release_wakeup lane = None)
        end
    end) (reads s).

(** [busy]: the task cannot be removed yet. *)
Definition stream_busy (s : Stream) : bool := negb (bool_decide (reads s = [])).

End app.

End presenter.
