(* ===== verification/LayerLanes.v ===== *)
(** * The lanes of the layer presenter

    What the operations on one lane do to its timeline: which cursors move,
    that fresh points are never refused, and that the wakeups leave the
    cursors alone.  The errors a presenter that follows its own rules can
    never produce are the [internal_error]s. *)

From S2P Require Import Prelude Hoare Syncobj Ipc SurfaceBridge LayerStream FrameGrants LayerPresenter.

(** A panic, a point used twice, or a scene that contradicts its assessment. *)
Definition internal_error (e : LayerError) : bool :=
  match e with
  | Panicked => true
  | SyncFailed ZeroPoint | SyncFailed (PointRegression _ _) => true
  | Configuration what =>
      bool_decide (what ∈ ["relabelled layer read is not outstanding";
                           "layer transform"; "layer task has no logical size"]%string)
  | _ => false
  end.

Definition external (e : LayerError) : Prop := internal_error e = false.

(** The part of a lane that orders its points. *)
Record lane_core : Type := mkCore {
  lc_attached : Z;
  lc_signalled : Z;
  lc_exported : Z;
  lc_next : Z
}.

Definition core (l : Lane) : lane_core :=
  mkCore (last_attached_point (ln_timeline l)) (last_signalled_point (ln_timeline l))
    (last_exported_point (ln_timeline l)) (ln_next_point l).

(** Every point used so far is at most [next_point]. *)
Definition core_ok (c : lane_core) : Prop :=
  0 ≤ lc_attached c ≤ lc_next c ∧ 0 ≤ lc_signalled c ≤ lc_next c ∧ 0 ≤ lc_exported c ≤ lc_next c.

Definition lane_ok (l : Lane) : Prop := core_ok (core l).

Section lanes.

Context {K : Type} `{PresenterOps K}.

Implicit Types (k : K) (l : Lane) (w : K * Lane).

(** A lane method that keeps the core and fails only for reasons outside the
    presenter. *)
Definition keeps_core {A} (m : lane_method A) (w : K * Lane) : Prop :=
  wp m (λ _ w', core w'.2 = core w.2 ∧ ln_proxy w'.2 = ln_proxy w.2) external w.

Lemma wp_on_timeline {A} (m : tl_method A) (Q : A → K * Lane → Prop) R w :
  (∀ k t a, m (w.1, ln_timeline w.2) = ((k, t), Ok a) →
     Q a (k, mkLane t (ln_proxy w.2) (ln_next_point w.2) (ln_release_wakeup w.2)
               (ln_availability w.2))) →
  (∀ s e, m (w.1, ln_timeline w.2) = (s, Err e) → R (SyncFailed e)) →
  wp (on_timeline m) Q R w.
Proof.
  intros HQ HR. unfold wp, on_timeline. destruct (m _) as [[k t] [a|e]] eqn:E; cbn; eauto.
Qed.

Lemma external_drm e : is_drm e → external (SyncFailed e).
Proof. by intros (op & n & ->). Qed.

(** The cursors after a call that keeps them. *)
Lemma core_of_cursors k t l :
  cursors (k, t) = cursors (k, ln_timeline l) →
  core (mkLane t (ln_proxy l) (ln_next_point l) (ln_release_wakeup l) (ln_availability l)) = core l.
Proof. unfold cursors, core. cbn. intros [= _ -> -> ->]. done. Qed.

Lemma core_set k t l h a s e :
  cursors (k, t) = (h, a, s, e) →
  core (mkLane t (ln_proxy l) (ln_next_point l) (ln_release_wakeup l) (ln_availability l))
  = mkCore a s e (ln_next_point l).
Proof. unfold cursors, core. cbn. intros [= _ -> -> ->]. done. Qed.

(** A call guarded by one fresh point fails only in the kernel. *)
Lemma newer_then {A} p q (m : tl_method A) (s : K * Syncobj.Timeline) s' e :
  p < q → q ≠ 0 → (∀ s1 s2 e, m s1 = (s2, Err e) → is_drm e) →
  (_ ← lift (require_newer p q); m) s = (s', Err e) → is_drm e.
Proof.
  intros Hp Hq Hm. rewrite (proj2 (require_newer_Ok p q tt)) by done.
  intros [?|(s1 & a & _ & Hr)]%m_bind_Err; [done|]. by eapply Hm.
Qed.

Lemma attach_Err p f (w w' : K * Syncobj.Timeline) e :
  p ≠ 0 → Z.max (last_attached_point w.2) (last_signalled_point w.2) < p →
  attach_sync_file p f w = (w', Err e) → is_drm e.
Proof.
  intros Hp Hl. unfold attach_sync_file.
  intros [?|(w1 & a & [-> ->]%m_get_Ok & Hr)]%m_bind_Err; [done|].
  rewrite (proj2 (require_newer_Ok _ _ tt)) in Hr by done.
  apply m_bind_Err in Hr as [?|(w1 & a & _ & Hr)]; [done|].
  apply m_bind_Err in Hr as [Hr|(w2 & h & _ & Hr)]; [by apply transfer_handle_Err in Hr|].
  apply m_bind_Err in Hr as [Hr|(w3 & ? & _ & Hr)]; [by apply on_kernel_Err in Hr|].
  apply m_bind_Err in Hr as [Hr|(w4 & ? & _ & Hr)]; [by apply on_kernel_Err in Hr | done].
Qed.

Lemma wait_export_Err p t (w w' : K * Syncobj.Timeline) e :
  p ≠ 0 → last_exported_point w.2 < p → wait_available_and_export p t w = (w', Err e) → is_drm e.
Proof.
  intros Hp Hl. unfold wait_available_and_export.
  intros [?|(w1 & a & [-> ->]%m_get_Ok & Hr)]%m_bind_Err; [done|].
  rewrite (proj2 (require_newer_Ok _ _ tt)) in Hr by done.
  apply m_bind_Err in Hr as [?|(w1 & a & [-> _]%m_lift_Ok & Hr)]; [done|].
  apply m_bind_Err in Hr as [Hr|(w2 & h & Hw & Hr)]; [by apply on_kernel_Err in Hr|].
  apply (keeps_run cursors) in Hw; [|apply _]. unfold cursors in Hw.
  refine (export_Err p w2 _ _ Hp _ Hr). injection Hw as _ _ _ Hw. lia.
Qed.

Lemma wait_export_core p t (w w' : K * Syncobj.Timeline) f :
  wait_available_and_export p t w = (w', Ok f) →
  cursors w' = (Syncobj.tl_handle w.2, last_attached_point w.2, last_signalled_point w.2, p).
Proof.
  unfold wait_available_and_export. intros Hr. inv_method.
  apply (keeps_run cursors) in Hm1; [|apply _]. apply export_Ok in Hr as (_ & _ & ->).
  unfold cursors in Hm1. congruence.
Qed.

(** *** Exporting and querying the release *)

(** A fence is exported for a point that was not exported before; a point
    without a fence leaves everything as it was. *)
Lemma try_export_wp p (Q : option fd → K * Lane → Prop) w :
  p ≠ 0 → lc_exported (core w.2) < p →
  (∀ w', core w'.2 = core w.2 → Q None w') →
  (∀ w' f, core w'.2 = mkCore (lc_attached (core w.2)) (lc_signalled (core w.2)) p
                         (lc_next (core w.2)) → Q (Some f) w') →
  wp (on_timeline (try_export_release_fence p)) Q external w.
Proof.
  intros Hp Hl HN HS. destruct w as [k l]. cbn in *. unfold wp, on_timeline, try_export_release_fence.
  cbn. destruct (wait_available_and_export _ _ _) as [[k' t] [f|e]] eqn:E; cbn.
  - apply HS. apply wait_export_core in E. by eapply core_set.
  - assert (Hd : is_drm e) by (by eapply wait_export_Err in E).
    apply (keeps_err (g := cursors)) in E. destruct Hd as (op & n & ->).
    destruct (n =? ETIME); cbn; [|done]. apply HN. cbn. by apply (core_of_cursors k').
Qed.

Lemma signalled_wp (Q : Z → K * Lane → Prop) w :
  (∀ n w', core w'.2 = core w.2 → Q n w') →
  wp (on_timeline signalled_point) Q external w.
Proof.
  intros HQ. apply wp_on_timeline.
  - intros k t a E. apply HQ. apply (keeps_run cursors) in E; [|unfold signalled_point; apply _].
    by apply (core_of_cursors k).
  - intros s e E. apply external_drm. unfold signalled_point in E.
    apply m_bind_Err in E as [?|(w1 & a & [-> ->]%m_get_Ok & Hr)]; [done|]. by apply on_kernel_Err in Hr.
Qed.

(** *** Wakeups *)

Lemma notify_Err avail p event op (s : K * Syncobj.Timeline) s' e :
  0 < p →
  (_ ← lift (require_newer 0 p); w ← get;
   Syncobj.on_kernel (drm_error op (syncobj_eventfd (Syncobj.tl_handle w.2) p event avail))) s
  = (s', Err e) → is_drm e.
Proof.
  intros Hp. apply (newer_then 0 p); [lia..|]. intros s1 s2 e' Hr.
  apply m_bind_Err in Hr as [?|(w1 & a & [-> ->]%m_get_Ok & Hr)]; [done|]. by apply on_kernel_Err in Hr.
Qed.

Lemma register_keeps (m : tl_method unit) unsupported w :
  (Keeps cursors m) → (∀ s s' e, m s = (s', Err e) → is_drm e) →
  (∀ l, core (unsupported l) = core l ∧ ln_proxy (unsupported l) = ln_proxy l) →
  keeps_core (register_wakeup m unsupported) w.
Proof.
  intros Hk He Hu. unfold keeps_core, register_wakeup. wp_steps. apply wp_attempt. intros w' r Hr.
  unfold on_timeline in Hr. destruct (m _) as [[k t] r'] eqn:E. injection Hr as <- <-.
  assert (Hc : core (mkLane t (ln_proxy w.2) (ln_next_point w.2) (ln_release_wakeup w.2)
                       (ln_availability w.2)) = core w.2).
  { apply (keeps_run cursors) in E; [|done]. by apply (core_of_cursors k). }
  destruct r' as [[]|e]; cbn [map_err]; [by apply wp_ret|].
  apply He in E as (op & n & ->). destruct (unsupported_errno n); [|done].
  apply wp_modify. cbn. destruct (Hu (mkLane t (ln_proxy w.2) (ln_next_point w.2)
    (ln_release_wakeup w.2) (ln_availability w.2))) as [-> ->]. done.
Qed.

#[local] Instance notify_signalled_keeps p e : Keeps cursors (@notify_when_signalled K _ p e).
Proof. unfold notify_when_signalled. repeat (apply Keeps_bind; [apply _|intros]). apply _. Qed.
#[local] Instance notify_available_keeps p e : Keeps cursors (@notify_when_available K _ p e).
Proof. unfold notify_when_available. repeat (apply Keeps_bind; [apply _|intros]). apply _. Qed.

Lemma arm_release_keeps p w : 0 < p → keeps_core (arm_release_wakeup p) w.
Proof.
  intros Hp. unfold keeps_core, arm_release_wakeup. wp_steps.
  destruct (ln_release_wakeup w.2); [|by apply wp_ret].
  apply register_keeps; [apply _| |done]. intros s s' e. by apply notify_Err.
Qed.

Lemma lane_kernel_wp {E A} (wrap : E → LayerError) (m : K → K * result E A) Q (R : LayerError → Prop) w :
  (∀ k a, Q a (k, w.2)) → (∀ e, R (wrap e)) → wp (lane_kernel wrap m) Q R w.
Proof. intros HQ HR. unfold wp, lane_kernel. destruct (m w.1) as [k [a|e]]; cbn; auto. Qed.

Lemma arm_availability_keeps p w : 0 < p → keeps_core (arm_availability p) w.
Proof.
  intros Hp. unfold keeps_core, arm_availability. wp_steps.
  destruct (fw_unsupported _); [by apply wp_ret|]. wp_step.
  apply (wp_mono _ (λ _ w', core w'.2 = core w.2 ∧ ln_proxy w'.2 = ln_proxy w.2) _ external);
    [|intros event w1 [Hc1 Hp1]|done].
  { destruct (fw_event _); [by apply wp_ret|]. wp_step. apply lane_kernel_wp; [|done].
    intros k event. by wp_steps. }
  wp_step. apply wp_attempt. intros w2 r Hr.
  assert (w2.2 = w1.2 ∧ ∀ e, r = Err e → ∃ n, e = HostFailed n) as [Hw2 Hr2].
  { unfold lane_kernel in Hr. destruct (po_eventfd_read event w1.1) as [k [?|?]]; injection Hr as <- <-;
      split; eauto; intros ? [= <-]; eauto. }
  wp_step. apply (wp_mono _ (λ _ w', w' = w2) _ external).
  - destruct r as [?|e]; [by apply wp_ret|]. destruct (Hr2 e) as [n ->]; [done|].
    destruct (n =? EAGAIN); [by apply wp_ret|by apply wp_throw].
  - intros _ ? ->. eapply wp_mono; [apply register_keeps; [apply _| |done]| |done].
    + intros s s' e. by apply notify_Err.
    + cbn. intros _ w3 [-> ->]. by rewrite Hw2, Hc1.
  - done.
Qed.

(** *** A new read *)

(** The read gets the next two points, the acquire fence takes the first and
    nothing that was used before is used again. *)
Lemma begin_read_wp acquire (Q : Z * Z * Z → K * Lane → Prop) w :
  lane_ok w.2 →
  (∀ w', lane_ok w'.2 → ln_proxy w'.2 = ln_proxy w.2 →
     lc_next (core w'.2) = lc_next (core w.2) + 2 →
     lc_exported (core w'.2) = lc_exported (core w.2) →
     Q (ln_proxy w.2, lc_next (core w.2) + 1, lc_next (core w.2) + 2) w') →
  wp (begin_read acquire) Q external w.
Proof.
  intros Hok HQ. unfold begin_read. do 2 wp_step. wp_step. apply wp_lift.
  unfold next_points, checked_add.
  destruct (Z.leb_spec (ln_next_point w.2 + 1) u64_max); cbn; [|done].
  destruct (Z.leb_spec (ln_next_point w.2 + 1 + 1) u64_max); cbn; [|done].
  set (n := ln_next_point w.2) in *.
  assert (Hn : 0 ≤ n) by (destruct Hok as [? _]; subst n; unfold core in *; cbn in *; lia).
  wp_step. apply (wp_mono _ (λ _ w', core w'.2 = mkCore
    (match acquire with Some _ => n + 1 | None => lc_attached (core w.2) end)
    (match acquire with Some _ => lc_signalled (core w.2) | None => n + 1 end)
    (lc_exported (core w.2)) n ∧ ln_proxy w'.2 = ln_proxy w.2) _ external);
    [|intros _ w1 [Hc Hp]|done].
  { unfold lane_ok, core_ok, core in Hok; cbn in Hok. fold n in Hok.
    destruct acquire as [f|]; apply wp_on_timeline.
    - intros k t a (_ & _ & E)%attach_Ok. split; [|done]. by eapply core_set.
    - intros s e E. apply external_drm. eapply attach_Err in E; [done|lia|cbn; lia].
    - intros k t a (_ & _ & E)%signal_Ok. split; [|done]. by eapply core_set.
    - intros s e E. apply external_drm. eapply signal_Err in E; [done|lia|cbn; lia]. }
  wp_step. apply wp_modify. wp_step.
  eapply wp_mono; [apply arm_release_keeps; lia| |done]. intros _ w2 [Hc2 Hp2].
  wp_step. eapply wp_mono; [apply arm_availability_keeps; lia| |done]. intros _ w3 [Hc3 Hp3].
  apply wp_ret. replace (n + 1 + 1) with (n + 2) in * by lia. change n with (lc_next (core w.2)).
  assert (Hcore : core w3.2 = mkCore (lc_attached (core w1.2)) (lc_signalled (core w1.2))
    (lc_exported (core w1.2)) (n + 2)) by (rewrite Hc3, Hc2; done).
  rewrite Hc in Hcore. cbn in Hcore.
  apply HQ; [|by rewrite Hp3, Hp2| by rewrite Hcore | by rewrite Hcore].
  unfold lane_ok, core_ok in *. rewrite Hcore. cbn. fold n in Hok. destruct acquire; cbn in *; lia.
Qed.

End lanes.
