(* ===== verification/LayerReads.v ===== *)
(** * The reads of a layer stream

    The invariant that makes reuse of allocations safe, over the cached
    allocations, the reads in flight and the newest ticket: every read owns the
    last point of its lane, a fence that was not sent was not exported, tickets
    are unique, and the ticket of an allocation names a read in flight.  Each
    lemma is one change the presenter makes. *)

From S2P Require Import Prelude Hoare Syncobj SurfaceBridge LayerStream LayerPresenter LayerLanes.

Section reads.

Implicit Types (bs : gmap Z Source) (rs : list Read) (r : Read) (b : Source) (l : Lane).

(** The lane a read runs on. *)
Definition lane_of bs (id : Z) (lane : nat) : option Lane :=
  b ← bs !! id; sr_lanes b !! lane.

Record reads_inv bs rs (last : Z) : Prop := {
  ri_lanes : ∀ id lane l, lane_of bs id lane = Some l → lane_ok l;
  ri_read : ∀ r, r ∈ rs → ∃ l, lane_of bs (rd_buffer r) (rd_lane r) = Some l
    ∧ rd_point r = ln_next_point l ∧ 0 < rd_point r
    ∧ (rd_fence_sent r = false → lc_exported (core l) < rd_point r);
  ri_imported : ∀ r b, r ∈ rs → bs !! rd_buffer r = Some b → is_Some (sr_buffer b);
  ri_last : ∀ r, r ∈ rs → rd_ticket r ≤ last;
  ri_unique : NoDup (rd_ticket <$> rs);
  ri_held : ∀ id b t, bs !! id = Some b → sr_ticket b = Some t →
    ∃ r, r ∈ rs ∧ rd_buffer r = id ∧ rd_ticket r = t
}.

(** Two reads of one lane wait for the same point. *)
Lemma same_lane_point bs rs last r r' :
  reads_inv bs rs last → r ∈ rs → r' ∈ rs → rd_buffer r = rd_buffer r' → rd_lane r = rd_lane r' →
  rd_point r = rd_point r'.
Proof.
  intros Hi Hr Hr' Hb Hl. destruct (ri_read _ _ _ Hi r Hr) as (l1 & H1 & -> & _).
  destruct (ri_read _ _ _ Hi r' Hr') as (l2 & H2 & -> & _). congruence.
Qed.

Lemma reads_inv_perm bs rs rs' last :
  rs ≡ₚ rs' → reads_inv bs rs last → reads_inv bs rs' last.
Proof.
  intros Hp [H1 H2 H3 H4 H5 H6].
  assert (Hin : ∀ r, r ∈ rs' → r ∈ rs) by (intros r; by rewrite Hp).
  split; [done|by auto|by eauto|by auto|by rewrite <- Hp|].
  intros id b t Hb Ht. destruct (H6 _ _ _ Hb Ht) as (x & Hx & ?). rewrite Hp in Hx. eauto.
Qed.

(** *** Lanes *)

Lemma lane_of_insert bs id b b' i lane :
  bs !! id = Some b →
  lane_of (<[id := b']> bs) i lane = if decide (i = id) then sr_lanes b' !! lane else lane_of bs i lane.
Proof.
  intros _. unfold lane_of. case_decide; subst.
  - by rewrite lookup_insert_eq.
  - by rewrite lookup_insert_ne.
Qed.

(** The source with one lane replaced, as [on_lane] writes it back. *)
Definition with_lane (lane : nat) l b : Source :=
  mkSourceEntry (sr_metadata b) (sr_buffer b) (<[lane := l]> (sr_lanes b)) (sr_ticket b).

Lemma lane_of_with bs id b lane l i j :
  bs !! id = Some b → is_Some (sr_lanes b !! lane) →
  lane_of (<[id := with_lane lane l b]> bs) i j =
    if decide (i = id ∧ j = lane) then Some l else lane_of bs i j.
Proof.
  intros Hb Hl. rewrite (lane_of_insert _ _ b) by done. cbn. unfold lane_of.
  destruct (decide (i = id)) as [->|Hi].
  - destruct (decide (j = lane)) as [->|Hj].
    + rewrite decide_True by done. apply list_lookup_insert_eq. by apply lookup_lt_is_Some.
    + rewrite decide_False by naive_solver. rewrite list_lookup_insert_ne by done. by rewrite Hb.
  - by rewrite decide_False by naive_solver.
Qed.

Lemma reads_inv_with_lane bs rs last id b lane l l' :
  reads_inv bs rs last → bs !! id = Some b → sr_lanes b !! lane = Some l → lane_ok l' →
  (∀ r, r ∈ rs → rd_buffer r = id → rd_lane r = lane →
     ln_next_point l' = ln_next_point l
     ∧ (rd_fence_sent r = false → lc_exported (core l') < rd_point r)) →
  reads_inv (<[id := with_lane lane l' b]> bs) rs last.
Proof.
  intros [H1 H2 H3 H4 H5 H6] Hb Hl Hok Hr.
  assert (Hlane := λ i j, lane_of_with bs id b lane l' i j Hb ltac:(by rewrite Hl)).
  split; [| |  |done|done|].
  - intros i j x. rewrite Hlane. case_decide; [by intros [= <-]|apply H1].
  - intros r Hin. destruct (H2 r Hin) as (x & Hx & Hp & Hpos & Hs). rewrite Hlane.
    case_decide as Hd; [|by eauto]. destruct Hd as [Hbuf Hln]. exists l'.
    destruct (Hr r Hin Hbuf Hln) as [Hn He]. unfold lane_of in Hx. rewrite Hbuf, Hb in Hx. cbn in Hx.
    split_and!; [done| |done|done]. rewrite Hln, Hl in Hx. injection Hx as <-. congruence.
  - intros r b0 Hin. destruct (decide (rd_buffer r = id)) as [Hd|Hd].
    + rewrite Hd, lookup_insert_eq. intros [= <-]. cbn. apply (H3 r); [done|by rewrite Hd].
    + rewrite lookup_insert_ne by done. by apply H3.
  - intros i b0 t. destruct (decide (i = id)) as [->|Hd].
    + rewrite lookup_insert_eq. intros [= <-]. intros Ht. by apply (H6 _ b).
    + rewrite lookup_insert_ne by done. apply H6.
Qed.

Lemma reads_inv_core bs rs last id b lane l l' :
  reads_inv bs rs last → bs !! id = Some b → sr_lanes b !! lane = Some l → core l' = core l →
  reads_inv (<[id := with_lane lane l' b]> bs) rs last.
Proof.
  intros Hi Hb Hl Hc. assert (Hx : lane_of bs id lane = Some l) by (unfold lane_of; by rewrite Hb).
  eapply reads_inv_with_lane; [done..| |].
  - unfold lane_ok. rewrite Hc. by apply (ri_lanes _ _ _ Hi id lane).
  - intros r Hr <- <-. destruct (ri_read _ _ _ Hi r Hr) as (x & Hx' & Hp & _ & Hs).
    rewrite Hx in Hx'. injection Hx' as <-. split; [|by rewrite Hc].
    change (lc_next (core l') = lc_next (core l)). by rewrite Hc.
Qed.

Lemma reads_inv_push_lane bs rs last id l :
  reads_inv bs rs last → lane_ok l → reads_inv (alter (push_lane l) id bs) rs last.
Proof.
  intros [H1 H2 H3 H4 H5 H6] Hok.
  assert (Hlane : ∀ i j x, lane_of bs i j = Some x → lane_of (alter (push_lane l) id bs) i j = Some x).
  { unfold lane_of. intros i j x. destruct (decide (i = id)) as [->|].
    - rewrite lookup_alter_eq. destruct (bs !! id); cbn; [|done]. apply lookup_app_l_Some.
    - by rewrite lookup_alter_ne. }
  split; [| | |done|done|].
  - intros i j x. unfold lane_of. destruct (decide (i = id)) as [->|].
    + rewrite lookup_alter_eq. destruct (bs !! id) as [b|] eqn:Hb; cbn; [|done].
      rewrite lookup_app_Some. intros [Hx|[_ Hx]].
      * apply (H1 id j). unfold lane_of. by rewrite Hb.
      * apply list_elem_of_lookup_2, list_elem_of_singleton in Hx. by subst.
    + rewrite lookup_alter_ne by done. apply H1.
  - intros r Hr. destruct (H2 r Hr) as (x & Hx & Hrest). exists x. auto.
  - intros r b Hr. destruct (decide (rd_buffer r = id)) as [Hd|].
    + rewrite Hd, lookup_alter_eq. destruct (bs !! id) as [b0|] eqn:Hb; cbn; [|done]. intros [= <-].
      cbn. apply (H3 r); [done|by rewrite Hd].
    + rewrite lookup_alter_ne by done. by apply H3.
  - intros i b t. destruct (decide (i = id)) as [->|].
    + rewrite lookup_alter_eq. destruct (bs !! id) as [b0|] eqn:Hb; cbn; [|done]. intros [= <-]. cbn.
      by eapply H6.
    + rewrite lookup_alter_ne by done. apply H6.
Qed.

(** *** Reads *)

Lemma lane_of_ticket bs id t i j : lane_of (alter (set_ticket t) id bs) i j = lane_of bs i j.
Proof.
  unfold lane_of. destruct (decide (i = id)) as [->|].
  - rewrite lookup_alter_eq. by destruct (bs !! id).
  - by rewrite lookup_alter_ne.
Qed.

(** A change of tickets keeps everything but the names of the newest reads. *)
Lemma lookup_ticket bs id t i b :
  alter (set_ticket t) id bs !! i = Some b →
  ∃ b0, bs !! i = Some b0 ∧ sr_buffer b = sr_buffer b0 ∧ sr_lanes b = sr_lanes b0
    ∧ sr_metadata b = sr_metadata b0 ∧ sr_ticket b = if decide (i = id) then t else sr_ticket b0.
Proof.
  destruct (decide (i = id)) as [->|].
  - rewrite lookup_alter_eq. destruct (bs !! id) as [b0|]; cbn; [|done]. intros [= <-]. eauto 6.
  - rewrite lookup_alter_ne by done. eauto 6.
Qed.

Lemma reads_inv_add bs rs last r l :
  reads_inv bs rs last → lane_of bs (rd_buffer r) (rd_lane r) = Some l →
  (∀ b, bs !! rd_buffer r = Some b → is_Some (sr_buffer b)) →
  rd_point r = ln_next_point l → 0 < rd_point r →
  (rd_fence_sent r = false → lc_exported (core l) < rd_point r) →
  rd_ticket r ∉ rd_ticket <$> rs →
  reads_inv (alter (set_ticket (Some (rd_ticket r))) (rd_buffer r) bs) (rs ++ [r])
    (Z.max last (rd_ticket r)).
Proof.
  intros [H1 H2 H3 H4 H5 H6] Hl Hb Hp Hpos He Ht. split.
  - intros i j x. rewrite lane_of_ticket. apply H1.
  - intros r' [Hr|Hr]%elem_of_app; rewrite lane_of_ticket; [by apply H2|].
    apply list_elem_of_singleton in Hr as ->. eauto.
  - intros r' b Hr (b0 & Hb0 & -> & _)%lookup_ticket.
    apply elem_of_app in Hr as [Hr|Hr]; [by eapply H3|].
    apply list_elem_of_singleton in Hr as ->. by eapply Hb.
  - intros r' [Hr|Hr]%elem_of_app; [specialize (H4 r' Hr); lia|].
    apply list_elem_of_singleton in Hr as ->. lia.
  - rewrite fmap_app. apply NoDup_app. split_and!; [done| |apply NoDup_singleton].
    intros x Hx Hx'. apply list_elem_of_singleton in Hx'. by subst.
  - intros i b t (b0 & Hb0 & _ & _ & _ & ->)%lookup_ticket. setoid_rewrite elem_of_app. case_decide.
    + intros [= <-]. exists r. subst. split_and!; [right; by apply list_elem_of_singleton|done..].
    + intros Hi. destruct (H6 _ _ _ Hb0 Hi) as (x & ? & ?). eauto.
Qed.

(** A read ends: its allocation forgets its ticket if it is the newest. *)
Definition end_ticket (t : Z) b : Source :=
  if bool_decide (sr_ticket b = Some t) then set_ticket None b else b.

Lemma end_ticket_fields t b :
  sr_lanes (end_ticket t b) = sr_lanes b ∧ sr_buffer (end_ticket t b) = sr_buffer b
  ∧ sr_metadata (end_ticket t b) = sr_metadata b
  ∧ ∀ t', sr_ticket (end_ticket t b) = Some t' ↔ sr_ticket b = Some t' ∧ t' ≠ t.
Proof. unfold end_ticket. case_bool_decide; naive_solver. Qed.

Lemma reads_inv_end bs rs rs' last r :
  reads_inv bs rs last → rs ≡ₚ r :: rs' →
  reads_inv (alter (end_ticket (rd_ticket r)) (rd_buffer r) bs) rs' last.
Proof.
  intros Hi Hp. apply (reads_inv_perm _ _ _ _ Hp) in Hi as [H1 H2 H3 H4 H5 H6].
  assert (Hlook : ∀ i b, alter (end_ticket (rd_ticket r)) (rd_buffer r) bs !! i = Some b →
    ∃ b0, bs !! i = Some b0 ∧ sr_buffer b = sr_buffer b0
      ∧ ∀ t, sr_ticket b = Some t → sr_ticket b0 = Some t ∧ (i = rd_buffer r → t ≠ rd_ticket r)).
  { intros i b. destruct (decide (i = rd_buffer r)) as [->|].
    - rewrite lookup_alter_eq. destruct (bs !! rd_buffer r) as [b0|]; cbn; [|done]. intros [= <-].
      destruct (end_ticket_fields (rd_ticket r) b0) as (_ & ? & _ & Ht). exists b0. naive_solver.
    - rewrite lookup_alter_ne by done. intros ?. exists b. naive_solver. }
  assert (Hlane : ∀ i j, lane_of (alter (end_ticket (rd_ticket r)) (rd_buffer r) bs) i j = lane_of bs i j).
  { intros i j. unfold lane_of. destruct (decide (i = rd_buffer r)) as [->|].
    - rewrite lookup_alter_eq. destruct (bs !! rd_buffer r) as [b0|]; cbn; [|done].
      by destruct (end_ticket_fields (rd_ticket r) b0) as [-> _].
    - by rewrite lookup_alter_ne. }
  split.
  - intros i j x. rewrite Hlane. apply H1.
  - intros r' Hr. rewrite Hlane. apply H2. by right.
  - intros r' b Hr (b0 & Hb0 & -> & _)%Hlook. eapply H3; [by right|done].
  - intros r' Hr. apply H4. by right.
  - by apply NoDup_cons in H5 as [_ ?].
  - intros i b t (b0 & Hb0 & _ & Ht)%Hlook [Ht0 Hne]%Ht.
    destruct (H6 _ _ _ Hb0 Ht0) as (x & Hx & Hxb & Hxt).
    apply elem_of_cons in Hx as [->|Hx]; [|by eauto]. by destruct (Hne (eq_sym Hxb)).
Qed.

(** The fence of a point goes to every read of its lane at once. *)
Definition mark_sent (id : Z) (lane : nat) r : Read :=
  if occupies id lane r then with_fence_sent r else r.

Lemma mark_sent_fields id lane r :
  rd_buffer (mark_sent id lane r) = rd_buffer r ∧ rd_lane (mark_sent id lane r) = rd_lane r
  ∧ rd_ticket (mark_sent id lane r) = rd_ticket r ∧ rd_point (mark_sent id lane r) = rd_point r.
Proof. unfold mark_sent. by destruct (occupies _ _ _). Qed.

Lemma occupies_spec id lane r : occupies id lane r = true ↔ rd_buffer r = id ∧ rd_lane r = lane.
Proof. unfold occupies. rewrite andb_true_iff, Z.eqb_eq, Nat.eqb_eq. done. Qed.

Lemma reads_inv_mark bs rs last id lane :
  reads_inv bs rs last → reads_inv bs (mark_sent id lane <$> rs) last.
Proof.
  intros [H1 H2 H3 H4 H5 H6]. split; [done|..].
  - intros r (r0 & -> & Hr)%list_elem_of_fmap. destruct (mark_sent_fields id lane r0) as (-> & -> & _ & ->).
    destruct (H2 r0 Hr) as (l & Hl & Hp & Hpos & He). exists l. split_and!; [done..|].
    unfold mark_sent. by destruct (occupies _ _ _).
  - intros r b (r0 & -> & Hr)%list_elem_of_fmap. destruct (mark_sent_fields id lane r0) as (-> & _).
    by apply H3.
  - intros r (r0 & -> & Hr)%list_elem_of_fmap. destruct (mark_sent_fields id lane r0) as (_ & _ & -> & _).
    by apply H4.
  - rewrite <- list_fmap_compose. erewrite list_fmap_ext; [exact H5|]. intros i r _. cbn.
    by destruct (mark_sent_fields id lane r) as (_ & _ & -> & _).
  - intros i b t Hb Ht. destruct (H6 _ _ _ Hb Ht) as (r & Hr & <- & <-).
    exists (mark_sent id lane r). destruct (mark_sent_fields id lane r) as (-> & _ & -> & _).
    split; [by apply list_elem_of_fmap_2|done].
Qed.

(** Exporting a point and marking its reads. *)
Lemma reads_inv_export bs rs last id b lane l l' :
  reads_inv bs rs last → bs !! id = Some b → sr_lanes b !! lane = Some l →
  core l' = mkCore (lc_attached (core l)) (lc_signalled (core l)) (ln_next_point l)
              (ln_next_point l) →
  reads_inv (<[id := with_lane lane l' b]> bs) (mark_sent id lane <$> rs) last.
Proof.
  intros Hi Hb Hl Hc. assert (Hx : lane_of bs id lane = Some l) by (unfold lane_of; by rewrite Hb).
  eapply reads_inv_with_lane; [by apply reads_inv_mark|done..| |].
  - pose proof (ri_lanes _ _ _ Hi id lane l Hx) as Hok. unfold lane_ok, core_ok in *. rewrite Hc.
    cbn in *. lia.
  - intros r (r0 & -> & Hr)%list_elem_of_fmap. destruct (mark_sent_fields id lane r0) as (-> & -> & _).
    intros Hbuf Hlane. split.
    + change (lc_next (core l') = lc_next (core l)). by rewrite Hc.
    + unfold mark_sent. by rewrite (proj2 (occupies_spec id lane r0)) by done.
Qed.

(** *** Allocations *)

Lemma reads_inv_register bs rs last id b l :
  reads_inv bs rs last → bs !! id = None → sr_lanes b = [l] → sr_ticket b = None → lane_ok l →
  reads_inv (<[id := b]> bs) rs last.
Proof.
  intros [H1 H2 H3 H4 H5 H6] Hid Hl Ht Hok.
  assert (Hne : ∀ r, r ∈ rs → rd_buffer r ≠ id).
  { intros r Hr Hd. destruct (H2 r Hr) as (x & Hx & _). unfold lane_of in Hx. by rewrite Hd, Hid in Hx. }
  split; [| | |done|done|].
  - intros i j x. unfold lane_of. destruct (decide (i = id)) as [->|].
    + rewrite lookup_insert_eq. cbn. rewrite Hl. intros Hx%list_elem_of_lookup_2.
      apply list_elem_of_singleton in Hx. by subst.
    + rewrite lookup_insert_ne by done. apply H1.
  - intros r Hr. unfold lane_of. rewrite lookup_insert_ne by (apply not_eq_sym, Hne; done). by apply H2.
  - intros r b0 Hr. rewrite lookup_insert_ne by (apply not_eq_sym, Hne; done). by apply H3.
  - intros i b0 t. destruct (decide (i = id)) as [->|].
    + rewrite lookup_insert_eq. intros [= <-]. by rewrite Ht.
    + rewrite lookup_insert_ne by done. apply H6.
Qed.

Lemma reads_inv_forget bs rs last id :
  reads_inv bs rs last → (∀ r, r ∈ rs → rd_buffer r ≠ id) → reads_inv (delete id bs) rs last.
Proof.
  intros [H1 H2 H3 H4 H5 H6] Hne. split; [| | |done|done|].
  - intros i j x. unfold lane_of. destruct (decide (i = id)) as [->|].
    + by rewrite lookup_delete_eq.
    + rewrite lookup_delete_ne by done. apply H1.
  - intros r Hr. unfold lane_of. rewrite lookup_delete_ne by (apply not_eq_sym, Hne; done). by apply H2.
  - intros r b0 Hr. rewrite lookup_delete_ne by (apply not_eq_sym, Hne; done). by apply H3.
  - intros i b0 t [_ Hb]%lookup_delete_Some. by eapply H6.
Qed.

Lemma reads_inv_imported bs rs last id w :
  reads_inv bs rs last → reads_inv (alter (set_imported (Some w)) id bs) rs last.
Proof.
  intros [H1 H2 H3 H4 H5 H6].
  assert (Hlane : ∀ i j, lane_of (alter (set_imported (Some w)) id bs) i j = lane_of bs i j).
  { intros i j. unfold lane_of. destruct (decide (i = id)) as [->|].
    - rewrite lookup_alter_eq. by destruct (bs !! id).
    - by rewrite lookup_alter_ne. }
  split; [| | |done|done|].
  - intros i j x. rewrite Hlane. apply H1.
  - intros r Hr. rewrite Hlane. by apply H2.
  - intros r b Hr. destruct (decide (rd_buffer r = id)) as [->|].
    + rewrite lookup_alter_eq. destruct (bs !! id); cbn; [|done]. by intros [= <-].
    + rewrite lookup_alter_ne by done. by apply H3.
  - intros i b t. destruct (decide (i = id)) as [->|].
    + rewrite lookup_alter_eq. destruct (bs !! id) as [b0|] eqn:Hb; cbn; [|done]. intros [= <-] Ht. by apply (H6 _ b0).
    + rewrite lookup_alter_ne by done. apply H6.
Qed.

End reads.
