(* ===== verification/LayerViews.v ===== *)
(** * What the layer surfaces show

    The content of a surface as its requests define it, and the invariant that
    relates it to the presenter's views: a view that claims a read shows the
    buffer of that read's allocation, a view that claims a color shows a pixel
    of that color, and a hidden or spare view shows nothing. *)

From S2P Require Import Prelude Hoare Syncobj SurfaceBridge LayerStream LayerPresenter LayerLanes LayerReads.

(** ** Surfaces *)

(** The last buffer attached to [s], and the one its last commit applied; the
    log holds the newest request first. *)
Fixpoint attached (s : Z) (log : list WlRequest) : option (option Z) :=
  match log with
  | [] => None
  | Attach s' b :: log => if s' =? s then Some b else attached s log
  | _ :: log => attached s log
  end.

Fixpoint shown (s : Z) (log : list WlRequest) : option (option Z) :=
  match log with
  | [] => None
  | CommitSurface s' :: log => if s' =? s then attached s log else shown s log
  | _ :: log => shown s log
  end.

(** A request that changes what [s] shows or will show. *)
Definition touches (s : Z) (r : WlRequest) : bool :=
  match r with
  | Attach s' _ | CommitSurface s' => s' =? s
  | _ => false
  end.

Definition silent (r : WlRequest) : bool :=
  match r with Attach _ _ | CommitSurface _ => false | _ => true end.

Lemma attached_frame s l log : Forall (λ r, touches s r = false) l → attached s (l ++ log) = attached s log.
Proof. induction 1 as [|r l Hr _ IH]; [done|]. destruct r; cbn in *; try done. by rewrite Hr. Qed.

Lemma shown_frame s l log : Forall (λ r, touches s r = false) l → shown s (l ++ log) = shown s log.
Proof. induction 1 as [|r l Hr _ IH]; [done|]. destruct r; cbn in *; try done. by rewrite Hr. Qed.

Lemma silent_touches s l : Forall (λ r, silent r = true) l → Forall (λ r, touches s r = false) l.
Proof. intros Hl. eapply Forall_impl; [exact Hl|]. by intros []. Qed.

(** Nothing is on the screen. *)
Definition blank (s : Z) (log : list WlRequest) : Prop := attached s log = None ∨ attached s log = Some None.

(** ** Views *)

Section views.

Implicit Types (bs : gmap Z Source) (rs : list Read) (v : View) (log : list WlRequest).

(** The buffer behind a view's claim. *)
Definition claim_ok bs rs log v : Prop :=
  match vw_content v with
  | None => blank (vw_surface v) log
  | Some (SolidContent color) =>
      ∃ b, vw_solid v = Some (color, b) ∧ attached (vw_surface v) log = Some (Some b)
  | Some (BufferContent id ticket) =>
      ∀ b r, bs !! id = Some b → r ∈ rs → rd_buffer r = id → rd_ticket r = ticket →
        attached (vw_surface v) log = Some (sr_buffer b)
  end.

Record view_ok bs rs (last : Z) log v : Prop := {
  vo_claim : claim_ok bs rs log v;
  vo_settled : shown (vw_surface v) log = attached (vw_surface v) log;
  vo_pixel : ∀ color b, vw_solid v = Some (color, b) → CreatePixel b color ∈ log;
  vo_last : ∀ id ticket, view_source v = Some (id, ticket) → ticket ≤ last
}.

(** Requests on other surfaces do not matter. *)
Lemma view_ok_frame bs rs last log l v :
  Forall (λ r, touches (vw_surface v) r = false) l →
  view_ok bs rs last log v → view_ok bs rs last (l ++ log) v.
Proof.
  intros Hl [H1 H2 H3 H4]. split; [|by rewrite shown_frame, attached_frame| |done].
  - unfold claim_ok, blank in *. by rewrite attached_frame.
  - intros color b Hs. apply elem_of_app. right. by eapply H3.
Qed.

(** The claim survives every change that keeps the buffers behind the reads. *)
Lemma view_ok_reads bs rs last bs' rs' last' log v :
  view_ok bs rs last log v → last ≤ last' →
  (∀ id ticket b' r', view_source v = Some (id, ticket) → bs' !! id = Some b' → r' ∈ rs' →
     rd_buffer r' = id → rd_ticket r' = ticket →
     ∃ b r, bs !! id = Some b ∧ sr_buffer b = sr_buffer b' ∧ r ∈ rs ∧ rd_buffer r = id ∧ rd_ticket r = ticket) →
  view_ok bs' rs' last' log v.
Proof.
  intros [H1 H2 H3 H4] Hlast Hr. split; [|done|done|].
  - unfold claim_ok, view_source in *. destruct (vw_content v) as [[id ticket|]|]; [|done..].
    intros b' r' Hb Hin Hbuf Ht. destruct (Hr id ticket b' r') as (b & r & Hb0 & <- & Hr0 & ? & ?); [done..|].
    by eapply H1.
  - intros id ticket Hs. specialize (H4 id ticket Hs). lia.
Qed.

(** The surfaces of all views, in use and spare. *)
Definition surfaces (vs : gmap Z View) (spare : list View) : list Z :=
  (vw_surface <$> (map_to_list vs).*2) ++ (vw_surface <$> spare).

Definition idle_view v : Prop := vw_content v = None ∧ vw_geometry v = None.

Record views_inv bs rs (last : Z) log (next : Z) (vs : gmap Z View) (spare : list View) : Prop := {
  vi_distinct : NoDup (surfaces vs spare);
  vi_fresh : ∀ s, s ∈ surfaces vs spare → s < next;
  vi_bound : Z.of_nat (length (surfaces vs spare)) ≤ MAX_LAYERS;
  vi_views : ∀ id v, vs !! id = Some v → view_ok bs rs last log v;
  vi_spare : ∀ v, v ∈ spare → view_ok bs rs last log v ∧ idle_view v;
  vi_log : ∀ s, next ≤ s → attached s log = None ∧ shown s log = None
}.

Lemma surfaces_view vs spare id v : vs !! id = Some v → vw_surface v ∈ surfaces vs spare.
Proof.
  intros Hv. apply elem_of_app. left. apply list_elem_of_fmap_2, list_elem_of_fmap.
  exists (id, v). by rewrite elem_of_map_to_list.
Qed.

Lemma surfaces_spare vs spare v : v ∈ spare → vw_surface v ∈ surfaces vs spare.
Proof. intros Hv. apply elem_of_app. right. by apply list_elem_of_fmap_2. Qed.

Lemma surfaces_insert vs spare id v :
  vs !! id = None → surfaces (<[id := v]> vs) spare ≡ₚ vw_surface v :: surfaces vs spare.
Proof. intros Hv. unfold surfaces. by rewrite map_to_list_insert. Qed.

Lemma surfaces_delete vs spare id v :
  vs !! id = Some v → surfaces vs spare ≡ₚ vw_surface v :: surfaces (delete id vs) spare.
Proof.
  intros Hv. rewrite <- (insert_delete_id vs id v) at 1 by done.
  apply surfaces_insert, lookup_delete_eq.
Qed.

Lemma surfaces_update vs spare id v v' :
  vs !! id = Some v → vw_surface v' = vw_surface v →
  surfaces (<[id := v']> vs) spare ≡ₚ surfaces vs spare.
Proof.
  intros Hv Hs. rewrite (surfaces_delete _ _ id v Hv).
  rewrite <- insert_delete_eq, surfaces_insert by apply lookup_delete_eq. by rewrite Hs.
Qed.

Lemma alter_view (vs : gmap Z View) id v f : vs !! id = Some v → alter f id vs = <[id := f v]> vs.
Proof.
  intros Hv. apply map_eq. intros i. destruct (decide (i = id)) as [->|].
  - by rewrite lookup_alter_eq, lookup_insert_eq, Hv.
  - by rewrite lookup_alter_ne, lookup_insert_ne.
Qed.

Lemma surfaces_push vs spare v : surfaces vs (spare ++ [v]) ≡ₚ vw_surface v :: surfaces vs spare.
Proof. unfold surfaces. rewrite fmap_app, app_assoc. cbn. by rewrite Permutation_app_comm. Qed.

(** Two views never share a surface. *)
Lemma views_injective vs spare id1 id2 v1 v2 :
  NoDup (surfaces vs spare) → vs !! id1 = Some v1 → vs !! id2 = Some v2 →
  vw_surface v1 = vw_surface v2 → id1 = id2.
Proof.
  intros Hn H1 H2 He. destruct (decide (id1 = id2)) as [|Hne]; [done|].
  rewrite (surfaces_delete _ _ id1 v1) in Hn by done. apply NoDup_cons in Hn as [Hn _].
  destruct Hn. rewrite He. eapply (surfaces_view _ _ id2). by rewrite lookup_delete_ne.
Qed.

Lemma views_spare_distinct vs spare id v u :
  NoDup (surfaces vs spare) → vs !! id = Some v → u ∈ spare → vw_surface v ≠ vw_surface u.
Proof.
  intros Hn Hv Hu He. rewrite (surfaces_delete _ _ id v) in Hn by done.
  apply NoDup_cons in Hn as [Hn _]. apply Hn. rewrite He. by apply surfaces_spare.
Qed.

(** *** Changes *)

Lemma views_inv_frame bs rs last log l next next' vs spare :
  (∀ s, s ∈ surfaces vs spare ∨ next ≤ s → Forall (λ r, touches s r = false) l) → next ≤ next' →
  views_inv bs rs last log next vs spare → views_inv bs rs last (l ++ log) next' vs spare.
Proof.
  intros Hl Hnext [H1 H2 H3 H4 H5 H6]. split; [done| |done| | |].
  - intros s Hs. specialize (H2 s Hs). lia.
  - intros id v Hv. apply view_ok_frame; [|by eapply H4]. apply Hl. left. by eapply surfaces_view.
  - intros v Hv. destruct (H5 v Hv) as [Ho Hi]. split; [|done]. apply view_ok_frame; [|done].
    apply Hl. left. by apply surfaces_spare.
  - intros s Hs. rewrite attached_frame, shown_frame by (apply Hl; right; lia). apply H6. lia.
Qed.

Lemma views_inv_reads bs rs last bs' rs' last' log next vs spare :
  views_inv bs rs last log next vs spare → last ≤ last' →
  (∀ x v id ticket b' r', vs !! x = Some v → view_source v = Some (id, ticket) →
     bs' !! id = Some b' → r' ∈ rs' → rd_buffer r' = id → rd_ticket r' = ticket →
     ∃ b r, bs !! id = Some b ∧ sr_buffer b = sr_buffer b' ∧ r ∈ rs ∧ rd_buffer r = id ∧ rd_ticket r = ticket) →
  views_inv bs' rs' last' log next vs spare.
Proof.
  intros [H1 H2 H3 H4 H5 H6] Hlast Hr. split; [done..| | |done].
  - intros x v Hv. eapply view_ok_reads; [by eapply H4|done|]. intros. by eapply Hr.
  - intros v Hv. destruct (H5 v Hv) as [Ho [Hc Hg]]. split; [|done].
    eapply view_ok_reads; [done..|]. intros id ticket b' r'. unfold view_source. by rewrite Hc.
Qed.

(** A change of one view, with requests on its own surface only. *)
Lemma views_inv_update bs rs last log l next vs spare id v v' :
  views_inv bs rs last log next vs spare → vs !! id = Some v →
  vw_surface v' = vw_surface v →
  (∀ s, s ≠ vw_surface v → Forall (λ r, touches s r = false) l) →
  view_ok bs rs last (l ++ log) v' →
  views_inv bs rs last (l ++ log) next (<[id := v']> vs) spare.
Proof.
  intros Hi Hv Hs Hl Hok. pose proof Hi as [H1 H2 H3 H4 H5 H6].
  assert (Hp := surfaces_update vs spare id v v' Hv Hs).
  assert (Hlt := H2 _ (surfaces_view vs spare id v Hv)). split.
  - by rewrite Hp.
  - intros s. rewrite Hp. apply H2.
  - by rewrite Hp.
  - intros x u. destruct (decide (x = id)) as [->|Hx].
    + rewrite lookup_insert_eq. by intros [= <-].
    + rewrite lookup_insert_ne by done. intros Hu. apply view_ok_frame; [|by eapply H4].
      apply Hl. intros He. destruct Hx. by eapply views_injective.
  - intros u Hu. destruct (H5 u Hu) as [Ho Hidle]. split; [|done]. apply view_ok_frame; [|done].
    apply Hl. intros He. by destruct (views_spare_distinct _ _ _ _ _ H1 Hv Hu).
  - intros s Hsn. rewrite attached_frame, shown_frame by (apply Hl; lia). by apply H6.
Qed.

(** A view that leaves the scene goes to the spare ones. *)
Lemma views_inv_recycle bs rs last log l next vs spare id v v' :
  views_inv bs rs last log next vs spare → vs !! id = Some v →
  vw_surface v' = vw_surface v → idle_view v' →
  (∀ s, s ≠ vw_surface v → Forall (λ r, touches s r = false) l) →
  view_ok bs rs last (l ++ log) v' →
  views_inv bs rs last (l ++ log) next (delete id vs) (spare ++ [v']).
Proof.
  intros Hi Hv Hs Hidle Hl Hok. pose proof Hi as [H1 H2 H3 H4 H5 H6].
  assert (Hlt := H2 _ (surfaces_view vs spare id v Hv)).
  assert (Hp : surfaces (delete id vs) (spare ++ [v']) ≡ₚ surfaces vs spare).
  { rewrite surfaces_push, Hs. by rewrite <- surfaces_delete. }
  split.
  - by rewrite Hp.
  - intros s. rewrite Hp. apply H2.
  - by rewrite Hp.
  - intros x u [Hx Hu]%lookup_delete_Some. apply view_ok_frame; [|by eapply H4].
    apply Hl. intros He. destruct Hx. by eapply views_injective.
  - intros u [Hu|Hu]%elem_of_app.
    + destruct (H5 u Hu) as [Ho Hidle']. split; [|done]. apply view_ok_frame; [|done].
      apply Hl. intros He. by destruct (views_spare_distinct _ _ _ _ _ H1 Hv Hu).
    + apply list_elem_of_singleton in Hu as ->. done.
  - intros s Hsn. rewrite attached_frame, shown_frame by (apply Hl; lia). by apply H6.
Qed.

(** A spare view is given to a layer. *)
Lemma views_inv_reuse bs rs last log next vs spare id v :
  views_inv bs rs last log next vs (spare ++ [v]) → vs !! id = None →
  views_inv bs rs last log next (<[id := v]> vs) spare ∧ idle_view v.
Proof.
  intros [H1 H2 H3 H4 H5 H6] Hid.
  assert (Hp : surfaces (<[id := v]> vs) spare ≡ₚ surfaces vs (spare ++ [v])).
  { rewrite surfaces_push. by apply surfaces_insert. }
  destruct (H5 v) as [Hok Hidle]; [apply elem_of_app; right; by apply list_elem_of_singleton|].
  split; [|done]. split.
  - by rewrite Hp.
  - intros s. rewrite Hp. apply H2.
  - by rewrite Hp.
  - intros x u. destruct (decide (x = id)) as [->|Hx].
    + rewrite lookup_insert_eq. by intros [= <-].
    + rewrite lookup_insert_ne by done. apply H4.
  - intros u Hu. apply H5. apply elem_of_app. by left.
  - done.
Qed.

(** A new view on a new surface. *)
Lemma views_inv_create bs rs last log next vs id v :
  views_inv bs rs last log next vs [] → vs !! id = None → (size vs < 64)%nat →
  next ≤ vw_surface v → view_ok bs rs last log v →
  views_inv bs rs last log (vw_surface v + 1) (<[id := v]> vs) [].
Proof.
  intros [H1 H2 H3 H4 H5 H6] Hid Hsize Hnext Hok.
  assert (Hp := surfaces_insert vs [] id v Hid).
  split.
  - rewrite Hp. apply NoDup_cons. split; [|done]. intros Hs%H2. lia.
  - intros s. rewrite Hp. intros [->|Hs]%elem_of_cons; [lia|]. specialize (H2 s Hs). lia.
  - rewrite Hp. cbn [length]. unfold surfaces. rewrite length_app, !length_fmap, length_map_to_list.
    unfold MAX_LAYERS. cbn. lia.
  - intros x u. destruct (decide (x = id)) as [->|Hx].
    + rewrite lookup_insert_eq. by intros [= <-].
    + rewrite lookup_insert_ne by done. apply H4.
  - done.
  - intros s Hs. apply H6. lia.
Qed.

(** Hiding a view leaves nothing on its surface. *)
Lemma view_hide_ok bs rs last log v :
  view_ok bs rs last log v →
  view_ok bs rs last ((view_hide v).2 ++ log) (view_hide v).1
  ∧ vw_surface (view_hide v).1 = vw_surface v ∧ vw_content (view_hide v).1 = None
  ∧ (∀ s, s ≠ vw_surface v → Forall (λ r, touches s r = false) (view_hide v).2).
Proof.
  intros [H1 H2 H3 H4]. unfold view_hide. destruct (vw_content v) as [c|] eqn:Hc; cbn.
  - split_and!; [|done..|intros s Hs; repeat constructor; cbn; by apply Z.eqb_neq].
    split.
    + unfold claim_ok, blank; cbn. rewrite Z.eqb_refl. by right.
    + cbn. by rewrite !Z.eqb_refl.
    + intros color b Hs. do 2 right. by eapply H3.
    + done.
  - by split_and!; [split| | |].
Qed.

End views.
