(* ===== verification/LayerInv.v ===== *)
(** * The invariant of the layer presenter

    Reads, imports, views and the window together, and that every operation on
    a stream keeps the invariant and fails only for reasons outside the
    presenter.  Effects that touch neither the stream nor what a surface shows
    are [Quiet]. *)

From S2P Require Import Prelude Hoare Syncobj Ipc SurfaceBridge LayerStream LayerProofs LayerCodec FrameGrants LayerPresenter LayerLanes LayerReads LayerViews.

#[global] Typeclasses Opaque send ack answer answer_import host_call on_kernel fresh_proxy emit update_task update_stream stream task new_lane pixel carrier add_feedback discard_queued reserve_grant note_android_frame monotonic_timestamp_nanos place_layer.

Section presenter.

Context {K : Type} `{PresenterOps K}.

Abbreviation world := (LayerPresenter.world (K := K)).
Implicit Types w : world.

(** ** Quiet effects *)

Definition window (k : LayerTask) : bool * bool * bool * option Z * option (Z * Z) :=
  (lt_flags k, lt_root k, lt_logical_size k).

(** The tickets reported as released. *)
Definition completed (sent : list (Socket * Reply)) : list Z :=
  omap (λ p, match p.2 with Completed t => Some t | _ => None end) sent.

Record quiet w w' : Prop := {
  qt_sent : completed (w_sent w') = completed (w_sent w);
  qt_stream : w_stream w' = w_stream w;
  qt_window : window (w_task w') = window (w_task w);
  qt_next : w_next w ≤ w_next w';
  qt_log : ∃ l, w_wayland w' = l ++ w_wayland w ∧ Forall (λ r, silent r = true) l
}.

#[global] Instance quiet_preorder : PreOrder quiet.
Proof.
  split.
  - intros w. split; [done..|]. by exists [].
  - intros w1 w2 w3 [H0 H1 H2 H3 (l & H4 & H5)] [H0' H1' H2' H3' (l' & H4' & H5')].
    split; [congruence..|lia|]. exists (l' ++ l). rewrite H4', H4, app_assoc. by rewrite Forall_app.
Qed.

Definition with_stream (s : Stream) w : world :=
  mkWorld (w_kernel w) (w_task w) (w_clock w) s (w_wayland w) (w_sent w) (w_next w).

Lemma quiet_with_stream s w w' : quiet w w' → quiet (with_stream s w) (with_stream s w').
Proof. by intros [H1 H2 H3 H4 H5]. Qed.

Lemma with_stream_id w : with_stream (w_stream w) w = w.
Proof. by destruct w. Qed.

Class Quiet {A} (m : lp (K := K) A) : Prop := quiet_run w : wp m (λ _, quiet w) external w.

Lemma Quiet_bind {A B} (m : lp A) (f : A → lp B) :
  Quiet m → (∀ a, Quiet (f a)) → Quiet (m ≫= f).
Proof.
  intros Hm Hf w. apply wp_bind. eapply wp_mono; [apply Hm| |done]. intros a w' Hq.
  eapply wp_mono; [apply Hf| |done]. intros ? w'' Hq'. exact (transitivity Hq Hq').
Qed.

#[global] Instance Quiet_ret {A} (a : A) : Quiet (mret a).
Proof. intros w. apply wp_ret. reflexivity. Qed.
#[global] Instance Quiet_stream : Quiet stream.
Proof. intros w. apply wp_gets. reflexivity. Qed.
#[global] Instance Quiet_task : Quiet task.
Proof. intros w. apply wp_gets. reflexivity. Qed.
Lemma Quiet_when b m : Quiet m → Quiet (when b m).
Proof. intros Hm. destruct b; [done|apply Quiet_ret]. Qed.
Lemma Quiet_kernel_call {E A} (wrap : E → LayerError) (m : K → K * result E A) :
  (∀ k k' e, m k = (k', Err e) → external (wrap e)) → Quiet (on_kernel wrap m).
Proof.
  intros He w. unfold wp, on_kernel. destruct (m (w_kernel w)) as [k [a|e]] eqn:E1; cbn.
  - split; [done..|]. by exists [].
  - by eapply He.
Qed.

Lemma Quiet_on_kernel {E A} (wrap : E → LayerError) (m : K → K * result E A) :
  (∀ e, external (wrap e)) → Quiet (on_kernel wrap m).
Proof. intros He. apply Quiet_kernel_call. intros. apply He. Qed.

Lemma drm_Err {A} op (call : K → K * result errno A) k k' e :
  drm_error op call k = (k', Err e) → external (SyncFailed e).
Proof. unfold drm_error. destruct (call k) as [k1 [a|n]]; [done|]. by intros [= _ <-]. Qed.

Lemma Quiet_emit r : silent r = true → Quiet (emit r).
Proof. intros Hr w. apply wp_modify. split; [done..|]. exists [r]. by repeat constructor. Qed.

Lemma Quiet_update_task f : (∀ k, window (f k) = window k) → Quiet (update_task f).
Proof. intros Hf w. apply wp_modify. split; [done|done|apply Hf|done|]. by exists []. Qed.

Lemma Quiet_lift {A} (r : result LayerError A) : (∀ e, r = Err e → external e) → Quiet (lift r).
Proof. intros Hr w. apply wp_lift. destruct r; [reflexivity|by apply Hr]. Qed.

#[global] Instance Quiet_fresh : Quiet fresh_proxy.
Proof. intros w. unfold wp, fresh_proxy. split; cbn; [done..|lia|]. by exists []. Qed.

#[global] Instance Quiet_host what : Quiet (host_call what).
Proof. unfold host_call. by apply Quiet_on_kernel. Qed.

Definition completes (r : Reply) : bool := match r with Completed _ => true | _ => false end.

Lemma Quiet_send socket r : completes r = false → Quiet (send socket r).
Proof.
  intros Hr. unfold send. apply Quiet_bind; [by apply Quiet_on_kernel|].
  intros _ w. apply wp_modify. split; [by destruct r|done..|]. by exists [].
Qed.

#[global] Instance Quiet_ack code : Quiet (ack code).
Proof. unfold ack. by apply Quiet_send. Qed.

#[global] Instance Quiet_answer scene code : Quiet (answer scene code).
Proof. unfold answer. destruct scene; [by apply Quiet_send|apply Quiet_ack]. Qed.

#[global] Instance Quiet_answer_import attempt buffer code : Quiet (answer_import attempt buffer code).
Proof. unfold answer_import. destruct attempt; [by apply Quiet_send|apply Quiet_ack]. Qed.

(** Closes [Quiet] goals of straight-line effects. *)
Ltac solve_quiet :=
  repeat (intros;
    first [ apply _
          | apply Quiet_emit; reflexivity
          | apply Quiet_update_task; reflexivity
          | apply Quiet_send; reflexivity
          | apply Quiet_on_kernel; reflexivity
          | apply Quiet_on_kernel; intros []; reflexivity
          | apply Quiet_bind
          | apply Quiet_when
          | case_match ]).

#[global] Instance Quiet_new_lane : Quiet new_lane.
Proof.
  unfold new_lane. apply Quiet_bind; [|intros t; apply Quiet_bind; [|solve_quiet]];
    apply Quiet_kernel_call; intros k k' e E.
  - unfold create_timeline in E. apply m_bind_Err in E as [E|(s1 & a & _ & E)]; [|done].
    by apply drm_Err in E.
  - by apply drm_Err in E.
Qed.

#[global] Instance Quiet_add_feedback scene grant surface : Quiet (add_feedback scene grant surface).
Proof. unfold add_feedback. solve_quiet. Qed.

#[global] Instance Quiet_pixel color : Quiet (pixel color).
Proof. unfold pixel. solve_quiet. Qed.

#[global] Instance Quiet_carrier size : Quiet (carrier size).
Proof.
  unfold carrier. apply Quiet_bind; [|solve_quiet].
  apply Quiet_lift. destruct (carrier_bytes size); cbn; [done|]. by intros e [= <-].
Qed.

#[global] Instance Quiet_discard_queued : Quiet discard_queued.
Proof. unfold discard_queued. solve_quiet. Qed.

#[global] Instance Quiet_reserve now : Quiet (reserve_grant now).
Proof. intros w. unfold wp, reserve_grant. destruct (reserve _ _). split; [done..|]. by exists []. Qed.

#[global] Instance Quiet_android_frame now : Quiet (note_android_frame now).
Proof. intros w. apply wp_modify. split; [done..|]. by exists []. Qed.

#[global] Instance Quiet_clock : Quiet monotonic_timestamp_nanos.
Proof.
  unfold monotonic_timestamp_nanos. apply Quiet_bind; [by apply Quiet_on_kernel|].
  intros [seconds nanos]. apply Quiet_bind; [|intros _; apply Quiet_bind; [|intros _]];
    apply Quiet_lift; intros e.
  - destruct (seconds <? 0); [by intros [= <-]|done].
  - destruct (nanos <? 0); [by intros [= <-]|done].
  - destruct (_ ≫= _); [done|by intros [= <-]].
Qed.

Lemma Quiet_place surface previous g : ge_transform g ≤ 7 → Quiet (place_layer surface previous g).
Proof.
  intros Ht. unfold place_layer. destruct (ge_destination g) as [[[dx dy] dw] dh].
  do 5 (apply Quiet_bind; [solve_quiet|intros _]). apply Quiet_bind; [|intros _; solve_quiet].
  apply Quiet_lift. destruct (Z.ltb_spec 7 (ge_transform g)); [lia|done].
Qed.

(** ** The invariant *)

(** Every ticket is in flight or released, never both, and never twice. *)
Definition tickets_inv (sent : list (Socket * Reply)) (rs : list Read) (last : Z) : Prop :=
  NoDup (completed sent ++ (rd_ticket <$> rs)) ∧ ∀ t, t ∈ completed sent → t ≤ last.

Record presenter_inv w : Prop := {
  pi_tickets : tickets_inv (w_sent w) (reads (w_stream w)) (last_ticket (w_stream w));
  pi_reads : reads_inv (buffers (w_stream w)) (reads (w_stream w)) (last_ticket (w_stream w));
  pi_sources : ∀ id b, buffers (w_stream w) !! id = Some b →
    0 < bf_width (sr_metadata b) ≤ 16384 ∧ 0 < bf_height (sr_metadata b) ≤ 16384;
  pi_count : Z.of_nat (size (buffers (w_stream w))) ≤ MAX_BUFFERS;
  pi_pending : ∀ i, i ∈ imports (w_stream w) →
    ∃ b, buffers (w_stream w) !! im_buffer i = Some b ∧ sr_buffer b = None;
  pi_pending_unique : NoDup (im_buffer <$> imports (w_stream w));
  pi_pending_count : zlen (imports (w_stream w)) ≤ MAX_IMPORTS;
  pi_staged : Forall (λ p, layer_wf p.1) (st_layers (staged (w_stream w)));
  pi_staged_count : zlen (st_layers (staged (w_stream w))) ≤ MAX_LAYERS;
  pi_views : views_inv (buffers (w_stream w)) (reads (w_stream w)) (last_ticket (w_stream w))
               (w_wayland w) (w_next w) (views (w_stream w)) (spare_views (w_stream w));
  pi_root : ∀ root, lt_root (w_task w) = Some root →
    root < w_next w ∧ (root ∉ surfaces (views (w_stream w)) (spare_views (w_stream w)))
}.

Lemma inv_quiet w w' : quiet w w' → presenter_inv w → presenter_inv w'.
Proof.
  intros [Hc Hs Hw Hn (l & Hl & Hsil)] [I0 I1 I2 I3 I4 I5 I6 I7 I8 I9 I10]. split; rewrite ?Hs; try done.
  - unfold tickets_inv in *. by rewrite Hc.
  - rewrite Hl. eapply views_inv_frame; [|exact Hn|done]. intros s _. by apply silent_touches.
  - intros root. unfold window in Hw. injection Hw as _ -> _. intros Hr. destruct (I10 root Hr).
    split; [lia|done].
Qed.

(** The invariant as a specification of a method. *)
Definition keeps_inv {A} (m : lp A) : Prop :=
  ∀ w, presenter_inv w → wp m (λ _, presenter_inv) external w.

Lemma Quiet_keeps {A} (m : lp A) : Quiet m → keeps_inv m.
Proof. intros Hm w Hi. eapply wp_mono; [apply Hm| |done]. intros ? w' Hq. exact (inv_quiet _ _ Hq Hi). Qed.

Lemma keeps_bind {A B} (m : lp A) (f : A → lp B) :
  keeps_inv m → (∀ a, keeps_inv (f a)) → keeps_inv (m ≫= f).
Proof.
  intros Hm Hf w Hi. apply wp_bind. eapply wp_mono; [by apply Hm| |done]. intros a w' Hi'. by apply Hf.
Qed.

(** Fields of the stream the invariant does not mention. *)
Definition parts (s : Stream) :=
  (buffers s, reads s, last_ticket s, imports s, (st_layers (staged s), views s, spare_views s)).

Lemma keeps_update f : (∀ s, parts (f s) = parts s) → keeps_inv (update_stream f).
Proof.
  intros Hf w [I0 I1 I2 I3 I4 I5 I6 I7 I8 I9 I10]. apply wp_modify. specialize (Hf (w_stream w)).
  unfold parts in Hf. injection Hf as E1 E2 E3 E4 E5 E6 E7.
  by split; cbn; rewrite ?E1, ?E2, ?E3, ?E4, ?E5, ?E6, ?E7.
Qed.

Lemma keeps_clear_staged : keeps_inv clear_staged.
Proof.
  intros w [I0 I1 I2 I3 I4 I5 I6 I7 I8 I9 I10]. apply wp_modify. by split.
Qed.

(** *** Staging *)

Lemma keeps_stage l acquire :
  layer_wf l → keeps_inv (update_stream (λ s, set_staged (push l acquire (staged s)).1 s)).
Proof.
  intros Hl w [I0 I1 I2 I3 I4 I5 I6 I7 I8 I9 I10]. apply wp_modify.
  assert (Hp : Forall (λ p, layer_wf p.1) (st_layers (push l acquire (staged (w_stream w))).1)
    ∧ zlen (st_layers (push l acquire (staged (w_stream w))).1) ≤ MAX_LAYERS).
  { unfold push. destruct (_ || _) eqn:E; cbn; [done|]. split.
    - apply Forall_app. split; [done|]. by apply Forall_singleton.
    - apply orb_false_iff in E as [_ E]. apply Z.eqb_neq in E. unfold zlen in *.
      rewrite length_app. cbn. lia. }
  destruct Hp. by split.
Qed.

Lemma keeps_stage_entries layers : ∀ descriptors,
  Forall record_ok layers → Forall (λ e, ∀ i, bl_fence_index e = Some i → (i < length descriptors)%nat) layers →
  keeps_inv (stage_entries layers descriptors).
Proof.
  induction layers as [|e layers IH]; intros ds Hok Hi; cbn [stage_entries].
  { apply Quiet_keeps. apply _. }
  apply Forall_cons in Hok as [[Hwf _] Hok]. apply Forall_cons in Hi as [Hie Hi].
  intros w Hw. apply wp_bind.
  apply (wp_mono _ (λ p w', w' = w ∧ length p.2 = length ds) _ external);
    [|intros [fence ds'] w' [-> Hlen]|done].
  { destruct (bl_fence_index e) as [i|]; [|by apply wp_ret].
    destruct (lookup_lt_is_Some_2 ds i) as [x Hx]; [by apply Hie|]. apply wp_bind, wp_lift.
    rewrite Hx. cbn. apply wp_ret. split; [done|]. apply length_insert. }
  cbn in Hlen. revert w Hw. apply (keeps_bind (update_stream _) (λ _, stage_entries layers ds')).
  - by apply keeps_stage.
  - intros _. apply IH; [done|]. by rewrite Hlen.
Qed.

Lemma keeps_stage_batch layers fds d :
  batch_ok layers d → keeps_inv (stage_batch layers fds).
Proof.
  intros (_ & Hd & Hok & Hf). unfold stage_batch. apply keeps_stage_entries; [done|].
  apply Forall_forall. intros e He i Hi.
  assert (Hin : i ∈ fences layers).
  { unfold fences. apply list_elem_of_omap. by exists e. }
  rewrite Hf in Hin. apply elem_of_seq in Hin. rewrite length_take, length_app, length_replicate. lia.
Qed.

End presenter.
