(* ===== verification/LayerRelease.v ===== *)
(** * Releases, imports and the socket of a layer stream

    The release pass, registrations, the hiding of views and the end of a
    connection keep the invariant of the presenter. *)

From S2P Require Import Prelude Hoare Syncobj Ipc SurfaceBridge LayerStream LayerProofs LayerCodec FrameGrants LayerPresenter LayerLanes LayerReads LayerViews LayerInv.

(** ** Vectors *)

Lemma swap_remove_perm {A} (l : list A) i x : l !! i = Some x → l ≡ₚ x :: swap_remove i l.
Proof.
  intros Hx. unfold swap_remove. pose proof (lookup_lt_Some _ _ _ Hx) as Hi.
  destruct l as [|y l _] using rev_ind; [done|]. rewrite last_snoc, length_app in *. cbn in *.
  case_bool_decide as Hd.
  - assert (i = length l) as -> by lia. rewrite take_app_length.
    rewrite lookup_app_r, Nat.sub_diag in Hx by lia. injection Hx as <-. by rewrite Permutation_app_comm.
  - rewrite lookup_app_l in Hx by lia. replace (length l + 1 - 1)%nat with (length l) by lia.
    rewrite take_app_length. rewrite Permutation_app_comm. cbn.
    rewrite (list_insert_alter _ _ _) . rewrite <- (take_drop_middle l i x) at 1 by done.
    rewrite <- list_insert_alter. rewrite insert_take_drop by lia.
    rewrite <- !Permutation_middle. apply perm_swap.
Qed.

Lemma length_swap_remove {A} (l : list A) i x :
  l !! i = Some x → length l = S (length (swap_remove i l)).
Proof. intros Hx. by rewrite (swap_remove_perm l i x Hx) at 1. Qed.

Lemma position_Some {A} (f : A → bool) l i :
  position f l = Some i → ∃ x, l !! i = Some x ∧ f x = true.
Proof.
  revert i. induction l as [|y l IH]; intros i; cbn; [done|].
  destruct (f y) eqn:Hf; [intros [= <-]; eauto|].
  destruct (position f l) as [j|]; cbn; [|done]. intros [= <-]. by apply IH.
Qed.

Section presenter.

Context {K : Type} `{PresenterOps K}.

Abbreviation world := (LayerPresenter.world (K := K)).
Implicit Types w : world.

(** ** Lanes in the world *)

Definition put_lane (id : Z) (lane : nat) (b : Source) (kl : K * Lane) w : world :=
  mkWorld kl.1 (w_task w) (w_clock w)
    (set_buffers (<[id := with_lane lane kl.2 b]> (buffers (w_stream w))) (w_stream w))
    (w_wayland w) (w_sent w) (w_next w).

Lemma on_lane_wp {A} id lane (m : lane_method A) Q R w b l :
  buffers (w_stream w) !! id = Some b → sr_lanes b !! lane = Some l →
  wp m (λ a kl, Q a (put_lane id lane b kl w)) R (w_kernel w, l) →
  wp (on_lane id lane m) Q R w.
Proof.
  intros Hb Hl. unfold wp, on_lane. rewrite Hb, Hl. by destruct (m (w_kernel w, l)) as [[k l'] [a|e]].
Qed.

(** What the views and the imports see of an allocation. *)
Definition meta (b : Source) : Buffer * option Z := (sr_metadata b, sr_buffer b).

Lemma meta_lookup (bs bs' : gmap Z Source) i x :
  meta <$> bs' = meta <$> bs → bs' !! i = Some x → ∃ y, bs !! i = Some y ∧ meta y = meta x.
Proof.
  intros He Hx. assert (Hl : (meta <$> bs') !! i = (meta <$> bs) !! i) by by rewrite He.
  rewrite !lookup_fmap, Hx in Hl. destruct (bs !! i) as [y|]; [|done]. exists y. cbn in Hl. split; [done|congruence].
Qed.

Lemma meta_alter (bs : gmap Z Source) i f :
  (∀ b, meta (f b) = meta b) → meta <$> alter f i bs = meta <$> bs.
Proof.
  intros Hf. apply map_eq. intros j. rewrite !lookup_fmap. destruct (decide (j = i)) as [->|].
  - rewrite lookup_alter_eq. destruct (bs !! i); cbn; [by rewrite Hf|done].
  - by rewrite lookup_alter_ne.
Qed.

Lemma meta_insert (bs : gmap Z Source) i b b' :
  bs !! i = Some b → meta b' = meta b → meta <$> <[i := b']> bs = meta <$> bs.
Proof.
  intros Hb Hm. rewrite fmap_insert, Hm. apply insert_id. by rewrite lookup_fmap, Hb.
Qed.

(** Lanes, tickets and reads change; imports and views do not. *)
Lemma inv_rebuild w w' bs rs last :
  presenter_inv w → meta <$> bs = meta <$> buffers (w_stream w) →
  (∀ r, r ∈ rs →
     (∃ r0, r0 ∈ reads (w_stream w) ∧ rd_buffer r0 = rd_buffer r ∧ rd_ticket r0 = rd_ticket r)
     ∨ ∀ x v, views (w_stream w) !! x = Some v → view_source v ≠ Some (rd_buffer r, rd_ticket r)) →
  last_ticket (w_stream w) ≤ last →
  reads_inv bs rs last → tickets_inv (w_sent w') rs last →
  parts (w_stream w') = (bs, rs, last, imports (w_stream w),
    (st_layers (staged (w_stream w)), views (w_stream w), spare_views (w_stream w))) →
  window (w_task w') = window (w_task w) → w_wayland w' = w_wayland w → w_next w' = w_next w →
  presenter_inv w'.
Proof.
  intros [I0 I1 I2 I3 I4 I5 I6 I7 I8 I9 I10] Hm Hrs Hlast Hr Ht Hs Hk Hl Hn.
  unfold parts in Hs. injection Hs as E1 E2 E3 E4 E5 E6 E7. unfold window in Hk. injection Hk as _ Hroot _.
  split; rewrite ?E1, ?E2, ?E3, ?E4, ?E5, ?E6, ?E7, ?Hroot, ?Hl, ?Hn; try done.
  - intros i x Hx. destruct (meta_lookup _ _ _ _ Hm Hx) as (y & Hy & He).
    injection He as He _. rewrite <- He. by eapply I2.
  - assert (size (meta <$> bs) = size (meta <$> buffers (w_stream w))) as Hz by by rewrite Hm.
    rewrite !map_size_fmap in Hz. by rewrite Hz.
  - intros i Hin. destruct (I4 i Hin) as (y & Hy & Hnone).
    destruct (meta_lookup _ _ _ _ (eq_sym Hm) Hy) as (x & Hx & [= _ He]). exists x. split; [done|congruence].
  - eapply views_inv_reads; [done..|]. intros x v i t b1 r Hv Hsrc Hb1 Hr1 Hrb Hrt.
    destruct (meta_lookup _ _ _ _ Hm Hb1) as (y & Hy & [= _ He]).
    destruct (Hrs r Hr1) as [(r0 & Hr0 & Hb0 & Ht0)|Hno].
    + exists y, r0. rewrite Hb0, Ht0. done.
    + destruct (Hno x v Hv). by rewrite Hsrc, Hrb, Hrt.
Qed.

Lemma inv_put_lane w id b lane l kl :
  presenter_inv w → buffers (w_stream w) !! id = Some b → sr_lanes b !! lane = Some l →
  core kl.2 = core l → presenter_inv (put_lane id lane b kl w).
Proof.
  intros Hi Hb Hl Hc. eapply inv_rebuild; [exact Hi|..|reflexivity|reflexivity|reflexivity|reflexivity].
  - by eapply meta_insert.
  - eauto.
  - reflexivity.
  - eapply reads_inv_core; [exact (pi_reads _ Hi)|done..].
  - apply (pi_tickets _ Hi).
Qed.

(** ** The release pass *)

(** A read marked as served keeps its identity. *)
Lemma mark_sent_reads id lane (rs : list Read) r :
  r ∈ (mark_sent id lane <$> rs) →
  ∃ r0, r0 ∈ rs ∧ rd_buffer r0 = rd_buffer r ∧ rd_ticket r0 = rd_ticket r.
Proof.
  intros (r0 & -> & Hr)%list_elem_of_fmap. exists r0.
  by destruct (mark_sent_fields id lane r0) as (-> & _ & -> & _).
Qed.

Lemma mark_sent_tickets id lane (rs : list Read) :
  rd_ticket <$> (mark_sent id lane <$> rs) = rd_ticket <$> rs.
Proof.
  rewrite <- list_fmap_compose. apply list_fmap_ext. intros i r _. cbn.
  by destruct (mark_sent_fields id lane r) as (_ & _ & -> & _).
Qed.

(** What is left to mark after [n] reads were visited. *)
Definition marked (id : Z) (lane : nat) (n : nat) (rs : list Read) : list Read :=
  (mark_sent id lane <$> take n rs) ++ drop n rs.

Lemma marked_lookup id lane n (rs : list Read) r :
  rs !! n = Some r → marked id lane n rs !! n = Some r.
Proof.
  intros Hr. unfold marked. pose proof (lookup_lt_Some _ _ _ Hr).
  rewrite lookup_app_r; rewrite length_fmap, length_take; [|lia].
  rewrite lookup_drop. rewrite <- Hr. f_equal. lia.
Qed.

Lemma marked_step id lane n (rs : list Read) r :
  rs !! n = Some r → <[n := mark_sent id lane r]> (marked id lane n rs) = marked id lane (S n) rs.
Proof.
  intros Hr. unfold marked. pose proof (lookup_lt_Some _ _ _ Hr).
  rewrite insert_app_r_alt; rewrite length_fmap, length_take; [|lia].
  rewrite (drop_S rs r n), (take_S_r rs n r), fmap_app by done. rewrite <- app_assoc. f_equal.
  replace (n - n `min` length rs)%nat with 0%nat by lia. done.
Qed.

Definition set_w_reads (rs : list Read) w : world := with_stream (set_reads rs (w_stream w)) w.

(** The loop marks every read of the lane: they all wait for the same point. *)
Lemma send_fences_wp id lane point fence w :
  (∀ r, r ∈ reads (w_stream w) → occupies id lane r = true → rd_point r = point) →
  wp (send_fences id lane point fence)
    (λ _, quiet (set_w_reads (mark_sent id lane <$> reads (w_stream w)) w)) external w.
Proof.
  intros Hp. unfold send_fences, stream. wp_steps. set (rs := reads (w_stream w)).
  enough (Hloop : ∀ n i w1, (i + n = length rs)%nat → quiet (set_w_reads (marked id lane i rs) w) w1 →
    wp (for_each (send_fence_at id lane point fence) (seq i n)) (λ _, quiet (set_w_reads (mark_sent id lane <$> rs) w)) external w1).
  { apply Hloop; [done|]. unfold set_w_reads, marked. cbn. subst rs. by destruct w as [? ? ? []]. }
  induction n as [|n IH]; intros i w1 Hn Hw; cbn [seq for_each].
  { apply wp_ret. assert (i = length rs) as -> by lia. unfold marked in Hw.
    by rewrite take_ge, drop_ge, app_nil_r in Hw. }
  destruct (lookup_lt_is_Some_2 rs i) as [r Hr]; [lia|].
  wp_step. unfold send_fence_at at 1, stream. do 2 wp_step. rewrite (qt_stream _ _ Hw). cbn [reads set_reads set_w_reads with_stream w_stream].
  rewrite (marked_lookup _ _ _ _ _ Hr). unfold shares_point.
  assert (Hkeep : mark_sent id lane r = r →
    wp (for_each (send_fence_at id lane point fence) (seq (S i) n)) (λ _, quiet (set_w_reads (mark_sent id lane <$> rs) w)) external w1).
  { intros He. apply IH; [lia|]. rewrite <- (marked_step _ _ _ _ _ Hr), He.
    by rewrite list_insert_id by by apply marked_lookup. }
  unfold mark_sent in Hkeep.
  destruct (occupies id lane r) eqn:Ho; cbn [andb]; [|by apply wp_ret, Hkeep].
  rewrite (Hp r), Z.eqb_refl; [|by eapply list_elem_of_lookup_2|done]. cbn [andb].
  destruct (rd_fence_sent r) eqn:Hf; cbn [negb when].
  { apply wp_ret, Hkeep. destruct r; cbn in *; by subst. }
  wp_step. eapply wp_mono; [by apply Quiet_send| |done]. intros ? w2 Hq. apply wp_modify.
  apply IH; [lia|]. rewrite <- (marked_step _ _ _ _ _ Hr). unfold mark_sent. rewrite Ho.
  pose proof (quiet_with_stream (set_reads (<[i:=with_fence_sent r]> (marked id lane i rs)) (w_stream w))
    _ _ (transitivity Hw Hq)) as Hq2.
  assert (Hs2 : w_stream w2 = set_reads (marked id lane i rs) (w_stream w)).
  { by rewrite (qt_stream _ _ Hq), (qt_stream _ _ Hw). }
  unfold set_w_reads. rewrite Hs2. exact Hq2.
Qed.

(** The lane a read in flight owns. *)
Lemma read_lane w r :
  presenter_inv w → r ∈ reads (w_stream w) →
  ∃ b l, buffers (w_stream w) !! rd_buffer r = Some b ∧ sr_lanes b !! rd_lane r = Some l
    ∧ rd_point r = ln_next_point l ∧ 0 < rd_point r
    ∧ (rd_fence_sent r = false → lc_exported (core l) < rd_point r).
Proof.
  intros Hi Hr. destruct (ri_read _ _ _ (pi_reads _ Hi) r Hr) as (l & Hl & Hrest).
  unfold lane_of in Hl. destruct (buffers _ !! rd_buffer r) as [b|] eqn:Hb; [|done]. by exists b, l.
Qed.

(** A read and its copy with the fence sent. *)
Definition same_read (r r' : Read) : Prop :=
  rd_buffer r' = rd_buffer r ∧ rd_lane r' = rd_lane r ∧ rd_ticket r' = rd_ticket r
  ∧ rd_point r' = rd_point r.

(** Offering the release fence of one read. *)
Definition offer_fence (s : Stream) (r : Read) : lp unit :=
  if connected s && negb (rd_fence_sent r) then
    fence ← on_lane (rd_buffer r) (rd_lane r) (on_timeline (try_export_release_fence (rd_point r)));
    match fence with
    | None => mret tt
    | Some f => send_fences (rd_buffer r) (rd_lane r) (rd_point r) f
    end
  else mret tt.

Lemma offer_fence_wp w index r :
  presenter_inv w → reads (w_stream w) !! index = Some r →
  wp (offer_fence (w_stream w) r)
    (λ _ w', presenter_inv w' ∧ connected (w_stream w') = connected (w_stream w)
       ∧ length (reads (w_stream w')) = length (reads (w_stream w))
       ∧ ∃ r', reads (w_stream w') !! index = Some r' ∧ same_read r r') external w.
Proof.
  intros Hi Hr. pose proof (list_elem_of_lookup_2 _ _ _ Hr) as Hin. unfold offer_fence.
  destruct (connected _ && negb _) eqn:Ec; [|apply wp_ret; split_and!; [done..|]; by exists r].
  apply andb_true_iff in Ec as [_ Hs]. apply negb_true_iff in Hs.
  destruct (read_lane w r Hi Hin) as (b & l & Hb & Hl & Hp & Hpos & He).
  wp_step. eapply on_lane_wp; [done..|]. apply try_export_wp; [lia|by apply He|..]; cbn [snd fst].
  - intros kl Hc. apply wp_ret. split_and!; [|done..|by exists r]. by eapply inv_put_lane.
  - intros kl f Hc. eapply wp_mono; [apply send_fences_wp| |done].
    { cbn. intros r' Hr' [Hb' Hl']%occupies_spec. symmetry. eapply same_lane_point;
        [exact (pi_reads _ Hi)|done..]. }
    intros ? w' Hq. rewrite (qt_stream _ _ Hq). cbn.
    split_and!; [|done|by rewrite length_fmap|].
    + eapply inv_quiet; [exact Hq|].
      eapply inv_rebuild; [exact Hi|..|reflexivity|reflexivity|reflexivity|reflexivity]; cbn.
      * by eapply meta_insert.
      * intros r' Hr'. left. by eapply mark_sent_reads.
      * reflexivity.
      * eapply reads_inv_export; [exact (pi_reads _ Hi)|done..|]. rewrite Hc. by f_equal.
      * unfold tickets_inv. rewrite mark_sent_tickets. apply (pi_tickets _ Hi).
    + exists (mark_sent (rd_buffer r) (rd_lane r) r). rewrite list_lookup_fmap, Hr. split; [done|].
      apply mark_sent_fields.
Qed.

(** A read leaves the vector and its allocation forgets its name. *)
Lemma inv_end_read w w' index r :
  presenter_inv w → reads (w_stream w) !! index = Some r →
  w_stream w' = set_reads (swap_remove index (reads (w_stream w)))
    (set_buffers (alter (end_ticket (rd_ticket r)) (rd_buffer r) (buffers (w_stream w))) (w_stream w)) →
  window (w_task w') = window (w_task w) → w_wayland w' = w_wayland w → w_next w' = w_next w →
  (completed (w_sent w') = completed (w_sent w)
   ∨ completed (w_sent w') = rd_ticket r :: completed (w_sent w)) →
  presenter_inv w'.
Proof.
  intros Hi Hr Hs Hk Hl Hn Hc. pose proof (swap_remove_perm _ _ _ Hr) as Hp.
  eapply inv_rebuild; [exact Hi|..|by rewrite Hs|exact Hk|exact Hl|exact Hn].
  - apply meta_alter. intros b. unfold meta. by destruct (end_ticket_fields (rd_ticket r) b) as (_ & -> & -> & _).
  - intros r' Hr'. left. exists r'. split; [|done]. rewrite Hp. by right.
  - reflexivity.
  - eapply reads_inv_end; [exact (pi_reads _ Hi)|done].
  - destruct (pi_tickets _ Hi) as [Hu Hlast]. unfold tickets_inv. rewrite Hp, fmap_cons in Hu.
    rewrite <- Permutation_middle in Hu. destruct Hc as [->| ->].
    + split; [by apply NoDup_cons in Hu as [_ ?]|done].
    + split; [done|]. intros t [->|Ht]%elem_of_cons; [|by apply Hlast].
      apply (ri_last _ _ _ (pi_reads _ Hi)). rewrite Hp. left.
Qed.

(** Reporting a release: only a failed report to a closed stream is ignored. *)
Definition report_release (connected : bool) (t : Z) : lp unit :=
  if connected then send Events (Completed t)
  else _ ← attempt (send Events (Completed t)); mret tt.

Lemma report_release_wp c t w :
  wp (report_release c t)
    (λ _ w', w_stream w' = w_stream w ∧ window (w_task w') = window (w_task w)
       ∧ w_wayland w' = w_wayland w ∧ w_next w' = w_next w
       ∧ (completed (w_sent w') = completed (w_sent w)
          ∨ completed (w_sent w') = t :: completed (w_sent w))
       ∧ (c = true → completed (w_sent w') = t :: completed (w_sent w))) external w.
Proof.
  unfold report_release. destruct c.
  - unfold send. wp_step. unfold wp at 1, on_kernel. destruct (send_record _ _ _) as [k [u|e]]; [|done].
    cbn. apply wp_modify. split_and!; auto.
  - wp_step. apply wp_attempt. intros w' r Hr. apply wp_ret.
    unfold send in Hr. apply m_bind_run in Hr as [(e & Hr & ->)|(w1 & u & Hr & Hr2)].
    + unfold on_kernel in Hr. destruct (send_record _ _ _) as [k r']. injection Hr as <- _. cbn.
      split_and!; auto; discriminate.
    + unfold on_kernel in Hr. destruct (send_record _ _ _) as [k r']. injection Hr as <- _.
      unfold modify in Hr2. injection Hr2 as <- <-. cbn.
      split_and!; auto; discriminate.
Qed.

(** One turn of the release loop. *)
Lemma release_read_wp w index r :
  presenter_inv w → reads (w_stream w) !! index = Some r →
  wp (release_read index)
    (λ ended w', presenter_inv w' ∧ connected (w_stream w') = connected (w_stream w)
       ∧ length (reads (w_stream w)) =
         (length (reads (w_stream w')) + if ended : bool then 1 else 0)%nat) external w.
Proof.
  intros Hi Hr. unfold release_read, stream. do 2 wp_step. rewrite Hr.
  wp_step. eapply wp_mono; [by apply offer_fence_wp| |done].
  intros ? w1 (Hi1 & Hc1 & Hlen1 & r1 & Hr1 & Hb1 & Hl1 & Ht1 & Hp1).
  destruct (read_lane w1 r1 Hi1) as (b & l & Hb & Hl & _); [by eapply list_elem_of_lookup_2|].
  rewrite Hb1 in Hb. rewrite Hl1 in Hl.
  wp_step. eapply on_lane_wp; [done..|]. apply signalled_wp. intros n kl Hc. cbn [snd] in Hc.
  assert (Hi2 := inv_put_lane _ _ _ _ _ _ Hi1 Hb Hl Hc).
  destruct (n <? rd_point r).
  { apply wp_ret. cbn. rewrite Hlen1, Hc1. split_and!; [done..|lia]. }
  wp_step. eapply wp_mono; [apply (report_release_wp (connected (w_stream w)) (rd_ticket r))| |done].
  intros ? w3 (Hs3 & Hk3 & Hw3 & Hn3 & Hcomp & _). wp_step. apply wp_modify. wp_step. apply wp_modify.
  apply wp_ret. split_and!; cbn.
  - eapply (inv_end_read _ _ index r1); [exact Hi2|done| |done..|]; cbn.
    + rewrite Hs3, Ht1, Hb1. done.
    + rewrite Ht1. done.
  - by rewrite Hs3.
  - rewrite Hs3. cbn. rewrite <- Hlen1. rewrite (length_swap_remove _ _ _ Hr1) at 1. lia.
Qed.

Lemma release_loop_wp todo : ∀ index w,
  presenter_inv w → (index + todo = length (reads (w_stream w)))%nat →
  wp (release_loop todo index)
    (λ _ w', presenter_inv w' ∧ connected (w_stream w') = connected (w_stream w)) external w.
Proof.
  induction todo as [|todo IH]; intros index w Hi Hlen; cbn [release_loop]; [by apply wp_ret|].
  destruct (lookup_lt_is_Some_2 (reads (w_stream w)) index) as [r Hr]; [lia|].
  wp_step. eapply wp_mono; [by apply (release_read_wp w index r)| |done].
  intros ended w' (Hi' & Hc' & Hl'). eapply wp_mono; [apply IH; [done|destruct ended; lia]| |done].
  intros ? w'' [? ->]. done.
Qed.

Lemma keeps_release : keeps_inv release.
Proof.
  intros w Hi. unfold release, stream. do 2 wp_step.
  eapply wp_mono; [by apply release_loop_wp| |done]. by intros ? w' [? _].
Qed.

(** ** Hiding *)

Lemma inv_views w w' l vs spare :
  presenter_inv w → w_wayland w' = l ++ w_wayland w →
  views_inv (buffers (w_stream w)) (reads (w_stream w)) (last_ticket (w_stream w))
    (l ++ w_wayland w) (w_next w') vs spare →
  surfaces vs spare ≡ₚ surfaces (views (w_stream w)) (spare_views (w_stream w)) →
  w_next w ≤ w_next w' → completed (w_sent w') = completed (w_sent w) →
  window (w_task w') = window (w_task w) →
  parts (w_stream w') = (buffers (w_stream w), reads (w_stream w), last_ticket (w_stream w),
    imports (w_stream w), (st_layers (staged (w_stream w)), vs, spare)) →
  presenter_inv w'.
Proof.
  intros [I0 I1 I2 I3 I4 I5 I6 I7 I8 I9 I10] Hl Hv Hp Hn Ht Hk Hs.
  unfold parts in Hs. injection Hs as E1 E2 E3 E4 E5 E6 E7. unfold window in Hk. injection Hk as _ Hroot _.
  split; rewrite ?E1, ?E2, ?E3, ?E4, ?E5, ?E6, ?E7, ?Hroot, ?Hl; try done.
  { unfold tickets_inv in *. by rewrite Ht. }
  intros root Hr. rewrite Hp. destruct (I10 root Hr). split; [lia|done].
Qed.

Lemma for_each_wp {A} (body : A → lp unit) (I : list A → world → Prop) R xs w :
  (∀ x xs w, I (x :: xs) w → wp (body x) (λ _ w', I xs w') R w) →
  I xs w → wp (for_each body xs) (λ _, I []) R w.
Proof.
  intros Hbody. revert w. induction xs as [|x xs IH]; intros w Hi; cbn [for_each]; [by apply wp_ret|].
  wp_step. eapply wp_mono; [by apply Hbody| |done]. intros ? w' Hi'. by apply IH.
Qed.

(** Nothing but views and requests changes. *)
Record calm w w' : Prop := {
  cm_stream : (buffers (w_stream w'), reads (w_stream w'), last_ticket (w_stream w'), staged (w_stream w'),
               connected (w_stream w'), waiting (w_stream w'))
    = (buffers (w_stream w), reads (w_stream w), last_ticket (w_stream w), staged (w_stream w),
       connected (w_stream w), waiting (w_stream w));
  cm_sent : completed (w_sent w') = completed (w_sent w);
  cm_window : window (w_task w') = window (w_task w)
}.

#[global] Instance calm_preorder : PreOrder calm.
Proof.
  split; [done|]. intros w1 w2 w3 [H1 H2 H3] [H1' H2' H3']. split; congruence.
Qed.

Lemma hide_view_wp w id v :
  presenter_inv w → views (w_stream w) !! id = Some v →
  wp (hide_view id v)
    (λ _ w', presenter_inv w' ∧ calm w w'
       ∧ views (w_stream w') = <[id := (view_hide v).1]> (views (w_stream w))) external w.
Proof.
  intros Hi Hv. unfold hide_view. wp_step. apply wp_modify. apply wp_modify. cbn.
  destruct (view_hide_ok _ _ _ _ _ (vi_views _ _ _ _ _ _ _ (pi_views _ Hi) id v Hv)) as (Hok & Hs & _ & Hl).
  rewrite (alter_view _ _ v) by done. split; [|done].
  eapply inv_views; [exact Hi|reflexivity|..|reflexivity|reflexivity|reflexivity|reflexivity].
  - eapply views_inv_update; [exact (pi_views _ Hi)|done..].
  - by eapply surfaces_update.
Qed.

(** The views still to visit are as they were when the loop began. *)
Definition untouched (items : list (Z * View)) w : Prop :=
  NoDup items.*1 ∧ ∀ p, p ∈ items → views (w_stream w) !! p.1 = Some p.2.

Lemma hide_wp w :
  presenter_inv w →
  wp hide (λ b w', presenter_inv w' ∧ calm w w'
     ∧ (b = true → ∀ id v, views (w_stream w') !! id = Some v → vw_content v = None)) external w.
Proof.
  intros Hi. unfold hide, stream. do 2 wp_step. destruct (stream_active _); cbn [negb].
  2:{ apply wp_ret. by split_and!. }
  wp_step. eapply wp_mono; [apply (for_each_wp _ (λ items w', presenter_inv w' ∧ calm w w'
    ∧ untouched items w' ∧ ∀ id v, views (w_stream w') !! id = Some v → id ∉ items.*1 → vw_content v = None))
    | |done].
  - clear. intros [id v] items w1 (Hi1 & Hc & [Hn Hu] & Hd). cbn in Hn. apply NoDup_cons in Hn as [Hx Hn].
    eapply wp_mono; [apply hide_view_wp; [done|by apply (Hu (id, v)); left]| |done].
    intros ? w2 (Hi2 & Hc2 & Hv2). split_and!; [done|by etrans|split; [done|]|]; rewrite Hv2.
    + intros [i u] Hp. cbn. rewrite lookup_insert_ne; [by apply (Hu (i, u)); right|].
      intros ->. apply Hx. by apply (list_elem_of_fmap_2 fst _ (i, u)).
    + intros i u. destruct (decide (i = id)) as [->|Hne].
      * rewrite lookup_insert_eq. intros [= <-] _. unfold view_hide. by destruct (vw_content v) eqn:?.
      * rewrite lookup_insert_ne by done. intros Hiu Hni. apply (Hd i u Hiu).
        by intros [?|?]%elem_of_cons.
  - split_and!; [done|reflexivity|split|].
    + apply btree_keys_NoDup.
    + intros [i u] Hp. by apply btree_items_elem.
    + intros i v Hv []. apply btree_keys_elem. by eexists.
  - intros ? w1 (Hi1 & Hc1 & _ & Hd). wp_step. apply wp_modify, wp_ret.
    split_and!; [exact (keeps_update (set_active false) (λ _, eq_refl) w1 Hi1)|by destruct Hc1|].
    cbn. intros _ i v Hv. apply (Hd i v Hv). apply not_elem_of_nil.
Qed.

(** *** Recycling *)

Lemma recycle_view_wp w id v :
  presenter_inv w → views (w_stream w) !! id = Some v →
  wp (recycle_view (id, v))
    (λ _ w', presenter_inv w' ∧ calm w w' ∧ views (w_stream w') = delete id (views (w_stream w)))
    external w.
Proof.
  intros Hi Hv. unfold recycle_view. wp_step. apply wp_modify. apply wp_modify. cbn.
  destruct (view_hide_ok _ _ _ _ _ (vi_views _ _ _ _ _ _ _ (pi_views _ Hi) id v Hv))
    as (Hok & Hs & Hc & Hl).
  split; [|done].
  eapply inv_views; [exact Hi|reflexivity|..|reflexivity|reflexivity|reflexivity|reflexivity].
  - eapply views_inv_recycle; [exact (pi_views _ Hi)|done..|]. by destruct Hok.
  - cbn. rewrite surfaces_push. cbn. rewrite Hs. by rewrite <- surfaces_delete.
Qed.

(** Exactly the views outside the scene are recycled. *)
Lemma recycle_views_wp w ids :
  presenter_inv w →
  wp (recycle_views ids)
    (λ _ w', presenter_inv w' ∧ calm w w'
       ∧ ∀ id, views (w_stream w') !! id = if decide (id ∈ ids) then views (w_stream w) !! id else None)
    external w.
Proof.
  intros Hi. unfold recycle_views, stream. do 2 wp_step.
  eapply wp_mono; [apply (for_each_wp _ (λ items w', presenter_inv w' ∧ calm w w' ∧ untouched items w'
    ∧ (∀ p, p ∈ items → p.1 ∉ ids)
    ∧ ∀ id, views (w_stream w') !! id =
        if decide (id ∈ ids ∨ id ∈ items.*1) then views (w_stream w) !! id else None))| |done].
  - intros [id v] items w1 (Hi1 & Hc & [Hn Hu] & Hout & Hd). cbn in Hn. apply NoDup_cons in Hn as [Hx Hn].
    eapply wp_mono; [apply recycle_view_wp; [done|by apply (Hu (id, v)); left]| |done].
    intros ? w2 (Hi2 & Hc2 & Hv2). split_and!; [done|by etrans|split; [done|]|..].
    + intros [i u] Hp. cbn. rewrite Hv2, lookup_delete_ne; [by apply (Hu (i, u)); right|].
      intros ->. apply Hx. by apply (list_elem_of_fmap_2 fst _ (i, u)).
    + intros p Hp. apply Hout. by right.
    + intros i. rewrite Hv2. destruct (decide (i = id)) as [->|Hne].
      * rewrite lookup_delete_eq, decide_False; [done|].
        intros [?|?]; [|done]. apply (Hout (id, v)); [left|done].
      * rewrite lookup_delete_ne, Hd by done. cbn. apply decide_ext. rewrite elem_of_cons. naive_solver.
  - split_and!; [done|reflexivity|split|..].
    + eapply sublist_NoDup; [apply (btree_keys_NoDup (views (w_stream w)))|].
      apply (fmap_sublist fst), sublist_filter.
    + intros [i u] Hp. apply list_elem_of_filter in Hp as [_ Hp]. by apply btree_items_elem.
    + intros p Hp. by apply list_elem_of_filter in Hp as [? _].
    + intros i. case_decide as Hdec; [done|]. destruct (views (w_stream w) !! i) as [v|] eqn:Hv; [|done].
      destruct Hdec. destruct (decide (i ∈ ids)); [by left|right].
      apply (list_elem_of_fmap_2 fst _ (i, v)), list_elem_of_filter. by rewrite btree_items_elem.
  - intros ? w1 (Hi1 & Hc1 & _ & _ & Hd). split_and!; [done..|]. intros i. rewrite Hd. apply decide_ext.
    cbn. rewrite elem_of_nil. tauto.
Qed.

(** ** Registrations *)

Lemma imports_contains_spec id (p : list PendingImport) :
  imports_contains id p = true ↔ id ∈ im_buffer <$> p.
Proof.
  unfold imports_contains. rewrite existsb_exists, list_elem_of_fmap.
  setoid_rewrite list_elem_of_In. setoid_rewrite Z.eqb_eq. naive_solver.
Qed.

Lemma imports_insert_ok i (p : list PendingImport) :
  imports_full p = false → imports_blocked p = false → (im_buffer i ∉ im_buffer <$> p) →
  imports_insert i p = (p ++ [i], true).
Proof.
  intros Hf Hb Hc. unfold imports_insert. rewrite Hf, Hb.
  destruct (imports_contains _ _) eqn:E; [|done]. by apply imports_contains_spec in E.
Qed.

(** A new allocation: no read and no view can refer to it. *)
Lemma inv_register w w' m lane attempt params :
  presenter_inv w → buffers (w_stream w) !! bf_id m = None →
  Z.of_nat (size (buffers (w_stream w))) < MAX_BUFFERS → zlen (imports (w_stream w)) < MAX_IMPORTS →
  0 < bf_width m ≤ 16384 → 0 < bf_height m ≤ 16384 → lane_ok lane →
  w' = with_stream (set_imports (imports (w_stream w) ++ [mkImport (bf_id m) attempt params])
         (set_buffers (<[bf_id m := mkSourceEntry m None [lane] None]> (buffers (w_stream w)))
            (w_stream w))) w →
  presenter_inv w'.
Proof.
  intros [I0 I1 I2 I3 I4 I5 I6 I7 I8 I9 I10] Hid Hsize Himp Hw Hh Hok ->.
  split; cbn; try done.
  - by eapply reads_inv_register.
  - intros i x. destruct (decide (i = bf_id m)) as [->|].
    + rewrite lookup_insert_eq. by intros [= <-].
    + rewrite lookup_insert_ne by done. apply I2.
  - rewrite map_size_insert_None by done. lia.
  - intros i [Hi|Hi]%elem_of_app.
    + destruct (I4 i Hi) as (b & Hb & Hn). exists b. rewrite lookup_insert_ne; [done|]. congruence.
    + apply list_elem_of_singleton in Hi as ->. cbn. eexists. by rewrite lookup_insert_eq.
  - rewrite fmap_app. apply NoDup_app. split_and!; [done| |apply NoDup_singleton].
    intros x (i & -> & Hi)%list_elem_of_fmap Hx%list_elem_of_singleton.
    destruct (I4 i Hi) as (b & Hb & _). cbn in Hx. congruence.
  - unfold zlen in *. rewrite length_app. cbn. lia.
  - eapply views_inv_reads; [done..|]. intros x v i t b r Hv Hsrc. destruct (decide (i = bf_id m)) as [->|].
    + intros _ Hr Hrb. destruct (ri_read _ _ _ I1 r Hr) as (l & Hl & _). unfold lane_of in Hl.
      by rewrite Hrb, Hid in Hl.
    + rewrite lookup_insert_ne by done. intros Hb Hr Hrb Hrt. by exists b, r.
Qed.

Lemma new_lane_wp w :
  wp new_lane (λ l w', quiet w w' ∧ lane_ok l) external w.
Proof.
  pose proof (Quiet_new_lane w) as Hq. unfold wp in *. destruct (new_lane w) as [w' [l|e]] eqn:E; [|done].
  split; [done|]. unfold new_lane in E. inv_method. unfold create_timeline in Hm.
  unfold on_kernel in Hm. destruct (_ ≫= _) as [k r] eqn:E2 in Hm. injection Hm as _ Hr. inv_ok.
  subst r. inv_method. subst. unfold lane_ok, core_ok, core. cbn. lia.
Qed.

Lemma keeps_register formats m attempt fds w :
  presenter_inv w → imports_blocked (imports (w_stream w)) = false →
  0 < bf_width m ≤ 16384 → 0 < bf_height m ≤ 16384 →
  wp (register formats m attempt fds) (λ _, presenter_inv) external w.
Proof.
  intros Hi Hblk Hw Hh. unfold register, stream. do 2 wp_step. destruct (_ || _) eqn:E.
  { apply Quiet_keeps; [apply _|done]. }
  rewrite !orb_false_iff in E. destruct E as [[[_ Hsize] Hid] Hfull].
  apply Z.leb_gt in Hsize. apply bool_decide_eq_false in Hid. apply eq_None_not_Some in Hid.
  wp_step. eapply wp_mono; [apply Quiet_host| |done]. intros ? w1 Hq1.
  wp_step. eapply wp_mono; [apply new_lane_wp| |done]. intros lane w2 [Hq2 Hok].
  wp_step. eapply wp_mono; [apply Quiet_fresh| |done]. intros params w3 Hq3.
  wp_step. eapply wp_mono; [by apply Quiet_emit| |done]. intros ? w4 Hq4.
  assert (Hq : quiet w w4) by exact (transitivity Hq1 (transitivity Hq2 (transitivity Hq3 Hq4))).
  pose proof (inv_quiet _ _ Hq Hi) as Hi4. pose proof (qt_stream _ _ Hq) as Hs4.
  wp_step. apply wp_modify. do 2 wp_step. cbn [w_stream imports set_buffers]. rewrite Hs4.
  rewrite imports_insert_ok; [|done..|].
  2:{ intros (i & He & Hin)%list_elem_of_fmap. destruct (pi_pending _ Hi i Hin) as (b & Hb & _).
      cbn in He. congruence. }
  apply wp_modify. eapply (inv_register w4 _ m lane attempt params); rewrite ?Hs4; try done.
  by apply Z.leb_gt in Hfull.
Qed.

(** An allocation that no read and no import needs is forgotten. *)
Lemma inv_forget w id :
  presenter_inv w → (∀ r, r ∈ reads (w_stream w) → rd_buffer r ≠ id) →
  (id ∉ im_buffer <$> imports (w_stream w)) →
  presenter_inv (with_stream (set_buffers (delete id (buffers (w_stream w))) (w_stream w)) w).
Proof.
  intros [I0 I1 I2 I3 I4 I5 I6 I7 I8 I9 I10] Hr Himp. split; cbn; try done.
  - by apply reads_inv_forget.
  - intros i x [_ Hx]%lookup_delete_Some. by eapply I2.
  - assert (size (delete id (buffers (w_stream w))) ≤ size (buffers (w_stream w)))%nat; [|lia].
    apply map_subseteq_size, delete_subseteq.
  - intros i Hi. destruct (I4 i Hi) as (b & Hb & Hn). exists b. rewrite lookup_delete_ne; [done|].
    intros ->. by apply Himp, list_elem_of_fmap_2.
  - eapply views_inv_reads; [done..|]. intros x v i t b r Hv Hsrc [_ Hb]%lookup_delete_Some Hrr Hrb Hrt.
    by exists b, r.
Qed.

Lemma keeps_unregister id : keeps_inv (unregister id).
Proof.
  intros w Hi. unfold unregister, stream. do 2 wp_step. destruct (_ || _) eqn:E.
  { apply Quiet_keeps; [apply _|done]. }
  rewrite !orb_false_iff in E. destruct E as [[Himp _] Hr].
  wp_step. apply (wp_mono _ (λ _, quiet w) _ external); [|intros ? w1 Hq|done].
  { destruct (_ ≫= _); [by apply Quiet_emit|by apply Quiet_ret]. }
  wp_step. apply wp_modify. apply Quiet_keeps; [apply _|].
  pose proof (inv_quiet _ _ Hq Hi) as Hi1. pose proof (qt_stream _ _ Hq) as Hs.
  apply (inv_forget w1 id Hi1); rewrite Hs.
  - intros r Hin <-. assert (existsb (λ r0, rd_buffer r0 =? rd_buffer r) (reads (w_stream w)) = true);
      [|congruence]. apply existsb_exists. exists r. rewrite Z.eqb_refl. by rewrite <- list_elem_of_In.
  - intros Hin%imports_contains_spec. congruence.
Qed.

(** ** Imports *)

(** Finishing an import removes it from the pending ones. *)
Lemma inv_finish w rest i :
  presenter_inv w → imports (w_stream w) ≡ₚ i :: rest →
  presenter_inv (with_stream (set_imports rest (w_stream w)) w)
  ∧ (im_buffer i ∉ im_buffer <$> rest).
Proof.
  intros [I0 I1 I2 I3 I4 I5 I6 I7 I8 I9 I10] Hp.
  rewrite Hp in I5. cbn in I5. apply NoDup_cons in I5 as [Hn I5]. split; [|done].
  split; cbn; try done.
  - intros j Hj. apply I4. rewrite Hp. by right.
  - unfold zlen in *. rewrite (Permutation_length Hp) in I6. cbn in I6. lia.
Qed.

(** The compositor's buffer becomes the allocation's: nothing reads it yet. *)
Lemma inv_imported w id b buffer :
  presenter_inv w → buffers (w_stream w) !! id = Some b → sr_buffer b = None →
  (id ∉ im_buffer <$> imports (w_stream w)) →
  presenter_inv (with_stream (set_buffers (alter (set_imported (Some buffer)) id (buffers (w_stream w)))
                                (w_stream w)) w).
Proof.
  intros [I0 I1 I2 I3 I4 I5 I6 I7 I8 I9 I10] Hb Hn Himp.
  assert (Hlook : ∀ i x, alter (set_imported (Some buffer)) id (buffers (w_stream w)) !! i = Some x →
    ∃ y, buffers (w_stream w) !! i = Some y ∧ sr_metadata x = sr_metadata y ∧ (i ≠ id → x = y)).
  { intros i x. destruct (decide (i = id)) as [->|].
    - rewrite lookup_alter_eq, Hb. intros [= <-]. by exists b.
    - rewrite lookup_alter_ne by done. by exists x. }
  split; cbn; try done.
  - by apply reads_inv_imported.
  - intros i x (y & Hy & -> & _)%Hlook. by eapply I2.
  - assert (Hz : size (const tt <$> alter (set_imported (Some buffer)) id (buffers (w_stream w)))
      = size (const tt <$> buffers (w_stream w))).
    { f_equal. apply map_eq. intros i. rewrite !lookup_fmap. destruct (decide (i = id)) as [->|].
      - by rewrite lookup_alter_eq, Hb.
      - by rewrite lookup_alter_ne. }
    rewrite !map_size_fmap in Hz. by rewrite Hz.
  - intros i Hi. destruct (I4 i Hi) as (y & Hy & Hny). exists y.
    rewrite lookup_alter_ne; [done|]. intros ->. by apply Himp, list_elem_of_fmap_2.
  - eapply views_inv_reads; [done..|]. intros x v i t b1 r Hv Hsrc (y & Hy & _ & He)%Hlook Hrr Hrb Hrt.
    destruct (decide (i = id)) as [->|Hne].
    + exfalso. assert (is_Some (sr_buffer b)) as [? ?]; [|congruence].
      eapply (ri_imported _ _ _ I1 r); [done|by rewrite Hrb].
    + rewrite (He Hne). by exists y, r.
Qed.

Lemma keeps_attempt {A} (m : lp A) w :
  keeps_inv m → presenter_inv w → (∀ w' e, m w = (w', Err e) → presenter_inv w') →
  wp (attempt (F := LayerError) m) (λ _, presenter_inv) external w.
Proof.
  intros Hm Hi He. apply wp_attempt. intros w' [a|e] Hr.
  - by apply (wp_run_Ok _ _ _ _ _ _ (Hm w Hi)) in Hr.
  - by eapply He.
Qed.

(** A failed reply changes the kernel only. *)
Lemma send_Err socket r w w' e :
  send socket r w = (w', Err e) → presenter_inv w → presenter_inv w'.
Proof.
  unfold send. intros Hr Hi. apply m_bind_Err in Hr as [Hr|(w1 & u & _ & Hr)]; [|done].
  unfold on_kernel in Hr. destruct (send_record _ _ _) as [k [?|?]]; [done|]. injection Hr as <- _.
  by destruct Hi.
Qed.

Lemma keeps_imported params buffer : keeps_inv (layer_imported params buffer).
Proof.
  intros w Hi. unfold layer_imported, stream. do 2 wp_step.
  unfold imports_finish. destruct (position _ _) as [index|] eqn:Ep; [|by apply wp_ret].
  destruct (position_Some _ _ _ Ep) as (i & Hix & _). rewrite Hix.
  destruct (inv_finish w _ i Hi (swap_remove_perm _ _ _ Hix)) as [Hi1 Hnot].
  destruct (pi_pending _ Hi i) as (b & Hb & Hn); [by eapply list_elem_of_lookup_2|].
  wp_step. apply wp_modify. fold (with_stream (set_imports (swap_remove index (imports (w_stream w))) (w_stream w)) w).
  wp_step. eapply wp_mono; [by apply Quiet_emit| |done]. intros ? w2 Hq.
  pose proof (inv_quiet _ _ Hq Hi1) as Hi2. pose proof (qt_stream _ _ Hq) as Hs2. cbn in Hs2.
  wp_step. apply (wp_mono _ (λ _, presenter_inv) _ external); [|intros code w3 Hi3|done].
  - destruct buffer as [x|].
    + wp_step. apply wp_lift. rewrite Hb. cbn. wp_step. apply wp_modify. apply wp_ret.
      apply (inv_imported w2 (im_buffer i) b x Hi2); rewrite ?Hs2; done.
    + wp_step. apply wp_modify. apply wp_ret.
      apply (inv_forget w2 (im_buffer i) Hi2); rewrite ?Hs2; cbn; [|done].
      intros r Hr He. assert (is_Some (sr_buffer b)) as [? ?]; [|congruence].
      eapply (ri_imported _ _ _ (pi_reads _ Hi) r); [done|by rewrite He].
  - wp_step. apply (wp_mono _ (λ _, presenter_inv) _ external); [|intros ? w4 Hi4; by apply wp_ret|done].
    destruct (connected _); [|by apply wp_ret]. wp_step.
    eapply wp_mono; [apply keeps_attempt; [apply Quiet_keeps; apply _|exact Hi3|]| |done].
    + intros w' e Hr. unfold answer_import in Hr. destruct (im_attempt i); eapply send_Err; done.
    + intros r w4 Hi4. by apply wp_ret.
Qed.

(** ** The connection *)

Lemma keeps_disconnect : keeps_inv (disconnect (K := K)).
Proof.
  unfold disconnect. do 2 (apply keeps_bind; [by apply keeps_update|intros _]).
  apply keeps_bind; [apply keeps_clear_staged|intros _]. intros w Hi. wp_step.
  eapply wp_mono; [by apply hide_wp| |done]. intros ? w1 (Hi1 & _). unfold task. do 2 wp_step.
  destruct (lt_root _) as [root|] eqn:Hroot; [|by apply wp_ret]. apply wp_modify.
  eapply (inv_views w1 _ [CommitSurface root]); [exact Hi1|reflexivity|..|reflexivity|reflexivity|reflexivity|reflexivity].
  - eapply views_inv_frame; [|reflexivity|exact (pi_views _ Hi1)]. intros s Hs. apply Forall_singleton.
    apply Z.eqb_neq. intros ->. destruct (pi_root _ Hi1 s Hroot). destruct Hs; [done|cbn in *; lia].
  - reflexivity.
Qed.

Lemma keeps_configuration {A} (m : method ConfigPublisher WireError A) : keeps_inv (on_configuration (K := K) m).
Proof.
  intros w Hi. unfold wp, on_configuration. destruct (m _) as [c [a|e]]; cbn; [|done].
  exact (keeps_update (set_configuration c) (λ _, eq_refl) w Hi).
Qed.

Lemma keeps_subscribe alpha : keeps_inv (subscribe_config (K := K) alpha).
Proof.
  unfold subscribe_config. apply keeps_bind; [apply Quiet_keeps, _|intros k].
  apply keeps_bind; [apply keeps_configuration|intros words]. by apply Quiet_keeps, Quiet_send.
Qed.

Lemma keeps_query alpha : keeps_inv (query_config (K := K) alpha).
Proof.
  unfold query_config. apply keeps_bind; [apply Quiet_keeps, _|intros k]. by apply Quiet_keeps, Quiet_send.
Qed.

Lemma keeps_publish alpha : keeps_inv (publish_config (K := K) alpha).
Proof.
  unfold publish_config. apply keeps_bind; [apply Quiet_keeps, _|intros k].
  apply keeps_bind; [apply Quiet_keeps, _|intros s]. destruct (connected s); cbn [negb]; [|apply Quiet_keeps, _].
  apply keeps_bind; [apply keeps_configuration|intros words]. apply keeps_bind; [|intros _; apply Quiet_keeps, _].
  destruct words; apply Quiet_keeps; [by apply Quiet_send|apply _].
Qed.

Lemma keeps_abort_scene : keeps_inv (abort_scene (K := K)).
Proof.
  unfold abort_scene. apply keeps_bind; [apply keeps_clear_staged|intros _].
  apply keeps_bind; [apply Quiet_keeps, _|intros s]. apply keeps_bind; [by apply keeps_update|intros _].
  apply keeps_bind; [|intros _; apply Quiet_keeps, _].
  destruct (_ ≫= _); apply Quiet_keeps; [by apply Quiet_send|apply _].
Qed.

Lemma keeps_abort_wait : keeps_inv (abort_timeline_wait (K := K)).
Proof.
  unfold abort_timeline_wait. apply keeps_bind; [apply Quiet_keeps, _|intros s].
  destruct (waiting s); [|apply Quiet_keeps, _]. apply keeps_bind; [by apply keeps_update|intros _].
  apply keeps_bind; [apply keeps_clear_staged|intros _]. apply Quiet_keeps, _.
Qed.

End presenter.
