(* ===== verification/LayerCommit.v ===== *)
(** * Showing a scene

    The commit of an assessed scene: every layer gets its view, its content and
    its read, and the invariant of the presenter holds again after each of them. *)

From S2P Require Import Prelude Hoare Syncobj Ipc SurfaceBridge LayerStream LayerProofs LayerCodec FrameGrants LayerPresenter LayerLanes LayerReads LayerViews LayerInv LayerRelease.

Section presenter.

Context {K : Type} `{PresenterOps K}.

Abbreviation world := (LayerPresenter.world (K := K)).
Implicit Types (w : world) (l : Layer) (v : View).

(** ** The view of a layer *)

Lemma last_split {A} (xs : list A) x :
  last xs = Some x → xs = take (length xs - 1) xs ++ [x].
Proof.
  destruct xs as [|y xs _] using rev_ind; [done|]. rewrite last_snoc. intros [= ->].
  rewrite length_app. cbn. rewrite Nat.add_sub. by rewrite take_app_length.
Qed.

(** The world after a surface [s] was created for the layer [id]. *)
Lemma inv_create_view w w' id timelines :
  presenter_inv w → views (w_stream w) !! id = None → spare_views (w_stream w) = [] →
  (size (views (w_stream w)) < 64)%nat →
  quiet (mkWorld (w_kernel w) (w_task w) (w_clock w) (w_stream w) (CreateSurface (w_next w) :: w_wayland w)
           (w_sent w) (w_next w + 1)) w' →
  let v := mkView (w_next w) timelines false None None None in
  let s' := set_views (<[id := v]> (views (w_stream w'))) (spare_views (w_stream w')) (w_stream w') in
  presenter_inv (with_stream s' w') ∧ w_stream w' = w_stream w ∧ calm w (with_stream s' w').
Proof.
  intros Hi Hid Hspare Hsize [Hc Hs Hk Hn (lg & Hlg & Hsil)] v s'. cbn in *.
  split_and!; [|done|by split; cbn; rewrite ?Hs].
  pose proof Hi as [I0 I1 I2 I3 I4 I5 I6 I7 I8 I9 I10]. subst s'.
  assert (Hlog : w_wayland w' = (lg ++ [CreateSurface (w_next w)]) ++ w_wayland w) by by rewrite <- app_assoc.
  assert (Hsil2 : ∀ s, Forall (λ r, touches s r = false) (lg ++ [CreateSurface (w_next w)])).
  { intros s. apply Forall_app. split; [by apply silent_touches|]. by apply Forall_singleton. }
  assert (Hv : views_inv (buffers (w_stream w)) (reads (w_stream w)) (last_ticket (w_stream w))
    (w_wayland w') (w_next w) (views (w_stream w)) []).
  { rewrite Hlog, <- Hspare. by eapply views_inv_frame. }
  assert (Hok : view_ok (buffers (w_stream w)) (reads (w_stream w)) (last_ticket (w_stream w))
    (w_wayland w') v).
  { destruct (vi_log _ _ _ _ _ _ _ Hv (w_next w)) as [Ha Hsh]; [lia|].
    split; [by left| |done|done]. cbn. by rewrite Ha, Hsh. }
  apply (views_inv_create _ _ _ _ _ _ id v) in Hv; [|done..|cbn; lia|done].
  split; cbn; rewrite ?Hs, ?Hspare; try done.
  - unfold tickets_inv in *. by rewrite Hc.
  - change (w_wayland w') with ([] ++ w_wayland w'). by eapply views_inv_frame.
  - intros root Hr. unfold window in Hk. injection Hk as _ Hroot _. rewrite Hroot in Hr.
    destruct (I10 root Hr) as [Hlt Hout]. split; [lia|]. rewrite surfaces_insert by done.
    rewrite Hspare in Hout. rewrite not_elem_of_cons. split; [cbn; lia|done].
Qed.

(** A layer keeps its view; a new one gets a blank view of its own. *)
Lemma view_for_layer_wp timelines id w :
  presenter_inv w → (views (w_stream w) !! id = None → (size (views (w_stream w)) < 64)%nat) →
  wp (view_for_layer timelines id)
    (λ v w', presenter_inv w' ∧ calm w w' ∧ imports (w_stream w') = imports (w_stream w)
       ∧ views (w_stream w') = <[id := v]> (views (w_stream w))
       ∧ (∀ u, views (w_stream w) !! id = Some u → v = u)
       ∧ (views (w_stream w) !! id = None → idle_view v)) external w.
Proof.
  intros Hi Hsize. unfold view_for_layer, stream. do 2 wp_step.
  destruct (views (w_stream w) !! id) as [v|] eqn:Hv.
  { apply wp_ret. split_and!; [done..| |by intros ? [= <-]|done]. by rewrite insert_id. }
  wp_step. destruct (last (spare_views (w_stream w))) as [v|] eqn:Hl.
  - apply last_split in Hl. wp_step. apply wp_modify, wp_ret. wp_step. apply wp_modify, wp_ret. cbn.
    pose proof (pi_views _ Hi) as Hvi. rewrite Hl in Hvi. apply (views_inv_reuse _ _ _ _ _ _ _ id) in Hvi as [Hvi Hid]; [|done].
    split_and!; [|done..].
    eapply (inv_views w _ []); [exact Hi|reflexivity|..|reflexivity|reflexivity|reflexivity|reflexivity]; cbn; [done|].
    rewrite surfaces_insert by done. by rewrite <- surfaces_push, <- Hl.
  - apply last_None in Hl. unfold create_view. wp_step. unfold wp at 1, fresh_proxy. wp_step.
    set (s := w_next w) in *. apply wp_modify. wp_step. eapply wp_mono; [apply Quiet_host| |done].
    intros ? w2 Hq2. wp_step. eapply wp_mono; [by apply Quiet_emit| |done]. intros ? w3 Hq3.
    apply wp_ret. wp_step. apply wp_modify, wp_ret. pose proof (transitivity Hq2 Hq3) as Hq. clear Hq2 Hq3.
    apply (inv_create_view w _ id timelines) in Hq; [|done..|by apply Hsize]. cbn [set_views w_stream] in *.
    destruct Hq as (Hi3 & Hs3 & Hc3). split_and!; [exact Hi3|exact Hc3|..]; cbn; rewrite ?Hs3; done.
Qed.

(** ** The content of a layer *)

(** What applying a layer to its view has done, before the view's surface is
    committed. *)
Record applied l v w w' : Prop := {
  ap_meta : meta <$> buffers (w_stream w') = meta <$> buffers (w_stream w);
  ap_other : ∀ id, id ≠ ly_buffer l → buffers (w_stream w') !! id = buffers (w_stream w) !! id;
  ap_keep : ∀ r, r ∈ reads (w_stream w) → r ∈ reads (w_stream w');
  ap_new : ∀ r, r ∈ reads (w_stream w') → r ∈ reads (w_stream w)
    ∨ (ly_buffer l ≠ 0 ∧ rd_buffer r = ly_buffer l ∧ rd_ticket r = ly_ticket l);
  ap_last : last_ticket (w_stream w) ≤ last_ticket (w_stream w');
  ap_reads : reads_inv (buffers (w_stream w')) (reads (w_stream w')) (last_ticket (w_stream w'));
  ap_tickets : tickets_inv (w_sent w') (reads (w_stream w')) (last_ticket (w_stream w'));
  ap_rest : (imports (w_stream w'), st_layers (staged (w_stream w')), spare_views (w_stream w'))
    = (imports (w_stream w), st_layers (staged (w_stream w)), spare_views (w_stream w));
  ap_sent : completed (w_sent w') = completed (w_sent w);
  ap_window : window (w_task w') = window (w_task w);
  ap_next : w_next w ≤ w_next w';
  ap_log : ∃ lg, w_wayland w' = lg ++ w_wayland w
    ∧ ∀ s, s ≠ vw_surface v → Forall (λ r, touches s r = false) lg;
  ap_held : ly_buffer l ≠ 0 →
    ∃ r, r ∈ reads (w_stream w') ∧ rd_buffer r = ly_buffer l ∧ rd_ticket r = ly_ticket l;
  ap_view : ∃ v', views (w_stream w') = <[ly_id l := v']> (views (w_stream w))
    ∧ vw_surface v' = vw_surface v
    ∧ claim_ok (buffers (w_stream w')) (reads (w_stream w')) (w_wayland w')
        (view_content (Some (content_new l)) v')
    ∧ (∀ color b, vw_solid v' = Some (color, b) → CreatePixel b color ∈ w_wayland w')
}.

(** The view takes its new content and geometry, and its surface is committed. *)
Definition commit_view l (g : Geometry) v w : world :=
  mkWorld (w_kernel w) (w_task w) (w_clock w)
    (set_views (alter (λ v, view_content (Some (content_new l)) (view_geometry (Some g) v)) (ly_id l)
                  (views (w_stream w))) (spare_views (w_stream w)) (w_stream w))
    (CommitSurface (vw_surface v) :: DamageBuffer (vw_surface v) :: w_wayland w) (w_sent w) (w_next w).

Lemma inv_commit_view l g v w w' :
  presenter_inv w → views (w_stream w) !! ly_id l = Some v → applied l v w w' →
  (∀ x u, ly_buffer l ≠ 0 → views (w_stream w) !! x = Some u →
     view_source u = Some (ly_buffer l, ly_ticket l) →
     ∃ r, r ∈ reads (w_stream w) ∧ rd_buffer r = ly_buffer l ∧ rd_ticket r = ly_ticket l) →
  presenter_inv (commit_view l g v w').
Proof.
  intros Hi Hv Ha Hno. pose proof Hi as [I0 I1 I2 I3 I4 I5 I6 I7 I8 I9 I10].
  destruct Ha as [A1 A2 A3 A4 A5 A6 A7 A8 A9 A10 A11 (lg & Hlg & Hout) A13 (v' & Hv' & Hsf & Hclaim & Hpx)].
  injection A8 as E1 E2 E3. unfold window in A10. injection A10 as _ Hroot _.
  set (v2 := view_content (Some (content_new l)) (view_geometry (Some g) v')).
  assert (Hviews : views (w_stream (commit_view l g v w')) = <[ly_id l := v2]> (views (w_stream w))).
  { cbn. rewrite Hv', (alter_view _ _ v') by apply lookup_insert_eq. apply insert_insert_eq. }
  assert (Hp := surfaces_update _ (spare_views (w_stream w)) (ly_id l) v v2 Hv Hsf).
  assert (Hlt : vw_surface v < w_next w) by (eapply vi_fresh; [exact I9|by eapply surfaces_view]).
  split; try (cbn; rewrite ?E1, ?E2, ?E3, ?Hroot; done).
  - cbn. intros i x Hx. destruct (meta_lookup _ _ _ _ A1 Hx) as (y & Hy & He).
    injection He as He _. rewrite <- He. by eapply I2.
  - cbn. assert (Hz : size (meta <$> buffers (w_stream w')) = size (meta <$> buffers (w_stream w))) by by rewrite A1.
    rewrite !map_size_fmap in Hz. by rewrite Hz.
  - cbn. rewrite E1. intros i Hin. destruct (I4 i Hin) as (y & Hy & Hnone).
    destruct (meta_lookup _ _ _ _ (eq_sym A1) Hy) as (x & Hx & [= _ He]). exists x. split; [done|congruence].
  - rewrite Hviews. cbn [w_stream w_wayland w_next commit_view spare_views set_views buffers reads last_ticket].
    rewrite E3, Hlg.
    change (views_inv (buffers (w_stream w')) (reads (w_stream w')) (last_ticket (w_stream w'))
      (([CommitSurface (vw_surface v); DamageBuffer (vw_surface v)] ++ lg) ++ w_wayland w) (w_next w')
      (<[ly_id l := v2]> (views (w_stream w))) (spare_views (w_stream w))).
    eapply views_inv_update; [|exact Hv|done|..].
    + eapply (views_inv_reads _ _ _ _ _ _ _ (w_next w')); [|exact A5|].
      * change (w_wayland w) with ([] ++ w_wayland w). by eapply views_inv_frame.
      * intros x u i t b1 r Hu Hsrc Hb1 Hr Hrb Hrt.
        destruct (meta_lookup _ _ _ _ A1 Hb1) as (y & Hy & [= _ He]).
        destruct (A4 r Hr) as [Hold|(Hz & Hrb2 & Hrt2)]; [by exists y, r|].
        destruct (Hno x u Hz Hu) as (r0 & Hr0 & Hrb0 & Hrt0); [congruence|]. exists y, r0. split_and!; congruence.
    + intros s Hs. apply Forall_app. split; [|by apply Hout].
      repeat apply Forall_cons_2; [by apply Z.eqb_neq|done|constructor].
    + split.
      * rewrite <- app_assoc, <- Hlg. unfold claim_ok, blank in *. exact Hclaim.
      * cbn. rewrite Hsf, Z.eqb_refl. done.
      * intros color b Hs. rewrite <- app_assoc, <- Hlg. do 2 right. by apply Hpx.
      * intros i t. unfold v2, view_source, content_new. cbn. destruct (Z.eqb_spec (ly_buffer l) 0); [done|].
        intros [= <- <-]. destruct (A13 n) as (r & Hr & _ & <-). by apply (ri_last _ _ _ A6).
  - intros root. rewrite Hviews. cbn. rewrite Hroot, E3, Hp. intros Hr. destruct (I10 root Hr).
    split; [lia|done].
Qed.

Lemma applied_quiet l v w w1 w' : quiet w w1 → applied l v w1 w' → applied l v w w'.
Proof.
  intros [Hc Hs Hk Hn (lg & Hlg & Hsil)] [A1 A2 A3 A4 A5 A6 A7 A8 A9 A10 A11 (lg' & Hlg' & Hout) A13 A14].
  rewrite Hs in *. split; try done; try congruence; try lia.
  exists (lg' ++ lg). rewrite Hlg', Hlg, app_assoc. split; [done|]. intros s Hne. apply Forall_app.
  split; [by apply Hout|by apply silent_touches].
Qed.

(** A view changed in place, everything else quiet. *)
Definition retouched (id : Z) v' w w' : Prop :=
  quiet (with_stream (set_views (<[id := v']> (views (w_stream w))) (spare_views (w_stream w))
                        (w_stream w)) w) w'.

Lemma retouched_refl id v w : views (w_stream w) !! id = Some v → retouched id v w w.
Proof.
  intros Hv. unfold retouched. rewrite insert_id by done. by destruct w as [? ? ? []].
Qed.

Lemma retouched_quiet id v w w1 w2 : retouched id v w w1 → quiet w1 w2 → retouched id v w w2.
Proof. unfold retouched. intros H1 H2. exact (transitivity H1 H2). Qed.

Lemma retouched_modify id v w0 w f :
  retouched id v w0 w →
  retouched id (f v) w0
    (with_stream (set_views (alter f id (views (w_stream w))) (spare_views (w_stream w)) (w_stream w)) w).
Proof.
  intros Hr. pose proof (quiet_with_stream (set_views (<[id := f v]> (views (w_stream w0)))
    (spare_views (w_stream w0)) (w_stream w0)) _ _ Hr) as Hq2.
  unfold retouched. rewrite (qt_stream _ _ Hr). cbn.
  rewrite (alter_view _ _ v) by apply lookup_insert_eq. rewrite insert_insert_eq. exact Hq2.
Qed.

(** [modify_view] and then a quiet effect. *)
Lemma retouch_wp id v w0 w f (m : lp unit) :
  retouched id v w0 w → Quiet m →
  wp (_ ← modify_view id f; m) (λ _, retouched id (f v) w0) external w.
Proof.
  intros Hr Hs. wp_step. apply wp_modify. eapply wp_mono; [apply Hs| |done].
  intros ? w' Hq. eapply retouched_quiet; [|exact Hq]. by apply retouched_modify.
Qed.

(** The reads and the window of a retouched world. *)
Lemma applied_retouched l v v' w w2 w' :
  presenter_inv w → retouched (ly_id l) v' w w2 → vw_surface v' = vw_surface v →
  w_stream w' = w_stream w2 → w_task w' = w_task w2 → w_sent w' = w_sent w2 → w_next w' = w_next w2 →
  (∃ lg, w_wayland w' = lg ++ w_wayland w2
     ∧ ∀ s, s ≠ vw_surface v → Forall (λ r, touches s r = false) lg) →
  (ly_buffer l ≠ 0 →
     ∃ r, r ∈ reads (w_stream w) ∧ rd_buffer r = ly_buffer l ∧ rd_ticket r = ly_ticket l) →
  claim_ok (buffers (w_stream w)) (reads (w_stream w)) (w_wayland w') (view_content (Some (content_new l)) v') →
  (∀ color b, vw_solid v' = Some (color, b) → CreatePixel b color ∈ w_wayland w') →
  applied l v w w'.
Proof.
  intros Hi [Hc Hs Hk Hn (lg & Hlg & Hsil)] Hsf Es Et Ese En (lg' & Hlg' & Hout) Hheld Hclaim Hpx.
  cbn in *. split; rewrite ?Es, ?Hs, ?Et, ?Ese, ?En; cbn; try done; eauto.
  - by destruct Hi.
  - destruct Hi as [Hti]. unfold tickets_inv in *. by rewrite Hc.
  - exists (lg' ++ lg). rewrite Hlg', Hlg, app_assoc. split; [done|]. intros s Hne. apply Forall_app.
    split; [by apply Hout|by apply silent_touches].
Qed.

(** A pixel of the color, newly drawn or kept from before. *)
Lemma show_solid_wp l v w :
  presenter_inv w → views (w_stream w) !! ly_id l = Some v → ly_buffer l = 0 →
  wp (show_solid l v) (λ _, applied l v w) external w.
Proof.
  intros Hi Hv Hz. unfold show_solid. wp_step.
  apply (wp_mono _ (λ _ w1, ∃ v1, retouched (ly_id l) v1 w w1 ∧ vw_surface v1 = vw_surface v
    ∧ vw_solid v1 = vw_solid v) _ external); [|intros ? w1 (v1 & Hr1 & Hs1 & Hsol1)|done].
  { unfold when. destruct (vw_sync v).
    - eapply wp_mono; [apply (retouch_wp _ v w); [by apply retouched_refl|by apply Quiet_emit]| |done].
      intros ? w1 Hr. by exists (view_sync false v).
    - apply wp_ret. exists v. split; [by apply retouched_refl|done]. }
  wp_step.
  apply (wp_mono _ (λ b w2, ∃ v2, retouched (ly_id l) v2 w w2 ∧ vw_surface v2 = vw_surface v
    ∧ vw_solid v2 = Some (ly_color l, b) ∧ CreatePixel b (ly_color l) ∈ w_wayland w2) _ external);
    [|intros b w2 (v2 & Hr2 & Hs2 & Hsol2 & Hin)|done].
  - assert (Hpx : wp (pixel (ly_color l)) (λ b w2, quiet w1 w2 ∧ CreatePixel b (ly_color l) ∈ w_wayland w2) external w1).
    { pose proof (Quiet_pixel (ly_color l) w1) as Hq. unfold wp in *.
      destruct (pixel (ly_color l) w1) as [w2 [b|e]] eqn:E; [|done]. split; [done|].
      unfold pixel, emit in E. inv_method. subst. cbn. left. }
    assert (Hdraw : wp (draw_pixel l v) (λ b w2, ∃ v2, retouched (ly_id l) v2 w w2
      ∧ vw_surface v2 = vw_surface v ∧ vw_solid v2 = Some (ly_color l, b)
      ∧ CreatePixel b (ly_color l) ∈ w_wayland w2) external w1).
    { unfold draw_pixel. wp_step. eapply wp_mono; [exact Hpx| |done]. intros b w2 [Hq Hin].
      wp_step. apply wp_modify. wp_step.
      apply (wp_mono _ (λ _, quiet (with_stream (set_views (alter (view_solid (Some (ly_color l, b))) (ly_id l)
        (views (w_stream w2))) (spare_views (w_stream w2)) (w_stream w2)) w2)) _ external);
        [|intros ? w3 Hq3; apply wp_ret|done].
      { destruct (vw_solid v) as [[]|]; [by apply Quiet_emit|apply Quiet_ret]. }
      exists (view_solid (Some (ly_color l, b)) v1). split_and!; [|done..|].
      - eapply retouched_quiet; [|exact Hq3]. apply retouched_modify. by eapply retouched_quiet.
      - destruct (qt_log _ _ Hq3) as (lg & -> & _). apply elem_of_app. by right. }
    destruct (vw_solid v) as [[color b0]|] eqn:Hsol; [|exact Hdraw].
    destruct (Z.eqb_spec color (ly_color l)) as [->|Hne]; [|exact Hdraw].
    apply wp_ret. exists v1. split_and!; [done..|].
    destruct (qt_log _ _ Hr1) as (lg & -> & _). apply elem_of_app. right. cbn.
    by eapply (vo_pixel _ _ _ _ _ (vi_views _ _ _ _ _ _ _ (pi_views _ Hi) _ _ Hv)).
  - apply wp_modify. eapply applied_retouched; [exact Hi|exact Hr2|done..| |done| |].
    + exists [Attach (vw_surface v) (Some b)]. split; [done|]. intros s Hne. apply Forall_singleton.
      by apply Z.eqb_neq.
    + unfold claim_ok, content_new. rewrite Hz. cbn. exists b. by rewrite Hs2, Z.eqb_refl.
    + cbn. rewrite Hsol2. intros color b' [= <- <-]. by right.
Qed.

(** *** Reads *)

(** A quiet effect after the stream became [s]. *)
Lemma quiet_stream_step s w w1 w2 : quiet (with_stream s w) w1 → quiet w1 w2 → quiet (with_stream s w) w2.
Proof. intros H1 H2. exact (transitivity H1 H2). Qed.

Lemma quiet_restream s s' w w1 : quiet (with_stream s w) w1 → quiet (with_stream s' w) (with_stream s' w1).
Proof. intros Hq. exact (quiet_with_stream s' _ _ Hq). Qed.

(** The record of a read at the end of [apply_layer], for a world whose lanes,
    views and requests were prepared as [s] and [lg]. *)
Lemma applied_record l v w lane point sent ln bs v' w1 :
  presenter_inv w → views (w_stream w) !! ly_id l = Some v →
  w_stream w1 = set_buffers bs (set_views (<[ly_id l := v']> (views (w_stream w)))
                                  (spare_views (w_stream w)) (w_stream w)) →
  completed (w_sent w1) = completed (w_sent w) → window (w_task w1) = window (w_task w) →
  w_next w ≤ w_next w1 →
  (∃ lg, w_wayland w1 = lg ++ w_wayland w
     ∧ ∀ s, s ≠ vw_surface v → Forall (λ r, touches s r = false) lg) →
  meta <$> bs = meta <$> buffers (w_stream w) →
  (∀ id, id ≠ ly_buffer l → bs !! id = buffers (w_stream w) !! id) →
  reads_inv bs (reads (w_stream w)) (last_ticket (w_stream w)) →
  lane_of bs (ly_buffer l) lane = Some ln → point = ln_next_point ln → 0 < point →
  (sent = false → lc_exported (core ln) < point) →
  (∀ b, bs !! ly_buffer l = Some b → is_Some (sr_buffer b)
     ∧ attached (vw_surface v) (w_wayland w1) = Some (sr_buffer b)) →
  (ly_ticket l ∉ completed (w_sent w) ++ (rd_ticket <$> reads (w_stream w))) →
  ly_buffer l ≠ 0 → vw_surface v' = vw_surface v → vw_solid v' = vw_solid v →
  wp (record_read l lane point sent) (λ _, applied l v w) external w1.
Proof.
  intros Hi Hv Hs1 Hc Hk Hn (lg & Hlg & Hout) Hm Hother Hri Hlane Hp Hpos Hexp Hb Hfresh Hz Hsf Hsol.
  unfold record_read. wp_step. apply wp_modify. apply wp_modify.
  set (r := mkRead (ly_buffer l) lane (ly_ticket l) point sent).
  rewrite not_elem_of_app in Hfresh. destruct Hfresh as [Hf1 Hf2].
  assert (Hri' := reads_inv_add bs (reads (w_stream w)) (last_ticket (w_stream w)) r ln Hri Hlane
    (λ b Hb', proj1 (Hb b Hb')) Hp Hpos Hexp Hf2). cbn in Hri'.
  split; cbn; rewrite ?Hs1; cbn; try done.
  - rewrite meta_alter by done. done.
  - intros id Hid. rewrite lookup_alter_ne by done. by apply Hother.
  - intros r' Hr'. apply elem_of_app. by left.
  - intros r' [Hr'|Hr']%elem_of_app; [by left|]. apply list_elem_of_singleton in Hr' as ->. by right.
  - lia.
  - destruct (pi_tickets _ Hi) as [Hu Hlast]. unfold tickets_inv. rewrite Hc, fmap_app. cbn. split.
    + rewrite app_assoc. apply NoDup_app. split_and!; [done| |apply NoDup_singleton].
      intros x Hx Hx'. apply list_elem_of_singleton in Hx'. subst x.
      apply elem_of_app in Hx as [?|?]; done.
    + intros t Ht. specialize (Hlast t Ht). lia.
  - by exists lg.
  - exists r. split; [|done]. apply elem_of_app. right. by apply list_elem_of_singleton.
  - exists v'. split_and!; [done..| |].
    + unfold claim_ok, content_new. destruct (Z.eqb_spec (ly_buffer l) 0); [done|]. cbn. rewrite Hsf.
      intros b x (b0 & Hb0 & -> & _)%lookup_ticket _ _ _. by apply Hb.
    + intros color b. rewrite Hsol, Hlg. intros Hs. apply elem_of_app. right.
      by eapply (vo_pixel _ _ _ _ _ (vi_views _ _ _ _ _ _ _ (pi_views _ Hi) _ _ Hv)).
Qed.

(** A relabelled read keeps its attachment and takes a new name. *)
Lemma relabel_read_wp l v held b w :
  presenter_inv w → views (w_stream w) !! ly_id l = Some v → ly_buffer l ≠ 0 →
  buffers (w_stream w) !! ly_buffer l = Some b → sr_ticket b = Some held →
  view_source v = Some (ly_buffer l, held) →
  (ly_ticket l ∉ completed (w_sent w) ++ (rd_ticket <$> reads (w_stream w))) →
  wp (relabel_read l held) (λ _, applied l v w) external w.
Proof.
  intros Hi Hv Hz Hb Ht Hsrc Hfresh. unfold relabel_read, stream. do 2 wp_step.
  destruct (ri_held _ _ _ (pi_reads _ Hi) _ _ _ Hb Ht) as (r0 & Hr0 & Hrb0 & Hrt0).
  destruct (find _ _) as [r|] eqn:Ef.
  2:{ eapply find_none in Ef; [|by apply list_elem_of_In]. cbn in Ef.
      by rewrite Hrb0, Hrt0, !Z.eqb_refl in Ef. }
  apply find_some in Ef as [Hr%list_elem_of_In Hm]. apply andb_true_iff in Hm as [Hrb%Z.eqb_eq Hrt%Z.eqb_eq].
  destruct (read_lane w r Hi Hr) as (b' & ln & Hb' & Hl & Hp & Hpos & Hexp). rewrite Hrb, Hb in Hb'.
  injection Hb' as <-.
  eapply (applied_record l v w _ _ _ ln (buffers (w_stream w)) v); try done.
  - rewrite insert_id by done. by destruct (w_stream w).
  - by exists [].
  - exact (pi_reads _ Hi).
  - unfold lane_of. rewrite Hb. done.
  - intros b1. rewrite Hb. intros [= <-]. split.
    + eapply (ri_imported _ _ _ (pi_reads _ Hi) r); [done|by rewrite Hrb].
    + pose proof (vo_claim _ _ _ _ _ (vi_views _ _ _ _ _ _ _ (pi_views _ Hi) _ _ Hv)) as Hc.
      unfold claim_ok, view_source in *. destruct (vw_content v) as [[i t|]|]; simplify_eq.
      by eapply Hc.
Qed.

Lemma free_lane_Some id rs b lane :
  free_lane id rs b = Some lane →
  (lane < length (sr_lanes b))%nat ∧ ∀ r, r ∈ rs → occupies id lane r = false.
Proof.
  unfold free_lane. intros [Hin Hf]%find_some. apply in_seq in Hin. split; [lia|].
  intros r Hr. apply negb_true_iff in Hf. destruct (occupies id lane r) eqn:E; [|done].
  exfalso. apply not_true_iff_false in Hf. apply Hf, existsb_exists. exists r.
  by rewrite <- list_elem_of_In.
Qed.

(** A read starts on a lane of its own. *)
Lemma start_read_wp l v acquire b w :
  presenter_inv w → views (w_stream w) !! ly_id l = Some v → ly_buffer l ≠ 0 →
  buffers (w_stream w) !! ly_buffer l = Some b → is_Some (sr_buffer b) →
  (ly_ticket l ∉ completed (w_sent w) ++ (rd_ticket <$> reads (w_stream w))) →
  wp (start_read l acquire v b) (λ _, applied l v w) external w.
Proof.
  intros Hi Hv Hz Hb Himp Hfresh. unfold start_read, stream. do 2 wp_step.
  set (id := ly_buffer l) in *.
  (** The lane: free, or pushed. *)
  wp_step. apply (wp_mono _ (λ lane w1, ∃ bs b1 ln, quiet (with_stream (set_buffers bs (w_stream w)) w) w1
    ∧ bs !! id = Some b1 ∧ sr_lanes b1 !! lane = Some ln ∧ lane_ok ln ∧ meta b1 = meta b
    ∧ reads_inv bs (reads (w_stream w)) (last_ticket (w_stream w))
    ∧ meta <$> bs = meta <$> buffers (w_stream w)
    ∧ (∀ i, i ≠ id → bs !! i = buffers (w_stream w) !! i)
    ∧ ∀ r, r ∈ reads (w_stream w) → occupies id lane r = false) _ external);
    [|intros lane w1 (bs & b1 & ln & Hq1 & Hb1 & Hln & Hok & Hmb & Hri & Hm & Hother & Hfree)|done].
  { destruct (free_lane _ _ _) as [lane|] eqn:Ef.
    - apply free_lane_Some in Ef as [Hlt Hfree]. destruct (lookup_lt_is_Some_2 (sr_lanes b) lane Hlt) as [ln Hln].
      apply wp_ret. exists (buffers (w_stream w)), b, ln. split_and!; try done.
      + destruct w as [? ? ? [] ? ? ?]. reflexivity.
      + apply (ri_lanes _ _ _ (pi_reads _ Hi) id lane). unfold lane_of. by rewrite Hb.
      + exact (pi_reads _ Hi).
    - wp_step. eapply wp_mono; [apply new_lane_wp| |done]. intros ln w1 [Hq Hok]. wp_step.
      apply wp_modify, wp_ret. pose proof (qt_stream _ _ Hq) as Hs. cbn. rewrite Hs.
      exists (alter (push_lane ln) id (buffers (w_stream w))), (push_lane ln b), ln. split_and!; try done.
      + by apply quiet_with_stream.
      + by rewrite lookup_alter_eq, Hb.
      + cbn. apply list_lookup_middle. done.
      + apply reads_inv_push_lane; [exact (pi_reads _ Hi)|done].
      + by apply meta_alter.
      + intros i Hne. by rewrite lookup_alter_ne.
      + intros r Hr. destruct (occupies id (length (sr_lanes b)) r) eqn:E; [|done].
        apply occupies_spec in E as [Hrb Hrl]. destruct (read_lane w r Hi Hr) as (b' & l' & Hb' & Hl' & _).
        rewrite Hrb, Hb in Hb'. injection Hb' as <-. apply lookup_lt_Some in Hl'. lia. }
  (** The points. *)
  pose proof (qt_stream _ _ Hq1) as Hs1. cbn in Hs1.
  wp_step. eapply on_lane_wp; [by rewrite Hs1|done|]. apply begin_read_wp; [done|]. cbn [snd fst].
  intros kl Hok' Hpr Hnext Hexp.
  set (n := lc_next (core ln)) in *. set (bs2 := <[id := with_lane lane kl.2 b1]> bs).
  assert (Hnn : 0 ≤ n) by (unfold lane_ok, core_ok in Hok; fold n in Hok; lia).
  assert (Hri2 : reads_inv bs2 (reads (w_stream w)) (last_ticket (w_stream w))).
  { eapply reads_inv_with_lane; [exact Hri|done..|]. intros r Hr Hrb Hrl. exfalso.
    specialize (Hfree r Hr). apply not_true_iff_false in Hfree. by apply Hfree, occupies_spec. }
  assert (Hq2 : quiet (with_stream (set_buffers bs2 (w_stream w)) w) (put_lane id lane b1 kl w1)).
  { pose proof (quiet_restream _ (set_buffers bs2 (w_stream w)) _ _ Hq1) as Hq.
    destruct Hq as [Q0 Q1 Q2 Q3 Q4]. split; try done. unfold put_lane. cbn. rewrite Hs1. done. }
  (** The synchronization surface. *)
  set (target v' := set_buffers bs2 (set_views (<[ly_id l := v']> (views (w_stream w)))
    (spare_views (w_stream w)) (w_stream w))).
  wp_step. apply (wp_mono _ (λ _ w3, ∃ v', quiet (with_stream (target v') w) w3
    ∧ vw_surface v' = vw_surface v ∧ vw_solid v' = vw_solid v) _ external);
    [|intros ? w3 (v' & Hq3 & Hsf & Hsol)|done].
  { unfold when. destruct (negb (vw_sync v)).
    - wp_step. apply wp_modify. eapply wp_mono; [by apply Quiet_emit| |done]. intros ? w3 Hq3.
      exists (view_sync true v). split; [|done]. eapply quiet_stream_step; [|exact Hq3].
      pose proof (quiet_restream _ (target (view_sync true v)) _ _ Hq2) as Hq.
      pose proof (qt_stream _ _ Hq2) as Hs2. rewrite Hs2. cbn. rewrite (alter_view _ _ v) by done. exact Hq.
    - apply wp_ret. exists v. split; [|done]. unfold target. rewrite insert_id by done.
      destruct w as [? ? ? [] ? ? ?]. exact Hq2. }
  wp_step. eapply wp_mono; [by apply Quiet_emit| |done]. intros ? w4 Hq4.
  wp_step. eapply wp_mono; [by apply Quiet_emit| |done]. intros ? w5 Hq5.
  pose proof (quiet_stream_step _ _ _ _ (quiet_stream_step _ _ _ _ Hq3 Hq4) Hq5) as [Q0 Q1 Q2 Q3 (lg & Hlg & Hsil)].
  wp_step. apply wp_modify. cbn in Q0, Q1, Q2, Q3, Hlg.
  eapply (applied_record l v w lane (n + 2) false kl.2 bs2 v'); cbn; try done.
  - exists (Attach (vw_surface v) (sr_buffer b) :: lg). rewrite Hlg. split; [done|]. intros s Hne.
    apply Forall_cons. split; [by apply Z.eqb_neq|by apply silent_touches].
  - unfold bs2. rewrite (meta_insert _ _ b1) by done. done.
  - intros i Hne. unfold bs2. rewrite lookup_insert_ne by done. by apply Hother.
  - unfold lane_of, bs2. rewrite lookup_insert_eq. cbn. apply list_lookup_insert_eq. by eapply lookup_lt_Some.
  - change (0 < n + 2). lia.
  - intros _. change (lc_exported (core kl.2) < n + 2). unfold lane_ok, core_ok in Hok. fold n in Hok. lia.
  - intros b2. unfold bs2. rewrite lookup_insert_eq. intros [= <-]. cbn. rewrite Z.eqb_refl.
    injection Hmb as _ ->. done.
Qed.

(** ** One layer *)

(** What the assessment of the scene left to rely on for a layer that is still
    to be shown; [isnew] tells the layers that start or relabel a read. *)
Definition pending_ok (isnew : Layer → bool) w l : Prop :=
  ly_transform l ≤ 7 ∧
  (ly_buffer l ≠ 0 → ∃ b, buffers (w_stream w) !! ly_buffer l = Some b ∧ is_Some (sr_buffer b) ∧
     if isnew l
     then sr_ticket b ≠ Some (ly_ticket l)
       ∧ (ly_ticket l ∉ completed (w_sent w) ++ (rd_ticket <$> reads (w_stream w)))
       ∧ ∀ x u, views (w_stream w) !! x = Some u → view_source u ≠ Some (ly_buffer l, ly_ticket l)
     else sr_ticket b = Some (ly_ticket l)
       ∧ ∃ v, views (w_stream w) !! ly_id l = Some v ∧ view_source v = Some (ly_buffer l, ly_ticket l)).

(** A layer that is on its view, with its read in flight. *)
Definition done_ok w l : Prop :=
  ∃ v, views (w_stream w) !! ly_id l = Some v ∧ vw_content v = Some (content_new l)
    ∧ (ly_buffer l ≠ 0 →
       ∃ r, r ∈ reads (w_stream w) ∧ rd_buffer r = ly_buffer l ∧ rd_ticket r = ly_ticket l).

(** What showing [l] leaves alone. *)
Record beside l w w' : Prop := {
  bd_buffers : ∀ id, id ≠ ly_buffer l → buffers (w_stream w') !! id = buffers (w_stream w) !! id;
  bd_keep : ∀ r, r ∈ reads (w_stream w) → r ∈ reads (w_stream w');
  bd_new : ∀ r, r ∈ reads (w_stream w') → r ∈ reads (w_stream w)
    ∨ (ly_buffer l ≠ 0 ∧ rd_buffer r = ly_buffer l ∧ rd_ticket r = ly_ticket l);
  bd_views : ∀ x, x ≠ ly_id l → views (w_stream w') !! x = views (w_stream w) !! x;
  bd_view : is_Some (views (w_stream w') !! ly_id l);
  bd_content : ∀ v, views (w_stream w') !! ly_id l = Some v → vw_content v = Some (content_new l);
  bd_staged : st_layers (staged (w_stream w')) = st_layers (staged (w_stream w));
  bd_sent : completed (w_sent w') = completed (w_sent w);
  bd_window : window (w_task w') = window (w_task w)
}.

Section layer.

Context (scene : option Z) (grant : option Target) (feedback_layer : option Z) (isnew : Layer → bool).

Lemma starts_read_new l v b s :
  ly_buffer l ≠ 0 → buffers s !! ly_buffer l = Some b → sr_ticket b ≠ Some (ly_ticket l) →
  starts_read l v s = bool_decide (relabelled l v s = None).
Proof.
  intros Hz Hb Ht. unfold starts_read. rewrite Hb, (bool_decide_eq_false_2 (sr_ticket b = _)) by done.
  destruct (Z.eqb_spec (ly_buffer l) 0); [done|]. cbn. by rewrite andb_true_r.
Qed.

Lemma relabelled_Some l v b s held :
  buffers s !! ly_buffer l = Some b → relabelled l v s = Some held →
  sr_ticket b = Some held ∧ view_source v = Some (ly_buffer l, held).
Proof.
  intros Hb. unfold relabelled, held_ticket. rewrite Hb.
  destruct (sr_ticket b) as [h|]; [|done]. destruct (h =? ly_ticket l); [done|].
  case_bool_decide; [|done]. by intros [= <-].
Qed.

Lemma held_kept l v b s :
  ly_buffer l ≠ 0 → buffers s !! ly_buffer l = Some b → sr_ticket b = Some (ly_ticket l) →
  starts_read l v s = false ∧ relabelled l v s = None.
Proof.
  intros Hz Hb Ht. unfold starts_read, relabelled, held_ticket. rewrite Hb, Ht, Z.eqb_refl.
  split; [|done]. rewrite !bool_decide_eq_true_2 by done. apply andb_false_r.
Qed.

Lemma apply_layer_wp l acquire previous g v changed w :
  presenter_inv w → views (w_stream w) !! ly_id l = Some v → ge_transform g ≤ 7 →
  pending_ok isnew w l →
  wp (apply_layer scene grant feedback_layer l acquire previous g v changed) (λ _, applied l v w) external w.
Proof.
  intros Hi Hv Hg [_ Hp]. unfold apply_layer.
  wp_step. eapply wp_mono; [apply Quiet_when, Quiet_add_feedback| |done]. intros ? w1 Hq1.
  unfold stream. do 2 wp_step.
  assert (Hstep : ∀ m : lp unit, Quiet m → ∀ (k : lp unit) wx, quiet w wx →
    (∀ wy, quiet w wy → wp k (λ _, applied l v w) external wy) → wp (_ ← m; k) (λ _, applied l v w) external wx).
  { intros m Hm k wx Hqx Hk. apply wp_bind. eapply wp_mono; [apply Hm| |done]. intros ? wy Hqy.
    apply Hk. exact (transitivity Hqx Hqy). }
  apply Hstep; [destruct grant; [apply Quiet_when; by apply Quiet_emit|apply _]|done|].
  intros w2 Hq2. apply Hstep; [by apply Quiet_when, Quiet_place|done|]. intros w3 Hq3.
  rewrite (qt_stream _ _ Hq1). pose proof (inv_quiet _ _ Hq3 Hi) as Hi3.
  pose proof (qt_stream _ _ Hq3) as Hs3. pose proof (qt_sent _ _ Hq3) as Hc3.
  assert (Hv3 : views (w_stream w3) !! ly_id l = Some v) by by rewrite Hs3.
  eapply wp_mono; [|intros ? w' Ha; exact (applied_quiet _ _ _ _ _ Hq3 Ha)|done].
  destruct (Z.eqb_spec (ly_buffer l) 0) as [Hz|Hz]; [by apply show_solid_wp|].
  destruct (Hp Hz) as (b & Hb & Himp & Hcase). rewrite Hb.
  destruct (isnew l).
  - destruct Hcase as (Ht & Hfresh & Hno). rewrite (starts_read_new l v b) by done.
    destruct (relabelled l v (w_stream w)) as [held|] eqn:Er.
    + rewrite bool_decide_eq_false_2 by done. destruct (relabelled_Some _ _ _ _ _ Hb Er).
      eapply relabel_read_wp; rewrite ?Hs3, ?Hc3; done.
    + rewrite bool_decide_eq_true_2 by done. eapply start_read_wp; rewrite ?Hs3, ?Hc3; done.
  - destruct Hcase as (Ht & u & Hu & Hsrc). rewrite Hv in Hu. injection Hu as <-.
    destruct (held_kept l v b (w_stream w) Hz Hb Ht) as [-> ->]. apply wp_ret.
    pose proof (vi_views _ _ _ _ _ _ _ (pi_views _ Hi3) _ _ Hv3) as Hok.
    eapply (applied_retouched l v v w3 w3); [done|by apply retouched_refl|done..| | | |]; rewrite ?Hs3.
    + by exists [].
    + intros _. destruct (ri_held _ _ _ (pi_reads _ Hi) _ _ _ Hb Ht) as (r & ? & ? & ?). eauto.
    + pose proof (vo_claim _ _ _ _ _ Hok) as Hclaim. rewrite Hs3 in Hclaim.
      unfold claim_ok, view_source, content_new in *. destruct (vw_content v) as [[i t|]|] eqn:Ec; simplify_eq.
      destruct (Z.eqb_spec (ly_buffer l) 0); [done|]. exact Hclaim.
    + apply (vo_pixel _ _ _ _ _ Hok).
Qed.

Lemma update_view_wp l acquire previous g v w :
  presenter_inv w → views (w_stream w) !! ly_id l = Some v → ge_transform g ≤ 7 →
  pending_ok isnew w l →
  wp (update_view scene grant feedback_layer l acquire previous g v)
    (λ _ w', presenter_inv w' ∧ done_ok w' l ∧ beside l w w') external w.
Proof.
  intros Hi Hv Hg Hp. unfold update_view. destruct (negb _ && _) eqn:E.
  - apply andb_true_iff in E as [_ E]. apply bool_decide_eq_true in E. apply wp_ret.
    split_and!; [done| |].
    + exists v. split_and!; [done..|]. intros Hz. destruct Hp as [_ Hp].
      destruct (Hp Hz) as (b & Hb & _ & Hcase). destruct (isnew l).
      * destruct Hcase as (_ & _ & Hno). destruct (Hno _ _ Hv). unfold view_source. rewrite E.
        unfold content_new. by destruct (Z.eqb_spec (ly_buffer l) 0).
      * destruct Hcase as [Ht _]. destruct (ri_held _ _ _ (pi_reads _ Hi) _ _ _ Hb Ht) as (r & ? & ? & ?). eauto.
    + split; try done; eauto. intros v0. rewrite Hv. by intros [= <-].
  - wp_step. eapply wp_mono; [by apply apply_layer_wp| |done]. intros ? w1 Ha.
    wp_step. apply wp_modify. wp_step. apply wp_modify. apply wp_modify.
    change (presenter_inv (commit_view l g v w1) ∧ done_ok (commit_view l g v w1) l
      ∧ beside l w (commit_view l g v w1)).
    destruct (ap_view _ _ _ _ Ha) as (v' & Hv' & _).
    assert (Hl : views (w_stream (commit_view l g v w1)) !! ly_id l
      = Some (view_content (Some (content_new l)) (view_geometry (Some g) v'))).
    { cbn. by rewrite lookup_alter_eq, Hv', lookup_insert_eq. }
    split_and!.
    + eapply inv_commit_view; [done..|]. intros x u Hz Hu Hsrc. destruct Hp as [_ Hp].
      destruct (Hp Hz) as (b & Hb & _ & Hcase). destruct (isnew l).
      * destruct Hcase as (_ & _ & Hno). by destruct (Hno _ _ Hu).
      * destruct Hcase as [Ht _]. destruct (ri_held _ _ _ (pi_reads _ Hi) _ _ _ Hb Ht) as (r & ? & ? & ?). eauto.
    + eexists. split_and!; [exact Hl|done|]. apply (ap_held _ _ _ _ Ha).
    + split; try apply Ha.
      * intros x Hx. cbn. by rewrite lookup_alter_ne, Hv', lookup_insert_ne.
      * by rewrite Hl.
      * intros v0. rewrite Hl. by intros [= <-].
      * pose proof (ap_rest _ _ _ _ Ha) as Hr. by injection Hr.
Qed.

(** ** All layers *)

(** Two layers of a scene share no view, no allocation and no new ticket. *)
Definition apart l l2 : Prop :=
  ly_id l2 ≠ ly_id l ∧ (ly_buffer l ≠ 0 → ly_buffer l2 ≠ ly_buffer l)
  ∧ (ly_buffer l ≠ 0 → ly_buffer l2 ≠ 0 → isnew l = true → isnew l2 = true → ly_ticket l2 ≠ ly_ticket l).

Lemma pending_beside l l2 w w' :
  presenter_inv w → pending_ok isnew w l → pending_ok isnew w l2 → apart l l2 → beside l w w' →
  pending_ok isnew w' l2.
Proof.
  intros Hi [_ Hpl] [Ht Hp] (Hid & Hbuf & Htk) Hb. split; [done|]. intros Hz.
  destruct (Hp Hz) as (b & Hlook & Himp & Hcase). exists b.
  assert (Hne : ly_buffer l2 ≠ ly_buffer l).
  { destruct (decide (ly_buffer l = 0)) as [->|]; [done|by apply Hbuf]. }
  rewrite (bd_buffers _ _ _ Hb) by done. split_and!; [done..|].
  destruct (isnew l2) eqn:En.
  - destruct Hcase as (Hst & Hfresh & Hno). split_and!; [done| |].
    + rewrite (bd_sent _ _ _ Hb). rewrite not_elem_of_app in *. destruct Hfresh as [? Hfr]. split; [done|].
      intros (r & Hrt & Hr)%list_elem_of_fmap. destruct (bd_new _ _ _ Hb r Hr) as [Hold|(Hzl & _ & Hrl)].
      { apply Hfr. rewrite Hrt. by apply list_elem_of_fmap_2. }
      destruct (Hpl Hzl) as (bl & Hbl & _ & Hcl). destruct (isnew l) eqn:Enl.
      { apply (Htk Hzl Hz); [done..|congruence]. }
      destruct Hcl as [Hsl _]. destruct (ri_held _ _ _ (pi_reads _ Hi) _ _ _ Hbl Hsl) as (r' & Hr' & _ & Hrt').
      apply Hfr. replace (ly_ticket l2) with (rd_ticket r') by congruence. by apply list_elem_of_fmap_2.
    + intros x u Hu. destruct (decide (x = ly_id l)) as [->|Hx].
      * pose proof (bd_content _ _ _ Hb u Hu) as Hc. unfold view_source. rewrite Hc. unfold content_new.
        destruct (ly_buffer l =? 0); [done|]. intros [= ? _]. congruence.
      * rewrite (bd_views _ _ _ Hb) in Hu by done. by eapply Hno.
  - destruct Hcase as (Hst & v & Hv & Hsrc). split; [done|]. exists v.
    by rewrite (bd_views _ _ _ Hb).
Qed.

Lemma done_beside l l0 w w' : done_ok w l0 → beside l w w' → ly_id l0 ≠ ly_id l → done_ok w' l0.
Proof.
  intros (v & Hv & Hc & Hr) Hb Hne. exists v. rewrite (bd_views _ _ _ Hb) by done. split_and!; [done..|].
  intros Hz. destruct (Hr Hz) as (r & Hin & ? & ?). exists r. split; [|done]. by apply (bd_keep _ _ _ Hb).
Qed.

(** Giving a layer its view changes no other layer's. *)
Lemma pending_view l id v w w1 :
  pending_ok isnew w l → calm w w1 → views (w_stream w1) = <[id := v]> (views (w_stream w)) →
  (∀ u, views (w_stream w) !! id = Some u → v = u) → (views (w_stream w) !! id = None → idle_view v) →
  pending_ok isnew w1 l.
Proof.
  intros [Ht Hp] [Hs Hc _] Hv Hold Hnew. split; [done|]. intros Hz.
  injection Hs as E1 E2 _ _ _ _. rewrite E1, E2, Hc, Hv.
  destruct (Hp Hz) as (b & Hb & Himp & Hcase). exists b. split_and!; [done..|]. destruct (isnew l).
  - destruct Hcase as (? & ? & Hno). split_and!; [done..|]. intros x u.
    destruct (decide (x = id)) as [->|]; [|rewrite lookup_insert_ne by done; apply Hno].
    rewrite lookup_insert_eq. intros [= <-]. destruct (views (w_stream w) !! id) as [u|] eqn:Hu.
    + rewrite (Hold u) by done. by eapply Hno.
    + destruct Hnew as [Hcn _]; [done|]. unfold view_source. by rewrite Hcn.
  - destruct Hcase as (? & u & Hu & Hsrc). split; [done|]. exists u. split; [|done].
    destruct (decide (ly_id l = id)) as [<-|]; [|by rewrite lookup_insert_ne].
    rewrite lookup_insert_eq. f_equal. by apply Hold.
Qed.

Lemma done_view l id v w w1 :
  done_ok w l → calm w w1 → views (w_stream w1) = <[id := v]> (views (w_stream w)) →
  (∀ u, views (w_stream w) !! id = Some u → v = u) → done_ok w1 l.
Proof.
  intros (u & Hu & Hc & Hr) [Hs _ _] Hv Hold. injection Hs as _ E2 _ _ _ _.
  exists u. rewrite Hv, E2. split_and!; [|done..].
  destruct (decide (ly_id l = id)) as [<-|]; [|by rewrite lookup_insert_ne].
  rewrite lookup_insert_eq. f_equal. by apply Hold.
Qed.

Context (timelines : bool) (logical physical : Z * Z) (ids : gset Z).
Context (Hids : (size ids ≤ 64)%nat).

Lemma show_layers_wp layers : ∀ previous above w,
  presenter_inv w → Forall (λ p, pending_ok isnew w p.1 ∧ ly_id p.1 ∈ ids) layers →
  ForallOrdPairs apart layers.*1 → dom (views (w_stream w)) ⊆ ids →
  wp (show_layers scene grant feedback_layer timelines logical physical previous above layers)
    (λ _ w', presenter_inv w' ∧ Forall (done_ok w') layers.*1
       ∧ (∀ l0, done_ok w l0 → Forall (λ l, ly_id l0 ≠ ly_id l) layers.*1 → done_ok w' l0)
       ∧ dom (views (w_stream w')) ⊆ ids
       ∧ window (w_task w') = window (w_task w) ∧ completed (w_sent w') = completed (w_sent w)) external w.
Proof.
  induction layers as [|[l acquire] layers IH]; intros previous above w Hi Hp Hap Hdom; cbn [show_layers].
  { apply wp_ret. by split_and!. }
  apply Forall_cons in Hp as [[Hpl Hlid] Hp]. cbn [fst] in *. cbn in Hap. inversion Hap as [|? ? Hl Hap']; subst.
  wp_step. eapply wp_mono; [apply view_for_layer_wp; [done|]| |done].
  { intros Hnone. assert (size (dom (views (w_stream w))) < size ids)%nat; [|rewrite size_dom in *; lia].
    apply subset_size. split; [done|]. intros Hsub. apply Hsub in Hlid. by apply elem_of_dom in Hlid as [? ?]; simplify_eq. }
  intros v w1 (Hi1 & Hc1 & _ & Hv1 & Hold & Hnew).
  assert (Hpl1 := pending_view l _ _ _ _ Hpl Hc1 Hv1 Hold Hnew).
  wp_step. eapply wp_mono; [apply (update_view_wp l); [done|by rewrite Hv1, lookup_insert_eq| |done]| |done].
  { unfold geometry_new. destruct (ly_destination l) as [[[x y] ww] h]. cbn. apply Hpl. }
  intros ? w2 (Hi2 & Hd2 & Hb2).
  assert (Hdom2 : dom (views (w_stream w2)) ⊆ ids).
  { intros x Hx. apply elem_of_dom in Hx. destruct (decide (x = ly_id l)) as [->|Hne]; [done|].
    rewrite (bd_views _ _ _ Hb2), Hv1, lookup_insert_ne in Hx by done. by apply Hdom, elem_of_dom. }
  eapply wp_mono; [apply IH; [done| |done|done]| |done].
  - rewrite Forall_forall in Hp. rewrite Forall_forall in Hl. rewrite Forall_forall. intros [l2 a2] Hin. destruct (Hp _ Hin) as [Hp2 Hid2].
    split; [|done]. cbn in *. eapply (pending_beside l); [exact Hi1|done| |apply Hl|done].
    + by eapply pending_view.
    + by apply (list_elem_of_fmap_2 fst _ (l2, a2)).
  - intros ? w3 (Hi3 & Hf3 & Hk3 & Hdom3 & Hw3 & Hs3). split_and!; [done| | |done|..].
    + cbn. constructor; [|done]. apply Hk3; [done|]. eapply Forall_impl; [exact Hl|].
      intros l2 [Hne _]. by apply not_eq_sym.
    + intros l0 Hd0 [Hne Hne']%Forall_cons. apply Hk3; [|done]. eapply done_beside; [|done|done].
      by eapply done_view.
    + rewrite Hw3, (bd_window _ _ _ Hb2). apply Hc1.
    + rewrite Hs3, (bd_sent _ _ _ Hb2). apply Hc1.
Qed.

End layer.

End presenter.
