(* ===== verification/LayerScene.v ===== *)
(** * Submitting scenes

    The whole path of a commit: the assessment gives the facts the loop over
    the layers relies on, the root and its grant are settled, and the scene is
    answered.  Every request of SurfaceFlinger keeps the invariant. *)

From S2P Require Import Prelude Hoare Syncobj Ipc SurfaceBridge LayerStream LayerProofs LayerCodec FrameGrants LayerPresenter LayerLanes LayerReads LayerViews LayerInv LayerRelease LayerCommit.

Section presenter.

Context {K : Type} `{PresenterOps K}.

Abbreviation world := (LayerPresenter.world (K := K)).
Implicit Types (w : world) (l : Layer) (v : View).

(** ** What a ready scene promises *)

Lemma source_state_wf w : presenter_inv w → source_wf (source_state (w_stream w)).
Proof.
  intros Hi id st. unfold source_state. destruct (buffers (w_stream w) !! id) as [b|] eqn:Hb; [|done].
  intros [= <-]. cbn. by eapply (pi_sources _ Hi).
Qed.

Lemma new_reads_apart (f : Layer → bool) (layers : list Layer) :
  NoDup (ly_id <$> layers) → NoDup (ly_buffer <$> filter (λ l, buffered l = true) layers) →
  NoDup (ly_ticket <$> filter (λ l, f l = true) layers) →
  ForallOrdPairs (apart f) layers.
Proof.
  induction layers as [|l layers IH]; [constructor|]. rewrite !filter_cons. intros Hn Hb Ht.
  cbn in Hn. apply NoDup_cons in Hn as [Hid Hn]. constructor.
  - apply Forall_forall. intros l2 Hl2. unfold apart. split_and!.
    + intros He. apply Hid. rewrite <- He. by apply list_elem_of_fmap_2.
    + intros Hz He. rewrite decide_True in Hb by (unfold buffered; by apply negb_true_iff, Z.eqb_neq).
      cbn in Hb. apply NoDup_cons in Hb as [Hb _]. apply Hb. rewrite <- He.
      apply list_elem_of_fmap_2, list_elem_of_filter. split; [|done].
      unfold buffered. apply negb_true_iff, Z.eqb_neq. congruence.
    + intros _ _ Hf Hf2 He. rewrite decide_True in Ht by done. cbn in Ht.
      apply NoDup_cons in Ht as [Ht _]. apply Ht. rewrite <- He.
      by apply list_elem_of_fmap_2, list_elem_of_filter.
  - apply IH; [done|..].
    + destruct (decide (buffered l = true)); [by apply NoDup_cons in Hb as [_ ?]|done].
    + destruct (decide (f l = true)); [by apply NoDup_cons in Ht as [_ ?]|done].
Qed.

(** The layers of a scene that passed its assessment. *)
Lemma admitted_pending width height count w :
  presenter_inv w →
  let layers := st_layers (staged (w_stream w)) in
  let flagged := (λ p : Layer * option fd, (p.1, bool_decide (is_Some p.2))) <$> layers in
  assess_scene width height (last_ticket (w_stream w)) (source_state (w_stream w))
    (attached_read (w_stream w)) flagged count ≠ Invalid →
  let isnew := new_read (source_state (w_stream w)) in
  layers ≠ [] ∧ ForallOrdPairs (apart isnew) layers.*1 ∧ Forall (λ p, pending_ok isnew w p.1) layers.
Proof.
  intros Hi layers flagged Hr isnew. unfold assess_scene in Hr. destruct (_ || _) eqn:E; [done|].
  rewrite !orb_false_iff in E. destruct E as [[Hz Hc] _].
  assert (Hfl : flagged.*1 = layers.*1).
  { subst flagged. rewrite <- list_fmap_compose. by apply list_fmap_ext. }
  assert (Hlen : zlen flagged = zlen layers) by (unfold zlen, flagged; by rewrite length_fmap).
  apply assess_layers_sound in Hr.
  - apply scene_ok_from in Hr as (Hok & Hn & Hb & Ht). rewrite Hfl in Hn, Hb, Ht. split_and!.
    + intros ->. apply negb_false_iff, Z.eqb_eq in Hc. apply Z.eqb_neq in Hz. rewrite Hlen in Hc.
      unfold zlen in Hc. cbn in Hc. lia.
    + by apply new_reads_apart.
    + unfold flagged in Hok. rewrite Forall_fmap in Hok. eapply Forall_impl; [exact Hok|].
      intros [l acquire]. cbn. intros (_ & Htr & _ & Hcase). split; [done|]. intros Hzl.
      unfold buffered in Hcase. rewrite (proj2 (Z.eqb_neq _ _) Hzl) in Hcase. cbn in Hcase.
      destruct Hcase as (st & Hst & Himp & _ & _ & _ & Hread). unfold source_state in Hst.
      destruct (buffers (w_stream w) !! ly_buffer l) as [b|] eqn:Hbl; [|done]. injection Hst as <-.
      cbn in Himp. apply bool_decide_eq_true in Himp. exists b. split_and!; [done..|].
      assert (Hnew : isnew l = negb (keeps_read (source_state (w_stream w)) l)).
      { unfold isnew, new_read, buffered. by rewrite (proj2 (Z.eqb_neq _ _) Hzl). }
      assert (Hkeep : keeps_read (source_state (w_stream w)) l = bool_decide (sr_ticket b = Some (ly_ticket l))).
      { unfold keeps_read, source_state. by rewrite Hbl. }
      rewrite Hnew. destruct (keeps_read _ l) eqn:Ek; cbn [negb].
      * destruct Hread as [_ Ha]. symmetry in Hkeep. apply bool_decide_eq_true in Hkeep. split; [done|].
        unfold attached_read in Ha. destruct (views (w_stream w) !! ly_id l) as [v|]; [|done]. eauto.
      * symmetry in Hkeep. apply bool_decide_eq_false in Hkeep. split_and!; [done|..].
        -- rewrite elem_of_app. intros [Hin|(r & Hrt & Hin)%list_elem_of_fmap].
           ++ apply (proj2 (pi_tickets _ Hi)) in Hin. lia.
           ++ apply (ri_last _ _ _ (pi_reads _ Hi)) in Hin. lia.
        -- intros x u Hu Hsrc.
           apply (vo_last _ _ _ _ _ (vi_views _ _ _ _ _ _ _ (pi_views _ Hi) _ _ Hu)) in Hsrc. lia.
  - by apply source_state_wf.
  - apply Forall_fmap. eapply Forall_impl; [exact (pi_staged _ Hi)|]. by intros [].
Qed.

(** ** The root *)

Definition scene_of w := (views (w_stream w), reads (w_stream w), buffers (w_stream w)).

(** Effects on the root and the bookkeeping around a scene. *)
Definition rooted {A} (root : Z) (m : lp A) : Prop :=
  ∀ w, presenter_inv w → lt_root (w_task w) = Some root →
    wp m (λ _ w', presenter_inv w' ∧ scene_of w' = scene_of w ∧ window (w_task w') = window (w_task w)
            ∧ completed (w_sent w') = completed (w_sent w)) external w.

Lemma rooted_bind {A B} root (m : lp A) (f : A → lp B) :
  rooted root m → (∀ a, rooted root (f a)) → rooted root (m ≫= f).
Proof.
  intros Hm Hf w Hi Hr. apply wp_bind. eapply wp_mono; [by apply Hm| |done].
  intros a w1 (Hi1 & Hs1 & Hw1 & Hc1). eapply wp_mono; [apply Hf; [done|]| |done].
  - unfold window in Hw1. injection Hw1 as _ -> _. done.
  - intros ? w2 (Hi2 & Hs2 & Hw2 & Hc2). split_and!; [done|congruence..].
Qed.

Lemma rooted_quiet {A} root (m : lp A) : Quiet m → rooted root m.
Proof.
  intros Hm w Hi Hr. eapply wp_mono; [apply Hm| |done]. intros ? w' Hq.
  split_and!; [exact (inv_quiet _ _ Hq Hi)|unfold scene_of; by rewrite (qt_stream _ _ Hq)|apply Hq..].
Qed.

Lemma rooted_update root f :
  (∀ s, (parts (f s)).1 = (parts s).1 ∧ views (f s) = views s ∧ spare_views (f s) = spare_views s
        ∧ (st_layers (staged (f s)) = st_layers (staged s) ∨ st_layers (staged (f s)) = [])) →
  rooted root (update_stream f).
Proof.
  intros Hf w [I0 I1 I2 I3 I4 I5 I6 I7 I8 I9 I10] Hr. apply wp_modify.
  destruct (Hf (w_stream w)) as (Hp & Hv & Hsp & Hst). unfold parts in Hp. cbn in Hp. injection Hp as E1 E2 E3 E4.
  unfold scene_of. cbn. rewrite Hv, E1, E2. split_and!; [|done..].
  split; cbn; rewrite ?E1, ?E2, ?E3, ?E4, ?Hv, ?Hsp; try done; destruct Hst as [->| ->]; done.
Qed.

Lemma rooted_emit root r :
  (∀ s, s ≠ root → touches s r = false) → rooted root (emit r).
Proof.
  intros Ht w Hi Hr. apply wp_modify. split_and!; [|done..].
  destruct (pi_root _ Hi root Hr) as [Hlt Hout].
  eapply (inv_views w _ [r]); [exact Hi|reflexivity|..|reflexivity|reflexivity|reflexivity|reflexivity]; [|reflexivity].
  eapply views_inv_frame; [|reflexivity|exact (pi_views _ Hi)]. intros s Hs. apply Forall_singleton, Ht.
  intros ->. destruct Hs; [done|cbn in *; lia].
Qed.

Lemma touches_other r root s : (match r with Attach x _ | CommitSurface x => x = root | _ => True end) →
  s ≠ root → touches s r = false.
Proof. intros Hr Hs. destruct r; cbn in *; try done; subst; by apply Z.eqb_neq, not_eq_sym. Qed.

Ltac solve_rooted :=
  repeat (intros;
    first [ apply rooted_quiet; solve [apply _ | apply Quiet_emit; reflexivity | apply Quiet_update_task; reflexivity
                                      | apply Quiet_on_kernel; reflexivity | apply Quiet_add_feedback ]
          | apply rooted_emit; intros; eapply touches_other; [|eassumption]; reflexivity
          | apply rooted_update; intros; cbn; by auto
          | apply rooted_bind
          | case_match ]).

Lemma rooted_when root b m : rooted root m → rooted root (when b m).
Proof. intros Hm. destruct b; [done|]. apply rooted_quiet, Quiet_ret. Qed.

Lemma rooted_refresh root logical attach : rooted root (refresh_root root logical attach).
Proof. unfold refresh_root. apply rooted_bind; [apply rooted_quiet, _|intros s]. apply rooted_when. solve_rooted. Qed.

Lemma rooted_attach root size grant : rooted root (attach_backing root size grant).
Proof.
  unfold attach_backing. apply rooted_bind; [apply rooted_quiet, _|intros k].
  apply rooted_bind; [apply rooted_when; solve_rooted|intros _].
  apply rooted_bind; [solve_rooted|intros _]. apply rooted_bind; [apply rooted_quiet, _|intros s].
  do 2 (apply rooted_bind; [solve_rooted|intros _]). apply rooted_bind; [|solve_rooted].
  destruct grant; [apply rooted_when|]; solve_rooted.
Qed.

Lemma rooted_settle root scene grant feedback attach : rooted root (settle_grant root scene grant feedback attach).
Proof. unfold settle_grant. solve_rooted. Qed.

Lemma rooted_backing root logical preserve : rooted root (prepare_backing logical preserve).
Proof.
  unfold prepare_backing. destruct preserve; [apply rooted_quiet, _|].
  apply rooted_bind.
  { apply rooted_quiet, Quiet_lift. unfold carrier_size. destruct (_ || _); [|done]. by intros e [= <-]. }
  intros size. apply rooted_bind; [apply rooted_quiet, _|intros s]. apply rooted_bind; [|solve_rooted].
  apply rooted_when. solve_rooted.
Qed.

(** ** The commit *)

Section app.

Context (alpha timelines scene_presentation : bool) (formats : list (Z * Z)).

Definition scene_ids (layers : list Layer) : gset Z := list_to_set (ly_id <$> layers).

Lemma pending_same isnew w w' l :
  scene_of w' = scene_of w → completed (w_sent w') = completed (w_sent w) →
  pending_ok isnew w l → pending_ok isnew w' l.
Proof.
  unfold scene_of, pending_ok. intros [= -> -> ->] ->. done.
Qed.

(** Recycling keeps the views of the scene. *)
Lemma pending_recycled isnew (ids : gset Z) w w' l :
  calm w w' → (∀ id, views (w_stream w') !! id = if decide (id ∈ ids) then views (w_stream w) !! id else None) →
  ly_id l ∈ ids → pending_ok isnew w l → pending_ok isnew w' l.
Proof.
  intros [Hs Hc _] Hv Hid [Ht Hp]. split; [done|]. intros Hz. injection Hs as E1 E2 _ _ _ _.
  destruct (Hp Hz) as (b & Hb & Himp & Hcase). exists b. rewrite E1, E2, Hc. split_and!; [done..|].
  destruct (isnew l).
  - destruct Hcase as (? & ? & Hno). split_and!; [done..|]. intros x u. rewrite Hv. case_decide; [apply Hno|done].
  - destruct Hcase as (? & v & Hvv & Hsrc). split; [done|]. exists v. by rewrite Hv, decide_True.
Qed.

Lemma scene_ids_size (layers : list Layer) : (size (scene_ids layers) ≤ length layers)%nat.
Proof.
  unfold scene_ids. induction layers as [|l layers IH]; cbn; [done|].
  rewrite size_union_alt, size_singleton. etrans; [|apply le_n_S, IH].
  assert (size (list_to_set (ly_id <$> layers) ∖ {[ly_id l]} : gset Z)
    ≤ size (list_to_set (ly_id <$> layers) : gset Z))%nat by (apply subseteq_size; set_solver). lia.
Qed.

Definition around root w0 w : Prop :=
  presenter_inv w ∧ scene_of w = scene_of w0 ∧ lt_root (w_task w) = Some root.

Lemma rooted_around {A} root (m : lp A) w0 w :
  rooted root m → around root w0 w → wp m (λ _, around root w0) external w.
Proof.
  intros Hm (Hi & Hs & Hr). eapply wp_mono; [by apply Hm| |done]. intros ? w' (Hi' & Hs' & Hw' & _).
  split_and!; [done|congruence|]. unfold window in Hw'. injection Hw' as _ -> _. done.
Qed.

Lemma rooted_step {A B} root (m : lp A) (f : lp B) Q w0 w :
  rooted root m → around root w0 w → (∀ w', around root w0 w' → wp f Q external w') →
  wp (_ ← m; f) Q external w.
Proof.
  intros Hm Ha Hf. wp_step. eapply wp_mono; [by eapply rooted_around| |done]. intros ? w' Ha'. by apply Hf.
Qed.

(** What a committed scene leaves behind. *)
Definition on_screen (layers : list Layer) (root : Z) w : Prop :=
  presenter_inv w ∧ Forall (done_ok w) layers ∧ dom (views (w_stream w)) ⊆ scene_ids layers
  ∧ ∃ log, w_wayland w = CommitSurface root :: log.

Lemma commit_layers_wp isnew size scene grant root w :
  presenter_inv w → lt_root (w_task w) = Some root → is_Some (lt_logical_size (w_task w)) →
  ForallOrdPairs (apart isnew) (st_layers (staged (w_stream w))).*1 →
  Forall (λ p, pending_ok isnew w p.1) (st_layers (staged (w_stream w))) →
  wp (commit_layers timelines scene_presentation size scene grant)
    (λ _, on_screen (st_layers (staged (w_stream w))).*1 root) external w.
Proof.
  intros Hi Hroot [logical Hlog] Hap Hpend. set (layers := st_layers (staged (w_stream w))) in *.
  unfold commit_layers, task, stream. do 2 wp_step.
  wp_step. apply wp_lift. rewrite Hroot. cbn [ok_or].
  wp_step. apply wp_lift. rewrite Hlog. cbn [ok_or]. do 2 wp_step. fold layers.
  wp_step. eapply wp_mono; [by apply (rooted_backing root)| |done].
  intros backing w1 (Hi1 & Hs1 & Hw1 & Hc1).
  assert (Hroot1 : lt_root (w_task w1) = Some root) by (unfold window in Hw1; by injection Hw1 as _ -> _).
  wp_step. eapply wp_mono; [apply (rooted_update root); [|exact Hi1|done]| |done].
  { intros s. cbn. by auto. }
  intros ? w2 (Hi2 & Hs2 & Hw2 & Hc2).
  set (ids := scene_ids layers.*1). change (list_to_set (ly_id <$> layers.*1)) with ids.
  wp_step. eapply wp_mono; [by apply (recycle_views_wp w2 ids)| |done].
  intros ? w3 (Hi3 & Hcalm & Hv3).
  wp_step. eapply wp_mono; [apply (show_layers_wp scene grant _ isnew timelines logical size ids)| |done].
  - etrans; [apply scene_ids_size|]. rewrite length_fmap. pose proof (pi_staged_count _ Hi) as Hn.
    fold layers in Hn. unfold zlen, MAX_LAYERS in Hn. lia.
  - done.
  - rewrite Forall_forall in Hpend |- *. intros [l acq] Hin. cbn.
    assert (Hid : ly_id l ∈ ids).
    { unfold ids, scene_ids. rewrite elem_of_list_to_set. by apply list_elem_of_fmap_2, (list_elem_of_fmap_2 fst _ (l, acq)). }
    split; [|done]. eapply pending_recycled; [done..|].
    eapply pending_same; [exact Hs2|done|]. eapply pending_same; [exact Hs1|done|]. by apply (Hpend (l, acq)).
  - done.
  - intros x Hx. apply elem_of_dom in Hx. rewrite Hv3 in Hx. case_decide; [done|]. by destruct Hx.
  - intros ? w4 (Hi4 & Hd4 & _ & Hdom4 & Hw4 & _).
    assert (Hroot4 : lt_root (w_task w4) = Some root).
    { destruct Hcalm as [_ _ Hw3]. rewrite <- Hroot. unfold window in *. congruence. }
    assert (Ha4 : around root w4 w4) by by split_and!.
    eapply rooted_step; [|exact Ha4|]; [apply rooted_update; intros s; cbn; by auto|intros w5 Ha5].
    eapply rooted_step; [apply rooted_refresh|exact Ha5|intros w6 Ha6].
    eapply rooted_step; [|exact Ha6|intros w7 Ha7].
    { destruct backing as [[? []]|]; [apply rooted_attach|apply rooted_quiet, _..]. }
    eapply rooted_step; [apply rooted_settle|exact Ha7|intros w8 Ha8].
    assert (Ha9 : around root w4 (mkWorld (w_kernel w8) (w_task w8) (w_clock w8) (w_stream w8)
      (CommitSurface root :: w_wayland w8) (w_sent w8) (w_next w8))).
    { refine (rooted_around root (emit (CommitSurface root)) _ _ _ Ha8). apply rooted_emit.
      intros s Hne. by apply Z.eqb_neq, not_eq_sym. }
    wp_step. apply wp_modify. wp_step. apply wp_modify. apply wp_modify.
    destruct Ha9 as (Hi9 & Hs9 & _).
    pose proof (keeps_update (set_active true) (λ _, eq_refl) _ Hi9) as Hi10.
    split_and!.
    + by destruct Hi10.
    + eapply Forall_impl; [exact Hd4|]. intros l0. unfold scene_of in Hs9. cbn in Hs9.
      injection Hs9 as E1 E2 _. unfold done_ok. cbn. by rewrite E1, E2.
    + unfold scene_of in Hs9. cbn in Hs9. injection Hs9 as E1 _ _. cbn. by rewrite E1.
    + by eexists.
Qed.

(** ** Submissions *)

Lemma exact_geometry_logical logical width height (layers : list Layer) :
  layers ≠ [] → exact_geometry logical width height layers = true → is_Some logical.
Proof.
  destruct layers as [|l layers]; [done|]. intros _. unfold exact_geometry. cbn.
  destruct logical; [by eexists|]. done.
Qed.

(** A scene that was not refused belongs to a mapped window of known size. *)
Lemma scene_status_facts commit w :
  presenter_inv w → scene_status alpha commit (w_task w) (w_stream w) ≠ Invalid →
  let isnew := new_read (source_state (w_stream w)) in
  is_Some (lt_root (w_task w)) ∧ is_Some (lt_logical_size (w_task w))
  ∧ ForallOrdPairs (apart isnew) (st_layers (staged (w_stream w))).*1
  ∧ Forall (λ p, pending_ok isnew w p.1) (st_layers (staged (w_stream w))).
Proof.
  intros Hi Hst isnew. unfold scene_status in Hst. destruct (_ && _) eqn:E; [|done].
  rewrite !andb_true_iff in E. destruct E as [[[[[_ _] Hacc] _] _] Hgeo].
  destruct (admitted_pending _ _ _ _ Hi Hst) as (Hne & Hap & Hp). split_and!; [|..|done|done].
  - unfold accepts_present in Hacc. destruct (lt_flags _) as [[h u] c].
    rewrite !andb_true_iff in Hacc. destruct Hacc as [[[_ Hr] _] _]. by apply bool_decide_eq_true in Hr.
  - eapply exact_geometry_logical; [|exact Hgeo]. intros He. apply Hne. by destruct (st_layers _).
Qed.

Lemma quiet_scene w w' : quiet w w' → scene_of w' = scene_of w ∧ completed (w_sent w') = completed (w_sent w).
Proof. intros Hq. unfold scene_of. by rewrite (qt_stream _ _ Hq), (qt_sent _ _ Hq). Qed.

(** The last phase of a submission: the grant, the commit and the answer. *)
Lemma show_scene_wp isnew commit root w :
  presenter_inv w → lt_root (w_task w) = Some root → is_Some (lt_logical_size (w_task w)) →
  ForallOrdPairs (apart isnew) (st_layers (staged (w_stream w))).*1 →
  Forall (λ p, pending_ok isnew w p.1) (st_layers (staged (w_stream w))) →
  wp (show_scene timelines scene_presentation commit)
    (λ _ w', presenter_inv w' ∧
       ((waiting (w_stream w') = Some commit ∧ scene_of w' = scene_of w)
        ∨ ∃ w1, on_screen (st_layers (staged (w_stream w))).*1 root w1 ∧ quiet w1 w')) external w.
Proof.
  intros Hi Hroot Hlog Hap Hp. unfold show_scene.
  wp_step. eapply wp_mono; [apply Quiet_clock| |done]. intros now w1 Hq1.
  wp_step. eapply wp_mono; [apply Quiet_reserve| |done]. intros reserved w2 Hq2.
  pose proof (transitivity Hq1 Hq2) as Hq. destruct reserved as [target|].
  - wp_step. eapply wp_mono; [apply Quiet_android_frame| |done]. intros ? w3 Hq3.
    pose proof (transitivity Hq Hq3) as Hq'. destruct (quiet_scene _ _ Hq') as [Hs3 Hc3].
    pose proof (qt_window _ _ Hq') as Hw3. unfold window in Hw3. injection Hw3 as _ Hr3 Hl3.
    wp_step. eapply wp_mono; [apply (commit_layers_wp isnew _ _ _ root)| |done].
    + exact (inv_quiet _ _ Hq' Hi).
    + by rewrite Hr3.
    + by rewrite Hl3.
    + by rewrite (qt_stream _ _ Hq').
    + rewrite (qt_stream _ _ Hq'). eapply Forall_impl; [exact Hp|]. intros p. by apply pending_same.
    + rewrite (qt_stream _ _ Hq'). intros ? w4 Ho. eapply wp_mono; [apply Quiet_answer| |done].
      intros ? w5 Hq5. split; [by eapply (inv_quiet w4); [exact Hq5|destruct Ho]|]. right. by exists w4.
  - apply wp_modify. destruct (quiet_scene _ _ Hq) as [Hs2 _]. split.
    + exact (keeps_update (set_waiting (Some commit)) (λ _, eq_refl) w2 (inv_quiet _ _ Hq Hi)).
    + left. by split.
Qed.

(** Every submission parks the scene, refuses it or puts it on the screen. *)
Lemma submit_wp commit w :
  presenter_inv w →
  wp (submit_layer_scene alpha timelines scene_presentation commit)
    (λ _ w', presenter_inv w' ∧
       ((waiting (w_stream w') = Some commit ∧ scene_of w' = scene_of w)
        ∨ (scene_status alpha commit (w_task w) (w_stream w) ≠ Ready ∧ scene_of w' = scene_of w)
        ∨ (scene_status alpha commit (w_task w) (w_stream w) = Ready ∧
           ∃ w1 root, on_screen (st_layers (staged (w_stream w))).*1 root w1 ∧ quiet w1 w'))) external w.
Proof.
  intros Hi. unfold submit_layer_scene, task, stream. do 4 wp_step.
  set (status := scene_status alpha commit (w_task w) (w_stream w)).
  destruct (bool_decide (status = Busy) && _).
  { apply wp_modify. split; [exact (keeps_update (set_waiting (Some commit)) (λ _, eq_refl) w Hi)|].
    left. by split. }
  destruct (decide (status = Ready)) as [Hr|Hr].
  2:{ rewrite bool_decide_eq_false_2 by done. cbn [negb]. wp_step. apply wp_modify.
      eapply wp_mono; [apply Quiet_answer| |done]. intros ? w' Hq.
      assert (Hi1 := keeps_clear_staged w Hi). split; [exact (inv_quiet _ _ Hq Hi1)|].
      right; left. split; [done|]. by destruct (quiet_scene _ _ Hq) as [-> _]. }
  rewrite bool_decide_eq_true_2 by done. cbn [negb].
  destruct (scene_status_facts commit w Hi) as ([root Hroot] & Hlog & Hap & Hp).
  { fold status. by rewrite Hr. }
  wp_step. eapply wp_mono; [apply Quiet_discard_queued| |done]. intros ? w1 Hq1.
  pose proof (inv_quiet _ _ Hq1 Hi) as Hi1. destruct (quiet_scene _ _ Hq1) as [Hs1 Hc1]. do 2 wp_step.
  destruct (tl_exact _ && _).
  { apply wp_modify. split; [exact (keeps_update (set_waiting (Some commit)) (λ _, eq_refl) w1 Hi1)|].
    left. by split. }
  pose proof (qt_window _ _ Hq1) as Hw1. unfold window in Hw1. injection Hw1 as _ Hr1 Hl1.
  eapply wp_mono; [apply (show_scene_wp (new_read (source_state (w_stream w))) commit root); [done|..]| |done].
  - by rewrite Hr1.
  - by rewrite Hl1.
  - by rewrite (qt_stream _ _ Hq1).
  - rewrite (qt_stream _ _ Hq1). eapply Forall_impl; [exact Hp|]. intros p. by apply pending_same.
  - intros ? w2 (Hi2 & Hcase). split; [done|]. rewrite (qt_stream _ _ Hq1), Hs1 in Hcase.
    destruct Hcase as [?|(w3 & Ho & Hq3)]; [by left|right; right]. split; [done|]. by exists w3, root.
Qed.

Lemma keeps_submit commit : keeps_inv (submit_layer_scene alpha timelines scene_presentation commit).
Proof. intros w Hi. eapply wp_mono; [by apply submit_wp| |done]. by intros ? w' [? _]. Qed.

Lemma keeps_serve_releases : keeps_inv (serve_releases alpha timelines scene_presentation).
Proof.
  unfold serve_releases. apply keeps_bind; [apply keeps_release|intros _].
  apply keeps_bind; [apply Quiet_keeps, _|intros s]. destruct (waiting s); [|apply Quiet_keeps, _].
  apply keeps_bind; [by apply keeps_update|intros _]. apply keeps_submit.
Qed.

Lemma keeps_claim_scene scene : keeps_inv (claim_scene (K := K) scene).
Proof.
  unfold claim_scene. apply keeps_bind; [apply Quiet_keeps, _|intros s]. apply keeps_bind.
  - apply Quiet_keeps, Quiet_lift. destruct (_ <=? _); [by intros e [= <-]|done].
  - intros _. by apply keeps_update.
Qed.

Lemma keeps_claim_import attempt : keeps_inv (claim_import (K := K) attempt).
Proof.
  unfold claim_import. apply keeps_bind; [apply Quiet_keeps, _|intros s]. apply keeps_bind.
  - apply Quiet_keeps, Quiet_lift. destruct (_ <=? _); [by intros e [= <-]|done].
  - intros _. by apply keeps_update.
Qed.

(** ** Requests *)

Lemma keeps_request request fds w :
  presenter_inv w → imports_blocked (imports (w_stream w)) = false →
  layer_request_ok request (zlen fds) →
  wp (layer_request alpha timelines scene_presentation formats request fds) (λ _, presenter_inv) external w.
Proof.
  intros Hi Hblk Hok. unfold layer_request. wp_step. unfold stream. wp_step. wp_step. apply wp_lift.
  destruct (_ && negb (served_while_waiting request)); cbn [fail_if]; [done|].
  destruct request; cbn in Hok.
  - by apply keeps_query.
  - by apply keeps_subscribe.
  - apply keeps_register; [done..|apply Hok|apply Hok].
  - wp_step. unfold claim_import, stream. wp_step. wp_step. wp_step. apply wp_lift.
    destruct (_ <=? _); cbn [fail_if]; [done|]. apply wp_modify.
    apply keeps_register; [|done|apply Hok..].
    exact (keeps_update (λ s, set_marks (last_ticket s) (last_scene s) attempt s) (λ _, eq_refl) w Hi).
  - by apply keeps_unregister.
  - do 2 wp_step. destruct (push _ _ _) as [staging accepted] eqn:Ep. wp_step. apply wp_modify.
    apply Quiet_keeps; [apply _|].
    pose proof (keeps_stage layer (head fds) (proj1 Hok) w Hi) as Hs. unfold wp, update_stream, modify in Hs.
    by rewrite Ep in Hs.
  - apply keeps_stage; [apply Hok|done].
  - eapply keeps_stage_batch; [exact Hok|exact Hi].
  - apply (keeps_bind (claim_scene scene)); [apply keeps_claim_scene| |done]. intros _.
    apply keeps_bind; [eapply keeps_stage_batch; apply Hok|intros _; apply keeps_submit].
  - by apply keeps_submit.
  - apply (keeps_bind (claim_scene scene)); [apply keeps_claim_scene| |done]. intros _. apply keeps_submit.
  - by apply keeps_abort_scene.
Qed.

End app.

End presenter.
