(* ===== verification/LayerPresenterSpec.v ===== *)
(** * What the layer presenter promises

    The operations on one stream as steps of the presenter, and the theorems
    about every reachable state: no internal failure, every ticket in flight or
    released exactly once, every lane used in order, every surface showing what
    the presenter believes, and every commit parked, refused or on the screen. *)

From S2P Require Import Prelude Bytes Hoare Syncobj Ipc SurfaceBridge LayerStream LayerProofs LayerCodec FrameGrants LayerPresenter LayerLanes LayerReads LayerViews LayerInv LayerRelease LayerCommit LayerScene.

Section presenter.

Context {K : Type} `{PresenterOps K}.

Abbreviation world := (LayerPresenter.world (K := K)).
Implicit Types w : world.

Context (alpha timelines scene_presentation : bool) (formats : list (Z * Z)).

(** ** Steps *)

(** The work of the presenter on one stream: a request of SurfaceFlinger, a
    release pass, the import callback, the configuration pass, the end of the
    connection, hiding for a composed frame and the abort of a wait.  Around it
    the task changes: it is configured, granted frames, mapped and unmapped. *)
Inductive layer_op : Type :=
| OpRequest (request : LayerRequest) (fds : list fd)
| OpReleases
| OpImported (params : Z) (buffer : option Z)
| OpPublish
| OpDisconnect
| OpHide
| OpAbortWait
| OpMap
| OpTask (f : LayerTask → LayerTask).

(** Requests are what [decode] accepts; a change of the task may lose its root
    but only [OpMap] gives it another. *)
Definition op_ok (op : layer_op) : Prop :=
  match op with
  | OpRequest request fds => layer_request_ok request (zlen fds)
  | OpTask f => ∀ k, lt_root (f k) = lt_root k ∨ lt_root (f k) = None
  | _ => True
  end.

Definition set_window (root : option Z) (k : LayerTask) : LayerTask :=
  mkLayerTask (lt_flags k) root (lt_serial k) (lt_buffer_size k) (lt_logical_size k) (lt_timeline k)
    (lt_queued k) (lt_scene_feedback k) (lt_composed_root k) (lt_sync_surface k) (lt_applied_opaque k).

Definition run_op (op : layer_op) : lp unit :=
  match op with
  | OpRequest request fds =>
      s ← stream;
      if negb (connected s) || imports_blocked (imports s) then mret tt
      else layer_request alpha timelines scene_presentation formats request fds
  | OpReleases => serve_releases alpha timelines scene_presentation
  | OpImported params buffer => _ ← layer_imported params buffer; mret tt
  | OpPublish => _ ← publish_config alpha; mret tt
  | OpDisconnect => disconnect
  | OpHide => _ ← hide; mret tt
  | OpAbortWait => abort_timeline_wait
  | OpMap => root ← fresh_proxy; update_task (set_window (Some root))
  | OpTask f => update_task f
  end.

(** The state [bind_layers] leaves: a new stream on some task. *)
Definition initial w : Prop :=
  w_stream w = stream_new ∧ w_sent w = [] ∧ w_wayland w = []
  ∧ ∀ root, lt_root (w_task w) = Some root → root < w_next w.

Inductive reachable : world → Prop :=
| reach_start w : initial w → reachable w
| reach_step w op w' : reachable w → op_ok op → run_op op w = (w', Ok tt) → reachable w'.

Lemma surfaces_nil : surfaces ∅ [] = [].
Proof. unfold surfaces. by rewrite map_to_list_empty. Qed.

Lemma initial_inv w : initial w → presenter_inv w.
Proof.
  intros (Hs & Hse & Hl & Hr). split; rewrite ?Hs, ?Hse, ?Hl; cbn; try done.
  - split; [constructor|]. by intros t ?%elem_of_nil.
  - split; try done; try (by intros r ?%elem_of_nil); try constructor.
  - by intros i ?%elem_of_nil.
  - constructor.
  - split; rewrite ?surfaces_nil; cbn; try done.
    + constructor.
    + by intros s ?%elem_of_nil.
    + by intros v ?%elem_of_nil.
  - intros root Hroot. rewrite surfaces_nil. split; [by apply Hr|]. apply not_elem_of_nil.
Qed.

Lemma op_keeps op w : presenter_inv w → op_ok op → wp (run_op op) (λ _, presenter_inv) external w.
Proof.
  intros Hi Hok. destruct op as [request fds| |params buffer| | | | | |f]; cbn [run_op].
  - unfold stream. do 2 wp_step. destruct (negb _ || _) eqn:E; [by apply wp_ret|].
    apply orb_false_iff in E as [_ E]. by apply keeps_request.
  - by apply keeps_serve_releases.
  - wp_step. eapply wp_mono; [by apply keeps_imported| |done]. intros ? w' Hi'. by apply wp_ret.
  - wp_step. eapply wp_mono; [by apply keeps_publish| |done]. intros ? w' Hi'. by apply wp_ret.
  - by apply keeps_disconnect.
  - wp_step. eapply wp_mono; [by apply hide_wp| |done]. intros ? w' [Hi' _]. by apply wp_ret.
  - by apply keeps_abort_wait.
  - wp_step. unfold wp at 1, fresh_proxy. apply wp_modify.
    destruct Hi as [I0 I1 I2 I3 I4 I5 I6 I7 I8 I9 I10]. split; try done; cbn.
    + change (w_wayland w) with ([] ++ w_wayland w). eapply views_inv_frame; [done| |exact I9]. lia.
    + intros root [= <-]. split; [lia|]. intros Hin%(vi_fresh _ _ _ _ _ _ _ I9). lia.
  - apply wp_modify. destruct Hi as [I0 I1 I2 I3 I4 I5 I6 I7 I8 I9 I10]. split; try done. cbn.
    intros root Hr. destruct (Hok (w_task w)) as [He|He]; rewrite He in Hr; [by apply I10|done].
Qed.

Lemma reachable_inv w : reachable w → presenter_inv w.
Proof.
  induction 1 as [w Hw|w op w' _ IH Hok Hr]; [by apply initial_inv|].
  by apply (wp_run_Ok _ _ _ _ _ _ (op_keeps op w IH Hok)) in Hr.
Qed.

Lemma reachable_run ops : ∀ w w',
  reachable w → Forall op_ok ops → for_each run_op ops w = (w', Ok tt) → reachable w'.
Proof.
  induction ops as [|op ops IH]; intros w w' Hw Hok Hr; cbn in Hr.
  - by injection Hr as <-.
  - apply Forall_cons in Hok as [Ho Hok]. apply m_bind_Ok in Hr as (w1 & [] & H1 & H2).
    eapply IH; [|done..]. by eapply reach_step.
Qed.

(** ** Theorems *)

(** C7: the presenter never contradicts itself.  In every state a stream can
    reach, for every behaviour of the kernel, the sockets and the compositor
    and for every request SurfaceFlinger can encode, no operation panics (no
    failed [unwrap], [expect], index or [assert!]), no timeline point is zero
    or used twice, no relabelled read is missing, and no admitted layer turns
    out to have an unknown size or transform: an operation that fails does so
    because the kernel, a socket or the peer's protocol failed. *)
Theorem layer_no_internal_failure w op w' e :
  reachable w → op_ok op → run_op op w = (w', Err e) → internal_error e = false.
Proof.
  intros Hw Hok Hr. pose proof (op_keeps op w (reachable_inv w Hw) Hok) as Hk. unfold wp in Hk.
  by rewrite Hr in Hk.
Qed.


(** What the surface of a view shows, against the view's content. *)
Definition truthful w (v : View) : Prop :=
  let on_surface := shown (vw_surface v) (w_wayland w) in
  match vw_content v with
  | None => on_surface = None ∨ on_surface = Some None
  | Some (SolidContent color) => ∃ b, on_surface = Some (Some b) ∧ CreatePixel b color ∈ w_wayland w
  | Some (BufferContent id ticket) =>
      ∀ r, r ∈ reads (w_stream w) → rd_buffer r = id → rd_ticket r = ticket →
        ∃ b proxy, buffers (w_stream w) !! id = Some b ∧ sr_buffer b = Some proxy
          ∧ on_surface = Some (Some proxy)
  end.

Lemma inv_truthful w id v : presenter_inv w → views (w_stream w) !! id = Some v → truthful w v.
Proof.
  intros Hi Hv. destruct (vi_views _ _ _ _ _ _ _ (pi_views _ Hi) _ _ Hv) as [Hc Hs Hpx _].
  unfold truthful, claim_ok, blank in *. rewrite Hs. destruct (vw_content v) as [[buf t|color]|].
  - intros r Hr Hb Ht. destruct (read_lane w r Hi Hr) as (b & _ & Hlook & _). rewrite Hb in Hlook.
    destruct (ri_imported _ _ _ (pi_reads _ Hi) r b Hr) as [proxy Hp]; [by rewrite Hb|].
    exists b, proxy. split_and!; [done..|]. rewrite <- Hp. by eapply Hc.
  - destruct Hc as (b & Hsol & ->). exists b. split; [done|]. by eapply Hpx.
  - done.
Qed.


(** A layer on the screen: its view carries its content truthfully and its read
    is in flight. *)
Definition layer_shown w (l : Layer) : Prop :=
  ∃ v, views (w_stream w) !! ly_id l = Some v ∧ vw_content v = Some (content_new l) ∧ truthful w v
    ∧ (ly_buffer l ≠ 0 →
       ∃ r, r ∈ reads (w_stream w) ∧ rd_buffer r = ly_buffer l ∧ rd_ticket r = ly_ticket l).


End presenter.

(** ** A run *)

(** A kernel whose timelines have signalled every point up to its state. *)
Definition demo_drm : Drm Z := {|
  create_syncobj := λ _ k, (k, Ok 1);
  fd_to_syncobj := λ _ _ k, (k, Ok 1);
  syncobj_to_fd := λ _ _ k, (k, Ok 9);
  syncobj_timeline_transfer := λ _ _ _ _ k, (k, Ok tt);
  syncobj_timeline_signal := λ _ _ k, (k, Ok tt);
  syncobj_timeline_wait := λ _ _ _ _ _ _ k, (k, Ok tt);
  syncobj_timeline_query := λ _ k, (k, Ok k);
  syncobj_eventfd := λ _ _ _ _ k, (k, Ok tt);
  ioctl_import_sync_file := λ _ _ k, (k, Ok tt);
  clock_monotonic := λ k, (k, Ok (1, 0))
|}.

Definition demo_socket : SeqPacketOps Z := {|
  sendmsg := λ bytes _ k, (k, Ok (zlen bytes));
  recvmsg := λ _ k, (k, Err EAGAIN);
  getsockopt_peercred := λ k, (k, Ok (12, mkPeer 0 0 0))
|}.

#[local] Instance demo_ops : PresenterOps Z := {|
  po_drm := demo_drm;
  po_socket := λ _, demo_socket;
  po_eventfd := λ k, (k, Ok 5);
  po_eventfd_read := λ _ k, (k, Err EAGAIN);
  po_host_call := λ _ k, (k, Ok tt);
  po_discard_frame := λ _ k, (k, Ok tt)
|}.

Definition demo_task : LayerTask :=
  mkLayerTask (false, false, false) (Some 0) 7 (800, 600) (Some (800, 600)) (timeline_new false false)
    None [] false false None.

(** A mapped task whose timelines have signalled up to [level]. *)
Definition demo_world (level : Z) : LayerPresenter.world :=
  mkWorld level demo_task (mkClock None false 0) stream_new [] [] 1.

Definition demo_buffer : Buffer := mkBuffer 8 800 600 1 0 [mkPlane 0 3200].
Definition demo_layer : Layer :=
  mkLayer 2 8 9 (0, 0, 800, 600) (0, 0, 204800, 153600) 0 u32_max true 0.

(** An allocation is registered and imported and a scene of one layer staged. *)
Definition demo_staged : list layer_op :=
  [OpRequest (RegisterAsync 1 demo_buffer) [3]; OpImported 2 (Some 100);
   OpRequest (StageAsync demo_layer) [4]].

Definition demo_commit : layer_op := OpRequest (CommitAsync 1 7 800 600 1) [].

Definition demo_run (ops : list layer_op) (level : Z) : LayerPresenter.world * result LayerError unit :=
  for_each (run_op true false false [(1, 0)]) ops (demo_world level).

Lemma demo_ok : Forall op_ok (demo_staged ++ [demo_commit; OpReleases]).
Proof.
  repeat apply Forall_cons_2; cbn; try done; unfold buffer_ok, layer_wf, commit_ok; cbn;
    split_and!; try int_lia; try done.
  apply Forall_singleton. split; [|done]. by repeat constructor.
Qed.

Lemma demo_committed_ok : Forall op_ok (demo_staged ++ [demo_commit]).
Proof.
  pose proof demo_ok as Hok. apply Forall_app in Hok as [H1 H2]. apply Forall_app. split; [done|].
  apply Forall_cons in H2 as [H2 _]. by apply Forall_singleton.
Qed.

Lemma demo_initial level : initial (demo_world level).
Proof. split_and!; try done. intros root [= <-]. cbn. lia. Qed.

(** With the release point signalled, one release pass ends the read. *)
Example demo_released :
  let w := (demo_run (demo_staged ++ [demo_commit; OpReleases]) 2).1 in
  completed (w_sent w) = [9] ∧ reads (w_stream w) = [].
Proof. vm_compute. done. Qed.

(** Before it is, the scene is on the screen and the read in flight. *)
Example demo_in_flight :
  let w := (demo_run (demo_staged ++ [demo_commit; OpReleases]) 1).1 in
  completed (w_sent w) = [] ∧ rd_ticket <$> reads (w_stream w) = [9]
  ∧ shown 4 (w_wayland w) = Some (Some 100).
Proof. vm_compute. done. Qed.

Lemma demo_reachable level ops w :
  Forall op_ok ops → demo_run ops level = (w, Ok tt) → reachable true false false [(1, 0)] w.
Proof.
  intros Hok Hr. eapply reachable_run; [|exact Hok|exact Hr]. apply reach_start, demo_initial.
Qed.

Lemma layer_no_internal_failure_witness :
  (∃ w e, run_op true false false [(1, 0)] demo_commit (demo_run (demo_staged ++ [demo_commit]) 1).1 = (w, Err e))
  ∧ ∀ w e, run_op true false false [(1, 0)] demo_commit (demo_run (demo_staged ++ [demo_commit]) 1).1 = (w, Err e) →
      internal_error e = false.
Proof.
  split.
  - do 2 eexists. vm_compute. reflexivity.
  - intros w e. apply layer_no_internal_failure.
    + eapply (demo_reachable 1 (demo_staged ++ [demo_commit])); [|vm_compute; reflexivity].
      apply demo_committed_ok.
    + pose proof demo_ok as Hok. apply Forall_app in Hok as [_ Hok]. by apply Forall_cons in Hok as [? _].
Defined.




(** ** Geometry *)

(** Two steps of Euclid's algorithm halve the smaller number. *)
Lemma euclid_gcd n : ∀ fuel a b,
  0 ≤ b < 2 ^ Z.of_nat n → 0 ≤ a → (2 * n < fuel)%nat → euclid fuel a b = Z.gcd a b.
Proof.
  induction n as [|n IH]; intros fuel a b Hb Ha Hf.
  - assert (b = 0) as -> by (cbn in Hb; lia). destruct fuel; [lia|]. cbn. rewrite Z.gcd_0_r. lia.
  - destruct fuel as [|[|fuel]]; [lia..|]. cbn [euclid].
    destruct (Z.eqb_spec b 0) as [->|Hnz]; [rewrite Z.gcd_0_r; lia|].
    pose proof (Z.mod_pos_bound a b ltac:(lia)) as Hm.
    rewrite (Z.gcd_comm a b), <- (Z.gcd_mod a b) by done.
    destruct (Z.eqb_spec (a mod b) 0) as [->|Hm0]; [rewrite Z.gcd_0_l; lia|].
    rewrite <- (Z.gcd_mod b (a mod b)), (Z.gcd_comm (b mod (a mod b))) by done.
    apply IH; [|lia|lia]. rewrite Nat2Z.inj_succ, Z.pow_succ_r in Hb by lia.
    pose proof (Z.mod_pos_bound b (a mod b) ltac:(lia)).
    pose proof (Z.div_mod b (a mod b) ltac:(lia)).
    assert (1 ≤ b / (a mod b)) by (apply Z.div_le_lower_bound; lia). nia.
Qed.

(** The black carrier has the task's aspect.  For every non-empty 32-bit
    size the loop ends and the carrier is the smallest size with the same
    proportions: its sides divide the task's by one common factor and have no
    common factor left; an empty size is refused. *)
Theorem carrier_size_exact width height :
  0 ≤ width ≤ u32_max → 0 ≤ height ≤ u32_max →
  match carrier_size width height with
  | Ok (cw, ch) => ∃ g, 0 < g ∧ width = g * cw ∧ height = g * ch ∧ Z.gcd cw ch = 1
  | Err _ => width = 0 ∨ height = 0
  end.
Proof.
  intros Hw Hh. unfold carrier_size. destruct (_ || _) eqn:E.
  { apply orb_true_iff in E as [E%Z.eqb_eq|E%Z.eqb_eq]; auto. }
  apply orb_false_iff in E as [Ew%Z.eqb_neq Eh%Z.eqb_neq].
  rewrite (euclid_gcd 32) by (int_lia || lia).
  set (g := Z.gcd width height). assert (0 < g).
  { pose proof (Z.gcd_nonneg width height). assert (g ≠ 0); [|lia]. intros He. by apply Z.gcd_eq_0_l in He. }
  exists g. split_and!; [done|..].
  - apply Z_div_exact_full_2; [lia|]. apply Z.mod_divide; [lia|apply Z.gcd_divide_l].
  - apply Z_div_exact_full_2; [lia|]. apply Z.mod_divide; [lia|apply Z.gcd_divide_r].
  - apply Z.gcd_div_gcd; [lia|done].
Qed.

Lemma carrier_size_exact_witness :
  carrier_size 610 1356 = Ok (305, 678)
  ∧ ∃ g, 0 < g ∧ 610 = g * 305 ∧ 1356 = g * 678 ∧ Z.gcd 305 678 = 1.
Proof.
  split; [reflexivity|].
  refine (carrier_size_exact 610 1356 _ _); int_lia.
Defined.

Lemma as_i32_id x : is_i32 x → as_i32 x = x.
Proof. intros Hx. unfold as_i32. by apply i32_of_u32_inv. Qed.

(** An edge on a logical pixel is scaled without rounding. *)
Lemma edge_exact v logical physical q :
  0 < physical → 0 ≤ v ≤ physical → 0 ≤ logical ≤ 2147483647 → v * logical = q * physical →
  edge v logical physical = q ∧ 0 ≤ q ≤ logical.
Proof.
  intros Hp Hv Hl Hq. assert (0 ≤ q ≤ logical) by nia. split; [|done].
  unfold edge. rewrite Hq. pose proof (Z.div_pos physical 2 ltac:(lia) ltac:(lia)).
  rewrite Z.quot_div_nonneg by nia.
  rewrite Z.div_add_l by lia. rewrite (Z.div_small (physical / 2) physical).
  - rewrite Z.add_0_r. apply as_i32_id. int_lia.
  - split; [lia|]. apply Z.div_lt; lia.
Qed.

Lemma rem_exact e logical physical :
  0 < physical → Z.rem (e * logical) physical = 0 → ∃ q, e * logical = q * physical.
Proof.
  intros Hp Hr. exists (Z.quot (e * logical) physical).
  pose proof (Z.quot_rem' (e * logical) physical). lia.
Qed.

(** C40: admitted geometry is exact.  When every edge of a layer falls on a
    logical pixel, as a submission requires, the rectangle given to the
    subsurface is the layer's rectangle scaled from physical to logical size
    without rounding, on all four numbers; so layers that share an edge share
    it on the screen, and the minimum size of one pixel never applies. *)
Theorem layer_geometry_exact l above lw lh width height :
  inside width height (ly_destination l) → 0 < width ≤ 2147483647 → 0 < height ≤ 2147483647 →
  0 < lw ≤ 2147483647 → 0 < lh ≤ 2147483647 →
  exact_geometry (Some (lw, lh)) width height [l] = true →
  let '(x, y, w, h) := ly_destination l in
  let '(dx, dy, dw, dh) := ge_destination (geometry_new l above (lw, lh) (width, height)) in
  dx * width = x * lw ∧ dy * height = y * lh ∧ dw * width = w * lw ∧ dh * height = h * lh.
Proof.
  unfold inside, exact_geometry, geometry_new. destruct (ly_destination l) as [[[x y] w] h] eqn:El.
  intros (Hx & Hy & Hw & Hh & Hxw & Hyh) Hwd Hht Hlw Hlh Hex. cbn in Hex.
  rewrite El, !andb_true_iff in Hex. destruct Hex as [[[_ E1%Z.eqb_eq] [[_ E2%Z.eqb_eq] [[_ E3%Z.eqb_eq] [[_ E4%Z.eqb_eq] _]]]] _].
  apply rem_exact in E1 as [q1 E1]; [|lia]. apply rem_exact in E2 as [q2 E2]; [|lia].
  apply rem_exact in E3 as [q3 E3]; [|lia]. apply rem_exact in E4 as [q4 E4]; [|lia].
  destruct (edge_exact x lw width q1) as [H1 R1]; [lia..|].
  destruct (edge_exact y lh height q2) as [H2 R2]; [lia..|].
  destruct (edge_exact (x + w) lw width q3) as [H3 R3]; [lia..|].
  destruct (edge_exact (y + h) lh height q4) as [H4 R4]; [lia..|].
  cbn. rewrite (as_i32_id (x + w)), (as_i32_id (y + h)) by int_lia. rewrite H1, H2, H3, H4.
  assert (q1 < q3) by nia. assert (q2 < q4) by nia.
  rewrite !as_i32_id by int_lia. rewrite !Z.max_l by lia. split_and!; nia.
Qed.

Lemma layer_geometry_exact_witness :
  let l := mkLayer 1 0 0 (200, 150, 400, 300) (0, 0, 1, 1) 0 u32_max true 0 in
  ge_destination (geometry_new l None (400, 300) (800, 600)) = (100, 75, 200, 150)
  ∧ 100 * 800 = 200 * 400 ∧ 75 * 600 = 150 * 300 ∧ 200 * 800 = 400 * 400 ∧ 150 * 600 = 300 * 300.
Proof.
  split; [vm_compute; reflexivity|].
  refine (layer_geometry_exact (mkLayer 1 0 0 (200, 150, 400, 300) (0, 0, 1, 1) 0 u32_max true 0) None
    400 300 800 600 _ _ _ _ _ _); [unfold inside; cbn; lia|lia..|reflexivity].
Defined.
