(* ===== verification/EndpointView.v ===== *)
(** * What a compositor sees of its endpoint

    For a client of the endpoint the state of a task is a small view: the
    frames it owes back with their buffers, the frames whose presentation it
    still tracks, whether the task is being retired, and the registered
    buffers.  Every call of the host and every received record is a step on
    these views, and the calls a presenter makes by the rules are never refused
    ([refusal]): what remains is the transport and the peer. *)

From S2P Require Import Prelude Hoare Ownership Transport Protocol Codec CodecProofs.
From S2P Require Import TaskState Syncobj Ipc Endpoint EndpointProofs EndpointSpec.

Record TaskView : Type := mkTaskView {
  tv_frames : gmap FrameId BufferId;
  tv_tracked : gset FrameId;
  tv_retiring : bool;
  tv_buffers : gset BufferId
}.

Definition view_of (t : TaskEndpoint) : TaskView :=
  mkTaskView (aw_buffer <$> te_pending t) (te_presentation_frames t) (te_retiring t)
    (dom (buffers (te_state t))).

Definition ep_view (d : DenialEndpoint) : gmap TaskObjectId TaskView := view_of <$> tasks d.

(** The endpoint refuses a frame or a buffer its own state contradicts. *)
Definition refusal (e : EndpointError) : bool :=
  match e with
  | EpUnknownFrame _ _ => true
  | EpState (TaskState.UnknownBuffer _) | EpState (TaskBufferInFlight _)
  | EpState (TaskUnknownFrame _) | EpState ReleaseMismatch | EpState TimelinesUnbound
  | EpState (DuplicateFrame _) => true
  | _ => false
  end.

(** ** Views of a consistent endpoint *)

Record view_ok (v : TaskView) : Prop := {
  vo_exclusive f1 f2 b : tv_frames v !! f1 = Some b → tv_frames v !! f2 = Some b → f1 = f2;
  vo_registered f b : tv_frames v !! f = Some b → b ∈ tv_buffers v;
  vo_draining : tv_retiring v = true → tv_frames v ≠ ∅
}.

Lemma pending_busy o t f a :
  te_inv o t → te_pending t !! f = Some a → aw_buffer a ∈ busy_buffers (te_state t).
Proof.
  intros Ht Hf. apply (ti_busy _ (te_state_inv _ _ Ht)). eexists f, _.
  split; [by eapply te_pending_in_flight|done].
Qed.

Lemma busy_pending o t b :
  te_inv o t → b ∈ busy_buffers (te_state t) → ∃ f, (aw_buffer <$> te_pending t) !! f = Some b.
Proof.
  intros Ht (f & p & Hp & <-)%(ti_busy _ (te_state_inv _ _ Ht)). exists f.
  rewrite <- (te_frames _ _ Ht), lookup_fmap in Hp. rewrite lookup_fmap.
  destruct (te_pending t !! f); by simplify_eq/=.
Qed.

Lemma view_of_ok o t : te_inv o t → view_ok (view_of t).
Proof.
  intros Ht. split; cbn.
  - intros f1 f2 b (a1 & <- & H1)%lookup_fmap_Some (a2 & E & H2)%lookup_fmap_Some.
    eapply (ti_exclusive _ (te_state_inv _ _ Ht)); [by eapply te_pending_in_flight..|]. by cbn.
  - intros f b (a & <- & Hf)%lookup_fmap_Some. apply elem_of_dom, (ti_registered _ (te_state_inv _ _ Ht)).
    by eapply pending_busy.
  - intros Hr He%fmap_empty_inv. by eapply (pending_nonempty o t Ht (te_draining _ _ Ht Hr)).
Qed.

Lemma ep_view_Some d o v :
  ep_view d !! o = Some v ↔ ∃ t, tasks d !! o = Some t ∧ v = view_of t.
Proof.
  unfold ep_view. rewrite lookup_fmap_Some. split; intros (t & ? & ?); eauto.
Qed.

Lemma ep_view_ok d o v : ep_inv d → ep_view d !! o = Some v → view_ok v.
Proof. intros Hd (t & Ht & ->)%ep_view_Some. eapply view_of_ok. by apply (ep_tasks _ Hd). Qed.

Lemma ep_view_insert d o t : ep_view (set_tasks (<[o := t]> (tasks d)) d) = <[o := view_of t]> (ep_view d).
Proof. unfold ep_view. cbn. by rewrite fmap_insert. Qed.

Lemma ep_view_delete d o : ep_view (set_tasks (delete o (tasks d)) d) = delete o (ep_view d).
Proof. unfold ep_view. cbn. by rewrite fmap_delete. Qed.

Lemma ep_view_same d o t t' :
  tasks d !! o = Some t → view_of t' = view_of t → ep_view (set_tasks (<[o := t']> (tasks d)) d) = ep_view d.
Proof.
  intros Ht Hv. rewrite ep_view_insert, Hv. apply insert_id. unfold ep_view. by rewrite lookup_fmap, Ht.
Qed.

(** ** Calls that leave the views alone *)

Section calls.

Context {K : Type} `{HD : Drm K, HS : SeqPacketOps K}.

Definition keeps_views {A} (m : ep_method (K := K) A) : Prop :=
  ∀ w, ep_view (m w).1.2 = ep_view w.2 ∧ ∀ e, (m w).2 = Err e → refusal e = false.
Definition keeps_view {A} (m : te_method (K := K) A) : Prop :=
  ∀ w, view_of (m w).1.2 = view_of w.2 ∧ ∀ e, (m w).2 = Err e → refusal e = false.

Class Steady {A} (m : ep_method (K := K) A) : Prop := steady : keeps_views m.
Class TaskSteady {A} (m : te_method (K := K) A) : Prop := task_steady : keeps_view m.

#[global] Instance Steady_bind {A B} (m : ep_method (K := K) A) (f : A → ep_method B) :
  Steady m → (∀ a, Steady (f a)) → Steady (m ≫= f).
Proof.
  intros Hm Hf w. destruct (Hm w) as [H1 H2]. unfold mbind, method_bind.
  destruct (m w) as [w1 [a|e]]; cbn in *; [|split; [done|intros ? [= <-]; by apply H2]].
  destruct (Hf a w1) as [H3 H4]. by rewrite H3.
Qed.

#[global] Instance TaskSteady_bind {A B} (m : te_method (K := K) A) (f : A → te_method B) :
  TaskSteady m → (∀ a, TaskSteady (f a)) → TaskSteady (m ≫= f).
Proof.
  intros Hm Hf w. destruct (Hm w) as [H1 H2]. unfold mbind, method_bind.
  destruct (m w) as [w1 [a|e]]; cbn in *; [|split; [done|intros ? [= <-]; by apply H2]].
  destruct (Hf a w1) as [H3 H4]. by rewrite H3.
Qed.

#[global] Instance Steady_get : Steady get.
Proof. done. Qed.
#[global] Instance Steady_ret {A} (a : A) : Steady (mret a).
Proof. done. Qed.
#[global] Instance TaskSteady_get : TaskSteady get.
Proof. done. Qed.
#[global] Instance TaskSteady_ret {A} (a : A) : TaskSteady (mret a).
Proof. done. Qed.
#[global] Instance Steady_task o : Steady (task o).
Proof.
  intros w. unfold task, mbind, method_bind, get, lift. cbn.
  destruct (tasks w.2 !! o); cbn; (split; [done|]); by intros e [= <-].
Qed.
#[global] Instance Steady_reject b e : refusal e = false → Steady (reject b e).
Proof. intros He w. unfold reject. cbn. split; [done|]. destruct b; by intros ? [= <-]. Qed.
#[global] Instance Steady_socket {A} (m : method K IpcError A) : Steady (on_socket m).
Proof. intros [k d]. unfold on_socket. cbn. destruct (m k) as [k' [a|e]]; cbn; (split; [done|]); by intros ? [= <-]. Qed.
#[global] Instance TaskSteady_socket {A} (m : method K IpcError A) : TaskSteady (on_socket m).
Proof. intros [k d]. unfold on_socket. cbn. destruct (m k) as [k' [a|e]]; cbn; (split; [done|]); by intros ? [= <-]. Qed.

#[global] Instance Steady_on_task {A} o (m : te_method (K := K) A) : TaskSteady m → Steady (on_task o m).
Proof.
  intros Hm [k d]. destruct (tasks d !! o) as [t|] eqn:Ht.
  - rewrite (on_task_some _ _ _ _ _ Ht). cbn. destruct (Hm (k, t)) as [H1 H2]. split; [|done].
    by eapply ep_view_same.
  - rewrite on_task_none by done. cbn. split; [done|]. by intros ? [= <-].
Qed.

(** A change of the task state that keeps the buffers. *)
Lemma TaskSteady_state {A} (m : task_method A) :
  (∀ s, dom (buffers (m s).1) = dom (buffers s)) →
  (∀ s e, (m s).2 = Err e → refusal (EpState e) = false) → TaskSteady (on_state m).
Proof.
  intros Hb He [k t]. unfold on_state. cbn. specialize (Hb (te_state t)). specialize (He (te_state t)).
  destruct (m (te_state t)) as [s [a|e]]; cbn in *.
  - split; [by unfold view_of; cbn; rewrite Hb|done].
  - split; [by unfold view_of; cbn; rewrite Hb|]. intros ? [= <-]. by apply He.
Qed.

#[global] Instance TaskSteady_feedback g fs : TaskSteady (on_state (replace_feedback g fs)).
Proof.
  apply TaskSteady_state; intros s; unfold replace_feedback, mbind, method_bind, get, reject, modify; cbn;
    repeat (case_match; cbn; simplify_eq/=); naive_solver.
Qed.

#[global] Instance TaskSteady_configure n w h r : TaskSteady (on_state (TaskState.configure n w h r)).
Proof.
  apply TaskSteady_state; intros s; unfold TaskState.configure, mbind, method_bind, get, lift, modify; cbn;
    destruct (validate_configure _ _ _ _ _ _); cbn; try done; naive_solver.
Qed.

#[global] Instance Steady_format_feedback o g fs : Steady (send_format_feedback o g fs).
Proof. unfold send_format_feedback. apply _. Qed.
#[global] Instance Steady_configure o n w h a b t r : Steady (send_configure o n w h a b t r).
Proof. unfold send_configure. apply _. Qed.
#[global] Instance Steady_visibility o v f : Steady (send_visibility o v f).
Proof. unfold send_visibility. apply _. Qed.
#[global] Instance Steady_close o : Steady (send_close o).
Proof. unfold send_close. apply _. Qed.
#[global] Instance Steady_grant a b c : Steady (send_frame_grant a b c).
Proof.
  unfold send_frame_grant. apply Steady_bind; [apply _|]. intros w. destruct (host_clock_ready w.2); apply _.
Qed.
#[global] Instance Steady_scene o s a b c : Steady (send_scene_presented o s a b c).
Proof.
  unfold send_scene_presented. apply Steady_bind; [apply _|]. intros w. apply Steady_bind.
  - destruct (negb _); apply _.
  - intros []; apply _.
Qed.

(** ** Frames given back *)

(** A task after frame [f] came back. *)
Definition frame_returned (f : FrameId) (v : TaskView) : TaskView :=
  mkTaskView (delete f (tv_frames v)) (tv_tracked v) (tv_retiring v) (tv_buffers v).

(** The views after: a retiring task without frames is forgotten. *)
Definition after_return (o f : Z) (v : TaskView) (m : gmap TaskObjectId TaskView) : gmap TaskObjectId TaskView :=
  if tv_retiring v && bool_decide (delete f (tv_frames v) = ∅) then delete o m
  else <[o := frame_returned f v]> m.

Lemma view_after_release o f t a d :
  ep_inv d → tasks d !! o = Some t → te_pending t !! f = Some a →
  ep_view (after_release o f t a d) = after_return o f (view_of t) (ep_view d).
Proof.
  intros Hd Ht Hf. pose proof (ep_tasks _ Hd _ _ Ht) as Hi. unfold after_release, after_return.
  assert (in_flight_count (te_state (released f a t)) = size (delete f (te_pending t))) as Hc.
  { unfold in_flight_count. cbn. rewrite <- (te_frames _ _ Hi), <- fmap_delete. apply map_size_fmap. }
  assert (Nat.eqb (in_flight_count (te_state (released f a t))) 0
          = bool_decide (delete f (tv_frames (view_of t)) = ∅)) as ->.
  { apply eq_bool_prop_intro. rewrite Is_true_true, Nat.eqb_eq, Hc, bool_decide_spec, map_size_empty_iff.
    cbn. rewrite <- fmap_delete, fmap_empty_iff. done. }
  change (tv_retiring (view_of t)) with (te_retiring t).
  destruct (te_retiring t && _); [by unfold forget_task; rewrite ep_view_delete|].
  rewrite ep_view_insert. unfold frame_returned, view_of. cbn. by rewrite fmap_delete.
Qed.

Definition transport (e : EndpointError) : Prop := ∃ x, e = EpIpc x.

(** Whether the kernel took the record or not, the endpoint moved on. *)
Lemma finish_release_moves o f (k : K) d v b :
  ep_inv d → ep_view d !! o = Some v → tv_frames v !! f = Some b →
  let x := finish_release o f (k, d) in
  ep_inv x.1.2 ∧ ep_view x.1.2 = after_return o f v (ep_view d) ∧ ∀ e, x.2 = Err e → transport e.
Proof.
  intros Hd (t & Ht & ->)%ep_view_Some (a & <- & Hf)%lookup_fmap_Some. cbv zeta.
  rewrite (finish_release_run _ _ _ _ t a) by done.
  pose proof (after_release_inv _ _ _ _ _ Hd Ht Hf). pose proof (view_after_release _ _ _ _ _ Hd Ht Hf).
  destruct (te_retiring t); [done|]. destruct (send_denial _ k) as [k' [u|e]]; cbn; [done|].
  split_and!; [done|done|]. intros ? [= <-]. by eexists.
Qed.

Lemma finish_release_view o f (k : K) d v b :
  ep_inv d → ep_view d !! o = Some v → tv_frames v !! f = Some b →
  wp (finish_release o f) (λ _ w, ep_inv w.2 ∧ ep_view w.2 = after_return o f v (ep_view d)) transport (k, d).
Proof.
  intros Hd Hv Hf. pose proof (finish_release_moves o f k d v b Hd Hv Hf) as (H1 & H2 & H3). unfold wp.
  destruct (finish_release o f (k, d)) as [w [u|e]]; [done|by apply H3].
Qed.

Lemma discard_finishes o f (k : K) d v b :
  ep_inv d → ep_view d !! o = Some v → tv_frames v !! f = Some b →
  discard_frame o f (k, d) = finish_release o f (k, d).
Proof.
  intros Hd (t & Ht & ->)%ep_view_Some (a & <- & Hf)%lookup_fmap_Some. pose proof (ep_tasks _ Hd _ _ Ht) as Hi.
  assert (is_Some (te_timelines t)) as Hl.
  { apply (te_bound _ _ Hi). destruct (timelines_bound (te_state t)) eqn:Hb; [done|].
    pose proof (te_pending_in_flight _ _ _ _ Hi Hf) as Hin.
    by rewrite (ti_unbound _ (te_state_inv _ _ Hi) Hb), lookup_empty in Hin. }
  unfold discard_frame, task, mbind, method_bind, get, lift, reject. cbn. rewrite Ht. cbn. rewrite Hf. cbn.
  by rewrite bool_decide_true.
Qed.

Lemma discard_frame_view o f (k : K) d v b :
  ep_inv d → ep_view d !! o = Some v → tv_frames v !! f = Some b →
  wp (discard_frame o f) (λ _ w, ep_inv w.2 ∧ ep_view w.2 = after_return o f v (ep_view d)) transport (k, d).
Proof.
  intros Hd Hv Hf. unfold wp. rewrite (discard_finishes _ _ _ _ _ _ Hd Hv Hf).
  exact (finish_release_view o f k d v b Hd Hv Hf).
Qed.

(** ** Presentation tracking *)

Definition with_tracked (s : gset FrameId) (v : TaskView) : TaskView :=
  mkTaskView (tv_frames v) s (tv_retiring v) (tv_buffers v).

Lemma track_presentation_view o f (k : K) d v b :
  ep_inv d → ep_view d !! o = Some v → tv_frames v !! f = Some b →
  wp (track_presentation o f) (λ (tracked : bool) w, ep_inv w.2
        ∧ ∃ s, ep_view w.2 = <[o := with_tracked s v]> (ep_view d)
               ∧ (if tracked then f ∉ tv_tracked v ∧ s = {[f]} ∪ tv_tracked v else s = tv_tracked v))
     (λ _, False) (k, d).
Proof.
  intros Hd Hv Hf. pose proof (ep_run (track_presentation o f) (k, d) _ Hd) as Hi.
  apply ep_view_Some in Hv as (t & Ht & ->). apply lookup_fmap_Some in Hf as (a & <- & Hf). revert Hi.
  unfold wp, track_presentation. rewrite (on_task_some _ _ _ _ _ Ht).
  unfold mbind, method_bind, get, reject, update_task, modify, mret, method_ret. cbn. rewrite Hf. cbn.
  destruct (64 <=? _); cbn; intros Hi.
  - split; [done|]. exists (te_presentation_frames t). split; [|done]. unfold ep_view. cbn. by rewrite fmap_insert.
  - destruct (bool_decide _) eqn:Hin; cbn; (split; [done|]); exists ({[f]} ∪ te_presentation_frames t);
      (split; [unfold ep_view; cbn; by rewrite fmap_insert|]).
    + apply bool_decide_eq_true in Hin. set_solver.
    + by apply bool_decide_eq_false in Hin.
Qed.

Definition untracked (f : FrameId) (v : TaskView) : TaskView := with_tracked (tv_tracked v ∖ {[f]}) v.

Lemma forget_presentation_view o f (k : K) d :
  ep_inv d →
  wp (forget_presentation o f) (λ _ w, ep_inv w.2 ∧ ep_view w.2 = alter (untracked f) o (ep_view d))
     (λ _, False) (k, d).
Proof.
  intros Hd. pose proof (ep_run (forget_presentation o f) (k, d) _ Hd) as Hi. revert Hi.
  unfold wp, forget_presentation, mbind, method_bind, attempt. destruct (tasks d !! o) as [t|] eqn:Ht.
  - rewrite (on_task_some _ _ _ _ _ Ht). unfold update_task, modify. cbn. intros Hi. split; [done|].
    unfold ep_view. cbn. rewrite fmap_insert. apply map_eq. intros o'.
    destruct (decide (o' = o)) as [->|].
    + by rewrite lookup_insert_eq, lookup_alter_eq, lookup_fmap, Ht.
    + by rewrite lookup_insert_ne, lookup_alter_ne.
  - rewrite on_task_none by done. cbn. intros Hi. split; [done|].
    symmetry. apply alter_id'. unfold ep_view. rewrite lookup_fmap, Ht. done.
Qed.

Lemma ep_view_alter d o t g :
  tasks d !! o = Some t → alter g o (ep_view d) = <[o := g (view_of t)]> (ep_view d).
Proof.
  intros Ht. apply map_eq. intros o'. destruct (decide (o' = o)) as [->|].
  - unfold ep_view. by rewrite lookup_insert_eq, lookup_alter_eq, lookup_fmap, Ht.
  - by rewrite lookup_insert_ne, lookup_alter_ne.
Qed.

Lemma send_presented_view o f t p s g (k : K) d :
  ep_inv d →
  (∀ v, ep_view d !! o = Some v → f ∈ tv_tracked v ∨ is_Some (tv_frames v !! f)) →
  wp (send_presented o f t p s g) (λ _ w, ep_inv w.2 ∧ ep_view w.2 = alter (untracked f) o (ep_view d))
     (λ e, refusal e = false) (k, d).
Proof.
  intros Hd Hf. pose proof (ep_run (send_presented o f t p s g) (k, d) _ Hd) as Hi. revert Hi.
  unfold wp, send_presented, mbind, method_bind. destruct (tasks d !! o) as [u|] eqn:Hu.
  2:{ by rewrite on_task_none. }
  rewrite (ep_view_alter _ _ _ _ Hu). specialize (Hf (view_of u) ltac:(apply ep_view_Some; eauto)).
  assert (negb (bool_decide (f ∈ te_presentation_frames u))
          && negb (bool_decide (is_Some (te_pending u !! f))) = false) as Hguard.
  { destruct Hf as [Hf|Hf]; cbn in Hf; [by rewrite bool_decide_true|].
    rewrite lookup_fmap, fmap_is_Some in Hf. rewrite (bool_decide_true (is_Some _)) by done. apply andb_false_r. }
  rewrite (on_task_some _ _ _ _ _ Hu). unfold get, update_task, modify, reject. cbn.
  rewrite Hguard. cbn. destruct (te_retiring u); cbn.
  - intros Hi. split; [done|]. unfold ep_view. cbn. by rewrite fmap_insert.
  - unfold on_socket. destruct (send_denial _ _) as [k' [v|e]]; cbn; intros Hi; [|done].
    split; [done|]. unfold ep_view. cbn. by rewrite fmap_insert.
Qed.

(** ** Render targets *)

Definition with_buffers (s : gset BufferId) (v : TaskView) : TaskView :=
  mkTaskView (tv_frames v) (tv_tracked v) (tv_retiring v) s.

Lemma register_refused m s s' e :
  TaskState.register_buffer m s = (s', Err e) → refusal (EpState e) = false.
Proof.
  unfold TaskState.register_buffer, mbind, method_bind, lift, reject, get, modify.
  destruct (validate m); cbn; [|by intros [= _ <-]].
  repeat (destruct (_ || _) || destruct (bool_decide _) || destruct (_ <=? _)); cbn; intros [= _ <-]; done.
Qed.

Lemma register_render_target_view o n m planes (k : K) d :
  ep_inv d →
  wp (register_render_target o n m planes)
     (λ _ w, ep_inv w.2 ∧ ∃ v, ep_view d !! o = Some v ∧ (b_id m ∉ tv_buffers v)
        ∧ ep_view w.2 = <[o := with_buffers ({[b_id m]} ∪ tv_buffers v) v]> (ep_view d))
     (λ e, refusal e = false) (k, d).
Proof.
  intros Hd. apply (wp_conj _ (λ w, ep_inv w.2)); [by apply ep_run; [apply _|]|].
  unfold wp, register_render_target, mbind, method_bind. destruct (tasks d !! o) as [t|] eqn:Ht.
  2:{ by rewrite on_task_none. }
  rewrite (on_task_state _ _ _ _ t Ht).
  destruct (TaskState.register_buffer m (te_state t)) as [s' [u|e]] eqn:Er; cbn [fst snd map_err].
  2:{ by eapply register_refused. }
  apply register_iff in Er as (_ & Hn & _ & ->). unfold attempt at 1. rewrite send_keeps_endpoint.
  destruct (send_denial_with_descriptors _ planes k) as [k' [v|e]]; cbn [fst snd map_err].
  - cbn. exists (view_of t). split; [apply ep_view_Some; eauto|].
    split; [cbn; by apply not_elem_of_dom|]. unfold ep_view. cbn. rewrite fmap_insert. unfold view_of. cbn.
    by rewrite dom_insert_L.
  - rewrite on_task_ignored with (t := set_state (set_buffers (<[b_id m:=m]> (buffers (te_state t)))
      (te_state t)) t) by apply lookup_insert_eq. done.
Qed.

Lemma unregister_render_target_view o b (k : K) d :
  ep_inv d →
  (∀ v, ep_view d !! o = Some v → (b ∈ tv_buffers v) ∧ ∀ f, tv_frames v !! f ≠ Some b) →
  wp (unregister_render_target o b)
     (λ _ w, ep_inv w.2 ∧ ∃ v, ep_view d !! o = Some v
        ∧ ep_view w.2 = <[o := with_buffers (tv_buffers v ∖ {[b]}) v]> (ep_view d))
     (λ e, refusal e = false) (k, d).
Proof.
  intros Hd Hb. apply (wp_conj _ (λ w, ep_inv w.2)); [by apply ep_run; [apply _|]|].
  unfold wp, unregister_render_target, mbind, method_bind. destruct (tasks d !! o) as [t|] eqn:Ht.
  2:{ by rewrite on_task_none. }
  pose proof (ep_tasks _ Hd _ _ Ht) as Hti.
  destruct (Hb (view_of t)) as [Hr Hf]; [apply ep_view_Some; eauto|]. cbn in Hr, Hf.
  apply elem_of_dom in Hr as [m Hm]. rewrite (on_task_state _ _ _ _ t Ht).
  rewrite (proj2 (unregister_iff b (te_state t) (set_buffers (delete b (buffers (te_state t))) (te_state t)) m)).
  2:{ split_and!; [|done|done]. intros Hbusy. destruct (busy_pending _ _ _ Hti Hbusy) as [f Hff]. by eapply Hf. }
  cbn [fst snd map_err]. unfold attempt at 1, send_denial. rewrite send_keeps_endpoint.
  destruct (send_denial_with_descriptors _ [] k) as [k' [v|e]]; cbn [fst snd map_err].
  - cbn. exists (view_of t). split; [apply ep_view_Some; eauto|].
    unfold ep_view. cbn. rewrite fmap_insert. unfold view_of. cbn. by rewrite dom_delete_L.
  - cbn. unfold mbind, method_bind.
    rewrite on_task_state with (t := set_state (set_buffers (delete b (buffers (te_state t)))
      (te_state t)) t) by apply lookup_insert_eq.
    cbn [te_state set_state]. rewrite register_unregistered by (by rewrite ?(te_object _ _ Hti)). done.
Qed.

(** ** Received records *)

Definition with_frames (m : gmap FrameId BufferId) (v : TaskView) : TaskView :=
  mkTaskView m (tv_tracked v) (tv_retiring v) (tv_buffers v).
Definition with_retiring (v : TaskView) : TaskView :=
  mkTaskView (tv_frames v) (tv_tracked v) true (tv_buffers v).

(** What an action says about the views before and after its record. *)
Definition action_view (a : EndpointAction) (m m' : gmap TaskObjectId TaskView) : Prop :=
  match a with
  | ACreateTask o _ _ => m !! o = None ∧ m' = <[o := mkTaskView ∅ ∅ false ∅]> m
  | ADestroyTask o => ∃ v, m !! o = Some v
      ∧ m' = if bool_decide (tv_frames v = ∅) then delete o m else <[o := with_retiring v]> m
  | ARegisterBuffer o b _ => ∃ v, m !! o = Some v ∧ (b_id b ∉ tv_buffers v)
      ∧ m' = <[o := with_buffers ({[b_id b]} ∪ tv_buffers v) v]> m
  | AUnregisterBuffer o b => ∃ v, m !! o = Some v ∧ b ∈ tv_buffers v ∧ (∀ f, tv_frames v !! f ≠ Some b)
      ∧ m' = <[o := with_buffers (tv_buffers v ∖ {[b]}) v]> m
  | APresent a _ => ∃ v, m !! aw_object a = Some v ∧ tv_frames v !! aw_frame a = None
      ∧ aw_buffer a ∈ tv_buffers v ∧ (∀ f, tv_frames v !! f ≠ Some (aw_buffer a))
      ∧ m' = <[aw_object a := with_frames (<[aw_frame a := aw_buffer a]> (tv_frames v)) v]> m
  | ARequestRenderTargets o _ | ABindLayerStream o _ | ASetContentState o _ => is_Some (m !! o) ∧ m' = m
  | _ => m' = m
  end.

Definition action_step {A} (a : A → EndpointAction) (w : K * DenialEndpoint)
    (x : (K * DenialEndpoint) * result EndpointError A) : Prop :=
  match x.2 with
  | Ok r => action_view (a r) (ep_view w.2) (ep_view x.1.2)
  | Err _ => ep_view x.1.2 = ep_view w.2
  end.

(** Methods that keep the views, whatever they return. *)
Class Fixed {A} (m : ep_method (K := K) A) : Prop := fixed w : ep_view (m w).1.2 = ep_view w.2.

#[local] Instance Fixed_bind {A B} (m : ep_method (K := K) A) (f : A → ep_method B) :
  Fixed m → (∀ a, Fixed (f a)) → Fixed (m ≫= f).
Proof.
  intros Hm Hf w. unfold mbind, method_bind. specialize (Hm w). destruct (m w) as [w1 [a|e]]; cbn in *; [|done].
  by rewrite Hf.
Qed.
#[local] Instance Fixed_keeps {A} (m : ep_method (K := K) A) : Keeps snd m → Fixed m.
Proof. intros Hm w. by rewrite (Hm w). Qed.
#[local] Instance Fixed_socket {A} (m : method K IpcError A) : Fixed (on_socket m).
Proof. intros [k d]. unfold on_socket. cbn. by destruct (m k). Qed.
#[local] Instance Fixed_task o : Fixed (task o).
Proof. intros w. unfold task, mbind, method_bind, get, lift. by destruct (ok_or _ _). Qed.

Lemma Fixed_on_task {A} o (m : te_method (K := K) A) :
  (∀ w, view_of (m w).1.2 = view_of w.2) → Fixed (on_task o m).
Proof.
  intros Hm [k d]. destruct (tasks d !! o) as [t|] eqn:Ht; [|by rewrite on_task_none].
  rewrite (on_task_some _ _ _ _ _ Ht). cbn. by eapply ep_view_same; [|apply (Hm (k, t))].
Qed.

Lemma Fixed_endpoint g : (∀ d, tasks (g d) = tasks d) → Fixed (update_endpoint g).
Proof. intros Hg w. unfold update_endpoint, modify, ep_view. cbn. by rewrite Hg. Qed.

Lemma Fixed_step {A} (m : ep_method (K := K) A) a w :
  Fixed m → (∀ w' r, m w = (w', Ok r) → action_view (a r) (ep_view w.2) (ep_view w.2)) →
  action_step a w (m w).
Proof.
  intros Hm Ha. specialize (Hm w). unfold action_step. destruct (m w) as [w' [r|e]]; cbn in *; [|done].
  rewrite Hm. by eapply Ha.
Qed.

Lemma task_found {A} o (w : K * DenialEndpoint) (f : TaskEndpoint → ep_method (K := K) A) w' r :
  (task o ≫= f) w = (w', Ok r) → is_Some (ep_view w.2 !! o).
Proof.
  intros (? & t & E & _)%m_bind_Ok. unfold task, mbind, method_bind, get, lift in E. cbn in E.
  unfold ep_view. rewrite lookup_fmap. by destruct (tasks w.2 !! o).
Qed.

Lemma create_step o display package (k : K) d :
  action_step id (k, d) (create_task o display package (k, d)).
Proof.
  unfold action_step, create_task, mbind, method_bind, get, reject, lift. cbn.
  destruct (MAX_TASK_OBJECTS <=? _); [done|]. cbn. destruct (bool_decide _ || _) eqn:Hdup; [done|]. cbn.
  unfold task_new. destruct (valid_object o); cbn; [|done]. reflect. destruct Hdup as [Hn _]. split.
  - unfold ep_view. rewrite lookup_fmap. by destruct (tasks d !! o); [destruct Hn|].
  - unfold ep_view. cbn. by rewrite fmap_insert.
Qed.

Lemma destroy_step o (k : K) d :
  ep_inv d → action_step id (k, d) (destroy_task o (k, d)).
Proof.
  intros Hd. unfold action_step. destruct (tasks d !! o) as [t|] eqn:Ht.
  2:{ unfold destroy_task, mbind, method_bind. by rewrite on_task_none. }
  rewrite (destroy_task_run _ _ _ _ Ht). cbn [snd fst]. exists (view_of t). split; [apply ep_view_Some; eauto|].
  pose proof (ep_tasks _ Hd _ _ Ht) as Hi.
  assert (Nat.eqb (in_flight_count (te_state t)) 0 = bool_decide (tv_frames (view_of t) = ∅)) as ->.
  { apply eq_bool_prop_intro. rewrite Is_true_true, in_flight_count_zero, bool_decide_spec. cbn.
    rewrite <- (te_frames _ _ Hi), !fmap_empty_iff. done. }
  destruct (bool_decide _); [apply ep_view_delete|by rewrite ep_view_insert].
Qed.

Lemma register_step o b ds (k : K) d :
  action_step id (k, d) (register_buffer o b ds (k, d)).
Proof.
  unfold action_step, register_buffer, mbind, method_bind, lift. destruct (plane_descriptors ds) as [ps|e]; [|done].
  destruct (tasks d !! o) as [t|] eqn:Ht; [|by rewrite on_task_none]. rewrite (on_task_state _ _ _ _ t Ht).
  destruct (TaskState.register_buffer b (te_state t)) as [s' [u|e]] eqn:Er; cbn [fst snd map_err].
  2:{ apply fail_safe in Er as ->. by rewrite set_tasks_unchanged. }
  apply register_iff in Er as (_ & Hn & _ & ->). cbn. exists (view_of t). split; [apply ep_view_Some; eauto|].
  split; [cbn; by apply not_elem_of_dom|]. unfold ep_view. cbn. rewrite fmap_insert. unfold view_of. cbn.
  by rewrite dom_insert_L.
Qed.

Lemma unregister_step o b (k : K) d :
  ep_inv d →
  action_step id (k, d) ((_ ← on_task o (on_state (unregister_buffer b)); mret (AUnregisterBuffer o b)) (k, d)).
Proof.
  intros Hd. unfold action_step, mbind, method_bind.
  destruct (tasks d !! o) as [t|] eqn:Ht; [|by rewrite on_task_none]. rewrite (on_task_state _ _ _ _ t Ht).
  destruct (unregister_buffer b (te_state t)) as [s' [m|e]] eqn:Er; cbn [fst snd map_err].
  2:{ apply fail_safe in Er as ->. by rewrite set_tasks_unchanged. }
  apply unregister_iff in Er as (Hb & Hm & ->). cbn. exists (view_of t). split; [apply ep_view_Some; eauto|].
  pose proof (ep_tasks _ Hd _ _ Ht) as Hi. split; [cbn; by apply elem_of_dom|]. split.
  - intros f (a & <- & Hf)%lookup_fmap_Some. apply Hb. by eapply pending_busy.
  - unfold ep_view. cbn. rewrite fmap_insert. unfold view_of. cbn. by rewrite dom_delete_L.
Qed.

Lemma present_step o f b n ap rp dmg (k : K) d :
  ep_inv d → action_step id (k, d) (present o f b n ap rp dmg (k, d)).
Proof.
  intros Hd. unfold action_step, present. destruct (tasks d !! o) as [t|] eqn:Ht; [|by rewrite on_task_none].
  rewrite (on_task_some _ _ _ _ _ Ht). pose proof (ep_tasks _ Hd _ _ Ht) as Hi.
  destruct (present_task _ _ _ _ _ _ _ _) as [[k' t'] r] eqn:E. apply present_task_outcome in E; [|done].
  assert (∀ t', points_consumed ap rp t t' → ep_view (set_tasks (<[o := t']> (tasks d)) d) = ep_view d) as Hc.
  { intros u (l & _ & ->). by eapply ep_view_same. }
  destruct E as [l' fence Hp Hcur|t' e Hp Hcur _|t' r Hdis Hcur Ha _|e]; cbn.
  - exists (view_of t). split; [apply ep_view_Some; eauto|]. destruct (pr_buffer _ _ _ _ _ _ _ _ Hp) as (? & ? & m & _ & Hm & _).
    split_and!.
    + cbn. rewrite lookup_fmap. destruct (te_pending t !! f) as [a|] eqn:Hf; [|done].
      apply (te_pending_in_flight _ _ _ _ Hi) in Hf. by rewrite (pr_fresh _ _ _ _ _ _ _ _ Hp) in Hf.
    + cbn. apply elem_of_dom. eauto.
    + intros f' (a & Ea & Hf)%lookup_fmap_Some. apply (pr_idle _ _ _ _ _ _ _ _ Hp). rewrite <- Ea.
      by eapply pending_busy.
    + unfold ep_view. cbn. rewrite fmap_insert. unfold view_of. cbn. by rewrite fmap_insert.
  - by apply Hc.
  - destruct r as [a|e]; [|by apply Hc]. rewrite (Ha a eq_refl). cbn. by apply Hc.
  - unfold ep_view. cbn. by rewrite insert_id.
Qed.

Lemma TaskFixed_state {A} (m : task_method A) :
  (∀ s, dom (buffers (m s).1) = dom (buffers s)) → ∀ w, view_of (on_state (K := K) m w).1.2 = view_of w.2.
Proof.
  intros Hb [k t]. unfold on_state. cbn. specialize (Hb (te_state t)).
  destruct (m (te_state t)) as [s r]. cbn in *. unfold view_of. cbn. by rewrite Hb.
Qed.

Lemma Fixed_hello a b c : Fixed (client_hello a b c).
Proof.
  unfold client_hello. apply Fixed_bind; [apply _|intros w].
  do 2 (apply Fixed_bind; [apply _|intros]). apply Fixed_bind; [by apply Fixed_endpoint|intros].
  do 2 (apply Fixed_bind; [apply _|intros]). apply Fixed_bind; [by apply Fixed_endpoint|intros]. apply _.
Qed.

Lemma Fixed_bind_task o a : Fixed (bind_task o a).
Proof.
  unfold bind_task. do 2 (apply Fixed_bind; [apply _|intros]). apply Fixed_bind; [|intros; apply _].
  apply Fixed_on_task. intros [k t]. unfold mbind, method_bind, get, reject, update_task, modify. cbn.
  by destruct (bool_decide _).
Qed.

Lemma Fixed_acknowledge o n : Fixed (on_task o (on_state (acknowledge_configure n))).
Proof.
  apply Fixed_on_task, TaskFixed_state. intros s.
  unfold acknowledge_configure, mbind, method_bind, get, lift, modify. destruct (configured s); cbn; [|done].
  destruct (_ =? _); cbn; [done|]. by destruct (serial_precedes _ _).
Qed.

Lemma Fixed_timelines o ds : Fixed (bind_timelines o ds).
Proof.
  unfold bind_timelines. do 2 (apply Fixed_bind; [apply _|intros []]). apply Fixed_bind.
  { intros [k d]. cbn. by destruct (denial_import _ _ k). }
  intros ls. apply Fixed_bind; [|intros; apply _]. apply Fixed_on_task. intros [k t].
  unfold mbind, method_bind, on_state, TaskState.bind_timelines, get, reject, modify, update_task. cbn.
  unfold mbind, method_bind. cbn. by destruct (timelines_bound (te_state t)).
Qed.

Lemma task_is_some o (w w' : K * DenialEndpoint) t :
  task o w = (w', Ok t) → w' = w ∧ is_Some (ep_view w.2 !! o).
Proof.
  unfold task, mbind, method_bind, get, lift, ep_view. cbn. rewrite lookup_fmap.
  destruct (tasks w.2 !! o); cbn; intros [= <- _]. eauto.
Qed.

Ltac fixed_step :=
  apply Fixed_step;
  [ first [apply Fixed_hello | apply Fixed_bind_task | apply Fixed_timelines
          | apply Fixed_bind; [apply Fixed_acknowledge|intros; apply _] | apply _]
  | unfold client_hello, bind_task, bind_timelines, bind_input_channel;
    let w := fresh "w" in let r := fresh "r" in let Hr := fresh "Hr" in
    intros w r Hr; cbv beta in *;
    repeat (progress inv_method || case_match);
    repeat match goal with H : task _ _ = (_, Ok _) |- _ => apply task_is_some in H as [? H] end;
    subst; cbn in *; auto ].

Lemma reduce_step received (k : K) d : ep_inv d → action_step id (k, d) (reduce received (k, d)).
Proof.
  intros Hd. rewrite reduce_run. destruct (needs_handshake _ _); [done|]. unfold dispatch.
  destruct (rm_message received);
    try solve [apply create_step | by apply destroy_step | apply register_step | by apply unregister_step
              | by apply present_step].
  all: try (fixed_step; fail).
  apply Fixed_step; [apply Fixed_timelines|]. unfold bind_timelines.
  intros w r (? & [f1 l1] & _ & (? & [f2 l2] & _ & (? & ? & _ & (? & ? & _ & [_ <-]%m_ret_Ok)%m_bind_Ok)%m_bind_Ok)%m_bind_Ok)%m_bind_Ok.
  done.
Qed.

(** A received record either fails and leaves the views as they were or is the
    step its action says. *)
Lemma receive_action_step (k : K) d w r :
  ep_inv d → receive_action (k, d) = (w, r) →
  ep_inv w.2 ∧ match r with
               | Ok a => action_view a (ep_view d) (ep_view w.2)
               | Err _ => ep_view w.2 = ep_view d
               end.
Proof.
  intros Hd E. split. { pose proof (ep_run receive_action (k, d) _ Hd) as Hi. by rewrite E in Hi. }
  revert E. unfold receive_action, mbind, method_bind, on_socket. cbn.
  destruct (receive_android_into _ k) as [k' [m|e]]; cbn; [|by intros [= <- <-]].
  pose proof (reduce_step m k' d Hd) as Hs. unfold action_step in Hs. intros E. rewrite E in Hs. by destruct r.
Qed.

End calls.
