(* ===== verification/LayerFrame.v ===== *)
(** * What a layer stream leaves alone

    An operation of a layer stream changes neither the flags of its task nor
    its root surface nor anything of the kernel state that the kernel's calls
    keep ([frame], the presenter's endpoint): only a direct scene discards the
    composed frame that waits for a grant.  So an invariant of these parts that
    survives the discard survives every operation ([Tame]), and an operation
    fails for a [fault] of the presenter only where the discard does. *)

From S2P Require Import Transport TaskState Endpoint Hoare Syncobj Ipc SurfaceBridge LayerStream LayerCodec FrameGrants LayerPresenter EndpointView Prelude.

#[global] Typeclasses Opaque send ack answer answer_import host_call LayerPresenter.on_kernel fresh_proxy emit emit_all LayerPresenter.update_task update_stream stream LayerPresenter.task new_lane pixel carrier add_feedback discard_queued reserve_grant note_android_frame monotonic_timestamp_nanos place_layer release_loop on_lane for_each when on_configuration hide release show_layers commit_layers.

(** The errors that say the presenter contradicted its own books. *)
Definition fault (e : LayerError) : bool :=
  match e with
  | EndpointFailed e => refusal e
  | UnknownTask _ | UnknownBuffer _ _ | HostPanicked => true
  | Configuration what =>
      bool_decide (what ∈ ["endpoint disappeared"; "endpoint is absent"; "presented buffer is unavailable";
                           "buffer timeline is absent"; "pending buffer timeline is absent";
                           "duplicate local buffer identity";
                           "presentation feedback has no submitted frame"]%string)
  | _ => false
  end.

(** The calls of the kernel keep [frame]. *)
Class FramedOps {K F : Type} `{PresenterOps K} (frame : K → F) : Prop := {
  fr_create b k : frame (create_syncobj b k).1 = frame k;
  fr_import f b k : frame (fd_to_syncobj f b k).1 = frame k;
  fr_export h b k : frame (syncobj_to_fd h b k).1 = frame k;
  fr_transfer a b p q k : frame (syncobj_timeline_transfer a b p q k).1 = frame k;
  fr_signal h p k : frame (syncobj_timeline_signal h p k).1 = frame k;
  fr_wait h p t a b c k : frame (syncobj_timeline_wait h p t a b c k).1 = frame k;
  fr_query h k : frame (syncobj_timeline_query h k).1 = frame k;
  fr_notify h p f b k : frame (syncobj_eventfd h p f b k).1 = frame k;
  fr_sync_file h f k : frame (ioctl_import_sync_file h f k).1 = frame k;
  fr_clock k : frame (clock_monotonic k).1 = frame k;
  fr_sendmsg s b f k : frame (@sendmsg K (po_socket s) b f k).1 = frame k;
  fr_recvmsg s n k : frame (@recvmsg K (po_socket s) n k).1 = frame k;
  fr_eventfd k : frame (po_eventfd k).1 = frame k;
  fr_eventfd_read f k : frame (po_eventfd_read f k).1 = frame k;
  fr_host_call what k : frame (po_host_call what k).1 = frame k
}.

Section frame.

Context {K F : Type} `{HP : PresenterOps K} (frame : K → F) `{HF : !FramedOps frame}.

Abbreviation world := (LayerPresenter.world (K := K)).

(** ** Kernel calls *)

#[local] Instance Keeps_drm {A} op (call : K → K * result errno A) :
  (∀ k, frame (call k).1 = frame k) → Keeps frame (drm_error op call).
Proof. intros Hc k. unfold drm_error. specialize (Hc k). by destruct (call k). Qed.

#[local] Instance Keeps_mapped {E A} (wrap : errno → E) (call : K → K * result errno A) :
  (∀ k, frame (call k).1 = frame k) →
  Keeps (E := E) frame (λ k, let '(k', r) := call k in (k', map_err wrap r)).
Proof. intros Hc k. specialize (Hc k). by destruct (call k). Qed.

#[local] Instance Keeps_create : Keeps frame create_timeline.
Proof. unfold create_timeline. apply Keeps_bind; [apply Keeps_drm, fr_create|apply _]. Qed.

#[local] Instance Keeps_send s bytes fds : Keeps frame (@send_record K (po_socket s) bytes fds).
Proof.
  unfold send_record. repeat (apply Keeps_bind; [try apply _; apply Keeps_mapped, fr_sendmsg|intros]).
  apply _.
Qed.

#[local] Instance Keeps_receive s n : Keeps frame (@receive_record_into K (po_socket s) n).
Proof.
  unfold receive_record_into.
  apply Keeps_bind; [apply _|intros; apply Keeps_bind; [apply Keeps_mapped, fr_recvmsg|intros; apply _]].
Qed.

(** *** Timelines and lanes *)

Definition tl_frame (w : K * Syncobj.Timeline) : F := frame w.1.
Definition lane_frame (w : K * Lane) : F := frame w.1.

#[local] Instance Keeps_on_kernel {A} (m : method K SyncobjError A) :
  Keeps frame m → Keeps tl_frame (Syncobj.on_kernel m).
Proof. intros Hm [k t]. unfold Syncobj.on_kernel, tl_frame. cbn. specialize (Hm k). by destruct (m k). Qed.

#[local] Instance Keeps_tl_update f : Keeps tl_frame (Syncobj.update f).
Proof. by intros [k t]. Qed.

Ltac tl_keeps :=
  repeat (intros; cbn; first
    [ apply _ | apply Keeps_bind
    | apply Keeps_on_kernel, Keeps_drm;
      first [apply fr_create | apply fr_import | apply fr_export | apply fr_transfer | apply fr_signal
            | apply fr_wait | apply fr_query | apply fr_notify | apply fr_sync_file]
    | case_match ]).

#[local] Instance Keeps_transfer_handle : Keeps tl_frame transfer_handle.
Proof. unfold transfer_handle. tl_keeps. Qed.
#[local] Instance Keeps_attach p f : Keeps tl_frame (attach_sync_file p f).
Proof. unfold attach_sync_file. tl_keeps. Qed.
#[local] Instance Keeps_signal p : Keeps tl_frame (signal p).
Proof. unfold signal. tl_keeps. Qed.
#[local] Instance Keeps_signalled : Keeps tl_frame signalled_point.
Proof. unfold signalled_point. tl_keeps. Qed.
#[local] Instance Keeps_available p e : Keeps tl_frame (notify_when_available p e).
Proof. unfold notify_when_available. tl_keeps. Qed.
#[local] Instance Keeps_when_signalled p e : Keeps tl_frame (notify_when_signalled p e).
Proof. unfold notify_when_signalled. tl_keeps. Qed.
#[local] Instance Keeps_wait_export p t : Keeps tl_frame (wait_available_and_export p t).
Proof. unfold wait_available_and_export, export_materialized. tl_keeps. Qed.
#[local] Instance Keeps_try_export p : Keeps tl_frame (try_export_release_fence p).
Proof.
  intros w. pose proof (Keeps_wait_export p NO_WAIT w) as Hk. unfold try_export_release_fence.
  destruct (wait_available_and_export p NO_WAIT w) as [w' [f|[]]]; try done. by case_match.
Qed.

(** A lane's method keeps the frame and fails for no fault. *)
Definition mild {S X A} (g : S → X) (m : method S LayerError A) : Prop :=
  ∀ w, g (m w).1 = g w ∧ ∀ e, (m w).2 = Err e → fault e = false.

Lemma mild_bind {S X A B} (g : S → X) (m : method S LayerError A) (f : A → method S LayerError B) :
  mild g m → (∀ a, mild g (f a)) → mild g (m ≫= f).
Proof.
  intros Hm Hf w. destruct (Hm w) as [H1 H2]. unfold mbind, method_bind.
  destruct (m w) as [w1 [a|e]]; cbn in *; [|split; [done|intros ? [= <-]; by apply H2]].
  destruct (Hf a w1) as [H3 H4]. by rewrite H3.
Qed.

Lemma mild_timeline {A} (m : tl_method A) : Keeps tl_frame m → mild lane_frame (on_timeline m).
Proof.
  intros Hm [k l]. unfold on_timeline, lane_frame. cbn. specialize (Hm (k, ln_timeline l)). unfold tl_frame in Hm.
  destruct (m _) as [[k' t] [a|e]]; cbn in *; (split; [done|]); by intros ? [= <-].
Qed.

Lemma mild_attempt {S X A B} (g : S → X) (m : method S LayerError A)
    (f : result LayerError A → method S LayerError B) :
  mild g m → (∀ r, match r with Err e => fault e = false | _ => True end → mild g (f r)) →
  mild g (r ← attempt m; f r).
Proof.
  intros Hm Hf w. destruct (Hm w) as [H1 H2]. unfold mbind, method_bind, attempt.
  destruct (m w) as [w1 r]; cbn in *. destruct (Hf r) with (w := w1) as [H3 H4].
  - destruct r; [done|by apply H2].
  - by rewrite H3.
Qed.

Lemma mild_pure {S X A} (g : S → X) (m : method S LayerError A) :
  (∀ w, g (m w).1 = g w) → (∀ w e, (m w).2 = Err e → fault e = false) → mild g m.
Proof. intros H1 H2 w. split; [apply H1|apply H2]. Qed.

Lemma mild_lift {S X A} (g : S → X) (r : result LayerError A) :
  match r with Err e => fault e = false | _ => True end → mild g (lift r).
Proof. intros Hr w. unfold lift. destruct r; cbn; (split; [done|]); by intros ? [= <-]. Qed.

Ltac mild_simple := apply mild_pure; [done|intros ? ? ?; cbn in *; by simplify_eq].

Lemma mild_register m u : Keeps tl_frame m → mild lane_frame (register_wakeup m u).
Proof.
  intros Hm. unfold register_wakeup. apply mild_attempt; [by apply mild_timeline|].
  intros [[]|e] He; [mild_simple|]. destruct e as [| [] | | | | | | | | | | | ]; try mild_simple.
  destruct (unsupported_errno _); mild_simple.
Qed.

Lemma mild_arm_release p : mild lane_frame (arm_release_wakeup p).
Proof.
  unfold arm_release_wakeup. apply mild_bind; [mild_simple|]. intros w.
  destruct (ln_release_wakeup w.2); [apply mild_register; apply _|mild_simple].
Qed.

Lemma mild_lane_kernel {E A} (wrap : E → LayerError) (m : K → K * result E A) :
  (∀ k, frame (m k).1 = frame k) → (∀ e, fault (wrap e) = false) → mild lane_frame (lane_kernel wrap m).
Proof.
  intros Hm He [k l]. unfold lane_kernel, lane_frame. cbn. specialize (Hm k).
  destruct (m k) as [k' [a|e]]; cbn in *; (split; [done|]); by intros ? [= <-].
Qed.

Lemma mild_arm_availability p : mild lane_frame (arm_availability p).
Proof.
  unfold arm_availability. apply mild_bind; [mild_simple|]. intros w.
  destruct (fw_unsupported _); [mild_simple|]. apply mild_bind.
  { destruct (fw_event _); [mild_simple|].
    apply mild_bind; [apply mild_lane_kernel; [apply fr_eventfd|done]|intros; mild_simple]. }
  intros event. apply mild_attempt; [apply mild_lane_kernel; [apply fr_eventfd_read|done]|].
  intros r Hr. apply mild_bind; [|intros; apply mild_register; apply _].
  destruct r as [|[]]; try mild_simple. destruct (_ =? _); mild_simple.
Qed.

Lemma mild_begin_read acquire : mild lane_frame (begin_read acquire).
Proof.
  unfold begin_read. apply mild_bind; [mild_simple|intros w].
  apply mild_bind.
  { apply mild_lift. unfold next_points. destruct (checked_add u64_max _ 1) as [a|]; cbn; [|done].
    by destruct (checked_add u64_max a 1). }
  intros [a r]. apply mild_bind; [destruct acquire; apply mild_timeline; apply _|intros].
  apply mild_bind; [mild_simple|intros]. apply mild_bind; [apply mild_arm_release|intros].
  apply mild_bind; [apply mild_arm_availability|intros]. mild_simple.
Qed.

(** ** Effects on a stream's world *)

(** The composed frame that waits is apart. *)
Definition framed (w : world) : bool * bool * bool * option Z * option QueuedFrame * F :=
  (lt_flags (w_task w), lt_root (w_task w), lt_queued (w_task w), frame (w_kernel w)).

Class Still {A} (m : lp (K := K) A) : Prop := still : mild framed m.

#[local] Instance Still_bind {A B} (m : lp (K := K) A) (f : A → lp (K := K) B) :
  Still m → (∀ a, Still (f a)) → Still (m ≫= f).
Proof. apply mild_bind. Qed.
#[local] Instance Still_ret {A} (a : A) : Still (mret a).
Proof. unfold Still. mild_simple. Qed.
#[local] Instance Still_stream : Still stream.
Proof. unfold Still. mild_simple. Qed.
#[local] Instance Still_task : Still task.
Proof. unfold Still. mild_simple. Qed.
#[local] Instance Still_emit r : Still (emit r).
Proof. unfold Still. mild_simple. Qed.
#[local] Instance Still_emit_all r : Still (emit_all r).
Proof. unfold Still. mild_simple. Qed.
#[local] Instance Still_fresh : Still fresh_proxy.
Proof. unfold Still. mild_simple. Qed.
#[local] Instance Still_update_stream f : Still (update_stream f).
Proof. unfold Still. mild_simple. Qed.
Lemma Still_update_task f :
  (∀ k, (lt_flags (f k), lt_root (f k), lt_queued (f k)) = (lt_flags k, lt_root k, lt_queued k)) →
  Still (update_task f).
Proof.
  intros Hf. apply mild_pure; [|intros ? ? ?; cbn in *; by simplify_eq].
  intros w. specialize (Hf (w_task w)). injection Hf as H1 H2 H3. unfold framed. cbn. by rewrite H1, H2, H3.
Qed.
Lemma Still_throw {A} e : fault e = false → Still (throw (A := A) e).
Proof. intros He. unfold Still. mild_simple. Qed.
Lemma Still_lift {A} (r : result LayerError A) :
  match r with Err e => fault e = false | _ => True end → Still (lift r).
Proof. apply mild_lift. Qed.
Lemma Still_ok_or {A} (o : option A) e : fault e = false → Still (lift (ok_or o e)).
Proof. intros He. apply Still_lift. by destruct o. Qed.
Lemma Still_fail_if b e : fault e = false → Still (lift (fail_if b e)).
Proof. intros He. apply Still_lift. by destruct b. Qed.
Lemma Still_kernel {E A} (wrap : E → LayerError) (m : method K E A) :
  Keeps frame m → (∀ e, fault (wrap e) = false) → Still (LayerPresenter.on_kernel wrap m).
Proof.
  intros Hm He w. unfold LayerPresenter.on_kernel, framed. specialize (Hm (w_kernel w)).
  destruct (m (w_kernel w)) as [k [a|e]]; cbn in *; (split; [by rewrite Hm|]); by intros ? [= <-].
Qed.
#[local] Instance Still_host_call what : Still (host_call what).
Proof. unfold host_call. apply Still_kernel; [intros k; apply fr_host_call|done]. Qed.
#[local] Instance Still_send s r : Still (send s r).
Proof. unfold send. apply Still_bind; [apply Still_kernel; [apply _|done]|intros; unfold Still; mild_simple]. Qed.
#[local] Instance Still_when b m : Still m → Still (when b m).
Proof. intros Hm. unfold when. destruct b; [done|apply _]. Qed.
#[local] Instance Still_each {A} (body : A → lp unit) xs : (∀ x, Still (body x)) → Still (for_each body xs).
Proof. intros Hb. induction xs; cbn [for_each]; apply _. Qed.
Lemma Still_lane {A} id lane (m : lane_method A) : mild lane_frame m → Still (on_lane id lane m).
Proof.
  intros Hm w. unfold on_lane. destruct (buffers (w_stream w) !! id) as [b|]; cbn.
  2:{ split; [done|]. by intros ? [= <-]. }
  destruct (sr_lanes b !! lane) as [l|]; cbn; [|split; [done|by intros ? [= <-]]].
  destruct (Hm (w_kernel w, l)) as [H1 H2]. destruct (m _) as [[k l'] r]. unfold framed, lane_frame in *.
  cbn in *. by rewrite H1.
Qed.
Lemma Still_attempt {A B} (m : lp A) (f : result LayerError A → lp B) :
  Still m → (∀ r, match r with Err e => fault e = false | _ => True end → Still (f r)) →
  Still (r ← attempt m; f r).
Proof. apply mild_attempt. Qed.
Lemma Still_configuration {A} (m : method ConfigPublisher WireError A) : Still (on_configuration m).
Proof.
  intros w. unfold on_configuration. destruct (m _) as [c [a|e]]; cbn; (split; [done|]); by intros ? [= <-].
Qed.

(** Straight-line effects. *)
Ltac still :=
  repeat (intros; cbn beta iota; first
    [ apply _
    | apply Still_bind
    | apply Still_when
    | apply Still_each
    | apply Still_update_task; reflexivity
    | apply Still_throw; reflexivity
    | apply Still_lift; reflexivity
    | apply Still_ok_or; reflexivity
    | apply Still_fail_if; reflexivity
    | apply Still_kernel; [apply _|reflexivity]
    | apply Still_configuration
    | case_match ]).

#[local] Instance Still_ack c : Still (ack c).
Proof. unfold ack. apply _. Qed.
#[local] Instance Still_answer scene c : Still (answer scene c).
Proof. unfold answer. still. Qed.
#[local] Instance Still_answer_import attempt b c : Still (answer_import attempt b c).
Proof. unfold answer_import. still. Qed.
#[local] Instance Still_new_lane : Still new_lane.
Proof.
  unfold new_lane. apply Still_bind; [still|intros t]. apply Still_bind.
  - apply Still_kernel; [apply Keeps_drm, fr_export|done].
  - still. apply Still_kernel; [intros k; apply fr_eventfd|done].
Qed.
#[local] Instance Still_hide : Still hide.
Proof. unfold hide, hide_view, modify_view. still. Qed.

Lemma Still_release_loop todo : ∀ index, Still (release_loop todo index).
Proof.
  induction todo as [|todo IH]; intros index; cbn [release_loop]; [apply _|].
  apply Still_bind; [|intros; apply IH]. unfold release_read. apply Still_bind; [apply _|intros s].
  case_match; [|by apply Still_throw]. apply Still_bind.
  { case_match; [|apply _]. apply Still_bind; [apply Still_lane, mild_timeline; apply _|].
    intros. unfold send_fences, send_fence_at. still. }
  intros _. apply Still_bind; [apply Still_lane, mild_timeline; apply _|intros].
  case_match; [apply _|]. apply Still_bind; [|intros; unfold update_source; still].
  case_match; [apply _|]. apply Still_attempt; [apply _|intros; apply _].
Qed.
#[local] Instance Still_release : Still release.
Proof. unfold release. apply Still_bind; [apply _|intros; apply Still_release_loop]. Qed.

(** *** Committing a scene *)

#[local] Instance Still_view t id : Still (view_for_layer t id).
Proof. unfold view_for_layer, create_view. still. Qed.
#[local] Instance Still_pixel c : Still (pixel c).
Proof. unfold pixel. still. Qed.
#[local] Instance Still_carrier size : Still (carrier size).
Proof. unfold carrier. still. Qed.
#[local] Instance Still_add_feedback scene grant surface : Still (add_feedback scene grant surface).
Proof. unfold add_feedback. still. Qed.
#[local] Instance Still_place surface previous g : Still (place_layer surface previous g).
Proof.
  unfold place_layer. destruct (ge_destination g) as [[[dx dy] dw] dh].
  do 5 (apply Still_bind; [still|intros _]). still.
Qed.
#[local] Instance Still_solid l v : Still (show_solid l v).
Proof. unfold show_solid, draw_pixel, modify_view. still. Qed.
#[local] Instance Still_record l lane p b : Still (record_read l lane p b).
Proof. unfold record_read, update_source. still. Qed.
#[local] Instance Still_relabel l held : Still (relabel_read l held).
Proof. unfold relabel_read. still. Qed.
#[local] Instance Still_start l acquire v b : Still (start_read l acquire v b).
Proof.
  unfold start_read. apply Still_bind; [apply _|intros s]. apply Still_bind.
  { unfold update_source. still. }
  intros lane. apply Still_bind; [apply Still_lane, mild_begin_read|]. intros [[proxy ap] rp].
  unfold modify_view. still.
Qed.
#[local] Instance Still_apply scene grant fl l acquire previous g v c :
  Still (apply_layer scene grant fl l acquire previous g v c).
Proof. unfold apply_layer. still. Qed.
#[local] Instance Still_update_view scene grant fl l acquire previous g v :
  Still (update_view scene grant fl l acquire previous g v).
Proof. unfold update_view, modify_view. still. Qed.
#[local] Instance Still_show scene grant fl t logical physical layers : ∀ previous above,
  Still (show_layers scene grant fl t logical physical previous above layers).
Proof. induction layers as [|[l acquire] layers IH]; intros; cbn [show_layers]; still. Qed.

#[local] Instance Still_recycle ids : Still (recycle_views ids).
Proof. unfold recycle_views, recycle_view. still. Qed.
#[local] Instance Still_backing logical preserve : Still (prepare_backing logical preserve).
Proof.
  unfold prepare_backing. destruct preserve; [apply _|]. apply Still_bind; [|intros; still].
  apply Still_lift. unfold carrier_size. by destruct (_ || _).
Qed.
#[local] Instance Still_attach root size grant : Still (attach_backing root size grant).
Proof. unfold attach_backing. still. Qed.
#[local] Instance Still_commit t sp size scene grant : Still (commit_layers t sp size scene grant).
Proof. unfold commit_layers, refresh_root, settle_grant. still. Qed.

#[local] Instance Still_clear : Still clear_staged.
Proof. unfold clear_staged. still. Qed.
#[local] Instance Still_monotonic : Still monotonic_timestamp_nanos.
Proof.
  unfold monotonic_timestamp_nanos. apply Still_bind.
  - apply Still_kernel; [intros k; apply fr_clock|done].
  - intros [seconds nanos]. still.
Qed.
#[local] Instance Still_reserve now : Still (reserve_grant now).
Proof. intros w. unfold reserve_grant. destruct (reserve _ _). split; [done|]. by intros ? [= ]. Qed.
#[local] Instance Still_note now : Still (note_android_frame now).
Proof. unfold Still, note_android_frame. mild_simple. Qed.
#[local] Instance Still_show_scene t sp commit : Still (show_scene t sp commit).
Proof. unfold show_scene, park. still. Qed.

(** *** Requests *)

#[local] Instance Still_abort : Still abort_timeline_wait.
Proof. unfold abort_timeline_wait. still. Qed.
#[local] Instance Still_stage layers : ∀ ds, Still (stage_entries layers ds).
Proof. induction layers as [|e layers IH]; intros; cbn [stage_entries]; still. Qed.
#[local] Instance Still_register formats m attempt fds : Still (register formats m attempt fds).
Proof. unfold register. still. Qed.
#[local] Instance Still_unregister id : Still (unregister id).
Proof. unfold unregister. still. Qed.
#[local] Instance Still_subscribe alpha : Still (subscribe_config alpha).
Proof. unfold subscribe_config. still. Qed.
#[local] Instance Still_query alpha : Still (query_config alpha).
Proof. unfold query_config. still. Qed.
#[local] Instance Still_abort_scene : Still abort_scene.
Proof. unfold abort_scene. still. Qed.
#[local] Instance Still_claim scene : Still (claim_scene scene).
Proof. unfold claim_scene. still. Qed.
#[local] Instance Still_claim_import attempt : Still (claim_import attempt).
Proof. unfold claim_import. still. Qed.

#[local] Instance Still_publish alpha : Still (publish_config alpha).
Proof. unfold publish_config. still. Qed.
#[local] Instance Still_disconnect : Still disconnect.
Proof. unfold disconnect. still. Qed.
#[local] Instance Still_imported params buffer : Still (layer_imported params buffer).
Proof.
  unfold layer_imported. apply Still_bind; [apply _|intros s].
  destruct (imports_finish _ _) as [rest [pending|]]; [|apply _].
  do 2 (apply Still_bind; [apply _|intros]). apply Still_bind; [unfold update_source; still|intros code].
  apply Still_bind; [|intros; apply _]. case_match; [|apply _]. apply Still_attempt; intros; apply _.
Qed.
#[local] Instance Still_receive : Still (LayerPresenter.on_kernel IpcFailed
  (@receive_record_into K (po_socket Requests) MAX_LAYER_PACKET)).
Proof. apply Still_kernel; [apply _|done]. Qed.

(** ** Scenes *)

(** An invariant of the framed state that survives the discard of the waiting
    frame. *)
Context (P : bool * bool * bool * option Z * option QueuedFrame * F → Prop).

Definition Tame {A} (m : lp (K := K) A) : Prop :=
  ∀ w, P (framed w) → wp m (λ _ w', P (framed w')) (λ e, fault e = false) w.

Lemma Still_tame {A} (m : lp A) : Still m → Tame m.
Proof.
  intros Hm w Hw. unfold wp. destruct (Hm w) as [H1 H2]. destruct (m w) as [w' [a|e]]; cbn in *.
  - by rewrite H1.
  - by apply H2.
Qed.

Lemma Tame_bind {A B} (m : lp A) (f : A → lp B) : Tame m → (∀ a, Tame (f a)) → Tame (m ≫= f).
Proof.
  intros Hm Hf w Hw. apply wp_bind. eapply wp_mono; [by apply Hm| |done]. intros a w' Hw'. by apply Hf.
Qed.

Hypothesis discard_kept : ∀ flags root q k,
  P (flags, root, Some q, frame k) →
  match po_discard_frame (aw_frame (qf_frame q)) k with
  | (k', Ok _) => P (flags, root, None, frame k')
  | (_, Err e) => fault (endpoint_error e) = false
  end.

Lemma Tame_discard : Tame discard_queued.
Proof.
  intros w Hw. unfold discard_queued. apply wp_bind, wp_gets.
  destruct (lt_queued (w_task w)) as [q|] eqn:Hq; [|by apply wp_ret].
  unfold framed in Hw. rewrite Hq in Hw. pose proof (discard_kept _ _ _ _ Hw) as Hd.
  apply wp_bind, wp_modify. unfold wp, LayerPresenter.on_kernel. cbn.
  destruct (po_discard_frame _ (w_kernel w)) as [k [u|e]]; done.
Qed.

Lemma Tame_submit alpha t sp commit : Tame (submit_layer_scene alpha t sp commit).
Proof.
  unfold submit_layer_scene. apply Tame_bind; [apply Still_tame, _|intros k].
  apply Tame_bind; [apply Still_tame, _|intros s]. cbv zeta.
  destruct (_ && _); [apply Still_tame; unfold park; still|].
  destruct (negb _); [apply Still_tame; still|]. apply Tame_bind; [apply Tame_discard|intros _].
  apply Still_tame. apply Still_bind; [apply _|intros k']. destruct (_ && _); [unfold park; still|apply _].
Qed.

Lemma Tame_request alpha t sp formats request fds :
  Tame (layer_request alpha t sp formats request fds).
Proof.
  unfold layer_request. apply Tame_bind; [apply Still_tame, _|intros s].
  apply Tame_bind; [apply Still_tame; still|intros _].
  destruct request; try (apply Still_tame; unfold stage_batch; still; fail);
    repeat first [apply Tame_submit | apply Tame_bind; [apply Still_tame; unfold stage_batch; still|intros]].
Qed.

Lemma Tame_releases alpha t sp : Tame (serve_releases alpha t sp).
Proof.
  unfold serve_releases. apply Tame_bind; [apply Still_tame, _|intros _].
  apply Tame_bind; [apply Still_tame, _|intros s]. destruct (waiting s); [|apply Still_tame, _].
  apply Tame_bind; [apply Still_tame, _|intros; apply Tame_submit].
Qed.

End frame.
