(* ===== verification/HostApp.v ===== *)
(** * The host presenter's windows (graphics/droidloom-wayland/src/main.rs, frame_timeline.rs, clock.rs)

    The state of the presenter as far as composed frames, render targets,
    window geometry and the life of a task are concerned, and the operations
    that configure a window, fill and retire its pool of render targets and end
    its timing callbacks.  The presenter owns the host endpoint of [Endpoint]
    and one layer stream of [LayerPresenter] per task; both run here on the
    state they share with the presenter, through [on_endpoint] and [on_layers].

    The kernel, the sockets, GBM and the calls of the client library that can
    fail are the class [HostOps].  Input, text input, the clipboard, the window
    policy file, frame traces and audits are not part of this state; the
    retirement of input contacts is one operation of the class. *)

From S2P Require Import Transport Protocol TaskState Ipc Endpoint PresenterWork PresenterTime.
From S2P Require Import Prelude Bytes Syncobj FrameGrants LayerStream LayerPresenter.

(** ["android.droidloom.bootstrap"]. *)
Definition BOOTSTRAP_PACKAGE : list Z :=
  [97; 110; 100; 114; 111; 105; 100; 46; 100; 114; 111; 105; 100; 108; 111; 111; 109; 46;
   98; 111; 111; 116; 115; 116; 114; 97; 112].
Definition TARGET_POOL_LENGTH : nat := 3.

(** ** Targets, frames and windows *)

(** A [BufferSync] is the [sync] of a [Lane]. *)
Record BufferSync : Type := mkSync {
  bs_timeline : Syncobj.Timeline;
  bs_proxy : Z;
  bs_next_point : Z;
  bs_release_wakeup : option fd
}.

Definition lane_of (s : BufferSync) : Lane :=
  mkLane (bs_timeline s) (bs_proxy s) (bs_next_point s) (bs_release_wakeup s) (mkWakeup None false).
Definition sync_of (l : Lane) : BufferSync :=
  mkSync (ln_timeline l) (ln_proxy l) (ln_next_point l) (ln_release_wakeup l).

Record RenderTarget : Type := mkTargetBuffer {
  rt_metadata : BufferMetadata;
  rt_planes : list fd;
  rt_wayland : option Z;
  rt_sync : option BufferSync;
  rt_host_owned : bool;
  rt_retired : bool;
  rt_busy : bool
}.

Definition with_import (buffer : Z) (t : RenderTarget) : RenderTarget :=
  mkTargetBuffer (rt_metadata t) (rt_planes t) (Some buffer) (rt_sync t) (rt_host_owned t)
    (rt_retired t) (rt_busy t).
Definition with_sync (s : option BufferSync) (t : RenderTarget) : RenderTarget :=
  mkTargetBuffer (rt_metadata t) (rt_planes t) (rt_wayland t) s (rt_host_owned t)
    (rt_retired t) (rt_busy t).
Definition with_busy (b : bool) (t : RenderTarget) : RenderTarget :=
  mkTargetBuffer (rt_metadata t) (rt_planes t) (rt_wayland t) (rt_sync t) (rt_host_owned t)
    (rt_retired t) b.
Definition with_retired (t : RenderTarget) : RenderTarget :=
  mkTargetBuffer (rt_metadata t) (rt_planes t) (rt_wayland t) (rt_sync t) (rt_host_owned t)
    true (rt_busy t).

Record PendingFrame : Type := mkPendingFrame {
  pf_frame : FrameId;
  pf_buffer : BufferId;
  pf_release_point : Z
}.

Record FrameFeedback : Type := mkFrameFeedback {
  ff_proxy : Z;
  ff_frame : FrameId;
  ff_buffer : BufferId;
  ff_grant : option Identity
}.

(** [TaskWindow]: the fields a scene uses are the [LayerTask]; the viewport and
    the fractional scale exist as long as the window and are named by its
    surface; [tw_sent] is what was sent on the layer stream's sockets. *)
Record TaskWindow : Type := mkWindow {
  tw_task : LayerTask;
  tw_layers : option Stream;
  tw_sent : list (Socket * Reply);
  tw_package : rust_string;
  tw_android_task : option Z;
  tw_applied_scale : Z;
  tw_resize : Resize.Pending;
  tw_refresh : Z;
  tw_entered : list Z;
  tw_presentation_output : option Z;
  tw_targets : gmap BufferId RenderTarget;
  tw_pending : list PendingFrame;
  tw_feedback : list FrameFeedback;
  tw_content_opaque : bool;
  tw_focused : bool
}.

Definition headless (t : TaskWindow) : bool := (lt_flags (tw_task t)).1.1.
Definition unmap_requested (t : TaskWindow) : bool := (lt_flags (tw_task t)).1.2.
Definition closing (t : TaskWindow) : bool := (lt_flags (tw_task t)).2.
Definition surface (t : TaskWindow) : option Z := lt_root (tw_task t).
Definition accepts (t : TaskWindow) : bool := accepts_present (tw_task t).

Definition set_task (k : LayerTask) (t : TaskWindow) : TaskWindow :=
  mkWindow k (tw_layers t) (tw_sent t) (tw_package t) (tw_android_task t) (tw_applied_scale t)
    (tw_resize t) (tw_refresh t) (tw_entered t) (tw_presentation_output t) (tw_targets t)
    (tw_pending t) (tw_feedback t) (tw_content_opaque t) (tw_focused t).
Definition set_layers (s : option Stream) (sent : list (Socket * Reply)) (t : TaskWindow) : TaskWindow :=
  mkWindow (tw_task t) s sent (tw_package t) (tw_android_task t) (tw_applied_scale t)
    (tw_resize t) (tw_refresh t) (tw_entered t) (tw_presentation_output t) (tw_targets t)
    (tw_pending t) (tw_feedback t) (tw_content_opaque t) (tw_focused t).
Definition set_resize (r : Resize.Pending) (t : TaskWindow) : TaskWindow :=
  mkWindow (tw_task t) (tw_layers t) (tw_sent t) (tw_package t) (tw_android_task t)
    (tw_applied_scale t) r (tw_refresh t) (tw_entered t) (tw_presentation_output t) (tw_targets t)
    (tw_pending t) (tw_feedback t) (tw_content_opaque t) (tw_focused t).
Definition set_refresh (r : Z) (t : TaskWindow) : TaskWindow :=
  mkWindow (tw_task t) (tw_layers t) (tw_sent t) (tw_package t) (tw_android_task t)
    (tw_applied_scale t) (tw_resize t) r (tw_entered t) (tw_presentation_output t) (tw_targets t)
    (tw_pending t) (tw_feedback t) (tw_content_opaque t) (tw_focused t).
Definition set_outputs (entered : list Z) (presented : option Z) (t : TaskWindow) : TaskWindow :=
  mkWindow (tw_task t) (tw_layers t) (tw_sent t) (tw_package t) (tw_android_task t)
    (tw_applied_scale t) (tw_resize t) (tw_refresh t) entered presented (tw_targets t)
    (tw_pending t) (tw_feedback t) (tw_content_opaque t) (tw_focused t).
Definition set_targets (m : gmap BufferId RenderTarget) (t : TaskWindow) : TaskWindow :=
  mkWindow (tw_task t) (tw_layers t) (tw_sent t) (tw_package t) (tw_android_task t)
    (tw_applied_scale t) (tw_resize t) (tw_refresh t) (tw_entered t) (tw_presentation_output t) m
    (tw_pending t) (tw_feedback t) (tw_content_opaque t) (tw_focused t).
Definition set_frames (p : list PendingFrame) (f : list FrameFeedback) (t : TaskWindow) : TaskWindow :=
  mkWindow (tw_task t) (tw_layers t) (tw_sent t) (tw_package t) (tw_android_task t)
    (tw_applied_scale t) (tw_resize t) (tw_refresh t) (tw_entered t) (tw_presentation_output t)
    (tw_targets t) p f (tw_content_opaque t) (tw_focused t).
Definition set_content (opaque : bool) (t : TaskWindow) : TaskWindow :=
  mkWindow (tw_task t) (tw_layers t) (tw_sent t) (tw_package t) (tw_android_task t)
    (tw_applied_scale t) (tw_resize t) (tw_refresh t) (tw_entered t) (tw_presentation_output t)
    (tw_targets t) (tw_pending t) (tw_feedback t) opaque (tw_focused t).
Definition set_android (a : option Z) (t : TaskWindow) : TaskWindow :=
  mkWindow (tw_task t) (tw_layers t) (tw_sent t) (tw_package t) a (tw_applied_scale t)
    (tw_resize t) (tw_refresh t) (tw_entered t) (tw_presentation_output t) (tw_targets t)
    (tw_pending t) (tw_feedback t) (tw_content_opaque t) (tw_focused t).
Definition set_focused (b : bool) (t : TaskWindow) : TaskWindow :=
  mkWindow (tw_task t) (tw_layers t) (tw_sent t) (tw_package t) (tw_android_task t)
    (tw_applied_scale t) (tw_resize t) (tw_refresh t) (tw_entered t) (tw_presentation_output t)
    (tw_targets t) (tw_pending t) (tw_feedback t) (tw_content_opaque t) b.
Definition update_target (b : BufferId) (f : RenderTarget → RenderTarget) (t : TaskWindow) : TaskWindow :=
  set_targets (alter f b (tw_targets t)) t.

(** Changes of the [LayerTask]. *)
Definition set_flags (f : bool * bool * bool) (k : LayerTask) : LayerTask :=
  mkLayerTask f (lt_root k) (lt_serial k) (lt_buffer_size k) (lt_logical_size k) (lt_timeline k)
    (lt_queued k) (lt_scene_feedback k) (lt_composed_root k) (lt_sync_surface k) (lt_applied_opaque k).
Definition set_scene_feedback (f : list SceneFeedback) (k : LayerTask) : LayerTask :=
  mkLayerTask (lt_flags k) (lt_root k) (lt_serial k) (lt_buffer_size k) (lt_logical_size k)
    (lt_timeline k) (lt_queued k) f (lt_composed_root k) (lt_sync_surface k) (lt_applied_opaque k).
(** The geometry of a configure; the opaque region has to be set again. *)
Definition set_geometry (logical : option (Z * Z)) (buffer : Z * Z) (serial : Z) (k : LayerTask) : LayerTask :=
  mkLayerTask (lt_flags k) (lt_root k) serial buffer logical (lt_timeline k) (lt_queued k)
    (lt_scene_feedback k) (lt_composed_root k) (lt_sync_surface k) None.
(** The window is gone: no surface, no sync object, no unmap pending. *)
Definition unmapped (k : LayerTask) : LayerTask :=
  mkLayerTask ((lt_flags k).1.1, false, (lt_flags k).2) None (lt_serial k) (lt_buffer_size k)
    (lt_logical_size k) (lt_timeline k) (lt_queued k) (lt_scene_feedback k) (lt_composed_root k)
    false (lt_applied_opaque k).

Definition update_layer_task (f : LayerTask → LayerTask) (t : TaskWindow) : TaskWindow :=
  set_task (f (tw_task t)) t.

(** ** Outputs *)

Record Mode : Type := mkMode {
  md_current : bool;
  md_preferred : bool;
  md_dimensions : Z * Z;
  md_refresh_rate : Z
}.

Record Output : Type := mkOutput {
  op_id : Z;
  op_modes : list Mode;
  op_transform : PresenterTime.Transform
}.

Definition output_refresh_millihz (outputs : list Output) (o : Z) : option Z :=
  info ← List.find (λ i, op_id i =? o) outputs;
  md_refresh_rate <$> List.find (λ m, md_current m && (0 <? md_refresh_rate m)) (op_modes info).

(** The greatest element by a key, the last one among equals. *)
Fixpoint max_by_key {A} (key : A → Z) (xs : list A) : option A :=
  match xs with
  | [] => None
  | x :: xs =>
      match max_by_key key xs with
      | Some y => if key y <? key x then Some x else Some y
      | None => Some x
      end
  end.

Definition canvas_of (info : Output) : option (Z * Z) :=
  mode ← match List.find md_current (op_modes info) with
         | Some m => Some m
         | None => List.find md_preferred (op_modes info)
         end;
  oriented_output_size (md_dimensions mode) (op_transform info).

Definition host_canvas_size (outputs : list Output) : option (Z * Z) :=
  max_by_key (λ s, s.1 * s.2) (omap canvas_of outputs).

(** ** The presenter *)

(** What the Wayland connection announced. *)
Record Env : Type := mkEnv {
  env_outputs : list Output;
  (** The (format, modifier) pairs of the dmabuf feedback, in tranche order. *)
  env_formats : option (list (Z * Z));
  env_alpha : bool;
  (** The frame timeline manager. *)
  env_manager : bool;
  env_clock_id : option Z;
  (** The activation manager. *)
  env_activation : bool;
  env_expected : ExpectedPeer
}.

(** A GBM allocation. *)
Record BufferObject : Type := mkBufferObject {
  bo_handle : Z;
  bo_modifier : Z;
  bo_planes : list (Z * Z)
}.

Class HostOps (K : Type) : Type := {
  ho_drm :: Drm K;
  (** The accepted endpoint's socket. *)
  ho_endpoint :: SeqPacketOps K;
  (** The two sockets of a task's layer stream. *)
  ho_stream : Z → Socket → SeqPacketOps K;
  (** [accept] on the listening socket. *)
  ho_accept : K → K * result errno unit;
  ho_eventfd : K → K * result errno fd;
  ho_eventfd_read : fd → K → K * result errno Z;
  ho_host_call : string → K → K * result errno unit;
  ho_bo_create : Z → Z → Z → list Z → K → K * result string BufferObject;
  ho_bo_plane : BufferObject → Z → K → K * result string fd;
  (** The retirement of a task's input contacts, whose failures are logged. *)
  ho_retire_contacts : Z → K → K
}.

Section host.

Context {K : Type} `{HostOps K}.

(** The kernel and the endpoint, which a layer stream reaches too. *)
Definition host : Type := K * option DenialEndpoint.

Record App : Type := mkApp {
  a_host : host;
  a_windows : gmap TaskObjectId TaskWindow;
  a_work : Readiness.Tasks;
  a_clock : FrameGrants.Clock;
  a_tokens : Activation.Tokens rust_string;
  a_focused : option Z;
  a_env : Env;
  a_buffer_id : Z;
  a_next : Z;
  a_log : list WlRequest;
  a_fatal : option LayerError
}.

Definition with_host (h : host) (w : App) : App :=
  mkApp h (a_windows w) (a_work w) (a_clock w) (a_tokens w) (a_focused w) (a_env w)
    (a_buffer_id w) (a_next w) (a_log w) (a_fatal w).
Definition with_windows (m : gmap TaskObjectId TaskWindow) (w : App) : App :=
  mkApp (a_host w) m (a_work w) (a_clock w) (a_tokens w) (a_focused w) (a_env w)
    (a_buffer_id w) (a_next w) (a_log w) (a_fatal w).
Definition with_work (r : Readiness.Tasks) (w : App) : App :=
  mkApp (a_host w) (a_windows w) r (a_clock w) (a_tokens w) (a_focused w) (a_env w)
    (a_buffer_id w) (a_next w) (a_log w) (a_fatal w).
Definition with_clock (c : FrameGrants.Clock) (w : App) : App :=
  mkApp (a_host w) (a_windows w) (a_work w) c (a_tokens w) (a_focused w) (a_env w)
    (a_buffer_id w) (a_next w) (a_log w) (a_fatal w).
Definition with_tokens (t : Activation.Tokens rust_string) (w : App) : App :=
  mkApp (a_host w) (a_windows w) (a_work w) (a_clock w) t (a_focused w) (a_env w)
    (a_buffer_id w) (a_next w) (a_log w) (a_fatal w).
Definition with_focus (f : option Z) (w : App) : App :=
  mkApp (a_host w) (a_windows w) (a_work w) (a_clock w) (a_tokens w) f (a_env w)
    (a_buffer_id w) (a_next w) (a_log w) (a_fatal w).
Definition with_env (e : Env) (w : App) : App :=
  mkApp (a_host w) (a_windows w) (a_work w) (a_clock w) (a_tokens w) (a_focused w) e
    (a_buffer_id w) (a_next w) (a_log w) (a_fatal w).
Definition with_ids (buffer next : Z) (w : App) : App :=
  mkApp (a_host w) (a_windows w) (a_work w) (a_clock w) (a_tokens w) (a_focused w) (a_env w)
    buffer next (a_log w) (a_fatal w).
Definition with_log (l : list WlRequest) (w : App) : App :=
  mkApp (a_host w) (a_windows w) (a_work w) (a_clock w) (a_tokens w) (a_focused w) (a_env w)
    (a_buffer_id w) (a_next w) l (a_fatal w).
Definition with_fatal (e : option LayerError) (w : App) : App :=
  mkApp (a_host w) (a_windows w) (a_work w) (a_clock w) (a_tokens w) (a_focused w) (a_env w)
    (a_buffer_id w) (a_next w) (a_log w) e.

Definition app : Type → Type := method App LayerError.

(** ** Running the parts *)

Definition on_fst {E A} (m : K → K * result E A) (h : host) : host * result E A :=
  let '(k, r) := m h.1 in ((k, h.2), r).

Definition app_kernel {E A} (wrap : E → LayerError) (m : K → K * result E A) : app A :=
  λ w, let '(h, r) := on_fst m (a_host w) in (with_host h w, map_err wrap r).

Definition app_call (what : string) : app unit := app_kernel HostFailed (ho_host_call what).

(** [self.endpoint.as_mut().ok_or(..)?]. *)
Definition on_endpoint {A} (m : ep_method A) : app A :=
  λ w, match (a_host w).2 with
       | None => (w, Err (Configuration "endpoint disappeared"))
       | Some d => let '((k, d'), r) := m ((a_host w).1, d) in
                   (with_host (k, Some d') w, map_err EndpointFailed r)
       end.

(** [if let Some(endpoint) = self.endpoint.as_mut()]. *)
Definition with_endpoint (m : ep_method unit) : app unit :=
  w ← get;
  match (a_host w).2 with Some _ => on_endpoint m | None => mret tt end.

Definition out (r : WlRequest) : app unit := modify (λ w, with_log (r :: a_log w) w).

Definition fresh : app Z :=
  λ w, (with_ids (a_buffer_id w) (a_next w + 1) w, Ok (a_next w)).

Definition window (obj : TaskObjectId) : app TaskWindow :=
  w ← get; lift (ok_or (a_windows w !! obj) (UnknownTask obj)).

Definition update_window (obj : TaskObjectId) (f : TaskWindow → TaskWindow) : app unit :=
  modify (λ w, with_windows (alter f obj (a_windows w)) w).

Definition mark (obj work : Z) : app unit := modify (λ w, with_work (Readiness.mark obj work (a_work w)) w).

Definition pop (work : Z) : app (option Z) :=
  λ w, let '(r, o) := Readiness.pop work (a_work w) in (with_work r w, Ok o).

Definition app_when (b : bool) (m : app unit) : app unit := if b then m else mret tt.

Fixpoint app_each {A} (body : A → app unit) (xs : list A) : app unit :=
  match xs with
  | [] => mret tt
  | x :: xs => _ ← body x; app_each body xs
  end.

(** [while let Some(object) = self.task_work.pop(work)], for a body that does
    not queue this work itself: one turn for every task that had some. *)
Fixpoint pop_loop (work : Z) (turns : nat) (body : Z → app unit) : app unit :=
  match turns with
  | O => mret tt
  | S turns =>
      o ← pop work;
      match o with
      | None => mret tt
      | Some obj => _ ← body obj; pop_loop work turns body
      end
  end.

Definition while_work (work : Z) (body : Z → app unit) : app unit :=
  w ← get; pop_loop work (S (size (Readiness.ready (a_work w)))) body.

(** *** A layer stream on the shared host *)

#[local] Instance host_drm : Drm host := {|
  create_syncobj := λ b, on_fst (create_syncobj b);
  fd_to_syncobj := λ f b, on_fst (fd_to_syncobj f b);
  syncobj_to_fd := λ h b, on_fst (syncobj_to_fd h b);
  syncobj_timeline_transfer := λ a b p q, on_fst (syncobj_timeline_transfer a b p q);
  syncobj_timeline_signal := λ h p, on_fst (syncobj_timeline_signal h p);
  syncobj_timeline_wait := λ h p t a b c, on_fst (syncobj_timeline_wait h p t a b c);
  syncobj_timeline_query := λ h, on_fst (syncobj_timeline_query h);
  syncobj_eventfd := λ h p f b, on_fst (syncobj_eventfd h p f b);
  ioctl_import_sync_file := λ h f, on_fst (ioctl_import_sync_file h f);
  clock_monotonic := on_fst clock_monotonic
|}.

Definition host_socket (s : SeqPacketOps K) : SeqPacketOps host := {|
  sendmsg := λ b f, on_fst (@sendmsg K s b f);
  recvmsg := λ n, on_fst (@recvmsg K s n);
  getsockopt_peercred := on_fst (@getsockopt_peercred K s)
|}.

(** [discard_frame] of the presenter's endpoint. *)
Definition host_discard (obj : TaskObjectId) (frame : FrameId) (h : host)
    : host * result (option EndpointError) unit :=
  match h.2 with
  | None => (h, Err None)
  | Some d => let '((k, d'), r) := discard_frame obj frame (h.1, d) in ((k, Some d'), map_err Some r)
  end.

Definition stream_ops (obj : TaskObjectId) : PresenterOps host := {|
  po_drm := host_drm;
  po_socket := λ s, host_socket (ho_stream obj s);
  po_eventfd := on_fst ho_eventfd;
  po_eventfd_read := λ f, on_fst (ho_eventfd_read f);
  po_host_call := λ what, on_fst (ho_host_call what);
  po_discard_frame := host_discard obj
|}.

Definition stream_world (w : App) (t : TaskWindow) (s : Stream) : LayerPresenter.world (K := host) :=
  mkWorld (a_host w) (tw_task t) (a_clock w) s (a_log w) (tw_sent t) (a_next w).

(** A method of a task's layer stream.  When it arms the clock, every other
    task's timeline is armed with it. *)
Definition on_layers {A} (obj : TaskObjectId) (m : method (LayerPresenter.world (K := host)) LayerError A)
    : app A :=
  λ w, match a_windows w !! obj with
       | None => (w, Err HostPanicked)
       | Some t =>
           match tw_layers t with
           | None => (w, Err HostPanicked)
           | Some s =>
               let '(v, r) := m (stream_world w t s) in
               let arm := λ t, update_layer_task (λ k,
                 set_timeline (timeline_arm true (lt_timeline k)).1 k) t in
               let others := if ck_armed (w_clock v) && negb (ck_armed (a_clock w))
                             then arm <$> a_windows w else a_windows w in
               (mkApp (w_kernel v)
                  (<[obj := set_layers (Some (w_stream v)) (w_sent v) (set_task (w_task v) t)]> others)
                  (a_work w) (w_clock v) (a_tokens w) (a_focused w) (a_env w) (a_buffer_id w)
                  (w_next v) (w_wayland v) (a_fatal w), r)
           end
       end.

(** [if let Some(stream) = task.layers.as_mut()]. *)
Definition has_layers (obj : TaskObjectId) (w : App) : bool :=
  match a_windows w !! obj with Some t => bool_decide (is_Some (tw_layers t)) | None => false end.

(** ** Refresh rates *)

Definition entered_refresh (outputs : list Output) (t : TaskWindow) : Z :=
  select_surface_refresh (tw_entered t) (tw_presentation_output t) (output_refresh_millihz outputs).

Definition is_bootstrap (t : TaskWindow) : bool := bool_decide (tw_package t = BOOTSTRAP_PACKAGE).

(** The tasks whose outputs set the bootstrap display's refresh. *)
Definition paces (t : TaskWindow) : bool :=
  negb (is_bootstrap t) && negb (closing t) && negb (bool_decide (tw_entered t = [])).

Definition task_refresh_millihz (w : App) (obj : TaskObjectId) : Z :=
  match a_windows w !! obj with
  | None => 60000
  | Some t =>
      if is_bootstrap t then
        let rates := entered_refresh (env_outputs (a_env w))
                     <$> List.filter paces (btree_values (a_windows w)) in
        default 60000 (max_by_key id rates)
      else entered_refresh (env_outputs (a_env w)) t
  end.

(** [update_task_refresh] on one task; [true] when a new rate was sent. *)
Definition refresh_task (obj : TaskObjectId) : app bool :=
  w ← get;
  let refresh := task_refresh_millihz w obj in
  t ← window obj;
  let k := tw_task t in
  if (lt_serial k =? 0) || (tw_refresh t =? refresh) then mret false
  else
    _ ← on_endpoint (send_configure obj (lt_serial k) (lt_buffer_size k).1 (lt_buffer_size k).2
                       (tw_applied_scale t) FRACTIONAL_SCALE_DENOMINATOR Protocol.Normal refresh);
    _ ← update_window obj (set_refresh refresh);
    mret true.

Definition bootstrap_of (w : App) : option TaskObjectId :=
  fst <$> List.find (λ p, is_bootstrap p.2) (btree_items (a_windows w)).

Definition update_task_refresh (obj : TaskObjectId) : app unit :=
  sent ← refresh_task obj;
  w ← get;
  if (sent : bool) && negb (match a_windows w !! obj with Some t => is_bootstrap t | None => false end)
  then match bootstrap_of w with
       | Some bootstrap => _ ← refresh_task bootstrap; mret tt
       | None => mret tt
       end
  else mret tt.

Definition update_output_refreshes : app unit :=
  w ← get; app_each update_task_refresh (btree_items (a_windows w)).*1.

(** ** Ending callbacks and held frames *)

Definition retire_feedback (obj : TaskObjectId) (term : Terminal) : app unit :=
  w ← get;
  match a_windows w !! obj with
  | None => mret tt
  | Some t =>
      let k := tw_task t in
      let '(timeline, frames) :=
        FrameGrants.retire_feedback term (sf_grant <$> lt_scene_feedback k)
          ((λ f, (ff_frame f, ff_grant f)) <$> tw_feedback t) (lt_timeline k) in
      _ ← update_window obj (λ t, set_frames (tw_pending t) []
            (set_task (set_scene_feedback [] (set_timeline timeline (tw_task t))) t));
      app_each (λ frame, with_endpoint (forget_presentation obj frame)) frames
  end.

Definition clear_schedule (term : Terminal) (k : LayerTask) : LayerTask :=
  set_timeline (with_schedule (FrameGrants.clear term (tl_schedule (lt_timeline k))) (lt_timeline k)) k.

Definition abort_timeline_work (obj : TaskObjectId) (term : Terminal) : app unit :=
  _ ← retire_feedback obj term;
  w ← get;
  match a_windows w !! obj with
  | None => mret tt
  | Some t =>
      _ ← update_window obj (update_layer_task (λ k, set_queued None (clear_schedule term k)));
      _ ← match lt_queued (tw_task t) with
          | Some q => with_endpoint (discard_frame obj (aw_frame (qf_frame q)))
          | None => mret tt
          end;
      app_when (has_layers obj w) (on_layers obj (@abort_timeline_wait host (stream_ops obj)))
  end.

(** ** Render targets *)

Definition ARGB8888 : Z := 875713089.
Definition XRGB8888 : Z := 875713112.
Definition LINEAR : Z := 0.

(** Only linear entries are kept, so the sorted list without duplicates has one. *)
Definition selected_format (formats : option (list (Z * Z))) : result LayerError (Z * list Z) :=
  fs ← ok_or formats DmabufV4Required;
  let offers fourcc := existsb (λ e, (e.1 =? fourcc) && (e.2 =? LINEAR)) fs in
  if offers ARGB8888 then Ok (ARGB8888, [LINEAR])
  else if offers XRGB8888 then Ok (XRGB8888, [LINEAR])
  else Err NoRenderFormat.

Definition published_formats (formats : option (list (Z * Z))) : result LayerError (list FormatModifier) :=
  match selected_format formats with
  | Ok (fourcc, modifiers) => Ok (map (mkFormatModifier fourcc) modifiers)
  | Err e => Err e
  end.

Definition allocate_buffer_id : app BufferId :=
  w ← get;
  id ← lift (ok_or (checked_add u64_max (a_buffer_id w) 1) (Configuration "buffer identity exhausted"));
  _ ← modify (λ w, with_ids id (a_next w) w);
  mret id.

Fixpoint export_planes (o : BufferObject) (index : Z) (planes : list (Z * Z))
    : app (list fd * list PlaneMetadata) :=
  match planes with
  | [] => mret ([], [])
  | (offset, stride) :: planes =>
      f ← app_kernel GbmFailed (ho_bo_plane o index);
      '(fds, metadata) ← export_planes o (index + 1) planes;
      mret (f :: fds, Transport.mkPlane index offset stride :: metadata)
  end.

Definition allocate_target (id : BufferId) (width height : Z) : app RenderTarget :=
  w ← get;
  '(fourcc, modifiers) ← lift (selected_format (env_formats (a_env w)));
  o ← app_kernel GbmFailed (ho_bo_create width height fourcc modifiers);
  _ ← lift (fail_if (negb ((1 <=? zlen (bo_planes o)) && (zlen (bo_planes o) <=? 4)))
              (GbmFailed "GBM returned invalid plane count"));
  '(fds, planes) ← export_planes o 0 (bo_planes o);
  mret (mkTargetBuffer (Transport.mkBuffer id width height (mkFormatModifier fourcc (bo_modifier o)) planes)
          fds None None true false false).

Fixpoint allocate_pool (n : nat) (width height : Z) : app (list RenderTarget) :=
  match n with
  | O => mret []
  | S n =>
      id ← allocate_buffer_id;
      target ← allocate_target id width height;
      rest ← allocate_pool n width height;
      mret (target :: rest)
  end.

(** The publication loop; [done] are the targets registered so far. *)
Fixpoint register_pool (obj : TaskObjectId) (serial : Z) (done : list RenderTarget)
    (targets : list RenderTarget) : app unit :=
  match targets with
  | [] => mret tt
  | target :: targets =>
      r ← attempt (on_endpoint (register_render_target obj serial (rt_metadata target) (rt_planes target)));
      match r with
      | Ok _ => register_pool obj serial (done ++ [target]) targets
      | Err e =>
          _ ← app_each (λ t, _ ← attempt (on_endpoint (unregister_render_target obj (b_id (rt_metadata t))));
                             mret tt) done;
          throw e
      end
  end.

(** Whether the pool of a task is wanted for this configure and still missing. *)
Definition pool_wanted (serial : Z) (t : TaskWindow) : bool :=
  (headless t || accepts t) && negb (closing t) && negb (unmap_requested t)
  && (lt_serial (tw_task t) =? serial)
  && negb (existsb (λ b, rt_host_owned b && negb (rt_retired b)) (btree_values (tw_targets t))).

Definition ensure_render_targets (obj : TaskObjectId) (serial : Z) : app unit :=
  t ← window obj;
  if negb (pool_wanted serial t) then mret tt
  else
    let '(width, height) := lt_buffer_size (tw_task t) in
    targets ← allocate_pool TARGET_POOL_LENGTH width height;
    _ ← register_pool obj serial [] targets;
    update_window obj (λ t, set_targets
      (foldl (λ m b, <[b_id (rt_metadata b) := b]> m) (tw_targets t) targets) t).

(** A target leaves the endpoint, the table and the compositor. *)
Definition drop_target (obj : TaskObjectId) (b : BufferId) : app unit :=
  _ ← on_endpoint (unregister_render_target obj b);
  w ← get;
  match t ← a_windows w !! obj; tw_targets t !! b with
  | None => mret tt
  | Some target =>
      _ ← update_window obj (λ t, set_targets (delete b (tw_targets t)) t);
      match rt_wayland target with
      | Some buffer => out (DestroyBuffer buffer)
      | None => mret tt
      end
  end.

Definition retire_target (t : RenderTarget) : RenderTarget :=
  if rt_host_owned t then with_retired t else t.

Definition retire_host_targets (obj : TaskObjectId) : app unit :=
  t ← window obj;
  let idle := (List.filter (λ p, rt_host_owned p.2 && negb (rt_busy p.2)) (btree_items (tw_targets t))).*1 in
  _ ← update_window obj (λ t, set_targets (retire_target <$> tw_targets t) t);
  app_each (drop_target obj) idle.

Definition register_android_buffer (obj : TaskObjectId) (metadata : BufferMetadata) (planes : list fd)
    : app unit :=
  t ← window obj;
  _ ← lift (fail_if (bool_decide (is_Some (tw_targets t !! b_id metadata)))
              (Configuration "duplicate local buffer identity"));
  update_window obj (λ t, set_targets
    (<[b_id metadata := mkTargetBuffer metadata planes None None false false false]> (tw_targets t)) t).

(** ** Configuring a window *)

Definition helper_error (e : HelperError) : LayerError :=
  Configuration (match e with
  | NoRefresh => "presentation feedback omitted refresh period"
  | ZeroScale => "fractional scale numerator is zero"
  | ScaleOverflow => "scaled window dimension overflowed"
  | ScaleLimit => "scaled window dimension exceeds protocol limit"
  end)%string.

Definition needs_configure (c : Resize.Configure) (buffer : Z * Z) (t : TaskWindow) : bool :=
  (lt_serial (tw_task t) =? 0)
  || Resize.changes_geometry c (lt_logical_size (tw_task t)) (tw_applied_scale t)
  || negb (bool_decide (lt_buffer_size (tw_task t) = buffer)).

Definition apply_geometry (c : Resize.Configure) (buffer : Z * Z) (serial refresh : Z) (t : TaskWindow)
    : TaskWindow :=
  let size := Resize.cf_size c in
  mkWindow (set_geometry (Some (Resize.ls_width size, Resize.ls_height size)) buffer serial (tw_task t))
    (tw_layers t) (tw_sent t) (tw_package t) (tw_android_task t) (Resize.cf_scale_120 c)
    (tw_resize t) refresh (tw_entered t) (tw_presentation_output t) (tw_targets t)
    (tw_pending t) (tw_feedback t) (tw_content_opaque t) (tw_focused t).

Definition i32_max : Z := 2147483647.

(** [viewport.set_destination] of a mapped window. *)
Definition scale_viewport (size : Resize.LogicalSize) (root : option Z) : app unit :=
  match root with
  | None => mret tt
  | Some root =>
      _ ← lift (fail_if (i32_max <? Resize.ls_width size) (Configuration "logical width exceeds Wayland"));
      _ ← lift (fail_if (i32_max <? Resize.ls_height size) (Configuration "logical height exceeds Wayland"));
      out (SetDestination root (Resize.ls_width size) (Resize.ls_height size))
  end.

Definition lazy_targets (w : App) : bool :=
  match (a_host w).2 with Some d => lazy_render_targets_ready d | None => false end.

Definition configure_task (obj : TaskObjectId) (c : Resize.Configure) : app unit :=
  let size := Resize.cf_size c in
  bw ← lift (map_err helper_error (scale_dimension (Resize.ls_width size) (Resize.cf_scale_120 c)));
  bh ← lift (map_err helper_error (scale_dimension (Resize.ls_height size) (Resize.cf_scale_120 c)));
  t ← window obj;
  if negb (needs_configure c (bw, bh) t) then mret tt
  else
    _ ← abort_timeline_work obj Configured;
    _ ← retire_host_targets obj;
    w ← get;
    serial ← lift (ok_or (t ← a_windows w !! obj; checked_add u32_max (lt_serial (tw_task t)) 1)
                     (Configuration "configure serial exhausted"));
    let refresh := task_refresh_millihz w obj in
    t ← window obj;
    _ ← update_window obj (apply_geometry c (bw, bh) serial refresh);
    _ ← scale_viewport size (surface t);
    _ ← on_endpoint (send_configure obj serial bw bh (Resize.cf_scale_120 c)
                       FRACTIONAL_SCALE_DENOMINATOR Protocol.Normal refresh);
    _ ← mark obj Readiness.CONFIG;
    w ← get;
    _ ← app_when (negb (lazy_targets w)) (ensure_render_targets obj serial);
    update_output_refreshes.

(** [apply_pending_resizes]: the last geometry of every window that has some. *)
Definition apply_pending_resize (obj : TaskObjectId) : app unit :=
  w ← get;
  match a_windows w !! obj with
  | None => mret tt
  | Some t =>
      let '(pending, c) := Resize.take_pending (tw_resize t) in
      _ ← update_window obj (set_resize pending);
      match c with
      | None => mret tt
      | Some c => app_when (accepts t) (configure_task obj c)
      end
  end.

Definition apply_pending_resizes : app unit := while_work Readiness.RESIZE apply_pending_resize.

(** ** A new task *)

Definition new_window (manager : bool) (root : option Z) (package : rust_string) : TaskWindow :=
  mkWindow
    (mkLayerTask (bool_decide (package = BOOTSTRAP_PACKAGE), false, false) root 0 (0, 0) None
       (timeline_new manager (bool_decide (is_Some root))) None [] false
       (bool_decide (is_Some root)) None)
    None [] package None FRACTIONAL_SCALE_DENOMINATOR
    (Resize.pending_new FRACTIONAL_SCALE_DENOMINATOR) 60000 [] None ∅ [] [] false false.

Definition open_window (package : rust_string) : app (option Z) :=
  if bool_decide (package = BOOTSTRAP_PACKAGE) then mret None
  else
    root ← fresh;
    _ ← out (CreateToplevel root package);
    _ ← out (GetSyncSurface root);
    _ ← out (CommitSurface root);
    mret (Some root).

Definition create_task (obj : TaskObjectId) (package : rust_string) : app unit :=
  root ← open_window package;
  _ ← modify (λ w, with_windows (<[obj := new_window (env_manager (a_env w)) root package]> (a_windows w)) w);
  w ← get;
  formats ← lift (published_formats (env_formats (a_env w)));
  _ ← on_endpoint (send_format_feedback obj 1 formats);
  if negb (bool_decide (package = BOOTSTRAP_PACKAGE)) then mret tt
  else
    '(width, height) ← lift (ok_or (host_canvas_size (env_outputs (a_env w)))
                               (Configuration "Wayland output has no current pixel mode"));
    configure_task obj (Resize.mkConfigure (Resize.mkSize width height) FRACTIONAL_SCALE_DENOMINATOR false).

End host.

#[global] Arguments App K : clear implicits.
#[global] Arguments host K : clear implicits.
