(* ===== verification/HostFrames.v ===== *)
(** * Composed frames through the host presenter
      (graphics/droidloom-wayland/src/main.rs, frame_timeline.rs, clock.rs, layers.rs)

    An accepted frame waits for a grant or is shown at once on its window, with
    an acquire and a release point on its buffer's own timeline; when the
    compositor has signalled the release point the endpoint returns the buffer
    to Android.  Around it the life of a window: the endpoint's actions, closing
    and unmapping, the layer streams, the callbacks of the compositor and one
    turn of the main loop. *)

From S2P Require Import Transport Protocol TaskState Ipc Endpoint PresenterWork PresenterTime.
From S2P Require Import Prelude Bytes Syncobj FrameGrants LayerStream LayerPresenter HostApp.

Definition CLOCK_MONOTONIC : Z := 1.

Section host.

Context {K : Type} `{HostOps K}.

Abbreviation App := (HostApp.App K).
Abbreviation app := (HostApp.app (K := K)).

(** ** Showing a frame *)

Definition import_planes (fds : list fd) (planes : list PlaneMetadata) : list (Z * fd * Z * Z) :=
  zip_with (λ p f, (p_index p, f, p_offset p, p_stride p)) planes fds.

Definition create_wayland_buffer (m : BufferMetadata) (planes : list fd) : app Z :=
  _ ← lift (fail_if (negb (zlen planes =? zlen (b_planes m)))
              (Configuration "DMA-BUF plane count mismatch"));
  _ ← app_call "dmabuf params";
  _ ← lift (fail_if (i32_max <? b_width m) (Configuration "buffer width exceeds Wayland"));
  _ ← lift (fail_if (i32_max <? b_height m) (Configuration "buffer height exceeds Wayland"));
  buffer ← fresh;
  _ ← out (CreateImmed buffer (import_planes planes (b_planes m)) (modifier (b_format m))
             (b_width m) (b_height m) (fourcc (b_format m)));
  mret buffer.

(** A target gets its compositor buffer and its timeline on first use. *)
Definition import_target (obj : TaskObjectId) (b : BufferId) (target : RenderTarget) : app unit :=
  buffer ← create_wayland_buffer (rt_metadata target) (rt_planes target);
  timeline ← app_kernel SyncFailed create_timeline;
  descriptor ← app_kernel SyncFailed (drm_error "export opaque timeline syncobj"
                                        (syncobj_to_fd (Syncobj.tl_handle timeline) false));
  proxy ← fresh;
  _ ← out (ImportTimeline proxy descriptor);
  _ ← update_window obj (update_target b (with_import buffer));
  event ← app_kernel HostFailed ho_eventfd;
  update_window obj (update_target b (with_sync (Some (mkSync timeline proxy 0 (Some event))))).

(** [target.sync] of a buffer, through the kernel. *)
Definition on_target {A} (missing absent : LayerError) (obj : TaskObjectId) (b : BufferId)
    (m : lane_method (K := host K) A) : app A :=
  λ w, match t ← a_windows w !! obj; tw_targets t !! b with
       | None => (w, Err missing)
       | Some target =>
           match rt_sync target with
           | None => (w, Err absent)
           | Some s =>
               let '((h, l), r) := m (a_host w, lane_of s) in
               (with_windows (alter (update_target b (with_sync (Some (sync_of l)))) obj (a_windows w))
                  (with_host h w), r)
           end
       end.

Definition frame_points (next : Z) : result LayerError (Z * Z) :=
  acquire ← ok_or (checked_add u64_max next 1) (Configuration "Wayland sync point exhausted");
  release ← ok_or (checked_add u64_max acquire 1) (Configuration "Wayland sync point exhausted");
  mret (acquire, release).

(** The two points of a frame; the acquire fence at the first. *)
Definition begin_frame (obj : TaskObjectId) (fence : fd) : lane_method (K := host K) (Z * Z * Z) :=
  w ← get;
  '(acquire_point, release_point) ← lift (frame_points (ln_next_point w.2));
  _ ← update_lane (set_next_point release_point);
  _ ← on_timeline (@attach_sync_file (host K) host_drm acquire_point fence);
  _ ← @arm_release_wakeup (host K) (stream_ops obj) release_point;
  mret (ln_proxy w.2, acquire_point, release_point).

Definition opaque_region (root : Z) (logical : option (Z * Z)) : app unit :=
  size ← lift (ok_or logical (Configuration "opaque target has no logical size"));
  _ ← app_call "region";
  _ ← lift (fail_if (i32_max <? size.1) (Configuration "opaque width exceeds Wayland"));
  _ ← lift (fail_if (i32_max <? size.2) (Configuration "opaque height exceeds Wayland"));
  out (SetOpaqueRegion root (Some size)).

Definition apply_content (obj : TaskObjectId) (root : Z) : app unit :=
  t ← window obj;
  if bool_decide (lt_applied_opaque (tw_task t) = Some (tw_content_opaque t)) then mret tt
  else
    _ ← (if tw_content_opaque t then opaque_region root (lt_logical_size (tw_task t))
         else out (SetOpaqueRegion root None) : app unit);
    update_window obj (update_layer_task (set_applied_opaque (Some (tw_content_opaque t)))).

Definition hide_layers (obj : TaskObjectId) : app bool :=
  w ← get;
  if has_layers obj w then on_layers obj (@hide (host K)) else mret false.

(** [self.activation.mapped]. *)
Definition activation_mapped (obj : TaskObjectId) (root : Z) : app unit :=
  w ← get;
  let '(tokens, token) := Activation.mapped obj (a_tokens w) in
  _ ← modify (with_tokens tokens);
  match token with
  | Some token => app_when (env_activation (a_env w)) (out (Activate root token))
  | None => mret tt
  end.

Definition clamp_i32 (x : Z) : Z := if i32_max <? x then i32_max else x.

Definition damage_request (root : Z) (d : Damage) : WlRequest :=
  DamageRect root (clamp_i32 (d_x d)) (clamp_i32 (d_y d)) (clamp_i32 (d_width d)) (clamp_i32 (d_height d)).

Definition set_frame_task (obj : Z) (t : Readiness.Tasks) : Readiness.Tasks :=
  Readiness.mkTasks (Readiness.ready t) (Readiness.streams t) ({[obj]} ∪ Readiness.frames t)
    (Readiness.layer_fallback t) (Readiness.frame_fallback t) (Readiness.fallback_deadline t).
Definition unset_frame_task (obj : Z) (t : Readiness.Tasks) : Readiness.Tasks :=
  Readiness.mkTasks (Readiness.ready t) (Readiness.streams t) (Readiness.frames t ∖ {[obj]})
    (Readiness.layer_fallback t) (Readiness.frame_fallback t) (Readiness.fallback_deadline t).
Definition set_stream_task (obj : Z) (t : Readiness.Tasks) : Readiness.Tasks :=
  Readiness.mkTasks (Readiness.ready t) ({[obj]} ∪ Readiness.streams t) (Readiness.frames t)
    (Readiness.layer_fallback t) (Readiness.frame_fallback t) (Readiness.fallback_deadline t).

(** A timing callback for the frame, when the endpoint tracks it. *)
Definition frame_callback (obj : TaskObjectId) (root : Z) (frame : FrameId) : app (option Z) :=
  tracked ← on_endpoint (track_presentation obj frame);
  if tracked : bool then
    _ ← app_call "presentation feedback";
    proxy ← fresh;
    _ ← out (RequestFeedback root proxy);
    mret (Some proxy)
  else mret None.

(** The frame is on the compositor's side now. *)
Definition record_frame (frame : AcceptedWireFrame) (release_point : Z) (grant : option Target)
    (feedback : option Z) (t : TaskWindow) : TaskWindow :=
  update_target (aw_buffer frame) (with_busy true)
    (set_frames (tw_pending t ++ [mkPendingFrame (aw_frame frame) (aw_buffer frame) release_point])
       (match feedback with
        | Some proxy => tw_feedback t ++ [mkFrameFeedback proxy (aw_frame frame) (aw_buffer frame)
                                            (ta_identity <$> grant)]
        | None => tw_feedback t
        end) t).

(** The requests that put the buffer on the window. *)
Definition attach_frame (obj : TaskObjectId) (root : Z) (buffer : option Z) (hidden : bool)
    (damage : list Damage) (grant : option Target) : app unit :=
  _ ← out (Attach root buffer);
  _ ← update_window obj (update_layer_task (λ k, set_composed true (lt_sync_surface k) k));
  _ ← app_when hidden (out (DamageBuffer root));
  _ ← app_each (λ d, out (damage_request root d)) damage;
  t ← window obj;
  _ ← match grant with
      | Some g => app_when (tl_surface (lt_timeline (tw_task t))) (out (TargetGrant root g))
      | None => mret tt
      end;
  _ ← out (CommitSurface root);
  activation_mapped obj root.

Definition set_points (obj : TaskObjectId) (root : Z) (points : Z * Z * Z) : app unit :=
  let '(proxy, acquire_point, release_point) := points in
  t ← window obj;
  _ ← app_when (negb (lt_sync_surface (tw_task t)))
        (_ ← update_window obj (update_layer_task (λ k, set_composed (lt_composed_root k) true k));
         out (GetSyncSurface root));
  _ ← out (SetAcquirePoint root proxy (split_point acquire_point).1 (split_point acquire_point).2);
  out (SetReleasePoint root proxy (split_point release_point).1 (split_point release_point).2).

Definition show_frame (frame : AcceptedWireFrame) (fence : fd) (grant : option Target) (root : Z)
    : app unit :=
  let obj := aw_object frame in
  let b := aw_buffer frame in
  _ ← apply_content obj root;
  hidden ← hide_layers obj;
  _ ← app_when hidden (out (SetViewportSource root (-256, -256, -256, -256)));
  t ← window obj;
  target ← lift (ok_or (tw_targets t !! b) (UnknownBuffer obj b));
  _ ← lift (fail_if (rt_busy target || rt_retired target) (Configuration "presented buffer is unavailable"));
  points ← on_target (UnknownBuffer obj b) (Configuration "buffer timeline is absent") obj b
             (begin_frame obj fence);
  _ ← set_points obj root points;
  feedback ← frame_callback obj root (aw_frame frame);
  _ ← attach_frame obj root (rt_wayland target) hidden (aw_damage frame) grant;
  _ ← update_window obj (record_frame frame points.2 grant feedback);
  _ ← modify (λ w, with_work (set_frame_task obj (a_work w)) w);
  mark obj Readiness.FRAMES.

Definition present (frame : AcceptedWireFrame) (fence : fd) (grant : option Target) : app unit :=
  let obj := aw_object frame in
  t ← window obj;
  if negb (accepts t) then on_endpoint (discard_frame obj (aw_frame frame))
  else
    target ← lift (ok_or (tw_targets t !! aw_buffer frame) (UnknownBuffer obj (aw_buffer frame)));
    _ ← app_when (bool_decide (rt_wayland target = None)) (import_target obj (aw_buffer frame) target);
    t ← window obj;
    root ← lift (ok_or (surface t) HostPanicked);
    show_frame frame fence grant root.

(** ** Waiting for a grant *)

Definition queue_present (frame : AcceptedWireFrame) (fence : fd) : app unit :=
  let obj := aw_object frame in
  t ← window obj;
  if negb (tl_exact (lt_timeline (tw_task t))) || negb (accepts t) then present frame fence None
  else
    w ← get;
    _ ← app_when (has_layers obj w) (on_layers obj (@abort_timeline_wait (host K) (stream_ops obj)));
    t ← window obj;
    _ ← update_window obj (update_layer_task (set_queued (Some (mkQueued frame fence))));
    _ ← match lt_queued (tw_task t) with
        | Some previous => on_endpoint (discard_frame obj (aw_frame (qf_frame previous)))
        | None => mret tt
        end;
    mark obj Readiness.TIMELINE.

Definition app_monotonic : app Z :=
  '(seconds, nanos) ← app_kernel HostFailed clock_monotonic;
  _ ← lift (fail_if (seconds <? 0) (Configuration "monotonic clock returned negative seconds"));
  _ ← lift (fail_if (nanos <? 0) (Configuration "monotonic clock returned negative nanos"));
  lift (ok_or (m ← Syncobj.checked_mul u64_max seconds 1000000000; checked_add u64_max m nanos)
          (Configuration "monotonic timestamp overflowed nanoseconds")).

(** An operation on the clock and every task's timeline. *)
Definition timelines_of (m : gmap TaskObjectId TaskWindow) : gmap Z Timeline :=
  (λ t, lt_timeline (tw_task t)) <$> m.
Definition put_timelines (l : gmap Z Timeline) (m : gmap TaskObjectId TaskWindow)
    : gmap TaskObjectId TaskWindow :=
  map_imap (λ o t, Some (update_layer_task (λ k, set_timeline (default (lt_timeline k) (l !! o)) k) t)) m.

Definition run_clock (f : ClockApp → ClockApp) : app unit :=
  modify (λ w, let c := f (mkClockApp (a_clock w) (timelines_of (a_windows w))) in
               with_clock (ca_clock c) (with_windows (put_timelines (ca_tasks c) (a_windows w)) w)).

Definition flush_timeline_frame (obj : TaskObjectId) : app unit :=
  w ← get;
  match a_windows w !! obj with
  | None => mret tt
  | Some t =>
      match lt_queued (tw_task t) with
      | None => mret tt
      | Some q =>
          if 64 <=? zlen (tw_feedback t) then mret tt
          else
            now ← app_monotonic;
            let '(timeline, reserved) := reserve now (lt_timeline (tw_task t)) in
            _ ← update_window obj (update_layer_task (set_timeline timeline));
            match reserved with
            | None => mret tt
            | Some target =>
                _ ← update_window obj (update_layer_task (set_queued None));
                _ ← run_clock (android_frame now);
                present (qf_frame q) (qf_fence q) target
            end
      end
  end.

Definition flush_timeline_frames : app unit := while_work Readiness.TIMELINE flush_timeline_frame.

(** ** Closing a window *)

Definition retire_contacts (obj : TaskObjectId) : app unit :=
  modify (λ w, with_host (ho_retire_contacts obj (a_host w).1, (a_host w).2) w).

Definition unfocus (obj : TaskObjectId) : app unit :=
  modify (λ w, if bool_decide (a_focused w = Some obj) then with_focus None w else w).

Definition fail (e : LayerError) : app unit := modify (with_fatal (Some e)).

(** A callback cannot return an error: it stops the main loop. *)
Definition guarded (m : app unit) : app unit :=
  r ← attempt m;
  match r with Ok _ => mret tt | Err e => fail e end.

Definition target_buffers (t : TaskWindow) : list Z := omap rt_wayland (btree_values (tw_targets t)).

(** The destructors of the layer stream and of the timeline's objects only
    send destroy requests and are left out. *)
Definition remove_task (obj : TaskObjectId) : app unit :=
  _ ← retire_feedback obj EpochEnded;
  _ ← retire_contacts obj;
  _ ← modify (λ w, with_tokens (Activation.remove_token obj (a_tokens w))
                     (with_work (Readiness.remove_task obj (a_work w)) w));
  w ← get;
  _ ← match a_windows w !! obj with
      | None => mret tt
      | Some t =>
          _ ← modify (λ w, with_windows (delete obj (a_windows w)) w);
          _ ← match surface t with
              | Some root => app_when (lt_sync_surface (tw_task t)) (out (DestroySyncSurface root))
              | None => mret tt
              end;
          app_each (λ b, out (DestroyBuffer b)) (target_buffers t)
      end;
  _ ← unfocus obj;
  match (a_host w).2 with
  | Some _ => guarded update_output_refreshes
  | None => mret tt
  end.

Definition unmap_task_window (obj : TaskObjectId) : app unit :=
  _ ← abort_timeline_work obj Configured;
  _ ← retire_contacts obj;
  _ ← modify (λ w, with_tokens (Activation.remove_token obj (a_tokens w)) w);
  t ← window obj;
  _ ← update_window obj (set_resize (Resize.cancel (tw_resize t)));
  match surface t with
  | None => mret tt
  | Some root =>
      _ ← out (Attach root None);
      _ ← out (CommitSurface root);
      _ ← update_window obj (update_layer_task (λ k, set_timeline (timeline_stop (lt_timeline k)) k));
      _ ← hide_layers obj;
      t ← window obj;
      _ ← app_when (lt_sync_surface (tw_task t)) (out (DestroySyncSurface root));
      _ ← out (DestroyToplevel root);
      _ ← update_window obj (update_layer_task unmapped);
      _ ← mark obj (Z.lor Readiness.CONFIG Readiness.CLEANUP);
      unfocus obj
  end.

Definition stream_is_busy (t : TaskWindow) : bool :=
  match tw_layers t with Some s => stream_busy s | None => false end.

(** A closing task whose buffers and reads all came back. *)
Definition finished (t : TaskWindow) : bool :=
  closing t && bool_decide (tw_pending t = []) && negb (stream_is_busy t).

Definition remove_finished (obj : TaskObjectId) : app unit :=
  w ← get;
  match a_windows w !! obj with
  | Some t => app_when (finished t) (remove_task obj)
  | None => mret tt
  end.

Definition unmap_requested_task (obj : TaskObjectId) : app unit :=
  w ← get;
  match a_windows w !! obj with
  | None => mret tt
  | Some _ => _ ← unmap_task_window obj; remove_finished obj
  end.

Definition unmap_requested_tasks : app unit := while_work Readiness.UNMAP unmap_requested_task.

Definition destroy_task (obj : TaskObjectId) : app unit :=
  t ← window obj;
  _ ← update_window obj (update_layer_task (set_flags (headless t, true, true)));
  mark obj (Z.lor (Z.lor Readiness.UNMAP Readiness.CONFIG) Readiness.CLEANUP).

(** ** Returning buffers *)

Definition pending_absent : LayerError := Configuration "pending buffer timeline is absent".

(** The loop over one task's frames; [todo] are left to visit. *)
Fixpoint collect_released (obj : TaskObjectId) (todo index : nat) : app (list PendingFrame) :=
  match todo with
  | O => mret []
  | S todo =>
      t ← window obj;
      match tw_pending t !! index with
      | None => mret []
      | Some p =>
          signalled ← on_target pending_absent pending_absent obj (pf_buffer p)
                        (on_timeline (@signalled_point (host K) host_drm));
          if signalled <? pf_release_point p then collect_released obj todo (S index)
          else
            _ ← update_window obj (λ t, set_frames (delete index (tw_pending t)) (tw_feedback t) t);
            rest ← collect_released obj todo index;
            mret (p :: rest)
      end
  end.

(** Whether a pending frame of the task has no release wakeup. *)
Definition needs_poll (t : TaskWindow) : bool :=
  existsb (λ p,
    match target ← tw_targets t !! pf_buffer p; rt_sync target with
    | Some s => bool_decide (bs_release_wakeup s = None)
    | None => false
    end) (tw_pending t).

Definition collect_task (obj : TaskObjectId) : app (list (TaskObjectId * PendingFrame)) :=
  w ← get;
  match a_windows w !! obj with
  | None => mret []
  | Some t =>
      ready ← collect_released obj (length (tw_pending t)) 0;
      t ← window obj;
      _ ← app_when (bool_decide (tw_pending t = []))
            (modify (λ w, with_work (unset_frame_task obj (a_work w)) w));
      _ ← modify (λ w, with_work (Readiness.set_frame_fallback obj (needs_poll t) (a_work w)) w);
      _ ← app_when (closing t) (mark obj Readiness.CLEANUP);
      mret (pair obj <$> ready)
  end.

(** The first loop of [release_ready_frames]. *)
Fixpoint collect_loop (turns : nat) : app (list (TaskObjectId * PendingFrame)) :=
  match turns with
  | O => mret []
  | S turns =>
      o ← pop Readiness.FRAMES;
      match o with
      | None => mret []
      | Some obj =>
          ready ← collect_task obj;
          rest ← collect_loop turns;
          mret (ready ++ rest)
      end
  end.

Definition return_buffer (e : TaskObjectId * PendingFrame) : app unit :=
  let '(obj, p) := e in
  _ ← on_endpoint (finish_release obj (pf_frame p));
  t ← window obj;
  target ← lift (ok_or (tw_targets t !! pf_buffer p) (UnknownBuffer obj (pf_buffer p)));
  _ ← update_window obj (update_target (pf_buffer p) (with_busy false));
  app_when (rt_retired target && rt_host_owned target && negb (closing t))
    (drop_target obj (pf_buffer p)).

Definition release_ready_frames : app unit :=
  w ← get;
  ready ← collect_loop (S (size (Readiness.ready (a_work w))));
  _ ← app_each return_buffer ready;
  while_work Readiness.CLEANUP remove_finished.

(** ** The endpoint *)

Definition bind_layers (obj : TaskObjectId) (sockets : list fd) : app unit :=
  t ← window obj;
  _ ← lift (fail_if (bool_decide (is_Some (tw_layers t)) || negb (zlen sockets =? 2) || headless t)
              (Configuration "invalid layer stream binding"));
  _ ← app_call "layer request socket";
  _ ← app_call "layer event socket";
  _ ← update_window obj (set_layers (Some stream_new) []);
  _ ← modify (λ w, with_work (set_stream_task obj (a_work w)) w);
  mark obj (Z.lor Readiness.REQUESTS Readiness.CONFIG).

Definition request_activation (obj : TaskObjectId) : app unit :=
  w ← get;
  match a_windows w !! obj with
  | None => mret tt
  | Some t =>
      if bool_decide (a_focused w = Some obj) || negb (accepts t) || negb (env_activation (a_env w))
      then mret tt
      else
        let '(tokens, generation) := Activation.request obj (a_tokens w) in
        _ ← modify (with_tokens tokens);
        match generation with
        | Some g => out (RequestToken obj g (tw_package t))
        | None => mret tt
        end
  end.

Definition unregister_target (obj : TaskObjectId) (b : BufferId) : app unit :=
  t ← window obj;
  target ← lift (ok_or (tw_targets t !! b) (UnknownBuffer obj b));
  _ ← update_window obj (λ t, set_targets (delete b (tw_targets t)) t);
  match rt_wayland target with
  | Some buffer => out (DestroyBuffer buffer)
  | None => mret tt
  end.

(** The actions of the input path and the display power published to a client
    that became ready do not touch this state. *)
Definition process_action (action : EndpointAction) : app unit :=
  match action with
  | ARequestRenderTargets obj serial => ensure_render_targets obj serial
  | ACreateTask obj _ package => create_task obj package
  | ABindTask obj android => update_window obj (set_android (Some android))
  | ADestroyTask obj => destroy_task obj
  | ARegisterBuffer obj buffer planes => register_android_buffer obj buffer planes
  | AUnregisterBuffer obj b => unregister_target obj b
  | APresent frame fence => queue_present frame fence
  | ABindLayerStream obj sockets => bind_layers obj sockets
  | ASetContentState obj flags =>
      _ ← window obj;
      update_window obj (set_content (negb (Z.land flags content_state.OPAQUE =? 0)))
  | ARequestActivation obj => request_activation obj
  | ABindInputChannel _ _ _ | ABindInputRoute _ _ _ _ | AClientReady | ATimelinesBound _
  | AConfigureAcknowledged _ _ | ASupersededPresentDiscarded _ _ | APong _ | ASetFrameRate _ _ => mret tt
  end.

Definition disconnect_endpoint : app unit :=
  _ ← modify (λ w, with_tokens (Activation.clear_tokens (a_tokens w)) (with_host ((a_host w).1, None) w));
  w ← get;
  _ ← app_each remove_task (btree_items (a_windows w)).*1;
  modify (with_focus None).

(** One iteration of the loop of [drain_endpoint]; [false] leaves it. *)
Definition drain_record : app bool :=
  w ← get;
  match (a_host w).2 with
  | None => mret false
  | Some _ =>
      r ← attempt (on_endpoint receive_action);
      match r with
      | Ok action => _ ← process_action action; mret true
      | Err (EndpointFailed (EpIpc (Io e))) =>
          _ ← app_when (negb (e =? EAGAIN)) disconnect_endpoint; mret false
      | Err _ => _ ← disconnect_endpoint; mret false
      end
  end.

(** The loop ends when no record is left; a peer that always has one more is cut
    off after [n] records. *)
Fixpoint drain_endpoint (n : nat) : app unit :=
  match n with
  | O => mret tt
  | S n => more ← drain_record; if more : bool then drain_endpoint n else mret tt
  end.

(** The features of [accept_endpoint]; [None] is a failed [assert!]. *)
Definition offer_features (e : Env) (d : DenialEndpoint) : option DenialEndpoint :=
  d ← if env_activation e then with_activation_requests d else Some d;
  d ← with_direct_input d;
  d ← with_lazy_render_targets d;
  let d := with_scene_presentation d in
  Some (if env_manager e && bool_decide (env_clock_id e = Some CLOCK_MONOTONIC)
        then with_host_clock d else d).

Definition accept_connection (expected : ExpectedPeer) : app DenialEndpoint :=
  _ ← app_kernel (λ e, ListenerFailed (ListenerIpc (Io e))) ho_accept;
  app_kernel ListenerFailed (accept expected).

Definition accept_endpoint : app unit :=
  w ← get;
  match (a_host w).2 with
  | Some _ => mret tt
  | None =>
      r ← attempt (accept_connection (env_expected (a_env w)));
      match r with
      | Ok d =>
          d ← lift (ok_or (offer_features (a_env w) d) HostPanicked);
          _ ← app_call "set_nonblocking";
          modify (λ w, with_host ((a_host w).1, Some d) w)
      | Err (ListenerFailed (ListenerIpc (Io e))) =>
          if e =? EAGAIN then mret tt else throw (ListenerFailed (ListenerIpc (Io e)))
      | Err (ListenerFailed (UnexpectedPeer _ _)) => mret tt
      | Err e => throw e
      end
  end.

(** ** Layer streams *)

Definition scene_events (w : App) : bool :=
  match (a_host w).2 with Some d => scene_presentation_ready d | None => false end.

Definition note_fallback (obj : TaskObjectId) : app unit :=
  modify (λ w,
    match t ← a_windows w !! obj; tw_layers t with
    | Some s => with_work (Readiness.set_layer_fallback obj (poll_fallback s) (a_work w)) w
    | None => w
    end).

Definition serve_stream_releases (obj : TaskObjectId) : app unit :=
  w ← get;
  if negb (has_layers obj w) then mret tt
  else
    _ ← on_layers obj (@serve_releases (host K) (stream_ops obj) (env_alpha (a_env w))
                         (env_manager (a_env w)) (scene_events w));
    _ ← note_fallback obj;
    t ← window obj;
    app_when (closing t) (mark obj Readiness.CLEANUP).

Definition stream_open (obj : TaskObjectId) (w : App) : bool :=
  match t ← a_windows w !! obj; tw_layers t with
  | Some s => connected s && negb (imports_blocked (imports s))
  | None => false
  end.

(** One iteration of the request loop of [drain_layers]; a barrier drains the
    endpoint, which may take the stream away. *)
Definition serve_stream_request (n : nat) (obj : TaskObjectId) : app bool :=
  w ← get;
  if negb (stream_open obj w) then mret false
  else
    r ← attempt (on_layers obj (on_kernel IpcFailed
                   (@receive_record_into (host K) (host_socket (ho_stream obj Requests)) MAX_LAYER_PACKET)));
    match r with
    | Err (IpcFailed (Io e)) => if e =? EAGAIN then mret false else throw (IpcFailed (Io e))
    | Err (IpcFailed PeerClosed) => _ ← on_layers obj (@disconnect (host K)); mret false
    | Err e => throw e
    | Ok record =>
        request ← lift (map_err (λ _, Configuration "invalid layer stream record")
                          (decode (rr_bytes record) (zlen (rr_descriptors record))));
        _ ← app_when (is_barrier request) (drain_endpoint n);
        w ← get;
        if negb (has_layers obj w) then mret false
        else
          _ ← on_layers obj (@layer_request (host K) (stream_ops obj) (env_alpha (a_env w))
                               (env_manager (a_env w)) (scene_events w)
                               (default [] (env_formats (a_env w))) request (rr_descriptors record));
          mret true
    end.

Fixpoint serve_stream_requests (n : nat) (obj : TaskObjectId) (turns : nat) : app unit :=
  match turns with
  | O => mret tt
  | S turns =>
      more ← serve_stream_request n obj;
      if more : bool then serve_stream_requests n obj turns else mret tt
  end.

Definition serve_stream (n : nat) (obj : TaskObjectId) : app unit :=
  _ ← serve_stream_requests n obj 128; note_fallback obj.

Definition publish_stream_config (obj : TaskObjectId) : app unit :=
  w ← get;
  if negb (has_layers obj w) then mret tt
  else
    waiting ← on_layers obj (@publish_config (host K) (stream_ops obj) (env_alpha (a_env w)));
    app_when waiting (mark obj Readiness.RELEASES).

(** [take(REQUESTS)]. *)
Definition take_requests : app (list Z) :=
  λ w, let '(r, objects) := Readiness.take_work Readiness.REQUESTS (a_work w) in
       (with_work r w, Ok objects).

Definition drain_layers (n : nat) : app unit :=
  _ ← while_work Readiness.RELEASES serve_stream_releases;
  objects ← take_requests;
  _ ← app_each (serve_stream n) objects;
  while_work Readiness.CONFIG publish_stream_config.

(** [layer_imported]: the first stream that owns [params]; a late callback
    destroys its buffer.  A failed reply stops the presenter. *)
Fixpoint import_done (params : Z) (buffer : option Z) (objs : list TaskObjectId) : app unit :=
  match objs with
  | [] => match buffer with Some b => out (DestroyBuffer b) | None => mret tt end
  | obj :: objs =>
      w ← get;
      if negb (has_layers obj w) then import_done params buffer objs
      else
        r ← on_layers obj (@layer_imported (host K) (stream_ops obj) params buffer);
        match r with
        | None => import_done params buffer objs
        | Some (failed, resumes) =>
            _ ← app_when failed (fail (Configuration "layer import reply"));
            app_when resumes (mark obj Readiness.REQUESTS)
        end
  end.

End host.
