(* ===== verification/HostTurn.v ===== *)
(** * The callbacks and the main loop of the host presenter
      (graphics/droidloom-wayland/src/main.rs, frame_timeline.rs, clock.rs)

    The compositor's callbacks on windows, outputs and timing objects, the
    choice of the outputs whose frame timelines a task and the clock follow,
    and one turn of [run_presenter_loop]. *)

From S2P Require Import Transport Protocol TaskState Ipc Endpoint PresenterWork PresenterTime.
From S2P Require Import Prelude Bytes Syncobj FrameGrants LayerStream LayerPresenter HostApp HostFrames.

Section host.

Context {K : Type} `{HostOps K}.

Abbreviation App := (HostApp.App K).
Abbreviation app := (HostApp.app (K := K)).

(** ** Frame timelines *)

Definition known_output (w : App) (o : Z) : bool := existsb (λ i, op_id i =? o) (env_outputs (a_env w)).

(** The output a task's timeline follows. *)
Definition timeline_output (w : App) (t : TaskWindow) : option Z :=
  match tw_presentation_output t with
  | Some o =>
      if known_output w o then Some o
      else match List.find (known_output w) (tw_entered t) with
           | Some o => Some o
           | None => head (op_id <$> env_outputs (a_env w))
           end
  | None =>
      match List.find (known_output w) (tw_entered t) with
      | Some o => Some o
      | None => head (op_id <$> env_outputs (a_env w))
      end
  end.

(** The schedule starts over with the next subscription. *)
Definition fresh_schedule (s : Schedule) : Schedule :=
  mkSchedule None 0 (sc_offered s) (sc_consumed s) (sc_terminal s).

Definition resubscribe (subscription : option Subscription) (t : TaskWindow) : TaskWindow :=
  update_layer_task (λ k, set_timeline
    (with_subscription subscription
       (with_schedule (fresh_schedule (tl_schedule (lt_timeline k))) (lt_timeline k))) k) t.

Definition refresh_task_timeline (obj : TaskObjectId) : app unit :=
  w ← get;
  match a_windows w !! obj with
  | None => mret tt
  | Some t =>
      let tl := lt_timeline (tw_task t) in
      let output := timeline_output w t in
      if negb (tl_exact tl) || negb (accepts t)
         || bool_decide (su_output <$> tl_subscription tl = output) then mret tt
      else
        _ ← app_when (bool_decide (is_Some (tl_subscription tl))
                      || bool_decide (is_Some (sc_epoch (tl_schedule tl))))
              (abort_timeline_work obj EpochEnded);
        subscription ←
          match output with
          | Some o => if env_manager (a_env w)
                      then proxy ← fresh; mret (Some (subscription_new o proxy (ck_armed (a_clock w))).1)
                      else mret None
          | None => mret None
          end;
        update_window obj (resubscribe subscription)
  end.

Definition pacesetter_output (w : App) : option Z :=
  let refresh := output_refresh_millihz (env_outputs (a_env w)) in
  max_by_key (λ o, default (-1) (refresh o))
    (omap (λ t, select_surface_output (tw_entered t) (tw_presentation_output t) refresh)
       (List.filter (λ t, negb (headless t) && negb (closing t)) (btree_values (a_windows w)))).

Definition with_clock_subscription (s : option Subscription) (c : FrameGrants.Clock) : FrameGrants.Clock :=
  mkClock s (ck_armed c) (ck_last_frame_nanos c).

Definition refresh_clock : app unit :=
  w ← get;
  let host_clock := match (a_host w).2 with Some d => host_clock_ready d | None => false end in
  let output := if host_clock then pacesetter_output w else None in
  if bool_decide (su_output <$> ck_subscription (a_clock w) = output) then mret tt
  else
    subscription ←
      match output with
      | Some o => if env_manager (a_env w)
                  then proxy ← fresh; mret (Some (subscription_new o proxy (ck_armed (a_clock w))).1)
                  else mret None
      | None => mret None
      end;
    modify (λ w, with_clock (with_clock_subscription subscription (a_clock w)) w).

Definition refresh_frame_timelines : app unit :=
  w ← get;
  if env_manager (a_env w) && negb (bool_decide (env_clock_id (a_env w) = Some CLOCK_MONOTONIC)) then
    match env_clock_id (a_env w) with
    | Some _ => throw (Configuration "exact frame timeline requires CLOCK_MONOTONIC presentation clock")
    | None => mret tt
    end
  else
    _ ← app_each refresh_task_timeline (btree_items (a_windows w)).*1;
    refresh_clock.

(** ** Callbacks *)

(** The task whose window has the surface. *)
Definition task_for_surface (root : Z) (w : App) : option TaskObjectId :=
  fst <$> List.find (λ p, bool_decide (surface p.2 = Some root)) (btree_items (a_windows w)).

Definition request_close (root : Z) : app unit :=
  w ← get;
  match task_for_surface root w, (a_host w).2 with
  | Some obj, Some _ =>
      r ← attempt (on_endpoint (send_close obj));
      match r with
      | Ok _ =>
          _ ← update_window obj (λ t, update_layer_task (set_flags (headless t, true, closing t)) t);
          mark obj (Z.lor Readiness.UNMAP Readiness.CONFIG)
      | Err e => fail e
      end
  | _, _ => mret tt
  end.

(** [initial] is the size the host's window policy resolves for a new window and
    [settled] whether the window is neither being resized nor maximized nor
    fullscreen. *)
Definition window_configured (root : Z) (requested : option Z * option Z) (initial : Resize.LogicalSize)
    (settled : bool) : app unit :=
  w ← get;
  match obj ← task_for_surface root w; t ← a_windows w !! obj; Some (obj, t) with
  | None => mret tt
  | Some (obj, t) =>
      if negb (accepts t) then mret tt
      else
        let previous := Resize.logical_size (lt_logical_size (tw_task t)) (tw_resize t) in
        let size := match previous with
                    | None => initial
                    | Some p => Resize.mkSize (default (Resize.ls_width p) requested.1)
                                  (default (Resize.ls_height p) requested.2)
                    end in
        let remember := bool_decide (is_Some previous) && settled in
        _ ← update_window obj (set_resize (Resize.configure size remember (tw_resize t)));
        mark obj Readiness.RESIZE
  end.

Definition preferred_scale (obj : TaskObjectId) (scale : Z) : app unit :=
  if scale =? 0 then fail (Configuration "compositor advertised a zero fractional scale")
  else
    w ← get;
    match a_windows w !! obj with
    | None => mret tt
    | Some t =>
        if negb (accepts t) then mret tt
        else
          let '(pending, changed) :=
            Resize.preferred_scale scale (lt_logical_size (tw_task t)) (tw_resize t) in
          _ ← update_window obj (set_resize pending);
          app_when changed (mark obj Readiness.RESIZE)
    end.

Definition surface_enter (root output : Z) : app unit :=
  w ← get;
  match task_for_surface root w with
  | None => mret tt
  | Some obj =>
      _ ← update_window obj (λ t, set_outputs
            (if bool_decide (output ∈ tw_entered t) then tw_entered t else tw_entered t ++ [output])
            (tw_presentation_output t) t);
      guarded (update_task_refresh obj)
  end.

(** The output is no longer one of the task's. *)
Definition leave_output (output : Z) (t : TaskWindow) : TaskWindow :=
  set_outputs (List.filter (λ o, negb (o =? output)) (tw_entered t))
    (if bool_decide (tw_presentation_output t = Some output) then None else tw_presentation_output t) t.

Definition surface_leave (root output : Z) : app unit :=
  w ← get;
  match task_for_surface root w with
  | None => mret tt
  | Some obj =>
      _ ← update_window obj (leave_output output);
      guarded (update_task_refresh obj)
  end.

Definition reconfigure_bootstrap : app unit :=
  w ← get;
  match fst <$> List.find (λ p, headless p.2) (btree_items (a_windows w)),
        host_canvas_size (env_outputs (a_env w)) with
  | Some obj, Some (width, height) =>
      configure_task obj (Resize.mkConfigure (Resize.mkSize width height) FRACTIONAL_SCALE_DENOMINATOR false)
  | _, _ => mret tt
  end.

Definition with_env_outputs (outputs : list Output) (e : Env) : Env :=
  mkEnv outputs (env_formats e) (env_alpha e) (env_manager e) (env_clock_id e) (env_activation e)
    (env_expected e).

(** [new_output] and [update_output]; the library's output state changed first.
    The power state of outputs is not part of this model. *)
Definition outputs_changed (outputs : list Output) : app unit :=
  _ ← modify (λ w, with_env (with_env_outputs outputs (a_env w)) w);
  guarded (_ ← reconfigure_bootstrap; update_output_refreshes).

Definition output_destroyed (output : Z) (outputs : list Output) : app unit :=
  _ ← modify (λ w, with_env (with_env_outputs outputs (a_env w)) w);
  _ ← modify (λ w, with_windows (leave_output output <$> a_windows w) w);
  guarded (_ ← reconfigure_bootstrap; update_output_refreshes).

(** Keyboard focus moves to the task of a surface, or to none. *)
Definition set_focus (obj : option TaskObjectId) : app unit :=
  w ← get;
  if bool_decide (a_focused w = obj) then mret tt
  else
    _ ← match previous ← a_focused w; t ← a_windows w !! previous; Some previous with
        | Some previous =>
            _ ← update_window previous (set_focused false);
            with_endpoint (send_visibility previous Visible false)
        | None => mret tt
        end;
    _ ← modify (with_focus obj);
    match o ← obj; t ← a_windows w !! o; Some o with
    | Some o =>
        _ ← update_window o (set_focused true);
        with_endpoint (send_visibility o Visible true)
    | None => mret tt
    end.

Definition keyboard_enter (root : Z) : app unit :=
  w ← get; guarded (set_focus (task_for_surface root w)).
Definition keyboard_leave (root : Z) : app unit :=
  w ← get;
  app_when (bool_decide (a_focused w = task_for_surface root w)) (guarded (set_focus None)).

(** *** Presentation feedback *)

Definition finish_grant (grant : option Identity) (term : Terminal) (k : LayerTask) : LayerTask :=
  set_timeline (timeline_finish grant term (lt_timeline k)) k.

(** The task and the place of a scene's callback. *)
Definition scene_callback (proxy : Z) (w : App) : option (TaskObjectId * nat) :=
  head (omap (λ p, pair p.1 <$> position (λ f, sf_proxy f =? proxy) (lt_scene_feedback (tw_task p.2)))
          (btree_items (a_windows w))).

(** The scene's callback leaves the task and ends its grant. *)
Definition drop_scene_callback (index : nat) (grant : option Identity) (term : Terminal) (t : TaskWindow)
    : TaskWindow :=
  update_layer_task (λ k, finish_grant grant term
    (set_scene_feedback (swap_remove index (lt_scene_feedback k)) k)) t.

Definition drop_frame_callback (index : nat) (grant : option Identity) (term : Terminal) (t : TaskWindow)
    : TaskWindow :=
  update_layer_task (finish_grant grant term)
    (set_frames (tw_pending t) (swap_remove index (tw_feedback t)) t).

Definition WAKE : Z := Z.lor Readiness.TIMELINE Readiness.RELEASES.

(** The timing of a presentation: clock, seconds, nanoseconds, the refresh
    period, the sequence and whether it was scanned out directly. *)
Record Timing : Type := mkTiming {
  tm_clock : Z;
  tm_sec : Z;
  tm_nsec : Z;
  tm_refresh : Z;
  tm_sequence : Z;
  tm_zero_copy : bool
}.

Definition time_error (e : FrameGrants.PresenterError) : LayerError :=
  Configuration (match e with
  | InvalidNanos => "presentation timestamp nanoseconds are invalid"
  | TimestampOverflow => "presentation timestamp overflowed nanoseconds"
  end)%string.

Definition observed_output (outputs : list Z) (t : TaskWindow) : option Z :=
  match List.find (λ o, bool_decide (o ∈ tw_entered t)) outputs with
  | Some o => Some o
  | None => if bool_decide (outputs = []) && (length (tw_entered t) =? 1)%nat
            then head (tw_entered t) else None
  end.

(** [self.endpoint.as_mut().ok_or(..)?] of the timing callbacks. *)
Definition on_timed_endpoint (m : ep_method unit) : app unit :=
  w ← get;
  match (a_host w).2 with
  | Some _ => on_endpoint m
  | None => throw (Configuration "endpoint is absent")
  end.

Definition report_scene (obj : TaskObjectId) (scene : Z) (tm : Timing) (changed : bool) : app unit :=
  _ ← app_when changed (update_task_refresh obj);
  t ← window obj;
  refresh ← lift (map_err helper_error (presentation_refresh_period (tm_refresh tm) (tw_refresh t)));
  timestamp ← lift (map_err time_error (presentation_timestamp_nanos (tm_sec tm) (tm_nsec tm)));
  app_when (negb (scene =? 0))
    (on_timed_endpoint (send_scene_presented obj scene timestamp refresh (tm_sequence tm))).

Definition scene_presented (obj : TaskObjectId) (index : nat) (outputs : list Z) (tm : Timing) : app unit :=
  t ← window obj;
  observed ← lift (ok_or (lt_scene_feedback (tw_task t) !! index) HostPanicked);
  let output := observed_output outputs t in
  if negb (accepts t) || negb (sf_configure_serial observed =? lt_serial (tw_task t))
     || bool_decide (output = None) || negb (tm_clock tm =? CLOCK_MONOTONIC) then
    _ ← update_window obj (drop_scene_callback index (sf_grant observed) Configured);
    mark obj WAKE
  else
    _ ← update_window obj (λ t, set_outputs (tw_entered t) output
          (drop_scene_callback index (sf_grant observed) FrameGrants.Presented t));
    _ ← mark obj WAKE;
    guarded (report_scene obj (sf_scene observed) tm
               (negb (bool_decide (tw_presentation_output t = output)))).

Definition frame_flags (tm : Timing) : Z :=
  Z.lor presentation_flag.DISPLAYED
    (if tm_zero_copy tm then presentation_flag.DIRECT_SCANOUT else presentation_flag.COMPOSITED).

Definition report_frame (obj : TaskObjectId) (index : nat) (tm : Timing) : app unit :=
  _ ← lift (fail_if (negb (tm_clock tm =? CLOCK_MONOTONIC))
              (Configuration "presentation clock is not CLOCK_MONOTONIC"));
  t ← window obj;
  completed ← lift (ok_or (tw_feedback t !! index)
                      (Configuration "presentation feedback has no submitted frame"));
  _ ← update_window obj (drop_frame_callback index (ff_grant completed) FrameGrants.Presented);
  _ ← mark obj WAKE;
  timestamp ← lift (map_err time_error (presentation_timestamp_nanos (tm_sec tm) (tm_nsec tm)));
  refresh ← lift (map_err helper_error (presentation_refresh_period (tm_refresh tm) (tw_refresh t)));
  on_timed_endpoint (send_presented obj (ff_frame completed) timestamp refresh (tm_sequence tm) (frame_flags tm)).

(** The presentation output follows the callback. *)
Definition follow_output (obj : TaskObjectId) (outputs : list Z) : app unit :=
  t ← window obj;
  match List.find (λ o, bool_decide (o ∈ tw_entered t)) outputs with
  | Some o =>
      if bool_decide (tw_presentation_output t = Some o) then mret tt
      else
        _ ← update_window obj (set_outputs (tw_entered t) (Some o));
        update_task_refresh obj
  | None => mret tt
  end.

Definition frame_presented (obj : TaskObjectId) (index : nat) (outputs : list Z) (tm : Timing) : app unit :=
  guarded (_ ← follow_output obj outputs; report_frame obj index tm).

(** The task of a surface and the place of one of its frames' callbacks. *)
Definition frame_callback_at (proxy root : Z) (w : App) : option (TaskObjectId * nat) :=
  obj ← task_for_surface root w;
  t ← a_windows w !! obj;
  pair obj <$> position (λ f, ff_proxy f =? proxy) (tw_feedback t).

Definition presented (proxy root : Z) (outputs : list Z) (tm : Timing) : app unit :=
  w ← get;
  match scene_callback proxy w with
  | Some (obj, index) => scene_presented obj index outputs tm
  | None =>
      match frame_callback_at proxy root w with
      | Some (obj, index) => frame_presented obj index outputs tm
      | None => mret tt
      end
  end.

Definition discarded (proxy root : Z) : app unit :=
  w ← get;
  match scene_callback proxy w with
  | Some (obj, index) =>
      t ← window obj;
      observed ← lift (ok_or (lt_scene_feedback (tw_task t) !! index) HostPanicked);
      _ ← update_window obj (drop_scene_callback index (sf_grant observed) Missed);
      mark obj WAKE
  | None =>
      match frame_callback_at proxy root w with
      | Some (obj, index) =>
          t ← window obj;
          completed ← lift (ok_or (tw_feedback t !! index) HostPanicked);
          _ ← update_window obj (drop_frame_callback index (ff_grant completed) Missed);
          _ ← mark obj WAKE;
          with_endpoint (forget_presentation obj (ff_frame completed))
      | None => mret tt
      end
  end.

(** *** Timeline events *)

Inductive OutputEvent : Type := EpochEvent (epoch : Z * Z) | GrantOffered (e : GrantEvent).

Definition set_task_epoch (epoch : Z) (k : LayerTask) : LayerTask :=
  set_timeline (with_schedule (set_epoch epoch (tl_schedule (lt_timeline k))) (lt_timeline k)) k.
Definition offer_grant (g : Grant) (now : Z) (k : LayerTask) : LayerTask :=
  set_timeline (with_schedule (offer g now (tl_schedule (lt_timeline k))) (lt_timeline k)) k.

Definition subscribed_to (proxy : Z) (s : option Subscription) : bool :=
  match s with Some s => su_proxy s =? proxy | None => false end.

Definition timeline_event (obj : TaskObjectId) (proxy : Z) (e : OutputEvent) : app unit :=
  w ← get;
  match a_windows w !! obj with
  | None => mret tt
  | Some t =>
      if negb (subscribed_to proxy (tl_subscription (lt_timeline (tw_task t)))) then mret tt
      else
        guarded
          (match e with
           | EpochEvent parts =>
               let epoch := join parts.1 parts.2 in
               _ ← app_when (match sc_epoch (tl_schedule (lt_timeline (tw_task t))) with
                             | Some old => negb (old =? epoch)
                             | None => false
                             end) (abort_timeline_work obj EpochEnded);
               update_window obj (update_layer_task (set_task_epoch epoch))
           | GrantOffered e =>
               grant ← lift (map_err time_error (wire_grant e));
               now ← app_monotonic;
               _ ← update_window obj (update_layer_task (offer_grant grant now));
               _ ← mark obj WAKE;
               run_clock (clock_idle_check now)
           end)
  end.

Definition clock_event (proxy : Z) (e : GrantEvent) : app unit :=
  w ← get;
  if negb (subscribed_to proxy (ck_subscription (a_clock w))) then mret tt
  else
    guarded
      (grant ← lift (map_err time_error (wire_grant e));
       _ ← match (a_host w).2 with
           | Some _ =>
               r ← attempt (on_endpoint (send_frame_grant (gr_latch_deadline_ns grant)
                              (gr_presentation_target_ns grant) (gr_refresh_period_ns grant)));
               match r with
               | Err (EndpointFailed (EpIpc (Io e))) =>
                   if e =? EAGAIN then mret tt else throw (EndpointFailed (EpIpc (Io e)))
               | Err e => throw e
               | Ok _ => mret tt
               end
           | None => mret tt
           end;
       now ← app_monotonic;
       run_clock (clock_idle_check now)).

(** [Registry::remove_global] for the frame timeline manager. *)
Definition stop_task_timeline (obj : TaskObjectId) : app unit :=
  w ← get;
  match a_windows w !! obj with
  | None => mret tt
  | Some t =>
      app_when (tl_exact (lt_timeline (tw_task t)))
        (_ ← guarded (abort_timeline_work obj EpochEnded);
         update_window obj (update_layer_task (λ k, set_timeline (timeline_stop (lt_timeline k)) k)))
  end.

Definition without_manager (e : Env) : Env :=
  mkEnv (env_outputs e) (env_formats e) (env_alpha e) false (env_clock_id e) (env_activation e)
    (env_expected e).

Definition manager_removed : app unit :=
  w ← get;
  app_when (env_manager (a_env w))
    (_ ← modify (λ w, with_env (without_manager (a_env w)) w);
     app_each stop_task_timeline (btree_items (a_windows w)).*1).

Definition imported (params : Z) (buffer : option Z) : app unit :=
  w ← get; import_done params buffer (btree_items (a_windows w)).*1.

(** ** One turn of the main loop *)

(** Between the dispatch of callbacks and [poll]; [now] is the time
    [notify_fallback] reads and [n] bounds the records of one endpoint drain.
    The input, text input and clipboard pumps are not part of this model. *)
Definition turn (now : Z) (n : nat) : app unit :=
  _ ← modify (λ w, with_work (Readiness.notify_fallback now (a_work w)) w);
  _ ← unmap_requested_tasks;
  w ← get;
  _ ← match a_fatal w with Some e => throw e | None => mret tt end;
  _ ← apply_pending_resizes;
  _ ← accept_endpoint;
  _ ← drain_endpoint n;
  _ ← refresh_frame_timelines;
  _ ← flush_timeline_frames;
  _ ← drain_layers n;
  _ ← unmap_requested_tasks;
  release_ready_frames.

End host.
