(* ===== verification/HostView.v ===== *)
(** * The books of the host presenter

    Every frame the endpoint owes back to Android is in exactly one place of
    the presenter: waiting for a grant, on the compositor's side, or in the
    hand of the loop that returns buffers; the registered buffers are the
    window's targets, a target is busy exactly while the compositor may read
    it, and a tracked presentation has one callback.  [books] states this
    between the windows and the endpoint's views; [Quiet] are the operations
    that leave both sides alone. *)

From S2P Require Import Hoare Transport Protocol TaskState Ipc Endpoint EndpointProofs EndpointSpec EndpointView PresenterWork PresenterSpec PresenterTime.
From S2P Require Import Bytes Syncobj FrameGrants LayerStream LayerPresenter LayerFrame HostApp HostFrames HostTurn Prelude.

(** ** Views of a window *)

Record WinView : Type := mkWin {
  wv_flags : bool * bool * bool;
  wv_root : option Z;
  wv_layers : bool;
  (** Frames that wait for a grant or to be shown. *)
  wv_waiting : list AcceptedWireFrame;
  wv_targets : gmap BufferId RenderTarget;
  wv_pending : list PendingFrame;
  wv_feedback : list FrameFeedback
}.

Definition queued_frame (q : option QueuedFrame) : list AcceptedWireFrame :=
  match q with Some q => [qf_frame q] | None => [] end.

Definition win_view (t : TaskWindow) : WinView :=
  mkWin (lt_flags (tw_task t)) (lt_root (tw_task t)) (bool_decide (is_Some (tw_layers t)))
    (queued_frame (lt_queued (tw_task t))) (tw_targets t)
    (tw_pending t) (tw_feedback t).

Definition wv_closing (t : WinView) : bool := (wv_flags t).2.

Definition frame_of (p : PendingFrame) : FrameId * BufferId := (pf_frame p, pf_buffer p).
Definition wire (a : AcceptedWireFrame) : FrameId * BufferId := (aw_frame a, aw_buffer a).

(** The frames a window has to give back; [h] are in the hand of a loop. *)
Definition owed (h : list (FrameId * BufferId)) (t : WinView) : list (FrameId * BufferId) :=
  (frame_of <$> wv_pending t) ++ (wire <$> wv_waiting t) ++ h.

(** ** A window and the endpoint's task *)

Record win_ok (h : list (FrameId * BufferId)) (t : WinView) (v : TaskView) : Prop := {
  wk_retiring : tv_retiring v = wv_closing t;
  wk_frames : map_to_list (tv_frames v) ≡ₚ owed h t;
  wk_targets : dom (wv_targets t) = tv_buffers v;
  wk_busy b r : wv_targets t !! b = Some r →
    rt_busy r = true ↔ b ∈ (pf_buffer <$> wv_pending t) ++ h.*2;
  wk_imported b r : wv_targets t !! b = Some r → is_Some (rt_wayland r) → is_Some (rt_sync r);
  wk_busy_sync b r : wv_targets t !! b = Some r → rt_busy r = true → is_Some (rt_sync r);
  wk_retired b r : wv_targets t !! b = Some r → rt_retired r = true →
    rt_host_owned r = true ∧ (wv_closing t = false → rt_busy r = true);
  wk_feedback : NoDup (ff_frame <$> wv_feedback t);
  wk_tracked f : f ∈ ff_frame <$> wv_feedback t → f ∈ tv_tracked v
}.

(** A closing window whose task the endpoint has already forgotten. *)
Definition gone_ok (h : list (FrameId * BufferId)) (t : WinView) : Prop :=
  wv_closing t = true ∧ owed h t = [].

Definition at_ok (h : list (FrameId * BufferId)) (t : option WinView) (v : option TaskView) : Prop :=
  match t, v with
  | Some t, Some v => win_ok h t v
  | Some t, None => gone_ok h t
  | None, None => h = []
  | None, Some _ => False
  end.

(** The frames of a task in the hand of the loop that returns buffers. *)
Definition held (hs : list (TaskObjectId * PendingFrame)) (o : TaskObjectId) : list (FrameId * BufferId) :=
  omap (λ e, if e.1 =? o then Some (frame_of e.2) else None) hs.

Definition books (hs : list (TaskObjectId * PendingFrame)) (m : gmap TaskObjectId WinView)
    (ep : option DenialEndpoint) : Prop :=
  match ep with
  | None => m = ∅
  | Some d => ep_inv d ∧ ∀ o, at_ok (held hs o) (m !! o) (ep_view d !! o)
  end.

Lemma held_cons_eq hs o p : held ((o, p) :: hs) o = frame_of p :: held hs o.
Proof. unfold held. cbn. by rewrite Z.eqb_refl. Qed.
Lemma held_cons_ne hs o o' p : o' ≠ o → held ((o', p) :: hs) o = held hs o.
Proof. intros Hne. unfold held. cbn. by apply Z.eqb_neq in Hne as ->. Qed.
Lemma held_app hs hs' o : held (hs ++ hs') o = held hs o ++ held hs' o.
Proof. unfold held. apply omap_app. Qed.
Lemma held_pair o ps : held (pair o <$> ps) o = frame_of <$> ps.
Proof. induction ps as [|p ps IH]; [done|]. cbn [fmap list_fmap]. by rewrite held_cons_eq, IH. Qed.
Lemma held_pair_ne o o' ps : o' ≠ o → held (pair o' <$> ps) o = [].
Proof. intros Hne. induction ps as [|p ps IH]; [done|]. cbn [fmap list_fmap]. by rewrite held_cons_ne. Qed.

(** *** Consequences *)

Section window.

Context (h : list (FrameId * BufferId)) (t : WinView) (v : TaskView).
Hypotheses (Hw : win_ok h t v) (Hv : view_ok v).

Lemma owed_lookup f b : tv_frames v !! f = Some b ↔ (f, b) ∈ owed h t.
Proof. by rewrite <- elem_of_map_to_list, (wk_frames _ _ _ Hw). Qed.

Lemma owed_registered f b : (f, b) ∈ owed h t → is_Some (wv_targets t !! b).
Proof.
  intros Hf%owed_lookup. apply elem_of_dom. rewrite (wk_targets _ _ _ Hw). by eapply vo_registered.
Qed.

Lemma owed_nodup : NoDup (owed h t).*1.
Proof. rewrite <- (wk_frames _ _ _ Hw). apply NoDup_fst_map_to_list. Qed.

Lemma owed_nodup_buffers : NoDup (owed h t).*2.
Proof.
  assert (∀ l : list (FrameId * BufferId), NoDup l.*1 →
            (∀ f1 f2 b, (f1, b) ∈ l → (f2, b) ∈ l → f1 = f2) → NoDup l.*2) as Hl.
  { induction l as [|[f b] l IH]; cbn; [constructor|]. intros [Hn Hl]%NoDup_cons Hinj. apply NoDup_cons. split.
    - intros ([f' b'] & E & Hin)%list_elem_of_fmap. cbn in E. subst b'.
      apply Hn. rewrite (Hinj f f' b); [|set_solver..]. apply list_elem_of_fmap. by exists (f', b).
    - apply IH; [done|]. intros f1 f2 b' H1 H2. eapply Hinj; by right. }
  apply Hl; [apply owed_nodup|]. intros f1 f2 b H1%owed_lookup H2%owed_lookup. by eapply vo_exclusive.
Qed.

(** A frame on the compositor's side has a busy target with a timeline. *)
Lemma pending_target p :
  p ∈ wv_pending t → ∃ r, wv_targets t !! pf_buffer p = Some r ∧ rt_busy r = true ∧ is_Some (rt_sync r).
Proof.
  intros Hp. destruct (owed_registered (pf_frame p) (pf_buffer p)) as [r Hr].
  { unfold owed. apply elem_of_app. left. apply list_elem_of_fmap. by exists p. }
  assert (rt_busy r = true) as Hb.
  { apply (wk_busy _ _ _ Hw _ _ Hr), elem_of_app. left. apply list_elem_of_fmap. by exists p. }
  exists r. split_and!; [done|done|]. by eapply (wk_busy_sync _ _ _ Hw).
Qed.

End window.

(** ** Work bits *)

Definition has_bit (n : Z) (r : Readiness.Tasks) (o : Z) : bool :=
  Z.testbit (default 0 (Readiness.ready r !! o)) n.

Lemma has_bit_mark n r o o' work :
  has_bit n (Readiness.mark o' work r) o = has_bit n r o || (bool_decide (o = o') && Z.testbit work n).
Proof.
  unfold has_bit, Readiness.mark. cbn. rewrite PresenterSpec.mark_in_lookup. case_decide as E.
  - subst. rewrite bool_decide_true by done. cbn. by rewrite Z.lor_spec.
  - rewrite bool_decide_false by done. by rewrite orb_false_r.
Qed.

Lemma has_bit_clear n m r o o' :
  0 ≤ m → Z.testbit (default 0 (Readiness.clear_work o' (2 ^ m) r !! o)) n
  = Z.testbit (default 0 (r !! o)) n && negb (bool_decide (o = o') && (n =? m)).
Proof.
  intros Hm. destruct (decide (o = o')) as [->|Hne].
  - rewrite PresenterSpec.clear_work_lookup, bool_decide_true by done. cbn.
    assert (Z.testbit (Z.ldiff (default 0 (r !! o')) (2 ^ m)) n
            = Z.testbit (default 0 (r !! o')) n && negb (n =? m)) as E.
    { destruct (Z.ltb_spec n 0); [by rewrite !Z.testbit_neg_r|].
      rewrite Z.ldiff_spec, Z.pow2_bits_eqb, Z.eqb_sym by done. done. }
    rewrite <- E. destruct (Z.eqb_spec (Z.ldiff (default 0 (r !! o')) (2 ^ m)) 0) as [Hz|]; [|done].
    by rewrite Hz.
  - by rewrite PresenterSpec.clear_work_lookup_ne, bool_decide_false, andb_true_r.
Qed.

Lemma land_pow2 b n : 0 ≤ n → Z.land b (2 ^ n) ≠ 0 ↔ Z.testbit b n = true.
Proof.
  intros Hn. split.
  - intros Hz. destruct (Z.testbit b n) eqn:E; [done|]. destruct Hz. apply Z.bits_inj'. intros i Hi.
    rewrite Z.land_spec, Z.pow2_bits_eqb, Z.bits_0 by done. destruct (Z.eqb_spec n i); [by subst; rewrite E|].
    apply andb_false_r.
  - intros E Hz. assert (Z.testbit (Z.land b (2 ^ n)) n = true) as Hb
      by (rewrite Z.land_spec, Z.pow2_bits_true, E; done).
    by rewrite Hz, Z.bits_0 in Hb.
Qed.

(** [pop] of one kind of work. *)
Lemma pop_Some n r r' o :
  0 ≤ n → Readiness.pop (2 ^ n) r = (r', Some o) →
  has_bit n r o = true
  ∧ (∀ m o', has_bit m r' o' = has_bit m r o' && negb (bool_decide (o' = o) && (m =? n)))
  ∧ (length (PresenterSpec.ready_objects (2 ^ n) (Readiness.ready r'))
     < length (PresenterSpec.ready_objects (2 ^ n) (Readiness.ready r)))%nat.
Proof.
  intros Hn. unfold Readiness.pop. rewrite PresenterSpec.first_ready_head.
  destruct (PresenterSpec.ready_objects (2 ^ n) (Readiness.ready r)) as [|x rest] eqn:E; cbn; [done|].
  intros [= <- <-]. split_and!.
  - assert (x ∈ PresenterSpec.ready_objects (2 ^ n) (Readiness.ready r)) as Hx by (rewrite E; by left).
    apply PresenterSpec.ready_objects_elem in Hx as (bits & Hb & Hl). unfold has_bit. rewrite Hb.
    by apply land_pow2.
  - intros m o'. unfold has_bit. by apply has_bit_clear.
  - cbn. rewrite (PresenterSpec.clear_work_tail _ _ _ _ E). lia.
Qed.

Lemma pop_None n r r' :
  0 ≤ n → Readiness.pop (2 ^ n) r = (r', None) → r' = r ∧ ∀ o, has_bit n r o = false.
Proof.
  intros Hn. unfold Readiness.pop. rewrite PresenterSpec.first_ready_head.
  destruct (PresenterSpec.ready_objects (2 ^ n) (Readiness.ready r)) as [|x rest] eqn:E; cbn; [|done].
  intros [= <-]. split; [done|]. intros o. unfold has_bit.
  destruct (Readiness.ready r !! o) as [bits|] eqn:Eo; cbn; [|apply Z.bits_0].
  destruct (Z.testbit bits n) eqn:Eb; [|done]. exfalso.
  assert (o ∈ PresenterSpec.ready_objects (2 ^ n) (Readiness.ready r)) as Ho.
  { apply PresenterSpec.ready_objects_elem. exists bits. split; [done|]. by apply land_pow2. }
  rewrite E in Ho. by apply not_elem_of_nil in Ho.
Qed.

Lemma ready_objects_length n r :
  (length (PresenterSpec.ready_objects (2 ^ n) (Readiness.ready r)) ≤ size (Readiness.ready r))%nat.
Proof.
  unfold PresenterSpec.ready_objects. rewrite length_fmap. etrans; [apply List.filter_length_le|].
  rewrite <- (length_map_to_list (Readiness.ready r)). unfold btree_items. by rewrite merge_sort_Permutation.
Qed.
