(* ===== verification/HostQuiet.v ===== *)
(** * Operations that leave the books of the host presenter alone

    Most of what the presenter does (requests to the compositor, window
    geometry, work bits, timing objects, refresh rates, layer streams) changes
    neither the frames and targets of a window nor the views of the endpoint.
    These operations are [Quiet]: they keep both, the recorded failure and the
    unmap bits, and they fail for no [fault] of the presenter. *)

From S2P Require Import Hoare Transport Protocol TaskState Ipc Endpoint EndpointProofs EndpointSpec EndpointView PresenterWork PresenterTime.
From S2P Require Import Bytes Syncobj FrameGrants LayerStream LayerPresenter LayerFrame HostApp HostFrames HostTurn HostView Prelude.

#[global] Typeclasses Opaque HostApp.on_endpoint HostApp.with_endpoint HostApp.out HostApp.fresh HostApp.window HostApp.update_window HostApp.mark HostApp.pop HostApp.app_when HostApp.app_each HostApp.pop_loop HostApp.on_layers HostApp.app_kernel HostApp.app_call HostFrames.on_target.

Section quiet.

Context {K : Type} `{HostOps K}.

Abbreviation App := (HostApp.App K).
Abbreviation app := (HostApp.app (K := K)).
Implicit Types w : App.

Definition wins (w : App) : gmap TaskObjectId WinView := win_view <$> a_windows w.

Definition unmap_bit (w : App) (o : Z) : bool := has_bit 4 (a_work w) o.

Definition ep_same (e e' : option DenialEndpoint) : Prop :=
  match e, e' with
  | None, None => True
  | Some d, Some d' => ep_view d' = ep_view d ∧ (ep_inv d → ep_inv d')
  | _, _ => False
  end.

Record same w w' : Prop := {
  sm_wins : wins w' = wins w;
  sm_ep : ep_same (a_host w).2 (a_host w').2;
  sm_fatal : a_fatal w' = a_fatal w;
  sm_bits : ∀ o, unmap_bit w' o = unmap_bit w o
}.

Lemma ep_same_refl e : ep_same e e.
Proof. by destruct e. Qed.
Lemma ep_same_trans e1 e2 e3 : ep_same e1 e2 → ep_same e2 e3 → ep_same e1 e3.
Proof.
  destruct e1 as [d1|], e2 as [d2|], e3 as [d3|]; cbn; try done. intros [H1 H2] [H3 H4].
  split; [congruence|auto].
Qed.

#[global] Instance same_preorder : PreOrder same.
Proof.
  split; [intros w; split; [done|apply ep_same_refl|done..]|].
  intros w1 w2 w3 [A1 A2 A3 A4] [B1 B2 B3 B4]. split; [congruence|by eapply ep_same_trans|congruence|].
  intros o. by rewrite B4.
Qed.

(** The books of a presenter do not see the difference. *)
Lemma books_ep hs m e e' : ep_same e e' → books hs m e → books hs m e'.
Proof.
  destruct e as [d|], e' as [d'|]; cbn; try done. intros [Hv Hi] [Hd Ho]. split; [auto|]. by rewrite Hv.
Qed.

Definition quiet_at {A} (m : app A) w : Prop :=
  same w (m w).1 ∧ ∀ e, (m w).2 = Err e → fault e = false.

Class Quiet {A} (m : app A) : Prop := quiet_run w : quiet_at m w.

Lemma Quiet_at {A} (m : app A) w : Quiet m → quiet_at m w.
Proof. intros Hm. apply Hm. Qed.

Lemma quiet_bind {A B} (m : app A) (f : A → app B) w :
  quiet_at m w → (∀ a w', m w = (w', Ok a) → same w w' → quiet_at (f a) w') → quiet_at (m ≫= f) w.
Proof.
  intros [Hs He] Hf. unfold quiet_at, mbind, method_bind. destruct (m w) as [w' [a|e]] eqn:E; cbn in *.
  - destruct (Hf a w' eq_refl Hs) as [Hs' He']. split; [exact (transitivity Hs Hs')|done].
  - split; [done|]. intros ? [= <-]. by apply He.
Qed.

#[global] Instance Quiet_bind {A B} (m : app A) (f : A → app B) :
  Quiet m → (∀ a, Quiet (f a)) → Quiet (m ≫= f).
Proof. intros Hm Hf w. apply quiet_bind; [apply Hm|]. intros. apply Hf. Qed.

Lemma quiet_get {B} (f : App → app B) w : quiet_at (f w) w → quiet_at (get ≫= f) w.
Proof. intros Hf. apply quiet_bind; [split; [reflexivity|done]|]. by intros a w' [= <- <-] _. Qed.

#[global] Instance Quiet_ret {A} (a : A) : Quiet (mret a).
Proof. intros w. split; [reflexivity|done]. Qed.
#[global] Instance Quiet_get : Quiet get.
Proof. intros w. split; [reflexivity|done]. Qed.
Lemma Quiet_throw {A} e : fault e = false → Quiet (throw (A := A) e).
Proof. intros He w. split; [reflexivity|]. by intros ? [= <-]. Qed.
Lemma Quiet_result {A} (r : result LayerError A) :
  match r with Err e => fault e = false | _ => True end → Quiet (lift r).
Proof. intros Hr w. unfold quiet_at, lift. destruct r; cbn; (split; [reflexivity|]); by intros ? [= <-]. Qed.
Lemma Quiet_ok_or {A} (o : option A) e : fault e = false → Quiet (lift (ok_or o e)).
Proof. intros He. apply Quiet_result. by destruct o. Qed.
Lemma Quiet_fail_if b e : fault e = false → Quiet (lift (fail_if b e)).
Proof. intros He. apply Quiet_result. by destruct b. Qed.
Lemma Quiet_map_err {E A} (r : result E A) (g : E → LayerError) :
  (∀ e, fault (g e) = false) → Quiet (lift (map_err g r)).
Proof. intros He. apply Quiet_result. destruct r; cbn; [done|apply He]. Qed.
Lemma Quiet_modify f : (∀ w, same w (f w)) → Quiet (modify f).
Proof. intros Hf w. split; [apply Hf|done]. Qed.
#[global] Instance Quiet_when b m : Quiet m → Quiet (app_when b m).
Proof. intros Hm. unfold app_when. destruct b; [done|apply _]. Qed.
#[global] Instance Quiet_each {A} (body : A → app unit) xs : (∀ x, Quiet (body x)) → Quiet (app_each body xs).
Proof. intros Hb. induction xs; cbn [app_each]; apply _. Qed.

Lemma same_start w w' :
  a_windows w' = a_windows w → (a_host w').2 = (a_host w).2 → a_fatal w' = a_fatal w →
  a_work w' = a_work w → same w w'.
Proof.
  intros E1 E2 E3 E4. split; unfold wins, unmap_bit; rewrite ?E1, ?E2, ?E3, ?E4; try done.
  apply ep_same_refl.
Qed.

#[global] Instance Quiet_out r : Quiet (out r).
Proof. apply Quiet_modify. intros w. by apply same_start. Qed.
#[global] Instance Quiet_fresh : Quiet HostApp.fresh.
Proof. intros w. split; [by apply same_start|done]. Qed.

Lemma Quiet_kernel {E A} (wrap : E → LayerError) (m : K → K * result E A) :
  (∀ e, fault (wrap e) = false) → Quiet (app_kernel wrap m).
Proof.
  intros He w. unfold quiet_at, app_kernel, on_fst. destruct (m (a_host w).1) as [k [a|e]]; cbn;
    (split; [by apply same_start|]); by intros ? [= <-].
Qed.
#[global] Instance Quiet_call what : Quiet (app_call what).
Proof. by apply Quiet_kernel. Qed.

Lemma same_windows w m : win_view <$> m = wins w → same w (with_windows m w).
Proof. intros E. split; [done|apply ep_same_refl|done..]. Qed.

Lemma Quiet_update obj f : (∀ t, win_view (f t) = win_view t) → Quiet (update_window obj f).
Proof.
  intros Hf. apply Quiet_modify. intros w. apply same_windows. unfold wins. apply map_eq. intros o.
  rewrite !lookup_fmap. destruct (decide (o = obj)) as [->|]; [|by rewrite lookup_alter_ne].
  rewrite lookup_alter_eq. destruct (a_windows w !! obj); cbn; [|done]. by rewrite Hf.
Qed.

Lemma Quiet_work g : (∀ r o, has_bit 4 (g r) o = has_bit 4 r o) → Quiet (modify (λ w, with_work (g (a_work w)) w)).
Proof. intros Hg. apply Quiet_modify. intros w. split; [done|apply ep_same_refl|done|]. intros o. apply Hg. Qed.

Lemma Quiet_mark obj work : Z.testbit work 4 = false → Quiet (mark obj work).
Proof. intros Hw. apply Quiet_work. intros r o. by rewrite has_bit_mark, Hw, andb_false_r, orb_false_r. Qed.

Lemma pop_same n w : 0 ≤ n → n ≠ 4 → same w (pop (2 ^ n) w).1.
Proof.
  intros Hn Hne. unfold pop. destruct (Readiness.pop (2 ^ n) (a_work w)) as [r [o|]] eqn:E; cbn.
  - apply pop_Some in E as (_ & Hb & _); [|done]. split; [done|apply ep_same_refl|done|]. intros o'.
    change (has_bit 4 r o' = has_bit 4 (a_work w) o'). rewrite Hb. rewrite (proj2 (Z.eqb_neq 4 n)) by done. by rewrite andb_false_r, andb_true_r.
  - apply pop_None in E as [-> _]; [|done]. by apply same_start.
Qed.

(** *** The endpoint and the layer streams *)

Lemma wins_layers w obj : has_layers obj w = match wins w !! obj with Some t => wv_layers t | None => false end.
Proof. unfold has_layers, wins. rewrite lookup_fmap. by destruct (a_windows w !! obj). Qed.

Definition live (obj : TaskObjectId) w : Prop := is_Some (wins w !! obj) ∧ is_Some (a_host w).2.

Lemma live_same obj w w' : same w w' → live obj w → live obj w'.
Proof.
  intros [E1 E2 _ _] [H1 H2]. split; [by rewrite E1|]. destruct H2 as [d Hd]. rewrite Hd in E2.
  destruct (a_host w').2; [eauto|done].
Qed.

Lemma quiet_window obj w : live obj w → quiet_at (window obj) w.
Proof.
  intros [[v Hv] _]. unfold wins in Hv. apply lookup_fmap_Some in Hv as (t & _ & Ht).
  unfold quiet_at, window, mbind, method_bind, get, lift. rewrite Ht. cbn. split; [reflexivity|done].
Qed.

Lemma quiet_endpoint {A} (m : ep_method A) w :
  Steady m → EpKeeps m → is_Some (a_host w).2 → quiet_at (on_endpoint m) w.
Proof.
  intros Hm Hk [d Hd]. unfold quiet_at, on_endpoint. rewrite Hd. specialize (Hm ((a_host w).1, d)).
  specialize (Hk ((a_host w).1, d)). destruct Hm as [Hv He]. destruct (m _) as [[k d'] r]. cbn in *.
  split.
  - split; [done| |done..]. cbn. by rewrite Hd.
  - intros e. destruct r as [a|e']; cbn; [done|]. intros [= <-]. by apply He.
Qed.

Lemma Quiet_with_endpoint (m : ep_method unit) : Steady m → EpKeeps m → Quiet (with_endpoint m).
Proof.
  intros Hm Hk w. unfold with_endpoint. apply quiet_get. destruct (a_host w).2 eqn:E; [|apply Quiet_ret].
  apply quiet_endpoint; [done|done|]. by rewrite E.
Qed.

#[global] Instance stream_framed obj : @FramedOps (host K) _ (stream_ops obj) snd.
Proof.
  split; intros; cbn; unfold on_fst; cbn; by case_match.
Qed.

Lemma arm_view t k : win_view (update_layer_task (λ l, set_timeline k l) t) = win_view t.
Proof. done. Qed.

(** Where [on_layers] leaves the windows. *)
Lemma on_layers_wins {A} obj (m : method (LayerPresenter.world (K := host K)) LayerError A) w t s :
  a_windows w !! obj = Some t → tw_layers t = Some s →
  wins (on_layers obj m w).1
  = <[obj := win_view (set_task (w_task (m (stream_world w t s)).1) t)]> (wins w).
Proof.
  intros Ht Hs. unfold on_layers, wins. rewrite Ht, Hs. destruct (m _) as [v r]. cbn.
  rewrite fmap_insert. f_equal; [unfold win_view; cbn; by rewrite Hs|].
  destruct (_ && _); [|done]. rewrite <- map_fmap_compose. done.
Qed.

Lemma quiet_layers {A} obj (m : method (LayerPresenter.world (K := host K)) LayerError A) w :
  @Still (host K) (option DenialEndpoint) snd A m → has_layers obj w = true → quiet_at (on_layers obj m) w.
Proof.
  intros Hm Hl. unfold has_layers in Hl. destruct (a_windows w !! obj) as [t|] eqn:Ht; [|done].
  apply bool_decide_eq_true in Hl as [s Hs]. destruct (Hm (stream_world w t s)) as [Hf He]. unfold framed in Hf.
  injection Hf as F1 F2 F3 F4. split.
  - split.
    + rewrite (on_layers_wins _ _ _ _ _ Ht Hs). apply insert_id. unfold wins. rewrite lookup_fmap, Ht. cbn.
      f_equal. unfold win_view. cbn. by rewrite F1, F2, F3.
    + unfold on_layers. rewrite Ht, Hs. destruct (m _) as [v r]. cbn in *. rewrite F4. apply ep_same_refl.
    + unfold on_layers. rewrite Ht, Hs. by destruct (m _).
    + unfold on_layers. rewrite Ht, Hs. by destruct (m _).
  - intros e. unfold on_layers. rewrite Ht, Hs. destruct (m _) as [v r]. cbn. apply He.
Qed.

(** ** Straight-line effects *)

Ltac quiet :=
  repeat (intros; cbn beta iota; first
    [ apply _
    | apply Quiet_bind
    | apply Quiet_throw; reflexivity
    | apply Quiet_ok_or; reflexivity
    | apply Quiet_fail_if; reflexivity
    | apply Quiet_map_err; intros []; reflexivity
    | apply Quiet_update; reflexivity
    | apply Quiet_mark; reflexivity
    | apply Quiet_kernel; reflexivity
    | apply Quiet_modify; intros; apply same_start; reflexivity
    | case_match ]).

(** The same from a state where the window and the endpoint exist. *)
Ltac quiet_live :=
  repeat (cbn beta iota; first
    [ assumption
    | eapply live_same; [eassumption|]
    | (apply Quiet_at; quiet; fail)
    | apply quiet_get
    | apply quiet_window
    | apply quiet_bind; [|intros ? ? ? ?]
    | case_match ]).

#[global] Instance Quiet_monotonic : Quiet app_monotonic.
Proof.
  unfold app_monotonic. apply Quiet_bind; [quiet|]. intros [seconds nanos]. quiet.
Qed.

#[global] Instance Quiet_wayland_buffer m planes : Quiet (create_wayland_buffer m planes).
Proof. unfold create_wayland_buffer. quiet. Qed.

#[global] Instance Quiet_open package : Quiet (open_window package).
Proof. unfold open_window. quiet. Qed.

#[global] Instance Quiet_scale size root : Quiet (scale_viewport size root).
Proof. unfold scale_viewport. quiet. Qed.

#[global] Instance Quiet_contacts obj : Quiet (retire_contacts obj).
Proof. apply Quiet_modify. intros w. by apply same_start. Qed.

#[global] Instance Quiet_unfocus obj : Quiet (unfocus obj).
Proof. apply Quiet_modify. intros w. case_match; by apply same_start. Qed.

#[global] Instance Quiet_activation obj root : Quiet (activation_mapped obj root).
Proof.
  intros w. unfold activation_mapped. apply quiet_get. destruct (Activation.mapped _ _) as [tokens token].
  apply Quiet_bind; [apply Quiet_modify; intros w'; by apply same_start|quiet].
Qed.

#[global] Instance Quiet_hide obj : Quiet (hide_layers obj).
Proof.
  intros w. unfold hide_layers. apply quiet_get. destruct (has_layers obj w) eqn:E; [|apply Quiet_ret].
  by apply quiet_layers; [apply Still_hide|].
Qed.

#[global] Instance Quiet_note obj : Quiet (note_fallback obj).
Proof.
  apply Quiet_modify. intros w. destruct (_ ≫= _); [|reflexivity].
  split; [done|apply ep_same_refl|done..].
Qed.

#[global] Instance Quiet_frame_work obj : Quiet (modify (λ w, with_work (set_frame_task obj (a_work w)) w)).
Proof. by apply Quiet_work. Qed.

Lemma put_timelines_view l m : win_view <$> put_timelines l m = win_view <$> m.
Proof.
  apply map_eq. intros o. unfold put_timelines. rewrite !lookup_fmap, map_lookup_imap.
  by destruct (m !! o).
Qed.

#[global] Instance Quiet_clock f : Quiet (run_clock f).
Proof. apply Quiet_modify. intros w. split; [apply put_timelines_view|apply ep_same_refl|done..]. Qed.

Lemma live_keys obj w : is_Some (a_windows w !! obj) → is_Some (a_host w).2 → live obj w.
Proof. intros [t Ht] He. split; [|done]. unfold wins. rewrite lookup_fmap, Ht. eauto. Qed.

(** ** Refresh rates *)

Lemma EpKeeps_configure o n x y a b t r : EpKeeps (K := K) (send_configure o n x y a b t r).
Proof.
  unfold send_configure. apply EpKeeps_bind; [apply on_task_keeps, configure_te|intros].
  apply EpKeeps_keeps, on_socket_keeps.
Qed.
Lemma EpKeeps_feedback o g fs : EpKeeps (K := K) (send_format_feedback o g fs).
Proof.
  unfold send_format_feedback. apply EpKeeps_bind; [apply on_task_keeps, feedback_te|intros].
  apply EpKeeps_keeps, on_socket_keeps.
Qed.
Lemma EpKeeps_visibility o v f : EpKeeps (K := K) (send_visibility o v f).
Proof.
  unfold send_visibility. apply EpKeeps_bind; [apply EpKeeps_keeps, ReadOnly_Keeps, task_ro|intros].
  apply EpKeeps_keeps, on_socket_keeps.
Qed.
Lemma EpKeeps_close o : EpKeeps (K := K) (send_close o).
Proof.
  unfold send_close. apply EpKeeps_bind; [apply EpKeeps_keeps, ReadOnly_Keeps, task_ro|intros].
  apply EpKeeps_keeps, on_socket_keeps.
Qed.
Lemma EpKeeps_grant a b c : EpKeeps (K := K) (send_frame_grant a b c).
Proof.
  unfold send_frame_grant. apply EpKeeps_bind; [by apply EpKeeps_keeps|intros w].
  destruct (host_clock_ready w.2); apply EpKeeps_keeps; [apply on_socket_keeps|done].
Qed.
Lemma EpKeeps_scene o s a b c : EpKeeps (K := K) (send_scene_presented o s a b c).
Proof.
  unfold send_scene_presented. apply EpKeeps_bind; [by apply EpKeeps_keeps|intros w].
  apply EpKeeps_bind.
  - destruct (negb _); [by apply EpKeeps_keeps|].
    apply EpKeeps_bind; [apply EpKeeps_keeps, ReadOnly_Keeps, task_ro|intros; by apply EpKeeps_keeps].
  - intros []; apply EpKeeps_keeps; [done|apply on_socket_keeps].
Qed.

Lemma quiet_refresh obj w : live obj w → quiet_at (refresh_task obj) w.
Proof.
  intros Hl. unfold refresh_task. apply quiet_get. apply quiet_bind; [by apply quiet_window|].
  intros t w1 _ S1. cbv zeta. destruct (_ || _); [apply Quiet_ret|].
  apply quiet_bind; [apply quiet_endpoint; [apply _|apply EpKeeps_configure|]|].
  { apply (live_same _ _ _ S1 Hl). }
  intros _ w2 _ _. apply Quiet_at. quiet.
Qed.

Lemma bootstrap_live w obj : bootstrap_of w = Some obj → is_Some (a_windows w !! obj).
Proof.
  unfold bootstrap_of. intros Hb. destruct (List.find _ _) as [[o t]|] eqn:E; [|done].
  apply find_some in E as [Hin _]. apply list_elem_of_In, btree_items_elem in Hin.
  cbn in Hb. simplify_eq. eauto.
Qed.

Lemma quiet_task_refresh obj w : live obj w → quiet_at (update_task_refresh obj) w.
Proof.
  intros Hl. unfold update_task_refresh. apply quiet_bind; [by apply quiet_refresh|].
  intros sent w1 _ S1. apply quiet_get. destruct (sent && _); [|apply Quiet_ret].
  destruct (bootstrap_of w1) as [b|] eqn:Eb; [|apply Quiet_ret].
  apply quiet_bind; [|intros; apply Quiet_ret]. apply quiet_refresh, live_keys; [by apply bootstrap_live|].
  apply (live_same _ _ _ S1 Hl).
Qed.

(** A loop over tasks that exist. *)
Lemma quiet_each (body : TaskObjectId → app unit) objs : ∀ w,
  (∀ o w', o ∈ objs → live o w' → quiet_at (body o) w') →
  (∀ o, o ∈ objs → live o w) → quiet_at (app_each body objs) w.
Proof.
  induction objs as [|o objs IH]; intros w Hb Hl; cbn [app_each]; [apply Quiet_ret|].
  apply quiet_bind; [apply Hb; [by left|apply Hl; by left]|]. intros _ w' _ S1.
  apply IH; [intros; apply Hb; [by right|done]|]. intros o' Ho. eapply live_same; [exact S1|]. apply Hl. by right.
Qed.

Lemma windows_live w o : is_Some (a_host w).2 → o ∈ (btree_items (a_windows w)).*1 → live o w.
Proof.
  intros He ([o' t] & -> & Hin%btree_items_elem)%list_elem_of_fmap. apply live_keys; [|done]. eauto.
Qed.

Lemma quiet_output_refreshes w : is_Some (a_host w).2 → quiet_at update_output_refreshes w.
Proof.
  intros He. unfold update_output_refreshes. apply quiet_get.
  apply quiet_each; [intros; by apply quiet_task_refresh|]. intros o Ho. by apply windows_live.
Qed.

End quiet.
