(* ===== verification/HostBooks.v ===== *)
(** * Steps on the books of the host presenter

    How one window and the endpoint's view of its task move together: a frame
    arrives, is shown, comes back or is discarded, a target is added, changed
    or dropped, a callback ends, a task is destroyed. *)

From S2P Require Import Hoare Transport Protocol TaskState Ipc Endpoint EndpointProofs EndpointSpec EndpointView PresenterWork PresenterTime.
From S2P Require Import Bytes Syncobj FrameGrants LayerStream LayerPresenter LayerFrame HostApp HostFrames HostTurn HostView Prelude.

Definition wv_with_waiting (l : list AcceptedWireFrame) (t : WinView) : WinView :=
  mkWin (wv_flags t) (wv_root t) (wv_layers t) l (wv_targets t) (wv_pending t) (wv_feedback t).
Definition wv_with_targets (m : gmap BufferId RenderTarget) (t : WinView) : WinView :=
  mkWin (wv_flags t) (wv_root t) (wv_layers t) (wv_waiting t) m (wv_pending t) (wv_feedback t).
Definition wv_with_pending (l : list PendingFrame) (t : WinView) : WinView :=
  mkWin (wv_flags t) (wv_root t) (wv_layers t) (wv_waiting t) (wv_targets t) l (wv_feedback t).
Definition wv_with_feedback (l : list FrameFeedback) (t : WinView) : WinView :=
  mkWin (wv_flags t) (wv_root t) (wv_layers t) (wv_waiting t) (wv_targets t) (wv_pending t) l.
Definition wv_with_flags (f : bool * bool * bool) (r : option Z) (t : WinView) : WinView :=
  mkWin f r (wv_layers t) (wv_waiting t) (wv_targets t) (wv_pending t) (wv_feedback t).

(** ** One window *)

Section window.

Context (h : list (FrameId * BufferId)) (t : WinView) (v : TaskView).
Hypotheses (Hw : win_ok h t v) (Hv : view_ok v).

Lemma ok_tracked s :
  (∀ f, f ∈ ff_frame <$> wv_feedback t → f ∈ s) → win_ok h t (with_tracked s v).
Proof. destruct Hw. intros Hs. by split. Qed.

Lemma ok_feedback l :
  NoDup (ff_frame <$> l) → (∀ f, f ∈ ff_frame <$> l → f ∈ tv_tracked v) → win_ok h (wv_with_feedback l t) v.
Proof. destruct Hw. intros H1 H2. by split. Qed.

Lemma ok_flags f r : f.2 = wv_closing t → win_ok h (wv_with_flags f r t) v.
Proof.
  destruct Hw. intros E. unfold wv_closing in *. split; cbn in *; try done.
  - unfold wv_closing. cbn. congruence.
  - intros b x Hb Hx. unfold wv_closing. cbn. rewrite E. eauto.
Qed.

(** *** Frames *)

Lemma ok_arrive a :
  tv_frames v !! aw_frame a = None →
  win_ok h (wv_with_waiting (a :: wv_waiting t) t) (with_frames (<[aw_frame a := aw_buffer a]> (tv_frames v)) v).
Proof.
  intros Hf. destruct Hw. split; cbn; try done.
  rewrite map_to_list_insert by done. rewrite wk_frames. unfold owed. cbn.
  by rewrite (Permutation_middle (frame_of <$> wv_pending t)).
Qed.

(** Frame [f] is given back: [t'] and [h'] are the window and the hand without it. *)
Lemma ok_return f b h' t' :
  owed h t ≡ₚ (f, b) :: owed h' t' → wv_closing t' = wv_closing t →
  wv_targets t' = wv_targets t → wv_feedback t' = wv_feedback t →
  (pf_buffer <$> wv_pending t') ++ h'.*2 = (pf_buffer <$> wv_pending t) ++ h.*2 →
  ∀ m o, at_ok h' (Some t') (after_return o f v m !! o).
Proof.
  intros Ho Hc Ht Hfb Hb m o. destruct Hw.
  assert (tv_frames v !! f = Some b) as Hf.
  { apply elem_of_map_to_list. rewrite wk_frames, Ho. by left. }
  assert (map_to_list (delete f (tv_frames v)) ≡ₚ owed h' t') as Hfr.
  { apply (Permutation_cons_inv (a := (f, b))). rewrite <- Ho, <- wk_frames.
    by rewrite (map_to_list_delete (tv_frames v)). }
  unfold after_return. destruct (tv_retiring v) eqn:Er; cbn.
  - case_bool_decide as Hempty.
    + rewrite lookup_delete_eq. cbn. split; [congruence|]. rewrite Hempty, map_to_list_empty in Hfr.
      by apply Permutation_nil_l in Hfr.
    + rewrite lookup_insert_eq. cbn. split; cbn; rewrite ?Ht, ?Hfb, ?Hb, ?Hc; try done; congruence.
  - rewrite lookup_insert_eq. cbn. split; cbn; rewrite ?Ht, ?Hfb, ?Hb, ?Hc; try done; congruence.
Qed.

(** *** Targets *)

Lemma ok_drop b :
  (b ∉ (owed h t).*2) →
  win_ok h (wv_with_targets (delete b (wv_targets t)) t) (with_buffers (tv_buffers v ∖ {[b]}) v).
Proof.
  intros Hb. destruct Hw. split; cbn; try done.
  - by rewrite dom_delete_L, wk_targets.
  - intros b' r [_ Hr]%lookup_delete_Some. eauto.
  - intros b' r [_ Hr]%lookup_delete_Some. eauto.
  - intros b' r [_ Hr]%lookup_delete_Some. eauto.
  - intros b' r [_ Hr]%lookup_delete_Some. eauto.
Qed.

Definition unused (r : RenderTarget) : Prop :=
  rt_busy r = false ∧ rt_retired r = false ∧ rt_wayland r = None.

Lemma busy_owed b : b ∈ (pf_buffer <$> wv_pending t) ++ h.*2 → b ∈ (owed h t).*2.
Proof.
  unfold owed. rewrite !fmap_app, <- list_fmap_compose, !elem_of_app. intros [Hb|Hb]; [left|by right; right].
  by rewrite (list_fmap_ext _ pf_buffer) by done.
Qed.

Lemma fresh_owed b : wv_targets t !! b = None → b ∉ (owed h t).*2.
Proof.
  intros Hb ([f b'] & -> & Hin)%list_elem_of_fmap.
  destruct (owed_registered _ _ _ Hw Hv _ _ Hin) as [r Hr]. cbn in Hb. congruence.
Qed.

Lemma ok_add b r :
  wv_targets t !! b = None → unused r →
  win_ok h (wv_with_targets (<[b := r]> (wv_targets t)) t) (with_buffers ({[b]} ∪ tv_buffers v) v).
Proof.
  intros Hb (Hu1 & Hu2 & Hu3). pose proof (fresh_owed _ Hb) as Hn. destruct Hw. split; cbn; try done.
  - by rewrite dom_insert_L, wk_targets.
  - intros b' r' [[<- <-]|[_ Hr]]%lookup_insert_Some; [|eauto]. rewrite Hu1. split; [done|].
    intros Hin. destruct Hn. by apply busy_owed.
  - intros b' r' [[<- <-]|[_ Hr]]%lookup_insert_Some; [|eauto]. rewrite Hu3. by intros [].
  - intros b' r' [[<- <-]|[_ Hr]]%lookup_insert_Some; [|eauto]. by rewrite Hu1.
  - intros b' r' [[<- <-]|[_ Hr]]%lookup_insert_Some; [|eauto]. by rewrite Hu2.
Qed.

(** A target changes only its compositor objects. *)
Lemma ok_target b g :
  (∀ r, wv_targets t !! b = Some r →
     rt_busy (g r) = rt_busy r ∧ rt_retired (g r) = rt_retired r ∧ rt_host_owned (g r) = rt_host_owned r
     ∧ (is_Some (rt_sync r) → is_Some (rt_sync (g r))) ∧ (is_Some (rt_wayland (g r)) → is_Some (rt_sync (g r)))) →
  win_ok h (wv_with_targets (alter g b (wv_targets t)) t) v.
Proof.
  intros Hg. destruct Hw.
  assert (∀ b' r', alter g b (wv_targets t) !! b' = Some r' →
    ∃ r, wv_targets t !! b' = Some r ∧ rt_busy r' = rt_busy r ∧ rt_retired r' = rt_retired r
         ∧ rt_host_owned r' = rt_host_owned r ∧ (is_Some (rt_sync r) → is_Some (rt_sync r'))
         ∧ (is_Some (rt_wayland r') → is_Some (rt_sync r'))) as Ha.
  { intros b' r'. destruct (decide (b' = b)) as [->|Hne].
    - rewrite lookup_alter_eq. destruct (wv_targets t !! b) as [r|] eqn:Er; [|done]. intros [= <-].
      exists r. split; [done|]. by apply Hg.
    - rewrite lookup_alter_ne by done. intros Hr. exists r'. split_and!; try done. eauto. }
  split; cbn; try done.
  - by rewrite dom_alter_L, wk_targets.
  - intros b' r' (r & Hr & -> & _)%Ha. eauto.
  - intros b' r' (r & Hr & _ & _ & _ & _ & Hs)%Ha. exact Hs.
  - intros b' r' (r & Hr & -> & _ & _ & Hs & _)%Ha. intros Hb. apply Hs. eauto.
  - intros b' r' (r & Hr & -> & -> & -> & _)%Ha. intros Hx. unfold wv_closing. cbn. eapply wk_retired; eauto.
Qed.

(** *** Showing a frame *)

Lemma waiting_idle a l :
  wv_waiting t = a :: l → wv_closing t = false →
  ∃ r, wv_targets t !! aw_buffer a = Some r ∧ rt_busy r = false ∧ rt_retired r = false.
Proof.
  intros El Hc. set (b := aw_buffer a). assert (wire a ∈ owed h t) as Hin.
  { unfold owed. rewrite El, !elem_of_app. right. left. by left. }
  destruct (owed_registered _ _ _ Hw Hv _ _ Hin) as [r Hr]. exists r.
  assert (rt_busy r = false) as Hbusy.
  { destruct (rt_busy r) eqn:E; [|done]. exfalso. apply (wk_busy _ _ _ Hw _ _ Hr) in E.
    pose proof (owed_nodup_buffers _ _ _ Hw Hv) as Hn. unfold owed in Hn. rewrite El in Hn.
    rewrite !fmap_app, <- list_fmap_compose in Hn. cbn in Hn. apply NoDup_app in Hn as (_ & H1 & H2).
    apply NoDup_cons in H2 as [H2 _]. rewrite elem_of_app in E. destruct E as [E|E].
    - apply (H1 b); [by rewrite (list_fmap_ext _ pf_buffer)|]. by left.
    - apply H2. rewrite elem_of_app. by right. }
  split_and!; [done|done|]. destruct (rt_retired r) eqn:Er; [|done].
  destruct (wk_retired _ _ _ Hw _ _ Hr Er) as [_ Hx]. by rewrite (Hx Hc) in Hbusy.
Qed.

Lemma ok_show a l p :
  wv_waiting t = a :: l → frame_of p = wire a →
  (∀ r, wv_targets t !! aw_buffer a = Some r → is_Some (rt_sync r)) →
  win_ok h (mkWin (wv_flags t) (wv_root t) (wv_layers t) l (alter (with_busy true) (aw_buffer a) (wv_targets t))
              (wv_pending t ++ [p]) (wv_feedback t)) v.
Proof.
  intros El Hp Hs. set (b := aw_buffer a) in *. injection Hp as Hpf Hpb. destruct Hw.
  assert (∀ b' r', alter (with_busy true) b (wv_targets t) !! b' = Some r' →
    ∃ r, wv_targets t !! b' = Some r ∧ ((b' = b ∧ r' = with_busy true r) ∨ (b' ≠ b ∧ r' = r))) as Ha.
  { intros b' r'. destruct (decide (b' = b)) as [->|Hne].
    - rewrite lookup_alter_eq. destruct (wv_targets t !! b) as [r|] eqn:Er; [|done]. intros [= <-]. eauto.
    - rewrite lookup_alter_ne by done. intros Hr. exists r'. auto. }
  split; cbn; try done.
  - rewrite wk_frames. unfold owed. cbn. rewrite El, fmap_app. cbn. unfold frame_of at 3. rewrite Hpf, Hpb.
    rewrite <- !app_assoc. cbn. done.
  - by rewrite dom_alter_L, wk_targets.
  - intros b' r' (r & Hr & [[-> ->]|[Hne ->]])%Ha; rewrite fmap_app; cbn.
    + split; [|done]. intros _. rewrite Hpb, !elem_of_app. left. right. by left.
    + rewrite (wk_busy _ _ Hr), Hpb, !elem_of_app. set_solver.
  - intros b' r' (r & Hr & [[-> ->]|[Hne ->]])%Ha; cbn; eauto.
  - intros b' r' (r & Hr & [[-> ->]|[Hne ->]])%Ha; cbn; eauto.
  - intros b' r' (r & Hr & [[-> ->]|[Hne ->]])%Ha; cbn; [|eauto]. intros Hx.
    destruct (wk_retired _ _ Hr Hx). done.
Qed.

End window.

(** *** Returning a buffer *)

Section returned.

Context (f : FrameId) (b : BufferId) (h : list (FrameId * BufferId)) (t : WinView) (v : TaskView).
Hypotheses (Hw : win_ok ((f, b) :: h) t v) (Hv : view_ok v).

Lemma returned_others : b ∉ (pf_buffer <$> wv_pending t) ++ h.*2.
Proof.
  pose proof (owed_nodup_buffers _ _ _ Hw Hv) as Hn. unfold owed in Hn.
  rewrite !fmap_app, <- list_fmap_compose in Hn. cbn in Hn. apply NoDup_app in Hn as (_ & H1 & H2).
  apply NoDup_app in H2 as (_ & _ & H2). apply NoDup_cons in H2 as [H2 _]. rewrite elem_of_app. intros [E|E].
  - apply (H1 b); [by rewrite (list_fmap_ext _ pf_buffer)|]. rewrite elem_of_app. right. by left.
  - done.
Qed.

Lemma returned_frames : map_to_list (delete f (tv_frames v)) ≡ₚ owed h t.
Proof.
  apply (Permutation_cons_inv (a := (f, b))). destruct Hw.
  assert (tv_frames v !! f = Some b) as Hf.
  { apply elem_of_map_to_list. rewrite wk_frames. unfold owed. rewrite !elem_of_app. right. right. by left. }
  etrans; [by apply map_to_list_delete|]. rewrite wk_frames. unfold owed.
  rewrite !app_assoc. apply Permutation_sym, Permutation_middle.
Qed.

Lemma returned_frame : tv_frames v !! f = Some b.
Proof.
  apply (owed_lookup _ _ _ Hw). unfold owed. rewrite !elem_of_app. right. right. by left.
Qed.

Lemma unbusy_lookup b' r' :
  alter (with_busy false) b (wv_targets t) !! b' = Some r' →
  ∃ r, wv_targets t !! b' = Some r ∧ ((b' = b ∧ r' = with_busy false r) ∨ (b' ≠ b ∧ r' = r)).
Proof.
  destruct (decide (b' = b)) as [->|Hne].
  - rewrite lookup_alter_eq. destruct (wv_targets t !! b) as [r|] eqn:Er; [|done]. intros [= <-]. eauto.
  - rewrite lookup_alter_ne by done. intros Hr. exists r'. auto.
Qed.

Lemma ok_unbusy :
  (∀ r, wv_targets t !! b = Some r → rt_retired r = true → wv_closing t = true) →
  win_ok h (wv_with_targets (alter (with_busy false) b (wv_targets t)) t) (frame_returned f v).
Proof.
  intros Hr. pose proof returned_others as Hn. pose proof returned_frames as Hf. destruct Hw.
  split; cbn; try done.
  - by rewrite dom_alter_L, wk_targets.
  - intros b' r' (r & Hr' & [[-> ->]|[Hne ->]])%unbusy_lookup; cbn; [done|].
    rewrite (wk_busy _ _ Hr'). cbn. set_solver.
  - intros b' r' (r & Hr' & [[-> ->]|[Hne ->]])%unbusy_lookup; cbn; eauto.
  - intros b' r' (r & Hr' & [[-> ->]|[Hne ->]])%unbusy_lookup; cbn; [done|eauto].
  - intros b' r' (r & Hr' & [[-> ->]|[Hne ->]])%unbusy_lookup; cbn; [|eauto]. intros Hx.
    destruct (wk_retired _ _ Hr' Hx) as [Ho _]. split; [done|]. unfold wv_closing in *. cbn. intros Hc.
    rewrite (Hr _ Hr' Hx) in Hc. done.
Qed.

Lemma ok_returned m o :
  (∀ r, wv_targets t !! b = Some r → rt_retired r = true → wv_closing t = true) →
  at_ok h (Some (wv_with_targets (alter (with_busy false) b (wv_targets t)) t)) (after_return o f v m !! o).
Proof.
  intros Hr. unfold after_return. destruct (tv_retiring v && _) eqn:E; cbn.
  - rewrite lookup_delete_eq. cbn. apply andb_prop in E as [E1 E2%bool_decide_eq_true]. destruct Hw.
    split; [unfold wv_closing in *; cbn; congruence|]. pose proof returned_frames as Hf.
    rewrite E2, map_to_list_empty in Hf. by apply Permutation_nil_l in Hf.
  - rewrite lookup_insert_eq. by apply ok_unbusy.
Qed.

Lemma ok_returned_drop :
  wv_closing t = false →
  win_ok h (wv_with_targets (delete b (wv_targets t)) t)
    (with_buffers (tv_buffers v ∖ {[b]}) (frame_returned f v)).
Proof.
  intros Hc. pose proof returned_others as Hn. pose proof returned_frames as Hf. destruct Hw.
  split; cbn; try done.
  - by rewrite dom_delete_L, wk_targets.
  - intros b' r' [Hne Hr]%lookup_delete_Some. rewrite (wk_busy _ _ Hr). cbn. set_solver.
  - intros b' r' [Hne Hr]%lookup_delete_Some. eauto.
  - intros b' r' [Hne Hr]%lookup_delete_Some. eauto.
  - intros b' r' [Hne Hr]%lookup_delete_Some. eauto.
Qed.

End returned.

(** ** All windows *)

(** Only the window and the view of [obj] changed. *)
Lemma books_step hs hs' m m' d d' obj :
  books hs m (Some d) → ep_inv d' →
  (∀ o, o ≠ obj → held hs' o = held hs o ∧ m' !! o = m !! o ∧ ep_view d' !! o = ep_view d !! o) →
  at_ok (held hs' obj) (m' !! obj) (ep_view d' !! obj) → books hs' m' (Some d').
Proof.
  intros [_ Hb] Hi Hne Ho. split; [done|]. intros o. destruct (decide (o = obj)) as [->|Hx]; [done|].
  destruct (Hne o Hx) as (-> & -> & ->). apply Hb.
Qed.

Lemma books_at hs m d obj t :
  books hs m (Some d) → m !! obj = Some t →
  match ep_view d !! obj with Some v => win_ok (held hs obj) t v ∧ view_ok v | None => gone_ok (held hs obj) t end.
Proof.
  intros [Hi Hb] Ht. specialize (Hb obj). rewrite Ht in Hb. destruct (ep_view d !! obj) as [v|] eqn:Ev; [|done].
  split; [done|]. by eapply ep_view_ok.
Qed.

(** A window that is not closing has its task. *)
Lemma books_open hs m d obj t :
  books hs m (Some d) → m !! obj = Some t → wv_closing t = false ∨ owed (held hs obj) t ≠ [] →
  ∃ v, ep_view d !! obj = Some v ∧ win_ok (held hs obj) t v ∧ view_ok v.
Proof.
  intros Hb Ht Hc. pose proof (books_at _ _ _ _ _ Hb Ht) as Ha. destruct (ep_view d !! obj) as [v|].
  - exists v. tauto.
  - destruct Ha as [H1 H2]. destruct Hc; congruence.
Qed.

Lemma books_window hs m d obj v :
  books hs m (Some d) → ep_view d !! obj = Some v →
  ∃ t, m !! obj = Some t ∧ win_ok (held hs obj) t v ∧ view_ok v.
Proof.
  intros [Hi Hb] Hv. specialize (Hb obj). rewrite Hv in Hb. destruct (m !! obj) as [t|]; [|done].
  exists t. split_and!; [done|done|]. by eapply ep_view_ok.
Qed.
