(* ===== verification/HostSteps.v ===== *)
(** * The operations of the host presenter keep its books

    Ending callbacks, discarding, showing and returning frames, the pool of
    render targets, configuring, unmapping and removing windows: each keeps
    [books] and fails for no [fault] of the presenter. *)

From S2P Require Import Hoare Transport Protocol TaskState Ipc Endpoint EndpointProofs EndpointSpec EndpointView PresenterWork PresenterTime.
From S2P Require Import Bytes Syncobj FrameGrants LayerStream LayerPresenter LayerFrame HostApp HostFrames HostTurn HostView HostQuiet HostBooks Prelude.

Definition nofault (e : LayerError) : Prop := fault e = false.

Section steps.

Context {K : Type} `{HostOps K}.

Abbreviation App := (HostApp.App K).
Abbreviation app := (HostApp.app (K := K)).
Implicit Types w : App.

(** What every operation on the books keeps besides them. *)
Record step_ok w w' : Prop := {
  st_fatal : a_fatal w' = a_fatal w;
  st_bits o : unmap_bit w' o = unmap_bit w o;
  st_ep : is_Some (a_host w).2 → is_Some (a_host w').2
}.

#[global] Instance step_ok_preorder : PreOrder step_ok.
Proof.
  split; [by intros w; split|]. intros w1 w2 w3 [A1 A2 A3] [B1 B2 B3].
  split; [congruence|intros o; by rewrite B2|auto].
Qed.

Lemma same_step w w' : same w w' → step_ok w w'.
Proof.
  intros [_ E1 E2 E3]. split; [done|done|]. intros [d Hd]. rewrite Hd in E1. destruct (a_host w').2; [eauto|done].
Qed.

Lemma step_host w k d : step_ok w (with_host (k, Some d) w).
Proof. split; [done|done|]. intros _. cbn. eauto. Qed.

(** The books of the presenter's own windows. *)
Definition kept (hs : list (TaskObjectId * PendingFrame)) (m : gmap TaskObjectId WinView) w : Prop :=
  books hs m (a_host w).2.

Lemma kept_same hs m w w' : same w w' → kept hs m w → kept hs m w'.
Proof. intros [_ E _ _]. by apply books_ep. Qed.

Lemma wp_quiet {A} (m : app A) w : quiet_at m w → wp m (λ _, same w) nofault w.
Proof. intros [Hs He]. unfold wp. destruct (m w) as [w' [a|e]]; [done|]. by apply He. Qed.

(** A quiet effect before the rest. *)
Lemma wp_quiet_bind {A B} (m : app A) (f : A → app B) Q w :
  quiet_at m w → (∀ a w', m w = (w', Ok a) → same w w' → wp (f a) Q nofault w') →
  wp (m ≫= f) Q nofault w.
Proof.
  intros [Hs He] Hf. unfold wp, mbind, method_bind. destruct (m w) as [w' [a|e]] eqn:E; cbn in *.
  - specialize (Hf a w' eq_refl Hs). unfold wp in Hf. by destruct (f a w') as [w2 [b|e]].
  - by apply He.
Qed.

Lemma wp_seq {A B} (m : app A) (f : A → app B) (P : A → App → Prop) Q w :
  wp m P nofault w → (∀ a w', P a w' → wp (f a) Q nofault w') → wp (m ≫= f) Q nofault w.
Proof. intros Hm Hf. apply wp_bind. by eapply wp_mono. Qed.

Lemma wp_window {B} obj (f : TaskWindow → app B) Q w t :
  a_windows w !! obj = Some t → wp (f t) Q nofault w → wp (window obj ≫= f) Q nofault w.
Proof.
  intros Ht Hf. unfold wp, window, mbind, method_bind, get, lift in *. rewrite Ht. cbn.
  by destruct (f t w) as [w' [b|e]].
Qed.

Lemma wp_endpoint {A} (m : ep_method A) (Q : A → App → Prop) w d :
  (a_host w).2 = Some d →
  wp m (λ a kd, Q a (with_host (kd.1, Some kd.2) w)) (λ e, refusal e = false) ((a_host w).1, d) →
  wp (on_endpoint m) Q nofault w.
Proof.
  intros Hd Hm. unfold wp, on_endpoint in *. rewrite Hd. destruct (m _) as [[k d'] [a|e]]; done.
Qed.

Lemma wins_lookup w obj : wins w !! obj = win_view <$> a_windows w !! obj.
Proof. unfold wins. apply lookup_fmap. Qed.

Lemma wins_Some w obj t : wins w !! obj = Some t → ∃ u, a_windows w !! obj = Some u ∧ win_view u = t.
Proof. rewrite wins_lookup. destruct (a_windows w !! obj) as [u|]; [|done]. intros [= <-]. eauto. Qed.

Lemma wins_Some_none w obj : wins w !! obj = None ↔ a_windows w !! obj = None.
Proof. rewrite wins_lookup. by destruct (a_windows w !! obj). Qed.

(** The windows after an update of one. *)
Lemma wins_update w obj f g :
  (∀ t, win_view (f t) = g (win_view t)) →
  wins (with_windows (alter f obj (a_windows w)) w) = alter g obj (wins w).
Proof.
  intros Hf. unfold wins. cbn. apply map_eq. intros o. rewrite lookup_fmap.
  destruct (decide (o = obj)) as [->|].
  - rewrite !lookup_alter_eq, lookup_fmap. destruct (a_windows w !! obj); cbn; [by rewrite Hf|done].
  - by rewrite !lookup_alter_ne, lookup_fmap.
Qed.

Lemma wp_update {B} obj f g (c : unit → app B) Q w :
  (∀ t, win_view (f t) = g (win_view t)) →
  (∀ w', wins w' = alter g obj (wins w) → a_host w' = a_host w → step_ok w w' → a_env w' = a_env w →
         a_windows w' = alter f obj (a_windows w) → wp (c tt) Q nofault w') →
  wp (update_window obj f ≫= c) Q nofault w.
Proof.
  intros Hf Hc. unfold wp, update_window, mbind, method_bind, modify. apply Hc; try done.
  - by apply wins_update.
Qed.

(** ** Ending callbacks *)

Lemma wp_forget_each obj fs m : ∀ w,
  kept [] m w → (∀ t, m !! obj = Some t → wv_feedback t = []) →
  wp (app_each (λ f, with_endpoint (forget_presentation obj f)) fs)
     (λ _ w', kept [] m w' ∧ a_windows w' = a_windows w ∧ step_ok w w') nofault w.
Proof.
  induction fs as [|f fs IH]; intros w Hk Hf; cbn [app_each].
  { apply wp_ret. split_and!; [done|done|reflexivity]. }
  apply wp_seq with (P := λ _ w', kept [] m w' ∧ a_windows w' = a_windows w ∧ step_ok w w').
  - unfold with_endpoint. apply wp_bind, wp_get. destruct (a_host w).2 as [d|] eqn:Hd.
    2:{ apply wp_ret. split_and!; [done|done|reflexivity]. }
    apply (wp_endpoint _ _ _ _ Hd). unfold kept in Hk. rewrite Hd in Hk.
    eapply wp_mono; [apply forget_presentation_view, Hk| |done].
    intros [] [k d'] [Hi Ev]. cbn in Hi, Ev. split; [|split; [done|apply step_host]].
    apply (books_step _ _ _ _ _ _ obj Hk Hi); [intros o Ho; by rewrite Ev, lookup_alter_ne|].
    destruct Hk as [_ Hb]. specialize (Hb obj). rewrite Ev, lookup_alter_eq.
    destruct (m !! obj) as [t|]; destruct (ep_view d !! obj) as [v|]; cbn in *; try done.
    apply ok_tracked; [done|]. rewrite (Hf t eq_refl). set_solver.
  - intros [] w1 (H1 & H2 & H3). eapply wp_mono; [by apply IH| |done]. intros [] w2 (H4 & H5 & H6).
    split_and!; [done|congruence|exact (transitivity H3 H6)].
Qed.

Lemma kept_none hs w obj : kept hs (wins w) w → (a_host w).2 = None → a_windows w !! obj = None.
Proof.
  unfold kept. intros Hk Hd. rewrite Hd in Hk. cbn in Hk. apply (fmap_empty_inv win_view) in Hk. by rewrite Hk.
Qed.

(** A change at one window that the books do not see. *)
Lemma kept_alter hs m g obj w :
  kept hs m w → (∀ d t, (a_host w).2 = Some d → m !! obj = Some t →
    at_ok (held hs obj) (Some t) (ep_view d !! obj) → at_ok (held hs obj) (Some (g t)) (ep_view d !! obj)) →
  kept hs (alter g obj m) w.
Proof.
  intros Hk Hg. unfold kept in *. destruct (a_host w).2 as [d|] eqn:Hd.
  - destruct Hk as [Hi Hb]. split; [done|]. intros o. destruct (decide (o = obj)) as [->|].
    + rewrite lookup_alter_eq. specialize (Hb obj). destruct (m !! obj) as [t|] eqn:Ht; [|done]. by apply Hg.
    + by rewrite lookup_alter_ne.
  - cbn in *. subst. apply map_eq. intros o. destruct (decide (o = obj)) as [->|].
    + by rewrite lookup_alter_eq, lookup_empty.
    + by rewrite lookup_alter_ne.
Qed.

Lemma alter_none {A} (g : A → A) obj (m : gmap Z A) : m !! obj = None → alter g obj m = m.
Proof.
  intros Hn. apply map_eq. intros o. destruct (decide (o = obj)) as [->|].
  - by rewrite lookup_alter_eq, Hn.
  - by rewrite lookup_alter_ne.
Qed.

Lemma alter_twice {A} (f g : A → A) obj (m : gmap Z A) :
  alter f obj (alter g obj m) = alter (λ x, f (g x)) obj m.
Proof.
  apply map_eq. intros o. destruct (decide (o = obj)) as [->|].
  - rewrite !lookup_alter_eq. by destruct (m !! obj).
  - by rewrite !lookup_alter_ne.
Qed.

Lemma alter_Some {A} (g : A → A) obj (m : gmap Z A) t : m !! obj = Some t → alter g obj m = <[obj := g t]> m.
Proof.
  intros Ht. apply map_eq. intros o. destruct (decide (o = obj)) as [->|].
  - by rewrite lookup_alter_eq, lookup_insert_eq, Ht.
  - by rewrite lookup_alter_ne, lookup_insert_ne.
Qed.

Lemma wp_retire_feedback obj term w :
  kept [] (wins w) w →
  wp (HostApp.retire_feedback obj term)
     (λ _ w', kept [] (wins w') w' ∧ wins w' = alter (wv_with_feedback []) obj (wins w) ∧ step_ok w w')
     nofault w.
Proof.
  intros Hk. unfold HostApp.retire_feedback. apply wp_bind, wp_get.
  destruct (a_windows w !! obj) as [t|] eqn:Ht.
  2:{ apply wp_ret. split_and!; [done| |reflexivity]. symmetry. apply alter_none. by rewrite wins_lookup, Ht. }
  cbv zeta. destruct (FrameGrants.retire_feedback _ _ _ _) as [timeline frames].
  apply wp_update with (g := wv_with_feedback []); [done|]. intros w1 E1 E2 S1 _ _.
  assert (kept [] (wins w1) w1) as Hk1.
  { rewrite E1. unfold kept. rewrite E2. apply (kept_alter [] (wins w)); [done|]. intros d u Hd Hu Ha.
    destruct (ep_view d !! obj) as [v|]; cbn in *; [|done].
    apply ok_feedback; [done|constructor|]. intros f Hf. set_solver. }
  eapply wp_mono; [apply (wp_forget_each _ _ (wins w1)); [done|]| |done].
  - intros u Hu. rewrite E1, lookup_alter_eq in Hu. destruct (wins w !! obj); by simplify_eq/=.
  - intros [] w2 (H1 & H2 & H3).
    assert (wins w2 = wins w1) as E3 by (unfold wins; by rewrite H2). rewrite E3.
    split_and!; [done|done|exact (transitivity S1 H3)].
Qed.

(** ** Discarding a frame that waits *)

(** Also when the kernel does not take the record. *)
Lemma discard_books hs m obj t a l1 l2 (k : K) d :
  books hs m (Some d) → m !! obj = Some t → wv_waiting t = l1 ++ a :: l2 →
  let x := discard_frame obj (aw_frame a) (k, d) in
  books hs (<[obj := wv_with_waiting (l1 ++ l2) t]> m) (Some x.1.2) ∧ ∀ e, x.2 = Err e → refusal e = false.
Proof.
  intros Hk Ht Hl.
  assert (owed (held hs obj) t ≡ₚ wire a :: owed (held hs obj) (wv_with_waiting (l1 ++ l2) t)) as Ho.
  { unfold owed. cbn. rewrite Hl, !fmap_app. cbn. rewrite <- !app_assoc. cbn.
    rewrite !(app_assoc (frame_of <$> wv_pending t)). symmetry. apply Permutation_middle. }
  destruct (books_open _ _ _ _ _ Hk Ht) as (v & Hv & Hw & Hvo).
  { right. intros E. rewrite E in Ho. by apply Permutation_nil_cons in Ho. }
  assert (tv_frames v !! aw_frame a = Some (aw_buffer a)) as Hf.
  { apply (owed_lookup _ _ _ Hw). rewrite Ho. by left. }
  cbv zeta. rewrite (discard_finishes _ _ _ _ _ _ (proj1 Hk) Hv Hf).
  destruct (finish_release_moves _ _ k _ _ _ (proj1 Hk) Hv Hf) as (Hi & Ev & He).
  split; [|intros e Ex; by destruct (He e Ex) as [x ->]]. apply (books_step _ _ _ _ _ _ obj Hk Hi).
  - intros o Hne. rewrite lookup_insert_ne, Ev by done. split_and!; [done|done|].
    unfold after_return. destruct (_ && _); [by rewrite lookup_delete_ne|by rewrite lookup_insert_ne].
  - rewrite lookup_insert_eq, Ev. by eapply (ok_return _ _ _ Hw).
Qed.

Lemma discard_lands hs m obj t a l1 l2 w :
  kept hs m w → m !! obj = Some t → wv_waiting t = l1 ++ a :: l2 →
  let x := on_endpoint (discard_frame obj (aw_frame a)) w in
  kept hs (<[obj := wv_with_waiting (l1 ++ l2) t]> m) x.1 ∧ a_windows x.1 = a_windows w ∧ step_ok w x.1
  ∧ ∀ e, x.2 = Err e → fault e = false.
Proof.
  intros Hk Ht Hl. unfold kept in Hk. destruct (a_host w).2 as [d|] eqn:Hd.
  2:{ cbn in Hk. subst. by rewrite lookup_empty in Ht. }
  destruct (discard_books _ _ _ _ _ _ _ (a_host w).1 _ Hk Ht Hl) as [H1 H2]. cbv zeta. unfold on_endpoint. rewrite Hd.
  destruct (discard_frame _ _ _) as [[k d'] r]. split; [exact H1|]. split; [done|]. split; [apply step_host|].
  intros e. destruct r as [u|e']; cbn; [done|]. intros [= <-]. by apply H2.
Qed.

Lemma wp_discard hs m obj t a l1 l2 w :
  kept hs m w → m !! obj = Some t → wv_waiting t = l1 ++ a :: l2 →
  wp (on_endpoint (discard_frame obj (aw_frame a)))
     (λ _ w', kept hs (<[obj := wv_with_waiting (l1 ++ l2) t]> m) w' ∧ a_windows w' = a_windows w ∧ step_ok w w')
     nofault w.
Proof.
  intros Hk Ht Hl. destruct (discard_lands _ _ _ _ _ _ _ _ Hk Ht Hl) as (H1 & H2 & H3 & H4). unfold wp.
  destruct (on_endpoint _ w) as [w' [u|e]]; [done|by apply H4].
Qed.

Lemma wp_with_endpoint (m : ep_method unit) Q w :
  is_Some (a_host w).2 → wp (on_endpoint m) Q nofault w → wp (with_endpoint m) Q nofault w.
Proof. intros [d Hd] Hm. unfold with_endpoint. apply wp_bind, wp_get. by rewrite Hd. Qed.

Lemma kept_wins hs w w' : a_windows w' = a_windows w → kept hs (wins w) w' → kept hs (wins w') w'.
Proof. intros E. unfold wins. by rewrite E. Qed.

Lemma wins_eq w w' : a_windows w' = a_windows w → wins w' = wins w.
Proof. intros E. unfold wins. by rewrite E. Qed.

Definition aborted (t : WinView) : WinView := wv_with_waiting [] (wv_with_feedback [] t).

Lemma quiet_abort_wait obj w :
  quiet_at (app_when (has_layers obj w) (on_layers obj (@abort_timeline_wait (host K) (stream_ops obj)))) w.
Proof.
  destruct (has_layers obj w) eqn:E; cbn; [|apply Quiet_ret]. apply quiet_layers; [apply Still_abort; apply _|done].
Qed.

Lemma wp_abort obj term w :
  kept [] (wins w) w →
  wp (abort_timeline_work obj term)
     (λ _ w', kept [] (wins w') w' ∧ wins w' = alter aborted obj (wins w) ∧ step_ok w w') nofault w.
Proof.
  intros Hk. unfold abort_timeline_work. eapply wp_seq; [by apply wp_retire_feedback|].
  intros [] w1 (Hk1 & E1 & S1). apply wp_bind, wp_get. destruct (a_windows w1 !! obj) as [t|] eqn:Ht.
  2:{ assert (wins w !! obj = None) as Hn.
      { apply wins_Some_none in Ht. rewrite E1, lookup_alter_eq in Ht. by destruct (wins w !! obj). }
      apply wp_ret. split_and!; [done| |done]. by rewrite E1, !alter_none. }
  assert (wins w1 !! obj = Some (win_view t)) as Hw1 by (by rewrite wins_lookup, Ht).
  apply wp_update with (g := wv_with_waiting []); [done|]. intros w2 E2 Eh S2 _ Ew2.
  assert (alter (wv_with_waiting []) obj (wins w1) = <[obj := wv_with_waiting [] (win_view t)]> (wins w1)) as Ea.
  { by apply alter_Some. }
  apply wp_seq with (P := λ _ w', kept [] (wins w2) w' ∧ a_windows w' = a_windows w2 ∧ step_ok w2 w').
  - destruct (lt_queued (tw_task t)) as [q|] eqn:Hq.
    + apply wp_with_endpoint.
      { rewrite Eh. destruct (a_host w1).2 eqn:Hd; [eauto|]. by rewrite (kept_none _ _ obj Hk1 Hd) in Ht. }
      rewrite E2, Ea. apply (wp_discard [] (wins w1) obj (win_view t) (qf_frame q) [] []).
      * unfold kept in *. by rewrite Eh.
      * done.
      * cbn. by rewrite Hq.
    + apply wp_ret. split_and!; [|done|reflexivity]. unfold kept. rewrite Eh, E2, Ea, insert_id; [done|].
      rewrite Hw1. f_equal. unfold wv_with_waiting, win_view. cbn. by rewrite Hq.
  - intros [] w3 (H1 & H2 & H3).
    assert (has_layers obj w1 = has_layers obj w3) as ->.
    { rewrite !wins_layers, (wins_eq _ _ H2), E2, lookup_alter_eq, Hw1. done. }
    eapply wp_mono; [apply wp_quiet, quiet_abort_wait| |done]. intros [] w4 S4.
    assert (wins w4 = alter aborted obj (wins w)) as E4.
    { rewrite (sm_wins _ _ S4), (wins_eq _ _ H2), E2, E1. by rewrite alter_twice. }
    split_and!; [|done|].
    + apply (kept_same _ _ w3); [done|]. by rewrite (sm_wins _ _ S4), (wins_eq _ _ H2).
    + exact (transitivity S1 (transitivity S2 (transitivity H3 (same_step _ _ S4)))).
Qed.

(** ** Render targets *)

Lemma wp_target_unregister hs m obj t b w :
  kept hs m w → m !! obj = Some t → is_Some (wv_targets t !! b) → (b ∉ (owed (held hs obj) t).*2) →
  wp (on_endpoint (unregister_render_target obj b))
     (λ _ w', kept hs (<[obj := wv_with_targets (delete b (wv_targets t)) t]> m) w'
              ∧ a_windows w' = a_windows w ∧ step_ok w w') nofault w.
Proof.
  intros Hk Ht Hb Ho. unfold kept in Hk. destruct (a_host w).2 as [d|] eqn:Hd.
  2:{ cbn in Hk. subst. by rewrite lookup_empty in Ht. }
  apply (wp_endpoint _ _ _ _ Hd). pose proof (books_at _ _ _ _ _ Hk Ht) as Ha.
  eapply wp_mono; [apply unregister_render_target_view; [apply Hk|]| |done].
  - intros v Hv. rewrite Hv in Ha. destruct Ha as [Hw Hvo]. split.
    + rewrite <- (wk_targets _ _ _ Hw). by apply elem_of_dom.
    + intros f Hf%(owed_lookup _ _ _ Hw). apply Ho. apply list_elem_of_fmap. by exists (f, b).
  - intros [] [k d'] (Hi & v & Hv & Ev). cbn in Hi, Ev. split; [|split; [done|apply step_host]].
    rewrite Hv in Ha. destruct Ha as [Hw Hvo].
    apply (books_step _ _ _ _ _ _ obj Hk Hi).
    + intros o Hne. by rewrite Ev, !lookup_insert_ne.
    + rewrite Ev, !lookup_insert_eq. by apply ok_drop.
Qed.

Lemma wp_drop_target hs m obj t b w :
  kept hs m w → m !! obj = Some t → is_Some (wv_targets t !! b) → (b ∉ (owed (held hs obj) t).*2) →
  wp (drop_target obj b)
     (λ _ w', kept hs (<[obj := wv_with_targets (delete b (wv_targets t)) t]> m) w'
              ∧ wins w' = alter (λ u, wv_with_targets (delete b (wv_targets u)) u) obj (wins w)
              ∧ step_ok w w') nofault w.
Proof.
  intros Hk Ht Hb Ho. unfold drop_target. eapply wp_seq; [by apply wp_target_unregister|].
  intros [] w1 (H1 & H2 & H3). apply wp_bind, wp_get.
  destruct (a_windows w1 !! obj) as [u|] eqn:Hu; cbn.
  2:{ apply wp_ret. split_and!; [done| |done]. rewrite (wins_eq _ _ H2). symmetry. apply alter_none.
      by rewrite wins_lookup, <- H2, Hu. }
  destruct (tw_targets u !! b) as [target|] eqn:Hb'.
  - apply wp_update with (g := λ u, wv_with_targets (delete b (wv_targets u)) u); [done|].
    intros w2 E2 Eh S2 _ _. apply (wp_mono _ (λ _, same w2) _ nofault); [apply wp_quiet, Quiet_at; destruct (rt_wayland target); apply _| |done].
    intros [] w3 S3. split_and!.
    + apply (kept_same _ _ _ _ S3). unfold kept. by rewrite Eh.
    + by rewrite (sm_wins _ _ S3), E2, (wins_eq _ _ H2).
    + exact (transitivity H3 (transitivity S2 (same_step _ _ S3))).
  - apply wp_ret. split_and!; [done| |done]. rewrite (wins_eq _ _ H2). apply map_eq. intros o.
    destruct (decide (o = obj)) as [->|]; [|by rewrite lookup_alter_ne].
    rewrite lookup_alter_eq, wins_lookup, <- H2, Hu. cbn. unfold wv_with_targets, win_view. cbn.
    by rewrite delete_id.
Qed.

End steps.
