(* ===== verification/HostPool.v ===== *)
(** * The pool of render targets and the geometry of a window

    Retiring the targets of the last geometry, allocating and registering new
    ones and configuring a window keep the books; so does the refresh of every
    task's rate that follows. *)

From S2P Require Import Hoare Transport Protocol TaskState Ipc Endpoint EndpointProofs EndpointSpec EndpointView PresenterWork PresenterTime.
From S2P Require Import Bytes Syncobj FrameGrants LayerStream LayerPresenter LayerFrame HostApp HostFrames HostTurn HostView HostQuiet HostBooks HostSteps Prelude.

Section pool.

Context {K : Type} `{HostOps K}.

Abbreviation App := (HostApp.App K).
Abbreviation app := (HostApp.app (K := K)).
Implicit Types w : App.

(** ** What most operations keep *)

(** The windows stay, none starts to close and no frame starts to wait. *)
Record calm w w' : Prop := {
  cm_step : step_ok w w';
  cm_wins o : match wins w' !! o with
              | Some t' => ∃ t, wins w !! o = Some t ∧ wv_closing t' = wv_closing t
                           ∧ (wv_waiting t' = [] ∨ wv_waiting t' = wv_waiting t)
              | None => wins w !! o = None
              end
}.

#[global] Instance calm_preorder : PreOrder calm.
Proof.
  split.
  - intros w. split; [reflexivity|]. intros o. destruct (wins w !! o) as [t|]; [|done]. eauto.
  - intros w1 w2 w3 [A1 A2] [B1 B2]. split; [exact (transitivity A1 B1)|]. intros o.
    specialize (A2 o). specialize (B2 o). destruct (wins w3 !! o) as [t3|].
    + destruct B2 as (t2 & E2 & F2 & G2). rewrite E2 in A2. destruct A2 as (t1 & E1 & F1 & G1).
      exists t1. split; [done|]. split; [congruence|]. destruct G2 as [->|E]; [by left|]. by rewrite E.
    + by rewrite B2 in A2.
Qed.

Lemma same_calm w w' : same w w' → calm w w'.
Proof.
  intros S1. split; [by apply same_step|]. intros o. rewrite (sm_wins _ _ S1).
  destruct (wins w !! o) as [t|]; [|done]. eauto.
Qed.

Lemma calm_eq w w' : wins w' = wins w → step_ok w w' → calm w w'.
Proof.
  intros E S1. split; [done|]. intros o. rewrite E. destruct (wins w !! o) as [t|]; [|done]. eauto.
Qed.

Lemma calm_alter w w' g obj :
  wins w' = alter g obj (wins w) → step_ok w w' →
  (∀ t, wins w !! obj = Some t → wv_closing (g t) = wv_closing t ∧ (wv_waiting (g t) = [] ∨ wv_waiting (g t) = wv_waiting t)) →
  calm w w'.
Proof.
  intros E S1 Hg. split; [done|]. intros o. rewrite E. destruct (decide (o = obj)) as [->|].
  - rewrite lookup_alter_eq. destruct (wins w !! obj) as [t|] eqn:Et; cbn; [|done]. exists t. split; [done|]. by apply Hg.
  - rewrite lookup_alter_ne by done. destruct (wins w !! o) as [t|]; [|done]. eauto.
Qed.

Lemma calm_live o w w' : calm w w' → live o w → live o w'.
Proof.
  intros [S1 E] [[t Ht] He]. split; [|by apply S1]. specialize (E o). destruct (wins w' !! o); [eauto|congruence].
Qed.

(** A closing window whose frame still waits has its unmap queued. *)
Definition urgent w : Prop :=
  ∀ o t, wins w !! o = Some t → wv_closing t = true → wv_waiting t ≠ [] → unmap_bit w o = true.

Lemma calm_urgent w w' : calm w w' → urgent w → urgent w'.
Proof.
  intros [S1 E] Hu o t Ht Hc Hn. specialize (E o). rewrite Ht in E. destruct E as (u & Hu' & Hf & Hw).
  rewrite (st_bits _ _ S1). apply (Hu o u); [done|congruence|].
  destruct Hw as [E|E]; [by rewrite E in Hn|by rewrite <- E].
Qed.

(** The books of the presenter. *)
Definition sound w : Prop := kept [] (wins w) w.

Lemma same_sound w w' : same w w' → sound w → sound w'.
Proof. intros S1 Hs. unfold sound. rewrite (sm_wins _ _ S1). by apply (kept_same _ _ _ _ S1). Qed.

Lemma sound_live w o : sound w → is_Some (a_windows w !! o) → live o w.
Proof.
  intros Hs [t Ht]. apply live_keys; [eauto|]. destruct (a_host w).2 as [d|] eqn:Hd; [eauto|].
  by rewrite (kept_none _ _ _ Hs Hd) in Ht.
Qed.

Lemma sound_wins w o : sound w → is_Some (wins w !! o) → live o w.
Proof. intros Hs [t Ht]. destruct (wins_Some _ _ _ Ht) as (u & Hu & _). by apply sound_live; [|eauto]. Qed.

(** A computation that keeps the books and is calm. *)
Definition settles {A} (m : app A) w : Prop := wp m (λ _ w', sound w' ∧ calm w w') nofault w.

Lemma settles_quiet {A} (m : app A) w : sound w → quiet_at m w → settles m w.
Proof.
  intros Hs Hq. eapply wp_mono; [by apply wp_quiet| |done]. intros a w' S1.
  split; [by apply (same_sound w)|by apply same_calm].
Qed.

Lemma settles_bind {A B} (m : app A) (f : A → app B) w :
  settles m w → (∀ a w', m w = (w', Ok a) → sound w' → calm w w' → settles (f a) w') → settles (m ≫= f) w.
Proof.
  intros Hm Hf. unfold settles, wp, mbind, method_bind in *. destruct (m w) as [w' [a|e]] eqn:E; [|done].
  destruct Hm as [Hs Hc]. specialize (Hf a w' eq_refl Hs Hc). destruct (f a w') as [w2 [b|e]]; [|done].
  destruct Hf as [Hs2 Hc2]. split; [done|]. exact (transitivity Hc Hc2).
Qed.

Lemma settles_quiet_bind {A B} (m : app A) (f : A → app B) w :
  sound w → quiet_at m w → (∀ a w', m w = (w', Ok a) → same w w' → sound w' → settles (f a) w') → settles (m ≫= f) w.
Proof.
  intros Hs [Hq He] Hf. unfold settles, wp, mbind, method_bind in *. destruct (m w) as [w' [a|e]] eqn:E; [|by apply He].
  cbn in *. specialize (Hf a w' eq_refl Hq (same_sound _ _ Hq Hs)). destruct (f a w') as [w2 [b|e]]; [|done].
  destruct Hf as [Hs2 Hc2]. split; [done|]. exact (transitivity (same_calm _ _ Hq) Hc2).
Qed.

Lemma settles_after {A} (m : app A) w1 w2 :
  calm w1 w2 → settles m w2 → wp m (λ _ w', sound w' ∧ calm w1 w') nofault w2.
Proof.
  intros Hc Hm. eapply wp_mono; [exact Hm| |done]. intros a w' [H1 H2]. split; [done|exact (transitivity Hc H2)].
Qed.

Lemma settles_ret {A} (a : A) w : sound w → settles (mret a) w.
Proof. intros Hs. apply wp_ret. split; [done|reflexivity]. Qed.

Lemma settles_get {B} (f : App → app B) w : settles (f w) w → settles (get ≫= f) w.
Proof. done. Qed.

Lemma settles_throw {A} e w : fault e = false → settles (throw (A := A) e) w.
Proof. done. Qed.

Lemma settles_window {B} obj (f : TaskWindow → app B) w t :
  a_windows w !! obj = Some t → settles (f t) w → settles (window obj ≫= f) w.
Proof. intros Ht Hf. by apply (wp_window _ _ _ _ t). Qed.

(** ** Retiring the pool *)

Definition retire (t : WinView) : WinView := wv_with_targets (retire_target <$> wv_targets t) t.

Lemma wp_drop_each obj idle : ∀ w t,
  kept [] (<[obj := t]> (wins w)) w → wins w !! obj = Some (retire t) → NoDup idle → wv_waiting t = [] →
  (∀ b, b ∈ idle → ∃ r, wv_targets t !! b = Some r ∧ rt_busy r = false) →
  wp (app_each (drop_target obj) idle)
     (λ _ w', ∃ m, (∀ b r, m !! b = Some r → (b ∉ idle) ∧ wv_targets t !! b = Some r)
        ∧ kept [] (<[obj := wv_with_targets m t]> (wins w')) w'
        ∧ wins w' = <[obj := retire (wv_with_targets m t)]> (wins w) ∧ step_ok w w') nofault w.
Proof.
  induction idle as [|b idle IH]; intros w t Hk Ht Hn Hw Hi; cbn [app_each].
  { apply wp_ret. exists (wv_targets t). split; [intros b r Hb; split; [set_solver|done]|].
    split; [by destruct t|]. split; [|reflexivity]. rewrite insert_id; [done|]. by destruct t. }
  apply NoDup_cons in Hn as [Hnb Hn]. destruct (Hi b ltac:(by left)) as (r & Hr & Hidle).
  assert ((<[obj := t]> (wins w)) !! obj = Some t) as Ht' by apply lookup_insert_eq.
  eapply wp_seq; [apply (wp_drop_target _ _ _ _ _ _ Hk Ht'); [eauto|]|].
  - intros Hb. unfold kept in Hk. destruct (a_host w).2 as [d|].
    2:{ cbn in Hk. by rewrite Hk, lookup_empty in Ht'. }
    pose proof (books_at _ _ _ _ _ Hk Ht') as Ha. destruct (ep_view d !! obj) as [v|].
    + destruct Ha as [Ha _]. assert (rt_busy r = true); [|congruence]. apply (wk_busy _ _ _ Ha _ _ Hr).
      unfold owed in Hb. rewrite Hw in Hb. cbn in Hb. rewrite !app_nil_r in *. by rewrite <- list_fmap_compose in Hb.
    + destruct Ha as [_ Ha]. rewrite Ha in Hb. by apply not_elem_of_nil in Hb.
  - intros [] w1 (Hk1 & E1 & S1). rewrite insert_insert_eq in Hk1.
    eapply wp_mono; [apply (IH w1 (wv_with_targets (delete b (wv_targets t)) t))| |done].
    + rewrite E1, (alter_Some _ _ _ _ Ht), insert_insert_eq. done.
    + rewrite E1, lookup_alter_eq, Ht. cbn. f_equal. unfold retire, wv_with_targets. cbn. by rewrite fmap_delete.
    + done.
    + done.
    + intros b' Hb'. destruct (Hi b' ltac:(by right)) as (r' & Hr' & Hx). exists r'. split; [|done].
      cbn. rewrite lookup_delete_ne; [done|]. intros ->. done.
    + intros [] w2 (m & Hm & Hk2 & E2 & S2). exists m. split.
      * intros b' r' Hb'. destruct (Hm b' r' Hb') as [H1 H2]. cbn in H2.
        apply lookup_delete_Some in H2 as [H2 H3]. split; [|done]. rewrite elem_of_cons. intros [->|]; done.
      * split; [done|]. split; [|exact (transitivity S1 S2)]. rewrite E2, E1, (alter_Some _ _ _ _ Ht), insert_insert_eq. done.
Qed.

Lemma ok_retire h t v :
  win_ok h t v → (∀ b r, wv_targets t !! b = Some r → rt_host_owned r = true → rt_busy r = true) →
  win_ok h (retire t) v.
Proof.
  intros Hw Hb. destruct Hw.
  assert (∀ b r, (retire_target <$> wv_targets t) !! b = Some r → ∃ r', wv_targets t !! b = Some r'
    ∧ rt_busy r = rt_busy r' ∧ rt_wayland r = rt_wayland r' ∧ rt_sync r = rt_sync r'
    ∧ rt_host_owned r = rt_host_owned r' ∧ (rt_retired r = true → rt_retired r' = true ∨ rt_host_owned r' = true)) as Ha.
  { intros b r (r' & <- & Hr)%lookup_fmap_Some. exists r'. split; [done|]. unfold retire_target.
    destruct (rt_host_owned r') eqn:E; cbn; auto 10. }
  split; cbn; try done.
  - by rewrite dom_fmap_L.
  - intros b r (r' & Hr & -> & _)%Ha. eauto.
  - intros b r (r' & Hr & _ & -> & -> & _)%Ha. eauto.
  - intros b r (r' & Hr & -> & _ & -> & _)%Ha. eauto.
  - intros b r (r' & Hr & -> & _ & _ & -> & Hx)%Ha Hr'. destruct (Hx Hr') as [Hy|Hy]; [eauto|].
    split; [done|]. intros _. eauto.
Qed.

Lemma filter_keys_nodup {A} (p : Z * A → bool) (l : list (Z * A)) : NoDup l.*1 → NoDup (List.filter p l).*1.
Proof.
  induction l as [|[k x] l IH]; cbn; [done|]. intros [Hn Hl]%NoDup_cons. destruct (p (k, x)); [|by apply IH].
  cbn. apply NoDup_cons. split; [|by apply IH]. intros ([k' y] & E & Hin)%list_elem_of_fmap. cbn in E. subst k'.
  apply Hn, list_elem_of_fmap. exists (k, y). split; [done|]. apply list_elem_of_In.
  by apply list_elem_of_In, filter_In in Hin as [Hin _].
Qed.

(** The targets a window loses when its geometry changes. *)
Definition idle_targets (m : gmap BufferId RenderTarget) : list BufferId :=
  (List.filter (λ p, rt_host_owned p.2 && negb (rt_busy p.2)) (btree_items m)).*1.

Lemma idle_targets_elem m b :
  b ∈ idle_targets m ↔ ∃ r, m !! b = Some r ∧ rt_host_owned r = true ∧ rt_busy r = false.
Proof.
  unfold idle_targets. rewrite list_elem_of_fmap. split.
  - intros ([b' r] & -> & [Hin Hr]%list_elem_of_In%filter_In). apply list_elem_of_In, btree_items_elem in Hin.
    exists r. split; [done|]. cbn in Hr. apply andb_prop in Hr as [H1 H2%negb_true_iff]. done.
  - intros (r & Hr & H1 & H2). exists (b, r). split; [done|]. apply list_elem_of_In, filter_In. split.
    + by apply list_elem_of_In, btree_items_elem.
    + cbn. by rewrite H1, H2.
Qed.

Lemma settles_retire obj w :
  sound w → (∀ t, wins w !! obj = Some t → wv_waiting t = []) → is_Some (wins w !! obj) →
  settles (retire_host_targets obj) w.
Proof.
  intros Hs Hwait [t Ht]. specialize (Hwait t Ht). destruct (wins_Some _ _ _ Ht) as (u & Hu & Eu).
  unfold retire_host_targets. apply (settles_window _ _ _ _ Hu). cbv zeta.
  assert (tw_targets u = wv_targets t) as Etg by (by rewrite <- Eu).
  apply (wp_update _ _ retire); [done|]. intros w1 E1 Eh S1 _ _.
  assert (wins w1 !! obj = Some (retire t)) as Ht1 by (by rewrite E1, lookup_alter_eq, Ht).
  assert (<[obj := t]> (wins w1) = wins w) as Ew.
  { rewrite E1, (alter_Some _ _ _ _ Ht), insert_insert_eq. by apply insert_id. }
  fold (idle_targets (tw_targets u)). rewrite Etg. eapply wp_mono; [apply (wp_drop_each obj _ w1 t)| |done].
  - rewrite Ew. unfold kept. rewrite Eh. exact Hs.
  - done.
  - apply filter_keys_nodup, btree_keys_NoDup.
  - done.
  - intros b (r & Hr & _ & Hb)%idle_targets_elem. eauto.
  - intros [] w2 (m & Hm & Hk2 & E2 & S2).
    assert (wins w2 !! obj = Some (retire (wv_with_targets m t))) as Hw2 by (by rewrite E2, lookup_insert_eq).
    split.
    + unfold sound.
      assert (wins w2 = alter retire obj (<[obj := wv_with_targets m t]> (wins w2))) as ->.
      { rewrite (alter_Some _ _ _ (wv_with_targets m t)) by apply lookup_insert_eq.
        by rewrite insert_insert_eq, insert_id. }
      apply kept_alter; [done|]. intros d x Hd Hx Ha. rewrite lookup_insert_eq in Hx. injection Hx as <-.
      destruct (ep_view d !! obj) as [v|]; [|done]. apply ok_retire; [done|]. cbn. intros b r Hb Ho.
      destruct (Hm b r Hb) as [H1 H2]. destruct (rt_busy r) eqn:E; [done|]. destruct H1. apply idle_targets_elem. eauto.
    + assert (wins w2 = alter (λ _, retire (wv_with_targets m t)) obj (wins w)) as E3.
      { by rewrite E2, E1, !(alter_Some _ _ _ _ Ht), insert_insert_eq. }
      apply (calm_alter _ _ _ _ E3); [exact (transitivity S1 S2)|]. intros x Hx. simplify_eq. by auto.
Qed.

(** ** Filling the pool *)

Lemma wp_each {A} (P : App → Prop) (body : A → app unit) xs : ∀ w,
  (∀ x w', x ∈ xs → P w' → wp (body x) (λ _, P) nofault w') → P w → wp (app_each body xs) (λ _, P) nofault w.
Proof.
  induction xs as [|x xs IH]; intros w Hb Hw; cbn [app_each]; [done|].
  eapply wp_seq; [apply Hb; [by left|done]|]. intros [] w' Hw'. apply IH; [|done].
  intros y w2 Hy. apply Hb. by right.
Qed.

Lemma wp_attempted {E A} (m : method App E A) (Q : A → App → Prop) (R : E → Prop) (P : result E A → App → Prop)
    (R' : LayerError → Prop) w :
  wp m Q R w → (∀ a w', Q a w' → P (Ok a) w') → (∀ e w', R e → P (Err e) w') → wp (attempt m) P R' w.
Proof.
  intros Hm H1 H2. apply wp_attempt. intros w' r Er. pose proof (wp_run _ _ _ _ _ _ Hm Er) as Hr.
  destruct r; auto.
Qed.

#[global] Instance Quiet_buffer_id : Quiet (K := K) allocate_buffer_id.
Proof.
  unfold allocate_buffer_id. apply Quiet_bind; [apply _|intros w]. apply Quiet_bind; [by apply Quiet_ok_or|intros id].
  apply Quiet_bind; [|intros; apply _]. apply Quiet_modify. intros w'. by apply same_start.
Qed.

#[global] Instance Quiet_planes o planes : ∀ index, Quiet (K := K) (export_planes o index planes).
Proof.
  induction planes as [|[offset stride] planes IH]; intros index; cbn [export_planes]; [apply _|].
  apply Quiet_bind; [by apply Quiet_kernel|intros f]. apply Quiet_bind; [apply IH|]. intros [fds metadata]. apply _.
Qed.

#[global] Instance Quiet_target id width height : Quiet (K := K) (allocate_target id width height).
Proof.
  unfold allocate_target. apply Quiet_bind; [apply _|intros w]. apply Quiet_bind.
  { apply Quiet_result. unfold selected_format. destruct (env_formats _); cbn; [|done].
    destruct (existsb _ _); [done|]. by destruct (existsb _ _). }
  intros [fourcc modifiers]. apply Quiet_bind; [by apply Quiet_kernel|intros o].
  apply Quiet_bind; [by apply Quiet_fail_if|intros _]. apply Quiet_bind; [apply _|]. intros [fds planes]. apply _.
Qed.

#[global] Instance Quiet_pool n width height : Quiet (K := K) (allocate_pool n width height).
Proof. induction n as [|n IH]; cbn [allocate_pool]; apply _. Qed.

Lemma allocate_target_unused id width height w w' r :
  allocate_target id width height w = (w', Ok r) → unused r ∧ rt_host_owned r = true ∧ b_id (rt_metadata r) = id.
Proof.
  unfold allocate_target. intros (? & ? & _ & (? & [fourcc modifiers] & _ & (? & o & _ & (? & ? & _ &
    (? & [fds planes] & _ & [_ <-]%m_ret_Ok)%m_bind_Ok)%m_bind_Ok)%m_bind_Ok)%m_bind_Ok)%m_bind_Ok. done.
Qed.

Lemma allocate_pool_unused n width height : ∀ w w' targets,
  allocate_pool n width height w = (w', Ok targets) →
  length targets = n ∧ Forall (λ r, unused r ∧ rt_host_owned r = true) targets.
Proof.
  induction n as [|n IH]; intros w w' targets; cbn [allocate_pool]; [by intros [_ <-]%m_ret_Ok|].
  intros (? & id & _ & (? & r & Hr & (? & rest & Hrest & [_ <-]%m_ret_Ok)%m_bind_Ok)%m_bind_Ok)%m_bind_Ok.
  apply allocate_target_unused in Hr as (H1 & H2 & _). apply IH in Hrest as [H3 H4].
  split; [cbn; congruence|by constructor].
Qed.

Definition add_targets (m : gmap BufferId RenderTarget) (targets : list RenderTarget) : gmap BufferId RenderTarget :=
  foldl (λ m b, <[b_id (rt_metadata b) := b]> m) m targets.

Lemma wp_register_pool obj serial t0 wm targets : ∀ registered w m,
  kept [] (<[obj := wv_with_targets m t0]> wm) w → Forall unused targets →
  wp (register_pool obj serial registered targets)
     (λ _ w', kept [] (<[obj := wv_with_targets (add_targets m targets) t0]> wm) w'
              ∧ a_windows w' = a_windows w ∧ step_ok w w') nofault w.
Proof.
  induction targets as [|r targets IH]; intros registered w m Hk Hu; cbn [register_pool].
  { apply wp_ret. split_and!; [done|done|reflexivity]. }
  apply Forall_cons in Hu as [Hr Hu]. set (b := b_id (rt_metadata r)).
  assert ((<[obj := wv_with_targets m t0]> wm) !! obj = Some (wv_with_targets m t0)) as Ht by apply lookup_insert_eq.
  apply wp_bind. eapply (wp_attempted _ (λ _ w', kept [] (<[obj := wv_with_targets (<[b := r]> m) t0]> wm) w'
    ∧ a_windows w' = a_windows w ∧ step_ok w w') nofault).
  - unfold kept in Hk. destruct (a_host w).2 as [d|] eqn:Hd.
    2:{ cbn in Hk. by rewrite Hk, lookup_empty in Ht. }
    apply (wp_endpoint _ _ _ _ Hd). eapply wp_mono; [apply register_render_target_view, Hk| |done].
    intros [] [k d'] (Hi & v & Hv & Hn & Ev). cbn in Hi, Ev. split; [|split; [done|apply step_host]].
    pose proof (books_at _ _ _ _ _ Hk Ht) as Ha. rewrite Hv in Ha. destruct Ha as [Hw Hvo].
    apply (books_step _ _ _ _ _ _ obj Hk Hi).
    + intros o Hne. by rewrite Ev, !lookup_insert_ne.
    + rewrite Ev, !lookup_insert_eq. apply (ok_add _ _ _ Hw Hvo b r); [|done].
      apply not_elem_of_dom. cbn. pose proof (wk_targets _ _ _ Hw) as E. cbn in E. by rewrite E.
  - intros [] w1 (Hk1 & E1 & S1). eapply wp_mono; [by apply IH| |done]. intros [] w2 (Hk2 & E2 & S2).
    split_and!; [done|congruence|exact (transitivity S1 S2)].
  - intros e w1 He. eapply (wp_seq _ _ (λ _ _, True)); [|by intros].
    eapply wp_each; [|done]. intros x w2 _ _. apply wp_bind, wp_attempt. by intros.
Qed.

Lemma wp_updated obj f g (Q : unit → App → Prop) w :
  (∀ t, win_view (f t) = g (win_view t)) →
  (∀ w', wins w' = alter g obj (wins w) → a_host w' = a_host w → step_ok w w' → Q tt w') →
  wp (update_window obj f) Q nofault w.
Proof. intros Hf HQ. apply wp_modify, HQ; [by apply wins_update|done|done]. Qed.

Lemma settles_ensure obj serial w :
  sound w → is_Some (wins w !! obj) → settles (ensure_render_targets obj serial) w.
Proof.
  intros Hs [t0 Ht0]. destruct (wins_Some _ _ _ Ht0) as (u & Hu & _). unfold ensure_render_targets.
  apply (settles_window _ _ _ _ Hu). destruct (negb _); [by apply settles_ret|].
  destruct (lt_buffer_size (tw_task u)) as [width height].
  apply settles_quiet_bind; [done|apply Quiet_at, _|]. intros targets w1 Hp S1 Hs1.
  apply allocate_pool_unused in Hp as [_ Hp].
  assert (wins w1 !! obj = Some t0) as Ht by (by rewrite (sm_wins _ _ S1)).
  eapply wp_seq.
  - apply (wp_register_pool obj serial t0 (wins w1) targets [] w1 (wv_targets t0)).
    + rewrite insert_id; [exact Hs1|]. by destruct t0.
    + eapply Forall_impl; [exact Hp|]. by intros r [].
  - intros [] w2 (Hk2 & E2 & S2).
    assert (wins w2 = wins w1) as Ew by by apply wins_eq.
    apply (wp_updated _ _ (λ t, wv_with_targets (add_targets (wv_targets t) targets) t)); [done|].
    intros w3 E3 Eh S3. rewrite Ew, (alter_Some _ _ _ _ Ht) in E3. split.
    + unfold sound, kept. by rewrite Eh, E3.
    + apply (calm_alter w1 w3 (λ t, wv_with_targets (add_targets (wv_targets t) targets) t) obj).
      * by rewrite E3, (alter_Some _ _ _ _ Ht).
      * exact (transitivity S2 S3).
      * intros t _. auto.
Qed.

(** ** Configuring a window *)

Lemma settles_abort obj term w : sound w → settles (abort_timeline_work obj term) w.
Proof.
  intros Hs. eapply wp_mono; [by apply wp_abort| |done]. intros [] w' (H1 & H2 & H3). split; [done|].
  apply (calm_alter _ _ _ _ H2 H3). auto.
Qed.

(** A computation that settles the books even where it fails. *)
Definition lands {A} (m : app A) w : Prop :=
  sound (m w).1 ∧ calm w (m w).1 ∧ ∀ e, (m w).2 = Err e → fault e = false.

Lemma lands_settles {A} (m : app A) w : lands m w → settles m w.
Proof. intros (H1 & H2 & H3). unfold settles, wp. destruct (m w) as [w' [a|e]]; [done|by apply H3]. Qed.

Lemma lands_quiet {A} (m : app A) w : sound w → quiet_at m w → lands m w.
Proof. intros Hs [H1 H2]. split; [by apply (same_sound w)|]. split; [by apply same_calm|done]. Qed.

Lemma forget_each_ok obj fs : ∀ w,
  (app_each (λ f, with_endpoint (forget_presentation obj f)) fs w).2 = Ok tt.
Proof.
  induction fs as [|f fs IH]; intros w; cbn [app_each]; [done|].
  unfold mbind, method_bind. destruct (with_endpoint (forget_presentation obj f) w) as [w' r] eqn:E.
  assert (r = Ok tt) as ->; [|apply IH]. revert E. unfold with_endpoint, mbind, method_bind, get. cbn.
  destruct (a_host w).2 as [d|] eqn:Hd; [|by intros [= _ <-]]. unfold on_endpoint. rewrite Hd.
  unfold forget_presentation, mbind, method_bind, Endpoint.attempt, attempt.
  match goal with |- context [on_task ?o ?m ?s] => destruct (on_task o m s) as [[k d'] r'] end.
  by intros [= _ <-].
Qed.

Lemma retire_feedback_ok obj term w : (HostApp.retire_feedback obj term w).2 = Ok tt.
Proof.
  unfold HostApp.retire_feedback, mbind at 1, method_bind at 1, get at 1.
  destruct (a_windows w !! obj) as [t|]; [|done]. cbv zeta.
  destruct (FrameGrants.retire_feedback _ _ _ _) as [timeline frames].
  unfold mbind, method_bind, update_window, modify. apply forget_each_ok.
Qed.

(** The same from an earlier state. *)
Definition lands_from {A} w0 (m : app A) w : Prop :=
  sound (m w).1 ∧ calm w0 (m w).1 ∧ ∀ e, (m w).2 = Err e → fault e = false.

Lemma lands_from_bind {A B} w0 (m : app A) (f : A → app B) w :
  lands_from w0 m w → (∀ a w', m w = (w', Ok a) → sound w' → calm w0 w' → lands (f a) w') → lands_from w0 (m ≫= f) w.
Proof.
  intros (H1 & H2 & H3) Hf. unfold lands_from, lands, mbind, method_bind in *. destruct (m w) as [w' [a|e]]; cbn in *.
  - destruct (Hf a w' eq_refl H1 H2) as (H4 & H5 & H6). split; [done|]. split; [exact (transitivity H2 H5)|done].
  - split; [done|]. split; [done|]. intros ? [= <-]. by apply H3.
Qed.

Lemma lands_bind {A B} (m : app A) (f : A → app B) w :
  lands m w → (∀ a w', m w = (w', Ok a) → sound w' → calm w w' → lands (f a) w') → lands (m ≫= f) w.
Proof. apply lands_from_bind. Qed.

Lemma lands_ret {A} (a : A) w : sound w → lands (mret a) w.
Proof. intros Hs. split; [done|]. split; [reflexivity|done]. Qed.

Lemma lands_retire obj term w : sound w → lands (HostApp.retire_feedback obj term) w.
Proof.
  intros Hs. pose proof (wp_retire_feedback obj term w Hs) as Hr. pose proof (retire_feedback_ok obj term w) as Hok.
  unfold lands, wp in *. destruct (HostApp.retire_feedback obj term w) as [w1 r]. cbn in *. subst r.
  destruct Hr as (Hs1 & E1 & St1). split; [done|]. split; [|done]. apply (calm_alter _ _ _ _ E1 St1). auto.
Qed.

(** The frame of a queue that was just emptied goes back. *)
Lemma lands_discard_queued obj (t : TaskWindow) w w' :
  sound w → a_windows w !! obj = Some t → wins w' = alter (wv_with_waiting []) obj (wins w) →
  a_host w' = a_host w → step_ok w w' →
  lands_from w (match lt_queued (tw_task t) with
                | Some q => with_endpoint (discard_frame obj (aw_frame (qf_frame q)))
                | None => mret tt
                end) w'.
Proof.
  intros Hs Ht E Eh St. assert (wins w !! obj = Some (win_view t)) as Ht1 by (by rewrite wins_lookup, Ht).
  assert (calm w w') as C1 by (apply (calm_alter _ _ _ _ E St); auto).
  destruct (lt_queued (tw_task t)) as [q|] eqn:Hq.
  - unfold lands_from, with_endpoint, mbind, method_bind, get. destruct (a_host w').2 as [d|] eqn:Hd.
    2:{ rewrite Eh in Hd. by rewrite (kept_none _ _ obj Hs Hd) in Ht. }
    destruct (discard_lands [] (wins w) obj (win_view t) (qf_frame q) [] [] w') as (H1 & H2 & H3 & H4).
    { unfold kept. rewrite Eh. exact Hs. } { done. } { cbn. by rewrite Hq. }
    destruct (on_endpoint _ w') as [w3 r]. cbn in *. split; [|split; [|exact H4]].
    + unfold sound. rewrite (wins_eq _ _ H2), E, (alter_Some _ _ _ _ Ht1). exact H1.
    + apply (transitivity C1), calm_eq; [by apply wins_eq|done].
  - split; [|by split]. cbn. unfold sound, kept. rewrite Eh, E, (alter_Some _ _ _ _ Ht1), insert_id; [exact Hs|].
    rewrite Ht1. f_equal. unfold wv_with_waiting, win_view. cbn. by rewrite Hq.
Qed.

Lemma with_endpoint_windows (m : ep_method unit) w w' r : with_endpoint m w = (w', r) → a_windows w' = a_windows w.
Proof.
  unfold with_endpoint, mbind, method_bind, get. destruct (a_host w).2 as [d|] eqn:Hd; [|by intros [= <- _]].
  unfold on_endpoint. rewrite Hd. destruct (m _) as [[k d'] r']. by intros [= <- _].
Qed.

Lemma lands_abort obj term w : sound w → lands (abort_timeline_work obj term) w.
Proof.
  intros Hs. unfold abort_timeline_work. apply lands_bind; [by apply lands_retire|]. intros [] w1 _ Hs1 C1.
  apply lands_bind; [by split; [|split; [reflexivity|]]|]. intros ? w1' [= <- <-] _ _.
  destruct (a_windows w1 !! obj) as [t|] eqn:Ht; [|by apply lands_ret].
  set (w2 := with_windows (alter (update_layer_task (λ k, set_queued None (clear_schedule term k))) obj (a_windows w1)) w1).
  change (lands_from w1 (_ ← match lt_queued (tw_task t) with
                | Some q => with_endpoint (discard_frame obj (aw_frame (qf_frame q)))
                | None => mret tt
                end; app_when (has_layers obj w1) (on_layers obj (@abort_timeline_wait (host K) (stream_ops obj)))) w2).
  apply lands_from_bind.
  - apply lands_discard_queued; [done|done| |done|by split]. by apply wins_update.
  - intros [] w3 E Hs3 C3.
    assert (a_windows w3 = a_windows w2) as Ew.
    { destruct (lt_queued (tw_task t)); [|by injection E as <-]. by rewrite <- (with_endpoint_windows _ _ _ _ E). }
    assert (has_layers obj w1 = has_layers obj w3) as ->.
    { unfold has_layers. rewrite Ew. cbn [w2 with_windows a_windows]. by rewrite lookup_alter_eq, Ht. }
    apply lands_quiet; [done|apply quiet_abort_wait].
Qed.

Lemma calm_wins o w w' : calm w w' → is_Some (wins w !! o) → is_Some (wins w' !! o).
Proof. intros [_ E] [t Ht]. specialize (E o). destruct (wins w' !! o); [eauto|congruence]. Qed.

Lemma settles_configure obj c w :
  sound w → is_Some (wins w !! obj) → settles (configure_task obj c) w.
Proof.
  intros Hs Hl. unfold configure_task. cbv zeta.
  apply settles_quiet_bind; [done|apply Quiet_at, Quiet_map_err; by intros []|]. intros bw w1 _ S1 Hs1.
  apply settles_quiet_bind; [done|apply Quiet_at, Quiet_map_err; by intros []|]. intros bh w2 _ S2 Hs2.
  assert (is_Some (wins w2 !! obj)) as Hl2 by (by rewrite (sm_wins _ _ S2), (sm_wins _ _ S1)).
  destruct Hl2 as [t Ht]. destruct (wins_Some _ _ _ Ht) as (u & Hu & _).
  apply (settles_window _ _ _ _ Hu). destruct (negb _); [by apply settles_ret|].
  eapply wp_seq; [by apply wp_abort|]. intros [] w3 (Hs3 & E3 & St3).
  assert (calm w2 w3) as C3 by (apply (calm_alter _ _ _ _ E3 St3); auto).
  apply (settles_after _ _ _ C3).
  apply settles_bind.
  { apply settles_retire; [done| |by eapply calm_wins; eauto]. intros x. rewrite E3, lookup_alter_eq, Ht. by intros [= <-]. }
  intros [] w4 _ Hs4 C4. assert (live obj w4) as Hl4.
  { apply (calm_live _ w3), sound_wins; [done|done|]. eapply calm_wins; [done|]. eauto. }
  apply settles_get. apply settles_quiet_bind; [done|apply Quiet_at; by apply Quiet_ok_or|]. intros serial w5 _ S5 Hs5.
  pose proof (live_same _ _ _ S5 Hl4) as Hl5. cbv zeta.
  apply settles_quiet_bind; [done|by apply quiet_window|]. intros t5 w6 _ S6 Hs6.
  pose proof (live_same _ _ _ S6 Hl5) as Hl6.
  apply settles_quiet_bind; [done|apply Quiet_at; by apply Quiet_update|]. intros _ w7 _ S7 Hs7.
  apply settles_quiet_bind; [done|apply Quiet_at, _|]. intros _ w8 _ S8 Hs8.
  pose proof (live_same _ _ _ S8 (live_same _ _ _ S7 Hl6)) as Hl8.
  apply settles_quiet_bind; [done|apply quiet_endpoint; [apply _|apply EpKeeps_configure|apply Hl8]|].
  intros _ w9 _ S9 Hs9.
  apply settles_quiet_bind; [done|apply Quiet_at; by apply Quiet_mark|]. intros _ w10 _ S10 Hs10.
  pose proof (live_same _ _ _ S10 (live_same _ _ _ S9 Hl8)) as Hl10.
  apply settles_get, settles_bind.
  { destruct (negb _); [apply settles_ensure; [done|apply Hl10]|by apply settles_ret]. }
  intros [] w11 _ Hs11 C11. apply settles_quiet; [done|]. apply quiet_output_refreshes, (calm_live _ _ _ C11 Hl10).
Qed.

Lemma settles_resize obj w : sound w → settles (apply_pending_resize obj) w.
Proof.
  intros Hs. unfold apply_pending_resize. apply settles_get.
  destruct (a_windows w !! obj) as [t|] eqn:Ht; [|by apply settles_ret].
  destruct (Resize.take_pending _) as [pending c].
  apply settles_quiet_bind; [done|apply Quiet_at; by apply Quiet_update|]. intros _ w1 _ S1 Hs1.
  destruct c as [c|]; [|by apply settles_ret]. destruct (accepts t); [|by apply settles_ret].
  apply settles_configure; [done|]. rewrite (sm_wins _ _ S1), wins_lookup, Ht. by eexists.
Qed.

(** ** Loops over ready tasks *)

Lemma settles_pop_loop n body turns : ∀ w,
  0 ≤ n → n ≠ 4 → (∀ o w', sound w' → settles (body o) w') → sound w → settles (pop_loop (2 ^ n) turns body) w.
Proof.
  induction turns as [|turns IH]; intros w Hn Hne Hb Hs; cbn [pop_loop]; [by apply settles_ret|].
  apply settles_quiet_bind; [done|split; [by apply pop_same|]|].
  { intros e. unfold pop. by destruct (Readiness.pop _ _). }
  intros [o|] w1 _ S1 Hs1; [|by apply settles_ret]. apply settles_bind; [by apply Hb|]. intros [] w2 _ Hs2 _.
  by apply IH.
Qed.

Lemma settles_while n body w :
  0 ≤ n → n ≠ 4 → (∀ o w', sound w' → settles (body o) w') → sound w → settles (while_work (2 ^ n) body) w.
Proof. intros Hn Hne Hb Hs. unfold while_work. apply settles_get. by apply settles_pop_loop. Qed.

Lemma settles_resizes w : sound w → settles apply_pending_resizes w.
Proof.
  intros Hs. apply (settles_while 6); [done|done| |done]. intros o w' Hs'. by apply settles_resize.
Qed.

End pool.
