(* ===== verification/HostShow.v ===== *)
(** * Showing and queueing composed frames

    An accepted frame is owed by the endpoint and not yet in any of the
    presenter's books ([arriving]); showing it, queueing it or discarding it
    settles the books again. *)

From S2P Require Import Hoare Transport Protocol TaskState Ipc Endpoint EndpointProofs EndpointSpec EndpointView PresenterWork PresenterTime.
From S2P Require Import Bytes Syncobj FrameGrants LayerStream LayerPresenter LayerFrame HostApp HostFrames HostTurn HostView HostQuiet HostBooks HostSteps HostPool Prelude.

Section show.

Context {K : Type} `{HostOps K}.

Abbreviation App := (HostApp.App K).
Abbreviation app := (HostApp.app (K := K)).
Implicit Types w : App.

(** A calm computation with its own outcome. *)
Definition stays {A} (Q : A → App → Prop) (m : app A) w : Prop := wp m (λ a w', Q a w' ∧ calm w w') nofault w.

Lemma stays_bind {A B} P Q (m : app A) (f : A → app B) w :
  stays P m w → (∀ a w', m w = (w', Ok a) → P a w' → calm w w' → stays Q (f a) w') → stays Q (m ≫= f) w.
Proof.
  intros Hm Hf. unfold stays, wp, mbind, method_bind in *. destruct (m w) as [w' [a|e]] eqn:E; [|done].
  destruct Hm as [Hs Hc]. specialize (Hf a w' eq_refl Hs Hc). destruct (f a w') as [w2 [b|e]]; [|done].
  destruct Hf as [Hs2 Hc2]. split; [done|]. exact (transitivity Hc Hc2).
Qed.

Lemma stays_quiet_bind {A B} Q (m : app A) (f : A → app B) w :
  quiet_at m w → (∀ a w', m w = (w', Ok a) → same w w' → stays Q (f a) w') → stays Q (m ≫= f) w.
Proof.
  intros [Hq He] Hf. unfold stays, wp, mbind, method_bind in *. destruct (m w) as [w' [a|e]] eqn:E; [|by apply He].
  cbn in *. specialize (Hf a w' eq_refl Hq). destruct (f a w') as [w2 [b|e]]; [|done].
  destruct Hf as [Hs2 Hc2]. split; [done|]. exact (transitivity (same_calm _ _ Hq) Hc2).
Qed.

Lemma stays_quiet {A} Q (m : app A) w :
  quiet_at m w → (∀ a w', m w = (w', Ok a) → same w w' → Q a w') → stays Q m w.
Proof.
  intros [Hq He] Hf. unfold stays, wp. destruct (m w) as [w' [a|e]] eqn:E; [|by apply He].
  split; [by apply Hf|]. by apply same_calm.
Qed.

Lemma stays_get {B} Q (f : App → app B) w : stays Q (f w) w → stays Q (get ≫= f) w.
Proof. done. Qed.

Lemma stays_ret {A} Q (a : A) w : Q a w → stays Q (mret a) w.
Proof. intros Hs. apply wp_ret. split; [done|reflexivity]. Qed.

Lemma stays_after {A} Q (m : app A) w1 w2 :
  calm w1 w2 → stays Q m w2 → wp m (λ a w', Q a w' ∧ calm w1 w') nofault w2.
Proof.
  intros Hc Hm. eapply wp_mono; [exact Hm| |done]. intros a w' [H1 H2]. split; [done|exact (transitivity Hc H2)].
Qed.

Lemma stays_window {B} Q obj (f : TaskWindow → app B) w t :
  a_windows w !! obj = Some t → stays Q (f t) w → stays Q (window obj ≫= f) w.
Proof. intros Ht Hf. by apply (wp_window _ _ _ _ t). Qed.

Lemma stays_Some {A B} Q (o : option A) e (f : A → app B) w a :
  o = Some a → stays Q (f a) w → stays Q (lift (ok_or o e) ≫= f) w.
Proof. intros ->. done. Qed.

(** A call of the kernel on a target's timeline. *)
Lemma wp_on_target {A} missing absent obj b (m : lane_method (K := host K) A) Q w u r s :
  a_windows w !! obj = Some u → tw_targets u !! b = Some r → rt_sync r = Some s →
  mild (lane_frame (@snd K (option DenialEndpoint))) m →
  (∀ a w' s', wins w' = alter (λ t, wv_with_targets (alter (with_sync (Some s')) b (wv_targets t)) t) obj (wins w) →
     (a_host w').2 = (a_host w).2 → step_ok w w' → Q a w') →
  wp (on_target missing absent obj b m) Q nofault w.
Proof.
  intros Hu Hr Hs Hm HQ. unfold wp, on_target. rewrite Hu. cbn. rewrite Hr. cbn. rewrite Hs.
  destruct (Hm (a_host w, lane_of s)) as [H1 H2]. destruct (m _) as [[h l] [a|e]]; cbn in *; [|by apply H2].
  unfold lane_frame in H1. cbn in H1. apply (HQ a _ (sync_of l)).
  - by apply (wins_update (with_host h w)).
  - done.
  - split; [done|done|]. cbn. by rewrite H1.
Qed.

(** ** A frame between the endpoint and the presenter *)

Section frame.

Context (obj : TaskObjectId) (a : AcceptedWireFrame).

#[local] Abbreviation f := (aw_frame a).
#[local] Abbreviation b := (aw_buffer a).

Definition carrying (t : WinView) : WinView := wv_with_waiting (a :: wv_waiting t) t.

Definition arriving w : Prop :=
  ∃ t, wins w !! obj = Some t ∧ kept [] (<[obj := carrying t]> (wins w)) w.

Lemma same_arriving w w' : same w w' → arriving w → arriving w'.
Proof. intros S1 (t & Ht & Hk). exists t. rewrite (sm_wins _ _ S1). split; [done|]. by apply (kept_same _ _ _ _ S1). Qed.

Lemma owed_carrying h t : owed h (carrying t) ≡ₚ wire a :: owed h t.
Proof. unfold owed. cbn. symmetry. apply Permutation_middle. Qed.

(** The frame in the endpoint's and in the presenter's tables. *)
Lemma arriving_books w t :
  wins w !! obj = Some t → kept [] (<[obj := carrying t]> (wins w)) w →
  ∃ d v r, (a_host w).2 = Some d ∧ books [] (<[obj := carrying t]> (wins w)) (Some d) ∧ ep_inv d
    ∧ ep_view d !! obj = Some v ∧ win_ok [] (carrying t) v ∧ view_ok v ∧ tv_frames v !! f = Some b
    ∧ wv_targets t !! b = Some r.
Proof.
  intros Ht Hk. unfold kept in Hk. assert ((<[obj := carrying t]> (wins w)) !! obj = Some (carrying t)) as Hc
    by apply lookup_insert_eq.
  destruct (a_host w).2 as [d|]; [|cbn in Hk; by rewrite Hk, lookup_empty in Hc].
  destruct (books_open _ _ _ _ _ Hk Hc) as (v & Hv & Hw & Hvo).
  { right. intros E. pose proof (owed_carrying (held [] obj) t) as Ho. rewrite E in Ho. by apply Permutation_nil_cons in Ho. }
  assert (wire a ∈ owed [] (carrying t)) as Hin by (rewrite owed_carrying; by left).
  assert (tv_frames v !! f = Some b) as Hf by by apply (owed_lookup _ _ _ Hw).
  destruct (owed_registered _ _ _ Hw Hvo _ _ Hin) as [r Hr]. exists d, v, r. split_and!; try done. apply Hk.
Qed.

Lemma arriving_live w : arriving w → live obj w.
Proof.
  intros (t & Ht & Hk). destruct (arriving_books _ _ Ht Hk) as (d & _ & _ & Hd & _). split; [by eexists|].
  rewrite Hd. by eexists.
Qed.

(** The window does not want it. *)
Lemma stays_discard w : arriving w → stays (λ _, sound) (on_endpoint (discard_frame obj f)) w.
Proof.
  intros (t & Ht & Hk). eapply wp_mono; [apply (wp_discard [] (<[obj := carrying t]> (wins w)) obj (carrying t) a [] (wv_waiting t) w); [exact Hk|apply lookup_insert_eq|done]| |done].
  intros [] w' (H1 & H2 & H3). rewrite insert_insert_eq, insert_id in H1 by (by destruct t).
  split; [by apply (kept_wins _ w)|]. apply calm_eq; [by apply wins_eq|done].
Qed.

(** Only the compositor's objects of a target changed. *)
Lemma arriving_target b' g w w' :
  arriving w → wins w' = alter (λ t, wv_with_targets (alter g b' (wv_targets t)) t) obj (wins w) →
  ep_same (a_host w).2 (a_host w').2 →
  (∀ t r, wins w !! obj = Some t → wv_targets t !! b' = Some r →
     rt_busy (g r) = rt_busy r ∧ rt_retired (g r) = rt_retired r ∧ rt_host_owned (g r) = rt_host_owned r
     ∧ (is_Some (rt_sync r) → is_Some (rt_sync (g r))) ∧ (is_Some (rt_wayland (g r)) → is_Some (rt_sync (g r)))) →
  arriving w'.
Proof.
  intros (t & Ht & Hk) E Eh Hg. exists (wv_with_targets (alter g b' (wv_targets t)) t).
  rewrite E, (alter_Some _ _ _ _ Ht), lookup_insert_eq, insert_insert_eq. split; [done|].
  assert (<[obj := carrying (wv_with_targets (alter g b' (wv_targets t)) t)]> (wins w)
          = alter (λ t, wv_with_targets (alter g b' (wv_targets t)) t) obj (<[obj := carrying t]> (wins w))) as ->.
  { rewrite (alter_Some _ _ _ (carrying t)) by apply lookup_insert_eq. by rewrite insert_insert_eq. }
  unfold kept. apply (books_ep _ _ _ _ Eh). apply (kept_alter _ _ _ _ _ Hk). intros d x _ Hx Ha.
  rewrite lookup_insert_eq in Hx. injection Hx as <-. destruct (ep_view d !! obj) as [v|]; [|done].
  apply (ok_target _ _ _ Ha). intros r Hr. by apply (Hg t).
Qed.

(** *** Its target gets its compositor objects *)

Definition sync_ready w : Prop :=
  ∃ t r, wins w !! obj = Some t ∧ wv_targets t !! b = Some r ∧ is_Some (rt_sync r).

Definition open_at w : Prop :=
  ∃ t, wins w !! obj = Some t ∧ wv_closing t = false ∧ is_Some (wv_root t).

Lemma stays_import target w :
  arriving w → open_at w →
  stays (λ _ w', arriving w' ∧ open_at w' ∧ sync_ready w') (import_target obj b target) w.
Proof.
  intros Ha Ho. unfold import_target.
  apply stays_quiet_bind; [apply Quiet_at, _|]. intros buffer w1 _ S1.
  apply stays_quiet_bind; [by apply Quiet_at, Quiet_kernel|]. intros timeline w2 _ S2.
  apply stays_quiet_bind; [by apply Quiet_at, Quiet_kernel|]. intros descriptor w3 _ S3.
  apply stays_quiet_bind; [apply Quiet_at, _|]. intros proxy w4 _ S4.
  apply stays_quiet_bind; [apply Quiet_at, _|]. intros _ w5 _ S5.
  assert (same w w5) as S15 by exact (transitivity S1 (transitivity S2 (transitivity S3 (transitivity S4 S5)))).
  pose proof (same_arriving _ _ S15 Ha) as Ha5.
  apply (wp_update _ _ (λ t, wv_with_targets (alter (with_import buffer) b (wv_targets t)) t)); [done|].
  intros w6 E6 Eh6 St6 _ _. eapply wp_seq; [by apply wp_quiet, Quiet_at, Quiet_kernel|]. intros event w7 S7.
  set (s := Some (mkSync timeline proxy 0 (Some event))).
  apply (wp_updated _ _ (λ t, wv_with_targets (alter (with_sync s) b (wv_targets t)) t)); [done|].
  intros w8 E8 Eh8 St8.
  set (g := λ r, with_sync s (with_import buffer r)).
  assert (wins w8 = alter (λ t, wv_with_targets (alter g b (wv_targets t)) t) obj (wins w5)) as E.
  { rewrite E8, (sm_wins _ _ S7), E6. apply map_eq. intros o. destruct (decide (o = obj)) as [->|].
    - rewrite !lookup_alter_eq. destruct (wins w5 !! obj); cbn; [|done]. unfold wv_with_targets. cbn.
      by rewrite alter_twice.
    - by rewrite !lookup_alter_ne. }
  assert (ep_same (a_host w5).2 (a_host w8).2) as Ee.
  { rewrite Eh8, <- Eh6. apply (sm_ep _ _ S7). }
  assert (step_ok w5 w8) as St by exact (transitivity St6 (transitivity (same_step _ _ S7) St8)).
  destruct Ha5 as (t5 & Ht5 & Hk5). destruct (arriving_books _ _ Ht5 Hk5) as (_ & _ & r & _ & _ & _ & _ & _ & _ & _ & Hr).
  assert (wins w8 !! obj = Some (wv_with_targets (alter g b (wv_targets t5)) t5)) as Ht8
    by (by rewrite E, lookup_alter_eq, Ht5).
  split; [split_and!|].
  - apply (arriving_target b g w5 w8); [by exists t5|done|done|]. intros t' r' _ _. unfold g, s. cbn.
    split_and!; [done|done|done|by eexists|by eexists].
  - destruct Ho as (t & Ht & Hc). rewrite <- (sm_wins _ _ S15), Ht5 in Ht. injection Ht as ->.
    eexists. split; [exact Ht8|]. done.
  - exists (wv_with_targets (alter g b (wv_targets t5)) t5), (g r). split; [done|]. cbn.
    by rewrite lookup_alter_eq, Hr.
  - apply (calm_alter _ _ _ _ E St). auto.
Qed.

(** *** It goes to the compositor *)

Definition ready w : Prop := arriving w ∧ open_at w ∧ sync_ready w.

Lemma same_ready w w' : same w w' → ready w → ready w'.
Proof.
  intros S1 (Ha & Ho & Hs). split_and!; [by apply (same_arriving w)|..]; unfold open_at, sync_ready; by rewrite (sm_wins _ _ S1).
Qed.

Lemma stays_on_target {A} missing absent (m : lane_method (K := host K) A) w :
  ready w → mild (lane_frame (@snd K (option DenialEndpoint))) m →
  stays (λ _, ready) (on_target missing absent obj b m) w.
Proof.
  intros (Ha & (t & Ht & Hc) & (t' & r & Ht' & Hr & s & Hs)) Hm. rewrite Ht in Ht'. injection Ht' as <-.
  destruct (wins_Some _ _ _ Ht) as (u & Hu & Eu).
  apply (wp_on_target _ _ _ _ _ _ _ u r s); [done|by rewrite <- Eu in Hr|done|done|].
  intros x w' s' E Eh St.
  assert (wins w' !! obj = Some (wv_with_targets (alter (with_sync (Some s')) b (wv_targets t)) t)) as Ht'
    by (by rewrite E, lookup_alter_eq, Ht).
  split; [split_and!|].
  - apply (arriving_target b _ _ _ Ha E); [rewrite Eh; apply ep_same_refl|]. intros t2 r2 _ _. cbn.
    split_and!; [done|done|done|by eexists|by eexists].
  - eexists. by split; [exact Ht'|].
  - eexists _, _. split; [exact Ht'|]. cbn. rewrite lookup_alter_eq, Hr. cbn. split; [done|]. by eexists.
  - apply (calm_alter _ _ _ _ E St). auto.
Qed.

(** A callback was asked for the frame. *)
Definition observed (feedback : option Z) w : Prop :=
  match feedback with
  | Some _ => ∃ t d v, wins w !! obj = Some t ∧ (f ∉ ff_frame <$> wv_feedback t) ∧ (a_host w).2 = Some d
              ∧ ep_view d !! obj = Some v ∧ f ∈ tv_tracked v
  | None => True
  end.

Lemma same_observed feedback w w' : same w w' → observed feedback w → observed feedback w'.
Proof.
  destruct feedback; [|done]. intros S1 (t & d & v & Ht & Hf & Hd & Hv & Hin). unfold observed.
  pose proof (sm_ep _ _ S1) as E. rewrite Hd in E. destruct (a_host w').2 as [d'|]; [|done]. destruct E as [E _].
  exists t, d', v. rewrite (sm_wins _ _ S1), E. done.
Qed.

Lemma stays_callback root w :
  ready w → stays (λ feedback w', ready w' ∧ observed feedback w') (frame_callback obj root f) w.
Proof.
  intros ((t & Ht & Hk) & Ho & Hs). destruct (arriving_books _ _ Ht Hk) as (d & v & r & Hd & Hb & Hi & Hv & Hw & Hvo & Hf & _).
  unfold frame_callback.
  apply stays_bind with (P := λ (tracked : bool) w', ready w' ∧ observed (if tracked then Some 0 else None) w').
  - apply (wp_endpoint _ _ _ _ Hd). eapply wp_mono; [by apply (track_presentation_view _ _ _ _ _ _ Hi Hv Hf)| |done].
    intros tracked [k d'] (Hi' & s & Ev & Htr). cbn in Ev, Hi'.
    assert (∀ g, g ∈ tv_tracked v → g ∈ s) as Hsub by (destruct tracked; [destruct Htr as [_ ->]; set_solver|by subst]).
    split; [|by apply calm_eq; [|apply step_host]]. split; [split_and!; [|done|done]|].
    + exists t. split; [done|]. change (books [] (<[obj := carrying t]> (wins w)) (Some d')).
      apply (books_step _ _ _ _ _ _ obj Hb Hi').
      * intros o Hne. by rewrite Ev, !lookup_insert_ne.
      * rewrite Ev, !lookup_insert_eq. apply (ok_tracked _ _ _ Hw). intros g Hg. by apply Hsub, (wk_tracked _ _ _ Hw).
    + destruct tracked; [|done]. destruct Htr as [Hn ->]. exists t, d', (with_tracked ({[f]} ∪ tv_tracked v) v).
      split_and!; [done| |done| |].
      * intros Hin. by apply Hn, (wk_tracked _ _ _ Hw).
      * by rewrite Ev, lookup_insert_eq.
      * cbn. set_solver.
  - intros [] w1 _ [Hr1 Ho1] C1; [|by apply stays_ret].
    apply stays_quiet_bind; [apply Quiet_at, _|]. intros _ w2 _ S2.
    apply stays_quiet_bind; [apply Quiet_at, _|]. intros proxy w3 _ S3.
    apply stays_quiet_bind; [apply Quiet_at, _|]. intros _ w4 _ S4. apply stays_ret.
    pose proof (transitivity S2 (transitivity S3 S4)) as S24.
    split; [by apply (same_ready w1)|]. apply (same_observed (Some 0) w1 w4 S24 Ho1).
Qed.

Definition shown (p : PendingFrame) (l : list FrameFeedback) (t : WinView) : WinView :=
  mkWin (wv_flags t) (wv_root t) (wv_layers t) (wv_waiting t) (alter (with_busy true) b (wv_targets t))
    (wv_pending t ++ [p]) l.

Definition shown_feedback (feedback : option FrameFeedback) (t : WinView) : list FrameFeedback :=
  match feedback with Some x => wv_feedback t ++ [x] | None => wv_feedback t end.

Lemma ok_shown t v p feedback :
  win_ok [] (carrying t) v → view_ok v → wv_closing t = false → frame_of p = wire a →
  (∀ r, wv_targets t !! b = Some r → is_Some (rt_sync r)) →
  match feedback with
  | Some x => ff_frame x = f ∧ (f ∉ ff_frame <$> wv_feedback t) ∧ f ∈ tv_tracked v
  | None => True
  end → win_ok [] (shown p (shown_feedback feedback t) t) v.
Proof.
  intros Hw Hvo Hc Hp Hs Hf. pose proof (ok_show _ _ _ Hw Hvo a (wv_waiting t) p eq_refl Hp Hs) as Hw'.
  pose proof (wk_feedback _ _ _ Hw) as Hn. pose proof (wk_tracked _ _ _ Hw) as Ht. cbn in Hn, Ht.
  destruct feedback as [x|]; [|exact Hw']. destruct Hf as (Ex & Hx & Hin).
  apply (ok_feedback _ _ _ Hw' (wv_feedback t ++ [x])).
  - rewrite fmap_app. apply NoDup_app. split_and!; [done| |apply NoDup_singleton].
    intros g Hg. cbn. rewrite list_elem_of_singleton. congruence.
  - intros g. rewrite fmap_app, elem_of_app. cbn. rewrite list_elem_of_singleton, Ex. intros [Hg| ->]; auto.
Qed.

Lemma stays_record point grant feedback w :
  ready w → observed feedback w →
  stays (λ _, sound) (update_window obj (record_frame a point grant feedback)) w.
Proof.
  intros ((t & Ht & Hk) & (t1 & Ht1 & Hc & _) & (t2 & r & Ht2 & Hr & Hsync)) Hobs.
  rewrite Ht in Ht1, Ht2. injection Ht1 as <-. injection Ht2 as <-.
  set (p := mkPendingFrame f b point).
  set (x := (λ proxy, mkFrameFeedback proxy f b (ta_identity <$> grant)) <$> feedback).
  apply (wp_updated _ _ (λ t, shown p (shown_feedback x t) t)).
  { intros u. unfold record_frame. by destruct feedback. }
  intros w' E Eh St. split; [|by apply (calm_alter _ _ _ _ E St); auto].
  unfold sound, kept. rewrite Eh, E, (alter_Some _ _ _ _ Ht).
  destruct (arriving_books _ _ Ht Hk) as (d & v & r' & Hd & Hb & Hi & Hv & Hw & Hvo & Hf & _).
  rewrite Hd. apply (books_step _ _ _ _ _ _ obj Hb Hi).
  - intros o Hne. by rewrite !lookup_insert_ne.
  - rewrite Hv, lookup_insert_eq. apply ok_shown; try done.
    + intros r2 Hr2. by simplify_eq.
    + destruct feedback as [proxy|]; [|done]. destruct Hobs as (t3 & d3 & v3 & Ht3 & Hf3 & Hd3 & Hv3 & Hin).
      by simplify_eq/=.
Qed.

Lemma mild_begin_frame fence : mild (lane_frame (@snd K (option DenialEndpoint))) (begin_frame obj fence).
Proof.
  unfold begin_frame. apply mild_bind; [by apply mild_pure|intros w]. apply mild_bind.
  { apply mild_lift. unfold frame_points. destruct (checked_add u64_max _ 1) as [x|]; cbn; [|done].
    by destruct (checked_add u64_max x 1). }
  intros [x r]. apply mild_bind; [by apply mild_pure|intros _].
  apply mild_bind; [apply mild_timeline, (@Keeps_attach _ _ (stream_ops obj) snd _)|intros _].
  apply mild_bind; [apply (@mild_arm_release _ _ (stream_ops obj) snd _)|intros _]. by apply mild_pure.
Qed.

Lemma quiet_content root w : live obj w → quiet_at (apply_content obj root) w.
Proof.
  intros Hl. unfold apply_content. apply quiet_bind; [by apply quiet_window|]. intros t w1 _ S1.
  destruct (bool_decide _); [apply Quiet_ret|]. apply Quiet_at, Quiet_bind; [|intros; by apply Quiet_update].
  destruct (tw_content_opaque t); [|apply _]. unfold opaque_region.
  apply Quiet_bind; [by apply Quiet_ok_or|intros size]. apply Quiet_bind; [apply _|intros _].
  apply Quiet_bind; [by apply Quiet_fail_if|intros _]. apply Quiet_bind; [by apply Quiet_fail_if|intros _]. apply _.
Qed.

Lemma quiet_points root points w : live obj w → quiet_at (set_points obj root points) w.
Proof.
  intros Hl. unfold set_points. destruct points as [[proxy x] r].
  apply quiet_bind; [by apply quiet_window|]. intros t w1 _ S1. apply Quiet_at.
  apply Quiet_bind; [|intros; apply _]. apply Quiet_when, Quiet_bind; [by apply Quiet_update|intros; apply _].
Qed.

Lemma quiet_attach root buffer hidden damage grant w :
  live obj w → quiet_at (attach_frame obj root buffer hidden damage grant) w.
Proof.
  intros Hl. unfold attach_frame.
  apply quiet_bind; [apply Quiet_at, _|]. intros _ w1 _ S1.
  apply quiet_bind; [by apply Quiet_at, Quiet_update|]. intros _ w2 _ S2.
  apply quiet_bind; [apply Quiet_at, _|]. intros _ w3 _ S3.
  apply quiet_bind; [apply Quiet_at, _|]. intros _ w4 _ S4.
  apply quiet_bind; [apply quiet_window|].
  { exact (live_same _ _ _ (transitivity S1 (transitivity S2 (transitivity S3 S4))) Hl). }
  intros t w5 _ S5. apply Quiet_at. apply Quiet_bind; [destruct grant; apply _|intros]. apply _.
Qed.

End frame.

(** ** Showing it *)

Section one.

Context (frame : AcceptedWireFrame).

#[local] Abbreviation obj := (aw_object frame).
#[local] Abbreviation f := (aw_frame frame).
#[local] Abbreviation b := (aw_buffer frame).

Lemma ready_idle w u :
  ready obj frame w → a_windows w !! obj = Some u →
  ∃ r, tw_targets u !! b = Some r ∧ rt_busy r = false ∧ rt_retired r = false.
Proof.
  intros ((t & Ht & Hk) & (t1 & Ht1 & Hc & _) & _) Hu. rewrite Ht in Ht1. injection Ht1 as <-.
  destruct (arriving_books _ _ _ _ Ht Hk) as (d & v & r & _ & _ & _ & _ & Hw & Hvo & _).
  destruct (waiting_idle _ _ _ Hw Hvo frame (wv_waiting t) eq_refl Hc) as (r' & Hr & H1 & H2).
  exists r'. split; [|done]. rewrite wins_lookup, Hu in Ht. injection Ht as <-. exact Hr.
Qed.

Lemma stays_show fence grant root w :
  ready obj frame w → stays (λ _, sound) (show_frame frame fence grant root) w.
Proof.
  intros Hr. unfold show_frame. cbv zeta. pose proof (arriving_live _ _ _ (proj1 Hr)) as Hl.
  apply stays_quiet_bind; [by apply quiet_content|]. intros _ w1 _ S1.
  apply stays_quiet_bind; [apply Quiet_at, _|]. intros hidden w2 _ S2.
  apply stays_quiet_bind; [apply Quiet_at, _|]. intros _ w3 _ S3.
  pose proof (same_ready _ _ _ _ (transitivity S1 (transitivity S2 S3)) Hr) as Hr3.
  destruct (arriving_live _ _ _ (proj1 Hr3)) as [[t Ht] _]. destruct (wins_Some _ _ _ Ht) as (u & Hu & _).
  apply (stays_window _ _ _ _ _ Hu). destruct (ready_idle _ _ Hr3 Hu) as (r & Hrt & Hb & Hret).
  apply (stays_Some _ _ _ _ _ _ Hrt). rewrite Hb, Hret. cbn [orb fail_if].
  apply stays_quiet_bind; [apply Quiet_at, _|]. intros _ w4 _ S4.
  apply (stays_bind (λ _, ready obj frame)); [apply stays_on_target; [by apply (same_ready _ _ w3)|apply mild_begin_frame]|].
  intros points w5 _ Hr5 _. pose proof (arriving_live _ _ _ (proj1 Hr5)) as Hl5.
  apply stays_quiet_bind; [by apply quiet_points|]. intros _ w6 _ S6.
  apply (stays_bind (λ feedback w', ready obj frame w' ∧ observed obj frame feedback w')).
  { apply stays_callback. by apply (same_ready _ _ w5). }
  intros feedback w7 _ [Hr7 Ho7] _.
  apply stays_quiet_bind; [apply quiet_attach, (arriving_live _ _ _ (proj1 Hr7))|]. intros _ w8 _ S8.
  apply (stays_bind (λ _, sound)).
  { apply (stays_record obj frame); [by apply (same_ready _ _ w7)|by apply (same_observed _ _ _ w7)]. }
  intros [] w9 _ Hs9 _.
  apply stays_quiet_bind; [apply Quiet_at, _|]. intros _ w10 _ S10.
  apply stays_quiet; [by apply Quiet_at, Quiet_mark|]. intros _ w11 _ S11.
  by apply (same_sound w9); [exact (transitivity S10 S11)|].
Qed.

Lemma accepts_open u : accepts u = true → closing u = false ∧ is_Some (surface u).
Proof.
  unfold accepts, accepts_present, closing, surface. destruct (lt_flags (tw_task u)) as [[a b'] c]. cbn.
  intros Ha. reflect. by destruct c; tauto.
Qed.

Lemma stays_present fence grant w :
  arriving obj frame w → stays (λ _, sound) (present frame fence grant) w.
Proof.
  intros Ha. unfold present. cbv zeta. pose proof Ha as (t & Ht & Hk). destruct (wins_Some _ _ _ Ht) as (u & Hu & Eu).
  apply (stays_window _ _ _ _ _ Hu). destruct (accepts u) eqn:Hacc; cbn [negb]; [|by apply stays_discard].
  assert (open_at obj w) as Ho.
  { exists t. split; [done|]. rewrite <- Eu. by apply accepts_open. }
  destruct (arriving_books _ _ _ _ Ht Hk) as (d & v & r & _ & _ & _ & _ & Hw & Hvo & _ & Hr).
  assert (tw_targets u !! b = Some r) as Hru by (by rewrite <- Eu in Hr). apply (stays_Some _ _ _ _ _ _ Hru).
  apply (stays_bind (λ _, ready obj frame)).
  - unfold app_when. destruct (bool_decide_reflect (rt_wayland r = None)) as [Hn|Hn]; [by apply stays_import|].
    apply stays_ret. split_and!; [done|done|]. exists t, r. split_and!; [done|done|].
    apply (wk_imported _ _ _ Hw b r Hr). by destruct (rt_wayland r); [eexists|].
  - intros [] w1 _ Hr1 C1.
    destruct (arriving_live _ _ _ (proj1 Hr1)) as [[t1 Ht1] _]. destruct (wins_Some _ _ _ Ht1) as (u1 & Hu1 & _).
    apply (stays_window _ _ _ _ _ Hu1). destruct Hr1 as (Ha1 & (t2 & Ht2 & Hc2 & root & Hroot) & Hs1).
    rewrite wins_lookup, Hu1 in Ht2. injection Ht2 as <-. apply (stays_Some _ _ _ _ _ root Hroot).
    apply stays_show. split_and!; [done| |done]. exists (win_view u1). rewrite wins_lookup, Hu1.
    split_and!; [done|done|by eexists].
Qed.

End one.

(** ** The invariant of the presenter *)

(** What holds besides the books. *)
Record base w : Prop := {
  base_urgent : urgent w;
  (** A frame waits at its own window. *)
  base_owned o t : wins w !! o = Some t → Forall (λ a, aw_object a = o) (wv_waiting t);
  base_fatal e : a_fatal w = Some e → fault e = false
}.

Record Inv w : Prop := {
  inv_sound : sound w;
  inv_base : base w
}.

Lemma calm_base w w' : calm w w' → base w → base w'.
Proof.
  intros C1 [Hu Ho Hf]. split; [by apply (calm_urgent w)| |].
  - intros o t Ht. pose proof (cm_wins _ _ C1 o) as E. rewrite Ht in E. destruct E as (u & Hw & _ & E).
    specialize (Ho o u Hw). destruct E as [-> | ->]; [constructor|done].
  - intros e. rewrite (st_fatal _ _ (cm_step _ _ C1)). apply Hf.
Qed.

Lemma calm_inv w w' : calm w w' → sound w' → base w → Inv w'.
Proof. intros C1 Hs Hb. split; [done|by apply (calm_base w)]. Qed.

Lemma stays_inv {A} (m : app A) w : base w → stays (λ _, sound) m w → wp m (λ _, Inv) nofault w.
Proof. intros Hi Hm. eapply wp_mono; [exact Hm| |done]. intros a w' [H1 H2]. by apply (calm_inv w). Qed.

Lemma Inv_quiet {A} (m : app A) w : Inv w → quiet_at m w → wp m (λ _, Inv) nofault w.
Proof. intros [Hs Hb] Hq. apply stays_inv; [done|]. by apply settles_quiet. Qed.

Lemma same_base w w' : same w w' → base w → base w'.
Proof. intros S1. apply calm_base. by apply same_calm. Qed.

Lemma inv_same w w' : same w w' → Inv w → Inv w'.
Proof. intros S1 [Hs Hb]. split; [by apply (same_sound w)|by apply (same_base w)]. Qed.

(** ** Queueing *)

Lemma wp_queue frame fence w :
  base w → arriving (aw_object frame) frame w →
  wp (queue_present frame fence) (λ _, Inv) nofault w.
Proof.
  intros Hi Ha. unfold queue_present. cbv zeta. set (obj := aw_object frame) in *.
  destruct (arriving_live _ _ _ Ha) as [[t Ht] _]. destruct (wins_Some _ _ _ Ht) as (u & Hu & Eu).
  apply (wp_window _ _ _ _ _ Hu). destruct (negb _ || _) eqn:Hx.
  { apply stays_inv; [done|]. by apply stays_present. }
  reflect. destruct Hx as [_ Hacc]. apply wp_bind, wp_get.
  eapply wp_seq; [apply wp_quiet, quiet_abort_wait|]. intros [] w1 S1.
  pose proof (same_base _ _ S1 Hi) as Hi1. pose proof (same_arriving _ _ _ _ S1 Ha) as (t1 & Ht1 & Hk1).
  destruct (wins_Some _ _ _ Ht1) as (u1 & Hu1 & Eu1). apply (wp_window _ _ _ _ _ Hu1).
  assert (wv_closing t1 = false) as Hopen.
  { rewrite (sm_wins _ _ S1), Ht in Ht1. injection Ht1 as <-. rewrite <- Eu. by apply accepts_open. }
  apply (wp_update _ _ (wv_with_waiting [frame])); [done|]. intros w2 E2 Eh2 St2 _ _.
  assert (wins w2 = <[obj := wv_with_waiting [frame] t1]> (wins w1)) as Ew2 by (by rewrite E2, (alter_Some _ _ _ _ Ht1)).
  apply wp_seq with (P := λ _ w3, sound w3 ∧ wins w3 = wins w2 ∧ step_ok w2 w3).
  - set (m := <[obj := carrying frame t1]> (wins w1)) in *.
    assert (kept [] m w2) as Hk2 by (unfold kept; by rewrite Eh2).
    assert (wv_waiting t1 = queued_frame (lt_queued (tw_task u1))) as Eq by by rewrite <- Eu1.
    destruct (lt_queued (tw_task u1)) as [q|]; cbn in Eq.
    + eapply wp_mono; [apply (wp_discard [] m obj (carrying frame t1) (qf_frame q) [frame] [] w2 Hk2); [apply lookup_insert_eq|cbn; by rewrite Eq]| |done].
      intros [] w3 (H1 & H2 & H3). unfold m in H1. rewrite insert_insert_eq in H1. split_and!; [|by apply wins_eq|done].
      unfold sound. by rewrite (wins_eq _ _ H2), Ew2.
    + apply wp_ret. split_and!; [|done|reflexivity]. unfold sound. rewrite Ew2. unfold m, carrying in Hk2. by rewrite Eq in Hk2.
  - intros [] w3 (H1 & H2 & H3). eapply wp_mono; [by apply wp_quiet, Quiet_at, Quiet_mark| |done]. intros [] w4 S4.
    apply (inv_same w3); [done|]. pose proof (transitivity St2 H3) as St3. split; [done|split].
    + intros o t3. rewrite H2, Ew2, (st_bits _ _ St3). destruct (decide (o = obj)) as [->|Hne].
      * rewrite lookup_insert_eq. intros [= <-]. unfold wv_closing in *. cbn. by rewrite Hopen.
      * rewrite lookup_insert_ne by done. apply Hi1.
    + intros o t3. rewrite H2, Ew2. destruct (decide (o = obj)) as [->|Hne].
      * rewrite lookup_insert_eq. intros [= <-]. cbn. by constructor.
      * rewrite lookup_insert_ne by done. apply Hi1.
    + intros e. rewrite (st_fatal _ _ St3). apply Hi1.
Qed.

(** A frame that waited is shown with its grant. *)
Lemma stays_flush obj w : Inv w → stays (λ _, sound) (flush_timeline_frame obj) w.
Proof.
  intros Hi. pose proof (inv_sound _ Hi) as Hs. unfold flush_timeline_frame. apply stays_get.
  destruct (a_windows w !! obj) as [u|] eqn:Hu; [|by apply stays_ret].
  destruct (lt_queued (tw_task u)) as [q|] eqn:Hq; [|by apply stays_ret]. destruct (64 <=? _); [by apply stays_ret|].
  apply stays_quiet_bind; [apply Quiet_at, _|]. intros now w1 _ S1.
  destruct (reserve _ _) as [timeline reserved].
  apply stays_quiet_bind; [by apply Quiet_at, Quiet_update|]. intros _ w2 _ S2.
  pose proof (transitivity S1 S2) as S12. pose proof (same_sound _ _ S12 Hs) as Hs2.
  destruct reserved as [target|]; [|by apply stays_ret].
  assert (wins w2 !! obj = Some (win_view u)) as Ht2 by (by rewrite (sm_wins _ _ S12), wins_lookup, Hu).
  assert (wv_waiting (win_view u) = [qf_frame q]) as Hwait by (cbn; by rewrite Hq).
  assert (aw_object (qf_frame q) = obj) as Eobj.
  { pose proof (base_owned _ (inv_base _ Hi) obj (win_view u)) as Hown. rewrite wins_lookup, Hu, Hwait in Hown.
    specialize (Hown eq_refl). by apply Forall_cons in Hown as [? _]. }
  apply (wp_update _ _ (wv_with_waiting [])); [done|]. intros w3 E3 Eh3 St3 _ _.
  assert (wins w3 = <[obj := wv_with_waiting [] (win_view u)]> (wins w2)) as Ew3 by (by rewrite E3, (alter_Some _ _ _ _ Ht2)).
  assert (arriving obj (qf_frame q) w3) as Ha.
  { exists (wv_with_waiting [] (win_view u)). rewrite Ew3, lookup_insert_eq, insert_insert_eq. split; [done|].
    unfold kept. rewrite Eh3. rewrite insert_id; [exact Hs2|]. rewrite Ht2. f_equal.
    unfold carrying, wv_with_waiting, win_view. cbn. by rewrite Hq. }
  assert (calm w2 w3) as C3 by (apply (calm_alter _ _ _ _ E3 St3); auto).
  apply (stays_after _ _ _ _ C3). apply stays_quiet_bind; [apply Quiet_at, _|]. intros _ w4 _ S4.
  rewrite <- Eobj in Ha. apply stays_present. by apply (same_arriving _ _ w3).
Qed.

End show.
