(* ===== verification/HostLife.v ===== *)
(** * The end of a window

    Unmapping and removing windows and returning buffers: a closing window
    leaves when nothing of it is outstanding, and every frame the compositor
    released is given back to the endpoint exactly once. *)

From S2P Require Import Hoare Transport Protocol TaskState Ipc Endpoint EndpointProofs EndpointSpec EndpointView PresenterWork PresenterTime.
From S2P Require Import Bytes Syncobj FrameGrants LayerStream LayerPresenter LayerFrame HostApp HostFrames HostTurn HostView HostQuiet HostBooks HostSteps HostPool HostShow Prelude.

Section life.

Context {K : Type} `{HostOps K}.

Abbreviation App := (HostApp.App K).
Abbreviation app := (HostApp.app (K := K)).
Implicit Types w : App.

(** ** Unmapping *)

(** No frame of the window waits. *)
Definition idle obj w : Prop := ∀ t, wins w !! obj = Some t → wv_waiting t = [].

Lemma calm_idle obj w w' : calm w w' → idle obj w → idle obj w'.
Proof.
  intros [_ E] Hi t Ht. specialize (E obj). rewrite Ht in E. destruct E as (u & Hu & _ & [->|E]); [done|].
  rewrite E. by apply Hi.
Qed.

Lemma same_idle obj w w' : same w w' → idle obj w → idle obj w'.
Proof. intros S1. apply calm_idle. by apply same_calm. Qed.

Lemma stays_unmapped obj w : sound w → stays (λ _, sound) (update_window obj (update_layer_task unmapped)) w.
Proof.
  intros Hs. apply (wp_updated _ _ (λ t, wv_with_flags ((wv_flags t).1.1, false, (wv_flags t).2) None t)); [done|].
  intros w' E Eh St. split; [|by apply (calm_alter _ _ _ _ E St); auto].
  unfold sound, kept. rewrite Eh, E. apply kept_alter; [done|]. intros d t _ _ Ha.
  destruct (ep_view d !! obj) as [v|]; [|done]. by apply ok_flags.
Qed.

Lemma stays_unmap obj w :
  sound w → is_Some (wins w !! obj) → stays (λ _ w', sound w' ∧ idle obj w') (unmap_task_window obj) w.
Proof.
  intros Hs Hl. unfold unmap_task_window.
  apply (stays_bind (λ _ w', sound w' ∧ idle obj w')).
  { eapply wp_mono; [by apply wp_abort| |done]. intros [] w' (H1 & H2 & H3). split.
    - split; [done|]. intros t. rewrite H2, lookup_alter_eq. destruct (wins w !! obj); cbn; [|done]. by intros [= <-].
    - apply (calm_alter _ _ _ _ H2 H3). auto. }
  intros [] w1 _ [Hs1 Hi1] C1. pose proof (calm_wins _ _ _ C1 Hl) as Hl1.
  apply stays_quiet_bind; [apply Quiet_at, _|]. intros _ w2 _ S2.
  apply stays_quiet_bind; [apply Quiet_at, Quiet_modify; intros; by apply same_start|]. intros _ w3 _ S3.
  pose proof (transitivity S2 S3) as S23. pose proof (same_sound _ _ S23 Hs1) as Hs3.
  assert (is_Some (wins w3 !! obj)) as Hl3 by (by rewrite (sm_wins _ _ S23)).
  destruct Hl3 as [t3 Ht3]. destruct (wins_Some _ _ _ Ht3) as (u & Hu & _). apply (stays_window _ _ _ _ _ Hu).
  apply stays_quiet_bind; [by apply Quiet_at, Quiet_update|]. intros _ w4 _ S4.
  pose proof (transitivity S23 S4) as S24. pose proof (same_sound _ _ S24 Hs1) as Hs4.
  pose proof (same_idle _ _ _ S24 Hi1) as Hi4.
  destruct (surface u) as [root|]; [|by apply stays_ret].
  apply stays_quiet_bind; [apply Quiet_at, _|]. intros _ w5 _ S5.
  apply stays_quiet_bind; [apply Quiet_at, _|]. intros _ w6 _ S6.
  apply stays_quiet_bind; [by apply Quiet_at, Quiet_update|]. intros _ w7 _ S7.
  apply stays_quiet_bind; [apply Quiet_at, _|]. intros _ w8 _ S8.
  pose proof (transitivity S5 (transitivity S6 (transitivity S7 S8))) as S58.
  pose proof (same_sound _ _ S58 Hs4) as Hs8. pose proof (same_idle _ _ _ S58 Hi4) as Hi8.
  apply stays_quiet_bind; [apply quiet_window, sound_wins; [done|]|].
  { rewrite (sm_wins _ _ S58), (sm_wins _ _ S24). done. }
  intros t9 w9 _ S9.
  apply stays_quiet_bind; [apply Quiet_at, _|]. intros _ w10 _ S10.
  apply stays_quiet_bind; [apply Quiet_at, _|]. intros _ w11 _ S11.
  pose proof (transitivity S9 (transitivity S10 S11)) as S911.
  apply (stays_bind (λ _, sound)); [by apply stays_unmapped, (same_sound w8)|]. intros [] w12 _ Hs12 C12.
  apply stays_quiet_bind; [by apply Quiet_at, Quiet_mark|]. intros _ w13 _ S13.
  apply stays_quiet; [apply Quiet_at, _|]. intros _ w14 _ S14. pose proof (transitivity S13 S14) as S1314.
  split; [by apply (same_sound w12)|]. apply (same_idle _ w12); [done|]. apply (calm_idle _ _ _ C12).
  by apply (same_idle _ w8).
Qed.

(** ** Removing a window *)

(** No unmap request appears. *)
Definition fewer w w' : Prop := ∀ o, unmap_bit w' o = true → unmap_bit w o = true.

#[global] Instance fewer_preorder : PreOrder fewer.
Proof. split; [by intros w o|]. intros w1 w2 w3 H1 H2 o Ho. auto. Qed.

Lemma step_fewer w w' : step_ok w w' → fewer w w'.
Proof. intros S1 o. by rewrite (st_bits _ _ S1). Qed.

Lemma wp_guarded_quiet m w :
  Inv w → quiet_at m w → wp (guarded m) (λ _ w', Inv w' ∧ fewer w w') nofault w.
Proof.
  intros Hi [Hs He]. unfold guarded. apply wp_bind, wp_attempt. intros w' r E. rewrite E in Hs, He. cbn in *.
  pose proof (inv_same _ _ Hs Hi) as Hi'. pose proof (step_fewer _ _ (same_step _ _ Hs)) as Hf.
  destruct r as [a|e]; [by apply wp_ret|]. apply wp_modify. split; [|done].
  destruct Hi' as [H1 [H2 H3 H4]]. split; [done|split; [done|done|]]. intros x [= <-]. by apply He.
Qed.

(** The readiness of a removed task is dropped. *)
Lemma drop_bits obj w : fewer w (with_work (Readiness.remove_task obj (a_work w)) w).
Proof.
  intros o. unfold unmap_bit, has_bit. cbn. destruct (decide (o = obj)) as [->|Hne].
  - by rewrite lookup_delete_eq.
  - by rewrite lookup_delete_ne.
Qed.

Lemma drop_bits_eq obj o w : o ≠ obj → unmap_bit (with_work (Readiness.remove_task obj (a_work w)) w) o = unmap_bit w o.
Proof. intros Hne. unfold unmap_bit, has_bit. cbn. by rewrite lookup_delete_ne. Qed.

Lemma sound_delete obj w w' t :
  sound w → wins w !! obj = Some t → wv_closing t = true → owed [] t = [] →
  wins w' = delete obj (wins w) → a_host w' = a_host w → sound w'.
Proof.
  intros Hs Ht Hc Ho E Eh. unfold sound, kept in *. rewrite Eh, E. destruct (a_host w).2 as [d|].
  2:{ cbn in *. by rewrite Hs, delete_empty. }
  apply (books_step _ _ _ _ _ _ obj Hs (proj1 Hs)).
  - intros o Hne. by rewrite lookup_delete_ne.
  - rewrite lookup_delete_eq. pose proof (books_at _ _ _ _ _ Hs Ht) as Ha.
    destruct (ep_view d !! obj) as [v|]; [|done]. destruct Ha as [Hw Hvo].
    pose proof (wk_frames _ _ _ Hw) as Hf. unfold held in Hf. cbn in Hf. rewrite Ho in Hf.
    apply Permutation_nil_r in Hf. apply map_to_list_empty_iff in Hf.
    destruct (vo_draining _ Hvo); [|done]. by rewrite (wk_retiring _ _ _ Hw).
Qed.

Lemma wp_remove obj w t :
  Inv w → wins w !! obj = Some t → wv_closing t = true → wv_pending t = [] → wv_waiting t = [] →
  wp (remove_task obj) (λ _ w', Inv w' ∧ fewer w w') nofault w.
Proof.
  intros Hi Ht Hc Hp Hw. unfold remove_task. eapply wp_seq; [apply wp_retire_feedback, Hi|].
  intros [] w1 (Hk1 & E1 & St1). eapply wp_seq; [apply wp_quiet, Quiet_at, _|]. intros [] w2 S2.
  assert (Inv w2) as Hi2.
  { apply (inv_same w1); [done|]. apply (calm_inv w); [|done|apply Hi]. by apply (calm_alter _ _ _ _ E1 St1); auto. }
  assert (wins w2 !! obj = Some (wv_with_feedback [] t)) as Ht2 by (by rewrite (sm_wins _ _ S2), E1, lookup_alter_eq, Ht).
  assert (fewer w w2) as F2 by (apply step_fewer; exact (transitivity St1 (same_step _ _ S2))).
  apply wp_bind, wp_modify, wp_bind, wp_get. cbn [with_tokens with_work a_windows a_host].
  destruct (wins_Some _ _ _ Ht2) as (u & Hu & Eu). rewrite Hu.
  eapply (wp_seq _ _ (λ _ w', Inv w' ∧ fewer w w' ∧ ep_same (a_host w2).2 (a_host w').2)).
  - apply wp_bind, wp_modify. set (w3 := with_windows _ _).
    assert (fewer w w3) as F3 by (apply (transitivity F2); exact (drop_bits obj w2)).
    assert (wins w3 = delete obj (wins w2)) as E3 by (unfold wins; cbn; by rewrite fmap_delete).
    assert (Inv w3) as Hi3.
    { destruct Hi2 as [H1 [H2 H3 H4]]. split; [|split].
      - apply (sound_delete obj w2 w3 _ H1 Ht2); [done| |done|done]. unfold owed. cbn. by rewrite Hp, Hw.
      - intros o t3. rewrite E3. intros [Hne Ho]%lookup_delete_Some Hc3 Hw3.
        rewrite <- (H2 o t3 Ho Hc3 Hw3). by apply drop_bits_eq.
      - intros o t3. rewrite E3. intros [Hne Ho]%lookup_delete_Some. by apply H3.
      - exact H4. }
    apply (wp_mono _ (λ _, same w3) _ nofault).
    + apply wp_quiet. apply quiet_bind; [|intros; apply Quiet_at, _]. apply Quiet_at. destruct (surface u); apply _.
    + intros [] w4 S4. split; [by apply (inv_same w3)|]. split; [|exact (sm_ep _ _ S4)].
      apply (transitivity F3), step_fewer, (same_step _ _ S4).
    + done.
  - intros [] w4 (Hi4 & F4 & Ep4). eapply wp_seq; [apply wp_quiet, Quiet_at, _|]. intros [] w5 S5.
    pose proof (inv_same _ _ S5 Hi4) as Hi5. pose proof (transitivity F4 (step_fewer _ _ (same_step _ _ S5))) as F5.
    destruct (a_host w2).2 as [d|] eqn:Hd; [|by apply wp_ret].
    eapply wp_mono; [apply wp_guarded_quiet, quiet_output_refreshes; [done|]| |done].
    + apply (st_ep _ _ (same_step _ _ S5)). destruct (a_host w4).2; [by eexists|done].
    + intros [] w6 [H1 H2]. split; [done|exact (transitivity F5 H2)].
Qed.

Lemma wp_remove_finished obj w :
  Inv w → (∀ t, wins w !! obj = Some t → wv_closing t = true → wv_waiting t = []) →
  wp (remove_finished obj) (λ _ w', Inv w' ∧ fewer w w') nofault w.
Proof.
  intros Hi Hw. unfold remove_finished. apply wp_bind, wp_get.
  destruct (a_windows w !! obj) as [u|] eqn:Hu; [|by apply wp_ret].
  destruct (finished u) eqn:Hf; [|by apply wp_ret]. unfold finished in Hf. reflect.
  assert (wins w !! obj = Some (win_view u)) as Ht by (by rewrite wins_lookup, Hu).
  apply (wp_remove obj w (win_view u)); [done|done|tauto|tauto|]. apply Hw; [done|tauto].
Qed.

(** ** Loops over tasks with a kind of work *)

Lemma ready_length n (r r' : Readiness.Tasks) :
  0 ≤ n → (∀ o, has_bit n r' o = true → has_bit n r o = true) →
  (length (PresenterSpec.ready_objects (2 ^ n) (Readiness.ready r'))
   ≤ length (PresenterSpec.ready_objects (2 ^ n) (Readiness.ready r)))%nat.
Proof.
  intros Hn Hb. apply submseteq_length, NoDup_submseteq; [apply PresenterSpec.ready_objects_sorted|].
  intros o. rewrite !PresenterSpec.ready_objects_elem. intros (bits & Ho & Hl).
  specialize (Hb o). unfold has_bit in Hb. rewrite Ho in Hb. cbn in Hb. apply land_pow2 in Hl; [|done].
  specialize (Hb Hl). destruct (Readiness.ready r !! o) as [bits'|]; cbn in Hb; [|by rewrite Z.bits_0 in Hb].
  exists bits'. split; [done|]. by apply land_pow2.
Qed.

Lemma pop_run n w w' o :
  0 ≤ n → pop (2 ^ n) w = (w', Ok (Some o)) →
  ∃ r, w' = with_work r w ∧ has_bit n (a_work w) o = true
    ∧ (∀ m o', has_bit m r o' = has_bit m (a_work w) o' && negb (bool_decide (o' = o) && (m =? n)))
    ∧ (length (PresenterSpec.ready_objects (2 ^ n) (Readiness.ready r))
       < length (PresenterSpec.ready_objects (2 ^ n) (Readiness.ready (a_work w))))%nat.
Proof.
  intros Hn. unfold pop. destruct (Readiness.pop (2 ^ n) (a_work w)) as [r x] eqn:E. intros [= <- ->].
  exists r. split; [done|]. by apply pop_Some.
Qed.

Lemma pop_end n w w' : 0 ≤ n → pop (2 ^ n) w = (w', Ok None) → w' = w ∧ ∀ o, has_bit n (a_work w) o = false.
Proof.
  intros Hn. unfold pop. destruct (Readiness.pop (2 ^ n) (a_work w)) as [r x] eqn:E. intros [= <- ->].
  apply pop_None in E as [-> Hb]; [|done]. split; [by destruct w|done].
Qed.

(** One turn for every task is enough when the body queues no such work. *)
Lemma wp_pop_loop n (I : App → Prop) body turns : ∀ w,
  0 ≤ n →
  (∀ o w1 w2, I w1 → pop (2 ^ n) w1 = (w2, Ok (Some o)) →
     wp (body o) (λ _ w3, I w3 ∧ ∀ o', has_bit n (a_work w3) o' = true → has_bit n (a_work w2) o' = true) nofault w2) →
  I w → (length (PresenterSpec.ready_objects (2 ^ n) (Readiness.ready (a_work w))) < turns)%nat →
  wp (pop_loop (2 ^ n) turns body) (λ _ w', I w' ∧ ∀ o, has_bit n (a_work w') o = false) nofault w.
Proof.
  induction turns as [|turns IH]; intros w Hn Hb Hi Hl; cbn [pop_loop]; [lia|].
  unfold wp at 1, mbind at 1, method_bind at 1. destruct (pop (2 ^ n) w) as [w1 [[o|]|e]] eqn:E.
  - pose proof (Hb o w w1 Hi E) as Hw. destruct (pop_run _ _ _ _ Hn E) as (r & -> & _ & _ & Hlt).
    change (wp (_ ← body o; pop_loop (2 ^ n) turns body)
              (λ _ w', I w' ∧ ∀ o, has_bit n (a_work w') o = false) nofault (with_work r w)).
    eapply wp_seq; [exact Hw|]. intros [] w2 [Hi2 Hf]. apply IH; [done|done|done|].
    pose proof (ready_length n r (a_work w2) Hn Hf). lia.
  - destruct (pop_end _ _ _ Hn E) as [-> Hz]. done.
  - unfold pop in E. by destruct (Readiness.pop _ _).
Qed.

Lemma wp_while n (I : App → Prop) body w :
  0 ≤ n →
  (∀ o w1 w2, I w1 → pop (2 ^ n) w1 = (w2, Ok (Some o)) →
     wp (body o) (λ _ w3, I w3 ∧ ∀ o', has_bit n (a_work w3) o' = true → has_bit n (a_work w2) o' = true) nofault w2) →
  I w → wp (while_work (2 ^ n) body) (λ _ w', I w' ∧ ∀ o, has_bit n (a_work w') o = false) nofault w.
Proof.
  intros Hn Hb Hi. unfold while_work. apply wp_bind, wp_get. apply wp_pop_loop; [done|done|done|].
  pose proof (ready_objects_length n (a_work w)). lia.
Qed.

(** *** Unmapping every window that is to go *)

Definition quiescent w : Prop := Inv w ∧ ∀ o, unmap_bit w o = false.

Lemma wp_unmap_task o w1 w2 :
  Inv w1 → pop (2 ^ 4) w1 = (w2, Ok (Some o)) →
  wp (unmap_requested_task o)
     (λ _ w3, Inv w3 ∧ ∀ o', has_bit 4 (a_work w3) o' = true → has_bit 4 (a_work w2) o' = true) nofault w2.
Proof.
  intros Hi E. destruct (pop_run 4 _ _ _ ltac:(lia) E) as (r & -> & Hb & Hbits & _). set (w2 := with_work r w1).
  assert (∀ o', o' ≠ o → unmap_bit w2 o' = unmap_bit w1 o') as Hne.
  { intros o' Hx. change (has_bit 4 r o' = has_bit 4 (a_work w1) o'). rewrite Hbits, bool_decide_false by done. apply andb_true_r. }
  unfold unmap_requested_task. apply wp_bind, wp_get. cbn [with_work a_windows].
  destruct Hi as [H1 [H2 H3 H4]]. destruct (a_windows w2 !! o) as [u|] eqn:Hu.
  - eapply wp_seq; [apply stays_unmap; [exact H1|rewrite wins_lookup, Hu; by eexists]|].
    intros [] w3 [[Hs3 Hi3] C3].
    assert (Inv w3) as Hinv.
    { split; [done|split].
      - intros o' t Ht Hc Hw. pose proof (cm_wins _ _ C3 o') as Ec. rewrite Ht in Ec.
        destruct Ec as (t2 & Ht2 & Ec & Ew). destruct (decide (o' = o)) as [->|Hx]; [by specialize (Hi3 t Ht)|].
        rewrite (st_bits _ _ (cm_step _ _ C3)), Hne by done. apply (H2 o' t2 Ht2); [congruence|].
        destruct Ew as [Ew|Ew]; [done|by rewrite <- Ew].
      - intros o' t Ht. pose proof (cm_wins _ _ C3 o') as Ec. rewrite Ht in Ec.
        destruct Ec as (t2 & Ht2 & _ & [-> | ->]); [constructor|by apply (H3 o')].
      - intros e. rewrite (st_fatal _ _ (cm_step _ _ C3)). apply H4. }
    eapply wp_mono; [apply wp_remove_finished; [done|]| |done].
    + intros t Ht _. by apply Hi3.
    + intros [] w4 [H5 H6]. split; [done|]. intros o' Ho. apply H6 in Ho.
      by rewrite (st_bits _ _ (cm_step _ _ C3)) in Ho.
  - apply wp_ret. split; [|done]. split; [done|split; [|done|done]].
    intros o' t Ht Hc Hw. destruct (decide (o' = o)) as [->|Hx]; [|rewrite Hne by done; by eapply H2].
    rewrite wins_lookup, Hu in Ht. done.
Qed.

Lemma wp_unmap_requested w : Inv w → wp unmap_requested_tasks (λ _, quiescent) nofault w.
Proof. intros Hi. apply (wp_while 4 Inv); [lia|apply wp_unmap_task|done]. Qed.

(** *** Removing every finished window *)

Lemma wp_while_any n (I : App → Prop) body w :
  0 ≤ n → n ≠ 4 → (∀ w1 w2, same w1 w2 → I w1 → I w2) → (∀ o w', I w' → wp (body o) (λ _, I) nofault w') →
  I w → wp (while_work (2 ^ n) body) (λ _, I) nofault w.
Proof.
  intros Hn Hne Hs Hb Hi. unfold while_work. apply wp_bind, wp_get. generalize (S (size (Readiness.ready (a_work w)))).
  intros turns. revert w Hi. induction turns as [|turns IH]; intros w Hi; cbn [pop_loop]; [by apply wp_ret|].
  apply wp_quiet_bind.
  { split; [by apply pop_same|]. intros e. unfold pop. by destruct (Readiness.pop _ _). }
  intros [o|] w1 _ S1; [|by apply wp_ret, (Hs w)]. eapply wp_seq; [by apply Hb, (Hs w)|]. intros [] w2 Hi2. by apply IH.
Qed.

Lemma same_quiescent w w' : same w w' → quiescent w → quiescent w'.
Proof. intros S1 [H1 H2]. split; [by apply (inv_same w)|]. intros o. by rewrite (sm_bits _ _ S1). Qed.

Lemma quiescent_fewer w w' : fewer w w' → (∀ o, unmap_bit w o = false) → ∀ o, unmap_bit w' o = false.
Proof. intros Hf Hb o. destruct (unmap_bit w' o) eqn:E; [|done]. apply Hf in E. by rewrite Hb in E. Qed.

Lemma wp_cleanup w : quiescent w → wp (while_work Readiness.CLEANUP remove_finished) (λ _, quiescent) nofault w.
Proof.
  apply (wp_while_any 5 quiescent); [lia|lia|apply same_quiescent|]. intros o w' [Hi Hb].
  eapply wp_mono; [apply wp_remove_finished; [done|]| |done].
  - intros t Ht Hc. destruct (wv_waiting t) as [|a l] eqn:E; [done|]. exfalso.
    assert (unmap_bit w' o = true) as Hx by (apply (base_urgent _ (inv_base _ Hi) o t Ht Hc); by rewrite E). by rewrite Hb in Hx.
  - intros [] w2 [H1 H2]. split; [done|]. by apply (quiescent_fewer w').
Qed.

End life.
