(* ===== verification/HostReturn.v ===== *)
(** * Returning buffers

    The frames whose release point the kernel reports signalled leave the
    windows' lists and are given back to the endpoint; a returned buffer of a
    retired target leaves the pool. *)

From S2P Require Import Hoare Transport Protocol TaskState Ipc Endpoint EndpointProofs EndpointSpec EndpointView PresenterWork PresenterTime.
From S2P Require Import Bytes Syncobj FrameGrants LayerStream LayerPresenter LayerFrame HostApp HostFrames HostTurn HostView HostQuiet HostBooks HostSteps HostPool HostShow HostLife Prelude.

Section collect.

Context {K : Type} `{HostOps K}.

Abbreviation App := (HostApp.App K).
Abbreviation app := (HostApp.app (K := K)).
Implicit Types w : App.

(** The frames [hs] are in the hand of the loop. *)
Definition holding (hs : list (TaskObjectId * PendingFrame)) w : Prop :=
  kept hs (wins w) w ∧ (hs = [] ∨ is_Some (a_host w).2).

Lemma same_holding hs w w' : same w w' → holding hs w → holding hs w'.
Proof.
  intros S1 [Hs He]. split; [rewrite (sm_wins _ _ S1); by apply (kept_same _ _ _ _ S1)|].
  destruct He as [He|He]; [by left|right]. by apply (st_ep _ _ (same_step _ _ S1)).
Qed.

(** A window with frames outstanding has its task. *)
Lemma holding_books hs w obj t :
  holding hs w → wins w !! obj = Some t → owed (held hs obj) t ≠ [] →
  ∃ d v, (a_host w).2 = Some d ∧ books hs (wins w) (Some d) ∧ ep_view d !! obj = Some v
    ∧ win_ok (held hs obj) t v ∧ view_ok v.
Proof.
  unfold holding, kept. intros [Hk _] Ht Ho. destruct (a_host w).2 as [d|].
  2:{ cbn in Hk. by rewrite Hk, lookup_empty in Ht. }
  destruct (books_open _ _ _ _ _ Hk Ht) as (v & Hv & Hw & Hvo); [by right|]. by exists d, v.
Qed.

Lemma holding_target hs obj b s' w w' :
  holding hs w → wins w' = alter (λ t, wv_with_targets (alter (with_sync (Some s')) b (wv_targets t)) t) obj (wins w) →
  (a_host w').2 = (a_host w).2 → holding hs w'.
Proof.
  intros [Hk He] E Eh. unfold holding, kept. rewrite Eh, E. split; [|done]. apply kept_alter; [exact Hk|].
  intros d t _ _ Ha. destruct (ep_view d !! obj) as [v|]; [|done]. apply ok_target; [done|]. intros r _. cbn.
  split_and!; [done|done|done|by eexists|by eexists].
Qed.

(** ** Collecting *)

(** A signalled frame leaves the window's list. *)
Lemma ok_collect h t v index p :
  win_ok h t v → wv_pending t !! index = Some p →
  win_ok (h ++ [frame_of p]) (wv_with_pending (delete index (wv_pending t)) t) v.
Proof.
  intros Hw Hp. pose proof (delete_Permutation _ _ _ Hp) as Hd. destruct Hw. split; cbn; try done.
  - rewrite wk_frames. unfold owed. cbn. rewrite Hd at 1. cbn. rewrite !app_assoc.
    by rewrite (Permutation_app_comm _ [frame_of p]).
  - intros b r Hr. rewrite (wk_busy _ _ Hr). rewrite Hd at 1. cbn. rewrite fmap_app. cbn. set_solver.
Qed.

Lemma stays_drop_pending hs obj index p w t :
  holding hs w → wins w !! obj = Some t → wv_pending t !! index = Some p →
  stays (λ _ w', holding (hs ++ [(obj, p)]) w')
    (update_window obj (λ t, set_frames (delete index (tw_pending t)) (tw_feedback t) t)) w.
Proof.
  intros Hk Ht Hp. apply (wp_updated _ _ (λ t, wv_with_pending (delete index (wv_pending t)) t)); [done|].
  intros w' E Eh St. split; [|by apply (calm_alter _ _ _ _ E St); auto].
  destruct (holding_books _ _ _ _ Hk Ht) as (d & v & Hd & Hb & Hv & Hw & Hvo).
  { unfold owed. intros En. apply List.app_eq_nil in En as [En _]. apply fmap_nil_inv in En. by rewrite En in Hp. }
  unfold holding, kept. rewrite Eh, Hd, E, (alter_Some _ _ _ _ Ht). split; [|right; by eexists].
  apply (books_step _ _ _ _ _ _ obj Hb (proj1 Hb)).
  - intros o Hne. rewrite lookup_insert_ne, held_app by done. rewrite (held_cons_ne [] o obj) by done.
    by rewrite app_nil_r.
  - rewrite lookup_insert_eq, Hv, held_app, (held_cons_eq [] obj). by apply ok_collect.
Qed.

Lemma mild_signalled (obj : TaskObjectId) : mild (lane_frame (@snd K (option DenialEndpoint))) (on_timeline (@signalled_point (host K) host_drm)).
Proof. apply mild_timeline, (@Keeps_signalled _ _ (stream_ops obj) snd _). Qed.

Lemma stays_collect obj todo : ∀ hs index w,
  holding hs w → is_Some (wins w !! obj) →
  stays (λ ready w', holding (hs ++ (pair obj <$> ready)) w') (collect_released obj todo index) w.
Proof.
  induction todo as [|todo IH]; intros hs index w Hk Hl; cbn [collect_released].
  { apply stays_ret. by rewrite app_nil_r. }
  destruct Hl as [t Ht]. destruct (wins_Some _ _ _ Ht) as (u & Hu & Eu). apply (stays_window _ _ _ _ _ Hu).
  destruct (tw_pending u !! index) as [p|] eqn:Hp; [|apply stays_ret; by rewrite app_nil_r].
  assert (wv_pending t !! index = Some p) as Hpt by (by rewrite <- Eu).
  destruct (holding_books _ _ _ _ Hk Ht) as (d & v & Hd & Hb & Hv & Hw & Hvo).
  { unfold owed. intros En. apply List.app_eq_nil in En as [En _]. apply fmap_nil_inv in En. by rewrite En in Hpt. }
  destruct (pending_target _ _ _ Hw Hvo p) as (r & Hr & _ & s & Hs); [by eapply list_elem_of_lookup_2|].
  apply (stays_bind (λ _ w', holding hs w' ∧ is_Some (wins w' !! obj)
           ∧ ∀ t', wins w' !! obj = Some t' → wv_pending t' = wv_pending t)).
  - apply (wp_on_target _ _ _ _ _ _ _ u r s); [done|by rewrite <- Eu in Hr|done|apply (mild_signalled obj)|].
    intros x w' s' E Eh St. split; [split_and!|].
    + by apply (holding_target hs obj (pf_buffer p) s' w).
    + rewrite E, lookup_alter_eq, Ht. by eexists.
    + intros t'. rewrite E, lookup_alter_eq, Ht. by intros [= <-].
    + apply (calm_alter _ _ _ _ E St). auto.
  - intros signalled w1 _ (Hk1 & [t1 Ht1] & Hp1) C1. destruct (signalled <? _); [by apply IH; [|eexists]|].
    apply (stays_bind (λ _ w', holding (hs ++ [(obj, p)]) w')).
    { apply (stays_drop_pending _ _ _ _ _ t1); [done|done|]. by rewrite (Hp1 t1 Ht1). }
    intros [] w2 _ Hk2 C2.
    apply (stays_bind (λ ready w', holding ((hs ++ [(obj, p)]) ++ (pair obj <$> ready)) w')).
    { apply IH; [done|]. apply (calm_wins _ _ _ C2). by eexists. }
    intros ready w3 _ Hk3 _. apply stays_ret. by rewrite <- app_assoc in Hk3.
Qed.

Lemma stays_collect_task obj hs w :
  holding hs w → stays (λ ready w', holding (hs ++ ready) w') (collect_task obj) w.
Proof.
  intros Hk. unfold collect_task. apply stays_get.
  destruct (a_windows w !! obj) as [u|] eqn:Hu; [|apply stays_ret; by rewrite app_nil_r].
  assert (is_Some (wins w !! obj)) as Hl by (rewrite wins_lookup, Hu; by eexists).
  apply (stays_bind (λ ready w', holding (hs ++ (pair obj <$> ready)) w')); [by apply stays_collect|].
  intros ready w1 _ Hk1 C1. destruct (calm_wins _ _ _ C1 Hl) as [t1 Ht1]. destruct (wins_Some _ _ _ Ht1) as (u1 & Hu1 & _).
  apply (stays_window _ _ _ _ _ Hu1).
  apply stays_quiet_bind; [by apply Quiet_at, Quiet_when, Quiet_work|]. intros _ w2 _ S2.
  apply stays_quiet_bind; [by apply Quiet_at, Quiet_work|]. intros _ w3 _ S3.
  apply stays_quiet_bind; [by apply Quiet_at, Quiet_when, Quiet_mark|]. intros _ w4 _ S4.
  apply stays_ret. exact (same_holding _ _ _ (transitivity S2 (transitivity S3 S4)) Hk1).
Qed.

Lemma stays_collect_loop turns : ∀ hs w,
  holding hs w → stays (λ ready w', holding (hs ++ ready) w') (collect_loop turns) w.
Proof.
  induction turns as [|turns IH]; intros hs w Hk; cbn [collect_loop].
  { apply stays_ret. by rewrite app_nil_r. }
  apply stays_quiet_bind.
  { split; [by apply (pop_same 3)|]. intros e. unfold pop. by destruct (Readiness.pop _ _). }
  intros [obj|] w1 _ S1; [|apply stays_ret; rewrite app_nil_r; by apply (same_holding _ w)].
  apply (stays_bind (λ ready w', holding (hs ++ ready) w')); [by apply stays_collect_task, (same_holding _ w)|].
  intros ready w2 _ Hk2 _. apply (stays_bind (λ rest w', holding ((hs ++ ready) ++ rest) w')); [by apply IH|].
  intros rest w3 _ Hk3 _. apply stays_ret. by rewrite <- app_assoc in Hk3.
Qed.

(** ** Giving back *)

Definition unretired (r : RenderTarget) : RenderTarget :=
  mkTargetBuffer (rt_metadata r) (rt_planes r) (rt_wayland r) (rt_sync r) (rt_host_owned r) false (rt_busy r).

Definition wv_unretire (b : BufferId) (t : WinView) : WinView :=
  wv_with_targets (alter unretired b (wv_targets t)) t.

Lemma ok_unretire h t v b : win_ok h t v → win_ok h (wv_unretire b t) v.
Proof.
  intros Hw. destruct Hw.
  assert (∀ b' r', alter unretired b (wv_targets t) !! b' = Some r' → ∃ r, wv_targets t !! b' = Some r
    ∧ rt_busy r' = rt_busy r ∧ rt_wayland r' = rt_wayland r ∧ rt_sync r' = rt_sync r
    ∧ rt_host_owned r' = rt_host_owned r ∧ (rt_retired r' = true → rt_retired r = true)) as Ha.
  { intros b' r'. destruct (decide (b' = b)) as [->|Hne].
    - rewrite lookup_alter_eq. destruct (wv_targets t !! b) as [r|]; [|done]. intros [= <-]. by exists r.
    - rewrite lookup_alter_ne by done. intros Hr. by exists r'. }
  split; cbn; try done.
  - by rewrite dom_alter_L.
  - intros b' r' (r & Hr & -> & _)%Ha. eauto.
  - intros b' r' (r & Hr & _ & -> & -> & _)%Ha. eauto.
  - intros b' r' (r & Hr & -> & _ & -> & _)%Ha. eauto.
  - intros b' r' (r & Hr & -> & _ & _ & -> & Hx)%Ha Hr'. eauto.
Qed.

Definition unbusy (b : BufferId) (t : WinView) : WinView :=
  wv_with_targets (alter (with_busy false) b (wv_targets t)) t.

(** The endpoint has the frame; the window does not know yet. *)
Lemma stays_return hs obj p w :
  holding ((obj, p) :: hs) w → stays (λ _, holding hs) (return_buffer (obj, p)) w.
Proof.
  intros [Hk [|[d Hd]]]; [done|]. unfold kept in Hk. rewrite Hd in Hk. unfold return_buffer.
  pose proof (proj2 Hk obj) as Ha. rewrite held_cons_eq in Ha.
  destruct (wins w !! obj) as [t|] eqn:Ht; [|by destruct (ep_view d !! obj)].
  assert (owed (held ((obj, p) :: hs) obj) t ≠ []) as Hne.
  { rewrite held_cons_eq. unfold owed. intros En. apply List.app_eq_nil in En as [_ En].
    by apply List.app_eq_nil in En as [_ En]. }
  destruct (books_open _ _ _ _ _ Hk Ht) as (v & Hv & Hw & Hvo); [by right|]. rewrite held_cons_eq in Hw.
  set (h := held hs obj) in *. set (b := pf_buffer p). set (f := pf_frame p).
  destruct (wins_Some _ _ _ Ht) as (u & Hu & Eu).
  pose proof (returned_frame _ _ _ _ _ Hw) as Hf.
  apply (stays_bind (λ _ w1, a_windows w1 = a_windows w ∧ ∃ d1, (a_host w1).2 = Some d1 ∧ ep_inv d1
           ∧ ep_view d1 = after_return obj f v (ep_view d))).
  { apply (wp_endpoint _ _ _ _ Hd). eapply wp_mono; [by apply (finish_release_view _ _ _ _ _ _ (proj1 Hk) Hv Hf)| |].
    - intros [] [k d'] [H1 H2]. cbn in H1, H2. split; [|by apply calm_eq; [|apply step_host]].
      split; [done|]. by exists d'.
    - by intros e [x ->]. }
  intros [] w1 _ (Ew1 & d1 & Hd1 & Hi1 & Ev1) _. rewrite <- Ew1 in Hu. apply (stays_window _ _ _ _ _ Hu).
  destruct (owed_registered _ _ _ Hw Hvo f b) as [r Hr].
  { unfold owed. rewrite !elem_of_app. right. right. by left. }
  assert (tw_targets u !! b = Some r) as Hru by (by rewrite <- Eu in Hr). apply (stays_Some _ _ _ _ _ _ Hru).
  (* the books with another window in place of this one *)
  assert (∀ t' w', a_host w' = a_host w1 → wins w' = alter (unbusy b) obj (wins w1) →
            at_ok h (Some t') (after_return obj f v (ep_view d) !! obj) → kept hs (<[obj := t']> (wins w')) w') as Hbooks.
  { intros t' w' Eh E Hat. unfold kept. rewrite Eh, Hd1. apply (books_step _ _ _ _ _ _ obj Hk Hi1).
    - intros o Hx. rewrite held_cons_ne by done. rewrite lookup_insert_ne, E, lookup_alter_ne by done.
      split_and!; [done|by rewrite (wins_eq _ _ Ew1)|]. rewrite Ev1. unfold after_return.
      destruct (_ && _); [by rewrite lookup_delete_ne|by rewrite lookup_insert_ne].
    - by rewrite lookup_insert_eq, Ev1. }
  assert (∀ t', wv_pending t' = wv_pending t → wv_waiting t' = wv_waiting t → b ∉ (owed h t').*2) as Hout.
  { intros t' E1 E2. pose proof (owed_nodup_buffers _ _ _ Hw Hvo) as Hn.
    assert (owed ((f, b) :: h) t ≡ₚ (f, b) :: owed h t') as Ep.
    { unfold owed. rewrite E1, E2, !app_assoc. symmetry. apply Permutation_middle. }
    assert (NoDup (owed ((f, b) :: h) t).*2) as Hn' by exact Hn.
    rewrite Ep in Hn'. by apply NoDup_cons in Hn' as [Hn' _]. }
  apply (wp_update _ _ (unbusy b)); [done|]. intros w2 E2 Eh2 St2 _ _.
  assert (calm w1 w2) as C2 by (apply (calm_alter _ _ _ _ E2 St2); auto).
  assert (wins w1 !! obj = Some t) as Ht1 by (by rewrite (wins_eq _ _ Ew1)).
  apply (stays_after _ _ _ _ C2).
  assert (hs = [] ∨ is_Some (a_host w2).2) as He2 by (right; rewrite Eh2, Hd1; by eexists).
  destruct (_ && _) eqn:Hdrop; cbn [app_when].
  - set (t' := unbusy b (wv_unretire b t)).
    assert (kept hs (<[obj := t']> (wins w2)) w2) as Hk2.
    { apply Hbooks; [done|done|]. apply (ok_returned _ _ _ _ _ (ok_unretire _ _ _ b Hw) Hvo).
      intros r'. cbn. rewrite lookup_alter_eq, Hr. by intros [= <-]. }
    eapply wp_mono; [apply (wp_drop_target _ _ _ t' b w2 Hk2); [apply lookup_insert_eq| |by apply Hout]| |done].
    + cbn. by rewrite !lookup_alter_eq, Hr.
    + intros [] w3 (H1 & H2 & H3). rewrite insert_insert_eq in H1.
      assert (wins w3 = <[obj := wv_with_targets (delete b (wv_targets t')) t']> (wins w2)) as E3.
      { rewrite H2, E2, !(alter_Some _ _ _ _ Ht1), (alter_Some _ _ _ (unbusy b t)) by apply lookup_insert_eq.
        rewrite !insert_insert_eq. f_equal. unfold t', unbusy, wv_unretire, wv_with_targets. cbn.
        by rewrite !delete_alter_eq. }
      split; [|by apply (calm_alter _ _ _ _ H2 H3); auto]. split.
      * rewrite E3. exact H1.
      * destruct He2 as [He2|He2]; [by left|right]. by apply H3.
  - apply stays_ret. split; [|done].
    assert (wins w2 = <[obj := unbusy b t]> (wins w2)) as ->.
    { rewrite E2, (alter_Some _ _ _ _ Ht1). by rewrite insert_insert_eq. }
    apply Hbooks; [done|done|]. apply (ok_returned _ _ _ _ _ Hw Hvo).
    intros r' Hr' Hret. change (wv_targets t !! b = Some r') in Hr'. rewrite Hr in Hr'. injection Hr' as <-.
    destruct (wk_retired _ _ _ Hw _ _ Hr Hret) as [Ho _].
    rewrite Hret, Ho in Hdrop. cbn in Hdrop. apply negb_false_iff in Hdrop. by rewrite <- Eu.
Qed.

Lemma stays_return_all hs w : ∀ w, holding hs w → stays (λ _, holding []) (app_each return_buffer hs) w.
Proof.
  clear w. induction hs as [|[obj p] hs IH]; intros w Hk; cbn [app_each]; [by apply stays_ret|].
  apply (stays_bind (λ _, holding hs)); [by apply stays_return|]. intros [] w1 _ Hk1 _. by apply IH.
Qed.

(** The frames that came back leave the books, and finished windows go. *)
Lemma wp_release w : quiescent w → wp release_ready_frames (λ _, quiescent) nofault w.
Proof.
  intros [Hi Hb]. unfold release_ready_frames. apply wp_bind, wp_get.
  eapply wp_seq; [apply (stays_collect_loop _ [])|].
  { split; [apply Hi|by left]. }
  intros ready w1 [Hk1 C1]. eapply wp_seq; [by apply stays_return_all|]. intros [] w2 [[Hk2 _] C2].
  pose proof (transitivity C1 C2) as C12. apply wp_cleanup. split; [by apply (calm_inv w); [| |apply Hi]|].
  intros o. by rewrite (st_bits _ _ (cm_step _ _ C12)).
Qed.

(** ** What the kernel reported *)

(** The kernel was asked for the signalled point of the frame's buffer. *)
Definition asked obj (p : PendingFrame) (point : Z) : Prop :=
  ∃ w1 w2, on_target pending_absent pending_absent obj (pf_buffer p) (on_timeline (@signalled_point (host K) host_drm)) w1
           = (w2, Ok point).

Definition reported obj p : Prop := ∃ point, asked obj p point ∧ pf_release_point p ≤ point.
Definition unreported obj p : Prop := ∃ point, asked obj p point ∧ point < pf_release_point p.

Lemma on_target_pending {A} missing absent obj b (m : lane_method (K := host K) A) w w' r :
  on_target missing absent obj b m w = (w', r) →
  ∀ t, a_windows w !! obj = Some t → ∃ t', a_windows w' !! obj = Some t' ∧ tw_pending t' = tw_pending t.
Proof.
  unfold on_target. intros E t Ht. rewrite Ht in E. cbn in E.
  destruct (tw_targets t !! b) as [target|]; [|injection E as <- _; by exists t].
  destruct (rt_sync target) as [s|]; [|injection E as <- _; by exists t].
  destruct (m _) as [[h l] r']. injection E as <- _. cbn. rewrite lookup_alter_eq, Ht. cbn. by eexists.
Qed.

(** The loop over a window's frames visits each one: what it takes was reported
    signalled, what it leaves was not. *)
Lemma collect_visits obj todo : ∀ index w w' ready t,
  collect_released obj todo index w = (w', Ok ready) → a_windows w !! obj = Some t →
  (index + todo = length (tw_pending t))%nat →
  ∃ t', a_windows w' !! obj = Some t' ∧ drop index (tw_pending t) ≡ₚ ready ++ drop index (tw_pending t')
    ∧ take index (tw_pending t') = take index (tw_pending t)
    ∧ Forall (reported obj) ready ∧ Forall (unreported obj) (drop index (tw_pending t')).
Proof.
  induction todo as [|todo IH]; intros index w w' ready t E Ht Hl; cbn [collect_released] in E.
  { injection E as <- <-. exists t. split_and!; [done|done|done|constructor|].
    rewrite drop_ge by lia. constructor. }
  apply m_bind_Ok in E as (w1 & u & Eu & E). assert (w1 = w ∧ u = t) as [-> ->].
  { unfold window, mbind, method_bind, get, lift in Eu. rewrite Ht in Eu. by injection Eu as <- <-. }
  destruct (lookup_lt_is_Some_2 (tw_pending t) index) as [p Hp]; [lia|]. rewrite Hp in E.
  apply m_bind_Ok in E as (w1 & point & Ek & E). destruct (on_target_pending _ _ _ _ _ _ _ _ Ek t Ht) as (t1 & Ht1 & Ep1).
  assert (asked obj p point) as Hask by (by exists w, w1).
  destruct (Z.ltb_spec point (pf_release_point p)) as [Hlt|Hge].
  - destruct (IH (S index) w1 w' ready t1 E Ht1) as (t' & Ht' & H1 & H2 & H3 & H4); [rewrite Ep1; lia|].
    exists t'. rewrite Ep1 in *. assert (tw_pending t' !! index = Some p) as Hp'.
    { rewrite <- Hp, <- (lookup_take_lt (tw_pending t') (S index)), <- (lookup_take_lt (tw_pending t) (S index)) by lia.
      by rewrite H2. }
    rewrite (drop_S _ _ _ Hp), (drop_S _ _ _ Hp'). split_and!; [done| | |done|].
    + rewrite H1. by rewrite Permutation_middle.
    + assert (∀ l : list PendingFrame, take index l = take index (take (S index) l)) as Hk.
      { intros l. rewrite take_take. f_equal. lia. }
      by rewrite (Hk (tw_pending t')), H2, <- Hk.
    + constructor; [by exists point|done].
  - apply m_bind_Ok in E as (w2 & [] & Ew & E). unfold update_window, modify in Ew. injection Ew as Ew.
    apply m_bind_Ok in E as (w3 & rest & Er & E). injection E as <- <-.
    assert (a_windows w2 !! obj = Some (set_frames (delete index (tw_pending t1)) (tw_feedback t1) t1)) as Ht2.
    { rewrite <- Ew. cbn. by rewrite lookup_alter_eq, Ht1. }
    destruct (IH index w2 w3 rest _ Er Ht2) as (t' & Ht' & H1 & H2 & H3 & H4).
    { cbn. rewrite Ep1, length_delete by (by eexists). lia. }
    exists t'. cbn in H1, H2. rewrite Ep1 in *. rewrite (drop_S _ _ _ Hp).
    assert (drop index (delete index (tw_pending t)) = drop (S index) (tw_pending t)) as Ed.
    { rewrite delete_take_drop. rewrite drop_app_ge by (rewrite length_take; lia).
      rewrite length_take, drop_drop. f_equal. lia. }
    rewrite Ed in H1. split_and!; [done| | | |done].
    + cbn. by rewrite H1.
    + rewrite H2, delete_take_drop, take_app_le by (rewrite length_take; lia). by rewrite take_take, Nat.min_id.
    + constructor; [by exists point|done].
Qed.

End collect.
