(* ===== verification/HostActions.v ===== *)
(** * The endpoint's actions at the host presenter

    Each action of the endpoint has changed the endpoint already; the
    presenter's part settles the books again, and a connection that ends or
    begins leaves them empty. *)

From S2P Require Import Hoare Transport Protocol TaskState Ipc Endpoint EndpointProofs EndpointSpec EndpointView PresenterWork PresenterTime.
From S2P Require Import Bytes Syncobj FrameGrants LayerStream LayerPresenter LayerFrame HostApp HostFrames HostTurn HostView HostQuiet HostBooks HostSteps HostPool HostShow HostLife HostReturn Prelude.

Section actions.

Context {K : Type} `{HostOps K}.

Abbreviation App := (HostApp.App K).
Abbreviation app := (HostApp.app (K := K)).
Implicit Types w : App.

(** The presenter after the endpoint went from [d] to [d']. *)
Definition moved w (d d' : DenialEndpoint) : Prop :=
  (a_host w).2 = Some d' ∧ ep_inv d' ∧ books [] (wins w) (Some d) ∧ base w.

Lemma moved_same w d d' : moved w d d' → ep_view d' = ep_view d → Inv w.
Proof.
  intros (Hd & Hi & [_ Hb] & Hbase) Ev. split; [|done]. unfold sound, kept. rewrite Hd. split; [done|]. by rewrite Ev.
Qed.

Lemma moved_window w d d' o v :
  moved w d d' → ep_view d !! o = Some v →
  ∃ u, a_windows w !! o = Some u ∧ win_ok [] (win_view u) v ∧ view_ok v.
Proof.
  intros (_ & _ & Hb & _) Hv. destruct (books_window _ _ _ _ _ Hb Hv) as (t & Ht & Hw & Hvo).
  destruct (wins_Some _ _ _ Ht) as (u & Hu & <-). by exists u.
Qed.

(** Only task [o] moved and its window was brought in line. *)
Lemma moved_books w d d' o m :
  moved w d d' → (∀ o', o' ≠ o → m !! o' = wins w !! o' ∧ ep_view d' !! o' = ep_view d !! o') →
  at_ok [] (m !! o) (ep_view d' !! o) → books [] m (Some d').
Proof.
  intros (_ & Hi & Hb & _) Hne Ho. apply (books_step _ _ _ _ _ _ o Hb Hi); [|done].
  intros o' Hx. destruct (Hne o' Hx). done.
Qed.

(** A window's update that brings it in line. *)
Lemma wp_moved_update w d d' o f g :
  moved w d d' → (∀ t, win_view (f t) = g (win_view t)) →
  (∀ o', o' ≠ o → ep_view d' !! o' = ep_view d !! o') →
  at_ok [] (g <$> wins w !! o) (ep_view d' !! o) →
  (∀ t, wins w !! o = Some t → wv_closing (g t) = wv_closing t ∧ wv_waiting (g t) = wv_waiting t) →
  wp (update_window o f) (λ _, Inv) nofault w.
Proof.
  intros Hm Hf Hne Ho Hg. pose proof Hm as (Hd & _ & _ & Hbase). apply (wp_updated _ _ g); [done|].
  intros w' E Eh St. apply (calm_inv w); [|unfold sound, kept; rewrite Eh, Hd|done].
  - apply (calm_alter _ _ _ _ E St). intros t Ht. destruct (Hg t Ht). by auto.
  - rewrite E. apply (moved_books w d d' o); [done| |by rewrite lookup_alter_eq].
    intros o' Hx. by rewrite lookup_alter_ne, Hne.
Qed.

(** ** Buffers *)

Lemma wp_register w d d' o b planes v :
  moved w d d' → ep_view d !! o = Some v → (b_id b ∉ tv_buffers v) →
  ep_view d' = <[o := with_buffers ({[b_id b]} ∪ tv_buffers v) v]> (ep_view d) →
  wp (register_android_buffer o b planes) (λ _, Inv) nofault w.
Proof.
  intros Hm Hv Hn Ev. destruct (moved_window _ _ _ _ _ Hm Hv) as (u & Hu & Hw & Hvo).
  unfold register_android_buffer. apply (wp_window _ _ _ _ _ Hu).
  assert (tw_targets u !! b_id b = None) as Hnone.
  { apply not_elem_of_dom. pose proof (wk_targets _ _ _ Hw) as E. cbn in E. by rewrite E. }
  rewrite Hnone. rewrite (bool_decide_false (is_Some None)) by (by intros []).
  apply wp_bind, wp_lift. cbn.
  set (r := mkTargetBuffer b planes None None false false false).
  apply (wp_moved_update _ _ _ _ _ (λ t, wv_with_targets (<[b_id b := r]> (wv_targets t)) t) Hm); [done| | |done].
  - intros o' Hx. by rewrite Ev, lookup_insert_ne.
  - rewrite wins_lookup, Hu, Ev, lookup_insert_eq. by apply ok_add.
Qed.

Lemma wp_unregister w d d' o b v :
  moved w d d' → ep_view d !! o = Some v → b ∈ tv_buffers v → (∀ f, tv_frames v !! f ≠ Some b) →
  ep_view d' = <[o := with_buffers (tv_buffers v ∖ {[b]}) v]> (ep_view d) →
  wp (unregister_target o b) (λ _, Inv) nofault w.
Proof.
  intros Hm Hv Hb Hn Ev. destruct (moved_window _ _ _ _ _ Hm Hv) as (u & Hu & Hw & Hvo).
  unfold unregister_target. apply (wp_window _ _ _ _ _ Hu).
  assert (is_Some (tw_targets u !! b)) as [r Hr].
  { apply elem_of_dom. pose proof (wk_targets _ _ _ Hw) as E. cbn in E. by rewrite E. }
  rewrite Hr. apply wp_bind, wp_lift. cbn [ok_or]. eapply wp_seq.
  - apply (wp_moved_update _ _ _ _ _ (λ t, wv_with_targets (delete b (wv_targets t)) t) Hm); [done| | |done].
    + intros o' Hx. by rewrite Ev, lookup_insert_ne.
    + rewrite wins_lookup, Hu, Ev, lookup_insert_eq. apply ok_drop; [done|].
      intros ([f b'] & E & Hin)%list_elem_of_fmap. cbn in E. subst b'.
      by apply (Hn f), (owed_lookup _ _ _ Hw).
  - intros [] w1 Hi1. apply Inv_quiet; [done|]. apply Quiet_at. destruct (rt_wayland r); apply _.
Qed.

(** ** Frames *)

Lemma moved_arriving w d d' a v :
  moved w d d' → ep_view d !! aw_object a = Some v → tv_frames v !! aw_frame a = None →
  ep_view d' = <[aw_object a := with_frames (<[aw_frame a := aw_buffer a]> (tv_frames v)) v]> (ep_view d) →
  arriving (aw_object a) a w.
Proof.
  intros Hm Hv Hn Ev. destruct (moved_window _ _ _ _ _ Hm Hv) as (u & Hu & Hw & Hvo).
  pose proof Hm as (Hd & _ & _ & _). exists (win_view u). split; [by rewrite wins_lookup, Hu|].
  unfold kept. rewrite Hd. apply (moved_books w d d' (aw_object a)); [done| |].
  - intros o' Hx. by rewrite Ev, !lookup_insert_ne.
  - rewrite Ev, !lookup_insert_eq. by apply ok_arrive.
Qed.

(** ** The life of a task *)

Lemma wp_destroy w d d' o v :
  moved w d d' → ep_view d !! o = Some v →
  ep_view d' = (if bool_decide (tv_frames v = ∅) then delete o (ep_view d) else <[o := with_retiring v]> (ep_view d)) →
  wp (destroy_task o) (λ _, Inv) nofault w.
Proof.
  intros Hm Hv Ev. destruct (moved_window _ _ _ _ _ Hm Hv) as (u & Hu & Hw & Hvo).
  pose proof Hm as (Hd & Hi & Hb & [Hur Hown Hfat]). unfold destroy_task. apply (wp_window _ _ _ _ _ Hu).
  apply (wp_update _ _ (λ t, wv_with_flags ((headless u, true), true) (wv_root t) t)); [done|].
  intros w1 E1 Eh1 St1 _ _. apply wp_modify. set (w2 := with_work _ w1).
  assert (wins w2 = <[o := wv_with_flags ((headless u, true), true) (wv_root (win_view u)) (win_view u)]> (wins w)) as E2.
  { change (wins w1 = <[o := wv_with_flags ((headless u, true), true) (wv_root (win_view u)) (win_view u)]> (wins w)).
    rewrite E1. apply (alter_Some (λ t, wv_with_flags ((headless u, true), true) (wv_root t) t)).
    by rewrite wins_lookup, Hu. }
  split; [|split].
  - unfold sound, kept. change (a_host w2) with (a_host w1). rewrite Eh1, Hd, E2. apply (moved_books w d d' o _ Hm).
    + intros o' Hx. rewrite lookup_insert_ne by done. split; [done|]. rewrite Ev.
      destruct (bool_decide _); [by rewrite lookup_delete_ne|by rewrite lookup_insert_ne].
    + rewrite lookup_insert_eq, Ev. destruct (bool_decide_reflect (tv_frames v = ∅)) as [He|He].
      * rewrite lookup_delete_eq. split; [done|]. pose proof (wk_frames _ _ _ Hw) as Hf.
        rewrite He, map_to_list_empty in Hf. by apply Permutation_nil_l in Hf.
      * rewrite lookup_insert_eq. destruct Hw. split; cbn; try done.
        intros b r Hb1 Hb2. by destruct (wk_retired b r Hb1 Hb2).
  - intros o' t Ht Hc Hwait. change (has_bit 4 (a_work w2) o' = true).
    unfold w2. cbn [with_work a_work]. rewrite has_bit_mark. destruct (decide (o' = o)) as [->|Hx].
    + rewrite bool_decide_true by done. apply orb_true_r.
    + rewrite E2, lookup_insert_ne in Ht by done. pose proof (Hur o' t Ht Hc Hwait) as Hbit.
      rewrite <- (st_bits _ _ St1) in Hbit. unfold unmap_bit in Hbit. by rewrite Hbit.
  - intros o' t. rewrite E2. destruct (decide (o' = o)) as [->|Hx].
    + rewrite lookup_insert_eq. intros [= <-]. apply (Hown o (win_view u)). by rewrite wins_lookup, Hu.
    + rewrite lookup_insert_ne by done. apply Hown.
  - intros e. change (a_fatal w2) with (a_fatal w1). rewrite (st_fatal _ _ St1). apply Hfat.
Qed.

Definition new_view : TaskView := mkTaskView ∅ ∅ false ∅.

(** The endpoint has the task; its window is to come. *)
Definition created o w : Prop :=
  ∃ d, (a_host w).2 = Some d ∧ ep_inv d ∧ ep_view d !! o = Some new_view
    ∧ (∀ o', o' ≠ o → at_ok [] (wins w !! o') (ep_view d !! o')) ∧ base w.

Lemma same_created o w w' : same w w' → created o w → created o w'.
Proof.
  intros S1 (d & Hd & Hi & Hv & Hb & Hbase). pose proof (sm_ep _ _ S1) as E. rewrite Hd in E.
  destruct (a_host w').2 as [d'|] eqn:Hd'; [|done]. destruct E as [E1 E2]. exists d'.
  rewrite E1, (sm_wins _ _ S1). split_and!; [done|auto|done|done|by apply (same_base w)].
Qed.

Lemma new_window_ok manager root package : win_ok [] (win_view (new_window manager root package)) new_view.
Proof.
  split; cbn; try done.
  - constructor.
  - intros f Hf. by apply not_elem_of_nil in Hf.
Qed.

(** The window takes its place; one of a task that ended may have been there. *)
Lemma wp_new_window o manager root package w :
  created o w →
  Inv (with_windows (<[o := new_window manager root package]> (a_windows w)) w)
  ∧ is_Some (wins (with_windows (<[o := new_window manager root package]> (a_windows w)) w) !! o).
Proof.
  intros (d & Hd & Hi & Hv & Hb & [Hur Hown Hfat]). set (w' := with_windows _ w).
  assert (wins w' = <[o := win_view (new_window manager root package)]> (wins w)) as E by (unfold wins; cbn; by rewrite fmap_insert).
  split; [|rewrite E, lookup_insert_eq; by eexists]. split; [|split].
  - unfold sound, kept. change (a_host w') with (a_host w). rewrite Hd, E. split; [done|]. intros o'.
    destruct (decide (o' = o)) as [->|Hx]; [rewrite lookup_insert_eq, Hv; apply new_window_ok|].
    rewrite lookup_insert_ne by done. by apply Hb.
  - intros o' t. rewrite E. destruct (decide (o' = o)) as [->|Hx].
    + rewrite lookup_insert_eq. by intros [= <-].
    + rewrite lookup_insert_ne by done. apply Hur.
  - intros o' t. rewrite E. destruct (decide (o' = o)) as [->|Hx].
    + rewrite lookup_insert_eq. intros [= <-]. constructor.
    + rewrite lookup_insert_ne by done. apply Hown.
  - done.
Qed.

Lemma wp_create o package w : created o w → wp (create_task o package) (λ _, Inv) nofault w.
Proof.
  intros Hc. unfold create_task. apply wp_quiet_bind; [apply Quiet_at, _|]. intros root w1 _ S1.
  apply wp_bind, wp_modify. destruct (wp_new_window o (env_manager (a_env w1)) root package w1) as [Hi2 Hl2];
    [by apply (same_created _ w)|]. set (w2 := with_windows _ w1) in *.
  apply wp_bind, wp_get. apply stays_inv; [apply Hi2|].
  apply stays_quiet_bind.
  { apply Quiet_at, Quiet_result. unfold published_formats, selected_format.
    destruct (env_formats _); cbn; [|done]. destruct (existsb _ _); [done|]. by destruct (existsb _ _). }
  intros formats w3 _ S3. pose proof (same_sound _ _ S3 (inv_sound _ Hi2)) as Hs3.
  assert (live o w3) as Hl3 by (apply sound_wins; [done|by rewrite (sm_wins _ _ S3)]).
  apply stays_quiet_bind; [apply quiet_endpoint; [apply _|apply EpKeeps_feedback|apply Hl3]|]. intros _ w4 _ S4.
  pose proof (same_sound _ _ S4 Hs3) as Hs4. destruct (negb _); [by apply stays_ret|].
  apply stays_quiet_bind; [by apply Quiet_at, Quiet_ok_or|]. intros [width height] w5 _ S5.
  apply settles_configure; [by apply (same_sound w4)|]. rewrite (sm_wins _ _ S5), (sm_wins _ _ S4). apply Hl3.
Qed.

(** ** Layer streams and the rest *)

Definition wv_with_layers (b : bool) (t : WinView) : WinView :=
  mkWin (wv_flags t) (wv_root t) b (wv_waiting t) (wv_targets t) (wv_pending t) (wv_feedback t).

Lemma stays_bind_layers o fds w :
  sound w → is_Some (wins w !! o) → stays (λ _, sound) (bind_layers o fds) w.
Proof.
  intros Hs [t Ht]. destruct (wins_Some _ _ _ Ht) as (u & Hu & _). unfold bind_layers.
  apply (stays_window _ _ _ _ _ Hu).
  apply stays_quiet_bind; [by apply Quiet_at, Quiet_fail_if|]. intros _ w1 _ S1.
  apply stays_quiet_bind; [apply Quiet_at, _|]. intros _ w2 _ S2.
  apply stays_quiet_bind; [apply Quiet_at, _|]. intros _ w3 _ S3.
  pose proof (same_sound _ _ (transitivity S1 (transitivity S2 S3)) Hs) as Hs3.
  apply (stays_bind (λ _, sound)).
  - apply (wp_updated _ _ (wv_with_layers true)); [done|]. intros w4 E Eh St.
    split; [|by apply (calm_alter _ _ _ _ E St); auto]. unfold sound, kept. rewrite Eh, E.
    apply kept_alter; [done|]. intros d x _ _ Ha. destruct (ep_view d !! o) as [v|]; [|done].
    destruct Ha. by split.
  - intros [] w4 _ Hs4 _. apply stays_quiet_bind; [by apply Quiet_at, Quiet_work|]. intros _ w5 _ S5.
    apply stays_quiet; [by apply Quiet_at, Quiet_mark|]. intros _ w6 _ S6.
    apply (same_sound w4); [exact (transitivity S5 S6)|done].
Qed.

#[global] Instance Quiet_request_activation o : Quiet (K := K) (request_activation o).
Proof.
  unfold request_activation. apply Quiet_bind; [apply _|intros w]. destruct (a_windows w !! o) as [t|]; [|apply _].
  destruct (_ || _); [apply _|]. destruct (Activation.request _ _) as [tokens generation].
  apply Quiet_bind; [apply Quiet_modify; intros; by apply same_start|intros _]. destruct generation; apply _.
Qed.

(** Each action of the endpoint is followed. *)
Lemma wp_action a w d d' :
  moved w d d' → action_view a (ep_view d) (ep_view d') → wp (process_action a) (λ _, Inv) nofault w.
Proof.
  intros Hm Ha. pose proof Hm as (Hd & Hi & Hb & Hbase).
  destruct a; cbn [action_view process_action] in *; try (apply wp_ret; by apply (moved_same _ _ _ Hm)).
  - destruct Ha as [[v Hv] Ev]. destruct (moved_window _ _ _ _ _ Hm Hv) as (u & Hu & _).
    apply stays_inv; [done|]. apply settles_ensure; [by apply (moved_same _ _ _ Hm)|].
    rewrite wins_lookup, Hu. by eexists.
  - destruct Ha as [Hn Ev]. apply wp_create. exists d'. split_and!; [done|done| | |done].
    + by rewrite Ev, lookup_insert_eq.
    + intros o' Hx. rewrite Ev, lookup_insert_ne by done. apply Hb.
  - apply Inv_quiet; [by apply (moved_same _ _ _ Hm)|]. by apply Quiet_at, Quiet_update.
  - destruct Ha as (v & Hv & Ev). by eapply wp_destroy.
  - destruct Ha as (v & Hv & Hn & Ev). by eapply wp_register.
  - destruct Ha as (v & Hv & Hin & Hf & Ev). by eapply wp_unregister.
  - destruct Ha as (v & Hv & Hn & _ & _ & Ev). apply wp_queue; [done|]. by eapply moved_arriving.
  - destruct Ha as [[v Hv] Ev]. destruct (moved_window _ _ _ _ _ Hm Hv) as (u & Hu & _).
    apply stays_inv; [done|]. apply stays_bind_layers; [by apply (moved_same _ _ _ Hm)|].
    rewrite wins_lookup, Hu. by eexists.
  - destruct Ha as [[v Hv] Ev]. destruct (moved_window _ _ _ _ _ Hm Hv) as (u & Hu & _).
    apply (wp_window _ _ _ _ _ Hu). apply Inv_quiet; [by apply (moved_same _ _ _ Hm)|]. by apply Quiet_at, Quiet_update.
  - apply Inv_quiet; [by apply (moved_same _ _ _ Hm)|]. apply Quiet_at, _.
Qed.

(** ** The connection *)

Lemma wp_remove_gone o w :
  (a_host w).2 = None →
  wp (remove_task o) (λ _ w', (a_host w').2 = None ∧ wins w' = delete o (wins w) ∧ fewer w w' ∧ a_fatal w' = a_fatal w)
     nofault w.
Proof.
  intros Hd. unfold remove_task.
  apply wp_seq with (P := λ _ w1, (a_host w1).2 = None ∧ delete o (wins w1) = delete o (wins w)
    ∧ step_ok w w1).
  { unfold HostApp.retire_feedback. apply wp_bind, wp_get. destruct (a_windows w !! o) as [t|]; [|by apply wp_ret].
    cbv zeta. destruct (FrameGrants.retire_feedback _ _ _ _) as [timeline frames].
    apply (wp_update _ _ (wv_with_feedback [])); [done|]. intros w1 E1 Eh1 St1 _ _.
    eapply (wp_mono _ (λ _ w', w' = w1) _ nofault).
    - assert ((a_host w1).2 = None) as Hd1 by (by rewrite Eh1). clear - Hd1. induction frames as [|f frames IH]; cbn [app_each]; [by apply wp_ret|].
      apply wp_bind. unfold with_endpoint. apply wp_bind, wp_get. rewrite Hd1. by apply wp_ret.
    - intros [] w2 ->. split_and!; [by rewrite Eh1| |done]. rewrite E1. apply delete_alter_eq.
    - done. }
  intros [] w1 (Hd1 & E1 & St1). eapply wp_seq; [apply wp_quiet, Quiet_at, _|]. intros [] w2 S2.
  assert ((a_host w2).2 = None) as Hd2.
  { pose proof (sm_ep _ _ S2) as E. rewrite Hd1 in E. by destruct (a_host w2).2. }
  apply wp_bind, wp_modify, wp_bind, wp_get. set (w3 := with_tokens _ _).
  assert (fewer w w3) as F3.
  { apply (transitivity (step_fewer _ _ (transitivity St1 (same_step _ _ S2)))). exact (drop_bits o w2). }
  assert (a_fatal w3 = a_fatal w) as Ef.
  { change (a_fatal w2 = a_fatal w). by rewrite (sm_fatal _ _ S2), (st_fatal _ _ St1). }
  apply wp_seq with (P := λ _ w4, (a_host w4).2 = None ∧ wins w4 = delete o (wins w) ∧ fewer w w4 ∧ a_fatal w4 = a_fatal w).
  - assert (wins w3 = wins w1) as E3 by exact (sm_wins _ _ S2).
    destruct (a_windows w3 !! o) as [u|] eqn:Hu.
    + apply wp_bind, wp_modify. set (w4 := with_windows _ w3).
      assert (wins w4 = delete o (wins w)) as E4 by (unfold wins at 1; cbn [w4 with_windows a_windows]; by rewrite fmap_delete, <- E1, <- E3).
      eapply (wp_mono _ (λ _, same w4) _ nofault).
      * apply wp_quiet, quiet_bind; [apply Quiet_at; destruct (surface u); apply _|intros; apply Quiet_at, _].
      * intros [] w5 S5. split_and!.
        -- pose proof (sm_ep _ _ S5) as E. change (a_host w4) with (a_host w2) in E. rewrite Hd2 in E. by destruct (a_host w5).2.
        -- by rewrite (sm_wins _ _ S5).
        -- exact (transitivity F3 (step_fewer _ _ (same_step _ _ S5))).
        -- by rewrite (sm_fatal _ _ S5).
      * done.
    + apply wp_ret. split_and!; [done| |done|done]. rewrite E3, <- E1. symmetry. apply delete_id.
      rewrite <- E3. by apply wins_Some_none.
  - intros [] w4 (Hd4 & E4 & F4 & Ef4). eapply wp_seq; [apply wp_quiet, Quiet_at, _|]. intros [] w5 S5.
    change (a_host w3) with (a_host w2). rewrite Hd2. apply wp_ret. split_and!.
    + pose proof (sm_ep _ _ S5) as E. rewrite Hd4 in E. by destruct (a_host w5).2.
    + by rewrite (sm_wins _ _ S5).
    + exact (transitivity F4 (step_fewer _ _ (same_step _ _ S5))).
    + by rewrite (sm_fatal _ _ S5).
Qed.

Lemma empty_inv w : wins w = ∅ → (a_host w).2 = None → (∀ e, a_fatal w = Some e → fault e = false) → Inv w.
Proof.
  intros E Hd Hf. split; [unfold sound, kept; by rewrite Hd|]. split; [..|done].
  - intros o t. by rewrite E, lookup_empty.
  - intros o t. by rewrite E, lookup_empty.
Qed.

(** The connection is gone, and every window with it. *)
Lemma wp_disconnect w :
  base w → wp disconnect_endpoint (λ _ w', Inv w' ∧ (a_host w').2 = None) nofault w.
Proof.
  intros [_ _ Hfat]. unfold disconnect_endpoint. apply wp_bind, wp_modify, wp_bind, wp_get. set (w1 := with_tokens _ _).
  assert (∀ keys w', (a_host w').2 = None → (∀ o, is_Some (wins w' !! o) → o ∈ keys) →
    wp (app_each remove_task keys) (λ _ w2, (a_host w2).2 = None ∧ wins w2 = ∅ ∧ a_fatal w2 = a_fatal w') nofault w') as Hloop.
  { induction keys as [|o keys IH]; intros w' Hd Hk; cbn [app_each].
    - apply wp_ret. split_and!; [done| |done]. apply map_empty. intros o.
      destruct (wins w' !! o) eqn:E; [|done]. exfalso. by eapply not_elem_of_nil, (Hk o).
    - eapply wp_seq; [by apply wp_remove_gone|]. intros [] w2 (Hd2 & E2 & _ & Ef2).
      eapply wp_mono; [apply IH; [done|]| |done].
      + intros o' [t Ht]. rewrite E2 in Ht. apply lookup_delete_Some in Ht as [Hne Ht].
        assert (o' ∈ o :: keys) as Hin by (apply Hk; by eexists).
        apply elem_of_cons in Hin as [Hx|Hin]; [by subst|done].
      + intros [] w3 (H1 & H2 & H3). split_and!; [done|done|congruence]. }
  eapply wp_seq; [apply (Hloop _ w1); [done|]|].
  - intros o Hl. apply btree_keys_elem. destruct Hl as [t Ht]. destruct (wins_Some _ _ _ Ht) as (u & Hu & _). by eexists.
  - intros [] w2 (H1 & H2 & H3). apply wp_modify. split; [|done]. apply empty_inv; [done|done|].
    intros e. change (a_fatal (with_focus None w2)) with (a_fatal w2). rewrite H3. apply Hfat.
Qed.

End actions.
