(* ===== verification/HostSound.v ===== *)
(** * The main loop of the host presenter keeps the books

    Records of the endpoint and of the layer streams, the timelines and the
    stages of one turn: each keeps the invariant [Inv] and fails for no
    [fault] of the presenter. *)

From S2P Require Import Hoare Transport Protocol TaskState Ipc Endpoint EndpointProofs EndpointSpec EndpointView PresenterWork PresenterTime.
From S2P Require Import Bytes Syncobj FrameGrants LayerStream LayerPresenter LayerFrame HostApp HostFrames HostTurn HostView HostQuiet HostBooks HostSteps HostPool HostShow HostLife HostReturn HostActions Prelude.

Section sound.

Context {K : Type} `{HostOps K}.

Abbreviation App := (HostApp.App K).
Abbreviation app := (HostApp.app (K := K)).
Implicit Types w : App.

(** ** Records of the endpoint *)

Lemma wp_drain_record w : Inv w → wp drain_record (λ _, Inv) nofault w.
Proof.
  intros Hi. unfold drain_record. apply wp_bind, wp_get. destruct (a_host w).2 as [d|] eqn:Hd; [|by apply wp_ret].
  pose proof (inv_sound _ Hi) as Hs. unfold sound, kept in Hs. rewrite Hd in Hs.
  apply wp_bind, wp_attempt. unfold on_endpoint. rewrite Hd. intros w1 r.
  destruct (receive_action ((a_host w).1, d)) as [[k d'] r'] eqn:E.
  apply receive_action_step in E as [Hi' Ha]; [|apply Hs]. cbn in Hi', Ha. intros [= <- <-].
  set (w1 := with_host (k, Some d') w).
  assert (moved w1 d d') as Hm.
  { split_and!; [done|done|exact Hs|]. apply (calm_base w); [|apply Hi]. by apply calm_eq; [|apply step_host]. }
  destruct r' as [a|e]; cbn.
  - eapply wp_seq; [by apply (wp_action _ _ d d')|]. intros [] w2 Hi2. by apply wp_ret.
  - assert (Inv w1) as Hi1 by by apply (moved_same _ _ _ Hm).
    assert (wp (_ ← disconnect_endpoint; mret false) (λ _, Inv) nofault w1) as Hx.
    { eapply wp_seq; [apply wp_disconnect, Hi1|]. intros [] w2 [Hi2 _]. by apply wp_ret. }
    destruct e; try exact Hx. destruct e; try exact Hx.
    destruct (_ =? _); cbn; [|exact Hx]. apply wp_bind, wp_ret. by apply wp_ret.
Qed.

Lemma wp_drain n : ∀ w, Inv w → wp (drain_endpoint n) (λ _, Inv) nofault w.
Proof.
  induction n as [|n IH]; intros w Hi; cbn [drain_endpoint]; [by apply wp_ret|].
  eapply wp_seq; [by apply wp_drain_record|]. intros [] w1 Hi1; [by apply IH|by apply wp_ret].
Qed.

(** ** A new connection *)

#[global] Instance Quiet_connection expected : Quiet (K := K) (accept_connection expected).
Proof. unfold accept_connection. apply Quiet_bind; [by apply Quiet_kernel|intros _]. by apply Quiet_kernel. Qed.

Lemma accept_connection_new expected w w' d : accept_connection expected w = (w', Ok d) → d = endpoint_new.
Proof.
  unfold accept_connection. intros (w1 & u & _ & E)%m_bind_Ok. revert E. unfold app_kernel, on_fst, accept.
  destruct (peer_credentials _) as [k [actual|e]]; cbn; [|done]. destruct (Endpoint.accepts expected actual); cbn; [|done].
  by intros [= _ <-].
Qed.

Lemma offer_new e : ∃ d, offer_features e endpoint_new = Some d ∧ tasks d = ∅ ∧ Endpoint.ready d = false.
Proof.
  unfold offer_features. destruct (env_activation e); cbn; destruct (_ && _); cbn; by eexists.
Qed.

Lemma empty_ep_inv d : tasks d = ∅ → ep_inv d.
Proof.
  intros E. split; rewrite ?E; try done.
  all: intros *; rewrite ?lookup_empty; done.
Qed.

Lemma wp_accept w : Inv w → wp accept_endpoint (λ _, Inv) nofault w.
Proof.
  intros Hi. unfold accept_endpoint. apply wp_bind, wp_get. destruct (a_host w).2 as [d|] eqn:Hd; [by apply wp_ret|].
  apply wp_bind, wp_attempt. intros w1 r E. destruct (Quiet_at (accept_connection (env_expected (a_env w))) w _) as [S1 He].
  rewrite E in S1, He. cbn in S1, He. pose proof (inv_same _ _ S1 Hi) as Hi1. destruct r as [d|e].
  - apply accept_connection_new in E as ->. destruct (offer_new (a_env w)) as (d & -> & Ht & _).
    apply wp_bind, wp_lift. cbn [ok_or]. apply wp_quiet_bind; [apply Quiet_at, _|]. intros _ w2 _ S2.
    apply wp_modify. set (w3 := with_host _ w2).
    assert (wins w3 = ∅) as E3.
    { change (wins w2 = ∅). rewrite (sm_wins _ _ S2), (sm_wins _ _ S1). pose proof (inv_sound _ Hi) as Hs.
      unfold sound, kept in Hs. by rewrite Hd in Hs. }
    split; [|split].
    + unfold sound, kept. change (a_host w3).2 with (Some d). rewrite E3. split; [by apply empty_ep_inv|].
      intros o. unfold ep_view. by rewrite Ht, fmap_empty, !lookup_empty.
    + intros o t. by rewrite E3, lookup_empty.
    + intros o t. by rewrite E3, lookup_empty.
    + apply (same_base _ _ S2 (inv_base _ Hi1)).
  - assert (wp (A := unit) (throw e) (λ _, Inv) nofault w1) as Hx by (apply wp_throw; by apply He).
    destruct e; try exact Hx. destruct e; try exact Hx; [|by apply wp_ret].
    destruct e; try exact Hx. destruct (_ =? _); [by apply wp_ret|exact Hx].
Qed.

(** ** Layer streams *)

(** What a layer stream may do to its window and to the endpoint: nothing but
    discard the composed frame that waits. *)
Definition stream_frame obj w (u : TaskWindow)
    (x : bool * bool * bool * option Z * option QueuedFrame * option DenialEndpoint) : Prop :=
  let '(flags, root, queued, e) := x in
  flags = lt_flags (tw_task u) ∧ root = lt_root (tw_task u)
  ∧ (queued = None ∨ queued = lt_queued (tw_task u))
  ∧ books [] (<[obj := wv_with_waiting (queued_frame queued) (win_view u)]> (wins w)) e.

Lemma books_window_endpoint hs m o t e : books hs (<[o := t]> m) e → is_Some e.
Proof. destruct e as [d|]; [by eexists|]. intros E. by apply (insert_non_empty (M := gmap Z)) in E. Qed.

Lemma stream_discard obj w u flags root q (h : host K) :
  stream_frame obj w u (flags, root, Some q, snd h) →
  match host_discard obj (aw_frame (qf_frame q)) h with
  | (h', Ok _) => stream_frame obj w u (flags, root, None, snd h')
  | (_, Err e) => fault (endpoint_error e) = false
  end.
Proof.
  intros (E1 & E2 & E3 & Hb). unfold host_discard. destruct h as [k [d|]]; cbn [fst snd] in *.
  2:{ by destruct (books_window_endpoint _ _ _ _ _ Hb). }
  set (t := wv_with_waiting (queued_frame (Some q)) (win_view u)) in *.
  destruct (discard_books [] _ obj t (qf_frame q) [] [] k d Hb (lookup_insert_eq _ _ _) eq_refl) as [Hw He].
  destruct (discard_frame _ _ _) as [[k' d'] [[]|e]]; cbn in *.
  - rewrite insert_insert_eq in Hw. exact (conj E1 (conj E2 (conj (or_introl eq_refl) Hw))).
  - by apply He.
Qed.

Lemma stays_layers {A} obj (m : method (LayerPresenter.world (K := host K)) LayerError A) w :
  sound w → has_layers obj w = true →
  (∀ u, Tame (@snd K (option DenialEndpoint)) (stream_frame obj w u) m) →
  stays (λ _, sound) (on_layers obj m) w.
Proof.
  intros Hs Hl Hm. unfold has_layers in Hl. destruct (a_windows w !! obj) as [u|] eqn:Hu; [|done].
  apply bool_decide_eq_true in Hl as [s Hst]. specialize (Hm u (stream_world w u s)).
  assert (wins w !! obj = Some (win_view u)) as Ht by (by rewrite wins_lookup, Hu).
  assert (stream_frame obj w u (framed snd (stream_world w u s))) as Hpre.
  { unfold framed. cbn. split; [done|]. split; [done|]. split; [by right|].
    change (books [] (<[obj := wv_with_waiting (queued_frame (lt_queued (tw_task u))) (win_view u)]> (wins w)) (a_host w).2).
    rewrite insert_id; [exact Hs|]. by rewrite Ht. }
  specialize (Hm Hpre). pose proof (on_layers_wins obj m w u s Hu Hst) as Ew. unfold stays, wp in *.
  assert ((on_layers obj m w).2 = (m (stream_world w u s)).2) as E2.
  { unfold on_layers. rewrite Hu, Hst. by destruct (m _). }
  assert (a_host (on_layers obj m w).1 = w_kernel (m (stream_world w u s)).1) as E3.
  { unfold on_layers. rewrite Hu, Hst. by destruct (m _). }
  assert (a_fatal (on_layers obj m w).1 = a_fatal w) as E4.
  { unfold on_layers. rewrite Hu, Hst. by destruct (m _). }
  assert (a_work (on_layers obj m w).1 = a_work w) as E5.
  { unfold on_layers. rewrite Hu, Hst. by destruct (m _). }
  destruct (on_layers obj m w) as [w' r]. destruct (m _) as [v r']. cbn in E2, E3, E4, E5, Ew. subst r'.
  destruct r as [a|e]; [|exact Hm]. unfold framed in Hm. cbn in Hm. destruct Hm as (F1 & F2 & F3 & Hb).
  assert (wins w' = <[obj := wv_with_waiting (queued_frame (lt_queued (w_task v))) (win_view u)]> (wins w)) as E.
  { rewrite Ew. f_equal. unfold win_view, wv_with_waiting. cbn. f_equal; [exact F1|exact F2]. }
  split; [unfold sound, kept; by rewrite E3, E|].
  assert (step_ok w w') as St.
  { split; [done|intros o; unfold unmap_bit; by rewrite E5|]. intros _. rewrite E3.
    exact (books_window_endpoint _ _ _ _ _ Hb). }
  apply (calm_alter w w' (wv_with_waiting (queued_frame (lt_queued (w_task v)))) obj); [|done|].
  - by rewrite E, (alter_Some _ _ _ _ Ht).
  - intros t Ht'. rewrite Ht in Ht'. injection Ht' as <-. split; [done|].
    destruct F3 as [F|F]; [left; exact (f_equal queued_frame F)|right; exact (f_equal queued_frame F)].
Qed.

Lemma stays_stream_releases obj w : sound w → stays (λ _, sound) (serve_stream_releases obj) w.
Proof.
  intros Hs. unfold serve_stream_releases. apply stays_get. destruct (has_layers obj w) eqn:Hl; cbn [negb]; [|by apply stays_ret].
  apply (stays_bind (λ _, sound)).
  { apply stays_layers; [done|done|]. intros u.
    apply (@Tame_releases _ _ (stream_ops obj) snd _ (stream_frame obj w u)). intros. by apply stream_discard. }
  intros [] w1 _ Hs1 C1. apply stays_quiet_bind; [apply Quiet_at, _|]. intros _ w2 _ S2.
  assert (is_Some (wins w2 !! obj)) as [t Ht].
  { rewrite (sm_wins _ _ S2). apply (calm_wins _ _ _ C1). unfold has_layers in Hl. rewrite wins_lookup.
    destruct (a_windows w !! obj); [by eexists|done]. }
  destruct (wins_Some _ _ _ Ht) as (u & Hu & _). apply (stays_window _ _ _ _ _ Hu).
  apply stays_quiet; [by apply Quiet_at, Quiet_when, Quiet_mark|]. intros _ w3 _ S3.
  apply (same_sound w1); [exact (transitivity S2 S3)|done].
Qed.

Lemma stays_stream_config obj w : sound w → stays (λ _, sound) (publish_stream_config obj) w.
Proof.
  intros Hs. unfold publish_stream_config. apply settles_get. destruct (has_layers obj w) eqn:Hl; cbn [negb]; [|by apply settles_ret].
  apply settles_quiet_bind; [done|apply quiet_layers; [apply (@Still_publish _ _ (stream_ops obj) snd _)|done]|].
  intros waiting w1 _ S1 Hs1. apply settles_quiet; [done|]. by apply Quiet_at, Quiet_when, Quiet_mark.
Qed.

(** One record of a stream; a barrier drains the endpoint first. *)
Lemma wp_stream_request n obj w : Inv w → wp (serve_stream_request n obj) (λ _, Inv) nofault w.
Proof.
  intros Hi. unfold serve_stream_request. apply wp_bind, wp_get. destruct (stream_open obj w) eqn:Ho; cbn [negb]; [|by apply wp_ret].
  assert (has_layers obj w = true) as Hl.
  { unfold stream_open in Ho. unfold has_layers. destruct (a_windows w !! obj) as [t|]; cbn in Ho; [|done].
    destruct (tw_layers t); [done|done]. }
  apply wp_bind, wp_attempt. intros w1 r E.
  assert (quiet_at (on_layers obj (LayerPresenter.on_kernel IpcFailed
    (@receive_record_into (host K) (host_socket (ho_stream obj Requests)) MAX_LAYER_PACKET))) w) as [S1 He].
  { apply quiet_layers; [apply (@Still_receive _ _ (stream_ops obj) snd _)|done]. }
  rewrite E in S1, He. cbn in S1, He. pose proof (inv_same _ _ S1 Hi) as Hi1.
  assert (has_layers obj w1 = true) as Hl1 by (by rewrite wins_layers, (sm_wins _ _ S1), <- wins_layers).
  destruct r as [record|e].
  - apply wp_quiet_bind; [by apply Quiet_at, Quiet_map_err|]. intros request w2 _ S2. pose proof (inv_same _ _ S2 Hi1) as Hi2.
    eapply (wp_seq _ _ (λ _, Inv)); [destruct (is_barrier request); [by apply wp_drain|by apply wp_ret]|].
    intros [] w3 Hi3. apply wp_bind, wp_get. destruct (has_layers obj w3) eqn:Hl3; cbn [negb]; [|by apply wp_ret].
    eapply wp_seq; [apply stays_inv; [apply Hi3|apply stays_layers; [apply Hi3|done|]]|].
    + intros u. apply (@Tame_request _ _ (stream_ops obj) snd _ (stream_frame obj w3 u)). intros. by apply stream_discard.
    + intros [] w4 Hi4. by apply wp_ret.
  - assert (wp (A := bool) (throw e) (λ _, Inv) nofault w1) as Hx by (apply wp_throw; by apply He).
    destruct e; try exact Hx. destruct e; try exact Hx.
    + destruct (_ =? _); [by apply wp_ret|exact Hx].
    + apply wp_quiet_bind; [apply quiet_layers; [apply Still_disconnect|done]|]. intros [] w2 _ S2.
      apply wp_ret. by apply (inv_same w1).
Qed.

Lemma wp_stream_requests n obj turns : ∀ w, Inv w → wp (serve_stream_requests n obj turns) (λ _, Inv) nofault w.
Proof.
  induction turns as [|turns IH]; intros w Hi; cbn [serve_stream_requests]; [by apply wp_ret|].
  eapply wp_seq; [by apply wp_stream_request|]. intros [] w1 Hi1; [by apply IH|by apply wp_ret].
Qed.

Lemma wp_inv_each {A} (body : A → app unit) xs w :
  (∀ x w', Inv w' → wp (body x) (λ _, Inv) nofault w') → Inv w → wp (app_each body xs) (λ _, Inv) nofault w.
Proof. intros Hb. apply wp_each. intros x w' _. apply Hb. Qed.

Lemma take_requests_same w : same w (take_requests w).1.
Proof.
  unfold take_requests. destruct (Readiness.take_work _ _) as [r objects] eqn:E. cbn.
  split; [done|apply ep_same_refl|done|]. intros o. change (has_bit 4 r o = has_bit 4 (a_work w) o).
  injection E as <- _. unfold has_bit. cbn. rewrite lookup_omap.
  destruct (Readiness.ready (a_work w) !! o) as [bits|]; [|done]. cbn. unfold Readiness.retain_work.
  set (kept_bits := if _ =? 0 then bits else _).
  assert (Z.testbit kept_bits 4 = Z.testbit bits 4) as Hk.
  { unfold kept_bits. destruct (_ =? 0); [done|]. rewrite Z.ldiff_spec. apply andb_true_r. }
  etrans; [|exact Hk]. destruct (Z.eqb_spec kept_bits 0) as [Ez|]; [by rewrite Ez|done].
Qed.

Lemma wp_layers n w : Inv w → wp (drain_layers n) (λ _, Inv) nofault w.
Proof.
  intros Hi. unfold drain_layers. eapply wp_seq.
  { apply (wp_while_any 1 Inv); [lia|lia|apply inv_same| |exact Hi]. intros o w' Hi'.
    apply stays_inv; [apply Hi'|]. apply stays_stream_releases, Hi'. }
  intros [] w1 Hi1. apply wp_quiet_bind.
  { split; [apply take_requests_same|]. intros e. unfold take_requests. by destruct (Readiness.take_work _ _). }
  intros objects w2 _ S2. eapply wp_seq; [apply wp_inv_each; [|by apply (inv_same w1)]|].
  - intros o w' Hi'. unfold serve_stream. eapply wp_seq; [by apply wp_stream_requests|]. intros [] w3 Hi3.
    apply Inv_quiet; [done|]. apply Quiet_at, _.
  - intros [] w3 Hi3. apply (wp_while_any 2 Inv); [lia|lia|apply inv_same| |exact Hi3]. intros o w' Hi'.
    apply stays_inv; [apply Hi'|]. apply stays_stream_config, Hi'.
Qed.

End sound.
