(* ===== verification/HostEvents.v ===== *)
(** * The presenter's turns and the compositor's callbacks

    One turn of the main loop and every callback keep the invariant [Inv]
    while no failure is recorded; a failure that is recorded or returned is no
    [fault] of the presenter. *)

From S2P Require Import Hoare Transport Protocol TaskState Ipc Endpoint EndpointProofs EndpointSpec EndpointView PresenterWork PresenterTime.
From S2P Require Import Bytes Syncobj FrameGrants LayerStream LayerPresenter LayerRelease LayerFrame HostApp HostFrames HostTurn HostView HostQuiet HostBooks HostSteps HostPool HostShow HostLife HostReturn HostActions HostSound Prelude.

Section events.

Context {K : Type} `{HostOps K}.

Abbreviation App := (HostApp.App K).
Abbreviation app := (HostApp.app (K := K)).
Implicit Types w : App.

(** ** Timelines *)

Lemma stays_task_timeline obj w : sound w → stays (λ _, sound) (refresh_task_timeline obj) w.
Proof.
  intros Hs. unfold refresh_task_timeline. apply settles_get. destruct (a_windows w !! obj) as [t|] eqn:Ht; [|by apply settles_ret].
  cbv zeta. destruct (_ || _ || _); [by apply settles_ret|].
  apply settles_bind; [unfold app_when; destruct (_ || _); [by apply settles_abort|by apply settles_ret]|].
  intros [] w1 _ Hs1 C1. apply settles_quiet; [done|]. apply Quiet_at.
  apply Quiet_bind; [|intros; by apply Quiet_update].
  destruct (timeline_output w t); [|apply _]. destruct (env_manager _); [|apply _].
  apply Quiet_bind; [apply _|intros; apply _].
Qed.

Lemma quiet_refresh_clock w : quiet_at refresh_clock w.
Proof.
  unfold refresh_clock. apply quiet_get. cbv zeta. destruct (bool_decide _); [apply Quiet_ret|].
  apply Quiet_at, Quiet_bind; [|intros; apply Quiet_modify; intros; by apply same_start].
  match goal with |- context [match ?o with Some _ => _ | None => _ end] => destruct o end; [|apply _].
  destruct (env_manager _); [|apply _]. apply Quiet_bind; [apply _|intros; apply _].
Qed.

Lemma wp_timelines w : Inv w → wp refresh_frame_timelines (λ _, Inv) nofault w.
Proof.
  intros Hi. unfold refresh_frame_timelines. apply wp_bind, wp_get. destruct (_ && _).
  { destruct (env_clock_id _); [by apply wp_throw|by apply wp_ret]. }
  eapply wp_seq.
  - apply wp_inv_each; [|exact Hi]. intros o w' Hi'. apply stays_inv; [apply Hi'|]. apply stays_task_timeline, Hi'.
  - intros [] w1 Hi1. apply Inv_quiet; [done|]. apply quiet_refresh_clock.
Qed.

Lemma wp_flush w : Inv w → wp flush_timeline_frames (λ _, Inv) nofault w.
Proof.
  intros Hi. apply (wp_while_any 7 Inv); [lia|lia|apply inv_same| |exact Hi]. intros o w' Hi'.
  apply stays_inv; [apply Hi'|]. by apply stays_flush.
Qed.

Lemma wp_resizes w : Inv w → wp apply_pending_resizes (λ _, Inv) nofault w.
Proof. intros Hi. apply stays_inv; [apply Hi|]. apply settles_resizes, Hi. Qed.

Lemma mark_all_bit s work r o :
  Z.testbit work 4 = false →
  Z.testbit (default 0 (Readiness.mark_all s work r !! o)) 4 = Z.testbit (default 0 (r !! o)) 4.
Proof.
  intros Hw. unfold Readiness.mark_all. revert r. induction (elements s) as [|x l IH]; intros r; cbn [foldl]; [done|].
  rewrite IH, PresenterSpec.mark_in_lookup. case_decide as E; [|done]. subst. etrans; [apply Z.lor_spec|].
  by rewrite Hw, orb_false_r.
Qed.

(** ** One turn *)

Lemma wp_turn now n w : Inv w → wp (turn now n) (λ _, quiescent) nofault w.
Proof.
  intros Hi. unfold turn. apply wp_bind, wp_modify.
  assert (Inv (with_work (Readiness.notify_fallback now (a_work w)) w)) as Hi0.
  { apply (inv_same w); [|done]. split; [done|apply ep_same_refl|done|]. intros o.
    change (has_bit 4 (Readiness.notify_fallback now (a_work w)) o = has_bit 4 (a_work w) o).
    unfold Readiness.notify_fallback. destruct (Readiness.fallback_deadline _); [|done].
    destruct (_ <? _); [done|]. unfold has_bit, Readiness.with_deadline, Readiness.with_ready.
    cbn [Readiness.ready]. by rewrite !mark_all_bit. }
  eapply wp_seq; [by apply wp_unmap_requested|]. intros [] w1 [Hi1 _]. apply wp_bind, wp_get.
  eapply (wp_seq _ _ (λ _, Inv)).
  { destruct (a_fatal w1) as [e|] eqn:He; [|by apply wp_ret]. apply wp_throw. by apply (base_fatal _ (inv_base _ Hi1)). }
  intros [] w2 Hi2. eapply wp_seq; [by apply wp_resizes|]. intros [] w3 Hi3.
  eapply wp_seq; [by apply wp_accept|]. intros [] w4 Hi4.
  eapply wp_seq; [by apply wp_drain|]. intros [] w5 Hi5.
  eapply wp_seq; [by apply wp_timelines|]. intros [] w6 Hi6.
  eapply wp_seq; [by apply wp_flush|]. intros [] w7 Hi7.
  eapply wp_seq; [by apply wp_layers|]. intros [] w8 Hi8.
  eapply wp_seq; [by apply wp_unmap_requested|]. intros [] w9 Hi9. by apply wp_release.
Qed.

(** ** Callbacks *)

(** After a callback: the invariant, or a recorded failure that is no fault. *)
Definition settled w : Prop :=
  (∀ e, a_fatal w = Some e → fault e = false) ∧ (a_fatal w = None → Inv w).

Lemma inv_settled w : Inv w → settled w.
Proof. intros Hi. split; [apply (inv_base _ Hi)|done]. Qed.

Lemma settled_fail e w : fault e = false → settled (with_fatal (Some e) w).
Proof. intros He. by split; [intros ? [= <-]|]. Qed.

Lemma wp_settled {A} (m : app A) w : wp m (λ _, Inv) nofault w → wp m (λ _, settled) nofault w.
Proof. intros Hm. eapply wp_mono; [exact Hm| |done]. intros a w'. apply inv_settled. Qed.

Lemma wp_guarded m w : wp m (λ _, Inv) nofault w → wp (guarded m) (λ _, settled) nofault w.
Proof.
  intros Hm. unfold guarded. apply wp_bind, wp_attempt. intros w' r E.
  pose proof (wp_run _ _ _ _ _ _ Hm E) as Hr. destruct r as [a|e]; [by apply wp_ret, inv_settled|].
  by apply wp_modify, settled_fail.
Qed.

Lemma wp_guarded_quiet' m w : Inv w → quiet_at m w → wp (guarded m) (λ _, settled) nofault w.
Proof. intros Hi Hq. apply wp_guarded. by apply Inv_quiet. Qed.

Lemma inv_quiet_bind {A B} (m : app A) (f : A → app B) (Q : B → App → Prop) w :
  Inv w → quiet_at m w → (∀ a w', m w = (w', Ok a) → same w w' → Inv w' → wp (f a) Q nofault w') →
  wp (m ≫= f) Q nofault w.
Proof. intros Hi Hq Hf. apply wp_quiet_bind; [done|]. intros a w' E S1. apply Hf; [done|done|by apply (inv_same w)]. Qed.

(** *** Windows *)

Lemma surface_task root w obj : task_for_surface root w = Some obj → is_Some (a_windows w !! obj).
Proof.
  unfold task_for_surface. intros E. destruct (List.find _ _) as [[o t]|] eqn:F; [|done]. injection E as <-.
  apply find_some in F as [F _]. apply list_elem_of_In, btree_items_elem in F. by eexists.
Qed.

Lemma wp_request_close root w : Inv w → wp (request_close root) (λ _, settled) nofault w.
Proof.
  intros Hi. unfold request_close. apply wp_bind, wp_get.
  destruct (task_for_surface root w) as [obj|]; [|by apply wp_ret, inv_settled].
  destruct (a_host w).2 as [d|] eqn:Hd; [|by apply wp_ret, inv_settled]. apply wp_bind, wp_attempt. intros w1 r E.
  assert (quiet_at (on_endpoint (send_close obj)) w) as [S1 He].
  { apply quiet_endpoint; [apply _|apply EpKeeps_close|]. rewrite Hd. by eexists. }
  rewrite E in S1, He. cbn in S1, He. pose proof (inv_same _ _ S1 Hi) as Hi1.
  destruct r as [[]|e]; [|by apply wp_modify, settled_fail, He].
  apply (wp_update _ _ (λ t, wv_with_flags ((wv_flags t).1.1, true, (wv_flags t).2) (wv_root t) t)); [done|].
  intros w2 E2 Eh2 St2 _ _. apply wp_modify. set (w3 := with_work _ w2). apply inv_settled.
  assert (calm w1 w2) as C2 by (apply (calm_alter _ _ _ _ E2 St2); auto).
  destruct (calm_base _ _ C2 (inv_base _ Hi1)) as [H1 H2 H3]. split; [|split; [|done|done]].
  - change (sound w2). unfold sound, kept. rewrite Eh2, E2. apply kept_alter; [apply Hi1|].
    intros d' t _ _ Ha. destruct (ep_view d' !! obj) as [v|]; [|done]. by apply ok_flags.
  - intros o t Ht Hc Hw. change (has_bit 4 (a_work w3) o = true). unfold w3. cbn [with_work a_work].
    rewrite has_bit_mark. pose proof (H1 o t Ht Hc Hw) as Hb. unfold unmap_bit in Hb. by rewrite Hb.
Qed.

Lemma wp_window_configured root requested initial fixed w :
  Inv w → wp (window_configured root requested initial fixed) (λ _, settled) nofault w.
Proof.
  intros Hi. apply wp_settled. unfold window_configured. apply wp_bind, wp_get.
  destruct (task_for_surface root w ≫= _) as [[obj t]|]; [|by apply wp_ret]. apply Inv_quiet; [done|]. apply Quiet_at. destruct (negb _); [apply _|]. cbv zeta.
  apply Quiet_bind; [by apply Quiet_update|intros _]. by apply Quiet_mark.
Qed.

Lemma wp_preferred_scale obj scale w : Inv w → wp (preferred_scale obj scale) (λ _, settled) nofault w.
Proof.
  intros Hi. unfold preferred_scale. destruct (scale =? 0); [by apply wp_modify, settled_fail|].
  apply wp_settled. apply wp_bind, wp_get. destruct (a_windows w !! obj) as [t|]; [|by apply wp_ret].
  destruct (negb _); [by apply wp_ret|]. destruct (Resize.preferred_scale _ _ _) as [pending changed].
  apply Inv_quiet; [done|]. apply Quiet_at. apply Quiet_bind; [by apply Quiet_update|intros _].
  by apply Quiet_when, Quiet_mark.
Qed.

Lemma quiet_updated_refresh obj f w :
  Inv w → is_Some (a_windows w !! obj) → (∀ t, win_view (f t) = win_view t) →
  wp (_ ← update_window obj f; guarded (update_task_refresh obj)) (λ _, settled) nofault w.
Proof.
  intros Hi Hl Hf. apply inv_quiet_bind; [done|by apply Quiet_at, Quiet_update|]. intros [] w1 _ S1 Hi1.
  apply wp_guarded_quiet'; [done|]. apply quiet_task_refresh, (live_same _ w); [done|]. apply sound_live; [apply Hi|done].
Qed.

Lemma wp_surface_enter root output w : Inv w → wp (surface_enter root output) (λ _, settled) nofault w.
Proof.
  intros Hi. unfold surface_enter. apply wp_bind, wp_get.
  destruct (task_for_surface root w) as [obj|] eqn:Eo; [|by apply wp_ret, inv_settled].
  apply quiet_updated_refresh; [done|by apply (surface_task root)|done].
Qed.

Lemma wp_surface_leave root output w : Inv w → wp (surface_leave root output) (λ _, settled) nofault w.
Proof.
  intros Hi. unfold surface_leave. apply wp_bind, wp_get.
  destruct (task_for_surface root w) as [obj|] eqn:Eo; [|by apply wp_ret, inv_settled].
  apply quiet_updated_refresh; [done|by apply (surface_task root)|done].
Qed.

(** *** Outputs *)

Lemma stays_reconfigure w : sound w → stays (λ _, sound) reconfigure_bootstrap w.
Proof.
  intros Hs. unfold reconfigure_bootstrap. apply settles_get.
  destruct (fst <$> _) as [obj|] eqn:Eo; [|by apply settles_ret].
  destruct (host_canvas_size _) as [[width height]|]; [|by apply settles_ret]. apply settles_configure; [done|].
  destruct (List.find _ _) as [[o t]|] eqn:F; [|done]. injection Eo as <-.
  apply find_some in F as [F _]. apply list_elem_of_In, btree_items_elem in F. rewrite wins_lookup, F. by eexists.
Qed.

Lemma sound_refreshes w : sound w → quiet_at update_output_refreshes w.
Proof.
  intros Hs. unfold update_output_refreshes. apply quiet_get.
  apply quiet_each; [intros; by apply quiet_task_refresh|]. intros o Ho. apply sound_live; [done|].
  by apply btree_keys_elem.
Qed.

Lemma wp_outputs_changed outputs w : Inv w → wp (outputs_changed outputs) (λ _, settled) nofault w.
Proof.
  intros Hi. unfold outputs_changed. apply inv_quiet_bind; [done|apply Quiet_at, Quiet_modify; intros; by apply same_start|].
  intros [] w1 _ _ Hi1. apply wp_guarded, stays_inv; [apply Hi1|].
  apply (stays_bind (λ _, sound)); [apply stays_reconfigure, Hi1|]. intros [] w2 _ Hs2 _.
  apply settles_quiet; [done|]. by apply sound_refreshes.
Qed.

Lemma wp_output_destroyed output outputs w : Inv w → wp (output_destroyed output outputs) (λ _, settled) nofault w.
Proof.
  intros Hi. unfold output_destroyed. apply inv_quiet_bind; [done|apply Quiet_at, Quiet_modify; intros; by apply same_start|].
  intros [] w1 _ _ Hi1. apply inv_quiet_bind; [done| |].
  { apply Quiet_at, Quiet_modify. intros w'. apply same_windows. unfold wins. by rewrite <- map_fmap_compose. }
  intros [] w2 _ _ Hi2. apply wp_guarded, stays_inv; [apply Hi2|].
  apply (stays_bind (λ _, sound)); [apply stays_reconfigure, Hi2|]. intros [] w3 _ Hs3 _.
  apply settles_quiet; [done|]. by apply sound_refreshes.
Qed.

(** *** Focus *)

#[global] Instance Quiet_visibility o v b : Quiet (K := K) (with_endpoint (send_visibility o v b)).
Proof. apply Quiet_with_endpoint; [apply _|apply EpKeeps_visibility]. Qed.

#[global] Instance Quiet_set_focus obj : Quiet (K := K) (set_focus obj).
Proof.
  unfold set_focus. apply Quiet_bind; [apply _|intros w]. destruct (bool_decide _); [apply _|].
  apply Quiet_bind.
  { destruct (_ ≫= _); [|apply _]. apply Quiet_bind; [by apply Quiet_update|intros; apply _]. }
  intros _. apply Quiet_bind; [apply Quiet_modify; intros; by apply same_start|intros _].
  destruct (_ ≫= _); [|apply _]. apply Quiet_bind; [by apply Quiet_update|intros; apply _].
Qed.

Lemma wp_keyboard_enter root w : Inv w → wp (keyboard_enter root) (λ _, settled) nofault w.
Proof. intros Hi. unfold keyboard_enter. apply wp_bind, wp_get. apply wp_guarded_quiet'; [done|apply Quiet_at, _]. Qed.

Lemma wp_keyboard_leave root w : Inv w → wp (keyboard_leave root) (λ _, settled) nofault w.
Proof.
  intros Hi. unfold keyboard_leave. apply wp_bind, wp_get. destruct (bool_decide _); [|by apply wp_ret, inv_settled].
  apply wp_guarded_quiet'; [done|apply Quiet_at, _].
Qed.

(** *** Presentation *)

Lemma scene_callback_found proxy w obj index :
  scene_callback proxy w = Some (obj, index) →
  ∃ t x, a_windows w !! obj = Some t ∧ lt_scene_feedback (tw_task t) !! index = Some x.
Proof.
  unfold scene_callback. intros E%head_Some_elem_of. apply list_elem_of_omap in E as ([o t] & Hin & E).
  apply btree_items_elem in Hin. cbn in E. destruct (position _ _) as [i|] eqn:Ep; [|done]. injection E as <- <-.
  apply position_Some in Ep as (x & Hx & _). by exists t, x.
Qed.

Lemma frame_callback_found proxy root w obj index :
  frame_callback_at proxy root w = Some (obj, index) →
  ∃ t x, a_windows w !! obj = Some t ∧ tw_feedback t !! index = Some x.
Proof.
  unfold frame_callback_at. destruct (task_for_surface root w) as [o|]; cbn; [|done].
  destruct (a_windows w !! o) as [t|] eqn:Ht; cbn; [|done].
  destruct (position _ _) as [i|] eqn:Ep; [|done]. intros [= <- <-].
  apply position_Some in Ep as (x & Hx & _). by exists t, x.
Qed.

Lemma quiet_scene_report obj scene tm changed w : live obj w → quiet_at (report_scene obj scene tm changed) w.
Proof.
  intros Hl. unfold report_scene. apply quiet_bind.
  { unfold app_when. destruct changed; [by apply quiet_task_refresh|apply Quiet_ret]. }
  intros [] w1 _ S1. pose proof (live_same _ _ _ S1 Hl) as Hl1. apply quiet_bind; [by apply quiet_window|].
  intros t w2 _ S2. pose proof (live_same _ _ _ S2 Hl1) as Hl2.
  apply quiet_bind; [apply Quiet_at, Quiet_map_err; by intros []|]. intros refresh w3 _ S3.
  apply quiet_bind; [apply Quiet_at, Quiet_map_err; by intros []|]. intros stamp w4 _ S4.
  pose proof (live_same _ _ _ (transitivity S3 S4) Hl2) as Hl4.
  unfold app_when. destruct (negb _); [|apply Quiet_ret]. unfold on_timed_endpoint. apply quiet_get.
  destruct Hl4 as [_ [d Hd]]. rewrite Hd. apply quiet_endpoint; [apply _|apply EpKeeps_scene|]. rewrite Hd. by eexists.
Qed.

Lemma wp_scene_presented obj index outputs tm t x w :
  Inv w → a_windows w !! obj = Some t → lt_scene_feedback (tw_task t) !! index = Some x →
  wp (scene_presented obj index outputs tm) (λ _, settled) nofault w.
Proof.
  intros Hi Ht Hx. unfold scene_presented. apply (wp_window _ _ _ _ _ Ht). rewrite Hx. apply wp_bind, wp_lift.
  cbn [ok_or]. cbv zeta. assert (live obj w) as Hl by (apply sound_live; [apply Hi|by eexists]).
  destruct (_ || _ || _ || _).
  - apply wp_settled. apply inv_quiet_bind; [done|by apply Quiet_at, Quiet_update|]. intros [] w1 _ _ Hi1.
    apply Inv_quiet; [done|]. by apply Quiet_at, Quiet_mark.
  - apply inv_quiet_bind; [done|by apply Quiet_at, Quiet_update|]. intros [] w1 _ S1 Hi1.
    apply inv_quiet_bind; [done|by apply Quiet_at, Quiet_mark|]. intros [] w2 _ S2 Hi2.
    apply wp_guarded_quiet'; [done|]. apply quiet_scene_report. exact (live_same _ _ _ (transitivity S1 S2) Hl).
Qed.

Lemma quiet_follow obj outputs w : live obj w → quiet_at (follow_output obj outputs) w.
Proof.
  intros Hl. unfold follow_output. apply quiet_bind; [by apply quiet_window|]. intros t w1 _ S1.
  destruct (List.find _ _) as [o|]; [|apply Quiet_ret]. destruct (bool_decide _); [apply Quiet_ret|].
  apply quiet_bind; [by apply Quiet_at, Quiet_update|]. intros [] w2 _ S2.
  apply quiet_task_refresh. exact (live_same _ _ _ (transitivity S1 S2) Hl).
Qed.

(** The callback of a frame is over: the window has dropped it, the endpoint
    still tracks the frame. *)
Definition dropped obj f w : Prop :=
  Inv w ∧ ∀ d v t, (a_host w).2 = Some d → ep_view d !! obj = Some v → wins w !! obj = Some t →
    (f ∉ ff_frame <$> wv_feedback t) ∧ f ∈ tv_tracked v.

Lemma same_dropped obj f w w' : same w w' → dropped obj f w → dropped obj f w'.
Proof.
  intros S1 (Hi & Hf). split; [by apply (inv_same w)|]. intros d' v t Hd'. pose proof (sm_ep _ _ S1) as E.
  rewrite Hd' in E. destruct (a_host w).2 as [d|] eqn:Hd; [|done]. destruct E as [-> _].
  rewrite (sm_wins _ _ S1). by apply Hf.
Qed.

Lemma wp_drop_frame obj index grant term t x w :
  Inv w → a_windows w !! obj = Some t → tw_feedback t !! index = Some x →
  wp (update_window obj (drop_frame_callback index grant term))
     (λ _ w', dropped obj (ff_frame x) w' ∧ live obj w') nofault w.
Proof.
  intros Hi Ht Hx. pose proof (swap_remove_perm _ _ _ Hx) as Hp.
  assert (wins w !! obj = Some (win_view t)) as Hv by (by rewrite wins_lookup, Ht).
  apply (wp_updated _ _ (λ t, wv_with_feedback (swap_remove index (wv_feedback t)) t)); [done|].
  intros w' E Eh St. assert (calm w w') as C1 by (apply (calm_alter _ _ _ _ E St); auto).
  assert (∀ v, win_ok [] (win_view t) v →
    NoDup (ff_frame x :: (ff_frame <$> swap_remove index (tw_feedback t))) ∧ (ff_frame x ∈ tv_tracked v)
    ∧ ∀ f, f ∈ ff_frame <$> swap_remove index (tw_feedback t) → f ∈ tv_tracked v) as Hok.
  { intros v Hw. pose proof (wk_feedback _ _ _ Hw) as Hn. pose proof (wk_tracked _ _ _ Hw) as Htr.
    cbn in Hn, Htr. rewrite Hp in Hn. split; [exact Hn|]. split; [apply Htr; rewrite Hp; by left|].
    intros f Hf. apply Htr. rewrite Hp. by right. }
  pose proof (inv_sound _ Hi) as Hs.
  assert (sound w') as Hs'.
  { unfold sound, kept. rewrite Eh, E. apply kept_alter; [exact Hs|]. intros d u _ Hu Ha.
    rewrite Hv in Hu. injection Hu as <-. destruct (ep_view d !! obj) as [v|]; [|done].
    destruct (Hok v Ha) as (H1 & H2 & H3). apply NoDup_cons in H1 as [_ H1]. by apply ok_feedback. }
  assert (live obj w) as Hl by (apply sound_live; [done|by eexists]).
  split; [split|].
  - by apply (calm_inv w); [| |apply Hi].
  - intros d v u Hd Hdv. rewrite E, lookup_alter_eq, Hv, Eh in *. intros [= <-]. cbn.
    unfold sound, kept in Hs. rewrite Hd in Hs. pose proof (books_at _ _ _ _ _ Hs Hv) as Ha. rewrite Hdv in Ha.
    destruct (Hok v (proj1 Ha)) as (H1 & H2 & _). by apply NoDup_cons in H1 as [H1 _].
  - by apply (calm_live _ w).
Qed.

(** The endpoint forgets the frame. *)
Lemma untracked_inv obj f w (k : K) d d' :
  dropped obj f w → (a_host w).2 = Some d → ep_inv d' → ep_view d' = alter (untracked f) obj (ep_view d) →
  Inv (with_host (k, Some d') w).
Proof.
  intros [Hi Hf] Hd Hd' Ev. set (w' := with_host _ w).
  apply (calm_inv w); [by apply calm_eq; [|apply step_host]| |apply Hi].
  pose proof (inv_sound _ Hi) as Hs. unfold sound, kept in *. rewrite Hd in Hs. change (wins w') with (wins w).
  change (a_host w').2 with (Some d'). apply (books_step _ _ _ _ _ _ obj Hs Hd').
  - intros o Hne. by rewrite Ev, lookup_alter_ne.
  - rewrite Ev, lookup_alter_eq. pose proof (proj2 Hs obj) as Ha.
    destruct (wins w !! obj) as [t|] eqn:Ht; destruct (ep_view d !! obj) as [v|] eqn:Hv; cbn [fmap option_fmap option_map]; try done.
    destruct (Hf d v t Hd Hv eq_refl) as [Hn _]. apply ok_tracked; [exact Ha|]. intros g Hg.
    pose proof (wk_tracked _ _ _ Ha g Hg). apply elem_of_difference. split; [done|].
    rewrite elem_of_singleton. intros ->. done.
Qed.

Lemma wp_report_presented obj f stamp refresh sequence flags w :
  dropped obj f w → live obj w →
  wp (on_timed_endpoint (send_presented obj f stamp refresh sequence flags)) (λ _, Inv) nofault w.
Proof.
  intros Hdr [[t Ht] [d Hd]]. unfold on_timed_endpoint. apply wp_bind, wp_get. rewrite Hd.
  apply (wp_endpoint _ _ _ _ Hd). pose proof (inv_sound _ (proj1 Hdr)) as Hs. unfold sound, kept in Hs. rewrite Hd in Hs.
  eapply wp_mono; [apply send_presented_view; [apply Hs|]| |done].
  - intros v Hv. left. by apply (proj2 Hdr d v t).
  - intros [] [k d'] [Hi' Ev]. by apply (untracked_inv obj f w k d d').
Qed.

Lemma wp_forget obj f w :
  dropped obj f w → wp (with_endpoint (forget_presentation obj f)) (λ _, Inv) nofault w.
Proof.
  intros Hdr. unfold with_endpoint. apply wp_bind, wp_get. destruct (a_host w).2 as [d|] eqn:Hd; [|apply wp_ret, Hdr].
  apply (wp_endpoint _ _ _ _ Hd). pose proof (inv_sound _ (proj1 Hdr)) as Hs. unfold sound, kept in Hs. rewrite Hd in Hs.
  eapply wp_mono; [apply forget_presentation_view, Hs| |done].
  intros [] [k d'] [Hi' Ev]. by apply (untracked_inv obj f w k d d').
Qed.

Lemma wp_report_frame obj index tm t x w :
  Inv w → a_windows w !! obj = Some t → tw_feedback t !! index = Some x →
  wp (report_frame obj index tm) (λ _, Inv) nofault w.
Proof.
  intros Hi Ht Hx. unfold report_frame.
  apply inv_quiet_bind; [done|by apply Quiet_at, Quiet_fail_if|]. intros [] w1 E _ Hi1.
  assert (w1 = w) as -> by (unfold lift in E; by destruct (fail_if _ _); simplify_eq).
  apply (wp_window _ _ _ _ _ Ht). rewrite Hx. apply wp_bind, wp_lift. cbn [ok_or].
  eapply wp_seq; [by eapply wp_drop_frame|]. intros [] w2 [Hd2 Hl2].
  apply wp_quiet_bind; [by apply Quiet_at, Quiet_mark|]. intros [] w3 _ S3.
  apply wp_quiet_bind; [apply Quiet_at, Quiet_map_err; by intros []|]. intros stamp w4 _ S4.
  apply wp_quiet_bind; [apply Quiet_at, Quiet_map_err; by intros []|]. intros refresh w5 _ S5.
  pose proof (transitivity S3 (transitivity S4 S5)) as S35.
  apply wp_report_presented; [by apply (same_dropped _ _ w2)|by apply (live_same _ w2)].
Qed.

Lemma wp_frame_presented obj index outputs tm t x w :
  Inv w → a_windows w !! obj = Some t → tw_feedback t !! index = Some x →
  wp (frame_presented obj index outputs tm) (λ _, settled) nofault w.
Proof.
  intros Hi Ht Hx. unfold frame_presented. apply wp_guarded.
  apply inv_quiet_bind; [done|apply quiet_follow, sound_live; [apply Hi|by eexists]|]. intros [] w1 _ S1 Hi1.
  assert (wins w1 !! obj = Some (win_view t)) as Ht1 by (by rewrite (sm_wins _ _ S1), wins_lookup, Ht).
  destruct (wins_Some _ _ _ Ht1) as (u & Hu & Eu). apply (wp_report_frame _ _ _ u x); [done|done|].
  assert (tw_feedback u = tw_feedback t) as -> by exact (f_equal wv_feedback Eu). exact Hx.
Qed.

Lemma wp_presented proxy root outputs tm w : Inv w → wp (presented proxy root outputs tm) (λ _, settled) nofault w.
Proof.
  intros Hi. unfold presented. apply wp_bind, wp_get. destruct (scene_callback proxy w) as [[obj index]|] eqn:Es.
  - apply scene_callback_found in Es as (t & x & Ht & Hx). by eapply wp_scene_presented.
  - destruct (frame_callback_at proxy root w) as [[obj index]|] eqn:Ef; [|by apply wp_ret, inv_settled].
    apply frame_callback_found in Ef as (t & x & Ht & Hx). by eapply wp_frame_presented.
Qed.

Lemma wp_discarded proxy root w : Inv w → wp (discarded proxy root) (λ _, settled) nofault w.
Proof.
  intros Hi. apply wp_settled. unfold discarded. apply wp_bind, wp_get.
  destruct (scene_callback proxy w) as [[obj index]|] eqn:Es.
  - apply scene_callback_found in Es as (t & x & Ht & Hx). apply (wp_window _ _ _ _ _ Ht). rewrite Hx.
    apply wp_bind, wp_lift. cbn [ok_or]. apply inv_quiet_bind; [done|by apply Quiet_at, Quiet_update|].
    intros [] w1 _ _ Hi1. apply Inv_quiet; [done|]. by apply Quiet_at, Quiet_mark.
  - destruct (frame_callback_at proxy root w) as [[obj index]|] eqn:Ef; [|by apply wp_ret].
    apply frame_callback_found in Ef as (t & x & Ht & Hx). apply (wp_window _ _ _ _ _ Ht). rewrite Hx.
    apply wp_bind, wp_lift. cbn [ok_or]. eapply wp_seq; [by eapply wp_drop_frame|]. intros [] w1 [Hd1 Hl1].
    apply wp_quiet_bind; [by apply Quiet_at, Quiet_mark|]. intros [] w2 _ S2.
    apply wp_forget. by apply (same_dropped _ _ w1).
Qed.

(** *** Timing objects *)

Lemma wp_timeline_event obj proxy e w : Inv w → wp (timeline_event obj proxy e) (λ _, settled) nofault w.
Proof.
  intros Hi. unfold timeline_event. apply wp_bind, wp_get.
  destruct (a_windows w !! obj) as [t|] eqn:Ht; [|by apply wp_ret, inv_settled].
  destruct (negb _); [by apply wp_ret, inv_settled|]. apply wp_guarded, stays_inv; [apply Hi|]. destruct e as [parts|g].
  - cbv zeta. apply (stays_bind (λ _, sound)).
    + unfold app_when. destruct (match sc_epoch _ with Some _ => _ | None => _ end); [by apply settles_abort, Hi|by apply settles_ret, Hi].
    + intros [] w1 _ Hs1 _. apply settles_quiet; [done|]. by apply Quiet_at, Quiet_update.
  - apply settles_quiet; [apply Hi|]. apply Quiet_at.
    apply Quiet_bind; [apply Quiet_map_err; by intros []|intros grant]. apply Quiet_bind; [apply _|intros now].
    apply Quiet_bind; [by apply Quiet_update|intros _]. apply Quiet_bind; [by apply Quiet_mark|intros _]. apply _.
Qed.

Lemma quiet_grant a b c w : is_Some (a_host w).2 → quiet_at (on_endpoint (send_frame_grant a b c)) w.
Proof. intros He. apply quiet_endpoint; [apply _|apply EpKeeps_grant|done]. Qed.

Lemma quiet_attempt {A B} (m : app A) (f : result LayerError A → app B) w :
  quiet_at m w →
  (∀ r w', match r with Err e => fault e = false | _ => True end → same w w' → quiet_at (f r) w') →
  quiet_at (r ← attempt m; f r) w.
Proof.
  intros [Hs He] Hf. unfold quiet_at, mbind, method_bind, attempt. destruct (m w) as [w' r]. cbn in *.
  destruct (Hf r w') as [H1 H2]; [destruct r; [done|by apply He]|done|].
  split; [exact (transitivity Hs H1)|exact H2].
Qed.

Lemma wp_clock_event proxy e w : Inv w → wp (clock_event proxy e) (λ _, settled) nofault w.
Proof.
  intros Hi. unfold clock_event. apply wp_bind, wp_get. destruct (negb _); [by apply wp_ret, inv_settled|].
  apply wp_guarded_quiet'; [done|].
  apply quiet_bind; [apply Quiet_at, Quiet_map_err; by intros []|]. intros grant w1 E S1.
  apply quiet_bind.
  - destruct (a_host w).2 as [d|] eqn:Hd; [|apply Quiet_ret]. apply quiet_attempt.
    + apply quiet_grant. pose proof (sm_ep _ _ S1) as Ep. rewrite Hd in Ep. destruct (a_host w1).2; [by eexists|done].
    + intros r w2 Hr _. destruct r as [u|e']; [apply Quiet_ret|].
      assert (quiet_at (throw (A := unit) e') w2) as Hx by by apply Quiet_throw.
      destruct e'; try exact Hx. destruct e0; try exact Hx. destruct e0; try exact Hx.
      destruct (_ =? _); [apply Quiet_ret|exact Hx].
  - intros [] w2 _ _. apply Quiet_at, Quiet_bind; [apply _|intros now]. apply _.
Qed.

(** A failed abort is recorded and leaves the books in order too. *)
Lemma wp_guarded_lands m w : base w → lands m w → wp (guarded m) (λ _, Inv) nofault w.
Proof.
  intros Hb (H1 & H2 & H3). unfold guarded. apply wp_bind, wp_attempt. intros w' r E. rewrite E in H1, H2, H3.
  cbn in *. pose proof (calm_base _ _ H2 Hb) as [B1 B2 B3]. destruct r as [a|e]; [by apply wp_ret|].
  apply wp_modify. split; [exact H1|split; [exact B1|exact B2|]]. intros x [= <-]. by apply H3.
Qed.

Lemma wp_manager_removed w : Inv w → wp manager_removed (λ _, settled) nofault w.
Proof.
  intros Hi. apply wp_settled. unfold manager_removed. apply wp_bind, wp_get. destruct (env_manager _); [|by apply wp_ret].
  cbn [app_when]. apply inv_quiet_bind; [done|apply Quiet_at, Quiet_modify; intros; by apply same_start|].
  intros [] w1 _ _ Hi1. apply wp_inv_each; [|done]. intros o w2 Hi2. unfold stop_task_timeline. apply wp_bind, wp_get.
  destruct (a_windows w2 !! o) as [t|]; [|by apply wp_ret]. destruct (tl_exact _); [|by apply wp_ret]. cbn [app_when].
  eapply wp_seq; [apply wp_guarded_lands; [apply Hi2|apply lands_abort, Hi2]|]. intros [] w3 Hi3.
  apply Inv_quiet; [done|]. by apply Quiet_at, Quiet_update.
Qed.

Lemma wp_import_done params buffer objs : ∀ w, Inv w → wp (import_done params buffer objs) (λ _, settled) nofault w.
Proof.
  induction objs as [|o objs IH]; intros w Hi; cbn [import_done].
  { apply wp_settled, Inv_quiet; [done|]. apply Quiet_at. destruct buffer; apply _. }
  apply wp_bind, wp_get. destruct (has_layers o w) eqn:Hl; cbn [negb]; [|by apply IH].
  apply inv_quiet_bind; [done|apply quiet_layers; [apply (@Still_imported _ _ (stream_ops o) snd _)|done]|].
  intros [[failed resumes]|] w1 _ _ Hi1; [|by apply IH].
  eapply (wp_seq _ _ (λ _, settled)).
  - destruct failed; [by apply wp_modify, settled_fail|by apply wp_ret, inv_settled].
  - intros [] w2 [H1 H2]. apply (wp_mono _ (λ _, same w2) _ nofault); [by apply wp_quiet, Quiet_at, Quiet_when, Quiet_mark| |done].
    intros [] w3 S3. split; [by rewrite (sm_fatal _ _ S3)|]. intros Hf. apply (inv_same w2); [done|].
    apply H2. by rewrite <- (sm_fatal _ _ S3).
Qed.

Lemma wp_imported params buffer w : Inv w → wp (imported params buffer) (λ _, settled) nofault w.
Proof. intros Hi. unfold imported. apply wp_bind, wp_get. by apply wp_import_done. Qed.

End events.
