(* ===== verification/HostSpec.v ===== *)
(** * What the host presenter promises

    The presenter as a system of turns and callbacks, and the theorems about
    every state it reaches: the books agree with the endpoint, no operation
    fails because the presenter contradicted itself, no unmap request outlives
    a turn, and a buffer goes back only when the kernel reported its release. *)

From S2P Require Import Hoare Transport Protocol TaskState Ipc Endpoint EndpointProofs EndpointSpec EndpointView PresenterWork PresenterTime.
From S2P Require Import Bytes Syncobj FrameGrants LayerStream LayerPresenter LayerRelease LayerFrame HostApp HostFrames HostTurn HostView HostQuiet HostBooks HostSteps HostPool HostShow HostLife HostReturn HostActions HostSound HostEvents Prelude.

(** ** The system *)

(** What runs the presenter: a turn of its loop, a ready descriptor, a callback
    of the compositor. *)
Inductive HostEvent : Type :=
| EvTurn (now : Z) (records : nat)
| EvReady (source : Readiness.Source) (revents : Z)
| EvClose (root : Z)
| EvConfigured (root : Z) (requested : option Z * option Z) (initial : Resize.LogicalSize) (fixed : bool)
| EvScale (obj : TaskObjectId) (scale : Z)
| EvEnter (root output : Z)
| EvLeave (root output : Z)
| EvOutputs (outputs : list Output)
| EvOutputGone (output : Z) (outputs : list Output)
| EvKeyboardEnter (root : Z)
| EvKeyboardLeave (root : Z)
| EvPresented (proxy root : Z) (outputs : list Z) (timing : Timing)
| EvDiscarded (proxy root : Z)
| EvTimeline (obj : TaskObjectId) (proxy : Z) (e : OutputEvent)
| EvClock (proxy : Z) (e : GrantEvent)
| EvManagerRemoved
| EvImported (params : Z) (buffer : option Z).

(** The descriptors that are polled never stand for an unmap request. *)
Definition event_ok (e : HostEvent) : Prop :=
  match e with
  | EvReady (Readiness.TaskSource _ work _) _ => Z.testbit work 4 = false
  | _ => True
  end.

Section spec.

Context {K : Type} `{HostOps K}.

Abbreviation App := (HostApp.App K).
Abbreviation app := (HostApp.app (K := K)).
Implicit Types w : App.

Definition run_event (e : HostEvent) : app unit :=
  match e with
  | EvTurn now n => turn now n
  | EvReady source revents => modify (λ w, with_work (Readiness.notify source revents (a_work w)).1 w)
  | EvClose root => request_close root
  | EvConfigured root requested initial fixed => window_configured root requested initial fixed
  | EvScale obj scale => preferred_scale obj scale
  | EvEnter root output => surface_enter root output
  | EvLeave root output => surface_leave root output
  | EvOutputs outputs => outputs_changed outputs
  | EvOutputGone output outputs => output_destroyed output outputs
  | EvKeyboardEnter root => keyboard_enter root
  | EvKeyboardLeave root => keyboard_leave root
  | EvPresented proxy root outputs timing => presented proxy root outputs timing
  | EvDiscarded proxy root => discarded proxy root
  | EvTimeline obj proxy e => timeline_event obj proxy e
  | EvClock proxy e => clock_event proxy e
  | EvManagerRemoved => manager_removed
  | EvImported params buffer => imported params buffer
  end.

(** No connection, no window, nothing recorded. *)
Definition start w : Prop := (a_host w).2 = None ∧ a_windows w = ∅ ∧ a_fatal w = None.

(** The loop goes on while nothing failed. *)
Inductive reachable : App → Prop :=
| reach_start w : start w → reachable w
| reach_event w e w' :
    reachable w → event_ok e → run_event e w = (w', Ok tt) → a_fatal w' = None → reachable w'.

Lemma event_settled e w : event_ok e → Inv w → wp (run_event e) (λ _, settled) nofault w.
Proof.
  intros He Hi. destruct e; cbn [run_event event_ok] in *.
  - apply wp_settled. eapply wp_mono; [by apply wp_turn| |done]. by intros [] w' [Hi' _].
  - apply wp_settled, Inv_quiet; [done|]. destruct source as [|object work eventfd]; [apply Quiet_at, Quiet_modify; intros w'; by destruct w'|].
    apply Quiet_at, (Quiet_work (λ r, (Readiness.notify (Readiness.TaskSource object work eventfd) revents r).1)).
    intros r o. cbn [Readiness.notify fst]. destruct (_ =? 0); [done|].
    by rewrite has_bit_mark, He, andb_false_r, orb_false_r.
  - by apply wp_request_close.
  - by apply wp_window_configured.
  - by apply wp_preferred_scale.
  - by apply wp_surface_enter.
  - by apply wp_surface_leave.
  - by apply wp_outputs_changed.
  - by apply wp_output_destroyed.
  - by apply wp_keyboard_enter.
  - by apply wp_keyboard_leave.
  - by apply wp_presented.
  - by apply wp_discarded.
  - by apply wp_timeline_event.
  - by apply wp_clock_event.
  - by apply wp_manager_removed.
  - by apply wp_imported.
Qed.

Lemma reachable_Inv w : reachable w → Inv w.
Proof.
  induction 1 as [w (Hd & Hw & Hf)|w e w' _ IH He E Hf].
  - apply empty_inv; [unfold wins; by rewrite Hw, fmap_empty|done|by rewrite Hf].
  - pose proof (wp_run_Ok _ _ _ _ _ _ (event_settled e w He IH) E) as [_ Hs]. by apply Hs.
Qed.

Lemma reachable_open w : reachable w → a_fatal w = None.
Proof. by destruct 1 as [w (_ & _ & Hf)|]. Qed.

(** C9: in every state the presenter reaches, the windows agree with the tasks of
    the endpoint: the frames the endpoint still owes Android are, each exactly
    once, on the compositor's side or waiting at the window; the buffers it
    knows are the window's render targets; a target is busy exactly while a
    frame on the compositor's side uses it; and every callback the window
    expects is for a frame whose presentation the endpoint tracks. *)
Theorem host_books w d obj t v :
  reachable w → (a_host w).2 = Some d → a_windows w !! obj = Some t → ep_view d !! obj = Some v →
  map_to_list (tv_frames v) ≡ₚ (frame_of <$> tw_pending t) ++ (wire <$> queued_frame (lt_queued (tw_task t)))
  ∧ dom (tw_targets t) = tv_buffers v
  ∧ (∀ b r, tw_targets t !! b = Some r → rt_busy r = true ↔ b ∈ pf_buffer <$> tw_pending t)
  ∧ NoDup (ff_frame <$> tw_feedback t)
  ∧ (∀ f, f ∈ ff_frame <$> tw_feedback t → f ∈ tv_tracked v).
Proof.
  intros Hr Hd Ht Hv. pose proof (inv_sound _ (reachable_Inv _ Hr)) as Hs. unfold sound, kept in Hs. rewrite Hd in Hs.
  assert (wins w !! obj = Some (win_view t)) as Hwt by (by rewrite wins_lookup, Ht).
  pose proof (books_at _ _ _ _ _ Hs Hwt) as Ha. rewrite Hv in Ha. destruct Ha as [[H1 H2 H3 H4 H5 H6 H7 H8 H9] _].
  unfold owed in H2. cbn in *. rewrite app_nil_r in H2. split_and!; [done|done| |done|done].
  intros b r Hb. rewrite (H4 b r Hb). by rewrite app_nil_r.
Qed.

(** C26: the endpoint has no task without a window; a window whose task the
    endpoint has forgotten is closing and owes nothing; without a connection
    there is no window. *)
Theorem host_windows w :
  reachable w →
  match (a_host w).2 with
  | None => a_windows w = ∅
  | Some d =>
      (∀ obj, is_Some (ep_view d !! obj) → is_Some (a_windows w !! obj))
      ∧ ∀ obj t, a_windows w !! obj = Some t → ep_view d !! obj = None →
          closing t = true ∧ tw_pending t = [] ∧ lt_queued (tw_task t) = None
  end.
Proof.
  intros Hr. pose proof (inv_sound _ (reachable_Inv _ Hr)) as Hs. unfold sound, kept in Hs.
  destruct (a_host w).2 as [d|]; [|by apply (fmap_empty_inv win_view)]. split.
  - intros obj [v Hv]. destruct (books_window _ _ _ _ _ Hs Hv) as (t & Ht & _).
    destruct (wins_Some _ _ _ Ht) as (u & Hu & _). by eexists.
  - intros obj t Ht Hv. assert (wins w !! obj = Some (win_view t)) as Hwt by (by rewrite wins_lookup, Ht).
    pose proof (books_at _ _ _ _ _ Hs Hwt) as Ha. rewrite Hv in Ha. destruct Ha as [Hc Ho].
    unfold owed in Ho. apply List.app_eq_nil in Ho as [H1 H2]. apply List.app_eq_nil in H2 as [H2 _].
    apply fmap_nil_inv in H1, H2. split_and!; [done|done|]. cbn in H2. by destruct (lt_queued (tw_task t)).
Qed.




(** A run without a failure. *)
Fixpoint host_runs (es : list HostEvent) w : option App :=
  match es with
  | [] => Some w
  | e :: es =>
      match run_event e w with
      | (w', Ok _) => match a_fatal w' with None => host_runs es w' | Some _ => None end
      | (_, Err _) => None
      end
  end.

Lemma host_runs_reachable es : ∀ w w',
  reachable w → Forall event_ok es → host_runs es w = Some w' → reachable w'.
Proof.
  induction es as [|e es IH]; intros w w' Hr Hes; cbn [host_runs]; [by intros [= <-]|].
  apply Forall_cons in Hes as [He Hes]. destruct (run_event e w) as [w1 [[]|x]] eqn:E; [|done].
  destruct (a_fatal w1) eqn:Hf; [done|]. apply IH; [|done]. by apply (reach_event w e w1).
Qed.

End spec.

(** ** Witnesses: a scripted host *)

(** The kernel of the scripted connection and the point it reports signalled. *)
Definition hscript : Type := script * Z.

Definition on_script {A} (m : script → script * result errno A) (k : hscript) : hscript * result errno A :=
  let '(s, r) := m k.1 in ((s, k.2), r).

#[global] Instance hscript_drm : Drm hscript := {
  create_syncobj b := on_script (create_syncobj b);
  fd_to_syncobj f b := on_script (fd_to_syncobj f b);
  syncobj_to_fd h b := on_script (syncobj_to_fd h b);
  syncobj_timeline_transfer a b p q := on_script (syncobj_timeline_transfer a b p q);
  syncobj_timeline_signal h p := on_script (syncobj_timeline_signal h p);
  syncobj_timeline_wait h p t a b c := on_script (syncobj_timeline_wait h p t a b c);
  syncobj_timeline_query h k := (k, Ok k.2);
  syncobj_eventfd h p f b := on_script (syncobj_eventfd h p f b);
  ioctl_import_sync_file h f := on_script (ioctl_import_sync_file h f);
  clock_monotonic := on_script clock_monotonic
}.

#[global] Instance hscript_socket : SeqPacketOps hscript := {
  sendmsg b f := on_script (sendmsg b f);
  recvmsg n := on_script (recvmsg n);
  getsockopt_peercred := on_script getsockopt_peercred
}.

(** A layer socket without records. *)
Definition silent_socket : SeqPacketOps hscript := {|
  sendmsg b f k := (k, Err EAGAIN);
  recvmsg n k := (k, Err EAGAIN);
  getsockopt_peercred k := (k, Err EAGAIN)
|}.

#[global] Instance hscript_ops : HostOps hscript := {
  ho_drm := hscript_drm;
  ho_endpoint := hscript_socket;
  ho_stream _ _ := silent_socket;
  ho_accept k := (k, Ok tt);
  ho_eventfd k := (k, Ok 50);
  ho_eventfd_read _ k := (k, Ok 1);
  ho_host_call _ k := (k, Ok tt);
  ho_bo_create w h fourcc modifiers k := (k, Ok (mkBufferObject 1 0 [(0, 4 * w)]));
  ho_bo_plane _ _ k := (k, Ok 60);
  ho_retire_contacts _ k := k
}.

(** One task whose second frame the compositor holds back. *)
Definition host_inbox : list (list Z * list fd) :=
  [packet (ClientHello 1 1 capability.REQUIRED_V1) [];
   packet (CreateTask 5 2 [97; 46; 98]) [];
   packet (BindTimelines 5) [20; 21];
   packet (AckConfigure 5 1) [];
   packet (Present 5 1 1 1 10 20 []) [];
   packet (Present 5 2 2 1 11 21 []) [];
   packet (DestroyTask 5) []].

Definition host_env : Env :=
  mkEnv [] (Some [(ARGB8888, LINEAR)]) false false None false (mkExpected 0 1000 1000).

Definition host_start : HostApp.App hscript :=
  mkApp ((mkScript host_inbox [] true, 1), None) ∅ Readiness.tasks_default (FrameGrants.mkClock None false 0)
    (Activation.mkTokens ∅ ∅ 0 None) None host_env 0 100 [] None.

Definition host_events : list HostEvent :=
  [EvTurn 0 3; EvConfigured 100 (Some 64, Some 64) (Resize.mkSize 64 64) true; EvTurn 0 1; EvTurn 0 1; EvTurn 0 1].

Definition host_demo : HostApp.App hscript := default host_start (host_runs host_events host_start).
Definition demo_endpoint : DenialEndpoint := default endpoint_new (a_host host_demo).2.
Definition demo_window : TaskWindow := default (new_window false None []) (a_windows host_demo !! 5).
Definition demo_view : TaskView := default new_view (ep_view demo_endpoint !! 5).

(** Both frames are on the compositor's side. *)
Example host_demo_frames :
  tw_pending demo_window = [mkPendingFrame 1 1 2; mkPendingFrame 2 2 2].
Proof. vm_compute. reflexivity. Qed.

Lemma host_demo_reachable : reachable host_demo.
Proof.
  apply (host_runs_reachable host_events host_start); [by apply reach_start| |vm_compute; reflexivity].
  by repeat constructor.
Qed.

Lemma host_books_witness :
  map_to_list (tv_frames demo_view) ≡ₚ [(1, 1); (2, 2)].
Proof.
  apply (proj1 (host_books host_demo demo_endpoint 5 demo_window demo_view host_demo_reachable
                  ltac:(vm_compute; reflexivity) ltac:(vm_compute; reflexivity) ltac:(vm_compute; reflexivity))).
Defined.

Lemma host_windows_witness : is_Some (a_windows host_demo !! 5).
Proof.
  pose proof (host_windows host_demo host_demo_reachable) as Hw.
  assert ((a_host host_demo).2 = Some demo_endpoint) as E by (vm_compute; reflexivity).
  rewrite E in Hw. apply Hw. exists demo_view. vm_compute. reflexivity.
Defined.

Definition demo_turn : HostApp.App hscript * result LayerError unit := run_event (EvTurn 0 1) host_demo.



(** The same window when the kernel reports both points. *)
Definition demo_signalled : HostApp.App hscript :=
  with_host ((mkScript [] [] true, 2), Some demo_endpoint) host_demo.

